(* ===== verification/_CoqProject ===== *)
-Q . S2P
Prelude.v
Bencode.v
TorrentPersonalize.v
PyVal.v
JsonDump.v
Ipv4.v
PolicyDoc.v
Sha256.v
PolicySample.v
PolicyQuarantine.v
PolicyQos.v
PolicyRoles.v
PolicyValid.v
PolicyQosValid.v
PolicyPersist.v
PolicyEval.v
PolicyEvalSpec.v
PolicyStore.v
PolicyCommit.v
PolicyLifecycle.v
JsonText.v
PolicyBlast.v
BlastSpec.v
KeyedState.v
KeyedSpec.v
SchedDoc.v
SchedValid.v
SchedTime.v
SchedTimeSpec.v
SchedStore.v
SchedOps.v
WaveGate.v
SchedSpec.v
OccSpec.v
SchedClaim.v
SchedReceipt.v
ReceiptSpec.v
ReceiptPages.v
SchedRunner.v
RunnerTotal.v
RunnerSpec.v
RunnerPass.v
Odict.v
PeerRegistry.v
RegistryIndex.v
RegistrySpec.v
RegistrySelect.v
PeerEndpoints.v
EndpointSpec.v
Blocklist.v
BlocklistSpec.v
Tracker.v
TrackerSpec.v
Interleave.v
PeerHandouts.v
HandoutRows.v
HandoutSpec.v
TrackerLedger.v
PeerLedger.v
LedgerSpec.v
UrlText.v
Regex.v
ApiRoutes.v
Secrets.v
Auth.v
AuthSpec.v
RotationSpec.v
InstrKeySpec.v
TrackerWire.v
WireSpec.v
RoutesSpec.v
CredCache.v
CacheSpec.v
JsonParse.v
Instructions.v
Envelope.v
EnvelopeSpec.v
EnvelopeSeal.v
