(* ===== verification/Prelude.v ===== *)
(** * IRIS: verification of the release-image staging server

    IRIS stages release images on a fleet of network devices over BitTorrent.  Its
    server publishes personalized torrents, decides which devices may exchange pieces,
    and stages images on a schedule with durable evidence of every step.  This
    development models the server's own decision and persistence logic in Python
    (src/server) and proves what the rest of the system relies on.

    ** Parts and files

    The files are listed in dependency order in _CoqProject; each opens with a summary.

    - Foundations.  [Prelude] (exceptions, the error monad [res] with its [let*] and
      [raise ... when], bytes, lists, sorting, the tactics [head], [by_eval] and the
      hint databases), [PyVal] (JSON documents as Python values, with the exceptions of
      the operations on them), [JsonDump] and [JsonText] (what [json.dump] keeps and
      the canonical text), [JsonParse] ([json.loads], and base64), [Ipv4] ([ipaddress]),
      [UrlText] ([urllib.parse]), [Regex] (regular expressions by derivatives), [Sha256].
      [KeyedState] opens with the monad of state and exceptions: what was written before
      raising stays written.
    - Torrents.  [Bencode] models bencode.py, [TorrentPersonalize] models
      torrent_personalize.py: round trip of the codec, the raw scanner accepts exactly
      the grammar, and personalizing changes the announce members and no other byte.
    - Peer policy, peer_policy.py.  [PolicyDoc], [PolicyQos], [PolicyRoles] (tables,
      field checks, QoS layers, role graph, [validate_document]), [PolicyQuarantine],
      [PolicyEval] (the evaluator), [PolicyStore] (files, commits, outbox),
      [PolicyLifecycle] (the operators' mutations), [PolicyBlast] (the preview on bit
      masks).  [PolicyValid], [PolicyQosValid] and [PolicyPersist] show what an accepted
      document guarantees and that acceptance survives the state file; [PolicyEvalSpec]
      states the decision as a typed first-match specification which the evaluator
      refines, with isolation of quarantined devices and symmetry of the mutual permit;
      [PolicyCommit] shows that a commit cut anywhere leaves the old or the new policy,
      and what readers fall back to; [BlastSpec] shows that the preview equals the
      device-by-device answer.
    - Keyed state, keyed_state.py.  [KeyedState] is the sharded store with the migration
      of the document it replaces; [KeyedSpec] shows that behind the files there is one
      map, before, during and after an interrupted migration, and packages that contract
      as the class [RowStore] with its instance.  The clients below are proved against
      the class.
    - Schedules, schedules.py.  [SchedDoc] (definitions, snapshots, wave gates),
      [SchedTime] ([next_fire] over a time zone), [SchedStore] (occurrences), [SchedOps]
      (definitions, cursor, claims), [SchedReceipt] (receipts and pages).  [SchedValid],
      [OccSpec] and [ReceiptSpec] carry the row checks across the state file.
      [SchedTimeSpec]: local times resolve correctly across gaps and folds, the slot
      after a cursor is the first one, and where [next_fire] ends and where it does not.
      [SchedSpec]: compare-and-swap, and a revision that names one document for ever.
      [OccSpec], [ReceiptSpec]: occurrences and receipts are evidence, they stay and
      move along declared steps.  [SchedClaim]: a claim may be repeated after a crash.
      [ReceiptPages]: a page is a slice of one list.
    - The runner, schedule_runner.py.  [WaveGate] ([_wave_open] with the rounding of
      binary64), [SchedRunner] (recovery, claims, gates, admission, polling,
      cancellation, the end of an occurrence, [run_once]).  [RunnerTotal]: a pass always
      returns, within its budgets, and service is fair over any succession of passes.  [RunnerSpec] and
      [RunnerPass]: a Hoare logic of runner steps; every [dispatch] is covered by an
      intent on disk, inside the window and under the frozen definition, and an
      occurrence is over only when every target has a terminal receipt.

    - Swarms.  [Odict] (dicts with values of any type).  [PeerRegistry] models
      peer_registry.py, the tracker's memory of who announced what, with its indexes by
      role, type, principal and address: [RegistryIndex] and [RegistrySpec] show that
      every index agrees with the rows after any sequence of operations, [RegistrySelect]
      that the indexed selection returns what a scan of all rows would.  [PeerEndpoints]
      models peer_endpoints.py, the durable map of where a principal was last seen, with
      the queue of writes to retry ([EndpointSpec]).  [Blocklist] models
      blocklist_reconciler.py, the addresses the origin refuses ([BlocklistSpec]: exactly
      those all of whose principals are denied or revoked, never the origin itself).
    - The tracker, tracker.py.  [Tracker] is the announce handler after authentication,
      over the registry, the policy and two writers; [TrackerSpec]: the peers in a reply
      are permitted in both directions, and a quarantined device is told of nobody.
      [TrackerWire] is the rest of a request: the query, the credential, the route, the
      scrape and the bencoded replies; [WireSpec]: a client reads in a reply the peers
      that were selected, the fields of a query are read as they were written, nothing
      is answered before authentication but a refusal, and a scrape tells the counts of the
      swarm asked for, to a device only of one the authorizer grants it.
    - Credentials.  [Secrets] models secrets_store.py (records, strict indexes, minting,
      rotation, revocation, instruction keys), [Auth] models auth.py; [AuthSpec] shows
      that a request is authenticated as the owner of a live record with the presented
      value and as nobody else, and what revocation ends; [RotationSpec] and
      [InstrKeySpec] follow a value through minting and rotation.  [CredCache] models
      credential_cache.py as programs of atomic actions beside a writer; [CacheSpec]
      shows that a view is of a version of the file no older than the request, so a
      revoked credential is refused from then on.
    - Routes, api_routes.py.  [ApiRoutes] is the table, its patterns and the mappings of
      paths; [RoutesSpec]: a browser reaches the management path of a route registered
      for it, or the one path registered for nobody.
    - Instructions, instructions.py, instruction_aead.py and the helper program
      tools/iris-aead.c.  [Instructions] holds the schemas, [Envelope] canonical JSON, keys,
      framing, sealing, opening and the helper.  [EnvelopeSpec]: the encodings are injective
      and read back, and what the schemas accept is text.  [EnvelopeSeal]: what is sealed
      opens, and what opens is byte for byte what sealing its contents gives.  The classes
      [Aead] and [AeadStrict] are what the helper promises, proved of [iris_aead] from the
      laws of AES-SIV ([SivLaws]).
    - Evidence of disclosure, peer_handouts.py.  [Interleave] gives programs of atomic
      actions, pools of threads that interleave them, and failures at any action;
      [PeerHandouts] is the ledger as such programs over a [RowStore]; [HandoutRows] and
      [HandoutSpec] show, by a rely and a guarantee, that the two files stay consistent
      and that a disclosure that returns is on record whatever the other threads do.
      [TrackerLedger] puts tracker and ledger together: no device is told of a peer
      without a record of it.
    - Bytes sent, peer_ledger.py.  [PeerLedger] and [LedgerSpec]: the durable total of an
      address is the sum of the peaks of its connections' counters, across restarts.

    [PolicySample] and the ends of [SchedOps] and [SchedRunner] hold the concrete
    documents the witnesses evaluate.

    ** How the code is read

    Dicts are association lists in insertion order with distinct keys ([wf_val]);
    reading back a file reorders them, and [jeq] is equality up to that order.  Ints are
    unbounded as in Python, and bounded where the code checks them; floats are a
    mantissa and an exponent.  Strings are UTF-8 bytes.  An operation on files is a
    function from the files to a result and the files, run alone: the locks of the code
    are not modelled, interleaving is, where the code leaves a lock (a crash between two
    writes, definitions edited while the runner calls out, the two locks of the handout
    ledger).  A file replacement is
    atomic, as [os.replace] is; a commit is the list of its replacements.

    ** Parameters

    SHA-1 (torrents), the time zone database (whether a zone exists, and its offsets
    under the laws [ZoneLaws]), the decimal form of a float ([JsonText]), fresh uuids,
    all that the runner calls ([outside]: clock, stop flags, role authority, target
    resolver, executor), the tracker's random starts and its two writers, its scrape
    authorizer, the client of the download daemon that receives the blocklist, the random
    draws and the lifetimes of credentials, what [stat] reports of a version of a file (it
    must tell any two versions apart), the check [urlsplit] makes of an authority, and the
    AES-SIV of OpenSSL behind the modelled helper.  Each hypothesis on one is a named class,
    record or premise with a concrete instance among the samples.

    ** Bounds

    Loops that are not structural take fuel and answer [OutOfFuel] when it ends: the
    decoder and the scanner get the length of the input, the search for a role that
    reaches the origin the square of the number of roles, the binary search of a gap the
    number of seconds it spans, the walk over weekly slots four weeks, since it starts
    less than two before its goal.  The theorems about these functions give the answer, so
    [OutOfFuel] is not reached.
    The initialization of the handout ledger takes the number of other initializers it
    may lose to.  The one exception is the recursion of
    [next_fire], which the code does not bound either: [next_fire_dispatchable] and
    [next_fire_recurs_forever] say when it ends and when no fuel is enough.  The runner
    needs none of its own: its loops are over lists and the claim budget, and
    [run_once_total] says that the slot computations it makes always end.

    ** Not modelled

    Thread pools, locks, events and signal handling; the snapshot cache and the change
    fingerprints of the keyed store, memos of file signatures; CPython's limits on
    recursion depth and on the digits of an int.  The HTTP handlers and sessions of the
    management API and the console, sockets of the tracker, SSH and HTTPS sessions with
    devices, the BitTorrent daemon and firewall sets: they do I/O around the logic above.
    Stamping and signing of instructions, certificates and secret files rest on
    cryptographic libraries and processes.  Schedule validation, role management,
    deployment records and telemetry orchestrate the operations modelled here over HTTP
    and files.  The agent on the device is a program of its own. *)
From stdpp Require Export base list strings numbers sorting sets relations.
From Stdlib Require Export ZArith Lia Ascii.

Declare Scope py_scope.
Delimit Scope py_scope with py.
Open Scope Z_scope.
#[global] Set Default Goal Selector "!".

(** ** Exceptions and the error monad *)

(** The exception classes the modelled modules raise or catch.  A constructor
    carries what callers can observe of the instance (message, error code,
    revision).  [OutOfFuel] is no Python exception: it marks a bounded loop of
    the model that ran out of steps, and is proved unreachable. *)
Inductive pyexn :=
  | ValueError (msg : string)
  | TypeError (msg : string)
  | AttributeError (msg : string)
  | KeyError (key : string)
  | OSError (msg : string)
  | OverflowError
  | PolicyError (code msg : string)
  | PolicyDegradedError (msg : string)
  | OperationBacklogFull
  | RevisionConflict (revision : Z)
  | RoleInUse (role : string) (member_count : Z)
      (referring_roles referring_schedules : list string)
  | ScheduleValidationError (msg : string)
  | ScheduleConflict (msg : string)
  | ScheduleNotFound (msg : string)
  | ScheduleRevisionConflict (schedule_id : string) (revision : Z)
  | ScheduleStateError (msg : string)
  | ExecutionRefused (reason : string)
  | EndpointStoreError (msg : string)
  | HandoutStoreError (msg : string)
  | EnforcementError (msg : string)
  | StoreCorruptError (msg : string)
  | DuplicateCredentialError (msg : string)
  | CredentialMintError (msg : string)
  | InstructionKeyError (msg : string)
  | InstructionError (msg : string)
  | AnnounceAuthError (msg : string) (expired : bool)
  | OutOfFuel.

(** A computation that returns a value or raises. *)
Inductive res (A : Type) :=
  | Ok (a : A)
  | Err (e : pyexn).
Arguments Ok {A} _.
Arguments Err {A} _.

#[export] Instance res_ret : MRet res := fun A a => Ok a.
#[export] Instance res_bind : MBind res := fun A B f m =>
  match m with Ok a => f a | Err e => Err e end.

(** [let* x := c in k] is the sequencing [x = c; k]; [raise e 'when' b; k]
    is [if b: raise e]. *)
Notation "'let*' x ':=' c 'in' k" := (mbind (M:=res) (fun x => k) c)
  (at level 10, x pattern, c at level 100, k at level 200,
   only parsing) : py_scope.
Notation "c ';;;' k" := (mbind (M:=res) (fun _ : unit => k) c)
  (at level 100, k at level 200, right associativity, only parsing) : py_scope.
Notation "'raise' e 'when' b ';;;' k" := (if b then Err e else k)
  (at level 100, e at level 9, b at level 99, k at level 200,
   right associativity, only parsing) : py_scope.
Open Scope py_scope.

(** [for x in l: f(x)] where the body only raises. *)
Fixpoint res_iter {A} (f : A -> res unit) (l : list A) : res unit :=
  match l with
  | [] => Ok tt
  | x :: l => f x ;;; res_iter f l
  end.

(** A loop that threads a state through its body. *)
Fixpoint res_fold {A S} (f : S -> A -> res S) (s : S) (l : list A) : res S :=
  match l with
  | [] => Ok s
  | x :: l => let* s' := f s x in res_fold f s' l
  end.

(** A comprehension whose body may raise. *)
Fixpoint res_map {A B} (f : A -> res B) (l : list A) : res (list B) :=
  match l with
  | [] => Ok []
  | x :: l => let* y := f x in let* ys := res_map f l in Ok (y :: ys)
  end.

Definition is_ok {A} (r : res A) : bool :=
  match r with Ok _ => true | Err _ => false end.

(** ** Byte strings *)

(** Python [bytes]; a Python [str] is kept as its UTF-8 bytes in a [string]. *)
Abbreviation bytes := (list ascii).

Definition bytes_of (s : string) : bytes := String.list_ascii_of_string s.
Definition string_of (b : bytes) : string := String.string_of_list_ascii b.

Definition byte_val (c : ascii) : Z := Z.of_nat (nat_of_ascii c).

Definition byte_eqb (a b : ascii) : bool := bool_decide (a = b).

(** [len] of a sequence, as the unbounded integer Python returns. *)
Definition zlen {A} (l : list A) : Z := Z.of_nat (length l).

(** [data[i:j]] for nonnegative bounds: out-of-range bounds are clamped. *)
Definition slice {A} (l : list A) (i j : Z) : list A :=
  let n := zlen l in
  take (Z.to_nat (Z.min j n - Z.min i n)) (drop (Z.to_nat (Z.min i n)) l).

(** [data[i:]] *)
Definition suffix_from {A} (l : list A) (i : Z) : list A :=
  drop (Z.to_nat (Z.min i (zlen l))) l.

(** [data.find(c, i)] for a one-byte needle; [None] is [-1]. *)
Fixpoint find_byte (c : ascii) (l : bytes) : option Z :=
  match l with
  | [] => None
  | x :: l => if byte_eqb x c then Some 0 else Z.succ <$> find_byte c l
  end.

Definition find_from (data : bytes) (c : ascii) (i : Z) : option Z :=
  Z.add i <$> find_byte c (suffix_from data i).

Definition is_digit (c : ascii) : bool :=
  (48 <=? byte_val c) && (byte_val c <=? 57).

(** [bytes.isdigit]: non-empty and all ASCII digits. *)
Definition isdigit (b : bytes) : bool :=
  match b with [] => false | _ => forallb is_digit b end.

Definition digit_val (c : ascii) : Z := byte_val c - 48.

Definition digit_char (d : Z) : ascii := ascii_of_nat (Z.to_nat (48 + d)).

(** The value of a run of decimal digits. *)
Definition digits_val (b : bytes) : Z :=
  foldl (fun acc c => 10 * acc + digit_val c) 0 b.

(** [%d] of a nonnegative integer: [fuel] bounds the number of digits. *)
Fixpoint dec_fuel (fuel : nat) (n : Z) (acc : bytes) : bytes :=
  match fuel with
  | O => acc
  | S fuel =>
      let acc := digit_char (n mod 10) :: acc in
      if n / 10 =? 0 then acc else dec_fuel fuel (n / 10) acc
  end.

Definition dec_nonneg (n : Z) : bytes :=
  dec_fuel (S (Z.to_nat (Z.log2 n))) n [].

(** [b"%d" % n] *)
Definition dec (n : Z) : bytes :=
  if n <? 0 then "-"%char :: dec_nonneg (- n) else dec_nonneg n.

(** Lexicographic order on byte strings: Python's [<] on [bytes], and on
    [str] (code point order is UTF-8 byte order). *)
Fixpoint bytes_ltb (a b : bytes) : bool :=
  match a, b with
  | _, [] => false
  | [], _ :: _ => true
  | x :: a, y :: b =>
      (byte_val x <? byte_val y) || ((byte_val x =? byte_val y) && bytes_ltb a b)
  end.

Definition bytes_leb (a b : bytes) : bool := negb (bytes_ltb b a).
Definition str_ltb (a b : string) : bool := bytes_ltb (bytes_of a) (bytes_of b).
Definition str_leb (a b : string) : bool := negb (str_ltb b a).

(** Insertion sort by a key: [sorted] is stable, and so is this. *)
Fixpoint insert_by {A} (le : A -> A -> bool) (x : A) (l : list A) : list A :=
  match l with
  | [] => [x]
  | y :: l => if le x y then x :: y :: l else y :: insert_by le x l
  end.

Definition sort_by {A} (le : A -> A -> bool) (l : list A) : list A :=
  foldr (insert_by le) [] l.

(** ** Automation *)

(** Splits a successful run of the error monad into its successful steps. *)
Ltac res_step H :=
  match type of H with
  | context [mbind (M:=res) _ ?c] =>
      lazymatch type of H with _ = Ok _ => idtac | Ok _ = _ => idtac end;
      let E := fresh "E" in
      destruct c eqn:E; cbn [mbind res_bind] in H; [| discriminate H]
  | (if ?b then Err _ else _) = Ok _ =>
      let E := fresh "E" in destruct b eqn:E; [discriminate H |]
  | (if ?b then _ else Err _) = Ok _ =>
      let E := fresh "E" in destruct b eqn:E; [| discriminate H]
  | Ok _ = Ok _ => injection H as H
  | Err _ = Ok _ => discriminate H
  end.

Ltac res_inv H := repeat res_step H; try subst.

(** One step of a successful run [H : ... = Ok _], at the head only: the outcome of
    the bound computation, condition or scrutinee is recorded in [E], branches that
    raise are closed. *)
Ltac head_step H E :=
  lazymatch type of H with
  | mbind (M:=res) _ ?c = Ok _ =>
      destruct c as [? |] eqn:E; cbn [mbind res_bind] in H; [| discriminate H]
  | (if ?b then _ else _) = Ok _ => destruct b eqn:E; try discriminate H
  | match ?v with _ => _ end = Ok _ => destruct v eqn:E; try discriminate H
  end.
Tactic Notation "head" hyp(H) "as" ident(E) := head_step H E.
Tactic Notation "head" hyp(H) := let E := fresh "E" in head_step H E; clear E.

Ltac units := repeat match goal with u : () |- _ => destruct u end.

(** Decides a closed proposition by evaluation. *)
Ltac by_eval := apply (bool_decide_unpack _); vm_compute; exact I.

Create HintDb py discriminated.

Ltac bool_norm :=
  repeat match goal with
  | H : negb _ = true |- _ => apply negb_true_iff in H
  | H : negb _ = false |- _ => apply negb_false_iff in H
  | H : _ && _ = true |- _ => apply andb_true_iff in H; destruct H
  | H : _ || _ = false |- _ => apply orb_false_iff in H; destruct H
  | H : (_ =? _) = true |- _ => apply Z.eqb_eq in H
  | H : (_ =? _) = false |- _ => apply Z.eqb_neq in H
  | H : (_ <=? _) = true |- _ => apply Z.leb_le in H
  | H : (_ <=? _) = false |- _ => apply Z.leb_gt in H
  | H : (_ <? _) = true |- _ => apply Z.ltb_lt in H
  | H : (_ <? _) = false |- _ => apply Z.ltb_ge in H
  | H : bool_decide _ = true |- _ => apply bool_decide_eq_true in H
  | H : bool_decide _ = false |- _ => apply bool_decide_eq_false in H
  end.

(** ** Lemmas on the error monad *)

Lemma res_iter_ok {A} (f : A -> res unit) (l : list A) :
  res_iter f l = Ok tt <-> Forall (fun x => f x = Ok tt) l.
Proof.
  induction l as [| x l IH]; cbn [res_iter].
  - split; [constructor | done].
  - rewrite Forall_cons, <- IH. destruct (f x) as [[] | e]; cbn; [tauto |].
    by split; [| intros [? ?]].
Qed.

Lemma res_iter_ext {A} (f g : A -> res unit) (l : list A) :
  Forall (fun x => f x = g x) l -> res_iter f l = res_iter g l.
Proof. induction 1 as [| x l Hx _ IH]; cbn; [done |]. by rewrite Hx, IH. Qed.

Lemma res_map_ok {A B} (f : A -> res B) (l : list A) (k : list B) :
  res_map f l = Ok k <-> Forall2 (fun x y => f x = Ok y) l k.
Proof.
  revert k. induction l as [| x l IH]; intros k; cbn [res_map].
  - split; [intros [= <-]; constructor | by inversion 1].
  - split.
    + intros H. res_inv H. constructor; [done |]. by apply IH.
    + inversion 1 as [| ? y ? k' Hy Hk]; subst. rewrite Hy. cbn.
      by rewrite (proj2 (IH k') Hk).
Qed.

Lemma res_fold_app {A S} (f : S -> A -> res S) (s : S) (l k : list A) :
  res_fold f s (l ++ k) = let* s' := res_fold f s l in res_fold f s' k.
Proof.
  revert s. induction l as [| x l IH]; intros s; cbn; [done |].
  destruct (f s x); cbn; [apply IH | done].
Qed.

(** An invariant of a loop holds when the loop ends normally. *)
Lemma res_fold_inv {A S} (P : S -> Prop) (f : S -> A -> res S) (s s' : S) (l : list A) :
  (forall s x s', x ∈ l -> P s -> f s x = Ok s' -> P s') ->
  P s -> res_fold f s l = Ok s' -> P s'.
Proof.
  revert s. induction l as [| x l IH]; intros s Hstep Hs H; cbn in H.
  - by simplify_eq.
  - res_inv H. eapply IH; [| | exact H].
    + intros s1 y s2 Hy. apply Hstep. by right.
    + eapply Hstep; [by left | exact Hs | done].
Qed.

(** Two runs of a loop stay related when their steps do, errors included. *)
Definition res_rel {A B} (R : A -> B -> Prop) (x : res A) (y : res B) : Prop :=
  match x, y with
  | Ok a, Ok b => R a b
  | Err e, Err e' => e = e'
  | _, _ => False
  end.

Lemma res_fold_rel {A B S T} (R : S -> T -> Prop) (Q : A -> B -> Prop)
    (f : S -> A -> res S) (g : T -> B -> res T) s t l k :
  (forall s t x y, R s t -> Q x y -> res_rel R (f s x) (g t y)) ->
  R s t -> Forall2 Q l k -> res_rel R (res_fold f s l) (res_fold g t k).
Proof.
  intros Hstep Hst Hl. revert s t Hst. induction Hl as [| x y l k Hxy _ IH]; intros s t Hst; [done |].
  cbn [res_fold]. specialize (Hstep s t x y Hst Hxy).
  destruct (f s x), (g t y); cbn in *; try done. by apply IH.
Qed.

(** ** Lemmas on byte strings *)

Lemma zlen_nonneg {A} (l : list A) : 0 <= zlen l.
Proof. unfold zlen. lia. Qed.

Lemma zlen_app {A} (l k : list A) : zlen (l ++ k) = zlen l + zlen k.
Proof. unfold zlen. rewrite length_app. lia. Qed.

Lemma zlen_cons {A} (x : A) (l : list A) : zlen (x :: l) = 1 + zlen l.
Proof. unfold zlen. cbn [length]. lia. Qed.

Ltac zlen_nil := repeat match goal with
  | |- context [@zlen ?A []] => change (@zlen A []) with 0
  | H : context [@zlen ?A []] |- _ => change (@zlen A []) with 0 in H
  end.
Ltac zlen_simpl :=
  repeat match goal with
  | |- context [zlen (_ ++ _)] => rewrite zlen_app
  | |- context [zlen (_ :: _)] => rewrite zlen_cons
  | H : context [zlen (_ ++ _)] |- _ => rewrite zlen_app in H
  | H : context [zlen (_ :: _)] |- _ => rewrite zlen_cons in H
  end; zlen_nil.
Ltac zlen_lia :=
  repeat match goal with
  | |- context [zlen ?l] =>
      lazymatch goal with _ : 0 <= zlen l |- _ => fail | _ => idtac end;
      pose proof (zlen_nonneg l)
  | _ : context [zlen ?l] |- _ =>
      lazymatch goal with _ : 0 <= zlen l |- _ => fail | _ => idtac end;
      pose proof (zlen_nonneg l)
  end; lia.

(** Reading at the boundary of a decomposition [pre ++ suf]. *)
Lemma slice_at {A} (pre suf : list A) k :
  0 <= k -> slice (pre ++ suf) (zlen pre) (zlen pre + k) = take (Z.to_nat k) suf.
Proof.
  intros Hk. unfold slice. rewrite zlen_app.
  rewrite (Z.min_l (zlen pre)) by (pose proof (zlen_nonneg suf); lia).
  replace (Z.to_nat (zlen pre)) with (length pre) by (unfold zlen; lia).
  rewrite drop_app_length.
  destruct (Z.le_ge_cases k (zlen suf)).
  - rewrite Z.min_l by lia. f_equal. lia.
  - rewrite Z.min_r by lia. rewrite !take_ge; [done | |]; unfold zlen in *; lia.
Qed.

Lemma slice_mid {A} (pre mid post : list A) :
  slice (pre ++ mid ++ post) (zlen pre) (zlen pre + zlen mid) = mid.
Proof.
  rewrite slice_at by apply zlen_nonneg.
  unfold zlen. rewrite Nat2Z.id. apply take_app_length.
Qed.

Lemma slice_mid' {A} (pre mid post : list A) i j :
  i = zlen pre -> j = zlen pre + zlen mid -> slice (pre ++ mid ++ post) i j = mid.
Proof. intros -> ->. apply slice_mid. Qed.

Lemma suffix_from_at {A} (pre suf : list A) : suffix_from (pre ++ suf) (zlen pre) = suf.
Proof.
  unfold suffix_from. rewrite zlen_app, Z.min_l by (pose proof (zlen_nonneg suf); lia).
  unfold zlen. rewrite Nat2Z.id. apply drop_app_length.
Qed.

(** Every index inside a list is such a boundary. *)
Lemma split_at {A} (l : list A) i :
  0 <= i <= zlen l -> exists pre suf, l = pre ++ suf /\ zlen pre = i.
Proof.
  intros Hi. exists (take (Z.to_nat i) l), (drop (Z.to_nat i) l).
  split; [by rewrite take_drop |]. unfold zlen in *. rewrite length_take. lia.
Qed.

Lemma byte_eqb_eq a b : byte_eqb a b = true <-> a = b.
Proof. unfold byte_eqb. by rewrite bool_decide_eq_true. Qed.

Lemma byte_eqb_refl a : byte_eqb a a = true.
Proof. by apply byte_eqb_eq. Qed.

Lemma find_byte_first c a b : c ∉ a -> find_byte c (a ++ c :: b) = Some (zlen a).
Proof.
  induction a as [| x a IH]; intros Hc; cbn [find_byte app].
  - by rewrite byte_eqb_refl.
  - apply not_elem_of_cons in Hc as [Hx Ha].
    unfold byte_eqb. rewrite bool_decide_false by congruence.
    rewrite IH by done. cbn. f_equal. rewrite zlen_cons. lia.
Qed.

Lemma find_byte_Some c l k :
  find_byte c l = Some k -> exists a b, l = a ++ c :: b /\ zlen a = k /\ c ∉ a.
Proof.
  revert k. induction l as [| x l IH]; intros k H; cbn in H; [done |].
  destruct (byte_eqb x c) eqn:E.
  - apply byte_eqb_eq in E as ->. injection H as <-. exists [], l.
    split_and!; [done | done | apply not_elem_of_nil].
  - destruct (find_byte c l) as [k' |]; [| done]. injection H as <-.
    destruct (IH k' eq_refl) as (a & b & -> & <- & Ha).
    exists (x :: a), b. rewrite zlen_cons. split_and!; [done | lia |].
    apply not_elem_of_cons. split; [| done].
    intros ->. by rewrite byte_eqb_refl in E.
Qed.

Lemma find_from_at pre suf c :
  find_from (pre ++ suf) c (zlen pre) = Z.add (zlen pre) <$> find_byte c suf.
Proof. unfold find_from. by rewrite suffix_from_at. Qed.

(** ** Decimal numerals *)

Lemma byte_val_digit_char d : 0 <= d < 10 -> byte_val (digit_char d) = 48 + d.
Proof.
  intros Hd. unfold byte_val, digit_char.
  rewrite nat_ascii_embedding by lia. lia.
Qed.

Lemma is_digit_digit_char d : 0 <= d < 10 -> is_digit (digit_char d) = true.
Proof. intros Hd. unfold is_digit. rewrite byte_val_digit_char by done. lia. Qed.

Lemma digit_val_digit_char d : 0 <= d < 10 -> digit_val (digit_char d) = d.
Proof. intros Hd. unfold digit_val. rewrite byte_val_digit_char by done. lia. Qed.

Lemma digits_val_app a b :
  digits_val (a ++ b) = digits_val a * 10 ^ zlen b + digits_val b.
Proof.
  unfold digits_val. rewrite foldl_app. generalize (foldl (fun acc c => 10 * acc + digit_val c) 0 a).
  induction b as [| x b IH] using rev_ind; intros z; cbn.
  - zlen_nil. cbn. lia.
  - rewrite !foldl_app. cbn. rewrite (IH z), zlen_app, zlen_cons. zlen_nil.
    rewrite Z.pow_add_r by (try apply zlen_nonneg; lia). cbn. lia.
Qed.

(** What [dec_fuel] writes in front of its accumulator. *)
Lemma dec_fuel_spec fuel n acc :
  0 <= n -> n < 2 ^ Z.of_nat fuel -> (0 < fuel)%nat ->
  exists ds, dec_fuel fuel n acc = ds ++ acc /\ isdigit ds = true /\
    digits_val ds = n /\ (n <> 0 -> hd "0"%char ds <> "0"%char) /\
    (n = 0 -> ds = ["0"%char]).
Proof.
  revert n acc. induction fuel as [| fuel IH]; intros n acc Hn Hb Hf; [lia |].
  cbn [dec_fuel]. pose proof (Z.mod_pos_bound n 10 ltac:(lia)) as Hm.
  pose proof (Z.div_mod n 10 ltac:(lia)) as Hdm.
  destruct (n / 10 =? 0) eqn:E.
  - apply Z.eqb_eq in E. exists [digit_char (n mod 10)]. split_and!.
    + done.
    + cbn. by rewrite is_digit_digit_char.
    + cbn. rewrite digit_val_digit_char by done. lia.
    + cbn. intros Hn0 H0. apply (f_equal byte_val) in H0.
      rewrite byte_val_digit_char in H0 by done. change (byte_val "0") with 48 in H0. lia.
    + intros ->. done.
  - apply Z.eqb_neq in E.
    assert (0 < n / 10) by (pose proof (Z.div_pos n 10); lia).
    rewrite Nat2Z.inj_succ, Z.pow_succ_r in Hb by lia.
    destruct (IH (n / 10) (digit_char (n mod 10) :: acc)) as (ds & -> & Hd & Hv & Hh & _).
    { lia. } { apply Z.div_lt_upper_bound; lia. }
    { destruct fuel; [| lia]. cbn in Hb. lia. }
    exists (ds ++ [digit_char (n mod 10)]). split_and!.
    + by rewrite <- app_assoc.
    + destruct ds; [done |]. cbn in *. rewrite forallb_app. cbn.
      rewrite is_digit_digit_char by done. apply andb_true_iff in Hd as [-> ->]. done.
    + rewrite digits_val_app, Hv. change (10 ^ zlen [_]) with 10.
      unfold digits_val. cbn [foldl]. rewrite digit_val_digit_char by done. lia.
    + intros _. specialize (Hh ltac:(lia)). destruct ds; [done |]. done.
    + lia.
Qed.

Lemma dec_nonneg_spec n :
  0 <= n ->
  isdigit (dec_nonneg n) = true /\ digits_val (dec_nonneg n) = n /\
  (n <> 0 -> hd "0"%char (dec_nonneg n) <> "0"%char) /\
  (n = 0 -> dec_nonneg n = ["0"%char]).
Proof.
  intros Hn. unfold dec_nonneg.
  destruct (dec_fuel_spec (S (Z.to_nat (Z.log2 n))) n []) as (ds & -> & H).
  - done.
  - rewrite Nat2Z.inj_succ, Z2Nat.id by apply Z.log2_nonneg.
    destruct (Z.eq_dec n 0) as [-> | ?]; [done |]. apply Z.log2_spec. lia.
  - lia.
  - rewrite app_nil_r. done.
Qed.

(** ** The order on byte strings *)

Lemma byte_val_inj a b : byte_val a = byte_val b -> a = b.
Proof.
  unfold byte_val. intros H. apply Nat2Z.inj in H.
  rewrite <- (ascii_nat_embedding a), <- (ascii_nat_embedding b). by rewrite H.
Qed.

Lemma bytes_ltb_irrefl a : bytes_ltb a a = false.
Proof. induction a as [| x a IH]; cbn; [done |]. rewrite IH. lia. Qed.

Lemma bytes_ltb_trans a b c :
  bytes_ltb a b = true -> bytes_ltb b c = true -> bytes_ltb a c = true.
Proof.
  revert b c. induction a as [| x a IH]; intros [| y b] [| z c]; cbn; try done.
  intros H1 H2. apply orb_true_iff in H1, H2. apply orb_true_iff.
  destruct H1 as [H1 | H1], H2 as [H2 | H2]; bool_norm; try (left; lia).
  right. apply andb_true_iff. split; [lia | by eapply IH].
Qed.

Lemma bytes_ltb_total a b :
  bytes_ltb a b = false -> bytes_ltb b a = false -> a = b.
Proof.
  revert b. induction a as [| x a IH]; intros [| y b]; cbn; try done.
  intros [Hxy Ha]%orb_false_iff [Hyx Hb]%orb_false_iff. bool_norm.
  assert (Heq : byte_val x = byte_val y) by lia.
  rewrite Heq, Z.eqb_refl in Ha, Hb. cbn in Ha, Hb.
  f_equal; [by apply byte_val_inj | by apply IH].
Qed.

Lemma bytes_leb_total a b : bytes_leb a b || bytes_leb b a = true.
Proof.
  unfold bytes_leb. destruct (bytes_ltb b a) eqn:E1, (bytes_ltb a b) eqn:E2; try done.
  pose proof (bytes_ltb_trans _ _ _ E1 E2) as H. by rewrite bytes_ltb_irrefl in H.
Qed.

Lemma bytes_leb_trans a b c :
  bytes_leb a b = true -> bytes_leb b c = true -> bytes_leb a c = true.
Proof.
  unfold bytes_leb. rewrite !negb_true_iff. intros H1 H2.
  destruct (bytes_ltb c a) eqn:E; [| done].
  destruct (bytes_ltb c b) eqn:Ecb; [done |]. destruct (bytes_ltb b c) eqn:Ebc.
  - by rewrite (bytes_ltb_trans b c a) in H1.
  - by rewrite (bytes_ltb_total c b Ecb Ebc) in E; rewrite H1 in E.
Qed.

Lemma bytes_leb_ltb a b : a <> b -> bytes_leb a b = bytes_ltb a b.
Proof.
  intros Hne. unfold bytes_leb. destruct (bytes_ltb b a) eqn:E1, (bytes_ltb a b) eqn:E2; try done.
  - by pose proof (bytes_ltb_trans _ _ _ E1 E2) as H; rewrite bytes_ltb_irrefl in H.
  - by destruct Hne; apply bytes_ltb_total.
Qed.

(** ** [sorted] *)

Section sort_by.
Context {A : Type} (le : A -> A -> bool).

Lemma insert_by_perm x l : insert_by le x l ≡ₚ x :: l.
Proof.
  induction l as [| y l IH]; cbn; [done |]. destruct (le x y); [done |].
  rewrite IH. apply Permutation_swap.
Qed.

Lemma sort_by_perm l : sort_by le l ≡ₚ l.
Proof.
  induction l as [| x l IH]; [done |]. cbn. fold (sort_by le l).
  by rewrite insert_by_perm, IH.
Qed.

Lemma sort_by_elem x l : x ∈ sort_by le l <-> x ∈ l.
Proof. by rewrite sort_by_perm. Qed.

Lemma sort_by_id l : Sorted (fun x y => le x y = true) l -> sort_by le l = l.
Proof.
  induction 1 as [| x l Hs IH Hhd]; [done |]. cbn. fold (sort_by le l). rewrite IH.
  destruct Hhd as [| y l Hxy]; cbn; [done |]. by rewrite Hxy.
Qed.

Lemma sort_by_Forall2 {B} (le' : B -> B -> bool) (R : A -> B -> Prop) l k :
  (forall x x' y y', R x x' -> R y y' -> le x y = le' x' y') ->
  Forall2 R l k -> Forall2 R (sort_by le l) (sort_by le' k).
Proof.
  intros Hle. induction 1 as [| x x' l k Hx Hl IH]; cbn; [constructor |].
  fold (sort_by le l). fold (sort_by le' k).
  induction IH as [| y y' l' k' Hy Hl' IH']; cbn; [by repeat constructor |].
  rewrite (Hle x x' y y') by done. destruct (le' x' y'); by repeat constructor.
Qed.

Context (le_total : forall x y, le x y || le y x = true).
Context (le_trans : forall x y z, le x y = true -> le y z = true -> le x z = true).

Lemma insert_by_sorted x l :
  StronglySorted (fun x y => le x y = true) l ->
  StronglySorted (fun x y => le x y = true) (insert_by le x l).
Proof.
  induction 1 as [| y l Hs IH Hall]; cbn; [by repeat constructor |].
  destruct (le x y) eqn:E.
  - constructor; [by constructor |]. constructor; [done |].
    eapply Forall_impl; [exact Hall |]. intros z. by apply le_trans.
  - constructor; [done |]. rewrite insert_by_perm. constructor; [| done].
    specialize (le_total x y). by rewrite E in le_total.
Qed.

Lemma sort_by_sorted l : StronglySorted (fun x y => le x y = true) (sort_by le l).
Proof.
  induction l as [| x l IH]; cbn; [constructor |]. by apply insert_by_sorted.
Qed.
End sort_by.

(** A loop that appends the elements it selects. *)
Lemma res_fold_filter {A} (g : A -> bool) (f : list A -> A -> res (list A)) (acc l : list A) :
  (forall acc x, f acc x = Ok (if g x then acc ++ [x] else acc)) ->
  res_fold f acc l = Ok (acc ++ filter (fun x => g x = true) l).
Proof.
  intros Hf. revert acc. induction l as [| x l IH]; intros acc; cbn [res_fold].
  - by rewrite app_nil_r.
  - rewrite Hf. cbn [mbind res_bind]. rewrite IH, filter_cons.
    destruct (g x); [rewrite decide_True by done | rewrite decide_False by done]; [| done].
    by rewrite <- app_assoc.
Qed.

Lemma Forall2_elem_r {A B} (R : A -> B -> Prop) l k y :
  Forall2 R l k -> y ∈ k -> exists x, x ∈ l /\ R x y.
Proof.
  induction 1 as [| a b l k Hab _ IH]; intros Hy; [inversion Hy |].
  apply elem_of_cons in Hy as [-> | Hy]; [exists a; split; [by left | done] |].
  destruct (IH Hy) as (x & ? & ?). exists x. split; [by right | done].
Qed.

Lemma Forall2_elem_l {A B} (R : A -> B -> Prop) l k x :
  Forall2 R l k -> x ∈ l -> exists y, y ∈ k /\ R x y.
Proof.
  induction 1 as [| a b l k Hab _ IH]; intros Hx; [inversion Hx |].
  apply elem_of_cons in Hx as [-> | Hx]; [exists b; split; [by left | done] |].
  destruct (IH Hx) as (y & ? & ?). exists y. split; [by right | done].
Qed.

(** A loop succeeds with the same state on related inputs. *)
Lemma res_fold_mono {A B S} (Q : A -> B -> Prop) (f : S -> A -> res S) (g : S -> B -> res S) s s' l k :
  (forall s s' x y, Q x y -> f s x = Ok s' -> g s y = Ok s') ->
  Forall2 Q l k -> res_fold f s l = Ok s' -> res_fold g s k = Ok s'.
Proof.
  intros Hstep Hl. revert s. induction Hl as [| x y l k Hxy _ IH]; intros s H; cbn [res_fold] in *; [done |].
  head H as E. rewrite (Hstep _ _ _ _ Hxy E). by apply IH.
Qed.

Lemma filter_all {A} (P : A -> Prop) `{!forall x, Decision (P x)} (l : list A) :
  Forall P l -> filter P l = l.
Proof. induction 1 as [| x l Hx _ IH]; [done |]. by rewrite filter_cons_True, IH. Qed.

Lemma filter_none {A} (P : A -> Prop) `{!forall x, Decision (P x)} (l : list A) :
  Forall (fun x => ~ P x) l -> filter P l = [].
Proof. induction 1 as [| x l Hx _ IH]; [done |]. by rewrite filter_cons_False, IH. Qed.
