(* ===== verification/Bencode.v ===== *)
(** * [server/bencode.py]: bencode encoder and decoder

    The Python objects the encoder dispatches on, [encode] and [decode] with
    their exceptions, and the theorems that relate them: every encodable object
    without colliding dict keys decodes to its canonical form, and the decoder's
    loops always terminate within the bytes they are given. *)
From S2P Require Import Prelude.

(** ** The objects *)

#[local] Set Warnings "-register-all".

(** A Python object as [_encode] sees it.  [BStr] holds the UTF-8 bytes of a
    [str]; [BOther] is any object of another type. *)
Inductive bobj :=
  | BBool (b : bool)
  | BInt (z : Z)
  | BBytes (b : bytes)
  | BStr (utf8 : bytes)
  | BList (l : list bobj)
  | BTuple (l : list bobj)
  | BDict (d : list (bobj * bobj))
  | BOther (type_name : string).

Section bobj_rect.
Context (P : bobj -> Prop).
Context (Hbool : forall b, P (BBool b)) (Hint : forall z, P (BInt z)).
Context (Hbytes : forall b, P (BBytes b)) (Hstr : forall b, P (BStr b)).
Context (Hlist : forall l, Forall P l -> P (BList l)).
Context (Htuple : forall l, Forall P l -> P (BTuple l)).
Context (Hdict : forall d, Forall (fun kv => P (snd kv)) d -> P (BDict d)).
Context (Hother : forall s, P (BOther s)).

(** Induction through the nested lists. *)
Lemma bobj_nested_ind : forall o, P o.
Proof.
  fix IH 1. intros [b | z | b | b | l | l | d | s];
    [apply Hbool | apply Hint | apply Hbytes | apply Hstr | | | | apply Hother].
  - apply Hlist. induction l as [| x l IHl]; constructor; [apply IH | exact IHl].
  - apply Htuple. induction l as [| x l IHl]; constructor; [apply IH | exact IHl].
  - apply Hdict. induction d as [| [k v] d IHd]; constructor; [apply IH | exact IHd].
Qed.
End bobj_rect.

(** ** Encoding *)

(** [_key_bytes]: [key.encode] exists only on [str]. *)
Definition _key_bytes (key : bobj) : res bytes :=
  match key with
  | BBytes b => Ok b
  | BStr b => Ok b
  | _ => Err (AttributeError "encode")
  end.

(** [b"%d:" % len(b) + b] *)
Definition byte_string (b : bytes) : bytes := dec (zlen b) ++ ":"%char :: b.

(** The body of the loop over [sorted(obj, key=_key_bytes)]: [items] pairs each
    key with its bytes and with the encoder of its value. *)
Definition encode_items (items : list (bytes * (bytes -> res bytes))) (buf : bytes) : res bytes :=
  res_fold (fun buf '(kb, enc) => enc (buf ++ byte_string kb)) buf
    (sort_by (fun x y => bytes_leb (fst x) (fst y)) items).

(** [_encode(obj, buf)]: the buffer after the call. *)
Fixpoint _encode (obj : bobj) (buf : bytes) {struct obj} : res bytes :=
  match obj with
  | BBool _ => Err (TypeError "refusing to bencode a bool")
  | BInt z => Ok (buf ++ "i"%char :: dec z ++ ["e"%char])
  | BBytes b => Ok (buf ++ byte_string b)
  | BStr b => Ok (buf ++ byte_string b)
  | BList l | BTuple l =>
      let* buf := res_fold (fun buf item => _encode item buf) (buf ++ ["l"%char]) l in
      Ok (buf ++ ["e"%char])
  | BDict d =>
      let buf := buf ++ ["d"%char] in
      let* items := res_map (fun kv => let* kb := _key_bytes (fst kv) in Ok (kb, _encode (snd kv))) d in
      let* buf := encode_items items buf in
      Ok (buf ++ ["e"%char])
  | BOther name => Err (TypeError ("cannot bencode " +:+ name))
  end.

Definition encode (obj : bobj) : res bytes := _encode obj [].

(** ** Decoding *)

Definition is_space (c : ascii) : bool :=
  let v := byte_val c in ((9 <=? v) && (v <=? 13)) || (v =? 32).

Fixpoint lstrip (b : bytes) : bytes :=
  match b with
  | [] => []
  | c :: b' => if is_space c then lstrip b' else b
  end.

Definition strip (b : bytes) : bytes := reverse (lstrip (reverse (lstrip b))).

(** Decimal digits with single underscores between digits. *)
Fixpoint int_digits (prev : bool) (acc : Z) (b : bytes) : option Z :=
  match b with
  | [] => if prev then Some acc else None
  | c :: b =>
      if is_digit c then int_digits true (10 * acc + digit_val c) b
      else if byte_eqb c "_" then (if prev then int_digits false acc b else None)
      else None
  end.

(** [int(b)] on a byte string: surrounding white space, a sign, digits. *)
Definition py_int (b : bytes) : option Z :=
  match strip b with
  | "-"%char :: b => Z.opp <$> int_digits false 0 b
  | "+"%char :: b => int_digits false 0 b
  | b => int_digits false 0 b
  end.

(** [out[key] = val] on a dict under construction: an unhashable key raises,
    an equal key keeps its place and takes the new value. *)
Definition key_eqb (a b : bobj) : bool :=
  match a, b with
  | BInt x, BInt y => x =? y
  | BBytes x, BBytes y => bool_decide (x = y)
  | _, _ => false
  end.

Fixpoint items_set (d : list (bobj * bobj)) (k v : bobj) : list (bobj * bobj) :=
  match d with
  | [] => [(k, v)]
  | (k', v') :: d => if key_eqb k' k then (k', v) :: d else (k', v') :: items_set d k v
  end.

Definition dict_store (d : list (bobj * bobj)) (k v : bobj) : res (list (bobj * bobj)) :=
  match k with
  | BList _ | BTuple _ | BDict _ => Err (TypeError "unhashable type")
  | _ => Ok (items_set d k v)
  end.

(** The two [while data[i:i + 1] != b"e"] loops, over the decoder of one value. *)
Fixpoint decode_list (fuel : nat) (dec_at : Z -> res (bobj * Z)) (data : bytes)
    (i : Z) (out : list bobj) : res (bobj * Z) :=
  match fuel with
  | O => Err OutOfFuel
  | S fuel =>
      if bool_decide (slice data i (i + 1) = ["e"%char]) then Ok (BList out, i + 1)
      else let* (item, i) := dec_at i in decode_list fuel dec_at data i (out ++ [item])
  end.

Fixpoint decode_dict (fuel : nat) (dec_at : Z -> res (bobj * Z)) (data : bytes)
    (i : Z) (out : list (bobj * bobj)) : res (bobj * Z) :=
  match fuel with
  | O => Err OutOfFuel
  | S fuel =>
      if bool_decide (slice data i (i + 1) = ["e"%char]) then Ok (BDict out, i + 1)
      else
        let* (key, i) := dec_at i in
        let* (val, i) := dec_at i in
        let* out := dict_store out key val in
        decode_dict fuel dec_at data i out
  end.

(** [_decode(data, i)]: the value and the index after it. *)
Fixpoint _decode (fuel : nat) (data : bytes) (i : Z) : res (bobj * Z) :=
  match fuel with
  | O => Err OutOfFuel
  | S fuel =>
      let ch := slice data i (i + 1) in
      if bool_decide (ch = ["i"%char]) then
        match find_from data "e" i with
        | None => Err (ValueError "subsection not found")
        | Some end_ =>
            match py_int (slice data (i + 1) end_) with
            | None => Err (ValueError "invalid literal for int()")
            | Some z => Ok (BInt z, end_ + 1)
            end
        end
      else if bool_decide (ch = ["l"%char]) then
        decode_list (S fuel) (_decode fuel data) data (i + 1) []
      else if bool_decide (ch = ["d"%char]) then
        decode_dict (S fuel) (_decode fuel data) data (i + 1) []
      else if isdigit ch then
        match find_from data ":" i with
        | None => Err (ValueError "subsection not found")
        | Some colon =>
            match py_int (slice data i colon) with
            | None => Err (ValueError "invalid literal for int()")
            | Some length =>
                let start := colon + 1 in
                Ok (BBytes (slice data start (start + length)), start + length)
            end
        end
      else Err (ValueError "invalid bencode token")
  end.

(** Every call of [_decode] consumes a byte, so one step per byte suffices. *)
Definition decode (data : bytes) : res bobj :=
  let* (value, index) := _decode (S (length data)) data 0 in
  raise (ValueError "trailing bytes after bencode value") when negb (index =? zlen data) ;;;
  Ok value.

(** ** Canonical values *)

(** The values bencode can express, with dict members in key order. *)
Inductive cval :=
  | CInt (z : Z)
  | CBytes (b : bytes)
  | CList (l : list cval)
  | CDict (d : list (bytes * cval)).

(** The reference serialisation. *)
Fixpoint render (c : cval) : bytes :=
  match c with
  | CInt z => "i"%char :: dec z ++ ["e"%char]
  | CBytes b => byte_string b
  | CList l => "l"%char :: (l ≫= render) ++ ["e"%char]
  | CDict d => "d"%char :: (d ≫= (fun kv => byte_string (fst kv) ++ render (snd kv))) ++ ["e"%char]
  end.

(** The value an object denotes, or the exception its encoding raises. *)
Fixpoint canonical (obj : bobj) : res cval :=
  match obj with
  | BBool _ => Err (TypeError "refusing to bencode a bool")
  | BInt z => Ok (CInt z)
  | BBytes b | BStr b => Ok (CBytes b)
  | BList l | BTuple l => let* l := res_map canonical l in Ok (CList l)
  | BDict d =>
      let* items := res_map (fun kv => let* kb := _key_bytes (fst kv) in Ok (kb, canonical (snd kv))) d in
      let* d := res_map (fun kr => let* c := snd kr in Ok (fst kr, c))
                  (sort_by (fun x y => bytes_leb (fst x) (fst y)) items) in
      Ok (CDict d)
  | BOther name => Err (TypeError ("cannot bencode " +:+ name))
  end.

(** The object [decode] builds for a value. *)
Fixpoint embed (c : cval) : bobj :=
  match c with
  | CInt z => BInt z
  | CBytes b => BBytes b
  | CList l => BList (map embed l)
  | CDict d => BDict (map (fun kv => (BBytes (fst kv), embed (snd kv))) d)
  end.

(** No dict of the value has two members under one key. *)
Fixpoint distinct_keys (c : cval) : Prop :=
  match c with
  | CInt _ | CBytes _ => True
  | CList l => foldr (fun c P => distinct_keys c /\ P) True l
  | CDict d => NoDup (map fst d) /\ foldr (fun kv P => distinct_keys (snd kv) /\ P) True d
  end.

Section cval_rect.
Context (P : cval -> Prop).
Context (Hint : forall z, P (CInt z)) (Hbytes : forall b, P (CBytes b)).
Context (Hlist : forall l, Forall P l -> P (CList l)).
Context (Hdict : forall d, Forall (fun kv => P (snd kv)) d -> P (CDict d)).

Lemma cval_nested_ind : forall c, P c.
Proof.
  fix IH 1. intros [z | b | l | d]; [apply Hint | apply Hbytes | |].
  - apply Hlist. induction l as [| x l IHl]; constructor; [apply IH | exact IHl].
  - apply Hdict. induction d as [| [k v] d IHd]; constructor; [apply IH | exact IHd].
Qed.
End cval_rect.

(** ** The encoder implements the reference serialisation *)

Lemma encode_list_spec l buf :
  Forall (fun o => forall buf, _encode o buf = let* c := canonical o in Ok (buf ++ render c)) l ->
  res_fold (fun buf item => _encode item buf) buf l =
  let* cs := res_map canonical l in Ok (buf ++ (cs ≫= render)).
Proof.
  intros H. revert buf. induction H as [| o l Ho _ IH]; intros buf; cbn.
  - by rewrite app_nil_r.
  - rewrite Ho. destruct (canonical o) as [c | e]; cbn; [| done].
    rewrite IH. destruct (res_map canonical l); cbn; [| done]. by rewrite <- app_assoc.
Qed.

(** [encode_items] against the values its encoders denote. *)
Lemma encode_items_spec (items : list (bytes * (bytes -> res bytes))) vals buf :
  Forall2 (fun x y => fst x = fst y /\
    forall buf, snd x buf = let* c := snd y in Ok (buf ++ render c)) items vals ->
  encode_items items buf =
  let* d := res_map (fun kr => let* c := snd kr in Ok (fst kr, c))
              (sort_by (fun x y => bytes_leb (fst x) (fst y)) vals) in
  Ok (buf ++ (d ≫= (fun kv => byte_string (fst kv) ++ render (snd kv)))).
Proof.
  intros H. unfold encode_items.
  apply (sort_by_Forall2 (fun x y => bytes_leb (fst x) (fst y))
           (fun x y => bytes_leb (fst x) (fst y))) in H.
  2: { intros x x' y y' [-> _] [-> _]. done. }
  revert buf. induction H as [| [k enc] [k' r] l l' [Hk Henc] _ IH]; intros buf; cbn.
  - by rewrite app_nil_r.
  - cbn in Hk, Henc. subst k'. rewrite Henc. destruct r as [c | e]; cbn; [| done].
    rewrite IH. destruct (res_map _ l'); cbn; [| done]. by rewrite <- !app_assoc.
Qed.

Lemma dict_items_spec d :
  Forall (fun kv => forall buf, _encode (snd kv) buf =
    let* c := canonical (snd kv) in Ok (buf ++ render c)) d ->
  match res_map (fun kv => let* kb := _key_bytes (fst kv) in Ok (kb, _encode (snd kv))) d,
        res_map (fun kv => let* kb := _key_bytes (fst kv) in Ok (kb, canonical (snd kv))) d with
  | Ok items, Ok vals => Forall2 (fun x y => fst x = fst y /\
      forall buf, snd x buf = let* c := snd y in Ok (buf ++ render c)) items vals
  | Err e, Err e' => e = e'
  | _, _ => False
  end.
Proof.
  induction 1 as [| [k o] d Ho _ IH]; cbn; [constructor |].
  destruct (_key_bytes k) as [kb | e]; cbn; [| done].
  destruct (res_map _ d), (res_map _ d); cbn; try done. by constructor.
Qed.

Lemma _encode_spec o buf :
  _encode o buf = let* c := canonical o in Ok (buf ++ render c).
Proof.
  revert buf. induction o as [| | | | l IH | l IH | d IH |] using bobj_nested_ind; intros buf;
    cbn [_encode canonical]; try done.
  - rewrite encode_list_spec by done. destruct (res_map canonical l); cbn; [| done].
    by rewrite <- !app_assoc.
  - rewrite encode_list_spec by done. destruct (res_map canonical l); cbn; [| done].
    by rewrite <- !app_assoc.
  - pose proof (dict_items_spec d IH) as H. cbn [mbind res_bind].
    destruct (res_map _ d) as [items | e], (res_map _ d) as [vals | e'];
      cbn; try done; [| by rewrite H].
    rewrite (encode_items_spec items vals) by done.
    destruct (res_map _ (sort_by _ vals)); cbn; [| done]. by rewrite <- !app_assoc.
Qed.

(** ** Reading numerals back *)

Lemma is_digit_not_space c : is_digit c = true -> is_space c = false.
Proof. unfold is_digit, is_space. intros H. bool_norm. lia. Qed.

Lemma is_digit_neq c x : is_digit c = true -> is_digit x = false -> c <> x.
Proof. intros H1 H2 ->. congruence. Qed.

Lemma isdigit_forall b : isdigit b = true -> b <> [] /\ Forall (fun c => is_digit c = true) b.
Proof.
  destruct b as [| c b]; [done |]. intros H. split; [done |].
  apply Forall_forall. intros x Hx. cbn [isdigit] in H.
  rewrite forallb_forall in H. apply H. by apply list_elem_of_In.
Qed.

Lemma lstrip_id b : Forall (fun c => is_space c = false) b -> lstrip b = b.
Proof. destruct 1 as [| c b Hc _]; cbn; [done |]. by rewrite Hc. Qed.

Lemma strip_id b : Forall (fun c => is_space c = false) b -> strip b = b.
Proof.
  intros H. unfold strip. rewrite (lstrip_id b), lstrip_id by (done || by apply Forall_reverse).
  apply reverse_involutive.
Qed.

Lemma int_digits_run p acc b :
  Forall (fun c => is_digit c = true) b -> (b <> [] \/ p = true) ->
  int_digits p acc b = Some (foldl (fun acc c => 10 * acc + digit_val c) acc b).
Proof.
  intros H. revert p acc. induction H as [| c b Hc _ IH]; intros p acc Hp; cbn [int_digits foldl].
  - destruct Hp as [? | ->]; done.
  - rewrite Hc. apply IH. by right.
Qed.

Lemma py_int_digits b : isdigit b = true -> py_int b = Some (digits_val b).
Proof.
  intros H. destruct (isdigit_forall b H) as [Hne Hd]. unfold py_int.
  rewrite strip_id by (eapply Forall_impl; [exact Hd | apply is_digit_not_space]).
  destruct b as [| c b]; [done |]. apply Forall_cons in Hd as [Hc Hd].
  assert (c <> "-"%char) by by apply is_digit_neq.
  assert (c <> "+"%char) by by apply is_digit_neq.
  pose proof (int_digits_run false 0 (c :: b)) as Hr.
  rewrite Forall_cons in Hr. specialize (Hr (conj Hc Hd) (or_introl Hne)).
  destruct c as [[] [] [] [] [] [] [] []]; exact Hr || congruence.
Qed.

Lemma dec_chars z : Forall (fun c => is_digit c = true \/ c = "-"%char) (dec z).
Proof.
  assert (Hn : forall n, 0 <= n -> Forall (fun c => is_digit c = true \/ c = "-"%char) (dec_nonneg n)).
  { intros n Hn. destruct (dec_nonneg_spec n Hn) as (Hd & _).
    eapply Forall_impl; [apply isdigit_forall, Hd |]. tauto. }
  unfold dec. destruct (z <? 0) eqn:E; bool_norm; [constructor; [by right |] |]; apply Hn; lia.
Qed.

Lemma py_int_dec z : py_int (dec z) = Some z.
Proof.
  unfold dec. destruct (z <? 0) eqn:E; bool_norm.
  - destruct (dec_nonneg_spec (- z) ltac:(lia)) as (Hd & Hv & _).
    destruct (isdigit_forall _ Hd) as [Hne Hall]. unfold py_int.
    rewrite strip_id.
    + transitivity (Z.opp <$> int_digits false 0 (dec_nonneg (- z))); [done |].
      rewrite int_digits_run by (done || by left). fold (digits_val (dec_nonneg (- z))).
      rewrite Hv. cbn. f_equal. lia.
    + constructor; [done |]. eapply Forall_impl; [exact Hall | apply is_digit_not_space].
  - destruct (dec_nonneg_spec z ltac:(lia)) as (Hd & Hv & _).
    rewrite py_int_digits by done. by rewrite Hv.
Qed.

Lemma not_digit_notin c b :
  is_digit c = false -> c <> "-"%char ->
  Forall (fun x => is_digit x = true \/ x = "-"%char) b -> c ∉ b.
Proof.
  intros Hc Hm H Hin. rewrite Forall_forall in H. destruct (H _ Hin); congruence.
Qed.

Lemma dec_len_nonneg {A} (b : list A) : dec (zlen b) = dec_nonneg (zlen b).
Proof. unfold dec. pose proof (zlen_nonneg b). by rewrite (proj2 (Z.ltb_ge _ _)). Qed.

Lemma byte_string_head b : exists c t,
  byte_string b = c :: t /\ is_digit c = true.
Proof.
  unfold byte_string. rewrite dec_len_nonneg.
  destruct (dec_nonneg_spec (zlen b) (zlen_nonneg b)) as (Hd & _).
  destruct (isdigit_forall _ Hd) as [Hne Hall].
  destruct (dec_nonneg (zlen b)) as [| c t]; [done |].
  apply Forall_cons in Hall as [Hc _]. by exists c, (t ++ ":"%char :: b).
Qed.

(** ** The decoder reads the reference serialisation *)

Ltac slice_head := rewrite slice_at by lia; change (Z.to_nat 1) with 1%nat; cbn [take].

Lemma decode_byte_string fuel pre b post :
  _decode (S fuel) (pre ++ byte_string b ++ post) (zlen pre) =
  Ok (BBytes b, zlen pre + zlen (byte_string b)).
Proof.
  destruct (byte_string_head b) as (c & t & Hct & Hc). cbn [_decode].
  assert (Hs : slice (pre ++ byte_string b ++ post) (zlen pre) (zlen pre + 1) = [c]).
  { rewrite Hct. by slice_head. }
  rewrite Hs. clear Hs Hct t.
  rewrite !bool_decide_false by (intros [= ->]; done).
  cbn [isdigit forallb]. rewrite Hc. cbn [andb].
  unfold byte_string. set (d := dec (zlen b)).
  assert (Hcol : ":"%char ∉ d) by (apply not_digit_notin; [done | done | apply dec_chars]).
  replace (pre ++ (d ++ ":"%char :: b) ++ post) with (pre ++ d ++ ":"%char :: b ++ post)
    by by rewrite <- !app_assoc.
  rewrite find_from_at, find_byte_first by done. cbn [fmap option_fmap option_map].
  rewrite slice_mid. subst d. rewrite py_int_dec. rewrite !zlen_app, zlen_cons.
  set (d := dec (zlen b)). f_equal. f_equal; [f_equal | lia].
  replace (pre ++ d ++ ":"%char :: b ++ post) with ((pre ++ d ++ [":"%char]) ++ b ++ post)
    by by rewrite <- !app_assoc.
  apply slice_mid'; zlen_simpl; lia.
Qed.

Lemma render_head c : exists x t, render c = x :: t /\ x <> "e"%char.
Proof.
  destruct c as [z | b | l | d]; cbn [render]; try (eexists _, _; split; [done | discriminate]).
  destruct (byte_string_head b) as (x & t & -> & Hx). exists x, t.
  split; [done | by apply is_digit_neq].
Qed.

(** [_decode] at the start of the serialisation of [c]. *)
Definition reads (c : cval) : Prop := forall fuel pre post,
  (length (render c) <= fuel)%nat ->
  _decode fuel (pre ++ render c ++ post) (zlen pre) = Ok (embed c, zlen pre + zlen (render c)).

Lemma decode_list_spec l fuel n pre post out :
  Forall reads l -> Forall (fun c => (length (render c) <= fuel)%nat) l -> (length l < n)%nat ->
  let data := pre ++ (l ≫= render) ++ "e"%char :: post in
  decode_list n (_decode fuel data) data (zlen pre) out =
  Ok (BList (out ++ map embed l), zlen pre + zlen (l ≫= render) + 1).
Proof.
  intros Hr. revert n pre out. induction Hr as [| c l Hc _ IH]; intros n pre out Hlen Hn data;
    (destruct n as [| n]; [cbn in Hn; lia |]); cbn [decode_list]; subst data.
  - cbn [mbind list_bind app]. slice_head. rewrite bool_decide_true by done.
    cbn [map]. rewrite app_nil_r. zlen_nil. f_equal. f_equal. lia.
  - apply Forall_cons in Hlen as [Hcl Hlen].
    destruct (render_head c) as (x & t & Hx & Hne).
    rewrite bind_cons. rewrite <- app_assoc. rewrite bool_decide_false.
    2: { rewrite Hx. slice_head. intros [= ->]. done. }
    rewrite Hc by done. cbn [mbind res_bind].
    rewrite (app_assoc pre (render c)), <- zlen_app.
    rewrite IH by (done || cbn in Hn; lia).
    cbn [map]. rewrite <- app_assoc, !zlen_app. cbn [app]. f_equal. f_equal. lia.
Qed.

Lemma items_set_fresh d k v :
  Forall (fun kv => key_eqb (fst kv) k = false) d -> items_set d k v = d ++ [(k, v)].
Proof. induction 1 as [| [k' v'] d Hk _ IH]; cbn in *; [done |]. by rewrite Hk, IH. Qed.

Lemma decode_dict_spec d fuel n pre post out :
  Forall (fun kv => reads (snd kv)) d ->
  Forall (fun kv => (length (render (snd kv)) <= fuel)%nat) d ->
  (0 < fuel)%nat -> (length d < n)%nat -> NoDup (map fst out ++ map fst d) ->
  let data := pre ++ (d ≫= fun kv => byte_string (fst kv) ++ render (snd kv)) ++ "e"%char :: post in
  decode_dict n (_decode fuel data) data (zlen pre)
    (map (fun kv => (BBytes (fst kv), embed (snd kv))) out) =
  Ok (BDict (map (fun kv => (BBytes (fst kv), embed (snd kv))) (out ++ d)),
      zlen pre + zlen (d ≫= fun kv => byte_string (fst kv) ++ render (snd kv)) + 1).
Proof.
  intros Hr. revert n pre out.
  induction Hr as [| [k c] d Hc _ IH]; intros n pre out Hlen Hf Hn Hnd data;
    (destruct n as [| n]; [cbn in Hn; lia |]); cbn [decode_dict]; subst data.
  - cbn [mbind list_bind app]. slice_head. rewrite bool_decide_true by done.
    rewrite app_nil_r. zlen_nil. f_equal. f_equal. lia.
  - apply Forall_cons in Hlen as [Hcl Hlen]. cbn [fst snd] in *.
    destruct (byte_string_head k) as (x & t & Hx & Hdig).
    rewrite bind_cons. cbn [fst snd]. rewrite <- !app_assoc. rewrite bool_decide_false.
    2: { rewrite Hx. slice_head. intros [= ->]. done. }
    destruct fuel as [| fuel]; [lia |].
    rewrite decode_byte_string. cbn [mbind res_bind].
    rewrite (app_assoc pre (byte_string k)), <- zlen_app.
    rewrite Hc by done. cbn [mbind res_bind dict_store].
    rewrite items_set_fresh.
    2: { apply Forall_map, Forall_forall. intros [k' c'] Hin. cbn.
         apply bool_decide_false. intros ->. apply NoDup_app in Hnd as (_ & Hd & _).
         apply (Hd k); [| cbn; by left].
         change k with (fst (k, c')). apply list_elem_of_fmap. eauto. }
    change [(BBytes k, embed c)] with (map (fun kv => (BBytes (fst kv), embed (snd kv))) [(k, c)]).
    rewrite <- map_app, (app_assoc (pre ++ byte_string k)), <- zlen_app.
    rewrite IH; [| done | lia | cbn in Hn; lia |].
    + rewrite <- app_assoc, !zlen_app. cbn [app]. f_equal. f_equal. lia.
    + rewrite map_app, <- app_assoc. done.
Qed.

Lemma render_len_pos c : (1 <= length (render c))%nat.
Proof. destruct (render_head c) as (x & t & -> & _). cbn. lia. Qed.

Lemma bind_len_ge {A} (f : A -> bytes) (l : list A) :
  (forall x, 1 <= length (f x))%nat ->
  (length l <= length (l ≫= f))%nat /\ Forall (fun x => (length (f x) <= length (l ≫= f))%nat) l.
Proof.
  intros Hf. induction l as [| x l [IHn IHl]]; [done |]. rewrite bind_cons, length_app.
  pose proof (Hf x). cbn. split; [lia |]. constructor; [lia |].
  eapply Forall_impl; [exact IHl |]. cbn. lia.
Qed.

Lemma distinct_list l :
  foldr (fun c P => distinct_keys c /\ P) True l <-> Forall distinct_keys l.
Proof. induction l as [| c l IH]; cbn; [done |]. by rewrite Forall_cons, IH. Qed.

Lemma distinct_dict d :
  foldr (fun (kv : bytes * cval) P => distinct_keys (snd kv) /\ P) True d <->
  Forall (fun kv => distinct_keys (snd kv)) d.
Proof. induction d as [| c d IH]; cbn; [done |]. by rewrite Forall_cons, IH. Qed.

Lemma Forall_mp {A} (P Q : A -> Prop) l :
  Forall P l -> Forall (fun x => P x -> Q x) l -> Forall Q l.
Proof. intros HP. induction HP; inversion 1; subst; constructor; auto. Qed.

Lemma decode_reads c : distinct_keys c -> reads c.
Proof.
  induction c as [z | b | l IH | d IH] using cval_nested_ind; intros Hdk fuel pre post Hf.
  all: destruct fuel as [| fuel]; [pose proof (render_len_pos (CInt 0)); pose proof (render_len_pos (CBytes []));
         cbn [length] in Hf; match type of Hf with context [render ?c] => pose proof (render_len_pos c) end; lia |].
  - cbn [render embed _decode app] in *. rewrite <- app_assoc. cbn [app]. slice_head. rewrite bool_decide_true by done.
    change ("i"%char :: dec z ++ "e"%char :: post) with (("i"%char :: dec z) ++ "e"%char :: post).
    rewrite find_from_at, find_byte_first by
      (apply not_elem_of_cons; split; [done |]; apply not_digit_notin; [done | done | apply dec_chars]).
    cbn [fmap option_fmap option_map app].
    replace (pre ++ "i"%char :: dec z ++ "e"%char :: post)
      with ((pre ++ ["i"%char]) ++ dec z ++ "e"%char :: post) by by rewrite <- app_assoc.
    rewrite (slice_mid' (pre ++ ["i"%char])) by (zlen_simpl; lia).
    rewrite py_int_dec. f_equal. f_equal. zlen_simpl. lia.
  - apply decode_byte_string.
  - cbn [distinct_keys] in Hdk. apply distinct_list in Hdk.
    pose proof (Forall_mp _ _ _ Hdk IH) as Hr.
    destruct (bind_len_ge render l render_len_pos) as [Hn Hl].
    cbn [render embed _decode app] in *. rewrite <- app_assoc. cbn [app]. slice_head.
    rewrite bool_decide_false, bool_decide_true by done.
    replace (pre ++ "l"%char :: (l ≫= render) ++ "e"%char :: post)
      with ((pre ++ ["l"%char]) ++ (l ≫= render) ++ "e"%char :: post) by by rewrite <- app_assoc.
    cbn [length] in Hf. rewrite length_app in Hf. cbn [length] in Hf.
    replace (zlen pre + 1) with (zlen (pre ++ ["l"%char])) by (zlen_simpl; lia).
    rewrite decode_list_spec; [| done | | lia].
    + f_equal. f_equal. zlen_simpl. lia.
    + eapply Forall_impl; [exact Hl |]. cbn beta. lia.
  - cbn [distinct_keys] in Hdk. destruct Hdk as [Hnd Hdk]. apply distinct_dict in Hdk.
    pose proof (Forall_mp _ _ _ Hdk IH) as Hr.
    destruct (bind_len_ge (fun kv => byte_string (fst kv) ++ render (snd kv)) d) as [Hn Hl].
    { intros [k c]. cbn. rewrite length_app. pose proof (render_len_pos c). lia. }
    cbn [render embed _decode app] in *. rewrite <- app_assoc. cbn [app]. slice_head.
    rewrite !(bool_decide_false _), bool_decide_true by done.
    replace (pre ++ "d"%char :: (d ≫= fun kv => byte_string (fst kv) ++ render (snd kv)) ++ "e"%char :: post)
      with ((pre ++ ["d"%char]) ++ (d ≫= fun kv => byte_string (fst kv) ++ render (snd kv)) ++ "e"%char :: post)
      by by rewrite <- app_assoc.
    cbn [length] in Hf. rewrite length_app in Hf. cbn [length] in Hf.
    replace (zlen pre + 1) with (zlen (pre ++ ["d"%char])) by (zlen_simpl; lia).
    change (@nil (bobj * bobj)) with (map (fun kv : bytes * cval => (BBytes (fst kv), embed (snd kv))) []).
    rewrite decode_dict_spec; [| done | | lia | lia | done].
    + f_equal. f_equal. zlen_simpl. lia.
    + eapply Forall_impl; [exact Hl |]. intros [k c]. cbn [fst snd]. rewrite length_app. lia.
Qed.

(** ** Termination of the decoder *)

Lemma int_digits_nonneg p acc b z : int_digits p acc b = Some z -> 0 <= acc -> 0 <= z.
Proof.
  revert p acc. induction b as [| c b IH]; intros p acc H Hacc; cbn in H.
  - destruct p; by simplify_eq.
  - destruct (is_digit c) eqn:E.
    + apply IH in H; [done |]. unfold is_digit, digit_val in *. bool_norm. lia.
    + destruct (byte_eqb c "_"), p; try done. by apply IH in H.
Qed.

Lemma lstrip_snoc b c : is_space c = false -> exists b', lstrip (b ++ [c]) = b' ++ [c].
Proof.
  intros Hc. induction b as [| x b IH]; cbn; [rewrite Hc; by exists [] |].
  destruct (is_space x); [done |]. by exists (x :: b).
Qed.

Lemma py_int_nonneg c b z : is_digit c = true -> py_int (c :: b) = Some z -> 0 <= z.
Proof.
  intros Hc. pose proof (is_digit_not_space c Hc) as Hs. unfold py_int, strip. cbn [lstrip]. rewrite Hs.
  rewrite reverse_cons. destruct (lstrip_snoc (reverse b) c Hs) as [b' ->].
  rewrite reverse_snoc.
  assert (c <> "-"%char) by by apply is_digit_neq.
  assert (c <> "+"%char) by by apply is_digit_neq.
  intros H1. assert (H2 : int_digits false 0 (c :: reverse b') = Some z).
  { destruct c as [[] [] [] [] [] [] [] []]; exact H1 || congruence. }
  by apply int_digits_nonneg in H2.
Qed.

Lemma slice_one (data : bytes) i : 0 <= i ->
  (i < zlen data /\ exists pre c t, data = pre ++ c :: t /\ zlen pre = i /\ slice data i (i + 1) = [c]) \/
  (zlen data <= i /\ slice data i (i + 1) = []).
Proof.
  intros Hi. destruct (Z.lt_ge_cases i (zlen data)) as [Hlt | Hge].
  - left. split; [done |]. destruct (split_at data i) as (pre & suf & -> & <-); [lia |].
    rewrite zlen_app in Hlt. destruct suf as [| c t]; [zlen_nil; lia |].
    exists pre, c, t. split_and!; [done | done |]. by slice_head.
  - right. split; [done |]. unfold slice. rewrite !Z.min_r by lia.
    by rewrite Z.sub_diag.
Qed.

Lemma decode_list_safe n fuel data i out :
  0 <= i -> zlen data - i < Z.of_nat n -> (0 < n)%nat ->
  (forall k, i <= k -> _decode fuel data k <> Err OutOfFuel /\
     forall v j, _decode fuel data k = Ok (v, j) -> k < j) ->
  decode_list n (_decode fuel data) data i out <> Err OutOfFuel /\
  forall v j, decode_list n (_decode fuel data) data i out = Ok (v, j) -> i < j.
Proof.
  revert i out. induction n as [| n IH]; intros i out Hi Hn Hpos Hdec; [lia |].
  cbn [decode_list]. case_bool_decide as He; [split; [done | intros ? ? [= <- <-]; lia] |].
  destruct (Hdec i ltac:(lia)) as [Hnf Hprog].
  destruct (_decode fuel data i) as [[v k] | e] eqn:E; cbn; [| split; [congruence | done]].
  specialize (Hprog v k eq_refl).
  destruct n as [| n].
  { destruct (slice_one data i Hi) as [[? _] | [? Hs]]; [lia |].
    destruct fuel; cbn in E; [done |]. rewrite Hs in E. done. }
  destruct (IH k (out ++ [v])) as [H1 H2]; [lia | lia | lia | |].
  { intros k' Hk'. apply Hdec. lia. }
  split; [done |]. intros v' j Hj. specialize (H2 v' j Hj). lia.
Qed.

Lemma decode_dict_safe n fuel data i out :
  0 <= i -> zlen data - i < Z.of_nat n -> (0 < n)%nat ->
  (forall k, i <= k -> _decode fuel data k <> Err OutOfFuel /\
     forall v j, _decode fuel data k = Ok (v, j) -> k < j) ->
  decode_dict n (_decode fuel data) data i out <> Err OutOfFuel /\
  forall v j, decode_dict n (_decode fuel data) data i out = Ok (v, j) -> i < j.
Proof.
  revert i out. induction n as [| n IH]; intros i out Hi Hn Hpos Hdec; [lia |].
  cbn [decode_dict]. case_bool_decide as He; [split; [done | intros ? ? [= <- <-]; lia] |].
  destruct (Hdec i ltac:(lia)) as [Hnf Hprog].
  destruct (_decode fuel data i) as [[v k] | e] eqn:E; cbn; [| split; [congruence | done]].
  specialize (Hprog v k eq_refl). destruct (Hdec k ltac:(lia)) as [Hnf2 Hprog2].
  destruct (_decode fuel data k) as [[v2 k2] | e] eqn:E2; cbn; [| split; [congruence | done]].
  specialize (Hprog2 v2 k2 eq_refl).
  destruct (dict_store out v v2) as [out' | e] eqn:Es; cbn;
    [| split; [destruct v; cbn in Es; congruence | done]].
  destruct n as [| n].
  { destruct (slice_one data i Hi) as [[? _] | [? Hs]]; [lia |].
    destruct fuel; cbn in E; [done |]. rewrite Hs in E. done. }
  destruct (IH k2 out') as [H1 H2]; [lia | lia | lia | |].
  { intros k' Hk'. apply Hdec. lia. }
  split; [done |]. intros v' j Hj. specialize (H2 v' j Hj). lia.
Qed.

Lemma _decode_safe fuel data i :
  0 <= i -> zlen data - i < Z.of_nat fuel -> (0 < fuel)%nat ->
  _decode fuel data i <> Err OutOfFuel /\
  forall v j, _decode fuel data i = Ok (v, j) -> i < j.
Proof.
  revert i. induction fuel as [| fuel IH]; intros i Hi Hf Hpos; [lia |]. cbn [_decode].
  destruct (slice_one data i Hi) as [(Hlt & pre & c & t & -> & Hpre & Hs) | [Hge Hs]]; rewrite Hs.
  2: { repeat (case_bool_decide; [done |]). done. }
  assert (Hrec : forall k, i + 1 <= k -> _decode fuel (pre ++ c :: t) k <> Err OutOfFuel /\
     forall v j, _decode fuel (pre ++ c :: t) k = Ok (v, j) -> k < j).
  { intros k Hk. apply IH; lia. }
  repeat case_bool_decide.
  - rewrite <- Hpre, find_from_at. destruct (find_byte "e" (c :: t)) as [k |] eqn:Ek; cbn; [| done].
    destruct (find_byte_Some _ _ _ Ek) as (a & b & _ & <- & _).
    destruct (py_int _); [| done]. split; [done |]. intros v j [= <- <-]. zlen_lia.
  - destruct (decode_list_safe (S fuel) fuel (pre ++ c :: t) (i + 1) []) as [Hnf Hpr]; [lia | lia | lia | done |].
    split; [done |]. intros v j Hj. specialize (Hpr v j Hj). lia.
  - destruct (decode_dict_safe (S fuel) fuel (pre ++ c :: t) (i + 1) []) as [Hnf Hpr]; [lia | lia | lia | done |].
    split; [done |]. intros v j Hj. specialize (Hpr v j Hj). lia.
  - destruct (isdigit [c]) eqn:Hd; [| done]. cbn in Hd. rewrite andb_true_r in Hd.
    rewrite <- Hpre, find_from_at. destruct (find_byte ":" (c :: t)) as [k |] eqn:Ek; cbn; [| done].
    destruct (find_byte_Some _ _ _ Ek) as (a & b & Hab & <- & _).
    destruct a as [| c' a]; [injection Hab as -> _; done |]. injection Hab as <- ->.
    rewrite app_comm_cons, slice_mid.
    destruct (py_int (c :: a)) as [z |] eqn:Ez; [| done].
    apply py_int_nonneg in Ez; [| done]. split; [done |]. intros v j [= <- <-]. zlen_lia.
Qed.

Lemma decode_render c : distinct_keys c -> decode (render c) = Ok (embed c).
Proof.
  intros Hd. unfold decode. pose proof (decode_reads c Hd (S (length (render c))) [] []) as H.
  rewrite app_nil_r in H. cbn [app] in H. change (zlen (@nil ascii)) with 0 in H.
  rewrite H by lia. cbn [mbind res_bind]. by rewrite Z.eqb_refl.
Qed.

(** ** Theorems *)

(** [encode] raises exactly when the object has no canonical value (a bool,
    an object of an unsupported type, a dict key without bytes), with the same
    exception, and otherwise returns the reference serialisation of that value. *)
Theorem encode_spec o : encode o = let* c := canonical o in Ok (render c).
Proof. apply _encode_spec. Qed.

(** C37: round trip: [decode(encode(o))] is the canonical form of [o] (strings as
    bytes, tuples as lists, dict members in key order) for every encodable object
    whose dicts have no two keys with the same bytes. *)
Theorem decode_encode o c :
  canonical o = Ok c -> distinct_keys c ->
  (let* bs := encode o in decode bs) = Ok (embed c).
Proof.
  intros Hc Hd. unfold encode. rewrite _encode_spec, Hc. cbn [mbind res_bind app]. by apply decode_render.
Qed.

(** [decode] always terminates: on every input the loops end within one step
    per byte, so the result is a value or a Python exception. *)
Theorem decode_terminates data : decode data <> Err OutOfFuel.
Proof.
  unfold decode.
  destruct (_decode_safe (S (length data)) data 0) as [H _]; [lia | unfold zlen; lia | lia |].
  destruct (_decode _ data 0) as [[v j] | e]; cbn; [| congruence]. by destruct (negb _).
Qed.

Lemma decode_encode_witness :
  (let* bs := encode (BDict [(BStr (bytes_of "b"), BInt (-7)); (BBytes (bytes_of "a"), BTuple [BInt 0])]) in decode bs)
  = Ok (embed (CDict [(bytes_of "a", CList [CInt 0]); (bytes_of "b", CInt (-7))])).
Proof.
  apply (decode_encode (BDict [(BStr (bytes_of "b"), BInt (-7)); (BBytes (bytes_of "a"), BTuple [BInt 0])])
           (CDict [(bytes_of "a", CList [CInt 0]); (bytes_of "b", CInt (-7))])).
  - reflexivity.
  - split; [| cbn; tauto]. cbn. by_eval.
Defined.

(** Re-encoding what was decoded does not give back the input for inputs that are
    not in canonical form. *)
Example reencode_not_identity :
  (let* o := decode (bytes_of "i007e") in encode o) = Ok (bytes_of "i7e").
Proof. reflexivity. Qed.
