(* ===== verification/TorrentPersonalize.v ===== *)
(** * [server/torrent_personalize.py]: raw bencode span scanner and rewriter

    The scanner walks byte offsets without building objects; [personalize]
    rewrites the top-level [announce] and drops [announce-list].  The theorems
    show that [_skip_value] accepts exactly the bencode grammar, that every walk
    terminates, and that [personalize] succeeds on every torrent with [info] and
    [announce], leaves the raw bytes of every other member unchanged, and never
    trips its own output assertions. *)
From S2P Require Import Prelude Bencode.

(** ** Scanning *)

Definition _is_bencode_int (body : bytes) : bool :=
  match body with
  | [] => false
  | c :: rest =>
      let neg := byte_eqb c "-" in
      let s := if neg then rest else body in
      if neg && (bool_decide (s = ["0"%char]) || bool_decide (s = [])) then false
      else if negb (isdigit s) then false
      else if (1 <? zlen s) && bool_decide (take 1 s = ["0"%char]) then false
      else true
  end.

(** The [<len>:<bytes>] case shared by [_skip_value] and [_read_byte_string]:
    the bounds of the payload. *)
Definition byte_string_bounds (data : bytes) (i : Z) : res (Z * Z) :=
  match find_from data ":" i with
  | None => Err (ValueError "byte string missing colon")
  | Some colon =>
      let length_bytes := slice data i colon in
      if negb (isdigit length_bytes) then Err (ValueError "malformed byte string length")
      else if (1 <? zlen length_bytes) && bool_decide (take 1 length_bytes = ["0"%char])
      then Err (ValueError "byte string length has leading zero")
      else
        let start := colon + 1 in
        let end_ := start + digits_val length_bytes in
        if zlen data <? end_ then Err (ValueError "byte string overruns input")
        else Ok (start, end_)
  end.

(** The [while True] loop over the children of a list or dict. *)
Fixpoint skip_children (fuel : nat) (skip : Z -> res Z) (data : bytes) (is_dict : bool)
    (j : Z) : res Z :=
  match fuel with
  | O => Err OutOfFuel
  | S fuel =>
      if zlen data <=? j then Err (ValueError "unterminated list/dict")
      else if bool_decide (slice data j (j + 1) = ["e"%char]) then Ok (j + 1)
      else if is_dict then
        if negb (isdigit (slice data j (j + 1))) then Err (ValueError "dict key must be a byte string")
        else
          let* j := skip j in
          let* j := skip j in
          skip_children fuel skip data is_dict j
      else
        let* j := skip j in
        skip_children fuel skip data is_dict j
  end.

Fixpoint _skip_value (fuel : nat) (data : bytes) (i : Z) : res Z :=
  match fuel with
  | O => Err OutOfFuel
  | S fuel =>
      if zlen data <=? i then Err (ValueError "unexpected end of data")
      else
        let c := slice data i (i + 1) in
        if bool_decide (c = ["i"%char]) then
          match find_from data "e" (i + 1) with
          | None => Err (ValueError "unterminated integer")
          | Some j =>
              if negb (_is_bencode_int (slice data (i + 1) j)) then Err (ValueError "malformed integer")
              else Ok (j + 1)
          end
        else if bool_decide (c = ["l"%char]) || bool_decide (c = ["d"%char]) then
          skip_children (S fuel) (_skip_value fuel data) data (bool_decide (c = ["d"%char])) (i + 1)
        else if isdigit c then
          let* (_, end_) := byte_string_bounds data i in Ok end_
        else Err (ValueError "unexpected token")
  end.

Definition _read_byte_string (data : bytes) (i : Z) : res (bytes * Z) :=
  if (zlen data <=? i) || negb (isdigit (slice data i (i + 1)))
  then Err (ValueError "expected byte string")
  else let* (start, end_) := byte_string_bounds data i in Ok (slice data start end_, end_).

Definition spans := list (bytes * (Z * Z)).

Fixpoint assoc {B} (k : bytes) (l : list (bytes * B)) : option B :=
  match l with
  | [] => None
  | (k', b) :: l => if bool_decide (k' = k) then Some b else assoc k l
  end.

Definition has_key {B} (k : bytes) (l : list (bytes * B)) : bool :=
  match assoc k l with Some _ => true | None => false end.

Definition _UNIQUE_TOP_KEYS : list bytes :=
  [bytes_of "info"; bytes_of "announce"; bytes_of "announce-list"].

(** The loop of [scan_top_level] over the members from index [i]. *)
Fixpoint scan_members (fuel : nat) (data : bytes) (i : Z) (sp : spans) : res (spans * Z) :=
  match fuel with
  | O => Err OutOfFuel
  | S fuel =>
      if zlen data <=? i then Err (ValueError "unterminated top-level dict")
      else if bool_decide (slice data i (i + 1) = ["e"%char]) then Ok (sp, i + 1)
      else
        let* (key, value_start) := _read_byte_string data i in
        let* value_end := _skip_value (S (length data)) data value_start in
        if bool_decide (key ∈ _UNIQUE_TOP_KEYS) && has_key key sp
        then Err (ValueError "duplicate top-level key")
        else
          let sp := if has_key key sp then sp else sp ++ [(key, (value_start, value_end))] in
          scan_members fuel data value_end sp
  end.

Definition scan_top_level (data : bytes) : res spans :=
  if (zlen data =? 0) || negb (bool_decide (slice data 0 1 = ["d"%char]))
  then Err (ValueError "top-level value is not a dict")
  else
    let* (sp, i) := scan_members (S (length data)) data 1 [] in
    raise (ValueError "trailing data after top-level dict") when negb (i =? zlen data) ;;;
    Ok sp.

(** ** Rewriting *)

Section personalize.
(** [hashlib.sha1(b).digest()] *)
Context (sha1 : bytes -> bytes).

(** The members kept, with their new value bytes, in scan order. *)
Definition retained (data announce_url : bytes) (sp : spans) : list (bytes * bytes) :=
  omap (fun kse =>
    let '(skey, (vs, ve)) := kse in
    if bool_decide (skey = bytes_of "announce-list") then None
    else if bool_decide (skey = bytes_of "announce") then Some (skey, announce_url)
    else Some (skey, slice data vs ve)) sp.

(** One member of the rebuilt dict. *)
Definition emit_member (announce_url : bytes) (kv : bytes * bytes) : bytes :=
  byte_string (fst kv) ++
  (if bool_decide (fst kv = bytes_of "announce") then byte_string announce_url else snd kv).

Definition rebuild (announce_url : bytes) (members : list (bytes * bytes)) : bytes :=
  "d"%char :: (sort_by (fun x y => bytes_leb (fst x) (fst y)) members ≫= emit_member announce_url)
    ++ ["e"%char].

Definition personalize (data announce_url : bytes) : res bytes :=
  let* sp := scan_top_level data in
  match assoc (bytes_of "info") sp with
  | None => Err (ValueError "torrent has no top-level info")
  | Some (info_start, info_end) =>
      raise (ValueError "torrent has no top-level announce") when negb (has_key (bytes_of "announce") sp) ;;;
      let original_info_hash := sha1 (slice data info_start info_end) in
      let out := rebuild announce_url (retained data announce_url sp) in
      let* out_spans := scan_top_level out in
      raise (ValueError "personalized output still has announce-list") when has_key (bytes_of "announce-list") out_spans ;;;
      raise (ValueError "personalized output lost announce") when negb (has_key (bytes_of "announce") out_spans) ;;;
      match assoc (bytes_of "info") out_spans with
      | None => Err (ValueError "personalized output lost info")
      | Some (os, oe) =>
          raise (ValueError "info span hash drifted during personalization")
            when negb (bool_decide (sha1 (slice out os oe) = original_info_hash)) ;;;
          Ok out
      end
  end.
End personalize.

(** ** The grammar of raw values *)

(** A byte string: its length as a numeral without leading zeros, then [:]. *)
Inductive raw_string : bytes -> bytes -> Prop :=
  | RawString ds b :
      isdigit ds = true -> (1 <? zlen ds) && bool_decide (take 1 ds = ["0"%char]) = false ->
      digits_val ds = zlen b -> raw_string b (ds ++ ":"%char :: b).

Inductive raw_value : bytes -> Prop :=
  | RawInt body : _is_bencode_int body = true -> raw_value ("i"%char :: body ++ ["e"%char])
  | RawStr b s : raw_string b s -> raw_value s
  | RawList l : raw_values l -> raw_value ("l"%char :: l ++ ["e"%char])
  | RawDict d : raw_members d -> raw_value ("d"%char :: d ++ ["e"%char])
with raw_values : bytes -> Prop :=
  | RawNil : raw_values []
  | RawCons v l : raw_value v -> raw_values l -> raw_values (v ++ l)
with raw_members : bytes -> Prop :=
  | RawMNil : raw_members []
  | RawMCons b k v d : raw_string b k -> raw_value v -> raw_members d -> raw_members (k ++ v ++ d).

Scheme raw_value_mut := Induction for raw_value Sort Prop
  with raw_values_mut := Induction for raw_values Sort Prop
  with raw_members_mut := Induction for raw_members Sort Prop.
Combined Scheme raw_mutind from raw_value_mut, raw_values_mut, raw_members_mut.

Lemma raw_string_head b s : raw_string b s -> exists c t, s = c :: t /\ is_digit c = true.
Proof.
  intros [ds b' Hd _ _]. destruct (isdigit_forall ds Hd) as [Hne Hall].
  destruct ds as [| c ds]; [done |]. apply Forall_cons in Hall as [Hc _].
  by exists c, (ds ++ ":"%char :: b').
Qed.

Lemma raw_value_head v : raw_value v -> exists c t, v = c :: t /\ c <> "e"%char.
Proof.
  intros []; try (by eexists _, _).
  destruct (raw_string_head b s) as (c & t & -> & Hc); [done |].
  exists c, t. split; [done | by apply is_digit_neq].
Qed.

Lemma raw_value_len v : raw_value v -> (1 <= length v)%nat.
Proof. intros Hv. destruct (raw_value_head v Hv) as (c & t & -> & _). cbn. lia. Qed.

Lemma byte_string_raw b : raw_string b (byte_string b).
Proof.
  unfold byte_string. rewrite dec_len_nonneg.
  destruct (dec_nonneg_spec (zlen b) (zlen_nonneg b)) as (Hd & Hv & Hnz & Hz).
  constructor; [done | | done].
  destruct (Z.eq_dec (zlen b) 0) as [E | E]; [by rewrite Hz |].
  specialize (Hnz E). apply andb_false_iff. right. apply bool_decide_eq_false.
  destruct (dec_nonneg (zlen b)); [done |]. cbn in *. by intros [= ->].
Qed.

(** ** The scanner accepts the grammar *)

Lemma digits_not_in c ds : is_digit c = false -> isdigit ds = true -> c ∉ ds.
Proof.
  intros Hc Hd Hin. destruct (isdigit_forall ds Hd) as [_ Hall].
  rewrite Forall_forall in Hall. specialize (Hall c Hin). congruence.
Qed.

Lemma bounds_complete b s pre post :
  raw_string b s ->
  byte_string_bounds (pre ++ s ++ post) (zlen pre) =
  Ok (zlen pre + zlen s - zlen b, zlen pre + zlen s) /\
  slice (pre ++ s ++ post) (zlen pre + zlen s - zlen b) (zlen pre + zlen s) = b.
Proof.
  intros [ds b' Hd Hz Hv]. unfold byte_string_bounds.
  replace (pre ++ (ds ++ ":"%char :: b') ++ post) with (pre ++ ds ++ ":"%char :: b' ++ post)
    by by rewrite <- app_assoc.
  rewrite find_from_at, find_byte_first by by apply digits_not_in.
  cbn [fmap option_fmap option_map]. rewrite slice_mid, Hd, Hz, Hv. cbn [negb].
  rewrite (proj2 (Z.ltb_ge _ _)) by (zlen_simpl; zlen_lia).
  split; [f_equal; f_equal; zlen_simpl; lia |].
  replace (pre ++ ds ++ ":"%char :: b' ++ post) with ((pre ++ ds ++ [":"%char]) ++ b' ++ post)
    by by rewrite <- !app_assoc.
  apply slice_mid'; zlen_simpl; lia.
Qed.

Lemma is_bencode_int_chars body c :
  _is_bencode_int body = true -> is_digit c = false -> c <> "-"%char -> c ∉ body.
Proof.
  intros H Hc Hm. destruct body as [| x rest]; [done |]. cbn in H.
  destruct (byte_eqb x "-") eqn:E; cbn in H.
  - apply byte_eqb_eq in E as ->. destruct (_ || _); [done |].
    destruct (isdigit rest) eqn:Hd; [| done].
    apply not_elem_of_cons. split; [done | by apply digits_not_in].
  - destruct (isdigit (x :: rest)) eqn:Hd; [by apply digits_not_in |].
    cbn in Hd. rewrite Hd in H. done.
Qed.

Lemma dec_bencode_int z : _is_bencode_int (dec z) = true.
Proof.
  assert (Hn : forall n, 0 <= n -> isdigit (dec_nonneg n) = true /\
    ((1 <? zlen (dec_nonneg n)) && bool_decide (take 1 (dec_nonneg n) = ["0"%char])) = false).
  { intros n Hn. destruct (dec_nonneg_spec n Hn) as (Hd & _ & Hnz & Hz). split; [done |].
    destruct (Z.eq_dec n 0) as [E | E]; [by rewrite Hz |]. specialize (Hnz E).
    apply andb_false_iff. right. apply bool_decide_eq_false.
    destruct (dec_nonneg n); [done |]. cbn in *. by intros [= ->]. }
  unfold dec. destruct (z <? 0) eqn:E; bool_norm.
  - destruct (Hn (- z) ltac:(lia)) as [Hd Hlz].
    destruct (dec_nonneg_spec (- z) ltac:(lia)) as (_ & _ & Hnz & _). specialize (Hnz ltac:(lia)).
    unfold _is_bencode_int. rewrite byte_eqb_refl, Hd, Hlz. cbn [andb negb].
    rewrite !bool_decide_false; [done | |]; intros Hs; rewrite Hs in Hnz; done.
  - destruct (Hn z ltac:(lia)) as [Hd Hlz]. destruct (isdigit_forall _ Hd) as [Hne Hall].
    destruct (dec_nonneg z) as [| c r]; [done |]. apply Forall_cons in Hall as [Hc _].
    unfold _is_bencode_int, byte_eqb. rewrite bool_decide_false by (by apply is_digit_neq).
    by rewrite Hd, Hlz.
Qed.

(** The reference serialisation is in the grammar. *)
Lemma render_raw c : raw_value (render c).
Proof.
  induction c as [z | b | l IH | d IH] using cval_nested_ind; cbn [render].
  - constructor. apply dec_bencode_int.
  - eapply RawStr, byte_string_raw.
  - apply RawList. induction IH as [| c l Hc _ IHl]; [constructor |]. rewrite bind_cons. by constructor.
  - apply RawDict. induction IH as [| [k c] d Hc _ IHd]; [constructor |].
    rewrite bind_cons, <- app_assoc. econstructor; [apply byte_string_raw | done | done].
Qed.

Definition skips (v : bytes) : Prop := forall fuel pre post,
  (length v <= fuel)%nat ->
  _skip_value fuel (pre ++ v ++ post) (zlen pre) = Ok (zlen pre + zlen v).

(** The loop over a run of children [l] followed by [e]. *)
Definition skips_run (is_dict : bool) (l : bytes) : Prop := forall n fuel pre post,
  (length l <= fuel)%nat -> (length l < n)%nat ->
  let data := pre ++ l ++ "e"%char :: post in
  skip_children n (_skip_value fuel data) data is_dict (zlen pre) = Ok (zlen pre + zlen l + 1).

Lemma in_range pre (c : ascii) suf : (zlen (pre ++ c :: suf) <=? zlen pre) = false.
Proof. apply Z.leb_gt. zlen_simpl. zlen_lia. Qed.

Lemma skips_int body : _is_bencode_int body = true -> skips ("i"%char :: body ++ ["e"%char]).
Proof.
  intros Hb [| fuel] pre post Hf; [cbn in Hf; lia |]. cbn [_skip_value app].
  rewrite in_range. slice_head. rewrite bool_decide_true by done.
  rewrite <- app_assoc. cbn [app].
  replace (pre ++ "i"%char :: body ++ "e"%char :: post)
    with ((pre ++ ["i"%char]) ++ body ++ "e"%char :: post) by by rewrite <- app_assoc.
  replace (zlen pre + 1) with (zlen (pre ++ ["i"%char])) by (zlen_simpl; lia).
  rewrite find_from_at, find_byte_first by by apply is_bencode_int_chars.
  cbn [fmap option_fmap option_map]. rewrite slice_mid, Hb. cbn. f_equal. zlen_simpl. lia.
Qed.

Lemma skips_string b s : raw_string b s -> skips s.
Proof.
  intros Hs [| fuel] pre post Hf.
  { pose proof (raw_value_len s (RawStr b s Hs)). lia. }
  cbn [_skip_value]. destruct (bounds_complete b s pre post Hs) as [Hbd _].
  destruct (raw_string_head b s Hs) as (c & t & -> & Hc).
  cbn [app] in *. rewrite in_range. slice_head.
  rewrite !bool_decide_false by (intros [= ->]; done). cbn [orb isdigit forallb].
  rewrite Hc. cbn [andb]. by rewrite Hbd.
Qed.

Lemma skips_container (is_dict : bool) l :
  skips_run is_dict l -> skips ((if is_dict then "d"%char else "l"%char) :: l ++ ["e"%char]).
Proof.
  intros IH [| fuel] pre post Hf; [cbn in Hf; lia |].
  set (c := if is_dict then "d"%char else "l"%char) in *. cbn [_skip_value app].
  rewrite in_range. slice_head.
  rewrite (bool_decide_false ([c] = ["i"%char])) by (by destruct is_dict).
  replace (bool_decide ([c] = ["l"%char]) || bool_decide ([c] = ["d"%char])) with true by by destruct is_dict.
  replace (bool_decide ([c] = ["d"%char])) with is_dict by by destruct is_dict.
  rewrite <- app_assoc. cbn [app].
  replace (pre ++ c :: l ++ "e"%char :: post) with ((pre ++ [c]) ++ l ++ "e"%char :: post)
    by by rewrite <- app_assoc.
  cbn [length] in Hf. rewrite length_app in Hf. cbn in Hf.
  replace (zlen pre + 1) with (zlen (pre ++ [c])) by (zlen_simpl; lia).
  rewrite IH by lia. f_equal. zlen_simpl. lia.
Qed.

Lemma skips_run_nil is_dict : skips_run is_dict [].
Proof.
  intros [| n] fuel pre post _ Hn data; [cbn in Hn; lia |]. cbn. subst data. cbn [app].
  rewrite in_range. slice_head. rewrite bool_decide_true by done. f_equal. zlen_nil. lia.
Qed.

(** The first byte of a nonempty run that is not its end. *)
Lemma run_head (c : ascii) t pre suf :
  slice (pre ++ (c :: t) ++ suf) (zlen pre) (zlen pre + 1) = [c] /\
  (zlen (pre ++ (c :: t) ++ suf) <=? zlen pre) = false.
Proof. split; [by slice_head | apply in_range]. Qed.

Lemma skips_run_value v l : raw_value v -> skips v -> skips_run false l -> skips_run false (v ++ l).
Proof.
  intros Hv IHv IHl [| n] fuel pre post Hf Hn data; [cbn in Hn; lia |].
  pose proof (raw_value_len v Hv). rewrite length_app in Hf, Hn. cbn [skip_children]. subst data.
  destruct (raw_value_head v Hv) as (c & t & -> & Hne). rewrite <- app_assoc.
  destruct (run_head c t pre (l ++ "e"%char :: post)) as [-> ->].
  rewrite bool_decide_false by (intros [= ->]; done).
  rewrite IHv by lia. cbn [mbind res_bind].
  rewrite (app_assoc pre), <- zlen_app. rewrite IHl by lia. f_equal. zlen_simpl. lia.
Qed.

Lemma skips_run_member b k v l :
  raw_string b k -> raw_value v -> skips v -> skips_run true l -> skips_run true (k ++ v ++ l).
Proof.
  intros Hk Hv IHv IHl [| n] fuel pre post Hf Hn data; [cbn in Hn; lia |].
  pose proof (raw_value_len v Hv) as Hlv. pose proof (skips_string b k Hk) as IHk.
  rewrite !length_app in Hf, Hn. cbn [skip_children]. subst data.
  destruct (raw_string_head b k Hk) as (c & t & -> & Hdig). rewrite <- !app_assoc.
  destruct (run_head c t pre (v ++ l ++ "e"%char :: post)) as [-> ->].
  rewrite bool_decide_false by (intros [= ->]; done).
  cbn [isdigit forallb]. rewrite Hdig. cbn [andb negb].
  rewrite IHk by lia. cbn [mbind res_bind].
  rewrite (app_assoc pre), <- zlen_app. rewrite IHv by lia. cbn [mbind res_bind].
  rewrite (app_assoc (pre ++ _) v), <- zlen_app. rewrite IHl by lia. f_equal. zlen_simpl. lia.
Qed.

Lemma skip_complete_all :
  (forall v, raw_value v -> skips v) /\
  (forall l, raw_values l -> skips_run false l) /\
  (forall d, raw_members d -> skips_run true d).
Proof.
  apply raw_mutind; eauto using skips_int, skips_string, skips_run_nil, skips_run_value, skips_run_member.
  - intros l _ IH. exact (skips_container false l IH).
  - intros d _ IH. exact (skips_container true d IH).
Qed.

(** ** The scanner accepts only the grammar *)

Lemma bounds_sound pre suf s e :
  byte_string_bounds (pre ++ suf) (zlen pre) = Ok (s, e) ->
  exists b str post, suf = str ++ post /\ raw_string b str /\ e = zlen pre + zlen str /\ s = e - zlen b.
Proof.
  unfold byte_string_bounds. rewrite find_from_at.
  destruct (find_byte ":" suf) as [k |] eqn:Ek; cbn; [| done].
  destruct (find_byte_Some _ _ _ Ek) as (ds & rest & -> & <- & _).
  rewrite slice_mid. destruct (isdigit ds) eqn:Hd; cbn [negb]; [| done].
  destruct ((1 <? zlen ds) && _) eqn:Hz; [done |].
  destruct (zlen _ <? _) eqn:Hov; [done |]. intros [= <- <-].
  apply Z.ltb_ge in Hov. zlen_simpl.
  assert (0 <= digits_val ds) as Hnn.
  { destruct (isdigit_forall ds Hd) as [Hne Hall]. pose proof (int_digits_run false 0 ds Hall (or_introl Hne)) as H.
    by eapply int_digits_nonneg in H. }
  destruct (split_at rest (digits_val ds)) as (b & post & -> & Hb); [lia |].
  exists b, (ds ++ ":"%char :: b), post. split_and!.
  - by rewrite <- app_assoc.
  - by constructor.
  - zlen_simpl. lia.
  - zlen_simpl. lia.
Qed.

(** A boundary [i] and the run [l] read from it. *)
Definition reads_run (P : bytes -> Prop) (data : bytes) (i j : Z) : Prop :=
  exists pre l post, data = pre ++ l ++ post /\ zlen pre = i /\ j = i + zlen l /\ P l.

Lemma reads_run_pre P data pre suf j :
  data = pre ++ suf -> reads_run P data (zlen pre) j ->
  exists l post, suf = l ++ post /\ j = zlen pre + zlen l /\ P l.
Proof.
  intros -> (pre' & l & post & Heq & Hlen & -> & Hl).
  apply app_inj_1 in Heq as [-> ->]; [by exists l, post |]. unfold zlen in Hlen. lia.
Qed.

Lemma skip_children_sound n skip data (is_dict : bool) j j' :
  (forall i k, 0 <= i -> skip i = Ok k -> reads_run raw_value data i k) ->
  (is_dict = true -> forall i k, 0 <= i -> isdigit (slice data i (i + 1)) = true -> skip i = Ok k ->
     reads_run (fun s => exists b, raw_string b s) data i k) ->
  0 <= j -> skip_children n skip data is_dict j = Ok j' ->
  reads_run (fun l => exists l', l = l' ++ ["e"%char] /\
    (if is_dict then raw_members l' else raw_values l')) data j j'.
Proof.
  intros Hskip Hkey. revert j. induction n as [| n IH]; intros j Hj H; [done |].
  cbn [skip_children] in H. destruct (zlen data <=? j) eqn:Hr; [done |]. apply Z.leb_gt in Hr.
  destruct (slice_one data j Hj) as [(_ & pre & c & t & -> & <- & Hs) | [? _]]; [| lia].
  rewrite Hs in H. case_bool_decide as He.
  { injection He as ->. injection H as <-. exists pre, ["e"%char], t.
    split_and!; [done | done | zlen_simpl; lia |]. exists []. split; [done |].
    destruct is_dict; constructor. }
  destruct is_dict.
  - destruct (isdigit [c]) eqn:Hdig; cbn [negb] in H; [| done].
    destruct (skip (zlen pre)) as [j1 |] eqn:E1; cbn in H; [| done].
    destruct (skip j1) as [j2 |] eqn:E2; cbn in H; [| done].
    apply Hkey in E1; [| done | done | by rewrite Hs].
    destruct (reads_run_pre _ _ pre _ _ eq_refl E1) as (k & post1 & Hk & -> & b & Hb).
    rewrite <- zlen_app in E2.
    apply Hskip in E2; [| apply zlen_nonneg].
    destruct (reads_run_pre _ (pre ++ c :: t) (pre ++ k) post1 _ ltac:(by rewrite Hk, app_assoc) E2)
      as (v & post2 & -> & -> & Hv).
    rewrite <- !zlen_app in H. apply IH in H; [| apply zlen_nonneg].
    destruct (reads_run_pre _ (pre ++ c :: t) ((pre ++ k) ++ v) post2 _ ltac:(by rewrite Hk, !app_assoc) H)
      as (l & post3 & -> & -> & l' & -> & Hl).
    exists pre, (k ++ v ++ l' ++ ["e"%char]), post3. split_and!.
    + rewrite Hk. by rewrite <- !app_assoc.
    + done.
    + zlen_simpl. lia.
    + exists (k ++ v ++ l'). split; [by rewrite <- !app_assoc |]. by econstructor.
  - destruct (skip (zlen pre)) as [j1 |] eqn:E1; cbn in H; [| done].
    apply Hskip in E1; [| done].
    destruct (reads_run_pre _ _ pre _ _ eq_refl E1) as (v & post1 & Hk & -> & Hv).
    rewrite <- zlen_app in H. apply IH in H; [| apply zlen_nonneg].
    destruct (reads_run_pre _ (pre ++ c :: t) (pre ++ v) post1 _ ltac:(by rewrite Hk, app_assoc) H)
      as (l & post3 & -> & -> & l' & -> & Hl).
    exists pre, (v ++ l' ++ ["e"%char]), post3. split_and!.
    + rewrite Hk. by rewrite <- !app_assoc.
    + done.
    + zlen_simpl. lia.
    + exists (v ++ l'). split; [by rewrite <- !app_assoc |]. by constructor.
Qed.

(** A value that starts with a digit is a byte string. *)
Lemma skip_string_sound fuel data i j :
  0 <= i -> isdigit (slice data i (i + 1)) = true -> _skip_value fuel data i = Ok j ->
  reads_run (fun s => exists b, raw_string b s) data i j.
Proof.
  intros Hi Hd H. destruct fuel as [| fuel]; [done |]. cbn [_skip_value] in H.
  destruct (slice_one data i Hi) as [(_ & pre & c & t & -> & <- & Hs) | [? Hs]]; rewrite Hs in *; [| done].
  rewrite in_range in H. cbn in Hd. rewrite andb_true_r in Hd.
  rewrite !bool_decide_false in H by (intros [= ->]; done). cbn [orb isdigit forallb] in H.
  rewrite Hd in H. cbn [andb] in H.
  destruct (byte_string_bounds _ _) as [[s e] |] eqn:E; cbn in H; [| done]. injection H as <-.
  apply bounds_sound in E as (b & str & post & -> & Hb & -> & _).
  exists pre, str, post. eauto.
Qed.

Lemma skip_sound fuel data i j :
  0 <= i -> _skip_value fuel data i = Ok j -> reads_run raw_value data i j.
Proof.
  revert i j. induction fuel as [| fuel IH]; intros i j Hi H; [done |].
  destruct (isdigit (slice data i (i + 1))) eqn:Hdig.
  { apply skip_string_sound in H as (pre & l & post & ? & ? & ? & b & Hb); [| done | done].
    exists pre, l, post. eauto using RawStr. }
  cbn [_skip_value] in H. destruct (zlen data <=? i) eqn:Hr; [done |]. apply Z.leb_gt in Hr.
  destruct (slice_one data i Hi) as [(_ & pre & c & t & -> & <- & Hs) | [? _]]; [| lia].
  rewrite Hs in *. case_bool_decide as Hc.
  - injection Hc as ->. replace (pre ++ "i"%char :: t) with ((pre ++ ["i"%char]) ++ t) in H
      by by rewrite <- app_assoc.
    replace (zlen pre + 1) with (zlen (pre ++ ["i"%char])) in H by (zlen_simpl; lia).
    rewrite find_from_at in H. destruct (find_byte "e" t) as [k |] eqn:Ek; cbn in H; [| done].
    destruct (find_byte_Some _ _ _ Ek) as (body & rest & -> & <- & _).
    rewrite slice_mid in H. destruct (_is_bencode_int body) eqn:Hb; cbn in H; [| done].
    injection H as <-. exists pre, ("i"%char :: body ++ ["e"%char]), rest. split_and!.
    + cbn. by rewrite <- app_assoc.
    + done.
    + zlen_simpl. lia.
    + by constructor.
  - destruct (bool_decide ([c] = ["l"%char]) || bool_decide ([c] = ["d"%char])) eqn:Hld;
      [| rewrite Hdig in H; done].
    apply skip_children_sound in H; [| done | intros _; eauto using skip_string_sound | lia].
    replace (zlen pre + 1) with (zlen (pre ++ [c])) in H by (zlen_simpl; lia).
    destruct (reads_run_pre _ (pre ++ c :: t) (pre ++ [c]) t _ ltac:(by rewrite <- app_assoc) H)
      as (l & post & -> & -> & l' & -> & Hl).
    exists pre, (c :: l' ++ ["e"%char]), post. split_and!; [done | done | zlen_simpl; lia |].
    apply orb_true_iff in Hld as [Hld | Hld]; apply bool_decide_eq_true in Hld; injection Hld as ->.
    + by constructor.
    + by constructor.
Qed.

(** ** Termination *)

Lemma skip_progress fuel data i j : 0 <= i -> _skip_value fuel data i = Ok j -> i < j.
Proof.
  intros Hi H. apply skip_sound in H as (pre & v & post & _ & <- & -> & Hv); [| done].
  apply raw_value_len in Hv. unfold zlen. lia.
Qed.

Lemma bounds_no_fuel data i : byte_string_bounds data i <> Err OutOfFuel.
Proof.
  unfold byte_string_bounds. destruct (find_from data ":" i); [| done].
  by repeat match goal with |- context [if ?b then _ else _] => destruct b end.
Qed.

Lemma skip_children_safe n skip data is_dict j :
  0 <= j -> zlen data - j < Z.of_nat n -> (0 < n)%nat ->
  (forall k, j <= k -> skip k <> Err OutOfFuel /\ forall k', skip k = Ok k' -> k < k') ->
  skip_children n skip data is_dict j <> Err OutOfFuel.
Proof.
  revert j. induction n as [| n IH]; intros j Hj Hn Hpos Hsk; [lia |]. cbn [skip_children].
  destruct (zlen data <=? j) eqn:Hr; [done |]. apply Z.leb_gt in Hr.
  destruct (bool_decide _); [done |].
  assert (Hrec : forall k, j < k -> skip_children n skip data is_dict k <> Err OutOfFuel).
  { intros k Hk. destruct (Nat.eq_0_gt_0_cases n) as [-> | Hn0]; [lia |].
    apply IH; [lia | lia | lia |]. intros k' Hk'. apply Hsk. lia. }
  destruct (Hsk j ltac:(lia)) as [H1 H2].
  destruct is_dict; [destruct (negb _); [done |] |];
    (destruct (skip j) as [j1 | e] eqn:E1; cbn; [| congruence]; specialize (H2 j1 eq_refl)); [| by apply Hrec].
  destruct (Hsk j1 ltac:(lia)) as [H3 H4].
  destruct (skip j1) as [j2 | e] eqn:E2; cbn; [| congruence]. specialize (H4 j2 eq_refl). apply Hrec. lia.
Qed.

Lemma skip_safe fuel data i :
  0 <= i -> zlen data - i < Z.of_nat fuel -> (0 < fuel)%nat -> _skip_value fuel data i <> Err OutOfFuel.
Proof.
  revert i. induction fuel as [| fuel IH]; intros i Hi Hf Hpos; [lia |]. cbn [_skip_value].
  destruct (zlen data <=? i) eqn:Hr; [done |]. apply Z.leb_gt in Hr.
  destruct (bool_decide _). { destruct (find_from _ _ _); [by destruct (negb _) | done]. }
  destruct (_ || _).
  - apply skip_children_safe; [lia | lia | lia |]. intros k Hk. split; [apply IH; lia |].
    intros k' Hk'. apply skip_progress in Hk'; lia.
  - destruct (isdigit _); [| done]. pose proof (bounds_no_fuel data i).
    destruct (byte_string_bounds data i) as [[a b] | e]; cbn; congruence.
Qed.

Lemma read_byte_string_sound data i k j :
  0 <= i -> _read_byte_string data i = Ok (k, j) ->
  reads_run (raw_string k) data i j.
Proof.
  intros Hi. unfold _read_byte_string. destruct (_ || _) eqn:E; [done |].
  apply orb_false_iff in E as [Hr _]. apply Z.leb_gt in Hr.
  destruct (split_at data i) as (pre & suf & -> & <-); [lia |].
  destruct (byte_string_bounds _ _) as [[s e] |] eqn:Eb; cbn; [| done]. intros [= <- <-].
  apply bounds_sound in Eb as (b & str & post & -> & Hb & -> & ->).
  destruct (bounds_complete b str pre post Hb) as [_ ->].
  exists pre, str, post. eauto.
Qed.

Lemma raw_string_len b s : raw_string b s -> 1 <= zlen s.
Proof. intros Hs. pose proof (raw_value_len s (RawStr b s Hs)). unfold zlen. lia. Qed.

Lemma scan_members_safe n data i sp :
  0 <= i -> zlen data - i < Z.of_nat n -> (0 < n)%nat -> scan_members n data i sp <> Err OutOfFuel.
Proof.
  revert i sp. induction n as [| n IH]; intros i sp Hi Hn Hpos; [lia |]. cbn [scan_members].
  destruct (zlen data <=? i) eqn:Hr; [done |]. apply Z.leb_gt in Hr. destruct (bool_decide _); [done |].
  destruct (_read_byte_string data i) as [[k j] | e] eqn:Ek; cbn [mbind res_bind].
  2: { unfold _read_byte_string in Ek. destruct (_ || _); [congruence |].
       pose proof (bounds_no_fuel data i). destruct (byte_string_bounds data i) as [[a b] | e'];
         cbn in Ek; congruence. }
  apply read_byte_string_sound in Ek as (pre & str & post & _ & <- & -> & Hs); [| done].
  apply raw_string_len in Hs.
  destruct (_skip_value _ data _) as [m | e] eqn:Ev; cbn [mbind res_bind].
  2: { intros [= ->]. revert Ev. apply skip_safe; unfold zlen in *; lia. }
  apply skip_progress in Ev; [| lia]. destruct (_ && _); [done |].
  destruct (Nat.eq_0_gt_0_cases n) as [-> | Hn0]; [lia |]. apply IH; lia.
Qed.

(** ** What a scan returns *)

Definition keys {B} (l : list (bytes * B)) : list bytes := map fst l.

Lemma assoc_None {B} k (l : list (bytes * B)) : assoc k l = None <-> k ∉ keys l.
Proof.
  induction l as [| [k' b] l IH]; cbn; [split; [intros _; apply not_elem_of_nil | done] |].
  rewrite not_elem_of_cons. case_bool_decide; [by split; [| intros [? _]] |].
  rewrite IH. split; [intros ?; split; [congruence | done] | by intros [_ ?]].
Qed.

Lemma has_key_spec {B} k (l : list (bytes * B)) : has_key k l = true <-> k ∈ keys l.
Proof.
  unfold has_key. destruct (assoc k l) eqn:E.
  - split; [| done]. intros _. destruct (decide (k ∈ keys l)) as [? | Hn]; [done |].
    apply assoc_None in Hn. congruence.
  - apply assoc_None in E. split; [done | tauto].
Qed.

Lemma assoc_Some {B} k b (l : list (bytes * B)) :
  NoDup (keys l) -> assoc k l = Some b <-> (k, b) ∈ l.
Proof.
  induction l as [| [k' b'] l IH]; cbn; intros Hnd; [split; [done | inversion 1] |].
  apply NoDup_cons in Hnd as [Hk Hnd]. rewrite elem_of_cons. case_bool_decide as E.
  - subst. split; [intros [= ->]; by left |]. intros [[= ->] | Hin]; [done |].
    destruct Hk. apply list_elem_of_fmap. by exists (k, b).
  - rewrite IH by done. split; [by right | intros [[= -> ->] | ?]; [done | done]].
Qed.

Lemma assoc_perm {B} k (l l' : list (bytes * B)) :
  NoDup (keys l) -> l ≡ₚ l' -> assoc k l = assoc k l'.
Proof.
  intros Hnd Hp. assert (Hnd' : NoDup (keys l')) by (unfold keys in *; by rewrite <- Hp).
  destruct (assoc k l) as [b |] eqn:E.
  - symmetry. apply assoc_Some; [done |]. rewrite <- Hp. by apply assoc_Some.
  - symmetry. apply assoc_None. apply assoc_None in E. unfold keys in *. by rewrite <- Hp.
Qed.

(** The spans a scan records hold raw values, under distinct keys. *)
Definition good_spans (data : bytes) (sp : spans) : Prop :=
  NoDup (keys sp) /\ Forall (fun '(_, (a, b)) => raw_value (slice data a b)) sp.

Lemma scan_members_good n data i sp sp' j :
  0 <= i -> good_spans data sp -> scan_members n data i sp = Ok (sp', j) -> good_spans data sp'.
Proof.
  revert i sp. induction n as [| n IH]; intros i sp Hi Hg H; [done |]. cbn [scan_members] in H.
  destruct (zlen data <=? i); [done |]. destruct (bool_decide _); [by injection H as <- _ |].
  destruct (_read_byte_string data i) as [[k a] |] eqn:Ek; cbn [mbind res_bind] in H; [| done].
  apply read_byte_string_sound in Ek as (pre & str & post & _ & <- & -> & Hs); [| done].
  apply raw_string_len in Hs.
  destruct (_skip_value _ data _) as [b |] eqn:Ev; cbn [mbind res_bind] in H; [| done].
  pose proof Ev as Hlt. apply skip_progress in Hlt; [| lia].
  apply skip_sound in Ev as (pv & v & pt & Hd & Hpv & -> & Hv); [| lia].
  destruct (_ && _); [done |]. eapply IH; [| | exact H]; [lia |].
  destruct (has_key k sp) eqn:Ehk; [done |]. destruct Hg as [Hnd Hall]. split.
  - unfold keys in *. rewrite map_app. apply NoDup_app. split_and!; [done | | apply NoDup_singleton].
    cbn. intros x Hx ->%list_elem_of_singleton. apply has_key_spec in Hx. congruence.
  - apply Forall_app. split; [done |]. constructor; [| constructor].
    rewrite <- Hpv, Hd. by rewrite slice_mid.
Qed.

Lemma scan_top_level_good data sp : scan_top_level data = Ok sp -> good_spans data sp.
Proof.
  unfold scan_top_level. destruct (_ || _); [done |].
  destruct (scan_members _ data 1 []) as [[sp' j] |] eqn:E; cbn [mbind res_bind]; [| done].
  destruct (negb _); [done |]. intros [= <-].
  eapply scan_members_good; [| | exact E]; [lia |]. split; constructor.
Qed.

(** ** Scanning a rebuilt dict *)

(** The bytes of members [(key, raw value)] and the spans they occupy from
    offset [i]. *)
Definition member_bytes (kv : bytes * bytes) : bytes := byte_string (fst kv) ++ snd kv.

Fixpoint spans_at (i : Z) (ms : list (bytes * bytes)) : spans :=
  match ms with
  | [] => []
  | kv :: ms =>
      (fst kv, (i + zlen (byte_string (fst kv)), i + zlen (member_bytes kv)))
      :: spans_at (i + zlen (member_bytes kv)) ms
  end.

Lemma keys_spans_at i ms : keys (spans_at i ms) = keys ms.
Proof. revert i. induction ms as [| kv ms IH]; intros i; cbn; [done |]. f_equal. apply IH. Qed.

Lemma scan_members_complete n ms pre post sp :
  Forall (fun kv => raw_value (snd kv)) ms -> NoDup (keys sp ++ keys ms) -> (length ms < n)%nat ->
  scan_members n (pre ++ (ms ≫= member_bytes) ++ "e"%char :: post) (zlen pre) sp =
  Ok (sp ++ spans_at (zlen pre) ms, zlen pre + zlen (ms ≫= member_bytes) + 1).
Proof.
  intros Hraw. revert n pre sp.
  induction Hraw as [| [k v] ms Hv _ IH]; intros [| n] pre sp Hnd Hn; cbn in Hn; try lia;
    cbn [scan_members].
  - cbn [mbind list_bind app]. rewrite in_range. slice_head. rewrite bool_decide_true by done.
    rewrite app_nil_r. zlen_nil. f_equal. f_equal. lia.
  - cbn [snd] in Hv. pose proof (byte_string_raw k) as Hk.
    set (rest := (ms ≫= member_bytes) ++ "e"%char :: post).
    replace (pre ++ (((k, v) :: ms) ≫= member_bytes) ++ "e"%char :: post)
      with (pre ++ byte_string k ++ v ++ rest)
      by (subst rest; rewrite bind_cons; unfold member_bytes at 2; cbn [fst snd]; by rewrite <- !app_assoc).
    destruct (raw_string_head _ _ Hk) as (c & t & Hct & Hdig).
    destruct (run_head c t pre (v ++ rest)) as [Hh Hr]. rewrite <- Hct in Hh, Hr.
    rewrite Hr, Hh. rewrite bool_decide_false by (intros [= ->]; done).
    assert (Hread : _read_byte_string (pre ++ byte_string k ++ v ++ rest) (zlen pre) =
      Ok (k, zlen pre + zlen (byte_string k))).
    { unfold _read_byte_string. rewrite Hr, Hh. cbn [orb isdigit forallb]. rewrite Hdig. cbn [andb negb].
      destruct (bounds_complete k _ pre (v ++ rest) Hk) as [-> Hsl]. cbn [mbind res_bind]. by rewrite Hsl. }
    rewrite Hread. cbn [mbind res_bind]. rewrite (app_assoc pre), <- zlen_app.
    rewrite (proj1 skip_complete_all v Hv) by (rewrite !length_app; lia). cbn [mbind res_bind].
    assert (Hfresh : has_key k sp = false).
    { apply not_true_is_false. rewrite has_key_spec. intros Hin.
      apply NoDup_app in Hnd as (_ & Hd & _). apply (Hd k Hin). cbn. by left. }
    rewrite Hfresh, andb_false_r. rewrite (app_assoc _ v), <- zlen_app.
    subst rest. rewrite IH; [| | lia].
    + rewrite <- app_assoc. cbn [spans_at app fst snd].
      assert (Hm : zlen (member_bytes (k, v)) = zlen (byte_string k) + zlen v) by apply zlen_app.
      rewrite bind_cons, (zlen_app (member_bytes _)), Hm, !zlen_app, <- !Z.add_assoc. done.
    + unfold keys in *. rewrite map_app, <- app_assoc. done.
Qed.

Lemma spans_at_lookup ms pre post k :
  (fun '(a, b) => slice (pre ++ (ms ≫= member_bytes) ++ post) a b) <$> assoc k (spans_at (zlen pre) ms) =
  assoc k ms.
Proof.
  revert pre. induction ms as [| [k' v] ms IH]; intros pre; [done |].
  cbn [spans_at assoc fst snd]. rewrite bind_cons. unfold member_bytes at 1. cbn [fst snd].
  case_bool_decide as E.
  - subst k'. cbn. f_equal. rewrite <- !app_assoc.
    rewrite (app_assoc pre). apply slice_mid'; unfold member_bytes; cbn [fst snd]; zlen_simpl; lia.
  - rewrite <- !app_assoc. rewrite (app_assoc pre), (app_assoc (pre ++ _) v).
    replace (zlen pre + zlen (member_bytes (k', v))) with (zlen ((pre ++ byte_string k') ++ v))
      by (unfold member_bytes; cbn [fst snd]; zlen_simpl; lia).
    apply IH.
Qed.

(** The raw bytes of a member, through the spans of a scan. *)
Definition member_value (data : bytes) (sp : spans) (k : bytes) : option bytes :=
  (fun '(a, b) => slice data a b) <$> assoc k sp.

Lemma scan_rebuilt ms :
  Forall (fun kv => raw_value (snd kv)) ms -> NoDup (keys ms) ->
  let out := "d"%char :: (ms ≫= member_bytes) ++ ["e"%char] in
  exists sp, scan_top_level out = Ok sp /\ keys sp = keys ms /\ forall k, member_value out sp k = assoc k ms.
Proof.
  intros Hraw Hnd out. exists (spans_at 1 ms).
  assert (Hout : out = ["d"%char] ++ (ms ≫= member_bytes) ++ ["e"%char]) by done.
  assert (Hz : zlen out = zlen (ms ≫= member_bytes) + 2) by (rewrite Hout; zlen_simpl; lia).
  assert (Hlen : (length ms < S (length out))%nat).
  { destruct (bind_len_ge member_bytes ms) as [Hn _].
    - intros [k v]. unfold member_bytes. cbn. destruct (byte_string_head k) as (c & t & -> & _). cbn. lia.
    - subst out. cbn [length]. rewrite length_app. lia. }
  split_and!.
  - unfold scan_top_level. rewrite Hz.
    rewrite (proj2 (Z.eqb_neq _ _)) by zlen_lia.
    assert (Hd : slice out 0 1 = ["d"%char]) by exact (slice_at [] out 1 ltac:(lia)).
    rewrite Hd, bool_decide_true by done. cbn [orb negb].
    pose proof (scan_members_complete (S (length out)) ms ["d"%char] [] [] Hraw Hnd Hlen) as Hsc.
    rewrite <- Hout in Hsc. change (zlen ["d"%char]) with 1 in Hsc. rewrite Hsc.
    cbn [mbind res_bind app]. rewrite (proj2 (Z.eqb_eq _ _)) by lia. done.
  - apply keys_spans_at.
  - intros k. unfold member_value. rewrite Hout. exact (spans_at_lookup ms ["d"%char] ["e"%char] k).
Qed.

(** ** The rebuilt torrent *)

Definition final_member (url : bytes) (kv : bytes * bytes) : bytes * bytes :=
  (fst kv, if bool_decide (fst kv = bytes_of "announce") then byte_string url else snd kv).

Lemma rebuild_members url l :
  rebuild url l =
  "d"%char :: (map (final_member url) (sort_by (fun x y => bytes_leb (fst x) (fst y)) l) ≫= member_bytes)
    ++ ["e"%char].
Proof.
  unfold rebuild. f_equal. f_equal. induction (sort_by _ l) as [| kv l' IH]; [done |].
  cbn [map]. by rewrite !bind_cons, IH.
Qed.

Lemma retained_lookup data url sp k :
  assoc k (map (final_member url) (retained data url sp)) =
  if bool_decide (k = bytes_of "announce-list") then None
  else if bool_decide (k = bytes_of "announce") then (fun _ => byte_string url) <$> assoc k sp
  else member_value data sp k.
Proof.
  unfold member_value, retained. induction sp as [| [k' [a b]] sp IH]; cbn [omap list_omap assoc].
  - by repeat case_bool_decide.
  - destruct (decide (k' = k)) as [-> | Hne].
    + rewrite (bool_decide_true (k = k)) by done.
      destruct (decide (k = bytes_of "announce-list")) as [Hl | Hl].
      { rewrite (bool_decide_true _ Hl) in IH |- *. exact IH. }
      rewrite (bool_decide_false _ Hl).
      destruct (decide (k = bytes_of "announce")) as [Ha | Ha];
        [rewrite (bool_decide_true _ Ha) | rewrite (bool_decide_false _ Ha)];
        cbn [map assoc final_member fst snd]; rewrite (bool_decide_true (k = k)) by done;
        [by rewrite (bool_decide_true _ Ha) | by rewrite (bool_decide_false _ Ha)].
    + rewrite (bool_decide_false _ Hne), <- IH.
      destruct (bool_decide (k' = bytes_of "announce-list")), (bool_decide (k' = bytes_of "announce"));
        cbn [map assoc final_member fst]; by rewrite ?(bool_decide_false _ Hne).
Qed.

Lemma retained_good data url sp :
  good_spans data sp ->
  NoDup (keys (map (final_member url) (retained data url sp))) /\
  Forall (fun kv => raw_value (snd kv)) (map (final_member url) (retained data url sp)).
Proof.
  intros [Hnd Hraw]. induction sp as [| [k [a b]] sp IH]; cbn; [split; constructor |].
  apply NoDup_cons in Hnd as [Hk Hnd]. apply Forall_cons in Hraw as [Hv Hraw].
  assert (Hsub' : forall k, k ∈ keys (map (final_member url) (retained data url sp)) -> k ∈ keys sp).
  { intros x Hx. apply has_key_spec in Hx. apply has_key_spec. unfold has_key in *.
    rewrite retained_lookup in Hx. unfold member_value in Hx.
    destruct (assoc x sp); [done |]. by repeat case_bool_decide. }
  specialize (IH Hnd Hraw) as [IH1 IH2]. unfold retained. cbn [omap list_omap].
  fold (retained data url sp). repeat case_bool_decide; cbn; [done | |].
  - split; [constructor; [| done]; intros Hin; by apply Hk, Hsub' |].
    constructor; [| done]. cbn. case_bool_decide; [| done]. eapply RawStr, byte_string_raw.
  - split; [constructor; [| done]; intros Hin; by apply Hk, Hsub' |].
    constructor; [| done]. cbn. by case_bool_decide.
Qed.

(** The rebuilt bytes scan to exactly the retained members. *)
Lemma rebuild_scan data url sp :
  good_spans data sp ->
  exists osp, scan_top_level (rebuild url (retained data url sp)) = Ok osp /\
  forall k, member_value (rebuild url (retained data url sp)) osp k =
    assoc k (map (final_member url) (retained data url sp)).
Proof.
  intros Hg. destruct (retained_good data url sp Hg) as [Hnd Hraw].
  rewrite rebuild_members. set (l := retained data url sp) in *.
  set (le := fun x y : bytes * bytes => bytes_leb (fst x) (fst y)).
  assert (Hp : map (final_member url) (sort_by le l) ≡ₚ map (final_member url) l)
    by by rewrite sort_by_perm.
  destruct (scan_rebuilt (map (final_member url) (sort_by le l))) as (osp & Hsc & _ & Hv).
  - by rewrite Hp.
  - unfold keys in *. by rewrite Hp.
  - exists osp. split; [done |]. intros k. rewrite Hv. apply assoc_perm; [| done].
    unfold keys in *. by rewrite Hp.
Qed.

Lemma has_key_value {data sp k} : has_key k sp = true <-> is_Some (member_value data sp k).
Proof.
  unfold has_key, member_value. destruct (assoc k sp) as [[a b] |]; cbn.
  - split; [by eexists | done].
  - split; [done | by intros [? ?]].
Qed.

(** ** Theorems *)

(** [_skip_value] is an exact recogniser: it returns [j] from [i] precisely when
    the bytes between them are one raw bencode value (canonical integers and
    lengths, byte-string dict keys), wherever that value stands in the data. *)
Theorem skip_value_iff data i j :
  0 <= i ->
  _skip_value (S (length data)) data i = Ok j <->
  exists pre v post, data = pre ++ v ++ post /\ zlen pre = i /\ j = i + zlen v /\ raw_value v.
Proof.
  intros Hi. split; [by apply skip_sound |].
  intros (pre & v & post & -> & <- & -> & Hv).
  apply (proj1 skip_complete_all v Hv). rewrite !length_app. lia.
Qed.

Lemma skip_value_iff_witness :
  _skip_value (S (length (bytes_of "xli5e1:aey"))) (bytes_of "xli5e1:aey") 1 = Ok 9 <->
  exists pre v post, bytes_of "xli5e1:aey" = pre ++ v ++ post /\ zlen pre = 1 /\ 9 = 1 + zlen v /\ raw_value v.
Proof. apply (skip_value_iff (bytes_of "xli5e1:aey") 1 9). lia. Defined.

(** Every value the encoder of [bencode.py] emits is accepted by the scanner of
    [torrent_personalize.py], in any surrounding bytes. *)
Theorem scanner_accepts_encoder o bs pre post :
  encode o = Ok bs ->
  _skip_value (S (length (pre ++ bs ++ post))) (pre ++ bs ++ post) (zlen pre) = Ok (zlen pre + zlen bs).
Proof.
  intros H. unfold encode in H. rewrite _encode_spec in H.
  destruct (canonical o) as [c |]; cbn in H; [| done]. injection H as <-.
  apply (proj1 skip_complete_all); [| rewrite !length_app; lia]. apply render_raw.
Qed.

(** Scanning and rewriting terminate on every input. *)
Theorem personalize_terminates sha1 data url : personalize sha1 data url <> Err OutOfFuel.
Proof.
  assert (Hscan : forall d, scan_top_level d <> Err OutOfFuel).
  { intros d. unfold scan_top_level. destruct (_ || _); [done |].
    pose proof (scan_members_safe (S (length d)) d 1 []) as H.
    destruct (scan_members _ d 1 []) as [[sp j] | e]; cbn [mbind res_bind].
    - by destruct (negb _).
    - intros [= ->]. apply H; [lia | unfold zlen; lia | lia | done]. }
  unfold personalize. pose proof (Hscan data). destruct (scan_top_level data) as [sp | e]; cbn [mbind res_bind];
    [| congruence].
  destruct (assoc _ sp) as [[a b] |]; [| done]. destruct (negb _); [done |].
  pose proof (Hscan (rebuild url (retained data url sp))).
  destruct (scan_top_level (rebuild _ _)) as [osp | e]; cbn [mbind res_bind]; [| congruence].
  destruct (has_key _ _); [done |]. destruct (negb _); [done |].
  destruct (assoc _ osp) as [[c d] |]; [| done]. by destruct (negb _).
Qed.

(** C3: [personalize] succeeds on every torrent that scans and has top-level [info]
    and [announce]; in the result [announce] is the new URL, [announce-list] is
    gone, and every other member, [info] included, has the same raw bytes as
    before.  In particular none of its output assertions can fail. *)
Theorem personalize_correct sha1 data url sp :
  scan_top_level data = Ok sp ->
  has_key (bytes_of "info") sp = true -> has_key (bytes_of "announce") sp = true ->
  exists out osp, personalize sha1 data url = Ok out /\ scan_top_level out = Ok osp /\
    member_value out osp (bytes_of "announce") = Some (byte_string url) /\
    member_value out osp (bytes_of "announce-list") = None /\
    forall k, k <> bytes_of "announce" -> k <> bytes_of "announce-list" ->
      member_value out osp k = member_value data sp k.
Proof.
  intros Hsc Hinfo Hann. pose proof (scan_top_level_good data sp Hsc) as Hg.
  destruct (rebuild_scan data url sp Hg) as (osp & Hosc & Hval).
  set (out := rebuild url (retained data url sp)) in *.
  assert (Hother : forall k, k <> bytes_of "announce" -> k <> bytes_of "announce-list" ->
    member_value out osp k = member_value data sp k).
  { intros k Ha Hl. rewrite Hval, retained_lookup. by rewrite !bool_decide_false. }
  assert (Hnew : member_value out osp (bytes_of "announce") = Some (byte_string url)).
  { rewrite Hval, retained_lookup. rewrite bool_decide_false, bool_decide_true by done.
    unfold has_key in Hann. by destruct (assoc _ sp). }
  assert (Hgone : member_value out osp (bytes_of "announce-list") = None).
  { rewrite Hval, retained_lookup. by rewrite bool_decide_true. }
  exists out, osp. split_and!; try done.
  pose proof (Hother (bytes_of "info") ltac:(done) ltac:(done)) as Hi.
  unfold personalize. rewrite Hsc. cbn [mbind res_bind]. fold out. rewrite Hosc, Hann. cbn [mbind res_bind negb].
  rewrite (proj2 (has_key_value (data := out) (k := bytes_of "announce"))) by (rewrite Hnew; by eexists).
  replace (has_key (bytes_of "announce-list") osp) with false
    by (symmetry; apply not_true_is_false; rewrite (has_key_value (data := out)), Hgone; by intros [? ?]).
  unfold has_key in Hinfo. unfold member_value in Hi.
  destruct (assoc (bytes_of "info") sp) as [[a b] |]; [| done].
  destruct (assoc (bytes_of "info") osp) as [[a' b'] |]; [| done]. injection Hi as Hi.
  cbn [negb]. by rewrite Hi, bool_decide_true.
Qed.

Definition sample_torrent : bytes :=
  bytes_of "d8:announce3:old13:announce-listl1:ae4:infod6:lengthi5ee1:zi0ee".

Lemma personalize_correct_witness :
  exists out osp,
    personalize (fun b => b) sample_torrent (bytes_of "https://198.51.100.7:6969/announce") = Ok out /\
    scan_top_level out = Ok osp /\
    member_value out osp (bytes_of "announce") = Some (byte_string (bytes_of "https://198.51.100.7:6969/announce")) /\
    member_value out osp (bytes_of "announce-list") = None /\
    forall k, k <> bytes_of "announce" -> k <> bytes_of "announce-list" ->
      member_value out osp k =
      member_value sample_torrent [(bytes_of "announce", (11, 16)); (bytes_of "announce-list", (32, 37));
        (bytes_of "info", (43, 56)); (bytes_of "z", (59, 62))] k.
Proof.
  apply (personalize_correct (fun b => b) sample_torrent (bytes_of "https://198.51.100.7:6969/announce")).
  - vm_compute. reflexivity.
  - vm_compute. reflexivity.
  - vm_compute. reflexivity.
Defined.

Lemma scanner_accepts_encoder_witness :
  _skip_value (S (length (bytes_of "xli5ee"))) (bytes_of "xli5ee") 1 = Ok 6.
Proof. exact (scanner_accepts_encoder (BList [BInt 5]) (bytes_of "li5ee") (bytes_of "x") [] eq_refl). Defined.
