(* ===== verification/PyVal.v ===== *)
(** * JSON documents as Python values

    The policy and schedule modules keep their state as JSON documents: nested
    dicts, lists and scalars, checked at run time.  This file models those values
    with the operations the code applies to them ([isinstance], [==], [in],
    [.get], [[...]], [setdefault], [pop]) and their exceptions. *)
From S2P Require Import Prelude.

(** ** Values *)

(** A Python float: the dyadic number [m * 2 ^ e], an infinity or a NaN. *)
Inductive pyfloat :=
  | FFin (m e : Z)
  | FInf (negative : bool)
  | FNan.

#[local] Set Warnings "-register-all".

(** A value [json.load] can return.  A [str] is kept as its UTF-8 bytes, a dict as
    its items in insertion order. *)
Inductive pyval :=
  | VNone
  | VBool (b : bool)
  | VInt (z : Z)
  | VFloat (f : pyfloat)
  | VStr (s : string)
  | VList (l : list pyval)
  | VDict (d : list (string * pyval)).

Abbreviation dict := (list (string * pyval)).

(** ** Dicts *)

(** [d.get(k)] with [None] for a missing key. *)
Fixpoint dget {B} (d : list (string * B)) (k : string) : option B :=
  match d with
  | [] => None
  | (k', v) :: d => if String.eqb k' k then Some v else dget d k
  end.

(** [d[k] = v]: an existing key keeps its position. *)
Fixpoint dset {B} (d : list (string * B)) (k : string) (v : B) : list (string * B) :=
  match d with
  | [] => [(k, v)]
  | (k', v') :: d => if String.eqb k' k then (k', v) :: d else (k', v') :: dset d k v
  end.

(** [d.pop(k, None)], for its effect. *)
Definition dpop {B} (d : list (string * B)) (k : string) : list (string * B) :=
  filter (fun kv => fst kv <> k) d.

Definition dkeys {B} (d : list (string * B)) : list string := map fst d.

Definition dhas {B} (d : list (string * B)) (k : string) : bool :=
  match dget d k with Some _ => true | None => false end.

(** [d.get(k, x)] *)
Definition dget_or {B} (d : list (string * B)) (k : string) (x : B) : B :=
  default x (dget d k).

(** [d.setdefault(k, x)], for its effect. *)
Definition dsetdefault {B} (d : list (string * B)) (k : string) (x : B) : list (string * B) :=
  if dhas d k then d else dset d k x.

(** [d.update(e)] *)
Definition dupdate {B} (d e : list (string * B)) : list (string * B) :=
  foldl (fun d kv => dset d (fst kv) (snd kv)) d e.

(** ** Type tests and truth *)

Definition is_dict (v : pyval) : bool := match v with VDict _ => true | _ => false end.
Definition is_list (v : pyval) : bool := match v with VList _ => true | _ => false end.
Definition is_str (v : pyval) : bool := match v with VStr _ => true | _ => false end.
Definition is_bool (v : pyval) : bool := match v with VBool _ => true | _ => false end.
Definition is_none (v : pyval) : bool := match v with VNone => true | _ => false end.

(** [isinstance(v, int)]: a [bool] is an [int]. *)
Definition isinstance_int (v : pyval) : bool :=
  match v with VInt _ | VBool _ => true | _ => false end.

(** [type(v) is int], and [isinstance(v, int) and not isinstance(v, bool)]. *)
Definition strict_int (v : pyval) : option Z := match v with VInt z => Some z | _ => None end.

Definition as_str (v : pyval) : option string := match v with VStr s => Some s | _ => None end.
Definition as_dict (v : pyval) : option dict := match v with VDict d => Some d | _ => None end.
Definition as_list (v : pyval) : option (list pyval) := match v with VList l => Some l | _ => None end.

(** [v if isinstance(v, dict) else {}] *)
Definition dict_or_empty (v : pyval) : dict := default [] (as_dict v).

Definition float_zero (f : pyfloat) : bool :=
  match f with FFin m _ => m =? 0 | _ => false end.

(** [bool(v)] *)
Definition truth (v : pyval) : bool :=
  match v with
  | VNone => false
  | VBool b => b
  | VInt z => negb (z =? 0)
  | VFloat f => negb (float_zero f)
  | VStr s => negb (String.eqb s "")
  | VList l => match l with [] => false | _ => true end
  | VDict d => match d with [] => false | _ => true end
  end.

(** ** Equality *)

(** Numbers compare by value across [bool], [int] and [float]. *)
Definition num_of (v : pyval) : option pyfloat :=
  match v with
  | VBool b => Some (FFin (Z.b2z b) 0)
  | VInt z => Some (FFin z 0)
  | VFloat f => Some f
  | _ => None
  end.

(** [None] when an operand is NaN. *)
Definition num_cmp (f g : pyfloat) : option comparison :=
  match f, g with
  | FNan, _ | _, FNan => None
  | FInf a, FInf b => Some (if Bool.eqb a b then Eq else if a then Lt else Gt)
  | FInf a, FFin _ _ => Some (if a then Lt else Gt)
  | FFin _ _, FInf b => Some (if b then Gt else Lt)
  | FFin m e, FFin n k =>
      let l := Z.min e k in Some (Z.compare (m * 2 ^ (e - l)) (n * 2 ^ (k - l)))
  end.

Definition num_eqb (f g : pyfloat) : bool :=
  match num_cmp f g with Some Eq => true | _ => false end.
Definition num_ltb (f g : pyfloat) : bool := match num_cmp f g with Some Lt => true | _ => false end.
Definition num_leb (f g : pyfloat) : bool :=
  match num_cmp f g with Some Eq | Some Lt => true | _ => false end.

(** [a == b]: dicts compare as maps, whatever the order of their items. *)
Fixpoint py_eq (a b : pyval) {struct a} : bool :=
  match a, b with
  | VNone, VNone => true
  | VStr s, VStr t => String.eqb s t
  | VList l, VList k =>
      (fix go l k := match l, k with
        | [], [] => true
        | x :: l, y :: k => py_eq x y && go l k
        | _, _ => false
        end) l k
  | VDict d, VDict e =>
      (length d =? length e)%nat &&
      (fix go d := match d with
        | [] => true
        | (k, v) :: d => match dget e k with Some w => py_eq v w | None => false end && go d
        end) d
  | (VBool _ | VInt _ | VFloat _), (VBool _ | VInt _ | VFloat _) =>
      match num_of a, num_of b with Some f, Some g => num_eqb f g | _, _ => false end
  | _, _ => false
  end.

(** [v in (s1, ..., sn)]: membership in a tuple of strings, by [==]. *)
Definition in_strs (v : pyval) (l : list string) : bool :=
  match v with VStr s => existsb (String.eqb s) l | _ => false end.

(** [hash(v)] raises on dicts and lists. *)
Definition hashable (v : pyval) : bool :=
  match v with VList _ | VDict _ => false | _ => true end.

(** [v in d] for a dict with string keys. *)
Definition in_dict {B} (v : pyval) (d : list (string * B)) : res bool :=
  if hashable v then Ok (match v with VStr s => dhas d s | _ => false end)
  else Err (TypeError "unhashable type").

(** [v in s] for a set of strings. *)
Definition in_set (v : pyval) (l : list string) : res bool :=
  if hashable v then Ok (in_strs v l) else Err (TypeError "unhashable type").

(** [d.get(v)] for a dict with string keys. *)
Definition dget_val {B} (d : list (string * B)) (v : pyval) : res (option B) :=
  if hashable v then Ok (match v with VStr s => dget d s | _ => None end)
  else Err (TypeError "unhashable type").

(** [set(d) == {...}] *)
Definition keys_are (d : dict) (ks : list string) : bool :=
  forallb (fun k => existsb (String.eqb k) ks) (dkeys d) && forallb (dhas d) ks.

(** ** Access on arbitrary values *)

(** [v.get(k, default)]; [get_ v k] is [v.get(k)]. *)
Definition getattr_get (v : pyval) (k : string) (x : pyval) : res pyval :=
  match v with
  | VDict d => Ok (dget_or d k x)
  | _ => Err (AttributeError "get")
  end.

(** [v[k]] for a string [k]. *)
Definition item (v : pyval) (k : string) : res pyval :=
  match v with
  | VDict d => match dget d k with Some x => Ok x | None => Err (KeyError k) end
  | _ => Err (TypeError "indices must be integers")
  end.

(** [len] of a list or dict value. *)
Definition vlen (v : pyval) : Z :=
  match v with VList l => zlen l | VDict d => zlen d | VStr s => zlen (bytes_of s) | _ => 0 end.

(** ** Well-formed documents *)

(** Every dict of the value has distinct keys, as in Python. *)
Fixpoint wf_val (v : pyval) : Prop :=
  match v with
  | VList l => (fix go l := match l with [] => True | x :: l => wf_val x /\ go l end) l
  | VDict d => NoDup (dkeys d) /\
      (fix go d := match d with [] => True | (_, x) :: d => wf_val x /\ go d end) d
  | _ => True
  end.

Fixpoint nodup_strs (l : list string) : bool :=
  match l with [] => true | x :: l => negb (existsb (String.eqb x) l) && nodup_strs l end.

(** ** Lemmas on dicts *)

Lemma eqb_spec' (a b : string) : String.eqb a b = bool_decide (a = b).
Proof.
  destruct (String.eqb_spec a b) as [-> | H]; [by rewrite bool_decide_true | by rewrite bool_decide_false].
Qed.

Ltac str_cases :=
  repeat match goal with
  | |- context [String.eqb ?a ?b] => destruct (String.eqb_spec a b); try subst
  | H : context [String.eqb ?a ?b] |- _ => destruct (String.eqb_spec a b); try subst
  end.

Section dict_lemmas.
Context {B : Type}.
Implicit Types (d : list (string * B)) (k : string).

Lemma dget_dset_eq d k v : dget (dset d k v) k = Some v.
Proof.
  induction d as [| [k' v'] d IH]; cbn; [by rewrite String.eqb_refl |].
  destruct (String.eqb_spec k' k) as [-> | Hne]; cbn; [by rewrite String.eqb_refl |].
  destruct (String.eqb_spec k' k); [done |]. exact IH.
Qed.

Lemma dget_dset_ne d k k' v : k <> k' -> dget (dset d k v) k' = dget d k'.
Proof.
  intros Hne. induction d as [| [x w] d IH]; cbn.
  - by destruct (String.eqb_spec k k').
  - destruct (String.eqb_spec x k) as [-> | Hx]; cbn; [by destruct (String.eqb_spec k k') |].
    by rewrite IH.
Qed.

Lemma dget_dset d k k' v : dget (dset d k v) k' = if String.eqb k k' then Some v else dget d k'.
Proof.
  destruct (String.eqb_spec k k') as [-> | Hne]; [apply dget_dset_eq | by apply dget_dset_ne].
Qed.

Lemma dget_dpop d k k' : dget (dpop d k) k' = if String.eqb k k' then None else dget d k'.
Proof.
  unfold dpop. induction d as [| [x w] d IH]; [cbn; by destruct (String.eqb k k') |].
  rewrite filter_cons. cbn [dget fst]. destruct (decide (x <> k)) as [Hx | Hx].
  - cbn. rewrite IH. destruct (String.eqb_spec x k') as [-> | ?]; [| done].
    by destruct (String.eqb_spec k k').
  - assert (x = k) as -> by (destruct (decide (x = k)); tauto). rewrite IH.
    by destruct (String.eqb_spec k k').
Qed.

Lemma dget_dsetdefault d k k' x :
  dget (dsetdefault d k x) k' = if String.eqb k k' then Some (dget_or d k x) else dget d k'.
Proof.
  unfold dsetdefault, dhas, dget_or. destruct (dget d k) eqn:E; cbn.
  - by destruct (String.eqb_spec k k') as [<- | ?].
  - apply dget_dset.
Qed.

Lemma dget_elem d k v : dget d k = Some v -> (k, v) ∈ d.
Proof.
  induction d as [| [x w] d IH]; cbn; [done |]. destruct (String.eqb_spec x k) as [-> | ?].
  - intros [= ->]. by left.
  - intros H. right. by apply IH.
Qed.

Lemma dget_None d k : dget d k = None <-> k ∉ dkeys d.
Proof.
  induction d as [| [x w] d IH]; cbn; [split; [intros _; apply not_elem_of_nil | done] |].
  rewrite not_elem_of_cons. destruct (String.eqb_spec x k) as [-> | Hne].
  - split; [done | by intros [? _]].
  - rewrite IH. split; [intros ?; split; [congruence | done] | by intros [_ ?]].
Qed.

Lemma dhas_spec d k : dhas d k = true <-> k ∈ dkeys d.
Proof.
  unfold dhas. destruct (dget d k) eqn:E.
  - split; [| done]. intros _. destruct (decide (k ∈ dkeys d)) as [? | Hn]; [done |].
    apply dget_None in Hn. congruence.
  - apply dget_None in E. split; [done | tauto].
Qed.

Lemma dget_Some d k v : NoDup (dkeys d) -> dget d k = Some v <-> (k, v) ∈ d.
Proof.
  intros Hnd. split; [apply dget_elem |]. induction d as [| [x w] d IH]; [inversion 1 |].
  cbn in *. apply NoDup_cons in Hnd as [Hx Hnd]. rewrite elem_of_cons. intros [[= -> ->] | Hin].
  - by rewrite String.eqb_refl.
  - destruct (String.eqb_spec x k) as [-> | ?]; [| by apply IH].
    destruct Hx. apply list_elem_of_fmap. by exists (k, v).
Qed.

Lemma elem_dkeys d k v : (k, v) ∈ d -> k ∈ dkeys d.
Proof. intros H. apply list_elem_of_fmap. by exists (k, v). Qed.

Lemma dget_key d k v : dget d k = Some v -> k ∈ dkeys d.
Proof. intros H. eapply elem_dkeys, dget_elem, H. Qed.

Lemma dkeys_dset d k v x : x ∈ dkeys (dset d k v) <-> x = k \/ x ∈ dkeys d.
Proof.
  induction d as [| [y w] d IH]; cbn.
  - rewrite list_elem_of_singleton. split; [by left | intros [? | H]; [done | inversion H]].
  - destruct (String.eqb_spec y k) as [-> | ?]; cbn; rewrite !elem_of_cons; [tauto |]. rewrite IH. tauto.
Qed.

Lemma NoDup_dset d k v : NoDup (dkeys d) -> NoDup (dkeys (dset d k v)).
Proof.
  induction d as [| [y w] d IH]; cbn; intros H; [apply NoDup_singleton |].
  apply NoDup_cons in H as [Hy Hd]. destruct (String.eqb_spec y k) as [-> | Hne]; cbn.
  - by apply NoDup_cons.
  - apply NoDup_cons. split; [| by apply IH]. fold (dkeys (dset d k v)). rewrite dkeys_dset.
    intros [-> | ?]; done.
Qed.

Lemma dkeys_dpop d k x : x ∈ dkeys (dpop d k) <-> x <> k /\ x ∈ dkeys d.
Proof.
  rewrite <- !dhas_spec. unfold dhas. rewrite dget_dpop.
  destruct (String.eqb_spec k x) as [-> | Hne]; [split; [done | by intros [? _]] |].
  split; [intros H; split; [congruence | done] | by intros [_ ?]].
Qed.

Lemma NoDup_dpop d k : NoDup (dkeys d) -> NoDup (dkeys (dpop d k)).
Proof.
  intros H. unfold dpop, dkeys in *. eapply sublist_NoDup; [exact H |].
  apply fmap_sublist, sublist_filter.
Qed.

Lemma dget_dupdate d e k :
  NoDup (dkeys e) -> dget (dupdate d e) k = match dget e k with Some v => Some v | None => dget d k end.
Proof.
  unfold dupdate. revert d. induction e as [| [x v] e IH]; intros d Hnd; cbn; [done |].
  cbn in Hnd. apply NoDup_cons in Hnd as [Hx Hnd]. rewrite IH by done. rewrite dget_dset.
  destruct (String.eqb_spec x k) as [-> | Hne]; [| done].
  apply dget_None in Hx. by rewrite Hx.
Qed.

Lemma NoDup_dupdate d e : NoDup (dkeys d) -> NoDup (dkeys (dupdate d e)).
Proof.
  unfold dupdate. revert d. induction e as [| kv e IH]; intros d H; cbn; [done |]. by apply IH, NoDup_dset.
Qed.

(** Lookup after a per-value filter. *)
Lemma dget_omap {C} (g : B -> option C) d k :
  NoDup (dkeys d) ->
  dget (omap (fun kv => c ← g (snd kv); Some (fst kv, c)) d) k = dget d k ≫= g.
Proof.
  induction d as [| [x v] d IH]; intros Hnd; [done |]. cbn in Hnd. apply NoDup_cons in Hnd as [Hx Hnd].
  cbn [omap list_omap dget fst snd]. specialize (IH Hnd). destruct (String.eqb_spec x k) as [-> | Hne].
  - apply dget_None in Hx. cbn. destruct (g v) as [c |]; cbn; [by rewrite String.eqb_refl |].
    change (dget (omap (fun kv => c ← g (snd kv); Some (fst kv, c)) d) k = None). by rewrite IH, Hx.
  - destruct (g v) as [c |]; cbn; [| exact IH]. by destruct (String.eqb_spec x k).
Qed.
End dict_lemmas.

(** Lookup after a pointwise computation on the values. *)
Lemma dget_Forall2 {B C} (R : string -> B -> C -> Prop) (l : list (string * B)) (m : list (string * C)) k :
  Forall2 (fun x y => fst x = fst y /\ R (fst x) (snd x) (snd y)) l m ->
  match dget l k with
  | Some b => exists c, dget m k = Some c /\ R k b c
  | None => dget m k = None
  end.
Proof.
  induction 1 as [| [x b] [y c] l m [Hxy HR] _ IH]; [done |]. cbn in Hxy, HR. subst y. cbn.
  destruct (String.eqb_spec x k) as [-> | ?]; [eauto | exact IH].
Qed.


Lemma in_strs_spec v l : in_strs v l = true <-> exists s, v = VStr s /\ s ∈ l.
Proof.
  destruct v as [| | | | s | |]; cbn; try (split; [done | by intros (? & ? & ?)]).
  rewrite existsb_exists. split.
  - intros (x & Hx & ->%String.eqb_eq). exists x. split; [done | by apply list_elem_of_In].
  - intros (x & [= <-] & Hx). exists s. split; [by apply list_elem_of_In | apply String.eqb_refl].
Qed.

Lemma wf_dict d : wf_val (VDict d) <-> NoDup (dkeys d) /\ Forall (fun kv => wf_val (snd kv)) d.
Proof.
  cbn. apply and_iff_compat_l.
  induction d as [| [k v] d IH]; cbn; [done |]. by rewrite Forall_cons, IH.
Qed.

Lemma wf_list l : wf_val (VList l) <-> Forall wf_val l.
Proof. cbn. induction l as [| x l IH]; cbn; [done |]. by rewrite Forall_cons, IH. Qed.



Lemma wf_dget d k v : wf_val (VDict d) -> dget d k = Some v -> wf_val v.
Proof. intros [_ H]%wf_dict Hk%dget_elem. rewrite Forall_forall in H. exact (H _ Hk). Qed.

Lemma wf_dict_or_empty v : wf_val v -> wf_val (VDict (dict_or_empty v)).
Proof. destruct v; cbn; try (intros _; split; [constructor | done]). done. Qed.

Lemma wf_dget_or d k x : wf_val (VDict d) -> wf_val x -> wf_val (dget_or d k x).
Proof. intros Hd Hx. unfold dget_or. destruct (dget d k) eqn:E; cbn; [by eapply wf_dget | done]. Qed.

Lemma wf_empty : wf_val (VDict []).
Proof. by split; [constructor |]. Qed.
#[export] Hint Resolve wf_dget wf_dict_or_empty wf_dget_or wf_empty : py.

Lemma wf_dset d k v : wf_val (VDict d) -> wf_val v -> wf_val (VDict (dset d k v)).
Proof.
  rewrite !wf_dict. intros [Hn Hd] Hv. split; [by apply NoDup_dset |]. clear Hn.
  induction d as [| [x w] d IH]; cbn; [by repeat constructor |]. apply Forall_cons in Hd as [Hw Hd].
  destruct (String.eqb x k); constructor; cbn; auto.
Qed.

Lemma wf_dpop d k : wf_val (VDict d) -> wf_val (VDict (dpop d k)).
Proof.
  rewrite !wf_dict. intros [Hn Hd]. split; [by apply NoDup_dpop |]. unfold dpop.
  apply Forall_forall. intros x [_ Hx]%list_elem_of_filter. rewrite Forall_forall in Hd. by apply Hd.
Qed.

Lemma wf_dsetdefault d k v : wf_val (VDict d) -> wf_val v -> wf_val (VDict (dsetdefault d k v)).
Proof. intros. unfold dsetdefault. destruct (dhas d k); [done | by apply wf_dset]. Qed.
#[export] Hint Resolve wf_dset wf_dpop wf_dsetdefault : py.

Lemma wf_foldl_dset {A} (ks : list A) (key : A -> string) (v : A -> pyval) d :
  wf_val (VDict d) -> (forall x, wf_val (v x)) -> wf_val (VDict (foldl (fun m x => dset m (key x) (v x)) d ks)).
Proof. revert d. induction ks as [| k ks IH]; intros d Hd Hv; cbn; [done |]. apply IH; auto with py. Qed.

Lemma wf_foldl_dpop ks d : wf_val (VDict d) -> wf_val (VDict (foldl dpop d ks)).
Proof. revert d. induction ks as [| k ks IH]; intros d Hd; cbn; [done |]. apply IH; auto with py. Qed.
#[export] Hint Resolve wf_foldl_dpop : py.

Lemma dict_or_empty_dict d : dict_or_empty (VDict d) = d.
Proof. done. Qed.

Lemma py_eq_int z z' : py_eq (VInt z) (VInt z') = true -> z = z'.
Proof.
  unfold py_eq, num_of, num_eqb, num_cmp. rewrite Z.sub_diag, !Z.mul_1_r.
  destruct (Z.compare_spec z z'); done.
Qed.

(** ** The order of numbers *)

(** Two finite numbers compared over any common exponent. *)
Lemma num_cmp_at m e n k l : l <= e -> l <= k -> num_cmp (FFin m e) (FFin n k) = Some (Z.compare (m * 2 ^ (e - l)) (n * 2 ^ (k - l))).
Proof.
  intros He Hk. cbn [num_cmp]. set (c := Z.min e k). f_equal.
  assert (Hs : forall x y, l <= c -> c <= y -> x * 2 ^ (y - l) = x * 2 ^ (y - c) * 2 ^ (c - l)).
  { intros x y H1 H2. rewrite <- Z.mul_assoc, <- Z.pow_add_r by lia. do 2 f_equal. lia. }
  rewrite (Hs m e), (Hs n k) by lia. assert (Hp : 0 < 2 ^ (c - l)) by (apply Z.pow_pos_nonneg; lia).
  generalize dependent (2 ^ (c - l)). intros p _ Hp. destruct (Z.compare_spec (m * 2 ^ (e - c)) (n * 2 ^ (k - c))) as [-> | H | H]; symmetry.
  - apply Z.compare_refl.
  - apply Z.compare_lt_iff. nia.
  - apply Z.compare_gt_iff. nia.
Qed.

Lemma num_ltb_at m e n k l : l <= e -> l <= k -> num_ltb (FFin m e) (FFin n k) = true <-> m * 2 ^ (e - l) < n * 2 ^ (k - l).
Proof. intros He Hk. unfold num_ltb. rewrite (num_cmp_at _ _ _ _ l He Hk). rewrite <- Z.compare_lt_iff. by destruct (Z.compare _ _). Qed.

Lemma num_ltb_trans f g h : num_ltb f g = true -> num_ltb g h = true -> num_ltb f h = true.
Proof.
  destruct f as [m e | [|] |], g as [n k | [|] |], h as [q j | [|] |]; try done.
  set (l := Z.min e (Z.min k j)). rewrite !(num_ltb_at _ _ _ _ l) by lia. lia.
Qed.

Lemma num_ltb_leb f g : num_ltb f g = true -> num_leb f g = true.
Proof. unfold num_ltb, num_leb. by destruct (num_cmp f g) as [[| |] |]. Qed.

Lemma num_leb_refl m e : num_leb (FFin m e) (FFin m e) = true.
Proof. unfold num_leb, num_cmp. by rewrite Z.compare_refl. Qed.

Lemma num_pos m e : num_ltb (FFin 0 0) (FFin m e) = true <-> 0 < m.
Proof.
  rewrite (num_ltb_at _ _ _ _ (Z.min 0 e)) by lia. assert (0 < 2 ^ (e - Z.min 0 e)) by (apply Z.pow_pos_nonneg; lia). nia.
Qed.
