(* ===== verification/JsonDump.v ===== *)
(** * [json.dump(..., sort_keys=True)] and reading back

    The state files are written with sorted keys, so a value comes back with the
    items of its dicts reordered.  [jeq] is equality up to that order; a written
    value reads back as a [jeq]-equal one, and the lemmas here carry lookups, loops
    over items and comparisons across the relation. *)
From S2P Require Import Prelude PyVal.

Definition key_le {B} (a b : string * B) : bool := str_leb (fst a) (fst b).

(** The value a sorted dump reads back as. *)
Fixpoint sort_keys (v : pyval) : pyval :=
  match v with
  | VList l => VList (map sort_keys l)
  | VDict d => VDict (sort_by key_le (map (fun kv => match kv with (k, x) => (k, sort_keys x) end) d))
  | _ => v
  end.

(** ** Equality up to the order of items *)

Definition atom (v : pyval) : bool := match v with VList _ | VDict _ => false | _ => true end.

Inductive jeq : pyval -> pyval -> Prop :=
  | jeq_atom v : atom v = true -> jeq v v
  | jeq_list l k : Forall2 jeq l k -> jeq (VList l) (VList k)
  | jeq_dict d e : dkeys d ≡ₚ dkeys e -> (forall k, option_Forall2 jeq (dget d k) (dget e k)) ->
      jeq (VDict d) (VDict e).

Abbreviation jeq_dicts d e := (jeq (VDict d) (VDict e)).

Section strong_induction.
Context (P : pyval -> Prop).
Context (Hatom : forall v, atom v = true -> P v).
Context (Hlist : forall l, Forall P l -> P (VList l)).
Context (Hdict : forall d, Forall (fun kv => P (snd kv)) d -> P (VDict d)).

Lemma pyval_strong_ind : forall v, P v.
Proof.
  fix IH 1. intros [| b | z | f | s | l | d]; try (by apply Hatom).
  - apply Hlist. induction l as [| x l IHl]; constructor; [apply IH | exact IHl].
  - apply Hdict. induction d as [| [k x] d IHd]; constructor; [apply IH | exact IHd].
Qed.
End strong_induction.

Lemma jeq_refl v : jeq v v.
Proof.
  induction v as [v Hv | l Hl | d Hd] using pyval_strong_ind.
  - by apply jeq_atom.
  - apply jeq_list. induction Hl; by constructor.
  - apply jeq_dict; [done |]. intros k. destruct (dget d k) as [v |] eqn:E; constructor.
    apply dget_elem in E. rewrite Forall_forall in Hd. exact (Hd _ E).
Qed.

Lemma jeq_sym v w : jeq v w -> jeq w v.
Proof.
  revert w. induction v as [v Hv | l Hl | d Hd] using pyval_strong_ind; intros w H.
  - inversion H; subst; [by apply jeq_atom | done | done].
  - inversion H as [? Ha | ? k HF |]; subst; [done |]. apply jeq_list. clear H.
    induction HF as [| x y l k Hxy _ IH]; [constructor |]. apply Forall_cons in Hl as [Hx Hl].
    constructor; [by apply Hx | by apply IH].
  - inversion H as [? Ha | | ? e Hk Hg]; subst; [done |]. apply jeq_dict; [done |]. intros k.
    specialize (Hg k). inversion Hg as [x y Hxy Ex Ey |]; constructor.
    symmetry in Ex. apply dget_elem in Ex. rewrite Forall_forall in Hd. by apply (Hd _ Ex).
Qed.

(** ** Lookups *)

Lemma jeq_get d e k : jeq_dicts d e -> option_Forall2 jeq (dget d k) (dget e k).
Proof. inversion 1 as [? Ha | |]; subst; done. Qed.

Lemma jeq_get_Some d e k v : jeq_dicts d e -> dget d k = Some v -> exists w, dget e k = Some w /\ jeq v w.
Proof. intros H Hk. apply (jeq_get d e k) in H. rewrite Hk in H. inversion H; subst. eauto. Qed.

Lemma jeq_get_None d e k : jeq_dicts d e -> dget d k = None -> dget e k = None.
Proof. intros H Hk. apply (jeq_get d e k) in H. rewrite Hk in H. by inversion H. Qed.

Lemma jeq_get_or d e k x : jeq_dicts d e -> jeq (dget_or d k x) (dget_or e k x).
Proof.
  intros H. apply (jeq_get d e k) in H. unfold dget_or. inversion H; cbn; [done | apply jeq_refl].
Qed.

Lemma jeq_keys d e : jeq_dicts d e -> dkeys d ≡ₚ dkeys e.
Proof. inversion 1 as [? Ha | |]; subst; done. Qed.

Lemma jeq_has d e k : jeq_dicts d e -> dhas d k = dhas e k.
Proof. intros H. apply (jeq_get d e k) in H. unfold dhas. by inversion H. Qed.

Lemma jeq_zlen d e : jeq_dicts d e -> zlen d = zlen e.
Proof.
  intros H%jeq_keys. apply Permutation_length in H. unfold dkeys in H. rewrite !length_map in H.
  unfold zlen. by rewrite H.
Qed.

Lemma jeq_dict_or_empty v w : jeq v w -> jeq_dicts (dict_or_empty v) (dict_or_empty w).
Proof. inversion 1 as [u Ha | |]; subst; [apply jeq_refl | apply jeq_refl | done]. Qed.

Lemma jeq_zlen_list l k : jeq (VList l) (VList k) -> zlen l = zlen k.
Proof. inversion 1 as [? Ha | ? ? HF |]; subst; [done |]. apply Forall2_length in HF. unfold zlen. by rewrite HF. Qed.

Lemma jeq_list_inv l w : jeq (VList l) w -> exists k, w = VList k /\ Forall2 jeq l k.
Proof. inversion 1 as [? Ha | |]; subst; [done | eauto]. Qed.
Lemma jeq_dict_inv d w : jeq (VDict d) w -> exists e, w = VDict e /\ jeq_dicts d e.
Proof. inversion 1 as [? Ha | |]; subst; [done | eauto]. Qed.

(** Values without items are only related to themselves. *)
Lemma jeq_str s w : jeq (VStr s) w -> w = VStr s.
Proof. by inversion 1. Qed.
Lemma jeq_is_dict v w : jeq v w -> is_dict v = is_dict w.
Proof. by inversion 1. Qed.
Lemma jeq_is_bool v w : jeq v w -> is_bool v = is_bool w.
Proof. by inversion 1. Qed.
Lemma jeq_truth v w : jeq v w -> truth v = truth w.
Proof.
  inversion 1 as [| l k HF | d e Hk _]; subst; [done | by inversion HF |]. apply Permutation_length in Hk.
  unfold dkeys in Hk. rewrite !length_map in Hk. by destruct d, e.
Qed.
Lemma jeq_in_strs v w l : jeq v w -> in_strs v l = in_strs w l.
Proof. by inversion 1. Qed.
Lemma jeq_hashable v w : jeq v w -> hashable v = true -> v = w.
Proof. by inversion 1. Qed.

(** ** Loops over items *)

Lemma jeq_Forall (P Q : string * pyval -> Prop) d e :
  jeq_dicts d e -> NoDup (dkeys e) ->
  (forall k v w, (k, v) ∈ d -> (k, w) ∈ e -> jeq v w -> P (k, v) -> Q (k, w)) -> Forall P d -> Forall Q e.
Proof.
  intros H He HP Hall. apply Forall_forall. intros [k w] Hin. pose proof Hin as Hk. apply dget_Some in Hk; [| done].
  destruct (jeq_get_Some e d k w (jeq_sym _ _ H) Hk) as (v & Hv & Hwv). apply dget_elem in Hv.
  apply (HP k v w Hv Hin (jeq_sym _ _ Hwv)). rewrite Forall_forall in Hall. by apply Hall.
Qed.

Lemma jeq_iter (f g : string * pyval -> res unit) d e :
  jeq_dicts d e -> NoDup (dkeys e) ->
  (forall k v w, (k, v) ∈ d -> (k, w) ∈ e -> jeq v w -> f (k, v) = Ok tt -> g (k, w) = Ok tt) ->
  res_iter f d = Ok tt -> res_iter g e = Ok tt.
Proof. rewrite !res_iter_ok. apply (jeq_Forall (fun x => f x = Ok tt) (fun x => g x = Ok tt)). Qed.

(** ** Comparison *)

Lemma py_eq_dict_iff d e :
  py_eq (VDict d) (VDict e) = true <->
  length d = length e /\ Forall (fun kv => exists w, dget e (fst kv) = Some w /\ py_eq (snd kv) w = true) d.
Proof.
  cbn [py_eq]. rewrite andb_true_iff, Nat.eqb_eq. apply and_iff_compat_l.
  induction d as [| [k v] d IH]; [by split |]. rewrite andb_true_iff, IH, Forall_cons. apply and_iff_compat_r.
  cbn. destruct (dget e k); [| naive_solver]. split; [eauto | naive_solver].
Qed.

Lemma jeq_py_eq v w c : jeq v w -> wf_val v -> wf_val w -> py_eq v c = true -> py_eq w c = true.
Proof.
  revert w c. induction v as [v Hv | l Hl | d Hd] using pyval_strong_ind; intros w c H Hwv Hww Heq.
  - inversion H; subst; [done | done | done].
  - inversion H as [? Ha | ? k HF |]; subst; [done |]. clear H. destruct c as [| | | | | c |]; try done.
    apply wf_list in Hwv, Hww. cbn in Heq |- *.
    revert c Heq. induction HF as [| x y l k Hxy _ IH]; intros [| z c] Heq; try done.
    apply andb_true_iff in Heq as [H1 H2]. apply Forall_cons in Hl as [Hx Hl], Hwv as [? Hwv], Hww as [? Hww].
    apply andb_true_iff. split; [by apply Hx | by apply IH].
  - inversion H as [? Ha | | ? e Hk Hg]; subst; [done |]. destruct c as [| | | | | | c]; try done.
    apply wf_dict in Hwv as [Hnd Hwv], Hww as [Hne Hww].
    apply py_eq_dict_iff in Heq as [Hlen Heq]. apply py_eq_dict_iff. split.
    { apply Permutation_length in Hk. unfold dkeys in Hk. rewrite !length_map in Hk. congruence. }
    rewrite Forall_forall in Hwv, Hww, Hd.
    eapply (jeq_Forall _ _ d e); [done | done | | exact Heq]. cbn [fst snd].
    intros k x y Hx Hy Hxy (w & Hw & Hpe). exists w. split; [done |].
    apply (Hd _ Hx); [done | exact (Hwv _ Hx) | exact (Hww _ Hy) | done].
Qed.

(** ** What is written reads back equal *)

Lemma dget_perm {B} (d e : list (string * B)) k : NoDup (dkeys d) -> d ≡ₚ e -> dget d k = dget e k.
Proof.
  intros Hnd Hp. assert (Hne : NoDup (dkeys e)).
  { unfold dkeys in *. by rewrite <- Hp. }
  destruct (dget d k) as [v |] eqn:E.
  - symmetry. apply dget_Some; [done |]. rewrite <- Hp. by apply dget_elem.
  - destruct (dget e k) as [w |] eqn:E'; [| done]. exfalso. apply dget_None in E. apply E.
    unfold dkeys. rewrite Hp. by eapply dget_key.
Qed.

Lemma dget_map_vals (f : pyval -> pyval) (d : dict) k :
  dget (map (fun kv => match kv with (k, x) => (k, f x) end) d) k = f <$> dget d k.
Proof. induction d as [| [x v] d IH]; cbn; [done |]. by destruct (String.eqb x k). Qed.

Lemma dkeys_map_vals (f : pyval -> pyval) (d : dict) :
  dkeys (map (fun kv => match kv with (k, x) => (k, f x) end) d) = dkeys d.
Proof. unfold dkeys. rewrite map_map. apply map_ext. by intros [k v]. Qed.

Lemma dget_sort_keys d k :
  NoDup (dkeys d) -> dget (dict_or_empty (sort_keys (VDict d))) k = sort_keys <$> dget d k.
Proof.
  intros Hnd. change (dict_or_empty (sort_keys (VDict d))) with
    (sort_by key_le (map (fun kv => match kv with (k, x) => (k, sort_keys x) end) d)).
  rewrite <- dget_map_vals. symmetry. apply dget_perm; [by rewrite dkeys_map_vals |].
  symmetry. apply sort_by_perm.
Qed.

Lemma dkeys_sort_keys d : dkeys (dict_or_empty (sort_keys (VDict d))) ≡ₚ dkeys d.
Proof.
  change (dict_or_empty (sort_keys (VDict d))) with
    (sort_by key_le (map (fun kv => match kv with (k, x) => (k, sort_keys x) end) d)).
  rewrite <- (dkeys_map_vals sort_keys d). unfold dkeys. by rewrite sort_by_perm.
Qed.

Lemma wf_sort_keys v : wf_val v -> wf_val (sort_keys v).
Proof.
  induction v as [v Hv | l Hl | d Hd] using pyval_strong_ind; intros Hwf.
  - by destruct v.
  - apply wf_list in Hwf. cbn [sort_keys]. apply wf_list, Forall_map.
    rewrite Forall_forall in Hl, Hwf |- *. intros x Hx. by apply Hl, Hwf.
  - pose proof (dkeys_sort_keys d) as Hp. apply wf_dict in Hwf as [Hnd Hwf]. cbn [sort_keys] in *. apply wf_dict. split.
    + change (NoDup (dkeys (dict_or_empty (sort_keys (VDict d))))). by rewrite Hp.
    + rewrite sort_by_perm. apply Forall_map. rewrite Forall_forall in Hd, Hwf |- *.
      intros [k v] Hin. cbn. by apply (Hd _ Hin), (Hwf _ Hin).
Qed.

Lemma jeq_sort_keys v : wf_val v -> jeq v (sort_keys v).
Proof.
  induction v as [v Hv | l Hl | d Hd] using pyval_strong_ind; intros Hwf.
  - destruct v; try done; by apply jeq_atom.
  - apply wf_list in Hwf. cbn [sort_keys]. apply jeq_list.
    induction Hl as [| x l Hx _ IH]; [constructor |]. apply Forall_cons in Hwf as [? ?].
    constructor; [by apply Hx | by apply IH].
  - pose proof (dkeys_sort_keys d) as Hp. apply wf_dict in Hwf as [Hnd Hwf].
    change (sort_keys (VDict d)) with (VDict (dict_or_empty (sort_keys (VDict d)))). apply jeq_dict; [done |].
    intros k. rewrite dget_sort_keys by done. destruct (dget d k) as [v |] eqn:E; constructor.
    apply dget_elem in E. rewrite Forall_forall in Hd, Hwf. by apply (Hd _ E), (Hwf _ E).
Qed.
