(* ===== verification/Ipv4.v ===== *)
(** * The parts of Python's [ipaddress] the policy code uses

    [IPv4Address] and [IPv4Network(..., strict=False)] on strings, and containment. *)
From S2P Require Import Prelude PyVal.

Definition all_ones : Z := 2 ^ 32 - 1.

(** [s.split(c)] *)
Fixpoint split_on (c : ascii) (b : bytes) : list bytes :=
  match b with
  | [] => [[]]
  | x :: b =>
      match split_on c b with
      | [] => [[x]]
      | w :: ws => if byte_eqb x c then [] :: w :: ws else (x :: w) :: ws
      end
  end.

(** [_parse_octet]: one to three ASCII digits, no leading zero, at most 255. *)
Definition parse_octet (o : bytes) : option Z :=
  if negb (isdigit o) then None
  else if 3 <? zlen o then None
  else if negb (bool_decide (o = ["0"%char])) && bool_decide (take 1 o = ["0"%char]) then None
  else let v := digits_val o in if 255 <? v then None else Some v.

Definition parse_ipv4 (s : string) : option Z :=
  match split_on "." (bytes_of s) with
  | [a; b; c; d] =>
      a ← parse_octet a; b ← parse_octet b; c ← parse_octet c; d ← parse_octet d;
      Some (((a * 256 + b) * 256 + c) * 256 + d)
  | _ => None
  end.

(** [ipaddress.IPv4Address(s)] *)
Definition IPv4Address (s : string) : res Z :=
  match parse_ipv4 s with Some z => Ok z | None => Err (ValueError "AddressValueError") end.

(** [_prefix_from_ip_int]: a run of ones followed by zeros. *)
Definition netmask_of (prefix : Z) : Z := Z.lxor all_ones (Z.shiftr all_ones prefix).

Fixpoint find_prefix (fuel : nat) (z : Z) : option Z :=
  match fuel with
  | O => None
  | S fuel =>
      if z =? netmask_of (32 - Z.of_nat fuel) then Some (32 - Z.of_nat fuel) else find_prefix fuel z
  end.

Definition prefix_from_ip_int (z : Z) : option Z := find_prefix 33 z.

(** [_make_netmask]: a prefix length in ASCII digits, or a dotted netmask, or a
    dotted hostmask. *)
Definition parse_netmask (m : string) : option Z :=
  let b := bytes_of m in
  let quad :=
    z ← parse_ipv4 m;
    match prefix_from_ip_int z with
    | Some p => Some p
    | None => prefix_from_ip_int (Z.lxor z all_ones)
    end in
  if isdigit b then let p := digits_val b in if p <=? 32 then Some p else quad
  else quad.

(** A network: its masked base address and its netmask. *)
Record network := Network { net_base : Z; net_mask : Z }.

(** [ipaddress.IPv4Network(s, strict=False)] *)
Definition parse_network (s : string) : option network :=
  match split_on "/" (bytes_of s) with
  | [a] => z ← parse_ipv4 (string_of a); Some (Network z all_ones)
  | [a; m] =>
      z ← parse_ipv4 (string_of a);
      p ← parse_netmask (string_of m);
      Some (Network (Z.land z (netmask_of p)) (netmask_of p))
  | _ => None
  end.

Definition IPv4Network (s : string) : res network :=
  match parse_network s with Some n => Ok n | None => Err (ValueError "invalid network") end.

(** [address in network] *)
Definition net_contains (n : network) (ip : Z) : bool := Z.land ip (net_mask n) =? net_base n.

(** ** Lemmas *)

Lemma parse_octet_bounds o v : parse_octet o = Some v -> 0 <= v <= 255.
Proof.
  unfold parse_octet. destruct (isdigit o) eqn:Hd; [| done]. cbn [negb].
  destruct (3 <? zlen o); [done |]. destruct (_ && _); [done |].
  destruct (255 <? digits_val o) eqn:Hv; [done |]. intros [= <-]. bool_norm. split; [| done].
  assert (forall l acc, 0 <= acc -> Forall (fun c => is_digit c = true) l ->
    0 <= foldl (fun acc c => 10 * acc + digit_val c) acc l) as Hf.
  { induction l as [| c l IH]; intros acc Hacc Hl; [done |]. apply Forall_cons in Hl as [Hc Hl].
    cbn. apply IH; [| done]. unfold is_digit, digit_val in *. bool_norm. lia. }
  apply Hf; [done |]. destruct o as [| c o]; [done |]. cbn in Hd.
  apply Forall_forall. intros x Hx. rewrite andb_true_iff, forallb_forall in Hd. destruct Hd as [Hc Ho].
  apply elem_of_cons in Hx as [-> | Hx]; [done | by apply Ho, list_elem_of_In].
Qed.

Lemma parse_ipv4_bounds s z : parse_ipv4 s = Some z -> 0 <= z <= all_ones.
Proof.
  unfold parse_ipv4. destruct (split_on "." _) as [| a [| b [| c [| d [|]]]]]; try done.
  destruct (parse_octet a) as [va |] eqn:Ea; [| done].
  destruct (parse_octet b) as [vb |] eqn:Eb; [| done].
  destruct (parse_octet c) as [vc |] eqn:Ec; [| done].
  destruct (parse_octet d) as [vd |] eqn:Ed; [| done].
  cbn. intros [= <-]. apply parse_octet_bounds in Ea, Eb, Ec, Ed. unfold all_ones. lia.
Qed.

(** The zero address is in a network exactly when its base is zero. *)
Lemma contains_zero n : net_contains n 0 = (net_base n =? 0).
Proof. unfold net_contains. rewrite Z.land_0_l. apply Z.eqb_sym. Qed.

(** Splitting where a separator stands. *)
Lemma split_last c w : Forall (fun x => x <> c) w -> split_on c w = [w].
Proof. induction 1 as [| x w Hx _ IH]; [done |]. cbn. rewrite IH. unfold byte_eqb. by rewrite bool_decide_false. Qed.

Lemma split_line c w rest : Forall (fun x => x <> c) w -> split_on c (w ++ c :: rest) = w :: split_on c rest.
Proof.
  induction 1 as [| x w Hx _ IH]; cbn.
  - assert (Hne : exists v vs, split_on c rest = v :: vs) by (destruct rest as [| y r]; cbn; [by eexists _, _ | destruct (split_on c r); [by eexists _, _ |]; destruct (byte_eqb y c); by eexists _, _]).
    destruct Hne as (v & vs & ->). unfold byte_eqb. by rewrite bool_decide_true.
  - rewrite IH. unfold byte_eqb. by rewrite bool_decide_false.
Qed.
