(* ===== verification/PolicyDoc.v ===== *)
(** * [server/peer_policy.py]: tables, field validators and quarantine membership

    The constants of the module, the validators of single rules and QoS maps, and
    the canonical and legacy quarantine representations with the migration
    between them. *)
From S2P Require Import Prelude PyVal Ipv4.

(** ** Constants *)

Definition SCHEMA : Z := 1.
Definition MAX_ACLS : Z := 64.
Definition MAX_RULES_PER_ACL : Z := 256.
Definition OUTBOX_CAP : Z := 256.
Definition MAX_ROLES : Z := 256.
Definition MAX_ROLE_PEERS : Z := 64.
Definition MAX_QUARANTINED_DEVICES : Z := 10000.
Definition LKG_RING_SIZE : nat := 5.
Definition RESERVED_QUARANTINE : string := "quarantine".
Definition RESERVED_ROLE_NAMES : list string := ["default"; "quarantine"; "origin"; "seeder"; "legacy"].
Definition _ACTIONS : list string := ["permit"; "deny"].
Definition _MATCH_TYPES : list string := ["device"; "service"; "host"; "cidr"; "any"; "role"].

Definition PER_TORRENT_RATE_KEYS : list string :=
  ["seed_up_bps"; "seed_down_bps"; "leech_up_bps"; "leech_down_bps"].

Definition QOS_DEFAULTS : dict := [
  ("max_peers", VInt 10);
  ("per_peer_bps", VInt 12500000);
  ("fanout", VInt 1);
  ("seed_up_bps", VInt 0);
  ("seed_down_bps", VInt 0);
  ("leech_up_bps", VInt 0);
  ("leech_down_bps", VInt 0);
  ("overall_up_bps", VInt 0);
  ("overall_down_bps", VInt 0);
  ("max_concurrent", VInt 100);
  ("request_peer_speed_limit_bps", VInt 51200);
  ("announce_min_interval_s", VInt 30);
  ("numwant", VInt 50);
  ("handout_budget", VInt 0);
  ("catalog_tick_s", VInt 60);
  ("telemetry_every_ticks", VInt 1);
  ("peer_telemetry_interval_s", VInt 60);
  ("telemetry_pause", VBool false);
  ("on_stale", VStr "defaults");
  ("origin_up_bps", VInt 0);
  ("origin_per_torrent_up_bps", VInt 0);
  ("origin_max_peers", VInt 55)].

Definition QOS_UNITS : list (string * string) := [
  ("max_peers", "connections_per_torrent");
  ("per_peer_bps", "bytes_per_second");
  ("fanout", "multiplier");
  ("seed_up_bps", "bytes_per_second");
  ("seed_down_bps", "bytes_per_second");
  ("leech_up_bps", "bytes_per_second");
  ("leech_down_bps", "bytes_per_second");
  ("overall_up_bps", "bytes_per_second");
  ("overall_down_bps", "bytes_per_second");
  ("max_concurrent", "torrents");
  ("request_peer_speed_limit_bps", "bytes_per_second");
  ("announce_min_interval_s", "seconds");
  ("numwant", "peers_per_announce");
  ("handout_budget", "handouts_per_window");
  ("catalog_tick_s", "seconds");
  ("telemetry_every_ticks", "ticks");
  ("peer_telemetry_interval_s", "seconds");
  ("telemetry_pause", "boolean");
  ("on_stale", "enum");
  ("origin_up_bps", "bytes_per_second");
  ("origin_per_torrent_up_bps", "bytes_per_second");
  ("origin_max_peers", "connections_per_torrent")].

Definition _RATE_KEYS : list string :=
  map fst (filter (fun ku => snd ku = "bytes_per_second") QOS_UNITS).

Definition _MIN_RATE_BPS : Z := 8192.

Definition _QOS_RANGES : list (string * (Z * Z)) := [
  ("max_peers", (1, 1000));
  ("per_peer_bps", (0, 10000000000));
  ("fanout", (1, 1000));
  ("seed_up_bps", (0, 10000000000));
  ("seed_down_bps", (0, 10000000000));
  ("leech_up_bps", (0, 10000000000));
  ("leech_down_bps", (0, 10000000000));
  ("overall_up_bps", (0, 10000000000));
  ("overall_down_bps", (0, 10000000000));
  ("max_concurrent", (1, 1000));
  ("request_peer_speed_limit_bps", (0, 1000000000));
  ("announce_min_interval_s", (10, 300));
  ("numwant", (4, 200));
  ("handout_budget", (0, 1000));
  ("catalog_tick_s", (60, 900));
  ("telemetry_every_ticks", (1, 60));
  ("peer_telemetry_interval_s", (10, 60));
  ("origin_up_bps", (0, 10000000000));
  ("origin_per_torrent_up_bps", (0, 10000000000));
  ("origin_max_peers", (1, 1000))].

Definition _TRACKER_QOS_KEYS : list string := ["announce_min_interval_s"; "numwant"].
Definition _TRACKER_STATES : list string := ["seeder"; "leecher"].

(** The scopes each QoS key may be set at. *)
Definition _QOS_SCOPES : list (string * list string) :=
  map (fun k => (k, ["global"; "role"; "device"]))
    (["max_peers"; "per_peer_bps"; "fanout"] ++ PER_TORRENT_RATE_KEYS ++
     ["overall_up_bps"; "overall_down_bps"; "max_concurrent"; "catalog_tick_s";
      "telemetry_every_ticks"; "telemetry_pause"]) ++
  [("peer_telemetry_interval_s", ["device"])] ++
  map (fun k => (k, ["global"; "role"]))
    ["request_peer_speed_limit_bps"; "announce_min_interval_s"; "numwant"; "handout_budget"] ++
  map (fun k => (k, ["global"]))
    ["on_stale"; "origin_up_bps"; "origin_per_torrent_up_bps"; "origin_max_peers"].

Definition _QUARANTINE_RULES : pyval :=
  VList [VDict [("seq", VInt 10); ("action", VStr "deny"); ("match", VDict [("type", VStr "any")])]].

(** [PolicyError(msg)] with its default code. *)
Definition perr (msg : string) : pyexn := PolicyError "invalid_policy" msg.

Definition base_document : dict := [
  ("schema", VInt SCHEMA);
  ("revision", VInt 1);
  ("acls", VDict [(RESERVED_QUARANTINE, VDict [
     ("reserved", VBool true);
     ("description", VStr "reserved: fully isolate an assigned device");
     ("rules", _QUARANTINE_RULES)])]);
  ("assignments", VDict []);
  ("seeder_assignment", VNone);
  ("operation_outbox", VList [])].

(** ** Names *)

Definition in_range_c (lo hi : Z) (c : ascii) : bool := (lo <=? byte_val c) && (byte_val c <=? hi).
Definition is_lower (c : ascii) : bool := in_range_c 97 122 c.
Definition is_upper (c : ascii) : bool := in_range_c 65 90 c.
Definition is_punct (c : ascii) : bool :=
  byte_eqb c "." || byte_eqb c "_" || byte_eqb c "-".

(** [^[a-z0-9][a-z0-9._-]{0,31}$] under [fullmatch]. *)
Definition role_name_re (s : string) : bool :=
  match bytes_of s with
  | [] => false
  | c :: rest =>
      (is_lower c || is_digit c) && (zlen rest <=? 31) &&
      forallb (fun c => is_lower c || is_digit c || is_punct c) rest
  end.

(** [^[A-Za-z0-9._-]{1,64}$] under [match]: [$] also matches before a final
    newline. *)
Definition acl_name_body (b : bytes) : bool :=
  (1 <=? zlen b) && (zlen b <=? 64) &&
  forallb (fun c => is_upper c || is_lower c || is_digit c || is_punct c) b.

Definition acl_name_re (s : string) : bool :=
  let b := bytes_of s in
  acl_name_body b ||
  match reverse b with
  | c :: rest => byte_eqb c "010" && acl_name_body (reverse rest)
  | [] => false
  end.

(** [[0-9a-f]{n}] under [fullmatch]. *)
Definition hex_re (n : Z) (s : string) : bool :=
  (zlen (bytes_of s) =? n) && forallb (fun c => is_digit c || in_range_c 97 102 c) (bytes_of s).

Definition validate_role_name (name : pyval) (invalid_message : string) : res string :=
  match name with
  | VStr s =>
      if negb (role_name_re s) then Err (perr invalid_message)
      else if existsb (String.eqb s) RESERVED_ROLE_NAMES
      then Err (PolicyError "role_reserved_name" "reserved role name")
      else Ok s
  | _ => Err (perr invalid_message)
  end.

Arguments validate_role_name : simpl never.

(** ** Field validators *)

(** The match clause of a rule. *)
Definition _validate_match (match_ : pyval) : res unit :=
  match match_ with
  | VDict m =>
      match dget_or m "type" VNone with
      | VStr mtype =>
          raise (perr "bad match type") when negb (existsb (String.eqb mtype) _MATCH_TYPES) ;;;
          if String.eqb mtype "any" then Ok tt
          else
            match dget_or m "value" VNone with
            | VStr value =>
                raise (perr "match value required") when String.eqb value "" ;;;
                if String.eqb mtype "host" then let* _ := IPv4Address value in Ok tt
                else if String.eqb mtype "cidr" then let* _ := IPv4Network value in Ok tt
                else if String.eqb mtype "role" then
                  let* _ := validate_role_name (VStr value) "bad role name" in Ok tt
                else Ok tt
            | _ => Err (perr "match value required")
            end
      | _ => Err (perr "bad match type")
      end
  | _ => Err (perr "bad match type")
  end.

Definition _validate_rule (rule : pyval) : res unit :=
  match rule with
  | VDict rule =>
      raise (perr "rule seq must be int") when negb (match dget rule "seq" with Some (VInt _) => true | _ => false end) ;;;
      raise (perr "bad action") when negb (in_strs (dget_or rule "action" VNone) _ACTIONS) ;;;
      _validate_match (dget_or rule "match" VNone)
  | _ => Err (perr "rule must be an object")
  end.

(** The least string of a list, for error messages that show [sorted(...)[0]]. *)
Definition least (l : list string) : string := default "" (head (sort_by str_leb l)).

Definition _validate_qos_item (scope : string) (kv : string * pyval) : res unit :=
  let '(key, value) := kv in
  raise (perr ("qos key not allowed at " +:+ scope +:+ " scope: " +:+ key))
    when negb (existsb (String.eqb scope) (dget_or _QOS_SCOPES key [])) ;;;
  if String.eqb key "telemetry_pause" then
    raise (perr "telemetry_pause must be bool") when negb (is_bool value) ;;; Ok tt
  else if String.eqb key "on_stale" then
    raise (perr "bad on_stale") when negb (in_strs value ["keep"; "defaults"]) ;;; Ok tt
  else
    match value with
    | VInt z =>
        let '(minimum, maximum) := dget_or _QOS_RANGES key (0, 0) in
        raise (perr ("qos value out of range: " +:+ key)) when negb ((minimum <=? z) && (z <=? maximum)) ;;;
        raise (perr ("qos rate must be zero or at least 8192: " +:+ key))
          when existsb (String.eqb key) _RATE_KEYS && negb (z =? 0) && (z <? _MIN_RATE_BPS) ;;;
        raise (perr "catalog_tick_s must be a launcher tick multiple")
          when String.eqb key "catalog_tick_s" && negb (z mod 60 =? 0) ;;;
        raise (perr "peer telemetry interval must be 10 or 60 seconds")
          when String.eqb key "peer_telemetry_interval_s" && negb ((z =? 10) || (z =? 60)) ;;;
        Ok tt
    | _ => Err (perr ("qos value must be int: " +:+ key))
    end.

Definition _validate_qos (qos : pyval) (scope : string) : res unit :=
  match qos with
  | VDict qos =>
      let unknown := filter (fun k => dhas _QOS_SCOPES k = false) (dkeys qos) in
      raise (perr ("unknown qos key: " +:+ least unknown)) when negb (bool_decide (unknown = [])) ;;;
      res_iter (_validate_qos_item scope) qos
  | _ => Err (perr "bad qos")
  end.

Definition _validate_qos_state_item (kv : string * pyval) : res unit :=
  let '(key, value) := kv in
  match value with
  | VInt z =>
      let '(minimum, maximum) := dget_or _QOS_RANGES key (0, 0) in
      raise (perr ("tracker state qos value out of range: " +:+ key))
        when negb ((minimum <=? z) && (z <=? maximum)) ;;;
      Ok tt
  | _ => Err (perr ("tracker state qos value must be int: " +:+ key))
  end.

Definition _validate_qos_state (qos_state : pyval) : res unit :=
  match qos_state with
  | VDict states =>
      raise (perr "unknown tracker state")
        when negb (forallb (fun k => existsb (String.eqb k) _TRACKER_STATES) (dkeys states)) ;;;
      res_iter (fun '(state, values) =>
        match values with
        | VDict values =>
            raise (perr "unknown tracker state qos key")
              when negb (forallb (fun k => existsb (String.eqb k) _TRACKER_QOS_KEYS) (dkeys values)) ;;;
            res_iter _validate_qos_state_item values
        | _ => Err (perr ("bad tracker state qos: " +:+ state))
        end) states
  | _ => Err (perr "bad qos state")
  end.

(** ** Quarantine membership *)

Definition is_true (v : pyval) : bool := match v with VBool true => true | _ => false end.
Definition is_reserved_quarantine (v : pyval) : bool :=
  match v with VStr s => String.eqb s RESERVED_QUARANTINE | _ => false end.

Definition _validate_quarantined_devices (value : pyval) (enforce_limit : bool) : res unit :=
  match value with
  | VDict d =>
      raise (perr "bad quarantined device membership") when negb (forallb (fun kv => is_true (snd kv)) d) ;;;
      raise (perr "too many quarantined devices") when enforce_limit && (MAX_QUARANTINED_DEVICES <? zlen d) ;;;
      Ok tt
  | _ => Err (perr "bad quarantined_devices")
  end.

Definition is_quarantined (doc : dict) (device_id : string) : bool :=
  let canonical :=
    match dget_or doc "quarantined_devices" (VDict []) with
    | VDict membership => is_true (dget_or membership device_id VNone)
    | _ => false
    end in
  let legacy :=
    match dget_or doc "assignments" (VDict []) with
    | VDict assignments => is_reserved_quarantine (dget_or assignments device_id VNone)
    | _ => false
    end in
  canonical || legacy.

(** A device's ordinary assignment; [None] for the Python [None]. *)
Definition ordinary_assignment (doc : dict) (device_id : string) : option pyval :=
  match dget_or doc "assignments" (VDict []) with
  | VDict assignments =>
      match dget_or assignments device_id VNone with
      | VNone => None
      | assigned => if is_reserved_quarantine assigned then None else Some assigned
      end
  | _ => None
  end.

(** The ids in canonical order of discovery; a Python set. *)
Definition quarantine_device_ids (doc : dict) : list string :=
  let canonical :=
    match dget_or doc "quarantined_devices" (VDict []) with
    | VDict membership => map fst (filter (fun kv => is_true (snd kv) = true) membership)
    | _ => []
    end in
  let legacy :=
    match dget_or doc "assignments" (VDict []) with
    | VDict assignments => map fst (filter (fun kv => is_reserved_quarantine (snd kv) = true) assignments)
    | _ => []
    end in
  canonical ++ filter (fun k => k ∉ canonical) legacy.

Definition _normalize_quarantine (candidate : dict) : res dict :=
  match dget_or candidate "assignments" VNone with
  | VDict assignments =>
      let* membership :=
        match dget candidate "quarantined_devices" with
        | Some m => _validate_quarantined_devices m false ;;; Ok (dict_or_empty m)
        | None => Ok []
        end in
      let legacy_ids := map fst (filter (fun kv => is_reserved_quarantine (snd kv) = true) assignments) in
      if bool_decide (legacy_ids = []) then Ok candidate
      else
        let normalized_assignments := foldl dpop assignments legacy_ids in
        let normalized_membership := foldl (fun m k => dset m k (VBool true)) membership legacy_ids in
        Ok (dset (dset candidate "assignments" (VDict normalized_assignments))
              "quarantined_devices" (VDict normalized_membership))
  | _ => Err (perr "bad assignments")
  end.

(** [dict(candidate.get("quarantined_devices", {}))]: on a normalized candidate the
    value is a dict. *)
Definition _set_quarantine_membership (candidate : dict) (device_id : string) (quarantined : bool) : dict :=
  let membership := dict_or_empty (dget_or candidate "quarantined_devices" (VDict [])) in
  if quarantined then dset candidate "quarantined_devices" (VDict (dset membership device_id (VBool true)))
  else
    let membership := dpop membership device_id in
    match membership with
    | [] => dpop candidate "quarantined_devices"
    | _ => dset candidate "quarantined_devices" (VDict membership)
    end.
