(* ===== verification/Sha256.v ===== *)
(** * SHA-256 ([hashlib.sha256(...).hexdigest()])

    The digest that ties an acknowledgement epoch to an event id, as an executable
    function (FIPS 180-4) on 32-bit words. *)
From S2P Require Import Prelude PolicyDoc.

Definition w32 (z : Z) : Z := z mod 2 ^ 32.
Definition add32 (a b : Z) : Z := w32 (a + b).
Definition rotr (n x : Z) : Z := Z.lor (Z.shiftr x n) (w32 (Z.shiftl x (32 - n))).
Definition not32 (x : Z) : Z := 2 ^ 32 - 1 - x.

Definition sha_K : list Z :=
  [1116352408; 1899447441; 3049323471; 3921009573; 961987163; 1508970993; 2453635748; 2870763221;
   3624381080; 310598401; 607225278; 1426881987; 1925078388; 2162078206; 2614888103; 3248222580;
   3835390401; 4022224774; 264347078; 604807628; 770255983; 1249150122; 1555081692; 1996064986;
   2554220882; 2821834349; 2952996808; 3210313671; 3336571891; 3584528711; 113926993; 338241895;
   666307205; 773529912; 1294757372; 1396182291; 1695183700; 1986661051; 2177026350; 2456956037;
   2730485921; 2820302411; 3259730800; 3345764771; 3516065817; 3600352804; 4094571909; 275423344;
   430227734; 506948616; 659060556; 883997877; 958139571; 1322822218; 1537002063; 1747873779;
   1955562222; 2024104815; 2227730452; 2361852424; 2428436474; 2756734187; 3204031479; 3329325298].

Definition sha_H0 : list Z :=
  [1779033703; 3144134277; 1013904242; 2773480762; 1359893119; 2600822924; 528734635; 1541459225].

Definition ch (x y z : Z) : Z := Z.lxor (Z.land x y) (Z.land (not32 x) z).
Definition maj (x y z : Z) : Z := Z.lxor (Z.lxor (Z.land x y) (Z.land x z)) (Z.land y z).
Definition bsig0 (x : Z) : Z := Z.lxor (Z.lxor (rotr 2 x) (rotr 13 x)) (rotr 22 x).
Definition bsig1 (x : Z) : Z := Z.lxor (Z.lxor (rotr 6 x) (rotr 11 x)) (rotr 25 x).
Definition ssig0 (x : Z) : Z := Z.lxor (Z.lxor (rotr 7 x) (rotr 18 x)) (Z.shiftr x 3).
Definition ssig1 (x : Z) : Z := Z.lxor (Z.lxor (rotr 17 x) (rotr 19 x)) (Z.shiftr x 10).

(** Padding: a one bit, zeros to 56 modulo 64 bytes, the length in bits. *)
Definition be_bytes (n : nat) (z : Z) : list Z :=
  map (fun i => (z / 2 ^ (8 * Z.of_nat (n - 1 - i))) mod 256) (seq 0 n).
Definition sha_pad (m : list Z) : list Z :=
  m ++ [128] ++ replicate (Z.to_nat ((55 - zlen m) mod 64)) 0 ++ be_bytes 8 (8 * zlen m).

Fixpoint words (l : list Z) : list Z :=
  match l with
  | a :: b :: c :: d :: l => (((a * 256 + b) * 256 + c) * 256 + d) :: words l
  | _ => []
  end.

(** The message schedule, most recent word first. *)
Fixpoint schedule (n : nat) (w : list Z) : list Z :=
  match n with
  | O => w
  | S n =>
      let at_ i := nth i w 0 in
      schedule n (add32 (add32 (ssig1 (at_ 1%nat)) (at_ 6%nat)) (add32 (ssig0 (at_ 14%nat)) (at_ 15%nat)) :: w)
  end.

Definition sha_round (st : list Z) (kw : Z * Z) : list Z :=
  match st with
  | [a; b; c; d; e; f; g; h] =>
      let t1 := add32 (add32 h (bsig1 e)) (add32 (ch e f g) (add32 (fst kw) (snd kw))) in
      let t2 := add32 (bsig0 a) (maj a b c) in
      [add32 t1 t2; a; b; c; add32 d t1; e; f; g]
  | _ => st
  end.

Definition sha_block (st : list Z) (block : list Z) : list Z :=
  let w := reverse (schedule 48 (reverse (words block))) in
  zip_with add32 st (foldl sha_round st (zip sha_K w)).

Fixpoint sha_blocks (fuel : nat) (st : list Z) (m : list Z) : list Z :=
  match fuel with
  | O => st
  | S fuel => match m with [] => st | _ => sha_blocks fuel (sha_block st (take 64 m)) (drop 64 m) end
  end.

Definition sha256_words (m : list Z) : list Z :=
  let p := sha_pad m in sha_blocks (length p) sha_H0 p.

Definition hex_digit (z : Z) : ascii :=
  let d := z mod 16 in ascii_of_nat (Z.to_nat (if d <? 10 then 48 + d else 87 + d)).
Definition hex_word (z : Z) : bytes :=
  map (fun i => hex_digit (z / 16 ^ (7 - Z.of_nat i))) (seq 0 8).

(** The eight words of a digest, whatever the state. *)
Definition digest_hex (ws : list Z) : bytes :=
  concat (map (fun i => hex_word (nth i ws 0)) (seq 0 8)).

Definition sha256_hexdigest (s : string) : string :=
  string_of (digest_hex (sha256_words (map byte_val (bytes_of s)))).

Example sha256_abc :
  sha256_hexdigest "abc" = "ba7816bf8f01cfea414140de5dae2223b00361a396177a9cb410ff61f20015ad".
Proof. vm_compute. reflexivity. Qed.

Example sha256_event :
  sha256_hexdigest "0123456789abcdef0123456789abcdef0123456789abcdef0123456789abcdef0123456789abcdef" = "d3facc8a61d205c90d339ff6caea3098e076f4b2fb25ebf1cc0d6becafab7fa0".
Proof. vm_compute. reflexivity. Qed.

(** The epoch of a commit: the first 32 digits of the digest of its event id. *)
Definition epoch_of (event_id : string) : string :=
  string_of (take 32 (bytes_of (sha256_hexdigest event_id))).

Lemma bytes_of_string_of b : bytes_of (string_of b) = b.
Proof. apply String.list_ascii_of_string_of_list_ascii. Qed.

Lemma string_length a : String.length a = length (bytes_of a).
Proof. unfold bytes_of. induction a as [| c a IH]; [done |]. cbn. by rewrite IH. Qed.

Lemma bytes_app a b : bytes_of (a +:+ b) = bytes_of a ++ bytes_of b.
Proof. induction a as [| c a IH]; [done |]. change (c :: bytes_of (a +:+ b) = c :: bytes_of a ++ bytes_of b). by rewrite IH. Qed.

Lemma hex_digit_ok z : is_digit (hex_digit z) || in_range_c 97 102 (hex_digit z) = true.
Proof.
  unfold hex_digit. pose proof (Z.mod_pos_bound z 16 ltac:(lia)) as Hb. unfold is_digit, in_range_c, byte_val.
  revert Hb. generalize (z mod 16). intros d Hd.
  destruct (d <? 10) eqn:E; bool_norm; rewrite !nat_ascii_embedding by lia; rewrite Z2Nat.id by lia; lia.
Qed.

Lemma digest_hex_ok ws :
  length (digest_hex ws) = 64%nat /\ Forall (fun c => is_digit c || in_range_c 97 102 c = true) (digest_hex ws).
Proof.
  split; [reflexivity |]. unfold digest_hex. apply Forall_concat, Forall_map, Forall_forall. intros i _.
  apply Forall_map, Forall_forall. intros j _. apply hex_digit_ok.
Qed.

(** An epoch has the form the validator asks for. *)
Lemma epoch_of_hex event_id : hex_re 32 (epoch_of event_id) = true.
Proof.
  unfold hex_re, epoch_of, sha256_hexdigest. rewrite !bytes_of_string_of.
  destruct (digest_hex_ok (sha256_words (map byte_val (bytes_of event_id)))) as [Hlen Hall].
  apply andb_true_iff. split.
  - unfold zlen. rewrite length_take, Hlen. done.
  - apply forallb_forall. intros c Hc. apply list_elem_of_In in Hc.
    rewrite Forall_forall in Hall. apply Hall.
    rewrite <- (take_drop 32), elem_of_app. by left.
Qed.
