(* ===== verification/PolicySample.v ===== *)
(** * A policy document used by the witnesses

    Three roles (two restricted and naming one another, one open), a stored ACL with
    one rule of each kind, assignments and a quarantined device. *)
From S2P Require Import Prelude PyVal PolicyDoc.

Definition rule_v (seq : Z) (action mtype value : string) : pyval :=
  VDict [("seq", VInt seq); ("action", VStr action);
         ("match", VDict [("type", VStr mtype); ("value", VStr value)])].

Definition sample_roles : dict := [
  ("defs", VDict [
     ("edge", VDict [("restricted", VBool true); ("peers", VList [VStr "edge"; VStr "core"]);
                     ("origin", VBool false); ("qos", VDict [("per_peer_bps", VInt 1000000); ("fanout", VInt 3)])]);
     ("core", VDict [("restricted", VBool true); ("peers", VList [VStr "core"; VStr "edge"]);
                     ("nets", VList [VStr "10.0.0.0/8"])]);
     ("lab", VDict [("restricted", VBool true); ("origin", VBool false); ("on_stale", VStr "defaults")]);
     ("open", VDict [])]);
  ("role_of", VDict [("e1", VStr "edge"); ("e2", VStr "edge"); ("c1", VStr "core");
                     ("l1", VStr "lab"); ("o1", VStr "open")]);
  ("qos_default", VDict [("max_peers", VInt 20)]);
  ("qos_device", VDict [("e2", VDict [("fanout", VInt 5)])])].

Definition sample_doc : dict := [
  ("schema", VInt 1);
  ("revision", VInt 7);
  ("acls", VDict [
     (RESERVED_QUARANTINE, VDict [
        ("reserved", VBool true); ("description", VStr ""); ("rules", _QUARANTINE_RULES)]);
     ("branch", VDict [("rules", VList [
        rule_v 50 "permit" "role" "edge";
        rule_v 10 "deny" "device" "x1";
        rule_v 20 "permit" "service" "seeder";
        rule_v 30 "permit" "host" "192.0.2.7";
        rule_v 40 "permit" "cidr" "10.1.0.0/16";
        VDict [("seq", VInt 60); ("action", VStr "deny"); ("match", VDict [("type", VStr "any")])]])])]);
  ("assignments", VDict [("b1", VStr "branch"); ("b2", VStr "branch")]);
  ("quarantined_devices", VDict [("bad", VBool true)]);
  ("seeder_assignment", VNone);
  ("operation_outbox", VList []);
  ("roles", VDict sample_roles)].

(** Boolean test of distinct keys, for concrete values. *)
Fixpoint wf_valb (v : pyval) : bool :=
  match v with
  | VList l => forallb wf_valb l
  | VDict d => nodup_strs (dkeys d) && forallb (fun kv => wf_valb (snd kv)) d
  | _ => true
  end.

Lemma nodup_strs_spec l : nodup_strs l = true -> NoDup l.
Proof.
  induction l as [| x l IH]; cbn; [constructor |]. intros [Hx Hl]%andb_true_iff.
  apply NoDup_cons. split; [| by apply IH]. intros Hin. apply negb_true_iff, not_true_iff_false in Hx.
  apply Hx, existsb_exists. exists x. split; [by apply list_elem_of_In | apply String.eqb_refl].
Qed.

Lemma wf_valb_spec : forall v, wf_valb v = true -> wf_val v.
Proof.
  fix IH 1. intros [| | | | | l | d]; cbn; try done.
  - induction l as [| x l IHl]; cbn; [done |]. intros [Hx Hl]%andb_true_iff. split; [by apply IH | by apply IHl].
  - intros [Hn Hd]%andb_true_iff. split; [by apply nodup_strs_spec |]. clear Hn.
    induction d as [| [k x] d IHd]; cbn in *; [done |]. apply andb_true_iff in Hd as [Hx Hd].
    split; [by apply IH | by apply IHd].
Qed.

Ltac wf_eval := apply wf_valb_spec; vm_compute; reflexivity.
