(* ===== verification/PolicyQuarantine.v ===== *)
(** * [server/peer_policy.py]: quarantine membership

    Quarantine is kept in a membership map and, in documents written by older
    releases, as assignments to the reserved ACL.  The theorems show that the
    migration between the two changes nobody's quarantine or ordinary assignment,
    and that the id listing and the single-device update agree with the test. *)
From S2P Require Import Prelude PyVal PolicyDoc PolicySample.

(** ** The two readings of a document *)

Definition assignments_of (doc : dict) : dict := dict_or_empty (dget_or doc "assignments" (VDict [])).
Definition membership_of (doc : dict) : dict := dict_or_empty (dget_or doc "quarantined_devices" (VDict [])).

Definition legacy_row (v : option pyval) : bool :=
  match v with Some v => is_reserved_quarantine v | None => false end.
Definition member_row (v : option pyval) : bool := match v with Some v => is_true v | None => false end.

Lemma is_quarantined_rows doc dev :
  is_quarantined doc dev =
  member_row (dget (membership_of doc) dev) || legacy_row (dget (assignments_of doc) dev).
Proof.
  unfold is_quarantined, membership_of, assignments_of, dget_or at 2 4. f_equal.
  - destruct (dget_or doc "quarantined_devices" (VDict [])) as [| | | | | | d]; try done.
    change (dict_or_empty (VDict d)) with d. by destruct (dget d dev).
  - destruct (dget_or doc "assignments" (VDict [])) as [| | | | | | d]; try done.
    change (dict_or_empty (VDict d)) with d. by destruct (dget d dev).
Qed.

Lemma ordinary_rows doc dev :
  ordinary_assignment doc dev =
  match dget (assignments_of doc) dev with
  | Some VNone | None => None
  | Some v => if is_reserved_quarantine v then None else Some v
  end.
Proof.
  unfold ordinary_assignment, assignments_of, dget_or at 2.
  destruct (dget_or doc "assignments" (VDict [])) as [| | | | | | d]; try done.
  change (dict_or_empty (VDict d)) with d. by destruct (dget d dev) as [[] |].
Qed.

Lemma elem_keys_filter (P : pyval -> bool) (d : dict) dev :
  NoDup (dkeys d) ->
  dev ∈ map fst (filter (fun kv => P (snd kv) = true) d) <->
  match dget d dev with Some v => P v | None => false end = true.
Proof.
  intros Hnd. rewrite list_elem_of_fmap. split.
  - intros ([k v] & -> & [Hp Hin]%list_elem_of_filter). apply dget_Some in Hin; [| done]. cbn. by rewrite Hin.
  - destruct (dget d dev) as [v |] eqn:E; [| done]. intros Hv. exists (dev, v). split; [done |].
    apply list_elem_of_filter. split; [done | by apply dget_elem].
Qed.

Lemma NoDup_dict_or_empty v : wf_val v -> NoDup (dkeys (dict_or_empty v)).
Proof. intros H. apply wf_dict_or_empty, wf_dict in H as [? _]. done. Qed.

Lemma quarantine_ids_alt doc :
  quarantine_device_ids doc =
  let canonical := map fst (filter (fun kv => is_true (snd kv) = true) (membership_of doc)) in
  let legacy := map fst (filter (fun kv => is_reserved_quarantine (snd kv) = true) (assignments_of doc)) in
  canonical ++ filter (fun k => k ∉ canonical) legacy.
Proof.
  unfold quarantine_device_ids, membership_of, assignments_of.
  by destruct (dget_or doc "quarantined_devices" (VDict [])), (dget_or doc "assignments" (VDict [])).
Qed.

(** The listing of quarantined devices holds exactly the ids for which the
    single-device test answers yes, each once. *)
Theorem quarantine_device_ids_exact doc :
  wf_val (VDict doc) ->
  NoDup (quarantine_device_ids doc) /\
  forall dev, dev ∈ quarantine_device_ids doc <-> is_quarantined doc dev = true.
Proof.
  intros Hwf. rewrite quarantine_ids_alt. cbv zeta.
  assert (Hm : NoDup (dkeys (membership_of doc))) by (apply NoDup_dict_or_empty; auto with py).
  assert (Ha : NoDup (dkeys (assignments_of doc))) by (apply NoDup_dict_or_empty; auto with py).
  split.
  - apply NoDup_app. split_and!.
    + eapply sublist_NoDup; [exact Hm |]. apply fmap_sublist, sublist_filter.
    + intros x Hx Hf. apply list_elem_of_filter in Hf as [? _]. done.
    + apply NoDup_filter. eapply sublist_NoDup; [exact Ha |]. apply fmap_sublist, sublist_filter.
  - intros dev. rewrite is_quarantined_rows, orb_true_iff, elem_of_app, list_elem_of_filter.
    rewrite !elem_keys_filter by done. unfold member_row, legacy_row.
    destruct (match dget (membership_of doc) dev with Some v => _ | None => _ end); naive_solver.
Qed.

Lemma quarantine_device_ids_exact_witness :
  NoDup (quarantine_device_ids sample_doc) /\
  forall dev, dev ∈ quarantine_device_ids sample_doc <-> is_quarantined sample_doc dev = true.
Proof. apply quarantine_device_ids_exact. wf_eval. Defined.

(** ** Migration *)

Lemma dget_foldl_dpop {B} (d : list (string * B)) ks k :
  dget (foldl dpop d ks) k = if bool_decide (k ∈ ks) then None else dget d k.
Proof.
  revert d. induction ks as [| x ks IH]; intros d; cbn [foldl]; [done |].
  rewrite IH, dget_dpop. destruct (String.eqb_spec x k) as [-> | Hne].
  - rewrite (bool_decide_true (k ∈ k :: ks)) by (by left). by case_bool_decide.
  - rewrite (bool_decide_ext (k ∈ x :: ks) (k ∈ ks)); [done |]. rewrite elem_of_cons. naive_solver.
Qed.

Lemma dget_foldl_dset (d : dict) ks v k :
  dget (foldl (fun m k => dset m k v) d ks) k = if bool_decide (k ∈ ks) then Some v else dget d k.
Proof.
  revert d. induction ks as [| x ks IH]; intros d; cbn [foldl]; [done |].
  rewrite IH, dget_dset. destruct (String.eqb_spec x k) as [-> | Hne].
  - rewrite (bool_decide_true (k ∈ k :: ks)) by (by left). by case_bool_decide.
  - rewrite (bool_decide_ext (k ∈ x :: ks) (k ∈ ks)); [done |]. rewrite elem_of_cons. naive_solver.
Qed.

Lemma normalize_inv candidate out :
  wf_val (VDict candidate) -> _normalize_quarantine candidate = Ok out ->
  (forall dev, dget (assignments_of out) dev =
     if legacy_row (dget (assignments_of candidate) dev) then None else dget (assignments_of candidate) dev) /\
  (forall dev, dget (membership_of out) dev =
     if legacy_row (dget (assignments_of candidate) dev) then Some (VBool true)
     else dget (membership_of candidate) dev) /\
  (forall k, k <> "assignments" -> k <> "quarantined_devices" -> dget out k = dget candidate k).
Proof.
  intros Hwf H. unfold _normalize_quarantine in H. head H as Ea. rename d into asg.
  assert (Hget : assignments_of candidate = asg).
  { unfold assignments_of, dget_or in *. by destruct (dget candidate "assignments"); cbn in Ea |- *; subst. }
  head H as Em. rename a into membership.
  assert (Hmem : membership_of candidate = membership).
  { unfold membership_of, dget_or. destruct (dget candidate "quarantined_devices") as [m |].
    - by head Em; injection Em as <-.
    - by injection Em as <-. }
  assert (Hnd : NoDup (dkeys asg)) by (rewrite <- Hget; apply NoDup_dict_or_empty; auto with py).
  assert (Hids : forall dev, legacy_row (dget asg dev) =
    bool_decide (dev ∈ map fst (filter (fun kv => is_reserved_quarantine (snd kv) = true) asg))).
  { intros dev. apply eq_true_iff_eq. rewrite bool_decide_eq_true, elem_keys_filter by done. done. }
  rewrite Hget, Hmem. case_bool_decide as Hnil.
  - injection H as <-. rewrite Hget, Hmem, Hnil in *.
    split_and!; intros; rewrite ?Hids; rewrite ?bool_decide_false by apply not_elem_of_nil; done.
  - injection H as <-. unfold assignments_of, membership_of, dget_or.
    rewrite !dget_dset. cbn [String.eqb Ascii.eqb Bool.eqb from_option id].
    split_and!.
    + intros dev. rewrite Hids. apply (dget_foldl_dpop asg).
    + intros dev. rewrite Hids. apply (dget_foldl_dset membership).
    + intros k H1 H2. by rewrite !dget_dset_ne.
Qed.

(** Moving legacy quarantine rows into the membership map leaves every device's
    quarantine state and ordinary assignment as they were, leaves no legacy row and
    touches nothing else of the document. *)
Theorem normalize_quarantine_preserves candidate out :
  wf_val (VDict candidate) -> _normalize_quarantine candidate = Ok out ->
  (forall dev, is_quarantined out dev = is_quarantined candidate dev /\
     ordinary_assignment out dev = ordinary_assignment candidate dev /\
     legacy_row (dget (assignments_of out) dev) = false) /\
  (forall k, k <> "assignments" -> k <> "quarantined_devices" -> dget out k = dget candidate k).
Proof.
  intros Hwf H. apply normalize_inv in H as (Ha & Hm & Hk); [| done]. split; [| done]. intros dev.
  rewrite !is_quarantined_rows, !ordinary_rows, Ha, Hm.
  destruct (legacy_row (dget (assignments_of candidate) dev)) eqn:E; cbn [member_row legacy_row is_true orb].
  - rewrite orb_true_r. split_and!; try done. destruct (dget (assignments_of candidate) dev) as [v |]; [| done].
    cbn in E. destruct v; try done. by rewrite E.
  - rewrite E. done.
Qed.

Definition legacy_doc : dict :=
  [("assignments", VDict [("d1", VStr "quarantine"); ("d2", VStr "branch")]);
   ("quarantined_devices", VDict [("d3", VBool true)])].

Lemma normalize_quarantine_preserves_witness :
  exists out, _normalize_quarantine legacy_doc = Ok out /\
    forall dev, is_quarantined out dev = is_quarantined legacy_doc dev.
Proof.
  eexists. split; [reflexivity |].
  refine (fun dev => proj1 (proj1 (normalize_quarantine_preserves legacy_doc _ _ eq_refl) dev)). wf_eval.
Defined.

Lemma quarantine_update candidate dev quarantined other :
  (forall d, legacy_row (dget (assignments_of candidate) d) = false) ->
  is_quarantined (_set_quarantine_membership candidate dev quarantined) other =
  if String.eqb dev other then quarantined else is_quarantined candidate other.
Proof.
  intros Hleg. rewrite !is_quarantined_rows.
  assert (Ha : forall m, assignments_of (dset candidate "quarantined_devices" m) = assignments_of candidate).
  { intros m. unfold assignments_of, dget_or. by rewrite dget_dset_ne. }
  assert (Hm : forall m, membership_of (dset candidate "quarantined_devices" (VDict m)) = m).
  { intros m. unfold membership_of, dget_or. by rewrite dget_dset_eq. }
  unfold _set_quarantine_membership. fold (membership_of candidate). destruct quarantined.
  - rewrite Ha, Hm, Hleg, dget_dset, !orb_false_r. by destruct (String.eqb dev other).
  - assert (Hpop : dget (dpop (membership_of candidate) dev) other =
      if String.eqb dev other then None else dget (membership_of candidate) other) by apply dget_dpop.
    destruct (dpop (membership_of candidate) dev) as [| kv m] eqn:E.
    + unfold membership_of at 1, assignments_of at 1, dget_or. rewrite !dget_dpop.
      cbn [String.eqb Ascii.eqb Bool.eqb]. fold (dget_or candidate "assignments" (VDict [])).
      fold (assignments_of candidate). rewrite Hleg, orb_false_r. cbn in Hpop |- *.
      destruct (String.eqb dev other); [done |]. by rewrite <- Hpop.
    + rewrite Ha, Hm, Hleg, Hpop, !orb_false_r. by destruct (String.eqb dev other).
Qed.

Lemma quarantine_update_keys candidate dev quarantined k :
  k <> "quarantined_devices" -> dget (_set_quarantine_membership candidate dev quarantined) k = dget candidate k.
Proof.
  intros Hk. unfold _set_quarantine_membership. destruct quarantined; [by rewrite dget_dset_ne |].
  destruct (dpop _ dev); [| by rewrite dget_dset_ne]. rewrite dget_dpop.
  by destruct (String.eqb_spec "quarantined_devices" k).
Qed.

(** Updating the membership of one device of a migrated document sets that
    device's quarantine state and no other; an emptied map is removed. *)
Theorem set_quarantine_membership_exact candidate dev quarantined other :
  (forall d, legacy_row (dget (assignments_of candidate) d) = false) ->
  is_quarantined (_set_quarantine_membership candidate dev quarantined) other =
  if String.eqb dev other then quarantined else is_quarantined candidate other.
Proof. apply quarantine_update. Qed.

Lemma set_quarantine_membership_exact_witness :
  is_quarantined (_set_quarantine_membership sample_doc "b1" true) "b1" = true.
Proof.
  apply (set_quarantine_membership_exact sample_doc "b1" true "b1").
  intros d. change (assignments_of sample_doc) with [("b1", VStr "branch"); ("b2", VStr "branch")].
  cbn [dget]. destruct (String.eqb "b1" d), (String.eqb "b2" d); reflexivity.
Defined.
