(* ===== verification/PolicyQos.v ===== *)
(** * [server/peer_policy.py]: QoS compilation

    The merge of built-in, global, role and device QoS layers with derived
    per-torrent rates and provenance, and the tracker cadence merge.  The theorems
    give the value every key gets from its layers, and show that the provenance
    view and the enforced view never disagree. *)
From S2P Require Import Prelude PyVal PolicyDoc.

(** ** Layers *)

(** The text of a role in a provenance label. *)
Definition role_text (role : pyval) : string :=
  match role with VStr s => s | _ => "None" end.

Definition _qos_layers (doc : dict) (device_id : string) : res (pyval * dict * list dict) :=
  let roles := dict_or_empty (dget_or doc "roles" (VDict [])) in
  let defs := dict_or_empty (dget_or roles "defs" (VDict [])) in
  let role_of := dict_or_empty (dget_or roles "role_of" (VDict [])) in
  let role := dget_or role_of device_id VNone in
  let* found := dget_val defs role in
  let definition := dict_or_empty (default (VDict []) found) in
  let global_qos := dict_or_empty (dget_or roles "qos_default" (VDict [])) in
  let role_qos := dict_or_empty (dget_or definition "qos" (VDict [])) in
  let device_qos :=
    match dget_or roles "qos_device" (VDict []) with
    | VDict qd => dict_or_empty (dget_or qd device_id (VDict []))
    | _ => []
    end in
  let layers :=
    match dget definition "on_stale" with
    | Some v => [global_qos; role_qos; [("on_stale", v)]; device_qos]
    | None => [global_qos; role_qos; device_qos]
    end in
  Ok (role, definition, layers).

(** ** The merge *)

(** An effective value with its provenance; [q_derived] records the rows of
    [per_peer_bps] and [fanout] a derived rate was computed from. *)
Record qrow := QRow {
  q_value : pyval;
  q_source : string;
  q_derived : option ((pyval * string) * (pyval * string)) }.

Definition effective_map := list (string * qrow).
Definition derived_map := list (string * bool).

Definition row_of (e : effective_map) (k : string) : qrow := dget_or e k (QRow VNone "builtin" None).

(** [a * b] on integers. *)
Definition py_mul (a b : pyval) : res pyval :=
  match a, b with
  | (VInt _ | VBool _), (VInt _ | VBool _) =>
      match num_of a, num_of b with
      | Some (FFin x _), Some (FFin y _) => Ok (VInt (x * y))
      | _, _ => Err (TypeError "unsupported operand")
      end
  | _, _ => Err (TypeError "unsupported operand")
  end.

(** The body of the loop over [PER_TORRENT_RATE_KEYS]. *)
Definition rate_step (layer : dict) (source : string) (st : effective_map * derived_map)
    (key : string) : res (effective_map * derived_map) :=
  let '(effective, derived) := st in
  if dhas layer key then Ok (effective, dset derived key false)
  else if dhas layer "per_peer_bps" || (dhas layer "fanout" && dget_or derived key false) then
    let pp := row_of effective "per_peer_bps" in
    let fo := row_of effective "fanout" in
    let* v := py_mul (q_value pp) (q_value fo) in
    Ok (dset effective key (QRow v source (Some ((q_value pp, q_source pp), (q_value fo, q_source fo)))),
        dset derived key true)
  else Ok (effective, derived).

(** The body of the loop over the layers. *)
Definition layer_step (st : effective_map * derived_map) (ls : dict * string)
    : res (effective_map * derived_map) :=
  let '(effective, derived) := st in
  let '(layer, source) := ls in
  let effective := foldl (fun e kv => dset e (fst kv) (QRow (snd kv) source None)) effective layer in
  res_fold (rate_step layer source) (effective, derived) PER_TORRENT_RATE_KEYS.

Definition _compile_qos_layers (role : pyval) (definition : dict) (layers : list (dict * string))
    : res effective_map :=
  let effective := map (fun kv => (fst kv, QRow (snd kv) "builtin" None)) QOS_DEFAULTS in
  let effective :=
    if negb (is_none role) && truth (dget_or definition "restricted" (VBool false))
    then dset effective "on_stale" (QRow (VStr "keep") ("role:" +:+ role_text role) None)
    else effective in
  let derived := map (fun k => (k, false)) PER_TORRENT_RATE_KEYS in
  let* (effective, _) := res_fold layer_step (effective, derived) layers in
  Ok effective.

(** [sources=None]: every row is labelled [builtin] and only the values are kept. *)
Definition compile_values (role : pyval) (definition : dict) (layers : list dict) : res dict :=
  let* e := _compile_qos_layers role definition (map (fun l => (l, "builtin")) layers) in
  Ok (map (fun kr => (fst kr, q_value (snd kr))) e).

Definition explain_qos (doc : dict) (device_id : string) : res effective_map :=
  let* (rd, layers) := _qos_layers doc device_id in
  let '(role, definition) := rd in
  let role_label := "role:" +:+ role_text role in
  let sources :=
    if dhas definition "on_stale" then ["global"; role_label; role_label; "device:" +:+ device_id]
    else ["global"; role_label; "device:" +:+ device_id] in
  _compile_qos_layers role definition (zip layers sources).

Definition compile_qos (doc : dict) (device_id : string) : res dict :=
  let* (rd, layers) := _qos_layers doc device_id in
  let '(role, definition) := rd in
  compile_values role definition layers.

(** [qos[k]] as an integer, on a compiled map. *)
Definition qos_int (qos : dict) (k : string) : Z :=
  match dget qos k with Some (VInt z) => z | _ => 0 end.

Definition _validate_compiled_qos (qos : dict) : res unit :=
  raise (perr "fanout exceeds max_peers") when (qos_int qos "max_peers" <? qos_int qos "fanout") ;;;
  res_iter (fun key =>
    raise (perr ("derived per-torrent rate out of range: " +:+ key))
      when (snd (dget_or _QOS_RANGES key (0, 0)) <? qos_int qos key) ;;; Ok tt)
    PER_TORRENT_RATE_KEYS.

(** ** Tracker cadence *)

Definition _tracker_qos_layers (doc : dict) (device_id : option string) (state : pyval)
    : res (list (dict * string)) :=
  match state with
  | VStr st =>
      raise (perr "bad tracker state") when negb (existsb (String.eqb st) _TRACKER_STATES) ;;;
      let roles := dict_or_empty (dget_or doc "roles" (VDict [])) in
      let defs := dict_or_empty (dget_or roles "defs" (VDict [])) in
      let role_of := dict_or_empty (dget_or roles "role_of" (VDict [])) in
      let role := match device_id with Some id => dget_or role_of id VNone | None => VNone end in
      let* found := dget_val defs role in
      let definition := dict_or_empty (default (VDict []) found) in
      let selected_state values :=
        match values with VDict d => dict_or_empty (dget_or d st (VDict [])) | _ => [] end in
      Ok [(dict_or_empty (dget_or roles "qos_default" (VDict [])), "global");
          (selected_state (dget_or roles "qos_state_default" (VDict [])), "global-state:" +:+ st);
          (dict_or_empty (dget_or definition "qos" (VDict [])), "role:" +:+ role_text role);
          (selected_state (dget_or definition "qos_state" (VDict [])),
           "role-state:" +:+ role_text role +:+ ":" +:+ st)]
  | _ => Err (perr "bad tracker state")
  end.

Definition explain_tracker_qos (doc : dict) (device_id : option string) (state : pyval)
    : res (list (string * (pyval * string))) :=
  let effective := map (fun k => (k, (dget_or QOS_DEFAULTS k VNone, "builtin"))) _TRACKER_QOS_KEYS in
  let* layers := _tracker_qos_layers doc device_id state in
  Ok (foldl (fun e ls =>
        foldl (fun e key =>
          match dget (fst ls) key with Some v => dset e key (v, snd ls) | None => e end)
          e _TRACKER_QOS_KEYS)
      effective layers).

Definition compile_tracker_qos (doc : dict) (device_id : option string) (state : pyval) : res dict :=
  let* e := explain_tracker_qos doc device_id state in
  Ok (map (fun kr => (fst kr, fst (snd kr))) e).

(** ** Lemmas on one layer *)

(** Values of an effective map, without provenance. *)
Definition values (e : effective_map) : dict := map (fun kr => (fst kr, q_value (snd kr))) e.

Arguments values : simpl never.

Lemma dget_values e k : dget (values e) k = q_value <$> dget e k.
Proof. unfold values. induction e as [| [k' r] e IH]; cbn; [done |]. by destruct (String.eqb k' k). Qed.

Lemma values_dset e k r : values (dset e k r) = dset (values e) k (q_value r).
Proof.
  unfold values. induction e as [| [k' r'] e IH]; cbn; [done |].
  destruct (String.eqb k' k); cbn; [done |]. by rewrite IH.
Qed.

Lemma row_of_value e k : q_value (row_of e k) = dget_or (values e) k VNone.
Proof. unfold row_of, dget_or. rewrite dget_values. by destruct (dget e k). Qed.

Definition same_values (s t : effective_map * derived_map) : Prop :=
  values (fst s) = values (fst t) /\ snd s = snd t.

Lemma rate_step_rel layer src src' s t key :
  same_values s t -> res_rel same_values (rate_step layer src s key) (rate_step layer src' t key).
Proof.
  destruct s as [e dm], t as [e' dm']. intros [Hv [= <-]]. cbn in Hv. unfold rate_step.
  destruct (dhas layer key); [by split |].
  destruct (dhas layer "per_peer_bps" || _); [| by split].
  rewrite !row_of_value, Hv.
  destruct (py_mul _ _) as [v | e0]; cbn; [| done]. split; [| done]. cbn. by rewrite !values_dset, Hv.
Qed.

Lemma overlay_values e src layer :
  values (foldl (fun e kv => dset e (fst kv) (QRow (snd kv) src None)) e layer) =
  dupdate (values e) layer.
Proof. revert e. induction layer as [| kv layer IH]; intros e; cbn; [done |]. by rewrite IH, values_dset. Qed.

Lemma layer_step_rel s t layer src src' :
  same_values s t -> res_rel same_values (layer_step s (layer, src)) (layer_step t (layer, src')).
Proof.
  destruct s as [e dm], t as [e' dm']. intros [Hv [= <-]]. cbn in Hv. cbn [layer_step].
  apply (res_fold_rel same_values eq); [| | by repeat constructor].
  - intros s t x y Hst <-. by apply rate_step_rel.
  - split; [| done]. cbn. by rewrite !overlay_values, Hv.
Qed.

(** What one pass over the rate keys does to a single key. *)
Definition rate_result (layer : dict) (d : dict) (dm : derived_map) (d' : dict) (dm' : derived_map)
    (key : string) : Prop :=
  if dhas layer key then dget d' key = dget d key /\ dget dm' key = Some false
  else if dhas layer "per_peer_bps" || (dhas layer "fanout" && dget_or dm key false) then
    exists v, py_mul (dget_or d "per_peer_bps" VNone) (dget_or d "fanout" VNone) = Ok v /\
      dget d' key = Some v /\ dget dm' key = Some true
  else dget d' key = dget d key /\ dget dm' key = dget dm key.

Lemma rate_fold_spec keys layer src e dm e' dm' :
  NoDup keys -> "per_peer_bps" ∉ keys -> "fanout" ∉ keys ->
  res_fold (rate_step layer src) (e, dm) keys = Ok (e', dm') ->
  (forall k, k ∉ keys -> dget (values e') k = dget (values e) k /\ dget dm' k = dget dm k) /\
  (forall k, k ∈ keys -> rate_result layer (values e) dm (values e') dm' k).
Proof.
  revert e dm. induction keys as [| key keys IH]; intros e dm Hnd Hpp Hfo H; cbn [res_fold] in H.
  { injection H as <- <-. split; [intros; by split |]. intros k Hk. inversion Hk. }
  apply NoDup_cons in Hnd as [Hkey Hnd].
  apply not_elem_of_cons in Hpp as [Hpp1 Hpp]. apply not_elem_of_cons in Hfo as [Hfo1 Hfo].
  destruct (rate_step layer src (e, dm) key) as [[e1 dm1] |] eqn:E; cbn [mbind res_bind] in H; [| done].
  destruct (IH e1 dm1 Hnd Hpp Hfo H) as [IHo IHk]. clear IH H.
  assert (Hst : rate_result layer (values e) dm (values e1) dm1 key /\
    forall k, k <> key -> dget (values e1) k = dget (values e) k /\ dget dm1 k = dget dm k).
  { unfold rate_result. cbn in E. destruct (dhas layer key).
    - injection E as <- <-. split; [by rewrite dget_dset_eq |]. intros k Hk. by rewrite dget_dset_ne.
    - destruct (dhas layer "per_peer_bps" || _).
      + rewrite !row_of_value in E. destruct (py_mul _ _) as [v |] eqn:Em; cbn in E; [| done].
        injection E as <- <-. split.
        * exists v. rewrite values_dset, !dget_dset_eq. done.
        * intros k Hk. rewrite values_dset. by rewrite !dget_dset_ne.
      + injection E as <- <-. by split. }
  destruct Hst as [Hst Hoth]. split.
  - intros k Hk. apply not_elem_of_cons in Hk as [Hk1 Hk]. destruct (IHo k Hk) as [-> ->]. by apply Hoth.
  - intros k Hk. apply elem_of_cons in Hk as [-> | Hk].
    + destruct (IHo key Hkey) as [H1 H2]. unfold rate_result in *. by rewrite H1, H2.
    + assert (k <> key) by (intros ->; done). specialize (IHk k Hk).
      destruct (Hoth k) as [H1 H2]; [done |].
      destruct (Hoth "per_peer_bps") as [H3 _]; [congruence |].
      destruct (Hoth "fanout") as [H4 _]; [congruence |].
      unfold rate_result, dget_or in *. by rewrite H1, H2, H3, H4 in IHk.
Qed.

Lemma rate_keys_facts :
  NoDup PER_TORRENT_RATE_KEYS /\ ("per_peer_bps" ∉ PER_TORRENT_RATE_KEYS) /\ ("fanout" ∉ PER_TORRENT_RATE_KEYS).
Proof. split_and!; by_eval. Qed.

Lemma layer_step_spec e dm layer src e' dm' :
  NoDup (dkeys layer) -> layer_step (e, dm) (layer, src) = Ok (e', dm') ->
  (forall k, k ∉ PER_TORRENT_RATE_KEYS ->
     dget (values e') k = match dget layer k with Some v => Some v | None => dget (values e) k end) /\
  (forall k, k ∈ PER_TORRENT_RATE_KEYS ->
     rate_result layer (dupdate (values e) layer) dm (values e') dm' k).
Proof.
  intros Hnd H. cbn [layer_step] in H. destruct rate_keys_facts as (Hk & Hpp & Hfo).
  apply rate_fold_spec in H as [H1 H2]; [| done..]. rewrite overlay_values in H1, H2. split.
  - intros k Hnk. destruct (H1 k Hnk) as [-> _]. by apply dget_dupdate.
  - done.
Qed.

(** ** The merge over all layers *)

(** The value the most specific layer gives a key. *)
Fixpoint last_set (k : string) (layers : list dict) : option pyval :=
  match layers with
  | [] => None
  | l :: ls => match last_set k ls with Some v => Some v | None => dget l k end
  end.

(** The most specific layer that sets the rate or the modelling input. *)
Fixpoint decisive (k : string) (layers : list dict) : option dict :=
  match layers with
  | [] => None
  | l :: ls =>
      match decisive k ls with
      | Some x => Some x
      | None => if dhas l k || dhas l "per_peer_bps" then Some l else None
      end
  end.

Lemma last_set_snoc k ls l :
  last_set k (ls ++ [l]) = match dget l k with Some v => Some v | None => last_set k ls end.
Proof. induction ls as [| x ls IH]; cbn; [by destruct (dget l k) |]. rewrite IH. by destruct (dget l k). Qed.

Lemma decisive_snoc k ls l :
  decisive k (ls ++ [l]) = if dhas l k || dhas l "per_peer_bps" then Some l else decisive k ls.
Proof.
  induction ls as [| x ls IH]; cbn; [by destruct (_ || _) |]. rewrite IH. by destruct (dhas l k || _).
Qed.

Definition merged (d0 : dict) (layers : list dict) (d : dict) (dm : derived_map) : Prop :=
  (forall k, k ∉ PER_TORRENT_RATE_KEYS ->
     dget d k = match last_set k layers with Some v => Some v | None => dget d0 k end) /\
  (forall k, k ∈ PER_TORRENT_RATE_KEYS ->
     match decisive k layers with
     | None => dget d k = dget d0 k /\ dget dm k = Some false
     | Some l =>
         match dget l k with
         | Some v => dget d k = Some v /\ dget dm k = Some false
         | None => exists v, py_mul (dget_or d "per_peer_bps" VNone) (dget_or d "fanout" VNone) = Ok v /\
             dget d k = Some v /\ dget dm k = Some true
         end
     end).

Lemma merged_step d0 ls l e dm e' dm' src :
  NoDup (dkeys l) -> merged d0 ls (values e) dm -> layer_step (e, dm) (l, src) = Ok (e', dm') ->
  merged d0 (ls ++ [l]) (values e') dm'.
Proof.
  intros Hnd [Hs Hr] H. apply layer_step_spec in H as [Hs' Hr']; [| done].
  assert (Hsc : forall k, k ∉ PER_TORRENT_RATE_KEYS ->
    dget (dupdate (values e) l) k = dget (values e') k).
  { intros k Hk. rewrite Hs', dget_dupdate by done. done. }
  destruct rate_keys_facts as (_ & Hpp & Hfo). split.
  - intros k Hk. rewrite Hs', last_set_snoc by done. by destruct (dget l k); [| apply Hs].
  - intros k Hk. specialize (Hr k Hk). specialize (Hr' k Hk). unfold rate_result in Hr'.
    unfold dget_or in Hr'. rewrite (Hsc _ Hpp), (Hsc _ Hfo) in Hr'. rewrite dget_dupdate in Hr' by done.
    rewrite decisive_snoc.
    unfold dhas at 1 in Hr'. unfold dhas at 1. destruct (dget l k) as [v |] eqn:Ek; cbn [orb].
    { by rewrite Ek. }
    destruct (dhas l "per_peer_bps") eqn:Epp; cbn [orb] in Hr' |- *.
    { rewrite Ek. exact Hr'. }
    assert (Hsame : dhas l "fanout" = false -> dget (values e') "fanout" = dget (values e) "fanout").
    { intros Hf. rewrite Hs' by done. unfold dhas in Hf. by destruct (dget l "fanout"). }
    assert (Hpps : dget (values e') "per_peer_bps" = dget (values e) "per_peer_bps").
    { rewrite Hs' by done. unfold dhas in Epp. by destruct (dget l "per_peer_bps"). }
    destruct (decisive k ls) as [l0 |]; [destruct (dget l0 k) |].
    + destruct Hr as [Hv Hd]. rewrite Hd, andb_false_r in Hr'. destruct Hr' as [-> ->]. split; congruence.
    + destruct Hr as (v & Hm & Hv & Hd). rewrite Hd in Hr'. cbn [default] in Hr'. rewrite andb_true_r in Hr'.
      destruct (dhas l "fanout") eqn:Ef; [exact Hr' |]. destruct Hr' as [Hk' Hd'].
      exists v. unfold dget_or in *. rewrite Hpps, Hsame by done. split_and!; congruence.
    + destruct Hr as [Hv Hd]. rewrite Hd, andb_false_r in Hr'. destruct Hr' as [-> ->]. split; congruence.
Qed.

Lemma merged_fold e0 layers (srcs : list string) e dm :
  Forall (fun l => NoDup (dkeys l)) layers -> length srcs = length layers ->
  res_fold layer_step (e0, map (fun k => (k, false)) PER_TORRENT_RATE_KEYS) (zip layers srcs) = Ok (e, dm) ->
  merged (values e0) layers (values e) dm.
Proof.
  revert srcs e dm. induction layers as [| l ls IH] using rev_ind; intros srcs e dm Hnd Hlen H.
  - cbn in H. injection H as <- <-. split; [intros k _; reflexivity |]. intros k Hk. cbn [decisive]. split; [reflexivity |].
    unfold PER_TORRENT_RATE_KEYS in *.
    repeat (apply elem_of_cons in Hk as [-> | Hk]; [done |]). inversion Hk.
  - rewrite length_app in Hlen. cbn in Hlen. destruct srcs as [| s srcs _] using rev_ind; [cbn in Hlen; lia |].
    rewrite length_app in Hlen. cbn in Hlen.
    rewrite zip_with_app in H by lia. rewrite res_fold_app in H.
    apply Forall_app in Hnd as [Hnd Hl]. apply Forall_cons in Hl as [Hl _].
    destruct (res_fold layer_step _ (zip ls srcs)) as [[e1 dm1] |] eqn:E; cbn [mbind res_bind] in H; [| done].
    change (zip_with pair [l] [s]) with [(l, s)] in H. cbn [res_fold] in H.
    destruct (layer_step (e1, dm1) (l, s)) as [[e2 dm2] |] eqn:E2; cbn [mbind res_bind] in H; [| done].
    injection H as <- <-. eapply merged_step; [exact Hl | | exact E2].
    eapply IH; [done | | exact E]. lia.
Qed.

(** The built-in values before the layers apply. *)
Definition builtin_values (role : pyval) (definition : dict) : dict :=
  if negb (is_none role) && truth (dget_or definition "restricted" (VBool false))
  then dset QOS_DEFAULTS "on_stale" (VStr "keep") else QOS_DEFAULTS.

Lemma builtin_rows role definition :
  values (let effective := map (fun kv => (fst kv, QRow (snd kv) "builtin" None)) QOS_DEFAULTS in
    if negb (is_none role) && truth (dget_or definition "restricted" (VBool false))
    then dset effective "on_stale" (QRow (VStr "keep") ("role:" +:+ role_text role) None)
    else effective) = builtin_values role definition.
Proof. unfold builtin_values. by destruct (_ && _). Qed.

Lemma compile_merged role definition layers qos :
  Forall (fun l => NoDup (dkeys l)) layers -> compile_values role definition layers = Ok qos ->
  exists dm, merged (builtin_values role definition) layers qos dm.
Proof.
  intros Hnd H. unfold compile_values, _compile_qos_layers in H.
  replace (map (fun l => (l, "builtin")) layers)
    with (zip layers (replicate (length layers) "builtin")) in H.
  2: { clear. induction layers as [| l ls IH]; cbn; [done |]. by rewrite <- IH. }
  destruct (res_fold layer_step _ _) as [[e dm] |] eqn:E; cbn [mbind res_bind] in H; [| done].
  injection H as <-. fold (values e). exists dm. rewrite <- builtin_rows.
  eapply merged_fold; [done | | exact E]. by rewrite length_replicate.
Qed.

(** ** Theorems *)

(** The provenance view of a device's QoS ([explain_qos]) and the enforced view
    ([compile_qos]) agree on every value, and fail together. *)
Theorem compile_qos_explained doc device_id :
  compile_qos doc device_id = let* e := explain_qos doc device_id in Ok (values e).
Proof.
  unfold compile_qos, explain_qos, compile_values.
  destruct (_qos_layers doc device_id) as [[[role definition] layers] | e] eqn:E; cbn [mbind res_bind]; [| done].
  assert (Hrel : forall srcs, length srcs = length layers ->
    res_rel (fun e e' => values e = values e')
      (_compile_qos_layers role definition (map (fun l => (l, "builtin")) layers))
      (_compile_qos_layers role definition (zip layers srcs))).
  { intros srcs Hlen. unfold _compile_qos_layers.
    match goal with |- context [res_fold layer_step ?s (zip _ _)] =>
      pose proof (res_fold_rel same_values (fun x y => fst x = fst y) layer_step layer_step s s
        (map (fun l => (l, "builtin")) layers) (zip layers srcs)) as H end.
    destruct (res_fold layer_step _ (map _ _)) as [[e1 dm1] |], (res_fold layer_step _ (zip _ _)) as [[e2 dm2] |];
      cbn in *; try apply H; try done.
    all: try (intros s t [l1 s1] [l2 s2] Hst Heq; cbn in Heq; subst; by apply layer_step_rel).
    all: clear -Hlen; revert srcs Hlen; induction layers as [| l ls IH]; intros [| s srcs] Hlen;
      cbn in *; try lia; constructor; [done | apply IH; lia]. }
  assert (Hlen : length (if dhas definition "on_stale"
    then ["global"; "role:" +:+ role_text role; "role:" +:+ role_text role; "device:" +:+ device_id]
    else ["global"; "role:" +:+ role_text role; "device:" +:+ device_id]) = length layers).
  { unfold _qos_layers in E. destruct (dget_val _ _) as [found |]; cbn [mbind res_bind] in E; [| done].
    injection E as <- <- <-. unfold dhas. by destruct (dget _ "on_stale"). }
  specialize (Hrel _ Hlen). unfold res_rel in Hrel.
  destruct (_compile_qos_layers role definition (map _ _)), (_compile_qos_layers role definition (zip _ _));
    cbn in *; try done; [by rewrite <- Hrel | by rewrite Hrel].
Qed.

(** The value of a per-torrent rate.  Of the layers that set the rate or
    [per_peer_bps], the most specific decides: its explicit rate wins; otherwise
    the rate is the product of the effective [per_peer_bps] and [fanout].  With no
    such layer the rate stays unlimited (0), whatever [fanout] says. *)
Theorem compile_rate_value role definition layers qos key :
  Forall (fun l => NoDup (dkeys l)) layers -> key ∈ PER_TORRENT_RATE_KEYS ->
  compile_values role definition layers = Ok qos ->
  match decisive key layers with
  | None => dget qos key = Some (VInt 0)
  | Some l =>
      match dget l key with
      | Some v => dget qos key = Some v
      | None => exists v, py_mul (dget_or qos "per_peer_bps" VNone) (dget_or qos "fanout" VNone) = Ok v /\
          dget qos key = Some v
      end
  end.
Proof.
  intros Hnd Hk H. apply compile_merged in H as [dm [_ Hr]]; [| done]. specialize (Hr key Hk).
  destruct (decisive key layers) as [l |]; [destruct (dget l key) |].
  - tauto.
  - destruct Hr as (v & ? & ? & _). eauto.
  - destruct Hr as [-> _]. unfold builtin_values, PER_TORRENT_RATE_KEYS in *.
    destruct (_ && _); repeat (apply elem_of_cons in Hk as [-> | Hk]; [done |]); inversion Hk.
Qed.

(** Every other QoS value comes from the most specific layer that sets it, and
    from the built-in table when none does; a restricted role's built-in
    [on_stale] is [keep]. *)
Theorem compile_scalar_value role definition layers qos key :
  Forall (fun l => NoDup (dkeys l)) layers -> key ∉ PER_TORRENT_RATE_KEYS ->
  compile_values role definition layers = Ok qos ->
  dget qos key = match last_set key layers with
    | Some v => Some v
    | None => if String.eqb key "on_stale" && negb (is_none role) &&
                   truth (dget_or definition "restricted" (VBool false))
              then Some (VStr "keep") else dget QOS_DEFAULTS key
    end.
Proof.
  intros Hnd Hk H. apply compile_merged in H as [dm [Hs _]]; [| done]. rewrite Hs by done.
  destruct (last_set key layers); [done |]. unfold builtin_values.
  destruct (negb (is_none role)), (truth (dget_or definition "restricted" (VBool false))); cbn [andb].
  - rewrite dget_dset, andb_true_r, andb_true_r, String.eqb_sym. by destruct (String.eqb key "on_stale").
  - by rewrite andb_true_r, andb_false_r.
  - by rewrite andb_false_r.
  - by rewrite andb_false_r.
Qed.

(** A tracker cadence value is taken from the most specific source that sets it,
    in the order role state, role, global state, global, built-in. *)
Theorem tracker_cadence_precedence doc device_id state qos layers key :
  _tracker_qos_layers doc device_id state = Ok layers -> key ∈ _TRACKER_QOS_KEYS ->
  compile_tracker_qos doc device_id state = Ok qos ->
  dget qos key = match last_set key (map fst layers) with
    | Some v => Some v | None => dget QOS_DEFAULTS key end.
Proof.
  intros Hl Hk H. unfold compile_tracker_qos, explain_tracker_qos in H. rewrite Hl in H.
  cbn [mbind res_bind] in H. injection H as <-. clear Hl.
  assert (Hget : forall e, dget (map (fun kr : string * (pyval * string) => (fst kr, fst (snd kr))) e) key =
    fst <$> dget e key).
  { induction e as [| [k r] e IH]; cbn; [done |]. by destruct (String.eqb k key). }
  rewrite Hget. clear Hget. induction layers as [| [l src] ls IH] using rev_ind.
  - cbn [foldl map last_set]. unfold _TRACKER_QOS_KEYS in *.
    repeat (apply elem_of_cons in Hk as [-> | Hk]; [done |]). inversion Hk.
  - rewrite foldl_app, map_app. change (map fst [(l, src)]) with [l]. rewrite last_set_snoc. cbn [foldl fst snd].
    revert IH. generalize (foldl (fun e ls =>
        foldl (fun e key => match dget (fst ls) key with Some v => dset e key (v, snd ls) | None => e end)
          e _TRACKER_QOS_KEYS)
      (map (fun k => (k, (dget_or QOS_DEFAULTS k VNone, "builtin"))) _TRACKER_QOS_KEYS) ls).
    intros e IH. unfold _TRACKER_QOS_KEYS in *. cbn [foldl].
    repeat (apply elem_of_cons in Hk as [-> | Hk];
      [repeat match goal with |- context [match dget l ?k with _ => _ end] => destruct (dget l k) eqn:? end;
       rewrite ?dget_dset; first [reflexivity | exact IH] |]). inversion Hk.
Qed.

Definition sample_layers : list dict :=
  [[("per_peer_bps", VInt 100000)]; [("fanout", VInt 3); ("seed_up_bps", VInt 20000)]; []].

Definition sample_qos : dict := Eval vm_compute in
  match compile_values (VStr "edge") [("restricted", VBool true)] sample_layers with
  | Ok q => q | Err _ => [] end.

Lemma sample_compiles :
  compile_values (VStr "edge") [("restricted", VBool true)] sample_layers = Ok sample_qos.
Proof. vm_compute. reflexivity. Qed.

Lemma sample_distinct : Forall (fun l : dict => NoDup (dkeys l)) sample_layers.
Proof. by_eval. Qed.

Lemma compile_rate_value_witness :
  dget sample_qos "seed_up_bps" = Some (VInt 20000) /\
  exists v, py_mul (dget_or sample_qos "per_peer_bps" VNone) (dget_or sample_qos "fanout" VNone) = Ok v /\
    dget sample_qos "leech_up_bps" = Some v.
Proof.
  split.
  - refine (compile_rate_value _ _ _ _ "seed_up_bps" sample_distinct _ sample_compiles). by_eval.
  - refine (compile_rate_value _ _ _ _ "leech_up_bps" sample_distinct _ sample_compiles). by_eval.
Defined.

Lemma compile_scalar_value_witness : dget sample_qos "on_stale" = Some (VStr "keep").
Proof.
  refine (compile_scalar_value _ _ _ _ "on_stale" sample_distinct _ sample_compiles). by_eval.
Defined.

Definition sample_tracker_doc : dict :=
  [("roles", VDict [("qos_default", VDict [("numwant", VInt 20)]);
                    ("qos_state_default", VDict [("seeder", VDict [("numwant", VInt 8)])])])].

Lemma tracker_cadence_precedence_witness :
  dget [("announce_min_interval_s", VInt 30); ("numwant", VInt 8)] "numwant" = Some (VInt 8).
Proof.
  refine (tracker_cadence_precedence sample_tracker_doc None (VStr "seeder") _
    [([("numwant", VInt 20)], "global"); ([("numwant", VInt 8)], "global-state:seeder");
     ([], "role:None"); ([], "role-state:None:seeder")] "numwant" _ _ _).
  - vm_compute. reflexivity.
  - by_eval.
  - vm_compute. reflexivity.
Defined.
