(* ===== verification/PolicyRoles.v ===== *)
(** * [server/peer_policy.py]: the role graph and the document validator

    [_validate_roles], [validate_document], the mutual-permit relation between
    roles and the reachability search behind the advisory warnings. *)
From S2P Require Import Prelude PyVal Ipv4 PolicyDoc PolicyQos.

(** ** Role accessors *)

Definition _role_of_map (doc : dict) : dict :=
  dict_or_empty (dget_or (dict_or_empty (dget_or doc "roles" (VDict []))) "role_of" (VDict [])).

Definition _role_defs (doc : dict) : dict :=
  dict_or_empty (dget_or (dict_or_empty (dget_or doc "roles" (VDict []))) "defs" (VDict [])).

(** [definition.get("restricted", False)] as a condition. *)
Definition restricted_flag (definition : dict) : bool :=
  truth (dget_or definition "restricted" (VBool false)).

(** [subject in definition.get("peers", [owner])]; validated peers are a list. *)
Definition in_peers (owner subject : string) (definition : dict) : bool :=
  match dget_or definition "peers" (VList [VStr owner]) with
  | VList l => existsb (py_eq (VStr subject)) l
  | VDict d => dhas d subject
  | _ => false
  end.

Definition role_origin_enabled (doc : dict) (role : string) : bool :=
  match dget_or (_role_defs doc) role (VDict []) with
  | VDict definition =>
      if negb (restricted_flag definition) then true
      else truth (dget_or definition "origin" (VBool true))
  | _ => true
  end.

Definition _role_pair_permitted (doc : dict) (left right : string) : bool :=
  let permits owner subject :=
    match dget (_role_defs doc) owner with
    | Some (VDict definition) =>
        if negb (restricted_flag definition) then true else in_peers owner subject definition
    | _ => true
    end in
  permits left right && permits right left.

(** ** Origin reachability *)

(** The [while pending] loop.  [pending] has the top of the Python list first. *)
Fixpoint reach_loop (fuel : nat) (doc : dict) (definitions pending seen : list string) : res bool :=
  match fuel with
  | O => Err OutOfFuel
  | S fuel =>
      match pending with
      | [] => Ok false
      | role :: pending =>
          if bool_decide (role ∈ seen) then reach_loop fuel doc definitions pending seen
          else
            let seen := role :: seen in
            if role_origin_enabled doc role then Ok true
            else
              let next := filter (fun c => (c ∉ seen) /\ _role_pair_permitted doc role c = true) definitions in
              reach_loop fuel doc definitions (reverse next ++ pending) seen
      end
  end.

(** At most one expansion per role, each pushing at most every role. *)
Definition reach_fuel (definitions : list string) : nat :=
  (S (S (length definitions)) * S (S (length definitions)))%nat.

Definition _role_reaches_origin (doc : dict) (start : string) : res bool :=
  let definitions := dkeys (_role_defs doc) in
  reach_loop (reach_fuel definitions) doc definitions [start] [].

(** The roles warned about, in name order ([{"code": "origin_unreachable", ...}]). *)
Definition policy_warnings (doc : dict) : res (list string) :=
  let roles := dict_or_empty (dget_or doc "roles" (VDict [])) in
  match dget_or roles "defs" (VDict []) with
  | VDict defs =>
      res_fold (fun (result : list string) (name : string) =>
        match dget_or defs name VNone with
        | VDict definition =>
            if negb (restricted_flag definition) || truth (dget_or definition "origin" (VBool true))
            then Ok result
            else
              let* reaches := _role_reaches_origin doc name in
              Ok (if (reaches : bool) then result else result ++ [name])
        | _ => Ok result
        end) [] (sort_by str_leb (dkeys defs))
  | _ => Ok []
  end.

(** ** Role validation *)

Definition is_mask (z : Z) : bool :=
  match prefix_from_ip_int z with
  | Some _ => true
  | None => match prefix_from_ip_int (Z.lxor z all_ones) with Some _ => true | None => false end
  end.

(** [ROLE_NET_PATTERN]: a dotted quad, optionally with a prefix length of at most
    32 digits or a dotted netmask or hostmask. *)
Definition role_net_pattern (s : string) : bool :=
  let quad b := match parse_ipv4 (string_of b) with Some _ => true | None => false end in
  match split_on "/" (bytes_of s) with
  | [a] => quad a
  | [a; m] =>
      quad a &&
      ((isdigit m && (zlen m <=? 32) && (digits_val m <=? 32)) ||
       match parse_ipv4 (string_of m) with Some z => is_mask z | None => false end)
  | _ => false
  end.

Definition validate_role_net (value : pyval) : res network :=
  match value with
  | VStr s =>
      if negb (role_net_pattern s) then Err (perr "bad role net")
      else match parse_network s with Some n => Ok n | None => Err (perr "bad role net") end
  | _ => Err (perr "bad role net")
  end.

Definition allowed_keys (allowed : list string) (d : dict) : bool :=
  forallb (fun k => existsb (String.eqb k) allowed) (dkeys d).

(** The loop over [peers]: the set of peers seen. *)
Definition _validate_peers (defs : dict) (peers : list pyval) : res (list string) :=
  res_fold (fun (seen : list string) (peer : pyval) =>
    let* p := validate_role_name peer "bad peer role name" in
    raise (perr "duplicate role peer") when existsb (String.eqb p) seen ;;;
    raise (perr "peer references unknown role") when negb (dhas defs p) ;;;
    Ok (p :: seen)) [] peers.

Definition _validate_role_def (defs : dict) (nd : string * pyval) : res unit :=
  let '(name, definition) := nd in
  let* _ := validate_role_name (VStr name) "bad role name" in
  match definition with
  | VDict definition =>
      raise (perr "bad role definition key") when negb (allowed_keys
        ["restricted"; "peers"; "origin"; "nets"; "on_stale"; "qos"; "qos_state"] definition) ;;;
      raise (perr "restricted must be bool") when negb (is_bool (dget_or definition "restricted" (VBool false))) ;;;
      raise (perr "origin must be bool") when negb (is_bool (dget_or definition "origin" (VBool true))) ;;;
      match dget_or definition "peers" (VList [VStr name]) with
      | VList peers =>
          raise (perr "bad role peers") when (MAX_ROLE_PEERS <? zlen peers) ;;;
          let* seen_peers := _validate_peers defs peers in
          raise (PolicyError "role_isolated" "role peers must contain itself")
            when negb (existsb (String.eqb name) seen_peers) ;;;
          match dget_or definition "nets" (VList []) with
          | VList nets =>
              res_iter (fun net => let* _ := validate_role_net net in Ok tt) nets ;;;
              raise (perr "bad on_stale")
                when match dget definition "on_stale" with
                     | Some v => negb (in_strs v ["keep"; "defaults"]) | None => false end ;;;
              _validate_qos (dget_or definition "qos" (VDict [])) "role" ;;;
              _validate_qos_state (dget_or definition "qos_state" (VDict []))
          | _ => Err (perr "bad role nets")
          end
      | _ => Err (perr "bad role peers")
      end
  | _ => Err (perr "bad role definition")
  end.

(** Two restricted roles must name one another. *)
Definition _validate_symmetry (defs : dict) (nd : string * pyval) : res unit :=
  let '(name, definition) := nd in
  let definition := dict_or_empty definition in
  if negb (restricted_flag definition) then Ok tt
  else
    res_iter (fun peer =>
      match peer with
      | VStr peer =>
          let peer_def := dict_or_empty (dget_or defs peer VNone) in
          raise (PolicyError "asymmetric_peers" "asymmetric role peers")
            when negb (String.eqb peer name) && restricted_flag peer_def &&
                 negb (in_peers peer name peer_def) ;;;
          Ok tt
      | _ => Ok tt
      end) (match dget_or definition "peers" (VList [VStr name]) with VList l => l | _ => [] end).

Section with_ttl.
(** [peer_endpoints.endpoint_ttl()], read from the environment of the process. *)
Context (endpoint_ttl : Z).

(** [tick > endpoint_ttl() / 3.0]: exact for the ticks a QoS map may hold. *)
Definition tick_too_slow (tick : Z) : bool := endpoint_ttl <? 3 * tick.

Definition _validate_roles (roles : pyval) : res unit :=
  match roles with
  | VDict roles =>
      raise (perr "bad roles key") when negb (allowed_keys
        ["defs"; "role_of"; "qos_default"; "qos_device"; "qos_state_default"] roles) ;;;
      match dget_or roles "defs" (VDict []) with
      | VDict defs =>
          raise (perr "bad role defs") when (MAX_ROLES <? zlen defs) ;;;
          res_iter (_validate_role_def defs) defs ;;;
          res_iter (_validate_symmetry defs) defs ;;;
          match dget_or roles "role_of" (VDict []) with
          | VDict role_of =>
              res_iter (fun '(device_id, role) =>
                raise (perr "bad role device id") when String.eqb device_id "" ;;;
                let* r := validate_role_name role "bad role assignment" in
                raise (perr "assignment to unknown role") when negb (dhas defs r) ;;;
                Ok tt) role_of ;;;
              _validate_qos (dget_or roles "qos_default" (VDict [])) "global" ;;;
              _validate_qos_state (dget_or roles "qos_state_default" (VDict [])) ;;;
              match dget_or roles "qos_device" (VDict []) with
              | VDict qos_device =>
                  res_iter (fun '(device_id, qos) =>
                    raise (perr "bad device qos") when String.eqb device_id "" || negb (is_dict qos) ;;;
                    _validate_qos qos "device") qos_device ;;;
                  let global_qos := dict_or_empty (dget_or roles "qos_default" (VDict [])) in
                  let* global_effective := compile_values VNone [] [global_qos; []; []] in
                  _validate_compiled_qos global_effective ;;;
                  res_iter (fun '(name, definition) =>
                    let definition := dict_or_empty definition in
                    let layers := [global_qos; dict_or_empty (dget_or definition "qos" (VDict []))] ++
                      match dget definition "on_stale" with Some v => [[("on_stale", v)]] | None => [] end in
                    let* effective := compile_values (VStr name) definition layers in
                    _validate_compiled_qos effective ;;;
                    raise (perr "catalog_tick_s exceeds endpoint TTL third")
                      when restricted_flag definition && tick_too_slow (qos_int effective "catalog_tick_s") ;;;
                    Ok tt) defs ;;;
                  res_iter (fun device_id =>
                    let* qos := compile_qos [("roles", VDict roles)] device_id in
                    _validate_compiled_qos qos ;;;
                    let* found := dget_val defs (dget_or role_of device_id VNone) in
                    let definition := dict_or_empty (default (VDict []) found) in
                    raise (perr "catalog_tick_s exceeds endpoint TTL third")
                      when restricted_flag definition && tick_too_slow (qos_int qos "catalog_tick_s") ;;;
                    Ok tt) (dkeys qos_device ++ filter (fun k => dhas qos_device k = false) (dkeys role_of))
              | _ => Err (perr "bad qos_device")
              end
          | _ => Err (perr "bad role_of")
          end
      | _ => Err (perr "bad role defs")
      end
  | _ => Err (perr "bad roles")
  end.

(** ** The document validator *)

(** [reconciler_status.validate_ack_epoch], with its [ValueError] translated. *)
Definition validate_ack_epoch (value : pyval) : res unit :=
  match value with
  | VNone => Ok tt
  | VStr s => if hex_re 32 s then Ok tt else Err (perr "bad operation_ack_epoch")
  | _ => Err (perr "bad operation_ack_epoch")
  end.

(** [rule["seq"]] of a validated rule. *)
Definition seq_of (rule : pyval) : Z :=
  match rule with VDict r => match dget r "seq" with Some (VInt z) => z | _ => 0 end | _ => 0 end.

(** One stored ACL: its name and rules, with distinct sequence numbers. *)
Definition _validate_acl (na : string * pyval) : res unit :=
  let '(name, acl) := na in
  raise (perr "bad acl name") when negb (acl_name_re name) ;;;
  let* rules := getattr_get acl "rules" VNone in
  match rules with
  | VList rules =>
      raise (perr "bad rules") when (MAX_RULES_PER_ACL <? zlen rules) ;;;
      let* _ := res_fold (fun (seqs : list Z) (rule : pyval) =>
        _validate_rule rule ;;;
        raise (perr "duplicate seq") when existsb (Z.eqb (seq_of rule)) seqs ;;;
        Ok (seq_of rule :: seqs)) [] rules in
      Ok tt
  | _ => Err (perr "bad rules")
  end.

Definition validate_document (doc : pyval) : res dict :=
  match doc with
  | VDict doc =>
      raise (perr "bad schema") when negb (py_eq (dget_or doc "schema" VNone) (VInt SCHEMA)) ;;;
      raise (perr "bad revision")
        when negb (match dget doc "revision" with Some (VInt _) => true | _ => false end) ;;;
      match dget_or doc "acls" VNone with
      | VDict acls =>
          raise (perr "bad acls") when (MAX_ACLS <? zlen acls) ;;;
          match dget_or acls RESERVED_QUARANTINE VNone with
          | VNone => Err (perr "reserved quarantine missing")
          | q =>
              let* reserved := getattr_get q "reserved" VNone in
              let* qrules := getattr_get q "rules" VNone in
              raise (perr "quarantine is immutable")
                when negb (is_true reserved) || negb (py_eq qrules _QUARANTINE_RULES) ;;;
              res_iter _validate_acl acls ;;;
              match dget_or doc "assignments" VNone with
              | VDict assignments =>
                  res_iter (fun '(_, acl_name) =>
                    let* known := in_dict acl_name acls in
                    raise (perr "assignment to unknown acl") when negb known ;;; Ok tt) assignments ;;;
                  match dget doc "quarantined_devices" with
                  | Some qd => _validate_quarantined_devices qd true
                  | None => Ok tt
                  end ;;;
                  match dget_or doc "seeder_assignment" VNone with
                  | VNone => Ok tt
                  | seeder =>
                      let* known := in_dict seeder acls in
                      raise (perr "seeder assignment to unknown acl") when negb known ;;; Ok tt
                  end ;;;
                  match dget_or doc "operation_outbox" VNone with
                  | VList outbox =>
                      raise (perr "bad operation_outbox") when (OUTBOX_CAP <? zlen outbox) ;;;
                      validate_ack_epoch (dget_or doc "operation_ack_epoch" VNone) ;;;
                      match dget doc "roles" with
                      | Some roles => _validate_roles roles
                      | None => Ok tt
                      end ;;;
                      Ok doc
                  | _ => Err (perr "bad operation_outbox")
                  end
              | _ => Err (perr "bad assignments")
              end
          end
      | _ => Err (perr "bad acls")
      end
  | _ => Err (perr "document must be an object")
  end.
End with_ttl.

(** ** Reachability of an origin *)

(** One step between roles that may exchange data in both directions. *)
Definition role_edge (doc : dict) (a b : string) : Prop :=
  b ∈ dkeys (_role_defs doc) /\ _role_pair_permitted doc a b = true.

Section reach.
Context (doc : dict) (start : string).
#[local] Abbreviation defs := (dkeys (_role_defs doc)).
#[local] Abbreviation unseen seen := (filter (fun c => c ∉ seen) (start :: defs)).

Definition reach_sound (b : bool) : Prop :=
  b = true <-> exists r, rtc (role_edge doc) start r /\ role_origin_enabled doc r = true.

Lemma reach_closed (seen : list string) :
  start ∈ seen ->
  (forall r, r ∈ seen -> role_origin_enabled doc r = false /\ forall c, role_edge doc r c -> c ∈ seen) ->
  reach_sound false.
Proof.
  intros Hs Hclosed. split; [done |]. intros (r & Hr & Ho).
  enough (r ∈ seen) as Hin by (destruct (Hclosed r Hin); congruence).
  clear Ho. induction Hr as [| a b c Hab _ IH]; [done |]. apply IH. by apply (Hclosed a).
Qed.

Lemma elem_of_next role c (seen : list string) :
  c ∈ filter (fun c => (c ∉ seen) /\ _role_pair_permitted doc role c = true) defs <->
  (c ∉ seen) /\ role_edge doc role c.
Proof. rewrite list_elem_of_filter. unfold role_edge. tauto. Qed.

Lemma reach_loop_spec fuel pending seen b :
  (forall x, x ∈ pending -> rtc (role_edge doc) start x) ->
  start ∈ seen \/ start ∈ pending ->
  (forall r, r ∈ seen -> role_origin_enabled doc r = false /\
     forall c, role_edge doc r c -> c ∈ seen \/ c ∈ pending) ->
  reach_loop fuel doc defs pending seen = Ok b -> reach_sound b.
Proof.
  revert pending seen. induction fuel as [| fuel IH]; intros pending seen Hp Hs Hc H; [done |].
  cbn [reach_loop] in H. destruct pending as [| role pending].
  { injection H as <-. apply (reach_closed seen).
    - destruct Hs as [? | Hs]; [done | inversion Hs].
    - intros r Hr. destruct (Hc r Hr) as [Ho He]. split; [done |]. intros c Hrc.
      destruct (He c Hrc) as [? | Hn]; [done | inversion Hn]. }
  case_bool_decide as Hseen.
  { eapply IH; [| | | exact H]; [set_solver | set_solver |].
    intros r Hr. destruct (Hc r Hr) as [? He]. split; [done |]. intros c Hrc.
    specialize (He c Hrc). set_solver. }
  destruct (role_origin_enabled doc role) eqn:Ho.
  { injection H as <-. split; [| done]. intros _. exists role. split; [apply Hp; by left | done]. }
  eapply IH; [| | | exact H].
  - intros x [Hx | Hx]%elem_of_app; [| apply Hp; by right].
    apply elem_of_reverse, elem_of_next in Hx as [_ Hx].
    eapply rtc_r; [apply Hp; by left | exact Hx].
  - set_solver.
  - intros r Hr. destruct (decide (r = role)) as [-> | Hne].
    + split; [done |]. intros c Hrc. destruct (decide (c ∈ role :: seen)) as [? | Hn]; [by left |].
      right. apply elem_of_app. left. by apply elem_of_reverse, elem_of_next.
    + assert (r ∈ seen) as Hr' by set_solver. destruct (Hc r Hr') as [? He]. split; [done |].
      intros c Hrc. specialize (He c Hrc). set_solver.
Qed.

Lemma unseen_cons role (seen : list string) :
  role ∈ start :: defs -> role ∉ seen -> (length (unseen (role :: seen)) < length (unseen seen))%nat.
Proof.
  generalize (start :: defs). intros l Hin Hn.
  assert (Hsub : forall k, (length (filter (fun c => c ∉ role :: seen) k) <=
    length (filter (fun c => c ∉ seen) k))%nat).
  { intros k. induction k as [| x k IH]; [done |]. rewrite !filter_cons.
    destruct (decide (x ∉ role :: seen)), (decide (x ∉ seen)); cbn; [lia | set_solver | lia | lia]. }
  induction l as [| x l IH]; [inversion Hin |]. rewrite !filter_cons.
  destruct (decide (x = role)) as [-> | Hne].
  - rewrite decide_False by set_solver. rewrite decide_True by done. cbn. specialize (Hsub l). lia.
  - assert (role ∈ l) as Hin' by set_solver. specialize (IH Hin').
    destruct (decide (x ∉ role :: seen)), (decide (x ∉ seen)); cbn; [lia | set_solver | lia | lia].
Qed.

Lemma reach_loop_total fuel pending seen :
  (forall x, x ∈ pending -> x ∈ start :: defs) ->
  (length pending + length defs * length (unseen seen) < fuel)%nat ->
  exists b, reach_loop fuel doc defs pending seen = Ok b.
Proof.
  revert pending seen. induction fuel as [| fuel IH]; intros pending seen Hp Hf; [lia |].
  cbn [reach_loop]. destruct pending as [| role pending]; [by eexists |]. cbn [length] in Hf.
  case_bool_decide as Hseen; [apply IH; [set_solver | lia] |].
  destruct (role_origin_enabled doc role); [by eexists |]. apply IH.
  - intros x [Hx | Hx]%elem_of_app; [| apply Hp; by right].
    apply elem_of_reverse, elem_of_next in Hx as [_ [Hx _]]. by right.
  - pose proof (unseen_cons role seen (Hp role ltac:(by left)) Hseen) as Hlt.
    rewrite length_app, length_reverse.
    pose proof (length_filter (fun c => (c ∉ role :: seen) /\ _role_pair_permitted doc role c = true) defs).
    nia.
Qed.
End reach.

Lemma reaches_origin_spec doc start :
  exists b, _role_reaches_origin doc start = Ok b /\ reach_sound doc start b.
Proof.
  destruct (reach_loop_total doc start (reach_fuel (dkeys (_role_defs doc))) [start] []) as [b Hb].
  - set_solver.
  - unfold reach_fuel. cbn [length].
    pose proof (length_filter (fun c => c ∉ ([] : list string)) (start :: dkeys (_role_defs doc))) as Hl.
    cbn [length] in Hl. nia.
  - exists b. split; [exact Hb |]. eapply reach_loop_spec; [| | | exact Hb].
    + intros x Hx. apply list_elem_of_singleton in Hx as ->. apply rtc_refl.
    + right. by left.
    + intros r Hr. inversion Hr.
Qed.

(** The search for an origin terminates and is exact: it answers [True] just
    when a chain of defined roles, each pair permitting one another, leads from the
    given role to one whose devices may use the origin. *)
Theorem role_reaches_origin_exact doc start :
  exists b, _role_reaches_origin doc start = Ok b /\
    (b = true <-> exists r, rtc (role_edge doc) start r /\ role_origin_enabled doc r = true).
Proof. exact (reaches_origin_spec doc start). Qed.

Lemma _role_defs_eq doc :
  _role_defs doc = dict_or_empty (dget_or (dict_or_empty (dget_or doc "roles" (VDict []))) "defs" (VDict [])).
Proof. done. Qed.

Definition warned (doc : dict) (name : string) : bool :=
  match dget_or (_role_defs doc) name VNone with
  | VDict definition =>
      restricted_flag definition && negb (truth (dget_or definition "origin" (VBool true))) &&
      negb (match _role_reaches_origin doc name with Ok b => b | Err _ => true end)
  | _ => false
  end.

Lemma policy_warnings_filter doc :
  policy_warnings doc = Ok (filter (fun n => warned doc n = true) (sort_by str_leb (dkeys (_role_defs doc)))).
Proof.
  unfold policy_warnings, warned. rewrite _role_defs_eq. unfold dict_or_empty at 4.
  destruct (dget_or (dict_or_empty (dget_or doc "roles" _)) "defs" _) as [| | | | | | defs] eqn:E; try done.
  cbn [as_dict default]. rewrite (res_fold_filter (warned doc)).
  - unfold warned. rewrite _role_defs_eq, E. done.
  - intros acc name. unfold warned. rewrite _role_defs_eq, E. change (dict_or_empty (VDict defs)) with defs.
    destruct (dget_or defs name VNone) as [| | | | | | definition]; try done.
    destruct (restricted_flag definition); cbn [negb orb andb]; [| done].
    destruct (truth _); cbn [negb orb andb]; [done |].
    destruct (reaches_origin_spec doc name) as (b & -> & _). cbn. by destruct b.
Qed.

(** The advisory warnings are computed without error and are exactly the
    restricted roles closed to the origin from which no chain of mutually
    permitted roles reaches an origin, in name order. *)
Theorem policy_warnings_exact doc :
  exists ws, policy_warnings doc = Ok ws /\
    StronglySorted (fun a b => str_leb a b = true) (sort_by str_leb (dkeys (_role_defs doc))) /\
    ws `sublist_of` sort_by str_leb (dkeys (_role_defs doc)) /\
    forall name, name ∈ ws <->
      exists definition, dget (_role_defs doc) name = Some (VDict definition) /\
        restricted_flag definition = true /\ truth (dget_or definition "origin" (VBool true)) = false /\
        ~ exists r, rtc (role_edge doc) name r /\ role_origin_enabled doc r = true.
Proof.
  eexists. split; [apply policy_warnings_filter |]. split_and!.
  - apply sort_by_sorted; intros; [apply bytes_leb_total | eapply bytes_leb_trans; eauto].
  - apply sublist_filter.
  - intros name. rewrite list_elem_of_filter, sort_by_elem. unfold warned, dget_or at 1.
    destruct (dget (_role_defs doc) name) as [v |] eqn:E; cbn [from_option id].
    2: { split; [by intros [? _] | by intros (? & ? & _)]. }
    destruct v as [| | | | | | definition]; try (split; [by intros [? _] | by intros (? & [=] & _)]).
    destruct (reaches_origin_spec doc name) as (b & -> & Hb). unfold reach_sound in Hb. split.
    + intros [H _]. destruct b; cbn [negb] in H; [by rewrite andb_false_r in H |]. bool_norm. exists definition. split_and!; try done.
      by rewrite <- Hb.
    + intros (d & [= <-] & -> & -> & Hn). rewrite <- Hb in Hn. destruct b; [by destruct Hn |].
      split; [done | by eapply dget_key].
Qed.
