(* ===== verification/PolicyValid.v ===== *)
(** * [server/peer_policy.py]: what validation guarantees

    The typed reading of a stored rule, and the facts every document accepted by
    [validate_document] satisfies: typed ACLs, resolved assignments, a closed and
    symmetric role graph, and bounded QoS for every device. *)
From S2P Require Import Prelude PyVal Ipv4 PolicyDoc PolicySample PolicyQos PolicyRoles.

(** ** Typed rules *)

Inductive amatch :=
  | MAny
  | MDevice (id : string)
  | MService (id : string)
  | MHost (ip : string)
  | MCidr (net : string)
  | MRole (role : string).

Record arule := ARule { r_seq : Z; r_permit : bool; r_match : amatch }.

(** The match clause of a rule, by its type tag. *)
Definition match_of (m : dict) : option amatch :=
  match dget m "type" with
  | Some (VStr t) =>
      if String.eqb t "any" then Some MAny
      else match dget m "value" with
        | Some (VStr v) =>
            if String.eqb t "device" then Some (MDevice v)
            else if String.eqb t "service" then Some (MService v)
            else if String.eqb t "host" then Some (MHost v)
            else if String.eqb t "cidr" then Some (MCidr v)
            else if String.eqb t "role" then Some (MRole v)
            else None
        | _ => None
        end
  | _ => None
  end.

Definition action_of (v : pyval) : option bool :=
  match v with
  | VStr a => if String.eqb a "permit" then Some true
              else if String.eqb a "deny" then Some false else None
  | _ => None
  end.

Definition rule_of (v : pyval) : option arule :=
  match v with
  | VDict rule =>
      match dget rule "seq", action_of (dget_or rule "action" VNone), dget rule "match" with
      | Some (VInt seq), Some permit, Some (VDict m) =>
          am ← match_of m; Some (ARule seq permit am)
      | _, _, _ => None
      end
  | _ => None
  end.

(** The values a validated match clause may carry. *)
Definition match_ok (m : amatch) : Prop :=
  match m with
  | MAny => True
  | MDevice v | MService v => v <> ""
  | MHost v => v <> "" /\ is_Some (parse_ipv4 v)
  | MCidr v => v <> "" /\ is_Some (parse_network v)
  | MRole v => role_name_re v = true /\ v ∉ RESERVED_ROLE_NAMES
  end.

Lemma existsb_eqb (s : string) l : existsb (String.eqb s) l = bool_decide (s ∈ l).
Proof.
  apply eq_true_iff_eq. rewrite bool_decide_eq_true, existsb_exists. split.
  - intros (x & Hx & ->%String.eqb_eq). by apply list_elem_of_In.
  - intros H. exists s. split; [by apply list_elem_of_In | apply String.eqb_refl].
Qed.

Lemma validate_role_name_ok v msg s :
  validate_role_name v msg = Ok s <->
  v = VStr s /\ role_name_re s = true /\ (s ∉ RESERVED_ROLE_NAMES).
Proof.
  unfold validate_role_name. destruct v as [| | | | t | |]; try (split; [done | by intros [[=] _]]).
  rewrite existsb_eqb. destruct (role_name_re t) eqn:E; cbn [negb].
  - case_bool_decide as Hr; (split; [| intros ([= <-] & _ & Hs)]); [done | done | intros [= <-]; done | done].
  - split; [done |]. intros ([= <-] & H & _). congruence.
Qed.

Lemma action_of_spec v : in_strs v _ACTIONS = true <-> is_Some (action_of v).
Proof.
  destruct v as [| | | | s | |]; cbn [in_strs action_of]; try (split; [done | by intros [? ?]]).
  unfold _ACTIONS. cbn [existsb]. str_cases; cbn; split; try done; by intros [? ?].
Qed.

Lemma nonempty_str (v : string) : role_name_re v = true -> v <> "".
Proof. by intros H ->. Qed.

Lemma match_type_cases t :
  existsb (String.eqb t) _MATCH_TYPES = true ->
  t = "any" \/ t = "device" \/ t = "service" \/ t = "host" \/ t = "cidr" \/ t = "role".
Proof. unfold _MATCH_TYPES. cbn. str_cases; tauto || done. Qed.

Lemma validate_match_iff v :
  _validate_match v = Ok tt <->
  exists m am, v = VDict m /\ match_of m = Some am /\ match_ok am.
Proof.
  split.
  - destruct v as [| | | | | | m]; cbn [_validate_match]; try done. unfold dget_or, match_of.
    destruct (dget m "type") as [[| | | | t | |] |] eqn:Et; cbn [from_option id]; try done.
    destruct (existsb (String.eqb t) _MATCH_TYPES) eqn:Hin; cbn [negb]; [| done].
    destruct (String.eqb_spec t "any") as [-> | Hany].
    { intros _. exists m, MAny. by rewrite Et. }
    destruct (dget m "value") as [[| | | | s | |] |] eqn:Ev; cbn [from_option id]; try done.
    destruct (String.eqb_spec s ""); [done |].
    apply match_type_cases in Hin as [-> | [-> | [-> | [-> | [-> | ->]]]]]; cbn; try done.
    all: unfold IPv4Address, IPv4Network.
    + intros _. exists m, (MDevice s). by rewrite Et, Ev.
    + intros _. exists m, (MService s). by rewrite Et, Ev.
    + destruct (parse_ipv4 s) eqn:E; [| done]. intros _. exists m, (MHost s). rewrite Et, Ev. cbn. by rewrite E.
    + destruct (parse_network s) eqn:E; [| done]. intros _. exists m, (MCidr s). rewrite Et, Ev. cbn. by rewrite E.
    + destruct (validate_role_name _ _) eqn:E; [| done]. apply validate_role_name_ok in E as ([= <-] & ? & ?).
      intros _. exists m, (MRole s). by rewrite Et, Ev.
  - intros (m & am & -> & Hm & Hok). cbn [_validate_match]. unfold dget_or, match_of in *.
    destruct (dget m "type") as [[| | | | t | |] |]; try done. cbn [from_option id].
        destruct (String.eqb_spec t "any") as [Ht | Hany]; [by subst |].
    destruct (dget m "value") as [[| | | | s | |] |]; try done. cbn [from_option id].
    destruct (String.eqb_spec s "") as [-> | Hs].
    { repeat (case_match; [simplify_eq; naive_solver |]). done. }
    destruct (String.eqb_spec t "device") as [Ht | ?]; [by subst |].
    destruct (String.eqb_spec t "service") as [Ht | ?]; [by subst |].
    destruct (String.eqb_spec t "host") as [Ht | ?].
    { subst t. injection Hm as <-. destruct Hok as [_ [z Hz]]. cbn. unfold IPv4Address. by rewrite Hz. }
    destruct (String.eqb_spec t "cidr") as [Ht | ?].
    { subst t. injection Hm as <-. destruct Hok as [_ [z Hz]]. cbn. unfold IPv4Network. by rewrite Hz. }
    destruct (String.eqb_spec t "role") as [Ht | ?]; [| done].
    subst t. injection Hm as <-. cbn. by rewrite (proj2 (validate_role_name_ok (VStr s) "bad role name" s)).
Qed.

Lemma validate_rule_iff_aux v :
  _validate_rule v = Ok tt <-> exists r, rule_of v = Some r /\ match_ok (r_match r).
Proof.
  destruct v as [| | | | | | rule]; cbn [_validate_rule rule_of]; try (split; [done | by intros (? & ? & _)]).
  destruct (dget rule "seq") as [[| | seq | | | |] |];
    cbn [negb]; try (split; [done | by intros (? & ? & _)]).
  destruct (in_strs (dget_or rule "action" VNone) _ACTIONS) eqn:Ha; cbn [negb].
  - apply action_of_spec in Ha as [permit ->]. rewrite validate_match_iff. unfold dget_or.
    destruct (dget rule "match") as [v |]; cbn [from_option id]; [| split; naive_solver].
    split.
    + intros (m & am & -> & Hm & Hok). cbn. rewrite Hm. by eexists.
    + intros (r & Hr & Hok). destruct v as [| | | | | | m]; try done.
      destruct (match_of m) as [am |] eqn:Em; [| done]. injection Hr as <-. eauto.
  - split; [done |]. intros (r & Hr & _).
    destruct (action_of _) eqn:E; [| done].
    rewrite (proj2 (action_of_spec _)) in Ha; [done | by eexists].
Qed.

(** A rule is accepted exactly when it reads as a typed rule: an integer
    sequence number (booleans refused), a [permit] or [deny] action, and one of the
    six match clauses with a usable value (a dotted quad for [host], an IPv4 network
    for [cidr], an unreserved role name for [role]). *)
Theorem validate_rule_iff v :
  _validate_rule v = Ok tt <-> exists r, rule_of v = Some r /\ match_ok (r_match r).
Proof. apply validate_rule_iff_aux. Qed.

(** ** Typed ACLs *)

(** The rules of a stored ACL, in stored order. *)
Definition acl_rules (acl : pyval) : option (list arule) :=
  match acl with
  | VDict d => match dget d "rules" with Some (VList rules) => mapM rule_of rules | _ => None end
  | _ => None
  end.

Definition acl_ok (na : string * pyval) : Prop :=
  acl_name_re (fst na) = true /\
  exists rules, acl_rules (snd na) = Some rules /\ NoDup (map r_seq rules) /\
    Forall (fun r => match_ok (r_match r)) rules /\ zlen rules <= MAX_RULES_PER_ACL.

Lemma rule_of_seq v r : rule_of v = Some r -> exists d, v = VDict d /\ dget d "seq" = Some (VInt (r_seq r)).
Proof.
  destruct v as [| | | | | | d]; cbn; try done. destruct (dget d "seq") as [[| | z | | | |] |] eqn:E; try done.
  destruct (action_of _); [| done]. destruct (dget d "match") as [[| | | | | | m] |]; try done.
  destruct (match_of m); cbn; [| done]. intros [= <-]. eauto.
Qed.

Lemma seq_of_rule v r : rule_of v = Some r -> seq_of v = r_seq r.
Proof. intros (d & -> & H)%rule_of_seq. cbn. by rewrite H. Qed.

Lemma validate_rules_fold rules seqs out :
  res_fold (fun (seqs : list Z) (rule : pyval) =>
    _validate_rule rule ;;;
    raise (perr "duplicate seq") when existsb (Z.eqb (seq_of rule)) seqs ;;;
    Ok (seq_of rule :: seqs)) seqs rules = Ok out ->
  NoDup seqs ->
  exists ars, mapM rule_of rules = Some ars /\ NoDup (map r_seq ars ++ seqs) /\
    Forall (fun r => match_ok (r_match r)) ars.
Proof.
  revert seqs. induction rules as [| v rules IH]; intros seqs H Hnd; cbn [res_fold] in H.
  { exists []. split_and!; [done | done | constructor]. }
  destruct (_validate_rule v) as [[] |] eqn:Ev; cbn [mbind res_bind] in H; [| done].
  apply validate_rule_iff_aux in Ev as (r & Hr & Hok). rewrite (seq_of_rule v r Hr) in H.
  destruct (existsb (Z.eqb (r_seq r)) seqs) eqn:Ex; cbn [mbind res_bind] in H; [done |].
  apply IH in H as (ars & Hars & Hnd' & Hoks).
  - exists (r :: ars). cbn [mapM]. rewrite Hr. cbn. rewrite Hars. cbn. split_and!; [done | | by constructor].
    cbn [map app]. by rewrite Permutation_middle.
  - apply NoDup_cons. split; [| done]. intros Hin. apply not_true_iff_false in Ex. apply Ex.
    apply existsb_exists. exists (r_seq r). split; [by apply list_elem_of_In | lia].
Qed.

Lemma validate_acl_ok na : _validate_acl na = Ok tt -> acl_ok na.
Proof.
  destruct na as [name acl]. unfold _validate_acl, acl_ok. cbn [fst snd]. intros H.
  destruct (acl_name_re name); cbn [negb] in H; [| done]. split; [done |].
  destruct acl as [| | | | | | d]; cbn [getattr_get mbind res_bind] in H; try done.
  unfold dget_or in H. cbn [acl_rules].
  destruct (dget d "rules") as [[| | | | | rules |] |]; cbn [from_option id] in H; try done.
  destruct (MAX_RULES_PER_ACL <? zlen rules) eqn:Hlen; [done |].
  destruct (res_fold _ _ _) as [out |] eqn:E; [| done].
  apply validate_rules_fold in E as (ars & Hars & Hnd & Hoks); [| constructor].
  rewrite app_nil_r in Hnd. exists ars. bool_norm. split_and!; [done | done | done |].
  apply mapM_Some, Forall2_length in Hars. unfold zlen in *. lia.
Qed.

(** ** Equality with a constant *)

Lemma py_eq_dict d e k v :
  py_eq (VDict d) (VDict e) = true -> dget d k = Some v ->
  exists w, dget e k = Some w /\ py_eq v w = true.
Proof.
  cbn [py_eq]. intros [_ H]%andb_true_iff Hk. induction d as [| [x y] d IH]; [done |].
  apply andb_true_iff in H as [H1 H2]. cbn in Hk. destruct (String.eqb_spec x k) as [-> | Hne].
  - injection Hk as <-. destruct (dget e k); [eauto | done].
  - by apply IH.
Qed.

Lemma py_eq_str v s : py_eq v (VStr s) = true -> v = VStr s.
Proof. destruct v; cbn; try done. by intros ->%String.eqb_eq. Qed.

Lemma py_eq_singleton v w : py_eq v (VList [w]) = true -> exists x, v = VList [x] /\ py_eq x w = true.
Proof.
  destruct v as [| | | | | l |]; cbn; try done. destruct l as [| x [| y l]]; cbn.
  - done.
  - rewrite andb_true_r. eauto.
  - by rewrite andb_false_r.
Qed.

(** The immutable quarantine ACL reads as one rule: deny everyone. *)
Definition quarantine_arules : list arule := [ARule 10 false MAny].

Lemma quarantine_typed d rules :
  py_eq (dget_or d "rules" VNone) _QUARANTINE_RULES = true ->
  acl_rules (VDict d) = Some rules -> rules = quarantine_arules.
Proof.
  intros Heq Hr. unfold dget_or in Heq. cbn [acl_rules] in Hr.
  destruct (dget d "rules") as [v |]; [| done]. cbn [from_option id] in Heq.
  apply py_eq_singleton in Heq as (x & -> & Hx). cbn in Hr.
  destruct (rule_of x) as [r |] eqn:Er; [| done]. injection Hr as <-.
  destruct x as [| | | | | | rd]; try done. cbn [rule_of] in Er.
  destruct (dget rd "seq") as [[| | z | | | |] |] eqn:Es; try done.
  destruct (py_eq_dict _ _ _ _ Hx Es) as (w & [= <-] & ->%py_eq_int).
  destruct (dget rd "action") as [act |] eqn:Ea; unfold dget_or in Er; rewrite Ea in Er; [| done].
  destruct (py_eq_dict _ _ _ _ Hx Ea) as (w & [= <-] & ->%py_eq_str). cbn in Er.
  destruct (dget rd "match") as [[| | | | | | m] |] eqn:Em; try done.
  destruct (py_eq_dict _ _ _ _ Hx Em) as (w & [= <-] & Hm).
  unfold match_of in Er. destruct (dget m "type") as [t |] eqn:Et; [| done].
  destruct (py_eq_dict _ _ _ _ Hm Et) as (w & [= <-] & ->%py_eq_str). by injection Er as <-.
Qed.

(** ** The role model *)

Definition role_def_ok (defs : dict) (name : string) (v : pyval) : Prop :=
  exists definition peers, v = VDict definition /\
    role_name_re name = true /\ (name ∉ RESERVED_ROLE_NAMES) /\
    is_bool (dget_or definition "restricted" (VBool false)) = true /\
    is_bool (dget_or definition "origin" (VBool true)) = true /\
    dget_or definition "peers" (VList [VStr name]) = VList (map VStr peers) /\
    NoDup peers /\ zlen peers <= MAX_ROLE_PEERS /\ name ∈ peers /\
    (forall p, p ∈ peers -> p ∈ dkeys defs) /\
    _validate_qos (dget_or definition "qos" (VDict [])) "role" = Ok tt.

Lemma validate_peers_ok (defs : dict) vs seen out :
  res_fold (fun (seen : list string) (peer : pyval) =>
    let* p := validate_role_name peer "bad peer role name" in
    raise (perr "duplicate role peer") when existsb (String.eqb p) seen ;;;
    raise (perr "peer references unknown role") when negb (dhas defs p) ;;;
    Ok (p :: seen)) seen vs = Ok out ->
  NoDup seen ->
  exists peers, vs = map VStr peers /\ NoDup (peers ++ seen) /\
    (forall p, p ∈ peers -> p ∈ dkeys defs) /\ (forall p, p ∈ out <-> p ∈ peers \/ p ∈ seen).
Proof.
  revert seen. induction vs as [| v vs IH]; intros seen H Hnd; cbn [res_fold] in H.
  { injection H as <-. exists []. split_and!; [done | done | set_solver | set_solver]. }
  destruct (validate_role_name v _) as [p |] eqn:Ev; cbn [mbind res_bind] in H; [| done].
  apply validate_role_name_ok in Ev as (-> & _ & _). rewrite existsb_eqb in H.
  case_bool_decide as Hs; cbn [mbind res_bind] in H; [done |].
  destruct (dhas defs p) eqn:Hd; cbn [negb mbind res_bind] in H; [| done]. apply dhas_spec in Hd.
  apply IH in H as (peers & -> & Hnd' & Hdef & Hout); [| by apply NoDup_cons].
  exists (p :: peers). split_and!; [done | | set_solver | set_solver].
  cbn [app]. by rewrite Permutation_middle.
Qed.

Lemma validate_role_def_ok defs name v :
  _validate_role_def defs (name, v) = Ok tt -> role_def_ok defs name v.
Proof.
  unfold _validate_role_def, role_def_ok. intros H.
  destruct (validate_role_name (VStr name) _) as [n |] eqn:En; cbn [mbind res_bind] in H; [| done].
  apply validate_role_name_ok in En as ([= <-] & Hre & Hres).
  destruct v as [| | | | | | d]; try done.
  destruct (allowed_keys _ d); cbn [negb] in H; [| done].
  destruct (is_bool (dget_or d "restricted" _)) eqn:Er; cbn [negb] in H; [| done].
  destruct (is_bool (dget_or d "origin" _)) eqn:Eo; cbn [negb] in H; [| done].
  destruct (dget_or d "peers" _) as [| | | | | vs |] eqn:Ep; try done.
  destruct (MAX_ROLE_PEERS <? zlen vs) eqn:El; [done |].
  destruct (_validate_peers defs vs) as [out |] eqn:Ev; cbn [mbind res_bind] in H; [| done].
  apply validate_peers_ok in Ev as (peers & -> & Hnd & Hdef & Hout); [| constructor].
  rewrite existsb_eqb in H. case_bool_decide as Hself; cbn [negb] in H; [| done].
  destruct (dget_or d "nets" _) as [| | | | | nets |]; try done.
  destruct (res_iter _ nets) as [[] |]; cbn [mbind res_bind] in H; [| done].
  match type of H with (if ?b then _ else _) = _ => destruct b; [done |] end.
  destruct (_validate_qos _ "role") as [[] |] eqn:Eq; cbn [mbind res_bind] in H; [| done].
  rewrite app_nil_r in Hnd. exists d, peers. bool_norm. unfold zlen in *. rewrite length_map in El.
  split_and!; try done. apply Hout in Hself as [? | Hn]; [done | inversion Hn].
Qed.

(** The roles section of an accepted document. *)
Record roles_ok (endpoint_ttl : Z) (roles defs role_of qos_device : dict) : Prop := {
  ok_defs_get : dget_or roles "defs" (VDict []) = VDict defs;
  ok_role_of_get : dget_or roles "role_of" (VDict []) = VDict role_of;
  ok_qos_device_get : dget_or roles "qos_device" (VDict []) = VDict qos_device;
  ok_max_roles : zlen defs <= MAX_ROLES;
  ok_defs : forall name v, (name, v) ∈ defs -> role_def_ok defs name v;
  ok_symmetric : forall a b da db, (a, VDict da) ∈ defs -> dget defs b = Some (VDict db) ->
    restricted_flag da = true -> restricted_flag db = true ->
    in_peers a b da = true -> in_peers b a db = true;
  ok_role_of : forall dev v, (dev, v) ∈ role_of -> dev <> "" /\ exists r, v = VStr r /\ r ∈ dkeys defs;
  ok_qos_default : _validate_qos (dget_or roles "qos_default" (VDict [])) "global" = Ok tt;
  ok_qos_device : forall dev v, (dev, v) ∈ qos_device -> _validate_qos v "device" = Ok tt;
  ok_qos_global : exists q, compile_values VNone [] [dict_or_empty (dget_or roles "qos_default" (VDict [])); []; []] = Ok q /\
    _validate_compiled_qos q = Ok tt;
  ok_qos_compiled : forall dev, dev ∈ dkeys qos_device \/ dev ∈ dkeys role_of ->
    exists q, compile_qos [("roles", VDict roles)] dev = Ok q /\ _validate_compiled_qos q = Ok tt /\
      forall role definition, dget role_of dev = Some (VStr role) -> dget defs role = Some (VDict definition) ->
        restricted_flag definition = true -> 3 * qos_int q "catalog_tick_s" <= endpoint_ttl }.

Lemma in_peers_list owner subject definition peers :
  dget_or definition "peers" (VList [VStr owner]) = VList (map VStr peers) ->
  in_peers owner subject definition = true <-> subject ∈ peers.
Proof.
  intros H. unfold in_peers. rewrite H, existsb_exists. split.
  - intros (v & Hin & Hv). apply list_elem_of_In, list_elem_of_fmap in Hin as (p & -> & Hp).
    cbn in Hv. by apply String.eqb_eq in Hv as ->.
  - intros Hp. exists (VStr subject). cbn. rewrite String.eqb_refl. split; [| done].
    apply list_elem_of_In, list_elem_of_fmap. eauto.
Qed.

Lemma validate_symmetry_ok defs a da :
  role_def_ok defs a (VDict da) -> _validate_symmetry defs (a, VDict da) = Ok tt ->
  forall b db, dget defs b = Some (VDict db) -> role_def_ok defs b (VDict db) ->
  restricted_flag da = true -> restricted_flag db = true ->
  in_peers a b da = true -> in_peers b a db = true.
Proof.
  intros (d & peers & [= <-] & _ & _ & _ & _ & Hp & _) Hsym b db Hb
    (d' & peers' & [= <-] & _ & _ & _ & _ & Hp' & _ & _ & Hself & _) Ha Hdb Hin.
  destruct (String.eqb_spec b a) as [-> | Hne]; [by eapply in_peers_list |].
  unfold _validate_symmetry in Hsym. change (dict_or_empty (VDict da)) with da in Hsym.
  rewrite Ha, Hp in Hsym. cbn [negb] in Hsym. apply res_iter_ok in Hsym.
  apply (in_peers_list _ _ _ _ Hp) in Hin.
  rewrite Forall_forall in Hsym. specialize (Hsym (VStr b)). cbn beta iota in Hsym.
  unfold dget_or in Hsym. rewrite Hb in Hsym. cbn [from_option id] in Hsym.
  change (dict_or_empty (VDict db)) with db in Hsym. rewrite Hdb in Hsym.
  destruct (String.eqb_spec b a); [done |]. destruct (in_peers b a db); [done |].
  discriminate Hsym. apply list_elem_of_fmap. eauto.
Qed.

Lemma validate_roles_ok ttl v :
  _validate_roles ttl v = Ok tt ->
  exists roles defs role_of qos_device, v = VDict roles /\ roles_ok ttl roles defs role_of qos_device.
Proof.
  unfold _validate_roles. intros H. destruct v as [| | | | | | roles]; try done.
  head H. head H as Edefs. head H as Emax. head H as Hdefs. head H as Hsym. head H as Erole_of.
  head H as Hrole_of. head H as Hqd. head H. head H as Eqd. head H as Hqdev. head H as Hglob.
  head H as Hglobv. head H. exists roles, d, d0, d1. split; [done |].
  units. rewrite res_iter_ok, Forall_forall in Hdefs, Hsym, Hrole_of, Hqdev.
  rewrite res_iter_ok, Forall_forall in H.
  assert (Hdok : forall name v, (name, v) ∈ d -> role_def_ok d name v).
  { intros name v Hin. by apply validate_role_def_ok, (Hdefs (name, v)). }
  constructor; try done.
  - bool_norm. lia.
  - intros a b da db Ha Hb. eapply validate_symmetry_ok; [by apply Hdok | by apply (Hsym (a, VDict da)) | done |].
    by apply Hdok, dget_elem.
  - intros dev v Hin. specialize (Hrole_of (dev, v) Hin). cbn beta iota in Hrole_of.
    head Hrole_of as Edev. head Hrole_of as Er. apply validate_role_name_ok in Er as (-> & _ & _).
    head Hrole_of as Ekn. bool_norm. apply dhas_spec in Ekn. apply String.eqb_neq in Edev. eauto.
  - intros dev v Hin. specialize (Hqdev (dev, v) Hin). cbn beta iota in Hqdev. by head Hqdev.
  - eexists. split; [exact Hglob | done].
  - intros dev Hin. specialize (H dev). cbn beta in H.
    rewrite elem_of_app, list_elem_of_filter in H.
    assert (Hd : dev ∈ dkeys d1 \/ dhas d1 dev = false /\ dev ∈ dkeys d0).
    { destruct (dhas d1 dev) eqn:E; [left; by apply dhas_spec |]. right. split; [done |].
      destruct Hin as [Hin | ?]; [| done]. apply dhas_spec in Hin. congruence. }
    specialize (H Hd). head H as Eq. head H as Ev. head H as Ef. head H as Et. units.
    eexists. split_and!; [reflexivity | done |]. intros role definition Hr Hdef Hres.
    unfold dget_or in Ef. rewrite Hr in Ef. cbn in Ef. injection Ef as <-. rewrite Hdef in Et.
    cbn [from_option id] in Et. change (dict_or_empty (VDict definition)) with definition in Et.
    rewrite Hres in Et. cbn [andb] in Et. unfold tick_too_slow in Et. lia.
Qed.

(** ** Accepted documents *)

Record document_ok (endpoint_ttl : Z) (doc acls assignments : dict) : Prop := {
  ok_revision : exists n, dget doc "revision" = Some (VInt n);
  ok_acls_get : dget doc "acls" = Some (VDict acls);
  ok_max_acls : zlen acls <= MAX_ACLS;
  ok_acls : forall na, na ∈ acls -> acl_ok na;
  ok_quarantine : exists q, dget acls RESERVED_QUARANTINE = Some q /\ acl_rules q = Some quarantine_arules;
  ok_assignments_get : dget doc "assignments" = Some (VDict assignments);
  ok_assignments : forall dev v, (dev, v) ∈ assignments -> exists n, v = VStr n /\ n ∈ dkeys acls;
  ok_quarantined : forall v, dget doc "quarantined_devices" = Some v ->
    exists m, v = VDict m /\ (forall dev p, (dev, p) ∈ m -> p = VBool true) /\ zlen m <= MAX_QUARANTINED_DEVICES;
  ok_seeder : forall v, dget doc "seeder_assignment" = Some v ->
    v = VNone \/ exists n, v = VStr n /\ n ∈ dkeys acls;
  ok_outbox : exists outbox, dget doc "operation_outbox" = Some (VList outbox) /\ zlen outbox <= OUTBOX_CAP;
  ok_roles : forall v, dget doc "roles" = Some v ->
    exists roles defs role_of qos_device, v = VDict roles /\
      roles_ok endpoint_ttl roles defs role_of qos_device }.

Lemma in_dict_true {B} v (d : list (string * B)) b :
  in_dict v d = Ok b -> b = true -> exists n, v = VStr n /\ n ∈ dkeys d.
Proof.
  unfold in_dict. destruct (hashable v); [| done]. intros [= <-] H.
  destruct v as [| | | | s | |]; try done. exists s. split; [done | by apply dhas_spec].
Qed.

Lemma quarantined_ok v :
  _validate_quarantined_devices v true = Ok tt ->
  exists m, v = VDict m /\ (forall dev p, (dev, p) ∈ m -> p = VBool true) /\ zlen m <= MAX_QUARANTINED_DEVICES.
Proof.
  unfold _validate_quarantined_devices. intros H. destruct v as [| | | | | | m]; try done.
  head H as Ep. head H as El. cbn [andb] in El. bool_norm. exists m. split_and!; [done | | done].
  intros dev p Hin. rewrite forallb_forall in Ep. specialize (Ep (dev, p)). cbn in Ep.
  destruct p as [| [] | | | | |]; cbn in Ep; try done; by discriminate Ep; apply list_elem_of_In.
Qed.

Lemma validate_document_ok ttl doc doc' :
  validate_document ttl (VDict doc) = Ok doc' ->
  doc' = doc /\ exists acls assignments, document_ok ttl doc acls assignments.
Proof.
  unfold validate_document. intros H. head H. head H as Erev. head H as Eacls. rename d into acls.
  head H as Emax.
  destruct (dget_or acls RESERVED_QUARANTINE VNone) as [| | | | | | q] eqn:Eq; try done.
  cbn [getattr_get mbind res_bind] in H. head H as Equ. bool_norm.
  head H as Hacls. head H as Eas. rename d into assignments. head H as Has. head H as Hqd.
  head H as Hseed. head H as Eout. head H as Elen. head H as Hack. head H as Hroles.
  units. injection H as <-. split; [done |]. exists acls, assignments.
  rewrite res_iter_ok, Forall_forall in Hacls. rewrite res_iter_ok, Forall_forall in Has.
  assert (Hget : forall k v, v <> VNone -> dget_or doc k VNone = v -> dget doc k = Some v).
  { intros k v Hv. unfold dget_or. by destruct (dget doc k); cbn; intros <-. }
  assert (Hq : dget acls RESERVED_QUARANTINE = Some (VDict q)).
  { unfold dget_or in Eq. by destruct (dget acls RESERVED_QUARANTINE); cbn in Eq; subst. }
  assert (Hok : forall na, na ∈ acls -> acl_ok na) by (intros na Hna; by apply validate_acl_ok, Hacls).
  constructor; try done; try (by apply Hget).
  - destruct (dget doc "revision") as [[| | n | | | |] |]; try done. by exists n.
  - exists (VDict q). split; [done |]. destruct (Hok _ (dget_elem _ _ _ Hq)) as (_ & rules & Hr & _).
    cbn [snd] in Hr. rewrite Hr. f_equal. by eapply quarantine_typed.
  - intros dev v Hin. specialize (Has (dev, v) Hin). cbn beta iota in Has. head Has as Ek. head Has as Eb.
    bool_norm. by eapply in_dict_true.
  - intros v Hv. rewrite Hv in Hqd. by apply quarantined_ok.
  - intros v Hv. unfold dget_or in Hseed. rewrite Hv in Hseed. cbn [from_option id] in Hseed.
    destruct v as [| | | | | |]; [by left | right ..];
      head Hseed as Ek; head Hseed as Eb; bool_norm; by eapply in_dict_true.
  - exists l. split; [by apply Hget |]. bool_norm. done.
  - intros v Hv. rewrite Hv in Hroles. by apply (validate_roles_ok ttl).
Qed.

(** C36: what acceptance by [validate_document] guarantees: the document is returned
    unchanged; every ACL is a bounded list of typed rules with distinct sequence
    numbers, the quarantine ACL denying everyone; device and seeder assignments name
    stored ACLs; quarantine membership is a bounded map to [True]; the outbox is
    within its cap; roles have unreserved names and peer lists without duplicates
    that contain the role itself and only defined roles; restricted roles name one
    another symmetrically; members belong to defined roles, and members of a
    restricted role poll at least three times per endpoint lifetime. *)
Theorem validate_document_sound ttl doc doc' :
  validate_document ttl (VDict doc) = Ok doc' ->
  doc' = doc /\ exists acls assignments, document_ok ttl doc acls assignments.
Proof. apply validate_document_ok. Qed.

Lemma validate_document_sound_witness :
  sample_doc = sample_doc /\ exists acls assignments, document_ok 900 sample_doc acls assignments.
Proof. apply (validate_document_sound 900 sample_doc sample_doc). vm_compute. reflexivity. Defined.
