(* ===== verification/PolicyQosValid.v ===== *)
(** * [server/peer_policy.py]: QoS bounds of accepted documents

    Validation checks the layers one by one and the compiled result for the devices
    the document names; the theorem here is what enforcement relies on: whatever the
    device, the compiled map exists and every number in it is inside its range. *)
From S2P Require Import Prelude PyVal PolicyDoc PolicySample PolicyQos PolicyRoles PolicyValid.

Definition in_range (key : string) (v : pyval) : Prop :=
  forall lo hi, dget _QOS_RANGES key = Some (lo, hi) -> exists z, v = VInt z /\ lo <= z <= hi.

Definition layer_ok (l : dict) : Prop :=
  NoDup (dkeys l) /\ forall k v, dget l k = Some v -> in_range k v.

Lemma layer_ok_nil : layer_ok [].
Proof. split; [constructor | done]. Qed.

Lemma validate_qos_layer v scope :
  _validate_qos v scope = Ok tt -> wf_val v -> exists qos, v = VDict qos /\ layer_ok qos.
Proof.
  intros H Hwf. destruct v as [| | | | | | qos]; try done. cbn [_validate_qos] in H. head H.
  apply wf_dict in Hwf as [Hnd _]. exists qos. split; [done |]. split; [done |].
  intros k v Hk lo hi Hr. apply dget_elem in Hk. rewrite res_iter_ok, Forall_forall in H.
  specialize (H (k, v) Hk). unfold _validate_qos_item in H. head H.
  destruct (String.eqb_spec k "telemetry_pause") as [-> | _]; [done |].
  destruct (String.eqb_spec k "on_stale") as [-> | _]; [done |].
  destruct v as [| | z | | | |]; try done. unfold dget_or in H. rewrite Hr in H. cbn [from_option id] in H.
  head H as Ez. bool_norm. exists z. split; [done | lia].
Qed.

Lemma last_set_elem k layers v : last_set k layers = Some v -> exists l, l ∈ layers /\ dget l k = Some v.
Proof.
  induction layers as [| l ls IH]; cbn; [done |]. destruct (last_set k ls).
  - intros [= <-]. destruct (IH eq_refl) as (x & ? & ?). exists x. split; [by right | done].
  - intros H. exists l. split; [by left | done].
Qed.

Lemma decisive_elem k layers l : decisive k layers = Some l -> l ∈ layers.
Proof.
  induction layers as [| x ls IH]; cbn; [done |]. destruct (decisive k ls).
  - intros [= <-]. right. by apply IH.
  - destruct (_ || _); [| done]. intros [= <-]. by left.
Qed.

(** The built-in table is inside the ranges and covers them. *)
Definition builtin_check (d : dict) : bool :=
  forallb (fun '(k, (lo, hi)) =>
    match dget d k with Some (VInt z) => (lo <=? z) && (z <=? hi) | _ => false end) _QOS_RANGES.

Lemma builtin_range role definition key lo hi :
  dget _QOS_RANGES key = Some (lo, hi) ->
  exists z, dget (builtin_values role definition) key = Some (VInt z) /\ lo <= z <= hi.
Proof.
  intros Hr. assert (Hc : builtin_check (builtin_values role definition) = true).
  { unfold builtin_values. destruct (_ && _); vm_compute; reflexivity. }
  apply dget_elem, list_elem_of_In in Hr. unfold builtin_check in Hc. rewrite forallb_forall in Hc.
  specialize (Hc _ Hr). cbn beta iota in Hc.
  destruct (dget (builtin_values role definition) key) as [[| | z | | | |] |]; try done.
  exists z. split; [done | lia].
Qed.

Lemma compiled_rate_le q key lo hi :
  _validate_compiled_qos q = Ok tt -> key ∈ PER_TORRENT_RATE_KEYS ->
  dget _QOS_RANGES key = Some (lo, hi) -> qos_int q key <= hi.
Proof.
  unfold _validate_compiled_qos. intros H Hk Hr. head H. rewrite res_iter_ok, Forall_forall in H.
  specialize (H key Hk). cbn beta in H. unfold dget_or in H. rewrite Hr in H. cbn [from_option id snd] in H.
  head H as E. lia.
Qed.

Lemma rate_range_lo key lo hi :
  key ∈ PER_TORRENT_RATE_KEYS -> dget _QOS_RANGES key = Some (lo, hi) -> lo = 0.
Proof.
  unfold PER_TORRENT_RATE_KEYS. intros Hk.
  repeat (apply elem_of_cons in Hk as [-> | Hk]; [by intros [= <- <-] |]). inversion Hk.
Qed.

Section compiled.
Context (role : pyval) (definition : dict) (layers : list dict) (q : dict).
Context (Hlayers : Forall layer_ok layers).
Context (Hq : compile_values role definition layers = Ok q).
Context (Hcheck : _validate_compiled_qos q = Ok tt).

#[local] Lemma compiled_merged : exists dm, merged (builtin_values role definition) layers q dm.
Proof.
  apply compile_merged; [| exact Hq]. eapply Forall_impl; [exact Hlayers |]. by intros l [? _].
Qed.

#[local] Lemma layer_range l key v : l ∈ layers -> dget l key = Some v -> in_range key v.
Proof. intros Hl. rewrite Forall_forall in Hlayers. by apply Hlayers. Qed.

Lemma scalar_range key lo hi :
  key ∉ PER_TORRENT_RATE_KEYS -> dget _QOS_RANGES key = Some (lo, hi) ->
  exists z, dget q key = Some (VInt z) /\ lo <= z <= hi.
Proof.
  intros Hk Hr. destruct compiled_merged as [dm [Hs _]]. rewrite Hs by done.
  destruct (last_set key layers) as [v |] eqn:E; [| by apply builtin_range].
  apply last_set_elem in E as (l & Hl & Hv). destruct (layer_range _ _ _ Hl Hv lo hi Hr) as (z & -> & ?). eauto.
Qed.

Lemma compiled_range key lo hi :
  dget _QOS_RANGES key = Some (lo, hi) -> exists z, dget q key = Some (VInt z) /\ lo <= z <= hi.
Proof.
  intros Hr. destruct (decide (key ∈ PER_TORRENT_RATE_KEYS)) as [Hk | Hk]; [| by apply scalar_range].
  destruct compiled_merged as [dm [_ Hm]]. specialize (Hm key Hk).
  destruct (decisive key layers) as [l |] eqn:Ed; [destruct (dget l key) as [v |] eqn:El |].
  - destruct Hm as [-> _]. destruct (layer_range l key v (decisive_elem _ _ _ Ed) El lo hi Hr) as (z & -> & ?). eauto.
  - destruct Hm as (v & Hmul & Hv & _).
    destruct (scalar_range "per_peer_bps" 0 10000000000) as (x & Hx & ?); [by_eval | done |].
    destruct (scalar_range "fanout" 1 1000) as (y & Hy & ?); [by_eval | done |].
    unfold dget_or in Hmul. rewrite Hx, Hy in Hmul. injection Hmul as <-. exists (x * y). split; [done |].
    pose proof (compiled_rate_le q key lo hi Hcheck Hk Hr) as Hle. unfold qos_int in Hle. rewrite Hv in Hle.
    rewrite (rate_range_lo key lo hi Hk Hr). nia.
  - destruct Hm as [-> _]. by apply builtin_range.
Qed.

Lemma compiled_fanout : qos_int q "fanout" <= qos_int q "max_peers".
Proof. unfold _validate_compiled_qos in Hcheck. head Hcheck as E. lia. Qed.
End compiled.

(** ** Any device of an accepted document *)

Lemma qos_layers_roles doc roles dev :
  dget doc "roles" = Some (VDict roles) ->
  _qos_layers doc dev = _qos_layers [("roles", VDict roles)] dev.
Proof. intros H. unfold _qos_layers, dget_or. by rewrite H. Qed.

(** The layers of any device are sound, whether the document names it or not. *)
Lemma qos_layers_ok ttl roles defs role_of qos_device dev :
  wf_val (VDict roles) -> roles_ok ttl roles defs role_of qos_device ->
  exists role definition layers,
    _qos_layers [("roles", VDict roles)] dev = Ok (role, definition, layers) /\ Forall layer_ok layers.
Proof.
  intros Hwf Hok. destruct Hok as [Hd Hr Hq _ Hdefs _ Hrole Hglob Hdev _ _].
  assert (Hwfd : forall k d, dget_or roles k (VDict []) = VDict d -> wf_val (VDict d)).
  { intros k d <-. auto with py. }
  destruct (validate_qos_layer _ _ Hglob) as (g & Hg & Hgok); [auto with py |].
  assert (Hdq : layer_ok (dict_or_empty (dget_or qos_device dev (VDict [])))).
  { unfold dget_or. destruct (dget qos_device dev) as [v |] eqn:E; cbn [from_option id]; [| apply layer_ok_nil].
    destruct (validate_qos_layer v "device") as (x & -> & ?); [by eapply Hdev, dget_elem | | done].
    eapply wf_dget; [exact (Hwfd _ _ Hq) | exact E]. }
  unfold _qos_layers. change (dget_or [("roles", VDict roles)] "roles" (VDict [])) with (VDict roles).
  rewrite !dict_or_empty_dict, Hd, Hr, Hq, Hg, !dict_or_empty_dict.
  assert (Hfound : exists definition,
    (let* found := dget_val defs (dget_or role_of dev VNone) in Ok (dict_or_empty (default (VDict []) found)))
      = Ok definition /\ layer_ok (dict_or_empty (dget_or definition "qos" (VDict [])))).
  { unfold dget_or at 1. destruct (dget role_of dev) as [v |] eqn:Ev; cbn [from_option id].
    2: { exists []. split; [done | apply layer_ok_nil]. }
    destruct (Hrole dev v (dget_elem _ _ _ Ev)) as (_ & r & -> & Hin). cbn.
    destruct (dget defs r) as [dv |] eqn:Er; cbn; [| exists []; split; [done | apply layer_ok_nil]].
    destruct (Hdefs r dv (dget_elem _ _ _ Er)) as (d & peers & -> & _ & _ & _ & _ & _ & _ & _ & _ & _ & Hvq).
    exists d. split; [done |]. destruct (validate_qos_layer _ _ Hvq) as (x & -> & ?); [| done].
    apply wf_dget_or; [eapply wf_dget; [exact (Hwfd _ _ Hd) | exact Er] | apply wf_empty]. }
  destruct Hfound as (definition & Hf & Hlq).
  destruct (dget_val defs _) as [found |]; cbn [mbind res_bind] in Hf |- *; [| done]. injection Hf as Hf.
  rewrite Hf. eexists _, _, _. split; [reflexivity |].
  assert (Hst : forall v, layer_ok [("on_stale", v)]).
  { intros v. split; [apply NoDup_singleton |]. intros k w. cbn [dget].
    destruct (String.eqb_spec "on_stale" k) as [<- | ?]; [| done]. intros _ lo hi Hc. by vm_compute in Hc. }
  destruct (dget definition "on_stale"); repeat (constructor; [done |]); constructor.
Qed.

Lemma compile_qos_unnamed ttl roles defs role_of qos_device dev :
  roles_ok ttl roles defs role_of qos_device -> dev ∉ dkeys qos_device -> dev ∉ dkeys role_of ->
  compile_qos [("roles", VDict roles)] dev =
  compile_values VNone [] [dict_or_empty (dget_or roles "qos_default" (VDict [])); []; []].
Proof.
  intros [Hd Hr Hq _ _ _ _ _ _ _ _] H1 H2. unfold compile_qos, _qos_layers.
  change (dget_or [("roles", VDict roles)] "roles" (VDict [])) with (VDict roles).
  rewrite !dict_or_empty_dict, Hd, Hr, Hq, !dict_or_empty_dict. apply dget_None in H1, H2.
  replace (dget_or role_of dev VNone) with VNone by (unfold dget_or; by rewrite H2).
  replace (dget_or qos_device dev (VDict [])) with (VDict []) by (unfold dget_or; by rewrite H1). done.
Qed.

Lemma validated_qos ttl doc roles dev :
  wf_val (VDict doc) -> validate_document ttl (VDict doc) = Ok doc -> dget doc "roles" = Some (VDict roles) ->
  exists role definition layers q, Forall layer_ok layers /\ compile_qos doc dev = Ok q /\
    compile_values role definition layers = Ok q /\ _validate_compiled_qos q = Ok tt.
Proof.
  intros Hwf Hv Hr. apply validate_document_ok in Hv as (_ & acls & assignments & Hok).
  destruct (ok_roles _ _ _ _ Hok _ Hr) as (r & defs & role_of & qd & [= <-] & Hroles).
  assert (Hwr : wf_val (VDict roles)) by eauto with py.
  destruct (qos_layers_ok ttl roles defs role_of qd dev Hwr Hroles) as (role & definition & layers & Hl & Hlok).
  assert (Heq : compile_qos doc dev = compile_qos [("roles", VDict roles)] dev).
  { unfold compile_qos. by rewrite (qos_layers_roles doc roles). }
  assert (Hc : exists q, compile_qos [("roles", VDict roles)] dev = Ok q /\ _validate_compiled_qos q = Ok tt).
  { destruct (decide (dev ∈ dkeys qd \/ dev ∈ dkeys role_of)) as [Hin | Hn].
    - destruct (ok_qos_compiled _ _ _ _ _ Hroles dev Hin) as (q & ? & ? & _). eauto.
    - rewrite (compile_qos_unnamed ttl roles defs role_of qd); [| done | tauto | tauto].
      apply (ok_qos_global _ _ _ _ _ Hroles). }
  destruct Hc as (q & Hq & Hcq). exists role, definition, layers, q. split_and!; [done | congruence | | done].
  unfold compile_qos in Hq. by rewrite Hl in Hq.
Qed.

(** In an accepted document every device, named by it or not, has a compiled QoS
    map in which every numeric key is an integer inside its range (the derived
    per-torrent rates included), and [fanout] never exceeds [max_peers]. *)
Theorem validated_qos_bounded ttl doc dev :
  wf_val (VDict doc) -> validate_document ttl (VDict doc) = Ok doc ->
  exists q, compile_qos doc dev = Ok q /\
    (forall key lo hi, dget _QOS_RANGES key = Some (lo, hi) ->
       exists z, dget q key = Some (VInt z) /\ lo <= z <= hi) /\
    qos_int q "fanout" <= qos_int q "max_peers".
Proof.
  intros Hwf Hv. destruct (dget doc "roles") as [rv |] eqn:Er.
  - assert (exists roles, rv = VDict roles) as [roles ->].
    { apply validate_document_ok in Hv as (_ & acls & assignments & Hok).
      destruct (ok_roles _ _ _ _ Hok _ Er) as (r & _ & _ & _ & -> & _). eauto. }
    destruct (validated_qos ttl doc roles dev Hwf Hv Er) as (role & definition & layers & q & Hl & Hq & Hc & Hck).
    exists q. split_and!; [done | by eapply compiled_range | by apply compiled_fanout].
  - exists QOS_DEFAULTS. unfold compile_qos, _qos_layers, dget_or. rewrite Er. split_and!; [done | | done].
    intros key lo hi Hr. exact (builtin_range VNone [] key lo hi Hr).
Qed.

Lemma validated_qos_bounded_witness :
  exists q, compile_qos sample_doc "e2" = Ok q /\
    (forall key lo hi, dget _QOS_RANGES key = Some (lo, hi) ->
       exists z, dget q key = Some (VInt z) /\ lo <= z <= hi) /\
    qos_int q "fanout" <= qos_int q "max_peers".
Proof. apply (validated_qos_bounded 900 sample_doc "e2"); [wf_eval | vm_compute; reflexivity]. Defined.
