(* ===== verification/PolicyPersist.v ===== *)
(** * [server/peer_policy.py]: acceptance survives the state file

    A candidate is validated in memory and read back from a file written with sorted
    keys.  The theorem here is that acceptance does not depend on the order of items
    at any depth, so that a committed document is never refused on reload. *)
From S2P Require Import Prelude PyVal JsonDump Ipv4 PolicyDoc PolicySample PolicyQos PolicyRoles PolicyValid.

(** ** Rules and ACLs *)

Lemma jeq_match_of m m' am : jeq_dicts m m' -> match_of m = Some am -> match_of m' = Some am.
Proof.
  intros H. unfold match_of. pose proof (jeq_get _ _ "type" H) as Ht. pose proof (jeq_get _ _ "value" H) as Hv.
  destruct (dget m "type") as [[| | | | t | |] |]; try done. inversion Ht as [? ? Htt |]; subst.
  apply jeq_str in Htt as ->. destruct (String.eqb t "any"); [done |].
  destruct (dget m "value") as [[| | | | s | |] |]; try done. inversion Hv as [? ? Hvv |]; subst.
  by apply jeq_str in Hvv as ->.
Qed.

Lemma jeq_rule_of v w r : jeq v w -> rule_of v = Some r -> rule_of w = Some r.
Proof.
  destruct v as [| | | | | | d]; try done. intros H Hr.
  assert (exists e, w = VDict e) as [e ->] by (inversion H; subst; [done | eauto]). cbn [rule_of] in *.
  pose proof (jeq_get _ _ "seq" H) as Hs. pose proof (jeq_get _ _ "match" H) as Hm.
  destruct (dget d "seq") as [[| | z | | | |] |]; try done. inversion Hs as [? ? Hz |]; subst.
  inversion Hz; subst. destruct (action_of (dget_or d "action" VNone)) as [b |] eqn:Ea; [| done].
  assert (dget_or e "action" VNone = dget_or d "action" VNone) as ->.
  { pose proof (jeq_get_or _ _ "action" VNone H) as Ha. destruct (dget_or d "action" VNone); try done.
    by apply jeq_str in Ha. }
  rewrite Ea. destruct (dget d "match") as [[| | | | | | m] |]; try done.
  inversion Hm as [? ? Hmm |]; subst. inversion Hmm as [| | ? m']; subst; [done |].
  destruct (match_of m) as [am |] eqn:Em; [| done]. by rewrite (jeq_match_of m m' am).
Qed.

Lemma jeq_validate_rule v w : jeq v w -> _validate_rule v = Ok tt -> _validate_rule w = Ok tt.
Proof.
  rewrite !validate_rule_iff_aux. intros H (r & Hr & Hok). exists r. split; [by eapply jeq_rule_of | done].
Qed.

Lemma jeq_seq_of v w : jeq v w -> _validate_rule v = Ok tt -> seq_of v = seq_of w.
Proof.
  intros H (r & Hr & _)%validate_rule_iff_aux. rewrite (seq_of_rule v r Hr).
  by rewrite (seq_of_rule w r (jeq_rule_of _ _ _ H Hr)).
Qed.

Lemma jeq_validate_acl n v w : jeq v w -> _validate_acl (n, v) = Ok tt -> _validate_acl (n, w) = Ok tt.
Proof.
  intros H Hv. unfold _validate_acl in *. head Hv. destruct v as [| | | | | | d]; try done.
  inversion H as [? Ha | | ? e]; subst; [done |]. cbn [getattr_get mbind res_bind] in *.
  pose proof (jeq_get_or _ _ "rules" VNone H) as Hr.
  destruct (dget_or d "rules" VNone) as [| | | | | rules |]; try done.
  destruct (jeq_list_inv _ _ Hr) as (rules' & Hr' & HF). rewrite Hr' in Hr |- *.
  rewrite <- (jeq_zlen_list _ _ Hr). head Hv. head Hv as E.
  erewrite (res_fold_mono jeq); [done | | exact HF | exact E]. cbn beta.
  intros s s' x y Hxy Hs. head Hs as Ex. destruct a0. rewrite (jeq_validate_rule x y) by done.
  rewrite <- (jeq_seq_of x y) by done. exact Hs.
Qed.

(** ** QoS maps *)

Lemma qos_item_atom scope k v : _validate_qos_item scope (k, v) = Ok tt -> atom v = true.
Proof.
  unfold _validate_qos_item. intros H. head H. destruct (String.eqb k "telemetry_pause"); [by destruct v |].
  destruct (String.eqb k "on_stale"); [| by destruct v]. by destruct v.
Qed.

Lemma jeq_atom_eq v w : jeq v w -> atom v = true -> w = v.
Proof. by inversion 1. Qed.

(** An accepted QoS map and its reordering have the same lookups. *)
Definition same_gets (d e : dict) : Prop := forall k, dget d k = dget e k.

Lemma jeq_validate_qos v w scope :
  jeq v w -> wf_val w -> _validate_qos v scope = Ok tt ->
  _validate_qos w scope = Ok tt /\ same_gets (dict_or_empty v) (dict_or_empty w).
Proof.
  intros H Hw Hv. destruct v as [| | | | | | d]; try done. inversion H as [? Ha | | ? e Hk Hg]; subst; [done |].
  cbn [_validate_qos] in *. apply wf_dict in Hw as [Hnd _].
  destruct (bool_decide (filter _ (dkeys d) = [])) eqn:Eu; [| done]. cbn [negb] in Hv. bool_norm.
  assert (filter (fun k => dhas _QOS_SCOPES k = false) (dkeys e) = []) as ->.
  { apply Permutation_nil_r. by rewrite <- Hk, Eu. }
  split.
  - eapply (jeq_iter _ _ d e); [done | done | | exact Hv]. intros k x y _ _ Hxy Hx.
    by rewrite (jeq_atom_eq x y Hxy (qos_item_atom _ _ _ Hx)).
  - intros k. cbn. specialize (Hg k). destruct (dget d k) as [x |] eqn:E; inversion Hg as [? y Hxy |]; subst; [| done].
    f_equal. symmetry. apply (jeq_atom_eq x y Hxy). rewrite res_iter_ok, Forall_forall in Hv.
    eapply qos_item_atom, Hv, dget_elem, E.
Qed.

Lemma forallb_perm {A} (f : A -> bool) l k : l ≡ₚ k -> forallb f l = forallb f k.
Proof. induction 1; cbn; [done | by rewrite IHPermutation | by rewrite !andb_assoc, (andb_comm (f y)) | congruence]. Qed.

Lemma jeq_validate_qos_state v w :
  jeq v w -> wf_val w -> _validate_qos_state v = Ok tt -> _validate_qos_state w = Ok tt.
Proof.
  intros H Hw Hv. destruct v as [| | | | | | d]; try done. inversion H as [? Ha | | ? e Hk Hg]; subst; [done |].
  cbn [_validate_qos_state] in *. rewrite <- (forallb_perm _ _ _ Hk). head Hv.
  apply wf_dict in Hw as [Hnd Hwe]. rewrite Forall_forall in Hwe.
  eapply (jeq_iter _ _ d e); [done | done | | exact Hv]. cbn beta iota. intros st x y _ Hy Hxy Hx.
  destruct x as [| | | | | | dx]; try done. inversion Hxy as [? Ha | | ? dy Hkk Hgg]; subst; [done |].
  rewrite <- (forallb_perm _ _ _ Hkk). head Hx. specialize (Hwe _ Hy). cbn [snd] in Hwe.
  apply wf_dict in Hwe as [Hndy _].
  eapply (jeq_iter _ _ dx dy); [done | done | | exact Hx]. intros k a b _ _ Hab Ha.
  unfold _validate_qos_state_item in Ha |- *. destruct a; try done. by apply jeq_atom_eq in Hab as ->.
Qed.

(** ** Compilation *)

Definition same_state (s t : effective_map * derived_map) : Prop :=
  (forall k, dget (values (fst s)) k = dget (values (fst t)) k) /\
  (forall k, dget (snd s) k = dget (snd t) k).

Lemma rate_step_same l l' src s t key :
  same_gets l l' -> same_state s t -> res_rel same_state (rate_step l src s key) (rate_step l' src t key).
Proof.
  destruct s as [e dm], t as [e' dm']. intros Hl [Hv Hd]. cbn [fst snd] in *. unfold rate_step, dhas, dget_or.
  rewrite <- !Hl, <- (Hd key). destruct (dget l key).
  { split; [done |]. cbn. intros k. by rewrite !dget_dset, Hd. }
  destruct (_ || _); [| by split]. rewrite !row_of_value. unfold dget_or. rewrite !Hv.
  destruct (py_mul _ _) as [v |]; cbn [mbind res_bind res_rel]; [| done]. split; cbn [fst snd]; intros k.
  - by rewrite !values_dset, !dget_dset, Hv.
  - by rewrite !dget_dset, Hd.
Qed.

Lemma layer_step_same l l' src s t :
  same_gets l l' -> NoDup (dkeys l) -> NoDup (dkeys l') -> same_state s t ->
  res_rel same_state (layer_step s (l, src)) (layer_step t (l', src)).
Proof.
  destruct s as [e dm], t as [e' dm']. intros Hl Hn Hn' [Hv Hd]. cbn [layer_step].
  apply (res_fold_rel same_state eq); [| | by repeat constructor].
  - intros s t x y Hst <-. by apply rate_step_same.
  - split; [| done]. cbn [fst snd] in *. intros k. rewrite !overlay_values, !dget_dupdate by done. by rewrite Hl, Hv.
Qed.

Lemma compile_values_same role d d' layers layers' q :
  restricted_flag d = restricted_flag d' ->
  Forall2 (fun l l' => same_gets l l' /\ NoDup (dkeys l) /\ NoDup (dkeys l')) layers layers' ->
  compile_values role d layers = Ok q ->
  exists q', compile_values role d' layers' = Ok q' /\ same_gets q q'.
Proof.
  intros Hr Hl. unfold compile_values, _compile_qos_layers. fold (restricted_flag d) (restricted_flag d').
  rewrite <- Hr. match goal with |- context [res_fold layer_step ?s (map _ layers')] =>
    pose proof (res_fold_rel same_state (fun x y => same_gets (fst x) (fst y) /\ NoDup (dkeys (fst x)) /\
      NoDup (dkeys (fst y)) /\ snd x = snd y) layer_step layer_step s s
      (map (fun l => (l, "builtin")) layers) (map (fun l => (l, "builtin")) layers')) as H end.
  unfold res_rel in H.
  destruct (res_fold layer_step _ (map _ layers)) as [[e dm] |], (res_fold layer_step _ (map _ layers')) as [[e' dm'] |];
    cbn [mbind res_bind]; intros Hq; try done.
  2: { destruct H; [| by split | apply Forall2_fmap; eapply Forall2_impl; [exact Hl |]; naive_solver].
    intros s t [l src] [l' src'] Hst (? & ? & ? & Heq). cbn in *. subst. by apply layer_step_same. }
  injection Hq as <-. eexists. split; [reflexivity |]. fold (values e) (values e'). intros k. destruct H as [H _]; [| by split | | done].
  - intros s t [l src] [l' src'] Hst (? & ? & ? & Heq). cbn in *. subst. by apply layer_step_same.
  - apply Forall2_fmap. eapply Forall2_impl; [exact Hl |]. naive_solver.
Qed.

Lemma compiled_qos_same q q' : same_gets q q' -> _validate_compiled_qos q = Ok tt -> _validate_compiled_qos q' = Ok tt.
Proof.
  intros H. assert (Hi : forall k, qos_int q k = qos_int q' k) by (intros k; unfold qos_int; by rewrite H).
  unfold _validate_compiled_qos. rewrite <- !Hi. destruct (_ <? _); [done |]. rewrite !res_iter_ok.
  intros Hf. eapply Forall_impl; [exact Hf |]. intros k. cbn beta. by rewrite Hi.
Qed.

(** ** Role definitions *)

Lemma jeq_restricted d e : jeq_dicts d e -> restricted_flag d = restricted_flag e.
Proof. intros H. apply jeq_truth, jeq_get_or, H. Qed.

Lemma jeq_existsb_str s l k : Forall2 jeq l k -> existsb (py_eq (VStr s)) l = existsb (py_eq (VStr s)) k.
Proof. induction 1 as [| x y l k Hxy _ IH]; cbn [existsb]; [done |]. rewrite IH. f_equal. by inversion Hxy. Qed.

Lemma jeq_in_peers owner subject d e : jeq_dicts d e -> in_peers owner subject d = in_peers owner subject e.
Proof.
  intros H. pose proof (jeq_get_or _ _ "peers" (VList [VStr owner]) H) as Hp. unfold in_peers.
  inversion Hp as [v Ha | l k HF | d1 e1]; subst; [done | by apply jeq_existsb_str |].
  by apply jeq_has, jeq_dict.
Qed.

Lemma jeq_role_name v w msg s : jeq v w -> validate_role_name v msg = Ok s -> w = v.
Proof. intros H (-> & _ & _)%validate_role_name_ok. by apply jeq_str. Qed.

Lemma jeq_strs l k : Forall2 jeq l k -> forall out seen defs defs',
  (forall p : string, dhas defs p = dhas defs' p) ->
  res_fold (fun (seen : list string) (peer : pyval) =>
    let* p := validate_role_name peer "bad peer role name" in
    raise (perr "duplicate role peer") when existsb (String.eqb p) seen ;;;
    raise (perr "peer references unknown role") when negb (dhas (B:=pyval) defs p) ;;;
    Ok (p :: seen)) seen l = Ok out ->
  res_fold (fun (seen : list string) (peer : pyval) =>
    let* p := validate_role_name peer "bad peer role name" in
    raise (perr "duplicate role peer") when existsb (String.eqb p) seen ;;;
    raise (perr "peer references unknown role") when negb (dhas (B:=pyval) defs' p) ;;;
    Ok (p :: seen)) seen k = Ok out.
Proof.
  intros HF out seen defs defs' Hd. apply (res_fold_mono jeq); [| done]. cbn beta.
  intros s s' x y Hxy H. head H as E. rewrite (jeq_role_name _ _ _ _ Hxy E), E. cbn [mbind res_bind]. by rewrite <- Hd.
Qed.

Lemma jeq_validate_role_def defs defs' n v w :
  (forall p, dhas defs p = dhas defs' p) -> jeq v w -> wf_val w ->
  _validate_role_def defs (n, v) = Ok tt -> _validate_role_def defs' (n, w) = Ok tt.
Proof.
  intros Hdefs H Hw Hv. unfold _validate_role_def in *. head Hv as En. cbn [mbind res_bind].
  destruct v as [| | | | | | d]; try done. apply jeq_dict_inv in H as (e & -> & H).
  unfold allowed_keys in *. rewrite <- (forallb_perm _ _ _ (jeq_keys _ _ H)). head Hv.
  rewrite <- (jeq_is_bool _ _ (jeq_get_or _ _ "restricted" (VBool false) H)). head Hv.
  rewrite <- (jeq_is_bool _ _ (jeq_get_or _ _ "origin" (VBool true) H)). head Hv.
  pose proof (jeq_get_or _ _ "peers" (VList [VStr n]) H) as Hp.
  destruct (dget_or d "peers" _) as [| | | | | ps |]; try done.
  destruct (jeq_list_inv _ _ Hp) as (ps' & Hp' & HF). rewrite Hp' in Hp |- *. rewrite <- (jeq_zlen_list _ _ Hp). head Hv.
  head Hv as Eps. unfold _validate_peers in *. rewrite (jeq_strs _ _ HF _ _ _ _ Hdefs Eps). cbn [mbind res_bind].
  head Hv. pose proof (jeq_get_or _ _ "nets" (VList []) H) as Hnets.
  destruct (dget_or d "nets" _) as [| | | | | nets |]; try done.
  destruct (jeq_list_inv _ _ Hnets) as (nets' & -> & HFn). head Hv as Enets. destruct a1.
  assert (res_iter (fun net => let* _ := validate_role_net net in Ok tt) nets' = Ok tt) as ->.
  { clear -HFn Enets. rewrite res_iter_ok in Enets |- *. induction HFn as [| x y l k Hxy _ IH]; [constructor |].
    apply Forall_cons in Enets as [Hx Hl]. constructor; [| by apply IH].
    destruct x; try done. by apply jeq_str in Hxy as ->. }
  cbn [mbind res_bind].
  assert (match dget e "on_stale" with Some v => negb (in_strs v ["keep"; "defaults"]) | None => false end =
    match dget d "on_stale" with Some v => negb (in_strs v ["keep"; "defaults"]) | None => false end) as ->.
  { pose proof (jeq_get _ _ "on_stale" H) as Hs. inversion Hs as [x y Hxy |]; [| done].
    by rewrite (jeq_in_strs _ _ _ Hxy). }
  head Hv. head Hv as Eq. destruct a1.
  rewrite (proj1 (jeq_validate_qos _ _ "role" (jeq_get_or _ _ "qos" (VDict []) H) (wf_dget_or _ _ _ Hw wf_empty) Eq)).
  cbn [mbind res_bind]. eapply jeq_validate_qos_state; [by apply jeq_get_or | auto with py | exact Hv].
Qed.

Lemma jeq_validate_symmetry defs defs' n v w :
  jeq_dicts defs defs' -> jeq v w -> _validate_symmetry defs (n, v) = Ok tt -> _validate_symmetry defs' (n, w) = Ok tt.
Proof.
  intros Hdefs H Hv. unfold _validate_symmetry in *. apply jeq_dict_or_empty in H.
  rewrite <- (jeq_restricted _ _ H). destruct (negb (restricted_flag (dict_or_empty v))); [done |].
  pose proof (jeq_get_or _ _ "peers" (VList [VStr n]) H) as Hp.
  assert (HF : Forall2 jeq (match dget_or (dict_or_empty v) "peers" (VList [VStr n]) with VList l => l | _ => [] end)
    (match dget_or (dict_or_empty w) "peers" (VList [VStr n]) with VList l => l | _ => [] end)).
  { revert Hp. generalize (dget_or (dict_or_empty v) "peers" (VList [VStr n])), (dget_or (dict_or_empty w) "peers" (VList [VStr n])).
    intros a b Hp. inversion Hp as [x Ha | |]; subst; [by destruct b | done | constructor]. }
  rewrite res_iter_ok in Hv |- *. clear Hp H. induction HF as [| x y l k Hxy _ IH]; [constructor |].
  apply Forall_cons in Hv as [Hx Hl]. constructor; [| by apply IH]. clear IH Hl.
  inversion Hxy as [u Ha | |]; subst; [| done | done]. destruct y; try done.
  pose proof (jeq_dict_or_empty _ _ (jeq_get_or _ _ s VNone Hdefs)) as Hpd.
  by rewrite <- (jeq_restricted _ _ Hpd), <- (jeq_in_peers _ _ _ _ Hpd).
Qed.

(** ** The role section *)

(** The layers of a definition, global map first. *)
Lemma on_stale_layers d e :
  jeq_dicts d e -> (forall v, dget d "on_stale" = Some v -> atom v = true) ->
  Forall2 (fun l l' => same_gets l l' /\ NoDup (dkeys l) /\ NoDup (dkeys l'))
    (match dget d "on_stale" with Some v => [[("on_stale", v)]] | None => [] end)
    (match dget e "on_stale" with Some v => [[("on_stale", v)]] | None => [] end).
Proof.
  intros H Ha. pose proof (jeq_get _ _ "on_stale" H) as Hs.
  destruct (dget d "on_stale") as [v |]; inversion Hs as [? w Hvw |]; subst; [| constructor].
  rewrite (jeq_atom_eq v w Hvw) by (by apply Ha). repeat constructor; try apply not_elem_of_nil.
Qed.

Lemma role_def_stale defs n d v :
  _validate_role_def defs (n, VDict d) = Ok tt -> dget d "on_stale" = Some v -> atom v = true.
Proof.
  unfold _validate_role_def. intros H Hs. head H. do 3 head H. head H. do 3 head H. head H. head H.
  rewrite Hs in H. head H as E. destruct v; done.
Qed.

Lemma layer_same v w scope :
  jeq v w -> wf_val v -> wf_val w -> _validate_qos v scope = Ok tt ->
  same_gets (dict_or_empty v) (dict_or_empty w) /\ NoDup (dkeys (dict_or_empty v)) /\ NoDup (dkeys (dict_or_empty w)).
Proof.
  intros H Hwv Hww Hv. split; [by eapply jeq_validate_qos |].
  apply wf_dict_or_empty, wf_dict in Hwv as [? _], Hww as [? _]. done.
Qed.

Lemma nil_same : same_gets [] [] /\ NoDup (dkeys ([] : dict)) /\ NoDup (dkeys ([] : dict)).
Proof. repeat constructor. Qed.

Lemma section_dict roles roles' k d :
  jeq_dicts roles roles' -> wf_val (VDict roles) -> wf_val (VDict roles') ->
  dget_or roles k (VDict []) = VDict d ->
  exists e, dget_or roles' k (VDict []) = VDict e /\ jeq_dicts d e /\ wf_val (VDict d) /\ wf_val (VDict e).
Proof.
  intros H Hw Hw' Hd. pose proof (jeq_get_or _ _ k (VDict []) H) as Hk. rewrite Hd in Hk.
  destruct (jeq_dict_inv _ _ Hk) as (e & He & Hde). exists e. split_and!; [done | done | |].
  - rewrite <- Hd. auto with py.
  - rewrite <- He. auto with py.
Qed.

(** The compiled map of a device is the same from the reordered section. *)
Lemma compile_qos_same ttl roles roles' defs role_of qd dev q :
  jeq_dicts roles roles' -> wf_val (VDict roles) -> wf_val (VDict roles') ->
  roles_ok ttl roles defs role_of qd -> (forall nv, nv ∈ defs -> _validate_role_def defs nv = Ok tt) ->
  compile_qos [("roles", VDict roles)] dev = Ok q ->
  exists q', compile_qos [("roles", VDict roles')] dev = Ok q' /\ same_gets q q'.
Proof.
  intros H Hw Hw' [Hd Hr Hq _ Hdefs _ Hrole Hglob Hdev _ _] Hdv Hc.
  destruct (section_dict _ _ _ _ H Hw Hw' Hd) as (defs' & Hd' & Hjd & Hwd & Hwd').
  destruct (section_dict _ _ _ _ H Hw Hw' Hr) as (rof' & Hr' & Hjr & Hwr & Hwr').
  destruct (section_dict _ _ _ _ H Hw Hw' Hq) as (qd' & Hq' & Hjq & Hwq & Hwq').
  assert (Hg : same_gets (dict_or_empty (dget_or roles "qos_default" (VDict []))) (dict_or_empty (dget_or roles' "qos_default" (VDict []))) /\
    NoDup (dkeys (dict_or_empty (dget_or roles "qos_default" (VDict [])))) /\
    NoDup (dkeys (dict_or_empty (dget_or roles' "qos_default" (VDict []))))).
  { eapply layer_same; [by apply jeq_get_or | auto with py | auto with py | exact Hglob]. }
  assert (Hdq : same_gets (dict_or_empty (dget_or qd dev (VDict []))) (dict_or_empty (dget_or qd' dev (VDict []))) /\
    NoDup (dkeys (dict_or_empty (dget_or qd dev (VDict [])))) /\ NoDup (dkeys (dict_or_empty (dget_or qd' dev (VDict []))))).
  { pose proof (jeq_get _ _ dev Hjq) as Hj. unfold dget_or.
    destruct (dget qd dev) as [v |] eqn:E, (dget qd' dev) as [w |] eqn:E'; inversion Hj as [? ? Hvw |]; subst; [| apply nil_same].
    eapply layer_same; [exact Hvw | exact (wf_dget _ _ _ Hwq E) | exact (wf_dget _ _ _ Hwq' E') | by eapply Hdev, dget_elem]. }
  unfold compile_qos, _qos_layers in *.
  change (dget_or [("roles", VDict roles)] "roles" (VDict [])) with (VDict roles) in Hc.
  change (dget_or [("roles", VDict roles')] "roles" (VDict [])) with (VDict roles').
  change (dict_or_empty (VDict ?d)) with d in *. rewrite Hd, Hr, Hq in Hc. rewrite Hd', Hr', Hq'.
  change (dict_or_empty (VDict ?d)) with d in *.
  assert (Hrv : dget_or rof' dev VNone = dget_or role_of dev VNone /\ hashable (dget_or role_of dev VNone) = true).
  { pose proof (jeq_get _ _ dev Hjr) as Hj. unfold dget_or.
    destruct (dget role_of dev) as [v |] eqn:E, (dget rof' dev) as [w |]; inversion Hj as [? ? Hvw |]; subst; [| done].
    destruct (Hrole dev v (dget_elem _ _ _ E)) as (_ & r & -> & _). by apply jeq_str in Hvw as ->. }
  destruct Hrv as [-> Hh]. unfold dget_val in *. rewrite Hh in Hc |- *. cbn [mbind res_bind] in *.
  set (fd := match dget_or role_of dev VNone with VStr s => dget defs s | _ => None end) in *.
  set (fe := match dget_or role_of dev VNone with VStr s => dget defs' s | _ => None end) in *.
  assert (Hf : exists d e, dict_or_empty (default (VDict []) fd) = d /\ dict_or_empty (default (VDict []) fe) = e /\
    jeq_dicts d e /\ wf_val (VDict d) /\ wf_val (VDict e) /\ _validate_qos (dget_or d "qos" (VDict [])) "role" = Ok tt /\
    forall v, dget d "on_stale" = Some v -> atom v = true).
  { subst fd fe.
    assert (Hnil : exists d e, [] = d /\ [] = e /\ jeq_dicts d e /\ wf_val (VDict d) /\ wf_val (VDict e) /\
      _validate_qos (dget_or d "qos" (VDict [])) "role" = Ok tt /\ forall v, dget d "on_stale" = Some v -> atom v = true).
    { exists [], []. split_and!; [done | done | apply jeq_refl | apply wf_empty | apply wf_empty | done | done]. }
    destruct (dget_or role_of dev VNone) as [| | | | s | |]; try exact Hnil.
    pose proof (jeq_get _ _ s Hjd) as Hj.
    destruct (dget defs s) as [v |] eqn:E, (dget defs' s) as [w |] eqn:E'; inversion Hj as [? ? Hvw |]; subst;
      [| exact Hnil].
    destruct (Hdefs s v (dget_elem _ _ _ E)) as (d & peers & -> & _ & _ & _ & _ & _ & _ & _ & _ & _ & Hvq).
    destruct (jeq_dict_inv _ _ Hvw) as (e & -> & Hde). exists d, e.
    split_and!; try done; [exact (wf_dget _ _ _ Hwd E) | exact (wf_dget _ _ _ Hwd' E') |].
    intros v. eapply role_def_stale, Hdv, dget_elem, E. }
  destruct Hf as (d & e & Efd & Efe & Hde & Hwdd & Hwee & Hvq & Hst). rewrite Efd in Hc. rewrite Efe.
  eapply compile_values_same; [by apply jeq_restricted | | exact Hc].
  assert (Hrq := layer_same _ _ _ (jeq_get_or _ _ "qos" (VDict []) Hde) (wf_dget_or _ _ _ Hwdd wf_empty) (wf_dget_or _ _ _ Hwee wf_empty) Hvq).
  pose proof (on_stale_layers d e Hde Hst) as Hos.
  destruct (dget d "on_stale"), (dget e "on_stale"); inversion Hos; subst; repeat (constructor; [done |]); constructor.
Qed.

(** The loop that checks the compiled map of every role. *)
Lemma role_layers_same roles roles' d e :
  jeq_dicts roles roles' -> wf_val (VDict roles) -> wf_val (VDict roles') ->
  _validate_qos (dget_or roles "qos_default" (VDict [])) "global" = Ok tt ->
  jeq_dicts d e -> wf_val (VDict d) -> wf_val (VDict e) ->
  _validate_qos (dget_or d "qos" (VDict [])) "role" = Ok tt ->
  (forall v, dget d "on_stale" = Some v -> atom v = true) ->
  Forall2 (fun l l' => same_gets l l' /\ NoDup (dkeys l) /\ NoDup (dkeys l'))
    ([dict_or_empty (dget_or roles "qos_default" (VDict [])); dict_or_empty (dget_or d "qos" (VDict []))] ++
       match dget d "on_stale" with Some v => [[("on_stale", v)]] | None => [] end)
    ([dict_or_empty (dget_or roles' "qos_default" (VDict [])); dict_or_empty (dget_or e "qos" (VDict []))] ++
       match dget e "on_stale" with Some v => [[("on_stale", v)]] | None => [] end).
Proof.
  intros H Hw Hw' Hg Hde Hd He Hq Hst. apply Forall2_app; [| by apply on_stale_layers].
  constructor; [| constructor; [| constructor]].
  - eapply layer_same; [by apply jeq_get_or | auto with py | auto with py | exact Hg].
  - eapply layer_same; [by apply jeq_get_or | auto with py | auto with py | exact Hq].
Qed.

Lemma jeq_validate_roles ttl v w :
  jeq v w -> wf_val v -> wf_val w -> _validate_roles ttl v = Ok tt -> _validate_roles ttl w = Ok tt.
Proof.
  intros H Hw Hw' Hv. destruct (validate_roles_ok _ _ Hv) as (roles & defs & role_of & qd & -> & Hok).
  destruct (jeq_dict_inv _ _ H) as (roles' & -> & _). pose proof Hok as [Hd Hr Hq _ Hdefs _ Hrole Hglob Hdev _ Hcomp].
  destruct (section_dict _ _ _ _ H Hw Hw' Hd) as (defs' & Hd' & Hjd & Hwd & Hwd').
  destruct (section_dict _ _ _ _ H Hw Hw' Hr) as (rof' & Hr' & Hjr & Hwr & Hwr').
  destruct (section_dict _ _ _ _ H Hw Hw' Hq) as (qd' & Hq' & Hjq & Hwq & Hwq').
  assert (Hnd : forall d, wf_val (VDict d) -> NoDup (dkeys d)) by (by intros d [? _]%wf_dict).
  assert (Hel : forall d k x, wf_val (VDict d) -> (k, x) ∈ d -> wf_val x).
  { intros d k x [_ Hf]%wf_dict Hin. rewrite Forall_forall in Hf. exact (Hf _ Hin). }
  unfold _validate_roles in Hv |- *. unfold allowed_keys at 1 in Hv. unfold allowed_keys at 1.
  rewrite <- (forallb_perm _ _ _ (jeq_keys _ _ H)). head Hv. rewrite Hd in Hv. rewrite Hd'.
  rewrite <- (jeq_zlen _ _ Hjd). head Hv. head Hv as Edef. units. rewrite res_iter_ok in Edef.
  erewrite (jeq_iter _ (_validate_role_def defs') defs defs'); [cbn [mbind res_bind] | done | auto | |]; cycle 1.
  { intros n x y _ Hy Hxy. apply jeq_validate_role_def; [| done | exact (Hel _ _ _ Hwd' Hy)]. intros p. by apply jeq_has. }
  { by apply res_iter_ok. }
  head Hv as Esym. units.
  erewrite (jeq_iter _ (_validate_symmetry defs') defs defs'); [cbn [mbind res_bind] | done | auto | | exact Esym]; cycle 1.
  { intros n x y _ _ Hxy. by apply jeq_validate_symmetry. }
  rewrite Hr in Hv. rewrite Hr'. head Hv as Erof. units.
  erewrite (jeq_iter _ _ role_of rof'); [cbn [mbind res_bind] | done | auto | | exact Erof]; cycle 1.
  { cbn beta iota. intros dev x y _ _ Hxy Hx. head Hx. head Hx as Er.
    rewrite (jeq_role_name _ _ _ _ Hxy Er), Er. cbn [mbind res_bind]. by rewrite <- (jeq_has _ _ _ Hjd). }
  head Hv as Eg. units.
  rewrite (proj1 (jeq_validate_qos _ _ "global" (jeq_get_or _ _ "qos_default" (VDict []) H) ltac:(auto with py) Eg)).
  cbn [mbind res_bind]. head Hv as Es. units.
  rewrite (jeq_validate_qos_state _ _ (jeq_get_or _ _ "qos_state_default" (VDict []) H) ltac:(auto with py) Es).
  cbn [mbind res_bind]. rewrite Hq in Hv. rewrite Hq'. head Hv as Eqd. units.
  erewrite (jeq_iter _ _ qd qd'); [cbn [mbind res_bind] | done | auto | | exact Eqd]; cycle 1.
  { cbn beta iota. intros dev x y _ Hy Hxy Hx. rewrite <- (jeq_is_dict _ _ Hxy). head Hx.
    apply (jeq_validate_qos x y "device" Hxy); [exact (Hel _ _ _ Hwq' Hy) | done]. }
  head Hv as Egl. head Hv as Eglv. units.
  destruct (compile_values_same VNone [] [] [dict_or_empty (dget_or roles "qos_default" (VDict [])); []; []]
    [dict_or_empty (dget_or roles' "qos_default" (VDict [])); []; []] a) as (gq & -> & Hgq); [done | | done |].
  { constructor; [| repeat (constructor; [apply nil_same |]); constructor].
    eapply layer_same; [by apply jeq_get_or | auto with py | auto with py | exact Eg]. }
  cbn [mbind res_bind]. rewrite (compiled_qos_same _ _ Hgq Eglv). cbn [mbind res_bind].
  head Hv as Ecd. units.
  erewrite (jeq_iter _ _ defs defs'); [cbn [mbind res_bind] | done | auto | | exact Ecd]; cycle 1.
  { cbn beta iota. intros n x y Hx Hy Hxy Hc. rewrite Forall_forall in Edef.
    destruct (Hdefs n x Hx) as (d & peers & -> & _ & _ & _ & _ & _ & _ & _ & _ & _ & Hvq).
    destruct (jeq_dict_inv _ _ Hxy) as (e & -> & Hde). change (dict_or_empty (VDict ?d)) with d in *.
    head Hc as Eq. head Hc as Ev. units. head Hc as Et.
    destruct (compile_values_same (VStr n) d e _ _ _ (jeq_restricted _ _ Hde)
      (role_layers_same roles roles' d e H Hw Hw' Eg Hde (Hel _ _ _ Hwd Hx) (Hel _ _ _ Hwd' Hy) Hvq
        (fun v => role_def_stale defs n d v (Edef _ Hx))) Eq) as (q' & -> & Hqq).
    cbn [mbind res_bind]. rewrite (compiled_qos_same _ _ Hqq Ev). cbn [mbind res_bind].
    rewrite <- (jeq_restricted _ _ Hde). unfold qos_int in *. rewrite <- Hqq. by rewrite Et. }
  rewrite res_iter_ok, Forall_forall in Hv |- *. intros dev Hin.
  assert (Hin' : dev ∈ dkeys qd ++ filter (fun k => dhas qd k = false) (dkeys role_of)).
  { rewrite elem_of_app, list_elem_of_filter in Hin |- *.
    rewrite <- (jeq_keys _ _ Hjq), <- (jeq_keys _ _ Hjr), <- (jeq_has _ _ _ Hjq) in Hin. done. }
  specialize (Hv dev Hin'). cbn beta in Hv. head Hv as Eq. head Hv as Ev. units. head Hv as Ef. head Hv as Et.
  rewrite Forall_forall in Edef.
  destruct (compile_qos_same ttl roles roles' defs role_of qd dev _ H Hw Hw' Hok Edef Eq) as (q' & -> & Hqq).
  cbn [mbind res_bind]. rewrite (compiled_qos_same _ _ Hqq Ev). cbn [mbind res_bind].
  assert (Hfound : exists f', dget_val defs' (dget_or rof' dev VNone) = Ok f' /\
    restricted_flag (dict_or_empty (default (VDict []) f')) = restricted_flag (dict_or_empty (default (VDict []) a1))).
  { pose proof (jeq_get_or _ _ dev VNone Hjr) as Hrv. unfold dget_val in Ef |- *.
    destruct (hashable (dget_or role_of dev VNone)) eqn:Eh; [| done]. injection Ef as <-.
    rewrite <- (jeq_hashable _ _ Hrv Eh), Eh. eexists. split; [reflexivity |].
    destruct (dget_or role_of dev VNone); try done. pose proof (jeq_get _ _ s Hjd) as Hj.
    inversion Hj as [? ? Hxy |]; [| done]. symmetry. by apply jeq_restricted, jeq_dict_or_empty. }
  destruct Hfound as (f' & -> & Hres). cbn [mbind res_bind]. rewrite Hres. unfold qos_int in *. rewrite <- Hqq. by rewrite Et.
Qed.

(** ** The document *)

Lemma jeq_in_dict v w (d e : dict) b : jeq v w -> jeq_dicts d e -> in_dict v d = Ok b -> in_dict w e = Ok b.
Proof.
  intros H Hde. unfold in_dict. destruct (hashable v) eqn:E; [| done]. rewrite <- (jeq_hashable _ _ H E), E.
  intros [= <-]. f_equal. destruct v; try done. symmetry. by apply jeq_has.
Qed.

Lemma jeq_quarantined v w b :
  jeq v w -> wf_val w -> _validate_quarantined_devices v b = Ok tt -> _validate_quarantined_devices w b = Ok tt.
Proof.
  intros H Hw Hv. destruct v as [| | | | | | d]; try done. destruct (jeq_dict_inv _ _ H) as (e & -> & _).
  cbn [_validate_quarantined_devices] in *. rewrite <- (jeq_zlen _ _ H). head Hv as Ep. apply wf_dict in Hw as [Hnd _].
  assert (forallb (fun kv => is_true (snd kv)) e = true) as ->; [| done]. bool_norm.
  rewrite forallb_forall in Ep |- *. intros [k y] Hin. apply list_elem_of_In, dget_Some in Hin; [| done].
  destruct (jeq_get_Some e d k y (jeq_sym _ _ H) Hin) as (x & Hx & Hyx).
  apply dget_elem, list_elem_of_In in Hx. specialize (Ep _ Hx). cbn [snd] in *.
  destruct x; try done. by inversion Hyx; subst.
Qed.

Lemma jeq_num_eq v w z : jeq v w -> py_eq v (VInt z) = py_eq w (VInt z).
Proof. by inversion 1. Qed.

Lemma jeq_is_true v w : jeq v w -> is_true v = is_true w.
Proof. by inversion 1. Qed.

Lemma jeq_validate_document ttl doc doc' :
  jeq_dicts doc doc' -> wf_val (VDict doc) -> wf_val (VDict doc') ->
  validate_document ttl (VDict doc) = Ok doc -> validate_document ttl (VDict doc') = Ok doc'.
Proof.
  intros H Hw Hw' Hv. unfold validate_document in *.
  rewrite <- (jeq_num_eq _ _ _ (jeq_get_or _ _ "schema" VNone H)). head Hv.
  assert (match dget doc' "revision" with Some (VInt _) => true | _ => false end =
    match dget doc "revision" with Some (VInt _) => true | _ => false end) as ->.
  { pose proof (jeq_get _ _ "revision" H) as Hr. inversion Hr as [x y Hxy |]; [| done]. by inversion Hxy. }
  head Hv. pose proof (jeq_get_or _ _ "acls" VNone H) as Ha.
  pose proof (wf_dget_or _ "acls" VNone Hw I) as Hwa. pose proof (wf_dget_or _ "acls" VNone Hw' I) as Hwa'.
  destruct (dget_or doc "acls" VNone) as [| | | | | | acls]; try done.
  destruct (jeq_dict_inv _ _ Ha) as (acls' & Ea & _). rewrite Ea in *. rewrite <- (jeq_zlen _ _ Ha). head Hv.
  pose proof (jeq_get_or _ _ RESERVED_QUARANTINE VNone Ha) as Hq.
  pose proof (wf_dget_or _ RESERVED_QUARANTINE VNone Hwa I) as Hwq.
  pose proof (wf_dget_or _ RESERVED_QUARANTINE VNone Hwa' I) as Hwq'.
  destruct (dget_or acls RESERVED_QUARANTINE VNone) as [| | | | | | q]; try done.
  destruct (jeq_dict_inv _ _ Hq) as (q' & Eq & _). rewrite Eq in *. cbn [getattr_get mbind res_bind] in *.
  rewrite <- (jeq_is_true _ _ (jeq_get_or _ _ "reserved" VNone Hq)).
  destruct (negb (is_true (dget_or q "reserved" VNone)) || _) eqn:Equ in Hv; [done |]. bool_norm. rewrite H0.
  rewrite (jeq_py_eq _ _ _ (jeq_get_or _ _ "rules" VNone Hq) (wf_dget_or _ _ VNone Hwq I) (wf_dget_or _ _ VNone Hwq' I) H1).
  cbn [negb orb]. head Hv as Eacls. units.
  erewrite (jeq_iter _ _ acls acls'); [cbn [mbind res_bind] | done | by apply wf_dict in Hwa' as [? _] | | exact Eacls]; cycle 1.
  { intros n x y _ _ Hxy. by apply jeq_validate_acl. }
  pose proof (jeq_get_or _ _ "assignments" VNone H) as Has.
  pose proof (wf_dget_or _ "assignments" VNone Hw' I) as Hwas'.
  destruct (dget_or doc "assignments" VNone) as [| | | | | | asg]; try done.
  destruct (jeq_dict_inv _ _ Has) as (asg' & Eas & _). rewrite Eas in *. head Hv as Easg. units.
  erewrite (jeq_iter _ _ asg asg'); [cbn [mbind res_bind] | done | by apply wf_dict in Hwas' as [? _] | | exact Easg]; cycle 1.
  { cbn beta iota. intros dev x y _ _ Hxy Hx. head Hx as Ei. by rewrite (jeq_in_dict _ _ _ _ _ Hxy Ha Ei). }
  head Hv as Eqd. units.
  assert (match dget doc' "quarantined_devices" with Some qd => _validate_quarantined_devices qd true | None => Ok tt end = Ok tt) as ->.
  { pose proof (jeq_get _ _ "quarantined_devices" H) as Hj.
    destruct (dget doc "quarantined_devices"), (dget doc' "quarantined_devices") eqn:E'; inversion Hj as [? ? Hxy |]; subst; [| done].
    eapply jeq_quarantined; [exact Hxy | exact (wf_dget _ _ _ Hw' E') | done]. }
  cbn [mbind res_bind]. head Hv as Eseed. units.
  pose proof (jeq_get_or _ _ "seeder_assignment" VNone H) as Hs.
  assert (match dget_or doc' "seeder_assignment" VNone with
    | VNone => Ok tt
    | seeder => let* known := in_dict seeder acls' in raise (perr "seeder assignment to unknown acl") when negb known ;;; Ok tt
    end = Ok tt) as ->.
  { revert Eseed Hs. generalize (dget_or doc "seeder_assignment" VNone), (dget_or doc' "seeder_assignment" VNone).
    intros x y Hx Hxy. destruct x; inversion Hxy; subst; try done; head Hx as Ei; by rewrite (jeq_in_dict _ _ _ _ _ Hxy Ha Ei). }
  cbn [mbind res_bind]. pose proof (jeq_get_or _ _ "operation_outbox" VNone H) as Ho.
  destruct (dget_or doc "operation_outbox" VNone) as [| | | | | ob |]; try done.
  destruct (jeq_list_inv _ _ Ho) as (ob' & Eo & _). rewrite Eo in Ho |- *. rewrite <- (jeq_zlen_list _ _ Ho). head Hv.
  head Hv as Eack. units.
  assert (dget_or doc' "operation_ack_epoch" VNone = dget_or doc "operation_ack_epoch" VNone) as ->.
  { pose proof (jeq_get_or _ _ "operation_ack_epoch" VNone H) as Hk.
    destruct (dget_or doc "operation_ack_epoch" VNone); try done; by inversion Hk. }
  rewrite Eack. cbn [mbind res_bind]. head Hv as Er. units.
  assert (match dget doc' "roles" with Some roles => _validate_roles ttl roles | None => Ok tt end = Ok tt) as ->; [| done].
  pose proof (jeq_get _ _ "roles" H) as Hj.
  destruct (dget doc "roles") as [x |] eqn:Ex, (dget doc' "roles") as [y |] eqn:Ey; inversion Hj as [? ? Hxy |]; subst; [| done].
  eapply jeq_validate_roles; [exact Hxy | exact (wf_dget _ _ _ Hw Ex) | exact (wf_dget _ _ _ Hw' Ey) | done].
Qed.

(** The document a sorted dump of [doc] reads back as. *)
Definition persisted (doc : dict) : dict := dict_or_empty (sort_keys (VDict doc)).

(** A document that passes validation also passes it after being written with
    sorted keys and read back, at every depth of the document: a committed candidate
    is never refused, or replaced by the last known good one, on reload. *)
Theorem persisted_accepted ttl doc :
  wf_val (VDict doc) -> validate_document ttl (VDict doc) = Ok doc ->
  validate_document ttl (sort_keys (VDict doc)) = Ok (persisted doc).
Proof.
  intros Hwf Hv. change (sort_keys (VDict doc)) with (VDict (persisted doc)).
  eapply jeq_validate_document; [| exact Hwf | | exact Hv].
  - exact (jeq_sort_keys _ Hwf).
  - exact (wf_sort_keys _ Hwf).
Qed.

Lemma persisted_accepted_witness :
  persisted sample_doc <> sample_doc /\
  validate_document 900 (sort_keys (VDict sample_doc)) = Ok (persisted sample_doc).
Proof.
  split; [by vm_compute |]. apply persisted_accepted; [wf_eval | vm_compute; reflexivity].
Defined.
