(* ===== verification/PolicyEval.v ===== *)
(** * [server/peer_policy.py]: the evaluator

    Virtual role ACLs, the compiled role view, the binding of a principal to one
    stored or virtual ACL, first-match evaluation and the mutual-permit decision.
    The evaluator is modelled on arbitrary documents, with the exceptions malformed
    ones raise; on accepted documents it refines a typed first-match specification. *)
From S2P Require Import Prelude PyVal Ipv4 PolicyDoc PolicySample PolicyQos PolicyRoles PolicyValid.

(** ** Virtual role ACLs *)

Definition deny_any_rule : pyval :=
  VDict [("seq", VInt 40); ("action", VStr "deny"); ("match", VDict [("type", VStr "any")])].
Definition permit_role_rule (seq : Z) (role : pyval) : pyval :=
  VDict [("seq", VInt seq); ("action", VStr "permit");
         ("match", VDict [("type", VStr "role"); ("value", role)])].
Definition permit_seeder_rule : pyval :=
  VDict [("seq", VInt 20); ("action", VStr "permit");
         ("match", VDict [("type", VStr "service"); ("value", VStr "seeder")])].

(** [for x in v]: lists and dicts; other values are not iterated over here. *)
Definition iter_val (v : pyval) : res (list pyval) :=
  match v with
  | VList l => Ok l
  | VDict d => Ok (map VStr (dkeys d))
  | _ => Err (TypeError "not iterable")
  end.

Definition _virtual_role_acl (name : string) (definition : dict) (unknown : bool) : res dict :=
  if unknown then
    Ok [("virtual", VBool true); ("role", VStr name); ("role_unknown", VBool true);
        ("rules", VList [deny_any_rule])]
  else
    let rules := [permit_role_rule 10 (VStr name)] in
    let rules :=
      if truth (dget_or definition "origin" (VBool true)) then rules ++ [permit_seeder_rule] else rules in
    let* peers := iter_val (dget_or definition "peers" (VList [VStr name])) in
    let rules :=
      rules ++ map (permit_role_rule 30) (filter (fun peer => py_eq peer (VStr name) = false) peers) in
    let rules := rules ++ [deny_any_rule] in
    Ok [("virtual", VBool true); ("role", VStr name); ("role_unknown", VBool false); ("rules", VList rules)].

(** ** The compiled view *)

Record CompiledRoles := {
  acl_by_role : list (string * dict);
  role_of : dict;
  restricted : list string;
  sorted_rules : list (string * list pyval);
  members_by_role : list (string * list string) }.

(** [rule.get("seq", 0)] as a sort key: the numbers compare by value, strings as
    strings; keys of different kinds do not compare. *)
Definition seq_key (rule : pyval) : res pyval := getattr_get rule "seq" (VInt 0).

Definition is_num (v : pyval) : bool := match num_of v with Some FNan | None => false | Some _ => true end.
Definition num_le (a b : pyval) : bool :=
  match num_of a, num_of b with Some f, Some g => num_leb f g | _, _ => true end.
Definition strv_le (a b : pyval) : bool :=
  match a, b with VStr s, VStr t => str_leb s t | _, _ => true end.

Definition sort_keyed (keyed : list (pyval * pyval)) : res (list (pyval * pyval)) :=
  match keyed with
  | [] | [_] => Ok keyed
  | _ =>
      if forallb (fun kr => is_num (fst kr)) keyed then Ok (sort_by (fun a b => num_le (fst a) (fst b)) keyed)
      else if forallb (fun kr => is_str (fst kr)) keyed then Ok (sort_by (fun a b => strv_le (fst a) (fst b)) keyed)
      else Err (TypeError "'<' not supported")
  end.

(** [sorted(rules, key=lambda rule: rule.get("seq", 0))] *)
Definition sort_rules (rules : list pyval) : res (list pyval) :=
  let* keyed := res_map (fun r => let* k := seq_key r in Ok (k, r)) rules in
  let* keyed := sort_keyed keyed in
  Ok (map snd keyed).

Definition add_member (members : list (string * list string)) (role dev : string) : list (string * list string) :=
  dset members role (dget_or members role [] ++ [dev]).

Definition restricted_def (definition : pyval) : option dict :=
  match definition with
  | VDict d => if restricted_flag d then Some d else None
  | _ => None
  end.

(** The presorted rules of the stored ACLs. *)
Definition compile_acls (acls : dict) : res (list (string * list pyval)) :=
  res_fold (fun (out : list (string * list pyval)) (na : string * pyval) =>
    match snd na with
    | VDict acl =>
        match dget_or acl "rules" VNone with
        | VList rules => let* s := sort_rules rules in Ok (dset out (fst na) s)
        | _ => Ok out
        end
    | _ => Ok out
    end) [] acls.

Definition compile_roles (doc : dict) : res CompiledRoles :=
  let defs := _role_defs doc in
  let role_of := _role_of_map doc in
  let restricted_defs := omap (fun nd => d ← restricted_def (snd nd); Some (fst nd, d)) defs in
  let* known := res_map (fun nd =>
    let* acl := _virtual_role_acl (fst nd) (snd nd) false in Ok (fst nd, acl)) restricted_defs in
  let unknown_roles := filter (fun r => dhas defs r = false) (omap (fun dr => as_str (snd dr)) role_of) in
  let unknown_roles := sort_by str_leb (remove_dups unknown_roles) in
  let* unknown := res_map (fun r => let* acl := _virtual_role_acl r [] true in Ok (r, acl)) unknown_roles in
  let* sorted_rules :=
    match dget_or doc "acls" (VDict []) with
    | VDict acls => compile_acls acls
    | _ => Ok []
    end in
  let members := foldl (fun m dr => match snd dr with VStr r => add_member m r (fst dr) | _ => m end)
    (map (fun nd => (fst nd, [])) defs) role_of in
  Ok {| acl_by_role := known ++ unknown; role_of := role_of;
        restricted := map fst restricted_defs ++ unknown_roles;
        sorted_rules := sorted_rules; members_by_role := members |}.

Definition _compiled_roles (doc : dict) (compiled : option CompiledRoles) : res CompiledRoles :=
  match compiled with Some c => Ok c | None => compile_roles doc end.

(** ** Principals and their ACL *)

(** A tracker principal; [p_id] of a legacy principal is never read. *)
Record principal := Principal { p_type : string; p_id : string }.

Definition is_device (p : principal) : bool := String.eqb (p_type p) "device".
Definition is_service (p : principal) : bool := String.eqb (p_type p) "service".

(** [doc.get("acls", {}).get(name)] *)
Definition acls_get (doc : dict) (name : pyval) : res pyval :=
  match dget_or doc "acls" (VDict []) with
  | VDict acls => let* found := dget_val acls name in Ok (default VNone found)
  | _ => Err (AttributeError "get")
  end.

(** [name in doc.get("acls", {})] *)
Definition in_acls (doc : dict) (name : pyval) : res bool :=
  match dget_or doc "acls" (VDict []) with
  | VDict acls => in_dict name acls
  | VList l => Ok (existsb (py_eq name) l)
  | _ => Err (TypeError "not iterable")
  end.

Definition _assigned_acl (doc : dict) (p : principal) (compiled : option CompiledRoles) : res pyval :=
  let* compiled := _compiled_roles doc compiled in
  if is_device p then
    if is_quarantined doc (p_id p) then acls_get doc (VStr RESERVED_QUARANTINE)
    else
      match ordinary_assignment doc (p_id p) with
      | Some name => acls_get doc name
      | None =>
          let role := dget_or (role_of compiled) (p_id p) VNone in
          let* found := dget_val (acl_by_role compiled) role in
          Ok (match found with Some acl => VDict acl | None => VNone end)
      end
  else if is_service p then
    match dget_or doc "seeder_assignment" VNone with
    | VNone => Ok VNone
    | name => acls_get doc name
    end
  else Ok VNone.

(** [IPv4Address(ipv4) in IPv4Network(value, strict=False)], [False] on any
    [ValueError]; an integer value is a single address. *)
Definition cidr_matches (ipv4 : string) (value : pyval) : bool :=
  match parse_ipv4 ipv4 with
  | None => false
  | Some ip =>
      match value with
      | VStr s => match parse_network s with Some n => net_contains n ip | None => false end
      | VInt z => ip =? z
      | VBool b => ip =? Z.b2z b
      | _ => false
      end
  end.

Definition _rule_matches (rule : pyval) (p : principal) (ipv4 : string)
    (compiled : option CompiledRoles) (subject_role : pyval) : res bool :=
  let* m := item rule "match" in
  let* mtype := item m "type" in
  if py_eq mtype (VStr "any") then Ok true
  else if py_eq mtype (VStr "device") then
    if is_device p then let* v := item m "value" in Ok (py_eq (VStr (p_id p)) v) else Ok false
  else if py_eq mtype (VStr "service") then
    if is_service p then let* v := item m "value" in Ok (py_eq (VStr (p_id p)) v) else Ok false
  else if py_eq mtype (VStr "role") then
    let subject_role :=
      match compiled with
      | Some c => if is_none subject_role && is_device p then dget_or (role_of c) (p_id p) VNone else subject_role
      | None => subject_role
      end in
    if is_device p then let* v := item m "value" in Ok (py_eq subject_role v) else Ok false
  else if py_eq mtype (VStr "host") then
    let* v := item m "value" in Ok (py_eq (VStr ipv4) v)
  else if py_eq mtype (VStr "cidr") then
    let* v := item m "value" in Ok (cidr_matches ipv4 v)
  else Ok false.

Definition effective_acl_name (doc : dict) (p : principal) (compiled : option CompiledRoles) : res pyval :=
  let* compiled := _compiled_roles doc compiled in
  if is_device p then
    if is_quarantined doc (p_id p) then Ok (VStr RESERVED_QUARANTINE)
    else
      match ordinary_assignment doc (p_id p) with
      | Some assigned => let* known := in_acls doc assigned in Ok (if (known : bool) then assigned else VNone)
      | None =>
          let role := dget_or (role_of compiled) (p_id p) VNone in
          let* virtual := in_dict role (acl_by_role compiled) in
          Ok (if (virtual : bool) then VStr ("role:" +:+ role_text role) else VNone)
      end
  else if is_service p then
    match dget_or doc "seeder_assignment" VNone with
    | VNone => Ok VNone
    | assigned => let* known := in_acls doc assigned in Ok (if (known : bool) then assigned else VNone)
    end
  else Ok VNone.

(** ** Evaluation *)

(** The loop over the rules: the first match decides. *)
Fixpoint first_match (rules : list pyval) (p : principal) (ipv4 : string)
    (compiled : option CompiledRoles) (subject_role : pyval) : res (pyval * pyval) :=
  match rules with
  | [] => Ok (VStr "permit", VNone)
  | rule :: rules =>
      let* matched := _rule_matches rule p ipv4 compiled subject_role in
      if (matched : bool) then
        let* action := item rule "action" in
        let* seq := item rule "seq" in
        Ok (action, seq)
      else first_match rules p ipv4 compiled subject_role
  end.

Definition evaluate_for (doc : dict) (owner subject : principal) (subject_ipv4 : string)
    (compiled : option CompiledRoles) : res (pyval * pyval) :=
  let* compiled := _compiled_roles doc compiled in
  let* acl := _assigned_acl doc owner (Some compiled) in
  if is_none acl then Ok (VStr "permit", VNone)
  else
    let* acl_name := effective_acl_name doc owner (Some compiled) in
    let* stored := item acl "rules" in
    let* presorted := dget_val (sorted_rules compiled) acl_name in
    let* rules := match presorted with Some rules => Ok rules | None => iter_val stored end in
    let subject_role :=
      if is_device subject then dget_or (role_of compiled) (p_id subject) VNone else VNone in
    first_match rules subject subject_ipv4 (Some compiled) subject_role.

Definition evaluate (doc : dict) (p : principal) (ipv4 : string) (compiled : option CompiledRoles)
    : res (pyval * pyval) :=
  evaluate_for doc p p ipv4 compiled.

Definition acl_source (doc : dict) (p : principal) (compiled : option CompiledRoles) : res string :=
  let* compiled := _compiled_roles doc compiled in
  let* name := effective_acl_name doc p (Some compiled) in
  match name with
  | VNone => Ok "none"
  | VStr s => Ok (if String.prefix "role:" s then s else "assignment:" +:+ s)
  | _ => Err (AttributeError "startswith")
  end.

Definition mutual_permit (doc : dict) (requester : principal) (requester_ipv4 : string)
    (candidate : principal) (candidate_ipv4 : string) (compiled : option CompiledRoles) : res bool :=
  if truth (dget_or doc "_fail_closed" VNone) then Ok false
  else
    let* req := evaluate_for doc requester candidate candidate_ipv4 compiled in
    let* cand := evaluate_for doc candidate requester requester_ipv4 compiled in
    Ok (py_eq (fst req) (VStr "permit") && py_eq (fst cand) (VStr "permit")).
