(* ===== verification/PolicyEvalSpec.v ===== *)
(** * The policy decision, as a specification

    A typed ACL is an ordered list of rules, of which the first that matches decides
    and none means permit; a principal is bound to at most one ACL.  The evaluator of
    [PolicyEval] refines this specification on every accepted document, and the
    promises of the policy (isolation of quarantined devices, agreement of the role
    graph with pairwise decisions, denial for unknown roles and sentinel documents)
    follow. *)
From S2P Require Import Prelude PyVal Ipv4 PolicyDoc PolicySample PolicyQos PolicyRoles PolicyValid PolicyEval.

(** ** Typed evaluation *)

Definition amatches (m : amatch) (p : principal) (role : option string) (ipv4 : string) : bool :=
  match m with
  | MAny => true
  | MDevice id => is_device p && String.eqb (p_id p) id
  | MService id => is_service p && String.eqb (p_id p) id
  | MHost ip => String.eqb ipv4 ip
  | MCidr net => cidr_matches ipv4 (VStr net)
  | MRole r => is_device p && bool_decide (role = Some r)
  end.

Fixpoint verdict (rules : list arule) (p : principal) (role : option string) (ipv4 : string)
    : bool * option Z :=
  match rules with
  | [] => (true, None)
  | r :: rules =>
      if amatches (r_match r) p role ipv4 then (r_permit r, Some (r_seq r)) else verdict rules p role ipv4
  end.

(** A verdict as the pair the code returns. *)
Definition verdict_val (v : bool * option Z) : pyval * pyval :=
  (VStr (if fst v then "permit" else "deny"), match snd v with Some z => VInt z | None => VNone end).

(** ** Bindings *)

Definition device_role (doc : dict) (id : string) : option string :=
  dget (_role_of_map doc) id ≫= as_str.

Definition subject_role (doc : dict) (p : principal) : option string :=
  if is_device p then device_role doc (p_id p) else None.

(** The ACL of a restricted role: members, the seeder when the role is open to the
    origin, the peer roles, nobody else. *)
Definition virtual_arules (name : string) (origin : bool) (peers : list string) : list arule :=
  [ARule 10 true (MRole name)] ++ (if origin then [ARule 20 true (MService "seeder")] else []) ++
  map (fun p => ARule 30 true (MRole p)) (filter (fun p => p <> name) peers) ++ [ARule 40 false MAny].

Definition strs_of (v : pyval) : list string :=
  match v with VList l => omap as_str l | _ => [] end.

Definition acl_named (doc : dict) (name : string) : option (list arule) :=
  rules ← (dget (dict_or_empty (dget_or doc "acls" (VDict []))) name ≫= acl_rules);
  Some (sort_by (fun a b => r_seq a <=? r_seq b) rules).

Definition role_acl (doc : dict) (role : string) : option (list arule) :=
  match dget (_role_defs doc) role with
  | Some (VDict d) =>
      if restricted_flag d then
        Some (virtual_arules role (truth (dget_or d "origin" (VBool true)))
                (strs_of (dget_or d "peers" (VList [VStr role]))))
      else None
  | _ => None
  end.

(** The one ACL a principal is bound to: quarantine before an ordinary assignment
    before the role; a service by the seeder assignment; a legacy principal never. *)
Definition bound_acl (doc : dict) (p : principal) : option (list arule) :=
  if is_device p then
    if is_quarantined doc (p_id p) then Some quarantine_arules
    else
      match ordinary_assignment doc (p_id p) with
      | Some (VStr name) => acl_named doc name
      | Some _ => None
      | None => device_role doc (p_id p) ≫= role_acl doc
      end
  else if is_service p then
    match dget doc "seeder_assignment" with Some (VStr name) => acl_named doc name | _ => None end
  else None.

(** Does the ACL of [owner] permit [subject]? *)
Definition spec_verdict (doc : dict) (owner subject : principal) (ipv4 : string) : bool * option Z :=
  match bound_acl doc owner with
  | None => (true, None)
  | Some rules => verdict rules subject (subject_role doc subject) ipv4
  end.

(** ** One rule *)

Definition role_val (r : option string) : pyval := match r with Some s => VStr s | None => VNone end.

Lemma item_dget d k v : dget d k = Some v -> item (VDict d) k = Ok v.
Proof. intros H. cbn. by rewrite H. Qed.

Lemma rule_of_fields v r :
  rule_of v = Some r ->
  exists m, item v "match" = Ok (VDict m) /\ match_of m = Some (r_match r) /\
    item v "action" = Ok (VStr (if r_permit r then "permit" else "deny")) /\ item v "seq" = Ok (VInt (r_seq r)).
Proof.
  destruct v as [| | | | | | d]; cbn [rule_of]; try done.
  destruct (dget d "seq") as [[| | z | | | |] |] eqn:Es; try done. unfold dget_or.
  destruct (dget d "action") as [act |] eqn:Ea; [| done]. cbn [from_option id].
  destruct (action_of act) as [b |] eqn:Eb; [| done].
  destruct (dget d "match") as [[| | | | | | m] |] eqn:Em; try done.
  destruct (match_of m) as [am |] eqn:Emo; [| done]. cbn. intros [= <-]. exists m.
  rewrite Em, Ea, Es. split_and!; try done. f_equal. unfold action_of in Eb.
  destruct act as [| | | | s | |]; try done. str_cases; by simplify_eq.
Qed.

Lemma match_of_spec m am :
  match_of m = Some am ->
  exists t, dget m "type" = Some (VStr t) /\
    match am with
    | MAny => t = "any"
    | MDevice v => t = "device" /\ dget m "value" = Some (VStr v)
    | MService v => t = "service" /\ dget m "value" = Some (VStr v)
    | MHost v => t = "host" /\ dget m "value" = Some (VStr v)
    | MCidr v => t = "cidr" /\ dget m "value" = Some (VStr v)
    | MRole v => t = "role" /\ dget m "value" = Some (VStr v)
    end.
Proof.
  unfold match_of. destruct (dget m "type") as [[| | | | t | |] |]; try done. exists t. split; [done |].
  destruct (String.eqb_spec t "any") as [Ht | _]; [by simplify_eq |].
  destruct (dget m "value") as [[| | | | s | |] |]; try done.
  str_cases; by simplify_eq.
Qed.

(** The role a compiled view gives a device, as the code reads it. *)
Definition role_view (c : CompiledRoles) (id : string) (role : option string) : Prop :=
  dget (role_of c) id = VStr <$> role.

Lemma role_view_val c id role : role_view c id role -> dget_or (role_of c) id VNone = role_val role.
Proof. unfold role_view, dget_or. intros ->. by destruct role. Qed.

Lemma py_eq_role role s : py_eq (role_val role) (VStr s) = bool_decide (role = Some s).
Proof.
  destruct role as [r |]; cbn; [| done]. rewrite eqb_spec'. apply bool_decide_ext. naive_solver.
Qed.

Lemma rule_matches_spec v r p role ipv4 c :
  rule_of v = Some r -> (is_device p = true -> role_view c (p_id p) role) ->
  _rule_matches v p ipv4 (Some c) (if is_device p then role_val role else VNone) =
  Ok (amatches (r_match r) p role ipv4).
Proof.
  intros (m & Hm & Hmo & _)%rule_of_fields Hrole. unfold _rule_matches. rewrite Hm. cbn [mbind res_bind].
  apply match_of_spec in Hmo as (t & Ht & Hr). rewrite (item_dget _ _ _ Ht). cbn [mbind res_bind].
  destruct (r_match r) as [| | | | | s]; [subst t; done | destruct Hr as [-> Hv]; rewrite (item_dget _ _ _ Hv) ..];
    cbn [py_eq String.eqb Ascii.eqb Bool.eqb andb mbind res_bind amatches];
    try (destruct (is_device p), (is_service p); done).
  destruct (is_device p) eqn:Ed; [| done]. rewrite andb_true_r, (role_view_val c _ role (Hrole eq_refl)).
  destruct (is_none (role_val role)); cbn [andb]; by rewrite py_eq_role.
Qed.

Lemma first_match_spec vs rs p role ipv4 c :
  Forall2 (fun v r => rule_of v = Some r) vs rs -> (is_device p = true -> role_view c (p_id p) role) ->
  first_match vs p ipv4 (Some c) (if is_device p then role_val role else VNone) =
  Ok (verdict_val (verdict rs p role ipv4)).
Proof.
  intros Hvs Hrole. induction Hvs as [| v r vs rs Hv _ IH]; [done |]. cbn [first_match verdict].
  rewrite (rule_matches_spec v r p role ipv4 c Hv Hrole). cbn [mbind res_bind].
  destruct (amatches (r_match r) p role ipv4); [| exact IH].
  destruct (rule_of_fields v r Hv) as (m & _ & _ & -> & ->). done.
Qed.

(** ** Sorting *)

Lemma mapM_rules_Forall2 vs rs : mapM rule_of vs = Some rs <-> Forall2 (fun v r => rule_of v = Some r) vs rs.
Proof. by rewrite mapM_Some. Qed.

Definition keyed_as (kv : pyval * pyval) (r : arule) : Prop :=
  fst kv = VInt (r_seq r) /\ rule_of (snd kv) = Some r.

Lemma num_le_int a b : num_le (VInt a) (VInt b) = (a <=? b).
Proof.
  unfold num_le, num_of, num_leb, num_cmp. rewrite Z.sub_diag, !Z.mul_1_r. unfold Z.leb. by destruct (a ?= b).
Qed.

Lemma keyed_seq vs rs :
  Forall2 (fun v r => rule_of v = Some r) vs rs ->
  exists ks, res_map (fun r => let* k := seq_key r in Ok (k, r)) vs = Ok ks /\ Forall2 keyed_as ks rs.
Proof.
  induction 1 as [| v r vs rs Hv _ IH]; [by exists [] |]. destruct IH as (ks & Hks & Hf).
  exists ((VInt (r_seq r), v) :: ks). cbn [res_map].
  destruct (rule_of_seq v r Hv) as (d & -> & Hs). unfold seq_key. cbn [getattr_get]. unfold dget_or. rewrite Hs.
  cbn [from_option id mbind res_bind]. unfold seq_key in Hks. rewrite Hks. split; [done |]. by constructor.
Qed.

Lemma sort_keyed_spec ks rs :
  Forall2 keyed_as ks rs ->
  exists ks', sort_keyed ks = Ok ks' /\ Forall2 keyed_as ks' (sort_by (fun a b => r_seq a <=? r_seq b) rs).
Proof.
  intros H. assert (Hs : Forall2 keyed_as (sort_by (fun a b => num_le (fst a) (fst b)) ks)
    (sort_by (fun a b => r_seq a <=? r_seq b) rs)).
  { apply sort_by_Forall2; [| done]. intros x x' y y' [-> _] [-> _]. apply num_le_int. }
  assert (Hn : forallb (fun kr => is_num (fst kr)) ks = true).
  { clear Hs. induction H as [| k r ks rs [Hk _] _ IH]; [done |]. cbn. by rewrite Hk, IH. }
  unfold sort_keyed. destruct ks as [| k [| k' ks]].
  - inversion H; subst. by exists [].
  - inversion H as [| ? ? ? ? ? Hnil]; subst. inversion Hnil; subst. eexists. split; [reflexivity |]. done.
  - rewrite Hn. eauto.
Qed.

Lemma sort_rules_spec vs rs :
  Forall2 (fun v r => rule_of v = Some r) vs rs ->
  exists vs', sort_rules vs = Ok vs' /\
    Forall2 (fun v r => rule_of v = Some r) vs' (sort_by (fun a b => r_seq a <=? r_seq b) rs).
Proof.
  intros (ks & Hk & Hf)%keyed_seq. apply sort_keyed_spec in Hf as (ks' & Hs & Hf).
  exists (map snd ks'). unfold sort_rules. rewrite Hk. cbn [mbind res_bind]. rewrite Hs. split; [done |].
  apply Forall2_fmap_l. eapply Forall2_impl; [exact Hf |]. by intros kv r [_ ?].
Qed.

(** ** The compiled view of an accepted document *)

Lemma compile_acls_spec l out :
  NoDup (dkeys l) -> (forall na, na ∈ l -> acl_ok na) ->
  exists out', res_fold (fun (out : list (string * list pyval)) (na : string * pyval) =>
    match snd na with
    | VDict acl =>
        match dget_or acl "rules" VNone with
        | VList rules => let* s := sort_rules rules in Ok (dset out (fst na) s)
        | _ => Ok out
        end
    | _ => Ok out
    end) out l = Ok out' /\
    forall name, match dget l name with
      | None => dget out' name = dget out name
      | Some acl => exists rs vs, acl_rules acl = Some rs /\ dget out' name = Some vs /\
          Forall2 (fun v r => rule_of v = Some r) vs (sort_by (fun a b => r_seq a <=? r_seq b) rs)
      end.
Proof.
  revert out. induction l as [| [n acl] l IH]; intros out Hnd Hok; [by exists out |].
  cbn in Hnd. apply NoDup_cons in Hnd as [Hn Hnd].
  destruct (Hok (n, acl)) as (_ & rs & Hrs & _); [by left |]. cbn [snd] in Hrs.
  destruct acl as [| | | | | | acl]; try done. cbn [acl_rules] in Hrs.
  destruct (dget acl "rules") as [[| | | | | vs |] |] eqn:Er; try done.
  apply mapM_rules_Forall2 in Hrs as Hf. destruct (sort_rules_spec _ _ Hf) as (vs' & Hs & Hf').
  destruct (IH (dset out n vs') Hnd) as (out' & Ho & Hspec); [intros na Hna; apply Hok; by right |].
  exists out'. split.
  - cbn [res_fold snd fst]. unfold dget_or. rewrite Er. cbn [from_option id]. rewrite Hs. exact Ho.
  - intros name. specialize (Hspec name). cbn [dget]. destruct (String.eqb_spec n name) as [<- | Hne].
    + apply dget_None in Hn. rewrite Hn, dget_dset_eq in Hspec. exists rs, vs'. split_and!; [| done | done].
      cbn [acl_rules]. by rewrite Er.
    + destruct (dget l name); [done |]. by rewrite Hspec, dget_dset_ne.
Qed.

Lemma virtual_rules_typed name d peers :
  dget_or d "peers" (VList [VStr name]) = VList (map VStr peers) ->
  exists acl vs, _virtual_role_acl name d false = Ok acl /\ dget acl "rules" = Some (VList vs) /\
    Forall2 (fun v r => rule_of v = Some r) vs
      (virtual_arules name (truth (dget_or d "origin" (VBool true))) peers).
Proof.
  intros Hp. unfold _virtual_role_acl. rewrite Hp. cbn [iter_val mbind res_bind]. eexists _, _.
  split; [reflexivity |]. split; [reflexivity |]. unfold virtual_arules.
  assert (Hpeers : Forall2 (fun v r => rule_of v = Some r)
    (map (permit_role_rule 30) (filter (fun peer => py_eq peer (VStr name) = false) (map VStr peers)))
    (map (fun p => ARule 30 true (MRole p)) (filter (fun p => p <> name) peers))).
  { clear. induction peers as [| p peers IH]; [constructor |]. cbn [map]. rewrite !filter_cons. cbn [py_eq].
    destruct (String.eqb_spec p name) as [-> | Hne].
    - rewrite !decide_False by naive_solver. exact IH.
    - rewrite !decide_True by done. cbn [map]. by constructor. }
  destruct (truth _); cbn [app]; repeat (constructor; [done |]); apply Forall2_app; try done; by repeat constructor.
Qed.

(** A virtual ACL name never is the name of a stored ACL. *)
Lemma acl_name_no_colon s : acl_name_re s = true -> ":"%char ∉ bytes_of s.
Proof.
  unfold acl_name_re. intros H Hin.
  assert (Hbody : forall b, acl_name_body b = true -> ":"%char ∉ b).
  { intros b Hb Hc. unfold acl_name_body in Hb. bool_norm. rewrite forallb_forall in H1.
    specialize (H1 ":"%char). apply list_elem_of_In in Hc. specialize (H1 Hc). by vm_compute in H1. }
  apply orb_true_iff in H as [H | H]; [by apply (Hbody (bytes_of s)) |].
  destruct (reverse (bytes_of s)) as [| c rest] eqn:E; [done |]. bool_norm.
  assert (Hb : bytes_of s = reverse rest ++ [c]) by (rewrite <- (reverse_involutive (bytes_of s)), E; apply reverse_cons).
  rewrite Hb in Hin. apply byte_eqb_eq in H as ->. apply elem_of_app in Hin as [Hin | Hin].
  - by apply (Hbody (reverse rest)).
  - by apply list_elem_of_singleton in Hin.
Qed.

Lemma virtual_name_colon r : ":"%char ∈ bytes_of ("role:" +:+ r).
Proof. cbn. do 4 right. by left. Qed.

Section accepted.
Context (ttl : Z) (doc acls assignments : dict).
Context (Hwf : wf_val (VDict doc)) (Hok : document_ok ttl doc acls assignments).

(** The role section, empty when absent. *)
Lemma role_section :
  NoDup (dkeys (_role_defs doc)) /\
  (forall name v, (name, v) ∈ _role_defs doc -> role_def_ok (_role_defs doc) name v) /\
  (forall dev v, (dev, v) ∈ _role_of_map doc -> exists r, v = VStr r /\ r ∈ dkeys (_role_defs doc)) /\
  (forall a b da db, dget (_role_defs doc) a = Some (VDict da) -> dget (_role_defs doc) b = Some (VDict db) ->
     restricted_flag da = true -> restricted_flag db = true -> in_peers a b da = true -> in_peers b a db = true).
Proof.
  assert (Hnd : NoDup (dkeys (_role_defs doc))).
  { assert (wf_val (VDict (_role_defs doc))) as [H _]%wf_dict by (unfold _role_defs; auto 10 with py). done. }
  split; [done |]. unfold _role_of_map. revert Hnd. unfold _role_defs, dget_or at 2 4 6 8 10 12 14.
  destruct (dget doc "roles") as [v |] eqn:E; cbn [from_option id].
  - destruct (ok_roles _ _ _ _ Hok v E) as (roles & defs & rof & qd & -> & Hr).
    change (dict_or_empty (VDict roles)) with roles.
    rewrite (ok_defs_get _ _ _ _ _ Hr), (ok_role_of_get _ _ _ _ _ Hr).
    change (dict_or_empty (VDict defs)) with defs. change (dict_or_empty (VDict rof)) with rof. intros Hnd.
    split_and!.
    + apply (ok_defs _ _ _ _ _ Hr).
    + intros dev v Hin. apply (ok_role_of _ _ _ _ _ Hr) in Hin as [_ ?]. done.
    + intros a b da db Ha. eapply (ok_symmetric _ _ _ _ _ Hr). by apply dget_elem.
  - intros _. cbn. split_and!; [intros ? ? H; inversion H .. | done].
Qed.

(** What evaluation reads of a compiled view. *)
Record compiled_view (c : CompiledRoles) : Prop := {
  view_role_of : role_of c = _role_of_map doc;
  view_roles : forall r, match role_acl doc r with
    | Some rs => exists acl vs, dget (acl_by_role c) r = Some acl /\ dget acl "rules" = Some (VList vs) /\
        Forall2 (fun v r => rule_of v = Some r) vs rs
    | None => dget (acl_by_role c) r = None
    end;
  view_acls : forall name, match dget acls name with
    | None => dget (sorted_rules c) name = None
    | Some acl => exists rs vs, acl_rules acl = Some rs /\ dget (sorted_rules c) name = Some vs /\
        Forall2 (fun v r => rule_of v = Some r) vs (sort_by (fun a b => r_seq a <=? r_seq b) rs)
    end }.

Lemma no_unknown_roles :
  filter (fun r => dhas (_role_defs doc) r = false) (omap (fun dr => as_str (snd dr)) (_role_of_map doc)) = [].
Proof.
  destruct role_section as (_ & _ & Hrole & _).
  destruct (filter _ _) as [| r l] eqn:E; [done |]. exfalso.
  assert (Hr : r ∈ r :: l) by by left. rewrite <- E in Hr. apply list_elem_of_filter in Hr as [Hn Hr].
  apply list_elem_of_omap in Hr as ([dev v] & Hin & Hv). cbn in Hv.
  destruct (Hrole dev v Hin) as (r' & -> & Hd). cbn in Hv. injection Hv as ->.
  apply dhas_spec in Hd. congruence.
Qed.

Lemma acl_by_role_spec :
  exists known, res_map (fun nd => let* acl := _virtual_role_acl (fst nd) (snd nd) false in Ok (fst nd, acl))
      (omap (fun nd => d ← restricted_def (snd nd); Some (fst nd, d)) (_role_defs doc)) = Ok known /\
    forall r, match role_acl doc r with
    | Some rs => exists acl vs, dget known r = Some acl /\ dget acl "rules" = Some (VList vs) /\
        Forall2 (fun v r => rule_of v = Some r) vs rs
    | None => dget known r = None
    end.
Proof.
  destruct role_section as (Hnd & Hdefs & _ & _).
  assert (Hmem : forall n d, (n, d) ∈ omap (fun nd => d ← restricted_def (snd nd); Some (fst nd, d)) (_role_defs doc) ->
    exists peers, dget_or d "peers" (VList [VStr n]) = VList (map VStr peers)).
  { intros n d. rewrite list_elem_of_omap. intros ([n' v] & Hin & Hv). cbn in Hv.
    destruct (Hdefs _ _ Hin) as (d' & peers & -> & _ & _ & _ & _ & Hp & _). cbn in Hv.
    destruct (restricted_flag d'); [| done]. injection Hv as <- <-. eauto. }
  assert (Hmap : forall l, (forall n d, (n, d) ∈ l -> exists peers, dget_or d "peers" (VList [VStr n]) = VList (map VStr peers)) ->
    exists known, res_map (fun nd => let* acl := _virtual_role_acl (fst nd) (snd nd) false in Ok (fst nd, acl)) l = Ok known /\
      Forall2 (fun x y => fst x = fst y /\ _virtual_role_acl (fst x) (snd x) false = Ok (snd y)) l known).
  { clear. induction l as [| [n d] l IH]; intros Hl; [by exists [] |].
    destruct (Hl n d) as [peers Hp]; [by left |]. destruct (virtual_rules_typed n d peers Hp) as (acl & vs & Ha & _).
    destruct IH as (known & Hk & Hf); [intros n' d' Hin; apply Hl; by right |].
    exists ((n, acl) :: known). cbn [res_map fst snd]. rewrite Ha. cbn [mbind res_bind]. rewrite Hk. by repeat constructor. }
  destruct (Hmap _ Hmem) as (known & Hk & Hf). exists known. split; [exact Hk |]. intros r.
  pose proof (dget_Forall2 (fun n d acl => _virtual_role_acl n d false = Ok acl) _ _ r Hf) as Hg.
  rewrite dget_omap in Hg by done. unfold role_acl.
  destruct (dget (_role_defs doc) r) as [v |] eqn:Er; [| exact Hg].
  destruct (Hdefs r v (dget_elem _ _ _ Er)) as (d & peers & -> & _ & _ & _ & _ & Hp & _). cbn [restricted_def mbind option_bind] in Hg |- *.
  destruct (restricted_flag d); [| exact Hg]. destruct Hg as (acl & Hacl & Hv). rewrite Hp.
  destruct (virtual_rules_typed r d peers Hp) as (acl' & vs & Ha & Hr & Ht).
  assert (acl' = acl) as -> by congruence. exists acl, vs. split_and!; [done | done |].
  replace (strs_of (VList (map VStr peers))) with peers; [done |].
  clear. cbn. induction peers as [| p peers IH]; [done |]. cbn. by rewrite <- IH.
Qed.

Lemma compile_roles_view : exists c, compile_roles doc = Ok c /\ compiled_view c.
Proof.
  destruct acl_by_role_spec as (known & Hk & Hroles).
  assert (wf_val (VDict acls)) as [Hnd _]%wf_dict by (eapply wf_dget; [exact Hwf | apply Hok]).
  destruct (compile_acls_spec acls [] Hnd) as (out & Ho & Hacls); [apply Hok |].
  unfold compile_roles. rewrite Hk. cbn [mbind res_bind]. rewrite no_unknown_roles.
  unfold dget_or at 1. rewrite (ok_acls_get _ _ _ _ Hok). cbn [from_option id].
  unfold compile_acls. rewrite Ho. eexists. split; [reflexivity |]. constructor; cbn.
  - done.
  - intros r. specialize (Hroles r). rewrite app_nil_r. done.
  - intros name. specialize (Hacls name). by destruct (dget acls name).
Qed.

Context (c : CompiledRoles) (Hc : compiled_view c).

Lemma role_view_ok id : role_view c id (device_role doc id).
Proof.
  unfold role_view, device_role. rewrite (view_role_of _ Hc). destruct role_section as (_ & _ & Hrole & _).
  destruct (dget (_role_of_map doc) id) as [v |] eqn:E; [| done].
  destruct (Hrole id v (dget_elem _ _ _ E)) as (r & -> & _). done.
Qed.

(** What the lookup of an ACL yields: a dict whose rules, presorted when the name is
    that of a stored ACL, read as the given typed rules. *)
Definition bound_to (acl name : pyval) (rs : list arule) : Prop :=
  exists ad stored vs, acl = VDict ad /\ dget ad "rules" = Some (VList stored) /\
    (dget_val (sorted_rules c) name = Ok (Some vs) \/ dget_val (sorted_rules c) name = Ok None /\ vs = stored) /\
    Forall2 (fun v r => rule_of v = Some r) vs rs.

Lemma stored_binding n :
  n ∈ dkeys acls ->
  exists acl rs, acls_get doc (VStr n) = Ok acl /\ in_acls doc (VStr n) = Ok true /\
    acl_named doc n = Some rs /\ bound_to acl (VStr n) rs.
Proof.
  intros Hn. apply dhas_spec in Hn. unfold dhas in Hn.
  pose proof (view_acls _ Hc n) as Hv. unfold acls_get, in_acls, acl_named, dget_or.
  rewrite (ok_acls_get _ _ _ _ Hok). cbn [from_option id]. change (dict_or_empty (VDict acls)) with acls.
  destruct (dget acls n) as [acl |] eqn:E; [| done]. destruct Hv as (rs & vs & Hr & Hs & Hf).
  eexists acl, _. split_and!.
  - cbn. by rewrite E.
  - unfold in_dict. cbn. unfold dhas. by rewrite E.
  - cbn. by rewrite Hr.
  - destruct acl as [| | | | | | ad]; try done. cbn [acl_rules] in Hr.
    destruct (dget ad "rules") as [[| | | | | stored |] |] eqn:Ea; try done.
    exists ad, stored, vs. split_and!; try done. left. cbn. by rewrite Hs.
Qed.

Lemma quarantine_named : acl_named doc RESERVED_QUARANTINE = Some quarantine_arules.
Proof.
  destruct (ok_quarantine _ _ _ _ Hok) as (q & Hq & Hr). unfold acl_named, dget_or.
  rewrite (ok_acls_get _ _ _ _ Hok). cbn [from_option id]. change (dict_or_empty (VDict acls)) with acls.
  rewrite Hq. cbn [mbind option_bind]. by rewrite Hr.
Qed.

Lemma ordinary_stored dev v : ordinary_assignment doc dev = Some v -> exists n, v = VStr n /\ n ∈ dkeys acls.
Proof.
  unfold ordinary_assignment, dget_or at 1. rewrite (ok_assignments_get _ _ _ _ Hok). cbn [from_option id].
  unfold dget_or. destruct (dget assignments dev) as [w |] eqn:E; [| done]. cbn [from_option id].
  intros H. eapply (ok_assignments _ _ _ _ Hok dev). apply dget_elem. rewrite E. f_equal.
  destruct w; cbn in H; try case_match; by simplify_eq.
Qed.

Lemma virtual_unstored r : dget_val (sorted_rules c) (VStr ("role:" +:+ r)) = Ok None.
Proof.
  cbn [dget_val hashable]. pose proof (view_acls _ Hc ("role:" +:+ r)) as Hv.
  destruct (dget acls ("role:" +:+ r)) as [acl |] eqn:E; [| by rewrite Hv].
  destruct (ok_acls _ _ _ _ Hok _ (dget_elem _ _ _ E)) as [Hn _].
  destruct (acl_name_no_colon _ Hn). apply virtual_name_colon.
Qed.

Lemma binding_spec owner :
  exists acl name, _assigned_acl doc owner (Some c) = Ok acl /\ effective_acl_name doc owner (Some c) = Ok name /\
    match bound_acl doc owner with
    | None => acl = VNone
    | Some rs => bound_to acl name rs
    end.
Proof.
  unfold _assigned_acl, effective_acl_name, bound_acl. cbn [_compiled_roles mbind res_bind].
  destruct (is_device owner) eqn:Ed.
  - destruct (is_quarantined doc (p_id owner)).
    { destruct (ok_quarantine _ _ _ _ Hok) as (q & Hq & _).
      destruct (stored_binding RESERVED_QUARANTINE) as (acl & rs & Ha & _ & Hn & Hb); [by eapply dget_key |].
      rewrite quarantine_named in Hn. injection Hn as <-. eauto. }
    destruct (ordinary_assignment doc (p_id owner)) as [v |] eqn:Eo.
    { apply ordinary_stored in Eo as (n & -> & Hn).
      destruct (stored_binding n Hn) as (acl & rs & -> & -> & -> & Hb). cbn. eauto. }
    rewrite (role_view_val _ _ _ (role_view_ok (p_id owner))).
    destruct (device_role doc (p_id owner)) as [r |]; [| cbn; eauto].
    pose proof (view_roles _ Hc r) as Hv. cbn [role_val dget_val hashable in_dict mbind res_bind option_bind].
    unfold dhas. destruct (role_acl doc r) as [rs |].
    + destruct Hv as (acl & vs & -> & Hr & Hf). eexists _, _. split; [done |]. split; [done |].
      exists acl, vs, vs. split_and!; [done | done | | done]. right. split; [apply virtual_unstored | done].
    + rewrite Hv. eauto.
  - destruct (is_service owner); [| eauto]. unfold dget_or.
    destruct (dget doc "seeder_assignment") as [v |] eqn:Es; cbn [from_option id]; [| eauto].
    destruct (ok_seeder _ _ _ _ Hok v Es) as [-> | (n & -> & Hn)]; [eauto |].
    destruct (stored_binding n Hn) as (acl & rs & -> & -> & -> & Hb). cbn. eauto.
Qed.

Lemma evaluate_for_spec owner subject ipv4 :
  evaluate_for doc owner subject ipv4 (Some c) = Ok (verdict_val (spec_verdict doc owner subject ipv4)).
Proof.
  unfold evaluate_for, spec_verdict. cbn [_compiled_roles mbind res_bind].
  destruct (binding_spec owner) as (acl & name & Ha & Hn & Hb). rewrite Ha, Hn. cbn [mbind res_bind].
  destruct (bound_acl doc owner) as [rs |]; [| by subst].
  destruct Hb as (ad & stored & vs & -> & Hst & Hsort & Hf). cbn [is_none]. rewrite (item_dget _ _ _ Hst).
  cbn [mbind res_bind].
  assert (Hfm : first_match vs subject ipv4 (Some c)
    (if is_device subject then dget_or (role_of c) (p_id subject) VNone else VNone) =
    Ok (verdict_val (verdict rs subject (subject_role doc subject) ipv4))).
  { rewrite (role_view_val _ _ _ (role_view_ok (p_id subject))). unfold subject_role.
    pose proof (first_match_spec vs rs subject (device_role doc (p_id subject)) ipv4 c Hf
      (fun _ => role_view_ok _)) as H.
    destruct (is_device subject) eqn:E; [exact H |]. rewrite H. f_equal. f_equal.
    clear -E. induction rs as [| r rs IH]; [done |]. cbn. rewrite IH. f_equal. unfold amatches.
    destruct (r_match r); by rewrite ?E. }
  destruct Hsort as [-> | [-> <-]]; cbn [mbind res_bind iter_val]; exact Hfm.
Qed.
End accepted.

(** ** Theorems on accepted documents *)

Definition accepted (ttl : Z) (doc : dict) : Prop :=
  wf_val (VDict doc) /\ validate_document ttl (VDict doc) = Ok doc.

Lemma accepted_ok ttl doc : accepted ttl doc -> exists acls assignments, document_ok ttl doc acls assignments.
Proof. intros [_ H]. by apply validate_document_ok in H as [_ H]. Qed.

Lemma accepted_view ttl doc :
  accepted ttl doc ->
  exists c, compile_roles doc = Ok c /\
    forall owner subject ipv4 oc, oc = None \/ oc = Some c ->
      evaluate_for doc owner subject ipv4 oc = Ok (verdict_val (spec_verdict doc owner subject ipv4)).
Proof.
  intros Hacc. destruct (accepted_ok _ _ Hacc) as (acls & assignments & Hok). destruct Hacc as [Hwf _].
  destruct (compile_roles_view ttl doc acls assignments Hwf Hok) as (c & Hc & Hview).
  exists c. split; [done |]. intros owner subject ipv4 oc Hoc.
  rewrite <- (evaluate_for_spec ttl doc acls assignments Hwf Hok c Hview). unfold evaluate_for.
  destruct Hoc as [-> | ->]; cbn [_compiled_roles]; [by rewrite Hc | done].
Qed.

(** C2: on an accepted document the evaluator never raises and returns the verdict of
    the typed specification: the principal's one bound ACL (quarantine, then its
    assignment, then its role's virtual ACL), rules in sequence order, first match
    wins, permit by default.  The precompiled view gives the same answer as
    compiling on the spot. *)
Theorem evaluate_for_refines ttl doc owner subject ipv4 :
  accepted ttl doc ->
  exists c, compile_roles doc = Ok c /\
    evaluate_for doc owner subject ipv4 None = Ok (verdict_val (spec_verdict doc owner subject ipv4)) /\
    evaluate_for doc owner subject ipv4 (Some c) = Ok (verdict_val (spec_verdict doc owner subject ipv4)).
Proof. intros (c & Hc & H)%accepted_view. exists c. split_and!; [done | apply H; by left | apply H; by right]. Qed.

Lemma sample_accepted : accepted 900 sample_doc.
Proof. split; [wf_eval | vm_compute; reflexivity]. Qed.

Lemma evaluate_for_refines_witness :
  accepted 900 sample_doc /\
  exists c, compile_roles sample_doc = Ok c /\
    evaluate_for sample_doc (Principal "device" "b1") (Principal "device" "e1") "10.9.9.9" None = Ok (VStr "permit", VInt 50) /\
    evaluate_for sample_doc (Principal "device" "b1") (Principal "device" "e1") "10.9.9.9" (Some c) = Ok (VStr "permit", VInt 50).
Proof.
  split; [apply sample_accepted |].
  exact (evaluate_for_refines 900 sample_doc (Principal "device" "b1") (Principal "device" "e1") "10.9.9.9" sample_accepted).
Defined.

(** The mutual decision of the specification. *)
Definition spec_mutual (doc : dict) (a : principal) (ia : string) (b : principal) (ib : string) : bool :=
  negb (truth (dget_or doc "_fail_closed" VNone)) &&
  fst (spec_verdict doc a b ib) && fst (spec_verdict doc b a ia).

Lemma mutual_permit_spec ttl doc a ia b ib :
  accepted ttl doc -> mutual_permit doc a ia b ib None = Ok (spec_mutual doc a ia b ib).
Proof.
  intros (c & _ & H)%accepted_view. unfold mutual_permit, spec_mutual.
  destruct (truth _); [done |]. rewrite !H by (by left). cbn [mbind res_bind fst verdict_val negb andb].
  by destruct (fst (spec_verdict doc a b ib)), (fst (spec_verdict doc b a ia)).
Qed.

(** Discovery is decided alike from both ends: on an accepted document
    [mutual_permit] returns, and exchanging requester and candidate (with their
    addresses) returns the same answer. *)
Theorem mutual_permit_symmetric ttl doc a ia b ib :
  accepted ttl doc ->
  exists d, mutual_permit doc a ia b ib None = Ok d /\ mutual_permit doc b ib a ia None = Ok d.
Proof.
  intros Hacc. exists (spec_mutual doc a ia b ib). rewrite !(mutual_permit_spec ttl) by done. split; [done |].
  f_equal. unfold spec_mutual. rewrite <- !andb_assoc. f_equal. apply andb_comm.
Qed.

Lemma mutual_permit_symmetric_witness :
  accepted 900 sample_doc /\
  exists d, mutual_permit sample_doc (Principal "device" "c1") "" (Principal "device" "e1") "" None = Ok d /\
    mutual_permit sample_doc (Principal "device" "e1") "" (Principal "device" "c1") "" None = Ok d.
Proof.
  split; [apply sample_accepted |].
  exact (mutual_permit_symmetric 900 sample_doc _ "" _ "" sample_accepted).
Defined.

Lemma quarantined_verdict doc dev subject ipv4 :
  is_quarantined doc dev = true -> spec_verdict doc (Principal "device" dev) subject ipv4 = (false, Some 10).
Proof. intros H. unfold spec_verdict, bound_acl. cbn [is_device p_type p_id String.eqb Ascii.eqb Bool.eqb]. by rewrite H. Qed.

(** Quarantine isolates: a device quarantined in either representation is refused
    to every principal, device, service or legacy, whatever its role, assignment or
    address, and every principal is refused to it. *)
Theorem quarantine_isolates ttl doc dev ip other other_ip :
  accepted ttl doc -> is_quarantined doc dev = true ->
  mutual_permit doc (Principal "device" dev) ip other other_ip None = Ok false /\
  mutual_permit doc other other_ip (Principal "device" dev) ip None = Ok false.
Proof.
  intros Hacc Hq. rewrite !(mutual_permit_spec ttl) by done. unfold spec_mutual.
  rewrite !quarantined_verdict by done. cbn [fst]. split; f_equal.
  - by rewrite andb_false_r.
  - apply andb_false_r.
Qed.

Lemma quarantine_isolates_witness :
  (accepted 900 sample_doc /\ is_quarantined sample_doc "bad" = true) /\
  mutual_permit sample_doc (Principal "device" "bad") "" (Principal "service" "seeder") "" None = Ok false /\
  mutual_permit sample_doc (Principal "service" "seeder") "" (Principal "device" "bad") "" None = Ok false.
Proof.
  split; [split; [apply sample_accepted | reflexivity] |].
  exact (quarantine_isolates 900 sample_doc "bad" "" (Principal "service" "seeder") "" sample_accepted eq_refl).
Defined.

(** ** The role graph *)

Definition role_in (role : option string) (peers : list string) : bool :=
  match role with Some r => bool_decide (r ∈ peers) | None => false end.

Lemma role_in_cons role x peers : role_in role (x :: peers) = bool_decide (role = Some x) || role_in role peers.
Proof.
  destruct role as [r |]; cbn; [| done]. apply eq_true_iff_eq.
  rewrite orb_true_iff, !bool_decide_eq_true, elem_of_cons. naive_solver.
Qed.

Lemma role_in_filter role name peers :
  name ∈ peers ->
  role_in role peers = bool_decide (role = Some name) || role_in role (filter (fun p => p <> name) peers).
Proof.
  intros Hn. destruct role as [r |]; cbn; [| done]. apply eq_true_iff_eq.
  rewrite orb_true_iff, !bool_decide_eq_true, list_elem_of_filter.
  destruct (decide (r = name)) as [-> | Hne]; naive_solver.
Qed.

Lemma verdict_peers peers tail p role ipv4 :
  fst (verdict (map (fun p => ARule 30 true (MRole p)) peers ++ tail) p role ipv4) =
  (is_device p && role_in role peers) || fst (verdict tail p role ipv4).
Proof.
  induction peers as [| x peers IH]; cbn [map app verdict amatches r_match].
  - by destruct role; rewrite andb_false_r.
  - rewrite role_in_cons. destruct (is_device p); cbn [andb] in IH |- *; [| exact IH].
    by destruct (bool_decide (role = Some x)).
Qed.

(** A virtual ACL permits the devices of the role and of its peers, and the seeder
    when the role is open to the origin. *)
Lemma verdict_virtual name origin peers p role ipv4 :
  name ∈ peers ->
  fst (verdict (virtual_arules name origin peers) p role ipv4) =
  (is_device p && role_in role peers) || (origin && is_service p && String.eqb (p_id p) "seeder").
Proof.
  intros Hn. rewrite (role_in_filter role name peers Hn). unfold virtual_arules. cbn [app verdict amatches r_match].
  destruct (is_device p && bool_decide (role = Some name)) eqn:E1; cbn [fst r_permit].
  { bool_norm. by rewrite H, bool_decide_true. }
  assert (Htail : fst (verdict (map (fun p => ARule 30 true (MRole p)) (filter (fun p => p <> name) peers) ++
      [ARule 40 false MAny]) p role ipv4) =
    is_device p && (bool_decide (role = Some name) || role_in role (filter (fun p => p <> name) peers))).
  { rewrite verdict_peers. cbn [verdict amatches r_match fst r_permit]. rewrite orb_false_r.
    by destruct (is_device p); cbn [andb] in E1 |- *; rewrite ?E1. }
  destruct origin; cbn [app verdict amatches r_match andb]; [| by rewrite Htail, orb_false_r].
  destruct (is_service p && String.eqb (p_id p) "seeder"); [by rewrite orb_true_r |].
  by rewrite Htail, orb_false_r.
Qed.

Lemma strs_of_strs peers : strs_of (VList (map VStr peers)) = peers.
Proof. cbn. induction peers as [| p peers IH]; [done |]. cbn. by rewrite IH. Qed.

(** A device that neither an ACL assignment nor quarantine binds. *)
Definition role_bound (doc : dict) (dev role : string) : Prop :=
  is_quarantined doc dev = false /\ ordinary_assignment doc dev = None /\ device_role doc dev = Some role.

Lemma role_bound_verdict ttl doc a ra b rb ipv4 :
  accepted ttl doc -> role_bound doc a ra -> role_bound doc b rb ->
  fst (spec_verdict doc (Principal "device" a) (Principal "device" b) ipv4) =
  match dget (_role_defs doc) ra with
  | Some (VDict d) => if negb (restricted_flag d) then true else in_peers ra rb d
  | _ => true
  end.
Proof.
  intros Hacc (Hqa & Hoa & Hra) (_ & _ & Hrb). destruct (accepted_ok _ _ Hacc) as (acls & assignments & Hok).
  destruct (role_section ttl doc acls assignments (proj1 Hacc) Hok) as (_ & Hdefs & _ & _).
  unfold spec_verdict, bound_acl, subject_role. cbn [is_device p_type p_id String.eqb Ascii.eqb Bool.eqb].
  rewrite Hqa, Hoa, Hra, Hrb. cbn [mbind option_bind]. unfold role_acl.
  destruct (dget (_role_defs doc) ra) as [v |] eqn:E; [| done].
  destruct (Hdefs ra v (dget_elem _ _ _ E)) as (d & peers & -> & _ & _ & _ & _ & Hp & _ & _ & Hself & _).
  destruct (restricted_flag d); cbn [negb]; [| done]. rewrite Hp, strs_of_strs, verdict_virtual by done.
  cbn [is_device is_service p_type p_id String.eqb Ascii.eqb Bool.eqb andb]. rewrite andb_false_r. cbn [andb].
  rewrite orb_false_r. apply eq_true_iff_eq. cbn [role_in].
  by rewrite bool_decide_eq_true, (in_peers_list _ _ _ _ Hp).
Qed.

(** The role graph is what pairs of devices experience: for two devices bound by
    their roles, [mutual_permit] on an accepted document answers exactly whether the
    two roles permit one another, whatever the addresses. *)
Theorem role_pair_agreement ttl doc a ia ra b ib rb :
  accepted ttl doc -> truth (dget_or doc "_fail_closed" VNone) = false ->
  role_bound doc a ra -> role_bound doc b rb ->
  mutual_permit doc (Principal "device" a) ia (Principal "device" b) ib None =
  Ok (_role_pair_permitted doc ra rb).
Proof.
  intros Hacc Hf Ha Hb. rewrite (mutual_permit_spec ttl) by done. unfold spec_mutual. rewrite Hf. cbn [negb andb].
  rewrite (role_bound_verdict ttl doc a ra b rb), (role_bound_verdict ttl doc b rb a ra) by done. done.
Qed.

Lemma role_pair_agreement_witness :
  (accepted 900 sample_doc /\ role_bound sample_doc "e1" "edge" /\ role_bound sample_doc "l1" "lab") /\
  mutual_permit sample_doc (Principal "device" "e1") "" (Principal "device" "l1") "" None =
  Ok (_role_pair_permitted sample_doc "edge" "lab").
Proof.
  split; [split_and!; [apply sample_accepted | by vm_compute ..] |].
  exact (role_pair_agreement 900 sample_doc "e1" "" "edge" "l1" "" "lab" sample_accepted eq_refl
    (conj eq_refl (conj eq_refl eq_refl)) (conj eq_refl (conj eq_refl eq_refl))).
Defined.

(** Between restricted roles of an accepted document permission is never
    one-sided: naming a peer is enough, and is necessary, for the pair to be
    permitted. *)
Theorem restricted_pair_named ttl doc a b da db :
  accepted ttl doc -> dget (_role_defs doc) a = Some (VDict da) -> dget (_role_defs doc) b = Some (VDict db) ->
  restricted_flag da = true -> restricted_flag db = true ->
  _role_pair_permitted doc a b = in_peers a b da /\ in_peers a b da = in_peers b a db.
Proof.
  intros Hacc Ha Hb Hra Hrb. destruct (accepted_ok _ _ Hacc) as (acls & assignments & Hok).
  destruct (role_section ttl doc acls assignments (proj1 Hacc) Hok) as (_ & _ & _ & Hsym).
  assert (Heq : in_peers a b da = in_peers b a db).
  { apply eq_true_iff_eq. split; [by apply (Hsym a b da db) | by apply (Hsym b a db da)]. }
  split; [| done]. unfold _role_pair_permitted. rewrite Ha, Hb, Hra, Hrb. cbn [negb]. rewrite <- Heq. apply andb_diag.
Qed.

Lemma restricted_pair_named_witness :
  exists da db, dget (_role_defs sample_doc) "edge" = Some (VDict da) /\
    dget (_role_defs sample_doc) "core" = Some (VDict db) /\
    _role_pair_permitted sample_doc "edge" "core" = in_peers "edge" "core" da /\
    in_peers "edge" "core" da = in_peers "core" "edge" db.
Proof.
  eexists _, _. split; [reflexivity |]. split; [reflexivity |].
  apply (restricted_pair_named 900 sample_doc "edge" "core"); [apply sample_accepted | reflexivity ..].
Defined.

(** ** Documents that were never validated *)

Lemma compile_acls_absent acls out name :
  compile_acls acls = Ok out -> name ∉ dkeys acls -> dget out name = None.
Proof.
  unfold compile_acls. intros H Hn.
  eapply (res_fold_inv (fun out => dget out name = None)); [| | exact H]; [| done]. clear H.
  intros out1 [n acl] out2 Hin H1 H2. cbn [fst snd] in H2.
  assert (n <> name) by (intros ->; apply Hn; by eapply elem_dkeys).
  destruct acl as [| | | | | | acl]; try (by injection H2 as <-).
  destruct (dget_or acl "rules" VNone); try (by injection H2 as <-).
  head H2 as E. injection H2 as <-. by rewrite dget_dset_ne.
Qed.

Lemma dget_app {B} (l m : list (string * B)) k : k ∉ dkeys l -> dget (l ++ m) k = dget m k.
Proof.
  induction l as [| [x v] l IH]; cbn; [done |]. intros [Hx Hk]%not_elem_of_cons.
  destruct (String.eqb_spec x k); [congruence | by apply IH].
Qed.

Lemma unknown_acl (rs : list string) r acls :
  res_map (fun r => let* acl := _virtual_role_acl r [] true in Ok (r, acl)) rs = Ok acls -> r ∈ rs ->
  exists acl, dget acls r = Some acl /\ dget acl "rules" = Some (VList [deny_any_rule]).
Proof.
  revert acls. induction rs as [| x rs IH]; intros acls H Hr; [inversion Hr |].
  cbn [res_map _virtual_role_acl mbind res_bind] in H. head H as E. injection H as <-. cbn [dget].
  destruct (String.eqb_spec x r) as [-> | Hne]; [eauto |]. apply IH; [done |].
  apply elem_of_cons in Hr as [-> | ?]; done.
Qed.

Lemma compile_roles_unknown doc c r :
  compile_roles doc = Ok c -> r ∉ dkeys (_role_defs doc) ->
  (exists dev, (dev, VStr r) ∈ _role_of_map doc) ->
  role_of c = _role_of_map doc /\
  (exists acl, dget (acl_by_role c) r = Some acl /\ dget acl "rules" = Some (VList [deny_any_rule])) /\
  (forall name, name ∉ dkeys (dict_or_empty (dget_or doc "acls" (VDict []))) -> dget (sorted_rules c) name = None).
Proof.
  intros H Hr (dev & Hdev). unfold compile_roles in H.
  head H as Ek. head H as Eu. head H as Es. injection H as <-. cbn [role_of acl_by_role sorted_rules].
  split_and!; [done | |].
  - rewrite dget_app.
    + eapply unknown_acl; [exact Eu |]. apply sort_by_elem, elem_of_remove_dups, list_elem_of_filter. split.
      * apply not_true_iff_false. by rewrite dhas_spec.
      * apply list_elem_of_omap. by exists (dev, VStr r).
    + intros Hin. apply Hr. apply res_map_ok in Ek. unfold dkeys in Hin.
      apply list_elem_of_fmap in Hin as ([n acl] & -> & Hin). cbn [fst].
      apply (Forall2_elem_r _ _ _ _ Ek) in Hin as ([n' d] & Hin' & Heq). cbn [fst snd] in Heq.
      head Heq as E. injection Heq as -> _. apply list_elem_of_omap in Hin' as ([n'' v] & Hin'' & Hv).
      cbn in Hv. destruct (restricted_def v); [| done]. injection Hv as -> _. by eapply elem_dkeys.
  - intros name Hn. destruct (dget_or doc "acls" (VDict [])); try (by injection Es as <-).
    by eapply compile_acls_absent.
Qed.

(** Corruption fails closed: in any document, validated or not, that compiles, a
    device mapped to a role without definition is bound to a deny-only ACL, unless
    quarantine or an assignment binds it first.  (A stored ACL could shadow the
    virtual one only under the name [role:...], which validation refuses.) *)
Theorem unknown_role_denies doc c dev r subject ipv4 :
  compile_roles doc = Ok c ->
  dget (_role_of_map doc) dev = Some (VStr r) -> dget (_role_defs doc) r = None ->
  is_quarantined doc dev = false -> ordinary_assignment doc dev = None ->
  dget (dict_or_empty (dget_or doc "acls" (VDict []))) ("role:" +:+ r) = None ->
  evaluate_for doc (Principal "device" dev) subject ipv4 (Some c) = Ok (VStr "deny", VInt 40).
Proof.
  intros Hc Hdev Hr Hq Ho Hn. apply dget_None in Hr, Hn.
  destruct (compile_roles_unknown doc c r Hc Hr) as (Hrof & (acl & Hacl & Hrules) & Hsorted).
  { exists dev. by apply dget_elem. }
  unfold evaluate_for, _assigned_acl, effective_acl_name.
  cbn [_compiled_roles mbind res_bind is_device p_type p_id String.eqb Ascii.eqb Bool.eqb]. rewrite Hq, Ho, Hrof.
  replace (dget_or (_role_of_map doc) dev VNone) with (VStr r) by (unfold dget_or; by rewrite Hdev).
  cbn [dget_val hashable in_dict mbind res_bind].
  unfold dhas. rewrite Hacl. cbn [is_none role_text mbind res_bind]. rewrite (item_dget _ _ _ Hrules).
  cbn [mbind res_bind dget_val hashable]. by rewrite (Hsorted _ Hn).
Qed.

Definition orphan_doc : dict :=
  [("acls", VDict []); ("roles", VDict [("role_of", VDict [("d1", VStr "gone")])])].

Lemma unknown_role_denies_witness :
  exists c, compile_roles orphan_doc = Ok c /\
    evaluate_for orphan_doc (Principal "device" "d1") (Principal "device" "d2") "10.0.0.1" (Some c) =
      Ok (VStr "deny", VInt 40).
Proof.
  eexists. split; [reflexivity |].
  apply (unknown_role_denies orphan_doc _ "d1" "gone" (Principal "device" "d2") "10.0.0.1"); reflexivity.
Defined.
