(* ===== verification/PolicyStore.v ===== *)
(** * [server/peer_policy.py]: the policy files, commits and the operation outbox

    The authoritative document, its last-known-good copy, the ring of prior
    revisions and the roles-ever marker, as a small file system.  A commit is the
    sequence of atomic file replacements it performs: a crash or an I/O error leaves
    a prefix of that sequence.  The umbrella lock serialises commits, so one commit
    is considered at a time. *)
From S2P Require Import Prelude PyVal JsonDump Sha256 PolicyDoc PolicySample PolicyQuarantine PolicyQos.
From S2P Require Import PolicyRoles PolicyValid PolicyPersist PolicyEval PolicyEvalSpec.

(** ** Files *)

(** A file that does not parse as JSON, or the value it holds. *)
Inductive file :=
  | FText
  | FJson (v : pyval).

Record fs := Fs {
  f_auth : option file;
  f_lkg : option file;
  f_mark : bool;
  f_ring : list (Z * file) }.

(** The atomic steps ([os.replace] or [os.remove] of one file). *)
Inductive write :=
  | WMark
  | WLkg (v : pyval)
  | WRing (revision : Z) (v : pyval)
  | WAuth (v : pyval)
  | WUnring (revision : Z).

(** [_atomic_write_json] stores a sorted dump. *)
Definition apply_write (s : fs) (w : write) : fs :=
  match w with
  | WMark => Fs (f_auth s) (f_lkg s) true (f_ring s)
  | WLkg v => Fs (f_auth s) (Some (FJson (sort_keys v))) (f_mark s) (f_ring s)
  | WAuth v => Fs (Some (FJson (sort_keys v))) (f_lkg s) (f_mark s) (f_ring s)
  | WRing r v =>
      Fs (f_auth s) (f_lkg s) (f_mark s) ((r, FJson (sort_keys v)) :: filter (fun e => fst e <> r) (f_ring s))
  | WUnring r => Fs (f_auth s) (f_lkg s) (f_mark s) (filter (fun e => fst e <> r) (f_ring s))
  end.

Definition apply_writes (s : fs) (ws : list write) : fs := foldl apply_write s ws.

(** ** The ring of prior revisions *)

(** The revisions whose file name has twenty digits, ascending. *)
Definition lkg_ring_revisions (s : fs) : list Z :=
  sort_by Z.leb (filter (fun r => 1 <= r < 10 ^ 20) (map fst (f_ring s))).

Definition lkg_revision_path (revision : pyval) : res Z :=
  match revision with
  | VInt z => if z <? 1 then Err (perr "bad LKG revision") else Ok z
  | _ => Err (perr "bad LKG revision")
  end.

Definition _write_lkg_ring (doc : dict) : res write :=
  let* r := lkg_revision_path (dget_or doc "revision" VNone) in
  Ok (WRing r (VDict doc)).

(** [revisions[:-LKG_RING_SIZE]] are removed. *)
Definition _prune_lkg_ring (s : fs) : list write :=
  let revisions := lkg_ring_revisions s in
  map WUnring (take (length revisions - LKG_RING_SIZE) revisions).

(** ** Reading *)

(** [except PolicyError]: the class and its subclasses. *)
Definition is_policy_error (e : pyexn) : bool :=
  match e with PolicyError _ _ | PolicyDegradedError _ | RoleInUse _ _ _ _ => true | _ => false end.

Record PolicyResult := {
  pr_document : dict;
  pr_degraded : bool;
  pr_fail_closed : bool;
  pr_roles : CompiledRoles }.

Section store.
(** [peer_endpoints.endpoint_ttl()] of the process. *)
Context (endpoint_ttl : Z).
#[local] Abbreviation validate := (validate_document endpoint_ttl).

Definition _read_valid (f : option file) : res (option dict) :=
  match f with
  | None | Some FText => Ok None
  | Some (FJson v) =>
      match validate v with
      | Ok doc => Ok (Some doc)
      | Err e => if is_policy_error e then Ok None else Err e
      end
  end.

Definition read_lkg_revision (s : fs) (revision : pyval) : res dict :=
  let* r := lkg_revision_path revision in
  let* doc := _read_valid (snd <$> head (filter (fun e => fst e = r) (f_ring s))) in
  match doc with
  | Some doc => Ok doc
  | None => Err (PolicyError "lkg_revision_unavailable" "LKG revision is missing or invalid")
  end.

Definition _fail_closed_document : dict := dset base_document "_fail_closed" (VBool true).

Definition is_none_opt {A} (o : option A) : bool := match o with None => true | Some _ => false end.

Definition initialize : list write := [WLkg (VDict base_document); WAuth (VDict base_document)].

Definition result_of (doc : dict) (degraded fail_closed : bool) : res PolicyResult :=
  let* roles := compile_roles doc in
  Ok {| pr_document := doc; pr_degraded := degraded; pr_fail_closed := fail_closed; pr_roles := roles |}.

(** Under the lock: both files written when both are still absent. *)
Definition _initialize_if_absent (s : fs) : option (res PolicyResult * list write) :=
  if is_none_opt (f_auth s) && is_none_opt (f_lkg s)
  then Some (result_of base_document (f_mark s) false, initialize)
  else None.

(** The result with the writes performed; nothing is written unless the files are
    initialised. *)
Definition load_policy (s : fs) (initialize_missing : bool) : res PolicyResult * list write :=
  match (if is_none_opt (f_auth s) && is_none_opt (f_lkg s) && initialize_missing
         then _initialize_if_absent s else None) with
  | Some initialized => initialized
  | None =>
      (let* authoritative := _read_valid (f_auth s) in
       match authoritative with
       | Some doc =>
           let roles_lost :=
             (f_mark s || is_true (dget_or doc "roles_present" VNone)) && negb (dhas doc "roles") in
           result_of doc roles_lost false
       | None =>
           let* lkg := _read_valid (f_lkg s) in
           match lkg with
           | Some doc => result_of doc true false
           | None => result_of _fail_closed_document true true
           end
       end, [])
  end.

(** ** The outbox watermark *)

Definition _ack_parts (acknowledgement : pyval) : pyval * pyval :=
  match acknowledgement with
  | VDict d => (dget_or d "last_operation_exported_revision" VNone, dget_or d "operation_ack_epoch" VNone)
  | _ => (acknowledgement, VNone)
  end.

(** Does a retained event carry the revision and the identity the epoch names? *)
Definition anchors (acked : Z) (epoch : string) (event : pyval) : bool :=
  match event with
  | VDict e =>
      py_eq (dget_or e "revision" VNone) (VInt acked) &&
      match dget_or e "event_id" VNone with
      | VStr id => hex_re 16 id && String.eqb epoch (epoch_of id)
      | _ => false
      end
  | _ => false
  end.

Definition effective_acked (doc : dict) (acknowledgement : pyval) : res Z :=
  let '(acked, epoch) := _ack_parts acknowledgement in
  match acked, dget_or doc "revision" VNone with
  | VInt acked, VInt revision =>
      if acked <? 0 then Ok 0
      else if revision <? acked then Ok 0
      else if py_eq epoch (dget_or doc "operation_ack_epoch" VNone) then Ok acked
      else
        match epoch with
        | VStr ep =>
            if negb (hex_re 32 ep) then Ok 0
            else
              let* events := iter_val (dget_or doc "operation_outbox" (VList [])) in
              Ok (if existsb (anchors acked ep) events then acked else 0)
        | _ => Ok 0
        end
  | _, _ => Ok 0
  end.

(** [v > z] *)
Definition gt_int (v : pyval) (z : Z) : res bool :=
  match num_of v with
  | Some f => Ok (match num_cmp f (FFin z 0) with Some Gt => true | _ => false end)
  | None => Err (TypeError "'>' not supported")
  end.

(** [[e for e in outbox if e["revision"] > acked]] *)
Fixpoint _prune_acked (outbox : list pyval) (acked : Z) : res (list pyval) :=
  match outbox with
  | [] => Ok []
  | e :: outbox =>
      let* r := item e "revision" in
      let* keep := gt_int r acked in
      let* rest := _prune_acked outbox acked in
      Ok (if (keep : bool) then e :: rest else rest)
  end.

Definition pending_exports (doc : dict) (exported : pyval) : res (list pyval) :=
  let* acked := effective_acked doc exported in
  let* events := iter_val (dget_or doc "operation_outbox" (VList [])) in
  let* pending := _prune_acked events acked in
  let* keyed := res_map (fun e => let* r := item e "revision" in Ok (r, e)) pending in
  let* keyed := sort_keyed keyed in
  Ok (map snd keyed).

(** ** Commits *)

Record commit_args := {
  ca_action : string;
  ca_target : pyval;
  ca_actor : pyval;
  ca_now : pyfloat;
  ca_acked : pyval;
  ca_expected : pyval;
  ca_dry_run : bool;
  ca_event_id : string (* [_new_event_id()]: 16 random hex digits *) }.

Definition event_of (args : commit_args) (revision : Z) : pyval :=
  VDict [("event_id", VStr (ca_event_id args)); ("revision", VInt revision);
         ("action", VStr (ca_action args)); ("target", ca_target args);
         ("actor", ca_actor args); ("created_at", VFloat (ca_now args))].

(** The current document, or the refusal to build on an invalid state. *)
Definition commit_prior (s : fs) : res dict :=
  let* prior := _read_valid (f_auth s) in
  match prior with
  | Some doc => Ok doc
  | None =>
      if negb (is_none_opt (f_auth s) && is_none_opt (f_lkg s)) then
        let* lkg := _read_valid (f_lkg s) in
        match lkg with
        | Some _ => Err (PolicyDegradedError "authoritative policy invalid; repair before mutation")
        | None => Err (perr "policy state invalid; mutation denied")
        end
      else Ok base_document
  end.

(** [candidate["operation_outbox"].append(event)] *)
Definition append_event (candidate : dict) (event : pyval) : res dict :=
  match dget candidate "operation_outbox" with
  | None => Err (KeyError "operation_outbox")
  | Some (VList l) => Ok (dset candidate "operation_outbox" (VList (l ++ [event])))
  | Some _ => Err (AttributeError "append")
  end.

(** The validated candidate built from [prior]. *)
Definition commit_candidate (prior : dict) (args : commit_args) (mutate : dict -> res dict) : res dict :=
  raise (RevisionConflict (match dget_or prior "revision" VNone with VInt z => z | _ => 0 end))
    when negb (is_none (ca_expected args)) && negb (py_eq (dget_or prior "revision" VNone) (ca_expected args)) ;;;
  let* events := iter_val (dget_or prior "operation_outbox" (VList [])) in
  let* acked := effective_acked prior (ca_acked args) in
  let* outbox := _prune_acked events acked in
  raise OperationBacklogFull when (OUTBOX_CAP <=? zlen outbox) ;;;
  let candidate := dset prior "operation_outbox" (VList outbox) in
  let* candidate := _normalize_quarantine candidate in
  let* candidate := mutate candidate in
  let* candidate := _normalize_quarantine candidate in
  let candidate :=
    if dhas candidate "roles" || is_true (dget_or prior "roles_present" VNone)
    then dset candidate "roles_present" (VBool true) else candidate in
  let revision := match dget_or prior "revision" VNone with VInt z => z + 1 | _ => 0 end in
  let candidate := dset candidate "revision" (VInt revision) in
  let* candidate := append_event candidate (event_of args revision) in
  let candidate := dset candidate "operation_ack_epoch" (VStr (epoch_of (ca_event_id args))) in
  let* _ := validate (VDict candidate) in
  Ok candidate.

(** The result with the atomic writes performed, in order.  A prior revision below
    one has no ring file name: the commit stops there, before its commit point. *)
Definition commit_mutation (s : fs) (args : commit_args) (mutate : dict -> res dict)
    (precommit : dict -> dict -> res unit) : res dict * list write :=
  match commit_prior s with
  | Err e => (Err e, [])
  | Ok prior =>
      match (let* candidate := commit_candidate prior args mutate in
             precommit prior candidate ;;; Ok candidate) with
      | Err e => (Err e, [])
      | Ok candidate =>
          if ca_dry_run args then (Ok candidate, [])
          else
            let mark :=
              if is_true (dget_or candidate "roles_present" VNone) && negb (f_mark s) then [WMark] else [] in
            let evidence := mark ++ [WLkg (VDict prior)] in
            match _write_lkg_ring prior with
            | Err e => (Err e, evidence)
            | Ok ring =>
                let committed := evidence ++ [ring; WAuth (VDict candidate)] in
                (Ok candidate, committed ++ _prune_lkg_ring (apply_writes s committed))
            end
      end
  end.

(** [precommit=None] *)
Definition no_precommit (prior candidate : dict) : res unit := Ok tt.
End store.
