(* ===== verification/PolicyCommit.v ===== *)
(** * [server/peer_policy.py]: what a commit guarantees

    Crash safety of the write sequence, the roles-ever marker, the recovery records,
    revision and outbox discipline, read precedence and the acknowledgement
    watermark. *)
From S2P Require Import Prelude PyVal Ipv4 JsonDump Sha256 PolicyDoc PolicySample PolicyQuarantine PolicyQos.
From S2P Require Import PolicyRoles PolicyValid PolicyPersist PolicyEval PolicyEvalSpec PolicyStore.

(** ** Writes *)

Definition writes_auth (w : write) : bool := match w with WAuth _ => true | _ => false end.

Lemma apply_writes_app s a b : apply_writes s (a ++ b) = apply_writes (apply_writes s a) b.
Proof. apply foldl_app. Qed.

Lemma untouched_auth s ws :
  Forall (fun w => writes_auth w = false) ws -> f_auth (apply_writes s ws) = f_auth s.
Proof.
  revert s. induction ws as [| w ws IH]; intros s H; [done |]. apply Forall_cons in H as [Hw H].
  cbn. rewrite IH by done. by destruct w.
Qed.

Lemma mark_kept s ws : f_mark s = true -> f_mark (apply_writes s ws) = true.
Proof. revert s. induction ws as [| w ws IH]; intros s H; [done |]. cbn. apply IH. by destruct w. Qed.

Lemma unring_only s rs :
  f_auth (apply_writes s (map WUnring rs)) = f_auth s /\ f_lkg (apply_writes s (map WUnring rs)) = f_lkg s /\
  f_ring (apply_writes s (map WUnring rs)) = filter (fun e => fst e ∉ rs) (f_ring s).
Proof.
  revert s. induction rs as [| r rs IH]; intros s; cbn [map apply_writes foldl].
  - split_and!; try done. cbn. symmetry. apply filter_all, Forall_forall. intros x _. apply not_elem_of_nil.
  - destruct (IH (apply_write s (WUnring r))) as (H1 & H2 & H3). unfold apply_writes in *. rewrite H1, H2, H3.
    split_and!; try done. cbn [apply_write f_ring]. rewrite list_filter_filter. apply list_filter_iff.
    intros x. rewrite not_elem_of_cons. tauto.
Qed.

(** ** Values stay well formed *)

Lemma normalize_wf c c' : wf_val (VDict c) -> _normalize_quarantine c = Ok c' -> wf_val (VDict c').
Proof.
  intros Hw H. unfold _normalize_quarantine in H. head H as Ea. head H as Em. case_bool_decide.
  { by injection H as <-. }
  assert (Hd : wf_val (VDict d)) by (rewrite <- Ea; apply (wf_dget_or _ _ VNone Hw I)).
  assert (Hm : wf_val (VDict a)).
  { destruct (dget c "quarantined_devices") eqn:E; [head Em |]; injection Em as <-; [| apply wf_empty].
    apply wf_dict_or_empty. exact (wf_dget _ _ _ Hw E). }
  injection H as <-. apply wf_dset; [apply wf_dset; [done | by apply wf_foldl_dpop] |].
  by apply (wf_foldl_dset _ id (fun _ => VBool true)).
Qed.

Lemma prune_sublist outbox acked out : _prune_acked outbox acked = Ok out -> out `sublist_of` outbox.
Proof.
  revert out. induction outbox as [| e l IH]; intros out H; cbn [_prune_acked] in H.
  { injection H as <-. constructor. }
  head H. head H as Ek. head H as Er. injection H as <-. destruct a0; constructor; by apply IH.
Qed.

Lemma wf_sublist l k : l `sublist_of` k -> wf_val (VList k) -> wf_val (VList l).
Proof. rewrite !wf_list. intros Hs. induction Hs; rewrite ?Forall_cons; naive_solver. Qed.

Definition wf_mutator (mutate : dict -> res dict) : Prop :=
  forall c c', wf_val (VDict c) -> mutate c = Ok c' -> wf_val (VDict c').

(** A mutation that leaves the outbox alone. *)
Definition keeps_outbox (mutate : dict -> res dict) : Prop :=
  forall c c', mutate c = Ok c' -> dget c' "operation_outbox" = dget c "operation_outbox".

(** What a commit asks of the mutation it runs; every lifecycle operation of the
    module is shown to be an instance. *)
Class PolicyMutation (mutate : dict -> res dict) : Prop := {
  mutation_wf : wf_mutator mutate;
  mutation_outbox : keeps_outbox mutate }.

Definition wf_args (args : commit_args) : Prop := wf_val (ca_target args) /\ wf_val (ca_actor args).

Lemma event_wf args r : wf_args args -> wf_val (event_of args r).
Proof. intros [Ht Ha]. apply wf_dict. split; [by_eval |]. repeat constructor; done. Qed.

Lemma iter_outbox_wf d events : wf_val (VDict d) ->
  iter_val (dget_or d "operation_outbox" (VList [])) = Ok events -> wf_val (VList events).
Proof.
  intros Hw H. pose proof (wf_dget_or d "operation_outbox" (VList []) Hw I) as Ho.
  destruct (dget_or d "operation_outbox" (VList [])); cbn in H; try done; injection H as <-; [done |].
  apply wf_list, Forall_map, Forall_forall. done.
Qed.

Section candidate.
Context (ttl : Z) (prior candidate : dict) (args : commit_args) (mutate : dict -> res dict).
Context (Hc : commit_candidate ttl prior args mutate = Ok candidate).

Lemma candidate_wf : wf_val (VDict prior) -> wf_args args -> wf_mutator mutate -> wf_val (VDict candidate).
Proof.
  intros Hw Ha Hm. unfold commit_candidate in Hc. head Hc. head Hc as Eev. head Hc as Eack. head Hc as Epr.
  head Hc. head Hc as En1. head Hc as Emu. head Hc as En2. head Hc as Eap. head Hc as Ev. injection Hc as <-.
  apply wf_dset; [| done].
  assert (Hw1 : wf_val (VDict a4)).
  { eapply normalize_wf; [| exact En2]. eapply Hm; [| exact Emu]. eapply normalize_wf; [| exact En1].
    apply wf_dset; [done |]. eapply wf_sublist; [by eapply prune_sublist | by eapply iter_outbox_wf]. }
  unfold append_event in Eap. revert Eap.
  match goal with |- context [dset ?d "revision" ?v] => set (d0 := dset d "revision" v) end. intros Eap.
  assert (Hw2 : wf_val (VDict d0)).
  { subst d0. apply wf_dset; [| done]. destruct (_ || _); auto with py. by apply wf_dset. }
  head Eap as Eo. head Eap. injection Eap as <-. apply wf_dset; [done |]. apply wf_list, Forall_app. split.
  - apply wf_list. exact (wf_dget _ _ _ Hw2 Eo).
  - constructor; [by apply event_wf | constructor].
Qed.

Lemma candidate_valid : validate_document ttl (VDict candidate) = Ok candidate.
Proof.
  unfold commit_candidate in Hc. head Hc. head Hc. head Hc. head Hc. head Hc. head Hc. head Hc. head Hc. head Hc.
  head Hc as Ev. injection Hc as <-. rewrite Ev. f_equal. by apply validate_document_ok in Ev as [-> _].
Qed.
End candidate.

(** ** The shape of a commit *)

(** The evidence written before the commit point. *)
Definition evidence (s : fs) (prior candidate : dict) (n : Z) : list write :=
  (if is_true (dget_or candidate "roles_present" VNone) && negb (f_mark s) then [WMark] else []) ++
  [WLkg (VDict prior); WRing n (VDict prior)].

Inductive commit_shape (ttl : Z) (s : fs) (args : commit_args) (mutate : dict -> res dict)
    : res dict -> list write -> Prop :=
  | shape_failed e ws :
      Forall (fun w => writes_auth w = false) ws -> commit_shape ttl s args mutate (Err e) ws
  | shape_dry prior candidate :
      commit_prior ttl s = Ok prior -> commit_candidate ttl prior args mutate = Ok candidate ->
      ca_dry_run args = true -> commit_shape ttl s args mutate (Ok candidate) []
  | shape_done prior candidate n rs :
      commit_prior ttl s = Ok prior -> commit_candidate ttl prior args mutate = Ok candidate ->
      ca_dry_run args = false -> dget prior "revision" = Some (VInt n) -> 1 <= n ->
      map WUnring rs = _prune_lkg_ring (apply_writes s (evidence s prior candidate n ++ [WAuth (VDict candidate)])) ->
      commit_shape ttl s args mutate (Ok candidate)
        (evidence s prior candidate n ++ WAuth (VDict candidate) :: map WUnring rs).

Lemma commit_cases ttl s args mutate precommit r ws :
  commit_mutation ttl s args mutate precommit = (r, ws) -> commit_shape ttl s args mutate r ws.
Proof.
  unfold commit_mutation. destruct (commit_prior ttl s) as [prior |] eqn:Ep; [| intros [= <- <-]; by constructor].
  destruct (commit_candidate ttl prior args mutate) as [candidate |] eqn:Ec; cbn [mbind res_bind];
    [| intros [= <- <-]; by constructor].
  destruct (precommit prior candidate); cbn [mbind res_bind]; [| intros [= <- <-]; by constructor].
  destruct (ca_dry_run args) eqn:Ed; [intros [= <- <-]; by eapply shape_dry |].
  unfold _write_lkg_ring, lkg_revision_path.
  change (dget_or prior "revision" VNone) with (default VNone (dget prior "revision")).
  assert (Hmark : Forall (fun w => writes_auth w = false)
    ((if is_true (dget_or candidate "roles_present" VNone) && negb (f_mark s) then [WMark] else []) ++ [WLkg (VDict prior)])).
  { destruct (_ && _); by repeat constructor. }
  destruct (dget prior "revision") as [[| | n | | | |] |] eqn:En; cbn [from_option id mbind res_bind];
    try (intros [= <- <-]; by constructor).
  destruct (n <? 1) eqn:El; cbn [mbind res_bind]; [intros [= <- <-]; by constructor |]. intros [= <- <-].
  rewrite <- !app_assoc. cbn [app]. unfold _prune_lkg_ring.
  match goal with |- context [map WUnring ?l] => set (rs := l) end.
  replace (_ ++ _) with (evidence s prior candidate n ++ WAuth (VDict candidate) :: map WUnring rs).
  2: { unfold evidence. by rewrite <- app_assoc. }
  bool_norm. eapply shape_done; [done | done | done | exact En | lia |]. subst rs. unfold _prune_lkg_ring, evidence.
  by rewrite <- app_assoc.
Qed.

Lemma evidence_pure s prior candidate n : Forall (fun w => writes_auth w = false) (evidence s prior candidate n).
Proof. unfold evidence. destruct (_ && _); by repeat constructor. Qed.

Lemma unring_pure rs : Forall (fun w => writes_auth w = false) (map WUnring rs).
Proof. apply Forall_map, Forall_forall. done. Qed.

(** The authoritative file at any crash point. *)
Lemma commit_auth ttl s args mutate r ws ws1 ws2 :
  commit_shape ttl s args mutate r ws -> ws = ws1 ++ ws2 ->
  f_auth (apply_writes s ws1) = f_auth s \/
  exists prior candidate n, r = Ok candidate /\ commit_candidate ttl prior args mutate = Ok candidate /\
    commit_prior ttl s = Ok prior /\ evidence s prior candidate n `prefix_of` ws1 /\
    f_auth (apply_writes s ws1) = Some (FJson (sort_keys (VDict candidate))).
Proof.
  intros H. destruct H as [e ws Hpure | prior candidate Hp Hc Hd | prior candidate n rs Hp Hc Hd Hn Hpos Hrs]; intros Hws.
  - left. apply untouched_auth. subst ws. by apply Forall_app in Hpure as [? _].
  - left. symmetry in Hws. apply app_nil in Hws as [-> _]. done.
  - symmetry in Hws. apply app_eq_inv in Hws as [(k & -> & Hk) | (k & Hk & _)].
    + destruct k as [| w k]; cbn in Hk.
      * left. apply untouched_auth. rewrite app_nil_r. apply evidence_pure.
      * injection Hk as <- Hk. right. exists prior, candidate, n. split_and!; try done; [by exists (WAuth (VDict candidate) :: k) |].
        pose proof (unring_pure rs) as Hu. rewrite Hk in Hu. apply Forall_app in Hu as [Hu _].
        rewrite apply_writes_app. exact (untouched_auth _ k Hu).
    + left. apply untouched_auth. pose proof (evidence_pure s prior candidate n) as He. rewrite Hk in He.
      by apply Forall_app in He as [? _].
Qed.

(** ** Crash safety *)

Lemma accepted_compiles ttl doc : accepted ttl doc -> exists c, compile_roles doc = Ok c.
Proof. intros (c & Hc & _)%accepted_view. eauto. Qed.

Lemma load_accepted ttl s doc b :
  f_auth s = Some (FJson (VDict doc)) -> accepted ttl doc ->
  exists pr, load_policy ttl s b = (Ok pr, []) /\ pr_document pr = doc /\ pr_fail_closed pr = false /\
    pr_degraded pr = (f_mark s || is_true (dget_or doc "roles_present" VNone)) && negb (dhas doc "roles").
Proof.
  intros Hf Hacc. destruct (accepted_compiles _ _ Hacc) as [c Hc]. destruct Hacc as [_ Hv].
  unfold load_policy. rewrite Hf. cbn [is_none_opt andb _read_valid]. rewrite Hv. cbn [mbind res_bind].
  unfold result_of. rewrite Hc. cbn [mbind res_bind]. eexists. split; [reflexivity |]. done.
Qed.

Lemma accepted_persisted ttl doc : accepted ttl doc -> accepted ttl (persisted doc).
Proof.
  intros [Hw Hv]. assert (Hwp : wf_val (VDict (persisted doc))) by exact (wf_sort_keys _ Hw). split; [done |].
  eapply jeq_validate_document; [exact (jeq_sort_keys _ Hw) | done | done | done].
Qed.

Lemma prior_of_auth ttl s doc prior :
  f_auth s = Some (FJson (VDict doc)) -> accepted ttl doc -> commit_prior ttl s = Ok prior -> prior = doc.
Proof.
  intros Hf [_ Hv] H. unfold commit_prior in H. rewrite Hf in H. cbn [_read_valid] in H. rewrite Hv in H. by injection H.
Qed.

Lemma candidate_accepted ttl prior args mutate candidate :
  accepted ttl prior -> wf_args args -> wf_mutator mutate ->
  commit_candidate ttl prior args mutate = Ok candidate -> accepted ttl candidate.
Proof.
  intros [Hw _] Ha Hm Hc. split; [by eapply candidate_wf | by eapply candidate_valid].
Qed.

(** C1: a commit is atomic under crashes: stop it after any number of its file
    replacements, and a reload still finds a valid authoritative document, not
    failing closed and not falling back to the last known good: the prior document,
    or the complete candidate; the candidate once every write is done.  A commit
    that raises leaves the prior document in place. *)
Theorem commit_crash_safe ttl s prior args mutate `{!PolicyMutation mutate} precommit r ws ws1 ws2 :
  f_auth s = Some (FJson (VDict prior)) -> accepted ttl prior -> wf_args args ->
  commit_mutation ttl s args mutate precommit = (r, ws) -> ws = ws1 ++ ws2 ->
  exists pr, load_policy ttl (apply_writes s ws1) true = (Ok pr, []) /\ pr_fail_closed pr = false /\
    (pr_document pr = prior \/ exists candidate, r = Ok candidate /\ pr_document pr = persisted candidate) /\
    (ws2 = [] -> ca_dry_run args = false -> forall candidate, r = Ok candidate -> pr_document pr = persisted candidate).
Proof.
  intros Hf Hacc Ha Hcm%commit_cases Hws. pose proof (mutation_wf (mutate:=mutate)) as Hm.
  assert (Hdone : ws2 = [] -> ca_dry_run args = false -> forall candidate, r = Ok candidate ->
    f_auth (apply_writes s ws1) = Some (FJson (sort_keys (VDict candidate)))).
  { intros -> Hd candidate ->. rewrite app_nil_r in Hws. subst ws1.
    inversion Hcm as [| ? ? ? ? Hdry | p c n rs Hp Hc Hd' Hn Hpos Hrs]; subst; [congruence |].
    rewrite apply_writes_app. exact (untouched_auth _ _ (unring_pure rs)). }
  destruct (commit_auth _ _ _ _ _ _ _ _ Hcm Hws) as [Hauth | (p & candidate & n & -> & Hc & Hp & _ & Hauth)].
  - rewrite Hf in Hauth. destruct (load_accepted ttl _ prior true Hauth Hacc) as (pr & Hl & Hdoc & Hfc & _).
    exists pr. split_and!; [done | done | by left |]. intros H2 Hd candidate Hr. specialize (Hdone H2 Hd candidate Hr).
    assert (Heq : sort_keys (VDict candidate) = VDict prior) by congruence. rewrite Hdoc. unfold persisted. by rewrite Heq.
  - assert (p = prior) as -> by (by eapply prior_of_auth).
    pose proof (accepted_persisted _ _ (candidate_accepted _ _ _ _ _ Hacc Ha Hm Hc)) as Hpc.
    destruct (load_accepted ttl _ (persisted candidate) true Hauth Hpc) as (pr & Hl & Hdoc & Hfc & _).
    exists pr. split_and!; [done | done | by right; eauto |]. intros _ _ c' [= <-]. done.
Qed.

(** A store and a commit for the witnesses. *)
Definition sample_fs : fs :=
  Fs (Some (FJson (VDict sample_doc))) None false [(1, FText); (2, FText); (3, FText); (4, FText); (5, FText)].

Definition sample_args : commit_args :=
  {| ca_action := "set_note"; ca_target := VStr "policy"; ca_actor := VStr "operator"; ca_now := FFin 1 0;
     ca_acked := VInt 0; ca_expected := VInt 7; ca_dry_run := false; ca_event_id := "0123456789abcdef" |}.

Definition keep_document (c : dict) : res dict := Ok c.

Lemma sample_wf_args : wf_args sample_args.
Proof. by split. Qed.

#[export] Instance keep_document_mutation : PolicyMutation keep_document.
Proof. split; [by intros c c' Hc [= <-] | by intros c c' [= <-]]. Qed.

Lemma commit_crash_safe_witness :
  exists pr, load_policy 900 (apply_writes sample_fs
      (take 2 (snd (commit_mutation 900 sample_fs sample_args keep_document no_precommit)))) true = (Ok pr, []) /\
    pr_fail_closed pr = false.
Proof.
  destruct (commit_crash_safe 900 sample_fs sample_doc sample_args keep_document no_precommit
    (fst (commit_mutation 900 sample_fs sample_args keep_document no_precommit))
    (snd (commit_mutation 900 sample_fs sample_args keep_document no_precommit))
    (take 2 (snd (commit_mutation 900 sample_fs sample_args keep_document no_precommit)))
    (drop 2 (snd (commit_mutation 900 sample_fs sample_args keep_document no_precommit))))
    as (pr & Hl & Hfc & _).
  - reflexivity.
  - apply sample_accepted.
  - apply sample_wf_args.
  - by destruct (commit_mutation 900 sample_fs sample_args keep_document no_precommit).
  - symmetry. apply take_drop.
  - exists pr. split; [exact Hl | exact Hfc].
Defined.

(** ** The roles-ever marker *)

Definition roles_present (doc : dict) : bool := is_true (dget_or doc "roles_present" VNone).

(** A document that says roles exist is only ever active next to the marker. *)
Definition roles_marked (s : fs) : Prop :=
  forall doc, f_auth s = Some (FJson (VDict doc)) -> roles_present doc = true -> f_mark s = true.

Lemma roles_present_persisted doc : wf_val (VDict doc) -> roles_present (persisted doc) = roles_present doc.
Proof.
  intros [Hnd _]%wf_dict. unfold roles_present, persisted, dget_or. rewrite dget_sort_keys by done.
  destruct (dget doc "roles_present") as [[] |]; done.
Qed.

Lemma evidence_marks s prior candidate n ws :
  roles_present candidate = true -> evidence s prior candidate n `prefix_of` ws -> f_mark (apply_writes s ws) = true.
Proof.
  intros Hr [k ->]. rewrite apply_writes_app. apply mark_kept. unfold evidence, roles_present in *. rewrite Hr.
  destruct (f_mark s) eqn:E; cbn; [done |]. done.
Qed.

(** At no point of a commit, crashes included, is a document with roles active
    without the durable evidence that roles ever existed; that evidence is what turns
    a later loss of the files into a degraded state rather than open discovery. *)
Theorem commit_marks_roles ttl s prior args mutate `{!PolicyMutation mutate} precommit r ws ws1 ws2 :
  roles_marked s -> f_auth s = Some (FJson (VDict prior)) -> accepted ttl prior -> wf_args args ->
  commit_mutation ttl s args mutate precommit = (r, ws) -> ws = ws1 ++ ws2 ->
  roles_marked (apply_writes s ws1).
Proof.
  intros Hmk Hf Hacc Ha Hcm%commit_cases Hws doc Hdoc Hrp. pose proof (mutation_wf (mutate:=mutate)) as Hm.
  destruct (commit_auth _ _ _ _ _ _ _ _ Hcm Hws) as [Hauth | (p & candidate & n & -> & Hc & Hp & Hev & Hauth)].
  - rewrite Hauth in Hdoc. apply mark_kept. by eapply Hmk.
  - assert (p = prior) as -> by (by eapply prior_of_auth).
    destruct (candidate_accepted _ _ _ _ _ Hacc Ha Hm Hc) as [Hwc _].
    eapply evidence_marks; [| exact Hev]. rewrite <- roles_present_persisted by done.
    replace (persisted candidate) with doc; [done |]. unfold persisted.
    assert (sort_keys (VDict candidate) = VDict doc) as -> by congruence. done.
Qed.

Lemma commit_marks_roles_witness :
  let ws := snd (commit_mutation 900 sample_fs sample_args keep_document no_precommit) in
  roles_marked (apply_writes sample_fs ws).
Proof.
  cbv zeta. refine (commit_marks_roles 900 sample_fs sample_doc sample_args keep_document no_precommit
    (fst (commit_mutation 900 sample_fs sample_args keep_document no_precommit))
    (snd (commit_mutation 900 sample_fs sample_args keep_document no_precommit)) _ [] _ eq_refl _ _ _ _).
  - intros doc Hdoc Hr. injection Hdoc as <-. by vm_compute in Hr.
  - apply sample_accepted.
  - apply sample_wf_args.
  - by destruct (commit_mutation 900 sample_fs sample_args keep_document no_precommit).
  - by rewrite app_nil_r.
Defined.

(** ** Recovery records *)

Lemma sort_Z_sorted l : StronglySorted (fun a b => (a <=? b) = true) (sort_by Z.leb l).
Proof. apply sort_by_sorted; intros; lia. Qed.

Lemma sorted_take_drop l n x y :
  StronglySorted (fun a b => (a <=? b) = true) l -> x ∈ take n l -> y ∈ drop n l -> x <= y.
Proof.
  intros Hs Hx Hy. rewrite <- (take_drop n l) in Hs.
  pose proof (StronglySorted_app_1_elem_of _ _ _ _ _ Hs Hx Hy) as H. cbn in H. lia.
Qed.

Lemma map_fst_filter (P : Z -> Prop) `{!forall r, Decision (P r)} `{!forall e : Z * file, Decision (P (fst e))}
    (l : list (Z * file)) :
  map fst (filter (fun e => P (fst e)) l) = filter P (map fst l).
Proof.
  induction l as [| [r f] l IH]; [done |]. cbn [map]. rewrite !filter_cons. cbn [fst].
  destruct (decide (P r)), (decide (P r)); cbn [map]; [by rewrite IH | done | done | done].
Qed.

Lemma filter_out_take (l : list Z) n : NoDup l -> filter (fun r => r ∉ take n l) l = drop n l.
Proof.
  intros Hnd. rewrite <- (take_drop n l) in Hnd. apply NoDup_app in Hnd as (_ & Hdis & _).
  transitivity (filter (fun r => r ∉ take n l) (take n l ++ drop n l)); [by rewrite take_drop |].
  rewrite filter_app, filter_none, filter_all; [done | |].
  - apply Forall_forall. intros x Hx Ht. by apply (Hdis x).
  - apply Forall_forall. tauto.
Qed.

Lemma unring_inj a b : map WUnring a = map WUnring b -> a = b.
Proof. revert b. induction a as [| x a IH]; intros [| y b] H; try done. injection H as -> H. by rewrite (IH b). Qed.

(** The ring after pruning. *)
Lemma pruned_ring s rs :
  NoDup (map fst (f_ring s)) -> map WUnring rs = _prune_lkg_ring s ->
  let s' := apply_writes s (map WUnring rs) in
  (length (lkg_ring_revisions s') <= LKG_RING_SIZE)%nat /\
  (forall e, e ∈ f_ring s -> e ∈ f_ring s' \/ forall r, r ∈ lkg_ring_revisions s' -> fst e <= r).
Proof.
  intros Hnd Hrs. unfold _prune_lkg_ring in Hrs.
  apply unring_inj in Hrs.
  set (R := lkg_ring_revisions s) in *. destruct (unring_only s rs) as (_ & _ & Hring). cbv zeta.
  assert (HndR : NoDup R).
  { subst R. unfold lkg_ring_revisions. rewrite sort_by_perm. by apply NoDup_filter. }
  assert (Hperm : lkg_ring_revisions (apply_writes s (map WUnring rs)) ≡ₚ drop (length R - LKG_RING_SIZE) R).
  { unfold lkg_ring_revisions. rewrite Hring, sort_by_perm, (map_fst_filter (fun r => r ∉ rs)).
    rewrite list_filter_filter. rewrite <- (filter_out_take R) by done. rewrite Hrs.
    generalize (take (length R - LKG_RING_SIZE) R). intros T. subst R. unfold lkg_ring_revisions.
    rewrite sort_by_perm, list_filter_filter. erewrite list_filter_iff; [reflexivity |]. tauto. }
  split.
  - rewrite Hperm, length_drop. lia.
  - intros e He. rewrite Hring. destruct (decide (fst e ∈ rs)) as [Hin | Hn].
    + right. intros r Hr. rewrite Hperm in Hr. rewrite Hrs in Hin.
      eapply sorted_take_drop; [apply sort_Z_sorted | exact Hin | exact Hr].
    + left. by apply list_elem_of_filter.
Qed.

(** The state just after the commit point. *)
Lemma evidence_state s prior candidate n :
  let s1 := apply_writes s (evidence s prior candidate n ++ [WAuth (VDict candidate)]) in
  f_auth s1 = Some (FJson (sort_keys (VDict candidate))) /\ f_lkg s1 = Some (FJson (sort_keys (VDict prior))) /\
  f_ring s1 = (n, FJson (sort_keys (VDict prior))) :: filter (fun e => fst e <> n) (f_ring s).
Proof. unfold evidence. by destruct (is_true _ && _). Qed.

Lemma ring_write_NoDup (ring : list (Z * file)) n f :
  NoDup (map fst ring) -> NoDup (map fst ((n, f) :: filter (fun e => fst e <> n) ring)).
Proof.
  intros H. cbn [map fst]. rewrite (map_fst_filter (fun r => r <> n)). apply NoDup_cons. split.
  - rewrite list_elem_of_filter. tauto.
  - by apply NoDup_filter.
Qed.

(** A finished commit leaves its recovery records: the prior document as last
    known good and, under its revision, in the ring of prior revisions; the ring
    keeps at most five revisions, and only revisions no greater than every kept one
    are dropped. *)
Theorem commit_recovery_records ttl s prior args mutate precommit candidate ws :
  NoDup (map fst (f_ring s)) -> f_auth s = Some (FJson (VDict prior)) -> accepted ttl prior ->
  ca_dry_run args = false -> commit_mutation ttl s args mutate precommit = (Ok candidate, ws) ->
  let s' := apply_writes s ws in
  f_auth s' = Some (FJson (sort_keys (VDict candidate))) /\ f_lkg s' = Some (FJson (sort_keys (VDict prior))) /\
  (length (lkg_ring_revisions s') <= LKG_RING_SIZE)%nat /\
  exists n, dget prior "revision" = Some (VInt n) /\
    forall e, e = (n, FJson (sort_keys (VDict prior))) \/ (e ∈ f_ring s /\ fst e <> n) ->
      e ∈ f_ring s' \/ forall r, r ∈ lkg_ring_revisions s' -> fst e <= r.
Proof.
  intros Hnd Hf Hacc Hd Hcm%commit_cases.
  inversion Hcm as [| ? ? ? ? Hdry | p c n rs Hp Hc Hd' Hn Hpos Hrs]; subst; [congruence |].
  assert (p = prior) as -> by (by eapply prior_of_auth). cbv zeta.
  change (WAuth (VDict candidate) :: map WUnring rs) with ([WAuth (VDict candidate)] ++ map WUnring rs).
  rewrite app_assoc, apply_writes_app. destruct (evidence_state s prior candidate n) as (Ha & Hl & Hr).
  set (s1 := apply_writes s (evidence s prior candidate n ++ [WAuth (VDict candidate)])) in *.
  destruct (unring_only s1 rs) as (-> & -> & _).
  assert (Hnd1 : NoDup (map fst (f_ring s1))) by (rewrite Hr; by apply ring_write_NoDup).
  destruct (pruned_ring s1 rs Hnd1 Hrs) as [Hlen Hkeep]. split_and!; [done | done | done |].
  exists n. split; [done |]. intros e He. apply Hkeep. rewrite Hr. apply elem_of_cons.
  destruct He as [-> | [Hin Hne]]; [by left | right]. by apply list_elem_of_filter.
Qed.

Lemma commit_recovery_records_witness :
  exists candidate ws, commit_mutation 900 sample_fs sample_args keep_document no_precommit = (Ok candidate, ws) /\
    f_lkg (apply_writes sample_fs ws) = Some (FJson (sort_keys (VDict sample_doc))).
Proof.
  destruct (commit_mutation 900 sample_fs sample_args keep_document no_precommit) as [[candidate | e] ws] eqn:E.
  - exists candidate, ws. split; [reflexivity |].
    refine (proj1 (proj2 (commit_recovery_records 900 sample_fs sample_doc sample_args keep_document no_precommit
      candidate ws _ eq_refl sample_accepted eq_refl E))).
    by_eval.
  - exfalso. assert (H : is_ok (fst (commit_mutation 900 sample_fs sample_args keep_document no_precommit)) = true)
      by (vm_compute; reflexivity). by rewrite E in H.
Defined.

(** ** Outbox discipline *)

(** The revision of an event, when it is an integer. *)
Definition event_revision (e : pyval) : option Z :=
  match e with VDict d => dget d "revision" ≫= strict_int | _ => None end.

Lemma event_revision_item e r : event_revision e = Some r -> item e "revision" = Ok (VInt r).
Proof.
  destruct e as [| | | | | | d]; try done. cbn. destruct (dget d "revision") as [[] |]; try done. by intros [= ->].
Qed.

Lemma gt_int_int r z : gt_int (VInt r) z = Ok (z <? r).
Proof.
  unfold gt_int, num_of, num_cmp. rewrite Z.sub_diag, !Z.mul_1_r. f_equal. unfold Z.ltb.
  rewrite Z.compare_antisym. by destruct (z ?= r).
Qed.

Definition event_above (acked : Z) (e : pyval) : bool :=
  match event_revision e with Some r => acked <? r | None => false end.

Definition events_typed (events : list pyval) : Prop := Forall (fun e => is_Some (event_revision e)) events.

Lemma prune_acked_spec events acked :
  events_typed events ->
  _prune_acked events acked = Ok (filter (fun e => event_above acked e = true) events).
Proof.
  induction 1 as [| e events [r Hr] _ IH]; [done |]. cbn [_prune_acked].
  rewrite (event_revision_item e r Hr). cbn [mbind res_bind]. rewrite gt_int_int. cbn [mbind res_bind].
  rewrite IH. cbn [mbind res_bind].
  assert (Hab : event_above acked e = (acked <? r)) by (unfold event_above; by rewrite Hr).
  destruct (acked <? r); [by rewrite filter_cons_True | by rewrite filter_cons_False by congruence].
Qed.

Definition outbox_of (doc : dict) : list pyval :=
  match dget doc "operation_outbox" with Some (VList l) => l | _ => [] end.

Lemma normalize_outbox c c' :
  wf_val (VDict c) -> _normalize_quarantine c = Ok c' -> dget c' "operation_outbox" = dget c "operation_outbox".
Proof. intros Hw H. destruct (normalize_inv c c' Hw H) as (_ & _ & Hk). by apply Hk. Qed.

(** A commit moves the revision up by exactly one and never loses an operation:
    the new outbox is the prior one without the events at or below the sanitised
    watermark, in order, with the new event (carrying the new revision) at its end,
    and still fits the cap. *)
Theorem commit_outbox ttl prior args mutate `{!PolicyMutation mutate} candidate :
  wf_val (VDict prior) ->
  validate_document ttl (VDict prior) = Ok prior -> events_typed (outbox_of prior) ->
  commit_candidate ttl prior args mutate = Ok candidate ->
  exists n acked, dget prior "revision" = Some (VInt n) /\ effective_acked prior (ca_acked args) = Ok acked /\
    dget candidate "revision" = Some (VInt (n + 1)) /\
    outbox_of candidate =
      filter (fun e => event_above acked e = true) (outbox_of prior) ++ [event_of args (n + 1)] /\
    zlen (outbox_of candidate) <= OUTBOX_CAP.
Proof.
  intros Hw Hv Hty H. pose proof (mutation_wf (mutate:=mutate)) as Hm.
  pose proof (mutation_outbox (mutate:=mutate)) as Hkeep. apply validate_document_ok in Hv as (_ & acls & asg & Hok).
  destruct (ok_revision _ _ _ _ Hok) as [n Hn]. destruct (ok_outbox _ _ _ _ Hok) as (events & Ho & _).
  unfold outbox_of in Hty |- * at 2. rewrite Ho in Hty |- *.
  unfold commit_candidate in H. head H. change (dget_or prior "operation_outbox" (VList [])) with
    (default (VList []) (dget prior "operation_outbox")) in H. rewrite Ho in H. cbn [from_option id iter_val mbind res_bind] in H.
  head H as Eack. rewrite (prune_acked_spec events a Hty) in H. cbn [mbind res_bind] in H. head H as Ecap.
  head H as En1. head H as Emu. head H as En2.
  change (dget_or prior "revision" VNone) with (default VNone (dget prior "revision")) in H. rewrite Hn in H.
  cbn [from_option id] in H. head H as Eap. head H as Ev. injection H as <-.
  assert (Hw0 : wf_val (VDict (dset prior "operation_outbox" (VList (filter (fun e => event_above a e = true) events))))).
  { apply wf_dset; [done |]. eapply wf_sublist; [apply sublist_filter |]. exact (wf_dget _ _ _ Hw Ho). }
  assert (Hw1 := normalize_wf _ _ Hw0 En1). assert (Hw2 := Hm _ _ Hw1 Emu).
  pose proof (normalize_outbox _ _ Hw0 En1) as H1. pose proof (Hkeep _ _ Emu) as H2.
  pose proof (normalize_outbox _ _ Hw2 En2) as H3. rewrite dget_dset_eq in H1. rewrite H1 in H2. rewrite H2 in H3.
  unfold append_event in Eap. rewrite dget_dset_ne in Eap by done.
  assert (Hob : forall (b : bool), dget (if b then dset a2 "roles_present" (VBool true) else a2) "operation_outbox" =
    dget a2 "operation_outbox") by (intros []; [by rewrite dget_dset_ne | done]).
  rewrite Hob, H3 in Eap. injection Eap as <-. exists n, a. split_and!; [done | done | | |].
  - rewrite !dget_dset_ne by done. by rewrite dget_dset_eq.
  - unfold outbox_of. rewrite dget_dset_ne by done. by rewrite dget_dset_eq.
  - unfold outbox_of. rewrite dget_dset_ne, dget_dset_eq by done. bool_norm. rewrite zlen_app. change (zlen [_]) with 1. lia.
Qed.

Definition sample_event (r : Z) (id : string) : pyval :=
  VDict [("event_id", VStr id); ("revision", VInt r); ("action", VStr "set_role")].

Definition outbox_doc : dict :=
  dset sample_doc "operation_outbox" (VList [sample_event 5 "00000000000000a5"; sample_event 6 "00000000000000a6";
    sample_event 7 "00000000000000a7"]).

Definition acked_args : commit_args :=
  {| ca_action := "set_note"; ca_target := VStr "policy"; ca_actor := VStr "operator"; ca_now := FFin 1 0;
     ca_acked := VInt 5; ca_expected := VNone; ca_dry_run := false; ca_event_id := "0123456789abcdef" |}.

Lemma commit_outbox_witness :
  exists candidate n acked, commit_candidate 900 outbox_doc acked_args keep_document = Ok candidate /\
    dget candidate "revision" = Some (VInt (n + 1)) /\
    outbox_of candidate = filter (fun e => event_above acked e = true) (outbox_of outbox_doc) ++ [event_of acked_args (n + 1)].
Proof.
  destruct (commit_candidate 900 outbox_doc acked_args keep_document) as [candidate |] eqn:E.
  - destruct (commit_outbox 900 outbox_doc acked_args keep_document candidate) as (n & acked & _ & _ & Hr & Ho & _).
    + wf_eval.
    + vm_compute. reflexivity.
    + repeat constructor; by eexists.
    + exact E.
    + exists candidate, n, acked. split_and!; [reflexivity | exact Hr | exact Ho].
  - exfalso. assert (H : is_ok (commit_candidate 900 outbox_doc acked_args keep_document) = true)
      by (vm_compute; reflexivity). by rewrite E in H.
Defined.

(** ** The acknowledgement watermark *)

(** What makes a watermark describe this document. *)
Definition acked_by (doc : dict) (ack : pyval) (n : Z) : Prop :=
  exists rev epoch, _ack_parts ack = (VInt n, epoch) /\ dget doc "revision" = Some (VInt rev) /\ 0 <= n <= rev /\
    (py_eq epoch (dget_or doc "operation_ack_epoch" VNone) = true \/
     exists e id, epoch = VStr (epoch_of id) /\ VDict e ∈ outbox_of doc /\
       py_eq (dget_or e "revision" VNone) (VInt n) = true /\ dget e "event_id" = Some (VStr id) /\ hex_re 16 id = true).

Lemma anchors_event acked ep ev :
  anchors acked ep ev = true ->
  exists e id, ev = VDict e /\ ep = epoch_of id /\ py_eq (dget_or e "revision" VNone) (VInt acked) = true /\
    dget e "event_id" = Some (VStr id) /\ hex_re 16 id = true.
Proof.
  destruct ev as [| | | | | | e]; cbn [anchors]; try done. intros [Hr H]%andb_true_iff. unfold dget_or in H.
  destruct (dget e "event_id") as [[| | | | i | |] |] eqn:Ei; cbn [from_option id] in H; try done.
  apply andb_true_iff in H as [Hid ->%String.eqb_eq]. exists e, i. by split_and!.
Qed.

(** An acknowledgement counts only for the history it was made in: the sanitised
    watermark is zero unless it is a nonnegative integer no greater than the
    document's revision and either its epoch is the document's own or the event that
    epoch identifies is still retained in this outbox at exactly that revision. *)
Theorem effective_acked_trusted doc ack :
  dget doc "operation_outbox" = Some (VList (outbox_of doc)) ->
  exists n, effective_acked doc ack = Ok n /\ (n = 0 \/ acked_by doc ack n).
Proof.
  intros Ho. unfold effective_acked. destruct (_ack_parts ack) as [acked epoch] eqn:Ep.
  destruct acked as [| | acked | | | |]; try (exists 0; split; [done | by left]).
  unfold dget_or at 1. destruct (dget doc "revision") as [[| | rev | | | |] |] eqn:Er; cbn [from_option id];
    try (exists 0; split; [done | by left]).
  destruct (acked <? 0) eqn:E0; [exists 0; split; [done | by left] |].
  destruct (rev <? acked) eqn:E1; [exists 0; split; [done | by left] |]. bool_norm.
  destruct (py_eq epoch _) eqn:Ee.
  { exists acked. split; [done |]. right. exists rev, epoch. split_and!; try done. by left. }
  destruct epoch as [| | | | ep | |]; try (exists 0; split; [done | by left]).
  destruct (hex_re 32 ep); cbn [negb]; [| exists 0; split; [done | by left]].
  unfold dget_or. rewrite Ho. cbn [from_option id iter_val mbind res_bind].
  destruct (existsb (anchors acked ep) (outbox_of doc)) eqn:Ex; [| exists 0; split; [done | by left]].
  exists acked. split; [done |]. right. exists rev, (VStr ep). split_and!; try done. right.
  apply existsb_exists in Ex as (ev & Hin & (e & id & -> & -> & Hr & Hid & Hhex)%anchors_event).
  exists e, id. split_and!; try done. by apply list_elem_of_In.
Qed.

Lemma effective_acked_trusted_witness :
  exists n, effective_acked outbox_doc (VInt 99) = Ok n /\ (n = 0 \/ acked_by outbox_doc (VInt 99) n).
Proof. apply (effective_acked_trusted outbox_doc (VInt 99)). reflexivity. Defined.

(** The order of exports. *)
Definition revision_le (a b : pyval) : bool :=
  default 0 (event_revision a) <=? default 0 (event_revision b).

Lemma keyed_revision events :
  events_typed events ->
  exists ks, res_map (fun e => let* r := item e "revision" in Ok (r, e)) events = Ok ks /\
    Forall2 (fun k e => snd k = e /\ exists r, fst k = VInt r /\ event_revision e = Some r) ks events.
Proof.
  induction 1 as [| e l [r Hr] _ IH]; [by exists [] |]. destruct IH as (ks & Hk & Hf).
  exists ((VInt r, e) :: ks). cbn [res_map]. rewrite (event_revision_item e r Hr). cbn [mbind res_bind].
  rewrite Hk. split; [done |]. constructor; [split; [done | by exists r] | done].
Qed.

Lemma sort_keyed_revision ks events :
  Forall2 (fun k e => snd k = e /\ exists r, fst k = VInt r /\ event_revision e = Some r) ks events ->
  exists ks', sort_keyed ks = Ok ks' /\ map snd ks' = sort_by revision_le events.
Proof.
  set (R := fun (k : pyval * pyval) e => snd k = e /\ exists r, fst k = VInt r /\ event_revision e = Some r). intros H.
  assert (Hs : Forall2 R (sort_by (fun a b => num_le (fst a) (fst b)) ks) (sort_by revision_le events)).
  { apply sort_by_Forall2; [| done]. intros x x' y y' (_ & r & -> & Hr) (_ & r' & -> & Hr').
    unfold revision_le. rewrite Hr, Hr'. apply num_le_int. }
  assert (Hmap : forall k e, Forall2 R k e -> map snd k = e).
  { induction 1 as [| ? ? ? ? [<- _] _ IH]; [done |]. cbn. by rewrite IH. }
  assert (Hn : forallb (fun kr => is_num (fst kr)) ks = true).
  { clear Hs. induction H as [| k e ks l (_ & r & Hk & _) _ IH]; [done |]. cbn. by rewrite Hk, IH. }
  unfold sort_keyed. destruct ks as [| k [| k' ks]].
  - exists []. inversion H; subst. done.
  - exists [k]. split; [done |]. apply (Hmap _ _ Hs).
  - rewrite Hn. eexists. split; [reflexivity |]. by apply Hmap.
Qed.

(** Exports are complete and ordered: the pending events are exactly the retained
    ones above the sanitised watermark, in revision order. *)
Theorem pending_exports_complete doc ack :
  dget doc "operation_outbox" = Some (VList (outbox_of doc)) -> events_typed (outbox_of doc) ->
  exists acked pending, effective_acked doc ack = Ok acked /\ pending_exports doc ack = Ok pending /\
    pending ≡ₚ filter (fun e => event_above acked e = true) (outbox_of doc) /\
    StronglySorted (fun a b => revision_le a b = true) pending.
Proof.
  intros Ho Hty. assert (Hacked : exists acked, effective_acked doc ack = Ok acked).
  { unfold effective_acked. destruct (_ack_parts ack) as [acked epoch]. unfold dget_or at 3. rewrite Ho.
    cbn [from_option id iter_val mbind res_bind]. repeat case_match; by eexists. }
  destruct Hacked as [acked Ha]. exists acked. unfold pending_exports. rewrite Ha. cbn [mbind res_bind].
  unfold dget_or. rewrite Ho. cbn [from_option id iter_val mbind res_bind].
  rewrite prune_acked_spec by done. cbn [mbind res_bind].
  set (kept := filter (fun e => event_above acked e = true) (outbox_of doc)).
  assert (Hkt : events_typed kept).
  { apply Forall_forall. intros e [_ He]%list_elem_of_filter. unfold events_typed in Hty. rewrite Forall_forall in Hty. by apply Hty. }
  destruct (keyed_revision kept Hkt) as (ks & -> & Hf). cbn [mbind res_bind].
  destruct (sort_keyed_revision ks kept Hf) as (ks' & -> & Hs). cbn [mbind res_bind]. rewrite Hs.
  eexists. split; [done |]. split; [done |]. split; [apply sort_by_perm |].
  unfold revision_le. apply sort_by_sorted; intros; lia.
Qed.

Lemma pending_exports_complete_witness :
  exists acked pending, effective_acked outbox_doc (VInt 5) = Ok acked /\ pending_exports outbox_doc (VInt 5) = Ok pending /\
    pending ≡ₚ filter (fun e => event_above acked e = true) (outbox_of outbox_doc) /\
    StronglySorted (fun a b => revision_le a b = true) pending.
Proof. apply pending_exports_complete; [reflexivity | repeat constructor; by eexists]. Defined.

(** ** Read precedence *)

Lemma fail_closed_denies a ia b ib c : mutual_permit _fail_closed_document a ia b ib c = Ok false.
Proof. done. Qed.

(** What a reload resolves to when the authoritative file is missing or refused
    (and the state is not a fresh install): the last known good document, marked
    degraded, when that one is accepted; otherwise a fail-closed result under which
    no two principals may discover one another, whatever their kind or address. *)
Theorem load_policy_fallback ttl s b :
  f_auth s <> None \/ f_lkg s <> None \/ b = false ->
  _read_valid ttl (f_auth s) = Ok None ->
  (forall lkg, f_lkg s = Some (FJson (VDict lkg)) -> accepted ttl lkg ->
     exists pr, load_policy ttl s b = (Ok pr, []) /\ pr_document pr = lkg /\
       pr_degraded pr = true /\ pr_fail_closed pr = false) /\
  (_read_valid ttl (f_lkg s) = Ok None ->
     exists pr, load_policy ttl s b = (Ok pr, []) /\ pr_degraded pr = true /\ pr_fail_closed pr = true /\
       forall p ip q iq, mutual_permit (pr_document pr) p ip q iq (Some (pr_roles pr)) = Ok false).
Proof.
  intros Hsome Hauth.
  assert (Hno : (if is_none_opt (f_auth s) && is_none_opt (f_lkg s) && b then _initialize_if_absent s else None) = None).
  { destruct (f_auth s), (f_lkg s), b; try done. naive_solver. }
  unfold load_policy. rewrite Hno, Hauth. cbn [mbind res_bind]. split.
  - intros lkg Hl Hacc. destruct (accepted_compiles _ _ Hacc) as [c Hc]. destruct Hacc as [_ Hv].
    rewrite Hl. cbn [_read_valid]. rewrite Hv. cbn [mbind res_bind]. unfold result_of. rewrite Hc. cbn [mbind res_bind].
    eexists. split; [reflexivity |]. done.
  - intros ->. cbn [mbind res_bind]. eexists. split; [vm_compute; reflexivity |]. done.
Qed.

Definition corrupt_fs : fs := Fs (Some FText) (Some (FJson (VDict sample_doc))) true [].

Lemma load_policy_fallback_witness :
  exists pr, load_policy 900 corrupt_fs true = (Ok pr, []) /\ pr_document pr = sample_doc /\
    pr_degraded pr = true /\ pr_fail_closed pr = false.
Proof.
  refine (proj1 (load_policy_fallback 900 corrupt_fs true _ eq_refl) sample_doc eq_refl sample_accepted).
  left. discriminate.
Defined.

(** The first load of a fresh install writes the base policy to both files and
    opens discovery (everything permitted), not degraded; when the marker says roles
    once existed, the same state is reported as degraded.  A second load reads the
    same policy back. *)
Theorem load_policy_fresh ttl s :
  f_auth s = None -> f_lkg s = None ->
  exists pr ws pr', load_policy ttl s true = (Ok pr, ws) /\
    pr_document pr = base_document /\ pr_degraded pr = f_mark s /\ pr_fail_closed pr = false /\
    load_policy ttl (apply_writes s ws) true = (Ok pr', []) /\ pr_document pr' = persisted base_document /\
    forall p ip q iq, mutual_permit (pr_document pr) p ip q iq None = Ok true.
Proof.
  intros Ha Hl. assert (Hbase : accepted ttl base_document).
  { split; [wf_eval |]. vm_compute. reflexivity. }
  destruct (accepted_compiles _ _ Hbase) as [c Hc].
  assert (Hload : load_policy ttl s true =
    (Ok {| pr_document := base_document; pr_degraded := f_mark s; pr_fail_closed := false; pr_roles := c |}, initialize)).
  { unfold load_policy, _initialize_if_absent. rewrite Ha, Hl. cbn [is_none_opt andb]. unfold result_of. by rewrite Hc. }
  destruct (load_accepted ttl (apply_writes s initialize) (persisted base_document) true eq_refl
    (accepted_persisted _ _ Hbase)) as (pr' & Hl' & Hd' & _).
  eexists _, _, pr'. split; [exact Hload |]. cbn [pr_document pr_degraded pr_fail_closed]. split_and!; try done.
  intros p ip q iq. rewrite (mutual_permit_spec ttl) by done. f_equal. unfold spec_mutual, spec_verdict, bound_acl.
  assert (Hdev : forall x, is_quarantined base_document x = false /\ ordinary_assignment base_document x = None /\
    device_role base_document x = None) by done.
  destruct (Hdev (p_id p)) as (-> & -> & ->), (Hdev (p_id q)) as (-> & -> & ->).
  by destruct (is_device p), (is_device q), (is_service p), (is_service q).
Qed.

Lemma load_policy_fresh_witness :
  exists pr ws pr', load_policy 900 (Fs None None false []) true = (Ok pr, ws) /\
    pr_document pr = base_document /\ pr_degraded pr = false /\ pr_fail_closed pr = false /\
    load_policy 900 (apply_writes (Fs None None false []) ws) true = (Ok pr', []) /\
    pr_document pr' = persisted base_document /\
    forall p ip q iq, mutual_permit (pr_document pr) p ip q iq None = Ok true.
Proof. apply (load_policy_fresh 900 (Fs None None false [])); reflexivity. Defined.

(** ** A refused document that is not caught *)

(** A rule whose host or network is no address. *)
Definition malformed (rule : pyval) : Prop :=
  exists d seq m kind value, rule = VDict d /\ dget d "seq" = Some (VInt seq) /\ in_strs (dget_or d "action" VNone) _ACTIONS = true /\
    dget d "match" = Some (VDict m) /\ dget m "type" = Some (VStr kind) /\ dget m "value" = Some (VStr value) /\ value <> "" /\
    (kind = "host" /\ parse_ipv4 value = None \/ kind = "cidr" /\ parse_network value = None).

Lemma malformed_raises rule : malformed rule -> exists e, _validate_rule rule = Err e /\ is_policy_error e = false.
Proof.
  intros (d & seq & m & kind & value & -> & Hs & Ha & Hm & Ht & Hv & Hne & Hbad). unfold _validate_rule. rewrite Hs, Ha. cbn [negb].
  unfold dget_or at 1. rewrite Hm. cbn [from_option id _validate_match]. unfold dget_or. rewrite Ht, Hv. cbn [from_option id]. rewrite (proj2 (String.eqb_neq _ _) Hne).
  destruct Hbad as [[-> H] | [-> H]]; cbn; [unfold IPv4Address | unfold IPv4Network]; rewrite H; by eexists.
Qed.

(** A list with an element on which the body raises, after elements on which it does not. *)
Lemma res_fold_raises {A S} (f : S -> A -> res S) s l k x rest s' e :
  res_fold f s (l ++ k) = Ok s' -> (forall s, f s x = Err e) -> res_fold f s (l ++ x :: rest) = Err e.
Proof.
  rewrite !res_fold_app. intros H Hx. destruct (res_fold f s l) as [s1 |]; [| discriminate H]. cbn [mbind res_bind res_fold]. by rewrite Hx.
Qed.

Lemma res_iter_raises {A} (f : A -> res unit) l x y k rest e : res_iter f (l ++ x :: k) = Ok tt -> f y = Err e -> res_iter f (l ++ y :: rest) = Err e.
Proof.
  induction l as [| z l IH]; cbn [app res_iter]; intros H Hy; [by rewrite Hy |]. destruct (f z) as [[] |]; [| discriminate H]. cbn [mbind res_bind] in *. by apply IH.
Qed.

Lemma dget_middle (pre post : dict) name x y k : name <> k -> dget (pre ++ (name, x) :: post) k = dget (pre ++ (name, y) :: post) k.
Proof. intros Hne. induction pre as [| [z v] pre IH]; cbn; [by rewrite (proj2 (String.eqb_neq _ _) Hne) |]. by rewrite IH. Qed.

(** The document with one more rule in one list. *)
Definition with_rule (doc pre : dict) (name : string) (acl : dict) (post : dict) (r1 : list pyval) (rule : pyval) (r2 : list pyval) : dict :=
  dset doc "acls" (VDict (pre ++ (name, VDict (dset acl "rules" (VList (r1 ++ rule :: r2)))) :: post)).

Lemma malformed_acl name acl r1 rule r2 e : _validate_acl (name, VDict acl) = Ok tt -> dget acl "rules" = Some (VList (r1 ++ r2)) -> zlen (r1 ++ r2) < MAX_RULES_PER_ACL ->
  _validate_rule rule = Err e -> _validate_acl (name, VDict (dset acl "rules" (VList (r1 ++ rule :: r2)))) = Err e.
Proof.
  intros H Hr Hlen Hbad. unfold _validate_acl in H |- *. cbn [getattr_get] in H |- *. unfold dget_or in H |- *. rewrite dget_dset_eq. rewrite Hr in H. cbn [from_option id mbind res_bind] in H |- *.
  do 3 (let F := fresh "F" in head H as F).
  rewrite (proj2 (Z.ltb_ge MAX_RULES_PER_ACL (zlen (r1 ++ rule :: r2)))) by (unfold zlen in *; rewrite length_app in *; cbn [length]; lia).
  erewrite res_fold_raises; [done | exact F1 |]. intros seqs. by rewrite Hbad.
Qed.

Lemma malformed_document ttl doc pre name acl post r1 rule r2 :
  validate_document ttl (VDict doc) = Ok doc -> dget doc "acls" = Some (VDict (pre ++ (name, VDict acl) :: post)) -> name <> RESERVED_QUARANTINE ->
  dget acl "rules" = Some (VList (r1 ++ r2)) -> zlen (r1 ++ r2) < MAX_RULES_PER_ACL -> malformed rule ->
  exists e, validate_document ttl (VDict (with_rule doc pre name acl post r1 rule r2)) = Err e /\ is_policy_error e = false.
Proof.
  intros Hdoc Hacls Hname Hrules Hlen [e [Hbad He]]%malformed_raises. exists e. split; [| done]. unfold validate_document in Hdoc |- *. unfold with_rule, dget_or in *.
  rewrite Hacls in Hdoc. rewrite !dget_dset. change (String.eqb "acls" "schema") with false. change (String.eqb "acls" "revision") with false. change (String.eqb "acls" "acls") with true. cbv iota. cbn [from_option id] in *.
  do 8 (let F := fresh "F" in head Hdoc as F; cbn [mbind res_bind]). destruct a1.
  rewrite (dget_middle pre post name _ (VDict acl)), F2 by done. rewrite (proj2 (Z.ltb_ge MAX_ACLS _)) by (bool_norm; unfold zlen in *; rewrite length_app in *; cbn [length] in *; lia).
  rewrite F3. cbn [mbind res_bind]. rewrite F4. cbn [mbind res_bind]. rewrite F5.
  assert (Hacl : _validate_acl (name, VDict acl) = Ok tt) by (apply res_iter_ok in F6; by apply Forall_app in F6 as [_ [F6 _]%Forall_cons]).
  by rewrite (res_iter_raises _ _ _ _ _ post e F6 (malformed_acl _ _ _ _ _ _ Hacl Hrules Hlen Hbad)).
Qed.

(** C38: the fallback does not cover every invalid file: take any document that is accepted
    and put into one of its lists, other than the quarantine and with room for it, a [host]
    or [cidr] rule with a malformed address; [validate_document] then raises the
    [ValueError] of [ipaddress], not a [PolicyError], [_read_valid] lets it through, and
    loading raises whatever the last known good file holds. *)
Theorem load_policy_bad_host_raises ttl s initialize_missing doc pre name acl post r1 rule r2 :
  accepted ttl doc -> dget doc "acls" = Some (VDict (pre ++ (name, VDict acl) :: post)) -> name <> RESERVED_QUARANTINE ->
  dget acl "rules" = Some (VList (r1 ++ r2)) -> zlen (r1 ++ r2) < MAX_RULES_PER_ACL -> malformed rule ->
  f_auth s = Some (FJson (VDict (with_rule doc pre name acl post r1 rule r2))) ->
  exists e, load_policy ttl s initialize_missing = (Err e, []) /\ is_policy_error e = false.
Proof.
  intros [_ Hdoc] Hacls Hname Hrules Hlen Hbad Hs. destruct (malformed_document ttl doc pre name acl post r1 rule r2 Hdoc Hacls Hname Hrules Hlen Hbad) as (e & Hv & He).
  exists e. split; [| done]. unfold load_policy. rewrite Hs. cbn [is_none_opt andb _read_valid]. by rewrite Hv, He.
Qed.

(** The document of two lists, with a host of three octets put between two rules. *)
Definition two_rules : dict :=
  dset base_document "acls" (VDict [
    (RESERVED_QUARANTINE, VDict [("reserved", VBool true); ("rules", _QUARANTINE_RULES)]);
    ("a", VDict [("rules", VList [rule_v 10 "permit" "host" "10.0.0.1"; rule_v 20 "deny" "any" ""])])]).

Lemma load_policy_bad_host_raises_witness :
  let rule := rule_v 15 "permit" "host" "10.0.0" in
  let bad := with_rule two_rules [(RESERVED_QUARANTINE, VDict [("reserved", VBool true); ("rules", _QUARANTINE_RULES)])] "a"
    [("rules", VList [rule_v 10 "permit" "host" "10.0.0.1"; rule_v 20 "deny" "any" ""])] [] [rule_v 10 "permit" "host" "10.0.0.1"] rule [rule_v 20 "deny" "any" ""] in
  exists e, load_policy 900 (Fs (Some (FJson (VDict bad))) (Some (FJson (VDict sample_doc))) true []) true = (Err e, []) /\ is_policy_error e = false.
Proof.
  intros rule bad.
  apply (load_policy_bad_host_raises 900 (Fs (Some (FJson (VDict bad))) (Some (FJson (VDict sample_doc))) true []) true two_rules
    [(RESERVED_QUARANTINE, VDict [("reserved", VBool true); ("rules", _QUARANTINE_RULES)])] "a" [("rules", VList [rule_v 10 "permit" "host" "10.0.0.1"; rule_v 20 "deny" "any" ""])] []
    [rule_v 10 "permit" "host" "10.0.0.1"] rule [rule_v 20 "deny" "any" ""]).
  - split; [wf_eval |]. vm_compute. reflexivity.
  - reflexivity.
  - discriminate.
  - reflexivity.
  - vm_compute. reflexivity.
  - eexists _, _, _, _, _. do 6 (split; [reflexivity |]). split; [discriminate |]. left. split; [reflexivity |]. vm_compute. reflexivity.
  - reflexivity.
Defined.
