(* ===== verification/PolicyLifecycle.v ===== *)
(** * [server/peer_policy.py]: role and QoS lifecycle

    The mutations operators commit: defining, assigning and deleting roles, setting
    QoS, restoring a prior revision and retiring a device.  Each is a function on the
    detached candidate; it runs inside [commit_mutation]. *)
From S2P Require Import Prelude PyVal JsonDump PolicyDoc PolicySample PolicyQuarantine PolicyQos.
From S2P Require Import PolicyRoles PolicyValid PolicyEval PolicyEvalSpec PolicyStore PolicyCommit.

(** ** Sections of the candidate *)

(** The candidate with its role section completed, and that section.  The code
    mutates the section in place; here it is stored back with [put_roles]. *)
Definition _ensure_roles (doc : dict) : res (dict * dict) :=
  let doc := dsetdefault doc "roles" (VDict []) in
  match dget_or doc "roles" VNone with
  | VDict roles =>
      let roles := dsetdefault roles "defs" (VDict []) in
      let roles := dsetdefault roles "role_of" (VDict []) in
      let roles := dsetdefault roles "qos_default" (VDict []) in
      let roles := dsetdefault roles "qos_device" (VDict []) in
      Ok (dset doc "roles_present" (VBool true), roles)
  | _ => Err (perr "bad roles")
  end.

Definition put_roles (doc roles : dict) : dict := dset doc "roles" (VDict roles).

(** [roles[k]], used as a dict. *)
Definition section (roles : dict) (k : string) : res dict :=
  match dget roles k with
  | Some (VDict d) => Ok d
  | Some _ => Err (TypeError "not a dict")
  | None => Err (KeyError k)
  end.

Definition put_section (roles : dict) (k : string) (d : dict) : dict := dset roles k (VDict d).

(** ** Defining a role *)

Definition _ordered_peers (name : string) (peers : list string) : list string :=
  name :: sort_by str_leb (remove_dups (filter (fun p => p <> name) peers)).

(** The strings of a list; the peers of a validated document are strings. *)
Definition str_list (l : list pyval) : res (list string) :=
  res_map (fun v => match v with VStr s => Ok s | _ => Err (TypeError "'<' not supported") end) l.

(** The checks on the supplied peers. *)
Definition check_peers (defs : dict) (name : string) (peers : list pyval) : res (list string) :=
  res_fold (fun (seen : list string) (peer : pyval) =>
    let* p := validate_role_name peer "bad peer role name" in
    raise (perr "duplicate role peer") when existsb (String.eqb p) seen ;;;
    raise (perr "peer references unknown role") when negb (String.eqb p name) && negb (dhas defs p) ;;;
    Ok (p :: seen)) [] peers.

(** The reciprocal edit of one other role. *)
Definition reciprocal (name : string) (wanted : list string) (od : string * pyval) : res (string * pyval) :=
  let '(other_name, other_def) := od in
  if String.eqb other_name name then Ok (other_name, other_def)
  else
    match other_def with
    | VDict d =>
        match dget_or d "peers" (VList [VStr other_name]) with
        | VList peers =>
            let* peers := str_list peers in
            let peers :=
              if existsb (String.eqb other_name) wanted then peers ++ [name]
              else filter (fun p => p <> name) peers in
            Ok (other_name, VDict (dset d "peers" (VList (map VStr (_ordered_peers other_name peers)))))
        | _ => Err (perr "bad role peers")
        end
    | _ => Err (AttributeError "get")
    end.

Definition _put_role (candidate : dict) (name definition : pyval) : res dict :=
  let* name := validate_role_name name "bad role name" in
  match definition with
  | VDict definition =>
      let* (candidate, roles) := _ensure_roles candidate in
      match dget_or roles "defs" VNone with
      | VDict defs =>
          match dget_or definition "peers" (VList [VStr name]) with
          | VList supplied =>
              raise (PolicyError "role_isolated" "role peers must contain itself")
                when negb (existsb (py_eq (VStr name)) supplied) ;;;
              let* seen := check_peers defs name supplied in
              let* supplied := str_list supplied in
              let wanted := _ordered_peers name supplied in
              let defs := dset defs name (VDict (dset definition "peers" (VList (map VStr wanted)))) in
              let* defs := res_map (reciprocal name wanted) defs in
              Ok (put_roles candidate (put_section roles "defs" defs))
          | _ => Err (perr "bad role peers")
          end
      | _ => Err (perr "bad role defs")
      end
  | _ => Err (perr "bad role definition")
  end.

(** ** Membership *)

Definition _require_known_role (roles : dict) (role : pyval) : res string :=
  let* r := validate_role_name role "bad role name" in
  let* known :=
    match dget_or roles "defs" (VDict []) with
    | VDict defs => Ok (dhas defs r)
    | VList l => Ok (existsb (py_eq (VStr r)) l)
    | _ => Err (TypeError "not iterable")
    end in
  raise (PolicyError "role_not_found" "unknown role") when negb known ;;;
  Ok r.

(** [role is None] clears. *)
Definition set_role_mutation (device_id : string) (role : pyval) (candidate : dict) : res dict :=
  let* (candidate, roles) := _ensure_roles candidate in
  if is_none role then
    let* role_of := section roles "role_of" in
    Ok (put_roles candidate (put_section roles "role_of" (dpop role_of device_id)))
  else
    let* r := _require_known_role roles role in
    let* role_of := section roles "role_of" in
    Ok (put_roles candidate (put_section roles "role_of" (dset role_of device_id (VStr r)))).

Definition _checked_device_ids (device_ids : pyval) : res (list string) :=
  match device_ids with
  | VList l =>
      let* ids := res_map (fun v => match v with
        | VStr s => if String.eqb s "" then Err (perr "bad role device id") else Ok s
        | _ => Err (perr "bad role device id") end) l in
      Ok (foldl (fun out s => if bool_decide (s ∈ out) then out else out ++ [s]) [] ids)
  | _ => Err (perr "bad role members")
  end.

Definition set_roles_bulk_mutation (role : pyval) (device_ids : list string) (candidate : dict) : res dict :=
  let* (candidate, roles) := _ensure_roles candidate in
  if is_none role then
    let* role_of := section roles "role_of" in
    Ok (put_roles candidate (put_section roles "role_of" (foldl dpop role_of device_ids)))
  else
    let* r := _require_known_role roles role in
    let* role_of := section roles "role_of" in
    Ok (put_roles candidate (put_section roles "role_of"
      (foldl (fun m d => dset m d (VStr r)) role_of device_ids))).

Definition set_role_members_mutation (role : pyval) (device_ids : list string) (candidate : dict) : res dict :=
  let* (candidate, roles) := _ensure_roles candidate in
  let* r := _require_known_role roles role in
  let* role_of := section roles "role_of" in
  let former := map fst (filter (fun kv => py_eq (snd kv) (VStr r) = true) role_of) in
  let role_of := foldl dpop role_of former in
  Ok (put_roles candidate (put_section roles "role_of"
    (foldl (fun m d => dset m d (VStr r)) role_of device_ids))).

(** ** Deletion *)

(** The roles that name [name] as a peer, in definition order. *)
Definition referring_roles (defs : dict) (name : string) : res (list string) :=
  res_fold (fun (out : list string) (nd : string * pyval) =>
    if String.eqb (fst nd) name then Ok out
    else
      match snd nd with
      | VDict d => Ok (if in_peers (fst nd) name d then out ++ [fst nd] else out)
      | _ => Err (AttributeError "get")
      end) [] defs.

Definition delete_role_mutation (name : pyval) (referring_schedules : list string) (candidate : dict) : res dict :=
  let* (candidate, roles) := _ensure_roles candidate in
  let* r := _require_known_role roles name in
  let* role_of := section roles "role_of" in
  let* defs := section roles "defs" in
  let member_count := zlen (filter (fun kv => py_eq (snd kv) (VStr r) = true) role_of) in
  let* referring := referring_roles defs r in
  raise (RoleInUse r member_count referring referring_schedules)
    when negb (member_count =? 0) || negb (bool_decide (referring = [])) ||
         negb (bool_decide (referring_schedules = [])) ;;;
  Ok (put_roles candidate (put_section roles "defs" (dpop defs r))).

(** ** QoS *)

(** [qos], [qos_state], [role] and [device_id], [VNone] for an absent one; the code
    tells an unset [qos_state] from [None] only to treat both alike. *)
Definition set_qos_mutation (qos qos_state role device_id : pyval) (candidate : dict) : res dict :=
  let* (candidate, roles) := _ensure_roles candidate in
  if negb (is_none role) then
    let* r := _require_known_role roles role in
    let* defs := section roles "defs" in
    match dget defs r with
    | Some (VDict definition) =>
        let definition := if is_none qos then definition else dset definition "qos" qos in
        let definition :=
          if is_none qos_state then definition
          else if truth qos_state then dset definition "qos_state" qos_state
          else dpop definition "qos_state" in
        Ok (put_roles candidate (put_section roles "defs" (dset defs r (VDict definition))))
    | Some _ => Err (TypeError "not a dict")
    | None => Err (KeyError r)
    end
  else if negb (is_none device_id) then
    match device_id with
    | VStr dev =>
        raise (perr "bad device qos id") when String.eqb dev "" ;;;
        let* qos_device := section roles "qos_device" in
        Ok (put_roles candidate (put_section roles "qos_device" (dset qos_device dev qos)))
    | _ => Err (perr "bad device qos id")
    end
  else
    let roles := if is_none qos then roles else dset roles "qos_default" qos in
    let roles :=
      if is_none qos_state then roles
      else if truth qos_state then dset roles "qos_state_default" qos_state
      else dpop roles "qos_state_default" in
    Ok (put_roles candidate roles).

(** ** Restore and retirement *)

Definition restored_key (k : string) : bool :=
  negb (String.eqb k "revision") && negb (String.eqb k "operation_outbox") && negb (String.prefix "_" k).

Definition restore_mutation (historical candidate : dict) : res dict :=
  let* live_revision := item (VDict candidate) "revision" in
  let* live_outbox := item (VDict candidate) "operation_outbox" in
  let replacement := filter (fun kv => restored_key (fst kv) = true) historical in
  Ok (dset (dset replacement "revision" live_revision) "operation_outbox" live_outbox).

(** [candidate.get("assignments", {}).pop(...)] and the three other slots. *)
Definition unassign_mutation (device_id : string) (candidate : dict) : res dict :=
  let* candidate :=
    match dget candidate "assignments" with
    | None => Ok candidate
    | Some (VDict assignments) => Ok (dset candidate "assignments" (VDict (dpop assignments device_id)))
    | Some _ => Err (AttributeError "pop")
    end in
  let candidate := _set_quarantine_membership candidate device_id false in
  match dget candidate "roles" with
  | Some (VDict roles) =>
      let roles :=
        match dget roles "role_of" with
        | Some (VDict d) => put_section roles "role_of" (dpop d device_id) | _ => roles end in
      let roles :=
        match dget roles "qos_device" with
        | Some (VDict d) => put_section roles "qos_device" (dpop d device_id) | _ => roles end in
      Ok (put_roles candidate roles)
  | _ => Ok candidate
  end.

(** ** The operations *)

Definition with_target (args : commit_args) (action : string) (target : pyval) : commit_args :=
  {| ca_action := action; ca_target := target; ca_actor := ca_actor args; ca_now := ca_now args;
     ca_acked := ca_acked args; ca_expected := ca_expected args; ca_dry_run := ca_dry_run args;
     ca_event_id := ca_event_id args |}.

(** [x = check; commit]: a check that raises before the commit starts. *)
Definition after {A B} (c : res A) (k : A -> res B * list write) : res B * list write :=
  match c with Ok a => k a | Err e => (Err e, []) end.

Section operations.
Context (ttl : Z) (s : fs) (args : commit_args) (precommit : dict -> dict -> res unit).

Definition define_role (name definition : pyval) : res dict * list write :=
  commit_mutation ttl s (with_target args "define_role" (VStr ("role:" +:+ role_text name)))
    (fun candidate => _put_role candidate name definition) precommit.

Definition set_role (device_id role : pyval) : res dict * list write :=
  after (match device_id with
    | VStr d => if String.eqb d "" then Err (perr "bad role device id") else Ok d
    | _ => Err (perr "bad role device id") end) (fun d =>
  commit_mutation ttl s (with_target args (if is_none role then "clear_role" else "set_role") (VStr d))
    (set_role_mutation d role) precommit).

Definition set_roles_bulk (role device_ids : pyval) : res dict * list write :=
  after (_checked_device_ids device_ids) (fun ids =>
  commit_mutation ttl s
    (with_target args "set_roles_bulk" (VStr (if is_none role then "role:" else "role:" +:+ role_text role)))
    (set_roles_bulk_mutation role ids) precommit).

Definition set_role_members (role device_ids : pyval) : res dict * list write :=
  after (_checked_device_ids device_ids) (fun ids =>
  commit_mutation ttl s (with_target args "set_role_members" (VStr ("role:" +:+ role_text role)))
    (set_role_members_mutation role ids) precommit).

Definition delete_role (name : pyval) (referring_schedules : list string) : res dict * list write :=
  after (validate_role_name name "bad role name") (fun r =>
  commit_mutation ttl s (with_target args "delete_role" (VStr ("role:" +:+ r)))
    (delete_role_mutation (VStr r) referring_schedules) precommit).

Definition check_qos_args (qos qos_state role device_id : pyval) : res unit :=
  raise (perr "qos or qos_state required") when is_none qos && is_none qos_state ;;;
  raise (perr "bad qos") when negb (is_none qos) && negb (is_dict qos) ;;;
  raise (perr "bad qos state") when negb (is_none qos_state) && negb (is_dict qos_state) ;;;
  raise (perr "ambiguous qos scope") when negb (is_none role) && negb (is_none device_id) ;;;
  raise (perr "tracker state qos has no device scope") when negb (is_none device_id) && negb (is_none qos_state) ;;;
  Ok tt.

Definition set_qos (qos qos_state role device_id : pyval) : res dict * list write :=
  after (check_qos_args qos qos_state role device_id) (fun _ =>
  commit_mutation ttl s
    (with_target args "set_qos"
      (if negb (is_none role) then VStr ("role:" +:+ role_text role)
       else if negb (is_none device_id) then device_id else VStr "qos:global"))
    (set_qos_mutation qos qos_state role device_id) precommit).

Definition restore_lkg_revision (revision : Z) : res dict * list write :=
  after (read_lkg_revision ttl s (VInt revision)) (fun historical =>
  commit_mutation ttl s (with_target args "restore" (VStr ("revision:" +:+ string_of (dec revision))))
    (restore_mutation historical) precommit).

Definition unassign_device (device_id : string) : res dict * list write :=
  commit_mutation ttl s (with_target args "unassign" (VStr device_id)) (unassign_mutation device_id) no_precommit.
End operations.

(** ** Every operation is a policy mutation *)

Lemma ensure_roles_inv doc doc' roles :
  _ensure_roles doc = Ok (doc', roles) ->
  (wf_val (VDict doc) -> wf_val (VDict doc') /\ wf_val (VDict roles)) /\
  (forall k, k <> "roles" -> k <> "roles_present" -> dget doc' k = dget doc k) /\
  dget doc' "roles_present" = Some (VBool true) /\
  exists old, dget_or doc "roles" (VDict []) = VDict old /\
    (forall k, dget roles k = match dget old k with Some v => Some v | None =>
       if bool_decide (k ∈ ["defs"; "role_of"; "qos_default"; "qos_device"]) then Some (VDict []) else None end).
Proof.
  unfold _ensure_roles, dget_or at 1. rewrite dget_dsetdefault. cbn [String.eqb Ascii.eqb Bool.eqb from_option id].
  destruct (dget_or doc "roles" (VDict [])) as [| | | | | | old] eqn:E; try done. intros [= <- <-]. split_and!.
  - intros Hw. assert (wf_val (VDict old)) by (rewrite <- E; auto with py).
    split; repeat first [apply wf_dset | apply wf_dsetdefault]; auto with py; done.
  - intros k Hr Hp. rewrite dget_dset_ne, dget_dsetdefault by done. by destruct (String.eqb_spec "roles" k).
  - apply dget_dset_eq.
  - exists old. split; [done |]. intros k. rewrite !dget_dsetdefault. unfold dget_or.
    destruct (String.eqb_spec "qos_device" k) as [<- |]; [by rewrite !dget_dsetdefault; destruct (dget old "qos_device") |].
    destruct (String.eqb_spec "qos_default" k) as [<- |]; [by rewrite !dget_dsetdefault; destruct (dget old "qos_default") |].
    destruct (String.eqb_spec "role_of" k) as [<- |]; [by rewrite !dget_dsetdefault; destruct (dget old "role_of") |].
    destruct (String.eqb_spec "defs" k) as [<- |]; [by destruct (dget old "defs") |].
    destruct (dget old k); [done |]. rewrite bool_decide_false; [done |]. set_solver.
Qed.

Lemma put_roles_outbox c c' roles roles' :
  _ensure_roles c = Ok (c', roles) -> dget (put_roles c' roles') "operation_outbox" = dget c "operation_outbox".
Proof. intros (_ & Hk & _)%ensure_roles_inv. unfold put_roles. rewrite dget_dset_ne by done. by apply Hk. Qed.

Lemma put_roles_wf c c' roles roles' :
  wf_val (VDict c) -> _ensure_roles c = Ok (c', roles) -> (wf_val (VDict roles) -> wf_val (VDict roles')) ->
  wf_val (VDict (put_roles c' roles')).
Proof. intros Hw (Hwf & _)%ensure_roles_inv Hr. destruct (Hwf Hw). unfold put_roles. auto with py. Qed.

Lemma section_wf roles k d : section roles k = Ok d -> wf_val (VDict roles) -> wf_val (VDict d).
Proof. unfold section. intros H Hw. head H as E. head H. injection H as <-. exact (wf_dget _ _ _ Hw E). Qed.

Lemma put_section_wf roles k d : wf_val (VDict roles) -> wf_val (VDict d) -> wf_val (VDict (put_section roles k d)).
Proof. unfold put_section. auto with py. Qed.

Lemma wf_assign_all (ids : list string) v d :
  wf_val (VDict d) -> wf_val v -> wf_val (VDict (foldl (fun m k => dset m k v) d ids)).
Proof. intros Hd Hv. by apply (wf_foldl_dset ids (fun k => k) (fun _ => v)). Qed.
#[export] Hint Resolve section_wf put_section_wf wf_assign_all : py.
#[export] Hint Extern 1 (wf_val (VStr _)) => exact I : py.
#[export] Hint Extern 1 (wf_val (VBool _)) => exact I : py.

(** Runs a mutation to its end and hands the resulting candidate to a tactic. *)
Ltac run_mutation H :=
  repeat match type of H with
  | mbind _ (_ensure_roles _) = Ok _ =>
      let E := fresh "Eens" in head_step H E;
      match goal with p : (dict * dict)%type |- _ => destruct p; cbn beta iota in H end
  | Ok _ = Ok _ => injection H as <-
  | _ = Ok _ => let E := fresh "E" in head_step H E
  end.

(** Both obligations of a mutation that ends in [put_roles]. *)
Ltac role_mutation :=
  split; intros ? ?; [intros ? | idtac]; (let H := fresh "H" in intros H; run_mutation H);
  first [by eapply put_roles_outbox | eapply put_roles_wf; [done | done | intros ?; eauto 6 with py]].

#[export] Instance set_role_policy device_id role : PolicyMutation (set_role_mutation device_id role).
Proof. unfold set_role_mutation. role_mutation. Qed.

#[export] Instance set_roles_bulk_policy role ids : PolicyMutation (set_roles_bulk_mutation role ids).
Proof. unfold set_roles_bulk_mutation. role_mutation. Qed.

#[export] Instance set_role_members_policy role ids : PolicyMutation (set_role_members_mutation role ids).
Proof. unfold set_role_members_mutation. role_mutation. Qed.

#[export] Instance delete_role_policy name refs : PolicyMutation (delete_role_mutation name refs).
Proof. unfold delete_role_mutation. role_mutation. Qed.

Lemma set_qos_policy qos qos_state role device_id :
  wf_val qos -> wf_val qos_state -> PolicyMutation (set_qos_mutation qos qos_state role device_id).
Proof.
  intros Hq Hs. unfold set_qos_mutation. split; intros c c'; [intros Hw H | intros H]; run_mutation H;
  first [by eapply put_roles_outbox | eapply put_roles_wf; [done | done | intros Hr]].
  all: repeat (match goal with |- context [if ?b then _ else _] => destruct b end); try (by auto with py).
  all: try match goal with E : dget _ _ = Some (VDict ?d) |- _ =>
    assert (wf_val (VDict d)) by (eapply wf_dget; [| exact E]; by eapply section_wf) end.
  all: try (apply put_section_wf; [done |]; apply wf_dset; [by eapply section_wf |]).
  all: auto with py.
Qed.

Lemma str_list_ok l out : str_list l = Ok out <-> l = map VStr out.
Proof.
  unfold str_list. rewrite res_map_ok. split.
  - induction 1 as [| x y l k Hx _ IH]; [done |]. cbn. rewrite IH. by destruct x; simplify_eq.
  - intros ->. induction out; constructor; done.
Qed.

Lemma wf_strs l : wf_val (VList (map VStr l)).
Proof. apply wf_list, Forall_map, Forall_forall. done. Qed.
#[export] Hint Resolve wf_strs : py.

(** The reciprocal edits keep the names and their order. *)
Lemma reciprocal_keys name wanted defs defs' :
  res_map (reciprocal name wanted) defs = Ok defs' -> dkeys defs' = dkeys defs.
Proof.
  rewrite res_map_ok. induction 1 as [| [n v] [n' v'] l k H _ IH]; [done |]. cbn [dkeys map fst].
  fold (dkeys l) (dkeys k). rewrite IH. f_equal. unfold reciprocal in H. head H; [by injection H as <- <- |].
  head H. head H. head H. by injection H as <- <-.
Qed.

Lemma reciprocal_wf name wanted defs defs' :
  res_map (reciprocal name wanted) defs = Ok defs' -> wf_val (VDict defs) -> wf_val (VDict defs').
Proof.
  intros H [Hnd Hw]%wf_dict. apply wf_dict. rewrite (reciprocal_keys _ _ _ _ H). split; [done |].
  apply res_map_ok in H. clear Hnd. induction H as [| [n v] [n' v'] l k H _ IH]; [constructor |].
  apply Forall_cons in Hw as [Hv Hw]. constructor; [| by apply IH]. cbn [snd] in *.
  unfold reciprocal in H. head H; [by injection H as <- <- |]. head H. head H. head H. injection H as <- <-. exact (wf_dset _ _ _ Hv (wf_strs (n :: _))).
Qed.

Lemma put_role_policy name definition :
  wf_val definition -> PolicyMutation (fun c => _put_role c name definition).
Proof.
  intros Hd. unfold _put_role. split; intros c c'; [intros Hw H | intros H]; run_mutation H; [| by eapply put_roles_outbox].
  eapply put_roles_wf; [done | done |]. intros Hr. apply put_section_wf; [done |].
  eapply reciprocal_wf; [done |]. apply wf_dset; [| auto with py].
  match goal with Ed : dget_or ?d0 "defs" VNone = VDict ?x |- wf_val (VDict ?x) =>
    rewrite <- Ed; exact (wf_dget_or _ _ VNone Hr I) end.
Qed.

Lemma restore_policy historical : wf_val (VDict historical) -> PolicyMutation (restore_mutation historical).
Proof.
  intros Hh. unfold restore_mutation. split; intros c c'; [intros Hw H | intros H]; run_mutation H.
  - apply wf_dict in Hh as [Hn Hf]. cbn [item] in *. head E as Er. head E0 as Eo. injection E as <-. injection E0 as <-.
    apply wf_dset; [apply wf_dset |]; [| exact (wf_dget _ _ _ Hw Er) | exact (wf_dget _ _ _ Hw Eo)].
    apply wf_dict. split.
    + eapply sublist_NoDup; [exact Hn |]. apply fmap_sublist, sublist_filter.
    + apply Forall_forall. intros x [_ Hx]%list_elem_of_filter. rewrite Forall_forall in Hf. by apply Hf.
  - rewrite dget_dset_eq. cbn [item] in E0. head E0 as Eo. by injection E0 as <-.
Qed.

#[export] Instance unassign_policy device_id : PolicyMutation (unassign_mutation device_id).
Proof.
  assert (Hq : forall c, (wf_val (VDict c) -> wf_val (VDict (_set_quarantine_membership c device_id false))) /\
    forall k, k <> "quarantined_devices" -> dget (_set_quarantine_membership c device_id false) k = dget c k).
  { intros c. unfold _set_quarantine_membership. split.
    - intros Hw. destruct (dpop _ device_id) eqn:E; [auto with py |]. rewrite <- E. auto 10 with py.
    - intros k Hk. destruct (dpop _ device_id) eqn:E; [| by rewrite dget_dset_ne].
      rewrite dget_dpop. by destruct (String.eqb_spec "quarantined_devices" k). }
  split; intros c c'; unfold unassign_mutation; [intros Hw H | intros H]; head H as Ea.
  - assert (Hwa : wf_val (VDict a)).
    { head Ea as Eas; [| by injection Ea as <-]. head Ea as Ev. injection Ea as <-.
      apply wf_dset; [done |]. apply wf_dpop. subst. exact (wf_dget _ _ _ Hw Eas). }
    destruct (Hq a) as [Hqw _]. specialize (Hqw Hwa).
    destruct (dget (_set_quarantine_membership a device_id false) "roles") as [[| | | | | | roles] |] eqn:Er;
      injection H as <-; try done. unfold put_roles. apply wf_dset; [done |].
    assert (Hwr : wf_val (VDict roles)) by exact (wf_dget _ _ _ Hqw Er).
    assert (Hone : forall k r, wf_val (VDict r) -> wf_val (VDict (match dget r k with
      | Some (VDict d) => put_section r k (dpop d device_id) | _ => r end))).
    { intros k r Hr. destruct (dget r k) as [[| | | | | | d] |] eqn:Ek; try done.
      apply put_section_wf; [done |]. apply wf_dpop. exact (wf_dget _ _ _ Hr Ek). }
    by apply Hone, Hone.
  - assert (Hoa : dget a "operation_outbox" = dget c "operation_outbox").
    { head Ea as Eas; [| by injection Ea as <-]. head Ea as Ev. injection Ea as <-. by rewrite dget_dset_ne. }
    destruct (Hq a) as [_ Hk]. rewrite <- Hoa, <- Hk by done.
    destruct (dget (_set_quarantine_membership a device_id false) "roles") as [[] |]; injection H as <-; try done.
    unfold put_roles. by rewrite dget_dset_ne.
Qed.

(** ** Reading the sections of the result *)

Lemma ensure_role_of c c' roles :
  _ensure_roles c = Ok (c', roles) ->
  dget roles "role_of" = Some (VDict (_role_of_map c)) \/ is_dict (dget_or roles "role_of" VNone) = false.
Proof.
  intros (_ & _ & _ & old & Ho & Hg)%ensure_roles_inv. unfold _role_of_map. rewrite Ho.
  change (dict_or_empty (VDict old)) with old. rewrite Hg. unfold dget_or. rewrite Hg.
  destruct (dget old "role_of") as [[] |]; cbn; [by right .. | by left | by left].
Qed.

Lemma ensure_defs c c' roles :
  _ensure_roles c = Ok (c', roles) ->
  dget roles "defs" = Some (VDict (_role_defs c)) \/ is_dict (dget_or roles "defs" VNone) = false.
Proof.
  intros (_ & _ & _ & old & Ho & Hg)%ensure_roles_inv. unfold _role_defs. rewrite Ho.
  change (dict_or_empty (VDict old)) with old. rewrite Hg. unfold dget_or. rewrite Hg.
  destruct (dget old "defs") as [[] |]; cbn; [by right .. | by left | by left].
Qed.

Lemma section_role_of c c' roles d :
  _ensure_roles c = Ok (c', roles) -> section roles "role_of" = Ok d -> d = _role_of_map c.
Proof.
  intros H Hs. unfold section in Hs. destruct (ensure_role_of _ _ _ H) as [Hr | Hr].
  - rewrite Hr in Hs. by injection Hs as <-.
  - unfold dget_or in Hr. head Hs as E. head Hs. by subst.
Qed.

Lemma section_defs c c' roles d :
  _ensure_roles c = Ok (c', roles) -> section roles "defs" = Ok d -> d = _role_defs c.
Proof.
  intros H Hs. unfold section in Hs. destruct (ensure_defs _ _ _ H) as [Hr | Hr].
  - rewrite Hr in Hs. by injection Hs as <-.
  - unfold dget_or in Hr. head Hs as E. head Hs. by subst.
Qed.

Lemma role_defs_put c roles d : _role_defs (put_roles c (put_section roles "defs" d)) = d.
Proof. unfold _role_defs, put_roles, put_section, dget_or. rewrite dget_dset_eq. cbn [from_option id].
  rewrite dict_or_empty_dict. by rewrite dget_dset_eq. Qed.

Lemma role_of_put c roles d : _role_of_map (put_roles c (put_section roles "role_of" d)) = d.
Proof. unfold _role_of_map, put_roles, put_section, dget_or. rewrite dget_dset_eq. cbn [from_option id].
  rewrite dict_or_empty_dict. by rewrite dget_dset_eq. Qed.

Lemma role_defs_put_role_of c c' roles d :
  _ensure_roles c = Ok (c', roles) -> _role_defs (put_roles c' (put_section roles "role_of" d)) = _role_defs c.
Proof.
  intros H. unfold _role_defs at 1, put_roles, put_section, dget_or.
  rewrite dget_dset_eq. cbn [from_option id]. rewrite dict_or_empty_dict, dget_dset_ne by done.
  destruct (ensure_roles_inv _ _ _ H) as (_ & _ & _ & old & Ho & Hg). rewrite Hg. unfold _role_defs. rewrite Ho.
  rewrite dict_or_empty_dict. unfold dget_or. by destruct (dget old "defs").
Qed.

Lemma role_of_put_defs c c' roles d :
  _ensure_roles c = Ok (c', roles) -> _role_of_map (put_roles c' (put_section roles "defs" d)) = _role_of_map c.
Proof.
  intros H. unfold _role_of_map at 1, put_roles, put_section, dget_or.
  rewrite dget_dset_eq. cbn [from_option id]. rewrite dict_or_empty_dict, dget_dset_ne by done.
  destruct (ensure_roles_inv _ _ _ H) as (_ & _ & _ & old & Ho & Hg). rewrite Hg. unfold _role_of_map. rewrite Ho.
  rewrite dict_or_empty_dict. unfold dget_or. by destruct (dget old "role_of").
Qed.

(** ** Membership updates *)

Lemma dget_assign_all d ids r k :
  dget (foldl (fun m k => dset m k (VStr r)) d ids) k = if bool_decide (k ∈ ids) then Some (VStr r) else dget d k.
Proof. apply (dget_foldl_dset d ids (VStr r)). Qed.

Lemma py_eq_str_iff v s : py_eq v (VStr s) = true <-> v = VStr s.
Proof. split; [apply py_eq_str |]. intros ->. cbn. apply String.eqb_refl. Qed.

Definition known_role (roles : dict) (role : pyval) (r : string) : Prop :=
  role = VStr r /\ _require_known_role roles role = Ok r.

Lemma require_known_str roles role r : _require_known_role roles role = Ok r -> role = VStr r.
Proof. unfold _require_known_role. intros H. head H as E. head H. head H. injection H as <-. by apply validate_role_name_ok in E as [-> _]. Qed.

(** Membership edits do exactly what they say, to every device: assigning or
    clearing one device or a batch changes those devices only; replacing a role's
    members leaves exactly the given devices in it and evicts its other members,
    without touching devices of other roles.  Role definitions stay as they were. *)
Theorem membership_exact candidate out role r ids dev :
  NoDup (dkeys (_role_of_map candidate)) -> role = VStr r ->
  (forall d, set_role_mutation d role candidate = Ok out ->
     dget (_role_of_map out) dev = (if String.eqb d dev then Some (VStr r) else dget (_role_of_map candidate) dev) /\
     _role_defs out = _role_defs candidate) /\
  (forall d, set_role_mutation d VNone candidate = Ok out ->
     dget (_role_of_map out) dev = (if String.eqb d dev then None else dget (_role_of_map candidate) dev) /\
     _role_defs out = _role_defs candidate) /\
  (set_roles_bulk_mutation role ids candidate = Ok out ->
     dget (_role_of_map out) dev = (if bool_decide (dev ∈ ids) then Some (VStr r) else dget (_role_of_map candidate) dev) /\
     _role_defs out = _role_defs candidate) /\
  (set_roles_bulk_mutation VNone ids candidate = Ok out ->
     dget (_role_of_map out) dev = (if bool_decide (dev ∈ ids) then None else dget (_role_of_map candidate) dev) /\
     _role_defs out = _role_defs candidate) /\
  (set_role_members_mutation role ids candidate = Ok out ->
     dget (_role_of_map out) dev =
       (if bool_decide (dev ∈ ids) then Some (VStr r)
        else if bool_decide (device_role candidate dev = Some r) then None
        else dget (_role_of_map candidate) dev) /\
     _role_defs out = _role_defs candidate).
Proof.
  intros Hnd ->. split_and!.
  - intros d H. unfold set_role_mutation in H. cbn [is_none] in H. run_mutation H.
    apply require_known_str in E as [= <-]. rewrite (section_role_of _ _ _ _ Eens E0), role_of_put.
    split; [apply dget_dset | by eapply role_defs_put_role_of].
  - intros d H. unfold set_role_mutation in H. cbn [is_none] in H. run_mutation H.
    rewrite (section_role_of _ _ _ _ Eens E), role_of_put. split; [apply dget_dpop | by eapply role_defs_put_role_of].
  - intros H. unfold set_roles_bulk_mutation in H. cbn [is_none] in H. run_mutation H.
    apply require_known_str in E as [= <-]. rewrite (section_role_of _ _ _ _ Eens E0), role_of_put.
    split; [apply dget_assign_all | by eapply role_defs_put_role_of].
  - intros H. unfold set_roles_bulk_mutation in H. cbn [is_none] in H. run_mutation H.
    rewrite (section_role_of _ _ _ _ Eens E), role_of_put. split; [apply dget_foldl_dpop | by eapply role_defs_put_role_of].
  - intros H. unfold set_role_members_mutation in H. run_mutation H.
    apply require_known_str in E as [= <-]. pose proof (section_role_of _ _ _ _ Eens E0) as ->. rewrite role_of_put.
    split; [| by eapply role_defs_put_role_of]. rewrite dget_assign_all, dget_foldl_dpop.
    destruct (bool_decide (dev ∈ ids)); [done |].
    rewrite (bool_decide_ext _ (device_role candidate dev = Some r)); [done |].
    rewrite (elem_keys_filter (fun v => py_eq v (VStr r))) by done. unfold device_role.
    destruct (dget (_role_of_map candidate) dev) as [v |]; [| done]. rewrite py_eq_str_iff.
    destruct v; naive_solver.
Qed.

Lemma membership_exact_witness :
  exists out, set_role_members_mutation (VStr "edge") ["e2"; "o1"] sample_doc = Ok out /\
    dget (_role_of_map out) "e1" = None.
Proof.
  eexists. split; [vm_compute; reflexivity |].
  refine (proj1 (proj2 (proj2 (proj2 (proj2
    (membership_exact sample_doc _ (VStr "edge") "edge" ["e2"; "o1"] "e1" _ eq_refl)))) _)).
  - by_eval.
  - vm_compute. reflexivity.
Defined.

(** ** Deleting a role *)

Definition role_shape (doc : dict) : Prop :=
  NoDup (dkeys (_role_defs doc)) /\
  forall n v, (n, v) ∈ _role_defs doc -> role_def_ok (_role_defs doc) n v.

Lemma referring_spec (defs : dict) name :
  (forall n v, (n, v) ∈ defs -> exists d, v = VDict d) ->
  exists out, referring_roles defs name = Ok out /\
    forall n, n ∈ out <-> exists d, (n, VDict d) ∈ defs /\ n <> name /\ in_peers n name d = true.
Proof.
  intros Hd. unfold referring_roles.
  assert (H : forall l acc, (forall n v, (n, v) ∈ l -> exists d, v = VDict d) -> exists out,
    res_fold (fun (out : list string) (nd : string * pyval) =>
      if String.eqb (fst nd) name then Ok out
      else match snd nd with
        | VDict d => Ok (if in_peers (fst nd) name d then out ++ [fst nd] else out)
        | _ => Err (AttributeError "get") end) acc l = Ok out /\
    forall n, n ∈ out <-> n ∈ acc \/ exists d, (n, VDict d) ∈ l /\ n <> name /\ in_peers n name d = true).
  { induction l as [| [n v] l IH]; intros acc Hl.
    - exists acc. split; [done |]. intros n. split; [by left | intros [? | (d & H & _)]; [done | inversion H]].
    - destruct (Hl n v) as [d ->]; [by left |]. cbn [res_fold fst snd].
      destruct (String.eqb_spec n name) as [-> | Hne]; cbn [mbind res_bind].
      + destruct (IH acc) as (out & Ho & Hin); [intros n' v' H; apply (Hl n'); by right |].
        exists out. split; [done |]. intros m. rewrite Hin. split.
        * intros [? | (d' & Hd' & Hr)]; [by left | right; exists d'; split; [by right | done]].
        * intros [? | (d' & Hd' & Hr)]; [by left |]. apply elem_of_cons in Hd' as [[= -> ->] | Hd']; [naive_solver |].
          right. by exists d'.
      + destruct (IH (if in_peers n name d then acc ++ [n] else acc)) as (out & Ho & Hin);
          [intros n' v' H; apply (Hl n'); by right |].
        exists out. split; [done |]. intros m. rewrite Hin. split.
        * intros [Hm | (d' & Hd' & Hr)]; [| right; exists d'; split; [by right | done]].
          destruct (in_peers n name d) eqn:Ep; [| by left]. apply elem_of_app in Hm as [? | Hm]; [by left |].
          apply list_elem_of_singleton in Hm as ->. right. exists d. split; [by left | done].
        * intros [Hm | (d' & Hd' & Hr)].
          { left. destruct (in_peers n name d); [apply elem_of_app; by left | done]. }
          apply elem_of_cons in Hd' as [[= -> ->] | Hd']; [| right; by exists d'].
          left. destruct Hr as [_ ->]. apply elem_of_app. right. by left. }
  destruct (H defs [] Hd) as (out & Ho & Hin). exists out. split; [done |]. intros n. rewrite Hin. set_solver.
Qed.

(** Who still refers to a role. *)
Definition role_referenced (doc : dict) (r : string) (schedules : list string) : Prop :=
  (exists dev, dget (_role_of_map doc) dev = Some (VStr r)) \/
  (exists n d, dget (_role_defs doc) n = Some (VDict d) /\ n <> r /\ in_peers n r d = true) \/
  schedules <> [].

(** The role section has dict subsections, as every accepted document. *)
Definition sections_ok (doc : dict) : Prop :=
  exists roles, dget_or doc "roles" (VDict []) = VDict roles /\
    is_dict (dget_or roles "defs" (VDict [])) = true /\ is_dict (dget_or roles "role_of" (VDict [])) = true.

Lemma ensure_sections doc :
  sections_ok doc ->
  exists doc' roles, _ensure_roles doc = Ok (doc', roles) /\
    section roles "defs" = Ok (_role_defs doc) /\ section roles "role_of" = Ok (_role_of_map doc) /\
    dget_or roles "defs" (VDict []) = VDict (_role_defs doc).
Proof.
  intros (old & Ho & Hd & Hr).
  assert (He : exists doc' roles, _ensure_roles doc = Ok (doc', roles)).
  { unfold _ensure_roles, dget_or at 1. rewrite dget_dsetdefault. cbn [String.eqb Ascii.eqb Bool.eqb from_option id].
    rewrite Ho. by eexists _, _. }
  destruct He as (doc' & roles & He). exists doc', roles. split; [done |].
  destruct (ensure_roles_inv _ _ _ He) as (_ & _ & _ & old' & Ho' & Hg). rewrite Ho in Ho'. injection Ho' as <-.
  unfold section, _role_defs, _role_of_map. rewrite Ho, !dict_or_empty_dict. unfold dget_or in *. rewrite !Hg.
  destruct (dget old "defs") as [[] |]; try done; destruct (dget old "role_of") as [[] |]; try done.
Qed.

Lemma member_count_spec (role_of : dict) r :
  NoDup (dkeys role_of) ->
  zlen (filter (fun kv => py_eq (snd kv) (VStr r) = true) role_of) <> 0 <-> exists dev, dget role_of dev = Some (VStr r).
Proof.
  intros Hnd. split.
  - intros Hz. destruct (filter _ role_of) as [| [dev v] l] eqn:E; [done |].
    assert (Hin : (dev, v) ∈ filter (fun kv => py_eq (snd kv) (VStr r) = true) role_of) by (rewrite E; by left).
    apply list_elem_of_filter in Hin as [Hv Hin]. apply py_eq_str_iff in Hv. cbn in Hv. subst v. exists dev. by apply dget_Some.
  - intros (dev & Hdev) Hz. assert (Hin : (dev, VStr r) ∈ filter (fun kv => py_eq (snd kv) (VStr r) = true) role_of).
    { apply list_elem_of_filter. split; [by apply py_eq_str_iff | by apply dget_elem]. }
    destruct (filter _ role_of); [inversion Hin | unfold zlen in Hz; cbn in Hz; lia].
Qed.

(** A role is deleted exactly when nothing refers to it: no member, no other role
    naming it as a peer, no schedule.  Otherwise [RoleInUse] is raised; a deletion
    removes that definition and nothing else. *)
Theorem delete_role_exact candidate r schedules :
  sections_ok candidate -> role_shape candidate -> NoDup (dkeys (_role_of_map candidate)) ->
  r ∈ dkeys (_role_defs candidate) ->
  (role_referenced candidate r schedules ->
     exists n refs, delete_role_mutation (VStr r) schedules candidate = Err (RoleInUse r n refs schedules)) /\
  (~ role_referenced candidate r schedules ->
     exists out, delete_role_mutation (VStr r) schedules candidate = Ok out /\
       _role_defs out = dpop (_role_defs candidate) r /\ _role_of_map out = _role_of_map candidate).
Proof.
  intros Hsec [Hnd Hdefs] Hndr Hr. destruct (ensure_sections _ Hsec) as (c' & roles & He & Hsd & Hsr & Hgd).
  assert (Hname : validate_role_name (VStr r) "bad role name" = Ok r).
  { apply dhas_spec in Hr. unfold dhas in Hr. destruct (dget (_role_defs candidate) r) as [v |] eqn:E; [| done].
    destruct (Hdefs r v (dget_elem _ _ _ E)) as (d & peers & _ & Hre & Hres & _). by apply validate_role_name_ok. }
  destruct (referring_spec (_role_defs candidate) r) as (refs & Href & Hin).
  { intros n v H. destruct (Hdefs n v H) as (d & peers & -> & _). eauto. }
  unfold delete_role_mutation. rewrite He. cbn [mbind res_bind]. unfold _require_known_role. rewrite Hname.
  cbn [mbind res_bind]. rewrite Hgd. cbn [mbind res_bind]. rewrite (proj2 (dhas_spec _ _) Hr). cbn [negb].
  cbn [mbind res_bind]. rewrite Hsr, Hsd. cbn [mbind res_bind]. rewrite Href. cbn [mbind res_bind].
  pose proof (member_count_spec (_role_of_map candidate) r Hndr) as Hcount.
  set (n := zlen (filter _ (_role_of_map candidate))) in *.
  assert (Hrefs : refs <> [] <-> exists n d, dget (_role_defs candidate) n = Some (VDict d) /\ n <> r /\ in_peers n r d = true).
  { split.
    - intros Hne. destruct refs as [| m l]; [done |].
      destruct (proj1 (Hin m) ltac:(by left)) as (d & Hd & Hne' & Hp). exists m, d. split_and!; [by apply dget_Some | done | done].
    - intros (m & d & Hm & Hne & Hp) ->. assert (m ∈ ([] : list string)) as Hm'; [| inversion Hm'].
      apply Hin. exists d. split_and!; [by apply dget_elem | done | done]. }
  assert (Hcond : negb (n =? 0) || negb (bool_decide (refs = [])) || negb (bool_decide (schedules = [])) = true <->
    role_referenced candidate r schedules).
  { unfold role_referenced. rewrite !orb_true_iff, !negb_true_iff, !bool_decide_eq_false, Z.eqb_neq, Hrefs, Hcount. tauto. }
  split; intros Href'.
  - rewrite (proj2 Hcond Href'). eauto.
  - destruct (_ || _) eqn:E; [exfalso; apply Href', Hcond; done |]. eexists. split; [reflexivity |].
    split; [apply role_defs_put | by eapply role_of_put_defs].
Qed.

Lemma accepted_sections ttl doc :
  accepted ttl doc -> sections_ok doc /\ role_shape doc /\ NoDup (dkeys (_role_of_map doc)).
Proof.
  intros Hacc. destruct (accepted_ok _ _ Hacc) as (acls & asg & Hok). destruct Hacc as [Hw _].
  destruct (role_section ttl doc acls asg Hw Hok) as (Hnd & Hdefs & _ & _). split_and!.
  - unfold sections_ok, dget_or at 1. destruct (dget doc "roles") as [v |] eqn:E; cbn [from_option id]; [| by exists []].
    destruct (ok_roles _ _ _ _ Hok v E) as (roles & defs & rof & qd & -> & Hr). exists roles.
    by rewrite (ok_defs_get _ _ _ _ _ Hr), (ok_role_of_get _ _ _ _ _ Hr).
  - done.
  - apply NoDup_dict_or_empty. auto 10 with py.
Qed.

Lemma delete_role_exact_witness :
  (exists n refs, delete_role_mutation (VStr "core") [] sample_doc = Err (RoleInUse "core" n refs [])) /\
  exists out, delete_role_mutation (VStr "open") [] (dset sample_doc "roles" (VDict [("defs", VDict [("open", VDict [])])])) = Ok out.
Proof.
  split.
  - destruct (accepted_sections 900 sample_doc sample_accepted) as (Hs & Hsh & Hnd).
    refine (proj1 (delete_role_exact sample_doc "core" [] Hs Hsh Hnd _) _); [by_eval |].
    left. exists "c1". reflexivity.
  - eexists. vm_compute. reflexivity.
Defined.

(** ** Defining a role keeps the graph undirected *)

Lemma elem_ordered name peers p : p ∈ _ordered_peers name peers <-> p = name \/ p ∈ peers.
Proof.
  unfold _ordered_peers. rewrite elem_of_cons, sort_by_elem, elem_of_remove_dups, list_elem_of_filter.
  destruct (decide (p = name)); tauto.
Qed.

Lemma ordered_NoDup name peers : NoDup (_ordered_peers name peers).
Proof.
  unfold _ordered_peers. apply NoDup_cons. split.
  - rewrite sort_by_elem, elem_of_remove_dups, list_elem_of_filter. tauto.
  - rewrite sort_by_perm. apply NoDup_remove_dups.
Qed.

(** The peers of a definition after [definition["peers"] = ...]. *)
Lemma in_peers_set owner subject d peers :
  in_peers owner subject (dset d "peers" (VList (map VStr peers))) = true <-> subject ∈ peers.
Proof. apply (in_peers_list _ _ _ peers). unfold dget_or. by rewrite dget_dset_eq. Qed.

Lemma reciprocal_get name wanted defs defs' o v' :
  res_map (reciprocal name wanted) defs = Ok defs' -> dget defs' o = Some v' -> o <> name ->
  exists d old d', dget defs o = Some (VDict d) /\ v' = VDict d' /\
    dget_or d "peers" (VList [VStr o]) = VList (map VStr old) /\
    (forall p, in_peers o p d' = true <-> p = o \/ if bool_decide (p = name) then o ∈ wanted else p ∈ old) /\
    (forall k, k <> "peers" -> dget d' k = dget d k).
Proof.
  intros H Hg Hne. apply res_map_ok in H.
  assert (Hkeys : Forall2 (fun x y => fst x = fst y /\ reciprocal name wanted x = Ok y) defs defs').
  { eapply Forall2_impl; [exact H |]. intros [n v] [n' w] Hx. split; [| done]. unfold reciprocal in Hx.
    head Hx; [by injection Hx as <- <- |]. head Hx. head Hx. head Hx. by injection Hx as <- <-. }
  pose proof (dget_Forall2 (fun k x y => reciprocal name wanted (k, x) = Ok (k, y)) defs defs' o) as Hget.
  destruct (dget defs o) as [v |] eqn:E.
  2: { rewrite Hget in Hg; [done |]. eapply Forall2_impl; [exact Hkeys |]. by intros [n x] [n' y] [[= ->] ?]. }
  destruct Hget as (w & Hw & Hrec).
  { eapply Forall2_impl; [exact Hkeys |]. by intros [n x] [n' y] [[= ->] ?]. }
  rewrite Hg in Hw. injection Hw as <-. unfold reciprocal in Hrec.
  destruct (String.eqb_spec o name); [done |]. destruct v as [| | | | | | d]; try done.
  destruct (dget_or d "peers" _) as [| | | | | ps |] eqn:Ep; try done. head Hrec as Es. apply str_list_ok in Es as ->.
  exists d, a, (dset d "peers" (VList (map VStr (_ordered_peers o
    (if existsb (String.eqb o) wanted then a ++ [name] else filter (fun p => p <> name) a))))).
  assert (Hv : v' = VDict (dset d "peers" (VList (map VStr (_ordered_peers o
    (if existsb (String.eqb o) wanted then a ++ [name] else filter (fun p => p <> name) a)))))) by congruence.
  clear Hrec. split_and!; [done | done | done | |].
  - intros p. rewrite in_peers_set, elem_ordered. apply or_iff_compat_l.
    rewrite existsb_eqb. case_bool_decide as Hw; case_bool_decide as Hp; subst.
    + rewrite elem_of_app, list_elem_of_singleton. tauto.
    + rewrite elem_of_app, list_elem_of_singleton. tauto.
    + rewrite list_elem_of_filter. tauto.
    + rewrite list_elem_of_filter. tauto.
  - intros k Hk. rewrite dget_dset_ne by congruence. done.
Qed.

Lemma put_role_inv candidate name definition out :
  _put_role candidate (VStr name) (VDict definition) = Ok out ->
  exists supplied, dget_or definition "peers" (VList [VStr name]) = VList (map VStr supplied) /\ name ∈ supplied /\
    exists defs', res_map (reciprocal name (_ordered_peers name supplied))
        (dset (_role_defs candidate) name
           (VDict (dset definition "peers" (VList (map VStr (_ordered_peers name supplied)))))) = Ok defs' /\
      _role_defs out = defs' /\ _role_of_map out = _role_of_map candidate.
Proof.
  unfold _put_role. intros H. head H as En. apply validate_role_name_ok in En as ([= <-] & _ & _).
  head H as Eens. destruct a as [c' roles]. cbn beta iota in H. head H as Ed. head H as Ep. head H as Eself. head H as Ec.
  head H as Es. apply str_list_ok in Es as ->. head H as Er. injection H as <-.
  destruct (ensure_defs _ _ _ Eens) as [Hd | Hd]; [| by rewrite Ed in Hd].
  unfold dget_or in Ed. rewrite Hd in Ed. injection Ed as <-. eexists. split; [done |]. bool_norm. split.
  - apply existsb_exists in Eself as (v & Hv & Heq). apply list_elem_of_In, list_elem_of_fmap in Hv as (s & -> & Hs).
    cbn in Heq. by apply String.eqb_eq in Heq as ->.
  - eexists. split_and!; [exact Er | apply role_defs_put | by eapply role_of_put_defs].
Qed.

(** Defining or redefining a role edits both ends of its edges: afterwards the
    role and any other defined role name one another or neither does; edges between
    other roles, every other field of other definitions and all memberships are as
    before; the stored peer list has no duplicates and starts with the role. *)
Theorem put_role_undirected candidate name definition out :
  _put_role candidate (VStr name) (VDict definition) = Ok out ->
  _role_of_map out = _role_of_map candidate /\
  exists nd peers, dget (_role_defs out) name = Some (VDict nd) /\
    dget nd "peers" = Some (VList (map VStr (name :: peers))) /\ NoDup (name :: peers) /\
    (forall k, k <> "peers" -> dget nd k = dget definition k) /\
    forall o v, o <> name -> dget (_role_defs out) o = Some v ->
      exists d d', dget (_role_defs candidate) o = Some (VDict d) /\ v = VDict d' /\
        in_peers o name d' = in_peers name o nd /\
        (forall p, p <> name -> p <> o -> in_peers o p d' = in_peers o p d) /\
        (forall k, k <> "peers" -> dget d' k = dget d k).
Proof.
  intros (supplied & Hp & Hself & defs' & Hr & -> & Hrof)%put_role_inv. split; [done |].
  set (wanted := _ordered_peers name supplied) in *.
  exists (dset definition "peers" (VList (map VStr wanted))), (tail wanted).
  assert (Hname : dget defs' name = Some (VDict (dset definition "peers" (VList (map VStr wanted))))).
  { apply res_map_ok in Hr.
    pose proof (dget_Forall2 (fun k x y => k = name -> x = y)
      (dset (_role_defs candidate) name (VDict (dset definition "peers" (VList (map VStr wanted))))) defs' name) as Hg.
    rewrite dget_dset_eq in Hg. destruct Hg as (c & Hc & Hx); [| by rewrite Hc, <- Hx].
    eapply Forall2_impl; [exact Hr |]. intros [n v] [n' w] Hx. unfold reciprocal in Hx. cbn [fst snd].
    head Hx as En; [injection Hx as <- <-; done |]. apply String.eqb_neq in En.
    head Hx. head Hx. head Hx. injection Hx as <- <-. done. }
  split_and!; [done | by rewrite dget_dset_eq | apply ordered_NoDup | intros k Hk; by rewrite dget_dset_ne |].
  intros o v Hne Ho. destruct (reciprocal_get _ _ _ _ _ _ Hr Ho Hne) as (d & old & d' & Hd & -> & Hold & Hin & Hk).
  rewrite dget_dset_ne in Hd by done. exists d, d'. split_and!; [done | done | | | done].
  - apply eq_true_iff_eq. rewrite Hin, bool_decide_true by done.
    rewrite (in_peers_set name o definition wanted). naive_solver.
  - intros p Hp1 Hp2. apply eq_true_iff_eq. rewrite Hin, bool_decide_false by done.
    rewrite (in_peers_list _ _ _ _ Hold). tauto.
Qed.

Lemma put_role_undirected_witness :
  exists out nd, _put_role sample_doc (VStr "edge") (VDict [("restricted", VBool true)]) = Ok out /\
    dget (_role_defs out) "edge" = Some (VDict nd).
Proof.
  destruct (_put_role sample_doc (VStr "edge") (VDict [("restricted", VBool true)])) as [out |] eqn:E.
  - destruct (proj2 (put_role_undirected sample_doc "edge" [("restricted", VBool true)] out E)) as (nd & peers & Hn & _).
    exists out, nd. split; [reflexivity | exact Hn].
  - exfalso. assert (H : is_ok (_put_role sample_doc (VStr "edge") (VDict [("restricted", VBool true)])) = true)
      by (vm_compute; reflexivity). by rewrite E in H.
Defined.

(** ** Retiring a device *)

Definition qos_device_of (doc : dict) : dict :=
  dict_or_empty (dget_or (dict_or_empty (dget_or doc "roles" (VDict []))) "qos_device" (VDict [])).

Lemma pop_section roles k dev k' :
  dict_or_empty (dget_or (match dget roles k with
    | Some (VDict d) => put_section roles k (dpop d dev) | _ => roles end) k' (VDict [])) =
  let d := dict_or_empty (dget_or roles k' (VDict [])) in if String.eqb k k' then dpop d dev else d.
Proof.
  cbv zeta. destruct (String.eqb_spec k k') as [<- | Hne].
  - unfold dget_or. destruct (dget roles k) as [[| | | | | | d] |] eqn:E; try (by rewrite E); try done.
    unfold put_section. by rewrite dget_dset_eq.
  - destruct (dget roles k) as [[| | | | | | d] |]; try done. unfold put_section, dget_or. by rewrite dget_dset_ne.
Qed.

Definition same_elsewhere (dev : string) (a b : dict) : Prop :=
  dget b dev = None /\ forall other, other <> dev -> dget b other = dget a other.

Lemma dpop_elsewhere d dev : same_elsewhere dev d (dpop d dev).
Proof.
  split; [by rewrite dget_dpop, String.eqb_refl |]. intros other Hne. rewrite dget_dpop.
  by destruct (String.eqb_spec dev other).
Qed.

Lemma unassign_roles dev c out :
  out = match dget c "roles" with
    | Some (VDict roles) =>
        let roles := match dget roles "role_of" with
          | Some (VDict d) => put_section roles "role_of" (dpop d dev) | _ => roles end in
        let roles := match dget roles "qos_device" with
          | Some (VDict d) => put_section roles "qos_device" (dpop d dev) | _ => roles end in
        put_roles c roles
    | _ => c
    end ->
  same_elsewhere dev (_role_of_map c) (_role_of_map out) /\ same_elsewhere dev (qos_device_of c) (qos_device_of out) /\
  _role_defs out = _role_defs c /\ forall k, k <> "roles" -> dget out k = dget c k.
Proof.
  intros ->. cbv zeta. unfold _role_of_map, qos_device_of, _role_defs.
  destruct (dget c "roles") as [[| | | | | | roles] |] eqn:E.
  all: try (assert (Hg : dget_or c "roles" (VDict []) = default (VDict []) (dget c "roles")) by done;
    rewrite E in Hg; cbn in Hg; rewrite Hg; by repeat split).
  assert (Hg : dget_or c "roles" (VDict []) = VDict roles) by (unfold dget_or; by rewrite E). rewrite Hg.
  set (r1 := match dget roles "role_of" with Some (VDict d) => _ | _ => _ end).
  set (r2 := match dget r1 "qos_device" with Some (VDict d) => _ | _ => _ end).
  assert (Hp : dget_or (put_roles c r2) "roles" (VDict []) = VDict r2) by (unfold dget_or, put_roles; by rewrite dget_dset_eq).
  rewrite Hp, !dict_or_empty_dict. subst r2. rewrite !pop_section. cbv zeta. subst r1. rewrite !pop_section. cbv zeta.
  cbn [String.eqb Ascii.eqb Bool.eqb]. split_and!; [apply dpop_elsewhere | apply dpop_elsewhere | done |].
  intros k Hk. unfold put_roles. by rewrite dget_dset_ne.
Qed.

(** Retiring a device clears its four policy slots (ordinary assignment,
    quarantine membership, role and device QoS) and leaves those of every other
    device, the role definitions and the rest of the document alone. *)
Theorem unassign_clears candidate dev out :
  (forall d, legacy_row (dget (assignments_of candidate) d) = false) ->
  unassign_mutation dev candidate = Ok out ->
  same_elsewhere dev (assignments_of candidate) (assignments_of out) /\
  same_elsewhere dev (_role_of_map candidate) (_role_of_map out) /\
  same_elsewhere dev (qos_device_of candidate) (qos_device_of out) /\
  (forall other, is_quarantined out other = if String.eqb dev other then false else is_quarantined candidate other) /\
  _role_defs out = _role_defs candidate /\
  (forall k, k ∉ ["assignments"; "quarantined_devices"; "roles"] -> dget out k = dget candidate k).
Proof.
  intros Hleg H. unfold unassign_mutation in H. head H as Ea.
  assert (Ha : same_elsewhere dev (assignments_of candidate) (assignments_of a) /\
    (forall k, k <> "assignments" -> dget a k = dget candidate k)).
  { unfold assignments_of, dget_or. head Ea as Eg.
    - head Ea as Ev. injection Ea as <-. subst. rewrite dget_dset_eq. cbn [from_option id]. rewrite !dict_or_empty_dict.
      split; [apply dpop_elsewhere |]. intros k Hk. by rewrite dget_dset_ne.
    - injection Ea as <-. rewrite Eg. by repeat split. }
  destruct Ha as [Ha Hka].
  assert (Hlega : forall d, legacy_row (dget (assignments_of a) d) = false).
  { intros d. destruct Ha as [Hn Ho]. destruct (decide (d = dev)) as [-> | Hd]; [by rewrite Hn |]. rewrite Ho by done. apply Hleg. }
  set (q := _set_quarantine_membership a dev false) in *.
  assert (Hq : (forall o, is_quarantined q o = if String.eqb dev o then false else is_quarantined a o) /\
    forall k, k <> "quarantined_devices" -> dget q k = dget a k).
  { split; [intros o; by apply quarantine_update |]. intros k. apply quarantine_update_keys. }
  destruct Hq as [Hq Hkq].
  assert (Hout : out = match dget q "roles" with
    | Some (VDict roles) =>
        let roles := match dget roles "role_of" with
          | Some (VDict d) => put_section roles "role_of" (dpop d dev) | _ => roles end in
        let roles := match dget roles "qos_device" with
          | Some (VDict d) => put_section roles "qos_device" (dpop d dev) | _ => roles end in
        put_roles q roles
    | _ => q
    end).
  { clear -H. destruct (dget q "roles") as [[] |]; by injection H as <-. }
  destruct (unassign_roles dev q out Hout) as (Hr & Hqd & Hdefs & Hko).
  assert (Hroles : forall x, dget_or q "roles" x = dget_or candidate "roles" x).
  { intros x. unfold dget_or. by rewrite Hkq, Hka. }
  unfold _role_of_map at 1 in Hr. unfold qos_device_of at 1 in Hqd. unfold _role_defs at 2 in Hdefs.
  rewrite Hroles in Hr, Hqd, Hdefs. split_and!; [| exact Hr | exact Hqd | | exact Hdefs |].
  - unfold assignments_of at 2, dget_or. rewrite Hko, Hkq by done. exact Ha.
  - intros other. assert (is_quarantined out other = is_quarantined q other) as ->.
    { rewrite !is_quarantined_rows. unfold membership_of, assignments_of, dget_or. by rewrite !Hko. }
    rewrite Hq. destruct (String.eqb dev other); [done |]. rewrite !is_quarantined_rows, Hleg, Hlega.
    unfold membership_of, dget_or. by rewrite Hka.
  - intros k Hk. rewrite Hko, Hkq, Hka; set_solver.
Qed.

Lemma unassign_clears_witness :
  exists out, unassign_mutation "e2" sample_doc = Ok out /\ dget (_role_of_map out) "e2" = None.
Proof.
  eexists. split; [vm_compute; reflexivity |].
  refine (proj1 (proj1 (proj2 (unassign_clears sample_doc "e2" _ _ _)))).
  - intros d. change (assignments_of sample_doc) with [("b1", VStr "branch"); ("b2", VStr "branch")].
    cbn [dget]. destruct (String.eqb "b1" d), (String.eqb "b2" d); reflexivity.
  - vm_compute. reflexivity.
Defined.

(** ** Restoring a prior revision *)

Lemma dget_filter_keys (P : string -> bool) (d : dict) k :
  dget (filter (fun kv => P (fst kv) = true) d) k = if P k then dget d k else None.
Proof.
  induction d as [| [x v] d IH]; [by destruct (P k) |]. rewrite filter_cons. cbn [fst dget].
  destruct (decide (P x = true)) as [Hx | Hx].
  - cbn [dget]. rewrite IH. destruct (String.eqb_spec x k) as [-> | ?]; [by rewrite Hx | done].
  - rewrite IH. destruct (String.eqb_spec x k) as [-> | ?]; [| done]. by destruct (P k).
Qed.

(** A restore brings back the historical policy content and keeps the live
    bookkeeping: revision and outbox stay those of the current document, private
    ([_]) keys are not restored, every other key is exactly the historical one (a key
    the historical document lacks is removed). *)
Theorem restore_content historical candidate out k :
  restore_mutation historical candidate = Ok out ->
  dget out k =
    if String.eqb "operation_outbox" k || String.eqb "revision" k then dget candidate k
    else if String.prefix "_" k then None else dget historical k.
Proof.
  unfold restore_mutation. intros H. cbn [item] in H. head H as Er. head H as Eo. injection H as <-.
  head Er as Er'. head Eo as Eo'. injection Er as <-. injection Eo as <-. rewrite !dget_dset.
  destruct (String.eqb_spec "operation_outbox" k) as [<- | Hko]; cbn [orb]; [done |].
  destruct (String.eqb_spec "revision" k) as [<- | Hkr]; [done |].
  rewrite dget_filter_keys. unfold restored_key.
  destruct (String.eqb_spec k "revision"); [congruence |]. destruct (String.eqb_spec k "operation_outbox"); [congruence |].
  cbn [negb andb]. by destruct (String.prefix "_" k).
Qed.

Lemma restore_content_witness :
  exists out, restore_mutation sample_doc base_document = Ok out /\ dget out "revision" = Some (VInt 1).
Proof.
  eexists. split; [vm_compute; reflexivity |].
  refine (restore_content sample_doc base_document _ "revision" _). vm_compute. reflexivity.
Defined.
