(* ===== verification/JsonText.v ===== *)
(** * [json.dumps(v, sort_keys=True, separators=(",", ":"))]

    The canonical text a confirmation token is computed from.  Non-ASCII characters
    are escaped ([ensure_ascii]), supplementary ones as surrogate pairs.  The shortest
    decimal form of a float is a parameter. *)
From S2P Require Import Prelude PyVal JsonDump Sha256.

(** ** Characters *)

(** The code point of a UTF-8 sequence and the bytes after it. *)
Definition utf8_next (b : bytes) : option (Z * bytes) :=
  match b with
  | [] => None
  | c :: rest =>
      let v := byte_val c in
      if v <? 128 then Some (v, rest)
      else if v <? 224 then
        match rest with c1 :: rest => Some ((v - 192) * 64 + (byte_val c1 - 128), rest) | _ => None end
      else if v <? 240 then
        match rest with
        | c1 :: c2 :: rest => Some (((v - 224) * 64 + (byte_val c1 - 128)) * 64 + (byte_val c2 - 128), rest)
        | _ => None
        end
      else
        match rest with
        | c1 :: c2 :: c3 :: rest =>
            Some ((((v - 240) * 64 + (byte_val c1 - 128)) * 64 + (byte_val c2 - 128)) * 64 + (byte_val c3 - 128), rest)
        | _ => None
        end
  end.

Definition u_escape (z : Z) : bytes :=
  bytes_of "\u" ++ map (fun i => hex_digit (z / 16 ^ (3 - Z.of_nat i))) (seq 0 4).

Definition escape_char (z : Z) : bytes :=
  if z =? 34 then bytes_of "\" ++ [ascii_of_nat 34]
  else if z =? 92 then bytes_of "\\"
  else if z =? 10 then bytes_of "\n"
  else if z =? 13 then bytes_of "\r"
  else if z =? 9 then bytes_of "\t"
  else if z =? 8 then bytes_of "\b"
  else if z =? 12 then bytes_of "\f"
  else if (32 <=? z) && (z <? 127) then [ascii_of_nat (Z.to_nat z)]
  else if z <? 65536 then u_escape z
  else u_escape (55296 + (z - 65536) / 1024) ++ u_escape (56320 + (z - 65536) mod 1024).

Fixpoint escape_chars (fuel : nat) (b : bytes) : bytes :=
  match fuel with
  | O => []
  | S fuel => match utf8_next b with Some (z, rest) => escape_char z ++ escape_chars fuel rest | None => [] end
  end.

Definition quote : bytes := [ascii_of_nat 34].
Definition json_string (s : string) : bytes :=
  quote ++ escape_chars (length (bytes_of s)) (bytes_of s) ++ quote.

(** ** Values *)

Section text.
Context (float_repr : pyfloat -> bytes).

Fixpoint json_text (v : pyval) : bytes :=
  match v with
  | VNone => bytes_of "null"
  | VBool b => bytes_of (if b then "true" else "false")
  | VInt z => dec z
  | VFloat f => float_repr f
  | VStr s => json_string s
  | VList l =>
      bytes_of "[" ++
      (fix go l := match l with
        | [] => [] | [x] => json_text x | x :: l => json_text x ++ bytes_of "," ++ go l end) l ++ bytes_of "]"
  | VDict d =>
      bytes_of "{" ++
      (fix go d := match d with
        | [] => []
        | [(k, x)] => json_string k ++ bytes_of ":" ++ json_text x
        | (k, x) :: d => json_string k ++ bytes_of ":" ++ json_text x ++ bytes_of "," ++ go d
        end) d ++ bytes_of "}"
  end.

Definition json_dumps (v : pyval) : string := string_of (json_text (sort_keys v)).
End text.

Example json_dumps_sorts :
  json_dumps (fun _ => []) (VDict [("b", VList [VInt (-12); VNone]); ("a", VStr "x")]) =
  string_of (bytes_of "{" ++ quote ++ bytes_of "a" ++ quote ++ bytes_of ":" ++ quote ++ bytes_of "x" ++ quote ++
    bytes_of "," ++ quote ++ bytes_of "b" ++ quote ++ bytes_of ":[-12,null]}").
Proof. reflexivity. Qed.
