(* ===== verification/PolicyBlast.v ===== *)
(** * [server/peer_policy.py]: the blast-radius preview

    The impact of a policy change, computed on bit masks over the known devices: one
    outbound mask per effective ACL, mutual counterparts by mask algebra.  The masks
    are the unbounded integers of the code, with its bit operations. *)
From S2P Require Import Prelude PyVal JsonDump JsonText Sha256 Ipv4 PolicyDoc PolicySample PolicyQuarantine PolicyQos.
From S2P Require Import PolicyRoles PolicyValid PolicyEval PolicyEvalSpec PolicyStore.

(** ** Maps of the computation *)

(** A dict keyed by an effective ACL name, [None] included. *)
Fixpoint oget {B} (d : list (option string * B)) (k : option string) : option B :=
  match d with
  | [] => None
  | (x, v) :: d => if bool_decide (x = k) then Some v else oget d k
  end.

Fixpoint oset {B} (d : list (option string * B)) (k : option string) (v : B) : list (option string * B) :=
  match d with
  | [] => [(k, v)]
  | (x, w) :: d => if bool_decide (x = k) then (x, v) :: d else (x, w) :: oset d k v
  end.

(** [d[k] |= bit] on a [defaultdict(int)]. *)
Definition oadd (d : list (option string * Z)) (k : option string) (bit : Z) : list (option string * Z) :=
  oset d k (Z.lor (default 0 (oget d k)) bit).
Definition sadd (d : list (string * Z)) (k : string) (bit : Z) : list (string * Z) :=
  dset d k (Z.lor (dget_or d k 0) bit).

(** ** Masks *)

Definition _origin_access (doc : dict) (device_id : string) (compiled : CompiledRoles) : res bool :=
  mutual_permit doc (Principal "device" device_id) "0.0.0.0" (Principal "service" "seeder") "0.0.0.0" (Some compiled).

(** [masks.get(value, 0)] *)
Definition mask_get (masks : list (string * Z)) (value : pyval) : res Z :=
  let* found := dget_val masks value in Ok (default 0 found).

Definition _device_rule_mask (m : pyval) (all_mask : Z) (device_bits role_masks : list (string * Z)) : res Z :=
  let* match_type := item m "type" in
  if py_eq match_type (VStr "any") then Ok all_mask
  else if py_eq match_type (VStr "device") then let* v := item m "value" in mask_get device_bits v
  else if py_eq match_type (VStr "role") then let* v := item m "value" in mask_get role_masks v
  else if py_eq match_type (VStr "service") then Ok 0
  else if py_eq match_type (VStr "host") then
    let* v := item m "value" in Ok (if py_eq v (VStr "0.0.0.0") then all_mask else 0)
  else if py_eq match_type (VStr "cidr") then
    let* v := item m "value" in
    match v with
    | VStr s => let* n := IPv4Network s in Ok (if net_contains n 0 then all_mask else 0)
    | VInt z => if (0 <=? z) && (z <=? all_ones) then Ok (if z =? 0 then all_mask else 0)
                else Err (ValueError "AddressValueError")
    | VBool b => Ok (if b then 0 else all_mask)
    | _ => Err (ValueError "AddressValueError")
    end
  else Ok 0.

(** [acl_name[5:]] of a virtual name. *)
Definition drop_role_prefix (s : string) : string := string_of (drop 5 (bytes_of s)).

Definition _effective_acl_rules (acl_name : option string) (compiled : CompiledRoles) : res (list pyval) :=
  match acl_name with
  | None => Ok []
  | Some name =>
      if String.prefix "role:" name then
        match dget (acl_by_role compiled) (drop_role_prefix name) with
        | Some acl => iter_val (dget_or acl "rules" (VList []))
        | None => Ok []
        end
      else Ok (dget_or (sorted_rules compiled) name [])
  end.

(** The loop over the rules: all devices at once, each decided by its first match. *)
Fixpoint mask_loop (rules : list pyval) (all_mask : Z) (device_bits role_masks : list (string * Z))
    (unresolved permitted : Z) : res Z :=
  match rules with
  | [] => Ok (Z.lor permitted unresolved)
  | rule :: rules =>
      let* m := item rule "match" in
      let* mask := _device_rule_mask m all_mask device_bits role_masks in
      let matched := Z.land unresolved mask in
      let* action := item rule "action" in
      let permitted := if py_eq action (VStr "permit") then Z.lor permitted matched else permitted in
      let unresolved := Z.land unresolved (Z.lnot matched) in
      if unresolved =? 0 then Ok (Z.lor permitted unresolved)
      else mask_loop rules all_mask device_bits role_masks unresolved permitted
  end.

Definition _permitted_subject_mask (acl_name : option string) (compiled : CompiledRoles) (all_mask : Z)
    (device_bits role_masks : list (string * Z)) : res Z :=
  let* rules := _effective_acl_rules acl_name compiled in
  mask_loop rules all_mask device_bits role_masks all_mask 0.

(** The first loop: the mask of each role and of the owners of each effective ACL. *)
Definition group_step (doc : dict) (compiled : CompiledRoles)
    (st : list (string * Z) * list (option string * Z)) (db : string * Z)
    : res (list (string * Z) * list (option string * Z)) :=
  let '(role_masks, members_by_acl) := st in
  let '(device_id, bit) := db in
  let* role_masks :=
    match dget_or (role_of compiled) device_id VNone with
    | VNone => Ok role_masks
    | VStr role => Ok (sadd role_masks role bit)
    | _ => Err (TypeError "role is not a string")
    end in
  let* acl_name := effective_acl_name doc (Principal "device" device_id) (Some compiled) in
  let* acl_name := match acl_name with VNone => Ok None | VStr s => Ok (Some s) | _ => Err (TypeError "acl name") end in
  Ok (role_masks, oadd members_by_acl acl_name bit).

(** Owners that find a mutual counterpart in one candidate group. *)
Definition pair_access (owners outgoing candidate_members candidate_permitted : Z) : Z :=
  let candidates := Z.land outgoing candidate_members in
  if candidates =? 0 then 0
  else
    let accepted_owners := Z.land owners candidate_permitted in
    if Z.land candidates (candidates - 1) =? 0 then Z.land accepted_owners (Z.lnot candidates)
    else accepted_owners.

Definition peer_access_mask (members : list (option string * Z)) (permitted_by_acl : list (option string * Z)) : Z :=
  foldl (fun acc g =>
    foldl (fun acc h =>
      Z.lor acc (pair_access (snd g) (default 0 (oget permitted_by_acl (fst g))) (snd h)
                   (default 0 (oget permitted_by_acl (fst h))))) acc members) 0 members.

(** [device_bits] in sorted order. *)
Definition bits_of (ordered : list string) : list (string * Z) :=
  zip ordered (map (fun i => Z.shiftl 1 (Z.of_nat i)) (seq 0 (length ordered))).

Definition _permitted_sets (doc : dict) (devices : list string) (origin_access : list (string * bool))
    (compiled : CompiledRoles) : res (list (string * bool)) :=
  let ordered_devices := sort_by str_leb devices in
  let device_bits := bits_of ordered_devices in
  let all_mask := Z.shiftl 1 (zlen ordered_devices) - 1 in
  let* (role_masks, members_by_acl) := res_fold (group_step doc compiled) ([], []) device_bits in
  let* permitted_by_acl := res_map (fun g =>
    let* mask := _permitted_subject_mask (fst g) compiled all_mask device_bits role_masks in
    Ok (fst g, mask)) members_by_acl in
  let peer_access := peer_access_mask members_by_acl permitted_by_acl in
  let origin_mask := foldl (fun acc dp =>
    if snd dp : bool then Z.lor acc (dget_or device_bits (fst dp) 0) else acc) 0 origin_access in
  let permitted_mask := Z.lor origin_mask peer_access in
  Ok (map (fun db => (fst db, negb (Z.land permitted_mask (snd db) =? 0))) device_bits).

(** ** Content compared and confirmed *)

Definition role_qos_values (definition : dict) : dict :=
  (if truth (dget_or definition "qos" VNone) then [("qos", dget_or definition "qos" VNone)] else []) ++
  match dget definition "qos_state" with Some v => [("qos_state", v)] | None => [] end ++
  match dget definition "on_stale" with Some v => [("on_stale", v)] | None => [] end.

(** On a validated document: definitions and [qos_device] are dicts. *)
Definition _qos_policy_content (doc : dict) : dict :=
  let roles := dict_or_empty (dget_or doc "roles" (VDict [])) in
  let role_qos := omap (fun nd =>
    match role_qos_values (dict_or_empty (snd nd)) with [] => None | vs => Some (fst nd, VDict vs) end) (_role_defs doc) in
  [("qos_default", dget_or roles "qos_default" (VDict []));
   ("qos_device", VDict (filter (fun kv => truth (snd kv) = true)
      (dict_or_empty (dget_or roles "qos_device" (VDict [])))));
   ("roles", VDict role_qos)] ++
  match dget roles "qos_state_default" with Some v => [("qos_state_default", v)] | None => [] end.

Definition _token_policy_content (doc : dict) : dict :=
  filter (fun kv => fst kv ∉ ["revision"; "operation_outbox"; "operation_ack_epoch"]) doc.

(** The pairs [(left, right)] with [left] before [right] in name order. *)
Fixpoint ordered_pairs (l : list string) : list (string * string) :=
  match l with [] => [] | x :: l => map (pair x) l ++ ordered_pairs l end.

Definition _mutual_role_edges (doc : dict) : list (string * string) :=
  let role_names := sort_by str_leb (remove_dups (dkeys (_role_defs doc) ++ ["default"])) in
  filter (fun e => _role_pair_permitted doc (fst e) (snd e) = true) (ordered_pairs role_names).

(** ** The preview *)

Record BlastRadius := {
  member_delta : Z;
  origin_access_lost : Z;
  empty_permitted_sets : Z;
  role_pairs_stopped : Z;
  qos_changed : bool;
  requires_confirmation : bool;
  confirm_token : option string }.

Definition opt_val (o : option pyval) : pyval := default VNone o.

(** [sum(a[d] and not b[d] for d in devices)] *)
Definition count_lost (devices : list string) (a b : list (string * bool)) : Z :=
  zlen (filter (fun d => dget_or a d false && negb (dget_or b d false) = true) devices).

Definition blast_devices (prior candidate : dict) : list string :=
  remove_dups (dkeys (_role_of_map prior) ++ dkeys (_role_of_map candidate) ++
    dkeys (assignments_of prior) ++ dkeys (assignments_of candidate) ++
    quarantine_device_ids prior ++ quarantine_device_ids candidate).

Section blast.
Context (ttl : Z) (float_repr : pyfloat -> bytes).

Definition origin_map (doc : dict) (devices : list string) (compiled : CompiledRoles) : res (list (string * bool)) :=
  res_map (fun d => let* b := _origin_access doc d compiled in Ok (d, b)) devices.

Definition token_of (prior candidate : dict) (counts : list Z) (qos : bool) (threshold : Z) : string :=
  sha256_hexdigest (json_dumps float_repr (VDict [
    ("prior_revision", opt_val (dget prior "revision"));
    ("candidate", VDict (_token_policy_content candidate));
    ("counts", VList (map VInt counts));
    ("qos_changed", VBool qos);
    ("threshold", VInt threshold)])).

Definition blast_radius (prior candidate threshold : pyval) : res BlastRadius :=
  match threshold with
  | VInt threshold =>
      raise (perr "bad blast-radius threshold") when (threshold <? 0) ;;;
      let* prior := validate_document ttl prior in
      let* candidate := validate_document ttl candidate in
      let role_devices := remove_dups (dkeys (_role_of_map prior) ++ dkeys (_role_of_map candidate)) in
      let delta := zlen (filter (fun d =>
        py_eq (opt_val (dget (_role_of_map prior) d)) (opt_val (dget (_role_of_map candidate) d)) = false) role_devices) in
      let devices := blast_devices prior candidate in
      let* prior_compiled := compile_roles prior in
      let* candidate_compiled := compile_roles candidate in
      let* prior_origin := origin_map prior devices prior_compiled in
      let* candidate_origin := origin_map candidate devices candidate_compiled in
      let origin_lost := count_lost devices prior_origin candidate_origin in
      let* prior_sets := _permitted_sets prior devices prior_origin prior_compiled in
      let* candidate_sets := _permitted_sets candidate devices candidate_origin candidate_compiled in
      let emptied := count_lost devices prior_sets candidate_sets in
      let stopped := zlen (filter (fun e => e ∉ _mutual_role_edges candidate) (_mutual_role_edges prior)) in
      let counts := [delta; origin_lost; emptied; stopped] in
      let qos := negb (py_eq (VDict (_qos_policy_content prior)) (VDict (_qos_policy_content candidate))) in
      let requires := existsb (fun c => threshold <? c) (counts ++ [Z.b2z qos]) in
      Ok {| member_delta := delta; origin_access_lost := origin_lost; empty_permitted_sets := emptied;
            role_pairs_stopped := stopped; qos_changed := qos; requires_confirmation := requires;
            confirm_token := if requires then Some (token_of prior candidate counts qos threshold) else None |}
  | _ => Err (perr "bad blast-radius threshold")
  end.

(** [secrets.compare_digest] refuses non-ASCII text. *)
Definition ascii_text (s : string) : bool := forallb (fun c => byte_val c <? 128) (bytes_of s).

Definition confirm_blast_radius (prior candidate threshold token : pyval) : res bool :=
  let* preview := blast_radius prior candidate threshold in
  if negb (requires_confirmation preview) then Ok true
  else
    match token with
    | VStr t =>
        if negb (ascii_text t) then Err (TypeError "comparing strings with non-ASCII characters")
        else Ok (bool_decide (confirm_token preview = Some t))
    | _ => Ok false
    end.
End blast.
