(* ===== verification/BlastSpec.v ===== *)
(** * The blast-radius preview is exact

    The preview decides all devices at once on bit masks.  A mask denotes a predicate
    on the devices in name order; each step of the computation is read through that
    denotation, and the result is the device-by-device answer of [mutual_permit]. *)
From S2P Require Import Prelude PyVal JsonDump JsonText Sha256 Ipv4 PolicyDoc PolicySample PolicyQuarantine PolicyQos.
From S2P Require Import PolicyRoles PolicyValid PolicyEval PolicyEvalSpec PolicyStore PolicyBlast.

(** ** Masks as predicates *)

Definition denotes (o : list string) (m : Z) (P : string -> bool) : Prop :=
  forall n : nat, Z.testbit m (Z.of_nat n) = from_option P false (o !! n).

Section denotes.
Context (o : list string).

Lemma den_ext m P Q : (forall d, d ∈ o -> P d = Q d) -> denotes o m P -> denotes o m Q.
Proof.
  intros H Hm n. rewrite Hm. destruct (o !! n) as [d |] eqn:E; [| done]. cbn. exact (H d (list_elem_of_lookup_2 _ _ _ E)).
Qed.

Lemma den_zero : denotes o 0 (fun _ => false).
Proof. intros n. rewrite Z.bits_0. by destruct (o !! n). Qed.

Lemma den_all : denotes o (Z.shiftl 1 (zlen o) - 1) (fun _ => true).
Proof.
  intros n. rewrite Z.shiftl_1_l, Z.sub_1_r, <- Z.ones_equiv. unfold zlen.
  destruct (o !! n) as [d |] eqn:E; cbn.
  - apply lookup_lt_Some in E. apply Z.ones_spec_low. lia.
  - apply lookup_ge_None in E. apply Z.ones_spec_high. lia.
Qed.

Lemma den_or a b P Q : denotes o a P -> denotes o b Q -> denotes o (Z.lor a b) (fun d => P d || Q d).
Proof. intros Ha Hb n. rewrite Z.lor_spec, Ha, Hb. by destruct (o !! n). Qed.

Lemma den_and a b P Q : denotes o a P -> denotes o b Q -> denotes o (Z.land a b) (fun d => P d && Q d).
Proof. intros Ha Hb n. rewrite Z.land_spec, Ha, Hb. by destruct (o !! n). Qed.

Lemma den_diff a b P Q :
  denotes o a P -> denotes o b Q -> denotes o (Z.land a (Z.lnot b)) (fun d => P d && negb (Q d)).
Proof.
  intros Ha Hb n. rewrite Z.land_spec, Z.lnot_spec, Ha, Hb by lia. by destruct (o !! n).
Qed.

Lemma den_unique a b P : denotes o a P -> denotes o b P -> a = b.
Proof.
  intros Ha Hb. apply Z.bits_inj'. intros n Hn. rewrite <- (Z2Nat.id n) by done. by rewrite Ha, Hb.
Qed.

Lemma den_null m P : denotes o m P -> (m =? 0) = true <-> forall d, d ∈ o -> P d = false.
Proof.
  intros Hm. rewrite Z.eqb_eq. split.
  - intros -> d [n Hn]%list_elem_of_lookup. specialize (Hm n). by rewrite Z.bits_0, Hn in Hm.
  - intros H. eapply den_unique; [| exact den_zero]. by eapply den_ext.
Qed.

Lemma den_nonneg m P : denotes o m P -> 0 <= m.
Proof.
  intros Hm. apply Z.bits_iff_nonneg_ex. exists (zlen o). intros n Hn. unfold zlen in Hn.
  rewrite <- (Z2Nat.id n), Hm, lookup_ge_None_2 by lia. done.
Qed.

(** [m & (m - 1) == 0]: at most one bit. *)
Lemma one_bit m i j :
  0 <= m -> 0 <= i -> 0 <= j -> Z.land m (m - 1) = 0 -> Z.testbit m i = true -> Z.testbit m j = true -> i = j.
Proof.
  intros Hm Hi Hj H0 Hbi Hbj.
  assert (Hlow : forall k, 0 <= k -> Z.testbit m k = true -> k = Z.log2 m); [| rewrite (Hlow i), (Hlow j); done].
  intros k Hk Hb. destruct (decide (k = Z.log2 m)) as [| Hne]; [done |]. exfalso.
  assert (0 < m) by (destruct (decide (m = 0)) as [-> |]; [by rewrite Z.bits_0 in Hb | lia]).
  assert (Hlt : k < Z.log2 m).
  { destruct (Z.lt_ge_cases (Z.log2 m) k); [by rewrite Z.bits_above_log2 in Hb | lia]. }
  pose proof (Z.log2_spec m) as Hspec. destruct Hspec as [Hl Hu]; [done |].
  assert (Hne2 : m <> 2 ^ Z.log2 m).
  { intros Heq. rewrite Heq, Z.pow2_bits_eqb in Hb by apply Z.log2_nonneg. lia. }
  assert (Hlog : Z.log2 (m - 1) = Z.log2 m) by (apply Z.log2_unique; [apply Z.log2_nonneg | lia]).
  assert (Hbit : Z.testbit (Z.land m (m - 1)) (Z.log2 m) = true).
  { rewrite Z.land_spec, Z.bit_log2 by done. rewrite <- Hlog. apply Z.bit_log2.
    assert (2 ^ 1 <= 2 ^ Z.log2 m) by (apply Z.pow_le_mono_r; lia). lia. }
  by rewrite H0, Z.bits_0 in Hbit.
Qed.

Lemma bit_alone i : 0 <= i -> Z.land (2 ^ i) (2 ^ i - 1) = 0.
Proof.
  intros Hi. apply Z.bits_inj'. intros n Hn.
  rewrite Z.land_spec, Z.bits_0, Z.pow2_bits_eqb, Z.sub_1_r, <- Z.ones_equiv by done.
  destruct (Z.eqb_spec i n) as [<- |]; [| done]. apply Z.ones_spec_high. lia.
Qed.

Lemma den_single m P :
  NoDup o -> denotes o m P -> (m =? 0) = false ->
  (Z.land m (m - 1) =? 0) = true <-> exists d, d ∈ o /\ forall e, e ∈ o -> P e = true <-> e = d.
Proof.
  intros Hnd Hm Hn0.
  assert (exists d, d ∈ o /\ P d = true) as (d & [n Hn]%list_elem_of_lookup & Hd).
  { destruct (existsb P o) eqn:E.
    - apply existsb_exists in E as (d & Hd & HP). exists d. by rewrite list_elem_of_In.
    - exfalso. apply not_true_iff_false in Hn0. apply Hn0, (den_null m P Hm). intros d Hd.
      apply not_true_iff_false in E. apply not_true_is_false. intros HP. apply E, existsb_exists.
      exists d. by rewrite <- list_elem_of_In. }
  rewrite Z.eqb_eq. split.
  - intros H0. exists d. split; [by eapply list_elem_of_lookup_2 |]. intros e [k Hk]%list_elem_of_lookup.
    split; [| by intros ->]. intros He.
    assert (Z.of_nat k = Z.of_nat n) as ->%Nat2Z.inj; [| congruence].
    apply (one_bit m); [by eapply den_nonneg | lia | lia | done | |]; by rewrite Hm, ?Hk, ?Hn.
  - intros (d' & _ & Hd'). assert (d = d') as <- by (apply Hd'; [by eapply list_elem_of_lookup_2 | done]).
    assert (m = 2 ^ Z.of_nat n) as ->; [| apply bit_alone; lia]. eapply den_unique; [exact Hm |].
    intros k. rewrite Z.pow2_bits_eqb by lia. destruct (o !! k) as [e |] eqn:E; cbn.
    + destruct (Z.eqb_spec (Z.of_nat n) (Z.of_nat k)) as [->%Nat2Z.inj | Hne]; [by simplify_eq |]. symmetry.
      apply not_true_is_false. intros He. apply Hd' in He as ->; [| by eapply list_elem_of_lookup_2].
      apply Hne. f_equal. exact (NoDup_lookup _ _ _ _ Hnd Hn E).
    + apply Z.eqb_neq. intros <-%Nat2Z.inj. congruence.
Qed.
End denotes.

(** ** The bit of a device *)

Lemma bits_lookup o d b : (d, b) ∈ bits_of o -> exists n, o !! n = Some d /\ b = 2 ^ Z.of_nat n.
Proof.
  unfold bits_of. intros [n Hn]%list_elem_of_lookup. exists n.
  apply lookup_zip_with_Some in Hn as (d' & b' & [= -> ->] & Hd & Hb). split; [done |].
  apply list_lookup_fmap_Some in Hb as (k & -> & Hk). apply lookup_seq in Hk as [-> _]. apply Z.shiftl_1_l.
Qed.

Lemma bits_keys o : map fst (bits_of o) = o.
Proof. unfold bits_of. apply (fst_zip (B:=Z)). by rewrite length_map, length_seq. Qed.

Lemma bit_den o d b : NoDup o -> (d, b) ∈ bits_of o -> denotes o b (fun x => String.eqb x d).
Proof.
  intros Hnd (n & Hn & ->)%bits_lookup k. rewrite Z.pow2_bits_eqb by lia. destruct (o !! k) as [e |] eqn:E; cbn.
  - destruct (Z.eqb_spec (Z.of_nat n) (Z.of_nat k)) as [->%Nat2Z.inj | Hne].
    + simplify_eq. by rewrite String.eqb_refl.
    + symmetry. apply String.eqb_neq. intros ->. apply Hne. f_equal. exact (NoDup_lookup _ _ _ _ Hnd Hn E).
  - apply Z.eqb_neq. intros <-%Nat2Z.inj. congruence.
Qed.

Lemma bits_get o s : NoDup o -> denotes o (dget_or (bits_of o) s 0) (fun x => String.eqb x s).
Proof.
  intros Hnd. unfold dget_or. destruct (dget (bits_of o) s) as [b |] eqn:E; cbn.
  - by apply bit_den, dget_elem.
  - eapply den_ext; [| apply den_zero]. intros d Hd. symmetry. apply String.eqb_neq. intros ->.
    apply dget_None in E. apply E. unfold dkeys. by rewrite bits_keys.
Qed.

(** Reading the answer of one device. *)
Lemma bit_test o m P d b :
  NoDup o -> denotes o m P -> (d, b) ∈ bits_of o -> negb (Z.land m b =? 0) = P d.
Proof.
  intros Hnd Hm Hb. pose proof (den_and _ _ _ _ _ Hm (bit_den o d b Hnd Hb)) as Hand. apply den_null in Hand.
  assert (Hd : d ∈ o) by (apply bits_lookup in Hb as (n & Hn & _); by eapply list_elem_of_lookup_2).
  destruct (P d) eqn:E.
  - apply negb_true_iff, not_true_iff_false. intros H0.
    pose proof (proj1 Hand H0 d Hd) as H1. cbn in H1. by rewrite E, String.eqb_refl in H1.
  - apply negb_false_iff, (proj2 Hand). intros e He. destruct (String.eqb_spec e d) as [-> |]; [by rewrite E |].
    apply andb_false_r.
Qed.

(** ** Grouping *)

(** Masks collected under keys: [d[k] |= bit] for each device. *)
Section collect.
Context (o : list string) (Hnd : NoDup o).

(** The devices processed so far whose key is [k]. *)
Definition keyed {K} `{EqDecision K} (key : string -> option K) (done : list string) (k : K) (d : string) : bool :=
  bool_decide (d ∈ done) && bool_decide (key d = Some k).

Lemma keyed_snoc {K} `{EqDecision K} (key : string -> option K) done d k x :
  keyed key (done ++ [d]) k x = keyed key done k x || (String.eqb x d && bool_decide (key d = Some k)).
Proof.
  unfold keyed. destruct (String.eqb_spec x d) as [-> | Hne].
  - rewrite (bool_decide_true (d ∈ done ++ [d])) by set_solver. cbn [andb].
    by destruct (bool_decide (d ∈ done)), (bool_decide (key d = Some k)).
  - rewrite orb_false_r. f_equal. apply bool_decide_ext. set_solver.
Qed.

Lemma oget_oset {B} (l : list (option string * B)) k v j :
  oget (oset l k v) j = if bool_decide (k = j) then Some v else oget l j.
Proof.
  induction l as [| [x w] l IH]; cbn; [done |].
  destruct (decide (x = k)) as [-> | Hne].
  - rewrite (bool_decide_true (k = k)) by done. cbn. by destruct (bool_decide (k = j)).
  - rewrite (bool_decide_false (x = k)) by done. cbn. rewrite IH. do 2 case_bool_decide; congruence.
Qed.

Lemma oset_keys {B} (l : list (option string * B)) k v j : j ∈ map fst (oset l k v) <-> j ∈ map fst l \/ j = k.
Proof.
  induction l as [| [x w] l IH]; cbn; [set_solver |].
  destruct (decide (x = k)) as [-> | Hne].
  - rewrite bool_decide_true by done. cbn. set_solver.
  - rewrite bool_decide_false by done. cbn. set_solver.
Qed.

Lemma oset_NoDup {B} (l : list (option string * B)) k v : NoDup (map fst l) -> NoDup (map fst (oset l k v)).
Proof.
  induction l as [| [x w] l IH]; cbn; [intros; apply NoDup_singleton |]. intros [Hx Hl]%NoDup_cons.
  destruct (decide (x = k)) as [-> | Hne].
  - rewrite bool_decide_true by done. by constructor.
  - rewrite bool_decide_false by done. cbn. constructor; [| by apply IH]. rewrite oset_keys. naive_solver.
Qed.

Lemma oget_elem {B} (l : list (option string * B)) k v : NoDup (map fst l) -> (k, v) ∈ l -> oget l k = Some v.
Proof.
  induction l as [| [x w] l IH]; cbn; [intros _ H; inversion H |]. intros [Hx Hl]%NoDup_cons.
  rewrite elem_of_cons. intros [[= -> ->] | Hin]; [by rewrite bool_decide_true |].
  rewrite bool_decide_false; [by apply IH |]. intros ->. apply Hx, list_elem_of_fmap. by exists (k, v).
Qed.

Context (role : string -> option string) (acl : string -> option string).

(** The state of the first loop after [done]. *)
Record grouped (done : list string) (st : list (string * Z) * list (option string * Z)) : Prop := {
  grp_roles : forall r, denotes o (dget_or (fst st) r 0) (keyed role done r);
  grp_members : forall k, denotes o (default 0 (oget (snd st) k)) (keyed (fun d => Some (acl d)) done k);
  grp_nodup : NoDup (map fst (snd st));
  grp_keys : forall k, k ∈ map fst (snd st) <-> exists d, d ∈ done /\ acl d = k }.

Definition group_one (st : list (string * Z) * list (option string * Z)) (db : string * Z) :=
  (match role (fst db) with Some r => sadd (fst st) r (snd db) | None => fst st end,
   oadd (snd st) (acl (fst db)) (snd db)).

Lemma grouped_step done st d b :
  (d, b) ∈ bits_of o -> grouped done st -> grouped (done ++ [d]) (group_one st (d, b)).
Proof.
  intros Hb [Hr Hm Hn Hk]. pose proof (bit_den o d b Hnd Hb) as Hbit. constructor; cbn [group_one fst snd].
  - intros r. eapply den_ext; [intros x _; symmetry; apply keyed_snoc |].
    destruct (decide (role d = Some r)) as [E | E].
    + rewrite E, (bool_decide_true (Some r = Some r)) by done. unfold sadd, dget_or at 1. rewrite dget_dset_eq. cbn.
      eapply den_ext; [| exact (den_or _ _ _ _ _ (Hr r) Hbit)]. intros x _. cbn. by rewrite andb_true_r.
    + rewrite (bool_decide_false (role d = Some r)) by done.
      apply (den_ext o _ (keyed role done r)); [intros x _; by rewrite andb_false_r, orb_false_r |].
      destruct (role d) as [r' |] eqn:E'; [| exact (Hr r)]. unfold sadd, dget_or at 1.
      rewrite dget_dset_ne by congruence. exact (Hr r).
  - intros k. eapply den_ext; [intros x _; symmetry; apply keyed_snoc |]. unfold oadd. rewrite oget_oset.
    destruct (decide (acl d = k)) as [-> | E].
    + rewrite !bool_decide_true by done. cbn. eapply den_ext; [| exact (den_or _ _ _ _ _ (Hm k) Hbit)].
      intros x _. cbn. by rewrite andb_true_r.
    + rewrite !bool_decide_false by congruence. eapply den_ext; [| exact (Hm k)].
      intros x _. by rewrite andb_false_r, orb_false_r.
  - by apply oset_NoDup.
  - intros k. unfold oadd. rewrite oset_keys, Hk. set_solver.
Qed.

Lemma grouped_all : grouped o (foldl group_one ([], []) (bits_of o)).
Proof.
  assert (H : forall l done st, (forall db, db ∈ l -> db ∈ bits_of o) -> grouped done st ->
    grouped (done ++ map fst l) (foldl group_one st l)).
  { induction l as [| [d b] l IH]; intros done st Hl Hst; [by rewrite app_nil_r |]. cbn [map foldl fst].
    rewrite cons_middle, app_assoc. apply IH; [intros; apply Hl; by right |]. apply grouped_step; [apply Hl; by left | done]. }
  rewrite <- (bits_keys o) at 1. apply (H _ []); [done |]. constructor; cbn.
  - intros r. eapply den_ext; [| apply den_zero]. done.
  - intros k. eapply den_ext; [| apply den_zero]. done.
  - constructor.
  - intros k. set_solver.
Qed.
End collect.

(** ** Counterparts by mask algebra *)

Section peers.
Context (o : list string) (Hnd : NoDup o) (acl : string -> option string).
(** [F k e]: the ACL named [k] permits the device [e]. *)
Context (F : option string -> string -> bool).
Context (members permitted : list (option string * Z)).
Context (Hnodup : NoDup (map fst members)).
Context (Hkeys : forall k, k ∈ map fst members <-> exists d, d ∈ o /\ acl d = k).
Context (Hmem : forall k, denotes o (default 0 (oget members k)) (fun d => bool_decide (acl d = k))).
Context (Hperm : forall k, k ∈ map fst members -> denotes o (default 0 (oget permitted k)) (F k)).

(** Two devices each permitted by the ACL of the other. *)
Definition linked (d e : string) : bool := negb (String.eqb e d) && F (acl d) e && F (acl e) d.

(** [d], an owner of [kg], finds a counterpart among the owners of [kh]. *)
Definition linked_in (kg kh : option string) (d : string) : bool :=
  bool_decide (acl d = kg) && existsb (fun e => bool_decide (acl e = kh) && linked d e) o.

Lemma linked_in_true kg kh d :
  linked_in kg kh d = true <-> acl d = kg /\ exists e, e ∈ o /\ acl e = kh /\ e <> d /\ F kg e = true /\ F kh d = true.
Proof.
  unfold linked_in, linked. rewrite andb_true_iff, bool_decide_eq_true, existsb_exists. split.
  - intros [<- (e & He & H)]. apply list_elem_of_In in He. split; [done |]. exists e.
    rewrite !andb_true_iff, negb_true_iff, String.eqb_neq, bool_decide_eq_true in H. naive_solver.
  - intros [<- (e & He & <- & Hne & H1 & H2)]. split; [done |]. exists e. rewrite <- list_elem_of_In. split; [done |].
    rewrite bool_decide_true, H1, H2 by done. by apply String.eqb_neq in Hne as ->.
Qed.

Lemma pair_access_den kg kh og mh pg ph :
  denotes o og (fun d => bool_decide (acl d = kg)) -> denotes o mh (fun d => bool_decide (acl d = kh)) ->
  denotes o pg (F kg) -> denotes o ph (F kh) ->
  denotes o (pair_access og pg mh ph) (linked_in kg kh).
Proof.
  intros Hog Hmh Hpg Hph. unfold pair_access. pose proof (den_and _ _ _ _ _ Hpg Hmh) as Hc.
  pose proof (den_and _ _ _ _ _ Hog Hph) as Ha. set (cand := Z.land pg mh) in *.
  destruct (cand =? 0) eqn:E0.
  { pose proof (proj1 (den_null _ _ _ Hc) E0) as Hno. eapply den_ext; [| apply den_zero]. intros d Hd. symmetry.
    apply not_true_is_false. rewrite linked_in_true. intros (_ & e & He & Hk & _ & HF & _).
    specialize (Hno e He). cbn in Hno. by rewrite HF, bool_decide_true in Hno. }
  pose proof (den_single o cand _ Hnd Hc E0) as Hone.
  destruct (Z.land cand (cand - 1) =? 0) eqn:E1.
  - destruct (proj1 Hone eq_refl) as (e & He & Hsole). eapply den_ext; [| exact (den_diff _ _ _ _ _ Ha Hc)].
    intros d Hd. cbn. apply eq_true_iff_eq. rewrite linked_in_true, !andb_true_iff, negb_true_iff, bool_decide_eq_true.
    specialize (Hsole d Hd) as Hself. pose proof (proj2 (Hsole e He) eq_refl) as Hcand. cbn in Hself, Hcand. bool_norm.
    split.
    + intros [[<- HFd] Hnot]. split; [done |]. exists e. split_and!; try done. intros ->.
      rewrite (proj2 Hself eq_refl) in Hnot. done.
    + intros (<- & e' & He' & Hk' & Hne & HF' & HFd). split_and!; try done. apply not_true_is_false. intros Hd'.
      apply Hself in Hd' as ->. apply Hne. apply Hsole; [done |]. cbn. by rewrite HF', bool_decide_true.
  - eapply den_ext; [| exact Ha]. intros d Hd. cbn. apply eq_true_iff_eq.
    rewrite linked_in_true, andb_true_iff, bool_decide_eq_true. split; [| naive_solver].
    intros [<- HFd]. split; [done |].
    destruct (existsb (fun e => negb (String.eqb e d) && (F (acl d) e && bool_decide (acl e = kh))) o) eqn:Ex.
    { apply existsb_exists in Ex as (e & He & Hx). apply list_elem_of_In in He. exists e.
      rewrite !andb_true_iff, negb_true_iff, String.eqb_neq, bool_decide_eq_true in Hx. naive_solver. }
    exfalso. enough (false = true) by done. apply Hone. exists d. split; [done |]. intros e He.
    (* the candidates are not empty, and none but [d] is one *)
    assert (Honly : forall e, e ∈ o -> F (acl d) e && bool_decide (acl e = kh) = true -> e = d).
    { intros e' He' Hx'. destruct (String.eqb_spec e' d) as [| Hne]; [done |]. exfalso.
      apply not_true_iff_false in Ex. apply Ex, existsb_exists. exists e'. rewrite <- list_elem_of_In. split; [done |].
      apply String.eqb_neq in Hne. by rewrite Hne, Hx'. }
    split; [by apply Honly |]. intros ->. cbn. apply not_false_iff_true. intros Hf.
    apply not_true_iff_false in E0. apply E0, (den_null _ _ _ Hc). intros e He'. apply not_true_is_false. intros Hx.
    apply Honly in Hx as Heq; [| done]. subst e. cbn in Hx. congruence.
Qed.

Lemma foldl_den {A} (step : Z -> A -> Z) (Q : A -> string -> bool) (l : list A) acc P :
  (forall x acc P, x ∈ l -> denotes o acc P -> denotes o (step acc x) (fun d => P d || Q x d)) -> denotes o acc P ->
  denotes o (foldl step acc l) (fun d => P d || existsb (fun x => Q x d) l).
Proof.
  revert acc P. induction l as [| x l IH]; intros acc P Hl Hacc; cbn [foldl].
  - eapply den_ext; [| exact Hacc]. intros d _. by rewrite orb_false_r.
  - eapply den_ext; [| apply (IH _ (fun d => P d || Q x d)); [intros; apply Hl; [by right | done] |]].
    + intros d _. cbn. by rewrite orb_assoc.
    + apply Hl; [by left | done].
Qed.

Lemma foldl_lor {A} (f : A -> Z) (Q : A -> string -> bool) (l : list A) acc P :
  (forall x, x ∈ l -> denotes o (f x) (Q x)) -> denotes o acc P ->
  denotes o (foldl (fun acc x => Z.lor acc (f x)) acc l) (fun d => P d || existsb (fun x => Q x d) l).
Proof.
  intros Hl. apply (foldl_den (fun acc x => Z.lor acc (f x))). intros x acc' P' Hx Hacc.
  apply den_or; [done | by apply Hl].
Qed.

Lemma member_group g : g ∈ members -> denotes o (snd g) (fun d => bool_decide (acl d = fst g)) /\ fst g ∈ map fst members.
Proof.
  destruct g as [k m]. intros Hg. split; [| apply list_elem_of_fmap; by exists (k, m)].
  pose proof (Hmem k) as H. by rewrite (oget_elem _ _ _ Hnodup Hg) in H.
Qed.

Lemma peer_access_den : denotes o (peer_access_mask members permitted) (fun d => existsb (linked d) o).
Proof.
  apply (den_ext o _ (fun d => false || existsb (fun g => existsb (fun h => linked_in (fst g) (fst h) d) members) members)).
  - intros d Hd. cbn [orb]. apply eq_true_iff_eq. rewrite !existsb_exists. split.
    + intros (g & Hg & (h & Hh & Hl)%existsb_exists). apply linked_in_true in Hl as (Ha & e & He & Hb & Hne & H1 & H2).
      exists e. rewrite <- list_elem_of_In. split; [done |]. unfold linked. apply String.eqb_neq in Hne.
      by rewrite Hne, Ha, Hb, H1, H2.
    + intros (e & He%list_elem_of_In & Hl).
      assert (Hgrp : forall x, x ∈ o -> exists m, (acl x, m) ∈ members).
      { intros x Hx. assert (acl x ∈ map fst members) as ((k & m) & Hk & Hin)%list_elem_of_fmap by (apply Hkeys; eauto).
        cbn in Hk. subst k. eauto. }
      destruct (Hgrp d Hd) as [mg Hg]. destruct (Hgrp e He) as [mh Hh]. exists (acl d, mg).
      rewrite <- list_elem_of_In. split; [done |]. apply existsb_exists. exists (acl e, mh).
      rewrite <- list_elem_of_In. split; [done |]. apply linked_in_true. unfold linked in Hl.
      rewrite !andb_true_iff, negb_true_iff, String.eqb_neq in Hl. naive_solver.
  - unfold peer_access_mask. apply foldl_den; [| apply den_zero]. intros g acc P Hg Hacc.
    apply foldl_lor; [| done]. intros h Hh. destruct (member_group g Hg) as [Hg1 Hg2], (member_group h Hh) as [Hh1 Hh2].
    apply pair_access_den; auto.
Qed.
End peers.

(** ** The rules of an ACL *)

Definition device (d : string) : principal := Principal "device" d.

(** The address the preview evaluates at. *)
Definition NOWHERE : string := "0.0.0.0".

(** What the preview needs of a match: its network parses. *)
Definition net_ok (m : amatch) : Prop := match m with MCidr v => is_Some (parse_network v) | _ => True end.

Section rules.
Context (o : list string) (Hnd : NoDup o) (role : string -> option string) (role_masks : list (string * Z)).
Context (Hroles : forall r, denotes o (dget_or role_masks r 0) (fun d => bool_decide (role d = Some r))).
Let all_mask : Z := Z.shiftl 1 (zlen o) - 1.

Lemma mask_get_str masks s : mask_get masks (VStr s) = Ok (dget_or masks s 0).
Proof. done. Qed.

Lemma rule_mask_den m am :
  match_of m = Some am -> net_ok am ->
  exists mask, _device_rule_mask (VDict m) all_mask (bits_of o) role_masks = Ok mask /\
    denotes o mask (fun d => amatches am (device d) (role d) NOWHERE).
Proof.
  intros (t & Ht & Hr)%match_of_spec Hnet. unfold _device_rule_mask. rewrite (item_dget _ _ _ Ht). cbn [mbind res_bind].
  pose proof (den_all o) as Hall. pose proof (den_zero o) as Hzero.
  destruct am as [| s | s | s | s | s]; [subst t; eauto | destruct Hr as [-> Hv]; rewrite ?(item_dget _ _ _ Hv) ..];
    cbn [py_eq String.eqb Ascii.eqb Bool.eqb andb mbind res_bind]; rewrite ?mask_get_str.
  - eexists. split; [done |]. exact (bits_get o s Hnd).
  - eauto.
  - eexists. split; [done |]. cbn [amatches]. rewrite (String.eqb_sym s).
    unfold NOWHERE. destruct (String.eqb _ s); [exact Hall | exact Hzero].
  - destruct Hnet as [n Hn]. unfold IPv4Network. rewrite Hn. cbn [mbind res_bind]. eexists. split; [done |].
    assert (Hz : cidr_matches NOWHERE (VStr s) = net_contains n 0).
    { unfold cidr_matches. replace (parse_ipv4 NOWHERE) with (Some 0) by done. by rewrite Hn. }
    cbn [amatches]. rewrite Hz.
    destruct (net_contains n 0); [exact Hall | exact Hzero].
  - eexists. split; [done |]. exact (Hroles s).
Qed.

(** The loop decides every device by its first matching rule. *)
Lemma mask_loop_den vs rs U P unresolved permitted :
  Forall2 (fun v r => rule_of v = Some r) vs rs -> Forall (fun r => net_ok (r_match r)) rs ->
  denotes o unresolved U -> denotes o permitted P ->
  exists mask, mask_loop vs all_mask (bits_of o) role_masks unresolved permitted = Ok mask /\
    denotes o mask (fun d => P d || (U d && fst (verdict rs (device d) (role d) NOWHERE))).
Proof.
  intros Hvs. revert U P unresolved permitted. induction Hvs as [| v r vs rs Hv _ IH]; intros U P u p Hok Hu Hp; cbn [mask_loop].
  { eexists. split; [done |]. eapply den_ext; [| exact (den_or _ _ _ _ _ Hp Hu)]. intros d _. cbn. by rewrite andb_true_r. }
  apply Forall_cons in Hok as [Hr Hok]. destruct (rule_of_fields v r Hv) as (m & -> & Hm & -> & _).
  destruct (rule_mask_den m _ Hm Hr) as (mask & Hmask & Hden). cbn [mbind res_bind]. rewrite Hmask. cbn [mbind res_bind].
  set (M := fun d => amatches (r_match r) (device d) (role d) NOWHERE) in *.
  pose proof (den_and _ _ _ _ _ Hu Hden) as Hmat. pose proof (den_diff _ _ _ _ _ Hu Hmat) as Hleft.
  assert (Hperm : denotes o (if py_eq (VStr (if r_permit r then "permit" else "deny")) (VStr "permit")
      then Z.lor p (Z.land u mask) else p) (fun d => P d || (r_permit r && (U d && M d)))).
  { destruct (r_permit r); cbn [py_eq String.eqb Ascii.eqb Bool.eqb andb]; [exact (den_or _ _ _ _ _ Hp Hmat) |].
    eapply den_ext; [| exact Hp]. intros d _. by rewrite orb_false_r. }
  assert (Hone : forall d, (P d || (r_permit r && (U d && M d))) || ((U d && negb (U d && M d)) &&
      fst (verdict rs (device d) (role d) NOWHERE)) =
    P d || (U d && fst (verdict (r :: rs) (device d) (role d) NOWHERE))).
  { intros d. cbn [verdict]. fold (M d). by destruct (P d), (U d), (M d), (r_permit r); cbn. }
  destruct (_ =? 0) eqn:E.
  - eexists. split; [done |]. eapply den_ext; [| exact (den_or _ _ _ _ _ Hperm Hleft)]. intros d Hd.
    rewrite <- Hone. pose proof (proj1 (den_null _ _ _ Hleft) E d Hd) as H0. cbn in H0 |- *. by rewrite H0.
  - destruct (IH _ _ _ _ Hok Hleft Hperm) as (out & Hout & Hd). exists out. split; [exact Hout |].
    eapply den_ext; [| exact Hd]. intros d _. apply Hone.
Qed.
End rules.

(** ** ACL names *)

(** The name of the one ACL a device is bound to. *)
Definition acl_of (doc : dict) (d : string) : option string :=
  if is_quarantined doc d then Some RESERVED_QUARANTINE
  else
    match ordinary_assignment doc d with
    | Some v => as_str v
    | None =>
        r ← device_role doc d;
        if role_acl doc r is Some _ then Some ("role:" +:+ r) else None
    end.

Definition rules_named (doc : dict) (k : option string) : list arule :=
  match k with
  | None => []
  | Some n =>
      if String.prefix "role:" n then default [] (role_acl doc (drop_role_prefix n))
      else default [] (acl_named doc n)
  end.

Lemma prefix_colon n : String.prefix "role:" n = true -> ":"%char ∈ bytes_of n.
Proof.
  assert (H : forall p n, String.prefix p n = true -> forall c, c ∈ bytes_of p -> c ∈ bytes_of n).
  { induction p as [| a p IH]; intros [| b m] H c Hc; try done; cbn in *; [inversion Hc |].
    destruct (ascii_dec a b) as [-> |]; [| done]. apply elem_of_cons in Hc as [-> | Hc]; [by left | right; eauto]. }
  intros Hp. apply (H _ _ Hp). cbn. do 4 right. by left.
Qed.

Lemma prefix_role r : String.prefix "role:" ("role:" +:+ r) = true.
Proof. cbn. by destruct r. Qed.

Lemma drop_role r : drop_role_prefix ("role:" +:+ r) = r.
Proof. unfold drop_role_prefix. cbn. apply String.string_of_list_ascii_of_string. Qed.

Lemma virtual_net_ok name origin peers : Forall (fun r => net_ok (r_match r)) (virtual_arules name origin peers).
Proof.
  apply Forall_forall. intros r Hr. unfold virtual_arules in Hr. rewrite !elem_of_app in Hr.
  destruct origin; destruct_or!; try (apply list_elem_of_singleton in Hr as ->; done); try (by inversion Hr);
    apply list_elem_of_fmap in Hr as (p & -> & _); done.
Qed.

Section names.
Context (ttl : Z) (doc acls assignments : dict).
Context (Hwf : wf_val (VDict doc)) (Hok : document_ok ttl doc acls assignments).
Context (c : CompiledRoles) (Hc : compiled_view doc acls c).

Lemma stored_no_prefix n : n ∈ dkeys acls -> String.prefix "role:" n = false.
Proof.
  intros Hn. apply not_true_is_false. intros Hp%prefix_colon.
  apply dhas_spec in Hn. unfold dhas in Hn. destruct (dget acls n) as [acl |] eqn:E; [| done].
  destruct (ok_acls _ _ _ _ Hok _ (dget_elem _ _ _ E)) as [Hre _]. by apply (acl_name_no_colon n).
Qed.

Lemma effective_name d : effective_acl_name doc (device d) (Some c) = Ok (role_val (acl_of doc d)).
Proof.
  unfold effective_acl_name, acl_of. cbn [_compiled_roles mbind res_bind is_device device p_type p_id String.eqb Ascii.eqb Bool.eqb].
  destruct (is_quarantined doc d); [done |].
  destruct (ordinary_assignment doc d) as [v |] eqn:Eo.
  - destruct (ordinary_stored _ _ _ _ Hok _ _ Eo) as (n & -> & Hn).
    destruct (stored_binding _ _ _ _ Hok c Hc n Hn) as (acl & rs & _ & -> & _). done.
  - rewrite (role_view_val _ _ _ (role_view_ok _ _ _ _ Hwf Hok c Hc d)).
    destruct (device_role doc d) as [r |]; [| done]. cbn [role_val in_dict hashable mbind res_bind option_bind].
    pose proof (view_roles _ _ _ Hc r) as Hv. unfold dhas.
    destruct (role_acl doc r); [destruct Hv as (acl & vs & -> & _); done | by rewrite Hv].
Qed.

Lemma bound_named d subject role ipv4 :
  match bound_acl doc (device d) with Some rs => verdict rs subject role ipv4 | None => (true, None) end =
  verdict (rules_named doc (acl_of doc d)) subject role ipv4.
Proof.
  unfold bound_acl, acl_of, rules_named. cbn [is_device device p_type p_id String.eqb Ascii.eqb Bool.eqb].
  destruct (is_quarantined doc d).
  { change (String.prefix "role:" RESERVED_QUARANTINE) with false. cbv iota. by rewrite (quarantine_named _ _ _ _ Hok). }
  destruct (ordinary_assignment doc d) as [v |] eqn:Eo.
  - destruct (ordinary_stored _ _ _ _ Hok _ _ Eo) as (n & -> & Hn). cbn [as_str]. rewrite (stored_no_prefix n Hn).
    by destruct (acl_named doc n).
  - destruct (device_role doc d) as [r |]; [| done]. cbn [mbind option_bind].
    destruct (role_acl doc r) as [rs |] eqn:Er; [| done]. by rewrite prefix_role, drop_role, Er.
Qed.

Lemma stored_rules n :
  n ∈ dkeys acls ->
  exists vs, _effective_acl_rules (Some n) c = Ok vs /\
    Forall2 (fun v r => rule_of v = Some r) vs (rules_named doc (Some n)) /\
    Forall (fun r => net_ok (r_match r)) (rules_named doc (Some n)).
Proof.
  intros Hn. unfold _effective_acl_rules, rules_named. rewrite (stored_no_prefix n Hn).
  apply dhas_spec in Hn. unfold dhas in Hn. pose proof (view_acls _ _ _ Hc n) as Hv. unfold acl_named, dget_or.
  rewrite (ok_acls_get _ _ _ _ Hok). cbn [from_option id]. change (dict_or_empty (VDict acls)) with acls.
  destruct (dget acls n) as [acl |] eqn:E; [| done]. destruct Hv as (rs & vs & Hr & -> & Hf).
  cbn [mbind option_bind]. rewrite Hr. cbn [mbind option_bind from_option id]. exists vs. split_and!; [done | done |].
  destruct (ok_acls _ _ _ _ Hok _ (dget_elem _ _ _ E)) as (_ & rs' & Hr' & _ & Hall & _). cbn [snd] in Hr'.
  assert (rs' = rs) as -> by congruence. apply Forall_forall. intros r Hin%sort_by_elem.
  rewrite Forall_forall in Hall. specialize (Hall r Hin). destruct (r_match r); naive_solver.
Qed.

Lemma named_rules d :
  exists vs, _effective_acl_rules (acl_of doc d) c = Ok vs /\
    Forall2 (fun v r => rule_of v = Some r) vs (rules_named doc (acl_of doc d)) /\
    Forall (fun r => net_ok (r_match r)) (rules_named doc (acl_of doc d)).
Proof.
  unfold acl_of. destruct (is_quarantined doc d).
  { apply stored_rules. destruct (ok_quarantine _ _ _ _ Hok) as (q & Hq & _). by eapply dget_key. }
  destruct (ordinary_assignment doc d) as [v |] eqn:Eo.
  { destruct (ordinary_stored _ _ _ _ Hok _ _ Eo) as (n & -> & Hn). by apply stored_rules. }
  assert (Hnone : exists vs, _effective_acl_rules None c = Ok vs /\
    Forall2 (fun v r => rule_of v = Some r) vs (rules_named doc None) /\
    Forall (fun r => net_ok (r_match r)) (rules_named doc None)) by (exists []; by repeat constructor).
  destruct (device_role doc d) as [r |]; [| exact Hnone]. cbn [mbind option_bind].
  pose proof (view_roles _ _ _ Hc r) as Hv. destruct (role_acl doc r) as [rs |] eqn:Er; [| exact Hnone].
  destruct Hv as (acl & vs & Hacl & Hrules & Hf). unfold _effective_acl_rules, rules_named.
  rewrite prefix_role, drop_role, Hacl, Er. unfold dget_or. rewrite Hrules. exists vs. split_and!; [done | done |].
  cbn [from_option id]. unfold role_acl in Er. destruct (dget (_role_defs doc) r) as [[| | | | | | def] |]; try done.
  destruct (restricted_flag def); [| done]. injection Er as <-. apply virtual_net_ok.
Qed.
End names.

(** ** All devices at once *)

(** Does the ACL named [k] permit the device [e]? *)
Definition named_permits (doc : dict) (k : option string) (e : string) : bool :=
  fst (verdict (rules_named doc k) (device e) (device_role doc e) NOWHERE).

Section sets.
Context (ttl : Z) (doc acls assignments : dict).
Context (Hwf : wf_val (VDict doc)) (Hok : document_ok ttl doc acls assignments).
Context (c : CompiledRoles) (Hc : compiled_view doc acls c).

Lemma named_permits_spec d e : fst (spec_verdict doc (device d) (device e) NOWHERE) = named_permits doc (acl_of doc d) e.
Proof.
  unfold spec_verdict, named_permits. rewrite <- (bound_named _ _ _ _ Hok d). by destruct (bound_acl doc (device d)).
Qed.

Lemma group_step_ok st db : group_step doc c st db = Ok (group_one (device_role doc) (acl_of doc) st db).
Proof.
  destruct st as [rm ma], db as [d b]. unfold group_step, group_one. cbn [fst snd].
  rewrite (role_view_val _ _ _ (role_view_ok _ _ _ _ Hwf Hok c Hc d)). fold (device d).
  rewrite (effective_name _ _ _ _ Hwf Hok c Hc d).
  by destruct (device_role doc d), (acl_of doc d).
Qed.

Lemma group_fold st l :
  res_fold (group_step doc c) st l = Ok (foldl (group_one (device_role doc) (acl_of doc)) st l).
Proof.
  revert st. induction l as [| db l IH]; intros st; [done |]. cbn [res_fold foldl].
  rewrite group_step_ok. cbn [mbind res_bind]. apply IH.
Qed.

Lemma permitted_masks o (groups : list (option string * Z)) role_masks :
  NoDup o -> (forall r, denotes o (dget_or role_masks r 0) (fun d => bool_decide (device_role doc d = Some r))) ->
  (forall k, k ∈ map fst groups -> exists d, acl_of doc d = k) ->
  exists permitted, res_map (fun g =>
      let* mask := _permitted_subject_mask (fst g) c (Z.shiftl 1 (zlen o) - 1) (bits_of o) role_masks in
      Ok (fst g, mask)) groups = Ok permitted /\
    forall k, k ∈ map fst groups -> denotes o (default 0 (oget permitted k)) (named_permits doc k).
Proof.
  intros Hnd Hroles. induction groups as [| [k m] groups IH]; intros Hk; [exists []; split; [done | intros k H; inversion H] |].
  destruct IH as (permitted & Hp & Hden); [intros k' Hk'; apply Hk; by right |].
  destruct (Hk k) as [d Hd]; [by left |]. destruct (named_rules _ _ _ _ Hok c Hc d) as (vs & Hvs & Hf & Hall).
  rewrite Hd in Hvs, Hf, Hall.
  destruct (mask_loop_den o Hnd _ role_masks Hroles vs _ _ _ _ _ Hf Hall (den_all o) (den_zero o)) as (mask & Hmask & Hdm).
  assert (Hone : _permitted_subject_mask k c (Z.shiftl 1 (zlen o) - 1) (bits_of o) role_masks = Ok mask)
    by (unfold _permitted_subject_mask; by rewrite Hvs).
  exists ((k, mask) :: permitted). cbn [res_map fst]. rewrite Hone. cbn [mbind res_bind]. rewrite Hp. split; [done |]. intros k'. cbn [map fst oget].
  destruct (decide (k = k')) as [<- | Hne].
  - intros _. rewrite bool_decide_true by done. eapply den_ext; [| exact Hdm]. done.
  - rewrite bool_decide_false by done. intros [-> | Hin]%elem_of_cons; [done | by apply Hden].
Qed.

(** A device with the origin or a mutual counterpart among [devices]. *)
Definition reachable (devices : list string) (origin_access : list (string * bool)) (d : string) : bool :=
  bool_decide ((d, true) ∈ origin_access) ||
  existsb (linked (acl_of doc) (named_permits doc) d) devices.

Lemma origin_mask_den o (origin_access : list (string * bool)) :
  NoDup o ->
  denotes o (foldl (fun acc dp => if snd dp : bool then Z.lor acc (dget_or (bits_of o) (fst dp) 0) else acc) 0 origin_access)
    (fun d => bool_decide ((d, true) ∈ origin_access)).
Proof.
  intros Hnd. eapply den_ext; [| apply (foldl_den o _ (fun dp d => snd dp && String.eqb d (fst dp))); [| apply den_zero]].
  - intros d _. cbn [orb]. apply eq_true_iff_eq. rewrite existsb_exists, bool_decide_eq_true. split.
    + intros ([d' b] & Hin & H). cbn in H. apply andb_true_iff in H as [-> ->%String.eqb_eq]. by apply list_elem_of_In.
    + intros Hin. exists (d, true). rewrite <- list_elem_of_In. cbn. by rewrite String.eqb_refl.
  - intros [d' []] acc P _ Hacc; cbn [snd fst andb].
    + apply den_or; [done | by apply bits_get].
    + eapply den_ext; [| exact Hacc]. intros d _. by rewrite orb_false_r.
Qed.

Lemma permitted_sets_spec devices origin_access :
  NoDup devices ->
  _permitted_sets doc devices origin_access c =
  Ok (map (fun d => (d, reachable devices origin_access d)) (sort_by str_leb devices)).
Proof.
  intros Hdev. unfold _permitted_sets. set (o := sort_by str_leb devices).
  assert (Hnd : NoDup o) by (unfold o; by rewrite sort_by_perm).
  rewrite group_fold. cbn [mbind res_bind].
  pose proof (grouped_all o Hnd (device_role doc) (acl_of doc)) as [Hr Hm Hn Hk].
  destruct (foldl _ _ (bits_of o)) as [role_masks members]. cbn [fst snd] in *.
  destruct (permitted_masks o members role_masks) as (permitted & Hp & Hden); [done | | |].
  { intros r. eapply den_ext; [| exact (Hr r)]. intros d Hd. unfold keyed. by rewrite bool_decide_true. }
  { intros k (d & _ & Hd)%Hk. eauto. }
  rewrite Hp. cbn [mbind res_bind]. f_equal.
  transitivity (map (fun d => (d, reachable devices origin_access d)) (map fst (bits_of o))); [| by rewrite bits_keys].
  rewrite map_map. apply map_ext_in.
  intros [d b] Hin%list_elem_of_In. cbn [fst snd]. f_equal. eapply bit_test; [exact Hnd | | exact Hin].
  eapply den_ext; [| apply den_or; [exact (origin_mask_den o origin_access Hnd) |]].
  2:{ apply (peer_access_den o Hnd (acl_of doc) (named_permits doc) members permitted Hn Hk); [| exact Hden].
      intros k. eapply den_ext; [| exact (Hm k)]. intros x Hx. unfold keyed. rewrite bool_decide_true by done.
      cbn [andb]. apply bool_decide_ext. naive_solver. }
  intros x _. unfold reachable. cbn beta. f_equal. apply eq_true_iff_eq. rewrite !existsb_exists.
  assert (Hel : forall e, In e o <-> In e devices) by (intros e; rewrite <- !list_elem_of_In; apply sort_by_elem).
  by setoid_rewrite Hel.
Qed.
End sets.

(** ** The preview against the evaluator *)

(** Discovery between two principals at the address of the preview. *)
Definition permits (doc : dict) (a b : principal) : bool :=
  match mutual_permit doc a NOWHERE b NOWHERE None with Ok answer => answer | Err _ => false end.

Definition seeder : principal := Principal "service" "seeder".

(** Is there anybody the device may fetch from: the origin, or another device? *)
Definition has_source (doc : dict) (devices : list string) (d : string) : bool :=
  permits doc (device d) seeder ||
  existsb (fun e => negb (String.eqb e d) && permits doc (device d) (device e)) devices.

(** The devices that lose a property between two documents. *)
Definition losers (P : dict -> string -> bool) (prior candidate : dict) (devices : list string) : list string :=
  filter (fun d => P prior d && negb (P candidate d) = true) devices.

Lemma dget_or_map {B} (f : string -> B) (l : list string) d dft : d ∈ l -> dget_or (map (fun d => (d, f d)) l) d dft = f d.
Proof.
  unfold dget_or. induction l as [| x l IH]; [intros H; inversion H |]. cbn.
  destruct (String.eqb_spec x d) as [-> | Hne]; [done |]. intros [-> | Hin]%elem_of_cons; [done | by apply IH].
Qed.

Section one_document.
Context (ttl : Z) (doc : dict) (Hacc : accepted ttl doc).
Context (Hopen : truth (dget_or doc "_fail_closed" VNone) = false).

Lemma permits_spec a b :
  permits doc a b = fst (spec_verdict doc a b NOWHERE) && fst (spec_verdict doc b a NOWHERE).
Proof. unfold permits. rewrite (mutual_permit_spec ttl) by done. unfold spec_mutual. by rewrite Hopen. Qed.

Lemma document_sources devices :
  NoDup devices ->
  exists c, compile_roles doc = Ok c /\
    origin_map doc devices c = Ok (map (fun d => (d, permits doc (device d) seeder)) devices) /\
    _permitted_sets doc devices (map (fun d => (d, permits doc (device d) seeder)) devices) c =
      Ok (map (fun d => (d, has_source doc devices d)) (sort_by str_leb devices)).
Proof.
  intros Hnd. destruct (accepted_ok _ _ Hacc) as (acls & assignments & Hok). pose proof (proj1 Hacc) as Hwf.
  destruct (compile_roles_view ttl doc acls assignments Hwf Hok) as (c & Hc & Hview).
  exists c. split_and!; [done | |].
  - unfold origin_map. assert (Hone : forall d, _origin_access doc d c = Ok (permits doc (device d) seeder)).
    { intros d. rewrite permits_spec. unfold _origin_access, mutual_permit. rewrite Hopen.
      fold (device d) seeder NOWHERE. rewrite !(evaluate_for_spec ttl doc acls assignments Hwf Hok c Hview).
      cbn [mbind res_bind verdict_val fst].
      by destruct (fst (spec_verdict doc (device d) seeder NOWHERE)), (fst (spec_verdict doc seeder (device d) NOWHERE)). }
    clear -Hone. induction devices as [| d devices IH]; [done |]. cbn [res_map]. rewrite Hone. cbn [mbind res_bind].
    by rewrite IH.
  - rewrite (permitted_sets_spec ttl doc acls assignments Hwf Hok c Hview) by done. f_equal. apply map_ext_in.
    intros d Hd%list_elem_of_In%sort_by_elem. f_equal. unfold reachable, has_source. f_equal.
    + apply eq_true_iff_eq. rewrite bool_decide_eq_true. split.
      * intros (d' & [= -> ->] & _)%list_elem_of_fmap. done.
      * intros Hp. apply list_elem_of_fmap. exists d. by rewrite Hp.
    + induction devices as [| e l IH] in |- *; [done |]. cbn. f_equal.
      * unfold linked. rewrite permits_spec, !(named_permits_spec ttl doc acls assignments Hok). by rewrite andb_assoc.
      * exact IH.
Qed.
End one_document.

Lemma count_lost_losers P Q R prior candidate devices :
  (forall d, d ∈ devices -> dget_or Q d false = P prior d) ->
  (forall d, d ∈ devices -> dget_or R d false = P candidate d) ->
  count_lost devices Q R = zlen (losers P prior candidate devices).
Proof.
  unfold count_lost, losers. intros HQ HR. f_equal. induction devices as [| d l IH]; [done |].
  rewrite !filter_cons, HQ, HR by by left. rewrite IH by (intros; (apply HQ || apply HR); by right). done.
Qed.

Lemma hex_ascii s : ascii_text (sha256_hexdigest s) = true.
Proof.
  unfold ascii_text, sha256_hexdigest. rewrite bytes_of_string_of. apply forallb_forall. intros c Hc%list_elem_of_In.
  destruct (digest_hex_ok (sha256_words (map byte_val (bytes_of s)))) as [_ Hall]. rewrite Forall_forall in Hall.
  specialize (Hall c Hc). unfold is_digit, in_range_c in Hall. apply orb_true_iff in Hall. bool_norm. lia.
Qed.

(** A preview that asks for confirmation carries its token. *)
Lemma blast_token ttl float_repr prior candidate threshold r :
  blast_radius ttl float_repr prior candidate threshold = Ok r -> requires_confirmation r = true ->
  exists text, confirm_token r = Some (sha256_hexdigest text).
Proof.
  destruct threshold as [| | z | | | |]; [discriminate 1 | discriminate 1 | | discriminate 1 ..].
  cbn [blast_radius]. destruct (z <? 0); [discriminate 1 |]. cbn [mbind res_bind].
  intros H. repeat (let E := fresh "E" in head H as E). injection H as <-.
  cbn [requires_confirmation confirm_token]. intros Hreq. rewrite Hreq. unfold token_of. eexists. reflexivity.
Qed.

Lemma confirm_spec ttl float_repr prior candidate threshold r token :
  blast_radius ttl float_repr prior candidate threshold = Ok r ->
  confirm_blast_radius ttl float_repr prior candidate threshold (VStr token) = Ok true <->
  requires_confirmation r = false \/ confirm_token r = Some token.
Proof.
  intros H. pose proof (blast_token _ _ _ _ _ _ H) as Htok. unfold confirm_blast_radius. rewrite H. cbn [mbind res_bind].
  destruct (requires_confirmation r); cbn [negb]; [| naive_solver]. destruct Htok as [text ->]; [done |].
  pose proof (hex_ascii text) as Hhex. generalize dependent (sha256_hexdigest text). intros t Hhex.
  destruct (ascii_text token) eqn:Ea; cbn [negb].
  - case_bool_decide as Ht; split; [by right | done | done | intros [|]; done].
  - split; [done |]. intros [| [= <-]]; congruence.
Qed.

(** C32: the preview of a policy change is exact.  For accepted documents without the
    fail-closed marker, which no stored document has, it never raises; the devices it counts as losing the origin are those [mutual_permit] let
    reach the seeder before and not after, and the devices it counts as cut off are
    those that had the origin or another device to fetch from and are left with
    neither, although it decides all devices at once on bit masks.  Confirmation is
    asked for exactly when some count is above the threshold (any QoS change, at
    threshold zero), and then only the token of this very preview confirms. *)
Theorem blast_radius_exact ttl float_repr prior candidate threshold :
  accepted ttl prior -> accepted ttl candidate -> 0 <= threshold ->
  truth (dget_or prior "_fail_closed" VNone) = false -> truth (dget_or candidate "_fail_closed" VNone) = false ->
  let devices := blast_devices prior candidate in
  exists r, blast_radius ttl float_repr (VDict prior) (VDict candidate) (VInt threshold) = Ok r /\
    origin_access_lost r = zlen (losers (fun doc d => permits doc (device d) seeder) prior candidate devices) /\
    empty_permitted_sets r = zlen (losers (fun doc => has_source doc devices) prior candidate devices) /\
    (requires_confirmation r = true <->
       threshold < member_delta r \/ threshold < origin_access_lost r \/ threshold < empty_permitted_sets r \/
       threshold < role_pairs_stopped r \/ (threshold = 0 /\ qos_changed r = true)) /\
    forall token, confirm_blast_radius ttl float_repr (VDict prior) (VDict candidate) (VInt threshold) (VStr token) = Ok true <->
      requires_confirmation r = false \/ confirm_token r = Some token.
Proof.
  intros Hp Hc Hth Hfp Hfc devices. assert (Hnd : NoDup devices) by apply NoDup_remove_dups.
  destruct (document_sources ttl prior Hp Hfp devices Hnd) as (pc & Hpc & Hpo & Hps).
  destruct (document_sources ttl candidate Hc Hfc devices Hnd) as (cc & Hcc & Hco & Hcs).
  eexists. split; [| split_and!; [| | | intros token; apply confirm_spec]].
  1, 5: unfold blast_radius; replace (threshold <? 0) with false by lia; cbn [mbind res_bind];
    rewrite (proj2 Hp), (proj2 Hc); cbn [mbind res_bind]; fold devices; rewrite Hpc, Hcc; cbn [mbind res_bind];
    rewrite Hpo, Hco; cbn [mbind res_bind]; rewrite Hps, Hcs; cbn [mbind res_bind]; reflexivity.
  all: cbn [origin_access_lost empty_permitted_sets requires_confirmation member_delta role_pairs_stopped qos_changed].
  - apply count_lost_losers; intros d Hd; by apply (dget_or_map (fun d => permits _ (device d) seeder)).
  - apply count_lost_losers; intros d Hd; by apply (dget_or_map (has_source _ devices)), sort_by_elem.
  - cbn [existsb app]. rewrite !orb_true_iff, !Z.ltb_lt.
    set (q := negb _). destruct q; cbn [Z.b2z]; intuition lia.
Qed.

(** The sample document after the core device and a branch were quarantined. *)
Definition locked_doc : dict :=
  dset sample_doc "quarantined_devices" (VDict [("bad", VBool true); ("c1", VBool true); ("b1", VBool true)]).

Lemma locked_accepted : accepted 900 locked_doc.
Proof. split; [wf_eval | vm_compute; reflexivity]. Qed.

Lemma blast_radius_exact_witness :
  losers (fun doc d => permits doc (device d) seeder) sample_doc locked_doc (blast_devices sample_doc locked_doc) = ["c1"; "b1"] /\
  exists r, blast_radius 900 (fun _ => []) (VDict sample_doc) (VDict locked_doc) (VInt 1) = Ok r /\
    origin_access_lost r = 2 /\ requires_confirmation r = true.
Proof.
  split; [vm_compute; reflexivity |].
  destruct (blast_radius_exact 900 (fun _ => []) sample_doc locked_doc 1 sample_accepted locked_accepted ltac:(lia) eq_refl eq_refl)
    as (r & Hr & Ho & He & Hreq & _).
  assert (H2 : origin_access_lost r = 2) by (rewrite Ho; vm_compute; reflexivity).
  exists r. split; [exact Hr |]. split; [exact H2 |]. apply (proj2 Hreq). right. left. rewrite H2. lia.
Defined.
