(* ===== verification/KeyedState.v ===== *)
(** * [server/keyed_state.py]: rows spread over shard files

    A [{key: row}] store kept in [SHARD_COUNT] JSON files by a checksum of the key,
    with the migration of the single document it replaces.  An operation that finds
    an unreadable file raises the owner's error and writes nothing. *)
From stdpp Require Import gmap.
From S2P Require Import Prelude PyVal JsonDump.

(** ** State and exceptions

    The monad of the durable stores: a computation reads and replaces a state and
    returns or raises; what it wrote before raising stays written. *)

Definition sm (S A : Type) : Type := S -> res A * S.

Definition sret {S A} (a : A) : sm S A := fun s => (Ok a, s).
Definition sbind {S A B} (m : sm S A) (f : A -> sm S B) : sm S B := fun s =>
  match m s with
  | (Ok a, s) => f a s
  | (Err e, s) => (Err e, s)
  end.

(** A computation that does not touch the state. *)
Definition lift {S A} (r : res A) : sm S A := fun s => (r, s).
Definition sget {S} : sm S S := fun s => (Ok s, s).
Definition sput {S} (s : S) : sm S unit := fun _ => (Ok tt, s).

Notation "'let!' x ':=' c 'in' k" := (sbind c (fun x => k))
  (at level 10, x pattern, c at level 100, k at level 200, only parsing) : py_scope.
Notation "'throw' e 'when' b ';;!' k" := (if b then lift (Err e) else k)
  (at level 100, e at level 9, b at level 99, k at level 200, right associativity, only parsing) : py_scope.

(** A loop whose body has effects. *)
Fixpoint siter {S A} (f : A -> sm S unit) (l : list A) : sm S unit :=
  match l with
  | [] => sret tt
  | x :: l => let! _ := f x in siter f l
  end.

Fixpoint sfold {S A B} (f : B -> A -> sm S B) (b : B) (l : list A) : sm S B :=
  match l with
  | [] => sret b
  | x :: l => let! b := f b x in sfold f b l
  end.

(** A computation on one component of a larger state. *)
Definition zoom {S T A} (get : S -> T) (set : T -> S -> S) (m : sm T A) : sm S A := fun s =>
  let '(r, t) := m (get s) in (r, set t s).

Lemma sbind_ok {S A B} (m : sm S A) (f : A -> sm S B) s a s' :
  m s = (Ok a, s') -> sbind m f s = f a s'.
Proof. unfold sbind. by intros ->. Qed.

Lemma sbind_err {S A B} (m : sm S A) (f : A -> sm S B) s e s' :
  m s = (Err e, s') -> sbind m f s = (Err e, s').
Proof. unfold sbind. by intros ->. Qed.

Lemma sbind_inv {S A B} (m : sm S A) (f : A -> sm S B) s b s' :
  sbind m f s = (Ok b, s') -> exists a s1, m s = (Ok a, s1) /\ f a s1 = (Ok b, s').
Proof. unfold sbind. destruct (m s) as [[a | e] s1]; [eauto | discriminate]. Qed.

Lemma lift_inv {S A} (r : res A) (s s' : S) a : lift r s = (Ok a, s') -> r = Ok a /\ s' = s.
Proof. unfold lift. by intros [= -> ->]. Qed.

(** Splits a run that returned into its steps. *)
Ltac sm_step H :=
  lazymatch type of H with
  | sbind (lift ?r) _ _ = (Ok _, _) =>
      let E := fresh "E" in
      destruct r eqn:E; [unfold sbind at 1, lift at 1 in H; cbn beta iota in H | discriminate H]
  | sbind _ _ _ = (Ok _, _) =>
      let a := fresh "a" in let s := fresh "s" in let E := fresh "E" in
      apply sbind_inv in H; destruct H as (a & s & E & H); cbn beta in H
  end.

(** ** Placement *)

Definition SHARD_COUNT : Z := 256.

(** [zlib.crc32]: the reflected CRC-32, one bit at a time. *)
Definition crc_bit (c : Z) : Z :=
  if Z.testbit c 0 then Z.lxor (Z.shiftr c 1) 0xEDB88320 else Z.shiftr c 1.
Definition crc_byte (c : Z) (b : ascii) : Z := Nat.iter 8 crc_bit (Z.lxor c (byte_val b)).
Definition crc32 (data : bytes) : Z := Z.lxor (foldl crc_byte 0xFFFFFFFF data) 0xFFFFFFFF.

Definition bucket_of (key : string) (shards : Z) : Z := crc32 (bytes_of key) mod shards.

(** ** Files *)

(** A file the strict JSON reader refuses, or the value it holds. *)
Inductive sfile :=
  | SText
  | SJson (v : pyval).

(** The whole-fleet document, its retired copy, the shards, and the flag a process
    keeps once it has seen the migration done. *)
Record kstate := KState {
  k_legacy : option sfile;
  k_retired : option sfile;
  k_shards : gmap Z sfile;
  k_migrated : bool }.

Definition set_shards (m : gmap Z sfile) (s : kstate) : kstate :=
  KState (k_legacy s) (k_retired s) m (k_migrated s).
Definition set_migrated (s : kstate) : kstate :=
  KState (k_legacy s) (k_retired s) (k_shards s) true.

(** What a callback decides: [None], [DELETE] or a new row. *)
Inductive upd :=
  | UKeep
  | UDelete
  | UPut (row : pyval).

(** A callback's row of [None] is no row. *)
Definition upd_of (v : pyval) : upd := if is_none v then UKeep else UPut v.

(** [rows.get(key)]: a null row reads as no row. *)
Definition row_get (rows : dict) (key : string) : option pyval :=
  match dget rows key with Some VNone => None | o => o end.

(** What [json.dump(..., allow_nan=False)] can write. *)
Fixpoint finite_val (v : pyval) : bool :=
  match v with
  | VFloat (FFin _ _) => true
  | VFloat _ => false
  | VList l => (fix go l := match l with [] => true | x :: l => finite_val x && go l end) l
  | VDict d => (fix go d := match d with [] => true | (_, x) :: d => finite_val x && go d end) d
  | _ => true
  end.

(** [except ValueError]: the class and its subclasses. *)
Definition is_value_error (e : pyexn) : bool :=
  match e with
  | ValueError _ | PolicyError _ _ | PolicyDegradedError _ | RoleInUse _ _ _ _
  | ScheduleValidationError _ | ScheduleConflict _ | ScheduleNotFound _ | ScheduleRevisionConflict _ _
  | EndpointStoreError _ | HandoutStoreError _ | EnforcementError _
  | StoreCorruptError _ | InstructionKeyError _ | InstructionError _ => true
  | _ => false
  end.

(** The default [legacy_extract]: the document is the map. *)
Definition whole_document (doc : dict) : res pyval := Ok (VDict doc).

Section keyed.
(** The owner's exception, its row check, how a legacy document holds rows, the
    number of shards, and whether the rollback guard can be written. *)
Context (error : string -> pyexn) (validate : string -> pyval -> res unit)
  (legacy_extract : dict -> res pyval) (shards : Z) (guard_ok : bool).

(** ** Shard I/O *)

Definition _read_json (f : option sfile) : res (option dict) :=
  match f with
  | None => Ok None
  | Some SText => Err (error "keyed state unreadable")
  | Some (SJson (VDict d)) => Ok (Some d)
  | Some (SJson _) => Err (error "keyed state is not a JSON object")
  end.

(** The check of one row, [ValueError] reported as the owner's error. *)
Definition check_row (msg : string) (kv : string * pyval) : res unit :=
  match validate (fst kv) (snd kv) with
  | Ok tt => Ok tt
  | Err e => if is_value_error e then Err (error msg) else Err e
  end.

Definition _read_shard (bucket : Z) (s : kstate) : res dict :=
  let* data := _read_json (k_shards s !! bucket) in
  match data with
  | None => Ok []
  | Some rows => res_iter (check_row "keyed state row is corrupt") rows ;;; Ok rows
  end.

(** An empty shard is removed. *)
Definition _write_shard (bucket : Z) (rows : dict) : sm kstate unit := fun s =>
  match rows with
  | [] => (Ok tt, set_shards (delete bucket (k_shards s)) s)
  | _ =>
      if finite_val (VDict rows)
      then (Ok tt, set_shards (<[bucket := SJson (sort_keys (VDict rows))]> (k_shards s)) s)
      else (Err (ValueError "Out of range float values are not JSON compliant"), s)
  end.

(** ** Migration *)

Fixpoint add_row (by_bucket : list (Z * dict)) (b : Z) (key : string) (row : pyval) : list (Z * dict) :=
  match by_bucket with
  | [] => [(b, [(key, row)])]
  | (x, rows) :: rest =>
      if x =? b then (x, dset rows key row) :: rest else (x, rows) :: add_row rest b key row
  end.

(** The rows of the legacy document, by shard. *)
Definition legacy_buckets (s : kstate) : res (list (Z * dict)) :=
  let* doc := _read_json (k_legacy s) in
  let* rows := legacy_extract (default [] doc) in
  match rows with
  | VDict rows =>
      res_iter (check_row "legacy state row is corrupt") rows ;;;
      Ok (foldl (fun m kv => add_row m (bucket_of (fst kv) shards) (fst kv) (snd kv)) [] rows)
  | _ => Err (error "legacy state is not a JSON object")
  end.

(** A row already in a shard wins. *)
Definition merge_bucket (bi : Z * dict) : sm kstate unit := fun s =>
  match _read_shard (fst bi) s with
  | Ok current => _write_shard (fst bi) (dupdate (snd bi) current) s
  | Err e => (Err e, s)
  end.

(** The rename, then the placeholder at the retired path. *)
Definition retire_legacy (s : kstate) : kstate :=
  KState (if guard_ok then Some SText else None) (k_legacy s) (k_shards s) (k_migrated s).

Definition _ensure_migrated : sm kstate unit := fun s =>
  if k_migrated s then (Ok tt, s)
  else
    match k_retired s, k_legacy s with
    | Some _, _ | _, None => (Ok tt, set_migrated s)
    | None, Some _ =>
        match legacy_buckets s with
        | Err e => (Err e, s)
        | Ok by_bucket =>
            (let! _ := siter merge_bucket by_bucket in
             fun s => (Ok tt, set_migrated (retire_legacy s))) s
        end
    end.

(** ** Keyed operations *)

Definition get (key : string) : sm kstate (option pyval) :=
  let! _ := _ensure_migrated in fun s =>
  (let* rows := _read_shard (bucket_of key shards) s in Ok (row_get rows key), s).

(** The effect of a callback's decision on the rows of the shard, and whether the
    shard is to be written. *)
Definition apply_upd (rows : dict) (key : string) (new : upd) : option dict :=
  match new with
  | UKeep => None
  | UDelete => match row_get rows key with None => None | Some _ => Some (dpop rows key) end
  | UPut row => Some (dset rows key row)
  end.

(** The callback may use other stores ([W]). *)
Definition update {W} (key : string) (fn : option pyval -> sm W upd) : sm (kstate * W) upd := fun sw =>
  match _ensure_migrated (fst sw) with
  | (Err e, s) => (Err e, (s, snd sw))
  | (Ok _, s) =>
      match _read_shard (bucket_of key shards) s with
      | Err e => (Err e, (s, snd sw))
      | Ok rows =>
          match fn (row_get rows key) (snd sw) with
          | (Err e, w) => (Err e, (s, w))
          | (Ok new, w) =>
              match apply_upd rows key new with
              | None => (Ok new, (s, w))
              | Some rows =>
                  match _write_shard (bucket_of key shards) rows s with
                  | (Ok _, s) => (Ok new, (s, w))
                  | (Err e, s) => (Err e, (s, w))
                  end
              end
          end
      end
  end.

Definition put (key : string) (value : pyval) : sm kstate unit := fun s =>
  match update key (fun _ => sret (upd_of value)) (s, tt) with
  | (Ok _, (s, _)) => (Ok tt, s)
  | (Err e, (s, _)) => (Err e, s)
  end.

(** [delete] of the class. *)
Definition delete_key (key : string) : sm kstate bool :=
  let! _ := _ensure_migrated in fun s =>
  match _read_shard (bucket_of key shards) s with
  | Err e => (Err e, s)
  | Ok rows =>
      if dhas rows key
      then (let! _ := _write_shard (bucket_of key shards) (dpop rows key) in sret true) s
      else (Ok false, s)
  end.

(** One shard of a batch: the rows, the results so far and the dirty flag. *)
Definition many_step (fn : string -> option pyval -> res upd) (st : dict * list (string * upd) * bool)
    (key : string) : res (dict * list (string * upd) * bool) :=
  let '(rows, results, dirty) := st in
  let* new := fn key (row_get rows key) in
  match new with
  | UKeep => Ok (rows, results, dirty)
  | UDelete => Ok (dpop rows key, dset results key UDelete, dirty || negb (is_none (default VNone (row_get rows key))))
  | UPut row => Ok (dset rows key row, dset results key (UPut row), true)
  end.

(** [by_bucket.setdefault(b, []).append(key)] *)
Fixpoint add_key (by_bucket : list (Z * list string)) (b : Z) (key : string) : list (Z * list string) :=
  match by_bucket with
  | [] => [(b, [key])]
  | (x, ks) :: rest => if x =? b then (x, ks ++ [key]) :: rest else (x, ks) :: add_key rest b key
  end.

Definition group_keys (keys : list string) : list (Z * list string) :=
  foldl (fun m k => add_key m (bucket_of k shards) k) [] keys.

Definition many_bucket (fn : string -> option pyval -> res upd) (results : list (string * upd))
    (bk : Z * list string) : sm kstate (list (string * upd)) := fun s =>
  match (let* rows := _read_shard (fst bk) s in res_fold (many_step fn) (rows, results, false) (snd bk)) with
  | Err e => (Err e, s)
  | Ok (rows, results, dirty) =>
      if dirty : bool then (let! _ := _write_shard (fst bk) rows in sret results) s else (Ok results, s)
  end.

Definition update_many (keys : list string) (fn : string -> option pyval -> res upd)
    : sm kstate (list (string * upd)) :=
  let! _ := _ensure_migrated in sfold (many_bucket fn) [] (group_keys keys).

(** ** Whole-store operations *)

Definition _buckets (s : kstate) : list Z := sort_by Z.leb (map fst (map_to_list (k_shards s))).

Definition snapshot : sm kstate dict :=
  let! _ := _ensure_migrated in fun s =>
  (res_fold (fun out b => let* rows := _read_shard b s in Ok (dupdate out rows)) [] (_buckets s), s).

(** The callback may keep notes ([W]). *)
Definition sweep_step {W} (fn : string -> pyval -> sm W upd) (st : dict * Z) (key : string) : sm W (dict * Z) :=
  let '(rows, changed) := st in
  let! new := fn key (dget_or rows key VNone) in
  sret match new with
  | UKeep => (rows, changed)
  | UDelete => (dpop rows key, changed + 1)
  | UPut row => (dset rows key row, changed + 1)
  end.

Definition sweep_bucket {W} (fn : string -> pyval -> sm W upd) (changed : Z) (b : Z) : sm (kstate * W) Z := fun sw =>
  match _read_shard b (fst sw) with
  | Err e => (Err e, sw)
  | Ok rows =>
      match sfold (sweep_step fn) (rows, changed) (dkeys rows) (snd sw) with
      | (Err e, w) => (Err e, (fst sw, w))
      | (Ok (rows, changed'), w) =>
          if changed' =? changed then (Ok changed', (fst sw, w))
          else
            match _write_shard b rows (fst sw) with
            | (Ok _, s) => (Ok changed', (s, w))
            | (Err e, s) => (Err e, (s, w))
            end
      end
  end.

Definition sweep {W} (fn : string -> pyval -> sm W upd) : sm (kstate * W) Z := fun sw =>
  match _ensure_migrated (fst sw) with
  | (Err e, s) => (Err e, (s, snd sw))
  | (Ok _, s) => sfold (sweep_bucket fn) 0 (_buckets s) (s, snd sw)
  end.

(** The best-effort reader: what does not parse contributes nothing, and a shard row
    replaces the legacy copy. *)
Definition file_rows (f : option sfile) : dict :=
  match f with Some (SJson (VDict d)) => d | _ => [] end.
Definition read_all (s : kstate) : dict :=
  foldl (fun out b => dupdate out (file_rows (k_shards s !! b))) (file_rows (k_legacy s)) (_buckets s).
End keyed.

Example crc32_check : crc32 (bytes_of "123456789") = 0xCBF43926.
Proof. vm_compute. reflexivity. Qed.
