(* ===== verification/KeyedSpec.v ===== *)
(** * The keyed store as a map

    What [KeyedState.v] promises its owners: behind the shard files there is one map
    from keys to rows; every operation acts on that map, whatever the placement. *)
From stdpp Require Import gmap.
From S2P Require Import Prelude PyVal JsonDump KeyedState.

(** ** Canonical values *)

Lemma str_leb_total a b : str_leb a b || str_leb b a = true.
Proof. apply bytes_leb_total. Qed.

Lemma str_leb_trans a b c : str_leb a b = true -> str_leb b c = true -> str_leb a c = true.
Proof. apply bytes_leb_trans. Qed.

Lemma sorted_keys (d : dict) : StronglySorted (fun x y => key_le x y = true) (sort_by key_le d).
Proof.
  apply sort_by_sorted; [intros; apply str_leb_total | intros ???; apply str_leb_trans].
Qed.

Lemma sorted_map_vals (f : pyval -> pyval) (d : dict) :
  StronglySorted (fun x y => key_le x y = true) d ->
  StronglySorted (fun x y => key_le x y = true) (map (fun kv => match kv with (k, x) => (k, f x) end) d).
Proof.
  induction 1 as [| [k v] d Hs IH Hall]; cbn; constructor; [done |].
  apply Forall_map. eapply Forall_impl; [exact Hall |]. by intros [].
Qed.

Lemma map_ext_elem {A B} (f g : A -> B) (l : list A) :
  (forall x, x ∈ l -> f x = g x) -> map f l = map g l.
Proof. intros H. apply map_ext_in. intros x Hx. apply H. by apply list_elem_of_In. Qed.

(** A value read back from a dump is dumped unchanged. *)
Lemma sort_keys_idem v : sort_keys (sort_keys v) = sort_keys v.
Proof.
  induction v as [v Hv | l Hl | d Hd] using pyval_strong_ind; [by destruct v | |]; cbn [sort_keys].
  - f_equal. rewrite map_map. apply map_ext_elem. rewrite Forall_forall in Hl. apply Hl.
  - f_equal. set (e := map _ d).
    assert (He : forall kv, kv ∈ sort_by key_le e -> match kv with (k, x) => (k, sort_keys x) end = kv).
    { intros [k v] Hin. rewrite sort_by_elem in Hin. apply list_elem_of_fmap in Hin as ([k' v'] & [= -> ->] & Hin).
      f_equal. rewrite Forall_forall in Hd. exact (Hd _ Hin). }
    rewrite (map_ext_elem _ id _ He), map_id.
    apply sort_by_id, StronglySorted_Sorted, sorted_keys.
Qed.

Lemma finite_dict d : finite_val (VDict d) = forallb (fun kv => finite_val (snd kv)) d.
Proof. cbn. induction d as [| [k v] d IH]; cbn; [done |]. by rewrite IH. Qed.

Lemma finite_list l : finite_val (VList l) = forallb finite_val l.
Proof. cbn. induction l as [| v l IH]; cbn; [done |]. by rewrite IH. Qed.

Lemma finite_sort_keys v : finite_val v = true -> finite_val (sort_keys v) = true.
Proof.
  induction v as [v Hv | l Hl | d Hd] using pyval_strong_ind; intros H; [by destruct v | |]; cbn [sort_keys].
  - rewrite finite_list in H |- *. rewrite forallb_forall in H |- *. intros x Hx%list_elem_of_In.
    apply list_elem_of_fmap in Hx as (y & -> & Hy). rewrite Forall_forall in Hl. apply Hl; [done |].
    apply H. by apply list_elem_of_In.
  - rewrite finite_dict in H |- *. rewrite forallb_forall in H |- *. intros x Hx%list_elem_of_In.
    rewrite sort_by_elem in Hx. apply list_elem_of_fmap in Hx as ([k y] & -> & Hy). cbn.
    rewrite Forall_forall in Hd. apply (Hd _ Hy). apply (H (k, y)). by apply list_elem_of_In.
Qed.

Lemma dict_or_empty_sorted d : VDict (dict_or_empty (sort_keys (VDict d))) = sort_keys (VDict d).
Proof. done. Qed.

Lemma Forall_dset (P : string * pyval -> Prop) d k v : Forall P d -> P (k, v) -> Forall P (dset d k v).
Proof.
  intros Hd Hv. induction Hd as [| [x w] d Hx Hd IH]; cbn; [by repeat constructor |].
  destruct (String.eqb_spec x k) as [-> | ?]; by constructor.
Qed.

Lemma Forall_dpop (P : string * pyval -> Prop) d k : Forall P d -> Forall P (dpop d k).
Proof. intros Hd. unfold dpop. rewrite Forall_forall in Hd |- *. intros x [_ ?]%list_elem_of_filter. by apply Hd. Qed.

Lemma dget_snoc (d : dict) x v k :
  dget (d ++ [(x, v)]) k = match dget d k with Some w => Some w | None => if String.eqb x k then Some v else None end.
Proof. induction d as [| [y w] d IH]; cbn; [done |]. by destruct (String.eqb y k). Qed.

Lemma dget_append (d e : dict) k : dget (d ++ e) k = match dget d k with Some v => Some v | None => dget e k end.
Proof. induction d as [| [y w] d IH]; cbn; [done |]. by destruct (String.eqb y k). Qed.

Section spec.
Context (error : string -> pyexn) (validate : string -> pyval -> res unit)
  (legacy_extract : dict -> res pyval) (shards : Z) (guard_ok : bool).

#[local] Abbreviation read_shard := (_read_shard error validate).
#[local] Abbreviation ensure := (_ensure_migrated error validate legacy_extract shards guard_ok).

(** ** The map behind the files *)

Definition rows_at (s : kstate) (b : Z) : dict := file_rows (k_shards s !! b).
Definition view (s : kstate) (key : string) : option pyval := dget (rows_at s (bucket_of key shards)) key.

(** A row that can be written and read back. *)
Definition storable (key : string) (row : pyval) : Prop :=
  row <> VNone /\ wf_val row /\ finite_val row = true /\ validate key (sort_keys row) = Ok tt.

(** A row as it is on disk, in the shard of its key. *)
Definition row_ok (b : Z) (kv : string * pyval) : Prop :=
  bucket_of (fst kv) shards = b /\ storable (fst kv) (snd kv) /\ sort_keys (snd kv) = snd kv.

Definition shard_ok (b : Z) (f : sfile) : Prop :=
  exists rows, f = SJson (VDict rows) /\ rows <> [] /\ NoDup (dkeys rows) /\ Forall (row_ok b) rows.

(** No document waits to be migrated. *)
Definition settled (s : kstate) : Prop :=
  k_migrated s = true \/ k_retired s <> None \/ k_legacy s = None.

Definition shards_ok (s : kstate) : Prop := map_Forall shard_ok (k_shards s).
Definition store_ok (s : kstate) : Prop := settled s /\ shards_ok s.

Lemma settled_ensure s : settled s -> ensure s = (Ok tt, set_migrated s).
Proof.
  unfold settled, _ensure_migrated. destruct s as [l r m [|]]; cbn; [done |].
  intros [? | [? | ->]]; [done | |]; by destruct r.
Qed.

Lemma set_migrated_ok s : store_ok s -> store_ok (set_migrated s).
Proof. intros [_ H]. split; [by left | exact H]. Qed.

Lemma view_set_migrated s k : view (set_migrated s) k = view s k.
Proof. done. Qed.

Lemma rows_at_shards s b : shards_ok s -> NoDup (dkeys (rows_at s b)) /\ Forall (row_ok b) (rows_at s b).
Proof.
  intros H. unfold rows_at. destruct (k_shards s !! b) as [f |] eqn:E; [| split; constructor].
  destruct (H _ _ E) as (rows & -> & _ & ? & ?). done.
Qed.

Lemma rows_at_ok s b : store_ok s -> NoDup (dkeys (rows_at s b)) /\ Forall (row_ok b) (rows_at s b).
Proof. intros [_ H]. by apply rows_at_shards. Qed.

Lemma check_row_ok msg b kv : row_ok b kv -> check_row error validate msg kv = Ok tt.
Proof. intros (_ & (_ & _ & _ & Hv) & Hc). unfold check_row. by rewrite Hc in Hv; rewrite Hv. Qed.

Lemma read_shard_any s b : shards_ok s -> read_shard b s = Ok (rows_at s b).
Proof.
  intros H. pose proof (rows_at_shards s b H) as [_ HF]. unfold _read_shard, rows_at in *. destruct (k_shards s !! b) as [f |] eqn:E; [| done].
  destruct (H _ _ E) as (rows & -> & _ & _ & _). cbn in *.
  rewrite (proj2 (res_iter_ok _ rows)); [done |]. eapply Forall_impl; [exact HF |].
  intros kv. apply check_row_ok.
Qed.

Lemma read_shard_rows s b : store_ok s -> read_shard b s = Ok (rows_at s b).
Proof. intros [_ H]. by apply read_shard_any. Qed.

Lemma row_get_view s key : store_ok s -> row_get (rows_at s (bucket_of key shards)) key = view s key.
Proof.
  intros Hok. unfold row_get, view. destruct (dget _ key) as [v |] eqn:E; [| done].
  pose proof (rows_at_ok s (bucket_of key shards) Hok) as [_ HF]. apply dget_elem in E.
  rewrite Forall_forall in HF. destruct (HF _ E) as (_ & (Hn & _) & _). by destruct v.
Qed.

(** Rows ready for a shard: their keys belong there and each is storable. *)
Definition rows_ready (b : Z) (rows : dict) : Prop :=
  NoDup (dkeys rows) /\ Forall (fun kv => bucket_of (fst kv) shards = b /\ storable (fst kv) (snd kv)) rows.

Lemma ok_ready b rows : NoDup (dkeys rows) -> Forall (row_ok b) rows -> rows_ready b rows.
Proof. intros Hn HF. split; [done |]. eapply Forall_impl; [exact HF |]. intros kv (? & ? & _). done. Qed.

Lemma sorted_ready b rows :
  rows_ready b rows -> Forall (row_ok b) (dict_or_empty (sort_keys (VDict rows))).
Proof.
  intros [Hn HF]. cbn [dict_or_empty sort_keys as_dict]. cbn. rewrite sort_by_perm. apply Forall_map.
  eapply Forall_impl; [exact HF |]. intros [k v] (Hb & Hs & Hw & Hfin & Hv). cbn in *.
  split; [done |]. split; [| apply sort_keys_idem]. split; [by destruct v |].
  split; [by apply wf_sort_keys |]. split; [by apply finite_sort_keys |]. cbn. by rewrite sort_keys_idem.
Qed.

Lemma write_shard_any s b rows :
  shards_ok s -> rows_ready b rows ->
  exists m, _write_shard b rows s = (Ok tt, set_shards m s) /\ map_Forall shard_ok m /\
    forall k, view (set_shards m s) k = if bucket_of k shards =? b then sort_keys <$> dget rows k else view s k.
Proof.
  intros Hok Hr. pose proof (sorted_ready b rows Hr) as Hsort. destruct Hr as [Hn HF].
  assert (Hfin : finite_val (VDict rows) = true).
  { rewrite finite_dict. apply forallb_forall. intros kv Hkv%list_elem_of_In. rewrite Forall_forall in HF.
    by destruct (HF _ Hkv) as (_ & _ & _ & ? & _). }
  unfold _write_shard. destruct rows as [| kv rest] eqn:Erows.
  - eexists. split; [done |]. split; [apply map_Forall_delete, Hok |].
    intros k. unfold view, rows_at. cbn [set_shards k_shards].
    destruct (Z.eqb_spec (bucket_of k shards) b) as [-> | Hne]; [by rewrite lookup_delete_eq |].
    by rewrite lookup_delete_ne.
  - rewrite <- Erows in *. rewrite Hfin. eexists. split; [done |]. split.
    + apply map_Forall_insert_2; [| exact Hok].
      exists (dict_or_empty (sort_keys (VDict rows))). split; [done |]. pose proof (dkeys_sort_keys rows) as Hp.
      split; [| split; [by rewrite Hp | done]].
      intros E. rewrite E, Erows in Hp. apply Permutation_nil_l in Hp. discriminate Hp.
    + intros k. unfold view, rows_at. cbn [set_shards k_shards].
      destruct (Z.eqb_spec (bucket_of k shards) b) as [-> | Hne].
      * rewrite lookup_insert_eq. exact (dget_sort_keys rows k Hn).
      * by rewrite lookup_insert_ne.
Qed.

Lemma write_shard_spec s b rows :
  store_ok s -> rows_ready b rows ->
  exists s', _write_shard b rows s = (Ok tt, s') /\ store_ok s' /\
    forall k, view s' k = if bucket_of k shards =? b then sort_keys <$> dget rows k else view s k.
Proof.
  intros [Hset Hok] Hr. destruct (write_shard_any s b rows Hok Hr) as (m & Hw & Hm & Hv).
  exists (set_shards m s). done.
Qed.

Lemma canonical_at s b k v : store_ok s -> dget (rows_at s b) k = Some v -> sort_keys v = v.
Proof.
  intros Hok E%dget_elem. pose proof (rows_at_ok s b Hok) as [_ HF]. rewrite Forall_forall in HF.
  by destruct (HF _ E) as (_ & _ & ?).
Qed.

(** A shard whose rows changed at one key, written back. *)
Lemma rewrite_spec s key rows o :
  store_ok s -> rows_ready (bucket_of key shards) rows ->
  (forall k, dget rows k = if String.eqb key k then o else dget (rows_at s (bucket_of key shards)) k) ->
  exists s', _write_shard (bucket_of key shards) rows s = (Ok tt, s') /\ store_ok s' /\
    forall k, view s' k = if String.eqb key k then sort_keys <$> o else view s k.
Proof.
  intros Hok Hr Hd. destruct (write_shard_spec s _ rows Hok Hr) as (s' & Hw & Hok' & Hv).
  exists s'. split; [done |]. split; [done |]. intros k. rewrite Hv, Hd.
  destruct (String.eqb_spec key k) as [<- | Hne]; [by rewrite Z.eqb_refl |].
  destruct (Z.eqb_spec (bucket_of k shards) (bucket_of key shards)) as [Hb | ?]; [| done].
  unfold view. rewrite Hb. destruct (dget _ k) as [v |] eqn:E; [| done]. cbn.
  by rewrite (canonical_at _ _ _ _ Hok E).
Qed.

(** ** One key *)

Definition apply_view (key : string) (new : upd) (v : string -> option pyval) (k : string) : option pyval :=
  if String.eqb key k then
    match new with UKeep => v k | UDelete => None | UPut row => Some (sort_keys row) end
  else v k.

Definition upd_storable (key : string) (new : upd) : Prop :=
  match new with UPut row => storable key row | _ => True end.

Lemma get_spec s key :
  store_ok s -> get error validate legacy_extract shards guard_ok key s = (Ok (view s key), set_migrated s).
Proof.
  intros Hok. unfold get. rewrite (sbind_ok _ _ _ _ _ (settled_ensure s (proj1 Hok))).
  rewrite read_shard_rows by (by apply set_migrated_ok). cbn [mbind res_bind].
  by rewrite row_get_view by (by apply set_migrated_ok).
Qed.

Lemma rows_ready_dset s b key row :
  store_ok s -> bucket_of key shards = b -> storable key row -> rows_ready b (dset (rows_at s b) key row).
Proof.
  intros Hok Hb Hs. destruct (rows_at_ok s b Hok) as [Hn HF]. split; [by apply NoDup_dset |].
  apply Forall_dset; [| done]. eapply Forall_impl; [exact HF |]. by intros kv (? & ? & _).
Qed.

Lemma rows_ready_dpop s b key : store_ok s -> rows_ready b (dpop (rows_at s b) key).
Proof.
  intros Hok. destruct (rows_at_ok s b Hok) as [Hn HF]. split; [by apply NoDup_dpop |].
  apply Forall_dpop. eapply Forall_impl; [exact HF |]. by intros kv (? & ? & _).
Qed.

Lemma update_spec {W} s (w w' : W) key fn r :
  store_ok s -> fn (view s key) w = (r, w') ->
  (forall new, r = Ok new -> upd_storable key new) ->
  exists s', update error validate legacy_extract shards guard_ok key fn (s, w) = (r, (s', w')) /\ store_ok s' /\
    forall k, view s' k = match r with Ok new => apply_view key new (view s) k | Err _ => view s k end.
Proof.
  intros Hok Hfn Hst. unfold update. cbn [fst snd]. rewrite settled_ensure by apply Hok.
  pose proof (set_migrated_ok s Hok) as Hok1. rewrite read_shard_rows, row_get_view by done.
  change (view (set_migrated s) key) with (view s key). rewrite Hfn.
  destruct r as [new | e]; [| exists (set_migrated s); done].
  specialize (Hst new eq_refl). unfold apply_upd. rewrite row_get_view by done.
  change (view (set_migrated s) key) with (view s key).
  destruct new as [| | row].
  - exists (set_migrated s). split; [done |]. split; [done |]. intros k. unfold apply_view. by destruct (String.eqb key k).
  - destruct (view s key) as [old |] eqn:Eold.
    + destruct (rewrite_spec (set_migrated s) key (dpop (rows_at (set_migrated s) (bucket_of key shards)) key) None Hok1)
        as (s' & Hw & Hok' & Hv); [by apply rows_ready_dpop | intros k; apply dget_dpop |].
      rewrite Hw. exists s'. split; [done |]. split; [done |]. intros k. exact (Hv k).
    + exists (set_migrated s). split; [done |]. split; [done |]. intros k. unfold apply_view.
      destruct (String.eqb_spec key k) as [<- | ?]; [exact Eold | done].
  - destruct (rewrite_spec (set_migrated s) key (dset (rows_at (set_migrated s) (bucket_of key shards)) key row) (Some row) Hok1)
      as (s' & Hw & Hok' & Hv); [by apply rows_ready_dset | intros k; apply dget_dset |].
    rewrite Hw. exists s'. split; [done |]. split; [done |]. intros k. exact (Hv k).
Qed.

(** What [update] writes when the callback decides on a row. *)
Lemma update_put {W} s (w w' : W) key fn row :
  store_ok s -> fn (view s key) w = (Ok (UPut row), w') ->
  update error validate legacy_extract shards guard_ok key fn (s, w) =
    match _write_shard (bucket_of key shards) (dset (rows_at s (bucket_of key shards)) key row) (set_migrated s) with
    | (Ok _, s') => (Ok (UPut row), (s', w'))
    | (Err e, s') => (Err e, (s', w'))
    end.
Proof.
  intros Hok Hfn. unfold update. cbn [fst snd]. rewrite settled_ensure by apply Hok.
  rewrite read_shard_rows, row_get_view by (by apply set_migrated_ok).
  change (view (set_migrated s) key) with (view s key). rewrite Hfn. cbn [apply_upd]. by destruct (_write_shard _ _ _) as [[|] ?].
Qed.

Lemma dset_ne (d : dict) k v : dset d k v <> [].
Proof. intros H. by pose proof (dget_dset_eq d k v) as E; rewrite H in E. Qed.

(** A row that is no JSON text is not written. *)
Lemma update_nonfinite {W} s (w w' : W) key fn row :
  store_ok s -> fn (view s key) w = (Ok (UPut row), w') -> finite_val row = false ->
  update error validate legacy_extract shards guard_ok key fn (s, w) =
    (Err (ValueError "Out of range float values are not JSON compliant"), (set_migrated s, w')).
Proof.
  intros Hok Hfn Hfin. rewrite (update_put _ _ _ _ _ _ Hok Hfn). set (rows := dset _ key row).
  assert (Hrows : finite_val (VDict rows) = false).
  { apply not_true_is_false. rewrite finite_dict, forallb_forall. intros H.
    pose proof (dget_dset_eq (rows_at s (bucket_of key shards)) key row) as E. apply dget_elem, list_elem_of_In, H in E. cbn in E. congruence. }
  unfold _write_shard. destruct rows as [| kv rest] eqn:E; [by destruct (dset_ne (rows_at s (bucket_of key shards)) key row) |]. by rewrite Hrows.
Qed.

(** A row the owner's check refuses is written, and its shard can no longer be read. *)
Lemma update_refused {W} s (w w' : W) key fn row e :
  store_ok s -> fn (view s key) w = (Ok (UPut row), w') -> finite_val row = true -> validate key (sort_keys row) = Err e ->
  exists s', update error validate legacy_extract shards guard_ok key fn (s, w) = (Ok (UPut row), (s', w')) /\
    (forall b, b <> bucket_of key shards -> rows_at s' b = rows_at s b) /\
    forall k, bucket_of k shards = bucket_of key shards -> exists e', get error validate legacy_extract shards guard_ok k s' = (Err e', s').
Proof.
  intros Hok Hfn Hfin Hv. rewrite (update_put _ _ _ _ _ _ Hok Hfn). set (rows := dset _ key row).
  assert (Hrows : finite_val (VDict rows) = true).
  { rewrite finite_dict, forallb_forall. apply List.Forall_forall. unfold rows. apply Forall_dset; [| done].
    eapply Forall_impl; [exact (proj2 (rows_at_ok s _ Hok)) |]. by intros kv (_ & (_ & _ & ? & _) & _). }
  assert (Hn : NoDup (dkeys rows)) by apply NoDup_dset, (rows_at_ok s _ Hok).
  assert (Hw : _write_shard (bucket_of key shards) rows (set_migrated s) =
    (Ok tt, set_shards (<[bucket_of key shards := SJson (sort_keys (VDict rows))]> (k_shards s)) (set_migrated s))).
  { unfold _write_shard. rewrite Hrows. by destruct rows as [| kv rest] eqn:E; [destruct (dset_ne (rows_at s (bucket_of key shards)) key row) |]. }
  rewrite Hw. eexists. split; [done |]. split.
  - intros b Hb. unfold rows_at. cbn [set_shards k_shards set_migrated]. by rewrite lookup_insert_ne.
  - intros k Hk. unfold get. rewrite (sbind_ok _ _ _ _ _ (settled_ensure (set_shards _ (set_migrated s)) (or_introl eq_refl))).
    unfold _read_shard. cbn [set_shards set_migrated k_shards]. rewrite Hk, lookup_insert_eq. cbn [_read_json mbind res_bind sort_keys].
    match goal with |- context [res_iter ?f ?l] => destruct (res_iter f l) as [[] | e'] eqn:E end; [| by exists e'].
    exfalso. rewrite res_iter_ok in E. rewrite Forall_forall in E.
    assert (Hin : (key, sort_keys row) ∈ dict_or_empty (sort_keys (VDict rows))).
    { apply dget_elem. rewrite dget_sort_keys by done. unfold rows. by rewrite dget_dset_eq. }
    specialize (E _ Hin). unfold check_row in E. cbn [fst snd] in E. rewrite Hv in E. by destruct (is_value_error e).
Qed.

Lemma delete_spec s key :
  store_ok s -> exists b s', delete_key error validate legacy_extract shards guard_ok key s = (Ok b, s') /\ store_ok s' /\
    forall k, view s' k = if String.eqb key k then None else view s k.
Proof.
  intros Hok. unfold delete_key. rewrite (sbind_ok _ _ _ _ _ (settled_ensure s (proj1 Hok))).
  pose proof (set_migrated_ok s Hok) as Hok1. rewrite read_shard_rows by done. unfold dhas.
  destruct (dget (rows_at (set_migrated s) (bucket_of key shards)) key) as [v |] eqn:E.
  - destruct (rewrite_spec (set_migrated s) key (dpop (rows_at (set_migrated s) (bucket_of key shards)) key) None Hok1)
      as (s' & Hw & Hok' & Hv); [by apply rows_ready_dpop | intros k; apply dget_dpop |].
    rewrite (sbind_ok _ _ _ _ _ Hw). exists true, s'. split; [done |]. split; [done |]. exact Hv.
  - exists false, (set_migrated s). split; [done |]. split; [done |]. intros k.
    destruct (String.eqb_spec key k) as [<- | ?]; [exact E | done].
Qed.

(** ** The whole store *)

Lemma view_bucket s b k v : store_ok s -> dget (rows_at s b) k = Some v -> bucket_of k shards = b.
Proof.
  intros Hok E%dget_elem. pose proof (rows_at_ok s b Hok) as [_ HF]. rewrite Forall_forall in HF.
  by destruct (HF _ E) as (? & _).
Qed.

Lemma buckets_elem s b : b ∈ _buckets s <-> is_Some (k_shards s !! b).
Proof.
  unfold _buckets. rewrite sort_by_elem, list_elem_of_fmap. split.
  - intros ([x f] & -> & H%elem_of_map_to_list). by eexists.
  - intros [f H]. exists (b, f). split; [done |]. by apply elem_of_map_to_list.
Qed.

Lemma fold_shards s bs out :
  store_ok s -> exists d,
    res_fold (fun out b => let* rows := read_shard b s in Ok (dupdate out rows)) out bs = Ok d /\
    (NoDup (dkeys out) -> NoDup (dkeys d)) /\
    forall k, dget d k = if bool_decide (bucket_of k shards ∈ bs)
      then (match view s k with Some v => Some v | None => dget out k end) else dget out k.
Proof.
  intros Hok. revert out. induction bs as [| b bs IH]; intros out; cbn [res_fold].
  - exists out. done.
  - rewrite read_shard_rows by done. cbn [mbind res_bind].
    destruct (rows_at_ok s b Hok) as [Hn _].
    destruct (IH (dupdate out (rows_at s b))) as (d & -> & Hnd & Hd). exists d. split; [done |]. split.
    { intros H. by apply Hnd, NoDup_dupdate. }
    intros k. rewrite Hd. rewrite dget_dupdate by done.
    pose proof (view_bucket s b k) as Hb. unfold view.
    destruct (decide (bucket_of k shards ∈ bs)) as [Hin | Hin].
    + rewrite !bool_decide_true by set_solver. destruct (dget (rows_at s (bucket_of k shards)) k) eqn:E; [done |].
      destruct (dget (rows_at s b) k) eqn:E'; [| done]. rewrite (Hb _ Hok eq_refl) in E. congruence.
    + rewrite bool_decide_false by done. destruct (decide (bucket_of k shards = b)) as [<- | Hne].
      * rewrite bool_decide_true by set_solver. done.
      * rewrite bool_decide_false by set_solver. destruct (dget (rows_at s b) k) eqn:E; [| done].
        by rewrite (Hb _ Hok eq_refl) in Hne.
Qed.

Lemma view_None s k : bucket_of k shards ∉ _buckets s -> view s k = None.
Proof.
  rewrite buckets_elem. intros H. unfold view, rows_at.
  destruct (k_shards s !! bucket_of k shards) eqn:E; [| done]. by destruct H.
Qed.

Lemma snapshot_spec s :
  store_ok s -> exists d, snapshot error validate legacy_extract shards guard_ok s = (Ok d, set_migrated s) /\
    NoDup (dkeys d) /\ forall k, dget d k = view s k.
Proof.
  intros Hok. unfold snapshot. rewrite (sbind_ok _ _ _ _ _ (settled_ensure s (proj1 Hok))).
  destruct (fold_shards (set_migrated s) (_buckets (set_migrated s)) [] (set_migrated_ok s Hok)) as (d & -> & Hn & Hd).
  exists d. split; [done |]. split; [apply Hn; constructor |]. intros k. rewrite Hd.
  case_bool_decide as Hb; [by destruct (view _ k) | symmetry; exact (view_None (set_migrated s) k Hb)].
Qed.

(** ** Batches *)

(** One callback at one key, on the row and the result so far. *)
Definition key_step (fn : string -> option pyval -> res upd) (k : string) (st : option pyval * option upd)
    : res (option pyval * option upd) :=
  let* new := fn k (fst st) in
  match new with
  | UKeep => Ok st
  | UDelete => Ok (None, Some UDelete)
  | UPut row => Ok (Some row, Some (UPut row))
  end.

(** A batch on a plain map, in the order of the keys: the reference. *)
Definition map_step (fn : string -> option pyval -> res upd)
    (st : (string -> option pyval) * (string -> option upd)) (key : string)
    : res ((string -> option pyval) * (string -> option upd)) :=
  let* o := key_step fn key (fst st key, snd st key) in
  Ok (fun k => if String.eqb key k then fst o else fst st k, fun k => if String.eqb key k then snd o else snd st k).

(** The calls of a batch that concern one key. *)
Definition key_run (fn : string -> option pyval -> res upd) (k : string) :=
  res_fold (fun st x => if String.eqb x k then key_step fn k st else Ok st).

Lemma map_run fn keys v r v' r' k :
  res_fold (map_step fn) (v, r) keys = Ok (v', r') -> key_run fn k (v k, r k) keys = Ok (v' k, r' k).
Proof.
  revert v r. induction keys as [| x keys IH]; intros v r H; cbn [res_fold key_run] in *; [by simplify_eq |].
  destruct (map_step fn (v, r) x) as [[v1 r1] |] eqn:Em; cbn [mbind res_bind] in H; [| done]. unfold map_step in Em. cbn [fst snd] in Em.
  destruct (key_step fn x (v x, r x)) as [o |] eqn:E; cbn [mbind res_bind] in Em; [| done].
  injection Em as <- <-. apply IH in H. unfold key_run in *. cbn [res_fold].
  destruct (String.eqb_spec x k) as [-> | Hne]; [| exact H].
  rewrite E. cbn [mbind res_bind]. by destruct o.
Qed.

Lemma key_run_filter fn k st keys (P : string -> Prop) `{!forall x, Decision (P x)} :
  P k -> key_run fn k st (filter P keys) = key_run fn k st keys.
Proof.
  intros Hk. revert st. induction keys as [| x keys IH]; intros st; [done |]. rewrite filter_cons.
  unfold key_run in *. cbn [res_fold]. destruct (decide (P x)) as [Hx | Hx].
  - cbn [res_fold]. destruct (String.eqb x k); [| cbn [mbind res_bind]; apply IH].
    destruct (key_step fn k st); cbn [mbind res_bind]; [apply IH | done].
  - destruct (String.eqb_spec x k) as [-> | ?]; [done |]. apply IH.
Qed.

Lemma key_run_absent fn k st keys : k ∉ keys -> key_run fn k st keys = Ok st.
Proof.
  unfold key_run. induction keys as [| x keys IH]; intros Hk; [done |]. cbn [res_fold].
  apply not_elem_of_cons in Hk as [Hne Hk]. destruct (String.eqb_spec x k) as [-> | ?]; [done |]. by apply IH.
Qed.

Section batch.
Context (fn : string -> option pyval -> res upd).
Context (fn_storable : forall k old row, fn k old = Ok (UPut row) -> storable k row).

Lemma rows_ready_step b rows key new :
  rows_ready b rows -> bucket_of key shards = b -> upd_storable key new ->
  rows_ready b (match new with UKeep => rows | UDelete => dpop rows key | UPut row => dset rows key row end).
Proof.
  intros [Hn HF] Hb Hs. destruct new as [| | row]; [done | |].
  - split; [by apply NoDup_dpop | by apply Forall_dpop].
  - split; [by apply NoDup_dset | by apply Forall_dset].
Qed.

Lemma ready_row_get b rows k : rows_ready b rows -> row_get rows k = dget rows k.
Proof.
  intros [_ HF]. unfold row_get. destruct (dget rows k) as [v |] eqn:E; [| done]. apply dget_elem in E.
  rewrite Forall_forall in HF. destruct (HF _ E) as (_ & Hn & _). by destruct v.
Qed.

(** The loop over the keys of one shard computes each key's run. *)
Lemma many_fold b ks rows results dirty :
  rows_ready b rows -> Forall (fun k => bucket_of k shards = b) ks ->
  (forall k, is_ok (key_run fn k (dget rows k, dget results k) ks) = true) ->
  exists rows' results' dirty',
    res_fold (many_step fn) (rows, results, dirty) ks = Ok (rows', results', dirty') /\
    rows_ready b rows' /\
    (forall k, key_run fn k (dget rows k, dget results k) ks = Ok (dget rows' k, dget results' k)) /\
    (dirty' = false -> dirty = false /\ forall k, dget rows' k = dget rows k).
Proof.
  revert rows results dirty. induction ks as [| x ks IH]; intros rows results dirty Hr Hks Hrun.
  - exists rows, results, dirty. done.
  - apply Forall_cons in Hks as [Hx Hks]. cbn [res_fold].
    assert (Hms : many_step fn (rows, results, dirty) x = let* new := fn x (dget rows x) in
      match new with
      | UKeep => Ok (rows, results, dirty)
      | UDelete => Ok (dpop rows x, dset results x UDelete, dirty || negb (is_none (default VNone (dget rows x))))
      | UPut row => Ok (dset rows x row, dset results x (UPut row), true)
      end) by (unfold many_step; by rewrite (ready_row_get b)).
    rewrite Hms. clear Hms. pose proof (Hrun x) as Hxr. unfold key_run in Hxr. cbn [res_fold] in Hxr.
    rewrite String.eqb_refl in Hxr. destruct (key_step fn x (dget rows x, dget results x)) as [o |] eqn:Ek; [| done].
    clear Hxr. unfold key_step in Ek. cbn [fst] in Ek.
    destruct (fn x (dget rows x)) as [new |] eqn:Efn; cbn [mbind res_bind] in Ek |- *; [| done].
    assert (Hst : upd_storable x new) by (destruct new; [done | done | by eapply fn_storable]).
    set (rows1 := match new with UKeep => rows | UDelete => dpop rows x | UPut row => dset rows x row end).
    set (results1 := match new with UKeep => results | _ => dset results x new end).
    assert (Hready : rows_ready b rows1) by (by apply rows_ready_step).
    assert (Hkey : forall k, key_run fn k (dget rows1 k, dget results1 k) ks =
      key_run fn k (dget rows k, dget results k) (x :: ks)).
    { intros k. unfold key_run. cbn [res_fold]. unfold rows1, results1.
      destruct (String.eqb_spec x k) as [<- | Hne].
      - change (key_step fn x (dget rows x, dget results x)) with (let* new := fn x (dget rows x) in
          match new with
          | UKeep => Ok (dget rows x, dget results x)
          | UDelete => Ok (None, Some UDelete)
          | UPut row => Ok (Some row, Some (UPut row))
          end). rewrite Efn. cbn [mbind res_bind].
        destruct new as [| | row]; cbn [mbind res_bind]; [done | |];
          rewrite ?dget_dset_eq, ?dget_dpop, ?String.eqb_refl; done.
      - cbn [mbind res_bind]. destruct new as [| | row]; [done | |];
          rewrite ?dget_dset_ne, ?dget_dpop by done; [| done].
        by destruct (String.eqb_spec x k). }
    assert (Hrec : forall dirty1, exists rows' results' dirty',
      res_fold (many_step fn) (rows1, results1, dirty1) ks = Ok (rows', results', dirty') /\
      rows_ready b rows' /\
      (forall k, key_run fn k (dget rows k, dget results k) (x :: ks) = Ok (dget rows' k, dget results' k)) /\
      (dirty' = false -> dirty1 = false /\ forall k, dget rows' k = dget rows1 k)).
    { intros dirty1. destruct (IH rows1 results1 dirty1 Hready Hks) as (rows' & results' & dirty' & H1 & H2 & H3 & H4).
      - intros k. rewrite Hkey. apply Hrun.
      - exists rows', results', dirty'. split; [done |]. split; [done |]. split; [| done].
        intros k. rewrite <- Hkey. apply H3. }
    destruct new as [| | row]; cbn [mbind res_bind].
    + apply Hrec.
    + destruct (Hrec (dirty || negb (is_none (default VNone (dget rows x))))) as (rows' & results' & dirty' & H1 & H2 & H3 & H4).
      exists rows', results', dirty'. split; [done |]. split; [done |]. split; [done |]. intros Hd.
      destruct (H4 Hd) as [Hd1 Hrows]. bool_norm. split; [done |]. intros k. rewrite Hrows. unfold rows1.
      rewrite dget_dpop. destruct (String.eqb_spec x k) as [<- | ?]; [| done].
      destruct (dget rows x) as [v |] eqn:Ev; [| done]. rewrite <- (ready_row_get b) in Ev by done.
      unfold row_get in Ev. destruct (dget rows x) as [[] |]; try done; cbn in *; simplify_eq; discriminate.
    + destruct (Hrec true) as (rows' & results' & dirty' & H1 & H2 & H3 & H4).
      exists rows', results', dirty'. split; [done |]. split; [done |]. split; [done |]. intros Hd.
      by destruct (H4 Hd).
Qed.

(** Groups of keys: one per shard, each holding only keys of that shard. *)
Definition grouped (gs : list (Z * list string)) : Prop :=
  NoDup (map fst gs) /\ Forall (fun g => Forall (fun k => bucket_of k shards = fst g) (snd g)) gs.

#[local] Abbreviation of_bucket b := (filter (fun k => bucket_of k shards = b)).

Lemma grouped_elsewhere gs b : grouped gs -> b ∉ map fst gs -> of_bucket b (concat (map snd gs)) = [].
Proof.
  intros [_ HF] Hb. apply filter_none. apply Forall_concat, Forall_map. rewrite Forall_forall in HF |- *.
  intros g Hg. eapply Forall_impl; [exact (HF g Hg) |]. intros k Hk Hk'. apply Hb. rewrite <- Hk', Hk.
  apply list_elem_of_fmap. by exists g.
Qed.

Lemma add_key_fst m b k x : x ∈ map fst (add_key m b k) <-> x = b \/ x ∈ map fst m.
Proof.
  induction m as [| [y ks] m IH]; cbn; [set_solver |].
  destruct (Z.eqb_spec y b) as [-> | ?]; cbn; rewrite ?elem_of_cons; [tauto |]. rewrite IH. tauto.
Qed.

Lemma add_key_grouped m k : grouped m -> grouped (add_key m (bucket_of k shards) k).
Proof.
  intros [Hn HF]. induction m as [| [y ks] m IH]; cbn.
  - split; cbn; [apply NoDup_singleton | repeat constructor].
  - cbn in Hn. apply NoDup_cons in Hn as [Hy Hn]. apply Forall_cons in HF as [Hks HF].
    destruct (Z.eqb_spec y (bucket_of k shards)) as [-> | Hne]; split; cbn.
    + by apply NoDup_cons.
    + constructor; [| done]. apply Forall_app. split; [done | by repeat constructor].
    + apply NoDup_cons. split; [| by apply IH]. rewrite add_key_fst. by intros [? | ?].
    + constructor; [done | by apply IH].
Qed.

Lemma add_key_of_bucket m k b :
  grouped m -> of_bucket b (concat (map snd (add_key m (bucket_of k shards) k))) =
    of_bucket b (concat (map snd m)) ++ of_bucket b [k].
Proof.
  intros Hg. induction m as [| [y ks] m IH]; cbn [add_key map snd concat]; [by rewrite app_nil_r |].
  destruct Hg as [Hn HF]. cbn in Hn. apply NoDup_cons in Hn as [Hy Hn]. apply Forall_cons in HF as [Hks HF].
  destruct (Z.eqb_spec y (bucket_of k shards)) as [-> | Hne]; cbn [map snd concat]; rewrite !filter_app.
  - destruct (decide (bucket_of k shards = b)) as [<- | Hb].
    + rewrite (grouped_elsewhere m) by done. by rewrite !app_nil_r.
    + rewrite (filter_cons_False _ k) by done. by rewrite !app_nil_r.
  - by rewrite IH, app_assoc.
Qed.

Lemma group_keys_spec keys :
  grouped (group_keys shards keys) /\
  forall b, of_bucket b (concat (map snd (group_keys shards keys))) = of_bucket b keys.
Proof.
  unfold group_keys. induction keys as [| k keys [IH1 IH2]] using rev_ind; [split; [split; constructor | done] |].
  rewrite foldl_app. cbn [foldl]. split; [by apply add_key_grouped |].
  intros b. by rewrite add_key_of_bucket, IH2, filter_app.
Qed.

(** One shard of the batch. *)
Lemma many_bucket_spec s results b ks :
  store_ok s -> Forall (fun k => bucket_of k shards = b) ks ->
  (forall k, is_ok (key_run fn k (view s k, dget results k) ks) = true) ->
  exists results' s', many_bucket error validate fn results (b, ks) s = (Ok results', s') /\ store_ok s' /\
    forall k, exists o, key_run fn k (view s k, dget results k) ks = Ok (o, dget results' k) /\
      view s' k = sort_keys <$> o.
Proof.
  intros Hok Hks Hrun. unfold many_bucket. cbn [fst snd]. rewrite read_shard_rows by done. cbn [mbind res_bind].
  pose proof (rows_at_ok s b Hok) as [Hn HF].
  assert (Hcanon : forall k, sort_keys <$> view s k = view s k).
  { intros k. unfold view. destruct (dget _ k) eqn:E; [| done]. cbn. by rewrite (canonical_at _ _ _ _ Hok E). }
  assert (Habs : forall k st, bucket_of k shards <> b -> key_run fn k st ks = Ok st).
  { intros k st Hk. apply key_run_absent. intros Hin. rewrite Forall_forall in Hks. by apply Hk, Hks. }
  destruct (many_fold b ks (rows_at s b) results false (ok_ready _ _ Hn HF) Hks) as
    (rows' & results' & dirty' & -> & Hr & Hk & Hd).
  { intros k. destruct (decide (bucket_of k shards = b)) as [<- | Hne]; [apply Hrun |]. by rewrite Habs. }
  assert (Hres : forall k, exists o, key_run fn k (view s k, dget results k) ks = Ok (o, dget results' k) /\
    (if bucket_of k shards =? b then o = dget rows' k else o = view s k)).
  { intros k. destruct (Z.eqb_spec (bucket_of k shards) b) as [<- | Hne]; [by eexists |].
    exists (view s k). split; [| done]. specialize (Hk k). rewrite Habs in Hk |- * by done. congruence. }
  destruct dirty'.
  - destruct (write_shard_spec s b rows' Hok Hr) as (s' & Hw & Hok' & Hv).
    rewrite (sbind_ok _ _ _ _ _ Hw). exists results', s'. split; [done |]. split; [done |]. intros k.
    destruct (Hres k) as (o & Ho & Ho'). exists o. split; [done |]. rewrite Hv.
    destruct (bucket_of k shards =? b); subst o; [done | by rewrite Hcanon].
  - destruct (Hd eq_refl) as [_ Hsame]. exists results', s. split; [done |]. split; [done |]. intros k.
    destruct (Hres k) as (o & Ho & Ho'). exists o. split; [done |].
    destruct (Z.eqb_spec (bucket_of k shards) b) as [<- | ?]; subst o; rewrite ?Hsame; symmetry; apply Hcanon.
Qed.

Lemma key_run_app k st ks ls :
  key_run fn k st (ks ++ ls) = let* st := key_run fn k st ks in key_run fn k st ls.
Proof. apply res_fold_app. Qed.

Lemma sfold_many gs s results :
  store_ok s -> grouped gs ->
  (forall k, is_ok (key_run fn k (view s k, dget results k) (concat (map snd gs))) = true) ->
  exists results' s', sfold (many_bucket error validate fn) results gs s = (Ok results', s') /\ store_ok s' /\
    forall k, exists o, key_run fn k (view s k, dget results k) (concat (map snd gs)) = Ok (o, dget results' k) /\
      view s' k = sort_keys <$> o.
Proof.
  revert s results. induction gs as [| [b ks] gs IH]; intros s results Hok Hg Hrun; cbn [sfold map snd concat] in *.
  - exists results, s. split; [done |]. split; [done |]. intros k. exists (view s k). split; [done |].
    unfold view. destruct (dget _ k) eqn:E; [| done]. cbn. by rewrite (canonical_at _ _ _ _ Hok E).
  - pose proof Hg as [Hn HF]. cbn in Hn. apply NoDup_cons in Hn as [Hb Hn]. apply Forall_cons in HF as [Hks HF].
    assert (Hgs : grouped gs) by done.
    destruct (many_bucket_spec s results b ks Hok Hks) as (results1 & s1 & Hm & Hok1 & Hk1).
    { intros k. specialize (Hrun k). rewrite key_run_app in Hrun. by destruct (key_run fn k _ ks). }
    rewrite (sbind_ok _ _ _ _ _ Hm).
    assert (Hsplit : forall k, exists o, key_run fn k (view s k, dget results k) (ks ++ concat (map snd gs)) =
        key_run fn k (o, dget results1 k) (concat (map snd gs)) /\ view s1 k = sort_keys <$> o /\
        (bucket_of k shards = b \/ o = view s1 k)).
    { intros k. destruct (Hk1 k) as (o & Ho & Hv). exists o. rewrite key_run_app, Ho. split; [done |]. split; [done |].
      destruct (decide (bucket_of k shards = b)) as [? | Hne]; [by left | right].
      rewrite key_run_absent in Ho; [| intros Hin; rewrite Forall_forall in Hks; by apply Hne, Hks].
      injection Ho as <- _. rewrite Hv. unfold view. destruct (dget _ k) eqn:E; [| done]. cbn.
      by rewrite (canonical_at _ _ _ _ Hok E). }
    assert (Hrest : forall k st, bucket_of k shards = b -> key_run fn k st (concat (map snd gs)) = Ok st).
    { intros k st Hk. apply key_run_absent. intros Hin. pose proof (grouped_elsewhere gs b Hgs Hb) as He.
      assert (k ∈ of_bucket b (concat (map snd gs))) as Hin' by (by apply list_elem_of_filter).
      rewrite He in Hin'. by apply not_elem_of_nil in Hin'. }
    destruct (IH s1 results1 Hok1 Hgs) as (results' & s' & -> & Hok' & Hk').
    { intros k. destruct (Hsplit k) as (o & He & _ & [Hbk | ->]); [by rewrite Hrest |]. rewrite <- He. apply Hrun. }
    exists results', s'. split; [done |]. split; [done |]. intros k.
    destruct (Hsplit k) as (o & -> & Hv1 & [Hbk | Hov]); destruct (Hk' k) as (o' & Ho' & Hv').
    + rewrite Hrest in Ho' |- * by done. injection Ho' as <- <-. exists o. split; [done |].
      rewrite Hv', Hv1. destruct o; cbn; [by rewrite sort_keys_idem | done].
    + subst o. exists o'. done.
Qed.

Lemma update_many_spec s keys v' r' :
  store_ok s -> res_fold (map_step fn) (view s, fun _ => None) keys = Ok (v', r') ->
  exists results s', update_many error validate legacy_extract shards guard_ok keys fn s = (Ok results, s') /\
    store_ok s' /\ (forall k, view s' k = sort_keys <$> v' k) /\ (forall k, dget results k = r' k).
Proof.
  intros Hok Hseq. unfold update_many. rewrite (sbind_ok _ _ _ _ _ (settled_ensure s (proj1 Hok))).
  destruct (group_keys_spec keys) as [Hg Hb].
  assert (Hrun : forall k, key_run fn k (view s k, dget [] k) (concat (map snd (group_keys shards keys))) = Ok (v' k, r' k)).
  { intros k. rewrite <- (map_run fn keys (view s) (fun _ => None) v' r' k Hseq).
    rewrite <- (key_run_filter fn k _ keys (fun x => bucket_of x shards = bucket_of k shards)) by done.
    rewrite <- Hb. by rewrite key_run_filter. }
  destruct (sfold_many (group_keys shards keys) (set_migrated s) []) as (results & s' & -> & Hok' & Hk).
  - by apply set_migrated_ok.
  - done.
  - intros k. change (view (set_migrated s) k) with (view s k). by rewrite Hrun.
  - exists results, s'. split; [done |]. split; [done |].
    split; intros k; destruct (Hk k) as (o & Ho & Hv); change (view (set_migrated s) k) with (view s k) in Ho;
      rewrite Hrun in Ho; injection Ho as <- Hr; done.
Qed.
End batch.

(** ** Sweeps *)

(** The rows of the store in the order a sweep visits them. *)
Definition all_rows (s : kstate) : dict := concat (map (rows_at s) (_buckets s)).

Definition apply_dec (v : pyval) (new : upd) : option pyval :=
  match new with UKeep => Some v | UDelete => None | UPut row => Some row end.

Section sweep.
Context {W : Type} (fn : string -> pyval -> sm W upd) (decide_row : string -> pyval -> upd) (note : W -> string * pyval -> W).
Hypothesis fn_ok : forall k v w, storable k v -> sort_keys v = v -> fn k v w = (Ok (decide_row k v), note w (k, v)).
Hypothesis decided : forall k v, storable k v -> sort_keys v = v -> upd_storable k (decide_row k v).

Lemma sweep_rows b rows0 c0 todo rows changed w :
  NoDup (dkeys todo) -> Forall (row_ok b) todo -> rows_ready b rows -> (forall kv, kv ∈ todo -> dget rows (fst kv) = Some (snd kv)) ->
  (forall k, k ∉ dkeys todo -> dget rows k = (v ← dget rows0 k; apply_dec v (decide_row k v))) ->
  (forall kv, kv ∈ todo -> dget rows0 (fst kv) = Some (snd kv)) ->
  (changed = c0 -> rows = rows0) -> c0 <= changed ->
  exists rows' changed', sfold (sweep_step fn) (rows, changed) (dkeys todo) w = (Ok (rows', changed'), foldl note w todo) /\
    rows_ready b rows' /\ (forall k, dget rows' k = (v ← dget rows0 k; apply_dec v (decide_row k v))) /\
    (changed' = c0 -> rows' = rows0) /\ changed <= changed'.
Proof.
  revert rows changed w. induction todo as [| [k v] todo IH]; intros rows changed w Hn HF Hr Hin Hout H0 Hc Hpos; cbn [dkeys map sfold fst].
  - exists rows, changed. split_and!; try done. intros k. apply Hout. apply not_elem_of_nil.
  - cbn in Hn. apply NoDup_cons in Hn as [Hk Hn]. apply Forall_cons in HF as [(Hb & Hst & Hcan) HF]. cbn in Hb, Hst, Hcan.
    assert (Hget : dget_or rows k VNone = v) by (unfold dget_or; pose proof (Hin (k, v) ltac:(by left)) as Hkv; cbn in Hkv; by rewrite Hkv).
    assert (H0k : dget rows0 k = Some v) by (apply (H0 (k, v)); by left).
    set (rows1 := match decide_row k v with UKeep => rows | UDelete => dpop rows k | UPut row => dset rows k row end).
    set (changed1 := match decide_row k v with UKeep => changed | _ => changed + 1 end).
    assert (Hstep : sweep_step fn (rows, changed) k w = (Ok (rows1, changed1), note w (k, v))).
    { unfold sweep_step. rewrite Hget. rewrite (sbind_ok _ _ _ _ _ (fn_ok k v w Hst Hcan)). subst rows1 changed1. by destruct (decide_row k v). }
    rewrite (sbind_ok _ _ _ _ _ Hstep).
    assert (Hget1 : forall x, dget rows1 x = if String.eqb k x then apply_dec v (decide_row k v) else dget rows x).
    { intros x. subst rows1. destruct (decide_row k v) eqn:Ed; cbn [apply_dec].
      - destruct (String.eqb_spec k x) as [<- | ?]; [apply (Hin (k, v)); by left | done].
      - apply dget_dpop.
      - apply dget_dset. }
    destruct (IH rows1 changed1 (note w (k, v)) Hn HF) as (rows' & changed' & E1 & E2 & E3 & E4 & E5).
    + subst rows1. apply rows_ready_step; [done | done | by apply decided].
    + intros [x y] Hx. cbn. rewrite Hget1. destruct (String.eqb_spec k x) as [<- | ?]; [| apply (Hin (x, y)); by right].
      destruct Hk. apply list_elem_of_fmap. by exists (k, y).
    + intros x Hx. rewrite Hget1. destruct (String.eqb_spec k x) as [<- | Hne]; [by rewrite H0k |].
      apply Hout. apply not_elem_of_cons. split; [cbn; congruence | done].
    + intros kv Hkv. apply H0. by right.
    + subst changed1 rows1. destruct (decide_row k v); [done | lia | lia].
    + subst changed1. destruct (decide_row k v); lia.
    + exists rows', changed'. split_and!; try done. subst changed1. destruct (decide_row k v); lia.
Qed.

Lemma sweep_bucket_spec s b c0 w :
  store_ok s -> exists s' c', sweep_bucket error validate fn c0 b (s, w) = (Ok c', (s', foldl note w (rows_at s b))) /\ store_ok s' /\
    forall k, view s' k = if bucket_of k shards =? b then (v ← view s k; sort_keys <$> apply_dec v (decide_row k v)) else view s k.
Proof.
  intros Hok. unfold sweep_bucket. cbn [fst snd]. rewrite read_shard_rows by done. destruct (rows_at_ok s b Hok) as [Hn HF].
  assert (Hget : forall kv, kv ∈ rows_at s b -> dget (rows_at s b) (fst kv) = Some (snd kv)) by (intros [k v] Hin; by apply dget_Some).
  destruct (sweep_rows b (rows_at s b) c0 (rows_at s b) (rows_at s b) c0 w) as (rows' & c' & -> & H2 & H3 & H4 & H5); try done; try lia.
  { by apply ok_ready. }
  { intros k Hk. apply dget_None in Hk. by rewrite Hk. }
  assert (Hview : forall k, bucket_of k shards = b -> dget rows' k = (v ← view s k; apply_dec v (decide_row k v))).
  { intros k <-. apply H3. }
  destruct (Z.eqb_spec c' c0) as [-> | Hc].
  - exists s, c0. split; [done |]. split; [done |]. intros k. destruct (Z.eqb_spec (bucket_of k shards) b) as [Hb |]; [| done].
    specialize (Hview k Hb). rewrite H4 in Hview by done. rewrite <- Hb in Hview. fold (view s k) in Hview. destruct (view s k) as [v |] eqn:Ev; [| done].
    cbn in Hview |- *. rewrite <- Hview. cbn. by rewrite (canonical_at s (bucket_of k shards) k v Hok Ev).
  - destruct (write_shard_spec s b rows' Hok H2) as (s' & -> & Hok' & Hv). exists s', c'. split; [done |]. split; [done |].
    intros k. rewrite Hv. destruct (Z.eqb_spec (bucket_of k shards) b) as [Hb |]; [| done]. rewrite (Hview k Hb). by destruct (view s k).
Qed.

(** What a sweep leaves of a row. *)
Definition swept (k : string) (o : option pyval) : option pyval := v ← o; sort_keys <$> apply_dec v (decide_row k v).

Lemma sweep_buckets s bs c w :
  store_ok s -> NoDup bs -> exists s' c', sfold (sweep_bucket error validate fn) c bs (s, w) = (Ok c', (s', foldl note w (concat (map (rows_at s) bs)))) /\
    store_ok s' /\ forall k, view s' k = if bool_decide (bucket_of k shards ∈ bs) then swept k (view s k) else view s k.
Proof.
  revert s c w. induction bs as [| b bs IH]; intros s c w Hok Hn; cbn [sfold map concat].
  - exists s, c. done.
  - apply NoDup_cons in Hn as [Hb Hn]. destruct (sweep_bucket_spec s b c w Hok) as (s1 & c1 & H1 & Hok1 & Hv1).
    rewrite (sbind_ok _ _ _ _ _ H1), foldl_app. destruct (IH s1 c1 (foldl note w (rows_at s b)) Hok1 Hn) as (s' & c' & H2 & Hok' & Hv2).
    assert (Hrows : forall x, x <> b -> rows_at s1 x = rows_at s x).
    { revert H1. unfold sweep_bucket. cbn [fst snd]. rewrite read_shard_rows by done. cbn beta iota.
      destruct (sfold (sweep_step fn) _ _ _) as [[[rows' c''] | e] w'']; [| done]. destruct (_ =? _); [by intros [= _ <- _] |].
      intros H1 x Hx. unfold _write_shard in H1. unfold rows_at. destruct rows' as [| r rows'].
      - injection H1 as _ <- _. cbn. by rewrite lookup_delete_ne.
      - destruct (finite_val _); [| done]. injection H1 as _ <- _. cbn [k_shards set_shards]. by rewrite lookup_insert_ne. }
    exists s', c'. split.
    { rewrite H2. do 2 f_equal. f_equal. f_equal. apply map_ext_elem. intros x Hx. apply Hrows. by intros ->. }
    split; [done |]. intros k. rewrite Hv2, Hv1. unfold swept. destruct (Z.eqb_spec (bucket_of k shards) b) as [Hk | Hk].
    + rewrite bool_decide_false by (by rewrite Hk). rewrite bool_decide_true by (rewrite Hk; by left). done.
    + destruct (decide (bucket_of k shards ∈ bs)); [rewrite !bool_decide_true by set_solver | rewrite !bool_decide_false by set_solver]; done.
Qed.

Lemma buckets_nodup s : NoDup (_buckets s).
Proof. unfold _buckets. rewrite sort_by_perm. apply NoDup_fst_map_to_list. Qed.

Lemma sweep_spec s w :
  store_ok s -> exists s' c', sweep error validate legacy_extract shards guard_ok fn (s, w) = (Ok c', (s', foldl note w (all_rows s))) /\ store_ok s' /\
    forall k, view s' k = swept k (view s k).
Proof.
  intros Hok. unfold sweep. cbn [fst snd]. rewrite settled_ensure by apply Hok.
  destruct (sweep_buckets (set_migrated s) (_buckets (set_migrated s)) 0 w (set_migrated_ok s Hok) (buckets_nodup _)) as (s' & c' & -> & Hok' & Hv).
  exists s', c'. split; [done |]. split; [done |]. intros k. rewrite Hv. case_bool_decide as Hb; [done |].
  pose proof (view_None (set_migrated s) k Hb) as Hn. rewrite Hn. change (view s k) with (view (set_migrated s) k). by rewrite Hn.
Qed.
End sweep.

Lemma all_rows_spec s : store_ok s -> NoDup (dkeys (all_rows s)) /\ forall k, dget (all_rows s) k = view s k.
Proof.
  intros Hok. unfold all_rows. assert (H : forall bs, NoDup bs -> NoDup (dkeys (concat (map (rows_at s) bs))) /\
    forall k, dget (concat (map (rows_at s) bs)) k = if bool_decide (bucket_of k shards ∈ bs) then view s k else None).
  { induction bs as [| b bs IH]; intros Hn; [split; [constructor | done] |]. apply NoDup_cons in Hn as [Hb Hn]. destruct (IH Hn) as [IH1 IH2].
    destruct (rows_at_ok s b Hok) as [Hn' HF]. cbn [map concat]. unfold dkeys in *. rewrite map_app. split.
    - apply NoDup_app. split; [done |]. split; [| done]. intros k Hk Hk'. apply list_elem_of_fmap in Hk as ([k1 v] & -> & Hk).
      rewrite Forall_forall in HF. destruct (HF _ Hk) as [Hbk _]. cbn in *. fold (dkeys (concat (map (rows_at s) bs))) in Hk'.
      assert (Hno : dget (concat (map (rows_at s) bs)) k1 = None) by (rewrite IH2; by rewrite bool_decide_false by (by rewrite Hbk)).
      by apply dget_None in Hno.
    - intros k. rewrite dget_append, IH2. unfold view. destruct (dget (rows_at s b) k) as [v |] eqn:E.
      + rewrite (view_bucket s b k v Hok E), E. by rewrite bool_decide_true by (by left).
      + destruct (decide (bucket_of k shards = b)) as [<- | Hne].
        * rewrite E, bool_decide_false by done. by rewrite bool_decide_true by (by left).
        * destruct (decide (bucket_of k shards ∈ bs)); [rewrite !bool_decide_true by set_solver | rewrite !bool_decide_false by set_solver]; done. }
  destruct (H (_buckets s) (buckets_nodup s)) as [H1 H2]. split; [done |]. intros k. rewrite H2. case_bool_decide as Hb; [done |].
  symmetry. by apply view_None.
Qed.


(** ** Migration *)

(** The rows of a document by shard, each shard's rows together. *)
Definition zget (gs : list (Z * dict)) (b : Z) : dict :=
  match list_find (fun g => fst g = b) gs with Some (_, g) => snd g | None => [] end.

Definition split_rows (rows : dict) : list (Z * dict) :=
  foldl (fun m kv => add_row m (bucket_of (fst kv) shards) (fst kv) (snd kv)) [] rows.

Lemma zget_cons x rows gs b : zget ((x, rows) :: gs) b = if x =? b then rows else zget gs b.
Proof.
  unfold zget. cbn. destruct (Z.eqb_spec x b) as [-> | Hne]; [by rewrite decide_True |].
  rewrite decide_False by done. by destruct (list_find _ gs) as [[? ?] |].
Qed.

Lemma add_row_spec gs b k v x :
  zget (add_row gs b k v) x = if x =? b then dset (zget gs b) k v else zget gs x.
Proof.
  induction gs as [| [y rows] gs IH]; cbn [add_row].
  - rewrite zget_cons. rewrite (Z.eqb_sym b x). by destruct (x =? b).
  - destruct (Z.eqb_spec y b) as [-> | Hne]; rewrite !zget_cons.
    + rewrite Z.eqb_refl, (Z.eqb_sym b x). by destruct (Z.eqb_spec x b).
    + rewrite IH. destruct (Z.eqb_spec y x) as [<- | ?]; [by destruct (Z.eqb_spec y b) |].
      destruct (Z.eqb_spec y b); done.
Qed.

Lemma add_row_fst gs b k v x : x ∈ map fst (add_row gs b k v) <-> x = b \/ x ∈ map fst gs.
Proof.
  induction gs as [| [y rows] gs IH]; cbn; [set_solver |].
  destruct (Z.eqb_spec y b) as [-> | ?]; cbn; rewrite ?elem_of_cons; [tauto |]. rewrite IH. tauto.
Qed.

Lemma add_row_NoDup gs b k v : NoDup (map fst gs) -> NoDup (map fst (add_row gs b k v)).
Proof.
  induction gs as [| [y rows] gs IH]; cbn; intros Hn; [apply NoDup_singleton |].
  apply NoDup_cons in Hn as [Hy Hn]. destruct (Z.eqb_spec y b) as [-> | ?]; cbn; apply NoDup_cons; [done |].
  split; [| by apply IH]. rewrite add_row_fst. by intros [? | ?].
Qed.

Lemma zget_elem gs b rows : NoDup (map fst gs) -> (b, rows) ∈ gs -> zget gs b = rows.
Proof.
  induction gs as [| [y r] gs IH]; intros Hn Hin; [by apply not_elem_of_nil in Hin |]. rewrite zget_cons.
  cbn in Hn. apply NoDup_cons in Hn as [Hy Hn]. apply elem_of_cons in Hin as [[= -> ->] | Hin]; [by rewrite Z.eqb_refl |].
  destruct (Z.eqb_spec y b) as [-> | ?]; [| by apply IH]. destruct Hy. apply list_elem_of_fmap. by exists (b, rows).
Qed.

Lemma split_rows_spec rows :
  NoDup (dkeys rows) -> NoDup (map fst (split_rows rows)) /\
  (forall k, dget (zget (split_rows rows) (bucket_of k shards)) k = dget rows k) /\
  (forall b, NoDup (dkeys (zget (split_rows rows) b)) /\
    Forall (fun kv => bucket_of (fst kv) shards = b /\ kv ∈ rows) (zget (split_rows rows) b)).
Proof.
  unfold split_rows. induction rows as [| [x v] rows IH] using rev_ind; intros Hn.
  - split; [constructor |]. split; [done |]. intros b. split; constructor.
  - unfold dkeys in Hn. rewrite map_app in Hn. apply NoDup_app in Hn as (Hn & Hx & _).
    destruct (IH Hn) as (H1 & H2 & H3). rewrite foldl_app. cbn [foldl fst snd]. split; [by apply add_row_NoDup |]. split.
    + intros k. rewrite add_row_spec.
      assert (Hsnoc : dget (rows ++ [(x, v)]) k = if String.eqb x k then Some v else dget rows k).
      { rewrite dget_snoc. destruct (String.eqb_spec x k) as [<- | Hne]; [| by destruct (dget rows k)].
        by rewrite (proj2 (dget_None rows x)); [| intros Hin; apply (Hx x Hin); left]. }
      rewrite Hsnoc. destruct (Z.eqb_spec (bucket_of k shards) (bucket_of x shards)) as [Hb | Hb].
      * rewrite dget_dset. rewrite <- Hb, H2. by destruct (String.eqb x k).
      * rewrite H2. destruct (String.eqb_spec x k) as [Hxk | ?]; [by rewrite Hxk in Hb | done].
    + intros b. rewrite add_row_spec. destruct (Z.eqb_spec b (bucket_of x shards)) as [-> | Hb].
      * destruct (H3 (bucket_of x shards)) as [Hnd HF]. split; [by apply NoDup_dset |].
        apply Forall_dset; [| cbn; set_solver]. eapply Forall_impl; [exact HF |]. cbn. set_solver.
      * destruct (H3 b) as [Hnd HF]. split; [done |]. eapply Forall_impl; [exact HF |]. cbn. set_solver.
Qed.

(** The rows a merge leaves for a key. *)
Definition merged (s : kstate) (rows : dict) (k : string) : option pyval :=
  match view s k with Some v => Some v | None => sort_keys <$> dget rows k end.

Lemma merge_bucket_spec s b rows :
  shards_ok s -> rows_ready b rows ->
  exists m, merge_bucket error validate (b, rows) s = (Ok tt, set_shards m s) /\ map_Forall shard_ok m /\
    forall k, view (set_shards m s) k = if bucket_of k shards =? b then merged s rows k else view s k.
Proof.
  intros Hok [Hn HF]. unfold merge_bucket. cbn [fst snd]. rewrite read_shard_any by done.
  destruct (rows_at_shards s b Hok) as [Hn' HF'].
  destruct (write_shard_any s b (dupdate rows (rows_at s b)) Hok) as (m & -> & Hm & Hv).
  { split; [by apply NoDup_dupdate |]. apply Forall_forall. intros [k v] Hin.
    assert (Hg : dget (dupdate rows (rows_at s b)) k = Some v).
    { apply dget_Some; [by apply NoDup_dupdate | done]. }
    rewrite dget_dupdate in Hg by done. rewrite Forall_forall in HF, HF'.
    destruct (dget (rows_at s b) k) as [w |] eqn:E.
    - injection Hg as ->. apply dget_elem in E. by destruct (HF' _ E) as (? & ? & _).
    - apply dget_elem in Hg. by apply (HF _ Hg). }
  exists m. split; [done |]. split; [done |]. intros k. rewrite Hv.
  destruct (Z.eqb_spec (bucket_of k shards) b) as [<- | ?]; [| done].
  rewrite dget_dupdate by done. unfold merged, view. destruct (dget (rows_at s _) k) as [v |] eqn:E; [| done].
  cbn. f_equal. apply dget_elem in E. rewrite Forall_forall in HF'. by destruct (HF' _ E) as (_ & _ & ?).
Qed.

Lemma siter_merge gs s :
  shards_ok s -> NoDup (map fst gs) -> (forall g, g ∈ gs -> rows_ready (fst g) (snd g)) ->
  exists m, siter (merge_bucket error validate) gs s = (Ok tt, set_shards m s) /\ map_Forall shard_ok m /\
    forall k, view (set_shards m s) k =
      if bool_decide (bucket_of k shards ∈ map fst gs) then merged s (zget gs (bucket_of k shards)) k else view s k.
Proof.
  revert s. induction gs as [| [b rows] gs IH]; intros s Hok Hn Hr; cbn [siter].
  - exists (k_shards s). split; [by destruct s |]. split; [done |]. intros k. by destruct s.
  - cbn in Hn. apply NoDup_cons in Hn as [Hb Hn].
    destruct (merge_bucket_spec s b rows Hok (Hr (b, rows) ltac:(by left))) as (m & Hm & Hmo & Hv).
    rewrite (sbind_ok _ _ _ _ _ Hm).
    destruct (IH (set_shards m s)) as (m' & -> & Hmo' & Hv'); [done | done | |].
    { intros g Hg. apply Hr. by right. }
    exists m'. split; [done |]. split; [done |]. intros k.
    change (set_shards m' s) with (set_shards m' (set_shards m s)). rewrite Hv', zget_cons. unfold merged. rewrite !Hv.
    destruct (Z.eqb_spec (bucket_of k shards) b) as [Hk | Hk].
    + rewrite bool_decide_false by (by rewrite Hk). rewrite bool_decide_true by (rewrite Hk; by left).
      rewrite Hk, Z.eqb_refl. done.
    + case_bool_decide as Hin.
      * rewrite bool_decide_true by (by right). by destruct (Z.eqb_spec b (bucket_of k shards)).
      * rewrite bool_decide_false; [done |]. cbn. set_solver.
Qed.

Lemma split_ready rows g :
  NoDup (dkeys rows) -> Forall (fun kv => storable (fst kv) (snd kv)) rows ->
  g ∈ split_rows rows -> rows_ready (fst g) (snd g).
Proof.
  intros Hn Hst Hg. destruct (split_rows_spec rows Hn) as (Hnd & _ & H). destruct g as [b r]. cbn.
  rewrite <- (zget_elem _ _ _ Hnd Hg). destruct (H b) as [H1 H2]. split; [done |].
  eapply Forall_impl; [exact H2 |]. cbn. intros kv [? Hin]. split; [done |].
  rewrite Forall_forall in Hst. by apply Hst.
Qed.

(** A store whose document is still to be migrated. *)
Record unmigrated (s : kstate) (rows : dict) : Prop := {
  um_flag : k_migrated s = false;
  um_retired : k_retired s = None;
  um_legacy : exists doc, k_legacy s = Some (SJson (VDict doc)) /\ legacy_extract doc = Ok (VDict rows);
  um_keys : NoDup (dkeys rows);
  um_rows : Forall (fun kv => storable (fst kv) (snd kv) /\ validate (fst kv) (snd kv) = Ok tt) rows;
  um_shards : shards_ok s }.

Lemma migrate_spec s rows :
  unmigrated s rows -> exists s', ensure s = (Ok tt, s') /\ store_ok s' /\ k_retired s' = k_legacy s /\
    forall k, view s' k = merged s rows k.
Proof.
  intros [Hf Hr (doc & Hl & Hx) Hn Hrows Hok]. unfold _ensure_migrated. rewrite Hf, Hr, Hl.
  assert (Hb : legacy_buckets error validate legacy_extract shards s = Ok (split_rows rows)).
  { unfold legacy_buckets. rewrite Hl. cbn [_read_json mbind res_bind default from_option id]. rewrite Hx. cbn [mbind res_bind]. rewrite (proj2 (res_iter_ok _ rows)); [done |].
    eapply Forall_impl; [exact Hrows |]. intros kv [_ Hv]. unfold check_row. by rewrite Hv. }
  rewrite Hb. destruct (split_rows_spec rows Hn) as (Hnd & Hget & Hbs).
  assert (Hst : Forall (fun kv => storable (fst kv) (snd kv)) rows).
  { eapply Forall_impl; [exact Hrows |]. by intros kv [? _]. }
  destruct (siter_merge (split_rows rows) s Hok Hnd) as (m & Hm & Hmo & Hv); [intros g; by apply split_ready |].
  rewrite (sbind_ok _ _ _ _ _ Hm). eexists. split; [done |]. split; [split; [by left | exact Hmo] |].
  split; [cbn; by rewrite Hl |]. intros k.
  change (view (set_shards m s) k = merged s rows k). rewrite Hv. unfold merged. rewrite Hget.
  case_bool_decide as Hin; [done |]. destruct (view s k); [done |].
  rewrite <- Hget. assert (zget (split_rows rows) (bucket_of k shards) = []) as ->; [| done].
  revert Hin. generalize (split_rows rows). intros gs. induction gs as [| [b r] gs IH]; intros Hin; [done |].
  cbn in Hin. apply not_elem_of_cons in Hin as [? ?]. rewrite zget_cons. destruct (Z.eqb_spec b (bucket_of k shards)); [done |].
  by apply IH.
Qed.

(** The state after the first [n] shard writes of a migration. *)
Definition interrupted (s : kstate) (rows : dict) (n : nat) : kstate :=
  snd (siter (merge_bucket error validate) (take n (split_rows rows)) s).

Lemma interrupted_spec s rows n :
  unmigrated s rows -> unmigrated (interrupted s rows n) rows /\ k_legacy (interrupted s rows n) = k_legacy s /\
    forall k, merged (interrupted s rows n) rows k = merged s rows k.
Proof.
  intros [Hf Hr Hl Hn Hrows Hok]. destruct (split_rows_spec rows Hn) as (Hnd & Hget & Hbs).
  assert (Hst : Forall (fun kv => storable (fst kv) (snd kv)) rows).
  { eapply Forall_impl; [exact Hrows |]. by intros kv [? _]. }
  assert (Hsub : forall g, g ∈ take n (split_rows rows) -> g ∈ split_rows rows).
  { intros g Hg. rewrite <- (take_drop n (split_rows rows)). apply elem_of_app. by left. }
  assert (Hnt : NoDup (map fst (take n (split_rows rows)))).
  { rewrite <- (take_drop n (split_rows rows)), map_app in Hnd. by apply NoDup_app in Hnd as [? _]. }
  destruct (siter_merge (take n (split_rows rows)) s Hok Hnt) as (m & Hm & Hmo & Hv).
  { intros g Hg. eapply split_ready; [done | done | by apply Hsub]. }
  unfold interrupted. rewrite Hm. cbn [snd]. split; [by constructor |]. split; [done |].
  intros k. unfold merged at 1. rewrite Hv. case_bool_decide as Hin; [| done].
  unfold merged. destruct (view s k); [done |].
  apply list_elem_of_fmap in Hin as ([b r] & Hb & Hg). cbn in Hb. subst b.
  rewrite (zget_elem _ _ _ Hnt Hg), <- Hget, (zget_elem _ _ _ Hnd (Hsub _ Hg)). by destruct (dget r k).
Qed.

Lemma read_all_spec s k :
  shards_ok s -> dget (read_all s) k = match view s k with Some v => Some v | None => dget (file_rows (k_legacy s)) k end.
Proof.
  intros Hok. unfold read_all.
  assert (H : forall bs out, dget (foldl (fun out b => dupdate out (file_rows (k_shards s !! b))) out bs) k =
    if bool_decide (bucket_of k shards ∈ bs) then (match view s k with Some v => Some v | None => dget out k end)
    else dget out k).
  { induction bs as [| b bs IH]; intros out; cbn [foldl]; [done |]. rewrite IH.
    destruct (rows_at_shards s b Hok) as [Hn HF]. unfold rows_at in Hn, HF. rewrite dget_dupdate by done.
    destruct (dget (file_rows (k_shards s !! b)) k) as [v |] eqn:E.
    - pose proof E as E'. apply dget_elem in E'. rewrite Forall_forall in HF. destruct (HF _ E') as (Hb & _). cbn in Hb.
      unfold view, rows_at. rewrite Hb, E. rewrite (bool_decide_true (b ∈ b :: bs)) by (by left). by destruct (bool_decide (b ∈ bs)).
    - destruct (decide (bucket_of k shards = b)) as [<- | Hne].
      + rewrite (bool_decide_true (_ ∈ _ :: bs)) by (by left). unfold view, rows_at. rewrite E. by destruct (bool_decide _).
      + destruct (decide (bucket_of k shards ∈ bs)); [rewrite !bool_decide_true by set_solver | rewrite !bool_decide_false by set_solver]; done. }
  rewrite H. case_bool_decide as Hin; [done |]. by rewrite (view_None s k Hin).
Qed.
End spec.

(** ** The interface the owners rely on *)

(** A durable map from keys to rows that pass the check [V]. *)
Class RowStore (T : Type) (V : string -> pyval -> res unit) := {
  rs_get : string -> sm T (option pyval);
  rs_update : forall {W}, string -> (option pyval -> sm W upd) -> sm (T * W) upd;
  rs_snapshot : sm T dict;
  rs_ok : T -> Prop;
  rs_view : T -> string -> option pyval;
  rs_get_spec : forall s k, rs_ok s -> exists s', rs_get k s = (Ok (rs_view s k), s') /\ rs_ok s' /\
    forall x, rs_view s' x = rs_view s x;
  rs_update_spec : forall W s (w w' : W) k fn r, rs_ok s -> fn (rs_view s k) w = (r, w') ->
    (forall new, r = Ok new -> upd_storable V k new) ->
    exists s', rs_update k fn (s, w) = (r, (s', w')) /\ rs_ok s' /\
      forall x, rs_view s' x = match r with Ok new => apply_view k new (rs_view s) x | Err _ => rs_view s x end;
  rs_snapshot_spec : forall s, rs_ok s -> exists d s', rs_snapshot s = (Ok d, s') /\ rs_ok s' /\
    (forall x, rs_view s' x = rs_view s x) /\ NoDup (dkeys d) /\ forall x, dget d x = rs_view s x;
  rs_row_ok : forall s k v, rs_ok s -> rs_view s k = Some v -> storable V k v /\ sort_keys v = v }.

(** [KeyedState(path, error=error, validate=V, durable=True)] *)
#[refine] Definition keyed_rows (error : string -> pyexn) (V : string -> pyval -> res unit) : RowStore kstate V := {|
  rs_get := get error V whole_document SHARD_COUNT true;
  rs_update := fun W => update error V whole_document SHARD_COUNT true;
  rs_snapshot := snapshot error V whole_document SHARD_COUNT true;
  rs_ok := store_ok V SHARD_COUNT;
  rs_view := view SHARD_COUNT |}.
Proof.
  - intros s k Hok. exists (set_migrated s). split; [by apply get_spec |]. split; [by apply set_migrated_ok | done].
  - intros W s w w' k fn r Hok Hfn Hst. by eapply update_spec.
  - intros s Hok. destruct (snapshot_spec error V whole_document SHARD_COUNT true s Hok) as (d & Hd & Hn & Hv).
    exists d, (set_migrated s). split; [done |]. split; [by apply set_migrated_ok |]. done.
  - intros s k v Hok E. unfold view in E. apply dget_elem in E.
    destruct (rows_at_ok V SHARD_COUNT s (bucket_of k SHARD_COUNT) Hok) as [_ HF]. rewrite Forall_forall in HF.
    by destruct (HF _ E) as (_ & ? & ?).
Defined.

#[export] Instance keyed_row_store (V : string -> pyval -> res unit) : RowStore kstate V := keyed_rows ScheduleStateError V.

(** ** Properties *)

(** C35: behind the shard files there is one map: on a readable store [update] calls
    the callback with the row of the key; it raises exactly what the callback raises, with
    the map as it was, and otherwise changes the map at that key only, as the callback
    decided, and the store stays readable, whatever other keys share the shard.  That is
    for a row that is finite and passes the owner's check, which the write does not make: a
    row that holds a number JSON has no text for raises ValueError and changes nothing; a
    finite row the check refuses is written, and then no key of its shard can be read, and
    the rows of the other shards are as they were. *)
Theorem keyed_update_refines {W} (error : string -> pyexn) (validate : string -> pyval -> res unit)
    (legacy_extract : dict -> res pyval) (shards : Z) (guard_ok : bool) (s : kstate) (w w' : W) (key : string)
    (fn : option pyval -> sm W upd) (r : res upd) :
  store_ok validate shards s -> fn (view shards s key) w = (r, w') -> (forall row, r = Ok (UPut row) -> row <> VNone /\ wf_val row) ->
  let run := update error validate legacy_extract shards guard_ok key fn (s, w) in
  let as_decided := exists s', run = (r, (s', w')) /\ store_ok validate shards s' /\
    forall k, view shards s' k = match r with Ok new => apply_view key new (view shards s) k | Err _ => view shards s k end in
  match r with
  | Ok (UPut row) =>
      match finite_val row, validate key (sort_keys row) with
      | true, Ok _ => as_decided
      | false, _ => exists s', run = (Err (ValueError "Out of range float values are not JSON compliant"), (s', w')) /\
          store_ok validate shards s' /\ forall k, view shards s' k = view shards s k
      | true, Err _ => exists s', run = (r, (s', w')) /\ (forall b, b <> bucket_of key shards -> rows_at s' b = rows_at s b) /\
          forall k, bucket_of k shards = bucket_of key shards -> exists e, get error validate legacy_extract shards guard_ok k s' = (Err e, s')
      end
  | _ => as_decided
  end.
Proof.
  intros Hok Hfn Hrow run as_decided.
  assert (Hspec : (forall new, r = Ok new -> upd_storable validate key new) -> as_decided) by (by apply update_spec).
  destruct r as [[| | row] | e]; [by apply Hspec; intros ? [= <-] .. | | by apply Hspec]. destruct (Hrow row eq_refl) as [Hne Hwf].
  destruct (finite_val row) eqn:Hfin.
  - destruct (validate key (sort_keys row)) as [[] | e] eqn:Hv; [apply Hspec; by intros ? [= <-] |]. by apply (update_refused error validate legacy_extract shards guard_ok s w w' key fn row e).
  - exists (set_migrated s). split; [by apply (update_nonfinite error validate legacy_extract shards guard_ok s w w' key fn row) |]. split; [by apply set_migrated_ok | done].
Qed.

(** A batch locks and writes each shard once, and still has the outcome of the
    calls in their given order, repeated keys included: when the callbacks run in
    order on a plain map succeed, [update_many] succeeds, leaves that map on disk and
    reports the last decision for each key. *)
Theorem update_many_sequential (error : string -> pyexn) (validate : string -> pyval -> res unit)
    (legacy_extract : dict -> res pyval) (shards : Z) (guard_ok : bool) (fn : string -> option pyval -> res upd)
    (s : kstate) (keys : list string) v' r' :
  (forall k old row, fn k old = Ok (UPut row) -> storable validate k row) ->
  store_ok validate shards s -> res_fold (map_step fn) (view shards s, fun _ => None) keys = Ok (v', r') ->
  exists results s', update_many error validate legacy_extract shards guard_ok keys fn s = (Ok results, s') /\
    store_ok validate shards s' /\ (forall k, view shards s' k = sort_keys <$> v' k) /\
    (forall k, dget results k = r' k).
Proof. intros Hfn. by apply update_many_spec. Qed.

(** C27: migration survives a crash at any point: interrupt it after any number of
    shard writes and start again, and the store ends readable with every row exactly
    once, the shard's own row where there was one and the document's row otherwise,
    and the document kept under its retired name; and [read_all] already shows, before
    and during the migration, the same choice of rows. *)
Theorem migration_crash_safe (error : string -> pyexn) (validate : string -> pyval -> res unit)
    (shards : Z) (guard_ok : bool) (s : kstate) (rows : dict) (n : nat) :
  unmigrated validate whole_document shards s rows ->
  let s1 := interrupted error validate shards s rows n in
  exists s', _ensure_migrated error validate whole_document shards guard_ok s1 = (Ok tt, s') /\
    store_ok validate shards s' /\ k_retired s' = k_legacy s /\
    forall k, view shards s' k = merged shards s rows k /\
      sort_keys <$> dget (read_all s1) k = merged shards s rows k.
Proof.
  intros Hum s1. subst s1. destruct (interrupted_spec error _ _ _ _ _ n Hum) as (Hum1 & Hl1 & Hm1).
  destruct (migrate_spec error validate whole_document shards guard_ok _ _ Hum1) as (s' & He & Hok & Hr & Hv).
  exists s'. split; [done |]. split; [done |]. split; [by rewrite Hr, <- Hl1 |]. intros k.
  rewrite Hv, Hm1. split; [done |]. rewrite <- Hm1. pose proof (um_shards _ _ _ _ _ Hum1) as Hsh.
  rewrite (read_all_spec error validate whole_document shards _ k Hsh). unfold merged.
  destruct (um_legacy _ _ _ _ _ Hum1) as (doc & Hl & [= ->]). rewrite Hl. cbn [file_rows].
  destruct (view shards _ k) as [v |] eqn:E; [| done]. cbn. f_equal.
  unfold view in E. apply dget_elem in E. destruct (rows_at_shards _ _ _ (bucket_of k shards) Hsh) as [_ HF].
  rewrite Forall_forall in HF. by destruct (HF _ E) as (_ & _ & ?).
Qed.

(** ** Witnesses *)

Definition any_row (k : string) (v : pyval) : res unit := Ok tt.
Definition empty_store : kstate := KState None None ∅ false.

Lemma empty_store_ok V : store_ok V SHARD_COUNT empty_store.
Proof. split; [by right; right |]. apply map_Forall_empty. Qed.

Lemma keyed_update_refines_witness :
  exists s', update (W:=unit) ScheduleStateError any_row whole_document SHARD_COUNT true "dev1" (fun _ => sret (UPut (VInt 3)))
    (empty_store, tt) = (Ok (UPut (VInt 3)), (s', tt)) /\ view SHARD_COUNT s' "dev1" = Some (VInt 3).
Proof.
  destruct (keyed_update_refines ScheduleStateError any_row whole_document SHARD_COUNT true empty_store tt tt "dev1"
    (fun _ => sret (UPut (VInt 3))) (Ok (UPut (VInt 3)))) as (s' & H & _ & Hv).
  - apply empty_store_ok.
  - reflexivity.
  - intros row [= <-]. split; [discriminate | exact I].
  - exists s'. split; [exact H |]. rewrite Hv. reflexivity.
Defined.

Definition count_up (k : string) (old : option pyval) : res upd :=
  Ok (UPut (VInt (match old with Some (VInt z) => z + 1 | _ => 1 end))).

Lemma update_many_sequential_witness :
  exists results s', update_many ScheduleStateError any_row whole_document SHARD_COUNT true ["dev1"; "dev2"; "dev1"] count_up
    empty_store = (Ok results, s') /\ view SHARD_COUNT s' "dev1" = Some (VInt 2).
Proof.
  destruct (res_fold (map_step count_up) (view SHARD_COUNT empty_store, fun _ => None) ["dev1"; "dev2"; "dev1"])
    as [[v' r'] |] eqn:E; [| discriminate E].
  destruct (update_many_sequential ScheduleStateError any_row whole_document SHARD_COUNT true count_up empty_store
    ["dev1"; "dev2"; "dev1"] v' r') as (results & s' & H & _ & Hv & _).
  - intros k old row [= <-]. repeat split; discriminate.
  - apply empty_store_ok.
  - exact E.
  - exists results, s'. split; [exact H |]. rewrite Hv. injection E as <- _. reflexivity.
Defined.

(** A document of two rows, one of them already in its shard with newer content. *)
Definition legacy_rows : dict := [("dev1", VInt 1); ("dev2", VInt 2)].
Definition half_migrated : kstate :=
  KState (Some (SJson (VDict legacy_rows))) None
    {[bucket_of "dev1" SHARD_COUNT := SJson (VDict [("dev1", VInt 7)])]} false.

Lemma migration_crash_safe_witness :
  exists s', _ensure_migrated ScheduleStateError any_row whole_document SHARD_COUNT true
      (interrupted ScheduleStateError any_row SHARD_COUNT half_migrated legacy_rows 1) = (Ok tt, s') /\
    view SHARD_COUNT s' "dev1" = Some (VInt 7) /\ view SHARD_COUNT s' "dev2" = Some (VInt 2).
Proof.
  destruct (migration_crash_safe ScheduleStateError any_row SHARD_COUNT true half_migrated legacy_rows 1)
    as (s' & H & _ & _ & Hv).
  - constructor; [reflexivity | reflexivity | by exists legacy_rows | by_eval | |].
    + repeat constructor; cbn; discriminate.
    + apply map_Forall_singleton. exists [("dev1", VInt 7)]. split; [done |]. split; [done |]. split; [by_eval |].
      repeat constructor; cbn; discriminate.
  - exists s'. split; [exact H |]. split; [rewrite (proj1 (Hv "dev1")) | rewrite (proj1 (Hv "dev2"))]; reflexivity.
Defined.
