(* ===== verification/SchedDoc.v ===== *)
(** * [server/schedules.py]: definitions, snapshots and their validation

    Schedule definitions are closed JSON objects: unknown fields, wrong types and
    out-of-range numbers are refused; a definition is stored in the normal form of
    [normalize_definition], with every default written out. *)
From S2P Require Import Prelude PyVal JsonDump JsonText Ipv4 PolicyDoc KeyedState.

(** ** Constants *)

Definition MAX_INTEGER : Z := Z.shiftl 1 63 - 1.
Definition MAX_EPOCH : Z := 253370764799.
Definition MAX_WINDOW_SECONDS : Z := 7 * 86400.
Definition MAX_TARGETS : Z := 20000.
Definition MAX_OCCURRENCE_PAGE : Z := 100.
Definition MAX_RECEIPT_PAGE : Z := 1000.
Definition KINDS : list string := ["assign"; "onboard"].
Definition SCHEDULE_STATES : list string := ["pending"; "paused"; "completed"].
Definition FILTER_KEYS : list string :=
  ["q"; "management_type"; "platform"; "cred"; "telemetry"; "peer"; "role"; "model_family"; "os_family"; "status"].
Definition DEFINITION_KEYS : list string := ["kind"; "target"; "payload"; "when"; "after"; "state"].
Definition ROW_KEYS : list string :=
  DEFINITION_KEYS ++ ["id"; "generation"; "rev"; "created_by"; "created_at"; "preview"].
Definition WAVE_GATES : list string := ["open"; "held"].
Definition WAVE_COUNTS : list string := ["staged"; "errored"; "missing"].
Definition OCCURRENCE_TRANSITIONS : list (string * list string) :=
  [("pending", ["running"; "missed"; "cancelled"; "stalled"; "failed"]);
   ("running", ["interrupted"; "completed"; "cancelled"; "stalled"; "failed"]);
   ("interrupted", ["running"; "missed"; "cancelled"; "stalled"; "failed"]);
   ("completed", []); ("missed", []); ("cancelled", []); ("stalled", []); ("failed", [])].
Definition TERMINAL_RECEIPT_STATES : list string := ["ok"; "skipped"; "error"].
Definition RECEIPT_STATES : list string := TERMINAL_RECEIPT_STATES ++ ["intent"; "submitted"; "running"].
Definition MAX_RECEIPT_ATTEMPTS : Z := 16.

Abbreviation verr := ScheduleValidationError.

(** ** Regular expressions *)

Definition is_alnum (c : ascii) : bool := is_upper c || is_lower c || is_digit c.

Definition _ID_RE (s : string) : bool :=
  match bytes_of s with
  | [] => false
  | c :: rest => is_alnum c && (zlen rest <=? 63) && forallb (fun c => is_alnum c || is_punct c) rest
  end.

Definition _IMAGE_ID_RE (s : string) : bool :=
  (1 <=? zlen (bytes_of s)) && (zlen (bytes_of s) <=? 128) &&
  forallb (fun c => is_alnum c || is_punct c) (bytes_of s).

Definition _HEX_RE (s : string) : bool := hex_re 32 s.

Definition _ROLE_RE (s : string) : bool := role_name_re s.

Definition _REASON_RE (s : string) : bool :=
  match bytes_of s with
  | [] => false
  | c :: rest =>
      is_lower c && (zlen rest <=? 63) && forallb (fun c => is_lower c || is_digit c || byte_eqb c "_") rest
  end.

(** [[a-z][a-z0-9_-]{0,31}:.+]: the colon is the first one. *)
Fixpoint actor_rest (n : nat) (b : bytes) : bool :=
  match b with
  | [] => false
  | c :: rest =>
      if byte_eqb c ":" then
        match rest with [] => false | _ => forallb (fun c => negb (byte_eqb c "010")) rest end
      else
        match n with
        | O => false
        | S n => (is_lower c || is_digit c || byte_eqb c "_" || byte_eqb c "-") && actor_rest n rest
        end
  end.
Definition actor_re (s : string) : bool :=
  match bytes_of s with [] => false | c :: rest => is_lower c && actor_rest 31 rest end.

(** ** Field checks *)

(** The code points of a text. *)
Fixpoint code_points_fuel (fuel : nat) (b : bytes) : list Z :=
  match fuel with
  | O => []
  | S fuel => match utf8_next b with Some (z, rest) => z :: code_points_fuel fuel rest | None => [] end
  end.
Definition code_points (s : string) : list Z := code_points_fuel (length (bytes_of s)) (bytes_of s).

(** [str.isspace] of a character. *)
Definition is_space_cp (z : Z) : bool :=
  ((9 <=? z) && (z <=? 13)) || ((28 <=? z) && (z <=? 32)) || (z =? 133) || (z =? 160) || (z =? 5760) ||
  ((8192 <=? z) && (z <=? 8202)) || (z =? 8232) || (z =? 8233) || (z =? 8239) || (z =? 8287) || (z =? 12288).

(** [value == value.strip()] *)
Definition is_stripped (s : string) : bool :=
  match code_points s with
  | [] => true
  | c :: rest => negb (is_space_cp c) && negb (is_space_cp (List.last rest c))
  end.

(** A value that is an object with the required and only the allowed keys. *)
Definition _object (value : pyval) (keys : list string) (field : string) (required : list string) : res dict :=
  match value with
  | VDict d =>
      if forallb (fun k => existsb (String.eqb k) keys) (dkeys d) && forallb (fun k => dhas d k) required
      then Ok d else Err (verr ("invalid " +:+ field +:+ " fields"))
  | _ => Err (verr ("invalid " +:+ field +:+ " fields"))
  end.

Definition _integer (value : pyval) (field : string) (minimum maximum : Z) : res Z :=
  match value with
  | VInt z => if (minimum <=? z) && (z <=? maximum) then Ok z else Err (verr ("invalid " +:+ field +:+ " integer"))
  | _ => Err (verr ("invalid " +:+ field +:+ " integer"))
  end.

Definition _text (value : pyval) (field : string) (limit : Z) (empty : bool) : res string :=
  match value with
  | VStr s =>
      raise (verr ("invalid " +:+ field +:+ " text")) when
        (String.eqb s "" && negb empty) || negb (is_stripped s) ||
        existsb (fun c => (c <? 32) || ((127 <=? c) && (c <=? 159))) (code_points s) ;;;
      raise (verr (field +:+ " is too long")) when (limit <? zlen (bytes_of s)) ;;;
      Ok s
  | _ => Err (verr ("invalid " +:+ field +:+ " text"))
  end.

Definition matching (re : string -> bool) (value : pyval) (msg : string) : res string :=
  match value with VStr s => if re s then Ok s else Err (verr msg) | _ => Err (verr msg) end.

Definition _identifier (value : pyval) (field : string) : res string := matching _ID_RE value ("invalid " +:+ field).
Definition _hex (value : pyval) (field : string) : res string := matching _HEX_RE value ("invalid " +:+ field).

(** With [secrets_store.validate_device_id]. *)
Definition _device_id (value : pyval) : res string :=
  let* s := _identifier value "device id" in
  if String.eqb s "seeder" then Err (verr "device_id 'seeder' is reserved for the seeder service") else Ok s.

(** A list of distinct ids. *)
Definition _ids (value : pyval) (field : string) (maximum : Z) (empty : bool) : res (list string) :=
  match value with
  | VList l =>
      raise (verr ("invalid " +:+ field +:+ " list")) when
        (maximum <? zlen l) || (negb empty && match l with [] => true | _ => false end) ;;;
      let* ids := res_map (fun v =>
        if String.eqb field "image_ids" then matching _IMAGE_ID_RE v "invalid catalog image id" else _device_id v) l in
      raise (verr ("duplicate " +:+ field)) when negb (nodup_strs ids) ;;;
      Ok ids
  | _ => Err (verr ("invalid " +:+ field +:+ " list"))
  end.

Definition _actor (actor : pyval) : res string :=
  let* s := _text actor "actor" 256 false in
  if actor_re s then Ok s else Err (verr "actor needs a namespace and identity").

(** ** Snapshots *)

Definition strs (l : list string) : pyval := VList (map VStr l).

(** The binding of one device: [None] or a registration id. *)
Definition check_binding (kv : string * pyval) : res unit :=
  let* _ := _device_id (VStr (fst kv)) in
  match snd kv with
  | VNone => Ok tt
  | v => let* _ := matching _HEX_RE v "invalid snapshot registration id" in Ok tt
  end.

Definition normalize_snapshot (value : pyval) : res dict :=
  let* d := _object value ["revision"; "now"; "device_ids"; "registration_ids"] "snapshot" ["revision"; "now"; "device_ids"] in
  let* device_ids := _ids (dget_or d "device_ids" VNone) "device_ids" MAX_TARGETS true in
  let* revision := _integer (dget_or d "revision" VNone) "snapshot revision" 0 MAX_INTEGER in
  let* now := _integer (dget_or d "now" VNone) "snapshot now" 0 MAX_EPOCH in
  let normalized := [("revision", VInt revision); ("now", VInt now); ("device_ids", strs device_ids)] in
  match dget d "registration_ids" with
  | None => Ok normalized
  | Some (VDict bindings) =>
      raise (verr "snapshot registration bindings must match device ids") when
        negb (forallb (fun k => existsb (String.eqb k) device_ids) (dkeys bindings) &&
              forallb (fun k => dhas bindings k) device_ids) ;;;
      res_iter check_binding bindings ;;;
      Ok (normalized ++ [("registration_ids", VDict (map (fun k => (k, dget_or bindings k VNone)) device_ids))])
  | Some _ => Err (verr "snapshot registration bindings must match device ids")
  end.

(** ** Wave gates *)

Definition _wave_counts (wave : dict) : dict := filter (fun kv => fst kv <> "observed_at") wave.

Definition wave_keys : list string := ["schedule_id"; "occurrence_id"; "total"; "gate"; "observed_at"] ++ WAVE_COUNTS.

Definition normalize_wave (value : pyval) : res dict :=
  let* d := _object value wave_keys "wave gate" wave_keys in
  let field k := dget_or d k VNone in
  let* schedule_id := _identifier (field "schedule_id") "preceding schedule id" in
  (if is_none (field "occurrence_id") then Ok tt
   else let* _ := _hex (field "occurrence_id") "preceding occurrence id" in Ok tt) ;;;
  let* total := _integer (field "total") "wave total" 0 MAX_TARGETS in
  raise (verr "wave counts need a preceding occurrence") when is_none (field "occurrence_id") && negb (total =? 0) ;;;
  let* staged := _integer (field "staged") "wave staged" 0 total in
  let* errored := _integer (field "errored") "wave errored" 0 total in
  let* missing := _integer (field "missing") "wave missing" 0 total in
  raise (verr "wave counts exceed the preceding target") when (total <? staged + errored + missing) ;;;
  let* gate_ok := in_set (field "gate") WAVE_GATES in
  raise (verr "invalid wave gate state") when negb gate_ok ;;;
  raise (verr "an absent preceding occurrence cannot open a gate") when
    py_eq (field "gate") (VStr "open") && is_none (field "occurrence_id") ;;;
  let* observed_at := _integer (field "observed_at") "wave observed_at" 0 MAX_EPOCH in
  Ok [("staged", VInt staged); ("errored", VInt errored); ("missing", VInt missing);
      ("schedule_id", VStr schedule_id); ("occurrence_id", field "occurrence_id"); ("total", VInt total);
      ("gate", field "gate"); ("observed_at", VInt observed_at)].

(** ** Definitions *)

Definition check_filter (kv : string * pyval) : res unit :=
  let* item := _text (snd kv) (fst kv) 256 true in
  raise (verr "invalid target role") when
    String.eqb (fst kv) "role" && negb (String.eqb item "") && negb (String.eqb item "__none") && negb (_ROLE_RE item) ;;;
  Ok tt.

Definition normalize_target (target : pyval) : res dict :=
  let* d := _object target ["filters"; "device_ids"; "bind"] "target" [] in
  let* filters := _object (dget_or d "filters" (VDict [])) FILTER_KEYS "target filters" [] in
  res_iter check_filter filters ;;;
  let bind := dget_or d "bind" (VStr "late") in
  raise (verr "invalid target binding") when negb (in_strs bind ["late"; "early"]) ;;;
  let* device_ids := _ids (dget_or d "device_ids" (VList [])) "device_ids" MAX_TARGETS true in
  Ok [("filters", VDict filters); ("device_ids", strs device_ids); ("bind", bind)].

Definition normalize_payload (kind : string) (payload : pyval) : res dict :=
  if String.eqb kind "assign" then
    let* d := _object payload ["image_ids"; "mode"] "assignment payload" ["image_ids"] in
    let mode := dget_or d "mode" (VStr "merge") in
    raise (verr "invalid assignment mode") when negb (in_strs mode ["merge"; "replace"]) ;;;
    let* image_ids := _ids (dget_or d "image_ids" VNone) "image_ids" 10 false in
    Ok [("image_ids", strs image_ids); ("mode", mode)]
  else
    let* d := _object payload ["telemetry"; "telemetry_stream"; "mode"; "max_devices"] "onboarding payload" ["max_devices"] in
    let telemetry := dget_or d "telemetry" (VBool true) in
    let telemetry_stream := dget_or d "telemetry_stream" (VBool false) in
    let mode := dget_or d "mode" (VStr "new-only") in
    raise (verr "invalid onboarding mode or telemetry flags") when
      negb (py_eq mode (VStr "new-only")) || negb (is_bool telemetry) || negb (is_bool telemetry_stream) ;;;
    let* max_devices := _integer (dget_or d "max_devices" VNone) "max_devices" 1 MAX_TARGETS in
    Ok [("telemetry", telemetry); ("telemetry_stream", telemetry_stream); ("mode", mode); ("max_devices", VInt max_devices)].

Section definitions.
(** [ZoneInfo(key)]: the time zone database of the host. *)
Context (zoneinfo : string -> res unit).

(** [except (ValueError, ZoneInfoNotFoundError)]; the latter is a [KeyError]. *)
Definition check_zone (tz : string) : res unit :=
  match zoneinfo tz with
  | Ok tt => Ok tt
  | Err (KeyError _) => Err (verr "unknown IANA timezone")
  | Err e => if is_value_error e then Err (verr "unknown IANA timezone") else Err e
  end.

Definition normalize_when (when_ : pyval) : res dict :=
  let* d := _object when_ ["kind"; "at"; "weekday"; "hour"; "minute"; "tz"; "window_seconds"] "when" ["kind"; "window_seconds"] in
  let d := dsetdefault d "tz" (VStr "UTC") in
  let field k := dget_or d k VNone in
  let* tz := _text (field "tz") "timezone" 128 false in
  check_zone tz ;;;
  let* _ := _integer (field "window_seconds") "window_seconds" 1 MAX_WINDOW_SECONDS in
  if py_eq (field "kind") (VStr "once") then
    let* _ := _object (VDict d) ["kind"; "at"; "tz"; "window_seconds"] "once" ["at"] in
    let* _ := _integer (field "at") "at" 0 (MAX_EPOCH - MAX_WINDOW_SECONDS) in
    Ok d
  else if py_eq (field "kind") (VStr "recurring") then
    let* _ := _object (VDict d) ["kind"; "weekday"; "hour"; "minute"; "tz"; "window_seconds"] "recurring" ["weekday"; "hour"; "minute"] in
    let* _ := _integer (field "weekday") "weekday" 0 6 in
    let* _ := _integer (field "hour") "hour" 0 23 in
    let* _ := _integer (field "minute") "minute" 0 59 in
    Ok d
  else Err (verr "invalid when kind").

Definition after_keys : list string :=
  ["schedule_id"; "condition"; "min_staged_ratio"; "max_errored_ratio"; "max_missing_ratio"; "deadline_seconds"].

(** [type(number) in (float, int) and 0 <= number <= 1] *)
Definition is_ratio (v : pyval) : bool :=
  match v with
  | VInt _ | VFloat _ =>
      match num_of v with Some f => num_leb (FFin 0 0) f && num_leb f (FFin 1 0) | None => false end
  | _ => false
  end.

Definition normalize_after (after : pyval) : res dict :=
  let* d := _object after after_keys "after" after_keys in
  let field k := dget_or d k VNone in
  let* _ := _identifier (field "schedule_id") "preceding schedule id" in
  raise (verr "invalid wave condition") when negb (py_eq (field "condition") (VStr "min_staged_ratio")) ;;;
  raise (verr "invalid wave ratio") when
    negb (is_ratio (field "min_staged_ratio")) || negb (is_ratio (field "max_errored_ratio")) ||
    negb (is_ratio (field "max_missing_ratio")) ;;;
  let* _ := _integer (field "deadline_seconds") "wave deadline" 1 MAX_WINDOW_SECONDS in
  Ok d.

Definition normalize_definition (value : pyval) : res dict :=
  let* d := _object value DEFINITION_KEYS "schedule" ["kind"; "target"; "payload"; "when"] in
  match dget_or d "kind" VNone with
  | VStr kind =>
      raise (verr "kind must be assign or onboard") when negb (existsb (String.eqb kind) KINDS) ;;;
      let state := dget_or d "state" (VStr "pending") in
      raise (verr "invalid schedule state") when negb (in_strs state SCHEDULE_STATES) ;;;
      let* target := normalize_target (dget_or d "target" VNone) in
      let* payload := normalize_payload kind (dget_or d "payload" VNone) in
      let* when_ := normalize_when (dget_or d "when" VNone) in
      let result := [("kind", VStr kind); ("target", VDict target); ("payload", VDict payload);
                     ("when", VDict when_); ("state", state)] in
      match dget d "after" with
      | None => Ok result
      | Some after => let* after := normalize_after after in Ok (result ++ [("after", VDict after)])
      end
  | _ => Err (verr "kind must be assign or onboard")
  end.

(** [{key: row[key] for key in DEFINITION_KEYS if key in row}] *)
Definition definition_of (row : dict) : dict :=
  omap (fun k => v ← dget row k; Some (k, v)) DEFINITION_KEYS.

Definition validate_schedule (schedule_id row : pyval) : res unit :=
  let* d := _object row ROW_KEYS "stored schedule" (filter (fun k => k <> "after") ROW_KEYS) in
  let field k := dget_or d k VNone in
  let* schedule_id := _identifier schedule_id "schedule id" in
  raise (verr "schedule key mismatch") when negb (py_eq (field "id") (VStr schedule_id)) ;;;
  let* _ := _hex (field "generation") "generation" in
  let* _ := _integer (field "rev") "rev" 1 MAX_INTEGER in
  let* _ := _actor (field "created_by") in
  let* _ := _integer (field "created_at") "created_at" 0 MAX_EPOCH in
  let* _ := normalize_snapshot (field "preview") in
  let* n := normalize_definition (VDict (definition_of d)) in
  raise (verr "stored schedule is not normalized") when negb (py_eq (VDict n) (VDict (definition_of d))) ;;;
  raise (verr "schedule cannot follow itself") when
    py_eq (dget_or (dict_or_empty (dget_or d "after" (VDict []))) "schedule_id" VNone) (VStr schedule_id) ;;;
  Ok tt.
End definitions.
