(* ===== verification/SchedValid.v ===== *)
(** * Schedule documents: normal forms and persistence

    [normalize_definition] is a normal form, and the checks on stored rows do not
    depend on the order of the items of a dict, so what was accepted when it was
    written is accepted when it is read back. *)
From S2P Require Import Prelude PyVal JsonDump JsonText PolicyDoc KeyedState KeyedSpec SchedDoc.

(** ** Checks across [jeq] *)

Lemma jeq_integer v w f a b z : jeq v w -> _integer v f a b = Ok z -> _integer w f a b = Ok z.
Proof. intros H E. destruct v; try discriminate E. by inversion H; subst. Qed.

Lemma jeq_text v w f n b s : jeq v w -> _text v f n b = Ok s -> _text w f n b = Ok s.
Proof. intros H E. destruct v; try discriminate E. by inversion H; subst. Qed.

Lemma jeq_matching re v w msg s : jeq v w -> matching re v msg = Ok s -> matching re w msg = Ok s.
Proof. intros H E. destruct v; try discriminate E. by inversion H; subst. Qed.

Lemma jeq_identifier v w f s : jeq v w -> _identifier v f = Ok s -> _identifier w f = Ok s.
Proof. apply jeq_matching. Qed.

Lemma jeq_hex v w f s : jeq v w -> _hex v f = Ok s -> _hex w f = Ok s.
Proof. apply jeq_matching. Qed.

Lemma jeq_device_id v w s : jeq v w -> _device_id v = Ok s -> _device_id w = Ok s.
Proof. intros H E. unfold _device_id in *. head E as E1. by rewrite (jeq_identifier _ _ _ _ H E1). Qed.

Lemma jeq_actor v w s : jeq v w -> _actor v = Ok s -> _actor w = Ok s.
Proof. intros H E. unfold _actor in *. head E as E1. by rewrite (jeq_text _ _ _ _ _ _ H E1). Qed.

Lemma jeq_is_none v w : jeq v w -> is_none w = is_none v.
Proof. by inversion 1. Qed.

Lemma jeq_is_ratio v w : jeq v w -> is_ratio w = is_ratio v.
Proof. by inversion 1. Qed.

Lemma jeq_eq_str v w s : jeq v w -> py_eq w (VStr s) = py_eq v (VStr s).
Proof. by inversion 1. Qed.

Lemma jeq_ids v w f n b ids : jeq v w -> _ids v f n b = Ok ids -> _ids w f n b = Ok ids.
Proof.
  intros H E. destruct v as [| | | | | l |]; try discriminate E. apply jeq_list_inv in H as (k & -> & HF).
  unfold _ids in *. head E as E1. head E as E2.
  assert (zlen k = zlen l) as -> by (unfold zlen; by rewrite (Forall2_length _ _ _ HF)).
  assert (match k with [] => true | _ => false end = match l with [] => true | _ => false end) as ->
    by (by inversion HF).
  rewrite E1. rewrite res_map_ok in E2.
  assert (res_map (fun v => if String.eqb f "image_ids" then matching _IMAGE_ID_RE v "invalid catalog image id"
    else _device_id v) k = Ok a) as ->; [| done].
  apply res_map_ok. clear E E1. revert a E2. induction HF as [| x y l k Hxy _ IH]; intros a E2.
  - inversion E2. constructor.
  - inversion E2 as [| ? z ? a' Hx Ha]; subst. constructor; [| by apply IH].
    destruct (String.eqb f "image_ids"); [by eapply jeq_matching | by eapply jeq_device_id].
Qed.

Lemma jeq_object v w ks f rs d :
  jeq v w -> _object v ks f rs = Ok d -> v = VDict d /\ exists e, w = VDict e /\ _object w ks f rs = Ok e /\ jeq_dicts d e.
Proof.
  intros H E. destruct v as [| | | | | | d']; try discriminate E. apply jeq_dict_inv in H as (e & -> & He).
  unfold _object in *. head E as E1. injection E as ->. split; [done |]. exists e. split; [done |]. split; [| done].
  apply andb_true_iff in E1 as [E1 E2]. rewrite forallb_forall in E1. rewrite forallb_forall in E2.
  assert (forallb (fun k => existsb (String.eqb k) ks) (dkeys e) = true) as ->.
  { apply forallb_forall. intros k Hk. apply E1. apply list_elem_of_In. rewrite (jeq_keys _ _ He).
    by apply list_elem_of_In. }
  assert (forallb (fun k => dhas e k) rs = true) as ->; [| done].
  apply forallb_forall. intros k Hk. rewrite <- (jeq_has _ _ _ He). by apply E2.
Qed.

(** Rewrites a check of a field of [e] with the outcome of the check on the related [d]. *)
Ltac port_step :=
  match goal with
  | Hj : jeq (VDict ?d) (VDict ?e), E : _integer (dget_or ?d ?k ?x) ?f ?a ?b = Ok ?z
    |- context [_integer (dget_or ?e ?k ?x) ?f ?a ?b] =>
      rewrite (jeq_integer _ _ _ _ _ _ (jeq_get_or d e k x Hj) E)
  | Hj : jeq (VDict ?d) (VDict ?e), E : _text (dget_or ?d ?k ?x) ?f ?a ?b = Ok ?z
    |- context [_text (dget_or ?e ?k ?x) ?f ?a ?b] =>
      rewrite (jeq_text _ _ _ _ _ _ (jeq_get_or d e k x Hj) E)
  | Hj : jeq (VDict ?d) (VDict ?e), E : _identifier (dget_or ?d ?k ?x) ?f = Ok ?z
    |- context [_identifier (dget_or ?e ?k ?x) ?f] =>
      rewrite (jeq_identifier _ _ _ _ (jeq_get_or d e k x Hj) E)
  | Hj : jeq (VDict ?d) (VDict ?e), E : _hex (dget_or ?d ?k ?x) ?f = Ok ?z
    |- context [_hex (dget_or ?e ?k ?x) ?f] =>
      rewrite (jeq_hex _ _ _ _ (jeq_get_or d e k x Hj) E)
  | Hj : jeq (VDict ?d) (VDict ?e), E : _actor (dget_or ?d ?k ?x) = Ok ?z
    |- context [_actor (dget_or ?e ?k ?x)] =>
      rewrite (jeq_actor _ _ _ (jeq_get_or d e k x Hj) E)
  | Hj : jeq (VDict ?d) (VDict ?e), E : _ids (dget_or ?d ?k ?x) ?f ?n ?b = Ok ?z
    |- context [_ids (dget_or ?e ?k ?x) ?f ?n ?b] =>
      rewrite (jeq_ids _ _ _ _ _ _ (jeq_get_or d e k x Hj) E)
  | Hj : jeq (VDict ?d) (VDict ?e) |- context [is_none (dget_or ?e ?k ?x)] =>
      rewrite (jeq_is_none _ _ (jeq_get_or d e k x Hj))
  | Hj : jeq (VDict ?d) (VDict ?e) |- context [is_bool (dget_or ?e ?k ?x)] =>
      rewrite <- (jeq_is_bool _ _ (jeq_get_or d e k x Hj))
  | Hj : jeq (VDict ?d) (VDict ?e) |- context [is_ratio (dget_or ?e ?k ?x)] =>
      rewrite (jeq_is_ratio _ _ (jeq_get_or d e k x Hj))
  | Hj : jeq (VDict ?d) (VDict ?e) |- context [py_eq (dget_or ?e ?k ?x) (VStr ?s)] =>
      rewrite (jeq_eq_str _ _ s (jeq_get_or d e k x Hj))
  | Hj : jeq (VDict ?d) (VDict ?e) |- context [in_strs (dget_or ?e ?k ?x) ?l] =>
      rewrite <- (jeq_in_strs _ _ l (jeq_get_or d e k x Hj))
  | E : ?b = ?c |- context [if ?b then _ else _] => rewrite E
  end; cbn [mbind res_bind].
Ltac port := repeat port_step.

(** ** Building related dicts *)

Lemma jeq_nil : jeq_dicts [] [].
Proof. apply jeq_refl. Qed.

Lemma jeq_cons k v w d e : jeq v w -> jeq_dicts d e -> jeq_dicts ((k, v) :: d) ((k, w) :: e).
Proof.
  intros Hv Hd. apply jeq_dict; [cbn; by rewrite (jeq_keys _ _ Hd) |]. intros x. cbn.
  destruct (String.eqb k x); [by constructor | by apply jeq_get].
Qed.

Lemma jeq_app d d' e e' : jeq_dicts d e -> jeq_dicts d' e' -> jeq_dicts (d ++ d') (e ++ e').
Proof.
  intros H H'. apply jeq_dict; [unfold dkeys; rewrite !map_app; by rewrite (jeq_keys _ _ H), (jeq_keys _ _ H') |].
  intros k. assert (Ha : forall a b : dict, dget (a ++ b) k = match dget a k with Some v => Some v | None => dget b k end).
  { induction a as [| [x v] a IH]; intros b; cbn; [done |]. by destruct (String.eqb x k). }
  rewrite !Ha. pose proof (jeq_get _ _ k H) as Hk. inversion Hk; [by constructor | by apply jeq_get].
Qed.

Lemma jeq_dset d e k v w : jeq_dicts d e -> jeq v w -> jeq_dicts (dset d k v) (dset e k w).
Proof.
  intros Hd Hv.
  assert (Hk : forall a : dict, forall x : pyval, dkeys (dset a k x) = if dhas a k then dkeys a else dkeys a ++ [k]).
  { intros a x. unfold dkeys. induction a as [| [y u] a IH]; [done |]. cbn. unfold dhas in *. cbn.
    destruct (String.eqb_spec y k) as [-> | ?]; [done |]. cbn. rewrite IH. by destruct (dget a k). }
  apply jeq_dict.
  - rewrite !Hk, (jeq_has _ _ _ Hd). destruct (dhas e k); by rewrite (jeq_keys _ _ Hd).
  - intros x. rewrite !dget_dset. destruct (String.eqb k x); [by constructor | by apply jeq_get].
Qed.

Lemma jeq_dsetdefault d e k v : jeq_dicts d e -> jeq_dicts (dsetdefault d k v) (dsetdefault e k v).
Proof.
  intros H. unfold dsetdefault. rewrite (jeq_has _ _ _ H). destruct (dhas e k); [done |].
  apply jeq_dset; [done | apply jeq_refl].
Qed.

(** Relates two dicts given item by item. *)
Ltac jeq_tac :=
  cbn [app]; repeat first [assumption | apply jeq_get_or; assumption | apply jeq_refl | apply jeq_cons].

#[export] Hint Resolve jeq_refl jeq_cons jeq_app jeq_nil jeq_get_or : py.

Lemma wf_field d k : wf_val (VDict d) -> wf_val (dget_or d k VNone).
Proof. intros H. by apply wf_dget_or. Qed.

(** ** The normalisers across [jeq] *)

(** A normaliser that gives related results on related inputs. *)
Definition respects (f : pyval -> res dict) : Prop :=
  forall v w n, jeq v w -> wf_val v -> wf_val w -> f v = Ok n -> exists n', f w = Ok n' /\ jeq_dicts n n'.

Lemma normalize_snapshot_respects : respects normalize_snapshot.
Proof.
  intros v w n H Hv Hw E. unfold normalize_snapshot in *. head E as E1.
  destruct (jeq_object _ _ _ _ _ _ H E1) as (-> & e & -> & -> & He). cbn [mbind res_bind] in *.
  head E as E2. head E as E3. head E as E4. port.
  destruct (dget a "registration_ids") as [b |] eqn:Eb.
  - destruct (jeq_get_Some _ _ _ _ He Eb) as (b' & Eb' & Hb). rewrite Eb'.
    destruct b as [| | | | | | bs]; try discriminate E. apply jeq_dict_inv in Hb as (bs' & -> & Hbs).
    head E as E5. head E as E6. injection E as <-.
    assert (Hnd : NoDup (dkeys bs')) by (pose proof (wf_dget _ _ _ Hw Eb') as Hwf; by apply wf_dict in Hwf as [? _]).
    assert (forallb (fun k => existsb (String.eqb k) a0) (dkeys bs') && forallb (fun k => dhas bs' k) a0 = true) as ->.
    { apply negb_false_iff, andb_true_iff in E5 as [F1 F2]. rewrite forallb_forall in F1, F2. apply andb_true_iff. split.
      - apply forallb_forall. intros k Hk. apply F1. apply list_elem_of_In. rewrite (jeq_keys _ _ Hbs). by apply list_elem_of_In.
      - apply forallb_forall. intros k Hk. rewrite <- (jeq_has _ _ _ Hbs). by apply F2. }
    cbn [negb]. assert (res_iter check_binding bs' = Ok tt) as ->.
    { units. eapply jeq_iter; [exact Hbs | done | | exact E6]. intros k x y _ _ Hxy Hx. unfold check_binding in *.
      cbn [fst snd] in *. head Hx as E7. cbn [mbind res_bind]. inversion Hxy; subst; [done | done | done]. }
    cbn [mbind res_bind]. eexists. split; [done |]. cbn [app]. do 3 (apply jeq_cons; [apply jeq_refl |]).
    apply jeq_cons; [| apply jeq_nil]. clear -Hbs. induction a0 as [| k a0 IH]; cbn; auto with py.
  - rewrite (jeq_get_None _ _ _ He Eb). injection E as <-. eexists. split; [done |]. apply jeq_refl.
Qed.

Lemma normalize_target_respects : respects normalize_target.
Proof.
  intros v w n H Hv Hw E. unfold normalize_target in *. head E as E1.
  destruct (jeq_object _ _ _ _ _ _ H E1) as (-> & e & -> & -> & He). cbn [mbind res_bind] in *.
  head E as E2. destruct (jeq_object _ _ _ _ _ _ (jeq_get_or _ _ "filters" (VDict []) He) E2) as (Ef & fs & Ef' & -> & Hfs).
  cbn [mbind res_bind]. head E as E3. head E as E4. head E as E5. injection E as <-.
  assert (Hnd : NoDup (dkeys fs)).
  { assert (wf_val (dget_or e "filters" (VDict []))) as Hwf by auto with py. rewrite Ef' in Hwf. by apply wf_dict in Hwf as [? _]. }
  assert (res_iter check_filter fs = Ok tt) as ->.
  { units. eapply jeq_iter; [exact Hfs | done | | exact E3]. intros k x y _ _ Hxy Hx. unfold check_filter in *.
    cbn [fst snd] in *. head Hx as E6. by rewrite (jeq_text _ _ _ _ _ _ Hxy E6). }
  cbn [mbind res_bind]. port. eexists. split; [done |]. jeq_tac.
Qed.

Lemma normalize_payload_respects kind : respects (normalize_payload kind).
Proof.
  intros v w n H Hv Hw E. unfold normalize_payload in *. destruct (String.eqb kind "assign"); head E as E1.
  - destruct (jeq_object _ _ _ _ _ _ H E1) as (-> & e & -> & -> & He). cbn [mbind res_bind] in *.
    head E as E2. head E as E3. injection E as <-. port. eexists. split; [done |]. jeq_tac.
  - destruct (jeq_object _ _ _ _ _ _ H E1) as (-> & e & -> & -> & He). cbn [mbind res_bind] in *.
    head E as E2. head E as E3. injection E as <-. port. eexists. split; [done |]. jeq_tac.
Qed.

Lemma normalize_wave_respects : respects normalize_wave.
Proof.
  intros v w n H Hv Hw E. unfold normalize_wave in *. head E as E1.
  destruct (jeq_object _ _ _ _ _ _ H E1) as (-> & e & -> & -> & He). cbn [mbind res_bind] in *.
  head E as E2. head E as E3. head E as E4. head E as E5. head E as E6. head E as E7. head E as E8.
  head E as E9. head E as E10. head E as E11. head E as E12. head E as E13. injection E as <-. units. port.
  assert (Hoc : (if is_none (dget_or a "occurrence_id" VNone) then Ok tt
    else let* _ := _hex (dget_or e "occurrence_id" VNone) "preceding occurrence id" in Ok tt) = Ok tt).
  { destruct (is_none (dget_or a "occurrence_id" VNone)); [done |]. head E3 as E14. port. done. }
  rewrite Hoc. cbn [mbind res_bind]. port.
  assert (in_set (dget_or e "gate" VNone) WAVE_GATES = Ok a6) as ->.
  { rewrite <- E10. f_equal. symmetry. apply jeq_hashable; [by apply jeq_get_or |].
    unfold in_set in E10. by destruct (hashable (dget_or a "gate" VNone)). }
  cbn [mbind res_bind]. port. eexists. split; [done |]. jeq_tac.
Qed.

Lemma normalize_after_respects : respects normalize_after.
Proof.
  intros v w n H Hv Hw E. unfold normalize_after in *. head E as E1.
  destruct (jeq_object _ _ _ _ _ _ H E1) as (-> & e & -> & -> & He). cbn [mbind res_bind] in *.
  head E as E2. head E as E3. head E as E4. head E as E5. injection E as <-. port. eauto.
Qed.

Lemma jeq_py_eq_r v c c' : jeq c c' -> py_eq v c = true -> py_eq v c' = true.
Proof.
  revert c c'. induction v as [v Hv | l Hl | d Hd] using pyval_strong_ind; intros c c' H E.
  - destruct c as [| | | | | l | e]; try (by inversion H; subst); by destruct v.
  - destruct c as [| | | | | k |]; try discriminate E. apply jeq_list_inv in H as (k' & -> & HF).
    revert l Hl E. induction HF as [| x y k k' Hxy _ IH]; intros l Hl E; [done |].
    destruct l as [| z l]; [done |]. cbn in E |- *. apply Forall_cons in Hl as [Hz Hl].
    apply andb_true_iff in E as [E1 E2]. rewrite (Hz _ _ Hxy E1). exact (IH l Hl E2).
  - destruct c as [| | | | | | e]; try discriminate E. apply jeq_dict_inv in H as (e' & -> & He).
    apply py_eq_dict_iff in E as [Hlen HF]. apply py_eq_dict_iff. split.
    + pose proof (jeq_zlen _ _ He) as Hz. unfold zlen in Hz. lia.
    + rewrite Forall_forall in Hd, HF |- *. intros kv Hkv. destruct (HF kv Hkv) as (w & Hw & Heq).
      destruct (jeq_get_Some _ _ _ _ He Hw) as (w' & Hw' & Hj). exists w'. split; [done |]. by eapply Hd.
Qed.

(** Builds [wf_val] of a dict given item by item. *)
Ltac wf_tac :=
  cbn [app]; apply wf_dict; split; [by_eval | repeat (apply Forall_cons; split; [cbn [snd] |]); try apply Forall_nil_2; try done].

Lemma wf_id_list ids : wf_val (strs ids).
Proof. apply wf_list, Forall_map, Forall_forall. done. Qed.

Lemma normalize_target_wf v n : wf_val v -> normalize_target v = Ok n -> wf_val (VDict n).
Proof.
  intros Hv E. unfold normalize_target in E. head E as E1. destruct v; try discriminate E1.
  unfold _object in E1. head E1 as Eo. injection E1 as <-.
  head E as E2. head E as E3. head E as E4. head E as E5. injection E as <-.
  assert (Hf : wf_val (dget_or d "filters" (VDict []))) by auto with py.
  assert (Hb : wf_val (dget_or d "bind" (VStr "late"))) by (by apply wf_dget_or).
  destruct (dget_or d "filters" (VDict [])) as [| | | | | | fs]; try discriminate E2. unfold _object in E2. head E2 as Eo2.
  injection E2 as <-. wf_tac. apply wf_id_list.
Qed.

Lemma normalize_payload_wf kind v n : wf_val v -> normalize_payload kind v = Ok n -> wf_val (VDict n).
Proof.
  intros Hv E. unfold normalize_payload in E. destruct (String.eqb kind "assign"); head E as E1; destruct v; try discriminate E1;
    unfold _object in E1; head E1 as Eo; injection E1 as <-; head E as E2; head E as E3; injection E as <-.
  - assert (wf_val (dget_or d "mode" (VStr "merge"))) by (by apply wf_dget_or). wf_tac. apply wf_id_list.
  - assert (wf_val (dget_or d "mode" (VStr "new-only"))) by (by apply wf_dget_or).
    assert (wf_val (dget_or d "telemetry" (VBool true))) by (by apply wf_dget_or).
    assert (wf_val (dget_or d "telemetry_stream" (VBool false))) by (by apply wf_dget_or). wf_tac.
Qed.

(** ** Values a JSON parser returns *)

(** Distinct keys and finite numbers. *)
Definition good (v : pyval) : Prop := wf_val v /\ finite_val v = true.

Lemma finite_dict_iff d : finite_val (VDict d) = true <-> Forall (fun kv => finite_val (snd kv) = true) d.
Proof. rewrite finite_dict, forallb_forall, Forall_forall. split; intros H x Hx; apply H; by apply list_elem_of_In. Qed.

Lemma good_dict d : good (VDict d) <-> NoDup (dkeys d) /\ Forall (fun kv => good (snd kv)) d.
Proof.
  unfold good. rewrite wf_dict, finite_dict_iff. rewrite !Forall_forall. split.
  - intros [[? H1] H2]. split; [done |]. intros x Hx. split; [by apply H1 | by apply H2].
  - intros [? H]. split; [split; [done |] |]; intros x Hx; by apply H.
Qed.

Lemma good_list l : good (VList l) <-> Forall good l.
Proof.
  unfold good. rewrite wf_list, finite_list, forallb_forall, !Forall_forall. split.
  - intros [H1 H2] x Hx. split; [by apply H1 | by apply H2, list_elem_of_In].
  - intros H. split; intros x Hx; apply H; [done | by apply list_elem_of_In].
Qed.

Lemma good_dget d k v : good (VDict d) -> dget d k = Some v -> good v.
Proof. intros [_ H]%good_dict Hk%dget_elem. rewrite Forall_forall in H. exact (H _ Hk). Qed.

Lemma good_dget_or d k x : good (VDict d) -> good x -> good (dget_or d k x).
Proof. intros Hd Hx. unfold dget_or. destruct (dget d k) eqn:E; cbn; [exact (good_dget _ _ _ Hd E) | done]. Qed.

Lemma good_none : good VNone. Proof. done. Qed.
Lemma good_int z : good (VInt z). Proof. done. Qed.
Lemma good_str s : good (VStr s). Proof. done. Qed.
Lemma good_bool b : good (VBool b). Proof. done. Qed.
Lemma good_empty : good (VDict []). Proof. apply good_dict. split; constructor. Qed.
Lemma good_strs ids : good (strs ids).
Proof.
  split; [apply wf_id_list |]. unfold strs. rewrite finite_list. apply forallb_forall. intros x Hx%list_elem_of_In.
  by apply list_elem_of_fmap in Hx as (y & -> & _).
Qed.

Lemma good_dset d k v : good (VDict d) -> good v -> good (VDict (dset d k v)).
Proof. rewrite !good_dict. intros [Hn Hd] Hv. split; [by apply NoDup_dset | by apply Forall_dset]. Qed.

Lemma good_dpop d k : good (VDict d) -> good (VDict (dpop d k)).
Proof. rewrite !good_dict. intros [Hn Hd]. split; [by apply NoDup_dpop | by apply Forall_dpop]. Qed.

Lemma good_dupdate d e : good (VDict d) -> good (VDict e) -> good (VDict (dupdate d e)).
Proof.
  intros Hd [_ He]%good_dict. unfold dupdate. revert d Hd. induction He as [| [k v] e Hv _ IH]; intros d Hd; cbn; [done |].
  apply IH. by apply good_dset.
Qed.

Lemma good_foldl_dpop ks d : good (VDict d) -> good (VDict (foldl dpop d ks)).
Proof. revert d. induction ks as [| k ks IH]; intros d Hd; cbn; [done |]. by apply IH, good_dpop. Qed.

Lemma good_dict_or_empty v : good v -> good (VDict (dict_or_empty v)).
Proof. destruct v; cbn; try (intros _; apply good_empty). done. Qed.

#[export] Hint Resolve good_dget_or good_none good_int good_str good_bool good_empty good_strs good_dset good_dpop
  good_dupdate good_foldl_dpop good_dict_or_empty : py.

Lemma good_sort_keys v : good v -> good (sort_keys v).
Proof. intros [? ?]. split; [by apply wf_sort_keys | by apply finite_sort_keys]. Qed.

(** Builds [good] of a dict given item by item. *)
Ltac good_tac :=
  cbn [app]; apply good_dict; split; [by_eval |];
  repeat (apply Forall_cons; split; [cbn [snd]; auto with py |]); try apply Forall_nil_2.

Lemma object_inv v ks f rs d : _object v ks f rs = Ok d ->
  v = VDict d /\ (forall k, k ∈ dkeys d -> k ∈ ks) /\ (forall k, k ∈ rs -> is_Some (dget d k)).
Proof.
  intros E. destruct v; try discriminate E. unfold _object in E. head E as E1. injection E as ->. split; [done |].
  apply andb_true_iff in E1 as [E1 E2]. rewrite forallb_forall in E1. rewrite forallb_forall in E2. split.
  - intros k Hk%list_elem_of_In. apply E1 in Hk. apply existsb_exists in Hk as (x & Hx & ->%String.eqb_eq). by apply list_elem_of_In.
  - intros k Hk%list_elem_of_In. apply E2 in Hk. unfold dhas in Hk. destruct (dget d k); [by eexists | done].
Qed.

Lemma nodup_strs_NoDup l : nodup_strs l = true -> NoDup l.
Proof.
  induction l as [| x l IH]; cbn; [constructor |]. intros H. bool_norm. apply NoDup_cons. split; [| by apply IH].
  intros Hin. apply list_elem_of_In in Hin. assert (existsb (String.eqb x) l = true); [| congruence].
  apply existsb_exists. exists x. split; [done | apply String.eqb_refl].
Qed.

Lemma ids_NoDup v f n b ids : _ids v f n b = Ok ids -> NoDup ids.
Proof.
  intros E. destruct v; try discriminate E. unfold _ids in E. head E as E1. head E as E2. head E as E3. injection E as ->.
  apply nodup_strs_NoDup. by apply negb_false_iff.
Qed.

Lemma normalize_snapshot_good v n : good v -> normalize_snapshot v = Ok n -> good (VDict n).
Proof.
  intros Hv E. unfold normalize_snapshot in E. head E as E1. apply object_inv in E1 as [-> _].
  head E as E2. head E as E3. head E as E4.
  destruct (dget a "registration_ids") as [b |] eqn:Eb; [| injection E as <-; good_tac].
  destruct b as [| | | | | | bs]; try discriminate E. head E as E5. head E as E6. injection E as <-.
  pose proof (good_dget _ _ _ Hv Eb) as Hb. good_tac. apply good_dict. split.
  - unfold dkeys. rewrite map_map. cbn [fst]. rewrite map_id. by eapply ids_NoDup.
  - apply Forall_map, Forall_forall. intros k _. cbn. auto with py.
Qed.

Lemma normalize_wave_good v n : good v -> normalize_wave v = Ok n -> good (VDict n).
Proof.
  intros Hv E. unfold normalize_wave in E. head E as E1. apply object_inv in E1 as [-> _].
  head E as E2. head E as E3. head E as E4. head E as E5. head E as E6. head E as E7. head E as E8.
  head E as E9. head E as E10. head E as E11. head E as E12. head E as E13. injection E as <-. good_tac.
Qed.

Lemma normalize_target_good v n : good v -> normalize_target v = Ok n -> good (VDict n).
Proof.
  intros Hv E. unfold normalize_target in E. head E as E1. apply object_inv in E1 as [-> _].
  head E as E2. head E as E3. head E as E4. head E as E5. injection E as <-. apply object_inv in E2 as [Ef _].
  assert (Hf : good (VDict a0)) by (rewrite <- Ef; auto with py). good_tac.
Qed.

Lemma normalize_payload_good kind v n : good v -> normalize_payload kind v = Ok n -> good (VDict n).
Proof.
  intros Hv E. unfold normalize_payload in E. destruct (String.eqb kind "assign"); head E as E1;
    apply object_inv in E1 as [-> _]; head E as E2; head E as E3; injection E as <-; good_tac.
Qed.

Section schedules.
Context (zoneinfo : string -> res unit).

Lemma normalize_when_respects : respects (normalize_when zoneinfo).
Proof.
  intros v w n H Hv Hw E. unfold normalize_when in *. head E as E1.
  destruct (jeq_object _ _ _ _ _ _ H E1) as (-> & e & -> & -> & He). cbn [mbind res_bind] in *.
  apply (jeq_dsetdefault _ _ "tz" (VStr "UTC")) in He. revert E He.
  generalize (dsetdefault a "tz" (VStr "UTC")), (dsetdefault e "tz" (VStr "UTC")). intros d e' E He.
  head E as E2. head E as E3. head E as E4. port. units. rewrite E3. cbn [mbind res_bind]. port.
  destruct (py_eq (dget_or d "kind" VNone) (VStr "once")).
  - head E as E5. destruct (jeq_object _ _ _ _ _ _ He E5) as (_ & e1 & [= <-] & -> & _). cbn [mbind res_bind].
    head E as E6. injection E as <-. port. eauto.
  - destruct (py_eq (dget_or d "kind" VNone) (VStr "recurring")); [| done].
    head E as E5. destruct (jeq_object _ _ _ _ _ _ He E5) as (_ & e1 & [= <-] & -> & _). cbn [mbind res_bind].
    head E as E6. head E as E7. head E as E8. injection E as <-. port. eauto.
Qed.

Lemma normalize_definition_respects : respects (normalize_definition zoneinfo).
Proof.
  intros v w n H Hv Hw E. unfold normalize_definition in *. head E as E1.
  destruct (jeq_object _ _ _ _ _ _ H E1) as (-> & e & -> & -> & He). cbn [mbind res_bind] in *.
  destruct (dget_or a "kind" VNone) as [| | | | kind | |] eqn:Ek; try discriminate E.
  pose proof (jeq_get_or _ _ "kind" VNone He) as Hk. rewrite Ek in Hk. apply jeq_str in Hk. rewrite Hk.
  head E as E2. head E as E3. head E as E4. head E as E5. head E as E6. port.
  destruct (normalize_target_respects _ _ _ (jeq_get_or _ _ "target" VNone He) (wf_field _ _ Hv) (wf_field _ _ Hw) E4)
    as (t & -> & Ht). cbn [mbind res_bind].
  destruct (normalize_payload_respects kind _ _ _ (jeq_get_or _ _ "payload" VNone He) (wf_field _ _ Hv) (wf_field _ _ Hw) E5)
    as (p & -> & Hp). cbn [mbind res_bind].
  destruct (normalize_when_respects _ _ _ (jeq_get_or _ _ "when" VNone He) (wf_field _ _ Hv) (wf_field _ _ Hw) E6)
    as (wn & -> & Hwn). cbn [mbind res_bind].
  destruct (dget a "after") as [af |] eqn:Ea.
  - destruct (jeq_get_Some _ _ _ _ He Ea) as (af' & Ea' & Haf). rewrite Ea'. head E as E7. injection E as <-.
    destruct (normalize_after_respects _ _ _ Haf (wf_dget _ _ _ Hv Ea) (wf_dget _ _ _ Hw Ea') E7) as (n' & -> & Hn').
    cbn [mbind res_bind]. eexists. split; [done |]. jeq_tac.
  - rewrite (jeq_get_None _ _ _ He Ea). injection E as <-. eexists. split; [done |]. jeq_tac.
Qed.

(** ** Stored rows *)

Lemma definition_of_jeq d e : jeq_dicts d e -> jeq_dicts (definition_of d) (definition_of e).
Proof.
  intros H. unfold definition_of. generalize DEFINITION_KEYS. intros ks.
  induction ks as [| k ks IH]; cbn; [apply jeq_nil |]. pose proof (jeq_get _ _ k H) as Hk.
  inversion Hk; cbn; [by apply jeq_cons | done].
Qed.

Lemma dget_definition_of d k : dget (definition_of d) k = if existsb (String.eqb k) DEFINITION_KEYS then dget d k else None.
Proof.
  unfold definition_of. generalize DEFINITION_KEYS. intros ks. induction ks as [| x ks IH]; [done |]. cbn.
  rewrite (String.eqb_sym k x). destruct (dget d x) as [v |] eqn:E; cbn.
  - destruct (String.eqb_spec x k) as [<- | ?]; [done | exact IH].
  - destruct (String.eqb_spec x k) as [<- | ?]; cbn; [| exact IH]. rewrite E.
    etrans; [exact IH |]. by destruct (existsb _ ks).
Qed.

Lemma definition_of_NoDup d : NoDup (dkeys (definition_of d)).
Proof.
  unfold definition_of. assert (Hn : NoDup DEFINITION_KEYS) by by_eval. revert Hn. generalize DEFINITION_KEYS. intros ks.
  induction 1 as [| x ks Hx _ IH]; cbn; [constructor |]. destruct (dget d x); cbn; [| done].
  apply NoDup_cons. split; [| done]. intros Hin. apply Hx. clear -Hin.
  induction ks as [| y ks IH]; cbn in *; [by apply not_elem_of_nil in Hin |].
  destruct (dget d y); cbn in *; [apply elem_of_cons in Hin as [-> | Hin]; [by left | right; by apply IH] | right; by apply IH].
Qed.

Lemma definition_of_wf d : wf_val (VDict d) -> wf_val (VDict (definition_of d)).
Proof.
  intros H. apply wf_dict. split; [apply definition_of_NoDup |]. apply Forall_forall. intros [k v] Hin.
  apply dget_Some in Hin; [| apply definition_of_NoDup]. rewrite dget_definition_of in Hin.
  destruct (existsb _ _); [| done]. exact (wf_dget _ _ _ H Hin).
Qed.

Lemma normalize_when_wf v n : wf_val v -> normalize_when zoneinfo v = Ok n -> wf_val (VDict n).
Proof.
  intros Hv E. unfold normalize_when in E. head E as E1. destruct v; try discriminate E1.
  unfold _object in E1. head E1 as Eo. injection E1 as <-.
  assert (Hd : wf_val (VDict (dsetdefault d "tz" (VStr "UTC")))) by (by apply wf_dsetdefault).
  revert E Hd. generalize (dsetdefault d "tz" (VStr "UTC")). intros d' E Hd.
  head E as E2. head E as E3. head E as E4.
  destruct (py_eq (dget_or d' "kind" VNone) (VStr "once")); [| destruct (py_eq (dget_or d' "kind" VNone) (VStr "recurring")); [| done]].
  - head E as E5. head E as E6. by injection E as <-.
  - head E as E5. head E as E6. head E as E7. head E as E8. by injection E as <-.
Qed.

Lemma normalize_definition_wf v n : wf_val v -> normalize_definition zoneinfo v = Ok n -> wf_val (VDict n).
Proof.
  intros Hv E. unfold normalize_definition in E. head E as E1. destruct v; try discriminate E1.
  unfold _object in E1. head E1 as Eo. injection E1 as <-.
  destruct (dget_or d "kind" VNone) as [| | | | kind | |]; try discriminate E.
  head E as E2. head E as E3. head E as E4. head E as E5. head E as E6.
  apply normalize_target_wf in E4; [| by apply wf_field]. apply normalize_payload_wf in E5; [| by apply wf_field].
  apply normalize_when_wf in E6; [| by apply wf_field].
  assert (Hs : wf_val (dget_or d "state" (VStr "pending"))) by (by apply wf_dget_or).
  destruct (dget d "after") as [af |] eqn:Ea; [head E as E7 |]; injection E as <-; [| wf_tac].
  assert (Haf : wf_val (VDict a2)).
  { pose proof (wf_dget _ _ _ Hv Ea) as Hw. unfold normalize_after in E7. head E7 as E8. destruct af; try discriminate E8.
    unfold _object in E8. head E8 as Eo8. injection E8 as <-. head E7 as E9. head E7 as E10. head E7 as E11. head E7 as E12.
    by injection E7 as <-. }
  wf_tac.
Qed.

Lemma validate_schedule_jeq (id v w : pyval) :
  jeq v w -> wf_val v -> wf_val w -> validate_schedule zoneinfo id v = Ok tt -> validate_schedule zoneinfo id w = Ok tt.
Proof.
  intros H Hv Hw E. unfold validate_schedule in *. head E as E1.
  destruct (jeq_object _ _ _ _ _ _ H E1) as (-> & e & -> & -> & He). cbn [mbind res_bind] in *.
  head E as E2. head E as E3. head E as E4. head E as E5. head E as E6. head E as E7. head E as E8. head E as E9.
  head E as E10. head E as E11. port.
  destruct (normalize_snapshot_respects _ _ _ (jeq_get_or _ _ "preview" VNone He) (wf_field _ _ Hv) (wf_field _ _ Hw) E8)
    as (sn & -> & _). cbn [mbind res_bind].
  pose proof (definition_of_jeq _ _ He) as Hde.
  destruct (normalize_definition_respects _ _ _ Hde (definition_of_wf _ Hv) (definition_of_wf _ Hw) E9) as (n' & Hn' & Hnn).
  rewrite Hn'. cbn [mbind res_bind]. apply negb_false_iff in E10.
  assert (py_eq (VDict n') (VDict (definition_of e)) = true) as ->.
  { eapply jeq_py_eq_r; [exact Hde |]. eapply jeq_py_eq; [exact Hnn | | | exact E10].
    - eapply normalize_definition_wf; [| exact E9]. by apply definition_of_wf.
    - eapply normalize_definition_wf; [| exact Hn']. by apply definition_of_wf. }
  cbn [negb]. pose proof (jeq_dict_or_empty _ _ (jeq_get_or _ _ "after" (VDict []) He)) as Ha. port. done.
Qed.

Lemma validate_schedule_sorted id v :
  wf_val v -> validate_schedule zoneinfo id v = Ok tt -> validate_schedule zoneinfo id (sort_keys v) = Ok tt.
Proof. intros Hv. apply validate_schedule_jeq; [by apply jeq_sort_keys | done | by apply wf_sort_keys]. Qed.

Lemma normalize_when_good v n : good v -> normalize_when zoneinfo v = Ok n -> good (VDict n).
Proof.
  intros Hv E. unfold normalize_when in E. head E as E1. apply object_inv in E1 as [-> _].
  assert (Hd : good (VDict (dsetdefault a "tz" (VStr "UTC")))) by (unfold dsetdefault; destruct (dhas a "tz"); auto with py).
  revert E Hd. generalize (dsetdefault a "tz" (VStr "UTC")). intros d' E Hd.
  head E as E2. head E as E3. head E as E4.
  destruct (py_eq (dget_or d' "kind" VNone) (VStr "once")); [| destruct (py_eq (dget_or d' "kind" VNone) (VStr "recurring")); [| done]].
  - head E as E5. head E as E6. by injection E as <-.
  - head E as E5. head E as E6. head E as E7. head E as E8. by injection E as <-.
Qed.

Lemma normalize_definition_good v n : good v -> normalize_definition zoneinfo v = Ok n -> good (VDict n).
Proof.
  intros Hv E. unfold normalize_definition in E. head E as E1. apply object_inv in E1 as [-> _].
  destruct (dget_or a "kind" VNone) as [| | | | kind | |]; try discriminate E.
  head E as E2. head E as E3. head E as E4. head E as E5. head E as E6.
  apply normalize_target_good in E4; [| auto with py]. apply normalize_payload_good in E5; [| auto with py].
  apply normalize_when_good in E6; [| auto with py].
  destruct (dget a "after") as [af |] eqn:Ea; [head E as E7 |]; injection E as <-; [| good_tac].
  assert (Haf : good (VDict a3)).
  { pose proof (good_dget _ _ _ Hv Ea) as Hw. unfold normalize_after in E7. head E7 as E8. apply object_inv in E8 as [-> _].
    head E7 as E9. head E7 as E10. head E7 as E11. head E7 as E12. by injection E7 as <-. }
  good_tac.
Qed.

Lemma definition_of_good d : good (VDict d) -> good (VDict (definition_of d)).
Proof.
  intros H. apply good_dict. split; [apply definition_of_NoDup |]. apply Forall_forall. intros [k v] Hin.
  apply dget_Some in Hin; [| apply definition_of_NoDup]. rewrite dget_definition_of in Hin.
  destruct (existsb _ _); [| done]. exact (good_dget _ _ _ H Hin).
Qed.

(** ** Normal forms *)

Lemma strs_of_ids v f n b ids : _ids v f n b = Ok ids -> v = strs ids.
Proof.
  intros E. destruct v as [| | | | | l |]; try discriminate E. unfold _ids in E. head E as E1. head E as E2. head E as E3.
  injection E as ->. unfold strs. f_equal. apply res_map_ok in E2. clear -E2.
  induction E2 as [| x y l ids Hxy _ IH]; [done |]. cbn. f_equal; [| done].
  destruct (String.eqb f "image_ids").
  - destruct x; try discriminate Hxy. cbn in Hxy. destruct (_IMAGE_ID_RE s); [congruence | done].
  - unfold _device_id, _identifier in Hxy. destruct x; try discriminate Hxy. cbn in Hxy. destruct (_ID_RE s); [| done].
    cbn in Hxy. destruct (String.eqb s "seeder"); [done | congruence].
Qed.

Lemma ids_strs v f n b ids : _ids v f n b = Ok ids -> _ids (strs ids) f n b = Ok ids.
Proof. intros E. by rewrite <- (strs_of_ids _ _ _ _ _ E). Qed.

Lemma object_dict v ks f rs d : _object v ks f rs = Ok d -> v = VDict d.
Proof. intros E. destruct v; try discriminate E. unfold _object in E. head E as E1. congruence. Qed.

Lemma object_weaken d ks ks' f f' rs rs' :
  _object (VDict d) ks f rs = Ok d -> forallb (fun k => existsb (String.eqb k) ks') ks = true ->
  forallb (fun k => dhas d k) rs' = true -> _object (VDict d) ks' f' rs' = Ok d.
Proof.
  unfold _object. intros E Hks Hrs. head E as E1. apply andb_true_iff in E1 as [E1 _]. rewrite Hrs.
  assert (forallb (fun k => existsb (String.eqb k) ks') (dkeys d) = true) as ->; [| done].
  rewrite forallb_forall in E1, Hks |- *. intros k Hk. specialize (E1 k Hk).
  apply existsb_exists in E1 as (x & Hx & ->%String.eqb_eq). by apply Hks.
Qed.

Lemma normalize_target_idem v n : normalize_target v = Ok n -> normalize_target (VDict n) = Ok n.
Proof.
  unfold normalize_target. intros E. head E as E1. head E as E2. head E as E3. head E as E4. head E as E5.
  injection E as <-. units. cbn [_object dkeys map fst forallb existsb String.eqb Ascii.eqb Bool.eqb orb andb mbind res_bind].
  apply object_dict in E2 as Ef. rewrite Ef in E2.
  unfold dget_or. cbn [dget String.eqb Ascii.eqb Bool.eqb from_option id default]. fold (dget_or a "bind" (VStr "late")).
  rewrite E2. cbn [mbind res_bind]. rewrite E3. cbn [mbind res_bind]. rewrite E4.
  by rewrite (ids_strs _ _ _ _ _ E5).
Qed.

Lemma normalize_payload_idem kind v n : normalize_payload kind v = Ok n -> normalize_payload kind (VDict n) = Ok n.
Proof.
  unfold normalize_payload. intros E. destruct (String.eqb kind "assign"); head E as E1; head E as E2; head E as E3; injection E as <-.
  - cbn [_object dkeys map fst forallb existsb String.eqb Ascii.eqb Bool.eqb orb andb mbind res_bind].
    change (dhas _ "image_ids") with true. cbn [andb mbind res_bind].
    unfold dget_or in *. cbn [dget String.eqb Ascii.eqb Bool.eqb from_option id default].
    rewrite E2. by rewrite (ids_strs _ _ _ _ _ E3).
  - assert (Hi : _integer (VInt a0) "max_devices" 1 MAX_TARGETS = Ok a0).
    { destruct (dget_or a "max_devices" VNone); try discriminate E3. pose proof E3 as E4. unfold _integer in E4. head E4 as E5.
      injection E4 as ->. done. }
    cbn [_object dkeys map fst forallb existsb String.eqb Ascii.eqb Bool.eqb orb andb mbind res_bind].
    change (dhas _ "max_devices") with true. cbn [andb mbind res_bind].
    unfold dget_or in *. cbn [dget String.eqb Ascii.eqb Bool.eqb from_option id default].
    rewrite E2. by rewrite Hi.
Qed.

Lemma normalize_after_idem v n : normalize_after v = Ok n -> normalize_after (VDict n) = Ok n.
Proof.
  unfold normalize_after. intros E. head E as E1. apply object_dict in E1 as Ev. subst v.
  head E as E2. head E as E3. head E as E4. head E as E5. injection E as <-.
  rewrite E1. cbn [mbind res_bind]. rewrite E2. cbn [mbind res_bind]. by rewrite E3, E4, E5.
Qed.

Lemma normalize_when_idem v n : normalize_when zoneinfo v = Ok n -> normalize_when zoneinfo (VDict n) = Ok n.
Proof.
  unfold normalize_when. intros E. head E as E1.
  assert (Hreq : dhas (dsetdefault a "tz" (VStr "UTC")) "kind" = true /\
    dhas (dsetdefault a "tz" (VStr "UTC")) "window_seconds" = true).
  { apply object_dict in E1 as Ev. subst v. unfold _object in E1. head E1 as E2. clear E1. apply andb_true_iff in E2 as [_ E2].
    cbn in E2. bool_norm. unfold dhas in *. rewrite !dget_dsetdefault. by cbn. }
  assert (Htz : dhas (dsetdefault a "tz" (VStr "UTC")) "tz" = true).
  { unfold dhas. by rewrite dget_dsetdefault. }
  revert E Hreq Htz. generalize (dsetdefault a "tz" (VStr "UTC")). intros d E [Hk Hw] Htz.
  assert (n = d /\ _object (VDict d) ["kind"; "at"; "weekday"; "hour"; "minute"; "tz"; "window_seconds"] "when"
    ["kind"; "window_seconds"] = Ok d) as [-> Ho].
  { head E as E2. head E as E3. head E as E4.
    destruct (py_eq (dget_or d "kind" VNone) (VStr "once")); [| destruct (py_eq (dget_or d "kind" VNone) (VStr "recurring")); [| done]].
    - head E as E5. head E as E6. injection E as <-. split; [done |].
      apply object_dict in E5 as Ed. injection Ed as <-. eapply object_weaken; [exact E5 | done |]. cbn. by rewrite Hk, Hw.
    - head E as E5. head E as E6. head E as E7. head E as E8. injection E as <-. split; [done |].
      apply object_dict in E5 as Ed. injection Ed as <-. eapply object_weaken; [exact E5 | done |]. cbn. by rewrite Hk, Hw. }
  assert (dsetdefault d "tz" (VStr "UTC") = d) as Hd by (unfold dsetdefault; by rewrite Htz).
  rewrite Ho. cbn [mbind res_bind]. rewrite Hd. exact E.
Qed.

Lemma normalize_definition_idem v n :
  normalize_definition zoneinfo v = Ok n -> normalize_definition zoneinfo (VDict n) = Ok n.
Proof.
  unfold normalize_definition. intros E. head E as E1.
  destruct (dget_or a "kind" VNone) as [| | | | kind | |]; try discriminate E.
  head E as E2. head E as E3. head E as E4. head E as E5. head E as E6.
  destruct (dget a "after") as [af |]; [head E as E7 |]; injection E as <-;
    (match goal with |- context [_object ?v ?ks ?f ?rs] => change (_object v ks f rs) with (Ok (dict_or_empty v)) end);
    cbn [mbind res_bind app dict_or_empty as_dict from_option id default];
    unfold dget_or; cbn [dget String.eqb Ascii.eqb Bool.eqb from_option id default];
    rewrite E2; fold (dget_or a "state" (VStr "pending")); rewrite E3;
    rewrite (normalize_target_idem _ _ E4); cbn [mbind res_bind];
    rewrite (normalize_payload_idem _ _ _ E5); cbn [mbind res_bind];
    rewrite (normalize_when_idem _ _ E6); cbn [mbind res_bind]; [| done].
  by rewrite (normalize_after_idem _ _ E7).
Qed.
End schedules.
