(* ===== verification/SchedTime.v ===== *)
(** * [server/schedules.py]: [next_fire], when a schedule fires

    The only wall-clock arithmetic of the program.  A naive local time is the number
    of seconds its clock shows since 1970-01-01T00:00; a time zone is a parameter that
    gives the offset of a local time (with its [fold]) and of an instant. *)
From S2P Require Import Prelude PyVal PolicyDoc SchedDoc.

(** ** Time zones *)

(** [utcoffset] of a local time with a fold, and the offset in force at an instant. *)
Record zone := Zone {
  z_local : Z -> bool -> Z;
  z_utc : Z -> Z }.

(** [int(local.replace(tzinfo=zone, fold=fold).timestamp())] *)
Definition timestamp (z : zone) (local : Z) (fold : bool) : Z := local - z_local z local fold.

(** [datetime.fromtimestamp(stamp, zone).replace(tzinfo=None)] *)
Definition fromtimestamp (z : zone) (stamp : Z) : Z := stamp + z_utc z stamp.

(** ** The calendar *)

(** Year, month and day of a day number (proleptic Gregorian). *)
Definition civil (day : Z) : Z * Z * Z :=
  let d := day + 719468 in
  let era := d / 146097 in
  let doe := d - era * 146097 in
  let yoe := (doe - doe / 1460 + doe / 36524 - doe / 146096) / 365 in
  let doy := doe - (365 * yoe + yoe / 4 - yoe / 100) in
  let mp := (5 * doy + 2) / 153 in
  let d := doy - (153 * mp + 2) / 5 + 1 in
  let m := if mp <? 10 then mp + 3 else mp - 9 in
  (yoe + era * 400 + (if m <=? 2 then 1 else 0), m, d).

(** Monday is 0; day 0 is a Thursday. *)
Definition weekday (day : Z) : Z := (day + 3) mod 7.

Definition pad2 (n : Z) : bytes := if n <? 10 then "0"%char :: dec n else dec n.
Definition pad4 (n : Z) : bytes := replicate (4 - length (dec n)) "0"%char ++ dec n.

(** [isoformat(timespec="minutes")] of a naive time. *)
Definition iso_minutes (local : Z) : bytes :=
  let '(y, m, d) := civil (local / 86400) in
  let s := local mod 86400 in
  pad4 y ++ bytes_of "-" ++ pad2 m ++ bytes_of "-" ++ pad2 d ++ bytes_of "T" ++
  pad2 (s / 3600) ++ bytes_of ":" ++ pad2 (s / 60 mod 60).

(** [isoformat(timespec="seconds")] of an aware time. *)
Definition iso_offset (off : Z) : bytes :=
  let a := Z.abs off in
  bytes_of (if off <? 0 then "-" else "+") ++ pad2 (a / 3600) ++ bytes_of ":" ++ pad2 (a / 60 mod 60) ++
  (if a mod 60 =? 0 then [] else bytes_of ":" ++ pad2 (a mod 60)).
Definition iso_seconds (z : zone) (stamp : Z) : bytes :=
  let local := fromtimestamp z stamp in
  iso_minutes local ++ bytes_of ":" ++ pad2 (local mod 60) ++ iso_offset (z_utc z stamp).

(** ** Resolving a local time *)

Section resolve.
Context (z : zone).

(** The instants at which the clock shows [candidate], ascending. *)
Definition valid (candidate : Z) : list Z :=
  let shows t := fromtimestamp z t =? candidate in
  let a := timestamp z candidate false in
  let b := timestamp z candidate true in
  match shows a, shows b with
  | true, true => if a =? b then [a] else [Z.min a b; Z.max a b]
  | true, false => [a]
  | false, true => [b]
  | false, false => []
  end.

(** The binary search for the end of a gap. *)
Fixpoint gap_search (fuel : nat) (local low high : Z) : res Z :=
  if low <? high then
    match fuel with
    | O => Err OutOfFuel
    | S fuel =>
        let middle := (low + high) / 2 in
        match valid (local + middle) with
        | _ :: _ => gap_search fuel local low middle
        | [] => gap_search fuel local (middle + 1) high
        end
    end
  else Ok low.

Definition resolve (local : Z) : res (Z * string) :=
  match valid local with
  | [t] => Ok (t, "normal")
  | t :: _ => Ok (t, "fold")
  | [] =>
      let roundtrips := [fromtimestamp z (timestamp z local false); fromtimestamp z (timestamp z local true)] in
      match filter (fun v => local < v) roundtrips with
      | [] => Err (ValueError "min() arg is an empty sequence")
      | v :: vs =>
          let upper := foldl Z.min v vs in
          let* low := gap_search (Z.to_nat (upper - local)) local 0 (upper - local) in
          match valid (local + low) with
          | t :: _ => Ok (t, "gap")
          | [] => Err (ValueError "list index out of range")
          end
      end
  end.

(** ** Weekly slots *)

Record weekly := Weekly { w_day : Z; w_stamp : Z; w_resolution : string; w_label : string }.

Context (hour minute : Z).

Definition slot_local (day : Z) : Z := day * 86400 + hour * 3600 + minute * 60.

Definition weekly_at (day : Z) : res weekly :=
  let local := slot_local day in
  let* (stamp, resolution) := resolve local in
  Ok (Weekly day stamp resolution (string_of (iso_minutes local))).

(** [while stamp < floor: day += 7] *)
Fixpoint advance (fuel : nat) (floor : Z) (w : weekly) : res weekly :=
  if w_stamp w <? floor then
    match fuel with
    | O => Err OutOfFuel
    | S fuel => let* w := weekly_at (w_day w + 7) in advance fuel floor w
    end
  else Ok w.

(** The slot a recurring schedule has for [now] and the cursor, and the one after it. *)
Definition recurring_slot (wday created now window : Z) (after_epoch : option Z) : res (weekly * Z) :=
  let anchor := Z.max created (match after_epoch with Some a => a + 1 | None => now end) in
  let date := fromtimestamp z anchor / 86400 in
  let day := date - (weekday date - wday) mod 7 in
  let* w := weekly_at day in
  let floor := Z.max created (match after_epoch with Some a => a + 1 | None => 0 end) in
  let* w := advance 4 floor w in
  let* w :=
    match after_epoch with
    | None =>
        if now <? w_stamp w then
          let* prior := weekly_at (w_day w - 7) in
          if (created <=? w_stamp prior) && (w_stamp prior <=? now) && (now <? w_stamp prior + window)
          then Ok prior else Ok w
        else Ok w
    | Some _ => Ok w
    end in
  let* next := weekly_at (w_day w + 7) in
  Ok (w, w_stamp next).
End resolve.

(** ** [next_fire] *)

Section fire.
(** [ZoneInfo(key)], and the zone it is. *)
Context (zoneinfo : string -> res unit) (zone_of : string -> zone).

(** [str(tz)] of a validated definition. *)
Definition text_of (v : pyval) : string := default "" (as_str v).
Definition int_of (v : pyval) : Z := default 0 (strict_int v).

Definition opt_int (o : option Z) : pyval := match o with Some t => VInt t | None => VNone end.

Definition status_of (now stamp window_end : Z) : string :=
  if now <? stamp then "future" else if now <? window_end then "due" else "missed".

Definition slot_dict (now stamp window : Z) (resolution tz label : string) (next_at : option Z) : dict :=
  [("scheduled_at", VInt stamp); ("window_end", VInt (stamp + window));
   ("status", VStr (status_of now stamp (stamp + window))); ("resolution", VStr resolution); ("tz", VStr tz);
   ("local_time", VStr label); ("next_at", opt_int next_at)].

(** The slot before it is reported: what both interfaces compute. *)
Definition compute_slot (schedule : dict) (now_epoch : pyval) (after_epoch : option pyval) : res (option dict) :=
  let* now := _integer now_epoch "now" 0 MAX_EPOCH in
  let* after := match after_epoch with
    | None => Ok None
    | Some a => let* z := _integer a "after_epoch" 0 MAX_EPOCH in Ok (Some z)
    end in
  let* definition := normalize_definition zoneinfo (VDict (definition_of schedule)) in
  if negb (py_eq (dget_or definition "state" VNone) (VStr "pending")) then Ok None
  else
    let* created := _integer (dget_or schedule "created_at" (VInt 0)) "created_at" 0 MAX_EPOCH in
    let when_ := dict_or_empty (dget_or definition "when" VNone) in
    let field k := dget_or when_ k VNone in
    let tz := text_of (field "tz") in
    let z := zone_of tz in
    let window := int_of (field "window_seconds") in
    if py_eq (field "kind") (VStr "once") then
      let stamp := int_of (field "at") in
      if match after with Some a => stamp <=? a | None => false end then Ok None
      else Ok (Some (slot_dict now stamp window "normal" tz (string_of (iso_seconds z stamp)) None))
    else
      let* (w, next_at) := recurring_slot z (int_of (field "hour")) (int_of (field "minute"))
        (int_of (field "weekday")) created now window after in
      Ok (Some (slot_dict now (w_stamp w) window (w_resolution w) tz (w_label w) (Some next_at))).

Definition occurrence_slot (schedule : dict) (now_epoch : pyval) (after_epoch : option pyval) : res (option dict) :=
  compute_slot schedule now_epoch after_epoch.

(** [metadata=False]; the recursive call drops the cursor. *)
Fixpoint next_fire (fuel : nat) (schedule : dict) (now_epoch : pyval) (after_epoch : option pyval) : res (option Z) :=
  let* slot := compute_slot schedule now_epoch after_epoch in
  match slot with
  | None => Ok None
  | Some s =>
      let stamp := int_of (dget_or s "scheduled_at" VNone) in
      let window := int_of (dget_or s "window_end" VNone) - stamp in
      if negb (py_eq (dget_or s "status" VNone) (VStr "missed")) then Ok (Some stamp)
      else
        match dget_or s "next_at" VNone with
        | VInt next_at =>
            if next_at + window <=? int_of now_epoch then
              match fuel with
              | O => Err OutOfFuel
              | S fuel => next_fire fuel schedule now_epoch None
              end
            else Ok (Some next_at)
        | _ => Ok None
        end
  end.
End fire.

(** A week in UTC: Wednesday 1970-01-07 is the first Wednesday. *)
Definition utc_zone : zone := Zone (fun _ _ => 0) (fun _ => 0).
Example utc_slot :
  (let* (w, next) := recurring_slot utc_zone 3 30 2 0 600000 3600 None in
   Ok (w_stamp w, w_label w, next)) = Ok (531000, "1970-01-07T03:30", 1135800).
Proof. vm_compute. reflexivity. Qed.
