(* ===== verification/SchedTimeSpec.v ===== *)
(** * When a schedule fires: correctness of [next_fire]

    What [datetime] and [zoneinfo] promise of a zone is the class [ZoneLaws]; the
    search for the end of a gap, the weekly slots and the cursor are proved correct
    against it. *)
From S2P Require Import Prelude PyVal PolicyDoc SchedDoc SchedTime.

(** ** Zones *)

(** A local time the clock shows at some instant. *)
Definition shown (z : zone) (w : Z) : Prop := exists t, fromtimestamp z t = w.

(** The documented behaviour of an aware [datetime] (PEP 495): offsets stay under a
    day; a shown local time maps to instants that show it, [fold=0] to the earliest and
    [fold=1] to the latest; a skipped local time maps with [fold=0] past the gap and
    with [fold=1] before it, by the gap's length, and the clock runs on after the gap
    for at least that long. *)
Class ZoneLaws (z : zone) : Prop := {
  zl_local : forall w f, Z.abs (z_local z w f) < 86400;
  zl_utc : forall t, Z.abs (z_utc z t) < 86400;
  zl_shows : forall w f, shown z w -> fromtimestamp z (timestamp z w f) = w;
  zl_order : forall t, timestamp z (fromtimestamp z t) false <= t <= timestamp z (fromtimestamp z t) true;
  zl_gap : forall w, ~ shown z w -> exists k g, 0 < k <= g /\
    fromtimestamp z (timestamp z w false) = w + g /\ fromtimestamp z (timestamp z w true) < w /\
    (forall i, 0 <= i < k -> ~ shown z (w + i)) /\ (forall i, k <= i <= g -> shown z (w + i)) }.

(** [t] is the first instant that shows [w]. *)
Definition first_shows (z : zone) (w t : Z) : Prop :=
  fromtimestamp z t = w /\ forall t', fromtimestamp z t' = w -> t <= t'.

(** [w'] is the first local time from [w] on that the clock shows. *)
Definition next_shown (z : zone) (w w' : Z) : Prop :=
  w <= w' /\ shown z w' /\ forall i, w <= i < w' -> ~ shown z i.

Section resolve.
Context (z : zone) {Hz : ZoneLaws z}.

Lemma valid_spec w :
  match valid z w with
  | [] => ~ shown z w
  | [t] => first_shows z w t /\ forall t', fromtimestamp z t' = w -> t' = t
  | t :: t' :: _ => first_shows z w t /\ fromtimestamp z t' = w /\ t <> t'
  end.
Proof.
  unfold valid. destruct (fromtimestamp z (timestamp z w false) =? w) eqn:Ea;
    destruct (fromtimestamp z (timestamp z w true) =? w) eqn:Eb; bool_norm.
  - pose proof (fun t (Ht : fromtimestamp z t = w) => zl_order t) as Ho.
    destruct (timestamp z w false =? timestamp z w true) eqn:E; bool_norm.
    + split; [split; [done |] |]; intros t' Ht'; specialize (Ho t' Ht'); rewrite Ht' in Ho; lia.
    + assert (Hle : timestamp z w false <= timestamp z w true).
      { specialize (Ho _ Ea). rewrite Ea in Ho. lia. }
      rewrite Z.min_l, Z.max_r by done. split; [split; [done |] | done].
      intros t' Ht'. specialize (Ho t' Ht'). rewrite Ht' in Ho. lia.
  - destruct Eb. apply zl_shows. by eexists.
  - destruct Ea. apply zl_shows. by eexists.
  - intros Hs. apply Ea, zl_shows, Hs.
Qed.

Lemma valid_shown w : shown z w <-> valid z w <> [].
Proof.
  pose proof (valid_spec w) as H. destruct (valid z w) as [| t [| t' l]]; [done | |]; split; try done; intros _.
  - exists t. apply H.
  - exists t. apply H.
Qed.

Lemma valid_head w t l : valid z w = t :: l -> first_shows z w t.
Proof. intros E. pose proof (valid_spec w) as H. rewrite E in H. destruct l; apply H. Qed.

(** The binary search ends at the first shown local time. *)
Lemma gap_search_spec fuel local k low high :
  (Z.to_nat (high - low) <= fuel)%nat -> low <= k <= high ->
  (forall i, low <= i < k -> ~ shown z (local + i)) -> (forall i, k <= i < high -> shown z (local + i)) ->
  gap_search z fuel local low high = Ok k.
Proof.
  revert low high. induction fuel as [| fuel IH]; intros low high Hf Hk Hno Hyes; cbn [gap_search].
  - destruct (low <? high) eqn:E; bool_norm; [lia |]. f_equal. lia.
  - destruct (low <? high) eqn:E; bool_norm; [| f_equal; lia].
    assert (Hm : low <= (low + high) / 2 < high) by (split; [apply Z.div_le_lower_bound | apply Z.div_lt_upper_bound]; lia).
    set (m := (low + high) / 2) in *. destruct (decide (k <= m)) as [Hkm | Hkm].
    + assert (shown z (local + m)) as Hs by (apply Hyes; lia). apply valid_shown in Hs.
      destruct (valid z (local + m)) as [| t l]; [done |]. apply IH; [lia | lia | done |].
      intros i Hi. apply Hyes. lia.
    + assert (~ shown z (local + m)) as Hs by (apply Hno; lia). rewrite valid_shown in Hs.
      destruct (valid z (local + m)) as [| t l]; [| destruct Hs; done]. apply IH; [lia | lia | |].
      * intros i Hi. apply Hno. lia.
      * intros i Hi. apply Hyes. lia.
Qed.

Lemma resolve_spec w : exists t r w', resolve z w = Ok (t, r) /\ next_shown z w w' /\ first_shows z w' t /\
  (r = "gap" <-> w < w') /\ (r = "fold" <-> w' = w /\ exists t', t' <> t /\ fromtimestamp z t' = w) /\
  w' <= w + 172800.
Proof.
  unfold resolve. pose proof (valid_spec w) as H. destruct (valid z w) as [| t [| t' l]] eqn:Ev.
  - destruct (zl_gap w H) as (k & g & Hk & Hf & Ht & Hno & Hyes).
    pose proof (zl_local w false) as Hl. pose proof (zl_utc (timestamp z w false)) as Hu.
    assert (Hg : g <= 172800) by (unfold fromtimestamp, timestamp in Hf; unfold timestamp in Hu; lia).
    rewrite Hf. assert (filter (fun v => w < v) [w + g; fromtimestamp z (timestamp z w true)] = [w + g]) as ->.
    { rewrite filter_cons_True by lia. by rewrite filter_cons_False by lia. }
    cbn [foldl]. replace (w + g - w) with g by lia.
    rewrite (gap_search_spec (Z.to_nat g) w k 0 g); [| lia | lia | exact Hno | intros i Hi; apply Hyes; lia].
    cbn [mbind res_bind]. destruct (valid z (w + k)) as [| t l] eqn:Ek.
    { destruct (proj1 (valid_shown (w + k))); [apply Hyes; lia | done]. }
    exists t, "gap", (w + k). split; [done |].
    split; [split; [lia |]; split; [apply Hyes; lia | intros i Hi; replace i with (w + (i - w)) by lia; apply Hno; lia] |].
    split; [by eapply valid_head |]. split; [split; [lia | done] |]. split; [split; [done | intros [? _]; lia] | lia].
  - exists t, "normal", w. split; [done |]. destruct H as [H1 H2].
    split; [split; [lia |]; split; [exists t; apply H1 | lia] |]. split; [done |]. split; [split; [done | lia] |].
    split; [split; [done |] | lia]. intros (_ & t' & Hne & Ht'). by destruct Hne; apply H2.
  - exists t, "fold", w. split; [done |]. destruct H as (H1 & H2 & H3).
    split; [split; [lia |]; split; [exists t; apply H1 | lia] |]. split; [done |]. split; [split; [done | lia] |].
    split; [split; [| done] | lia]. intros _. split; [done |]. exists t'. done.
Qed.

(** A slot's instant stays within three days of its local time. *)
Lemma resolve_bounds w t r : resolve z w = Ok (t, r) -> w - 86400 < t < w + 259200.
Proof.
  intros E. destruct (resolve_spec w) as (t0 & r0 & w' & E0 & (Hw & _) & (Ht & _) & _ & _ & Hb).
  rewrite E in E0. injection E0 as <- <-. pose proof (zl_utc t) as Hu. unfold fromtimestamp in Ht. lia.
Qed.

(** ** Weekly slots *)

Context (hour minute : Z) (Hhour : 0 <= hour <= 23) (Hminute : 0 <= minute <= 59).

(** The instant of the slot on a day. *)
Definition slot_at (day t : Z) : Prop := exists r, resolve z (slot_local hour minute day) = Ok (t, r).

Lemma slot_local_day day : day * 86400 <= slot_local hour minute day < (day + 1) * 86400.
Proof. unfold slot_local. lia. Qed.

Lemma weekly_at_spec day :
  exists w, weekly_at z hour minute day = Ok w /\ w_day w = day /\ slot_at day (w_stamp w).
Proof.
  unfold weekly_at. destruct (resolve_spec (slot_local hour minute day)) as (t & r & w' & E & _).
  rewrite E. cbn [mbind res_bind]. eexists. split; [done |]. split; [done |]. by exists r.
Qed.

Lemma slot_at_bounds day t : slot_at day t -> (day - 1) * 86400 < t < (day + 4) * 86400.
Proof. intros [r E]. apply resolve_bounds in E. pose proof (slot_local_day day). lia. Qed.

Lemma slot_at_mono day day' t t' : slot_at day t -> slot_at day' t' -> day + 7 <= day' -> t < t'.
Proof. intros H%slot_at_bounds H'%slot_at_bounds. lia. Qed.

Lemma advance_spec fuel floor w :
  slot_at (w_day w) (w_stamp w) -> floor < (w_day w + 7 * Z.of_nat fuel - 1) * 86400 ->
  exists w', advance z hour minute fuel floor w = Ok w' /\ slot_at (w_day w') (w_stamp w') /\ floor <= w_stamp w' /\
    (w_day w' - w_day w) mod 7 = 0 /\ w_day w <= w_day w' /\
    (w_day w < w_day w' -> exists t, slot_at (w_day w' - 7) t /\ t < floor).
Proof.
  revert w. induction fuel as [| fuel IH]; intros w Hw Hf; cbn [advance].
  - pose proof (slot_at_bounds _ _ Hw). destruct (w_stamp w <? floor) eqn:E; bool_norm; [lia |].
    exists w. rewrite Z.sub_diag. split; [done |]. split; [done |]. split; [done |]. split; [done |]. split; lia.
  - destruct (w_stamp w <? floor) eqn:E; bool_norm.
    + destruct (weekly_at_spec (w_day w + 7)) as (w1 & -> & Hd & Hs). cbn [mbind res_bind]. rewrite <- Hd in Hs.
      destruct (IH w1 Hs) as (w' & -> & H1 & H2 & H3 & H4 & H5); [lia |].
      exists w'. split; [done |]. split; [done |]. split; [done |]. rewrite Hd in H3, H4.
      split; [| split; [lia |]].
      * replace (w_day w' - w_day w) with (w_day w' - (w_day w + 7) + 1 * 7) by lia. by rewrite Z.mod_add.
      * intros _. destruct (decide (w_day w1 < w_day w')) as [Hlt | Hge]; [by apply H5 |].
        exists (w_stamp w). split; [| lia]. by replace (w_day w' - 7) with (w_day w) by lia.
    + exists w. rewrite Z.sub_diag. split; [done |]. split; [done |]. split; [done |]. split; [done |]. split; lia.
Qed.

(** ** The slot of a schedule *)

Context (wday : Z) (Hwday : 0 <= wday <= 6).

(** [t] is a slot of the schedule: the instant of some matching weekday. *)
Definition is_slot (t : Z) : Prop := exists day, weekday day = wday /\ slot_at day t.

Lemma anchor_day anchor :
  let D := fromtimestamp z anchor / 86400 in
  let day := D - (weekday D - wday) mod 7 in
  weekday day = wday /\ D - 6 <= day <= D /\ (D - 1) * 86400 < anchor < (D + 2) * 86400.
Proof.
  cbn zeta. set (D := fromtimestamp z anchor / 86400). pose proof (zl_utc anchor) as Hu.
  assert (HD : D * 86400 <= fromtimestamp z anchor < (D + 1) * 86400).
  { unfold D. pose proof (Z.mul_div_le (fromtimestamp z anchor) 86400 ltac:(lia)).
    pose proof (Z.mul_succ_div_gt (fromtimestamp z anchor) 86400 ltac:(lia)). lia. }
  unfold fromtimestamp in HD. pose proof (Z.mod_pos_bound (weekday D - wday) 7 ltac:(lia)) as Hm.
  split; [| split; lia]. unfold weekday in *. rewrite <- (Z.mod_small wday 7) at 2 by lia.
  rewrite Zminus_mod_idemp_l. pose proof (Z.div_mod (D + 3 - wday) 7 ltac:(lia)) as Hq.
  replace (D - (D + 3 - wday) mod 7 + 3) with (wday + (D + 3 - wday) / 7 * 7) by lia. apply Z.mod_add. lia.
Qed.

Lemma weekday_shift day day' : weekday day = wday -> (day' - day) mod 7 = 0 -> weekday day' = wday.
Proof.
  unfold weekday. intros <- Hm. apply Z.div_exact in Hm; [| lia].
  replace (day' + 3) with (day + 3 + (day' - day) / 7 * 7) by lia. apply Z.mod_add. lia.
Qed.

Lemma weekday_diff day day' : weekday day = wday -> weekday day' = wday -> day < day' -> day + 7 <= day'.
Proof.
  unfold weekday. intros H1 H2 Hlt. pose proof (Z.div_mod (day + 3) 7 ltac:(lia)). pose proof (Z.div_mod (day' + 3) 7 ltac:(lia)).
  nia.
Qed.

(** Nothing between a slot and the slot a week before it. *)
Lemma slot_between day t t0 t' :
  weekday day = wday -> slot_at day t -> slot_at (day - 7) t0 -> is_slot t' -> t0 < t' -> t <= t'.
Proof.
  intros Hd Ht Ht0 (day' & Hd' & Ht') Hlt. destruct (decide (day' < day)) as [Hlt' | Hge].
  - pose proof (weekday_diff _ _ Hd' Hd Hlt'). destruct (decide (day' < day - 7)) as [Hl | Hl].
    + assert (weekday (day - 7) = wday) as Hd7.
      { apply (weekday_shift day); [done |]. by replace (day - 7 - day) with (-1 * 7) by lia. }
      pose proof (weekday_diff _ _ Hd' Hd7 Hl). pose proof (slot_at_mono _ _ _ _ Ht' Ht0 ltac:(lia)). lia.
    + assert (day' = day - 7) as -> by lia. destruct Ht' as [r E], Ht0 as [r0 E0]. rewrite E in E0. injection E0 as -> _. lia.
  - destruct (decide (day' = day)) as [-> | Hne].
    + destruct Ht as [r E], Ht' as [r' E']. rewrite E in E'. injection E' as -> _. lia.
    + pose proof (weekday_diff _ _ Hd Hd' ltac:(lia)). pose proof (slot_at_mono _ _ _ _ Ht Ht' ltac:(lia)). lia.
Qed.

(** The search from the anchor: the first slot from [floor] on. *)
Lemma search_spec anchor floor :
  0 <= floor <= anchor ->
  let D := fromtimestamp z anchor / 86400 in
  let day := D - (weekday D - wday) mod 7 in
  exists w0 w, weekly_at z hour minute day = Ok w0 /\ advance z hour minute 4 floor w0 = Ok w /\
    weekday (w_day w) = wday /\ slot_at (w_day w) (w_stamp w) /\ floor <= w_stamp w /\
    (w_day w = day \/ exists t, slot_at (w_day w - 7) t /\ t < floor) /\ day <= w_day w.
Proof.
  intros Hfl D day. destruct (anchor_day anchor) as (Hd & Hr & Ha). fold D day in Hd, Hr, Ha.
  destruct (weekly_at_spec day) as (w0 & E0 & Hd0 & Hs0). exists w0.
  destruct (advance_spec 4 floor w0) as (w & Ew & Hs & Hf & Hm & Hle & Hpr); [by rewrite Hd0 | rewrite Hd0; lia |].
  rewrite Hd0 in Hm, Hle, Hpr. exists w. split; [done |]. split; [done |].
  split; [exact (weekday_shift day _ Hd Hm) |]. split; [done |]. split; [done |]. split; [| done].
  destruct (decide (w_day w = day)) as [? | Hne]; [by left | right]. apply Hpr. lia.
Qed.

Lemma recurring_cursor created now window a :
  0 <= created -> 0 <= a -> exists w next,
    recurring_slot z hour minute wday created now window (Some a) = Ok (w, next) /\
    is_slot (w_stamp w) /\ Z.max created (a + 1) <= w_stamp w /\
    (forall t, is_slot t -> Z.max created (a + 1) <= t -> w_stamp w <= t) /\
    is_slot next /\ w_stamp w < next /\ (forall t, is_slot t -> w_stamp w < t -> next <= t).
Proof.
  intros Hc Ha. unfold recurring_slot. set (floor := Z.max created (a + 1)).
  destruct (search_spec floor floor) as (w0 & w & -> & E & Hwd & Hs & Hf & Hpr & _); [lia |].
  cbn [mbind res_bind]. rewrite E. cbn [mbind res_bind].
  destruct (weekly_at_spec (w_day w + 7)) as (nx & -> & Hnd & Hns). cbn [mbind res_bind].
  exists w, (w_stamp nx). split; [done |].
  assert (Hwd7 : weekday (w_day w + 7) = wday).
  { apply (weekday_shift (w_day w)); [done |]. by replace (w_day w + 7 - w_day w) with (1 * 7) by lia. }
  split; [by exists (w_day w) |]. split; [done |]. split; [| split; [by exists (w_day w + 7) | split]].
  - intros t Ht Hft. destruct (weekly_at_spec (w_day w - 7)) as (pr & _ & Hpd & Hps).
    assert (Hpf : w_stamp pr < floor).
    { destruct Hpr as [Heq | (t0 & [r0 E0] & Ht0)].
      - apply slot_at_bounds in Hps. destruct (anchor_day floor) as (_ & Hr & Han). rewrite Heq in Hps. lia.
      - destruct Hps as [r Er]. rewrite E0 in Er. injection Er as -> _. done. }
    eapply slot_between; [exact Hwd | exact Hs | exact Hps | done | lia].
  - eapply slot_at_mono; [exact Hs | exact Hns | lia].
  - intros t Ht Hlt. eapply (slot_between (w_day w + 7) _ (w_stamp w)); [done | exact Hns | | done | done].
    by replace (w_day w + 7 - 7) with (w_day w) by lia.
Qed.

(** ** Without a cursor *)

(** The local date never goes back: no clock change repeats a part of the day before. *)
Definition dates_ordered : Prop :=
  forall t t', t <= t' -> fromtimestamp z t / 86400 <= fromtimestamp z t' / 86400.

Lemma slot_date day t : slot_at day t -> day <= fromtimestamp z t / 86400.
Proof.
  intros [r E]. destruct (resolve_spec (slot_local hour minute day)) as (t0 & r0 & w' & E0 & (Hw & _) & (Ht & _) & _).
  rewrite E in E0. injection E0 as <- <-. rewrite Ht. pose proof (slot_local_day day). apply Z.div_le_lower_bound; lia.
Qed.

(** The slot found from [now], before the look at the week before. *)
Lemma search_now created now :
  0 <= created -> 0 <= now ->
  let D := fromtimestamp z (Z.max created now) / 86400 in
  let day := D - (weekday D - wday) mod 7 in
  exists w0 w pr, weekly_at z hour minute day = Ok w0 /\ advance z hour minute 4 created w0 = Ok w /\
    weekly_at z hour minute (w_day w - 7) = Ok pr /\ w_day pr = w_day w - 7 /\
    weekday (w_day w) = wday /\ slot_at (w_day w) (w_stamp w) /\ slot_at (w_day w - 7) (w_stamp pr) /\
    created <= w_stamp w /\
    (dates_ordered -> w_stamp w <= now -> forall t, slot_at (w_day w + 7) t -> now < t) /\
    (forall window t, window <= MAX_WINDOW_SECONDS -> is_slot t -> created <= t -> t <= now < t + window -> w_stamp pr <= t).
Proof.
  intros Hc Hn D day.
  destruct (search_spec (Z.max created now) created) as (w0 & w & E0 & E & Hwd & Hs & Hf & Hpr & Hle); [lia |].
  destruct (anchor_day (Z.max created now)) as (_ & Hr & Han). fold D in Hr, Han, E0, Hle, Hpr. fold day in Hr, E0, Hle, Hpr.
  destruct (weekly_at_spec (w_day w - 7)) as (pr & Epr & Hpd & Hps).
  assert (Hprd : weekday (w_day w - 7) = wday).
  { apply (weekday_shift (w_day w)); [done |]. by replace (w_day w - 7 - w_day w) with (-1 * 7) by lia. }
  exists w0, w, pr. do 8 (split; [done |]). split.
  - intros Hdo Hwn t Ht. destruct (decide (now < t)) as [? | Hbad]; [done |]. exfalso.
    assert (Hanow : Z.max created now = now) by lia.
    pose proof (slot_date _ _ Ht) as Hd. pose proof (Hdo t now ltac:(lia)) as Hdn. unfold D in *. rewrite Hanow in *. lia.
  - intros window t Hwin (d' & Hd' & Ht') Hct Hto. destruct (decide (w_stamp pr <= t)) as [? | Hbad]; [done |]. exfalso.
    assert (Hdd : d' + 7 <= w_day w - 7).
    { apply (weekday_diff _ _ Hd' Hprd). destruct (decide (d' < w_day w - 7)) as [? | Hge]; [done |].
      destruct (decide (d' = w_day w - 7)) as [-> | Hne].
      - destruct Ht' as [r Er], Hps as [r' Er']. rewrite Er in Er'. injection Er' as -> _. lia.
      - pose proof (weekday_diff _ _ Hprd Hd' ltac:(lia)). pose proof (slot_at_mono _ _ _ _ Hps Ht' ltac:(lia)). lia. }
    destruct Hpr as [Heq | (t0 & [r0 E0'] & Ht0)].
    + apply slot_at_bounds in Ht'. unfold MAX_WINDOW_SECONDS in Hwin. lia.
    + destruct Hps as [r' Er']. rewrite E0' in Er'. injection Er' as -> _.
      pose proof (slot_at_mono _ _ _ _ Ht' (ex_intro _ _ E0') ltac:(lia)). lia.
Qed.

Lemma recurring_now created now window :
  dates_ordered -> 0 <= created -> 0 <= now -> window <= MAX_WINDOW_SECONDS -> exists w next,
    recurring_slot z hour minute wday created now window None = Ok (w, next) /\
    is_slot (w_stamp w) /\ created <= w_stamp w /\ is_slot next /\ w_stamp w < next /\
    (w_stamp w <= now -> now < next) /\
    (forall t, is_slot t -> created <= t -> t <= now < t + window -> w_stamp w <= now < w_stamp w + window).
Proof.
  intros Hdo Hc Hn Hwin. unfold recurring_slot. replace (Z.max created 0) with created by lia.
  destruct (search_now created now Hc Hn) as (w0 & w & pr & -> & E & Epr & Hpd & Hwd & Hs & Hps & Hf & Hnext & Hopen).
  specialize (Hnext Hdo). specialize (fun t => Hopen window t Hwin).
  cbn [mbind res_bind]. rewrite E. cbn [mbind res_bind].
  assert (Hbetween : forall t, is_slot t -> w_stamp pr < t -> w_stamp w <= t).
  { intros t Ht Hl. eapply slot_between; [exact Hwd | exact Hs | exact Hps | done | done]. }
  assert (Hcase : exists w1, (if now <? w_stamp w then let* prior := weekly_at z hour minute (w_day w - 7) in
      if (created <=? w_stamp prior) && (w_stamp prior <=? now) && (now <? w_stamp prior + window) then Ok prior else Ok w
      else Ok w) = Ok w1 /\ created <= w_stamp w1 /\ slot_at (w_day w1) (w_stamp w1) /\ weekday (w_day w1) = wday /\
      (w_stamp w1 <= now -> forall t, slot_at (w_day w1 + 7) t -> now < t) /\
      (forall t, is_slot t -> created <= t -> t <= now < t + window ->
        w_stamp w1 <= now < w_stamp w1 + window \/ (w_stamp w1 <= now /\ w_stamp w1 < t))).
  { destruct (now <? w_stamp w) eqn:En; bool_norm.
    - rewrite Epr. cbn [mbind res_bind].
      destruct ((created <=? w_stamp pr) && (w_stamp pr <=? now) && (now <? w_stamp pr + window)) eqn:Eo.
      + bool_norm. exists pr. rewrite Hpd. split; [done |]. split; [done |]. split; [done |]. split; [| split; [| lia]].
        * apply (weekday_shift (w_day w)); [done |]. by replace (w_day w - 7 - w_day w) with (-1 * 7) by lia.
        * intros _ t [r Er]. destruct Hs as [r' Er']. replace (w_day w - 7 + 7) with (w_day w) in Er by lia.
          rewrite Er in Er'. injection Er' as -> _. lia.
      + exists w. do 4 (split; [done |]). split; [lia |]. intros t Ht Hct Hto. exfalso.
        pose proof (Hopen t Ht Hct Hto) as Hp. destruct (decide (w_stamp pr < t)) as [Hl | Hl]; [apply Hbetween in Hl; [lia | done] |].
        assert (t = w_stamp pr) as -> by lia.
        rewrite (proj2 (Z.leb_le _ _) Hct), (proj2 (Z.leb_le _ _) (proj1 Hto)), (proj2 (Z.ltb_lt _ _) (proj2 Hto)) in Eo. done.
    - exists w. do 5 (split; [done |]). intros t Ht Hct Hto. destruct (decide (w_stamp w < t)); [by right | left; lia]. }
  destruct Hcase as (w1 & -> & Hc1 & Hs1 & Hd1 & Hn1 & Ho1). cbn [mbind res_bind].
  destruct (weekly_at_spec (w_day w1 + 7)) as (nx & -> & Hnd & Hns). cbn [mbind res_bind].
  exists w1, (w_stamp nx). split; [done |]. split; [by exists (w_day w1) |]. split; [done |].
  assert (Hwd7 : weekday (w_day w1 + 7) = wday).
  { apply (weekday_shift (w_day w1)); [done |]. by replace (w_day w1 + 7 - w_day w1) with (1 * 7) by lia. }
  split; [by exists (w_day w1 + 7) |]. split; [eapply slot_at_mono; [exact Hs1 | exact Hns | lia] |].
  split; [intros Hw; by apply Hn1 |]. intros t Ht Hct Hto. destruct (Ho1 t Ht Hct Hto) as [? | [Hw Hl]]; [done |]. exfalso.
  assert (w_stamp nx <= t).
  { eapply (slot_between (w_day w1 + 7) _ (w_stamp w1)); [done | exact Hns | | done | done].
    by replace (w_day w1 + 7 - 7) with (w_day w1) by lia. }
  specialize (Hn1 Hw _ Hns). lia.
Qed.

(** The search always ends within its fuel. *)
Lemma recurring_returns created now window after :
  0 <= created -> 0 <= now -> match after with Some a => 0 <= a | None => True end ->
  exists r, recurring_slot z hour minute wday created now window after = Ok r.
Proof.
  intros Hc Hn Ha. unfold recurring_slot. set (anchor := Z.max created (match after with Some a => a + 1 | None => now end)).
  set (floor := Z.max created (match after with Some a => a + 1 | None => 0 end)).
  destruct (search_spec anchor floor) as (w0 & w & -> & E & _); [unfold anchor, floor; destruct after; lia |].
  cbn [mbind res_bind]. rewrite E. cbn [mbind res_bind]. destruct (weekly_at_spec (w_day w - 7)) as (pr & Hpr & _).
  assert (Hcase : exists w1, match after with
    | None => if now <? w_stamp w then let* prior := weekly_at z hour minute (w_day w - 7) in
        if (created <=? w_stamp prior) && (w_stamp prior <=? now) && (now <? w_stamp prior + window) then Ok prior else Ok w else Ok w
    | Some _ => Ok w end = Ok w1).
  { destruct after; [by eexists |]. destruct (now <? w_stamp w); [| by eexists]. rewrite Hpr. cbn [mbind res_bind]. destruct (_ && _); by eexists. }
  destruct Hcase as [w1 ->]. cbn [mbind res_bind]. destruct (weekly_at_spec (w_day w1 + 7)) as (nx & -> & _). by eexists.
Qed.
End resolve.

(** ** From the stored schedule to the slot *)

Lemma integer_inv v f a b n : _integer v f a b = Ok n -> v = VInt n /\ a <= n <= b.
Proof.
  intros E. destruct v; try discriminate E. unfold _integer in E. head E as E1. injection E as ->. bool_norm. done.
Qed.

Lemma definition_when zi v def :
  normalize_definition zi v = Ok def -> exists x w, dget_or def "when" VNone = VDict w /\ normalize_when zi x = Ok w.
Proof.
  intros E. unfold normalize_definition in E. head E as E1.
  destruct (dget_or a "kind" VNone) as [| | | | kind | |]; try discriminate E.
  head E as E2. head E as E3. head E as E4. head E as E5. head E as E6. exists (dget_or a "when" VNone), a2.
  split; [| done]. destruct (dget a "after"); [head E as E7 |]; by injection E as <-.
Qed.

(** A pending recurring schedule with its parameters. *)
Record recurring (zi : string -> res unit) (schedule : dict) (tz : string) (hour minute wday window created : Z) : Prop := {
  rec_def : exists def w, normalize_definition zi (VDict (definition_of schedule)) = Ok def /\
    py_eq (dget_or def "state" VNone) (VStr "pending") = true /\ dget_or def "when" VNone = VDict w /\
    py_eq (dget_or w "kind" VNone) (VStr "once") = false /\ dget_or w "tz" VNone = VStr tz /\
    dget_or w "hour" VNone = VInt hour /\ dget_or w "minute" VNone = VInt minute /\
    dget_or w "weekday" VNone = VInt wday /\ dget_or w "window_seconds" VNone = VInt window;
  rec_created : dget_or schedule "created_at" (VInt 0) = VInt created /\ 0 <= created <= MAX_EPOCH }.

Lemma when_ranges zi x w : normalize_when zi x = Ok w -> py_eq (dget_or w "kind" VNone) (VStr "once") = false ->
  exists hour minute wday window, dget_or w "hour" VNone = VInt hour /\ dget_or w "minute" VNone = VInt minute /\
    dget_or w "weekday" VNone = VInt wday /\ dget_or w "window_seconds" VNone = VInt window /\
    0 <= hour <= 23 /\ 0 <= minute <= 59 /\ 0 <= wday <= 6 /\ 1 <= window <= MAX_WINDOW_SECONDS.
Proof.
  intros E Hk. unfold normalize_when in E. head E as E1. revert E. generalize (dsetdefault a "tz" (VStr "UTC")). intros d E.
  head E as E2. head E as E3. head E as E4.
  destruct (py_eq (dget_or d "kind" VNone) (VStr "once")) eqn:Eo.
  - head E as E5. head E as E6. injection E as ->. congruence.
  - destruct (py_eq (dget_or d "kind" VNone) (VStr "recurring")); [| done].
    head E as E5. head E as E6. head E as E7. head E as E8. injection E as ->.
    apply integer_inv in E4 as [H4 ?], E6 as [H6 ?], E7 as [H7 ?], E8 as [H8 ?]. rewrite H4, H6, H7, H8. eexists _, _, _, _. do 4 (split; [reflexivity |]). done.
Qed.

Lemma recurring_ranges zi schedule tz hour minute wday window created :
  recurring zi schedule tz hour minute wday window created ->
  0 <= hour <= 23 /\ 0 <= minute <= 59 /\ 0 <= wday <= 6 /\ 1 <= window <= MAX_WINDOW_SECONDS.
Proof.
  intros [(def & w & Hd & _ & Hw & Hk & _ & Hh & Hm & Hwd & Hwin) _].
  destruct (definition_when _ _ _ Hd) as (x & w' & Hw' & E). rewrite Hw in Hw'. injection Hw' as <-.
  destruct (when_ranges _ _ _ E Hk) as (h & m & d & n & H1 & H2 & H3 & H4 & H5 & H6 & H7 & H8).
  rewrite Hh in H1. rewrite Hm in H2. rewrite Hwd in H3. rewrite Hwin in H4. by simplify_eq.
Qed.

Lemma compute_recurring zi zone_of schedule tz hour minute wday window created now after :
  recurring zi schedule tz hour minute wday window created -> 0 <= now <= MAX_EPOCH ->
  match after with Some a => 0 <= a <= MAX_EPOCH | None => True end ->
  compute_slot zi zone_of schedule (VInt now) (VInt <$> after) =
    let* (w, next_at) := recurring_slot (zone_of tz) hour minute wday created now window after in
    Ok (Some (slot_dict now (w_stamp w) window (w_resolution w) tz (w_label w) (Some next_at))).
Proof.
  intros [(def & w & Hd & Hst & Hw & Hk & Htz & Hh & Hm & Hwd & Hwin) [Hcr Hc]] Hn Ha. unfold compute_slot.
  assert (Hint : forall x f, 0 <= x <= MAX_EPOCH -> _integer (VInt x) f 0 MAX_EPOCH = Ok x).
  { intros x f Hx. unfold _integer. by rewrite (proj2 (Z.leb_le _ _) (proj1 Hx)), (proj2 (Z.leb_le _ _) (proj2 Hx)). }
  rewrite Hint by done. cbn [mbind res_bind].
  assert (match VInt <$> after with None => Ok None | Some a => let* x := _integer a "after_epoch" 0 MAX_EPOCH in Ok (Some x) end
    = Ok after) as ->.
  { destruct after as [a |]; [| done]. cbn [fmap option_fmap option_map]. by rewrite Hint. }
  cbn [mbind res_bind]. rewrite Hd. cbn [mbind res_bind]. rewrite Hst. cbn [negb]. rewrite Hcr, Hint by done.
  cbn [mbind res_bind]. rewrite Hw, dict_or_empty_dict, Hk, Htz, Hh, Hm, Hwd, Hwin. done.
Qed.

(** The slot of a definition that passes its check is always found. *)
Lemma compute_returns zi zone_of schedule def created now after : (forall tz, ZoneLaws (zone_of tz)) ->
  normalize_definition zi (VDict (definition_of schedule)) = Ok def -> dget_or schedule "created_at" (VInt 0) = VInt created -> 0 <= created <= MAX_EPOCH ->
  0 <= now <= MAX_EPOCH -> match after with Some a => 0 <= a <= MAX_EPOCH | None => True end ->
  exists slot, compute_slot zi zone_of schedule (VInt now) (VInt <$> after) = Ok slot.
Proof.
  intros Hz Hd Hcr Hc Hn Ha. unfold compute_slot.
  assert (Hint : forall x f, 0 <= x <= MAX_EPOCH -> _integer (VInt x) f 0 MAX_EPOCH = Ok x).
  { intros x f Hx. unfold _integer. by rewrite (proj2 (Z.leb_le _ _) (proj1 Hx)), (proj2 (Z.leb_le _ _) (proj2 Hx)). }
  rewrite Hint by done. cbn [mbind res_bind].
  assert (match VInt <$> after with None => Ok None | Some a => let* x := _integer a "after_epoch" 0 MAX_EPOCH in Ok (Some x) end
    = Ok after) as ->.
  { destruct after as [a |]; [| done]. cbn [fmap option_fmap option_map]. by rewrite Hint. }
  cbn [mbind res_bind]. rewrite Hd. cbn [mbind res_bind]. destruct (negb _); [by eexists |]. rewrite Hcr, Hint by done. cbn [mbind res_bind].
  destruct (definition_when _ _ _ Hd) as (x & w & -> & Hw). cbn [dict_or_empty as_dict]. rewrite dict_or_empty_dict.
  destruct (py_eq (dget_or w "kind" VNone) (VStr "once")) eqn:Ek; [destruct (match after with Some _ => _ | None => _ end); by eexists |].
  destruct (when_ranges _ _ _ Hw Ek) as (h & m & d & n & -> & -> & -> & -> & Hh & Hm & Hwd & _).
  destruct (recurring_returns (zone_of (text_of (dget_or w "tz" VNone))) h m Hh Hm d Hwd created now n after) as [[w1 next] E]; [lia | lia | destruct after; lia |].
  change (int_of (VInt h)) with h. change (int_of (VInt m)) with m. change (int_of (VInt d)) with d. change (int_of (VInt n)) with n.
  rewrite E. by eexists.
Qed.

(** ** Properties *)

(** C28: a local time is resolved as the clock shows it: to the first instant that shows
    it (reported as [fold] when there is a second one), and a local time the clock
    skips to the first instant of the first local time shown after the gap, which the
    binary search always finds. *)
Theorem resolve_correct (z : zone) (Hz : ZoneLaws z) (local : Z) :
  exists t r w, resolve z local = Ok (t, r) /\ next_shown z local w /\ first_shows z w t /\
    (r = "gap" <-> local < w) /\ (r = "fold" <-> w = local /\ exists t', t' <> t /\ fromtimestamp z t' = local).
Proof. destruct (resolve_spec z local) as (t & r & w & H1 & H2 & H3 & H4 & H5 & _). exists t, r, w. done. Qed.

(** With a cursor no slot is skipped: the slot reported for a pending recurring
    schedule is the earliest of its weekly slots after the cursor and not before its
    creation, its window follows it, and [next_at] is the slot after that one. *)
Theorem cursor_slot_first (zi : string -> res unit) (zone_of : string -> zone) (schedule : dict)
    (tz : string) (hour minute wday window created now cursor : Z) (Hz : ZoneLaws (zone_of tz)) :
  recurring zi schedule tz hour minute wday window created ->
  0 <= now <= MAX_EPOCH -> 0 <= cursor <= MAX_EPOCH ->
  exists slot t next, occurrence_slot zi zone_of schedule (VInt now) (Some (VInt cursor)) = Ok (Some slot) /\
    dget slot "scheduled_at" = Some (VInt t) /\ dget slot "window_end" = Some (VInt (t + window)) /\
    dget slot "next_at" = Some (VInt next) /\
    dget slot "status" = Some (VStr (status_of now t (t + window))) /\
    is_slot (zone_of tz) hour minute wday t /\ cursor < t /\ created <= t /\
    (forall t', is_slot (zone_of tz) hour minute wday t' -> cursor < t' -> created <= t' -> t <= t') /\
    is_slot (zone_of tz) hour minute wday next /\ t < next /\
    (forall t', is_slot (zone_of tz) hour minute wday t' -> t < t' -> next <= t').
Proof.
  intros Hr Hn Hcu. destruct (recurring_ranges _ _ _ _ _ _ _ _ Hr) as (Hh & Hm & Hwd & Hwin).
  pose proof (rec_created _ _ _ _ _ _ _ _ Hr) as [_ Hc]. unfold occurrence_slot.
  pose proof (compute_recurring zi zone_of schedule tz hour minute wday window created now (Some cursor) Hr Hn Hcu) as Ec.
  cbn [fmap option_fmap option_map] in Ec. rewrite Ec.
  destruct (recurring_cursor (zone_of tz) hour minute Hh Hm wday Hwd created now window cursor) as
    (w & next & -> & H1 & H2 & H3 & H4 & H5 & H6); [lia | lia |].
  cbn [mbind res_bind]. eexists _, (w_stamp w), next. split; [done |]. do 4 (split; [done |]).
  split; [done |]. split; [lia |]. split; [lia |]. split; [intros t' Ht' ? ?; apply H3; [done | lia] |]. done.
Qed.

(** [next_fire] promises a dispatchable instant: for a pending recurring schedule in
    a zone whose dates never go back it returns, with or without a cursor, a slot not
    before the creation whose window has not closed; and without a cursor it is a slot
    open now whenever there is one. *)
Theorem next_fire_dispatchable (zi : string -> res unit) (zone_of : string -> zone) (schedule : dict)
    (tz : string) (hour minute wday window created now : Z) (cursor : option Z) (fuel : nat)
    (Hz : ZoneLaws (zone_of tz)) :
  recurring zi schedule tz hour minute wday window created -> dates_ordered (zone_of tz) ->
  0 <= now <= MAX_EPOCH -> match cursor with Some a => 0 <= a <= MAX_EPOCH | None => True end ->
  exists t, next_fire zi zone_of (S fuel) schedule (VInt now) (VInt <$> cursor) = Ok (Some t) /\
    is_slot (zone_of tz) hour minute wday t /\ created <= t /\ now < t + window /\
    (cursor = None -> forall t', is_slot (zone_of tz) hour minute wday t' -> created <= t' -> t' <= now < t' + window ->
      t <= now).
Proof.
  intros Hr Hdo Hn Ha. destruct (recurring_ranges _ _ _ _ _ _ _ _ Hr) as (Hh & Hm & Hwd & Hwin).
  pose proof (rec_created _ _ _ _ _ _ _ _ Hr) as [_ Hc].
  assert (Hnow : forall n, exists t, next_fire zi zone_of n schedule (VInt now) None = Ok (Some t) /\
    is_slot (zone_of tz) hour minute wday t /\ created <= t /\ now < t + window /\
    (forall t', is_slot (zone_of tz) hour minute wday t' -> created <= t' -> t' <= now < t' + window -> t <= now)).
  { intros n. destruct (recurring_now (zone_of tz) hour minute Hh Hm wday Hwd created now window Hdo) as
      (w & next & E & H1 & H2 & H3 & H4 & H5 & H6); [lia | lia | lia |].
    pose proof (compute_recurring zi zone_of schedule tz hour minute wday window created now None Hr Hn I) as Ec.
    rewrite E in Ec. cbn [mbind res_bind fmap option_fmap option_map] in Ec.
    assert (Hf : next_fire zi zone_of n schedule (VInt now) None =
      Ok (Some (if now <? w_stamp w + window then w_stamp w else next))).
    { destruct n; cbn [next_fire]; rewrite Ec; cbn [mbind res_bind]; unfold slot_dict, dget_or, status_of; cbn;
        (destruct (now <? w_stamp w) eqn:E1; bool_norm;
         [by rewrite (proj2 (Z.ltb_lt _ _)) by lia |]; destruct (now <? w_stamp w + window) eqn:E2; [done |]; bool_norm;
         cbn; replace (w_stamp w + window - w_stamp w) with window by lia;
         rewrite (proj2 (Z.leb_gt _ _)) by lia; done). }
    rewrite Hf. destruct (now <? w_stamp w + window) eqn:Ew; bool_norm; (eexists; split; [done |]); split; [done | | done |].
    - split; [done |]. split; [done |]. intros t' Ht' Hct Hto. destruct (H6 t' Ht' Hct Hto). lia.
    - split; [lia |]. split; [lia |]. intros t' Ht' Hct Hto. destruct (H6 t' Ht' Hct Hto). lia. }
  destruct cursor as [a |].
  - destruct (recurring_cursor (zone_of tz) hour minute Hh Hm wday Hwd created now window a) as
      (w & next & E & H1 & H2 & _ & H4 & H5 & _); [lia | lia |].
    pose proof (compute_recurring zi zone_of schedule tz hour minute wday window created now (Some a) Hr Hn Ha) as Ec.
    rewrite E in Ec. cbn [mbind res_bind fmap option_fmap option_map] in Ec. destruct (Hnow fuel) as (t & Ht & Ht1 & Ht2 & Ht3 & _).
    assert (Hf : next_fire zi zone_of (S fuel) schedule (VInt now) (VInt <$> Some a) =
      if now <? w_stamp w + window then Ok (Some (w_stamp w)) else if next + window <=? now then Ok (Some t) else Ok (Some next)).
    { cbn [next_fire fmap option_fmap option_map]. rewrite Ec. cbn [mbind res_bind]. unfold slot_dict, dget_or, status_of. cbn -[next_fire].
      destruct (now <? w_stamp w) eqn:E1; bool_norm; [by rewrite (proj2 (Z.ltb_lt _ _)) by lia |].
      destruct (now <? w_stamp w + window) eqn:E2; [done |]. cbn -[next_fire].
      replace (w_stamp w + window - w_stamp w) with window by lia. destruct (next + window <=? now); [exact Ht | done]. }
    rewrite Hf. destruct (now <? w_stamp w + window) eqn:Ew; [| destruct (next + window <=? now) eqn:Enx]; bool_norm;
      (eexists; split; [done |]); (split; [done |]); (split; [lia |]); (split; [lia | done]).
  - destruct (Hnow (S fuel)) as (t & Ht & Ht1 & Ht2 & Ht3 & Ht4). exists t. split; [done |]. done.
Qed.

(** ** Witnesses *)

(** A zone that goes from UTC to one hour ahead at 2024-03-31T01:00Z. *)
Definition spring : Z := 1711846800.
Definition spring_zone : zone :=
  Zone (fun w f => if w <? spring then 0 else if w <? spring + 3600 then (if f : bool then 3600 else 0) else 3600)
    (fun t => if t <? spring then 0 else 3600).

Ltac zone_cases :=
  repeat match goal with
  | |- context [?a <? ?b] => destruct (Z.ltb_spec a b)
  | H : context [?a <? ?b] |- _ => destruct (Z.ltb_spec a b)
  end.

Lemma spring_shown w : shown spring_zone w <-> w < spring \/ spring + 3600 <= w.
Proof.
  unfold shown, fromtimestamp. cbn. split.
  - intros [t H]. zone_cases; lia.
  - intros [H | H]; [exists w | exists (w - 3600)]; zone_cases; lia.
Qed.

#[export] Instance spring_laws : ZoneLaws spring_zone.
Proof.
  split.
  - intros w [|]; cbn; zone_cases; lia.
  - intros t. cbn. zone_cases; lia.
  - intros w f H%spring_shown. unfold fromtimestamp, timestamp. cbn. destruct f; zone_cases; lia.
  - intros t. unfold fromtimestamp, timestamp. cbn. zone_cases; lia.
  - intros w Hw. rewrite spring_shown in Hw. assert (Hb : spring <= w < spring + 3600) by lia.
    exists (spring + 3600 - w), 3600. unfold fromtimestamp, timestamp. cbn.
    split; [lia |]. split; [zone_cases; lia |]. split; [zone_cases; lia |].
    split; intros i Hi; rewrite spring_shown; lia.
Qed.

Lemma spring_dates : dates_ordered spring_zone.
Proof. intros t t' H. apply Z.div_le_mono; [lia |]. unfold fromtimestamp. cbn. zone_cases; lia. Qed.

Lemma resolve_correct_witness :
  exists t r, resolve spring_zone (spring + 1800) = Ok (t, r) /\ first_shows spring_zone (spring + 3600) t /\ r = "gap".
Proof.
  destruct (resolve_correct spring_zone spring_laws (spring + 1800)) as (t & r & w & E & (Hw & Hs & Hno) & Hf & Hg & _).
  assert (w = spring + 3600) as ->.
  { rewrite spring_shown in Hs. destruct (decide (w <= spring + 3600)); [lia |].
    exfalso. apply (Hno (spring + 3600)); [lia |]. rewrite spring_shown. lia. }
  exists t, r. split; [exact E |]. split; [exact Hf |]. apply Hg. lia.
Defined.

(** Sundays at 01:30, the skipped half hour, one hour long. *)
Definition sample_when (tz : string) (wday hour minute window : Z) : pyval :=
  VDict [("kind", VStr "recurring"); ("weekday", VInt wday); ("hour", VInt hour); ("minute", VInt minute);
         ("tz", VStr tz); ("window_seconds", VInt window)].
Definition sample_definition (w : pyval) : dict :=
  [("kind", VStr "assign"); ("target", VDict [("device_ids", VList [VStr "edge-1"])]);
   ("payload", VDict [("image_ids", VList [VStr "img-1"])]); ("when", w)].
Definition any_zone (tz : string) : res unit := Ok tt.

Lemma sample_recurring tz wday hour minute window :
  tz = "Europe/London" \/ tz = "America/St_Johns" ->
  0 <= hour <= 23 -> 0 <= minute <= 59 -> 0 <= wday <= 6 -> 1 <= window <= MAX_WINDOW_SECONDS ->
  recurring any_zone (sample_definition (sample_when tz wday hour minute window)) tz hour minute wday window 0.
Proof.
  intros Htz Hh Hm Hw Hwin. split; [| by vm_compute].
  assert (Hi : forall x f a b, a <= x <= b -> _integer (VInt x) f a b = Ok x).
  { intros x f a b Hx. unfold _integer. by rewrite (proj2 (Z.leb_le _ _) (proj1 Hx)), (proj2 (Z.leb_le _ _) (proj2 Hx)). }
  assert (Hwhen : normalize_when any_zone (sample_when tz wday hour minute window) =
    Ok (dict_or_empty (sample_when tz wday hour minute window))).
  { unfold normalize_when, sample_when. cbn -[_integer _text].
    assert (_text (VStr tz) "timezone" 128 false = Ok tz) as -> by (destruct Htz as [-> | ->]; reflexivity).
    cbn -[_integer]. rewrite Hi by done. cbn -[_integer]. rewrite Hi by lia. cbn -[_integer]. rewrite Hi by lia. cbn -[_integer].
    rewrite Hi by lia. reflexivity. }
  exists [("kind", VStr "assign"); ("target", VDict [("filters", VDict []); ("device_ids", strs ["edge-1"]); ("bind", VStr "late")]);
    ("payload", VDict [("image_ids", strs ["img-1"]); ("mode", VStr "merge")]);
    ("when", sample_when tz wday hour minute window); ("state", VStr "pending")], (dict_or_empty (sample_when tz wday hour minute window)).
  split; [| done]. unfold normalize_definition.
  change (definition_of (sample_definition (sample_when tz wday hour minute window))) with
    (sample_definition (sample_when tz wday hour minute window)).
  change (sample_when tz wday hour minute window) with (VDict (dict_or_empty (sample_when tz wday hour minute window))) in *.
  rewrite dict_or_empty_dict in *. revert Hwhen. generalize (dict_or_empty (sample_when tz wday hour minute window)).
  intros d Hwhen. cbn -[normalize_when]. by rewrite Hwhen.
Qed.

Lemma cursor_slot_first_witness :
  exists slot t, occurrence_slot any_zone (fun _ => spring_zone) (sample_definition (sample_when "Europe/London" 6 1 30 3600))
      (VInt spring) (Some (VInt (spring - 3600))) = Ok (Some slot) /\
    dget slot "scheduled_at" = Some (VInt t) /\ spring - 3600 < t.
Proof.
  destruct (cursor_slot_first any_zone (fun _ => spring_zone) (sample_definition (sample_when "Europe/London" 6 1 30 3600))
    "Europe/London" 1 30 6 3600 0 spring (spring - 3600) spring_laws) as (slot & t & next & E & Ht & _ & _ & _ & _ & Hlt & _).
  - apply sample_recurring; [by left | | | |]; unfold MAX_WINDOW_SECONDS; lia.
  - unfold spring, MAX_EPOCH. lia.
  - unfold spring, MAX_EPOCH. lia.
  - exists slot, t. split; [exact E |]. split; [exact Ht | exact Hlt].
Defined.

Lemma next_fire_dispatchable_witness :
  exists t, next_fire any_zone (fun _ => spring_zone) 1 (sample_definition (sample_when "Europe/London" 6 1 30 3600))
      (VInt (spring + 86400)) None = Ok (Some t) /\ spring + 86400 < t + 3600.
Proof.
  destruct (next_fire_dispatchable any_zone (fun _ => spring_zone) (sample_definition (sample_when "Europe/London" 6 1 30 3600))
    "Europe/London" 1 30 6 3600 0 (spring + 86400) None 0 spring_laws) as (t & E & _ & _ & H & _).
  - apply sample_recurring; [by left | | | |]; unfold MAX_WINDOW_SECONDS; lia.
  - apply spring_dates.
  - unfold spring, MAX_EPOCH. lia.
  - exact I.
  - exists t. split; [exact E | exact H].
Defined.

(** ** Where the promise fails *)

(** Newfoundland until 2011: the clock went back an hour at 00:01 on a Sunday. *)
Definition autumn : Z := 1162089060.
Definition newfoundland : zone :=
  Zone (fun w f => if w <? autumn - 12600 then -9000 else if w <? autumn - 9000 then (if f : bool then -12600 else -9000) else -12600)
    (fun t => if t <? autumn then -9000 else -12600).

(** C40: the clock change that repeats the end of the day before defeats [next_fire]: in
    Newfoundland on 2006-10-29, a minute after the clock went back from 00:01 to 23:01,
    a weekly schedule for Sundays at 00:00 makes the call repeat itself with the same
    arguments, whatever the depth of the recursion. *)
Theorem next_fire_recurs_forever (fuel : nat) :
  next_fire any_zone (fun _ => newfoundland) fuel (sample_definition (sample_when "America/St_Johns" 6 0 0 1))
    (VInt (autumn + 60)) None = Err OutOfFuel.
Proof.
  destruct (compute_slot any_zone (fun _ => newfoundland) (sample_definition (sample_when "America/St_Johns" 6 0 0 1))
    (VInt (autumn + 60)) None) as [o |] eqn:E; [| vm_compute in E; discriminate E].
  assert (Ho : exists s, o = Some s /\ dget_or s "status" VNone = VStr "missed" /\
    dget_or s "scheduled_at" VNone = VInt (autumn - 604860) /\ dget_or s "window_end" VNone = VInt (autumn - 604859) /\
    dget_or s "next_at" VNone = VInt (autumn - 60)).
  { vm_compute in E. injection E as <-. eexists. done. }
  destruct Ho as (s & -> & H1 & H2 & H3 & H4).
  induction fuel as [| fuel IH]; cbn [next_fire]; rewrite E; cbn [mbind res_bind]; rewrite H1, H2, H3, H4; [reflexivity |].
  cbn -[next_fire]. exact IH.
Qed.
