(* ===== verification/SchedStore.v ===== *)
(** * [server/schedules.py]: the schedule and occurrence stores

    Definitions with per-row compare-and-swap, the revision floor of retired
    schedules, the progress cursor, and the occurrences that freeze what fired.  The
    four durable maps are used through [RowStore]; an operation that nests one store's
    update in another's runs them in the order of the code. *)
From S2P Require Import Prelude PyVal JsonDump Sha256 PolicyDoc KeyedState KeyedSpec.
From S2P Require Import SchedDoc SchedTime.

Abbreviation conflict := ScheduleConflict.

(** ** Rows of the auxiliary stores *)

Definition _progress_valid (key : string) (row : pyval) : res unit :=
  let* _ := _identifier (VStr key) "id" in
  let* d := _object row ["generation"; "last_slot"; "active_occurrence_id"] "schedule progress"
    ["generation"; "last_slot"; "active_occurrence_id"] in
  let* _ := _hex (dget_or d "generation" VNone) "generation" in
  let* _ := _integer (dget_or d "last_slot" VNone) "last_slot" 0 MAX_EPOCH in
  let* _ := _hex (dget_or d "active_occurrence_id" VNone) "occurrence id" in
  Ok tt.

Definition _retired_valid (key : string) (row : pyval) : res unit :=
  let* _ := _identifier (VStr key) "id" in
  let* d := _object row ["revision"] "retired schedule" ["revision"] in
  let* _ := _integer (dget_or d "revision" VNone) "retired revision" 1 MAX_INTEGER in
  Ok tt.

(** ** Occurrences *)

(** [hashlib.sha256((generation + ":" + str(scheduled_at)).encode()).hexdigest()[:32]] *)
Definition occurrence_id (schedule : dict) (scheduled_at : pyval) : res string :=
  let* generation := _hex (dget_or schedule "generation" VNone) "generation" in
  let* at_ := _integer scheduled_at "scheduled_at" 0 MAX_EPOCH in
  Ok (epoch_of (generation +:+ ":" +:+ string_of (dec at_))).

Definition slot_keys : list string :=
  ["scheduled_at"; "window_end"; "status"; "resolution"; "tz"; "local_time"; "next_at"].

Definition _validate_slot (slot : pyval) : res dict :=
  let* d := _object slot slot_keys "slot" slot_keys in
  let field k := dget_or d k VNone in
  let* at_ := _integer (field "scheduled_at") "scheduled_at" 0 MAX_EPOCH in
  let* _ := _integer (field "window_end") "window_end" (at_ + 1) (at_ + MAX_WINDOW_SECONDS) in
  raise (verr "invalid slot state") when
    negb (in_strs (field "status") ["future"; "due"; "missed"]) || negb (in_strs (field "resolution") ["normal"; "gap"; "fold"]) ;;;
  let* _ := _text (field "tz") "timezone" 128 false in
  let* _ := _text (field "local_time") "local_time" 64 false in
  (if is_none (field "next_at") then Ok tt
   else let* _ := _integer (field "next_at") "next_at" (at_ + 1) MAX_EPOCH in Ok tt) ;;;
  Ok d.

(** The device ids of a snapshot, as strings. *)
Definition snapshot_ids (snapshot : pyval) : list string :=
  omap as_str (default [] (as_list (dget_or (dict_or_empty snapshot) "device_ids" VNone))).

(** [len(set(a) - set(b))] *)
Definition count_new (a b : list string) : Z := zlen (filter (fun x => x ∉ b) (remove_dups a)).

Definition occurrence_keys : list string :=
  ["id"; "schedule_id"; "schedule_generation"; "schedule_rev"; "schedule"; "actor"; "slot"; "scheduled_at"; "window_end";
   "state"; "preview"; "target_snapshot"; "delta"; "annotations"; "created_at"; "updated_at"].
Definition occurrence_required : list string :=
  filter (fun k => k ∉ ["target_snapshot"; "delta"; "annotations"]) occurrence_keys.

(** [normalize_wave(wave) != wave] is refused. *)
Definition check_wave (wave : pyval) : res unit :=
  let* w := normalize_wave wave in
  raise (verr "wave gate is not normalized") when negb (py_eq (VDict w) wave) ;;;
  Ok tt.

Definition check_annotations (annotations : pyval) : res unit :=
  let* a := _object annotations ["all_targets_quarantined"; "wave"] "occurrence annotations" [] in
  (match dget a "all_targets_quarantined" with
   | Some v => let* _ := _integer v "all_targets_quarantined" 1 MAX_TARGETS in Ok tt
   | None => Ok tt
   end) ;;;
  match dget a "wave" with Some v => check_wave v | None => Ok tt end.

Section occurrences.
Context (zoneinfo : string -> res unit) (zone_of : string -> zone).

Definition _validate_occurrence (key : string) (row : pyval) : res unit :=
  let* d := _object row occurrence_keys "occurrence" occurrence_required in
  let field k := dget_or d k VNone in
  let* _ := _hex (VStr key) "occurrence id" in
  validate_schedule zoneinfo (field "schedule_id") (field "schedule") ;;;
  let schedule := dict_or_empty (field "schedule") in
  let sfield k := dget_or schedule k VNone in
  raise (verr "occurrence authority mismatch") when negb (py_eq (field "id") (VStr key)) ;;;
  let* oid := occurrence_id schedule (field "scheduled_at") in
  raise (verr "occurrence authority mismatch") when
    negb (String.eqb oid key) || negb (py_eq (field "schedule_generation") (sfield "generation")) ||
    match strict_int (field "schedule_rev") with Some _ => false | None => true end ||
    negb (py_eq (field "schedule_rev") (sfield "rev")) ||
    negb (py_eq (field "actor") (VStr ("schedule:" +:+ text_of (field "schedule_id")))) ;;;
  let* slot := _validate_slot (field "slot") in
  let* _ := _integer (field "scheduled_at") "scheduled_at" 0 MAX_EPOCH in
  let* window_end := _integer (field "window_end") "window_end" 0 MAX_EPOCH in
  raise (verr "occurrence window mismatch") when
    negb (py_eq (field "scheduled_at") (dget_or slot "scheduled_at" VNone)) ||
    negb (py_eq (field "window_end") (dget_or slot "window_end" VNone)) ;;;
  raise (verr "invalid occurrence state") when negb (in_strs (field "state") (map fst OCCURRENCE_TRANSITIONS)) ;;;
  let* _ := normalize_snapshot (field "preview") in
  let* created_at := _integer (field "created_at") "occurrence created_at" 0 MAX_EPOCH in
  let* _ := _integer (field "updated_at") "occurrence updated_at" created_at MAX_EPOCH in
  (match dget d "annotations" with Some a => check_annotations a | None => Ok tt end) ;;;
  if py_eq (field "state") (VStr "missed") then
    raise (verr "missed occurrence must be expired and unbound") when
      dhas d "target_snapshot" || dhas d "delta" || (created_at <? window_end) ||
      negb (py_eq (dget_or slot "status" VNone) (VStr "missed")) ;;;
    Ok tt
  else
    raise (verr "dispatchable occurrence needs a bound target") when negb (dhas d "target_snapshot" && dhas d "delta") ;;;
    let* _ := normalize_snapshot (field "target_snapshot") in
    let* delta := _object (field "delta") ["added"; "removed"] "target delta" ["added"; "removed"] in
    let prior := snapshot_ids (field "preview") in
    let fired := snapshot_ids (field "target_snapshot") in
    let* added := _integer (dget_or delta "added" VNone) "added" 0 MAX_TARGETS in
    raise (verr "occurrence target delta mismatch") when negb (added =? count_new fired prior) ;;;
    let* removed := _integer (dget_or delta "removed" VNone) "removed" 0 MAX_TARGETS in
    raise (verr "occurrence target delta mismatch") when negb (removed =? count_new prior fired) ;;;
    Ok tt.

(** ** The occurrence store *)

Context {T : Type} `{RO : RowStore T _validate_occurrence}.
#[local] Abbreviation occ_update := (rs_update (V:=_validate_occurrence)).

(** A row written or kept by an update; [None] does not arise here. *)
Definition put_row (r : res upd * (T * unit)) : res dict * T :=
  match r with
  | (Ok (UPut row), (s, _)) => (Ok (dict_or_empty row), s)
  | (Ok _, (s, _)) => (Ok [], s)
  | (Err e, (s, _)) => (Err e, s)
  end.

Definition occ_get (identifier : pyval) : sm T (option pyval) :=
  let! key := lift (_hex identifier "occurrence id") in rs_get (V:=_validate_occurrence) key.

(** Rows by [(scheduled_at, id)]. *)
Definition occ_le (a b : pyval) : bool :=
  let fa k := dget_or (dict_or_empty a) k VNone in
  let fb k := dget_or (dict_or_empty b) k VNone in
  (int_of (fa "scheduled_at") <? int_of (fb "scheduled_at")) ||
  ((int_of (fa "scheduled_at") =? int_of (fb "scheduled_at")) && str_leb (text_of (fa "id")) (text_of (fb "id"))).

Definition occ_list (schedule_id : option pyval) : sm T (list pyval) :=
  let! _ := lift (match schedule_id with Some v => let* _ := _identifier v "id" in Ok tt | None => Ok tt end) in
  let! rows := rs_snapshot (V:=_validate_occurrence) in
  sret (sort_by occ_le (filter (fun row =>
    match schedule_id with Some v => py_eq (dget_or (dict_or_empty row) "schedule_id" VNone) v | None => true end = true)
    (map snd rows))).

(** The row of a claimed slot. *)
Definition claim_row (schedule slot : dict) (identifier : string) (target_snapshot : pyval) (now : Z) : res dict :=
  let sfield k := dget_or schedule k VNone in
  let* preview := normalize_snapshot (sfield "preview") in
  let at_ := int_of (dget_or slot "scheduled_at" VNone) in
  let missed := int_of (dget_or slot "window_end" VNone) <=? now in
  raise (verr "missed occurrence must not claim a target snapshot") when missed && negb (is_none target_snapshot) ;;;
  let frozen_slot := dset slot "status" (VStr (if missed then "missed" else if now <? at_ then "future" else "due")) in
  let row :=
    [("id", VStr identifier); ("schedule_id", sfield "id"); ("schedule_generation", sfield "generation");
     ("schedule_rev", sfield "rev"); ("schedule", VDict schedule); ("actor", VStr ("schedule:" +:+ text_of (sfield "id")));
     ("slot", VDict frozen_slot); ("scheduled_at", dget_or slot "scheduled_at" VNone);
     ("window_end", dget_or slot "window_end" VNone); ("state", VStr (if missed then "missed" else "pending"));
     ("preview", VDict preview); ("created_at", VInt now); ("updated_at", VInt now)] in
  let* row :=
    if missed then Ok row
    else
      let* snapshot := normalize_snapshot target_snapshot in
      let early := py_eq (dget_or (dict_or_empty (sfield "target")) "bind" VNone) (VStr "early") in
      let snapshot := if early then dset snapshot "device_ids" (dget_or preview "device_ids" VNone) else snapshot in
      let prior := snapshot_ids (VDict preview) in
      let fired := snapshot_ids (VDict snapshot) in
      Ok (row ++ [("target_snapshot", VDict snapshot);
                  ("delta", VDict [("added", VInt (count_new fired prior)); ("removed", VInt (count_new prior fired))])]) in
  _validate_occurrence identifier (VDict row) ;;;
  Ok row.

Definition occ_create (schedule : dict) (slot target_snapshot now : pyval) : sm T dict := fun s =>
  match (validate_schedule zoneinfo (dget_or schedule "id" VNone) (VDict schedule) ;;;
         let* slot := _validate_slot slot in
         let* now := _integer now "now" 0 MAX_EPOCH in
         let* identifier := occurrence_id schedule (dget_or slot "scheduled_at" VNone) in
         Ok (slot, now, identifier)) with
  | Err e => (Err e, s)
  | Ok (slot, now, identifier) =>
      put_row (occ_update identifier (fun old =>
        match old with
        | Some row => sret (UPut row)
        | None => lift (let* row := claim_row schedule slot identifier target_snapshot now in Ok (UPut (VDict row)))
        end) (s, tt))
  end.

(** The decision of [transition] on the stored row. *)
Definition transition_row (identifier : string) (state : pyval) (now : Z) (expected_state : pyval) (old : option pyval) : res upd :=
  match old with
  | None => Err (ScheduleNotFound "no such occurrence")
  | Some old =>
      let row := dict_or_empty old in
      let current := dget_or row "state" VNone in
      raise (conflict "occurrence state changed") when negb (is_none expected_state) && negb (py_eq current expected_state) ;;;
      if py_eq state current then Ok (UPut old)
      else
        raise (conflict "a bound occurrence cannot become an unbound missed slot") when py_eq state (VStr "missed") ;;;
        raise (conflict "invalid occurrence transition") when
          negb (in_strs state (dget_or OCCURRENCE_TRANSITIONS (text_of current) [])) ;;;
        let row := dset (dset row "state" state) "updated_at"
          (VInt (Z.max now (int_of (dget_or row "updated_at" VNone)))) in
        _validate_occurrence identifier (VDict row) ;;;
        Ok (UPut (VDict row))
  end.

Definition occ_transition (identifier state now expected_state : pyval) : sm T dict := fun s =>
  match (let* key := _hex identifier "occurrence id" in let* now := _integer now "now" 0 MAX_EPOCH in Ok (key, now)) with
  | Err e => (Err e, s)
  | Ok (key, now) => put_row (occ_update key (fun old => lift (transition_row key state now expected_state old)) (s, tt))
  end.

(** [row.get("annotations") or {}] *)
Definition annotations_of (row : dict) : dict := dict_or_empty (dget_or row "annotations" VNone).

Definition quarantined_row (identifier : string) (count now : Z) (old : option pyval) : res upd :=
  match old with
  | None => Err (ScheduleNotFound "no such occurrence")
  | Some old =>
      let row := dict_or_empty old in
      raise (conflict "missed occurrence has no bound target") when py_eq (dget_or row "state" VNone) (VStr "missed") ;;;
      match dget_or (annotations_of row) "all_targets_quarantined" VNone with
      | VNone =>
          let row := dset row "annotations" (VDict (dset (annotations_of row) "all_targets_quarantined" (VInt count))) in
          let row := dset row "updated_at" (VInt (Z.max now (int_of (dget_or row "updated_at" VNone)))) in
          _validate_occurrence identifier (VDict row) ;;;
          Ok (UPut (VDict row))
      | existing =>
          if py_eq existing (VInt count) then Ok (UPut old) else Err (conflict "occurrence annotation changed")
      end
  end.

Definition annotate_all_targets_quarantined (identifier count now : pyval) : sm T dict := fun s =>
  match (let* key := _hex identifier "occurrence id" in
         let* count := _integer count "all_targets_quarantined" 1 MAX_TARGETS in
         let* now := _integer now "now" 0 MAX_EPOCH in Ok (key, count, now)) with
  | Err e => (Err e, s)
  | Ok (key, count, now) => put_row (occ_update key (fun old => lift (quarantined_row key count now old)) (s, tt))
  end.

Definition wave_row (identifier : string) (wave : dict) (now : Z) (old : option pyval) : res upd :=
  match old with
  | None => Err (ScheduleNotFound "no such occurrence")
  | Some old =>
      let row := dict_or_empty old in
      raise (conflict "missed occurrence has no bound target") when py_eq (dget_or row "state" VNone) (VStr "missed") ;;;
      let annotations := annotations_of row in
      let existing := dget_or annotations "wave" VNone in
      if negb (is_none existing) && py_eq (VDict (_wave_counts (dict_or_empty existing))) (VDict (_wave_counts wave))
      then Ok (UPut old)
      else
        raise (conflict "an opened wave gate cannot close") when
          negb (is_none existing) && py_eq (dget_or (dict_or_empty existing) "gate" VNone) (VStr "open") &&
          negb (py_eq (dget_or wave "gate" VNone) (VStr "open")) ;;;
        let row' := dset (dset row "annotations" (VDict (dset annotations "wave" (VDict wave)))) "updated_at"
          (VInt (Z.max now (int_of (dget_or row "updated_at" VNone)))) in
        _validate_occurrence identifier (VDict row') ;;;
        Ok (UPut (VDict row'))
  end.

Definition annotate_wave (identifier wave now : pyval) : sm T dict := fun s =>
  match (let* key := _hex identifier "occurrence id" in
         let* wave := normalize_wave wave in
         let* now := _integer now "now" 0 MAX_EPOCH in Ok (key, wave, now)) with
  | Err e => (Err e, s)
  | Ok (key, wave, now) => put_row (occ_update key (fun old => lift (wave_row key wave now old)) (s, tt))
  end.

(** [except ScheduleConflict]: the class and its subclasses. *)
Definition is_conflict (e : pyexn) : bool :=
  match e with ScheduleConflict _ | ScheduleNotFound _ | ScheduleRevisionConflict _ _ => true | _ => false end.

Definition recover_interrupted (now : pyval) : sm T (list pyval) :=
  let! rows := occ_list None in
  sfold (fun recovered row =>
    let field k := dget_or (dict_or_empty row) k VNone in
    if py_eq (field "state") (VStr "running") then fun s =>
      match occ_transition (field "id") (VStr "interrupted") now (VStr "running") s with
      | (Ok _, s) => (Ok (recovered ++ [field "id"]), s)
      | (Err e, s) => if is_conflict e then (Ok recovered, s) else (Err e, s)
      end
    else sret recovered) [] rows.

Definition latest_slot (schedule : dict) : sm T (option Z) :=
  let! rows := occ_list (Some (dget_or schedule "id" VNone)) in
  sret (foldl (fun m row =>
    let field k := dget_or (dict_or_empty row) k VNone in
    if py_eq (field "schedule_generation") (dget_or schedule "generation" VNone)
    then Some (match m with Some x => Z.max x (int_of (field "scheduled_at")) | None => int_of (field "scheduled_at") end)
    else m) None rows).

(** [rows[offset:offset + limit]] and the flag that something was left out. *)
Definition list_schedule_occurrences (schedule_id limit offset : pyval) : sm T (list pyval * Z * Z * bool) :=
  let! _ := lift (_identifier schedule_id "schedule id") in
  let! limit := lift (_integer limit "occurrence limit" 1 MAX_OCCURRENCE_PAGE) in
  let! offset := lift (_integer offset "occurrence offset" 0 MAX_INTEGER) in
  let! rows := occ_list (Some schedule_id) in
  sret (slice rows offset (offset + limit), zlen rows, offset, (0 <? offset) || (offset + limit <? zlen rows)).
End occurrences.
