(* ===== verification/SchedOps.v ===== *)
(** * [server/schedules.py]: [ScheduleStore] *)
From S2P Require Import Prelude PyVal JsonDump PolicyDoc JsonText KeyedState KeyedSpec SchedDoc SchedValid SchedTime SchedTimeSpec SchedStore.

(** [expected_rev] is ["*"] or a revision. *)
Definition _compare (schedule_id : string) (old : option pyval) (expected_rev : pyval) : res dict :=
  match old with
  | None => Err (ScheduleNotFound "no such schedule")
  | Some old =>
      let row := dict_or_empty old in
      if py_eq expected_rev (VStr "*") then Ok row
      else
        let* rev := _integer expected_rev "expected_rev" 1 MAX_INTEGER in
        if py_eq (dget_or row "rev" VNone) (VInt rev) then Ok row
        else Err (ScheduleRevisionConflict schedule_id (int_of (dget_or row "rev" VNone)))
  end.

(** [for key in DEFINITION_KEYS: row.pop(key, None)] then [row.update(normalized)]. *)
Definition replace_definition (row normalized : dict) : dict :=
  dupdate (foldl dpop row DEFINITION_KEYS) normalized.

Section store.
Context (zoneinfo : string -> res unit) (zone_of : string -> zone).

Definition row_valid (key : string) (row : pyval) : res unit := validate_schedule zoneinfo (VStr key) row.

Context {T : Type} `{RR : RowStore T row_valid} `{RP : RowStore T _progress_valid} `{RF : RowStore T _retired_valid}
  `{RO : RowStore T (_validate_occurrence zoneinfo)}.
#[local] Abbreviation row_update := (rs_update (V:=row_valid)).

(** The four files of the state directory. *)
Record sched := Sched { s_rows : T; s_progress : T; s_retired : T; s_occ : T }.

Definition schedule_etag (row : dict) : res string :=
  let* i := _identifier (dget_or row "id" VNone) "id" in
  let* rev := _integer (dget_or row "rev" VNone) "rev" 1 MAX_INTEGER in
  Ok (string_of (quote ++ bytes_of ("iris-schedule-" +:+ i +:+ "-") ++ dec rev ++ quote)).

Definition sched_get (schedule_id : pyval) : sm sched (option pyval) :=
  let! key := lift (_identifier schedule_id "id") in
  zoom s_rows (fun t s => Sched t (s_progress s) (s_retired s) (s_occ s)) (rs_get (V:=row_valid) key).

Definition id_le (a b : pyval) : bool :=
  str_leb (text_of (dget_or (dict_or_empty a) "id" VNone)) (text_of (dget_or (dict_or_empty b) "id" VNone)).

Definition sched_list : sm sched (list pyval) :=
  let! rows := zoom s_rows (fun t s => Sched t (s_progress s) (s_retired s) (s_occ s)) (rs_snapshot (V:=row_valid)) in
  sret (sort_by id_le (map snd rows)).

(** The revision below which a schedule id has been used. *)
Definition floor_of (retired : option pyval) : Z :=
  match retired with Some row => int_of (dget_or (dict_or_empty row) "revision" (VInt 0)) | None => 0 end.

(** The row of a new schedule; [generation] is [uuid.uuid4().hex]. *)
Definition create_row (schedule_id generation : string) (normalized preview : dict) (floor : Z) (actor now : pyval) : res dict :=
  let row := dupdate normalized
    [("id", VStr schedule_id); ("generation", VStr generation); ("rev", VInt (floor + 1)); ("created_by", actor);
     ("created_at", now); ("preview", VDict preview)] in
  validate_schedule zoneinfo (VStr schedule_id) (VDict row) ;;;
  Ok row.

(** The result of an update that writes a row. *)
Definition rows_result {W} (back : W -> sched -> sched) (s : sched) (r : res upd * (T * W)) : res dict * sched :=
  let '(o, (t, w)) := r in
  let s' := back w (Sched t (s_progress s) (s_retired s) (s_occ s)) in
  match o with
  | Ok (UPut row) => (Ok (dict_or_empty row), s')
  | Ok _ => (Ok [], s')
  | Err e => (Err e, s')
  end.

Definition set_retired (w : T) (s : sched) : sched := Sched (s_rows s) (s_progress s) w (s_occ s).

Definition create (schedule_id definition : pyval) (actor now preview : pyval) (generation : string) : sm sched dict := fun s =>
  match (let* key := _identifier schedule_id "id" in
         let* normalized := normalize_definition zoneinfo definition in
         let* preview := normalize_snapshot preview in
         Ok (key, normalized, preview)) with
  | Err e => (Err e, s)
  | Ok (key, normalized, preview) =>
      rows_result set_retired s (row_update key (fun old =>
        match old with
        | Some _ => lift (Err (conflict "schedule already exists"))
        | None =>
            let! retired := rs_get (V:=_retired_valid) key in
            lift (let* row := create_row key generation normalized preview (floor_of retired) actor now in Ok (UPut (VDict row)))
        end) (s_rows s, s_retired s))
  end.

(** One compare-and-swap edit. *)
Definition edit_row (schedule_id : string) (expected_rev : pyval) (change : dict -> res dict) (old : option pyval) : res upd :=
  let* row := _compare schedule_id old expected_rev in
  let* row := change row in
  let row := dset row "rev" (VInt (int_of (dget_or row "rev" VNone) + 1)) in
  validate_schedule zoneinfo (VStr schedule_id) (VDict row) ;;;
  Ok (UPut (VDict row)).

Definition _edit (schedule_id expected_rev : pyval) (change : dict -> res dict) : sm sched dict := fun s =>
  match _identifier schedule_id "id" with
  | Err e => (Err e, s)
  | Ok key =>
      rows_result (fun _ s => s) s
        (row_update key (fun old => lift (edit_row key expected_rev change old)) (s_rows s, tt))
  end.

(** A new definition in place of the old one; [retarget] is the new preview. *)
Definition put_change (normalized : dict) (preview : pyval) (row : dict) : res dict :=
  let target_changed := negb (py_eq (dget_or normalized "target" VNone) (dget_or row "target" VNone)) in
  raise (verr "retargeting requires a new server preview") when target_changed && is_none preview ;;;
  let row := replace_definition row normalized in
  if target_changed then let* p := normalize_snapshot preview in Ok (dset row "preview" (VDict p)) else Ok row.

Definition put (schedule_id definition expected_rev preview : pyval) : sm sched dict := fun s =>
  match normalize_definition zoneinfo definition with
  | Err e => (Err e, s)
  | Ok normalized => _edit schedule_id expected_rev (put_change normalized preview) s
  end.

(** Complete top-level subobjects are replaced; a null [after] removes it. *)
Definition patched (row patch : dict) : dict :=
  let definition := dupdate (definition_of row) patch in
  match dget definition "after" with Some VNone => dpop definition "after" | _ => definition end.

Definition patch_change (patch : dict) (preview : pyval) (row : dict) : res dict :=
  let* normalized := normalize_definition zoneinfo (VDict (patched row patch)) in
  put_change normalized preview row.

Definition patch (schedule_id patch_ expected_rev preview : pyval) : sm sched dict := fun s =>
  match _object patch_ DEFINITION_KEYS "schedule patch" [] with
  | Err e => (Err e, s)
  | Ok p => _edit schedule_id expected_rev (patch_change p preview) s
  end.

Definition reaffirm (schedule_id actor expected_rev : pyval) : sm sched dict := fun s =>
  match _actor actor with
  | Err e => (Err e, s)
  | Ok _ => _edit schedule_id expected_rev (fun row => Ok (dset row "created_by" actor)) s
  end.

(** The floor is durable before the row goes. *)
Definition delete_ (schedule_id expected_rev : pyval) : sm sched bool := fun s =>
  match _identifier schedule_id "id" with
  | Err e => (Err e, s)
  | Ok key =>
      let '(r, s') := rows_result set_retired s (row_update key (fun old =>
        let! row := lift (_compare key old expected_rev) in
        let! prior := rs_get (V:=_retired_valid) key in
        let floor := Z.max (int_of (dget_or row "rev" VNone)) (floor_of prior) in
        let! _ := (fun w => let '(r, (w, _)) := rs_update (V:=_retired_valid) key
                     (fun _ => sret (UPut (VDict [("revision", VInt floor)]))) (w, tt) in (r, w)) in
        sret UDelete) (s_rows s, s_retired s)) in
      match r with Ok _ => (Ok true, s') | Err e => (Err e, s') end
  end.

Definition referring_schedules (role : string) : sm sched (list pyval) :=
  let! rows := sched_list in
  sret (map (fun row => dget_or (dict_or_empty row) "id" VNone) (filter (fun row =>
    let target := dict_or_empty (dget_or (dict_or_empty row) "target" VNone) in
    let filters := dict_or_empty (dget_or target "filters" VNone) in
    py_eq (dget_or filters "role" VNone) (VStr role) && negb (String.eqb role "__none") = true) rows)).

(** The cursor counts only for the generation it was made for. *)
Definition progress (schedule_id : pyval) : sm sched (option pyval) :=
  let! row := sched_get schedule_id in
  let! key := lift (_identifier schedule_id "id") in
  let! p := zoom s_progress (fun t s => Sched (s_rows s) t (s_retired s) (s_occ s)) (rs_get (V:=_progress_valid) key) in
  sret (match row, p with
    | Some row, Some p =>
        if py_eq (dget_or (dict_or_empty p) "generation" VNone) (dget_or (dict_or_empty row) "generation" VNone)
        then Some p else None
    | _, _ => None
    end).

(** ** Claiming a slot *)

(** The recheck of the live schedule. *)
Definition claim_check (schedule_id : string) (expected_rev expected_generation : pyval) (slot now : pyval) (old : option pyval)
    : res (dict * dict * Z) :=
  let* row := _compare schedule_id old expected_rev in
  raise (conflict "schedule generation changed") when
    negb (py_eq (dget_or row "generation" VNone) expected_generation) ;;;
  raise (conflict "schedule is not pending") when negb (py_eq (dget_or row "state" VNone) (VStr "pending")) ;;;
  let* n := _integer now "now" 0 MAX_EPOCH in
  let* slot := _validate_slot slot in
  raise (conflict "schedule window has not opened") when (n <? int_of (dget_or slot "scheduled_at" VNone)) ;;;
  Ok (row, slot, n).

(** The slot must still be the schedule's own slot for that instant. *)
Definition slot_current (row slot : dict) : res unit :=
  let* current := occurrence_slot zoneinfo zone_of row (dget_or slot "scheduled_at" VNone) None in
  match current with
  | None => Err (conflict "schedule slot changed")
  | Some c =>
      if forallb (fun k => py_eq (dget_or c k VNone) (dget_or slot k VNone))
           ["scheduled_at"; "window_end"; "resolution"; "tz"; "local_time"; "next_at"]
      then Ok tt else Err (conflict "schedule slot changed")
  end.

Definition on_fst {A B X} (m : sm A X) : sm (A * B) X := zoom fst (fun a ab => (a, snd ab)) m.
Definition on_snd {A B X} (m : sm B X) : sm (A * B) X := zoom snd (fun b ab => (fst ab, b)) m.

(** The cursor is written unless it is already past the slot. *)
Definition advance_progress (schedule_id : string) (row : dict) (at_ occurrence : pyval) : sm T unit :=
  let! p := rs_get (V:=_progress_valid) schedule_id in
  let due := match p with
    | None => true
    | Some p =>
        negb (py_eq (dget_or (dict_or_empty p) "generation" VNone) (dget_or row "generation" VNone)) ||
        (int_of (dget_or (dict_or_empty p) "last_slot" VNone) <=? int_of at_)
    end in
  if due then
    let candidate := VDict [("generation", dget_or row "generation" VNone); ("last_slot", at_);
                            ("active_occurrence_id", occurrence)] in
    let! _ := lift (_progress_valid schedule_id candidate) in
    fun t => let '(r, (t, _)) := rs_update (V:=_progress_valid) schedule_id (fun _ => sret (UPut candidate)) (t, tt) in
             match r with Ok _ => (Ok tt, t) | Err e => (Err e, t) end
  else sret tt.

(** Occurrence first, then the cursor: the order of the durable writes. *)
Definition claim_steps (schedule_id : string) (row slot : dict) (target_snapshot : pyval) (n : Z) : sm (T * T) dict :=
  let at_ := dget_or slot "scheduled_at" VNone in
  let! oid := lift (occurrence_id row at_) in
  let! existing := on_fst (occ_get zoneinfo (VStr oid)) in
  let! occurrence :=
    match existing with
    | Some o => sret (dict_or_empty o)
    | None =>
        let! _ := lift (slot_current row slot) in
        on_fst (occ_create zoneinfo row (VDict slot) target_snapshot (VInt n))
    end in
  let! _ := on_snd (advance_progress schedule_id row at_ (dget_or occurrence "id" VNone)) in
  sret occurrence.

Definition claim_occurrence (schedule_id expected_rev expected_generation slot target_snapshot now : pyval) : sm sched dict := fun s =>
  match (let* key := _identifier schedule_id "id" in
         let* _ := _integer expected_rev "expected_rev" 1 MAX_INTEGER in
         let* _ := _hex expected_generation "expected_generation" in
         Ok key) with
  | Err e => (Err e, s)
  | Ok key =>
      let '(o, (t, (occ, prog, claimed))) := row_update key (fun old => 
        let! chk := lift (claim_check key expected_rev expected_generation slot now old) in
        let '(row, slot, n) := chk in
        fun w => let '(occ, prog, claimed) := w in
          match claim_steps key row slot target_snapshot n (occ, prog) with
          | (Ok occurrence, (occ, prog)) => (Ok UKeep, (occ, prog, Some occurrence))
          | (Err e, (occ, prog)) => (Err e, (occ, prog, claimed))
          end) (s_rows s, (s_occ s, s_progress s, None)) in
      let s' := Sched t prog (s_retired s) occ in
      match o, claimed with
      | Ok _, Some occurrence => (Ok occurrence, s')
      | Ok _, None => (Err (KeyError "claimed[0]"), s')
      | Err e, _ => (Err e, s')
      end
  end.
End store.

(** ** A weekly schedule, its stores and one of its slots *)

Definition weekly : dict := sample_definition (sample_when "Europe/London" 6 1 30 3600).
Definition weekly_generation : string := "0123456789abcdef0123456789abcdef".
Definition weekly_snapshot : pyval :=
  VDict [("device_ids", VList [VStr "edge-1"]); ("revision", VInt 1); ("now", VInt 1000)].

Definition empty_sched : sched (T:=kstate) := Sched empty_store empty_store empty_store empty_store.
Definition weekly_created : res dict * sched (T:=kstate) :=
  create any_zone (VStr "weekly") (VDict weekly) (VStr "api:ops") (VInt 1000) weekly_snapshot weekly_generation empty_sched.

Definition weekly_row : dict := match fst weekly_created with Ok row => row | Err _ => [] end.
Definition weekly_slot : dict :=
  match occurrence_slot any_zone (fun _ => spring_zone) weekly_row (VInt spring) None with Ok (Some d) => d | _ => [] end.
Definition weekly_at : pyval := dget_or weekly_slot "scheduled_at" VNone.
Definition weekly_claim : sm (sched (T:=kstate)) dict :=
  claim_occurrence any_zone (fun _ => spring_zone) (VStr "weekly") (VInt 1) (VStr weekly_generation) (VDict weekly_slot)
    weekly_snapshot weekly_at.
Definition weekly_claimed : res dict * sched (T:=kstate) := weekly_claim (snd weekly_created).

(** Literal documents have no repeated keys. *)
Ltac good_literal :=
  repeat first
    [ apply good_dict; split; [by_eval | repeat (apply Forall_cons; split; [cbn [snd] |]); try apply Forall_nil_2]
    | split; [split; [by_eval | done] | done] | done ].

Lemma weekly_good : good (VDict weekly).
Proof. unfold weekly, sample_definition, sample_when. good_literal. Qed.
Lemma weekly_snapshot_good : good weekly_snapshot.
Proof. unfold weekly_snapshot. good_literal. Qed.
