(* ===== verification/WaveGate.v ===== *)
(** * [server/schedule_runner.py]: the wave gate

    A schedule may wait for a preceding one.  Its thresholds are ratios, which an
    operator gives as ints or floats; the code multiplies them by the size of the
    preceding target, and that product is a rounded float. *)
From S2P Require Import Prelude PyVal SchedDoc SchedTime.

(** ** Products of floats *)

(** The number of binary digits of [|m|]. *)
Definition digits2 (m : Z) : Z := if m =? 0 then 0 else Z.log2 (Z.abs m) + 1.

(** [m / 2 ^ k] to the nearest integer, ties to even. *)
Definition round_shift (m k : Z) : Z :=
  let q := m / 2 ^ k in
  let r := m mod 2 ^ k in
  if (2 * r <? 2 ^ k) || ((2 * r =? 2 ^ k) && Z.even q) then q else q + 1.

(** The binary64 number nearest to [m * 2 ^ e]: 53 digits, no exponent below -1074. *)
Definition round64 (m e : Z) : pyfloat :=
  let k := Z.max (digits2 m - 53) (-1074 - e) in
  if k <=? 0 then FFin m e else FFin (round_shift m k) (e + k).

(** [ratio * total] for a ratio of an accepted schedule and an [int] below 2 ^ 53: a
    product of ints is exact, a product with a float is rounded. *)
Definition times (ratio : pyval) (total : Z) : pyfloat :=
  match ratio with
  | VInt z => FFin (z * total) 0
  | VFloat (FFin m e) => round64 (m * total) e
  | _ => FNan
  end.

(** ** The decision *)

(** [int(value)] of a number that is not negative. *)
Definition float_trunc (f : pyfloat) : Z := match f with FFin m e => Z.shiftl m e | _ => 0 end.

Definition at_least (n : Z) (f : pyfloat) : bool := num_leb f (FFin n 0).
Definition at_most (n : Z) (f : pyfloat) : bool := num_leb (FFin n 0) f.

Definition _wave_open (after counts : dict) : bool :=
  let count k := int_of (dget_or counts k VNone) in
  let limit k := times (dget_or after k VNone) (count "total") in
  if is_none (dget_or counts "occurrence_id" VNone) then false
  else if count "total" =? 0 then true
  else at_least (count "staged") (limit "min_staged_ratio") &&
       at_most (count "errored") (limit "max_errored_ratio") &&
       at_most (count "missing") (limit "max_missing_ratio").

(** ** Rounding *)

Lemma round_shift_mono m n k : 0 <= k -> m <= n -> round_shift m k <= round_shift n k.
Proof.
  intros Hk Hle. unfold round_shift. set (p := 2 ^ k). assert (0 < p) by (apply Z.pow_pos_nonneg; lia).
  pose proof (Z.div_mod m p) as Hm. pose proof (Z.div_mod n p) as Hn.
  pose proof (Z.mod_pos_bound m p) as Hbm. pose proof (Z.mod_pos_bound n p) as Hbn.
  pose proof (Z.div_le_mono m n p) as Hq.
  destruct ((2 * (m mod p) <? p) || ((2 * (m mod p) =? p) && Z.even (m / p))) eqn:E1;
    destruct ((2 * (n mod p) <? p) || ((2 * (n mod p) =? p) && Z.even (n / p))) eqn:E2; try lia.
  destruct (Z.eq_dec (m / p) (n / p)) as [Heq | Hne]; [| lia]. rewrite Heq in *.
  apply orb_false_iff in E1 as [E1a E1b]. apply orb_true_iff in E2.
  assert (m mod p <= n mod p) by nia. exfalso. destruct E2 as [E2 | [E2a E2b]%andb_true_iff]; [lia |].
  rewrite E2b, andb_true_r in E1b. lia.
Qed.

(** A multiple of the quantum is kept. *)
Lemma round_shift_exact m k : 0 <= k -> round_shift (m * 2 ^ k) k = m.
Proof.
  intros Hk. unfold round_shift. assert (0 < 2 ^ k) by (apply Z.pow_pos_nonneg; lia).
  rewrite Z.div_mul, Z.mod_mul by lia. by rewrite (proj2 (Z.ltb_lt (2 * 0) (2 ^ k))) by lia.
Qed.

(** Comparisons of [m * 2 ^ e] with an integer, without exponents. *)
Lemma leb_int_r m e n : num_leb (FFin m e) (FFin n 0) = true <-> m * 2 ^ Z.max e 0 <= n * 2 ^ Z.max (- e) 0.
Proof.
  unfold num_leb, num_cmp. replace (e - Z.min e 0) with (Z.max e 0) by lia. replace (0 - Z.min e 0) with (Z.max (- e) 0) by lia.
  rewrite <- Z.leb_le. unfold Z.leb. by destruct (_ ?= _).
Qed.

Lemma leb_int_l m e n : num_leb (FFin n 0) (FFin m e) = true <-> n * 2 ^ Z.max (- e) 0 <= m * 2 ^ Z.max e 0.
Proof.
  unfold num_leb, num_cmp. replace (0 - Z.min 0 e) with (Z.max (- e) 0) by lia. replace (e - Z.min 0 e) with (Z.max e 0) by lia.
  rewrite <- Z.leb_le. unfold Z.leb. by destruct (_ ?= _).
Qed.

Lemma digits2_bounds m : 0 < m -> 2 ^ (digits2 m - 1) <= m < 2 ^ digits2 m.
Proof.
  intros Hm. unfold digits2. replace (m =? 0) with false by lia. rewrite Z.abs_eq by lia.
  replace (Z.log2 m + 1 - 1) with (Z.log2 m) by lia. rewrite Z.add_1_r. by apply Z.log2_spec.
Qed.

(** The quantum of a result that is rounded is a power of two of which small integers
    are multiples, unless the result is larger than all of them. *)
Lemma quantum_small m e :
  let k := Z.max (digits2 m - 53) (-1074 - e) in
  0 < m -> 0 < k -> 0 < e + k -> 2 ^ 52 * 2 ^ k <= m /\ 2 ^ 53 <= 2 ^ 52 * 2 ^ (e + k).
Proof.
  intros k Hm Hk Hq. pose proof (digits2_bounds m Hm) as [Hd _]. split.
  - rewrite <- Z.pow_add_r by lia. etransitivity; [| exact Hd]. apply Z.pow_le_mono_r; lia.
  - rewrite <- Z.pow_add_r by lia. apply Z.pow_le_mono_r; lia.
Qed.

Lemma round64_le m e n :
  0 <= m -> 0 <= n < 2 ^ 53 -> num_leb (FFin m e) (FFin n 0) = true -> num_leb (round64 m e) (FFin n 0) = true.
Proof.
  intros Hm Hn Hle. unfold round64. set (k := Z.max (digits2 m - 53) (-1074 - e)).
  destruct (Z.leb_spec k 0) as [| Hk]; [done |]. apply leb_int_r. apply leb_int_r in Hle.
  destruct (Z.eq_dec m 0) as [-> | Hm0].
  { change 0 with (0 * 2 ^ k) at 1. rewrite round_shift_exact by lia. assert (0 <= 2 ^ Z.max (- (e + k)) 0) by (apply Z.pow_nonneg; lia). nia. }
  destruct (Z.le_gt_cases (e + k) 0) as [Hq | Hq].
  - replace (Z.max (e + k) 0) with 0 by lia. replace (Z.max (- (e + k)) 0) with (- (e + k)) by lia. rewrite Z.mul_1_r.
    replace (Z.max e 0) with 0 in Hle by lia. replace (Z.max (- e) 0) with (- (e + k) + k) in Hle by lia.
    rewrite Z.mul_1_r, Z.pow_add_r, Z.mul_assoc in Hle by lia.
    rewrite <- (round_shift_exact (n * 2 ^ (- (e + k))) k) by lia. apply round_shift_mono; [lia | done].
  - exfalso. destruct (quantum_small m e) as [H1 H2]; [lia | done | done |]. fold k in H1, H2.
    destruct (Z.le_gt_cases 0 e) as [He | He].
    + replace (Z.max e 0) with e in Hle by lia. replace (Z.max (- e) 0) with 0 in Hle by lia.
      assert (2 ^ 52 * 2 ^ (e + k) <= m * 2 ^ e).
      { rewrite Z.pow_add_r by lia. assert (0 < 2 ^ e) by (apply Z.pow_pos_nonneg; lia). nia. }
      lia.
    + replace (Z.max e 0) with 0 in Hle by lia. replace (Z.max (- e) 0) with (- e) in Hle by lia.
      assert (Hsplit : 2 ^ k = 2 ^ (e + k) * 2 ^ (- e)) by (rewrite <- Z.pow_add_r by lia; f_equal; lia).
      assert (0 < 2 ^ (- e)) by (apply Z.pow_pos_nonneg; lia). nia.
Qed.

Lemma round64_ge m e n :
  0 <= m -> 0 <= n < 2 ^ 53 -> num_leb (FFin n 0) (FFin m e) = true -> num_leb (FFin n 0) (round64 m e) = true.
Proof.
  intros Hm Hn Hle. unfold round64. set (k := Z.max (digits2 m - 53) (-1074 - e)).
  destruct (Z.leb_spec k 0) as [| Hk]; [done |]. apply leb_int_l. apply leb_int_l in Hle.
  destruct (Z.le_gt_cases (e + k) 0) as [Hq | Hq].
  - replace (Z.max (e + k) 0) with 0 by lia. replace (Z.max (- (e + k)) 0) with (- (e + k)) by lia. rewrite Z.mul_1_r.
    replace (Z.max e 0) with 0 in Hle by lia. replace (Z.max (- e) 0) with (- (e + k) + k) in Hle by lia.
    rewrite Z.mul_1_r, Z.pow_add_r, Z.mul_assoc in Hle by lia.
    rewrite <- (round_shift_exact (n * 2 ^ (- (e + k))) k) by lia. apply round_shift_mono; [lia | done].
  - replace (Z.max (e + k) 0) with (e + k) by lia. replace (Z.max (- (e + k)) 0) with 0 by lia. rewrite Z.mul_1_r.
    destruct (Z.eq_dec m 0) as [-> | Hm0].
    { change 0 with (0 * 2 ^ k) at 1. rewrite round_shift_exact by lia. rewrite Z.mul_0_l in *.
      assert (0 < 2 ^ Z.max (- e) 0) by (apply Z.pow_pos_nonneg; lia). nia. }
    destruct (quantum_small m e) as [H1 H2]; [lia | done | done |]. fold k in H1, H2.
    apply (round_shift_mono _ _ k) in H1; [| lia]. rewrite round_shift_exact in H1 by lia.
    assert (0 < 2 ^ (e + k)) by (apply Z.pow_pos_nonneg; lia). nia.
Qed.

(** ** Theorems *)

(** The product without rounding. *)
Definition exact_times (ratio : pyval) (total : Z) : pyfloat :=
  match ratio with
  | VInt z => FFin (z * total) 0
  | VFloat (FFin m e) => FFin (m * total) e
  | _ => FNan
  end.

(** The counts of a normalized wave. *)
Definition counts_ok (counts : dict) : Prop :=
  Forall (fun k => exists z, dget counts k = Some (VInt z) /\ 0 <= z < 2 ^ 53) ["total"; "staged"; "errored"; "missing"].

Lemma ratio_nonneg v m e : is_ratio v = true -> v = VFloat (FFin m e) -> 0 <= m.
Proof.
  intros H ->. cbn in H. apply andb_true_iff in H as [H _]. apply leb_int_l in H.
  assert (0 < 2 ^ Z.max e 0) by (apply Z.pow_pos_nonneg; lia). nia.
Qed.

Lemma times_at_least v total n :
  is_ratio v = true -> 0 <= total -> 0 <= n < 2 ^ 53 -> at_least n (exact_times v total) = true -> at_least n (times v total) = true.
Proof.
  intros Hr Ht Hn. unfold at_least, times, exact_times. destruct v as [| | | [m e | |] | | |] eqn:Ev; try done.
  pose proof (ratio_nonneg _ m e Hr eq_refl). apply round64_le; [nia | done].
Qed.

Lemma times_at_most v total n :
  is_ratio v = true -> 0 <= total -> 0 <= n < 2 ^ 53 -> at_most n (exact_times v total) = true -> at_most n (times v total) = true.
Proof.
  intros Hr Ht Hn. unfold at_most, times, exact_times. destruct v as [| | | [m e | |] | | |] eqn:Ev; try done.
  pose proof (ratio_nonneg _ m e Hr eq_refl). apply round64_ge; [nia | done].
Qed.

(** C39: rounding never holds a wave back: when the counts of the preceding occurrence
    meet all three thresholds exactly, the gate opens, although the code compares with
    products rounded to binary64. *)
Theorem wave_open_when_met after counts (oid : string) :
  Forall (fun k => is_ratio (dget_or after k VNone) = true) ["min_staged_ratio"; "max_errored_ratio"; "max_missing_ratio"] ->
  counts_ok counts -> dget counts "occurrence_id" = Some (VStr oid) ->
  let count k := int_of (dget_or counts k VNone) in
  let limit k := exact_times (dget_or after k VNone) (count "total") in
  at_least (count "staged") (limit "min_staged_ratio") = true ->
  at_most (count "errored") (limit "max_errored_ratio") = true ->
  at_most (count "missing") (limit "max_missing_ratio") = true ->
  _wave_open after counts = true.
Proof.
  intros Hr Hc Ho count limit H1 H2 H3. unfold _wave_open. unfold dget_or at 1. rewrite Ho. cbn [from_option id is_none].
  fold (count "total") (count "staged") (count "errored") (count "missing"). destruct (count "total" =? 0); [done |].
  assert (Hrange : forall k, k ∈ ["total"; "staged"; "errored"; "missing"] -> 0 <= count k < 2 ^ 53).
  { intros k Hk. unfold counts_ok in Hc. rewrite Forall_forall in Hc. destruct (Hc k Hk) as (z & Hz & Hb).
    unfold count, dget_or. by rewrite Hz. }
  rewrite !Forall_cons in Hr. destruct Hr as (Hr1 & Hr2 & Hr3 & _).
  pose proof (Hrange "total" ltac:(by_eval)) as Ht.
  rewrite times_at_least, times_at_most, times_at_most by (done || apply Hrange; by_eval || lia). done.
Qed.

(** [0.9], [0.1] and [0.07] as Python reads them. *)
Definition f_09 : pyval := VFloat (FFin 8106479329266893 (-53)).
Definition f_01 : pyval := VFloat (FFin 3602879701896397 (-55)).
Definition f_007 : pyval := VFloat (FFin 1261007895663739 (-54)).

Definition sample_after (ratio : pyval) : dict :=
  [("schedule_id", VStr "first"); ("condition", VStr "min_staged_ratio"); ("min_staged_ratio", ratio);
   ("max_errored_ratio", f_01); ("max_missing_ratio", VInt 1); ("deadline_seconds", VInt 600)].
Definition sample_counts (total staged errored missing : Z) : dict :=
  [("staged", VInt staged); ("errored", VInt errored); ("missing", VInt missing); ("schedule_id", VStr "first");
   ("occurrence_id", VStr "0123456789abcdef0123456789abcdef"); ("total", VInt total); ("gate", VStr "held"); ("observed_at", VInt 5)].

Lemma wave_open_when_met_witness : _wave_open (sample_after f_09) (sample_counts 20 19 1 0) = true.
Proof.
  apply (wave_open_when_met (sample_after f_09) (sample_counts 20 19 1 0) "0123456789abcdef0123456789abcdef");
    [repeat (apply Forall_cons; split; [reflexivity |]); apply Forall_nil_2 | | reflexivity ..].
  repeat (apply Forall_cons; split; [eexists; split; [reflexivity | lia] |]). apply Forall_nil_2.
Defined.

(** The converse fails: the product is rounded, so one staged device of ten meets a
    threshold of [0.1] although the float is above one tenth; and seven of a hundred
    do not meet [0.07]. *)
Theorem wave_threshold_rounds :
  _wave_open (sample_after f_01) (sample_counts 10 1 0 0) = true /\
  at_least 1 (exact_times f_01 10) = false /\
  _wave_open (sample_after f_007) (sample_counts 100 7 0 0) = false.
Proof. vm_compute. done. Qed.
