(* ===== verification/SchedSpec.v ===== *)
(** * The schedule store: compare-and-swap, revisions that are never reused, claims *)
From S2P Require Import Prelude PyVal JsonDump PolicyDoc KeyedState KeyedSpec.
From S2P Require Import SchedDoc SchedValid SchedTime SchedTimeSpec SchedStore SchedOps.

Definition rev_of (row : pyval) : Z := int_of (dget_or (dict_or_empty row) "rev" VNone).

(** ** Rows *)

Lemma identifier_inv v f s : _identifier v f = Ok s -> v = VStr s /\ _ID_RE s = true.
Proof.
  unfold _identifier, matching. intros E. destruct v; try discriminate E. destruct (_ID_RE s0) eqn:H; [| done].
  by injection E as ->.
Qed.

Lemma hex_inv v f s : _hex v f = Ok s -> v = VStr s /\ _HEX_RE s = true.
Proof.
  unfold _hex, matching. intros E. destruct v; try discriminate E. destruct (_HEX_RE s0) eqn:H; [| done].
  by injection E as ->.
Qed.

Lemma validated_row zi id v :
  validate_schedule zi id v = Ok tt -> exists d r, v = VDict d /\ dget d "rev" = Some (VInt r) /\ 1 <= r <= MAX_INTEGER.
Proof.
  intros E. unfold validate_schedule in E. head E as E1. apply object_inv in E1 as (-> & _ & Hr).
  head E as E2. head E as E3. head E as E4. head E as E5. apply integer_inv in E5 as [E5 H5].
  exists a, a2. split; [done |]. split; [| done]. destruct (Hr "rev" ltac:(by_eval)) as [v Hv].
  unfold dget_or in E5. rewrite Hv in *. cbn in E5. congruence.
Qed.

Lemma normalized_keys zi v n k : normalize_definition zi v = Ok n -> k ∉ DEFINITION_KEYS -> dget n k = None.
Proof.
  intros E Hk. unfold normalize_definition in E. head E as E1.
  destruct (dget_or a "kind" VNone) as [| | | | kind | |]; try discriminate E.
  head E as E2. head E as E3. head E as E4. head E as E5. head E as E6. apply dget_None. intros Hin. apply Hk. revert Hin.
  unfold DEFINITION_KEYS.
  destruct (dget a "after") as [af |]; [head E as E7 |]; injection E as <-; cbn; set_solver.
Qed.

Lemma dget_foldl_pop ks (d : dict) k : dget (foldl dpop d ks) k = if bool_decide (k ∈ ks) then None else dget d k.
Proof.
  revert d. induction ks as [| x ks IH]; intros d; cbn [foldl]; [done |]. rewrite IH, dget_dpop.
  destruct (String.eqb_spec x k) as [-> | Hne].
  - rewrite (bool_decide_true (k ∈ k :: ks)) by (by left). by destruct (bool_decide _).
  - destruct (decide (k ∈ ks)); [rewrite !bool_decide_true by set_solver | rewrite !bool_decide_false by set_solver]; done.
Qed.

(** A definition replaced: the row keeps everything else. *)
Lemma dget_replace zi v n row k :
  normalize_definition zi v = Ok n -> good (VDict n) ->
  dget (replace_definition row n) k = if bool_decide (k ∈ DEFINITION_KEYS) then dget n k else dget row k.
Proof.
  intros Hn Hg. unfold replace_definition. apply good_dict in Hg as [Hnd _]. rewrite dget_dupdate, dget_foldl_pop by done.
  destruct (decide (k ∈ DEFINITION_KEYS)) as [Hk | Hk]; [rewrite bool_decide_true by done | rewrite bool_decide_false by done].
  - by destruct (dget n k).
  - by rewrite (normalized_keys _ _ _ _ Hn Hk).
Qed.

Section spec.
Context (zoneinfo : string -> res unit) (zone_of : string -> zone).
Context {T : Type} `{RR : RowStore T (row_valid zoneinfo)} `{RP : RowStore T _progress_valid}
  `{RF : RowStore T _retired_valid} `{RO : RowStore T (_validate_occurrence zoneinfo)}.

#[local] Abbreviation rows_view := (rs_view (V:=row_valid zoneinfo)).
#[local] Abbreviation retired_view := (rs_view (V:=_retired_valid)).
#[local] Abbreviation rows_ok := (rs_ok (V:=row_valid zoneinfo)).
#[local] Abbreviation retired_ok := (rs_ok (V:=_retired_valid)).

Definition live (s : sched (T:=T)) (k : string) : option pyval := rows_view (s_rows s) k.
Definition retired_floor (s : sched (T:=T)) (k : string) : Z := floor_of (retired_view (s_retired s) k).

(** The two stores a definition edit uses are readable. *)
Definition sched_ok (s : sched (T:=T)) : Prop := rows_ok (s_rows s) /\ retired_ok (s_retired s).

Lemma stored_row s k v :
  rows_ok s -> rows_view s k = Some v -> exists d, v = VDict d /\ good (VDict d) /\ validate_schedule zoneinfo (VStr k) (VDict d) = Ok tt.
Proof.
  intros Hok Hv. destruct (rs_row_ok s k v Hok Hv) as [(_ & Hwf & Hfin & Hval) Hc]. rewrite Hc in Hval.
  destruct (validated_row _ _ _ Hval) as (d & r & -> & _). exists d. done.
Qed.

Lemma row_storable k d :
  good (VDict d) -> validate_schedule zoneinfo (VStr k) (VDict d) = Ok tt -> storable (row_valid zoneinfo) k (VDict d).
Proof.
  intros [Hwf Hfin] Hv. split; [done |]. split; [done |]. split; [done |].
  apply (validate_schedule_sorted zoneinfo); done.
Qed.

(** ** Edits *)

(** What an edit may do to a row before its revision moves. *)
Definition sane_change (change : dict -> res dict) : Prop :=
  forall d d', good (VDict d) -> change d = Ok d' -> good (VDict d') /\ dget d' "rev" = dget d "rev".

Lemma compare_inv k old exp d :
  _compare k old exp = Ok d -> exists v, old = Some v /\ d = dict_or_empty v /\
    (exp = VStr "*" \/ exists r, exp = VInt r /\ py_eq (dget_or d "rev" VNone) (VInt r) = true).
Proof.
  intros E. unfold _compare in E. destruct old as [v |]; [| done]. exists v. split; [done |].
  destruct (py_eq exp (VStr "*")) eqn:Es.
  - injection E as <-. split; [done |]. left. destruct exp; try discriminate Es. cbn in Es. apply String.eqb_eq in Es. by subst.
  - head E as E1. apply integer_inv in E1 as [-> _]. head E as E2. injection E as <-. split; [done |]. right. eauto.
Qed.

Lemma py_eq_vint z r : py_eq (VInt z) (VInt r) = true -> z = r.
Proof. cbn. unfold num_eqb, num_cmp. rewrite Z.min_id, Z.sub_diag, !Z.mul_1_r. destruct (Z.compare_spec z r); done. Qed.

Lemma edit_row_inv k exp change old new :
  edit_row zoneinfo k exp change old = Ok new -> exists v d', old = Some v /\ change (dict_or_empty v) = Ok d' /\
    (exp = VStr "*" \/ exists r, exp = VInt r /\ py_eq (dget_or (dict_or_empty v) "rev" VNone) (VInt r) = true) /\
    let row := dset d' "rev" (VInt (int_of (dget_or d' "rev" VNone) + 1)) in
    new = UPut (VDict row) /\ validate_schedule zoneinfo (VStr k) (VDict row) = Ok tt.
Proof.
  intros E. unfold edit_row in E. head E as E1. head E as E2. head E as E3. injection E as <-. units.
  apply compare_inv in E1 as (v & -> & -> & He). exists v, a0. done.
Qed.

Lemma edit_spec s sid k exp change :
  sched_ok s -> _identifier sid "id" = Ok k -> sane_change change ->
  exists r s', _edit zoneinfo sid exp change s = (r, s') /\ sched_ok s' /\ s_retired s' = s_retired s /\
    match r with
    | Err e => edit_row zoneinfo k exp change (live s k) = Err e /\ forall x, live s' x = live s x
    | Ok row => exists d d' rev, live s k = Some (VDict d) /\ good (VDict d) /\ change d = Ok d' /\
        dget d "rev" = Some (VInt rev) /\ (exp = VStr "*" \/ exp = VInt rev) /\
        row = dset d' "rev" (VInt (rev + 1)) /\ validate_schedule zoneinfo (VStr k) (VDict row) = Ok tt /\
        forall x, live s' x = if String.eqb k x then Some (sort_keys (VDict row)) else live s x
    end.
Proof.
  intros [Hr Hf] Hid Hch. unfold _edit. rewrite Hid. set (fn := fun old => lift _).
  set (o := edit_row zoneinfo k exp change (live s k)).
  assert (Hfn : fn (rows_view (s_rows s) k) tt = (o, tt)) by done.
  assert (Hinv : forall new, o = Ok new -> exists d d' rev, live s k = Some (VDict d) /\ good (VDict d) /\ change d = Ok d' /\
        dget d "rev" = Some (VInt rev) /\ (exp = VStr "*" \/ exp = VInt rev) /\
        new = UPut (VDict (dset d' "rev" (VInt (rev + 1)))) /\ good (VDict (dset d' "rev" (VInt (rev + 1)))) /\
        validate_schedule zoneinfo (VStr k) (VDict (dset d' "rev" (VInt (rev + 1)))) = Ok tt).
  { intros new Hn. apply edit_row_inv in Hn as (v & d' & Hv & Hc & He & Hn).
    destruct (stored_row _ _ _ Hr Hv) as (d & -> & Hg & Hval).
    destruct (validated_row _ _ _ Hval) as (d0 & rev & [= <-] & Hrev & _). rewrite dict_or_empty_dict in *.
    destruct (Hch d d' Hg Hc) as [Hg' Hr']. cbn zeta in Hn. unfold dget_or in Hn, He. rewrite Hr', Hrev in Hn. rewrite Hrev in He.
    cbn in Hn, He. destruct Hn as [-> Hval']. exists d, d', rev. split; [done |]. split; [done |]. split; [done |].
    split; [done |]. split; [| split; [done |]; split; [by apply good_dset | done]].
    destruct He as [-> | (r & -> & Hq)]; [by left |]. right. f_equal. symmetry. apply (py_eq_vint _ _ Hq). }
  destruct (rs_update_spec unit (s_rows s) tt tt k fn o Hr Hfn) as (t & Hu & Ht & Hv).
  { intros new Hn. destruct (Hinv new Hn) as (d & d' & rev & _ & _ & _ & _ & _ & -> & Hg & Hval). cbn. by apply row_storable. }
  rewrite Hu. destruct o as [new | e] eqn:Eo.
  - destruct (Hinv new eq_refl) as (d & d' & rev & H1 & H2 & H3 & H4 & H5 & -> & H7 & H8). cbn [rows_result].
    eexists _, _. split; [done |]. split; [done |]. split; [done |]. exists d, d', rev. do 7 (split; [done |]).
    intros x. exact (Hv x).
  - cbn [rows_result]. eexists _, _. split; [done |]. split; [done |]. split; [done |]. split; [done |]. exact Hv.
Qed.

Lemma put_change_sane v n preview :
  normalize_definition zoneinfo v = Ok n -> good (VDict n) -> good preview -> sane_change (put_change n preview).
Proof.
  intros Hn Hg Hp d d' Hd E. unfold put_change in E. head E as E1.
  assert (Hrep : good (VDict (replace_definition d n)) /\ dget (replace_definition d n) "rev" = dget d "rev").
  { split; [unfold replace_definition; auto with py |]. rewrite (dget_replace _ _ _ _ _ Hn Hg).
    by rewrite bool_decide_false by (by_eval). }
  destruct (negb _).
  - head E as E2. injection E as <-. apply normalize_snapshot_good in E2; [| done]. destruct Hrep as [Hrep Hrev].
    split; [auto with py |]. by rewrite dget_dset_ne by done.
  - injection E as <-. done.
Qed.

Lemma patched_good row p : good (VDict row) -> good (VDict p) -> good (VDict (patched row p)).
Proof.
  intros Hr Hp. unfold patched.
  assert (good (VDict (dupdate (definition_of row) p))) by (apply good_dupdate; [by apply definition_of_good | done]).
  destruct (dget _ "after") as [[] |]; auto with py.
Qed.

Lemma patch_change_sane p preview : good (VDict p) -> good preview -> sane_change (patch_change zoneinfo p preview).
Proof.
  intros Hp Hpr d d' Hd E. unfold patch_change in E. head E as E1.
  eapply put_change_sane; [exact E1 | | exact Hpr | exact Hd | exact E].
  eapply normalize_definition_good; [| exact E1]. by apply patched_good.
Qed.

(** ** Creation and deletion *)

Lemma create_row_inv k gen n p f actor now row :
  create_row zoneinfo k gen n p f actor now = Ok row ->
  row = dupdate n [("id", VStr k); ("generation", VStr gen); ("rev", VInt (f + 1)); ("created_by", actor);
    ("created_at", now); ("preview", VDict p)] /\ validate_schedule zoneinfo (VStr k) (VDict row) = Ok tt.
Proof. unfold create_row. intros E. head E as E1. injection E as <-. units. done. Qed.

Lemma create_spec s sid definition actor now preview gen :
  sched_ok s -> good definition -> good actor -> good now -> good preview ->
  exists r s', create zoneinfo sid definition actor now preview gen s = (r, s') /\ sched_ok s' /\
    (forall x, retired_view (s_retired s') x = retired_view (s_retired s) x) /\
    match r with
    | Err e => forall x, live s' x = live s x
    | Ok row => exists k, live s k = None /\ good (VDict row) /\ rev_of (VDict row) = retired_floor s k + 1 /\
        forall x, live s' x = if String.eqb k x then Some (sort_keys (VDict row)) else live s x
    end.
Proof.
  intros [Hr Hf] Hgd Hga Hgn Hgp. unfold create.
  destruct (_identifier sid "id") as [k |]; cbn [mbind res_bind]; [| by eexists _, _].
  destruct (normalize_definition zoneinfo definition) as [n |] eqn:En; cbn [mbind res_bind]; [| by eexists _, _].
  destruct (normalize_snapshot preview) as [p |] eqn:Ep; cbn [mbind res_bind]; [| by eexists _, _].
  set (fn := fun old => match old with Some _ => _ | None => _ end).
  destruct (rs_get_spec (s_retired s) k Hf) as (w & Hget & Hw & Hwv).
  destruct (live s k) as [v |] eqn:El.
  - destruct (rs_update_spec T (s_rows s) (s_retired s) (s_retired s) k fn (Err (conflict "schedule already exists")) Hr) as (t & Hu & Ht & Hv).
    { unfold live in El. by rewrite El. }
    { done. }
    rewrite Hu. cbn [rows_result set_retired]. eexists _, _. split; [done |]. split; [done |]. split; [done |]. exact Hv.
  - set (o := let* row := create_row zoneinfo k gen n p (retired_floor s k) actor now in Ok (UPut (VDict row))).
    assert (Hfn : fn (rows_view (s_rows s) k) (s_retired s) = (o, w)).
    { unfold live in El. rewrite El. unfold fn. rewrite (sbind_ok _ _ _ _ _ Hget). done. }
    assert (Hinv : forall new, o = Ok new -> exists row, new = UPut (VDict row) /\ good (VDict row) /\
      rev_of (VDict row) = retired_floor s k + 1 /\ validate_schedule zoneinfo (VStr k) (VDict row) = Ok tt).
    { intros new Hn. unfold o in Hn. destruct (create_row _ _ _ _ _ _ _ _) as [row |] eqn:Ec; [| done].
      injection Hn as <-. apply create_row_inv in Ec as [-> Hval]. apply normalize_definition_good in En; [| done].
      apply normalize_snapshot_good in Ep; [| done]. eexists. split; [done |].
      assert (Hx : good (VDict [("id", VStr k); ("generation", VStr gen); ("rev", VInt (retired_floor s k + 1)); ("created_by", actor);
        ("created_at", now); ("preview", VDict p)])) by good_tac.
      split; [by apply good_dupdate |]. split; [| done]. unfold rev_of. rewrite dict_or_empty_dict. unfold dget_or.
      by rewrite dget_dupdate by (apply good_dict in Hx as [? _]; done). }
    destruct (rs_update_spec T (s_rows s) (s_retired s) w k fn o Hr Hfn) as (t & Hu & Ht & Hv).
    { intros new Hn. destruct (Hinv new Hn) as (row & -> & Hg & _ & Hval). cbn. by apply row_storable. }
    rewrite Hu. destruct o as [new | e] eqn:Eo; cbn [rows_result set_retired].
    + destruct (Hinv new eq_refl) as (row & -> & Hg & Hrev & _). eexists _, _. split; [done |]. split; [done |].
      split; [done |]. exists k. do 3 (split; [done |]). exact Hv.
    + eexists _, _. split; [done |]. split; [done |]. split; [done |]. exact Hv.
Qed.

Lemma retired_storable k f :
  _ID_RE k = true -> 1 <= f <= MAX_INTEGER -> storable _retired_valid k (VDict [("revision", VInt f)]).
Proof.
  intros Hk Hf. split; [done |]. split; [split; [apply NoDup_singleton | done] |]. split; [done |].
  unfold _retired_valid. unfold _identifier, matching. rewrite Hk. cbn [mbind res_bind].
  change (_object (sort_keys (VDict [("revision", VInt f)])) ["revision"] "retired schedule" ["revision"]) with
    (Ok (A:=dict) [("revision", VInt f)]). cbn [mbind res_bind].
  change (dget_or [("revision", VInt f)] "revision" VNone) with (VInt f).
  assert (_integer (VInt f) "retired revision" 1 MAX_INTEGER = Ok f) as ->; [| done].
  unfold _integer. by rewrite (proj2 (Z.leb_le _ _) (proj1 Hf)), (proj2 (Z.leb_le _ _) (proj2 Hf)).
Qed.

Lemma floor_bound s k : sched_ok s -> 0 <= retired_floor s k <= MAX_INTEGER.
Proof.
  intros [_ Hf]. unfold retired_floor, floor_of. destruct (retired_view (s_retired s) k) as [v |] eqn:E; [| by vm_compute].
  destruct (rs_row_ok _ _ _ Hf E) as [(_ & _ & _ & Hval) Hc]. rewrite Hc in Hval. unfold _retired_valid in Hval.
  head Hval as E1. head Hval as E2. apply object_inv in E2 as (-> & _ & Hreq). head Hval as E3.
  apply integer_inv in E3 as [E3 H3]. rewrite dict_or_empty_dict. destruct (Hreq "revision" ltac:(by left)) as [x Hx].
  unfold dget_or in *. rewrite Hx in *. cbn in *. subst x. cbn. lia.
Qed.

Lemma schedule_delete_spec s sid exp :
  sched_ok s -> exists r s', delete_ zoneinfo sid exp s = (r, s') /\ sched_ok s' /\
    match r with
    | Err e => forall x, live s' x = live s x /\ retired_view (s_retired s') x = retired_view (s_retired s) x
    | Ok _ => exists k row, live s k = Some row /\
        (forall x, live s' x = if String.eqb k x then None else live s x) /\
        forall x, retired_floor s' x = if String.eqb k x then Z.max (rev_of row) (retired_floor s k) else retired_floor s x
    end.
Proof.
  intros Hok. pose proof Hok as [Hr Hf]. unfold delete_.
  destruct (_identifier sid "id") as [k |] eqn:Eid; [| by eexists _, _]. apply identifier_inv in Eid as [_ Hid].
  set (fn := fun old => sbind _ _). destruct (_compare k (live s k) exp) as [row |] eqn:Ec.
  - apply compare_inv in Ec as Hc. destruct Hc as (v & Hv & -> & _).
    destruct (stored_row _ _ _ Hr Hv) as (d & -> & Hg & Hval).
    destruct (validated_row _ _ _ Hval) as (d0 & rev & [= <-] & Hrev & Hrb). rewrite dict_or_empty_dict in *.
    destruct (rs_get_spec (s_retired s) k Hf) as (w1 & Hget & Hw1 & Hwv1).
    pose proof (floor_bound s k Hok) as Hfb.
    set (f := Z.max (int_of (dget_or d "rev" VNone)) (floor_of (retired_view (s_retired s) k))).
    assert (Hfr : f = Z.max rev (retired_floor s k)) by (unfold f, dget_or; by rewrite Hrev).
    destruct (rs_update_spec (V:=_retired_valid) unit w1 tt tt k (fun _ => sret (UPut (VDict [("revision", VInt f)])))
      (Ok (UPut (VDict [("revision", VInt f)]))) Hw1 eq_refl) as (w2 & Hu2 & Hw2 & Hwv2).
    { intros new [= <-]. cbn. apply retired_storable; [done | lia]. }
    assert (Hfn : fn (rows_view (s_rows s) k) (s_retired s) = (Ok UDelete, w2)).
    { unfold fn. change (rows_view (s_rows s) k) with (live s k).
      rewrite (sbind_ok (lift _) _ (s_retired s) d (s_retired s)); [| unfold lift; by rewrite Ec].
      rewrite (sbind_ok _ _ _ _ _ Hget). fold f. unfold sbind at 1. by rewrite Hu2. }
    destruct (rs_update_spec T (s_rows s) (s_retired s) w2 k fn (Ok UDelete) Hr Hfn) as (t & Hu & Ht & Htv).
    { by intros new [= <-]. }
    rewrite Hu. cbn [rows_result set_retired]. eexists _, _. split; [done |]. split; [done |].
    exists k, (VDict d). split; [done |]. split; [exact Htv |]. intros x. unfold retired_floor. cbn [s_retired].
    rewrite Hwv2. unfold apply_view. destruct (String.eqb_spec k x) as [<- | ?]; [| by rewrite Hwv1].
    unfold rev_of. rewrite dict_or_empty_dict. reflexivity.
  - assert (Hfn : fn (rows_view (s_rows s) k) (s_retired s) = (Err e, s_retired s)).
    { unfold fn. change (rows_view (s_rows s) k) with (live s k). unfold sbind at 1, lift. by rewrite Ec. }
    destruct (rs_update_spec T (s_rows s) (s_retired s) (s_retired s) k fn (Err e) Hr Hfn) as (t & Hu & Ht & Htv); [done |].
    rewrite Hu. cbn [rows_result set_retired]. eexists _, _. split; [done |]. split; [done |]. intros x. split; [exact (Htv x) | done].
Qed.

(** ** Runs of the store *)

(** A call of the store with its arguments; [ODeleteCrash] is a deletion cut off
    between its two durable writes. *)
Inductive sched_op :=
  | OCreate (schedule_id definition actor now preview : pyval) (generation : string)
  | OPut (schedule_id definition expected_rev preview : pyval)
  | OPatch (schedule_id patch_ expected_rev preview : pyval)
  | OReaffirm (schedule_id actor expected_rev : pyval)
  | ODelete (schedule_id expected_rev : pyval)
  | ODeleteCrash (schedule_id expected_rev : pyval).

Definition run_op (s : sched (T:=T)) (o : sched_op) : sched (T:=T) :=
  match o with
  | OCreate i d a n p g => snd (create zoneinfo i d a n p g s)
  | OPut i d e p => snd (put zoneinfo i d e p s)
  | OPatch i d e p => snd (patch zoneinfo i d e p s)
  | OReaffirm i a e => snd (reaffirm zoneinfo i a e s)
  | ODelete i e => snd (delete_ zoneinfo i e s)
  | ODeleteCrash i e => set_retired (s_retired (snd (delete_ zoneinfo i e s))) s
  end.

(** Arguments are JSON values. *)
Definition good_op (o : sched_op) : Prop :=
  match o with
  | OCreate i d a n p g => good d /\ good a /\ good n /\ good p
  | OPut i d e p | OPatch i d e p => good d /\ good p
  | OReaffirm i a e => good a
  | ODelete _ _ | ODeleteCrash _ _ => True
  end.

(** The largest revision an id has had. *)
Definition top (s : sched (T:=T)) (k : string) : Z :=
  Z.max (match live s k with Some row => rev_of row | None => 0 end) (retired_floor s k).

Definition consistent (s : sched (T:=T)) : Prop :=
  sched_ok s /\ forall k row, live s k = Some row -> retired_floor s k <= rev_of row.

Definition extends (s s' : sched (T:=T)) : Prop :=
  forall k, top s k <= top s' k /\ forall row, live s' k = Some row -> live s k = Some row \/ top s k < rev_of row.

Lemma rev_of_sorted d : good (VDict d) -> rev_of (sort_keys (VDict d)) = rev_of (VDict d).
Proof.
  intros [Hn _]%good_dict. unfold rev_of. unfold dget_or. rewrite dget_sort_keys, dict_or_empty_dict by done.
  destruct (dget d "rev") as [[] |]; done.
Qed.

Lemma extends_same s s' :
  consistent s -> sched_ok s' -> (forall k, live s' k = live s k) -> (forall k, retired_floor s' k = retired_floor s k) ->
  consistent s' /\ extends s s'.
Proof.
  intros [_ Hinv] Hok Hl Hf. split.
  - split; [done |]. intros k row. rewrite Hl, Hf. apply Hinv.
  - intros k. unfold top. rewrite Hl, Hf. split; [lia |]. intros row ->. by left.
Qed.

Lemma edit_extends s sid exp change :
  consistent s -> sane_change change ->
  consistent (snd (_edit zoneinfo sid exp change s)) /\ extends s (snd (_edit zoneinfo sid exp change s)).
Proof.
  intros Hc Hch. pose proof Hc as [Hok Hinv]. destruct (_identifier sid "id") as [k |] eqn:Eid.
  - destruct (edit_spec s sid k exp change Hok Eid Hch) as (r & s' & -> & Hok' & Hret & Hr). cbn [snd].
    assert (Hfl : forall x, retired_floor s' x = retired_floor s x) by (intros x; unfold retired_floor; by rewrite Hret).
    destruct r as [row | e]; [| destruct Hr as [_ Hr]; by apply extends_same].
    destruct Hr as (d & d' & rev & Hl & Hg & Hcd & Hrev & _ & -> & Hval & Hv).
    destruct (Hch d d' Hg Hcd) as [Hg' _].
    assert (Hnew : rev_of (sort_keys (VDict (dset d' "rev" (VInt (rev + 1))))) = rev + 1).
    { rewrite rev_of_sorted by (by apply good_dset). unfold rev_of. rewrite dict_or_empty_dict. unfold dget_or. by rewrite dget_dset_eq. }
    assert (Hold : rev_of (VDict d) = rev) by (unfold rev_of, dget_or; by rewrite dict_or_empty_dict, Hrev).
    pose proof (Hinv k _ Hl) as Hk. rewrite Hold in Hk.
    revert Hnew Hv. generalize (sort_keys (VDict (dset d' "rev" (VInt (rev + 1))))). intros new Hnew Hv. split.
    + split; [done |]. intros x row. rewrite Hv, Hfl. destruct (String.eqb_spec k x) as [<- | ?]; [intros [= <-]; lia | apply Hinv].
    + intros x. unfold top. rewrite Hv, Hfl. destruct (String.eqb_spec k x) as [<- | ?].
      * rewrite Hl, Hnew, Hold. split; [lia |]. intros row [= <-]. right. lia.
      * split; [lia |]. intros row ->. by left.
  - unfold _edit. rewrite Eid. cbn [snd]. apply extends_same; [exact Hc | exact Hok | done | done].
Qed.

Lemma run_op_extends s o : consistent s -> good_op o -> consistent (run_op s o) /\ extends s (run_op s o).
Proof.
  intros Hc Hg. pose proof Hc as [Hok Hinv]. destruct o as [i d a n p g | i d e p | i d e p | i a e | i e | i e]; cbn [run_op good_op] in *.
  - destruct Hg as (Hd & Ha & Hn & Hp). destruct (create_spec s i d a n p g Hok Hd Ha Hn Hp) as (r & s' & -> & Hok' & Hret & Hr).
    cbn [snd]. assert (Hfl : forall x, retired_floor s' x = retired_floor s x) by (intros x; unfold retired_floor; by rewrite Hret).
    destruct r as [row | e]; [| by apply extends_same]. destruct Hr as (k & Hl & Hgr & Hrev & Hv).
    rewrite <- rev_of_sorted in Hrev by done. revert Hrev Hv. generalize (sort_keys (VDict row)). intros new Hrev Hv. split.
    + split; [done |]. intros x w. rewrite Hv, Hfl. destruct (String.eqb_spec k x) as [<- | ?]; [| apply Hinv].
      intros [= <-]. lia.
    + intros x. unfold top. rewrite Hv, Hfl. destruct (String.eqb_spec k x) as [<- | ?].
      * rewrite Hl. pose proof (floor_bound s k Hok). split; [lia |]. intros w [= <-]. right. lia.
      * split; [lia |]. intros w ->. by left.
  - destruct Hg as [Hd Hp]. unfold put. destruct (normalize_definition zoneinfo d) as [n |] eqn:En; cbn [snd].
    + apply edit_extends; [done |]. eapply put_change_sane; [exact En | | done]. exact (normalize_definition_good zoneinfo _ _ Hd En).
    + apply extends_same; done.
  - destruct Hg as [Hd Hp]. unfold patch. destruct (_object d _ _ _) as [q |] eqn:Eq; cbn [snd].
    + apply object_inv in Eq as [-> _]. apply edit_extends; [done |]. by apply patch_change_sane.
    + apply extends_same; done.
  - unfold reaffirm. destruct (_actor a); cbn [snd]; [| apply extends_same; done]. apply edit_extends; [done |].
    intros x x' Hx [= <-]. split; [by apply good_dset |]. by rewrite dget_dset_ne.
  - destruct (schedule_delete_spec s i e Hok) as (r & s' & -> & Hok' & Hr). cbn [snd]. destruct r as [b | err].
    + destruct Hr as (k & row & Hl & Hv & Hfl). pose proof (Hinv _ _ Hl) as Hk. split.
      * split; [done |]. intros x w. rewrite Hv, Hfl. destruct (String.eqb_spec k x) as [<- | ?]; [done | apply Hinv].
      * intros x. unfold top. rewrite Hv, Hfl. destruct (String.eqb_spec k x) as [<- | ?]; [| split; [lia |]; intros w ->; by left].
        rewrite Hl. split; [lia | done].
    + apply extends_same; [done | done | apply Hr |]. intros x. unfold retired_floor. by rewrite (proj2 (Hr x)).
  - destruct (schedule_delete_spec s i e Hok) as (r & s' & -> & Hok' & Hr). cbn [snd].
    assert (Hok1 : sched_ok (set_retired (s_retired s') s)) by (split; [apply Hok | apply Hok']).
    destruct r as [b | err].
    + destruct Hr as (k & row & Hl & _ & Hfl). pose proof (Hinv _ _ Hl) as Hk.
      assert (Hfl' : forall x, retired_floor (set_retired (s_retired s') s) x = retired_floor s' x) by done.
      assert (Hlv : forall x, live (set_retired (s_retired s') s) x = live s x) by done. split.
      * split; [done |]. intros x w. rewrite Hlv, Hfl', Hfl. destruct (String.eqb_spec k x) as [<- | ?]; [| apply Hinv].
        rewrite Hl. intros [= <-]. lia.
      * intros x. unfold top. rewrite Hlv, Hfl', Hfl. destruct (String.eqb_spec k x) as [<- | ?]; (split; [| intros w ->; by left]).
        -- rewrite Hl. lia.
        -- lia.
    + apply extends_same; [done | done | done |]. intros x. unfold retired_floor. cbn [set_retired s_retired]. by rewrite (proj2 (Hr x)).
Qed.

Lemma run_ops_extends ops s :
  consistent s -> Forall good_op ops -> consistent (foldl run_op s ops) /\ extends s (foldl run_op s ops).
Proof.
  intros Hc Hops. revert s Hc. induction Hops as [| o ops Ho _ IH]; intros s Hc; cbn [foldl].
  - apply extends_same; [done | apply Hc | done | done].
  - destruct (run_op_extends s o Hc Ho) as [Hc1 He1]. destruct (IH _ Hc1) as [Hc2 He2]. split; [done |].
    intros k. destruct (He1 k) as [Ht1 Hl1]. destruct (He2 k) as [Ht2 Hl2]. split; [lia |]. intros row Hrow.
    destruct (Hl2 row Hrow) as [H | H]; [by apply Hl1 |]. right. lia.
Qed.

(** A replaced definition is the one asked for. *)
Lemma put_change_fields v n preview d d' f :
  normalize_definition zoneinfo v = Ok n -> good (VDict n) -> put_change n preview d = Ok d' -> f <> "preview" ->
  dget d' f = if bool_decide (f ∈ DEFINITION_KEYS) then dget n f else dget d f.
Proof.
  intros Hn Hg E Hf. unfold put_change in E. head E as E1. destruct (negb _).
  - head E as E2. injection E as <-. rewrite dget_dset_ne by done. exact (dget_replace _ _ _ _ _ Hn Hg).
  - injection E as <-. exact (dget_replace _ _ _ _ _ Hn Hg).
Qed.

Lemma compare_stale k d rev e :
  dget d "rev" = Some (VInt rev) -> 1 <= e <= MAX_INTEGER -> e <> rev ->
  _compare k (Some (VDict d)) (VInt e) = Err (ScheduleRevisionConflict k rev).
Proof.
  intros Hr He Hne. unfold _compare. rewrite dict_or_empty_dict. cbn [py_eq].
  unfold _integer. rewrite (proj2 (Z.leb_le _ _) (proj1 He)), (proj2 (Z.leb_le _ _) (proj2 He)).
  cbn [andb mbind res_bind]. unfold dget_or. rewrite Hr. cbn [default from_option id].
  destruct (py_eq (VInt rev) (VInt e)) eqn:Eq; [| done]. apply py_eq_vint in Eq. congruence.
Qed.

Lemma live_rev s k d rev : sched_ok s -> live s k = Some (VDict d) -> dget d "rev" = Some (VInt rev) -> 1 <= rev <= MAX_INTEGER.
Proof.
  intros Hok Hl Hrev. destruct (stored_row _ _ _ (proj1 Hok) Hl) as (d1 & [= <-] & _ & Hval).
  destruct (validated_row _ _ _ Hval) as (dr & rr & [= <-] & Hrr & Hb). congruence.
Qed.

Lemma put_stale s k definition preview n d rev stale :
  sched_ok s -> _ID_RE k = true -> good definition -> good preview -> normalize_definition zoneinfo definition = Ok n ->
  live s k = Some (VDict d) -> dget d "rev" = Some (VInt rev) -> 1 <= stale <= MAX_INTEGER -> stale <> rev ->
  fst (put zoneinfo (VStr k) definition (VInt stale) preview s) = Err (ScheduleRevisionConflict k rev).
Proof.
  intros Hok Hid Hgd Hgp Hn Hl Hrev Hs Hne. pose proof (normalize_definition_good zoneinfo _ _ Hgd Hn) as Hgn.
  assert (Hk : _identifier (VStr k) "id" = Ok k) by (unfold _identifier, matching; by rewrite Hid).
  unfold put. rewrite Hn.
  destruct (edit_spec s (VStr k) k (VInt stale) _ Hok Hk (put_change_sane _ _ _ Hn Hgn Hgp)) as (r & s' & -> & _ & _ & Hr).
  cbn [fst]. destruct r as [row | e].
  - destruct Hr as (d0 & d' & rev0 & Hl0 & _ & _ & Hr0 & [He | He] & _); [done |]. rewrite Hl in Hl0. injection Hl0 as <-.
    injection He as <-. congruence.
  - destruct Hr as [He _]. unfold edit_row in He. rewrite Hl, (compare_stale k d rev stale Hrev Hs Hne) in He.
    cbn [mbind res_bind] in He. congruence.
Qed.
End spec.

(** ** Properties *)

(** C29: a revision names one document for ever: take any two moments of any run of
    creations, edits, reaffirmations and deletions, completed, refused or cut off
    between the two writes of a deletion; if a schedule id is live at both with the
    same revision (so with the same ETag), it is the same document, even when it was
    deleted and created again in between. *)
Theorem revision_names_one_document (zoneinfo : string -> res unit) {T : Type}
    `{RR : RowStore T (row_valid zoneinfo)} `{RF : RowStore T _retired_valid}
    (s : sched (T:=T)) (before after : list sched_op) (k : string) (row1 row2 : pyval) :
  consistent zoneinfo s -> Forall good_op before -> Forall good_op after ->
  live zoneinfo (foldl (run_op zoneinfo) s before) k = Some row1 ->
  live zoneinfo (foldl (run_op zoneinfo) s (before ++ after)) k = Some row2 ->
  rev_of row1 = rev_of row2 -> row1 = row2.
Proof.
  intros Hc Hb Ha H1 H2 Hr. destruct (run_ops_extends zoneinfo before s Hc Hb) as [Hc1 _].
  destruct (run_ops_extends zoneinfo after _ Hc1 Ha) as [_ He]. rewrite foldl_app in H2.
  destruct (proj2 (He k) _ H2) as [H | H]; [congruence |]. unfold top in H. rewrite H1 in H. lia.
Qed.

(** [put] is a compare-and-swap.  A refused edit changes nothing, and against a
    stale revision the refusal is the conflict with the current one.  An accepted edit
    had the current revision (or the wildcard), installs exactly the normalized
    definition, moves the revision by one, keeps identity, generation and authorship,
    and leaves every other schedule alone; so of two edits made against the same
    revision the second is refused. *)
Theorem put_cas (zoneinfo : string -> res unit) {T : Type}
    `{RR : RowStore T (row_valid zoneinfo)} `{RF : RowStore T _retired_valid}
    (s : sched (T:=T)) (k : string) (definition preview : pyval) (n d : dict) (rev : Z) (expected : pyval) :
  sched_ok zoneinfo s -> _ID_RE k = true -> good definition -> good preview ->
  normalize_definition zoneinfo definition = Ok n ->
  live zoneinfo s k = Some (VDict d) -> dget d "rev" = Some (VInt rev) ->
  exists r s', put zoneinfo (VStr k) definition expected preview s = (r, s') /\ sched_ok zoneinfo s' /\
    match r with
    | Err e => (forall x, live zoneinfo s' x = live zoneinfo s x) /\
        forall stale, expected = VInt stale -> 1 <= stale <= MAX_INTEGER -> stale <> rev -> e = ScheduleRevisionConflict k rev
    | Ok row => (expected = VStr "*" \/ expected = VInt rev) /\ dget row "rev" = Some (VInt (rev + 1)) /\
        (forall f, f ∈ DEFINITION_KEYS -> dget row f = dget n f) /\
        (forall f, f ∉ DEFINITION_KEYS -> f <> "rev" -> f <> "preview" -> dget row f = dget d f) /\
        (forall x, live zoneinfo s' x = if String.eqb k x then Some (sort_keys (VDict row)) else live zoneinfo s x) /\
        forall definition2 preview2 n2, normalize_definition zoneinfo definition2 = Ok n2 -> good definition2 -> good preview2 ->
          fst (put zoneinfo (VStr k) definition2 (VInt rev) preview2 s') = Err (ScheduleRevisionConflict k (rev + 1))
    end.
Proof.
  intros Hok Hid Hgd Hgp Hn Hl Hrev. pose proof (normalize_definition_good zoneinfo _ _ Hgd Hn) as Hgn.
  assert (Hk : _identifier (VStr k) "id" = Ok k) by (unfold _identifier, matching; by rewrite Hid).
  unfold put. rewrite Hn.
  destruct (edit_spec zoneinfo s (VStr k) k expected _ Hok Hk (put_change_sane zoneinfo _ _ _ Hn Hgn Hgp)) as (r & s' & -> & Hok' & _ & Hr).
  exists r, s'. split; [done |]. split; [done |]. destruct r as [row | e].
  - destruct Hr as (d0 & d' & rev0 & Hl0 & Hg0 & Hch & Hr0 & Hexp & -> & Hval & Hv). rewrite Hl in Hl0. injection Hl0 as <-.
    rewrite Hrev in Hr0. injection Hr0 as <-. pose proof (put_change_sane zoneinfo _ _ _ Hn Hgn Hgp _ _ Hg0 Hch) as [Hg' _].
    split; [done |]. split; [by rewrite dget_dset_eq |]. split; [| split; [| split; [done |]]].
    + intros f Hf. assert (f <> "rev" /\ f <> "preview") as [? ?] by (split; intros ->; revert Hf; by_eval).
      rewrite dget_dset_ne by done. rewrite (put_change_fields zoneinfo _ _ _ _ _ _ Hn Hgn Hch) by done. by rewrite bool_decide_true.
    + intros f Hf ? ?. rewrite dget_dset_ne by done. rewrite (put_change_fields zoneinfo _ _ _ _ _ _ Hn Hgn Hch) by done.
      by rewrite bool_decide_false.
    + intros definition2 preview2 n2 Hn2 Hgd2 Hgp2. specialize (Hv k). rewrite String.eqb_refl in Hv.
      pose proof (good_dset _ "rev" (VInt (rev + 1)) Hg' (good_int _)) as Hgr.
      destruct (stored_row zoneinfo _ _ _ (proj1 Hok') Hv) as (dd & Hdd & _). rewrite Hdd in Hv.
      apply (put_stale zoneinfo s' k _ _ n2 dd); [done | done | done | done | done | exact Hv | | | lia].
      * pose proof (dget_sort_keys (dset d' "rev" (VInt (rev + 1))) "rev") as Hsk. rewrite Hdd, dict_or_empty_dict, dget_dset_eq in Hsk.
        apply Hsk. by apply good_dict in Hgr as [? _].
      * exact (live_rev zoneinfo s k d rev Hok Hl Hrev).
  - destruct Hr as [He Hv]. split; [done |]. intros stale -> Hs Hne. unfold edit_row in He. rewrite Hl in He.
    rewrite (compare_stale k d rev stale Hrev Hs Hne) in He. cbn [mbind res_bind] in He. congruence.
Qed.

(** ** Witnesses *)

#[local] Abbreviation creation :=
  (OCreate (VStr "weekly") (VDict weekly) (VStr "api:ops") (VInt 1000) weekly_snapshot weekly_generation).

Lemma empty_consistent : consistent any_zone empty_sched.
Proof. split; [split; apply empty_store_ok |]. intros k row H. discriminate H. Qed.

Lemma creation_good : good_op creation.
Proof. split; [apply weekly_good |]. split; [done |]. split; [done | apply weekly_snapshot_good]. Qed.

Lemma weekly_consistent : consistent any_zone (snd weekly_created).
Proof. exact (proj1 (run_op_extends any_zone empty_sched creation empty_consistent creation_good)). Qed.

(** Deleted and created again: revision 2, so the ETag of revision 1 never comes back. *)
Lemma revision_names_one_document_witness :
  exists row1 row2, live any_zone (foldl (run_op any_zone) empty_sched [creation]) "weekly" = Some row1 /\
    live any_zone (foldl (run_op any_zone) empty_sched
      ([creation] ++ [OReaffirm (VStr "weekly") (VStr "api:ops") (VInt 7)])) "weekly" = Some row2 /\ row1 = row2 /\
    rev_of <$> live any_zone (foldl (run_op any_zone) empty_sched [creation; ODelete (VStr "weekly") (VInt 1); creation]) "weekly"
      = Some 2.
Proof.
  destruct (live any_zone (foldl (run_op any_zone) empty_sched [creation]) "weekly") as [row1 |] eqn:E1;
    [| vm_compute in E1; discriminate E1].
  destruct (live any_zone (foldl (run_op any_zone) empty_sched
      ([creation] ++ [OReaffirm (VStr "weekly") (VStr "api:ops") (VInt 7)])) "weekly") as [row2 |] eqn:E2;
    [| vm_compute in E2; discriminate E2].
  exists row1, row2. split; [reflexivity |]. split; [reflexivity |]. split; [| vm_compute; reflexivity].
  apply (revision_names_one_document any_zone empty_sched [creation] [OReaffirm (VStr "weekly") (VStr "api:ops") (VInt 7)] "weekly").
  - exact empty_consistent.
  - apply Forall_singleton, creation_good.
  - apply Forall_singleton, good_str.
  - exact E1.
  - exact E2.
  - vm_compute in E1. vm_compute in E2. injection E1 as <-. injection E2 as <-. reflexivity.
Defined.

Lemma put_cas_witness :
  exists r s', put any_zone (VStr "weekly") (VDict weekly) (VInt 1) VNone (snd weekly_created) = (r, s') /\ sched_ok any_zone s'.
Proof.
  destruct (live any_zone (snd weekly_created) "weekly") as [[| | | | | | d] |] eqn:E; try (vm_compute in E; discriminate E).
  destruct (normalize_definition any_zone (VDict weekly)) as [n |] eqn:En; [| vm_compute in En; discriminate En].
  destruct (put_cas any_zone (snd weekly_created) "weekly" (VDict weekly) VNone n d 1 (VInt 1)) as (r & s' & H & Hok & _).
  - exact (proj1 weekly_consistent).
  - reflexivity.
  - exact weekly_good.
  - exact good_none.
  - exact En.
  - exact E.
  - vm_compute in E. injection E as <-. reflexivity.
  - exists r, s'. split; [exact H | exact Hok].
Defined.
