(* ===== verification/OccSpec.v ===== *)
(** * Occurrences: frozen evidence and the state machine

    An occurrence only ever changes its state, its annotations and its time of update;
    the state moves along [OCCURRENCE_TRANSITIONS] and an opened wave gate stays open,
    through any sequence of operations. *)
From S2P Require Import Prelude PyVal JsonDump PolicyDoc Sha256 KeyedState KeyedSpec SchedDoc SchedValid SchedTime SchedTimeSpec SchedStore SchedOps SchedSpec.

(** ** Occurrence rows: persistence

    The checks on an occurrence hold for the row as read back from disk. *)

Lemma jeq_field_atom d e k : jeq_dicts d e -> atom (dget_or d k VNone) = true -> dget_or e k VNone = dget_or d k VNone.
Proof.
  intros H Ha. symmetry. apply jeq_hashable; [by apply jeq_get_or |]. by destruct (dget_or d k VNone).
Qed.

Lemma py_eq_str_r v s : py_eq v (VStr s) = true -> v = VStr s.
Proof. destruct v; try done. cbn. by intros ->%String.eqb_eq. Qed.

Lemma jeq_strs_eq ids w : jeq (strs ids) w -> w = strs ids.
Proof.
  intros H. unfold strs in *. apply jeq_list_inv in H as (k & -> & HF). f_equal.
  remember (map VStr ids) as l eqn:El. revert ids El. induction HF as [| x y l k Hxy _ IH]; intros ids El; [done |].
  destruct ids as [| i ids]; [done |]. cbn in El. injection El as -> ->. apply jeq_str in Hxy. subst y. f_equal. by apply (IH ids).
Qed.

Lemma snapshot_ids_jeq v w n : jeq v w -> normalize_snapshot v = Ok n -> snapshot_ids w = snapshot_ids v.
Proof.
  intros H E. unfold normalize_snapshot in E. head E as E1.
  destruct (jeq_object _ _ _ _ _ _ H E1) as (-> & e & -> & _ & He). head E as E2. unfold snapshot_ids. rewrite !dict_or_empty_dict.
  pose proof (strs_of_ids _ _ _ _ _ E2) as Hs. pose proof (jeq_get_or _ _ "device_ids" VNone He) as Hj.
  rewrite Hs in Hj. by rewrite (jeq_strs_eq _ _ Hj), Hs.
Qed.

Lemma validate_slot_respects : respects _validate_slot.
Proof.
  intros v w n H Hv Hw E. unfold _validate_slot in *. head E as E1.
  destruct (jeq_object _ _ _ _ _ _ H E1) as (-> & e & -> & -> & He). cbn [mbind res_bind] in *.
  head E as E2. head E as E3. head E as E4. head E as E5. head E as E6. head E as E7. injection E as <-. port.
  assert (Hx : (if is_none (dget_or a "next_at" VNone) then Ok tt
    else let* _ := _integer (dget_or e "next_at" VNone) "next_at" (a0 + 1) MAX_EPOCH in Ok tt) = Ok tt).
  { destruct (is_none (dget_or a "next_at" VNone)); [done |]. head E7 as E8. port. done. }
  rewrite Hx. eauto.
Qed.

Lemma check_wave_jeq v w : jeq v w -> wf_val v -> wf_val w -> check_wave v = Ok tt -> check_wave w = Ok tt.
Proof.
  intros H Hv Hw E. unfold check_wave in *. head E as E1. head E as E2. apply negb_false_iff in E2.
  destruct (normalize_wave_respects _ _ _ H Hv Hw E1) as (n' & En' & Hn). rewrite En'. cbn [mbind res_bind].
  assert (Hwn : forall v n, wf_val v -> normalize_wave v = Ok n -> wf_val (VDict n)).
  { intros u n Hu En. unfold normalize_wave in En. head En as F1. apply object_inv in F1 as [-> _].
    head En as F2. head En as F3. head En as F4. head En as F5. head En as F6. head En as F7. head En as F8.
    head En as F9. head En as F10. head En as F11. head En as F12. head En as F13. injection En as <-.
    wf_tac; by apply wf_field. }
  assert (py_eq (VDict n') w = true) as ->; [| done].
  eapply jeq_py_eq_r; [exact H |]. exact (jeq_py_eq _ _ _ Hn (Hwn _ _ Hv E1) (Hwn _ _ Hw En') E2).
Qed.

Lemma check_annotations_jeq v w :
  jeq v w -> wf_val v -> wf_val w -> check_annotations v = Ok tt -> check_annotations w = Ok tt.
Proof.
  intros H Hv Hw E. unfold check_annotations in *. head E as E1.
  destruct (jeq_object _ _ _ _ _ _ H E1) as (-> & e & -> & -> & He). cbn [mbind res_bind] in *. head E as E2. units.
  assert (Hq : match dget e "all_targets_quarantined" with
    | Some v => let* _ := _integer v "all_targets_quarantined" 1 MAX_TARGETS in Ok tt | None => Ok tt end = Ok tt).
  { destruct (dget a "all_targets_quarantined") as [q |] eqn:Eq.
    - destruct (jeq_get_Some _ _ _ _ He Eq) as (q' & -> & Hq). head E2 as E3. by rewrite (jeq_integer _ _ _ _ _ _ Hq E3).
    - by rewrite (jeq_get_None _ _ _ He Eq). }
  rewrite Hq. cbn [mbind res_bind]. destruct (dget a "wave") as [q |] eqn:Eq; [| by rewrite (jeq_get_None _ _ _ He Eq)].
  destruct (jeq_get_Some _ _ _ _ He Eq) as (q' & Eq' & Hj). rewrite Eq'.
  exact (check_wave_jeq _ _ Hj (wf_dget _ _ _ Hv Eq) (wf_dget _ _ _ Hw Eq') E).
Qed.

Section valid.
Context (zoneinfo : string -> res unit).

(** What an accepted occurrence says of its scalar fields. *)
Lemma occurrence_scalars key v :
  _validate_occurrence zoneinfo key v = Ok tt -> exists d, v = VDict d /\
    Forall (fun k => atom (dget_or d k VNone) = true)
      ["id"; "schedule_id"; "schedule_generation"; "schedule_rev"; "actor"; "scheduled_at"; "window_end"; "state"; "created_at"; "updated_at"] /\
    atom (dget_or (dict_or_empty (dget_or d "schedule" VNone)) "generation" VNone) = true /\
    atom (dget_or (dict_or_empty (dget_or d "schedule" VNone)) "rev" VNone) = true.
Proof.
  intros E. unfold _validate_occurrence in E. head E as E1. apply object_inv in E1 as [-> _]. exists a. split; [done |].
  head E as E2. head E as E3. head E as E4. head E as E5. head E as E6. head E as E7. head E as E8. head E as E9.
  head E as E10. head E as E11. head E as E12. head E as E13. head E as E14.
  unfold validate_schedule in E3. head E3 as S1. head E3 as S2. head E3 as S3. head E3 as S4. head E3 as S5.
  apply object_inv in S1 as [S1 _]. apply identifier_inv in S2 as [S2 _]. apply hex_inv in S4 as [S4 _]. apply integer_inv in S5 as [S5 _].
  rewrite S1, dict_or_empty_dict in *. rewrite S4, S5 in *.
  apply negb_false_iff, py_eq_str_r in E4. apply integer_inv in E8 as [E8 _], E9 as [E9 _], E13 as [E13 _], E14 as [E14 _].
  apply negb_false_iff, in_strs_spec in E11 as (st & E11 & _).
  apply orb_false_iff in E6 as [E6 Ha]. apply orb_false_iff in E6 as [E6 Hr]. apply orb_false_iff in E6 as [E6 Hi].
  apply orb_false_iff in E6 as [_ Hg]. apply negb_false_iff, py_eq_str_r in Hg. apply negb_false_iff, py_eq_str_r in Ha.
  split; [| done]. rewrite !Forall_cons. rewrite E4, S2, Hg, Ha, E8, E9, E11, E13, E14.
  destruct (dget_or a "schedule_rev" VNone); try discriminate Hi. repeat split. constructor.
Qed.

Lemma validate_occurrence_jeq key v w :
  jeq v w -> wf_val v -> wf_val w ->
  _validate_occurrence zoneinfo key v = Ok tt -> _validate_occurrence zoneinfo key w = Ok tt.
Proof.
  intros H Hv Hw E. destruct (occurrence_scalars key v E) as (d0 & Hd0 & Hsc & Hgen & Hrev).
  unfold _validate_occurrence in *. head E as E1.
  destruct (jeq_object _ _ _ _ _ _ H E1) as (-> & e & -> & -> & He). injection Hd0 as <-. cbn [mbind res_bind] in *.
  rewrite !Forall_cons in Hsc. destruct Hsc as (A1 & A2 & A3 & A4 & A5 & A6 & A7 & A8 & A9 & A10 & _).
  pose proof (jeq_dict_or_empty _ _ (jeq_get_or _ _ "schedule" VNone He)) as Hse.
  rewrite (jeq_field_atom _ _ _ He A1), (jeq_field_atom _ _ _ He A2), (jeq_field_atom _ _ _ He A3), (jeq_field_atom _ _ _ He A4),
    (jeq_field_atom _ _ _ He A5), (jeq_field_atom _ _ _ He A6), (jeq_field_atom _ _ _ He A7), (jeq_field_atom _ _ _ He A8),
    (jeq_field_atom _ _ _ He A9), (jeq_field_atom _ _ _ He A10), (jeq_field_atom _ _ _ Hse Hgen), (jeq_field_atom _ _ _ Hse Hrev).
  head E as E2. head E as E3. units.
  rewrite (validate_schedule_jeq zoneinfo _ _ _ (jeq_get_or _ _ "schedule" VNone He) (wf_field _ _ Hv) (wf_field _ _ Hw) E3).
  cbn [mbind res_bind]. head E as E4. head E as E5.
  assert (occurrence_id (dict_or_empty (dget_or e "schedule" VNone)) (dget_or a "scheduled_at" VNone) = Ok a1) as ->.
  { unfold occurrence_id in *. by rewrite (jeq_field_atom _ _ _ Hse Hgen). }
  cbn [mbind res_bind]. head E as E6. head E as E7.
  destruct (validate_slot_respects _ _ _ (jeq_get_or _ _ "slot" VNone He) (wf_field _ _ Hv) (wf_field _ _ Hw) E7) as (sl & -> & Hsl).
  cbn [mbind res_bind]. head E as E8. head E as E9. head E as E10.
  assert (Hslot : forall k, k ∈ ["scheduled_at"; "window_end"; "status"] -> dget_or sl k VNone = dget_or a2 k VNone).
  { intros k Hk. apply jeq_field_atom; [done |]. unfold _validate_slot in E7. head E7 as S1. head E7 as S2. head E7 as S3.
    head E7 as S4. head E7 as S5. head E7 as S6. head E7 as S7. injection E7 as <-.
    apply integer_inv in S2 as [S2 _], S3 as [S3 _]. apply orb_false_iff in S4 as [S4 _].
    apply negb_false_iff, in_strs_spec in S4 as (st & S4 & _).
    apply elem_of_cons in Hk as [-> | Hk]; [by rewrite S2 |]. apply elem_of_cons in Hk as [-> | Hk]; [by rewrite S3 |].
    apply list_elem_of_singleton in Hk as ->. by rewrite S4. }
  rewrite !Hslot by set_solver. rewrite E10. head E as E11.
  head E as E12. pose proof E12 as E12'.
  destruct (normalize_snapshot_respects _ _ _ (jeq_get_or _ _ "preview" VNone He) (wf_field _ _ Hv) (wf_field _ _ Hw) E12) as (pv & -> & _).
  cbn [mbind res_bind]. head E as E13. head E as E14. head E as E15. units.
  assert (match dget e "annotations" with Some x => check_annotations x | None => Ok tt end = Ok tt) as ->.
  { destruct (dget a "annotations") as [x |] eqn:Ex; [| by rewrite (jeq_get_None _ _ _ He Ex)].
    destruct (jeq_get_Some _ _ _ _ He Ex) as (y & Ey & Hxy). rewrite Ey.
    exact (check_annotations_jeq _ _ Hxy (wf_dget _ _ _ Hv Ex) (wf_dget _ _ _ Hw Ey) E15). }
  cbn [mbind res_bind]. rewrite E14. cbn [mbind res_bind]. rewrite <- (jeq_has _ _ "target_snapshot" He), <- (jeq_has _ _ "delta" He).
  destruct (py_eq (dget_or a "state" VNone) (VStr "missed")); [exact E |].
  head E as E16. head E as E17.
  destruct (normalize_snapshot_respects _ _ _ (jeq_get_or _ _ "target_snapshot" VNone He) (wf_field _ _ Hv) (wf_field _ _ Hw) E17) as (ts & -> & _).
  cbn [mbind res_bind]. head E as E18.
  destruct (jeq_object _ _ _ _ _ _ (jeq_get_or _ _ "delta" VNone He) E18) as (_ & de & _ & -> & Hde). cbn [mbind res_bind].
  rewrite (snapshot_ids_jeq _ _ _ (jeq_get_or _ _ "preview" VNone He) E12'),
    (snapshot_ids_jeq _ _ _ (jeq_get_or _ _ "target_snapshot" VNone He) E17).
  head E as E19. head E as E20. head E as E21. head E as E22. port. done.
Qed.

Lemma occurrence_storable key d :
  good (VDict d) -> _validate_occurrence zoneinfo key (VDict d) = Ok tt -> storable (_validate_occurrence zoneinfo) key (VDict d).
Proof.
  intros [Hwf Hfin] Hv. split; [done |]. split; [done |]. split; [done |].
  eapply validate_occurrence_jeq; [by apply jeq_sort_keys | done | by apply wf_sort_keys | done].
Qed.
End valid.

(** ** Fields of stored rows *)

Definition fld (v : pyval) (k : string) : pyval := dget_or (dict_or_empty v) k VNone.

Lemma fld_dict d k : fld (VDict d) k = dget_or d k VNone.
Proof. done. Qed.

Lemma fld_sorted v k : wf_val v -> fld (sort_keys v) k = sort_keys (fld v k).
Proof.
  intros H. unfold fld. destruct v; try done. apply wf_dict in H as [Hn _].
  unfold dget_or. rewrite dget_sort_keys by done. rewrite dict_or_empty_dict. by destruct (dget d k).
Qed.

Lemma wf_fld v k : wf_val v -> wf_val (fld v k).
Proof. intros H. unfold fld. apply wf_dget_or; [by apply wf_dict_or_empty | done]. Qed.

Lemma fld_canonical v k : wf_val v -> sort_keys v = v -> sort_keys (fld v k) = fld v k.
Proof. intros Hw Hc. by rewrite <- fld_sorted, Hc. Qed.

Lemma fld_dset d k x j : fld (VDict (dset d k x)) j = if String.eqb k j then x else fld (VDict d) j.
Proof. rewrite !fld_dict. unfold dget_or. rewrite dget_dset. by destruct (String.eqb k j). Qed.

(** The fields an operation may change. *)
Definition mutable_keys : list string := ["state"; "annotations"; "updated_at"].

(** A move of the state machine after creation. *)
Definition occ_edge (a b : string) : Prop := b ∈ dget_or OCCURRENCE_TRANSITIONS a [] /\ b <> "missed".

Definition gate_of (v : pyval) : pyval := fld (fld (fld v "annotations") "wave") "gate".
Definition gate_open (v : pyval) : Prop := gate_of v = VStr "open".

(** How a row may differ from an earlier one. *)
Record evolves (v v' : pyval) : Prop := {
  ev_frozen : forall k, k ∉ mutable_keys -> fld v' k = fld v k;
  ev_state : exists a b, fld v "state" = VStr a /\ fld v' "state" = VStr b /\ rtc occ_edge a b;
  ev_gate : gate_open v -> gate_open v';
  ev_time : int_of (fld v "updated_at") <= int_of (fld v' "updated_at") }.

Lemma evolves_refl v a : fld v "state" = VStr a -> evolves v v.
Proof. intros H. split; [done | exists a, a; done | done | lia]. Qed.

Lemma evolves_trans u v w : evolves u v -> evolves v w -> evolves u w.
Proof.
  intros [F1 (a & b & Ha & Hb & S1) G1 T1] [F2 (b' & c & Hb' & Hc & S2) G2 T2]. split.
  - intros k Hk. by rewrite F2, F1.
  - rewrite Hb in Hb'. injection Hb' as <-. exists a, c. split; [done |]. split; [done |]. by etrans.
  - auto.
  - lia.
Qed.

Lemma gate_sorted v : wf_val v -> gate_of (sort_keys v) = sort_keys (gate_of v).
Proof. intros H. unfold gate_of. rewrite !fld_sorted; [done | by repeat apply wf_fld | by apply wf_fld | done]. Qed.

(** A row written with new values for mutable fields, as it is read back. *)
Lemma evolves_sorted v v' : wf_val v' -> evolves v v' -> wf_val v -> sort_keys v = v -> evolves v (sort_keys v').
Proof.
  intros Hw [F (a & b & Ha & Hb & S) G Tm] Hv Hc. split.
  - intros k Hk. rewrite fld_sorted, F by done. by apply fld_canonical.
  - exists a, b. split; [done |]. rewrite fld_sorted, Hb by done. done.
  - intros Hg%G. unfold gate_open in *. by rewrite gate_sorted, Hg.
  - rewrite fld_sorted by done. revert Tm. by destruct (fld v' "updated_at").
Qed.

Section spec.
Context (zoneinfo : string -> res unit) {T : Type} `{RO : RowStore T (_validate_occurrence zoneinfo)}.
#[local] Abbreviation occ_ok := (rs_ok (V:=_validate_occurrence zoneinfo)).
#[local] Abbreviation occ_view := (rs_view (V:=_validate_occurrence zoneinfo)).

Lemma validated_state key v : _validate_occurrence zoneinfo key v = Ok tt ->
  exists d st u, v = VDict d /\ fld v "state" = VStr st /\ fld v "updated_at" = VInt u.
Proof.
  intros E. unfold _validate_occurrence in E. head E as E1. apply object_inv in E1 as [-> _].
  head E as E2. head E as E3. head E as E4. head E as E5. head E as E6. head E as E7. head E as E8. head E as E9.
  head E as E10. head E as E11. head E as E12. head E as E13. head E as E14.
  apply negb_false_iff, in_strs_spec in E11 as (st & E11 & _). apply integer_inv in E14 as [E14 _].
  by exists a, st, a8.
Qed.

Lemma stored_occurrence s k v : occ_ok s -> occ_view s k = Some v ->
  exists d st u, v = VDict d /\ good v /\ sort_keys v = v /\ _validate_occurrence zoneinfo k v = Ok tt /\
    fld v "state" = VStr st /\ fld v "updated_at" = VInt u.
Proof.
  intros Hok Hv. destruct (rs_row_ok s k v Hok Hv) as [(_ & Hwf & Hfin & Hval) Hc]. rewrite Hc in Hval.
  destruct (validated_state _ _ Hval) as (d & st & u & -> & Hst & Hu). exists d, st, u. done.
Qed.

(** A decision on a stored row: keep it, or write an evolved one. *)
Definition sane_decision (key : string) (f : option pyval -> res upd) : Prop :=
  forall v new, good v -> sort_keys v = v -> _validate_occurrence zoneinfo key v = Ok tt -> f (Some v) = Ok new ->
    exists d, new = UPut (VDict d) /\ good (VDict d) /\ _validate_occurrence zoneinfo key (VDict d) = Ok tt /\ evolves v (VDict d).

Lemma decide_spec s key fn f :
  occ_ok s -> (forall old, fn old tt = (f old, tt)) -> sane_decision key f -> (forall new, f None = Ok new -> exists d, new = UPut (VDict d) /\ good (VDict d) /\
    _validate_occurrence zoneinfo key (VDict d) = Ok tt) ->
  exists r s', put_row (rs_update (V:=_validate_occurrence zoneinfo) key fn (s, tt)) = (r, s') /\ occ_ok s' /\
    (forall x, x <> key -> occ_view s' x = occ_view s x) /\
    (forall v, occ_view s key = Some v -> exists v', occ_view s' key = Some v' /\ evolves v v') /\
    match r with
    | Err e => f (occ_view s key) = Err e /\ forall x, occ_view s' x = occ_view s x
    | Ok d => f (occ_view s key) = Ok (UPut (VDict d)) /\ occ_view s' key = Some (sort_keys (VDict d))
    end.
Proof.
  intros Hok Hfn Hd Hn. set (o := f (occ_view s key)).
  assert (Hst : forall new, o = Ok new -> exists d, new = UPut (VDict d) /\ good (VDict d) /\
    _validate_occurrence zoneinfo key (VDict d) = Ok tt /\ forall v, occ_view s key = Some v -> evolves v (VDict d)).
  { intros new Hnew. unfold o in Hnew. destruct (occ_view s key) as [v |] eqn:Ev.
    - destruct (stored_occurrence s key v Hok Ev) as (d & st & u & Hvd & Hg & Hc & Hval & _).
      destruct (Hd v new Hg Hc Hval Hnew) as (d' & -> & Hg' & Hval' & He). exists d'. split; [done |]. split; [done |].
      split; [done |]. by intros v0 [= <-].
    - destruct (Hn new Hnew) as (d & -> & Hg & Hval). exists d. done. }
  destruct (rs_update_spec unit s tt tt key fn o Hok (Hfn _)) as (s' & Hu & Hok' & Hv).
  { intros new Hnew. destruct (Hst new Hnew) as (d & -> & Hg & Hval & _). by apply occurrence_storable. }
  rewrite Hu. destruct o as [new | e] eqn:Eo; cbn [put_row].
  - destruct (Hst new eq_refl) as (d & -> & Hg & Hval & Hev). eexists _, _. split; [done |]. split; [done |].
    assert (Hk : occ_view s' key = Some (sort_keys (VDict d))).
    { rewrite Hv. unfold apply_view. by rewrite String.eqb_refl. }
    split; [| split; [| done]].
    + intros x Hx. rewrite Hv. unfold apply_view. by destruct (String.eqb_spec key x); [congruence |].
    + intros v Ev. exists (sort_keys (VDict d)). split; [done |].
      destruct (stored_occurrence s key v Hok Ev) as (dv & st & u & -> & Hgv & Hc & _).
      apply evolves_sorted; [apply Hg | by apply Hev | apply Hgv | done].
  - eexists _, _. split; [done |]. split; [done |]. split; [intros x _; apply Hv |]. split; [| done].
    intros v Ev. exists v. split; [by rewrite Hv |]. destruct (stored_occurrence s key v Hok Ev) as (dv & st & u & _ & _ & _ & _ & Hs & _).
    by eapply evolves_refl.
Qed.

(** ** The decisions of the operations *)

Lemma keep_sane key v new :
  good v -> _validate_occurrence zoneinfo key v = Ok tt -> Ok (UPut v) = Ok new ->
  exists d, new = UPut (VDict d) /\ good (VDict d) /\ _validate_occurrence zoneinfo key (VDict d) = Ok tt /\ evolves v (VDict d).
Proof.
  intros Hg Hval [= <-]. destruct (validated_state _ _ Hval) as (d & st & u & -> & Hst & _). exists d.
  do 3 (split; [done |]). by eapply evolves_refl.
Qed.

Lemma transition_sane key state now exp : sane_decision key (transition_row zoneinfo key state now exp).
Proof.
  intros v new Hg Hc Hval E. unfold transition_row in E. head E as E1.
  destruct (py_eq state (dget_or (dict_or_empty v) "state" VNone)) eqn:Es; [by eapply keep_sane |].
  head E as E2. head E as E3. head E as E4. injection E as <-. units. eexists. split; [done |].
  apply negb_false_iff, in_strs_spec in E3 as (st & -> & Hst).
  destruct (validated_state _ _ Hval) as (d & cur & u & -> & Hcur & Hu). rewrite dict_or_empty_dict in *.
  split; [auto with py |]. split; [done |]. split.
  - intros k Hk. unfold mutable_keys in Hk. rewrite !fld_dset.
    destruct (String.eqb_spec "updated_at" k) as [<- | ?]; [set_solver |]. by destruct (String.eqb_spec "state" k) as [<- | ?]; [set_solver |].
  - exists cur, st. split; [done |]. split; [by rewrite !fld_dset |]. apply rtc_once. split.
    + rewrite fld_dict in Hcur. by rewrite Hcur in Hst.
    + intros ->. by cbn in E2.
  - unfold gate_open, gate_of. by rewrite !fld_dset.
  - rewrite !fld_dset. cbn [String.eqb Ascii.eqb Bool.eqb]. rewrite fld_dict. change (int_of (VInt ?z)) with z. lia.
Qed.

Lemma annotations_fld d : annotations_of d = dict_or_empty (fld (VDict d) "annotations").
Proof. done. Qed.

(** Only the annotations and the time of update change. *)
Lemma annotate_evolves d a t st :
  fld (VDict d) "state" = VStr st -> int_of (fld (VDict d) "updated_at") <= t ->
  (gate_open (VDict d) -> fld (fld (VDict a) "wave") "gate" = VStr "open") ->
  evolves (VDict d) (VDict (dset (dset d "annotations" (VDict a)) "updated_at" (VInt t))).
Proof.
  intros Hs Ht Hgate. split.
  - intros k Hk. unfold mutable_keys in Hk. rewrite !fld_dset.
    destruct (String.eqb_spec "updated_at" k) as [<- | ?]; [set_solver |]. by destruct (String.eqb_spec "annotations" k) as [<- | ?]; [set_solver |].
  - exists st, st. by rewrite !fld_dset.
  - intros Ho. unfold gate_open, gate_of. rewrite !fld_dset. by apply Hgate.
  - rewrite !fld_dset. done.
Qed.

Lemma quarantined_sane key count now : sane_decision key (quarantined_row zoneinfo key count now).
Proof.
  intros v new Hg Hc Hval E. unfold quarantined_row in E. head E as E1.
  destruct (validated_state _ _ Hval) as (d & cur & u & -> & Hcur & Hu). rewrite dict_or_empty_dict in *.
  assert (Hrest : (let row := dset d "annotations" (VDict (dset (annotations_of d) "all_targets_quarantined" (VInt count))) in
     let row := dset row "updated_at" (VInt (Z.max now (int_of (dget_or row "updated_at" VNone)))) in
     _validate_occurrence zoneinfo key (VDict row) ;;; Ok (UPut (VDict row))) = Ok new -> exists d',
     new = UPut (VDict d') /\ good (VDict d') /\ _validate_occurrence zoneinfo key (VDict d') = Ok tt /\ evolves (VDict d) (VDict d')).
  { cbn zeta. intros E2. head E2 as E3. injection E2 as <-. units. eexists. split; [done |].
    assert (Hga : good (VDict (annotations_of d))) by (unfold annotations_of; auto with py).
    split; [auto with py |]. split; [done |]. eapply annotate_evolves; [exact Hcur | |].
    - change (dget_or (dset d "annotations" _) "updated_at" VNone) with (fld (VDict (dset d "annotations" (VDict (dset (annotations_of d) "all_targets_quarantined" (VInt count))))) "updated_at").
      rewrite fld_dset. cbn. lia.
    - intros Ho. rewrite fld_dset. cbn [String.eqb Ascii.eqb Bool.eqb]. rewrite annotations_fld. exact Ho. }
  destruct (dget_or (annotations_of d) "all_targets_quarantined" VNone) eqn:Ea; [exact (Hrest E) | | | | | |];
    (head E as E2; by eapply keep_sane).
Qed.

Lemma wave_sane key wave now : good (VDict wave) -> sane_decision key (wave_row zoneinfo key wave now).
Proof.
  intros Hgw v new Hg Hc Hval E. unfold wave_row in E. head E as E1.
  destruct (validated_state _ _ Hval) as (d & cur & u & -> & Hcur & Hu). rewrite dict_or_empty_dict in *.
  set (existing := dget_or (annotations_of d) "wave" VNone) in *.
  destruct (negb (is_none existing) && _) eqn:Ew; [by eapply keep_sane |].
  head E as E2. head E as E3. injection E as <-. units. eexists. split; [done |].
  assert (Hga : good (VDict (annotations_of d))) by (unfold annotations_of; auto with py).
  split; [auto with py |]. split; [done |]. eapply annotate_evolves; [exact Hcur | rewrite fld_dict; lia |].
  intros Ho. rewrite fld_dset. cbn [String.eqb Ascii.eqb Bool.eqb]. rewrite fld_dict.
  assert (He : dget_or (dict_or_empty existing) "gate" VNone = VStr "open") by exact Ho.
  assert (Hne : is_none existing = false) by (destruct existing; done).
  rewrite Hne, He in E2. cbn [negb andb py_eq] in E2. rewrite String.eqb_refl in E2. cbn in E2.
  apply negb_false_iff in E2. by apply py_eq_str_r.
Qed.

(** ** Runs *)

Inductive occ_op :=
  | OccCreate (schedule : dict) (slot target_snapshot now : pyval)
  | OccTransition (identifier state now expected_state : pyval)
  | OccQuarantined (identifier count now : pyval)
  | OccWave (identifier wave now : pyval)
  | OccRecover (now : pyval).

Definition run_occ (s : T) (o : occ_op) : T :=
  match o with
  | OccCreate sc sl t n => snd (occ_create zoneinfo sc sl t n s)
  | OccTransition i st n e => snd (occ_transition zoneinfo i st n e s)
  | OccQuarantined i c n => snd (annotate_all_targets_quarantined zoneinfo i c n s)
  | OccWave i w n => snd (annotate_wave zoneinfo i w n s)
  | OccRecover n => snd (recover_interrupted zoneinfo n s)
  end.

Definition good_occ_op (o : occ_op) : Prop :=
  match o with
  | OccCreate sc sl t n => good (VDict sc) /\ good sl /\ good t
  | OccWave i w n => good w
  | _ => True
  end.

(** Every stored occurrence is still there, evolved. *)
Definition occ_extends (s s' : T) : Prop :=
  forall k v, occ_view s k = Some v -> exists v', occ_view s' k = Some v' /\ evolves v v'.

Lemma occ_extends_refl s : occ_ok s -> occ_extends s s.
Proof.
  intros Hok k v Hv. exists v. split; [done |].
  destruct (stored_occurrence s k v Hok Hv) as (d & st & u & _ & _ & _ & _ & Hs & _). by eapply evolves_refl.
Qed.

Lemma decide_extends s key s' :
  occ_ok s -> (forall x, x <> key -> occ_view s' x = occ_view s x) ->
  (forall v, occ_view s key = Some v -> exists v', occ_view s' key = Some v' /\ evolves v v') ->
  occ_extends s s'.
Proof.
  intros Hok Hne Hk k v Hv. destruct (decide (k = key)) as [-> | Hn]; [by apply Hk |]. exists v. rewrite Hne by done.
  split; [done |]. destruct (stored_occurrence s k v Hok Hv) as (d & st & u & _ & _ & _ & _ & Hs & _). by eapply evolves_refl.
Qed.

Lemma decided s key fn f :
  occ_ok s -> (forall old, fn old tt = (f old, tt)) -> sane_decision key f -> (forall new, f None = Ok new ->
    exists d, new = UPut (VDict d) /\ good (VDict d) /\ _validate_occurrence zoneinfo key (VDict d) = Ok tt) ->
  let s' := snd (put_row (rs_update (V:=_validate_occurrence zoneinfo) key fn (s, tt))) in occ_ok s' /\ occ_extends s s'.
Proof.
  intros Hok Hfn Hs Hn. destruct (decide_spec s key fn f Hok Hfn Hs Hn) as (r & s' & -> & Hok' & Hne & Hk & _).
  split; [done |]. by apply (decide_extends s key).
Qed.

Lemma claim_row_good schedule slot key target now row :
  good (VDict schedule) -> good (VDict slot) -> good target ->
  claim_row zoneinfo schedule slot key target now = Ok row ->
  good (VDict row) /\ _validate_occurrence zoneinfo key (VDict row) = Ok tt.
Proof.
  intros Hsc Hsl Ht E. unfold claim_row in E. head E as E1. head E as E2. head E as E3. head E as E4.
  injection E as <-. units. split; [| exact E4].
  assert (Hp : good (VDict a)) by (eapply normalize_snapshot_good; [| exact E1]; auto with py).
  assert (Hfs : forall x, good (VDict (dset slot "status" (VStr x)))) by (intros x; auto with py).
  destruct (int_of (dget_or slot "window_end" VNone) <=? now); [injection E3 as <-; good_tac; auto with py |].
  head E3 as E5. pose proof (normalize_snapshot_good _ _ Ht E5) as Hsn. injection E3 as <-. cbn [app].
  assert (Hb : good (VDict (if py_eq (dget_or (dict_or_empty (dget_or schedule "target" VNone)) "bind" VNone) (VStr "early")
    then dset a1 "device_ids" (dget_or a "device_ids" VNone) else a1))) by (destruct (py_eq _ _); auto with py).
  assert (Hd : forall x y, good (VDict [("added", VInt x); ("removed", VInt y)])) by (intros x y; good_tac).
  good_tac; auto with py.
Qed.

Lemma transition_extends i st n e s :
  occ_ok s -> let s' := snd (occ_transition zoneinfo i st n e s) in occ_ok s' /\ occ_extends s s'.
Proof.
  intros Hok. unfold occ_transition. destruct (_hex i _) as [key |]; cbn [mbind res_bind]; [| split; [done | by apply occ_extends_refl]].
  destruct (_integer n _ _ _) as [z |]; cbn [mbind res_bind]; [| split; [done | by apply occ_extends_refl]].
  apply (decided s key _ (transition_row zoneinfo key st z e)); [done | done | apply transition_sane | done].
Qed.

Lemma occ_extends_trans s1 s2 s3 : occ_extends s1 s2 -> occ_extends s2 s3 -> occ_extends s1 s3.
Proof.
  intros H1 H2 k v Hv. destruct (H1 k v Hv) as (v1 & Hv1 & E1). destruct (H2 k v1 Hv1) as (v2 & Hv2 & E2).
  exists v2. split; [done |]. by eapply evolves_trans.
Qed.

Lemma sfold_extends {A B} (f : B -> A -> sm T B) l :
  (forall b a s, occ_ok s -> occ_ok (snd (f b a s)) /\ occ_extends s (snd (f b a s))) ->
  forall b s, occ_ok s -> let s' := snd (sfold f b l s) in occ_ok s' /\ occ_extends s s'.
Proof.
  intros Hf. induction l as [| a l IH]; intros b s Hok; cbn [sfold]; [split; [done | by apply occ_extends_refl] |].
  cbn zeta. unfold sbind. destruct (Hf b a s Hok) as [Hok' He]. destruct (f b a s) as [[b' | e] s'] eqn:E; cbn [snd] in *; [| done].
  destruct (IH b' s' Hok') as [Hok2 He2]. split; [done |]. by eapply occ_extends_trans.
Qed.

Lemma occ_list_same sid s : occ_ok s -> let s' := snd (occ_list zoneinfo sid s) in occ_ok s' /\ forall k, occ_view s' k = occ_view s k.
Proof.
  intros Hok. cbn zeta. unfold occ_list, sbind, lift. destruct (match sid with Some _ => _ | None => _ end); [| done].
  destruct (rs_snapshot_spec s Hok) as (d & s' & -> & Hok' & Hv & _). done.
Qed.

Lemma recover_extends n s : occ_ok s -> let s' := snd (recover_interrupted zoneinfo n s) in occ_ok s' /\ occ_extends s s'.
Proof.
  intros Hok. unfold recover_interrupted. cbn zeta. unfold sbind. destruct (occ_list_same None s Hok) as [Hok1 Hv1].
  destruct (occ_list zoneinfo None s) as [[rows | e] s1]; cbn [snd] in *.
  - destruct (sfold_extends (fun recovered row =>
      if py_eq (dget_or (dict_or_empty row) "state" VNone) (VStr "running") then fun s =>
        match occ_transition zoneinfo (dget_or (dict_or_empty row) "id" VNone) (VStr "interrupted") n (VStr "running") s with
        | (Ok _, s) => (Ok (recovered ++ [dget_or (dict_or_empty row) "id" VNone]), s)
        | (Err e, s) => if is_conflict e then (Ok recovered, s) else (Err e, s)
        end
      else sret recovered) rows) with (b := @nil pyval) (s := s1) as [Hok2 He2]; [| done |].
    + intros b a s0 Hs0. destruct (py_eq _ _); [| split; [done | by apply occ_extends_refl]].
      destruct (transition_extends (dget_or (dict_or_empty a) "id" VNone) (VStr "interrupted") n (VStr "running") s0 Hs0) as [Ho He].
      destruct (occ_transition _ _ _ _ _ _) as [[d | er] s2]; cbn [snd] in *; [done |]. by destruct (is_conflict er).
    + split; [done |]. intros k v Hv. apply He2. by rewrite Hv1.
  - split; [done |]. intros k v Hv. rewrite Hv1. by apply occ_extends_refl.
Qed.

Lemma run_occ_extends s o : occ_ok s -> good_occ_op o -> occ_ok (run_occ s o) /\ occ_extends s (run_occ s o).
Proof.
  intros Hok Hg. assert (Hsame : occ_ok s /\ occ_extends s s) by (split; [done | by apply occ_extends_refl]).
  destruct o as [sc sl t n | i st n e | i c n | i w n | n]; cbn [run_occ good_occ_op] in *.
  - destruct Hg as (Hsc & Hsl & Ht). unfold occ_create.
    destruct (validate_schedule _ _ _) as [[] |]; cbn [mbind res_bind]; [| done].
    destruct (_validate_slot sl) as [d |] eqn:Es; cbn [mbind res_bind]; [| done].
    destruct (_integer n _ _ _) as [z |]; cbn [mbind res_bind]; [| done].
    destruct (occurrence_id _ _) as [key |]; cbn [mbind res_bind]; [| done].
    assert (Hd : sl = VDict d).
    { unfold _validate_slot in Es. head Es as E1. apply object_inv in E1 as [-> _]. head Es as E2. head Es as E3. head Es as E4.
      head Es as E5. head Es as E6. head Es as E7. by injection Es as <-. }
    subst sl. apply (decided s key _ (fun old => match old with Some row => Ok (UPut row) | None =>
      let* row := claim_row zoneinfo sc d key t z in Ok (UPut (VDict row)) end)); [done | by intros [] | |].
    + intros v new Hgv Hc Hval E. by eapply keep_sane.
    + intros new E. head E as E1. injection E as <-. exists a. split; [done |]. exact (claim_row_good _ _ _ _ _ _ Hsc Hsl Ht E1).
  - by apply transition_extends.
  - unfold annotate_all_targets_quarantined. destruct (_hex i _) as [key |]; cbn [mbind res_bind]; [| done].
    destruct (_integer c _ _ _) as [z |]; cbn [mbind res_bind]; [| done].
    destruct (_integer n _ _ _) as [y |]; cbn [mbind res_bind]; [| done].
    apply (decided s key _ (quarantined_row zoneinfo key z y)); [done | done | apply quarantined_sane | done].
  - unfold annotate_wave. destruct (_hex i _) as [key |]; cbn [mbind res_bind]; [| done].
    destruct (normalize_wave w) as [d |] eqn:Ew; cbn [mbind res_bind]; [| done].
    destruct (_integer n _ _ _) as [y |]; cbn [mbind res_bind]; [| done].
    apply (decided s key _ (wave_row zoneinfo key d y)); [done | done | | done].
    apply wave_sane. by eapply normalize_wave_good.
  - by apply recover_extends.
Qed.

Lemma run_all_extends ops s :
  occ_ok s -> Forall good_occ_op ops -> occ_ok (foldl run_occ s ops) /\ occ_extends s (foldl run_occ s ops).
Proof.
  intros Hok Hops. revert s Hok. induction Hops as [| o ops Ho _ IH]; intros s Hok; cbn [foldl].
  - split; [done | by apply occ_extends_refl].
  - destruct (run_occ_extends s o Hok Ho) as [Hok1 He1]. destruct (IH _ Hok1) as [Hok2 He2]. split; [done |].
    by eapply occ_extends_trans.
Qed.
End spec.

(** ** Properties *)

(** C30: an occurrence is evidence: whatever operations follow (claims, transitions,
    annotations, recovery after a restart, failing calls included), it is never
    removed, every field but the state, the annotations and the time of update keeps
    its value, the state moves along the declared transitions and never to [missed],
    a terminal state never changes, an opened wave gate stays open and the time of
    update does not go back. *)
Theorem occurrence_history (zoneinfo : string -> res unit) {T : Type} `{RO : RowStore T (_validate_occurrence zoneinfo)}
    (s : T) (ops : list occ_op) (k : string) (v : pyval) :
  rs_ok (V:=_validate_occurrence zoneinfo) s -> Forall good_occ_op ops ->
  rs_view (V:=_validate_occurrence zoneinfo) s k = Some v ->
  exists v' a b, rs_view (V:=_validate_occurrence zoneinfo) (foldl (run_occ zoneinfo) s ops) k = Some v' /\
    (forall f, f ∉ ["state"; "annotations"; "updated_at"] -> fld v' f = fld v f) /\
    fld v "state" = VStr a /\ fld v' "state" = VStr b /\ rtc occ_edge a b /\
    (dget_or OCCURRENCE_TRANSITIONS a [] = [] -> b = a) /\
    (gate_open v -> gate_open v') /\ int_of (fld v "updated_at") <= int_of (fld v' "updated_at").
Proof.
  intros Hok Hops Hv. destruct (run_all_extends zoneinfo ops s Hok Hops) as [_ He].
  destruct (He k v Hv) as (v' & Hv' & [Hf (a & b & Ha & Hb & Hr) Hg Ht]). exists v', a, b.
  do 5 (split; [done |]). split; [| done]. intros Hnil.
  destruct Hr as [| a x b [Hin _] _]; [done |]. rewrite Hnil in Hin. by apply not_elem_of_nil in Hin.
Qed.

(** ** Witness *)

#[local] Abbreviation claim_op := (OccCreate weekly_row (VDict weekly_slot) weekly_snapshot weekly_at).
Definition one_occurrence : kstate := run_occ any_zone empty_store claim_op.
Definition weekly_occurrence : string := "f60567ed19bc1645c805aed721c4165a".

Lemma claim_op_good : good_occ_op claim_op.
Proof.
  assert (H1 : good (VDict weekly_row)).
  { unfold weekly_row. destruct weekly_created as [[row |] s] eqn:E; [| apply good_empty].
    vm_compute in E. injection E as <- _. cbn [fst]. good_literal. }
  assert (H2 : good (VDict weekly_slot)).
  { destruct weekly_slot eqn:E; vm_compute in E; [discriminate E |]. injection E as <- <-. good_literal. }
  split; [exact H1 |]. split; [exact H2 | apply weekly_snapshot_good].
Qed.

Lemma one_occurrence_ok : rs_ok (V:=_validate_occurrence any_zone) one_occurrence.
Proof. exact (proj1 (run_occ_extends any_zone empty_store claim_op (empty_store_ok _) claim_op_good)). Qed.

Lemma occurrence_history_witness :
  exists v v', rs_view (V:=_validate_occurrence any_zone) one_occurrence weekly_occurrence = Some v /\
    rs_view (V:=_validate_occurrence any_zone) (foldl (run_occ any_zone) one_occurrence
      [OccTransition (VStr weekly_occurrence) (VStr "running") weekly_at VNone; OccRecover weekly_at;
       OccTransition (VStr weekly_occurrence) (VStr "missed") weekly_at VNone]) weekly_occurrence = Some v' /\
    fld v "state" = VStr "pending" /\ fld v' "state" = VStr "interrupted" /\ fld v' "target_snapshot" = fld v "target_snapshot".
Proof.
  destruct (rs_view (V:=_validate_occurrence any_zone) one_occurrence weekly_occurrence) as [v |] eqn:E;
    [| vm_compute in E; discriminate E].
  destruct (occurrence_history any_zone one_occurrence
    [OccTransition (VStr weekly_occurrence) (VStr "running") weekly_at VNone; OccRecover weekly_at;
     OccTransition (VStr weekly_occurrence) (VStr "missed") weekly_at VNone] weekly_occurrence v)
    as (v' & a & b & Hv' & Hf & _).
  - exact one_occurrence_ok.
  - repeat (apply Forall_cons; split; [exact I |]). apply Forall_nil_2.
  - exact E.
  - exists v, v'. split; [reflexivity |]. split; [exact Hv' |].
    split; [vm_compute in E; injection E as <-; reflexivity |].
    split; [vm_compute in Hv'; injection Hv' as <-; reflexivity |]. apply Hf. by_eval.
Defined.
