(* ===== verification/SchedClaim.v ===== *)
(** * Claiming a slot: one frozen occurrence, whatever is retried *)
From S2P Require Import Prelude PyVal JsonDump Sha256 PolicyDoc KeyedState KeyedSpec.
From S2P Require Import SchedDoc SchedValid SchedTime SchedTimeSpec SchedStore SchedOps SchedSpec OccSpec.

Lemma integer_ok z f a b : a <= z <= b -> _integer (VInt z) f a b = Ok z.
Proof. intros H. unfold _integer. by rewrite (proj2 (Z.leb_le _ _) (proj1 H)), (proj2 (Z.leb_le _ _) (proj2 H)). Qed.

Lemma hex_ok k f : _HEX_RE k = true -> _hex (VStr k) f = Ok k.
Proof. intros H. unfold _hex, matching. by rewrite H. Qed.

Lemma identifier_ok k f : _ID_RE k = true -> _identifier (VStr k) f = Ok k.
Proof. intros H. unfold _identifier, matching. by rewrite H. Qed.

Section claim.
Context (zoneinfo : string -> res unit) (zone_of : string -> zone).
Context {T : Type} `{RR : RowStore T (row_valid zoneinfo)} `{RP : RowStore T _progress_valid}
  `{RO : RowStore T (_validate_occurrence zoneinfo)}.

#[local] Abbreviation occ_ok := (rs_ok (V:=_validate_occurrence zoneinfo)).
#[local] Abbreviation occ_view := (rs_view (V:=_validate_occurrence zoneinfo)).
#[local] Abbreviation prog_ok := (rs_ok (V:=_progress_valid)).
#[local] Abbreviation prog_view := (rs_view (V:=_progress_valid)).
#[local] Abbreviation rows_ok := (rs_ok (V:=row_valid zoneinfo)).
#[local] Abbreviation rows_view := (rs_view (V:=row_valid zoneinfo)).

(** ** The cursor *)

(** The cursor of a schedule has reached an instant, for its generation. *)
Definition cursor_covers (p : T) (k generation : string) (at_ : Z) : Prop :=
  exists row, prog_view p k = Some row /\ fld row "generation" = VStr generation /\ at_ <= int_of (fld row "last_slot").

Lemma progress_storable k g z o :
  _ID_RE k = true -> _HEX_RE g = true -> 0 <= z <= MAX_EPOCH -> _HEX_RE o = true ->
  let row := VDict [("generation", VStr g); ("last_slot", VInt z); ("active_occurrence_id", VStr o)] in
  _progress_valid k row = Ok tt /\ storable _progress_valid k row.
Proof.
  intros Hk Hg Hz Ho row.
  assert (Hv : forall d, (d = [("generation", VStr g); ("last_slot", VInt z); ("active_occurrence_id", VStr o)] \/
    d = [("active_occurrence_id", VStr o); ("generation", VStr g); ("last_slot", VInt z)]) -> _progress_valid k (VDict d) = Ok tt).
  { intros d Hd. unfold _progress_valid. rewrite (identifier_ok _ _ Hk). cbn [mbind res_bind].
    assert (_object (VDict d) ["generation"; "last_slot"; "active_occurrence_id"] "schedule progress"
      ["generation"; "last_slot"; "active_occurrence_id"] = Ok d /\ dget_or d "generation" VNone = VStr g /\
      dget_or d "last_slot" VNone = VInt z /\ dget_or d "active_occurrence_id" VNone = VStr o) as (-> & H1 & H2 & H3).
    { destruct Hd as [-> | ->]; done. }
    cbn [mbind res_bind]. rewrite H1, H2, H3, (hex_ok _ _ Hg), (hex_ok _ _ Ho), (integer_ok _ _ _ _ Hz). done. }
  split; [apply Hv; by left |]. split; [done |].
  assert (Hgood : good row) by (unfold row; good_tac). split; [apply Hgood |]. split; [apply Hgood |].
  apply Hv. by right.
Qed.

Lemma cursor_advance_spec p k row g z o :
  prog_ok p -> _ID_RE k = true -> dget_or row "generation" VNone = VStr g -> _HEX_RE g = true -> 0 <= z <= MAX_EPOCH ->
  _HEX_RE o = true -> exists p', advance_progress k row (VInt z) (VStr o) p = (Ok tt, p') /\ prog_ok p' /\
    cursor_covers p' k g z /\ (forall x, x <> k -> prog_view p' x = prog_view p x) /\
    forall at_, cursor_covers p k g at_ -> cursor_covers p' k g at_.
Proof.
  intros Hok Hk Hg Hgx Hz Ho. unfold advance_progress. destruct (rs_get_spec p k Hok) as (p1 & Hget & Hok1 & Hv1).
  rewrite (sbind_ok _ _ _ _ _ Hget). cbn beta. rewrite Hg. set (due := match prog_view p k with Some _ => _ | None => _ end).
  destruct (progress_storable k g z o Hk Hgx Hz Ho) as [Hval Hst].
  destruct due eqn:Ed.
  - unfold sbind at 1, lift at 1. rewrite Hval.
    destruct (rs_update_spec unit p1 tt tt k (fun _ => sret (UPut (VDict [("generation", VStr g); ("last_slot", VInt z);
      ("active_occurrence_id", VStr o)]))) _ Hok1 eq_refl) as (p2 & Hu & Hok2 & Hv2).
    { intros new [= <-]. exact Hst. }
    rewrite Hu. exists p2. split; [done |]. split; [done |].
    assert (Hnew : prog_view p2 k = Some (VDict [("active_occurrence_id", VStr o); ("generation", VStr g); ("last_slot", VInt z)])).
    { rewrite Hv2. unfold apply_view. by rewrite String.eqb_refl. }
    split; [eexists; split; [exact Hnew |]; split; [done |]; cbn; lia |]. split.
    + intros x Hx. rewrite Hv2. unfold apply_view. destruct (String.eqb_spec k x); [congruence | apply Hv1].
    + intros at_ (r & Hr & Hrg & Hle). eexists. split; [exact Hnew |]. split; [done |].
      unfold due in Ed. rewrite Hr in Ed. unfold fld in Hrg, Hle. rewrite Hrg in Ed. cbn [py_eq] in Ed. rewrite String.eqb_refl in Ed.
      cbn [negb orb] in Ed. apply Z.leb_le in Ed. change (int_of (VInt z)) with z in Ed. cbn. lia.
  - exists p1. split; [done |]. split; [done |].
    assert (Hsame : forall at_, cursor_covers p k g at_ -> cursor_covers p1 k g at_).
    { intros at_ (r & Hr & Hx). exists r. by rewrite Hv1. }
    split; [| split; [intros x _; apply Hv1 | exact Hsame]]. apply Hsame. unfold due in Ed.
    destruct (prog_view p k) as [r |] eqn:Er; [| done]. exists r. split; [done |]. apply orb_false_iff in Ed as [E1 E2].
    apply negb_false_iff, py_eq_str_r in E1. split; [exact E1 |]. apply Z.leb_gt in E2. unfold fld. change (int_of (VInt z)) with z in E2. lia.
Qed.

(** ** The occurrence *)

Lemma validate_slot_inv v d : _validate_slot v = Ok d ->
  v = VDict d /\ exists z, dget_or d "scheduled_at" VNone = VInt z /\ 0 <= z <= MAX_EPOCH.
Proof.
  intros E. unfold _validate_slot in E. head E as E1. apply object_inv in E1 as [-> _]. head E as E2. apply integer_inv in E2 as [E2 H2].
  head E as E3. head E as E4. head E as E5. head E as E6. head E as E7. injection E as <-. split; [done |]. exists a0. done.
Qed.

Lemma validated_id k v : _validate_occurrence zoneinfo k v = Ok tt -> fld v "id" = VStr k /\ _HEX_RE k = true.
Proof.
  intros E. unfold _validate_occurrence in E. head E as E1. apply object_inv in E1 as [-> _]. head E as E2.
  apply hex_inv in E2 as [E2 H2]. injection E2 as ->. head E as E3. head E as E4.
  apply negb_false_iff, py_eq_str_r in E4. split; [exact E4 | done].
Qed.

Lemma occ_create_spec s schedule slot d target now n oid :
  occ_ok s -> good (VDict schedule) -> good (VDict d) -> good target ->
  validate_schedule zoneinfo (dget_or schedule "id" VNone) (VDict schedule) = Ok tt ->
  _validate_slot slot = Ok d -> _integer now "now" 0 MAX_EPOCH = Ok n ->
  occurrence_id schedule (dget_or d "scheduled_at" VNone) = Ok oid ->
  exists r s', occ_create zoneinfo schedule slot target now s = (r, s') /\ occ_ok s' /\ occ_extends zoneinfo s s' /\
    match r with
    | Err e => forall x, occ_view s' x = occ_view s x
    | Ok o => good (VDict o) /\ _validate_occurrence zoneinfo oid (VDict o) = Ok tt /\ occ_view s' oid = Some (sort_keys (VDict o))
    end.
Proof.
  intros Hok Hsc Hd Ht Hv Hs Hn Ho. unfold occ_create. rewrite Hv, Hs, Hn. cbn [mbind res_bind]. rewrite Ho. cbn [mbind res_bind].
  set (f := fun old => match old with Some row => Ok (UPut row) | None =>
      let* row := claim_row zoneinfo schedule d oid target n in Ok (UPut (VDict row)) end).
  assert (Hnone : forall new, f None = Ok new -> exists d, new = UPut (VDict d) /\ good (VDict d) /\
    _validate_occurrence zoneinfo oid (VDict d) = Ok tt).
  { intros new E. unfold f in E. head E as E1. injection E as <-. exists a. split; [done |].
    exact (claim_row_good _ _ _ _ _ _ _ Hsc Hd Ht E1). }
  destruct (decide_spec zoneinfo s oid (fun old => match old with Some row => sret (UPut row) | None => lift
      (let* row := claim_row zoneinfo schedule d oid target n in Ok (UPut (VDict row))) end) f Hok) as (r & s' & E & Hok' & Hne & Hk & Hr).
  { by intros []. }
  { intros v new Hg Hc Hval E. by eapply keep_sane. }
  { exact Hnone. }
  exists r, s'. split; [exact E |]. split; [done |]. split; [by apply (decide_extends zoneinfo s oid) |].
  destruct r as [o | e]; [| apply Hr]. destruct Hr as [Hf Hview]. split; [| split; [| exact Hview]]; unfold f in Hf;
    (destruct (occ_view s oid) as [v |] eqn:Ev;
      [destruct (stored_occurrence zoneinfo s oid v Hok Ev) as (dv & st & u & -> & Hg & _ & Hval & _); congruence
      | destruct (Hnone _ Hf) as (d' & Hd' & ? & ?); congruence]).
Qed.

Lemma occ_get_spec s oid :
  occ_ok s -> _HEX_RE oid = true -> exists s', occ_get zoneinfo (VStr oid) s = (Ok (occ_view s oid), s') /\ occ_ok s' /\
    forall x, occ_view s' x = occ_view s x.
Proof.
  intros Hok Hx. unfold occ_get. unfold sbind at 1, lift. rewrite (hex_ok _ _ Hx). by apply rs_get_spec.
Qed.

Lemma on_fst_run {A B X} (m : sm A X) (a : A) (b : B) r a' : m a = (r, a') -> on_fst m (a, b) = (r, (a', b)).
Proof. intros E. unfold on_fst, zoom. cbn [fst snd]. by rewrite E. Qed.
Lemma on_snd_run {A B X} (m : sm B X) (a : A) (b : B) r b' : m b = (r, b') -> on_snd m (a, b) = (r, (a, b')).
Proof. intros E. unfold on_snd, zoom. cbn [fst snd]. by rewrite E. Qed.

(** A claim that goes on from a known occurrence. *)
Lemma claim_resume occ prog k row slot target n g z oid v :
  occ_ok occ -> prog_ok prog -> _ID_RE k = true -> dget_or row "generation" VNone = VStr g -> _HEX_RE g = true ->
  dget_or slot "scheduled_at" VNone = VInt z -> 0 <= z <= MAX_EPOCH ->
  occurrence_id row (VInt z) = Ok oid -> occ_view occ oid = Some v ->
  exists occ' prog', claim_steps zoneinfo zone_of k row slot target n (occ, prog) = (Ok (dict_or_empty v), (occ', prog')) /\
    occ_ok occ' /\ prog_ok prog' /\ (forall x, occ_view occ' x = occ_view occ x) /\ cursor_covers prog' k g z.
Proof.
  intros Hok Hp Hk Hg Hgx Hz Hzb Ho Hv. destruct (stored_occurrence zoneinfo occ oid v Hok Hv) as (d & st & u & -> & Hgd & _ & Hval & _).
  destruct (validated_id _ _ Hval) as [Hid Hx]. unfold claim_steps. rewrite Hz. unfold sbind at 1, lift at 1. rewrite Ho.
  destruct (occ_get_spec occ oid Hok Hx) as (occ1 & Hget & Hok1 & Hv1).
  rewrite (sbind_ok _ _ _ _ _ (on_fst_run _ _ prog _ _ Hget)), Hv. rewrite (sbind_ok _ _ (occ1, prog) d (occ1, prog)) by done.
  destruct (cursor_advance_spec prog k row g z oid Hp Hk Hg Hgx Hzb Hx) as (p' & Ha & Hp' & Hc & _).
  assert (Hdid : dget_or d "id" VNone = VStr oid) by exact Hid. rewrite Hdid.
  rewrite (sbind_ok _ _ _ _ _ (on_snd_run _ occ1 _ _ _ Ha)). exists occ1, p'. done.
Qed.

Lemma schedule_key k d : validate_schedule zoneinfo (VStr k) (VDict d) = Ok tt ->
  dget_or d "id" VNone = VStr k /\ exists g, dget_or d "generation" VNone = VStr g /\ _HEX_RE g = true.
Proof.
  intros E. unfold validate_schedule in E. head E as F1. apply object_inv in F1 as [F1 _]. injection F1 as <-. head E as F2. head E as F3.
  head E as F4. apply identifier_inv in F2 as [F2 _]. injection F2 as ->. apply negb_false_iff, py_eq_str_r in F3.
  apply hex_inv in F4. split; [done |]. by eexists.
Qed.

(** What a claim leaves behind. *)
Definition claim_outcome (k : string) (row : dict) (g : string) (z : Z) (occ prog : T) (r : res dict * (T * T)) : Prop :=
  let '(o, (occ', prog')) := r in
  occ_ok occ' /\ prog_ok prog' /\ occ_extends zoneinfo occ occ' /\
  match o with
  | Err e => (forall x, occ_view occ' x = occ_view occ x) /\ forall x, prog_view prog' x = prog_view prog x
  | Ok o => cursor_covers prog' k g z /\ exists oid, occurrence_id row (VInt z) = Ok oid /\ occ_view occ' oid = Some (sort_keys (VDict o))
  end.

Lemma occ_same_extends s s' : occ_ok s -> (forall x, occ_view s' x = occ_view s x) -> occ_extends zoneinfo s s'.
Proof. intros Hok Hv x w Hw. rewrite Hv. by apply occ_extends_refl. Qed.

Section steps.
Context (k : string) (row slot : dict) (target : pyval) (n : Z) (g : string) (z : Z).
Context (Hk : _ID_RE k = true) (Hgr : good (VDict row)) (Hgs : good (VDict slot)) (Hgt : good target)
  (Hrow : validate_schedule zoneinfo (VStr k) (VDict row) = Ok tt)
  (Hg : dget_or row "generation" VNone = VStr g) (Hgx : _HEX_RE g = true)
  (Hs : _validate_slot (VDict slot) = Ok slot) (Hz : dget_or slot "scheduled_at" VNone = VInt z)
  (Hzb : 0 <= z <= MAX_EPOCH) (Hnb : 0 <= n <= MAX_EPOCH).

(** The first claim of a slot. *)
Lemma claim_fresh occ prog oid :
  occ_ok occ -> prog_ok prog -> occurrence_id row (VInt z) = Ok oid -> _HEX_RE oid = true -> occ_view occ oid = None ->
  claim_outcome k row g z occ prog (claim_steps zoneinfo zone_of k row slot target n (occ, prog)).
Proof.
  intros Hok Hp Ho Hx Ev. unfold claim_steps. rewrite Hz. unfold sbind at 1, lift at 1. rewrite Ho.
  destruct (occ_get_spec occ oid Hok Hx) as (occ1 & Hget & Hok1 & Hv1).
  rewrite (sbind_ok _ _ _ _ _ (on_fst_run _ _ prog _ _ Hget)), Ev.
  pose proof (occ_same_extends occ occ1 Hok Hv1) as Hext1.
  destruct (slot_current zoneinfo zone_of row slot) as [[] | e] eqn:Esc.
  2: { rewrite (sbind_err _ _ _ e (occ1, prog)) by done. done. }
  destruct (occ_create_spec occ1 row (VDict slot) slot target (VInt n) n oid Hok1 Hgr Hgs Hgt) as (r & occ2 & Ec & Hok2 & Hext2 & Hr);
    [by rewrite (proj1 (schedule_key _ _ Hrow)) | exact Hs | by apply integer_ok | by rewrite Hz |].
  assert (Hext : occ_extends zoneinfo occ occ2) by (by eapply occ_extends_trans).
  destruct r as [o | e].
  - rewrite (sbind_ok _ _ (occ1, prog) o (occ2, prog)).
    2: { rewrite (sbind_ok _ _ (occ1, prog) tt (occ1, prog)) by done. by apply on_fst_run. }
    destruct Hr as (Hgo & Hval & Hvo). destruct (validated_id _ _ Hval) as [Hid _].
    assert (Hdid : dget_or o "id" VNone = VStr oid) by exact Hid. rewrite Hdid.
    destruct (cursor_advance_spec prog k row g z oid Hp Hk Hg Hgx Hzb Hx) as (p' & Ha & Hp' & Hc & _).
    rewrite (sbind_ok _ _ _ _ _ (on_snd_run _ occ2 _ _ _ Ha)). do 4 (split; [done |]). by exists oid.
  - rewrite (sbind_err _ _ (occ1, prog) e (occ2, prog)).
    2: { rewrite (sbind_ok _ _ (occ1, prog) tt (occ1, prog)) by done. by apply on_fst_run. }
    do 3 (split; [done |]). split; [| done]. intros x. by rewrite Hr, Hv1.
Qed.

Lemma claim_steps_spec occ prog :
  occ_ok occ -> prog_ok prog -> claim_outcome k row g z occ prog (claim_steps zoneinfo zone_of k row slot target n (occ, prog)).
Proof.
  intros Hok Hp. destruct (occurrence_id row (VInt z)) as [oid | e] eqn:Ho.
  2: { unfold claim_steps. rewrite Hz. unfold sbind at 1, lift at 1. rewrite Ho. do 2 (split; [done |]).
       split; [by apply occ_extends_refl | done]. }
  destruct (_hex (VStr oid) "occurrence id") as [key |] eqn:Ehex.
  2: { unfold claim_steps. rewrite Hz. unfold sbind at 1, lift at 1. rewrite Ho. rewrite (sbind_err _ _ _ e (occ, prog)).
       - do 2 (split; [done |]). split; [by apply occ_extends_refl | done].
       - unfold on_fst, zoom, occ_get. cbn [fst snd]. by rewrite (sbind_err _ _ _ e occ) by (unfold lift; by rewrite Ehex). }
  apply hex_inv in Ehex as [[= <-] Hx]. destruct (occ_view occ oid) as [v |] eqn:Ev; [| by eapply claim_fresh].
  destruct (claim_resume occ prog k row slot target n g z oid v Hok Hp Hk Hg Hgx Hz Hzb Ho Ev) as (occ' & prog' & E & Hok' & Hp' & Hv' & Hc).
  rewrite E. do 2 (split; [done |]). split; [by apply occ_same_extends |]. split; [done |]. exists oid. split; [done |]. rewrite Hv', Ev.
  destruct (stored_occurrence zoneinfo occ oid v Hok Ev) as (d & st & u & -> & _ & Hcan & _). by rewrite dict_or_empty_dict, Hcan.
Qed.
End steps.

(** ** The whole call *)

Lemma claim_check_inv k exp gen slot now old row d n :
  claim_check k exp gen slot now old = Ok (row, d, n) ->
  exists v z, old = Some v /\ row = dict_or_empty v /\ slot = VDict d /\ _validate_slot slot = Ok d /\ now = VInt n /\ 0 <= n <= MAX_EPOCH /\
    dget_or d "scheduled_at" VNone = VInt z /\ 0 <= z <= n /\
    forall n2, 0 <= n2 <= MAX_EPOCH -> z <= n2 -> claim_check k exp gen slot (VInt n2) old = Ok (row, d, n2).
Proof.
  intros E. unfold claim_check in *. head E as E1. cbn [mbind res_bind]. head E as E2. head E as E3. head E as E4. head E as E5. head E as E6.
  injection E as <- <- <-. apply compare_inv in E1 as (v & -> & -> & _). apply integer_inv in E4 as [-> Hn].
  destruct (validate_slot_inv _ _ E5) as (-> & z & Hz & Hzb). rewrite Hz in *. change (int_of (VInt z)) with z in *.
  apply Z.ltb_ge in E6. exists v, z. do 8 (split; [done || lia |]). intros n2 Hn2 Hle.
  rewrite (integer_ok _ _ _ _ Hn2). cbn [mbind res_bind]. rewrite Hz. change (int_of (VInt z)) with z. rewrite (proj2 (Z.ltb_ge _ _) Hle). done.
Qed.

Lemma claim_run s k exp gen slot target now e g :
  rows_ok (s_rows s) -> _ID_RE k = true -> _integer exp "expected_rev" 1 MAX_INTEGER = Ok e -> _hex gen "expected_generation" = Ok g ->
  exists t, rows_ok t /\ (forall x, rows_view t x = rows_view (s_rows s) x) /\
    claim_occurrence zoneinfo zone_of (VStr k) exp gen slot target now s =
      match claim_check k exp gen slot now (rows_view (s_rows s) k) with
      | Err e => (Err e, Sched t (s_progress s) (s_retired s) (s_occ s))
      | Ok (row, d, n) =>
          let '(r, (occ, prog)) := claim_steps zoneinfo zone_of k row d target n (s_occ s, s_progress s) in
          (r, Sched t prog (s_retired s) occ)
      end.
Proof.
  intros Hok Hk He Hg. unfold claim_occurrence. rewrite (identifier_ok _ _ Hk), He, Hg. cbn [mbind res_bind].
  set (fn := fun old => sbind _ _).
  assert (Hfn : exists r w, fn (rows_view (s_rows s) k) (s_occ s, s_progress s, None) = (r, w) /\ match claim_check k exp gen slot now (rows_view (s_rows s) k) with
      | Err e => r = Err e /\ w = (s_occ s, s_progress s, None)
      | Ok (row, d, n) => let '(o, (occ, prog)) := claim_steps zoneinfo zone_of k row d target n (s_occ s, s_progress s) in
          match o with Ok o => r = Ok UKeep /\ w = (occ, prog, Some o) | Err e => r = Err e /\ w = (occ, prog, None) end
      end).
  { unfold fn, sbind at 1, lift. destruct (claim_check _ _ _ _ _ _) as [[[row d] n] | e']; [| by eexists _, _].
    destruct (claim_steps _ _ _ _ _ _ _ _) as [[o | e'] [occ prog]]; by eexists _, _. }
  destruct Hfn as (r & w & Hfn & Hm).
  destruct (rs_update_spec _ (s_rows s) _ w k fn r Hok Hfn) as (t & Hu & Ht & Hv).
  { intros new ->. destruct (claim_check _ _ _ _ _ _) as [[[row d] n] | e']; [| by destruct Hm].
    destruct (claim_steps _ _ _ _ _ _ _ _) as [[o | e'] [occ prog]]; destruct Hm as [[= ->] _]. done. }
  exists t. split; [done |].
  destruct (claim_check k exp gen slot now (rows_view (s_rows s) k)) as [[[row d] n] | e'] eqn:Ec.
  - destruct (claim_steps _ _ _ _ _ _ _ _) as [[o | e'] [occ prog]]; destruct Hm as [-> ->]; rewrite Hu; (split; [| done]); [| exact Hv].
    intros x. rewrite Hv. unfold apply_view. by destruct (String.eqb k x).
  - destruct Hm as [-> ->]. rewrite Hu. split; [exact Hv | done].
Qed.

(** What is known after a claim that returned. *)
Lemma claim_inv s s1 k slot o expected_rev generation target now z :
  rows_ok (s_rows s) -> occ_ok (s_occ s) -> prog_ok (s_progress s) -> good (VDict slot) -> good target ->
  dget slot "scheduled_at" = Some (VInt z) ->
  claim_occurrence zoneinfo zone_of (VStr k) expected_rev generation (VDict slot) target now s = (Ok o, s1) ->
  exists e g row oid, _ID_RE k = true /\ _integer expected_rev "expected_rev" 1 MAX_INTEGER = Ok e /\
    _hex generation "expected_generation" = Ok g /\ generation = VStr g /\ dget_or row "generation" VNone = VStr g /\ _HEX_RE g = true /\
    (forall n2, 0 <= n2 <= MAX_EPOCH -> z <= n2 ->
      claim_check k expected_rev generation (VDict slot) (VInt n2) (rows_view (s_rows s) k) = Ok (row, slot, n2)) /\
    rows_ok (s_rows s1) /\ (forall x, rows_view (s_rows s1) x = rows_view (s_rows s) x) /\
    occ_ok (s_occ s1) /\ prog_ok (s_progress s1) /\ occurrence_id row (VInt z) = Ok oid /\
    occ_view (s_occ s1) oid = Some (sort_keys (VDict o)) /\ 0 <= z <= MAX_EPOCH.
Proof.
  intros Hr Ho Hp Hgs Hgt Hz E.
  destruct (_identifier (VStr k) "id") as [k0 |] eqn:Ek; [| unfold claim_occurrence in E; rewrite Ek in E; discriminate E].
  apply identifier_inv in Ek as Hk. destruct Hk as [[= <-] Hk].
  destruct (_integer expected_rev "expected_rev" 1 MAX_INTEGER) as [e |] eqn:Ee; [| unfold claim_occurrence in E; rewrite Ek, Ee in E; discriminate E].
  destruct (_hex generation "expected_generation") as [g |] eqn:Eg; [| unfold claim_occurrence in E; rewrite Ek, Ee, Eg in E; discriminate E].
  clear Ek. destruct (claim_run s k expected_rev generation (VDict slot) target now e g Hr Hk Ee Eg) as (t & Ht & Htv & Erun).
  rewrite Erun in E. clear Erun. destruct (claim_check _ _ _ _ _ _) as [[[row d] n] |] eqn:Ec; [| discriminate E].
  pose proof Ec as Ec'. apply claim_check_inv in Ec' as (v & z0 & Hold & -> & [= <-] & Hsl & -> & Hn & Hz0 & Hzn & Hre).
  assert (Hzd : dget_or slot "scheduled_at" VNone = VInt z) by (unfold dget_or; by rewrite Hz). rewrite Hzd in Hz0. injection Hz0 as <-.
  destruct (stored_row zoneinfo _ _ _ Hr Hold) as (dr & -> & Hgr & Hval). rewrite dict_or_empty_dict in *.
  destruct (schedule_key _ _ Hval) as (_ & gg & Hgg & Hggx).
  assert (Hgen : generation = VStr g) by (by apply hex_inv in Eg as [-> _]).
  assert (gg = g) as ->.
  { unfold claim_check in Ec. head Ec as F1. head Ec as F2. rewrite Hold in F1. apply compare_inv in F1 as (v & [= <-] & -> & _).
    rewrite dict_or_empty_dict, Hgg, Hgen in F2. apply negb_false_iff in F2. cbn in F2. by apply String.eqb_eq in F2. }
  pose proof (claim_steps_spec k dr slot target n g z Hk Hgr Hgs Hgt Hval Hgg Hggx Hsl Hzd ltac:(lia) Hn
    (s_occ s) (s_progress s) Ho Hp) as Hout.
  destruct (claim_steps _ _ _ _ _ _ _ _) as [r [occ1 prog1]] eqn:Es. destruct r as [o' |]; [| discriminate E].
  injection E as <- <-. destruct Hout as (Hocc1 & Hprog1 & _ & _ & oid & Hoid & Hview).
  exists e, g, dr, oid. do 13 (split; [done |]). lia.
Qed.
End claim.

(** ** Properties *)

(** C26: a claim survives retries and crashes.  After a claim that returned, and also
    when the process died between its two durable writes so that the cursor is still
    the old one, claiming the slot again, with any other target snapshot and at any
    later moment of the window or after it, returns the very occurrence that was
    frozen first; no occurrence and no schedule changes, and the cursor has reached
    the slot. *)
Theorem claim_replay (zoneinfo : string -> res unit) (zone_of : string -> zone) {T : Type}
    `{RR : RowStore T (row_valid zoneinfo)} `{RP : RowStore T _progress_valid} `{RO : RowStore T (_validate_occurrence zoneinfo)}
    (s s1 : sched (T:=T)) (k : string) (slot o : dict) (expected_rev generation target now : pyval) (z : Z)
    (prog : T) (target2 : pyval) (now2 : Z) :
  rs_ok (V:=row_valid zoneinfo) (s_rows s) -> rs_ok (V:=_validate_occurrence zoneinfo) (s_occ s) ->
  rs_ok (V:=_progress_valid) (s_progress s) -> good (VDict slot) -> good target -> dget slot "scheduled_at" = Some (VInt z) ->
  claim_occurrence zoneinfo zone_of (VStr k) expected_rev generation (VDict slot) target now s = (Ok o, s1) ->
  prog = s_progress s \/ prog = s_progress s1 -> z <= now2 <= MAX_EPOCH ->
  exists o2 s2 g, claim_occurrence zoneinfo zone_of (VStr k) expected_rev generation (VDict slot) target2 (VInt now2)
      (Sched (s_rows s1) prog (s_retired s1) (s_occ s1)) = (Ok o2, s2) /\
    VDict o2 = sort_keys (VDict o) /\ generation = VStr g /\
    (forall x, rs_view (V:=_validate_occurrence zoneinfo) (s_occ s2) x = rs_view (V:=_validate_occurrence zoneinfo) (s_occ s1) x) /\
    (forall x, rs_view (V:=row_valid zoneinfo) (s_rows s2) x = rs_view (V:=row_valid zoneinfo) (s_rows s) x) /\
    cursor_covers (s_progress s2) k g z.
Proof.
  intros Hr Ho Hp Hgs Hgt Hz E Hprog Hn2.
  destruct (claim_inv zoneinfo zone_of s s1 k slot o expected_rev generation target now z Hr Ho Hp Hgs Hgt Hz E) as
    (e & g & dr & oid & Hk & Ee & Eg & Hgen & Hgg & Hggx & Hre & Hrows1 & Hrv & Hocc1 & Hprog1 & Hoid & Hview & Hzb).
  assert (Hzd : dget_or slot "scheduled_at" VNone = VInt z) by (unfold dget_or; by rewrite Hz).
  assert (Hpok : rs_ok (V:=_progress_valid) prog) by (destruct Hprog as [-> | ->]; done).
  set (sc := Sched (s_rows s1) prog (s_retired s1) (s_occ s1)).
  destruct (claim_run zoneinfo zone_of sc k expected_rev generation (VDict slot) target2 (VInt now2) e g Hrows1 Hk Ee Eg) as (t2 & Ht2 & Ht2v & Erun2).
  rewrite Erun2. clear Erun2. unfold sc. cbn [s_rows s_progress s_retired s_occ]. rewrite Hrv, Hre by lia.
  destruct (claim_resume zoneinfo zone_of (s_occ s1) prog k dr slot target2 now2 g z oid _ Hocc1 Hpok Hk Hgg Hggx Hzd Hzb Hoid Hview)
    as (occ2 & prog2 & E2 & _ & _ & Hv2 & Hc2).
  rewrite E2. eexists _, _, g. split; [done |]. split; [by destruct (stored_occurrence zoneinfo _ _ _ Hocc1 Hview) as (? & ? & ? & -> & _) |].
  split; [done |]. split; [done |]. split; [| done]. intros x. rewrite Ht2v. apply Hrv.
Qed.

(** ** Witness *)

(** The process dies after the occurrence is written: the cursor is still missing. *)
Lemma claim_replay_witness :
  exists o s1 o2 s2, weekly_claimed = (Ok o, s1) /\
    claim_occurrence any_zone (fun _ => spring_zone) (VStr "weekly") (VInt 1) (VStr weekly_generation) (VDict weekly_slot) VNone
      (VInt (spring + 9000)) (Sched (s_rows s1) (s_progress (snd weekly_created)) (s_retired s1) (s_occ s1)) = (Ok o2, s2) /\
    VDict o2 = sort_keys (VDict o).
Proof.
  destruct weekly_claimed as [r s1] eqn:E.
  assert (Hr : exists o, r = Ok o).
  { destruct (fst weekly_claimed) as [o |] eqn:Ef; [| vm_compute in Ef; discriminate Ef]. rewrite E in Ef. by exists o. }
  destruct Hr as [o ->]. destruct weekly_slot as [| p w] eqn:Ew; [vm_compute in Ew; discriminate Ew |].
  assert (Hslot : good (VDict weekly_slot)) by exact (proj1 (proj2 claim_op_good)). rewrite <- Ew. clear p w Ew.
  destruct (claim_replay any_zone (fun _ => spring_zone) (snd weekly_created) s1 "weekly" weekly_slot o (VInt 1)
    (VStr weekly_generation) weekly_snapshot weekly_at 1711846800 (s_progress (snd weekly_created)) VNone (spring + 9000))
    as (o2 & s2 & g & E2 & Hs & _).
  - exact (proj1 (proj1 weekly_consistent)).
  - exact (empty_store_ok _).
  - exact (empty_store_ok _).
  - exact Hslot.
  - exact weekly_snapshot_good.
  - vm_compute. reflexivity.
  - exact E.
  - left. reflexivity.
  - unfold spring, MAX_EPOCH. lia.
  - exists o, s1, o2, s2. split; [reflexivity |]. split; [exact E2 | exact Hs].
Defined.
