(* ===== verification/SchedReceipt.v ===== *)
(** * [server/schedules.py]: [ReceiptStore]

    Per-occurrence evidence of what was done to each device: a bounded lineage of
    attempts, each under compare-and-swap, ending in a terminal outcome.  The stores
    of the receipts directory are a map from occurrence ids to row stores. *)
From S2P Require Import Prelude PyVal JsonDump PolicyDoc KeyedState KeyedSpec.
From S2P Require Import SchedDoc SchedTime SchedStore SchedOps.

(** ** Rows *)

Definition _RECEIPT_REQUIRED : list string :=
  ["occurrence_id"; "device_id"; "rev"; "attempt"; "attempt_started_at"; "predecessors"; "status"; "reason"; "created_at";
   "updated_at"; "completed_at"; "notes"].
Definition _RECEIPT_OPTIONAL : list string :=
  ["job_id"; "record_id"; "predecessor_record_id"; "manual_generation"; "fleet_registered_at"; "fleet_registration_id";
   "before_image_ids"; "after_image_ids"; "removed_image_ids"; "wave"].

(** [status in TERMINAL_RECEIPT_STATES] *)
Definition terminal (status : pyval) : bool := in_strs status TERMINAL_RECEIPT_STATES.

(** [if key in row: check(row[key])] *)
Definition if_present {A} (d : dict) (k : string) (check : pyval -> res A) : res unit :=
  match dget d k with Some v => let* _ := check v in Ok tt | None => Ok tt end.

Definition check_reason (msg : string) (v : pyval) : res string := matching _REASON_RE v msg.

(** Identity, revision, status and times. *)
Definition receipt_header (key : string) (d : dict) : res unit :=
  let field k := dget_or d k VNone in
  let* _ := _device_id (VStr key) in
  raise (verr "receipt key mismatch") when negb (py_eq (field "device_id") (VStr key)) ;;;
  let* _ := _hex (field "occurrence_id") "occurrence id" in
  let* _ := _integer (field "rev") "receipt rev" 1 MAX_INTEGER in
  let* _ := _integer (field "attempt") "receipt attempt" 1 MAX_RECEIPT_ATTEMPTS in
  raise (verr "invalid receipt status") when negb (in_strs (field "status") RECEIPT_STATES) ;;;
  let* _ := check_reason "invalid receipt reason" (field "reason") in
  let* created_at := _integer (field "created_at") "receipt created_at" 0 MAX_EPOCH in
  let* updated_at := _integer (field "updated_at") "receipt updated_at" created_at MAX_EPOCH in
  let* started_at := _integer (field "attempt_started_at") "attempt_started_at" created_at updated_at in
  if terminal (field "status") then
    let* _ := _integer (field "completed_at") "completed_at" started_at updated_at in Ok tt
  else
    raise (verr "nonterminal receipt has completion time") when negb (is_none (field "completed_at")) ;;;
    Ok tt.

Definition check_notes (notes : pyval) : res unit :=
  match notes with
  | VList l =>
      raise (verr "invalid receipt notes") when (16 <? zlen l) ;;;
      res_iter (fun note => let* _ := check_reason "invalid receipt note" note in Ok tt) l
  | _ => Err (verr "invalid receipt notes")
  end.

(** The strings of a list, [set(row[key])]. *)
Definition ids_of (d : dict) (k : string) : list string := omap as_str (default [] (as_list (dget_or d k VNone))).
Definition same_set (a b : list string) : bool :=
  forallb (fun x => existsb (String.eqb x) b) a && forallb (fun x => existsb (String.eqb x) a) b.
Definition set_minus (a b : list string) : list string := List.filter (fun x => negb (existsb (String.eqb x) b)) a.

(** Ownership, assignment evidence and the wave gate. *)
Definition receipt_evidence (d : dict) : res unit :=
  res_iter (fun f => if_present d f (fun v => _identifier v f)) ["job_id"; "record_id"; "predecessor_record_id"] ;;;
  if_present d "manual_generation" (fun v => _integer v "manual_generation" 0 MAX_INTEGER) ;;;
  if_present d "fleet_registered_at" (fun v =>
    if is_none v then Ok 0 else _integer v "fleet_registered_at" 0 MAX_EPOCH) ;;;
  if_present d "fleet_registration_id" (fun v => _hex v "fleet_registration_id") ;;;
  res_iter (fun f => if_present d f (fun v => _ids v "image_ids" 10 true)) ["before_image_ids"; "after_image_ids"; "removed_image_ids"] ;;;
  if_present d "wave" check_wave ;;;
  raise (verr "assignment outcomes require a terminal receipt") when
    (dhas d "after_image_ids" || dhas d "removed_image_ids") && negb (terminal (dget_or d "status" VNone)) ;;;
  raise (verr "assignment removal evidence disagrees") when
    dhas d "before_image_ids" && dhas d "after_image_ids" && dhas d "removed_image_ids" &&
    negb (same_set (ids_of d "removed_image_ids") (set_minus (ids_of d "before_image_ids") (ids_of d "after_image_ids"))) ;;;
  Ok tt.

(** Everything but the lineage; the predecessors are a short list. *)
Definition receipt_body (key : string) (row : pyval) : res (dict * list pyval) :=
  let* d := _object row (_RECEIPT_REQUIRED ++ _RECEIPT_OPTIONAL) "receipt" _RECEIPT_REQUIRED in
  receipt_header key d ;;;
  check_notes (dget_or d "notes" VNone) ;;;
  receipt_evidence d ;;;
  match dget_or d "predecessors" VNone with
  | VList l =>
      raise (verr "invalid receipt predecessors") when (MAX_RECEIPT_ATTEMPTS <=? zlen l) ;;;
      Ok (d, l)
  | _ => Err (verr "invalid receipt predecessors")
  end.

(** [_validate_receipt(key, row, history=False)] *)
Definition _validate_attempt (key : string) (row : pyval) : res unit :=
  let* body := receipt_body key row in
  match snd body with [] => Ok tt | _ => Err (verr "nested receipt predecessors") end.

Definition prior_keys (ks : list string) : list string := List.filter (fun k => negb (String.eqb k "predecessors")) ks.

(** One predecessor; the state is [(index, last_rev)]. *)
Definition check_prior (key : string) (row : dict) (st : Z * Z) (prior : pyval) : res (Z * Z) :=
  let '(index, last_rev) := st in
  let* p := _object prior (prior_keys (_RECEIPT_REQUIRED ++ _RECEIPT_OPTIONAL)) "predecessor receipt" (prior_keys _RECEIPT_REQUIRED) in
  _validate_attempt key (VDict (dset p "predecessors" (VList []))) ;;;
  let pf k := dget_or p k VNone in
  let rf k := dget_or row k VNone in
  raise (verr "invalid predecessor provenance") when
    negb (py_eq (pf "attempt") (VInt index)) || negb (py_eq (pf "occurrence_id") (rf "occurrence_id")) ||
    negb (py_eq (pf "created_at") (rf "created_at")) ||
    negb ((last_rev <? int_of (pf "rev")) && (int_of (pf "rev") <? int_of (rf "rev"))) ||
    terminal (pf "status") || (int_of (rf "attempt_started_at") <? int_of (pf "updated_at")) ;;;
  Ok (index + 1, int_of (pf "rev")).

Definition _validate_receipt (key : string) (row : pyval) : res unit :=
  let* body := receipt_body key row in
  let '(d, predecessors) := body in
  raise (verr "receipt attempt lineage disagrees") when
    negb (py_eq (dget_or d "attempt" VNone) (VInt (zlen predecessors + 1))) ;;;
  let* _ := res_fold (check_prior key d) (1, 0) predecessors in
  Ok tt.

(** The check of the store of one occurrence. *)
Definition receipt_valid (identifier key : string) (row : pyval) : res unit :=
  _validate_receipt key row ;;;
  raise (verr "receipt occurrence mismatch") when
    negb (py_eq (dget_or (dict_or_empty row) "occurrence_id" VNone) (VStr identifier)) ;;;
  Ok tt.

(** ** Operations *)

(** The keyword arguments of [record]; [VNone] is an argument left out, and
    [fleet_registered_at] distinguishes [None] from [_UNSET]. *)
Record record_args := RecordArgs {
  a_notes : pyval; a_expected_status : pyval; a_expected_rev : pyval; a_job_id : pyval; a_record_id : pyval;
  a_predecessor_record_id : pyval; a_manual_generation : pyval; a_before_image_ids : pyval; a_after_image_ids : pyval;
  a_removed_image_ids : pyval; a_fleet_registered_at : option pyval; a_fleet_registration_id : pyval; a_wave : pyval }.

Definition supplied (a : record_args) : res dict :=
  let* wave := if is_none (a_wave a) then Ok VNone else let* w := normalize_wave (a_wave a) in Ok (VDict w) in
  let d := List.filter (fun kv => negb (is_none (snd kv)))
    [("job_id", a_job_id a); ("record_id", a_record_id a); ("predecessor_record_id", a_predecessor_record_id a);
     ("manual_generation", a_manual_generation a); ("before_image_ids", a_before_image_ids a);
     ("after_image_ids", a_after_image_ids a); ("removed_image_ids", a_removed_image_ids a);
     ("fleet_registration_id", a_fleet_registration_id a); ("wave", wave)] in
  Ok (match a_fleet_registered_at a with Some v => dset d "fleet_registered_at" v | None => d end).

Definition ownership_fields : list string :=
  ["job_id"; "record_id"; "predecessor_record_id"; "manual_generation"; "fleet_registered_at"; "fleet_registration_id"; "before_image_ids"].

Definition rank (status : string) : Z := if String.eqb status "intent" then 0 else if String.eqb status "submitted" then 1 else 2.

(** [field in old and field in supplied and old[field] != supplied[field]] *)
Definition rebinds (old given : dict) (f : string) : bool :=
  match dget old f, dget given f with Some v, Some w => negb (py_eq v w) | _, _ => false end.

Section mutate.
Context (identifier device_id : string).

(** The fields [record] sets on every row. *)
Definition record_fields (old : option dict) (status reason : pyval) (now : Z) (notes : pyval) : dict :=
  let kept k x := match old with Some d => dget_or d k VNone | None => x end in
  let timestamp := VInt (match old with Some d => Z.max now (int_of (dget_or d "updated_at" VNone)) | None => now end) in
  [("occurrence_id", VStr identifier); ("device_id", VStr device_id); ("status", status);
   ("rev", VInt (match old with Some d => int_of (dget_or d "rev" VNone) + 1 | None => 1 end)); ("attempt", kept "attempt" (VInt 1));
   ("attempt_started_at", kept "attempt_started_at" (VInt now)); ("predecessors", kept "predecessors" (VList []));
   ("reason", reason); ("created_at", kept "created_at" (VInt now)); ("updated_at", timestamp);
   ("completed_at", if terminal status then timestamp else VNone);
   ("notes", if is_none notes then dget_or (default [] old) "notes" (VList []) else notes)].

(** The row [record] writes over [old]. *)
Definition record_new (old : option dict) (status reason : pyval) (now : Z) (notes : pyval) (given : dict) : dict :=
  dupdate (dupdate (default [] old) (record_fields old status reason now notes)) given.

Definition record_row (status reason : pyval) (now : Z) (a : record_args) (given : dict) (old : option pyval) : res upd :=
  let write od :=
    let row := record_new od status reason now (a_notes a) given in
    _validate_receipt device_id (VDict row) ;;;
    Ok (UPut (VDict row)) in
  match old with
  | Some old =>
      let d := dict_or_empty old in
      if terminal (dget_or d "status" VNone) then Ok (UPut old)
      else if py_eq status (VStr "intent") && is_none (a_expected_rev a) then Ok (UPut old)
      else
        raise (conflict "receipt revision is required and must match") when
          is_none (a_expected_rev a) || negb (py_eq (dget_or d "rev" VNone) (a_expected_rev a)) ;;;
        raise (conflict "receipt state changed") when
          negb (is_none (a_expected_status a)) && negb (py_eq (dget_or d "status" VNone) (a_expected_status a)) ;;;
        raise (conflict "receipt attempt ownership is immutable") when existsb (rebinds d given) ownership_fields ;;;
        raise (conflict "invalid receipt transition") when
          negb (terminal status) && (rank (text_of status) <? rank (text_of (dget_or d "status" VNone))) ;;;
        write (Some d)
  | None =>
      raise (conflict "receipt revision changed") when negb (is_none (a_expected_rev a)) ;;;
      raise (conflict "receipt state changed") when negb (is_none (a_expected_status a)) && negb (py_eq VNone (a_expected_status a)) ;;;
      write None
  end.

(** The fields of the next attempt; the old one is kept without its own lineage. *)
Definition successor_fields (d : dict) (now manual_generation : Z) : dict :=
  let timestamp := VInt (Z.max now (int_of (dget_or d "updated_at" VNone))) in
  [("occurrence_id", VStr identifier); ("device_id", VStr device_id); ("rev", VInt (int_of (dget_or d "rev" VNone) + 1));
   ("attempt", VInt (int_of (dget_or d "attempt" VNone) + 1)); ("attempt_started_at", timestamp);
   ("created_at", dget_or d "created_at" VNone); ("updated_at", timestamp); ("status", VStr "intent");
   ("reason", VStr "pending"); ("completed_at", VNone); ("notes", VList []); ("manual_generation", VInt manual_generation);
   ("predecessors", VList (default [] (as_list (dget_or d "predecessors" VNone)) ++ [VDict (dpop d "predecessors")]))].

Definition successor_new (d : dict) (now manual_generation : Z) (predecessor before : pyval) : dict :=
  let row := successor_fields d now manual_generation in
  let row := if is_none predecessor then row else dset row "predecessor_record_id" predecessor in
  let row := match dget d "fleet_registered_at" with Some v => dset row "fleet_registered_at" v | None => row end in
  let row := match dget d "fleet_registration_id" with Some v => dset row "fleet_registration_id" v | None => row end in
  if is_none before then row else dset row "before_image_ids" before.

Definition successor_row (expected_rev now manual_generation : Z) (predecessor_record_id before_image_ids : pyval) (old : option pyval) : res upd :=
  match old with
  | None => Err (conflict "receipt revision changed")
  | Some old =>
      let d := dict_or_empty old in
      raise (conflict "receipt revision changed") when negb (py_eq (dget_or d "rev" VNone) (VInt expected_rev)) ;;;
      raise (conflict "receipt cannot start another attempt") when
        terminal (dget_or d "status" VNone) || (MAX_RECEIPT_ATTEMPTS <=? int_of (dget_or d "attempt" VNone)) ;;;
      let record_id := dget_or d "record_id" VNone in
      let predecessor := if is_none predecessor_record_id then record_id else predecessor_record_id in
      raise (conflict "predecessor record ownership changed") when negb (is_none record_id) && negb (py_eq predecessor record_id) ;;;
      let before := if is_none before_image_ids then dget_or d "before_image_ids" VNone else before_image_ids in
      let row := successor_new d now manual_generation predecessor before in
      _validate_receipt device_id (VDict row) ;;;
      Ok (UPut (VDict row))
  end.
End mutate.

Section store.
Context (zoneinfo : string -> res unit).
Context {T : Type} `{RO : RowStore T (_validate_occurrence zoneinfo)} {RC : forall identifier, RowStore T (receipt_valid identifier)}.

(** The occurrence store and the receipts directory. *)
Record evidence := Evidence { e_occ : T; e_files : string -> T }.

Definition set_file (e : evidence) (identifier : string) (t : T) : evidence :=
  Evidence (e_occ e) (fun i => if String.eqb i identifier then t else e_files e i).

(** A computation on the store of one occurrence. *)
Definition on_file {X} (identifier : string) (m : sm T X) : sm evidence X := fun e =>
  let '(r, t) := m (e_files e identifier) in (r, set_file e identifier t).
Definition on_occ {X} (m : sm T X) : sm evidence X := zoom e_occ (fun t e => Evidence t (e_files e)) m.

Definition _admit (identifier device_id : pyval) : sm evidence unit :=
  let! device := lift (_device_id device_id) in
  let! occurrence := on_occ (occ_get zoneinfo identifier) in
  match occurrence with
  | None => lift (Err (ScheduleNotFound "no such occurrence"))
  | Some o =>
      let d := dict_or_empty o in
      if py_eq (dget_or d "state" VNone) (VStr "missed") || negb (existsb (String.eqb device) (snapshot_ids (dget_or d "target_snapshot" VNone)))
      then lift (Err (conflict "device has no bound occurrence target"))
      else sret tt
  end.

Definition receipt_get (identifier device_id : pyval) : sm evidence (option pyval) :=
  let! key := lift (_hex identifier "occurrence id") in
  let! device := lift (_device_id device_id) in
  on_file key (rs_get (V:=receipt_valid key) device).

(** The row written or kept by an update of the store of one occurrence. *)
Definition receipt_update (identifier device_id : string) (f : option pyval -> res upd) : sm evidence dict :=
  on_file identifier (fun t => put_row (rs_update (V:=receipt_valid identifier) device_id (fun old => lift (f old)) (t, tt))).

Definition record (identifier device_id status reason now : pyval) (a : record_args) : sm evidence dict :=
  let! _ := _admit identifier device_id in
  let! n := lift (_integer now "now" 0 MAX_EPOCH) in
  throw (verr "invalid receipt status") when negb (in_strs status RECEIPT_STATES) ;;!
  throw (verr "receipt notes must be a list") when
    negb (is_none (a_notes a)) && match a_notes a with VList _ => false | _ => true end ;;!
  let! _ := lift (if is_none (a_expected_rev a) then Ok 1 else _integer (a_expected_rev a) "expected receipt rev" 1 MAX_INTEGER) in
  let! given := lift (supplied a) in
  let! key := lift (_hex identifier "occurrence id") in
  let! device := lift (_device_id device_id) in
  receipt_update key device (record_row key device status reason n a given).

Definition no_args : record_args :=
  RecordArgs VNone VNone VNone VNone VNone VNone VNone VNone VNone VNone None VNone VNone.

Definition begin (identifier device_id now manual_generation before_image_ids predecessor_record_id : pyval) : sm evidence dict :=
  record identifier device_id (VStr "intent") (VStr "pending") now
    (RecordArgs VNone VNone VNone VNone VNone predecessor_record_id manual_generation before_image_ids VNone VNone None VNone VNone).

Definition successor_attempt (identifier device_id expected_rev now manual_generation predecessor_record_id before_image_ids : pyval)
    : sm evidence dict :=
  let! _ := _admit identifier device_id in
  let! rev := lift (_integer expected_rev "expected receipt rev" 1 MAX_INTEGER) in
  let! n := lift (_integer now "now" 0 MAX_EPOCH) in
  let! manual := lift (_integer manual_generation "manual_generation" 0 MAX_INTEGER) in
  let! key := lift (_hex identifier "occurrence id") in
  let! device := lift (_device_id device_id) in
  receipt_update key device (successor_row key device rev n manual predecessor_record_id before_image_ids).

(** ** Projections *)

Definition device_le (a b : pyval) : bool :=
  str_leb (text_of (dget_or (dict_or_empty a) "device_id" VNone)) (text_of (dget_or (dict_or_empty b) "device_id" VNone)).

(** A page: its rows, the total, the offset and whether something was left out. *)
Record page := Page { p_rows : list pyval; p_total : Z; p_offset : Z; p_truncated : bool }.

Definition receipt_list (identifier limit offset : pyval) : sm evidence page :=
  let! limit := lift (_integer limit "receipt limit" 1 MAX_RECEIPT_PAGE) in
  let! offset := lift (_integer offset "receipt offset" 0 MAX_INTEGER) in
  let! key := lift (_hex identifier "occurrence id") in
  let! rows := on_file key (rs_snapshot (V:=receipt_valid key)) in
  let rows := sort_by device_le (map snd rows) in
  sret (Page (slice rows offset (offset + limit)) (zlen rows) offset ((0 <? offset) || (offset + limit <? zlen rows))).

Definition completed_device_ids (identifier : pyval) : sm evidence (list string) :=
  let! key := lift (_hex identifier "occurrence id") in
  let! rows := on_file key (rs_snapshot (V:=receipt_valid key)) in
  sret (map fst (List.filter (fun kv => terminal (dget_or (dict_or_empty (snd kv)) "status" VNone)) rows)).

(** [dict(receipt, schedule_id=..., ...)] *)
Definition projected (schedule_id : pyval) (occurrence receipt : pyval) : pyval :=
  let of_occ k := dget_or (dict_or_empty occurrence) k VNone in
  VDict (dupdate (dict_or_empty receipt)
    [("schedule_id", schedule_id); ("scheduled_at", of_occ "scheduled_at"); ("window_end", of_occ "window_end");
     ("schedule_rev", of_occ "schedule_rev"); ("occurrence_state", of_occ "state")]).

(** One occurrence of the loop; the accumulator is [(total, selected)]. *)
Definition receipts_step (schedule_id : pyval) (limit offset : Z) (acc : Z * list pyval) (occurrence : pyval) : sm evidence (Z * list pyval) :=
  let '(total, selected) := acc in
  let identifier := dget_or (dict_or_empty occurrence) "id" VNone in
  let! first := receipt_list identifier (VInt 1) (VInt 0) in
  let occurrence_total := p_total first in
  let start := total in
  let total := total + occurrence_total in
  if (occurrence_total =? 0) || (offset + limit <=? start) || (total <=? offset) then sret (total, selected)
  else
    let local_offset := Z.max 0 (offset - start) in
    let local_limit := Z.min (limit - zlen selected) (occurrence_total - local_offset) in
    let! pg := receipt_list identifier (VInt local_limit) (VInt local_offset) in
    sret (total, selected ++ map (projected schedule_id occurrence) (p_rows pg)).

Definition list_schedule_receipts (schedule_id limit offset : pyval) : sm evidence page :=
  let! _ := lift (_identifier schedule_id "schedule id") in
  let! limit := lift (_integer limit "receipt limit" 1 MAX_RECEIPT_PAGE) in
  let! offset := lift (_integer offset "receipt offset" 0 MAX_INTEGER) in
  let! occurrences := on_occ (occ_list zoneinfo (Some schedule_id)) in
  let! acc := sfold (receipts_step schedule_id limit offset) (0, []) occurrences in
  let '(total, selected) := acc in
  sret (Page selected total offset ((0 <? offset) || (offset + zlen selected <? total))).
End store.
