(* ===== verification/ReceiptSpec.v ===== *)
(** * Receipts: attempts, ownership and final outcomes

    A stored receipt changes only by steps of one transition relation, and only for
    devices the occurrence was bound to, through any run of operations on the
    receipts and on the occurrences. *)
From S2P Require Import Prelude PyVal JsonDump PolicyDoc KeyedState KeyedSpec SchedDoc SchedValid SchedTime SchedTimeSpec SchedStore SchedOps SchedSpec OccSpec SchedClaim SchedReceipt.

(** ** Receipt rows: persistence

    The checks on a receipt and on its lineage hold for the row as read back. *)

Lemma if_present_jeq {A} (check : pyval -> res A) d e k :
  jeq_dicts d e -> wf_val (VDict d) -> wf_val (VDict e) ->
  (forall v w a, jeq v w -> wf_val v -> wf_val w -> check v = Ok a -> exists b, check w = Ok b) ->
  if_present d k check = Ok tt -> if_present e k check = Ok tt.
Proof.
  intros He Hd Hw Hc E. unfold if_present in *. destruct (dget d k) as [v |] eqn:Ev; [| by rewrite (jeq_get_None _ _ _ He Ev)].
  destruct (jeq_get_Some _ _ _ _ He Ev) as (w & Ew & Hj). rewrite Ew. head E as E1.
  destruct (Hc v w _ Hj (wf_dget _ _ _ Hd Ev) (wf_dget _ _ _ Hw Ew) E1) as [b ->]. done.
Qed.

Lemma ids_of_jeq d e k : jeq_dicts d e -> ids_of e k = ids_of d k.
Proof.
  intros He. unfold ids_of. pose proof (jeq_get_or d e k VNone He) as H.
  destruct (dget_or d k VNone) as [| | | | | l |]; try (by inversion H; subst).
  apply jeq_list_inv in H as (l' & -> & HF). cbn. induction HF as [| x y l l' Hxy _ IH]; [done |]. cbn.
  by inversion Hxy; subst; cbn; rewrite IH.
Qed.

Definition receipt_scalar_fields : list string :=
  ["device_id"; "occurrence_id"; "rev"; "attempt"; "status"; "reason"; "created_at"; "updated_at"; "attempt_started_at"; "completed_at"].

(** The facts a header check establishes. *)
Record header_facts (key : string) (d : dict) (oid : string) (rev attempt created updated started : Z) (status : string) : Prop := {
  hf_device : dget_or d "device_id" VNone = VStr key;
  hf_key : _device_id (VStr key) = Ok key;
  hf_oid : dget_or d "occurrence_id" VNone = VStr oid;
  hf_hex : _HEX_RE oid = true;
  hf_rev : dget_or d "rev" VNone = VInt rev;
  hf_rev_bound : 1 <= rev <= MAX_INTEGER;
  hf_attempt : dget_or d "attempt" VNone = VInt attempt;
  hf_attempt_bound : 1 <= attempt <= MAX_RECEIPT_ATTEMPTS;
  hf_status : dget_or d "status" VNone = VStr status;
  hf_known : status ∈ RECEIPT_STATES;
  hf_created : dget_or d "created_at" VNone = VInt created;
  hf_updated : dget_or d "updated_at" VNone = VInt updated;
  hf_started : dget_or d "attempt_started_at" VNone = VInt started;
  hf_order : 0 <= created <= started /\ started <= updated <= MAX_EPOCH;
  hf_atoms : Forall (fun k => atom (dget_or d k VNone) = true) receipt_scalar_fields }.

Lemma device_id_inv v s : _device_id v = Ok s -> v = VStr s.
Proof. unfold _device_id. intros E. head E as E1. head E as E2. injection E as <-. by apply identifier_inv in E1 as [-> _]. Qed.

Lemma header_inv key d : receipt_header key d = Ok tt ->
  exists oid rev attempt created updated started status, header_facts key d oid rev attempt created updated started status.
Proof.
  intros E. unfold receipt_header in E. head E as E1. head E as E2. head E as E3. head E as E4. head E as E5. head E as E6. head E as E7.
  head E as E8. head E as E9. head E as E10. pose proof E1 as E1'. apply device_id_inv in E1' as [= <-].
  apply negb_false_iff, py_eq_str_r in E2. apply hex_inv in E3 as [E3 H3]. apply integer_inv in E4 as [E4 H4], E5 as [E5 H5].
  apply negb_false_iff, in_strs_spec in E6 as (st & E6 & H6). apply integer_inv in E8 as [E8 H8], E9 as [E9 H9], E10 as [E10 H10].
  assert (Hre : atom (dget_or d "reason" VNone) = true).
  { unfold check_reason, matching in E7. by destruct (dget_or d "reason" VNone). }
  assert (Hco : atom (dget_or d "completed_at" VNone) = true).
  { destruct (terminal (dget_or d "status" VNone)).
    - head E as E11. apply integer_inv in E11 as [-> _]. done.
    - head E as E11. apply negb_false_iff in E11. by destruct (dget_or d "completed_at" VNone). }
  eexists _, _, _, _, _, _, _. split; try eassumption; [lia |].
  unfold receipt_scalar_fields. rewrite !Forall_cons, E2, E3, E4, E5, E6, E8, E9, E10, Hre, Hco. repeat split. constructor.
Qed.

Lemma header_fields_jeq key d e k :
  jeq_dicts d e -> receipt_header key d = Ok tt -> k ∈ receipt_scalar_fields -> dget_or e k VNone = dget_or d k VNone.
Proof.
  intros He E Hk. apply header_inv in E as (? & ? & ? & ? & ? & ? & ? & [? ? ? ? ? ? ? ? ? ? ? ? ? ? Hat]).
  rewrite Forall_forall in Hat. by apply jeq_field_atom, Hat.
Qed.

Lemma header_jeq key d e : jeq_dicts d e -> receipt_header key d = Ok tt -> receipt_header key e = Ok tt.
Proof.
  intros He E. pose proof (header_fields_jeq key d e) as Hf. specialize (fun k => Hf k He E). unfold receipt_header.
  rewrite !Hf by (unfold receipt_scalar_fields; set_solver). exact E.
Qed.

Lemma notes_jeq v w : jeq v w -> check_notes v = Ok tt -> check_notes w = Ok tt.
Proof.
  intros H E. destruct v as [| | | | | l |]; try discriminate E. pose proof (jeq_list_inv _ _ H) as (k & -> & HF). cbn in *. head E as E1.
  rewrite (jeq_zlen_list _ _ H) in E1. rewrite E1. clear E1 H. induction HF as [| x y l k Hxy _ IH]; [done |]. cbn in *.
  head E as E2. head E2 as E3. unfold check_reason in *. rewrite (jeq_matching _ _ _ _ _ Hxy E3). cbn [mbind res_bind]. by apply IH.
Qed.

Lemma evidence_jeq key d e :
  jeq_dicts d e -> wf_val (VDict d) -> wf_val (VDict e) -> receipt_header key d = Ok tt -> receipt_evidence d = Ok tt -> receipt_evidence e = Ok tt.
Proof.
  intros He Hd Hw Hh E. pose proof (header_fields_jeq key d e "status" He Hh ltac:(unfold receipt_scalar_fields; set_solver)) as Hst.
  unfold receipt_evidence in *. cbn [res_iter] in *.
  assert (Hid : forall f k, if_present d k (fun v => _identifier v f) = Ok tt -> if_present e k (fun v => _identifier v f) = Ok tt).
  { intros f k. apply if_present_jeq; [done | done | done |]. intros v w a Hj _ _ Ha. exists a. by eapply jeq_identifier. }
  assert (Hids : forall k, if_present d k (fun v => _ids v "image_ids" 10 true) = Ok tt -> if_present e k (fun v => _ids v "image_ids" 10 true) = Ok tt).
  { intros k. apply if_present_jeq; [done | done | done |]. intros v w a Hj _ _ Ha. exists a. by eapply jeq_ids. }
  head E as E1. head E1 as F1. head E1 as F2. head E1 as F3. units. rewrite (Hid _ _ F1), (Hid _ _ F2), (Hid _ _ F3). cbn [mbind res_bind].
  head E as E2. units. rewrite (if_present_jeq (fun v => _integer v "manual_generation" 0 MAX_INTEGER) d e "manual_generation" He Hd Hw);
    [| intros v w a Hj _ _ Ha; exists a; by eapply jeq_integer | exact E2].
  cbn [mbind res_bind]. head E as E3. units.
  rewrite (if_present_jeq (fun v => if is_none v then Ok 0 else _integer v "fleet_registered_at" 0 MAX_EPOCH) d e "fleet_registered_at" He Hd Hw);
    [| intros v w a Hj _ _ Ha; exists a; rewrite (jeq_is_none _ _ Hj); destruct (is_none v); [done | by eapply jeq_integer] | exact E3].
  cbn [mbind res_bind]. head E as E4. units.
  rewrite (if_present_jeq (fun v => _hex v "fleet_registration_id") d e "fleet_registration_id" He Hd Hw);
    [| intros v w a Hj _ _ Ha; exists a; by eapply jeq_hex | exact E4].
  cbn [mbind res_bind]. head E as E5. head E5 as G1. head E5 as G2. head E5 as G3. units. rewrite (Hids _ G1), (Hids _ G2), (Hids _ G3).
  cbn [mbind res_bind]. head E as E6. units.
  rewrite (if_present_jeq check_wave d e "wave" He Hd Hw); [| intros v w [] Hj ? ? Ha; exists tt; by eapply check_wave_jeq | exact E6].
  cbn [mbind res_bind]. rewrite <- !(jeq_has _ _ _ He), Hst, !(ids_of_jeq _ _ _ He). exact E.
Qed.

Lemma body_inv key v d l : receipt_body key v = Ok (d, l) ->
  v = VDict d /\ receipt_header key d = Ok tt /\ receipt_evidence d = Ok tt /\ dget_or d "predecessors" VNone = VList l /\ zlen l < MAX_RECEIPT_ATTEMPTS.
Proof.
  intros E. unfold receipt_body in E. head E as E1. apply object_inv in E1 as [-> _]. head E as E2. head E as E3. head E as E4. units.
  destruct (dget_or a "predecessors" VNone) as [| | | | | ps |] eqn:Ep; try discriminate E. head E as E5. injection E as <- <-.
  apply Z.leb_gt in E5. done.
Qed.

Lemma body_jeq key v w d l :
  jeq v w -> wf_val v -> wf_val w -> receipt_body key v = Ok (d, l) ->
  exists e k, w = VDict e /\ receipt_body key w = Ok (e, k) /\ jeq_dicts d e /\ Forall2 jeq l k.
Proof.
  intros H Hv Hw E. unfold receipt_body in *. head E as E1.
  destruct (jeq_object _ _ _ _ _ _ H E1) as (-> & e & -> & -> & He). cbn [mbind res_bind] in *.
  head E as E2. head E as E3. head E as E4. units. rewrite (header_jeq _ _ _ He E2). cbn [mbind res_bind].
  rewrite (notes_jeq _ _ (jeq_get_or _ _ "notes" VNone He) E3). cbn [mbind res_bind].
  rewrite (evidence_jeq key _ _ He Hv Hw E2 E4). cbn [mbind res_bind]. pose proof (jeq_get_or _ _ "predecessors" VNone He) as Hp.
  destruct (dget_or a "predecessors" VNone) as [| | | | | ps |] eqn:Ep; try discriminate E. head E as E5. injection E as <- <-.
  pose proof (jeq_list_inv _ _ Hp) as (ps' & Ep' & HF). rewrite Ep' in *. rewrite <- (jeq_zlen_list _ _ Hp), E5. by exists e, ps'.
Qed.

Lemma attempt_jeq key v w : jeq v w -> wf_val v -> wf_val w -> _validate_attempt key v = Ok tt -> _validate_attempt key w = Ok tt.
Proof.
  intros H Hv Hw E. unfold _validate_attempt in *. destruct (receipt_body key v) as [[d l] |] eqn:Eb; [| discriminate E].
  cbn [mbind res_bind snd] in E. destruct l; [| discriminate E].
  destruct (body_jeq _ _ _ _ _ H Hv Hw Eb) as (e & k & -> & -> & _ & HF). by inversion HF.
Qed.

(** What an accepted predecessor satisfies. *)
Lemma prior_inv key row i last prior i' last' :
  check_prior key row (i, last) prior = Ok (i', last') -> exists p, prior = VDict p /\ i' = i + 1 /\
    receipt_header key p = Ok tt /\ last' = int_of (dget_or p "rev" VNone) /\ last < last' < int_of (dget_or row "rev" VNone) /\
    terminal (dget_or p "status" VNone) = false.
Proof.
  intros E. unfold check_prior in E. head E as E1. apply object_inv in E1 as [-> _]. head E as E2. head E as E3. injection E as <- <-.
  exists a. split; [done |]. split; [done |]. unfold _validate_attempt in E2. destruct (receipt_body _ _) as [[d l] |] eqn:Eb; [| discriminate E2].
  apply body_inv in Eb as ([= <-] & Hh & _ & _ & _). bool_norm. split; [| split; [done |]; split; [lia | done]].
  revert Hh. unfold receipt_header, dget_or. rewrite !dget_dset_ne by discriminate. done.
Qed.

Lemma prior_jeq key d e st p q st' :
  jeq_dicts d e -> receipt_header key d = Ok tt -> jeq p q -> wf_val p -> wf_val q ->
  check_prior key d st p = Ok st' -> check_prior key e st q = Ok st'.
Proof.
  intros He Hh H Hp Hq E. destruct st as [i last], st' as [i' last']. destruct (prior_inv _ _ _ _ _ _ _ E) as (p0 & Hp0 & _ & Hph & _).
  unfold check_prior in *. head E as E1. destruct (jeq_object _ _ _ _ _ _ H E1) as (-> & q0 & -> & -> & Hpq). injection Hp0 as <-.
  cbn [mbind res_bind]. head E as E2. units.
  assert (Hj : jeq_dicts (dset a "predecessors" (VList [])) (dset q0 "predecessors" (VList []))) by (apply jeq_dset; [done | apply jeq_refl]).
  rewrite (attempt_jeq key _ _ Hj); [| by apply wf_dset | by apply wf_dset | exact E2]. cbn [mbind res_bind].
  pose proof (header_fields_jeq key a q0) as Hf. specialize (fun k => Hf k Hpq Hph).
  pose proof (header_fields_jeq key d e) as Hg. specialize (fun k => Hg k He Hh).
  rewrite !Hf, !Hg by (unfold receipt_scalar_fields; set_solver). exact E.
Qed.

Lemma receipt_jeq key v w : jeq v w -> wf_val v -> wf_val w -> _validate_receipt key v = Ok tt -> _validate_receipt key w = Ok tt.
Proof.
  intros H Hv Hw E. unfold _validate_receipt in *. destruct (receipt_body key v) as [[d l] |] eqn:Eb; [| discriminate E]. cbn [mbind res_bind] in E.
  destruct (body_jeq _ _ _ _ _ H Hv Hw Eb) as (e & k & -> & Eb' & He & HF). rewrite Eb'. cbn [mbind res_bind].
  apply body_inv in Eb as (-> & Hh & _ & Hp & _). apply body_inv in Eb' as (_ & _ & _ & Hp' & _).
  rewrite (header_fields_jeq key d e "attempt" He Hh) by (unfold receipt_scalar_fields; set_solver).
  assert (zlen k = zlen l) as -> by (unfold zlen; by rewrite (Forall2_length _ _ _ HF)). head E as E1. head E as E2. clear E E1.
  pose proof (wf_field d "predecessors" Hv) as Hwl. rewrite Hp in Hwl. pose proof (wf_field e "predecessors" Hw) as Hwk. rewrite Hp' in Hwk.
  rewrite wf_list in Hwl, Hwk. clear Hp Hp'.
  assert (res_fold (check_prior key e) (1, 0) k = Ok a) as ->; [| done].
  revert Hwl Hwk E2. generalize (1, 0). revert a. induction HF as [| x y l k Hxy _ IH]; intros a st Hl Hk E; [exact E |].
  apply Forall_cons in Hl as [Hx Hl], Hk as [Hy Hk]. cbn [res_fold] in *. destruct (check_prior key d st x) as [st' |] eqn:Ep; [| discriminate E].
  rewrite (prior_jeq _ _ _ _ _ _ _ He Hh Hxy Hx Hy Ep). cbn [mbind res_bind] in *. by apply IH.
Qed.

Lemma receipt_storable identifier key d :
  good (VDict d) -> receipt_valid identifier key (VDict d) = Ok tt -> storable (receipt_valid identifier) key (VDict d).
Proof.
  intros [Hwf Hfin] E. split; [done |]. split; [done |]. split; [done |]. unfold receipt_valid in *. head E as E1. units.
  pose proof (jeq_sort_keys _ Hwf) as Hj. rewrite (receipt_jeq key _ _ Hj Hwf (wf_sort_keys _ Hwf) E1). cbn [mbind res_bind].
  head E as E2. rewrite dict_or_empty_dict in E2. pose proof (jeq_dict_or_empty _ _ Hj) as Hd. rewrite dict_or_empty_dict in Hd.
  by rewrite (jeq_eq_str _ _ identifier (jeq_get_or _ _ "occurrence_id" VNone Hd)), E2.
Qed.

(** ** The transition relation *)

Definition predecessors (v : pyval) : list pyval := default [] (as_list (fld v "predecessors")).
Definition status_rank (v : pyval) : Z := if terminal (fld v "status") then 3 else rank (text_of (fld v "status")).
Definition bound (v : pyval) (f : string) : option pyval := dget (dict_or_empty v) f.

Inductive receipt_step (v v' : pyval) : Prop :=
  | step_update :
      terminal (fld v "status") = false ->
      (forall f, f ∈ ["occurrence_id"; "device_id"; "created_at"; "attempt"; "attempt_started_at"; "predecessors"] -> fld v' f = fld v f) ->
      (forall f x, f ∈ ownership_fields -> bound v f = Some x -> bound v' f = Some x) ->
      rev_of v' = rev_of v + 1 -> int_of (fld v "updated_at") <= int_of (fld v' "updated_at") ->
      status_rank v <= status_rank v' -> receipt_step v v'
  | step_successor :
      terminal (fld v "status") = false ->
      (forall f, f ∈ ["occurrence_id"; "device_id"; "created_at"] -> fld v' f = fld v f) ->
      int_of (fld v "attempt") < MAX_RECEIPT_ATTEMPTS -> fld v' "attempt" = VInt (int_of (fld v "attempt") + 1) ->
      predecessors v' = predecessors v ++ [sort_keys (VDict (dpop (dict_or_empty v) "predecessors"))] ->
      rev_of v' = rev_of v + 1 -> int_of (fld v "updated_at") <= int_of (fld v' "updated_at") ->
      fld v' "status" = VStr "intent" -> receipt_step v v'.

(** What any number of steps preserves. *)
Record lineage (v v' : pyval) : Prop := {
  ln_identity : forall f, f ∈ ["occurrence_id"; "device_id"; "created_at"] -> fld v' f = fld v f;
  ln_rev : v' = v \/ rev_of v < rev_of v';
  ln_final : terminal (fld v "status") = true -> v' = v;
  ln_time : int_of (fld v "updated_at") <= int_of (fld v' "updated_at");
  ln_attempts : exists more, predecessors v' = predecessors v ++ more /\
    int_of (fld v' "attempt") = int_of (fld v "attempt") + zlen more /\
    (more = [] -> status_rank v <= status_rank v' /\
      forall f x, f ∈ ownership_fields -> bound v f = Some x -> bound v' f = Some x) }.

Lemma lineage_refl v : lineage v v.
Proof. split; [done | by left | done | lia |]. exists []. rewrite app_nil_r. unfold zlen. cbn [length]. split; [done |]. split; [lia |]. split; [lia | done]. Qed.

Lemma step_lineage u v w : receipt_step u v -> lineage v w -> lineage u w.
Proof.
  intros Hs [Li Lr Lf Lt (more & Hm & Ha & Hc)]. destruct Hs as [Ht Hf Ho Hr Hu Hk | Ht Hf Hb Ha' Hp Hr Hu Hk].
  - split; [| | by rewrite Ht | lia |].
    + intros f Hin. rewrite Li by done. apply Hf. set_solver.
    + right. destruct Lr as [-> | ?]; lia.
    + exists more. unfold predecessors in *. rewrite (Hf "predecessors") in Hm by set_solver. rewrite (Hf "attempt") in Ha by set_solver.
      split; [done |]. split; [done |]. intros Hn. destruct (Hc Hn) as [Hk' Ho']. split; [lia |]. intros f x Hin Hx. by apply Ho', Ho.
  - split; [| | by rewrite Ht | lia |].
    + intros f Hin. rewrite Li by done. by apply Hf.
    + right. destruct Lr as [-> | ?]; lia.
    + exists ([sort_keys (VDict (dpop (dict_or_empty u) "predecessors"))] ++ more). rewrite Hm, Hp, <- app_assoc. split; [done |].
      split; [rewrite Ha, Ha'; change (int_of (VInt ?z)) with z; unfold zlen; cbn [length app]; lia | done].
Qed.

Lemma steps_lineage v v' : rtc receipt_step v v' -> lineage v v'.
Proof. induction 1 as [v | u v w Hs _ IH]; [apply lineage_refl | by eapply step_lineage]. Qed.

(** ** Ownership values *)

(** A number, a text, nothing, or a list of texts. *)
Definition plain (v : pyval) : Prop := v = VNone \/ (exists z, v = VInt z) \/ (exists s, v = VStr s) \/ exists ids, v = strs ids.

Lemma plain_eq v w : plain v -> plain w -> py_eq v w = true -> v = w.
Proof.
  intros Hv Hw E. destruct Hv as [-> | [[z ->] | [[s ->] | [a ->]]]], Hw as [-> | [[z' ->] | [[s' ->] | [b ->]]]]; try discriminate E; try done.
  - by rewrite (py_eq_vint _ _ E).
  - cbn in E. apply String.eqb_eq in E. by subst.
  - f_equal. revert b E. induction a as [| x a IH]; intros [| y b] E; try done. cbn in E. apply andb_true_iff in E as [E1 E2].
    apply String.eqb_eq in E1. subst. cbn. f_equal. by apply IH.
Qed.

Lemma plain_sorted v : plain v -> sort_keys v = v.
Proof.
  intros [-> | [[z ->] | [[s ->] | [ids ->]]]]; try done. unfold strs. cbn. f_equal. induction ids as [| x ids IH]; [done |]. cbn. by f_equal.
Qed.

Lemma if_present_inv {A} d k (check : pyval -> res A) x : if_present d k check = Ok tt -> dget d k = Some x -> exists a, check x = Ok a.
Proof. unfold if_present. intros E Hk. rewrite Hk in E. head E as E1. by eexists. Qed.

Lemma owner_plain d f x : receipt_evidence d = Ok tt -> f ∈ ownership_fields -> dget d f = Some x -> plain x.
Proof.
  intros E Hf Hx. unfold receipt_evidence in E. cbn [res_iter] in E. head E as E1. head E1 as F1. head E1 as F2. head E1 as F3. head E as E2.
  head E as E3. head E as E4. head E as E5. head E5 as G1. clear E E5. units.
  assert (Hid : forall k g, if_present d k (fun v => _identifier v g) = Ok tt -> dget d k = Some x -> plain x).
  { intros k g H Hk. destruct (if_present_inv _ _ _ _ H Hk) as [a Ha]. apply identifier_inv in Ha as [-> _]. right. right. left. by eexists. }
  unfold ownership_fields in Hf. repeat (apply elem_of_cons in Hf as [-> | Hf]); [exact (Hid _ _ F1 Hx) | exact (Hid _ _ F2 Hx) | exact (Hid _ _ F3 Hx) | | | | | by apply elem_of_nil in Hf].
  - destruct (if_present_inv _ _ _ _ E2 Hx) as [a Ha]. apply integer_inv in Ha as [-> _]. right. left. by eexists.
  - destruct (if_present_inv _ _ _ _ E3 Hx) as [a Ha]. destruct x; try discriminate Ha; [by left | right; left; by eexists].
  - destruct (if_present_inv _ _ _ _ E4 Hx) as [a Ha]. apply hex_inv in Ha as [-> _]. right. right. left. by eexists.
  - destruct (if_present_inv _ _ _ _ G1 Hx) as [a Ha]. cbn in Ha. rewrite (strs_of_ids _ _ _ _ _ Ha). do 3 right. by eexists.
Qed.

(** ** The rows the operations write *)

Definition given_keys : list string := ownership_fields ++ ["after_image_ids"; "removed_image_ids"; "wave"].

Definition good_args (a : record_args) : Prop :=
  Forall good [a_notes a; a_job_id a; a_record_id a; a_predecessor_record_id a; a_manual_generation a; a_before_image_ids a;
    a_after_image_ids a; a_removed_image_ids a; a_fleet_registration_id a; a_wave a] /\
  match a_fleet_registered_at a with Some v => good v | None => True end.

Lemma good_filter p d : good (VDict d) -> good (VDict (List.filter p d)) /\ forall k, k ∈ dkeys (List.filter p d) -> k ∈ dkeys d.
Proof.
  rewrite !good_dict. intros [Hn HF]. assert (Hsub : List.filter p d `sublist_of` d).
  { clear. induction d as [| x d IH]; cbn; [constructor |]. destruct (p x); [by constructor | by apply sublist_cons]. }
  assert (Hk : dkeys (List.filter p d) `sublist_of` dkeys d).
  { clear -Hsub. induction Hsub; cbn; [constructor | by constructor | by apply sublist_cons]. }
  split; [split |].
  - by eapply sublist_NoDup.
  - rewrite Forall_forall in *. intros x Hx. apply HF. by eapply elem_of_sublist.
  - intros k Hin. by eapply elem_of_sublist.
Qed.

Lemma supplied_inv a g : good_args a -> supplied a = Ok g -> good (VDict g) /\ forall k x, dget g k = Some x -> k ∈ given_keys.
Proof.
  intros [Hg Hf] E. rewrite !Forall_cons in Hg. destruct Hg as (_ & H1 & H2 & H3 & H4 & H5 & H6 & H7 & H8 & H9 & _).
  unfold supplied in E. head E as E1. match type of E with Ok ?x = _ => assert (g = x) as -> by congruence end. clear E.
  assert (Hw : good a0).
  { destruct (is_none (a_wave a)); [by injection E1 as <- |]. head E1 as E2. injection E1 as <-. by eapply normalize_wave_good. }
  match goal with |- context [List.filter ?p ?l] => destruct (good_filter p l) as [Hgd Hk]; [good_tac |] end.
  set (d := List.filter _ _) in *.
  assert (Hsub : forall k, k ∈ dkeys d -> k ∈ given_keys) by (intros k Hin; apply Hk in Hin; cbn in Hin; unfold given_keys, ownership_fields; set_solver).
  assert (Hd : forall k x, dget d k = Some x -> k ∈ given_keys).
  { intros k x Hx. apply Hsub. apply dget_elem in Hx. apply list_elem_of_fmap. by exists (k, x). }
  destruct (a_fleet_registered_at a) as [v |]; [| done]. split; [by apply good_dset |]. intros k x. rewrite dget_dset.
  destruct (String.eqb_spec "fleet_registered_at" k) as [<- | ?]; [intros _; by_eval | apply Hd].
Qed.

Section rows.
Context (identifier device : string).

Lemma record_get od status reason now notes g f :
  good (VDict g) -> dget (record_new identifier device od status reason now notes g) f =
    match dget g f with Some x => Some x | None =>
      match dget (record_fields identifier device od status reason now notes) f with Some x => Some x | None => dget (default [] od) f end end.
Proof.
  intros Hg. unfold record_new. apply good_dict in Hg as [Hn _]. rewrite dget_dupdate by done. rewrite dget_dupdate; [done |].
  unfold dkeys, record_fields. cbn [map fst]. by_eval.
Qed.

Lemma record_fields_good od status reason now notes :
  match od with Some d => good (VDict d) | None => True end -> good status -> good reason -> good notes ->
  good (VDict (record_fields identifier device od status reason now notes)).
Proof.
  intros Hd Hs Hr Hn. assert (Hl : good (VList [])) by done.
  assert (Hod : good (VDict (default [] od))) by (destruct od; [done | apply good_empty]).
  assert (Hk : forall k x, good x -> good (match od with Some d => dget_or d k VNone | None => x end)).
  { intros k x Hx. destruct od; [by apply good_dget_or | done]. }
  unfold record_fields. apply good_dict. split; [unfold dkeys; cbn [map fst]; by_eval |].
  repeat (apply Forall_cons; split; [cbn [snd] | ]); try apply Forall_nil_2; auto with py.
  - by destruct (terminal status).
  - destruct (is_none notes); [by apply good_dget_or | done].
Qed.

Lemma record_new_good od status reason now notes g :
  match od with Some d => good (VDict d) | None => True end -> good status -> good reason -> good notes -> good (VDict g) ->
  good (VDict (record_new identifier device od status reason now notes g)).
Proof.
  intros Hd Hs Hr Hn Hg. unfold record_new. apply good_dupdate; [| done]. apply good_dupdate; [| by apply record_fields_good].
  destruct od; [done | apply good_empty].
Qed.

(** ** Decisions *)

Lemma valid_inv v : receipt_valid identifier device v = Ok tt ->
  exists d l rev attempt created updated started status, v = VDict d /\
    header_facts device d identifier rev attempt created updated started status /\
    receipt_evidence d = Ok tt /\ dget_or d "predecessors" VNone = VList l /\ attempt = zlen l + 1.
Proof.
  intros E. unfold receipt_valid in E. head E as E1. head E as E2. unfold _validate_receipt in E1.
  destruct (receipt_body device v) as [[d l] |] eqn:Eb; [| discriminate E1]. cbn [mbind res_bind] in E1. head E1 as E3.
  apply body_inv in Eb as (-> & Hh & He & Hp & _).
  apply header_inv in Hh as (oid & rev & attempt & created & updated & started & status & Hf).
  rewrite dict_or_empty_dict, (hf_oid _ _ _ _ _ _ _ _ _ Hf) in E2. apply negb_false_iff in E2. cbn in E2. apply String.eqb_eq in E2 as ->.
  rewrite (hf_attempt _ _ _ _ _ _ _ _ _ Hf) in E3. apply negb_false_iff, py_eq_vint in E3.
  exists d, l, rev, attempt, created, updated, started, status. done.
Qed.

(** A row written by [record] or [successor_attempt] is its own occurrence's. *)
Lemma valid_intro d :
  _validate_receipt device (VDict d) = Ok tt -> dget_or d "occurrence_id" VNone = VStr identifier -> receipt_valid identifier device (VDict d) = Ok tt.
Proof.
  intros E H. unfold receipt_valid. rewrite E. cbn [mbind res_bind]. rewrite dict_or_empty_dict, H. cbn [py_eq]. by rewrite String.eqb_refl.
Qed.

Definition row_outcome (old : option pyval) (new : upd) : Prop :=
  exists d, new = UPut (VDict d) /\ good (VDict d) /\ receipt_valid identifier device (VDict d) = Ok tt /\
    forall v, old = Some v -> VDict d = v \/ receipt_step v (sort_keys (VDict d)).

(** A stored row: checked, and in the form it was read. *)
Definition stored_row_ok (old : option pyval) : Prop :=
  forall v, old = Some v -> good v /\ sort_keys v = v /\ receipt_valid identifier device v = Ok tt.

Definition sane_receipt (f : option pyval -> res upd) : Prop :=
  forall old new, stored_row_ok old -> f old = Ok new -> row_outcome old new.

Lemma keep_outcome v : stored_row_ok (Some v) -> row_outcome (Some v) (UPut v).
Proof.
  intros Hst. destruct (Hst v eq_refl) as (Hg & _ & Hval). destruct (valid_inv v Hval) as (d & l & rev & a & c & u & s & st & -> & _).
  exists d. do 3 (split; [done |]). intros w [= <-]. by left.
Qed.

Lemma fld_new_sorted d f : good (VDict d) -> fld (sort_keys (VDict d)) f = sort_keys (dget_or d f VNone).
Proof. intros [Hw _]. by rewrite fld_sorted. Qed.

(** A bound ownership field keeps its value. *)
Lemma owner_kept d d' g f x :
  receipt_evidence d = Ok tt -> receipt_evidence d' = Ok tt -> f ∈ ownership_fields -> dget d f = Some x ->
  existsb (rebinds d g) ownership_fields = false ->
  dget d' f = match dget g f with Some y => Some y | None => Some x end -> dget d' f = Some x.
Proof.
  intros He He' Hf Hx Hreb Hd. rewrite Hd. destruct (dget g f) as [y |] eqn:Ey; [| done]. f_equal. symmetry.
  apply plain_eq; [exact (owner_plain _ _ _ He Hf Hx) | exact (owner_plain _ _ _ He' Hf Hd) |].
  assert (Hr : rebinds d g f = false).
  { apply not_true_iff_false. intros Hr. apply not_true_iff_false in Hreb. apply Hreb. apply existsb_exists. exists f.
    split; [by apply list_elem_of_In | done]. }
  unfold rebinds in Hr. rewrite Hx, Ey in Hr. by apply negb_false_iff in Hr.
Qed.

(** An update within an attempt is a step. *)
Lemma record_step v status reason now notes g d' :
  stored_row_ok (Some v) -> good status -> good reason -> good notes -> good (VDict g) ->
  (forall k x, dget g k = Some x -> k ∈ given_keys) -> in_strs status RECEIPT_STATES = true ->
  terminal (fld v "status") = false -> existsb (rebinds (dict_or_empty v) g) ownership_fields = false ->
  negb (terminal status) && (rank (text_of status) <? rank (text_of (fld v "status"))) = false ->
  d' = record_new identifier device (Some (dict_or_empty v)) status reason now notes g ->
  _validate_receipt device (VDict d') = Ok tt -> receipt_step v (sort_keys (VDict d')).
Proof.
  intros Hst Hgs Hgr Hgn Hg Hgk Hin Hter Hreb Hrank Hd' Hval.
  destruct (Hst v eq_refl) as (Hgv & Hc & Hv). destruct (valid_inv v Hv) as (d & l & rev & a & c & u & s & st & -> & Hf & He & Hp & _).
  destruct Hf as [H1 _ H3 _ H5 _ H7 _ H9 _ H11 H12 H13 _ _]. rewrite dict_or_empty_dict in *.
  assert (Hgd : good (VDict d')) by (subst d'; by apply record_new_good).
  assert (Hbase : forall f, f ∉ given_keys -> dget d' f = match dget (record_fields identifier device (Some d) status reason now notes) f with
    Some x => Some x | None => dget d f end).
  { intros f Hf. subst d'. rewrite record_get by done. destruct (dget g f) as [x |] eqn:Ex; [| done]. by apply Hgk in Ex. }
  assert (Hstat : fld (sort_keys (VDict d')) "status" = status).
  { rewrite fld_new_sorted by done. unfold dget_or. rewrite Hbase by (by_eval). cbn. apply in_strs_spec in Hin as (t & -> & _). done. }
  apply step_update; [done | | | | |].
  - intros f Hff. rewrite fld_new_sorted by done. rewrite <- (fld_canonical (VDict d) f) by (done || apply Hgv). f_equal.
    rewrite fld_dict. unfold dget_or at 1.
    repeat (apply elem_of_cons in Hff as [-> | Hff]); [rewrite Hbase by by_eval .. | by apply elem_of_nil in Hff];
      [symmetry; exact H3 | symmetry; exact H1 | done ..].
  - intros f x Hff Hx. unfold bound in *. rewrite dict_or_empty_dict in Hx. apply good_dict in Hgd as [Hnd _].
    rewrite dget_sort_keys by done.
    assert (He' : receipt_evidence d' = Ok tt).
    { unfold _validate_receipt in Hval. destruct (receipt_body device (VDict d')) as [[e l'] |] eqn:Eb; [| discriminate Hval].
      apply body_inv in Eb as ([= <-] & _ & He' & _). exact He'. }
    rewrite (owner_kept d d' g f x He He' Hff Hx Hreb); [cbn; f_equal; apply plain_sorted; exact (owner_plain _ _ _ He Hff Hx) |].
    subst d'. rewrite record_get by done. destruct (dget g f) as [y |]; [done |].
    unfold ownership_fields in Hff. repeat (apply elem_of_cons in Hff as [-> | Hff]); [exact Hx .. | by apply elem_of_nil in Hff].
  - rewrite rev_of_sorted by done. unfold rev_of. rewrite !dict_or_empty_dict. unfold dget_or at 1. by rewrite Hbase by by_eval.
  - rewrite fld_new_sorted by done. unfold dget_or at 1. rewrite Hbase by by_eval. rewrite fld_dict.
    change (int_of (sort_keys _)) with (Z.max now (int_of (dget_or d "updated_at" VNone))). lia.
  - unfold status_rank. rewrite Hstat, Hter. destruct (terminal status); [unfold rank; by repeat case_match |].
    cbn [negb andb] in Hrank. apply Z.ltb_ge in Hrank. exact Hrank.
Qed.


Lemma record_sane status reason now a g :
  good status -> good reason -> good_args a -> supplied a = Ok g -> in_strs status RECEIPT_STATES = true ->
  sane_receipt (record_row identifier device status reason now a g).
Proof.
  intros Hs Hr Ha Hsup Hin old new Hst E. destruct (supplied_inv a g Ha Hsup) as [Hg Hk].
  assert (Hn : good (a_notes a)) by (destruct Ha as [Ha _]; by apply Forall_cons in Ha as [? _]).
  assert (Hwrite : forall od, match od with Some d => good (VDict d) | None => True end ->
    _validate_receipt device (VDict (record_new identifier device od status reason now (a_notes a) g)) = Ok tt ->
    good (VDict (record_new identifier device od status reason now (a_notes a) g)) /\
    receipt_valid identifier device (VDict (record_new identifier device od status reason now (a_notes a) g)) = Ok tt).
  { intros od Hod Hv. split; [by apply record_new_good |]. apply valid_intro; [done |]. unfold dget_or. rewrite record_get by done.
    destruct (dget g "occurrence_id") as [x |] eqn:Ex; [| done]. apply Hk in Ex.
    assert ("occurrence_id" ∉ given_keys) by by_eval. done. }
  unfold record_row in E. destruct old as [v |].
  - destruct (terminal _) eqn:Et; [injection E as <-; by apply keep_outcome |].
    destruct (py_eq status _ && _); [injection E as <-; by apply keep_outcome |].
    head E as E1. head E as E2. head E as E3. head E as E4. head E as E5. units.
    match type of E with Ok (UPut (VDict ?d)) = _ => exists d end. split; [congruence |].
    destruct (Hst v eq_refl) as (Hgv & _ & _). destruct (Hwrite (Some (dict_or_empty v)) (good_dict_or_empty _ Hgv) E5) as [Hgd Hval].
    do 2 (split; [done |]). intros w [= <-]. right. eapply record_step; [done | exact Hs | exact Hr | exact Hn | exact Hg | done .. | exact E5].
  - head E as E1. head E as E2. head E as E3. units. match type of E with Ok (UPut (VDict ?d)) = _ => exists d end. split; [congruence |].
    destruct (Hwrite None I E3) as [Hgd Hval]. do 2 (split; [done |]). done.
Qed.

(** Fields of the next attempt that the optional evidence does not set. *)
Lemma successor_get d now m p b f :
  f ∉ ["predecessor_record_id"; "fleet_registered_at"; "fleet_registration_id"; "before_image_ids"] ->
  dget (successor_new identifier device d now m p b) f = dget (successor_fields identifier device d now m) f.
Proof.
  intros Hf. rewrite !not_elem_of_cons in Hf. destruct Hf as (H1 & H2 & H3 & H4 & _). unfold successor_new.
  destruct (is_none p), (dget d "fleet_registered_at"), (dget d "fleet_registration_id"), (is_none b);
    repeat rewrite dget_dset_ne by done; done.
Qed.

Lemma good_predecessors d : good (VDict d) -> Forall good (default [] (as_list (dget_or d "predecessors" VNone))).
Proof.
  intros Hd. assert (Hg : good (dget_or d "predecessors" VNone)) by (by apply good_dget_or).
  destruct (dget_or d "predecessors" VNone) as [| | | | | l |]; try apply Forall_nil_2. by apply good_list.
Qed.

Lemma successor_new_good d now m p b : good (VDict d) -> good p -> good b -> good (VDict (successor_new identifier device d now m p b)).
Proof.
  intros Hd Hp Hb. assert (Hf : good (VDict (successor_fields identifier device d now m))).
  { pose proof (good_predecessors d Hd) as Hpr. assert (Hl : good (VList [])) by done.
    assert (good (VDict (dpop d "predecessors"))) by (by apply good_dpop). assert (good (dget_or d "created_at" VNone)) by (by apply good_dget_or).
    unfold successor_fields. apply good_dict. split; [unfold dkeys; cbn [map fst]; by_eval |].
    repeat (apply Forall_cons; split; [cbn [snd] |]); try apply Forall_nil_2; auto with py.
    apply good_list, Forall_app. split; [done | by apply Forall_singleton]. }
  unfold successor_new. destruct (is_none p), (dget d "fleet_registered_at") as [x |] eqn:Ex, (dget d "fleet_registration_id") as [y |] eqn:Ey, (is_none b);
    repeat apply good_dset; try done; first [exact (good_dget _ _ _ Hd Ex) | exact (good_dget _ _ _ Hd Ey)].
Qed.

Lemma successor_sane rev now m p b : good p -> good b -> sane_receipt (successor_row identifier device rev now m p b).
Proof.
  intros Hp Hb old new Hst E. unfold successor_row in E. destruct old as [v |]; [| discriminate E]. head E as E1. head E as E2.
  head E as E3. head E as E4. units. match type of E with Ok (UPut (VDict ?d)) = _ => exists d; set (d' := d) in * end. split; [congruence |].
  destruct (Hst v eq_refl) as (Hgv & Hc & Hv). destruct (valid_inv v Hv) as (d & l & r & a & c & u & s & st & -> & Hf & He & Hpr & Ha).
  destruct Hf as [H1 _ H3 _ H5 _ H7 _ H9 _ H11 H12 H13 _ _]. rewrite dict_or_empty_dict in *.
  assert (Hgd : good (VDict d')).
  { apply successor_new_good; [done | destruct (is_none p) | destruct (is_none b)]; try done; by apply good_dget_or. }
  assert (Hget : forall f, f ∉ ["predecessor_record_id"; "fleet_registered_at"; "fleet_registration_id"; "before_image_ids"] ->
    fld (sort_keys (VDict d')) f = sort_keys (dget_or (successor_fields identifier device d now m) f VNone)).
  { intros f Hff. rewrite fld_new_sorted by done. unfold d', dget_or. by rewrite successor_get. }
  split; [done |]. split; [apply valid_intro; [done |]; unfold d', dget_or; by rewrite successor_get by by_eval |].
  intros w [= <-]. right. apply orb_false_iff in E2 as [E2 E2']. apply Z.leb_gt in E2'. apply step_successor; [exact E2 | | exact E2' | | | | |].
  - intros f Hff. repeat (apply elem_of_cons in Hff as [-> | Hff]); [rewrite Hget by by_eval .. | by apply elem_of_nil in Hff].
    + symmetry. exact H3.
    + symmetry. exact H1.
    + exact (fld_canonical (VDict d) "created_at" (proj1 Hgv) Hc).
  - rewrite Hget by by_eval. done.
  - unfold predecessors. rewrite Hget by by_eval. rewrite dict_or_empty_dict, fld_dict.
    pose proof (fld_canonical (VDict d) "predecessors" (proj1 Hgv) Hc) as Hcp. rewrite fld_dict, Hpr in Hcp.
    change (dget_or (successor_fields identifier device d now m) "predecessors" VNone) with
      (VList (default [] (as_list (dget_or d "predecessors" VNone)) ++ [VDict (dpop d "predecessors")])).
    rewrite Hpr. change (as_list (VList l)) with (Some l). cbn [default from_option id].
    assert (Hl : map sort_keys l = l) by (change (VList (map sort_keys l) = VList l) in Hcp; congruence).
    change (map sort_keys (l ++ [VDict (dpop d "predecessors")]) = l ++ [sort_keys (VDict (dpop d "predecessors"))]).
    by rewrite map_app, Hl.
  - rewrite rev_of_sorted by done. unfold rev_of. rewrite !dict_or_empty_dict. unfold dget_or at 1, d'. by rewrite successor_get by by_eval.
  - rewrite Hget by by_eval. rewrite fld_dict.
    change (int_of (sort_keys _)) with (Z.max now (int_of (dget_or d "updated_at" VNone))). lia.
  - by rewrite Hget by by_eval.
Qed.
End rows.

(** ** Runs *)

Inductive ev_op :=
  | EvRecord (identifier device_id status reason now : pyval) (a : record_args)
  | EvBegin (identifier device_id now manual_generation before_image_ids predecessor_record_id : pyval)
  | EvSuccessor (identifier device_id expected_rev now manual_generation predecessor_record_id before_image_ids : pyval)
  | EvOcc (o : occ_op).

Definition good_ev_op (o : ev_op) : Prop :=
  match o with
  | EvRecord i d s r n a => good r /\ good_args a
  | EvBegin i d n m b p => good m /\ good b /\ good p
  | EvSuccessor i d e n m p b => good p /\ good b
  | EvOcc o => good_occ_op o
  end.

Section runs.
Context (zoneinfo : string -> res unit).
Context {T : Type} `{RO : RowStore T (_validate_occurrence zoneinfo)} {RC : forall identifier, RowStore T (receipt_valid identifier)}.
#[local] Abbreviation occ_ok := (rs_ok (V:=_validate_occurrence zoneinfo)).
#[local] Abbreviation occ_view := (rs_view (V:=_validate_occurrence zoneinfo)).

Definition receipt_at (e : evidence (T:=T)) (i d : string) : option pyval := rs_view (V:=receipt_valid i) (e_files e i) d.
Definition evidence_ok (e : evidence (T:=T)) : Prop := occ_ok (e_occ e) /\ forall i, rs_ok (V:=receipt_valid i) (e_files e i).

(** The occurrence was bound to the device. *)
Definition admitted (e : evidence (T:=T)) (i d : string) : Prop :=
  exists o, occ_view (e_occ e) i = Some o /\ fld o "state" <> VStr "missed" /\ d ∈ snapshot_ids (fld o "target_snapshot").
Definition all_admitted (e : evidence (T:=T)) : Prop := forall i d v, receipt_at e i d = Some v -> admitted e i d.

(** Receipts stay and move by steps; occurrences stay and evolve; new receipts are admitted. *)
Record progresses (e e' : evidence (T:=T)) : Prop := {
  pr_ok : evidence_ok e';
  pr_occ : occ_extends zoneinfo (e_occ e) (e_occ e');
  pr_step : forall i d v, receipt_at e i d = Some v -> exists v', receipt_at e' i d = Some v' /\ rtc receipt_step v v';
  pr_new : forall i d v, receipt_at e' i d = Some v -> (exists w, receipt_at e i d = Some w) \/ admitted e' i d }.

Lemma progresses_refl e : evidence_ok e -> progresses e e.
Proof. intros H. split; [done | apply occ_extends_refl, H | |]; [intros i d v Hv; by exists v | intros i d v Hv; left; by exists v]. Qed.

Lemma admitted_kept e e' i d : occ_extends zoneinfo (e_occ e) (e_occ e') -> admitted e i d -> admitted e' i d.
Proof.
  intros He (o & Ho & Hs & Hd). destruct (He i o Ho) as (o' & Ho' & [Hf (a & b & Ha & Hb & Hr) _ _]). exists o'. split; [done |].
  rewrite (Hf "target_snapshot") by by_eval. split; [| done]. rewrite Hb. rewrite Ha in Hs. clear -Hs Hr.
  induction Hr as [a | a x b [_ Hx] _ IH]; [done |]. apply IH. congruence.
Qed.

Lemma progresses_trans e1 e2 e3 : progresses e1 e2 -> progresses e2 e3 -> progresses e1 e3.
Proof.
  intros [_ O1 S1 N1] [K2 O2 S2 N2]. split; [done | by eapply occ_extends_trans | |].
  - intros i d v Hv. destruct (S1 i d v Hv) as (v1 & Hv1 & R1). destruct (S2 i d v1 Hv1) as (v2 & Hv2 & R2). exists v2. split; [done |]. by etrans.
  - intros i d v Hv. destruct (N2 i d v Hv) as [[w Hw] | ?]; [| by right]. destruct (N1 i d w Hw) as [? | Ha]; [by left |].
    right. by eapply admitted_kept.
Qed.

Lemma stored_receipt e i d : evidence_ok e -> stored_row_ok i d (receipt_at e i d).
Proof.
  intros [_ Hok] v Hv. destruct (rs_row_ok _ _ _ (Hok i) Hv) as [(_ & Hwf & Hfin & Hval) Hc]. rewrite Hc in Hval. done.
Qed.

Lemma update_progress e i d f :
  evidence_ok e -> sane_receipt i d f -> admitted e i d -> progresses e (snd (receipt_update i d f e)).
Proof.
  intros Hok Hs Had. pose proof Hok as [Hocc Hfiles]. unfold receipt_update, on_file.
  set (r := f (receipt_at e i d)). pose proof (stored_receipt e i d Hok) as Hst.
  destruct (rs_update_spec (V:=receipt_valid i) unit (e_files e i) tt tt d (fun old => lift (f old)) r (Hfiles i) eq_refl) as (t & Hu & Ht & Hv).
  { intros new Hnew. destruct (Hs _ new Hst Hnew) as (d' & -> & Hg & Hval & _). by apply receipt_storable. }
  assert (He : exists o, put_row (rs_update (V:=receipt_valid i) d (fun old => lift (f old)) (e_files e i, tt)) = (o, t)).
  { rewrite Hu. destruct r as [[] |]; by eexists. }
  destruct He as [o ->]. cbn [snd]. assert (Hoc : e_occ (set_file e i t) = e_occ e) by done.
  assert (Hat : forall j x, receipt_at (set_file e i t) j x = if String.eqb j i then rs_view (V:=receipt_valid j) t x else receipt_at e j x).
  { intros j x. unfold receipt_at, set_file. cbn [e_files]. by destruct (String.eqb j i). }
  split.
  - split; [done |]. intros j. unfold set_file. cbn [e_files]. destruct (String.eqb_spec j i) as [-> | ?]; [done | apply Hfiles].
  - rewrite Hoc. by apply occ_extends_refl.
  - intros j x v Hjx. rewrite Hat. destruct (String.eqb_spec j i) as [-> | ?]; [| by exists v]. rewrite Hv.
    destruct r as [new |] eqn:Er; [| by exists v]. unfold apply_view. destruct (String.eqb_spec d x) as [<- | ?]; [| by exists v].
    destruct (Hs _ new Hst Er) as (d' & -> & _ & _ & Hstep). exists (sort_keys (VDict d')). split; [done |].
    destruct (Hstep v Hjx) as [-> | H]; [| by apply rtc_once]. destruct (Hst v Hjx) as (_ & -> & _). done.
  - intros j x v. rewrite Hat. destruct (String.eqb_spec j i) as [-> | ?]; [| intros; left; by exists v]. rewrite Hv.
    destruct r as [new |]; [| intros; left; by exists v]. unfold apply_view. destruct (String.eqb_spec d x) as [<- | ?]; [| intros; left; by exists v].
    intros _. right. exact Had.
Qed.

Lemma admit_spec i d e :
  evidence_ok e -> exists r e', _admit zoneinfo i d e = (r, e') /\ progresses e e' /\
    (r = Ok tt -> exists key dev, _hex i "occurrence id" = Ok key /\ _device_id d = Ok dev /\ admitted e' key dev).
Proof.
  intros Hok. pose proof (progresses_refl e Hok) as Hrefl. pose proof Hok as [Hocc Hfiles]. unfold _admit. unfold sbind at 1, lift at 1.
  destruct (_device_id d) as [dev |] eqn:Ed; [| by eexists _, _].
  unfold on_occ, zoom, occ_get. destruct (_hex i "occurrence id") as [key |] eqn:Eh.
  2: { unfold sbind, lift. cbn [fst snd]. eexists _, _. split; [done |]. by destruct e. }
  destruct (rs_get_spec (e_occ e) key Hocc) as (s' & Hget & Hok' & Hv).
  assert (Hp : progresses e (Evidence s' (e_files e))).
  { split; [done | | |].
    - intros k v Hk. cbn [e_occ]. rewrite Hv. by apply occ_extends_refl.
    - intros j x v Hj. by exists v.
    - intros j x v Hj. left. by exists v. }
  unfold sbind, lift. rewrite Hget. destruct (occ_view (e_occ e) key) as [o |] eqn:Eo; [| by eexists _, _].
  destruct (py_eq _ _ || _) eqn:Ec; [by eexists _, _ |]. eexists _, _. split; [done |]. split; [done |]. intros _. exists key, dev.
  do 2 (split; [done |]). exists o. cbn [e_occ]. rewrite Hv. split; [done |]. apply orb_false_iff in Ec as [E1 E2]. split.
  - unfold fld. intros Hm. rewrite Hm in E1. discriminate E1.
  - apply negb_false_iff, existsb_exists in E2 as (x & Hx & ->%String.eqb_eq). by apply list_elem_of_In.
Qed.

(** An operation that is admitted first and then updates one receipt. *)
Lemma admitted_op (k : sm (evidence (T:=T)) dict) i d e :
  evidence_ok e ->
  (forall e' key dev, evidence_ok e' -> _hex i "occurrence id" = Ok key -> _device_id d = Ok dev -> admitted e' key dev -> progresses e' (snd (k e'))) ->
  progresses e (snd (sbind (_admit zoneinfo i d) (fun _ => k) e)).
Proof.
  intros Hok Hk. destruct (admit_spec i d e Hok) as (r & e' & E & Hp & Had). unfold sbind. rewrite E.
  destruct r as [[] |]; [| exact Hp]. destruct (Had eq_refl) as (key & dev & Hkey & Hdev & Ha).
  eapply progresses_trans; [exact Hp |]. exact (Hk e' key dev (pr_ok _ _ Hp) Hkey Hdev Ha).
Qed.

Lemma lift_progress {A} (r : res A) (k : A -> sm (evidence (T:=T)) dict) e :
  evidence_ok e -> (forall a, r = Ok a -> progresses e (snd (k a e))) -> progresses e (snd (sbind (lift r) k e)).
Proof. intros Hok Hk. unfold sbind, lift. destruct r; [by apply Hk | by apply progresses_refl]. Qed.

Lemma record_progress i d s r n a e :
  evidence_ok e -> good r -> good_args a -> progresses e (snd (record zoneinfo i d s r n a e)).
Proof.
  intros Hok Hr Ha. unfold record. apply admitted_op; [done |]. intros e' key dev Hok' Hkey Hdev Had.
  apply lift_progress; [done |]. intros z _. destruct (negb (in_strs s RECEIPT_STATES)) eqn:Es; [by apply progresses_refl |].
  destruct (_ && _); [by apply progresses_refl |]. apply lift_progress; [done |]. intros _ _. apply lift_progress; [done |]. intros g Hg.
  rewrite Hkey, Hdev. apply negb_false_iff in Es. apply update_progress; [done | | done]. apply record_sane; try done.
  apply in_strs_spec in Es as (st & -> & _). done.
Qed.

Lemma successor_progress i d x n m p b e :
  evidence_ok e -> good p -> good b -> progresses e (snd (successor_attempt zoneinfo i d x n m p b e)).
Proof.
  intros Hok Hp Hb. unfold successor_attempt. apply admitted_op; [done |]. intros e' key dev Hok' Hkey Hdev Had.
  do 3 (apply lift_progress; [done |]; intros ? _). rewrite Hkey, Hdev. apply update_progress; [done | by apply successor_sane | done].
Qed.

Definition run_ev (e : evidence (T:=T)) (o : ev_op) : evidence (T:=T) :=
  match o with
  | EvRecord i d s r n a => snd (record zoneinfo i d s r n a e)
  | EvBegin i d n m b p => snd (begin zoneinfo i d n m b p e)
  | EvSuccessor i d x n m p b => snd (successor_attempt zoneinfo i d x n m p b e)
  | EvOcc o => Evidence (run_occ zoneinfo (e_occ e) o) (e_files e)
  end.

Lemma run_ev_progress e o : evidence_ok e -> good_ev_op o -> progresses e (run_ev e o).
Proof.
  intros Hok Hg. destruct o as [i d s r n a | i d n m b p | i d x n m p b | o]; cbn [run_ev good_ev_op] in *.
  - destruct Hg as [Hr Ha]. by apply record_progress.
  - destruct Hg as (Hm & Hb & Hp). apply record_progress; [done | done |]. split; [| done].
    repeat (apply Forall_cons; split; [done |]). apply Forall_nil_2.
  - destruct Hg as [Hp Hb]. by apply successor_progress.
  - destruct Hok as [Hocc Hf]. destruct (run_occ_extends zoneinfo (e_occ e) o Hocc Hg) as [Ho He]. split; [done | done | |].
    + intros i d v Hv. by exists v.
    + intros i d v Hv. left. by exists v.
Qed.

Lemma run_evs_progress ops e : evidence_ok e -> Forall good_ev_op ops -> progresses e (foldl run_ev e ops).
Proof.
  intros Hok Hops. revert e Hok. induction Hops as [| o ops Ho _ IH]; intros e Hok; cbn [foldl]; [by apply progresses_refl |].
  pose proof (run_ev_progress e o Hok Ho) as H1. eapply progresses_trans; [exact H1 |]. apply IH, H1.
Qed.
End runs.

(** ** Properties *)

(** C22: the life of a receipt, through any run of operations on receipts and
    occurrences: it is never lost and moves only by the steps of [receipt_step]; so its
    revision grows whenever it changes, a terminal outcome is final down to the last
    byte, the retained attempts are only ever added to, one per new attempt, and
    within an attempt the status never goes back and a bound ownership field (job,
    record, registration, manual generation, prior images) never changes. *)
Theorem receipt_history (zoneinfo : string -> res unit) {T : Type} `{RO : RowStore T (_validate_occurrence zoneinfo)}
    {RC : forall identifier, RowStore T (receipt_valid identifier)}
    (e : evidence (T:=T)) (ops : list ev_op) (i d : string) (v : pyval) :
  evidence_ok zoneinfo e -> Forall good_ev_op ops -> receipt_at e i d = Some v ->
  exists v', receipt_at (foldl (run_ev zoneinfo) e ops) i d = Some v' /\ rtc receipt_step v v' /\ lineage v v'.
Proof.
  intros Hok Hops Hv. destruct (run_evs_progress zoneinfo ops e Hok Hops) as [_ _ Hs _].
  destruct (Hs i d v Hv) as (v' & Hv' & Hr). exists v'. split; [done |]. split; [done | by apply steps_lineage].
Qed.

(** Receipts exist only for bound targets: if every stored receipt belongs to a
    dispatchable occurrence and to a device of its frozen target, this stays so
    through any run of operations on receipts and occurrences. *)
Theorem receipts_admitted (zoneinfo : string -> res unit) {T : Type} `{RO : RowStore T (_validate_occurrence zoneinfo)}
    {RC : forall identifier, RowStore T (receipt_valid identifier)} (e : evidence (T:=T)) (ops : list ev_op) :
  evidence_ok zoneinfo e -> all_admitted zoneinfo e -> Forall good_ev_op ops ->
  all_admitted zoneinfo (foldl (run_ev zoneinfo) e ops).
Proof.
  intros Hok Ha Hops i d v Hv. destruct (run_evs_progress zoneinfo ops e Hok Hops) as [_ Ho _ Hn].
  destruct (Hn i d v Hv) as [[w Hw] | ?]; [| done]. eapply admitted_kept; [exact Ho | by eapply Ha].
Qed.

(** ** Witnesses *)

Definition no_receipts : evidence (T:=kstate) := Evidence one_occurrence (fun _ => empty_store).

Lemma no_receipts_ok : evidence_ok any_zone no_receipts.
Proof. split; [apply one_occurrence_ok |]. intros i. apply empty_store_ok. Qed.

#[local] Abbreviation begin_op :=
  (EvBegin (VStr weekly_occurrence) (VStr "edge-1") weekly_at (VInt 3) VNone VNone).
#[local] Abbreviation next_op :=
  (EvSuccessor (VStr weekly_occurrence) (VStr "edge-1") (VInt 1) weekly_at (VInt 4) VNone VNone).
#[local] Abbreviation finish_op rev reason :=
  (EvRecord (VStr weekly_occurrence) (VStr "edge-1") (VStr "ok") (VStr reason) weekly_at
    (RecordArgs VNone VNone (VInt rev) VNone VNone VNone VNone VNone VNone VNone None VNone VNone)).

Definition begun : evidence (T:=kstate) := run_ev any_zone no_receipts begin_op.

Lemma begun_ok : evidence_ok any_zone begun.
Proof. exact (pr_ok _ _ _ (run_ev_progress any_zone no_receipts begin_op no_receipts_ok (conj (good_int 3) (conj good_none good_none)))). Qed.

Lemma finish_good rev reason : good_ev_op (finish_op rev reason).
Proof. split; [apply good_str |]. split; [| exact I]. repeat (apply Forall_cons; split; [done |]). apply Forall_nil_2. Qed.

Lemma receipt_history_witness :
  exists v v', receipt_at begun weekly_occurrence "edge-1" = Some v /\
    receipt_at (foldl (run_ev any_zone) begun [next_op; finish_op 2 "staged"; finish_op 3 "again"]) weekly_occurrence "edge-1" = Some v' /\
    fld v' "attempt" = VInt 2 /\ fld v' "status" = VStr "ok" /\ fld v' "reason" = VStr "staged" /\ lineage v v'.
Proof.
  destruct (receipt_at begun weekly_occurrence "edge-1") as [v |] eqn:E; [| vm_compute in E; discriminate E].
  destruct (receipt_history any_zone begun [next_op; finish_op 2 "staged"; finish_op 3 "again"] weekly_occurrence "edge-1" v)
    as (v' & Hv' & _ & Hl).
  - exact begun_ok.
  - apply Forall_cons. split; [exact (conj good_none good_none) |]. apply Forall_cons. split; [apply finish_good |].
    apply Forall_singleton, finish_good.
  - exact E.
  - exists v, v'. split; [reflexivity |]. split; [exact Hv' |]. vm_compute in Hv'. injection Hv' as <-.
    split; [reflexivity |]. split; [reflexivity |]. split; [reflexivity | exact Hl].
Defined.

Lemma receipts_admitted_witness :
  all_admitted any_zone (foldl (run_ev any_zone) no_receipts [begin_op; finish_op 1 "staged"]) /\
  is_Some (receipt_at (foldl (run_ev any_zone) no_receipts [begin_op; finish_op 1 "staged"]) weekly_occurrence "edge-1").
Proof.
  split; [| vm_compute; eauto].
  apply (receipts_admitted any_zone no_receipts [begin_op; finish_op 1 "staged"]).
  - exact no_receipts_ok.
  - intros i d v Hv. discriminate Hv.
  - apply Forall_cons. split; [exact (conj (good_int 3) (conj good_none good_none)) |]. apply Forall_singleton, finish_good.
Defined.
