(* ===== verification/ReceiptPages.v ===== *)
(** * Pages of receipts

    A page over all the occurrences of a schedule is the slice of one list, the
    concatenation of the receipts of the occurrences in order, although it is put
    together from at most two bounded reads per occurrence. *)
From S2P Require Import Prelude PyVal JsonDump PolicyDoc KeyedState KeyedSpec.
From S2P Require Import SchedDoc SchedValid SchedTime SchedTimeSpec SchedStore SchedOps SchedSpec OccSpec SchedClaim.
From S2P Require Import SchedReceipt ReceiptSpec.

(** ** Slices *)

Lemma slice_take {A} (l : list A) i j : 0 <= i -> slice l i j = take (Z.to_nat (j - i)) (drop (Z.to_nat i) l).
Proof.
  intros Hi. unfold slice, zlen. destruct (Z.le_gt_cases i (Z.of_nat (length l))) as [H | H].
  - rewrite (Z.min_l i) by lia. destruct (Z.le_gt_cases j (Z.of_nat (length l))); [by rewrite Z.min_l by lia |].
    rewrite Z.min_r by lia. rewrite !take_ge; [done | rewrite length_drop; lia ..].
  - rewrite (Z.min_r i) by lia. rewrite !drop_ge by lia. by rewrite !take_nil.
Qed.

Lemma zlen_slice {A} (l : list A) i j : 0 <= i -> zlen (slice l i j) = Z.max 0 (Z.min (j - i) (zlen l - i)).
Proof. intros Hi. rewrite slice_take by done. unfold zlen. rewrite length_take, length_drop. lia. Qed.

Lemma slice_app {A} (a b : list A) i j :
  0 <= i <= j -> slice (a ++ b) i j = slice a i j ++ slice b (Z.max 0 (i - zlen a)) (Z.max 0 (j - zlen a)).
Proof.
  intros Hi. rewrite !slice_take by lia. rewrite drop_app, take_app. f_equal. unfold zlen. f_equal; [rewrite length_drop; lia |].
  f_equal. lia.
Qed.

Lemma slice_empty {A} (l : list A) i j : 0 <= i -> j <= i \/ zlen l <= i -> slice l i j = [].
Proof. intros Hi H. rewrite slice_take by done. apply length_zero_iff_nil. rewrite length_take, length_drop. unfold zlen in H. lia. Qed.

Lemma slice_map {A B} (f : A -> B) l i j : 0 <= i -> slice (map f l) i j = map f (slice l i j).
Proof. intros Hi. rewrite !slice_take by done. by rewrite <- fmap_drop, <- fmap_take. Qed.

(** The part of a page that falls in the next list, as the loop computes it. *)
Lemma slice_part {A} (a b : list A) offset limit :
  0 <= offset -> 0 < limit ->
  (zlen b =? 0) || (offset + limit <=? zlen a) || (zlen a + zlen b <=? offset) = false ->
  let local_offset := Z.max 0 (offset - zlen a) in
  let local_limit := Z.min (limit - zlen (slice a offset (offset + limit))) (zlen b - local_offset) in
  1 <= local_limit <= limit /\ 0 <= local_offset <= offset /\
  slice (a ++ b) offset (offset + limit) = slice a offset (offset + limit) ++ slice b local_offset (local_offset + local_limit).
Proof.
  intros Ho Hl Hc lo ll. apply orb_false_iff in Hc as [Hc H3]. apply orb_false_iff in Hc as [H1 H2].
  apply Z.eqb_neq in H1. apply Z.leb_gt in H2, H3. pose proof (zlen_nonneg a). pose proof (zlen_nonneg b).
  assert (Hs : zlen (slice a offset (offset + limit)) = Z.max 0 (zlen a - offset)) by (rewrite zlen_slice by done; lia).
  unfold ll, lo in *. rewrite Hs. split; [lia |]. split; [lia |]. rewrite slice_app by lia. f_equal.
  rewrite !slice_take by lia. set (k := drop _ b).
  assert (Hk : Z.of_nat (length k) = Z.max 0 (zlen b - Z.max 0 (offset - zlen a))) by (unfold k, zlen in *; rewrite length_drop; lia).
  destruct (Z.le_gt_cases (limit - Z.max 0 (zlen a - offset)) (zlen b - Z.max 0 (offset - zlen a))).
  - f_equal. lia.
  - rewrite !take_ge by lia. done.
Qed.

(** The loop skips a list that the page does not meet. *)
Lemma slice_skip {A} (a b : list A) offset limit :
  0 <= offset -> 0 < limit ->
  (zlen b =? 0) || (offset + limit <=? zlen a) || (zlen a + zlen b <=? offset) = true ->
  slice (a ++ b) offset (offset + limit) = slice a offset (offset + limit).
Proof.
  intros Ho Hl Hc. rewrite slice_app by lia. rewrite (slice_empty b); [by rewrite app_nil_r | lia |].
  apply orb_true_iff in Hc as [Hc | H3%Z.leb_le]; [apply orb_true_iff in Hc as [H1%Z.eqb_eq | H2%Z.leb_le] |]; lia.
Qed.

(** ** Order of occurrences *)

Lemma occ_le_total x y : occ_le x y || occ_le y x = true.
Proof.
  unfold occ_le. set (a := int_of _). set (b := int_of _). pose proof (str_leb_total (text_of (dget_or (dict_or_empty x) "id" VNone))
    (text_of (dget_or (dict_or_empty y) "id" VNone))) as H. destruct (Z.lt_trichotomy a b) as [Hl | [-> | Hl]].
  - by rewrite (proj2 (Z.ltb_lt _ _) Hl).
  - rewrite Z.ltb_irrefl, Z.eqb_refl. exact H.
  - rewrite (proj2 (Z.ltb_lt _ _) Hl). cbn. by rewrite orb_true_r.
Qed.

Lemma occ_le_trans x y z : occ_le x y = true -> occ_le y z = true -> occ_le x z = true.
Proof.
  unfold occ_le. set (a := int_of (dget_or (dict_or_empty x) _ _)). set (b := int_of (dget_or (dict_or_empty y) _ _)).
  set (c := int_of (dget_or (dict_or_empty z) _ _)). intros H1 H2. apply orb_true_iff in H1, H2. apply orb_true_iff.
  rewrite !andb_true_iff, !Z.ltb_lt, !Z.eqb_eq in *. destruct H1 as [H1 | [H1 I1]], H2 as [H2 | [H2 I2]]; [left; lia | left; lia | left; lia |].
  right. split; [lia |]. by eapply str_leb_trans.
Qed.

(** ** One occurrence *)

Section pages.
Context (zoneinfo : string -> res unit).
Context {T : Type} `{RO : RowStore T (_validate_occurrence zoneinfo)} {RC : forall identifier, RowStore T (receipt_valid identifier)}.
#[local] Abbreviation occ_view := (rs_view (V:=_validate_occurrence zoneinfo)).

(** The receipts of an occurrence, by device. *)
Definition receipts_of (e : evidence (T:=T)) (i : string) (l : list pyval) : Prop :=
  NoDup l /\ (forall v, v ∈ l <-> exists d, receipt_at e i d = Some v) /\ StronglySorted (fun a b => device_le a b = true) l.

(** A read: nothing visible changes. *)
Definition unchanged (e e' : evidence (T:=T)) : Prop := evidence_ok zoneinfo e' /\ forall i d, receipt_at e' i d = receipt_at e i d.

Lemma receipts_of_unchanged e e' i l : unchanged e e' -> receipts_of e' i l -> receipts_of e i l.
Proof. intros [_ Hr] (Hn & Hin & Hs). split; [done |]. split; [| done]. intros v. rewrite Hin. by setoid_rewrite Hr. Qed.

Lemma receipts_of_length e i l k : receipts_of e i l -> receipts_of e i k -> zlen l = zlen k.
Proof.
  intros (Hn & Hin & _) (Hn' & Hin' & _). unfold zlen. f_equal. apply Permutation_length, NoDup_Permutation; [done | done |].
  intros v. by rewrite Hin, Hin'.
Qed.

Lemma device_of_row e i d v : evidence_ok zoneinfo e -> receipt_at e i d = Some v -> fld v "device_id" = VStr d.
Proof.
  intros Hok Hv. destruct (stored_receipt zoneinfo e i d Hok v Hv) as (_ & _ & Hval).
  destruct (valid_inv i d v Hval) as (dd & l & r & a & c & u & s & st & -> & Hf & _). exact (hf_device _ _ _ _ _ _ _ _ _ Hf).
Qed.

Lemma device_le_total x y : device_le x y || device_le y x = true.
Proof. apply str_leb_total. Qed.

Lemma device_le_trans x y z : device_le x y = true -> device_le y z = true -> device_le x z = true.
Proof. apply str_leb_trans. Qed.

Lemma receipt_list_spec e i limit offset :
  evidence_ok zoneinfo e -> _HEX_RE i = true -> 1 <= limit <= MAX_RECEIPT_PAGE -> 0 <= offset <= MAX_INTEGER ->
  exists l e', receipt_list (VStr i) (VInt limit) (VInt offset) e =
      (Ok (Page (slice l offset (offset + limit)) (zlen l) offset ((0 <? offset) || (offset + limit <? zlen l))), e') /\
    unchanged e e' /\ e_occ e' = e_occ e /\ receipts_of e i l.
Proof.
  intros Hok Hi Hl Ho. pose proof Hok as [Hocc Hf]. unfold receipt_list.
  unfold sbind at 1, lift at 1. rewrite (integer_ok _ _ _ _ Hl). unfold sbind at 1, lift at 1. rewrite (integer_ok _ _ _ _ Ho).
  unfold sbind at 1, lift at 1. rewrite (hex_ok _ _ Hi).
  destruct (rs_snapshot_spec (V:=receipt_valid i) (e_files e i) (Hf i)) as (d & t & Hs & Ht & Hv & Hn & Hd).
  assert (Hrun : on_file i (rs_snapshot (V:=receipt_valid i)) e = (Ok d, set_file e i t)) by (unfold on_file; by rewrite Hs).
  rewrite (sbind_ok _ _ _ _ _ Hrun). exists (sort_by device_le (map snd d)), (set_file e i t). split; [done |].
  assert (Hun : unchanged e (set_file e i t)).
  { split; [split; [done |] |].
    - intros j. unfold set_file. cbn [e_files]. destruct (String.eqb_spec j i) as [-> | ?]; [done | apply Hf].
    - intros j x. unfold receipt_at, set_file. cbn [e_files]. destruct (String.eqb_spec j i) as [-> | ?]; [apply Hv | done]. }
  split; [done |]. split; [done |].
  assert (Hrow : forall k v, (k, v) ∈ d -> receipt_at e i k = Some v).
  { intros k v Hkv. unfold receipt_at. rewrite <- Hd. by apply dget_Some. }
  split; [| split; [| apply sort_by_sorted; [apply device_le_total | apply device_le_trans]]].
  - rewrite sort_by_perm. clear -Hn Hrow Hok. induction d as [| [k v] d IH]; cbn; [constructor |]. cbn in Hn. apply NoDup_cons in Hn as [Hk Hn].
    apply NoDup_cons. split; [| apply IH; [done |]; intros; apply Hrow; by right].
    intros Hin. apply list_elem_of_fmap in Hin as ([k' v'] & Hv & Hin). cbn in Hv. subst v'.
    pose proof (device_of_row e i k v Hok (Hrow k v ltac:(by left))) as H1.
    pose proof (device_of_row e i k' v Hok (Hrow k' v ltac:(by right))) as H2. rewrite H1 in H2. injection H2 as <-.
    apply Hk. apply list_elem_of_fmap. by exists (k, v).
  - intros v. rewrite sort_by_elem. split.
    + intros Hin. apply list_elem_of_fmap in Hin as ([k w] & -> & Hin). exists k. by apply Hrow.
    + intros [k Hk]. unfold receipt_at in Hk. rewrite <- Hd in Hk. apply dget_elem in Hk. apply list_elem_of_fmap. by exists (k, v).
Qed.

(** ** The loop *)

(** The rows the occurrences contribute, one list per occurrence. *)
Definition contributions (sid : pyval) (occurrences : list pyval) (lists : list (list pyval)) : list pyval :=
  concat (zip_with (fun o l => map (projected sid o) l) occurrences lists).

Lemma unchanged_trans e1 e2 e3 : unchanged e1 e2 -> unchanged e2 e3 -> unchanged e1 e3.
Proof. intros [_ H1] [K2 H2]. split; [done |]. intros i d. by rewrite H2. Qed.

Lemma step_spec sid limit offset seen o i e :
  evidence_ok zoneinfo e -> fld o "id" = VStr i -> _HEX_RE i = true -> 1 <= limit <= MAX_RECEIPT_PAGE -> 0 <= offset <= MAX_INTEGER ->
  exists l e', receipts_step sid limit offset (zlen seen, slice seen offset (offset + limit)) o e =
      (Ok (zlen (seen ++ map (projected sid o) l), slice (seen ++ map (projected sid o) l) offset (offset + limit)), e') /\
    unchanged e e' /\ receipts_of e i l.
Proof.
  intros Hok Hid Hi Hl Ho. unfold receipts_step. change (dget_or (dict_or_empty o) "id" VNone) with (fld o "id"). rewrite Hid.
  destruct (receipt_list_spec e i 1 0 Hok Hi) as (l & e1 & E1 & Hun & _ & Hof); [by vm_compute | by vm_compute |].
  rewrite (sbind_ok _ _ _ _ _ E1). cbn [p_total].
  assert (Hml : zlen (map (projected sid o) l) = zlen l) by (unfold zlen; by rewrite length_map).
  destruct ((zlen l =? 0) || (offset + limit <=? zlen seen) || (zlen seen + zlen l <=? offset)) eqn:Ec.
  - exists l, e1. rewrite zlen_app, Hml. rewrite slice_skip; [done | lia | lia | by rewrite Hml].
  - destruct (slice_part seen (map (projected sid o) l) offset limit) as (Hll & Hlo & Hsl); [lia | lia | by rewrite Hml |].
    rewrite Hml in *. set (lo := Z.max 0 _) in *. set (ll := Z.min _ _) in *.
    destruct (receipt_list_spec e1 i ll lo (proj1 Hun) Hi) as (l2 & e2 & E2 & Hun2 & _ & Hof2); [lia | lia |].
    rewrite (sbind_ok _ _ _ _ _ E2). cbn [p_rows]. pose proof (receipts_of_unchanged _ _ _ _ Hun Hof2) as Hof'.
    pose proof (receipts_of_length _ _ _ _ Hof Hof') as Hlen.
    assert (Hml2 : zlen (map (projected sid o) l2) = zlen l) by (rewrite Hlen; unfold zlen; by rewrite length_map).
    exists l2, e2. rewrite zlen_app, Hml2. split; [| split; [by eapply unchanged_trans | done]]. unfold sret. do 2 f_equal. f_equal.
    destruct (slice_part seen (map (projected sid o) l2) offset limit) as (_ & _ & Hsl2); [lia | lia | by rewrite Hml2 |].
    rewrite Hml2 in Hsl2. fold lo in Hsl2. fold ll in Hsl2. rewrite Hsl2, slice_map by lia. done.
Qed.

Lemma loop_spec sid limit offset occs : forall seen e,
  evidence_ok zoneinfo e -> Forall (fun o => exists i, fld o "id" = VStr i /\ _HEX_RE i = true) occs ->
  1 <= limit <= MAX_RECEIPT_PAGE -> 0 <= offset <= MAX_INTEGER ->
  exists lists e', sfold (receipts_step sid limit offset) (zlen seen, slice seen offset (offset + limit)) occs e =
      (Ok (zlen (seen ++ contributions sid occs lists), slice (seen ++ contributions sid occs lists) offset (offset + limit)), e') /\
    Forall2 (fun o l => exists i, fld o "id" = VStr i /\ receipts_of e i l) occs lists.
Proof.
  induction occs as [| o occs IH]; intros seen e Hok HF Hl Ho; cbn [sfold].
  - exists [], e. unfold contributions. cbn. rewrite app_nil_r. done.
  - apply Forall_cons in HF as [(i & Hid & Hi) HF]. destruct (step_spec sid limit offset seen o i e Hok Hid Hi Hl Ho) as (l & e1 & E1 & Hun & Hof).
    rewrite (sbind_ok _ _ _ _ _ E1). destruct (IH (seen ++ map (projected sid o) l) e1 (proj1 Hun) HF Hl Ho) as (lists & e2 & E2 & HF2).
    exists (l :: lists), e2. rewrite E2. unfold contributions. cbn [zip_with concat]. rewrite <- !app_assoc. split; [done |].
    constructor; [by exists i |]. eapply Forall2_impl; [exact HF2 |]. intros x k (j & Hj & Hr). exists j. split; [done |]. by eapply receipts_of_unchanged.
Qed.

Lemma occ_list_spec sid s : rs_ok (V:=_validate_occurrence zoneinfo) s -> _ID_RE sid = true ->
  exists occs s', occ_list zoneinfo (Some (VStr sid)) s = (Ok occs, s') /\ rs_ok (V:=_validate_occurrence zoneinfo) s' /\
    (forall k, occ_view s' k = occ_view s k) /\
    StronglySorted (fun a b => occ_le a b = true) occs /\
    (forall o, o ∈ occs <-> fld o "schedule_id" = VStr sid /\ exists k, occ_view s k = Some o) /\
    Forall (fun o => exists i, fld o "id" = VStr i /\ _HEX_RE i = true) occs.
Proof.
  intros Hok Hs. unfold occ_list. unfold sbind at 1, lift. rewrite (identifier_ok _ _ Hs). cbn [mbind res_bind].
  destruct (rs_snapshot_spec s Hok) as (d & s' & E & Hok' & Hv & Hn & Hd). rewrite (sbind_ok _ _ _ _ _ E).
  eexists _, s'. split; [done |]. split; [done |]. split; [done |].
  assert (Hin : forall o, o ∈ map snd d <-> exists k, occ_view s k = Some o).
  { intros o. split.
    - intros H. apply list_elem_of_fmap in H as ([k v] & -> & H). exists k. rewrite <- Hd. by apply dget_Some.
    - intros [k H]. rewrite <- Hd in H. apply dget_elem in H. apply list_elem_of_fmap. by exists (k, o). }
  assert (Hall : forall o, o ∈ sort_by occ_le (filter (fun row => py_eq (dget_or (dict_or_empty row) "schedule_id" VNone) (VStr sid) = true) (map snd d)) <->
    fld o "schedule_id" = VStr sid /\ exists k, occ_view s k = Some o).
  { intros o. rewrite sort_by_elem, list_elem_of_filter, Hin. split.
    - intros [H ?]. split; [by apply py_eq_str_r | done].
    - intros [H ?]. split; [| done]. unfold fld in H. rewrite H. cbn. apply String.eqb_refl. }
  split; [| split; [exact Hall |]].
  - apply sort_by_sorted; [apply occ_le_total | apply occ_le_trans].
  - apply Forall_forall. intros o Ho%Hall. destruct Ho as [_ [k Hk]].
    destruct (stored_occurrence zoneinfo s k o Hok Hk) as (dd & st & u & -> & _ & _ & Hval & _). exists k. by apply (validated_id zoneinfo).
Qed.
End pages.

(** ** Property *)

(** One page over a whole schedule.  For a limit and an offset in range, the call
    returns, and what it returns is the slice [offset, offset + limit) of one list: the
    receipts of the schedule's occurrences in the order of their slots, each
    occurrence's receipts by device; the total is the length of that list.  No receipt
    is skipped or repeated where a page crosses from one occurrence to the next. *)
Theorem receipt_pages_exact (zoneinfo : string -> res unit) {T : Type} `{RO : RowStore T (_validate_occurrence zoneinfo)}
    {RC : forall identifier, RowStore T (receipt_valid identifier)}
    (e : evidence (T:=T)) (sid : string) (limit offset : Z) :
  evidence_ok zoneinfo e -> _ID_RE sid = true -> 1 <= limit <= MAX_RECEIPT_PAGE -> 0 <= offset <= MAX_INTEGER ->
  exists occurrences lists e', let all := contributions (VStr sid) occurrences lists in
    let rows := slice all offset (offset + limit) in
    list_schedule_receipts zoneinfo (VStr sid) (VInt limit) (VInt offset) e =
      (Ok (Page rows (zlen all) offset ((0 <? offset) || (offset + zlen rows <? zlen all))), e') /\
    StronglySorted (fun a b => occ_le a b = true) occurrences /\
    (forall o, o ∈ occurrences <-> fld o "schedule_id" = VStr sid /\ exists k, rs_view (V:=_validate_occurrence zoneinfo) (e_occ e) k = Some o) /\
    Forall2 (fun o l => exists i, fld o "id" = VStr i /\ receipts_of e i l) occurrences lists.
Proof.
  intros Hok Hs Hl Ho. pose proof Hok as [Hocc Hf]. unfold list_schedule_receipts.
  unfold sbind at 1, lift at 1. rewrite (identifier_ok _ _ Hs). unfold sbind at 1, lift at 1. rewrite (integer_ok _ _ _ _ Hl).
  unfold sbind at 1, lift at 1. rewrite (integer_ok _ _ _ _ Ho).
  destruct (occ_list_spec zoneinfo sid (e_occ e) Hocc Hs) as (occs & s' & E & Hok' & Hv & Hsort & Hin & HF).
  assert (Hrun : on_occ (occ_list zoneinfo (Some (VStr sid))) e = (Ok occs, Evidence s' (e_files e))) by (unfold on_occ, zoom; by rewrite E).
  rewrite (sbind_ok _ _ _ _ _ Hrun).
  destruct (loop_spec zoneinfo (VStr sid) limit offset occs [] (Evidence s' (e_files e)) (conj Hok' Hf) HF Hl Ho) as (lists & e' & E2 & HF2).
  change (sfold _ _ _ _ = _) with (sfold (receipts_step (VStr sid) limit offset) (0, slice (A:=pyval) [] offset (offset + limit)) occs (Evidence s' (e_files e)) =
    (Ok (zlen (contributions (VStr sid) occs lists), slice (contributions (VStr sid) occs lists) offset (offset + limit)), e')) in E2.
  rewrite (slice_empty (A:=pyval) []) in E2 by (unfold zlen; cbn; lia).
  exists occs, lists, e'. cbn zeta. rewrite (sbind_ok _ _ _ _ _ E2). done.
Qed.

Lemma receipt_pages_exact_witness :
  exists occurrences lists e', list_schedule_receipts any_zone (VStr "weekly") (VInt 10) (VInt 0) begun =
      (Ok (Page (slice (contributions (VStr "weekly") occurrences lists) 0 10) 1 0 false), e') /\
    zlen (contributions (VStr "weekly") occurrences lists) = 1.
Proof.
  destruct (receipt_pages_exact any_zone begun "weekly" 10 0) as (occs & lists & e' & E & _).
  - exact begun_ok.
  - reflexivity.
  - unfold MAX_RECEIPT_PAGE. lia.
  - split; discriminate.
  - exists occs, lists, e'.
    assert (Hz : zlen (contributions (VStr "weekly") occs lists) = 1).
    { apply (f_equal fst) in E. cbn [fst] in E.
      destruct (list_schedule_receipts any_zone (VStr "weekly") (VInt 10) (VInt 0) begun) as [[[rows total off tr] |] s] eqn:Er;
        [| vm_compute in Er; discriminate Er]. cbn [fst] in E. injection E as _ Ht _ _. rewrite <- Ht. vm_compute in Er. injection Er as _ <- _ _ _. reflexivity. }
    split; [| exact Hz]. rewrite E, Hz. do 3 f_equal.
    assert (Hs : zlen (slice (contributions (VStr "weekly") occs lists) 0 (0 + 10)) = 1).
    { rewrite zlen_slice by lia. rewrite Hz. reflexivity. }
    rewrite Hs. reflexivity.
Defined.
