(* ===== verification/SchedRunner.v ===== *)
(** * [server/schedule_runner.py]: the runner

    One pass claims the slots that are due, then serves the active occurrences device
    by device, with a receipt as durable evidence of each step.  What the runner calls
    is outside the model: the clock, the stop flags, the role authority, the target
    resolver and the executor are the operations of [outside].  A call may answer
    anything and raise anything, and it may also change the schedule definitions, as
    another thread of the server does; occurrences and receipts belong to the runner.

    The recheck intervals and the delays are binary64 numbers, an int among them with the
    exponent zero: the ints that occur stay far below 2 ^ 53, so that a sum with one of them
    is the exact sum, rounded. *)
From S2P Require Import Prelude PyVal JsonDump PolicyDoc KeyedState KeyedSpec SchedDoc SchedValid SchedTime SchedTimeSpec SchedStore SchedOps WaveGate SchedReceipt.

(** ** Values *)

Definition _ACTIVE : list string := ["pending"; "running"; "interrupted"].
Definition _METADATA : list string :=
  ["job_id"; "record_id"; "predecessor_record_id"; "manual_generation"; "fleet_registered_at"; "fleet_registration_id";
   "before_image_ids"; "after_image_ids"; "removed_image_ids"; "notes"].

(** [d[k]] on a row whose fields were checked when it was stored. *)
Definition fieldv (d : dict) (k : string) : pyval := dget_or d k VNone.
Definition sub (d : dict) (k : string) : dict := dict_or_empty (fieldv d k).

Definition clock_value (v : pyval) : res Z :=
  let bad := Err (ValueError "invalid runner clock") in
  match v with
  | VInt z => if (0 <=? z) && (z <=? MAX_EPOCH) then Ok z else bad
  | VFloat f => if num_leb (FFin 0 0) f && num_leb f (FFin MAX_EPOCH 0) then Ok (float_trunc f) else bad
  | _ => bad
  end.

(** [min(a, b)] and [max(a, b)] *)
Definition py_min (a b : pyfloat) : pyfloat := if num_ltb b a then b else a.
Definition py_max (a b : pyfloat) : pyfloat := if num_ltb a b then b else a.

(** [n + v] and [v * 2 ** k]; an interval times at most 512 is exact. *)
Definition after_interval (n : Z) (v : pyfloat) : pyfloat :=
  match v with FFin m e => let l := Z.min e 0 in round64 (m * 2 ^ (e - l) + n * 2 ^ (- l)) l | v => v end.
Definition times_power (v : pyfloat) (k : Z) : pyfloat := match v with FFin m e => FFin m (e + k) | v => v end.

(** The float [0.01]. *)
Definition hundredth : pyfloat := FFin 5764607523034235 (-59).

(** Sets of ids, and dicts keyed by pairs of ids. *)
Definition set_add {A} `{EqDecision A} (x : A) (s : list A) : list A := if decide (x ∈ s) then s else s ++ [x].
Definition set_discard {A} `{EqDecision A} (x : A) (s : list A) : list A := filter (fun y => y <> x) s.

Definition pair_key : Type := string * string.
Fixpoint kget {B} (d : list (pair_key * B)) (k : pair_key) : option B :=
  match d with [] => None | (x, v) :: d => if decide (x = k) then Some v else kget d k end.
Definition kpop {B} (d : list (pair_key * B)) (k : pair_key) : list (pair_key * B) := filter (fun xv => fst xv <> k) d.
Definition kset {B} (d : list (pair_key * B)) (k : pair_key) (v : B) : list (pair_key * B) := kpop d k ++ [(k, v)].

(** An executor result is a closed object with a status and a public reason. *)
Definition _result (result : pyval) : res dict :=
  match result with
  | VDict d =>
      raise (ValueError "invalid executor result fields") when
        existsb (fun k => negb (existsb (String.eqb k) (["status"; "reason"; "retry_at"] ++ _METADATA))) (dkeys d) ;;;
      raise (TypeError "unhashable type") when negb (hashable (fieldv d "status")) ;;;
      raise (ValueError "invalid executor result status") when
        negb (in_strs (fieldv d "status") (RECEIPT_STATES ++ ["deferred"; "retry"; "prepared"])) ;;;
      raise (ValueError "invalid executor result reason") when
        match fieldv d "reason" with VStr s => negb (_REASON_RE s) | _ => true end ;;;
      raise (ValueError "use prepared or deferred for an executor intent result") when
        py_eq (fieldv d "status") (VStr "intent") ;;;
      raise (ValueError "invalid executor retry time") when
        match dget d "retry_at" with
        | None => false
        | Some (VInt z) => negb ((0 <=? z) && (z <=? MAX_EPOCH))
        | Some _ => true
        end ;;;
      Ok d
  | _ => Err (ValueError "invalid executor result fields")
  end.

(** The keyword arguments [**metadata] of [record]. *)
Definition metadata_args (result : dict) (expected_rev : pyval) : record_args :=
  let f k := fieldv result k in
  RecordArgs (f "notes") VNone expected_rev (f "job_id") (f "record_id") (f "predecessor_record_id") (f "manual_generation")
    (f "before_image_ids") (f "after_image_ids") (f "removed_image_ids") (dget result "fleet_registered_at")
    (f "fleet_registration_id") VNone.

(** A gate as it was found. *)
Record gate := Gate { g_gate : string; g_counts : option dict; g_expired : bool }.

(** How an occurrence ends. *)
Definition final_state (reasons statuses : list pyval) : string :=
  let said l k := existsb (py_eq (VStr k)) l in
  if said statuses "error" || said reasons "executor_unavailable" then "failed"
  else if said reasons "schedule_changed" then "cancelled" else "completed".

(** ** State *)

(** What the runner keeps in memory. *)
Record memory := Memory {
  m_last_error : option string;
  m_failures : Z;
  m_recovered : bool;
  m_active : list string;
  m_service_order : list string;
  m_validated : list string;
  m_facts : list (string * dict);
  m_retry_at : list (pair_key * pyfloat);
  m_wave_at : list (string * pyfloat);
  m_pending_acknowledgements : list pair_key;
  m_position : list (string * Z);
  m_remaining : Z }.

Definition init_memory : memory := Memory None 0 false [] [] [] [] [] [] [] [] 0.

Section setters.
Context (m : memory).
Definition with_error e f := Memory e f (m_recovered m) (m_active m) (m_service_order m) (m_validated m) (m_facts m)
  (m_retry_at m) (m_wave_at m) (m_pending_acknowledgements m) (m_position m) (m_remaining m).
Definition with_recovered a := Memory (m_last_error m) (m_failures m) true a (m_service_order m) (m_validated m) (m_facts m)
  (m_retry_at m) (m_wave_at m) (m_pending_acknowledgements m) (m_position m) (m_remaining m).
Definition with_active a := Memory (m_last_error m) (m_failures m) (m_recovered m) a (m_service_order m) (m_validated m) (m_facts m)
  (m_retry_at m) (m_wave_at m) (m_pending_acknowledgements m) (m_position m) (m_remaining m).
Definition with_order o := Memory (m_last_error m) (m_failures m) (m_recovered m) (m_active m) o (m_validated m) (m_facts m)
  (m_retry_at m) (m_wave_at m) (m_pending_acknowledgements m) (m_position m) (m_remaining m).
Definition with_validated v := Memory (m_last_error m) (m_failures m) (m_recovered m) (m_active m) (m_service_order m) v (m_facts m)
  (m_retry_at m) (m_wave_at m) (m_pending_acknowledgements m) (m_position m) (m_remaining m).
Definition with_facts f := Memory (m_last_error m) (m_failures m) (m_recovered m) (m_active m) (m_service_order m) (m_validated m) f
  (m_retry_at m) (m_wave_at m) (m_pending_acknowledgements m) (m_position m) (m_remaining m).
Definition with_retry_at r := Memory (m_last_error m) (m_failures m) (m_recovered m) (m_active m) (m_service_order m) (m_validated m)
  (m_facts m) r (m_wave_at m) (m_pending_acknowledgements m) (m_position m) (m_remaining m).
Definition with_wave_at w := Memory (m_last_error m) (m_failures m) (m_recovered m) (m_active m) (m_service_order m) (m_validated m)
  (m_facts m) (m_retry_at m) w (m_pending_acknowledgements m) (m_position m) (m_remaining m).
Definition with_acks a := Memory (m_last_error m) (m_failures m) (m_recovered m) (m_active m) (m_service_order m) (m_validated m)
  (m_facts m) (m_retry_at m) (m_wave_at m) a (m_position m) (m_remaining m).
Definition with_position p := Memory (m_last_error m) (m_failures m) (m_recovered m) (m_active m) (m_service_order m) (m_validated m)
  (m_facts m) (m_retry_at m) (m_wave_at m) (m_pending_acknowledgements m) p (m_remaining m).
Definition with_remaining r := Memory (m_last_error m) (m_failures m) (m_recovered m) (m_active m) (m_service_order m) (m_validated m)
  (m_facts m) (m_retry_at m) (m_wave_at m) (m_pending_acknowledgements m) (m_position m) r.
End setters.

(** The numbers given to [ScheduleRunner(...)]. *)
Record config := Config {
  idle_recheck : pyfloat; poll_interval : pyfloat; wave_recheck : pyfloat; max_claims : nat; max_dispatches : Z }.

(** What the constructor checks of them. *)
Definition config_ok (c : config) : bool :=
  forallb (fun v => num_ltb (FFin 0 0) v && num_leb v (FFin 300 0)) [idle_recheck c; poll_interval c; wave_recheck c] &&
  (0 <? Z.of_nat (max_claims c)) && (0 <? max_dispatches c).

Section runner.
Context (zoneinfo : string -> res unit) (zone_of : string -> zone).
Context {T : Type} `{RR : RowStore T (row_valid zoneinfo)} `{RP : RowStore T _progress_valid} `{RF : RowStore T _retired_valid}
  `{RO : RowStore T (_validate_occurrence zoneinfo)} {RC : forall identifier, RowStore T (receipt_valid identifier)}.
(** The state of everything outside. *)
Context {E : Type}.

(** A call: its own state, the definitions and the retired revisions may change. *)
Definition ext (X : Type) : Type := sm (E * (T * T)) X.

Record outside := Outside {
  o_now_fn : ext pyval;
  o_stopping : E * (T * T) -> bool * (E * (T * T));
  o_role_guard : dict -> ext unit;
  o_resolve_target : dict -> ext pyval;
  o_validate : dict -> dict -> ext pyval;
  o_dispatch : dict -> dict -> string -> dict -> ext pyval;
  o_poll : dict -> ext pyval;
  o_cancel_queued : pyval -> list string -> ext unit;
  o_wave_counts : option (dict -> dict -> ext pyval);
  o_acknowledge : option (dict -> ext unit);
  o_error_fn : option (string -> ext unit) }.

(** A call of [executor.dispatch]: its arguments, the last reading of the clock, and
    the definitions and receipts on disk at that moment. *)
Record dispatched := Dispatched {
  d_occurrence : dict; d_device : string; d_intent : dict; d_clock : Z; d_rows : T; d_files : string -> T }.

(** The files, the memory, the outside; and, for the theorems only, the last reading
    of the clock and the calls of [dispatch] so far. *)
Record world := World {
  w_env : E; w_sched : sched (T:=T); w_files : string -> T; w_mem : memory; w_clock : Z; w_calls : list dispatched }.

Definition rm (X : Type) : Type := sm world X.

Definition outer (w : world) : E * (T * T) := (w_env w, (s_rows (w_sched w), s_retired (w_sched w))).
Definition set_outer (o : E * (T * T)) (w : world) : world :=
  World (fst o) (Sched (fst (snd o)) (s_progress (w_sched w)) (snd (snd o)) (s_occ (w_sched w))) (w_files w) (w_mem w)
    (w_clock w) (w_calls w).
Definition call {X} (op : ext X) : rm X := zoom outer set_outer op.

Definition on_sched {X} (m : sm (sched (T:=T)) X) : rm X :=
  zoom w_sched (fun s w => World (w_env w) s (w_files w) (w_mem w) (w_clock w) (w_calls w)) m.

Definition evidence_of (w : world) : evidence (T:=T) := Evidence (s_occ (w_sched w)) (w_files w).
Definition set_evidence (e : evidence (T:=T)) (w : world) : world :=
  World (w_env w) (Sched (s_rows (w_sched w)) (s_progress (w_sched w)) (s_retired (w_sched w)) (e_occ e)) (e_files e)
    (w_mem w) (w_clock w) (w_calls w).
Definition on_evidence {X} (m : sm (evidence (T:=T)) X) : rm X := zoom evidence_of set_evidence m.
Definition on_occurrences {X} (m : sm T X) : rm X := on_evidence (on_occ m).

Definition memory_of : rm memory := fun w => (Ok (w_mem w), w).
Definition modify (f : memory -> memory) : rm unit := fun w =>
  (Ok tt, World (w_env w) (w_sched w) (w_files w) (f (w_mem w)) (w_clock w) (w_calls w)).

(** [try: m except ...]: the outcome as a value. *)
Definition attempt {X} (m : rm X) : rm (res X) := fun w => let '(r, w) := m w in (Ok r, w).

Context (o : outside) (cfg : config).

(** ** Reading the outside *)

Definition _now : rm Z :=
  let! v := call (o_now_fn o) in
  let! t := lift (clock_value v) in
  fun w => (Ok t, World (w_env w) (w_sched w) (w_files w) (w_mem w) t (w_calls w)).

Definition _stopping : rm bool := fun w => let '(b, out) := o_stopping o (outer w) in (Ok b, set_outer out w).

(** The call itself, and its record. *)
Definition dispatch (schedule occurrence : dict) (did : string) (intent : dict) : rm pyval := fun w =>
  call (o_dispatch o schedule occurrence did intent)
    (World (w_env w) (w_sched w) (w_files w) (w_mem w) (w_clock w)
      (w_calls w ++ [Dispatched occurrence did intent (w_clock w) (s_rows (w_sched w)) (w_files w)])).

(** ** Receipts *)

Definition get_receipt (oid : pyval) (did : string) : rm (option dict) :=
  let! r := on_evidence (receipt_get oid (VStr did)) in sret (dict_or_empty <$> r).

(** Best-effort cleanup, only after terminal evidence is durable. *)
Definition _acknowledge (receipt : dict) : rm bool :=
  let key := (text_of (fieldv receipt "occurrence_id"), text_of (fieldv receipt "device_id")) in
  match o_acknowledge o with
  | None => let! _ := modify (fun m => with_acks m (set_discard key (m_pending_acknowledgements m))) in sret true
  | Some callback =>
      let! r := attempt (call (callback receipt)) in
      match r with
      | Ok _ => let! _ := modify (fun m => with_acks m (set_discard key (m_pending_acknowledgements m))) in sret true
      | Err _ => let! _ := modify (fun m => with_acks m (set_add key (m_pending_acknowledgements m))) in sret false
      end
  end.

Definition _save (occurrence : dict) (did : string) (prior : dict) (result : pyval) : rm dict :=
  let! result := lift (_result result) in
  let given := fieldv result "status" in
  throw (ValueError "retry needs recovery handling") when py_eq given (VStr "retry") ;;!
  let postponed := in_strs given ["deferred"; "prepared"] in
  let status := if postponed then fieldv prior "status" else given in
  throw (ValueError "admitted result requires job identity") when
    in_strs status ["submitted"; "running"] && negb (truth (dget_or result "job_id" (fieldv prior "job_id"))) ;;!
  let! now := _now in
  let! saved := on_evidence (record zoneinfo (fieldv occurrence "id") (VStr did) status (fieldv result "reason") (VInt now)
    (metadata_args result (fieldv prior "rev"))) in
  let key := (text_of (fieldv occurrence "id"), did) in
  let! _ :=
    if postponed then
      let! now := _now in
      modify (fun m => with_retry_at m (kset (m_retry_at m) key
        (py_max (after_interval now (poll_interval cfg)) (FFin (int_of (dget_or result "retry_at" (VInt 0))) 0))))
    else modify (fun m => with_retry_at m (kpop (m_retry_at m) key)) in
  let! _ := if terminal (fieldv saved "status") then _acknowledge saved else sret true in
  sret saved.

Definition _finish_unsubmitted (occurrence : dict) (did : string) (prior : option dict) (reason status wave : pyval) : rm dict :=
  let! now := _now in
  let expected := match prior with Some p => fieldv p "rev" | None => VNone end in
  let! saved := on_evidence (record zoneinfo (fieldv occurrence "id") (VStr did) status reason (VInt now)
    (RecordArgs VNone VNone expected VNone VNone VNone VNone VNone VNone VNone None VNone wave)) in
  let! _ := _acknowledge saved in
  sret saved.

(** [closed] is a reason, never empty: the constructor of [ExecutionRefused] checks it. *)
Definition _retry (occurrence : dict) (did : string) (prior result : dict) (closed : option string) : rm dict :=
  match closed with
  | Some reason =>
      if String.eqb reason "window_not_open" then
        _save occurrence did prior (VDict [("status", VStr "deferred"); ("reason", VStr reason)])
      else _finish_unsubmitted occurrence did (Some prior) (VStr reason) (VStr "skipped") VNone
  | None =>
      throw (ValueError "recovery retry requires manual generation") when negb (dhas result "manual_generation") ;;!
      if MAX_RECEIPT_ATTEMPTS <=? int_of (fieldv prior "attempt") then
        _finish_unsubmitted occurrence did (Some prior) (VStr "retry_limit_exceeded") (VStr "error") VNone
      else
        let! now := _now in
        let! successor := on_evidence (successor_attempt zoneinfo (fieldv occurrence "id") (VStr did) (fieldv prior "rev") (VInt now)
          (fieldv result "manual_generation") (fieldv result "predecessor_record_id") (fieldv result "before_image_ids")) in
        let! _ := modify (fun m => with_retry_at m (kpop (m_retry_at m) (text_of (fieldv occurrence "id"), did))) in
        sret successor
  end.

(** [self._retry_at.get(key, 0) > self._now()] *)
Definition waiting (occurrence : dict) (did : string) : rm bool :=
  let! m := memory_of in
  let! now := _now in
  sret (num_ltb (FFin now 0) (default (FFin 0 0) (kget (m_retry_at m) (text_of (fieldv occurrence "id"), did)))).

Definition _poll (occurrence : dict) (did : string) (prior : dict) (closed : option string) : rm dict :=
  let! wait := waiting occurrence did in
  if wait then sret prior
  else
    let! answer := call (o_poll o prior) in
    let! result := lift (_result answer) in
    if py_eq (fieldv result "status") (VStr "retry") then _retry occurrence did prior result closed
    else _save occurrence did prior answer.

(** ** Admission *)

Definition get_occurrence (oid : pyval) : rm (option dict) :=
  let! r := on_occurrences (occ_get zoneinfo oid) in sret (dict_or_empty <$> r).
Definition get_schedule (sid : pyval) : rm (option dict) :=
  let! r := on_sched (sched_get zoneinfo sid) in sret (dict_or_empty <$> r).

(** [any(live.get(key) != original.get(key) for key in schedules.DEFINITION_KEYS)] *)
Definition definition_differs (live original : dict) : bool :=
  existsb (fun k => negb (py_eq (fieldv live k) (fieldv original k))) DEFINITION_KEYS.

Definition _closed_reason (occurrence : dict) : rm (option string) :=
  let! stop := _stopping in
  if stop then sret (Some "runner_stopping")
  else
    let! now := _now in
    if now <? int_of (fieldv occurrence "scheduled_at") then sret (Some "window_not_open")
    else if int_of (fieldv occurrence "window_end") <=? now then sret (Some "window_closed")
    else
      let! live := get_schedule (fieldv occurrence "schedule_id") in
      sret (match live with
        | None => Some "schedule_changed"
        | Some live =>
            if negb (py_eq (fieldv live "generation") (fieldv occurrence "schedule_generation")) ||
               definition_differs live (sub occurrence "schedule")
            then Some "schedule_changed" else None
        end).

Definition _admission_reason (occurrence : dict) : rm (option string) :=
  let! reason := _closed_reason occurrence in
  match reason with
  | Some r => sret (Some r)
  | None =>
      let! r := attempt (let! _ := call (o_role_guard o (sub occurrence "schedule")) in _closed_reason occurrence) in
      match r with
      | Ok reason => sret reason
      | Err (ExecutionRefused reason) => sret (Some reason)
      | Err e => lift (Err e)
      end
  end.

(** ** The wave gate *)

Definition wave_count_keys : list string := ["schedule_id"; "occurrence_id"; "total"; "staged"; "errored"; "missing"].

Definition _wave_record (occurrence : dict) (counted : pyval) : rm dict :=
  match counted with
  | VDict d =>
      throw (ValueError "invalid wave gate counts") when
        negb (forallb (fun k => existsb (String.eqb k) wave_count_keys) (dkeys d) && forallb (dhas d) wave_count_keys) ;;!
      throw (ValueError "wave counts name another schedule") when
        negb (py_eq (fieldv d "schedule_id") (fieldv (sub (sub occurrence "schedule") "after") "schedule_id")) ;;!
      let! now := _now in
      lift (normalize_wave (VDict (dset (dset d "gate" (VStr "held")) "observed_at" (VInt now))))
  | _ => lift (Err (ValueError "invalid wave gate counts"))
  end.

(** [((self.occurrences.get(oid) or {}).get("annotations") or {}).get("wave")] *)
Definition stored_wave (oid : pyval) : rm (option dict) :=
  let! row := get_occurrence oid in
  sret (as_dict (fieldv (sub (default [] row) "annotations") "wave")).

Definition no_counts (after : dict) : pyval :=
  VDict [("schedule_id", fieldv after "schedule_id"); ("occurrence_id", VNone); ("total", VInt 0); ("staged", VInt 0);
         ("errored", VInt 0); ("missing", VInt 0)].

(** The counts of this wake, and what they decide. *)
Definition wave_evaluate (occurrence after : dict) (stored : option dict) (expired : bool)
    (counter : dict -> dict -> ext pyval) : rm gate :=
  let! counted := attempt (call (counter (sub occurrence "schedule") occurrence)) in
  match counted with
  | Err (ExecutionRefused reason) =>
      if expired then
        let! counts := match stored with Some c => sret c | None => _wave_record occurrence (no_counts after) end in
        sret (Gate "held" (Some counts) true)
      else lift (Err (ExecutionRefused reason))
  | Err e => lift (Err e)
  | Ok counted =>
      let! counts := _wave_record occurrence counted in
      let counts := if _wave_open after counts then dset counts "gate" (VStr "open") else counts in
      let! now := _now in
      let! _ := on_occurrences (annotate_wave zoneinfo (fieldv occurrence "id") (VDict counts) (VInt now)) in
      sret (Gate (text_of (fieldv counts "gate")) (Some counts) expired)
  end.

Definition _wave (occurrence : dict) : rm (option gate) :=
  let oid := fieldv occurrence "id" in
  let! pg := on_evidence (receipt_list oid (VInt 1) (VInt 0)) in
  if negb (p_total pg =? 0) then sret None
  else
    let after := sub (sub occurrence "schedule") "after" in
    let! now := _now in
    let! stored := stored_wave oid in
    let expired := int_of (fieldv occurrence "scheduled_at") + int_of (fieldv after "deadline_seconds") <=? now in
    let opened := match stored with Some w => py_eq (fieldv w "gate") (VStr "open") | None => false end in
    if opened then sret (Some (Gate "open" stored expired))
    else
      let! m := memory_of in
      if negb expired && num_ltb (FFin now 0) (dget_or (m_wave_at m) (text_of oid) (FFin 0 0)) then sret (Some (Gate "held" None false))
      else
        let! _ := modify (fun m => with_wave_at m (dset (m_wave_at m) (text_of oid) (after_interval now (wave_recheck cfg)))) in
        match o_wave_counts o with
        | None => sret (Some (Gate "unavailable" None expired))
        | Some counter => let! g := wave_evaluate occurrence after stored expired counter in sret (Some g)
        end.

Definition _wave_held (occurrence : dict) : rm bool :=
  if negb (dhas (sub occurrence "schedule") "after") then sret false
  else
    let! wave := stored_wave (fieldv occurrence "id") in
    sret (match wave with None => true | Some w => negb (py_eq (fieldv w "gate") (VStr "open")) end).

(** ** Cancellation *)

Definition targets_of (occurrence : dict) : list string := snapshot_ids (fieldv occurrence "target_snapshot").

(** The jobs of this occurrence that are submitted and not yet running. *)
Definition owned_jobs (occurrence : dict) : rm (list string) :=
  sfold (fun owned did =>
    let! receipt := get_receipt (fieldv occurrence "id") did in
    sret (match receipt with
      | Some r =>
          if py_eq (fieldv r "status") (VStr "submitted") && truth (fieldv r "job_id")
          then set_add (text_of (fieldv r "job_id")) owned else owned
      | None => owned
      end)) [] (targets_of occurrence).

(** Never raises: an error is returned, with the jobs attempted so far. *)
Definition _cancel_closed (occurrence : dict) (attempted : list string) : rm (list string * option pyexn) := fun w =>
  let look :=
    let! closed := _closed_reason occurrence in
    match closed with
    | None => sret None
    | Some reason =>
        if String.eqb reason "window_not_open" then sret None
        else let! owned := owned_jobs occurrence in sret (Some owned)
    end in
  match look w with
  | (Err e, w) => (Ok (attempted, Some e), w)
  | (Ok None, w) => (Ok (attempted, None), w)
  | (Ok (Some owned), w) =>
      match filter (fun j => j ∉ attempted) owned with
      | [] => (Ok (attempted, None), w)
      | new =>
          let '(r, w) := call (o_cancel_queued o (fieldv occurrence "id") (sort_by str_leb new)) w in
          (Ok (attempted ++ new, match r with Ok _ => None | Err e => Some e end), w)
      end
  end.

(** ** One occurrence *)

Definition refused (status reason : string) : dict := [("status", VStr status); ("reason", VStr reason)].

(** What the gate decides: [None] holds, else a refusal (with its counts) or none. *)
Definition gate_decision (g : option gate) : option (option dict * pyval) :=
  match g with
  | None => Some (None, VNone)
  | Some g =>
      if String.eqb (g_gate g) "open" then Some (None, VNone)
      else if String.eqb (g_gate g) "unavailable" then Some (Some (refused "skipped" "gate_unavailable"), VNone)
      else if negb (g_expired g) then None
      else Some (Some (refused "skipped" "wave_deadline"), match g_counts g with Some c => VDict c | None => VNone end)
  end.

(** The executor may refuse the whole occurrence once, at the start of its window. *)
Definition validate_start (occurrence : dict) : rm (option dict) :=
  let oid := text_of (fieldv occurrence "id") in
  let! m := memory_of in
  if decide (oid ∈ m_validated m) then sret None
  else
    let snapshot := dget_or (m_facts m) oid (sub occurrence "target_snapshot") in
    let! answer := call (o_validate o (sub occurrence "schedule") (dset snapshot "occurrence_id" (VStr oid))) in
    if is_none answer then
      let! _ := modify (fun m => with_validated m (set_add oid (m_validated m))) in sret None
    else
      let! refusal := lift (_result answer) in
      throw (ValueError "validation must allow or refuse without admission") when
        negb (in_strs (fieldv refusal "status") ["skipped"; "error"]) ;;!
      sret (Some refusal).

Definition check_start (occurrence : dict) : rm (option (option dict * pyval)) :=
  let! gated :=
    match targets_of occurrence with
    | _ :: _ =>
        if dhas (sub occurrence "schedule") "after" then
          let! g := _wave occurrence in sret (gate_decision g)
        else sret (Some (None, VNone))
    | [] => sret (Some (None, VNone))
    end in
  match gated with
  | None => sret None
  | Some (Some refusal, wave) => sret (Some (Some refusal, wave))
  | Some (None, wave) => let! refusal := validate_start occurrence in sret (Some (refusal, wave))
  end.

Definition set_position (occurrence : dict) (position : Z) : rm unit :=
  modify (fun m => with_position m (dset (m_position m) (text_of (fieldv occurrence "id"))
    ((position + 1) mod Z.max 1 (zlen (targets_of occurrence))))).

(** One device is admitted: the intent is durable before the executor is called. *)
Definition admit_device (occurrence : dict) (position : Z) (did : string) (prior : option dict) : rm unit :=
  let! _ := modify (fun m => with_remaining m (m_remaining m - 1)) in
  let! _ := set_position occurrence position in
  let! intent :=
    match prior with
    | Some p => sret p
    | None =>
        let! now := _now in
        on_evidence (begin zoneinfo (fieldv occurrence "id") (VStr did) (VInt now) VNone VNone VNone)
    end in
  let! closed := _admission_reason occurrence in
  let! _ :=
    match closed with
    | Some reason =>
        match prior with
        | Some _ => _poll occurrence did intent closed
        | None => _finish_unsubmitted occurrence did (Some intent) (VStr reason) (VStr "skipped") VNone
        end
    | None =>
        let! answer := dispatch (sub occurrence "schedule") occurrence did intent in
        let! result := lift (_result answer) in
        if py_eq (fieldv result "status") (VStr "retry") then
          let! closed := _admission_reason occurrence in _retry occurrence did intent result closed
        else _save occurrence did intent answer
    end in
  sret tt.

(** The body of the loop over the devices. *)
Definition serve_device (occurrence : dict) (complete : list string) (refusal : option dict) (wave : pyval)
    (pd : Z * string) : rm unit :=
  let '(position, did) := pd in
  let oid := fieldv occurrence "id" in
  if decide (did ∈ complete) then
    let! receipt := get_receipt oid did in
    match receipt with Some r => let! _ := _acknowledge r in sret tt | None => sret tt end
  else
    let! prior := get_receipt oid did in
    let! closed := _admission_reason occurrence in
    let poll_or_finish reason status wave :=
      match prior with
      | Some p => let! _ := _poll occurrence did p (Some reason) in sret tt
      | None => let! _ := _finish_unsubmitted occurrence did None (VStr reason) status wave in sret tt
      end in
    let unsubmitted :=
      match closed, refusal with
      | Some reason, _ => if String.eqb reason "window_not_open" then sret tt else poll_or_finish reason (VStr "skipped") VNone
      | None, Some r => poll_or_finish (text_of (fieldv r "reason")) (fieldv r "status") wave
      | None, None =>
          let! m := memory_of in
          if m_remaining m <=? 0 then sret tt
          else
            let! wait := waiting occurrence did in
            if wait then sret tt else admit_device occurrence position did prior
      end in
    match prior with
    | Some p =>
        if in_strs (fieldv p "status") ["submitted"; "running"] then
          let! _ := set_position occurrence position in
          let! _ := _poll occurrence did p closed in sret tt
        else unsubmitted
    | None => unsubmitted
    end.

Fixpoint serve_all (occurrence : dict) (complete : list string) (refusal : option dict) (wave : pyval)
    (order : list (Z * string)) : rm unit :=
  match order with
  | [] => sret tt
  | pd :: order =>
      let! stop := _stopping in
      if stop then sret tt
      else let! _ := serve_device occurrence complete refusal wave pd in serve_all occurrence complete refusal wave order
  end.

(** [list(enumerate(targets))] from the position of the last pass on. *)
Definition rotated (targets : list string) (start : Z) : list (Z * string) :=
  let order := imap (fun i did => (Z.of_nat i, did)) targets in
  drop (Z.to_nat start) order ++ take (Z.to_nat start) order.

(** Forgets what memory holds of an occurrence that ended. *)
Definition forget (oid : string) (targets : list string) (m : memory) : memory :=
  let m := with_active m (set_discard oid (m_active m)) in
  let m := with_validated m (set_discard oid (m_validated m)) in
  let m := with_facts m (dpop (m_facts m) oid) in
  let m := with_position m (dpop (m_position m) oid) in
  let m := with_wave_at m (dpop (m_wave_at m) oid) in
  with_retry_at m (foldl (fun r did => kpop r (oid, did)) (m_retry_at m) targets).

(** The occurrence ends once every target has a terminal receipt. *)
Definition conclude (occurrence : dict) (refusal : option dict) : rm unit :=
  let oid := fieldv occurrence "id" in
  let targets := targets_of occurrence in
  let! finished := on_evidence (completed_device_ids oid) in
  let! m := memory_of in
  let acknowledgement_pending :=
    existsb (fun did => bool_decide ((text_of oid, did) ∈ m_pending_acknowledgements m)) targets in
  if (zlen finished =? zlen targets) && negb acknowledgement_pending then
    let first k := match refusal with Some r => [fieldv r k] | None => [] end in
    let! outcome := sfold (fun acc did =>
      let! receipt := get_receipt oid did in
      match receipt with
      | Some r => sret (fst acc ++ [fieldv r "reason"], snd acc ++ [fieldv r "status"])
      | None => lift (Err (TypeError "'NoneType' object is not subscriptable"))
      end) (first "reason", first "status") targets in
    let '(reasons, statuses) := outcome in
    let! stalled :=
      if existsb (fun r => in_strs r ["gate_unavailable"; "wave_deadline"]) reasons then sret true else _wave_held occurrence in
    let state := if (stalled : bool) then "stalled" else final_state reasons statuses in
    let! now := _now in
    let! _ := on_occurrences (occ_transition zoneinfo oid (VStr state) (VInt now) (VStr "running")) in
    modify (forget (text_of oid) targets)
  else sret tt.

Definition is_active (occurrence : dict) : bool := in_strs (fieldv occurrence "state") _ACTIVE.

Definition _process_devices (occurrence : dict) : rm unit :=
  let oid := fieldv occurrence "id" in
  if negb (is_active occurrence) then modify (fun m => with_active m (set_discard (text_of oid) (m_active m)))
  else
    let! occurrence :=
      if py_eq (fieldv occurrence "state") (VStr "running") then sret occurrence
      else
        let! now := _now in
        on_occurrences (occ_transition zoneinfo oid (VStr "running") (VInt now) (fieldv occurrence "state")) in
    let targets := targets_of occurrence in
    let! complete := on_evidence (completed_device_ids oid) in
    let! closed := _admission_reason occurrence in
    let! started :=
      match closed with
      | None =>
          if (zlen complete <? zlen targets) || (zlen targets =? 0) then check_start occurrence
          else sret (Some (None, VNone))
      | Some _ => sret (Some (None, VNone))
      end in
    match started with
    | None => sret tt
    | Some (refusal, wave) =>
        let! m := memory_of in
        let start := dget_or (m_position m) (text_of oid) 0 in
        let! _ := serve_all occurrence complete refusal wave (rotated targets start) in
        conclude occurrence refusal
    end.

(** [occurrence] is [None] when the row is gone. *)
Definition _process (occurrence : option dict) : rm unit :=
  match occurrence with
  | None => lift (Err (TypeError "'NoneType' object is not subscriptable"))
  | Some occurrence =>
      if negb (is_active occurrence) then
        modify (fun m => with_active m (set_discard (text_of (fieldv occurrence "id")) (m_active m)))
      else
        let! first := _cancel_closed occurrence [] in
        let! r := attempt (_process_devices occurrence) in
        let! last := _cancel_closed occurrence (fst first) in
        match r, snd first, snd last with
        | Err e, _, _ | Ok _, Some e, _ | Ok _, None, Some e => lift (Err e)
        | Ok _, None, None => sret tt
        end
  end.

(** ** One pass *)

Definition recover : rm (list pyval) :=
  let! m := memory_of in
  if m_recovered m then sret []
  else
    let! now := _now in
    let! recovered := on_occurrences (recover_interrupted zoneinfo (VInt now)) in
    let! rows := on_occurrences (occ_list zoneinfo None) in
    let ids := omap (fun row => if is_active (dict_or_empty row) then Some (text_of (fieldv (dict_or_empty row) "id")) else None) rows in
    let! _ := modify (fun m => with_recovered m (foldl (fun s x => set_add x s) (m_active m) ids)) in
    sret recovered.

Definition _slot (row : dict) (now : Z) : rm (option dict) :=
  let! p := on_sched (progress zoneinfo (fieldv row "id")) in
  let cursor := match p with Some p => Some (fieldv (dict_or_empty p) "last_slot") | None => None end in
  let recurring := py_eq (fieldv (sub row "when") "kind") (VStr "recurring") in
  let anchor := match cursor with None => if recurring then fieldv row "created_at" else VInt now | Some _ => VInt now end in
  let! slot := lift (occurrence_slot zoneinfo zone_of row anchor cursor) in
  sret (match slot with
    | None => None
    | Some s => Some (dset s "status" (VStr (status_of now (int_of (fieldv s "scheduled_at")) (int_of (fieldv s "window_end")))))
    end).

(** [list(v)] *)
Definition list_of (v : pyval) : res (list pyval) :=
  match v with
  | VList l => Ok l
  | VStr s => Ok (map (fun c => VStr (string_of [c])) (bytes_of s))
  | VDict d => Ok (map VStr (dkeys d))
  | _ => Err (TypeError "object is not iterable")
  end.

(** The target frozen into the claim. *)
Definition bound_snapshot (row facts : dict) : res dict :=
  let* revision := item (VDict facts) "revision" in
  let* at_ := item (VDict facts) "now" in
  let* found := item (VDict facts) "device_ids" in
  let bound := if py_eq (fieldv (sub row "target") "bind") (VStr "early") then fieldv (sub row "preview") "device_ids" else found in
  let* ids := list_of bound in
  let* bindings :=
    match fieldv facts "registration_ids" with
    | VDict b =>
        let* pairs := res_map (fun i => match i with VStr d => Ok (d, fieldv b d) | _ => Err (TypeError "device id is no string") end) ids in
        Ok [("registration_ids", VDict (foldl (fun m kv => dset m (fst kv) (snd kv)) [] pairs))]
    | _ => Ok []
    end in
  normalize_snapshot (VDict ([("revision", revision); ("now", at_); ("device_ids", VList ids)] ++ bindings)).

Definition claim_slot (row slot : dict) (snapshot : pyval) : rm dict :=
  let! now := _now in
  on_sched (claim_occurrence zoneinfo zone_of (fieldv row "id") (fieldv row "rev") (fieldv row "generation") (VDict slot) snapshot (VInt now)).

Definition _claim (row slot : dict) : rm dict :=
  let! oid := lift (occurrence_id row (fieldv slot "scheduled_at")) in
  let! existing := get_occurrence (VStr oid) in
  match existing with
  | Some e => claim_slot row slot (fieldv e "target_snapshot")
  | None =>
      let! now := _now in
      if int_of (fieldv slot "window_end") <=? now then claim_slot row slot VNone
      else
        let! _ := call (o_role_guard o row) in
        let! facts := call (o_resolve_target o row) in
        match facts with
        | VDict facts =>
            let! snapshot := lift (bound_snapshot row facts) in
            let! now := _now in
            let snapshot := if int_of (fieldv slot "window_end") <=? now then VNone else VDict snapshot in
            let! claimed := claim_slot row slot snapshot in
            let! _ :=
              if is_active claimed then
                modify (fun m => with_facts m (dset (m_facts m) (text_of (fieldv claimed "id"))
                  (dupdate facts (sub claimed "target_snapshot"))))
              else sret tt in
            sret claimed
        | _ => lift (Err (TypeError "target facts are no object"))
        end
  end.

(** The heap of slots, by time then by schedule id; ids occur once. *)
Definition entry : Type := (Z * string * dict * dict).
Definition entry_leb (a b : entry) : bool :=
  let '(s, i, _, _) := a in let '(t, j, _, _) := b in (s <? t) || ((s =? t) && str_leb i j).
Fixpoint heappush (x : entry) (l : list entry) : list entry :=
  match l with
  | [] => [x]
  | y :: l => if entry_leb x y then x :: y :: l else y :: heappush x l
  end.

Definition push_slot (row : dict) (pending : list entry) (now : Z) : rm (list entry) :=
  let! slot := _slot row now in
  sret (match slot with
    | Some s => heappush (int_of (fieldv s "scheduled_at"), text_of (fieldv row "id"), row, s) pending
    | None => pending
    end).

Fixpoint claim_loop (budget : nat) (pending : list entry) (errors : list pyexn) : rm (list entry * list pyexn) :=
  match pending with
  | [] => sret (pending, errors)
  | (at_, _, row, slot) :: rest =>
      let! now := _now in
      if now <? at_ then sret (pending, errors)
      else
        match budget with
        | O => sret (pending, errors)
        | S budget =>
            let! stop := _stopping in
            if stop then sret (pending, errors)
            else
              let! r := attempt (_claim row slot) in
              match r with
              | Err e => claim_loop budget rest (if is_conflict e then errors else errors ++ [e])
              | Ok claimed =>
                  let! _ :=
                    if is_active claimed then
                      modify (fun m => with_active m (set_add (text_of (fieldv claimed "id")) (m_active m)))
                    else sret tt in
                  let! current := get_schedule (fieldv row "id") in
                  match current with
                  | None => claim_loop budget rest errors
                  | Some current =>
                      let! now := _now in
                      let! pending := push_slot current rest now in
                      claim_loop budget pending errors
                  end
              end
        end
  end.

(** First service follows the earliest due order, later passes rotate. *)
Definition kept_order (service_order active : list string) : list string := filter (fun oid => oid ∈ active) service_order.
Definition rotate {A} (l : list A) : list A := drop 1 l ++ take 1 l.

Definition new_order (active known : list string) : rm (list string) :=
  let! keyed := sfold (fun acc oid =>
    let! row := get_occurrence (VStr oid) in
    match row with
    | Some r => sret (acc ++ [(int_of (fieldv r "scheduled_at"), oid)])
    | None => lift (Err (TypeError "'NoneType' object is not subscriptable"))
    end) [] (filter (fun oid => oid ∉ known) active) in
  sret (map snd (sort_by (fun a b => (fst a <? fst b) || ((fst a =? fst b) && str_leb (snd a) (snd b))) keyed)).

(** The errors of the occurrences are collected, none stops the others. *)
Fixpoint serve_active (order : list string) (errors : list pyexn) : rm (list pyexn) :=
  match order with
  | [] => sret errors
  | oid :: order =>
      let! stop := _stopping in
      if stop then sret errors
      else
        let! r := attempt (let! occurrence := get_occurrence (VStr oid) in _process occurrence) in
        serve_active order (match r with Ok _ => errors | Err e => errors ++ [e] end)
  end.

Definition _pass : rm pyfloat :=
  let! now := _now in
  let! rows := on_sched (sched_list zoneinfo) in
  let! pending := sfold (fun pending row => push_slot (dict_or_empty row) pending now) [] rows in
  let! loop := claim_loop (max_claims cfg) pending [] in
  let '(pending, errors) := loop in
  let! _ := modify (fun m => with_remaining m (max_dispatches cfg)) in
  let! m := memory_of in
  let known := kept_order (m_service_order m) (m_active m) in
  let! fresh := new_order (m_active m) known in
  let order := known ++ fresh in
  let! _ := modify (fun m => with_order m (rotate order)) in
  let! errors := serve_active order errors in
  match errors with
  | e :: _ => lift (Err e)
  | [] =>
      let! m := memory_of in
      let delay := match m_active m with [] => idle_recheck cfg | _ => poll_interval cfg end in
      match pending with
      | [] => sret delay
      | (at_, _, _, _) :: _ => let! now := _now in sret (py_min delay (py_max hundredth (FFin (at_ - now) 0)))
      end
  end.

(** A pass, guarded: an error is reported and backs off, and never ends the thread. *)
Definition run_once : rm pyfloat :=
  let! stop := _stopping in
  if stop then sret (idle_recheck cfg)
  else
    let! r := attempt (let! _ := recover in _pass) in
    match r with
    | Ok delay =>
        let! _ := modify (fun m => with_error m None 0) in
        sret (py_max hundredth (py_min (idle_recheck cfg) delay))
    | Err exc =>
        let reason := match exc with ExecutionRefused r => r | _ => "schedule_runner_error" end in
        let! _ := modify (fun m => with_error m (Some reason) (Z.min (m_failures m + 1) 10)) in
        let! _ := match o_error_fn o with Some report => attempt (call (report reason)) | None => sret (Ok tt) end in
        let! m := memory_of in
        sret (py_min (idle_recheck cfg) (times_power (poll_interval cfg) (m_failures m - 1)))
    end.
End runner.

(** ** A runner over the weekly schedule

    The clock advances by a second with each reading, the executor queues a job on
    dispatch and reports it done when polled. *)

Definition answer {X} (x : X) : ext (T:=kstate) (E:=Z) X := sret x.

Definition ticking : outside (T:=kstate) (E:=Z) := Outside
  (fun e => (Ok (VInt (fst e)), (fst e + 1, snd e)))
  (fun e => (false, e))
  (fun _ => answer tt)
  (fun _ => answer weekly_snapshot)
  (fun _ _ => answer VNone)
  (fun _ _ _ _ => answer (VDict [("status", VStr "submitted"); ("reason", VStr "queued"); ("job_id", VStr "job-1")]))
  (fun _ => answer (VDict [("status", VStr "ok"); ("reason", VStr "staged")]))
  (fun _ _ => answer tt) None (Some (fun _ => answer tt)) None.

(** The defaults of the constructor. *)
Definition default_config : config := Config (FFin 30 0) (FFin 1 0) (FFin 15 0) 32 100.

(** The schedule is created a little before its slot. *)
Definition fresh_schedule : sched (T:=kstate) :=
  snd (create any_zone (VStr "weekly") (VDict weekly) (VStr "api:ops") (VInt (int_of weekly_at - 100)) weekly_snapshot
    weekly_generation empty_sched).

Definition start_world : world (T:=kstate) (E:=Z) :=
  World (int_of weekly_at + 5) fresh_schedule (fun _ => empty_store) init_memory 0 [].

Definition sample_pass : world (T:=kstate) (E:=Z) -> res pyfloat * world (T:=kstate) (E:=Z) :=
  run_once any_zone (fun _ => spring_zone) ticking default_config.

Definition sample_oid : string := "f60567ed19bc1645c805aed721c4165a".
Definition sample_state (w : world (T:=kstate) (E:=Z)) : pyval :=
  match fst (get_occurrence any_zone (VStr sample_oid) w) with Ok (Some r) => fieldv r "state" | _ => VNone end.

(** The first pass claims the slot and admits the device, the second one finds the job
    done and completes the occurrence. *)
Example two_passes :
  let w1 := snd (sample_pass start_world) in
  let w2 := snd (sample_pass w1) in
  fst (sample_pass start_world) = Ok (FFin 1 0) /\ sample_state w1 = VStr "running" /\ m_active (w_mem w1) = [sample_oid] /\
  map (fun c => (d_device c, fieldv (d_intent c) "status")) (w_calls w1) = [("edge-1", VStr "intent")] /\
  fst (sample_pass w1) = Ok (FFin 30 0) /\ sample_state w2 = VStr "completed" /\ m_active (w_mem w2) = [].
Proof. vm_compute. split_and!; reflexivity. Qed.
