(* ===== verification/RunnerTotal.v ===== *)
(** * The runner never stops, and never overspends

    What holds of a pass whatever the outside does and whatever the files contain: it
    returns, the wait it asks for is positive and bounded, it admits at most the
    budgeted number of devices, and no active occurrence waits for ever for its turn
    to be served first. *)
From S2P Require Import Prelude PyVal JsonDump PolicyDoc Sha256 KeyedState KeyedSpec SchedDoc SchedValid SchedTime SchedTimeSpec SchedStore SchedOps WaveGate SchedSpec OccSpec SchedClaim SchedReceipt SchedRunner.

(** ** Relations kept by a computation *)

(** [R] relates the state before and after, whether it returned or raised. *)
Definition keeps {S X} (R : S -> S -> Prop) (m : sm S X) : Prop := forall s r s', m s = (r, s') -> R s s'.

Section keeps.
Context {S : Type} (R : S -> S -> Prop) `{!PreOrder R}.

Lemma keeps_ret {X} (x : X) : keeps R (sret x).
Proof. by intros s r s' [= _ <-]. Qed.
Lemma keeps_lift {X} (r : res X) : keeps R (lift r).
Proof. by intros s r' s' [= _ <-]. Qed.
Lemma keeps_bind {X Y} (m : sm S X) (f : X -> sm S Y) : keeps R m -> (forall x, keeps R (f x)) -> keeps R (sbind m f).
Proof.
  intros Hm Hf s r s' H. unfold sbind in H. destruct (m s) as [[x | e] s1] eqn:E.
  - etrans; [exact (Hm _ _ _ E) | exact (Hf _ _ _ _ H)].
  - injection H as _ <-. exact (Hm _ _ _ E).
Qed.
Lemma keeps_sfold {A B} (f : B -> A -> sm S B) b l : (forall b a, keeps R (f b a)) -> keeps R (sfold f b l).
Proof.
  intros Hf. revert b. induction l as [| a l IH]; intros b; cbn [sfold]; [apply keeps_ret |]. apply keeps_bind; [apply Hf | done].
Qed.
End keeps.

Lemma keeps_weaken {S X} (R R' : S -> S -> Prop) (m : sm S X) : (forall s s', R s s' -> R' s s') -> keeps R m -> keeps R' m.
Proof. intros H Hm s r s' E. exact (H _ _ (Hm _ _ _ E)). Qed.

Create HintDb keeps discriminated.

(** Walks over a computation; what it cannot split is a leaf. *)
Ltac keeps_walk :=
  repeat match goal with
  | |- keeps _ (sbind _ _) => apply keeps_bind; [first [typeclasses eauto | assumption] | | intros ?]
  | |- keeps _ (if ?b then _ else _) => destruct b
  | |- keeps _ (match ?x with _ => _ end) => destruct x
  end; try solve [eauto 2 with keeps nocore].

Section runner.
Context (zoneinfo : string -> res unit) (zone_of : string -> zone).
Context {T : Type} `{RR : RowStore T (row_valid zoneinfo)} `{RP : RowStore T _progress_valid} `{RF : RowStore T _retired_valid}
  `{RO : RowStore T (_validate_occurrence zoneinfo)} {RC : forall identifier, RowStore T (receipt_valid identifier)}.
Context {E : Type} (o : outside (T:=T) (E:=E)) (cfg : config).
#[local] Abbreviation world := (world (T:=T) (E:=E)).

(** ** What most of the runner leaves alone *)

Record same (w w' : world) : Prop := Same {
  same_calls : w_calls w' = w_calls w;
  same_remaining : m_remaining (w_mem w') = m_remaining (w_mem w);
  same_failures : m_failures (w_mem w') = m_failures (w_mem w);
  same_order : m_service_order (w_mem w') = m_service_order (w_mem w) }.

#[local] Instance same_preorder : PreOrder same.
Proof. split; [done |]. intros w1 w2 w3 [A B C D] [A' B' C' D']. split; congruence. Qed.

#[local] Abbreviation frame := (keeps same).

Lemma frame_ret {X} (x : X) : frame (sret x). Proof. apply keeps_ret; typeclasses eauto. Qed.
Lemma frame_lift {X} (r : res X) : frame (lift r). Proof. apply keeps_lift; typeclasses eauto. Qed.
Lemma frame_call {X} (op : ext X) : frame (call op).
Proof. intros w r w'. unfold call, zoom. destruct (op (outer w)) as [r1 o1]. by intros [= _ <-]. Qed.
Lemma frame_sched {X} (m : sm (sched (T:=T)) X) : frame (on_sched m).
Proof. intros w r w'. unfold on_sched, zoom. destruct (m (w_sched w)) as [r1 s1]. by intros [= _ <-]. Qed.
Lemma frame_evidence {X} (m : sm (evidence (T:=T)) X) : frame (on_evidence m).
Proof. intros w r w'. unfold on_evidence, zoom. destruct (m (evidence_of w)) as [r1 s1]. by intros [= _ <-]. Qed.
Lemma frame_memory : frame (memory_of (T:=T) (E:=E)).
Proof. intros w r w' [= _ <-]. reflexivity. Qed.
Lemma frame_modify (f : memory -> memory) :
  (forall m, m_remaining (f m) = m_remaining m /\ m_failures (f m) = m_failures m /\ m_service_order (f m) = m_service_order m) ->
  frame (modify (T:=T) (E:=E) f).
Proof. intros Hf w r w' [= _ <-]. destruct (Hf (w_mem w)) as (? & ? & ?). by split. Qed.
Lemma frame_attempt {X} (m : rm X) : frame m -> frame (attempt m).
Proof. intros Hm w r w' H. unfold attempt in H. destruct (m w) as [r1 w1] eqn:E1. injection H as _ <-. exact (Hm _ _ _ E1). Qed.
Lemma frame_occurrences {X} (m : sm T X) : frame (on_occurrences (E:=E) m).
Proof. apply frame_evidence. Qed.

#[local] Hint Resolve frame_ret frame_lift frame_call frame_sched frame_evidence frame_memory frame_attempt frame_occurrences : keeps.
#[local] Hint Extern 1 (keeps same (modify _)) => apply frame_modify; intros; split_and!; reflexivity : keeps.

Lemma frame_now : frame (_now o).
Proof. unfold _now. keeps_walk. intros w r w' [= _ <-]. done. Qed.
Lemma frame_stopping : frame (_stopping o).
Proof. intros w r w'. unfold _stopping. destruct (o_stopping o (outer w)). by intros [= _ <-]. Qed.
#[local] Hint Resolve frame_now frame_stopping : keeps.

Lemma frame_get_receipt oid did : frame (get_receipt (E:=E) oid did). Proof. unfold get_receipt. keeps_walk. Qed.
Lemma frame_get_occurrence oid : frame (get_occurrence zoneinfo (E:=E) oid). Proof. unfold get_occurrence. keeps_walk. Qed.
Lemma frame_get_schedule sid : frame (get_schedule zoneinfo (E:=E) sid). Proof. unfold get_schedule. keeps_walk. Qed.
#[local] Hint Resolve frame_get_receipt frame_get_occurrence frame_get_schedule : keeps.

Lemma frame_acknowledge r : frame (_acknowledge o r). Proof. unfold _acknowledge. keeps_walk. Qed.
#[local] Hint Resolve frame_acknowledge : keeps.
Lemma frame_save occ did prior result : frame (_save zoneinfo o cfg occ did prior result). Proof. unfold _save. keeps_walk. Qed.
Lemma frame_finish occ did prior reason status wave : frame (_finish_unsubmitted zoneinfo o occ did prior reason status wave).
Proof. unfold _finish_unsubmitted. keeps_walk. Qed.
#[local] Hint Resolve frame_save frame_finish : keeps.
Lemma frame_retry occ did prior result closed : frame (_retry zoneinfo o cfg occ did prior result closed). Proof. unfold _retry. keeps_walk. Qed.
Lemma frame_waiting occ did : frame (waiting o occ did). Proof. unfold waiting. keeps_walk. Qed.
#[local] Hint Resolve frame_retry frame_waiting : keeps.
Lemma frame_poll occ did prior closed : frame (_poll zoneinfo o cfg occ did prior closed). Proof. unfold _poll. keeps_walk. Qed.
Lemma frame_closed occ : frame (_closed_reason zoneinfo o occ). Proof. unfold _closed_reason. keeps_walk. Qed.
#[local] Hint Resolve frame_poll frame_closed : keeps.
Lemma frame_admission occ : frame (_admission_reason zoneinfo o occ).
Proof. unfold _admission_reason. keeps_walk. apply frame_attempt. keeps_walk. Qed.
Lemma frame_wave_record occ counted : frame (_wave_record o occ counted). Proof. unfold _wave_record. keeps_walk. Qed.
Lemma frame_stored_wave oid : frame (stored_wave zoneinfo (E:=E) oid). Proof. unfold stored_wave. keeps_walk. Qed.
#[local] Hint Resolve frame_admission frame_wave_record frame_stored_wave : keeps.
Lemma frame_wave_evaluate occ after stored expired counter : frame (wave_evaluate zoneinfo o occ after stored expired counter).
Proof. unfold wave_evaluate. keeps_walk. Qed.
#[local] Hint Resolve frame_wave_evaluate : keeps.
Lemma frame_wave occ : frame (_wave zoneinfo o cfg occ). Proof. unfold _wave. keeps_walk. Qed.
Lemma frame_wave_held occ : frame (_wave_held zoneinfo (E:=E) occ). Proof. unfold _wave_held. keeps_walk. Qed.
#[local] Hint Resolve frame_wave frame_wave_held : keeps.
Lemma frame_owned occ : frame (owned_jobs (E:=E) occ).
Proof. unfold owned_jobs. apply keeps_sfold; [typeclasses eauto |]. intros l did. keeps_walk. Qed.
#[local] Hint Resolve frame_owned : keeps.

Lemma frame_cancel occ attempted : frame (_cancel_closed zoneinfo o occ attempted).
Proof.
  intros w r w'. unfold _cancel_closed. set (look := sbind _ _).
  assert (Hl : frame look) by (unfold look; keeps_walk). destruct (look w) as [[[owned |] |] w1] eqn:El; apply Hl in El.
  - destruct (filter _ owned) as [| j js]; [by intros [= _ <-] |].
    destruct (call _ w1) as [r2 w2] eqn:Ec. intros [= _ <-]. etrans; [exact El | exact (frame_call _ _ _ _ Ec)].
  - by intros [= _ <-].
  - by intros [= _ <-].
Qed.

Lemma frame_validate occ : frame (validate_start o occ). Proof. unfold validate_start. keeps_walk. Qed.
#[local] Hint Resolve frame_cancel frame_validate : keeps.
Lemma frame_check_start occ : frame (check_start zoneinfo o cfg occ). Proof. unfold check_start. keeps_walk. Qed.
Lemma frame_position occ position : frame (set_position (T:=T) (E:=E) occ position). Proof. unfold set_position. keeps_walk. Qed.
Lemma frame_conclude occ refusal : frame (conclude zoneinfo o occ refusal).
Proof.
  unfold conclude. keeps_walk. apply keeps_sfold; [typeclasses eauto |]. intros acc did. keeps_walk.
Qed.
#[local] Hint Resolve frame_check_start frame_position frame_conclude : keeps.
Lemma frame_recover : frame (recover zoneinfo o). Proof. unfold recover. keeps_walk. Qed.
Lemma frame_slot row now : frame (_slot zoneinfo zone_of (E:=E) row now). Proof. unfold _slot. keeps_walk. Qed.
Lemma frame_claim_slot row slot snapshot : frame (claim_slot zoneinfo zone_of o row slot snapshot). Proof. unfold claim_slot. keeps_walk. Qed.
#[local] Hint Resolve frame_recover frame_slot frame_claim_slot : keeps.
Lemma frame_claim row slot : frame (_claim zoneinfo zone_of o row slot). Proof. unfold _claim. keeps_walk. Qed.
Lemma frame_push row pending now : frame (push_slot zoneinfo zone_of (E:=E) row pending now). Proof. unfold push_slot. keeps_walk. Qed.
#[local] Hint Resolve frame_claim frame_push : keeps.
Lemma frame_claim_loop budget pending errors : frame (claim_loop zoneinfo zone_of o budget pending errors).
Proof.
  revert pending errors. induction budget as [| budget IH]; intros [| [[[at_ i] row] slot] rest] errors; cbn [claim_loop]; keeps_walk; apply IH.
Qed.
Lemma frame_new_order active known : frame (new_order zoneinfo (E:=E) active known).
Proof. unfold new_order. keeps_walk. apply keeps_sfold; [typeclasses eauto |]. intros acc oid. keeps_walk. Qed.
#[local] Hint Resolve frame_claim_loop frame_new_order : keeps.

(** ** The budget *)

(** Each call of [dispatch] is paid for. *)
Record spends (w w' : world) : Prop := Spends {
  sp_failures : m_failures (w_mem w') = m_failures (w_mem w);
  sp_calls : exists new, w_calls w' = w_calls w ++ new;
  sp_paid : zlen (w_calls w') + m_remaining (w_mem w') <= zlen (w_calls w) + m_remaining (w_mem w);
  sp_left : 0 <= m_remaining (w_mem w) -> 0 <= m_remaining (w_mem w');
  sp_order : m_service_order (w_mem w') = m_service_order (w_mem w) }.

#[local] Instance spends_preorder : PreOrder spends.
Proof.
  split.
  - intros w. split; [done | exists []; by rewrite app_nil_r | lia | done | done].
  - intros w1 w2 w3 [A (n1 & B) C D F] [A' (n2 & B') C' D' F']. split; [congruence | | lia | auto | congruence].
    exists (n1 ++ n2). by rewrite B', B, app_assoc.
Qed.

Lemma same_spends w w' : same w w' -> spends w w'.
Proof. intros [A B C D]. split; [done | exists []; by rewrite app_nil_r | rewrite A, B; lia | by rewrite B | done]. Qed.

Lemma spend_frame {X} (m : rm X) : frame m -> keeps spends m.
Proof. apply keeps_weaken, same_spends. Qed.

#[local] Hint Extern 5 (keeps spends _) => apply spend_frame : keeps.

(** At most one call of [dispatch], nothing else that counts. *)
Definition once (w w' : world) : Prop :=
  m_failures (w_mem w') = m_failures (w_mem w) /\ m_remaining (w_mem w') = m_remaining (w_mem w) /\
  m_service_order (w_mem w') = m_service_order (w_mem w) /\ exists new, w_calls w' = w_calls w ++ new /\ zlen new <= 1.

Lemma same_once w w' : same w w' -> once w w'.
Proof. intros [A B C D]. do 3 (split; [done |]). exists []. by rewrite app_nil_r. Qed.

Lemma once_after {X Y} (m : rm X) (f : X -> rm Y) : frame m -> (forall x, keeps once (f x)) -> keeps once (sbind m f).
Proof.
  intros Hm Hf w r w' H. unfold sbind in H. destruct (m w) as [[x | e] w1] eqn:E1; apply Hm in E1.
  - destruct E1 as [A B C D], (Hf _ _ _ _ H) as (A' & B' & F' & new & C' & D'). do 3 (split; [congruence |]).
    exists new. by rewrite C', A.
  - injection H as _ <-. by apply same_once.
Qed.

Lemma once_before {X Y} (m : rm X) (f : X -> rm Y) : keeps once m -> (forall x, frame (f x)) -> keeps once (sbind m f).
Proof.
  intros Hm Hf w r w' H. unfold sbind in H. destruct (m w) as [[x | e] w1] eqn:E1; apply Hm in E1.
  - destruct E1 as (A' & B' & F' & new & C' & D'), (Hf _ _ _ _ H) as [A B C D]. do 3 (split; [congruence |]).
    exists new. by rewrite A, C'.
  - by injection H as _ <-.
Qed.

Lemma dispatch_once schedule occ did intent : keeps once (dispatch o schedule occ did intent).
Proof.
  intros w r w' H. unfold dispatch in H. apply frame_call in H as [A B C D]. do 3 (split; [done |]).
  rewrite A. cbn. eexists. split; [done |]. done.
Qed.

(** A device is admitted only against a positive budget. *)
Lemma admit_spends occ position did prior w r w' :
  0 < m_remaining (w_mem w) -> admit_device zoneinfo o cfg occ position did prior w = (r, w') -> spends w w'.
Proof.
  intros Hpos H. unfold admit_device in H. unfold sbind at 1 in H. cbn [modify] in H.
  set (w1 := World _ _ _ _ _ _) in H. set (rest := sbind (set_position _ _) _) in H.
  assert (Hrest : keeps once rest).
  { unfold rest. apply once_after; [apply frame_position | intros _].
    apply once_after; [destruct prior; keeps_walk | intros intent]. apply once_after; [apply frame_admission | intros closed].
    apply once_before; [| intros; apply frame_ret]. destruct closed as [reason |].
    - apply (keeps_weaken same); [exact same_once |]. destruct prior; keeps_walk.
    - apply once_before; [apply dispatch_once | intros answer; keeps_walk]. }
  destruct (Hrest _ _ _ H) as (A & B & F & new & C & D). split; [| | | | exact F].
  - exact A.
  - by exists new.
  - rewrite C, B. cbn. rewrite zlen_app. lia.
  - rewrite B. cbn. lia.
Qed.

(** [if self._remaining <= 0 or ...: continue] *)
Lemma budgeted_spends occ position did prior :
  keeps spends (let! m := memory_of (T:=T) (E:=E) in
    if m_remaining m <=? 0 then sret tt
    else let! wait := waiting o occ did in
         if wait then sret tt else admit_device zoneinfo o cfg occ position did prior)%py.
Proof.
  intros w r w' H. unfold sbind at 1 in H. cbn [memory_of] in H.
  destruct (m_remaining (w_mem w) <=? 0) eqn:E0; [by injection H as _ <- |]. apply Z.leb_gt in E0.
  unfold sbind in H. destruct (waiting o occ did w) as [[[] | e] w1] eqn:E1; apply frame_waiting in E1;
    [injection H as _ <-; by apply same_spends | | injection H as _ <-; by apply same_spends].
  etrans; [by apply same_spends |]. eapply admit_spends; [| exact H]. by rewrite (same_remaining _ _ E1).
Qed.

Lemma serve_device_spends occ complete refusal wave pd : keeps spends (serve_device zoneinfo o cfg occ complete refusal wave pd).
Proof.
  destruct pd as [position did]. unfold serve_device. destruct (decide (did ∈ complete)).
  { apply spend_frame. keeps_walk. }
  apply keeps_bind; [typeclasses eauto | apply spend_frame, frame_get_receipt | intros prior].
  apply keeps_bind; [typeclasses eauto | apply spend_frame, frame_admission | intros closed].
  pose proof (budgeted_spends occ position did) as Hb.
  destruct prior as [p |]; [destruct (in_strs _ _); [apply spend_frame; keeps_walk |] |];
    (destruct closed as [reason |]; [apply spend_frame; keeps_walk |]);
    (destruct refusal; [apply spend_frame; keeps_walk | apply Hb]).
Qed.

Lemma serve_all_spends occ complete refusal wave order : keeps spends (serve_all zoneinfo o cfg occ complete refusal wave order).
Proof.
  induction order as [| pd order IH]; cbn [serve_all]; [apply spend_frame, frame_ret |].
  apply keeps_bind; [typeclasses eauto | apply spend_frame, frame_stopping | intros []]; [apply spend_frame, frame_ret |].
  apply keeps_bind; [typeclasses eauto | apply serve_device_spends | done].
Qed.
#[local] Hint Resolve serve_all_spends : keeps.

Lemma attempt_spends {X} (m : rm X) : keeps spends m -> keeps spends (attempt m).
Proof. intros Hm w r w' H. unfold attempt in H. destruct (m w) as [r1 w1] eqn:E1. injection H as _ <-. exact (Hm _ _ _ E1). Qed.

Lemma process_devices_spends occ : keeps spends (_process_devices zoneinfo o cfg occ).
Proof.
  unfold _process_devices. destruct (negb _); [apply spend_frame; keeps_walk |].
  apply keeps_bind; [typeclasses eauto | apply spend_frame; keeps_walk | intros occ'].
  apply keeps_bind; [typeclasses eauto | apply spend_frame; keeps_walk | intros complete].
  apply keeps_bind; [typeclasses eauto | apply spend_frame; keeps_walk | intros closed].
  apply keeps_bind; [typeclasses eauto | apply spend_frame; keeps_walk | intros [[refusal wave] |]]; [| apply spend_frame; keeps_walk].
  apply keeps_bind; [typeclasses eauto | apply spend_frame; keeps_walk | intros m].
  apply keeps_bind; [typeclasses eauto | apply serve_all_spends | intros _]. apply spend_frame; keeps_walk.
Qed.

Lemma process_spends occ : keeps spends (_process zoneinfo o cfg occ).
Proof.
  unfold _process. destruct occ as [occ |]; [| apply spend_frame, frame_lift]. destruct (negb _); [apply spend_frame; keeps_walk |].
  apply keeps_bind; [typeclasses eauto | apply spend_frame, frame_cancel | intros first].
  apply keeps_bind; [typeclasses eauto | apply attempt_spends, process_devices_spends | intros r].
  apply keeps_bind; [typeclasses eauto | apply spend_frame, frame_cancel | intros last]. apply spend_frame. keeps_walk.
Qed.

Lemma serve_active_spends order errors : keeps spends (serve_active zoneinfo o cfg order errors).
Proof.
  revert errors. induction order as [| oid order IH]; intros errors; cbn [serve_active]; [apply spend_frame, frame_ret |].
  apply keeps_bind; [typeclasses eauto | apply spend_frame, frame_stopping | intros []]; [apply spend_frame, frame_ret |].
  apply keeps_bind; [typeclasses eauto | | intros r; apply IH]. apply attempt_spends.
  apply keeps_bind; [typeclasses eauto | apply spend_frame, frame_get_occurrence | intros occ; apply process_spends].
Qed.

(** ** A whole pass *)

(** The devices admitted in a pass fit its budget. *)
Record limited (w w' : world) : Prop := Limited {
  lm_failures : m_failures (w_mem w') = m_failures (w_mem w);
  lm_calls : exists new, w_calls w' = w_calls w ++ new /\ zlen new <= max_dispatches cfg }.

Lemma same_limited w w' : 0 <= max_dispatches cfg -> same w w' -> limited w w'.
Proof. intros Hm [A B C D]. split; [done |]. exists []. by rewrite app_nil_r. Qed.

Lemma limited_after {X Y} (m : rm X) (f : X -> rm Y) :
  0 <= max_dispatches cfg -> frame m -> (forall x, keeps limited (f x)) -> keeps limited (sbind m f).
Proof.
  intros Hd Hm Hf w r w' H. unfold sbind in H. destruct (m w) as [[x | e] w1] eqn:E1; apply Hm in E1.
  - destruct E1 as [A B C D], (Hf _ _ _ _ H) as [A' B']. split; [congruence | by rewrite <- A].
  - injection H as _ <-. by apply same_limited.
Qed.

Lemma new_order_perm active known w l w' :
  new_order zoneinfo (E:=E) active known w = (Ok l, w') -> l ≡ₚ filter (fun x => x ∉ known) active.
Proof.
  unfold new_order. intros H. apply sbind_inv in H as (keyed & w1 & E1 & H). injection H as <- _.
  transitivity (map snd keyed); [apply Permutation_map, sort_by_perm |].
  revert w E1. set (l0 := filter _ active). assert (Hgen : forall l0 acc w, sfold (fun acc oid =>
      let! row := get_occurrence zoneinfo (E:=E) (VStr oid) in
      match row with
      | Some r => sret (acc ++ [(int_of (fieldv r "scheduled_at"), oid)])
      | None => lift (Err (TypeError "'NoneType' object is not subscriptable"))
      end)%py acc l0 w = (Ok keyed, w1) -> map snd keyed = map snd acc ++ l0).
  { clear. induction l0 as [| oid l0 IH]; intros acc w H; cbn [sfold] in H; [injection H as -> _; by rewrite app_nil_r |].
    apply sbind_inv in H as (acc1 & w2 & E2 & H). apply sbind_inv in E2 as ([r |] & w3 & E3 & E2); [| done].
    injection E2 as <- <-. rewrite (IH _ _ H), map_app. cbn. by rewrite <- app_assoc. }
  intros w E1. by rewrite (Hgen _ _ _ E1).
Qed.

Lemma pass_limited : 0 <= max_dispatches cfg -> keeps limited (_pass zoneinfo zone_of o cfg).
Proof.
  intros Hd. unfold _pass. apply limited_after; [done | apply frame_now | intros now].
  apply limited_after; [done | apply frame_sched | intros rows].
  apply limited_after; [done | apply keeps_sfold; [typeclasses eauto | intros; apply frame_push] | intros pending].
  apply limited_after; [done | apply frame_claim_loop | intros [pending' errors]].
  intros w r w' H. unfold sbind at 1 in H. cbn [modify] in H. set (w1 := World _ _ _ _ _ _) in H.
  unfold sbind at 1 in H. cbn [memory_of] in H. set (known := kept_order _ _) in H.
  unfold sbind at 1 in H. destruct (new_order zoneinfo (m_active (w_mem w1)) known w1) as [[fresh | e] w2] eqn:E1.
  2:{ injection H as _ <-. apply frame_new_order in E1 as [A B C D]. split; [done |]. exists []. by rewrite app_nil_r. }
  apply frame_new_order in E1 as [A B C D].
  unfold sbind at 1 in H. cbn [modify] in H. set (w3 := World _ _ _ _ _ _) in H.
  match type of H with sbind ?m ?f ?w0 = _ => assert (Hrest : keeps spends (sbind m f)) end.
  { apply keeps_bind; [typeclasses eauto | apply serve_active_spends | intros [| e errs]]; apply spend_frame; keeps_walk. }
  destruct (Hrest _ _ _ H) as [A' (new & B') C' D' F']. cbn in A', B', C', D', F'. rewrite A in B', C'. rewrite B in C', D'.
  rewrite C in A'. cbn in A', B', C', D'. split; [done |].
  exists new. split; [done |]. rewrite B', zlen_app in C'. specialize (D' Hd). lia.
Qed.

Lemma recover_pass_limited :
  0 <= max_dispatches cfg -> keeps limited (let! _ := recover zoneinfo o in _pass zoneinfo zone_of o cfg)%py.
Proof. intros Hd. apply limited_after; [done | apply frame_recover | intros _; by apply pass_limited]. Qed.

(** ** The service of a pass *)

(** A pass up to the start of its service: what is still pending, the errors so far, the
    active occurrences and the order in which they are served. *)
Definition pass_plan : rm (list entry * list pyexn * list string * list string) :=
  (let! now := _now o in
   let! rows := on_sched (sched_list zoneinfo) in
   let! pending := sfold (fun pending row => push_slot zoneinfo zone_of (dict_or_empty row) pending now) [] rows in
   let! loop := claim_loop zoneinfo zone_of o (max_claims cfg) pending [] in
   let! _ := modify (fun m => with_remaining m (max_dispatches cfg)) in
   let! m := memory_of in
   let known := kept_order (m_service_order m) (m_active m) in
   let! fresh := new_order zoneinfo (m_active m) known in
   let! _ := modify (fun m => with_order m (rotate (known ++ fresh))) in
   sret (fst loop, snd loop, m_active m, known ++ fresh))%py.

(** The rest of the pass. *)
Definition pass_rest (pending : list entry) (order : list string) (errors : list pyexn) : rm pyfloat :=
  (let! errors := serve_active zoneinfo o cfg order errors in
   match errors with
   | e :: _ => lift (Err e)
   | [] =>
       let! m := memory_of in
       let delay := match m_active m with [] => idle_recheck cfg | _ => poll_interval cfg end in
       match pending with
       | [] => sret delay
       | (at_, _, _, _) :: _ => let! now := _now o in sret (py_min delay (py_max hundredth (FFin (at_ - now) 0)))
       end
   end)%py.

Lemma pass_planned w : _pass zoneinfo zone_of o cfg w =
  match pass_plan w with (Ok (pending, errors, _, order), w1) => pass_rest pending order errors w1 | (Err e, w1) => (Err e, w1) end.
Proof.
  unfold _pass, pass_plan, sbind. destruct (_now o w) as [[now |] w1]; [| done]. destruct (on_sched _ w1) as [[rows |] w2]; [| done].
  destruct (sfold _ _ _ w2) as [[pending |] w3]; [| done]. destruct (claim_loop _ _ _ _ _ _ w3) as [[[pending' errors] |] w4]; [| done].
  cbn [modify memory_of fst snd]. destruct (new_order _ _ _ _) as [[fresh |] w5]; done.
Qed.

(** What the order of the next pass and the list of admitted devices depend on. *)
Definition quiet (w w' : world) : Prop := w_calls w' = w_calls w /\ m_service_order (w_mem w') = m_service_order (w_mem w).
#[local] Instance quiet_preorder : PreOrder quiet.
Proof. split; [done |]. intros w1 w2 w3 [A B] [A' B']. split; congruence. Qed.
Lemma quiet_frame {X} (m : rm X) : frame m -> keeps quiet m.
Proof. apply keeps_weaken. intros w w' [A B C D]. done. Qed.
#[local] Hint Extern 5 (keeps quiet _) => apply quiet_frame : keeps.

Lemma plan_spec w r w1 : pass_plan w = (r, w1) ->
  match r with
  | Ok (_, _, active, order) => w_calls w1 = w_calls w /\ m_remaining (w_mem w1) = max_dispatches cfg /\ m_service_order (w_mem w1) = rotate order /\
      exists fresh, fresh ≡ₚ filter (fun x => x ∉ kept_order (m_service_order (w_mem w)) active) active /\ order = kept_order (m_service_order (w_mem w)) active ++ fresh
  | Err _ => quiet w w1
  end.
Proof.
  assert (Hstep : forall {X Y} (m : rm X) (f : X -> rm Y) v q v', frame m -> sbind m f v = (q, v') ->
    (exists e, q = Err e /\ same v v') \/ exists x u, same v u /\ f x u = (q, v')).
  { intros X Y m f v q v' Hm H. unfold sbind in H. destruct (m v) as [[x | e] u] eqn:Em; apply Hm in Em; [right; by exists x, u |]. injection H as <- <-. left. by exists e. }
  intros H. unfold pass_plan in H.
  assert (Hsame : forall u, same w u -> quiet w u) by (intros u [A B C D]; done).
  apply Hstep in H as [(e & -> & S1) | (now & u1 & S1 & H)]; [by apply Hsame | | apply frame_now].
  apply Hstep in H as [(e & -> & S2) | (rows & u2 & S2 & H)]; [apply Hsame; by etrans | | apply frame_sched].
  apply Hstep in H as [(e & -> & S3) | (pending & u3 & S3 & H)]; [apply Hsame; do 2 (etrans; [done |]); done | | apply keeps_sfold; [typeclasses eauto | intros; apply frame_push]].
  apply Hstep in H as [(e & -> & S4) | (loop & u4 & S4 & H)]; [apply Hsame; do 3 (etrans; [done |]); done | | apply frame_claim_loop].
  assert (Sw : same w u4) by (do 3 (etrans; [done |]); done). clear S1 S2 S3 S4. destruct Sw as [A B C D].
  unfold sbind at 1 in H. cbn [modify] in H. unfold sbind at 1 in H. cbn [memory_of] in H. set (v := World _ _ _ _ _ _) in H.
  unfold sbind at 1 in H. destruct (new_order _ _ _ v) as [[fresh | e] v1] eqn:En.
  - pose proof (new_order_perm _ _ _ _ _ En) as Hperm. apply frame_new_order in En as [A' B' C' D']. injection H as <- <-.
    change (m_service_order (w_mem v)) with (m_service_order (w_mem u4)) in *. rewrite D in *. cbn [w_calls w_mem with_order m_remaining m_service_order].
    split; [rewrite A'; exact A |]. split; [rewrite B'; done |]. split; [done |]. by exists fresh.
  - injection H as <- <-. apply frame_new_order in En as [A' B' C' D']. split; [rewrite A'; exact A | rewrite D'; exact D].
Qed.

(** The service of the next pass from [w]: the active occurrences, the order, the errors
    before it and the state in which it starts; none when the pass does not get there. *)
Definition service (w : world) : option (list string * list string * list pyexn * world) :=
  match _stopping o w with
  | (Ok false, w1) =>
      match (let! _ := recover zoneinfo o in pass_plan)%py w1 with
      | (Ok (_, errors, active, order), w2) => Some (active, order, errors, w2)
      | _ => None
      end
  | _ => None
  end.

(** After the pass: the error is recorded and reported. *)
Definition settle (r : res pyfloat) : rm pyfloat :=
  (match r with
   | Ok delay => let! _ := modify (fun m => with_error m None 0) in sret (py_max hundredth (py_min (idle_recheck cfg) delay))
   | Err exc =>
       let reason := match exc with ExecutionRefused r => r | _ => "schedule_runner_error" end in
       let! _ := modify (fun m => with_error m (Some reason) (Z.min (m_failures m + 1) 10)) in
       let! _ := match o_error_fn o with Some report => attempt (call (report reason)) | None => sret (Ok tt) end in
       let! m := memory_of in
       sret (py_min (idle_recheck cfg) (times_power (poll_interval cfg) (m_failures m - 1)))
   end)%py.

Lemma settle_quiet r : keeps quiet (settle r).
Proof.
  assert (Hm : forall e f, keeps quiet (modify (T:=T) (E:=E) (fun m => with_error m (e m) (f m)))) by (by intros e f w q w' [= _ <-]).
  unfold settle. destruct r as [delay | exc]; (apply keeps_bind; [typeclasses eauto | apply Hm | intros _]); apply quiet_frame; keeps_walk.
Qed.

Lemma rest_spec pending order errors w r w' : pass_rest pending order errors w = (r, w') ->
  w_calls w' = w_calls (snd (serve_active zoneinfo o cfg order errors w)) /\ m_service_order (w_mem w') = m_service_order (w_mem w).
Proof.
  unfold pass_rest, sbind at 1. destruct (serve_active zoneinfo o cfg order errors w) as [[errs | e] w1] eqn:Es; apply serve_active_spends in Es as [_ _ _ _ F].
  - intros H. match type of H with ?m w1 = _ => assert (Hq : keeps quiet m) end.
    { destruct errs; apply quiet_frame; keeps_walk. }
    destruct (Hq _ _ _ H) as [A B]. split; [exact A | congruence].
  - by intros [= _ <-].
Qed.

Lemma service_spec w :
  let w' := snd (run_once zoneinfo zone_of o cfg w) in
  match service w with
  | None => m_service_order (w_mem w') = m_service_order (w_mem w)
  | Some (active, order, errors, w1) =>
      (exists fresh, fresh ≡ₚ filter (fun x => x ∉ kept_order (m_service_order (w_mem w)) active) active /\ order = kept_order (m_service_order (w_mem w)) active ++ fresh) /\
      m_remaining (w_mem w1) = max_dispatches cfg /\ w_calls w1 = w_calls w /\ m_service_order (w_mem w') = rotate order /\
      w_calls w' = w_calls (snd (serve_active zoneinfo o cfg order errors w1))
  end.
Proof.
  cbv zeta. assert (Hrun : run_once zoneinfo zone_of o cfg w =
    match _stopping o w with
    | (Ok true, w1) => (Ok (idle_recheck cfg), w1)
    | (Ok false, w1) => match recover zoneinfo o w1 with (Ok _, w2) => let '(r, w3) := _pass zoneinfo zone_of o cfg w2 in settle r w3 | (Err e, w2) => settle (Err e) w2 end
    | (Err e, w1) => (Err e, w1)
    end).
  { unfold run_once, sbind at 1. destruct (_stopping o w) as [[[|] |] w1]; [done | | done]. unfold sbind at 1, attempt at 1, sbind at 1. destruct (recover zoneinfo o w1) as [[] w2]; [| done]. by destruct (_pass _ _ _ _ w2). }
  rewrite Hrun. clear Hrun. unfold service. destruct (_stopping o w) as [[[|] | e] w1] eqn:E0; apply frame_stopping in E0 as [A B C D]; [exact D | | exact D].
  unfold sbind at 1. destruct (recover zoneinfo o w1) as [[u | e] w2] eqn:E1; apply frame_recover in E1 as [A1 B1 C1 D1].
  2: { destruct (settle (Err e) w2) as [r w3] eqn:E2. apply settle_quiet in E2 as [A2 B2]. cbn [snd]. congruence. }
  rewrite pass_planned. destruct (pass_plan w2) as [[[[[pending errors] active] order] | e] w3] eqn:E2; pose proof (plan_spec _ _ _ E2) as Hp.
  2: { destruct (settle (Err e) w3) as [r w4] eqn:E3. apply settle_quiet in E3 as [A2 B2]. destruct Hp as [_ Hp]. cbn [snd]. congruence. }
  destruct Hp as (H1 & H2 & H3 & H4). rewrite D1, D in H4. destruct (pass_rest pending order errors w3) as [r w4] eqn:E3. apply rest_spec in E3 as [A3 B3].
  destruct (settle r w4) as [r' w5] eqn:E4. apply settle_quiet in E4 as [A4 B4]. cbn [snd]. split; [done |]. split; [done |]. split; [congruence |]. split; congruence.
Qed.
End runner.

(** ** The wait *)

Lemma interval_finite v : num_ltb (FFin 0 0) v && num_leb v (FFin 300 0) = true -> exists m e, v = FFin m e /\ 0 < m.
Proof.
  intros [H1 H2]%andb_true_iff. destruct v as [m e | [|] |]; try done. exists m, e. split; [done |]. by apply num_pos in H1.
Qed.

(** The wait after a good pass, whatever the pass asked for. *)
Lemma good_delay idle delay : num_ltb (FFin 0 0) idle && num_leb idle (FFin 300 0) = true ->
  let d := py_max hundredth (py_min idle delay) in num_ltb (FFin 0 0) d = true /\ num_leb d (py_max hundredth idle) = true.
Proof.
  intros (m & e & -> & Hm)%interval_finite d. assert (Hh : num_ltb (FFin 0 0) hundredth = true) by (vm_compute; reflexivity).
  assert (Hx : py_min (FFin m e) delay = FFin m e \/ num_ltb (py_min (FFin m e) delay) (FFin m e) = true).
  { unfold py_min. destruct (num_ltb delay (FFin m e)) eqn:E; [by right | by left]. }
  unfold d. generalize dependent (py_min (FFin m e) delay). intros x _ Hx. unfold py_max. destruct (num_ltb hundredth x) eqn:E1.
  - split; [by eapply num_ltb_trans |]. destruct Hx as [-> | Hx]; [rewrite E1; apply num_leb_refl |].
    rewrite (num_ltb_trans _ _ _ E1 Hx). by apply num_ltb_leb.
  - split; [done |]. destruct (num_ltb hundredth (FFin m e)) eqn:E2; [by apply num_ltb_leb | apply num_leb_refl].
Qed.

(** The wait after a failure. *)
Lemma failed_delay idle poll k : num_ltb (FFin 0 0) idle && num_leb idle (FFin 300 0) = true -> num_ltb (FFin 0 0) poll && num_leb poll (FFin 300 0) = true ->
  let d := py_min idle (times_power poll k) in num_ltb (FFin 0 0) d = true /\ num_leb d idle = true.
Proof.
  intros (m & e & -> & Hm)%interval_finite (n & j & -> & Hn)%interval_finite d. unfold d, py_min, times_power. destruct (num_ltb (FFin n (j + k)) (FFin m e)) eqn:E.
  - split; [by apply num_pos | by apply num_ltb_leb].
  - split; [by apply num_pos | apply num_leb_refl].
Qed.

Lemma below_max idle d : num_leb d idle = true -> num_ltb (FFin 0 0) idle && num_leb idle (FFin 300 0) = true -> num_ltb (FFin 0 0) d = true ->
  num_leb d (py_max hundredth idle) = true.
Proof.
  intros Hd (m & e & -> & Hm)%interval_finite Hp. unfold py_max. destruct (num_ltb hundredth (FFin m e)) eqn:E; [done |].
  destruct d as [n k | [|] |]; try done. unfold hundredth in *. set (l := Z.min (-59) (Z.min e k)).
  unfold num_leb, num_ltb in *. rewrite (num_cmp_at _ _ _ _ l) in E by lia. rewrite (num_cmp_at _ _ _ _ l) in Hd by lia. rewrite (num_cmp_at _ _ _ _ l) by lia.
  destruct (Z.compare_spec (5764607523034235 * 2 ^ (-59 - l)) (m * 2 ^ (e - l))); try done;
    destruct (Z.compare_spec (n * 2 ^ (k - l)) (m * 2 ^ (e - l))); try done; destruct (Z.compare_spec (n * 2 ^ (k - l)) (5764607523034235 * 2 ^ (-59 - l))); try done; lia.
Qed.

(** The slots of the definitions on file are always found. *)
Lemma stored_slot_returns zoneinfo zone_of key row now cursor : (forall tz, ZoneLaws (zone_of tz)) -> row_valid zoneinfo key (VDict row) = Ok tt ->
  0 <= now <= MAX_EPOCH -> match cursor with Some a => 0 <= a <= MAX_EPOCH | None => True end ->
  exists slot, occurrence_slot zoneinfo zone_of row (VInt now) (VInt <$> cursor) = Ok slot.
Proof.
  intros Hz Hv Hn Hc. unfold row_valid, validate_schedule in Hv. head Hv as E0. apply object_dict in E0 as [= <-].
  repeat (let F := fresh "F" in head Hv as F). apply integer_inv in F4 as [Hcr Hr].
  apply (compute_returns zoneinfo zone_of row a5 a3 now cursor Hz F6); [| done ..]. unfold dget_or in Hcr |- *. by destruct (dget row "created_at").
Qed.

(** ** Properties *)

(** C33: whatever the clock, the stop flags, the role authority, the resolver and the
    executor answer or raise, and whatever the files contain, a pass returns: the
    runner thread survives.  The wait it asks for, for any intervals the constructor
    accepts, ints or floats, is positive and at most the idle interval, or a hundredth of a
    second where that is longer; the failure count stays between zero and ten, and at most
    the budgeted number of devices is handed to the executor.  And no loop of a pass runs
    on: the only ones without a bound of their own are in the slot computation, the weekly
    walk and the search for the end of a gap, and for every definition that passes the check
    of the file, in zones that behave as [datetime] says, the computation ends with a
    slot or none. *)
Theorem run_once_total (zoneinfo : string -> res unit) (zone_of : string -> zone) {T : Type}
    `{RR : RowStore T (row_valid zoneinfo)} `{RP : RowStore T _progress_valid} `{RF : RowStore T _retired_valid}
    `{RO : RowStore T (_validate_occurrence zoneinfo)} {RC : forall identifier, RowStore T (receipt_valid identifier)}
    {E : Type} (o : outside (T:=T) (E:=E)) (cfg : config) (w : world (T:=T) (E:=E)) :
  config_ok cfg = true -> 0 <= m_failures (w_mem w) <= 10 ->
  (exists delay w' new, run_once zoneinfo zone_of o cfg w = (Ok delay, w') /\
    num_ltb (FFin 0 0) delay = true /\ num_leb delay (py_max hundredth (idle_recheck cfg)) = true /\
    0 <= m_failures (w_mem w') <= 10 /\ w_calls w' = w_calls w ++ new /\ zlen new <= max_dispatches cfg) /\
  ((forall tz, ZoneLaws (zone_of tz)) -> forall key row now cursor, row_valid zoneinfo key (VDict row) = Ok tt -> 0 <= now <= MAX_EPOCH ->
    match cursor with Some a => 0 <= a <= MAX_EPOCH | None => True end ->
    exists slot, occurrence_slot zoneinfo zone_of row (VInt now) (VInt <$> cursor) = Ok slot).
Proof.
  intros Hc Hf. split; [| intros Hz key row now cursor; by apply stored_slot_returns].
  unfold config_ok in Hc. cbn [forallb] in Hc. rewrite !andb_true_iff in Hc. destruct Hc as [[(Hidle & Hpoll & _) _] Hmax]. apply Z.ltb_lt in Hmax. rewrite <- andb_true_iff in Hidle, Hpoll.
  unfold run_once, sbind at 1. destruct (_stopping o w) as [[stop |] w1] eqn:E0.
  2:{ unfold _stopping in E0. by destruct (o_stopping o (outer w)). }
  apply frame_stopping in E0 as [A B C D]. destruct stop.
  { eexists _, w1, []. split; [reflexivity |]. assert (Hp : num_ltb (FFin 0 0) (idle_recheck cfg) = true) by (by apply andb_true_iff in Hidle as [? _]). split; [done |].
    split; [apply below_max; try done; destruct (interval_finite _ Hidle) as (m & e & -> & _); apply num_leb_refl |]. rewrite C, A, app_nil_r.
    split; [done |]. split; [done |]. change (zlen []) with 0. lia. }
  unfold attempt at 1, sbind at 1. set (body := sbind (recover _ _) _). destruct (body w1) as [r w2] eqn:E1.
  destruct (recover_pass_limited zoneinfo zone_of o cfg ltac:(lia) _ _ _ E1) as [A' (new & B' & C')].
  rewrite C in A'. rewrite A in B'. destruct r as [delay | exc].
  - eexists _, _, new. split; [reflexivity |]. destruct (good_delay _ delay Hidle). split; [done |]. split; [done |]. split; [cbn; lia | done].
  - set (reason := match exc with ExecutionRefused _ => _ | _ => _ end). unfold sbind at 1. cbn [modify].
    set (w3 := World _ _ _ _ _ _). set (report := match o_error_fn o with Some _ => _ | None => _ end).
    assert (Hrep : exists r4 w4, report w3 = (Ok r4, w4) /\ same w3 w4).
    { unfold report. destruct (o_error_fn o) as [f |]; [| by eexists _, _]. unfold attempt.
      destruct (call (f reason) w3) as [r4 w4] eqn:E4. exists r4, w4. split; [done |]. exact (frame_call _ _ _ _ E4). }
    destruct Hrep as (r4 & w4 & E4 & [A4 B4 C4 D4]). unfold sbind at 1. rewrite E4.
    unfold sbind at 1. cbn [memory_of]. eexists _, w4, new. split; [reflexivity |].
    destruct (failed_delay _ _ (m_failures (w_mem w4) - 1) Hidle Hpoll) as [H1 H2]. split; [done |]. split; [by apply below_max |]. rewrite C4, A4.
    change (m_failures (w_mem w3)) with (Z.min (m_failures (w_mem w2) + 1) 10). rewrite A'. split; [lia | done].
Qed.

(** A poll interval of half a millisecond. *)
Definition quick_config : config := Config (FFin 30 0) (FFin 1 (-11)) (FFin 15 0) 32 100.

Lemma run_once_total_witness :
  (exists delay w' new, run_once any_zone (fun _ => spring_zone) ticking quick_config start_world = (Ok delay, w') /\
    num_ltb (FFin 0 0) delay = true /\ num_leb delay (py_max hundredth (idle_recheck quick_config)) = true /\ 0 <= m_failures (w_mem w') <= 10 /\
    w_calls w' = w_calls start_world ++ new /\ zlen new <= max_dispatches quick_config) /\
  exists slot, occurrence_slot any_zone (fun _ => spring_zone) (match fst (sched_get any_zone (VStr "weekly") fresh_schedule) with Ok (Some (VDict d)) => d | _ => [] end) (VInt 5) (Some (VInt 7)) = Ok slot.
Proof.
  destruct (run_once_total any_zone (fun _ => spring_zone) ticking quick_config start_world) as [H1 H2]; [vm_compute; reflexivity | vm_compute; split; discriminate |].
  split; [exact H1 |]. apply (H2 ltac:(intros; exact spring_laws) "weekly" _ 5 (Some 7)); [vm_compute; reflexivity | vm_compute; split; discriminate ..].
Defined.

Lemma filter_lookup (P : string -> Prop) `{forall x, Decision (P x)} (l : list string) k x :
  l !! k = Some x -> P x -> exists j, (j <= k)%nat /\ filter P l !! j = Some x.
Proof.
  revert k. induction l as [| y l IH]; intros [| k] H1 Hx; [done | done | |]; cbn in H1.
  - injection H1 as ->. exists O. rewrite filter_cons_True by done. done.
  - destruct (IH k H1 Hx) as (j & Hj & Hl). rewrite filter_cons. case_decide; [exists (S j) | exists j]; (split; [lia | done]).
Qed.

Section fair.
Context (zoneinfo : string -> res unit) (zone_of : string -> zone) {T : Type}
    `{RR : RowStore T (row_valid zoneinfo)} `{RP : RowStore T _progress_valid} `{RF : RowStore T _retired_valid}
    `{RO : RowStore T (_validate_occurrence zoneinfo)} {RC : forall identifier, RowStore T (receipt_valid identifier)}
    {E : Type} (o : outside (T:=T) (E:=E)) (cfg : config).
#[local] Abbreviation world := (world (T:=T) (E:=E)).
#[local] Abbreviation next w := (snd (run_once zoneinfo zone_of o cfg w)).
#[local] Abbreviation served := (service zoneinfo zone_of o cfg).

(** The world after [n] passes, and what those of them that got to it served. *)
Definition passes (n : nat) (w : world) : world := Nat.iter n (fun w => next w) w.
Fixpoint services (n : nat) (w : world) : list (list string * list string * list pyexn * world) :=
  match n with
  | O => []
  | S n => match served w with Some s => s :: services n (next w) | None => services n (next w) end
  end.

(** C34: service is fair: take any succession of passes from a state where an occurrence is
    at position [k] of the queue.  As long as it is active in every pass that gets to
    serving, and more than [k] passes do, some pass among the first [k + 1] of them serves it
    first, with the whole dispatch budget left when that service starts and nothing
    admitted before it in the pass, whatever other occurrences join or end meanwhile; passes
    that are stopped or fail earlier do not move the queue. *)
Theorem service_fair (w : world) (oid : string) (k n : nat) :
  m_service_order (w_mem w) !! k = Some oid ->
  Forall (fun s => oid ∈ s.1.1.1) (services n w) -> (k < length (services n w))%nat ->
  exists i active order errors w1, (i < n)%nat /\ (length (services i w) <= k)%nat /\
    served (passes i w) = Some (active, oid :: order, errors, w1) /\ m_remaining (w_mem w1) = max_dispatches cfg /\ w_calls w1 = w_calls (passes i w) /\
    w_calls (passes (S i) w) = w_calls (snd (serve_active zoneinfo o cfg (oid :: order) errors w1)).
Proof.
  revert w k. induction n as [| n IH]; intros w k Hk Ha Hlen; cbn [services] in *; [cbn in Hlen; lia |].
  pose proof (service_spec zoneinfo zone_of o cfg w) as Hs. cbv zeta in Hs.
  assert (Hlift : forall k', (exists i active order errors w1, (i < n)%nat /\ (length (services i (next w)) <= k')%nat /\
    served (passes i (next w)) = Some (active, oid :: order, errors, w1) /\ m_remaining (w_mem w1) = max_dispatches cfg /\ w_calls w1 = w_calls (passes i (next w)) /\
    w_calls (passes (S i) (next w)) = w_calls (snd (serve_active zoneinfo o cfg (oid :: order) errors w1))) ->
    (forall i, (length (services i (next w)) <= k')%nat -> (length (services (S i) w) <= k)%nat) ->
    exists i active order errors w1, (i < S n)%nat /\ (length (services i w) <= k)%nat /\
    served (passes i w) = Some (active, oid :: order, errors, w1) /\ m_remaining (w_mem w1) = max_dispatches cfg /\ w_calls w1 = w_calls (passes i w) /\
    w_calls (passes (S i) w) = w_calls (snd (serve_active zoneinfo o cfg (oid :: order) errors w1))).
  { intros k' (i & active & order & errors & w1 & Hi & Hl & H1 & H2 & H3 & H4) Hmono. exists (S i), active, order, errors, w1.
    assert (Hp : forall j, passes (S j) w = passes j (next w)) by (intros j; unfold passes; by rewrite Nat.iter_succ_r).
    rewrite !Hp. split; [lia |]. split; [by apply Hmono |]. done. }
  destruct (served w) as [[[[active order] errors] w1] |] eqn:Ev.
  - destruct Hs as ((fresh & _ & ->) & Hr & Hcalls & Hnext & Hend). apply Forall_cons in Ha as [Hact Ha]. cbn [fst] in Hact. cbn [length] in Hlen.
    destruct (filter_lookup (fun x => x ∈ active) _ k oid Hk Hact) as (j & Hj & Hl). fold (kept_order (m_service_order (w_mem w)) active) in Hl.
    set (order := kept_order _ _ ++ fresh) in *. assert (Ho : order !! j = Some oid) by (unfold order; by apply lookup_app_l_Some). clearbody order.
    destruct order as [| x rest]; [done |]. destruct j as [| j].
    + injection Ho as ->. exists O, active, rest, errors, w1. split; [lia |]. split; [cbn; lia |]. split; [done |]. split; [done |]. split; [done |]. exact Hend.
    + cbn in Ho. apply (Hlift (k - 1)%nat).
      * destruct (IH (next w) j) as (i & H); [| exact Ha | lia |]. { rewrite Hnext. unfold rotate. cbn [drop]. by apply lookup_app_l_Some. }
        exists i. destruct H as (a' & o' & e' & w' & Hi & Hle & H). exists a', o', e', w'. split; [done |]. split; [lia | done].
      * intros i Hi. cbn [services]. rewrite Ev. cbn [length]. lia.
  - apply (Hlift k).
    + apply IH; [by rewrite Hs | done | done].
    + intros i Hi. cbn [services]. by rewrite Ev.
Qed.
End fair.

Lemma service_fair_witness :
  let w := snd (sample_pass start_world) in
  exists i active order errors w1, (i < 1)%nat /\ (length (services any_zone (fun _ => spring_zone) ticking default_config i w) <= 0)%nat /\
    service any_zone (fun _ => spring_zone) ticking default_config (passes any_zone (fun _ => spring_zone) ticking default_config i w) = Some (active, sample_oid :: order, errors, w1) /\
    m_remaining (w_mem w1) = 100 /\ w_calls w1 = w_calls (passes any_zone (fun _ => spring_zone) ticking default_config i w) /\
    w_calls (passes any_zone (fun _ => spring_zone) ticking default_config (S i) w) = w_calls (snd (serve_active any_zone ticking default_config (sample_oid :: order) errors w1)).
Proof.
  intros w. apply (service_fair any_zone (fun _ => spring_zone) ticking default_config w sample_oid 0 1).
  - vm_compute. reflexivity.
  - apply List.Forall_forall. intros s Hs.
    assert (Hb : forallb (fun s => bool_decide (sample_oid ∈ s.1.1.1)) (services any_zone (fun _ => spring_zone) ticking default_config 1 w) = true) by (vm_compute; reflexivity).
    rewrite forallb_forall in Hb. exact (proj1 (bool_decide_eq_true _) (Hb s Hs)).
  - apply Nat.ltb_lt. vm_compute. reflexivity.
Defined.

(** ** Operations that end no occurrence

    An occurrence that has ended was ended by a transition to one of the four final
    states; claims, annotations, recovery and the transition to [running] end none. *)

Definition final_states : list string := ["completed"; "failed"; "cancelled"; "stalled"].
Definition ended (v : pyval) : bool := in_strs (fld v "state") final_states.

Section ends.
Context (zoneinfo : string -> res unit) (zone_of : string -> zone) {T : Type} `{RO : RowStore T (_validate_occurrence zoneinfo)}.
#[local] Abbreviation occ_ok := (rs_ok (V:=_validate_occurrence zoneinfo)).
#[local] Abbreviation occ_view := (rs_view (V:=_validate_occurrence zoneinfo)).

(** Nothing ended that had not ended before. *)
Definition no_end (s s' : T) : Prop :=
  forall k v', occ_view s' k = Some v' -> ended v' = true -> exists v, occ_view s k = Some v /\ ended v = true.

Lemma no_end_same s s' : (forall x, occ_view s' x = occ_view s x) -> no_end s s'.
Proof. intros H k v Hv He. exists v. by rewrite <- H. Qed.

(** On readable stores, to be composed. *)
Definition ends_none (s s' : T) : Prop := occ_ok s -> occ_ok s' /\ no_end s s'.
#[global] Instance ends_none_preorder : PreOrder ends_none.
Proof.
  split.
  - intros s Hs. split; [done | by apply no_end_same].
  - intros s1 s2 s3 H1 H2 Hs. destruct (H1 Hs) as [Hs2 N1]. destruct (H2 Hs2) as [Hs3 N2]. split; [done |].
    intros k v Hv He. destruct (N2 k v Hv He) as (v2 & Hv2 & He2). by eapply N1.
Qed.

Lemma ended_sorted v : good v -> ended (sort_keys v) = ended v.
Proof.
  intros [Hw _]. unfold ended. rewrite fld_sorted by done. by destruct (fld v "state").
Qed.

Lemma decided_ends s key fn f :
  occ_ok s -> (forall old, fn old tt = (f old, tt)) -> sane_decision zoneinfo key f -> (forall new, f None = Ok new ->
    exists d, new = UPut (VDict d) /\ good (VDict d) /\ _validate_occurrence zoneinfo key (VDict d) = Ok tt) ->
  (forall d, f (occ_view s key) = Ok (UPut (VDict d)) -> ended (VDict d) = true -> exists v, occ_view s key = Some v /\ ended v = true) ->
  let s' := snd (put_row (rs_update (V:=_validate_occurrence zoneinfo) key fn (s, tt))) in occ_ok s' /\ no_end s s'.
Proof.
  intros Hok Hfn Hd Hn Hends. destruct (decide_spec zoneinfo s key fn f Hok Hfn Hd Hn) as (r & s' & -> & Hok' & Hne & _ & Hr).
  cbn [snd]. split; [done |]. destruct r as [d | e]; [| apply no_end_same, Hr]. destruct Hr as [Hf Hv].
  assert (Hg : good (VDict d)).
  { destruct (occ_view s key) as [v |] eqn:Ev.
    - destruct (stored_occurrence zoneinfo s key v Hok Ev) as (dv & st & u & _ & Hgv & Hc & Hval & _).
      destruct (Hd v _ Hgv Hc Hval Hf) as (d' & [= <-] & Hg & _). exact Hg.
    - destruct (Hn _ Hf) as (d' & [= <-] & Hg & _). exact Hg. }
  intros k v' Hv' He. destruct (decide (k = key)) as [-> | Hk]; [| exists v'; by rewrite <- Hne].
  assert (Hs : v' = sort_keys (VDict d)) by congruence. rewrite Hs, ended_sorted in He by done. by eapply Hends.
Qed.

Lemma transition_ends i st n e : in_strs st final_states = false -> keeps ends_none (occ_transition zoneinfo i st n e).
Proof.
  intros Hst s r s' H Hok. pose proof (ends_none_preorder) as [Hr _]. unfold occ_transition in H.
  destruct (_hex i _) as [key |]; cbn [mbind res_bind] in H; [| injection H as _ <-; by apply Hr].
  destruct (_integer n _ _ _) as [z |]; cbn [mbind res_bind] in H; [| injection H as _ <-; by apply Hr].
  destruct (decided_ends s key (fun old => lift (transition_row zoneinfo key st z e old)) (transition_row zoneinfo key st z e) Hok
    (fun _ => eq_refl) (transition_sane zoneinfo key st z e)) as [H1 H2]; [done | | by rewrite H in H1, H2].
  intros d E He. destruct (occ_view s key) as [v |] eqn:Ev; [| discriminate E]. unfold transition_row in E. head E as E1.
  destruct (py_eq st _); [injection E as ->; by eexists |]. head E as E2. head E as E3. head E as E4. injection E as <-.
  unfold ended in He. rewrite !fld_dset in He. cbn [String.eqb Ascii.eqb Bool.eqb] in He. congruence.
Qed.

Lemma wave_ends i w n : good w -> keeps ends_none (annotate_wave zoneinfo i w n).
Proof.
  intros Hw s r s' H Hok. pose proof (ends_none_preorder) as [Hr _]. unfold annotate_wave in H.
  destruct (_hex i _) as [key |]; cbn [mbind res_bind] in H; [| injection H as _ <-; by apply Hr].
  destruct (normalize_wave w) as [dw |] eqn:Ew; cbn [mbind res_bind] in H; [| injection H as _ <-; by apply Hr].
  destruct (_integer n _ _ _) as [z |]; cbn [mbind res_bind] in H; [| injection H as _ <-; by apply Hr].
  destruct (decided_ends s key (fun old => lift (wave_row zoneinfo key dw z old)) (wave_row zoneinfo key dw z) Hok
    (fun _ => eq_refl) (wave_sane zoneinfo key dw z (normalize_wave_good _ _ Hw Ew))) as [H1 H2]; [done | | by rewrite H in H1, H2].
  intros d E He. destruct (occ_view s key) as [v |] eqn:Ev; [| discriminate E]. unfold wave_row in E. head E as E1.
  destruct (negb (is_none _) && py_eq (VDict (_wave_counts (dict_or_empty _))) _); [injection E as ->; by eexists |].
  head E as E2. head E as E3. injection E as <-. exists v. split; [done |].
  destruct (stored_occurrence zoneinfo s key v Hok Ev) as (dv & st & u & -> & _).
  unfold ended in *. by rewrite !fld_dset in He.
Qed.

Lemma occ_list_ends sid : keeps ends_none (occ_list zoneinfo sid).
Proof.
  intros s r s' H Hok. destruct (occ_list_same zoneinfo sid s Hok) as [H1 H2]. rewrite H in H1, H2. split; [done | by apply no_end_same].
Qed.

Lemma recover_ends n : keeps ends_none (recover_interrupted zoneinfo n).
Proof.
  unfold recover_interrupted. apply keeps_bind; [apply ends_none_preorder | apply occ_list_ends | intros rows].
  apply keeps_sfold; [apply ends_none_preorder |]. intros recovered row. destruct (py_eq _ _); [| apply keeps_ret, ends_none_preorder].
  intros s r s' H. destruct (occ_transition _ _ _ _ _ s) as [[d | e] s1] eqn:E1;
    pose proof (transition_ends _ (VStr "interrupted") _ _ eq_refl _ _ _ E1) as Ht; [by injection H as _ <- |].
  destruct (is_conflict e); by injection H as _ <-.
Qed.

Lemma claim_row_state schedule slot key target now row :
  claim_row zoneinfo schedule slot key target now = Ok row -> ended (VDict row) = false.
Proof.
  intros E. unfold claim_row in E. head E as E1. head E as E2. head E as E3. head E as E4. injection E as <-.
  destruct (int_of (dget_or slot "window_end" VNone) <=? now); [by injection E3 as <- |]. head E3 as E5. by injection E3 as <-.
Qed.

Lemma create_ends schedule d target now :
  good (VDict schedule) -> good (VDict d) -> good target -> keeps ends_none (occ_create zoneinfo schedule (VDict d) target now).
Proof.
  intros Hsc Hd Ht s r s' H Hok. pose proof (ends_none_preorder) as [Hr _]. unfold occ_create in H.
  destruct (validate_schedule _ _ _) as [[] |]; cbn [mbind res_bind] in H; [| injection H as _ <-; by apply Hr].
  destruct (_validate_slot (VDict d)) as [d' |] eqn:Es; cbn [mbind res_bind] in H; [| injection H as _ <-; by apply Hr].
  destruct (_integer now _ _ _) as [z |]; cbn [mbind res_bind] in H; [| injection H as _ <-; by apply Hr].
  destruct (occurrence_id _ _) as [key |]; cbn [mbind res_bind] in H; [| injection H as _ <-; by apply Hr].
  destruct (validate_slot_inv _ _ Es) as ([= <-] & _).
  destruct (decided_ends s key (fun old => match old with Some row => sret (UPut row) | None => lift
      (let* row := claim_row zoneinfo schedule d key target z in Ok (UPut (VDict row))) end)
    (fun old => match old with Some row => Ok (UPut row) | None =>
      let* row := claim_row zoneinfo schedule d key target z in Ok (UPut (VDict row)) end) Hok) as [H1 H2]; [by intros [] | | | | pose proof (f_equal snd H) as Hs; cbn [snd] in Hs; rewrite <- Hs; exact (conj H1 H2)].
  - intros v new Hg Hc Hval E. by eapply keep_sane.
  - intros new E. head E as E1. injection E as <-. exists a. split; [done |]. exact (claim_row_good _ _ _ _ _ _ _ Hsc Hd Ht E1).
  - intros dn E He. destruct (occ_view s key) as [v |] eqn:Ev; [injection E as ->; by eexists |].
    head E as E1. injection E as <-. by rewrite (claim_row_state _ _ _ _ _ _ E1) in He.
Qed.

(** The steps of a claim, on the occurrences and the cursors. *)
Definition pair_ends (s s' : T * T) : Prop := ends_none (fst s) (fst s').
#[global] Instance pair_ends_preorder : PreOrder pair_ends.
Proof. split; [intros s; apply ends_none_preorder | intros s1 s2 s3; apply ends_none_preorder]. Qed.

Lemma fst_ends {X} (m : sm T X) : keeps ends_none m -> keeps pair_ends (on_fst m).
Proof.
  intros Hm [a b] r s' H. unfold on_fst, zoom in H. cbn [fst snd] in H. destruct (m a) as [q a'] eqn:E1. injection H as _ <-. exact (Hm _ _ _ E1).
Qed.

Lemma get_ends i : keeps ends_none (occ_get zoneinfo i).
Proof.
  intros s r s' H Hok. unfold occ_get, sbind, lift in H. destruct (_hex i _) as [key |]; [| injection H as _ <-; by apply ends_none_preorder].
  destruct (rs_get_spec s key Hok) as (t & Hg & Hok2 & Hv). rewrite Hg in H. injection H as _ <-. split; [done | by apply no_end_same].
Qed.

Lemma claim_steps_ends `{RP : RowStore T _progress_valid} k row slot target n :
  good (VDict row) -> good (VDict slot) -> good target -> keeps pair_ends (claim_steps zoneinfo zone_of k row slot target n).
Proof.
  intros Hr Hs Ht. pose proof pair_ends_preorder. unfold claim_steps. keeps_walk; try (by apply keeps_lift); try (by apply keeps_ret).
  - apply fst_ends, get_ends.
  - by apply fst_ends, create_ends.
  - intros [a b] r s' E1. unfold on_snd, zoom in E1. cbn [fst snd] in E1. destruct (advance_progress _ _ _ _ b) as [q b']. injection E1 as _ <-.
    apply ends_none_preorder.
Qed.
End ends.
