(* ===== verification/RunnerSpec.v ===== *)
(** * What the runner does to the evidence

    A pass of the runner uses the stores only through operations that keep them
    readable and let receipts and occurrences move forward, and every call of the
    executor's [dispatch] is covered by a receipt that is already on disk, inside the
    window of the occurrence and under the definition it froze. *)
From S2P Require Import Prelude PyVal JsonDump Sha256 PolicyDoc KeyedState KeyedSpec.
From S2P Require Import SchedDoc SchedValid SchedTime SchedTimeSpec SchedStore SchedOps SchedSpec OccSpec SchedClaim.
From S2P Require Import SchedReceipt ReceiptSpec WaveGate SchedRunner RunnerTotal.

(** ** One receipt *)

Section receipts.
Context (zoneinfo : string -> res unit).
Context {T : Type} `{RO : RowStore T (_validate_occurrence zoneinfo)} {RC : forall identifier, RowStore T (receipt_valid identifier)}.
#[local] Abbreviation evidence := (evidence (T:=T)).

(** Nothing but the receipt of one device of one occurrence changed. *)
Definition only_at (i d : string) (e e' : evidence) : Prop :=
  forall j x, (j <> i \/ x <> d) -> receipt_at e' j x = receipt_at e j x.

Lemma update_detail (e : evidence) i d f :
  evidence_ok zoneinfo e -> sane_receipt i d f ->
  exists r e', receipt_update i d f e = (r, e') /\ only_at i d e e' /\
    match r with
    | Ok row => receipt_at e' i d = Some (sort_keys (VDict row)) /\ f (receipt_at e i d) = Ok (UPut (VDict row))
    | Err _ => receipt_at e' i d = receipt_at e i d
    end.
Proof.
  intros Hok Hs. pose proof Hok as [_ Hfiles]. unfold receipt_update, on_file. pose proof (stored_receipt zoneinfo e i d Hok) as Hst.
  set (r := f (receipt_at e i d)).
  destruct (rs_update_spec (V:=receipt_valid i) unit (e_files e i) tt tt d (fun old => lift (f old)) r (Hfiles i) eq_refl) as (t & -> & _ & Hv).
  { intros new Hnew. destruct (Hs _ new Hst Hnew) as (d' & -> & Hg & Hval & _). by apply receipt_storable. }
  assert (Hat : forall j x, receipt_at (set_file e i t) j x = if String.eqb j i then rs_view (V:=receipt_valid j) t x else receipt_at e j x).
  { intros j x. unfold receipt_at, set_file. cbn [e_files]. by destruct (String.eqb j i). }
  assert (Honly : only_at i d e (set_file e i t)).
  { intros j x Hne. rewrite Hat. destruct (String.eqb_spec j i) as [-> |]; [| done]. rewrite Hv. destruct r as [new |]; [| done].
    unfold apply_view. destruct (String.eqb_spec d x) as [<- |]; [naive_solver | done]. }
  destruct r as [new | exn] eqn:Er.
  - destruct (Hs _ new Hst Er) as (d' & -> & _). eexists _, _. split; [reflexivity |]. split; [exact Honly |].
    rewrite Hat, String.eqb_refl, Hv. unfold apply_view. rewrite String.eqb_refl. split; done.
  - eexists _, _. split; [reflexivity |]. split; [exact Honly |]. rewrite Hat, String.eqb_refl. apply Hv.
Qed.

(** Neither [record] nor [successor_attempt] writes an occurrence. *)
Lemma admit_views i d (e : evidence) r e' :
  evidence_ok zoneinfo e -> _admit zoneinfo i d e = (r, e') ->
  forall k, rs_view (V:=_validate_occurrence zoneinfo) (e_occ e') k = rs_view (V:=_validate_occurrence zoneinfo) (e_occ e) k.
Proof.
  intros [Ho _] H. unfold _admit, sbind, lift in H. destruct (_device_id d); [| by injection H as _ <-]. unfold on_occ, zoom in H.
  destruct (occ_get zoneinfo i (e_occ e)) as [q t] eqn:E1. unfold occ_get, sbind, lift in E1.
  assert (Hv : forall k, rs_view (V:=_validate_occurrence zoneinfo) t k = rs_view (V:=_validate_occurrence zoneinfo) (e_occ e) k).
  { destruct (_hex i _) as [key |]; [| by injection E1 as _ <-].
    destruct (rs_get_spec (e_occ e) key Ho) as (t2 & Hg & _ & Hv). rewrite Hg in E1. by injection E1 as _ <-. }
  destruct q as [[v |] |]; [destruct (_ || _) | |]; by injection H as _ <-.
Qed.

Lemma receipt_update_occ i d f (e : evidence) : e_occ (snd (receipt_update i d f e)) = e_occ e.
Proof.
  unfold receipt_update, on_file. match goal with |- context [let '(_, _) := ?m in _] => by destruct m end.
Qed.

Lemma record_views i d s r n a (e : evidence) :
  evidence_ok zoneinfo e ->
  forall k, rs_view (V:=_validate_occurrence zoneinfo) (e_occ (snd (record zoneinfo i d s r n a e))) k =
    rs_view (V:=_validate_occurrence zoneinfo) (e_occ e) k.
Proof.
  intros Hok k. unfold record. unfold sbind at 1. destruct (_admit zoneinfo i d e) as [[[] |] e0] eqn:E0;
    pose proof (admit_views _ _ _ _ _ Hok E0) as Hv; [| apply Hv].
  rewrite <- Hv. clear. unfold sbind, lift. destruct (_integer n _ _ _); [| done]. destruct (negb _); [done |]. destruct (_ && _); [done |].
  destruct (if is_none _ then _ else _); [| done]. destruct (supplied a); [| done]. destruct (_hex i _); [| done].
  destruct (_device_id d); [| done]. by rewrite receipt_update_occ.
Qed.

Lemma successor_views i d x n m p b (e : evidence) :
  evidence_ok zoneinfo e ->
  forall k, rs_view (V:=_validate_occurrence zoneinfo) (e_occ (snd (successor_attempt zoneinfo i d x n m p b e))) k =
    rs_view (V:=_validate_occurrence zoneinfo) (e_occ e) k.
Proof.
  intros Hok k. unfold successor_attempt. unfold sbind at 1. destruct (_admit zoneinfo i d e) as [[[] |] e0] eqn:E0;
    pose proof (admit_views _ _ _ _ _ Hok E0) as Hv; [| apply Hv].
  rewrite <- Hv. clear. unfold sbind, lift. do 3 (destruct (_integer _ _ _ _); [| done]). destruct (_hex i _); [| done].
  destruct (_device_id d); [| done]. by rewrite receipt_update_occ.
Qed.

Lemma admit_same i d (e : evidence) r e' : _admit zoneinfo i d e = (r, e') -> e_files e' = e_files e.
Proof.
  unfold _admit, sbind, lift. destruct (_device_id d); [| by intros [= _ <-]]. unfold on_occ, zoom.
  destruct (occ_get zoneinfo i (e_occ e)) as [[[v |] |] t]; [destruct (_ || _) | |]; by intros [= _ <-].
Qed.

(** [record] reaches its update after checks that change nothing. *)
Lemma record_detail i d s r n a (e : evidence) q e' :
  evidence_ok zoneinfo e -> good r -> good_args a -> record zoneinfo i d s r n a e = (q, e') ->
  (forall j x, receipt_at e' j x = receipt_at e j x) /\ (forall row, q <> Ok row) \/
  exists key dev z g, i = VStr key /\ d = VStr dev /\ supplied a = Ok g /\ only_at key dev e e' /\
    match q with
    | Ok row => receipt_at e' key dev = Some (sort_keys (VDict row)) /\
        record_row key dev s r z a g (receipt_at e key dev) = Ok (UPut (VDict row))
    | Err _ => receipt_at e' key dev = receipt_at e key dev
    end.
Proof.
  intros Hok Hr Ha H. unfold record in H. unfold sbind at 1 in H. destruct (_admit zoneinfo i d e) as [r0 e0] eqn:E0.
  pose proof (admit_same _ _ _ _ _ E0) as Hsame. assert (Hat : forall j x, receipt_at e0 j x = receipt_at e j x) by (intros; unfold receipt_at; by rewrite Hsame).
  destruct (admit_spec zoneinfo i d e Hok) as (r1 & e1 & E1 & Hp & Hadm). rewrite E1 in E0. injection E0 as -> ->.
  destruct r0 as [[] |]; [| injection H as <- <-; left; by split].
  destruct (Hadm eq_refl) as (key & dev & Hkey & Hdev & Had).
  unfold sbind at 1, lift at 1 in H. destruct (_integer n _ _ _) as [z |]; [| injection H as <- <-; left; by split].
  destruct (negb (in_strs s RECEIPT_STATES)) eqn:Es; [injection H as <- <-; left; by split |]. apply negb_false_iff in Es.
  destruct (negb (is_none (a_notes a)) && _); [injection H as <- <-; left; by split |].
  unfold sbind at 1, lift at 1 in H. destruct (if is_none (a_expected_rev a) then _ else _); [| injection H as <- <-; left; by split].
  unfold sbind at 1, lift at 1 in H. destruct (supplied a) as [g |] eqn:Eg; [| injection H as <- <-; left; by split].
  unfold sbind at 1, lift at 1 in H. rewrite Hkey in H. unfold sbind at 1, lift at 1 in H. rewrite Hdev in H.
  assert (Hgs : good s) by (apply in_strs_spec in Es as (st & -> & _); apply good_str).
  destruct (update_detail e0 key dev (record_row key dev s r z a g) (pr_ok _ _ _ Hp)) as (q2 & e2 & E2 & Ho2 & Hm2).
  { by apply record_sane. }
  rewrite E2 in H. injection H as <- <-. right. exists key, dev, z, g.
  apply hex_inv in Hkey as [-> _]. split; [done |]. split; [by apply device_id_inv in Hdev |]. split; [done |]. split.
  - intros j x Hne. rewrite Ho2, Hat; done.
  - destruct q2 as [row |]; [| by rewrite Hm2, Hat]. destruct Hm2 as [Hv Hrow]. rewrite Hat in Hrow. done.
Qed.
End receipts.

Lemma filtered_keys (p : string * pyval -> bool) (d : dict) :
  NoDup (dkeys d) -> NoDup (map fst (List.filter p d)) /\
    forall x, x ∈ map fst (List.filter p d) <-> exists v, dget d x = Some v /\ p (x, v) = true.
Proof.
  induction d as [| [k v] d IH]; cbn [dkeys map List.filter]; intros Hn.
  { split; [constructor |]. intros x. split; [intros H; inversion H | intros (? & ? & _); done]. }
  cbn in Hn. apply NoDup_cons in Hn as [Hk Hn]. destruct (IH Hn) as [Hnd Hin].
  assert (Hkd : forall x, x ∈ map fst (List.filter p d) -> x <> k).
  { intros x (w & Hw & _)%Hin ->. apply Hk. by eapply dget_key. }
  split.
  - destruct (p (k, v)); [| done]. cbn. constructor; [| done]. intros H. by apply (Hkd k).
  - intros x. cbn [dget]. destruct (String.eqb_spec k x) as [<- | Hne].
    + destruct (p (k, v)) eqn:Ep; cbn.
      * split; [by exists v | by left].
      * split; [intros H; by apply Hkd in H | intros (w & [= <-] & Hw); congruence].
    + destruct (p (k, v)); cbn; [| apply Hin]. rewrite elem_of_cons, Hin. naive_solver.
Qed.

Section runner.
Context (zoneinfo : string -> res unit) (zone_of : string -> zone).
Context {T : Type} `{RR : RowStore T (row_valid zoneinfo)} `{RP : RowStore T _progress_valid} `{RF : RowStore T _retired_valid}
  `{RO : RowStore T (_validate_occurrence zoneinfo)} {RC : forall identifier, RowStore T (receipt_valid identifier)}.
Context {E : Type}.
#[local] Abbreviation world := (world (T:=T) (E:=E)).
#[local] Abbreviation rm := (rm (T:=T) (E:=E)).
#[local] Abbreviation rows_ok := (rs_ok (V:=row_valid zoneinfo)).
#[local] Abbreviation rows_view := (rs_view (V:=row_valid zoneinfo)).
#[local] Abbreviation prog_ok := (rs_ok (V:=_progress_valid)).
#[local] Abbreviation occ_view := (rs_view (V:=_validate_occurrence zoneinfo)).

(** ** What is assumed of the outside *)

(** A call leaves the definitions readable, and answers a value of the given kind. *)
Definition ext_ok {X} (P : X -> Prop) (op : ext (T:=T) (E:=E) X) : Prop :=
  forall s r s', rows_ok (fst (snd s)) -> op s = (r, s') -> rows_ok (fst (snd s')) /\ forall x, r = Ok x -> P x.

(** Answers are JSON values: dicts with distinct keys, finite numbers. *)
Record outside_ok (o : outside (T:=T) (E:=E)) : Prop := {
  ok_now : ext_ok (fun _ => True) (o_now_fn o);
  ok_stopping : forall s, rows_ok (fst (snd s)) -> rows_ok (fst (snd (snd (o_stopping o s))));
  ok_guard : forall sc, ext_ok (fun _ => True) (o_role_guard o sc);
  ok_resolve : forall sc, ext_ok good (o_resolve_target o sc);
  ok_validate : forall sc sn, ext_ok good (o_validate o sc sn);
  ok_dispatch : forall sc oc did intent, ext_ok good (o_dispatch o sc oc did intent);
  ok_poll : forall r, ext_ok good (o_poll o r);
  ok_cancel : forall i jobs, ext_ok (fun _ => True) (o_cancel_queued o i jobs);
  ok_wave : forall f sc oc, o_wave_counts o = Some f -> ext_ok good (f sc oc);
  ok_ack : forall f r, o_acknowledge o = Some f -> ext_ok (fun _ => True) (f r);
  ok_error : forall f r, o_error_fn o = Some f -> ext_ok (fun _ => True) (f r) }.

(** ** The invariant, and what a step may change *)

Definition inv (w : world) : Prop :=
  evidence_ok zoneinfo (evidence_of w) /\ rows_ok (s_rows (w_sched w)) /\ prog_ok (s_progress (w_sched w)) /\
  all_admitted zoneinfo (evidence_of w).

(** Every target of the occurrence has a terminal receipt. *)
Definition reported (e : evidence (T:=T)) (i : string) (v : pyval) : Prop :=
  forall did, did ∈ snapshot_ids (fld v "target_snapshot") -> exists r, receipt_at e i did = Some r /\ terminal (fld r "status") = true.

(** A row of the store, or one that was just written. *)
Definition sound (occ : dict) : Prop := good (VDict occ) /\ exists i, _validate_occurrence zoneinfo i (VDict occ) = Ok tt.

(** A call of [dispatch] that is covered: inside the window, for a device of the target,
    under the definition the occurrence froze, with its intent already on disk. *)
Record covered (c : dispatched (T:=T)) : Prop := {
  cv_window : int_of (fieldv (d_occurrence c) "scheduled_at") <= d_clock c < int_of (fieldv (d_occurrence c) "window_end");
  cv_target : d_device c ∈ targets_of (d_occurrence c);
  cv_live : exists sid live, fieldv (d_occurrence c) "schedule_id" = VStr sid /\ rows_view (d_rows c) sid = Some live /\
    py_eq (fieldv (dict_or_empty live) "generation") (fieldv (d_occurrence c) "schedule_generation") = true /\
    definition_differs (dict_or_empty live) (sub (d_occurrence c) "schedule") = false;
  cv_intent : exists i, _validate_occurrence zoneinfo i (VDict (d_occurrence c)) = Ok tt /\ fieldv (d_occurrence c) "id" = VStr i /\
    rs_view (V:=receipt_valid i) (d_files c i) (d_device c) = Some (sort_keys (VDict (d_intent c))) /\
    fieldv (d_intent c) "status" = VStr "intent" }.

Record advances (K : string -> string -> Prop) (w w' : world) : Prop := {
  ad_inv : inv w';
  ad_evidence : progresses zoneinfo (evidence_of w) (evidence_of w');
  ad_only : forall i d, ~ K i d -> receipt_at (evidence_of w') i d = receipt_at (evidence_of w) i d;
  ad_calls : exists new, w_calls w' = w_calls w ++ new /\ Forall covered new;
  ad_ended : forall i v', occ_view (s_occ (w_sched w')) i = Some v' -> ended v' = true ->
    (exists v, occ_view (s_occ (w_sched w)) i = Some v /\ ended v = true) \/ reported (evidence_of w') i v' }.

Definition nothing : string -> string -> Prop := fun _ _ => False.
Definition anything : string -> string -> Prop := fun _ _ => True.
(** The receipt of one device. *)
Definition at_most_at (i : pyval) (did : string) : string -> string -> Prop := fun j x => i = VStr j /\ x = did.

(** A terminal receipt and the targets are final. *)
Lemma reported_kept e e' i v v' :
  progresses zoneinfo e e' -> fld v' "target_snapshot" = fld v "target_snapshot" -> reported e i v -> reported e' i v'.
Proof.
  intros Hp Hf Hs did Hd. rewrite Hf in Hd. destruct (Hs did Hd) as (r & Hr & Ht). destruct (pr_step _ _ _ Hp i did r Hr) as (r' & Hr' & Hsteps).
  exists r'. split; [done |]. destruct Hsteps as [| r x r' Hx _]; [done |]. destruct Hx; congruence.
Qed.

Lemma admitted_all_kept e e' : progresses zoneinfo e e' -> all_admitted zoneinfo e -> all_admitted zoneinfo e'.
Proof.
  intros Hp Ha i d v Hv. destruct (pr_new _ _ _ Hp i d v Hv) as [[u Hu] | ?]; [| done].
  eapply admitted_kept; [apply (pr_occ _ _ _ Hp) | by eapply Ha].
Qed.

Lemma advances_refl K w : inv w -> advances K w w.
Proof.
  intros Hi. split; [done | apply progresses_refl, Hi | done | |].
  - exists []. by rewrite app_nil_r.
  - intros i v Hv He. left. by exists v.
Qed.

Lemma advances_trans K w1 w2 w3 : advances K w1 w2 -> advances K w2 w3 -> advances K w1 w3.
Proof.
  intros [A B C (n1 & D & D') G] [A' B' C' (n2 & F & F') G']. split; [done | by eapply progresses_trans | | |].
  - intros i d Hn. rewrite C', C by done. done.
  - exists (n1 ++ n2). rewrite F, D, app_assoc. split; [done |]. by apply Forall_app.
  - intros i v3 Hv3 He3. destruct (G' i v3 Hv3 He3) as [(v2 & Hv2 & He2) | ?]; [| by right].
    destruct (G i v2 Hv2 He2) as [? | Hs]; [by left | right]. destruct (pr_occ _ _ _ B' i v2 Hv2) as (v3' & Hv3' & [Hfr _ _ _]).
    cbn [evidence_of e_occ] in Hv3'. assert (v3' = v3) as -> by congruence. eapply reported_kept; [exact B' | apply Hfr; by_eval | exact Hs].
Qed.

Lemma advances_weaken K K' w w' : (forall i d, K i d -> K' i d) -> advances K w w' -> advances K' w w'.
Proof. intros H [A B C D F]. split; [done | done | | done | done]. intros i d Hn. apply C. intros Hk. by apply Hn, H. Qed.

(** The evidence and the calls are as before, the definitions still readable. *)
Lemma advances_quiet K w w' :
  inv w -> rows_ok (s_rows (w_sched w')) -> prog_ok (s_progress (w_sched w')) ->
  evidence_of w' = evidence_of w -> w_calls w' = w_calls w -> advances K w w'.
Proof.
  intros (He & _ & _ & Ha) Hr Hp Hev Hc. split.
  - split; [by rewrite Hev |]. by rewrite Hev.
  - rewrite Hev. by apply progresses_refl.
  - by rewrite Hev.
  - exists []. by rewrite app_nil_r, Hc.
  - intros i v Hv Hend. left. exists v. injection Hev as Hev _. by rewrite <- Hev.
Qed.

(** ** A Hoare logic of steps *)

Definition triple {X} (P : world -> Prop) (K : string -> string -> Prop) (m : rm X) (Q : X -> world -> Prop) : Prop :=
  forall w r w', inv w -> P w -> m w = (r, w') -> advances K w w' /\ forall x, r = Ok x -> Q x w'.

Definition safe {X} (K : string -> string -> Prop) (m : rm X) (Q : X -> Prop) : Prop :=
  triple (fun _ => True) K m (fun x _ => Q x).

Lemma triple_bind {X Y} P K (m : rm X) (f : X -> rm Y) Q R :
  triple P K m Q -> (forall x, triple (Q x) K (f x) R) -> triple P K (sbind m f) R.
Proof.
  intros Hm Hf w r w' Hi Hp H. unfold sbind in H. destruct (m w) as [[x | e] w1] eqn:E1; destruct (Hm _ _ _ Hi Hp E1) as [Ha Hq].
  - destruct (Hf x _ _ _ (ad_inv _ _ _ Ha) (Hq x eq_refl) H) as [Hb Hr]. split; [by eapply advances_trans | done].
  - injection H as <- <-. split; [done |]. discriminate.
Qed.

Lemma safe_bind {X Y} K (m : rm X) (f : X -> rm Y) (Q : X -> Prop) R :
  safe K m Q -> (forall x, Q x -> safe K (f x) R) -> safe K (sbind m f) R.
Proof.
  intros Hm Hf. eapply triple_bind; [exact Hm |]. intros x w r w' Hi Hq H. exact (Hf x Hq w r w' Hi I H).
Qed.

Lemma safe_ret {X} K (x : X) (Q : X -> Prop) : Q x -> safe K (sret x) Q.
Proof. intros Hq w r w' Hi _ [= <- <-]. split; [by apply advances_refl |]. by intros y [= <-]. Qed.

Lemma safe_lift {X} K (r : res X) (Q : X -> Prop) : (forall x, r = Ok x -> Q x) -> safe K (lift r) Q.
Proof. intros Hq w r' w' Hi _ [= <- <-]. split; [by apply advances_refl | done]. Qed.

Lemma safe_lift_any {X} K (r : res X) : safe K (lift r) (fun _ => True).
Proof. by apply safe_lift. Qed.

Lemma safe_post {X} K (m : rm X) (Q Q' : X -> Prop) : safe K m Q -> (forall x, Q x -> Q' x) -> safe K m Q'.
Proof. intros Hm H w r w' Hi Hp E1. destruct (Hm w r w' Hi Hp E1) as [Ha Hq]. split; [done |]. intros x Hx. by apply H, Hq. Qed.

Lemma safe_any {X} K (m : rm X) Q : safe K m Q -> safe K m (fun _ => True).
Proof. intros Hm. by eapply safe_post. Qed.

Lemma safe_weaken {X} K K' (m : rm X) Q : (forall i d, K i d -> K' i d) -> safe K m Q -> safe K' m Q.
Proof.
  intros H Hm w r w' Hi Hp E1. destruct (Hm w r w' Hi Hp E1) as [Ha Hq]. split; [by eapply advances_weaken | done].
Qed.

Lemma safe_attempt {X} K (m : rm X) Q : safe K m Q -> safe K (attempt m) (fun r => forall x, r = Ok x -> Q x).
Proof.
  intros Hm w r w' Hi Hp E1. unfold attempt in E1. destruct (m w) as [r1 w1] eqn:E2. injection E1 as <- <-.
  destruct (Hm w r1 w1 Hi Hp E2) as [Ha Hq]. split; [done |]. by intros y [= <-].
Qed.

Lemma safe_sfold {A B} K (f : B -> A -> rm B) b l (Q : B -> Prop) :
  (forall b a, Q b -> a ∈ l -> safe K (f b a) Q) -> Q b -> safe K (sfold f b l) Q.
Proof.
  revert b. induction l as [| a l IH]; intros b Hf Hb; cbn [sfold]; [by apply safe_ret |].
  eapply safe_bind; [apply Hf; [done | by left] |]. intros b' Hb'. apply IH; [| done]. intros b2 a2 H2 Hin. apply Hf; [done | by right].
Qed.

(** ** Steps of the outside *)

Lemma safe_call {X} K (P : X -> Prop) (op : ext X) : ext_ok P op -> safe K (call op) P.
Proof.
  intros Hop w r w' Hi _ H. pose proof Hi as (_ & Hr & Hp & _). unfold call, zoom in H.
  destruct (op (outer w)) as [r1 o1] eqn:E1. injection H as <- <-.
  destruct (Hop (outer w) r1 o1 Hr E1) as [Hr' Hq]. split; [| exact Hq].
  apply advances_quiet; [exact Hi | exact Hr' | exact Hp | reflexivity | reflexivity].
Qed.

Lemma safe_memory K : safe K memory_of (fun _ => True).
Proof. intros w r w' Hi _ [= <- <-]. split; [by apply advances_refl | done]. Qed.

Lemma safe_modify K f : safe K (modify f) (fun _ => True).
Proof. intros w r w' Hi _ [= <- <-]. split; [| done]. pose proof Hi as (_ & Hr & Hp & _).
  apply advances_quiet; [exact Hi | exact Hr | exact Hp | reflexivity | reflexivity].
Qed.

Context (o : outside (T:=T) (E:=E)) (cfg : config) (Hout : outside_ok o).

Lemma now_clock w r w' : _now o w = (r, w') -> forall t, r = Ok t -> w_clock w' = t.
Proof.
  unfold _now, sbind, lift. destruct (call (o_now_fn o) w) as [[v |] w1]; [| by intros [= <- <-]].
  destruct (clock_value v); intros [= <- <-]; [by intros ? [= <-] | done].
Qed.

Lemma safe_now K : safe K (_now o) (fun _ => True).
Proof.
  unfold _now. eapply safe_bind; [apply safe_call, Hout |]. intros v _. eapply safe_bind; [apply safe_lift_any |].
  intros t _ w r w' Hi _ [= <- <-]. split; [| done]. pose proof Hi as (_ & Hr & Hp & _).
  apply advances_quiet; [exact Hi | exact Hr | exact Hp | reflexivity | reflexivity].
Qed.

Lemma safe_stopping K : safe K (_stopping o) (fun _ => True).
Proof.
  intros w r w' Hi _ H. unfold _stopping in H. destruct (o_stopping o (outer w)) as [b o1] eqn:E1. injection H as <- <-. split; [| done].
  pose proof Hi as (_ & Hr & Hp & _). pose proof (ok_stopping o Hout (outer w) Hr) as H. rewrite E1 in H.
  apply advances_quiet; [exact Hi | exact H | exact Hp | reflexivity | reflexivity].
Qed.

(** ** Steps on the stores *)

Lemma evidence_set_evidence (e : evidence (T:=T)) (w : world) : evidence_of (set_evidence e w) = e.
Proof. by destruct e. Qed.

(** An operation on the evidence under its own contract. *)
Lemma safe_evidence {X} K (m : sm (evidence (T:=T)) X) (Q : X -> Prop) :
  (forall e r e', evidence_ok zoneinfo e -> m e = (r, e') -> progresses zoneinfo e e' /\
    no_end zoneinfo (e_occ e) (e_occ e') /\ (forall i d, ~ K i d -> receipt_at e' i d = receipt_at e i d) /\ forall x, r = Ok x -> Q x) ->
  safe K (on_evidence m) Q.
Proof.
  intros Hm w r w' Hi _ H. unfold on_evidence, zoom in H. destruct (m (evidence_of w)) as [r1 e1] eqn:E1. injection H as <- <-.
  destruct Hi as (He & Hr & Hp & Ha). destruct (Hm _ _ _ He E1) as (Hpr & Hend & Honly & Hq). split; [| done]. split.
  - split; [rewrite evidence_set_evidence; by apply pr_ok in Hpr |]. do 2 (split; [done |]). rewrite evidence_set_evidence.
    by eapply admitted_all_kept.
  - by rewrite evidence_set_evidence.
  - intros i d Hk. rewrite evidence_set_evidence. by apply Honly.
  - exists []. by rewrite app_nil_r.
  - intros i v Hv Hv'. left. exact (Hend i v Hv Hv').
Qed.

Lemma safe_record K i did s r n a :
  good r -> good_args a -> (forall j x, at_most_at i did j x -> K j x) ->
  safe K (on_evidence (record zoneinfo i (VStr did) s r n a)) (fun _ => True).
Proof.
  intros Hr Ha HK. apply safe_evidence. intros e q e' Hok H. split; [| split; [| split; [| done]]].
  - pose proof (record_progress zoneinfo i (VStr did) s r n a e Hok Hr Ha) as Hp. by rewrite H in Hp.
  - apply no_end_same. pose proof (record_views zoneinfo i (VStr did) s r n a e Hok) as Hv. by rewrite H in Hv.
  - intros j x Hk. destruct (record_detail zoneinfo _ _ _ _ _ _ _ _ _ Hok Hr Ha H) as [[Hsame _] | (key & dev & z & g & -> & [= <-] & _ & Honly & _)]; [by apply Hsame |].
    apply Honly. destruct (decide (j = key)) as [-> |]; [right | by left]. intros ->. by apply Hk, HK.
Qed.

Lemma successor_only i did x n m p b (e : evidence (T:=T)) q e' :
  evidence_ok zoneinfo e -> good p -> good b -> successor_attempt zoneinfo i (VStr did) x n m p b e = (q, e') ->
  forall j y, ~ at_most_at i did j y -> receipt_at e' j y = receipt_at e j y.
Proof.
  intros Hok Hp Hb H j y Hk. unfold successor_attempt in H. unfold sbind at 1 in H. destruct (_admit zoneinfo i (VStr did) e) as [r0 e0] eqn:E0.
  pose proof (admit_same _ _ _ _ _ _ E0) as Hsame.
  assert (Hat : forall j x, receipt_at e0 j x = receipt_at e j x) by (intros; unfold receipt_at; by rewrite Hsame).
  destruct (admit_spec zoneinfo i (VStr did) e Hok) as (r1 & e1 & E1 & Hpr & _). rewrite E1 in E0. injection E0 as -> ->.
  destruct r0 as [[] |]; [| injection H as _ <-; apply Hat].
  do 3 (unfold sbind at 1, lift at 1 in H; destruct (_integer _ _ _ _); [| injection H as _ <-; apply Hat]).
  unfold sbind at 1, lift at 1 in H. destruct (_hex i "occurrence id") as [key |] eqn:Ek; [| injection H as _ <-; apply Hat].
  unfold sbind at 1, lift at 1 in H. destruct (_device_id (VStr did)) as [dev |] eqn:Ed; [| injection H as _ <-; apply Hat].
  destruct (update_detail zoneinfo e0 key dev (successor_row key dev a a0 a1 p b) (pr_ok _ _ _ Hpr)) as (q2 & e2 & E2 & Ho2 & _).
  { by apply successor_sane. }
  rewrite E2 in H. injection H as _ <-. apply hex_inv in Ek as [-> _]. apply device_id_inv in Ed as [= <-].
  rewrite Ho2, Hat; [done |]. destruct (decide (j = key)) as [-> |]; [right | by left]. intros ->. by apply Hk.
Qed.

Lemma safe_successor K i did x n m p b :
  good p -> good b -> (forall j y, at_most_at i did j y -> K j y) ->
  safe K (on_evidence (successor_attempt zoneinfo i (VStr did) x n m p b)) (fun _ => True).
Proof.
  intros Hp Hb HK. apply safe_evidence. intros e q e' Hok H. split; [| split; [| split; [| done]]].
  - pose proof (successor_progress zoneinfo i (VStr did) x n m p b e Hok Hp Hb) as Hpr. by rewrite H in Hpr.
  - apply no_end_same. pose proof (successor_views zoneinfo i (VStr did) x n m p b e Hok) as Hv. by rewrite H in Hv.
  - intros j y Hk. eapply successor_only; [exact Hok | exact Hp | exact Hb | exact H |]. intros Ha. by apply Hk, HK.
Qed.

(** Operations on the occurrences leave the receipts alone. *)
Lemma safe_occurrences {X} K (m : sm T X) (Q : X -> Prop) :
  (forall t r t', rs_ok (V:=_validate_occurrence zoneinfo) t -> m t = (r, t') ->
    rs_ok (V:=_validate_occurrence zoneinfo) t' /\ occ_extends zoneinfo t t' /\ no_end zoneinfo t t' /\ forall x, r = Ok x -> Q x) ->
  safe K (on_occurrences m) Q.
Proof.
  intros Hm. apply safe_evidence. intros e r e' [Ho Hf] H. unfold on_occ, zoom in H. destruct (m (e_occ e)) as [r1 t1] eqn:E1.
  injection H as <- <-. destruct (Hm _ _ _ Ho E1) as (Ho' & Hx & Hend & Hq). split; [| done]. split.
  - done.
  - done.
  - intros i d v Hv. by exists v.
  - intros i d v Hv. left. by exists v.
Qed.

Lemma safe_occ_op K (op : occ_op) {X} (m : sm T X) :
  good_occ_op op -> (forall t, snd (m t) = run_occ zoneinfo t op) -> keeps (ends_none zoneinfo) m ->
  safe K (on_occurrences m) (fun _ => True).
Proof.
  intros Hg Hrun Hend. apply safe_occurrences. intros t r t' Ho H. destruct (run_occ_extends zoneinfo t op Ho Hg) as [H1 H2].
  rewrite <- Hrun, H in H1, H2. cbn in H1, H2. split; [done |]. split; [done |]. split; [exact (proj2 (Hend _ _ _ H Ho)) | done].
Qed.

(** ** Reading *)

(** A read may settle a file, it does not change what it says. *)
Lemma file_read {X} i (m : sm T X) (e : evidence (T:=T)) r e' :
  evidence_ok zoneinfo e ->
  (forall t r t', rs_ok (V:=receipt_valid i) t -> m t = (r, t') -> rs_ok (V:=receipt_valid i) t' /\
    forall x, rs_view (V:=receipt_valid i) t' x = rs_view (V:=receipt_valid i) t x) ->
  on_file i m e = (r, e') -> progresses zoneinfo e e' /\ e_occ e' = e_occ e /\ forall j x, receipt_at e' j x = receipt_at e j x.
Proof.
  intros [Ho Hf] Hm H. unfold on_file in H. destruct (m (e_files e i)) as [r1 t1] eqn:E1. injection H as <- <-.
  destruct (Hm _ _ _ (Hf i) E1) as [Hok Hv].
  assert (Hat : forall j x, receipt_at (set_file e i t1) j x = receipt_at e j x).
  { intros j x. unfold receipt_at, set_file. cbn [e_files]. destruct (String.eqb_spec j i) as [-> |]; [apply Hv | done]. }
  split; [| by split]. split.
  - split; [done |]. intros j. unfold set_file. cbn [e_files]. destruct (String.eqb_spec j i) as [-> |]; [done | apply Hf].
  - by apply occ_extends_refl.
  - intros j d v Hv'. exists v. by rewrite Hat.
  - intros j d v Hv'. left. exists v. by rewrite <- Hat.
Qed.

Lemma receipt_read i did (e : evidence (T:=T)) r e' :
  evidence_ok zoneinfo e -> receipt_get i (VStr did) e = (r, e') ->
  progresses zoneinfo e e' /\ e_occ e' = e_occ e /\ (forall j x, receipt_at e' j x = receipt_at e j x) /\
  forall v, r = Ok v -> exists key, i = VStr key /\ v = receipt_at e key did.
Proof.
  intros Hok H. unfold receipt_get, sbind, lift in H. destruct (_hex i "occurrence id") as [key |] eqn:Ek.
  2:{ injection H as <- <-. split; [by apply progresses_refl | done]. }
  destruct (_device_id (VStr did)) as [dev |] eqn:Ed; [| injection H as <- <-; split; [by apply progresses_refl | done]].
  apply device_id_inv in Ed as [= <-]. apply hex_inv in Ek as [-> _].
  destruct (file_read key (rs_get (V:=receipt_valid key) did) e r e' Hok) as (Hp & Hoc & Hat); [| exact H |].
  { intros t q t' Ht Hq. destruct (rs_get_spec t did Ht) as (t2 & Hg & Hok2 & Hv). rewrite Hg in Hq. by injection Hq as _ <-. }
  split; [done |]. split; [done |]. split; [done |]. intros v ->. exists key. split; [done |]. unfold on_file in H.
  destruct (rs_get_spec (e_files e key) did (proj2 Hok key)) as (t2 & Hg & _ & _). rewrite Hg in H. by injection H as <- _.
Qed.

Lemma safe_get_receipt K i did : safe K (get_receipt (E:=E) i did) (fun _ => True).
Proof.
  unfold get_receipt. eapply safe_bind; [| intros; by apply safe_ret]. apply (safe_evidence _ _ (fun _ => True)). intros e r e' Hok H.
  destruct (receipt_read _ _ _ _ _ Hok H) as (Hp & Hoc & Hat & _). split; [done |]. split; [rewrite Hoc; by apply no_end_same | done].
Qed.

Lemma get_receipt_view i did w r w' :
  inv w -> get_receipt (E:=E) (VStr i) did w = (Ok r, w') -> r = dict_or_empty <$> receipt_at (evidence_of w) i did.
Proof.
  intros (He & _) H. unfold get_receipt in H. apply sbind_inv in H as (v & w1 & E1 & H). injection H as <- _.
  unfold on_evidence, zoom in E1. destruct (receipt_get (VStr i) (VStr did) (evidence_of w)) as [q e1] eqn:E2. injection E1 as -> _.
  destruct (receipt_read _ _ _ _ _ He E2) as (_ & _ & _ & Hv). destruct (Hv v eq_refl) as (key & [= <-] & ->). done.
Qed.

Lemma snapshot_read i (e : evidence (T:=T)) r e' :
  evidence_ok zoneinfo e -> on_file i (rs_snapshot (V:=receipt_valid i)) e = (r, e') ->
  progresses zoneinfo e e' /\ e_occ e' = e_occ e /\ (forall j x, receipt_at e' j x = receipt_at e j x) /\
  exists d, r = Ok d /\ NoDup (dkeys d) /\ forall x, dget d x = receipt_at e i x.
Proof.
  intros Hok H. destruct (file_read i (rs_snapshot (V:=receipt_valid i)) e r e' Hok) as (Hp & Hoc & Hat); [| exact H |].
  { intros t q t' Ht Hq. destruct (rs_snapshot_spec t Ht) as (d & t2 & Hg & Hok2 & Hv & _). rewrite Hg in Hq. by injection Hq as _ <-. }
  split; [done |]. split; [done |]. split; [done |]. unfold on_file in H.
  destruct (rs_snapshot_spec (e_files e i) (proj2 Hok i)) as (d & t2 & Hg & _ & _ & Hn & Hv). rewrite Hg in H. injection H as <- _. by exists d.
Qed.

Lemma completed_read i (e : evidence (T:=T)) r e' :
  evidence_ok zoneinfo e -> completed_device_ids i e = (r, e') ->
  progresses zoneinfo e e' /\ e_occ e' = e_occ e /\ (forall j x, receipt_at e' j x = receipt_at e j x) /\
  forall l, r = Ok l -> exists key, i = VStr key /\ NoDup l /\
    forall x, x ∈ l <-> exists v, receipt_at e key x = Some v /\ terminal (fld v "status") = true.
Proof.
  intros Hok H. unfold completed_device_ids, sbind, lift in H. destruct (_hex i "occurrence id") as [key |] eqn:Ek.
  2:{ injection H as <- <-. split; [by apply progresses_refl | done]. }
  apply hex_inv in Ek as [-> _].
  destruct (on_file key _ e) as [q e1] eqn:E1. destruct (snapshot_read _ _ _ _ Hok E1) as (Hp & Hoc & Hat & d & -> & Hn & Hv).
  injection H as <- <-. split; [done |]. split; [done |]. split; [done |]. intros l [= <-]. exists key. split; [done |].
  destruct (filtered_keys (fun kv => terminal (dget_or (dict_or_empty (snd kv)) "status" VNone)) d Hn) as [Hnd Hin].
  split; [exact Hnd |]. intros x. rewrite Hin. setoid_rewrite Hv. done.
Qed.

Lemma safe_completed K i : safe K (on_evidence (E:=E) (completed_device_ids i)) (fun _ => True).
Proof. apply safe_evidence. intros e r e' Hok H. destruct (completed_read _ _ _ _ Hok H) as (Hp & Hoc & Hat & _).
  split; [done |]. split; [rewrite Hoc; by apply no_end_same | done].
Qed.

Lemma safe_receipt_list K i limit offset : safe K (on_evidence (E:=E) (receipt_list i limit offset)) (fun _ => True).
Proof.
  apply safe_evidence. intros e r e' Hok H. assert (Hid : progresses zoneinfo e e) by (by apply progresses_refl).
  assert (Hnone : no_end zoneinfo (e_occ e) (e_occ e)) by (by apply no_end_same).
  unfold receipt_list in H. unfold sbind at 1, lift at 1 in H. destruct (_integer limit _ _ _); [| by injection H as <- <-].
  unfold sbind at 1, lift at 1 in H. destruct (_integer offset _ _ _); [| by injection H as <- <-].
  unfold sbind at 1, lift at 1 in H. destruct (_hex i "occurrence id") as [key |]; [| by injection H as <- <-].
  unfold sbind in H. destruct (on_file key _ e) as [q e1] eqn:E1. destruct (snapshot_read _ _ _ _ Hok E1) as (Hp & Hoc & Hat & d & -> & _).
  injection H as <- <-. by rewrite Hoc.
Qed.

Lemma stored_sound t k v : rs_ok (V:=_validate_occurrence zoneinfo) t -> rs_view (V:=_validate_occurrence zoneinfo) t k = Some v ->
  sound (dict_or_empty v) /\ v = VDict (dict_or_empty v).
Proof.
  intros Ht Hv. destruct (rs_row_ok _ _ _ Ht Hv) as [(_ & Hw & Hf & Hval) Hc]. rewrite Hc in Hval.
  destruct v as [| | | | | | d]; try discriminate Hval. split; [| done]. split; [by split | by exists k].
Qed.

Lemma safe_get_occurrence K i : safe K (get_occurrence zoneinfo (E:=E) i) (fun r => forall d, r = Some d -> sound d).
Proof.
  unfold get_occurrence. eapply safe_bind; [apply (safe_occurrences _ _ (fun r => forall v, r = Some v -> sound (dict_or_empty v))) |].
  - intros t r t' Ht H. unfold occ_get, sbind, lift in H. destruct (_hex i "occurrence id") as [key |].
    2:{ injection H as <- <-. split; [done |]. split; [by apply occ_extends_refl |]. split; [by apply no_end_same | done]. }
    destruct (rs_get_spec t key Ht) as (t2 & Hg & Hok2 & Hv). rewrite Hg in H. injection H as <- <-. split; [done |].
    split; [by apply occ_same_extends |]. split; [by apply no_end_same |]. intros x [= <-] v Hv'. exact (proj1 (stored_sound t key v Ht Hv')).
  - intros r Hr. apply safe_ret. intros d Hd. destruct r as [v |]; [| done]. injection Hd as <-. by apply Hr.
Qed.

(** An operation on the schedule store that keeps its three files readable. *)
Lemma safe_sched {X} K (m : sm (sched (T:=T)) X) (Q : X -> Prop) :
  (forall s r s', rows_ok (s_rows s) -> prog_ok (s_progress s) -> rs_ok (V:=_validate_occurrence zoneinfo) (s_occ s) -> m s = (r, s') ->
    rows_ok (s_rows s') /\ prog_ok (s_progress s') /\ rs_ok (V:=_validate_occurrence zoneinfo) (s_occ s') /\
    occ_extends zoneinfo (s_occ s) (s_occ s') /\ no_end zoneinfo (s_occ s) (s_occ s') /\ forall x, r = Ok x -> Q x) ->
  safe K (on_sched m) Q.
Proof.
  intros Hm w r w' Hi _ H. unfold on_sched, zoom in H. destruct (m (w_sched w)) as [r1 s1] eqn:E1. injection H as <- <-.
  destruct Hi as ([Ho Hf] & Hr & Hp & Ha). destruct (Hm _ _ _ Hr Hp Ho E1) as (Hr' & Hp' & Ho' & Hx & Hend & Hq). split; [| exact Hq].
  set (w2 := World _ s1 _ _ _ _). assert (Hpr : progresses zoneinfo (evidence_of w) (evidence_of w2)).
  { split; [by split | exact Hx | |].
    - intros i d v Hv. by exists v.
    - intros i d v Hv. left. by exists v. }
  split.
  - split; [by split |]. split; [done |]. split; [done |]. by eapply admitted_all_kept.
  - exact Hpr.
  - done.
  - exists []. by rewrite app_nil_r.
  - intros i v Hv Hv'. left. exact (Hend i v Hv Hv').
Qed.

Lemma sched_get_read sid s r s' :
  rows_ok (s_rows s) -> sched_get zoneinfo sid s = (r, s') ->
  rows_ok (s_rows s') /\ (forall x, rows_view (s_rows s') x = rows_view (s_rows s) x) /\
  s_progress s' = s_progress s /\ s_occ s' = s_occ s /\
  forall v, r = Ok v -> exists key, sid = VStr key /\ v = rows_view (s_rows s) key /\ forall d, v = Some d -> good d.
Proof.
  intros Hr H. unfold sched_get, sbind, lift in H. destruct (_identifier sid "id") as [key |] eqn:Ek; [| by injection H as <- <-].
  unfold zoom in H. destruct (rs_get_spec (s_rows s) key Hr) as (t & Hg & Hok & Hv). rewrite Hg in H. injection H as <- <-.
  split; [done |]. split; [done |]. split; [done |]. split; [done |]. intros v [= <-]. exists key.
  apply identifier_inv in Ek as [-> _]. split; [done |]. split; [done |]. intros d Hd.
  destruct (rs_row_ok _ _ _ Hr Hd) as [(_ & Hw & Hf & _) _]. by split.
Qed.

Lemma safe_get_schedule K sid : safe K (get_schedule zoneinfo (E:=E) sid) (fun r => forall d, r = Some d -> good (VDict d)).
Proof.
  unfold get_schedule. eapply safe_bind; [apply (safe_sched _ _ (fun r => forall v, r = Some v -> good v)) |].
  - intros s r s' Hr Hp Ho H. destruct (sched_get_read _ _ _ _ Hr H) as (Hr' & _ & -> & -> & Hq).
    do 3 (split; [done |]). split; [by apply occ_extends_refl |]. split; [by apply no_end_same |].
    intros x Hx v ->. destruct (Hq _ Hx) as (_ & _ & _ & Hg). by apply Hg.
  - intros r Hr. apply safe_ret. intros d Hd. destruct r as [v |]; [| done]. injection Hd as <-. apply good_dict_or_empty. by apply Hr.
Qed.

(** ** The parts of the runner *)

Create HintDb safe discriminated.
#[local] Hint Resolve safe_now safe_stopping safe_memory safe_modify safe_get_receipt safe_get_occurrence safe_get_schedule
  safe_completed safe_receipt_list safe_lift_any : safe.

(** Splits a computation at its steps; each step is a known one. *)
Ltac safe_walk :=
  repeat match goal with
  | |- safe _ (sbind _ _) _ => eapply safe_bind; [solve [eauto 2 with safe nocore] | intros ? ?]
  | |- safe _ (if ?b then _ else _) _ => destruct b eqn:?
  | |- safe _ (match ?x with _ => _ end) _ => destruct x eqn:?
  | |- safe _ (sret _) _ => apply safe_ret; try exact I
  | |- safe _ (lift (Err _)) _ => apply safe_lift; discriminate
  end.

Lemma safe_acknowledge K r : safe K (_acknowledge o r) (fun _ => True).
Proof.
  unfold _acknowledge. destruct (o_acknowledge o) as [f |] eqn:Ef; [| safe_walk].
  eapply safe_bind; [apply safe_attempt, safe_call, (ok_ack o Hout f r Ef) |]. intros q _. safe_walk.
Qed.
#[local] Hint Resolve safe_acknowledge : safe.

Lemma result_good v d : good v -> _result v = Ok d -> good (VDict d) /\ exists r, fieldv d "reason" = VStr r.
Proof.
  intros Hg H. destruct v as [| | | | | | d']; try discriminate H. cbn [_result] in H.
  head H as E1. head H as E2. head H as E3. head H as E4. head H as E5. head H as E6. injection H as <-.
  split; [done |]. destruct (fieldv d' "reason") as [| | | | r | |]; try discriminate E4. by exists r.
Qed.

Lemma metadata_good d rev : good (VDict d) -> good_args (metadata_args d rev).
Proof.
  intros Hd. assert (Hf : forall k, good (fieldv d k)) by (intros k; unfold fieldv; auto with py).
  split; cbn [a_notes a_job_id a_record_id a_predecessor_record_id a_manual_generation a_before_image_ids a_after_image_ids
    a_removed_image_ids a_fleet_registration_id a_wave a_fleet_registered_at metadata_args].
  - repeat (apply Forall_cons; split; [apply Hf || exact good_none |]). apply Forall_nil_2.
  - destruct (dget d "fleet_registered_at") eqn:Ef; [exact (good_dget _ _ _ Hd Ef) | done].
Qed.

Section device.
Context (K : string -> string -> Prop) (occ : dict) (did : string).
Context (HK : forall j x, at_most_at (fieldv occ "id") did j x -> K j x).

Lemma safe_save prior v : good v -> safe K (_save zoneinfo o cfg occ did prior v) (fun _ => True).
Proof.
  intros Hv. unfold _save. eapply safe_bind; [apply safe_lift; intros d Hd; exact (result_good _ _ Hv Hd) |]. intros d [Hd (r & Hr)].
  destruct (py_eq _ (VStr "retry")); [apply safe_lift; discriminate |]. destruct (in_strs _ _ && _); [apply safe_lift; discriminate |].
  eapply safe_bind; [apply safe_now |]. intros now _.
  eapply safe_bind; [apply safe_record; [rewrite Hr; apply good_str | by apply metadata_good | exact HK] |]. intros saved _.
  eapply (safe_bind _ _ _ (fun _ => True)); [safe_walk; apply safe_modify |]. intros _ _.
  eapply (safe_bind _ _ _ (fun _ => True)); [safe_walk; apply safe_acknowledge |]. intros _ _. by apply safe_ret.
Qed.

Lemma safe_finish prior r status wave :
  good wave -> safe K (_finish_unsubmitted zoneinfo o occ did prior (VStr r) status wave) (fun _ => True).
Proof.
  intros Hw. unfold _finish_unsubmitted. eapply safe_bind; [apply safe_now |]. intros now _.
  eapply safe_bind; [apply safe_record; [apply good_str | | exact HK] |].
  - split; [| exact I]. cbn. repeat (apply Forall_cons; split; [exact good_none || exact Hw |]). apply Forall_nil_2.
  - intros saved _. safe_walk.
Qed.

Lemma safe_retry prior d closed : good (VDict d) -> safe K (_retry zoneinfo o cfg occ did prior d closed) (fun _ => True).
Proof.
  intros Hd. assert (Hf : forall k, good (fieldv d k)) by (intros k; unfold fieldv; auto with py).
  unfold _retry. destruct closed as [r |].
  - destruct (String.eqb r "window_not_open"); [apply safe_save; good_tac | apply safe_finish, good_none].
  - destruct (negb _); [apply safe_lift; discriminate |]. destruct (_ <=? _); [apply safe_finish, good_none |].
    eapply safe_bind; [apply safe_now |]. intros now _. eapply safe_bind; [apply safe_successor; [apply Hf | apply Hf | exact HK] |].
    intros q _. safe_walk.
Qed.

Lemma safe_waiting : safe K (waiting o occ did) (fun _ => True).
Proof. unfold waiting. safe_walk. Qed.

Lemma safe_poll prior closed : safe K (_poll zoneinfo o cfg occ did prior closed) (fun _ => True).
Proof.
  unfold _poll. eapply safe_bind; [apply safe_waiting |]. intros [] _; [by apply safe_ret |].
  eapply safe_bind; [apply safe_call, Hout |]. intros answer Ha.
  eapply safe_bind; [apply safe_lift; intros d Hd; exact (result_good _ _ Ha Hd) |]. intros d [Hd _].
  destruct (py_eq _ _); [by apply safe_retry | by apply safe_save].
Qed.
End device.

Lemma safe_closed K occ : safe K (_closed_reason zoneinfo o occ) (fun _ => True).
Proof. unfold _closed_reason. safe_walk. Qed.
#[local] Hint Resolve safe_closed : safe.

Lemma safe_admission K occ : safe K (_admission_reason zoneinfo o occ) (fun _ => True).
Proof.
  unfold _admission_reason. eapply safe_bind; [apply safe_closed |]. intros [r |] _; [by apply safe_ret |].
  eapply safe_bind; [apply (safe_attempt _ _ (fun _ => True)) |].
  - eapply safe_bind; [apply safe_call, Hout |]. intros _ _. apply safe_closed.
  - intros q _. safe_walk.
Qed.
#[local] Hint Resolve safe_admission : safe.

(** ** The gate *)

Lemma safe_wave_record K occ counted : good counted -> safe K (_wave_record o occ counted) (fun d => good (VDict d)).
Proof.
  intros Hg. unfold _wave_record. destruct counted as [| | | | | | d]; try (apply safe_lift; discriminate).
  destruct (negb _); [apply safe_lift; discriminate |]. destruct (negb _); [apply safe_lift; discriminate |].
  eapply safe_bind; [apply safe_now |]. intros now _. apply safe_lift. intros x Hx. eapply normalize_wave_good; [| exact Hx]. auto with py.
Qed.

Lemma safe_stored_wave K oid : safe K (stored_wave zoneinfo (E:=E) oid) (fun r => forall w, r = Some w -> good (VDict w)).
Proof.
  unfold stored_wave. eapply safe_bind; [apply safe_get_occurrence |]. intros row Hrow. apply safe_ret. intros w Hw.
  assert (Hr : good (VDict (default [] row))) by (destruct row as [d |]; [exact (proj1 (Hrow d eq_refl)) | apply good_empty]).
  assert (Hf : good (fieldv (sub (default [] row) "annotations") "wave")) by (unfold sub, fieldv; auto 10 with py).
  destruct (fieldv _ "wave") as [| | | | | | d]; try done. by injection Hw as <-.
Qed.

Lemma no_counts_good occ : good (VDict occ) -> good (no_counts (sub (sub occ "schedule") "after")).
Proof.
  intros Ho. assert (good (fieldv (sub (sub occ "schedule") "after") "schedule_id")) by (unfold sub, fieldv; auto 10 with py).
  unfold no_counts. good_tac.
Qed.

Lemma safe_wave_evaluate K occ stored expired f :
  good (VDict occ) -> (forall w, stored = Some w -> good (VDict w)) -> o_wave_counts o = Some f ->
  safe K (wave_evaluate zoneinfo o occ (sub (sub occ "schedule") "after") stored expired f)
    (fun g => forall c, g_counts g = Some c -> good (VDict c)).
Proof.
  intros Ho Hs Hf. unfold wave_evaluate. eapply safe_bind; [apply safe_attempt, safe_call, (ok_wave o Hout f _ _ Hf) |].
  intros q Hq. destruct q as [counted | e].
  - eapply safe_bind; [apply safe_wave_record, (Hq _ eq_refl) |]. intros counts Hc.
    set (counts' := if _wave_open _ counts then _ else _).
    assert (Hc' : good (VDict counts')) by (unfold counts'; destruct (_wave_open _ _); auto with py).
    eapply safe_bind; [apply safe_now |]. intros now _.
    eapply safe_bind; [apply (safe_occ_op _ (OccWave (fieldv occ "id") (VDict counts') (VInt now))); [exact Hc' | done | by apply wave_ends] |].
    intros _ _. apply safe_ret. by intros c [= <-].
  - destruct e; try (apply safe_lift; discriminate). destruct expired; [| apply safe_lift; discriminate].
    eapply (safe_bind _ _ _ (fun d => good (VDict d))).
    + destruct stored as [w |]; [apply safe_ret; by apply Hs | by apply safe_wave_record, no_counts_good].
    + intros c Hc. apply safe_ret. by intros c' [= <-].
Qed.

Lemma safe_wave K occ :
  good (VDict occ) -> safe K (_wave zoneinfo o cfg occ) (fun r => forall g c, r = Some g -> g_counts g = Some c -> good (VDict c)).
Proof.
  intros Ho. unfold _wave. eapply safe_bind; [apply safe_receipt_list |]. intros pg _. destruct (negb _); [by apply safe_ret |].
  eapply safe_bind; [apply safe_now |]. intros now _. eapply safe_bind; [apply safe_stored_wave |]. intros stored Hs.
  destruct (match stored with Some w => _ | None => _ end) eqn:Eo.
  { apply safe_ret. intros g c [= <-] Hc. by apply Hs. }
  eapply safe_bind; [apply safe_memory |]. intros m _. destruct (negb _ && _); [apply safe_ret; by intros g c [= <-] |].
  eapply safe_bind; [apply safe_modify |]. intros _ _. destruct (o_wave_counts o) as [f |] eqn:Ef; [| apply safe_ret; by intros g c [= <-]].
  eapply safe_bind; [by apply safe_wave_evaluate |]. intros g Hg. apply safe_ret. intros g' c [= <-]. apply Hg.
Qed.

Lemma safe_wave_held K occ : safe K (_wave_held zoneinfo (E:=E) occ) (fun _ => True).
Proof. unfold _wave_held. destruct (negb _); [by apply safe_ret |]. eapply safe_bind; [apply safe_stored_wave |]. intros w _. by apply safe_ret. Qed.

(** ** Cancellation and the start of an occurrence *)

Lemma safe_owned K occ : safe K (owned_jobs (E:=E) occ) (fun _ => True).
Proof. unfold owned_jobs. apply safe_sfold; [| done]. intros l did _ _. safe_walk. Qed.
#[local] Hint Resolve safe_owned : safe.

Lemma safe_cancel K occ attempted : safe K (_cancel_closed zoneinfo o occ attempted) (fun _ => True).
Proof.
  intros w r w' Hi _ H. split; [| done]. unfold _cancel_closed in H. set (look := sbind _ _) in H.
  assert (Hl : safe K look (fun _ => True)) by (unfold look; safe_walk).
  destruct (look w) as [[[owned |] |] w1] eqn:El; destruct (Hl _ _ _ Hi I El) as [Ha _]; [| by injection H as _ <- ..].
  destruct (filter _ owned) as [| j js]; [by injection H as _ <- |].
  match type of H with context [call ?op w1] => destruct (call op w1) as [r2 w2] eqn:Ec;
    destruct (safe_call K (fun _ => True) op (ok_cancel o Hout _ _) w1 r2 w2 (ad_inv _ _ _ Ha) I Ec) as [Hb _] end.
  injection H as _ <-. by eapply advances_trans.
Qed.
#[local] Hint Resolve safe_cancel : safe.

Lemma safe_validate K occ : safe K (validate_start o occ) (fun _ => True).
Proof.
  unfold validate_start. eapply safe_bind; [apply safe_memory |]. intros m _. destruct (decide _); [by apply safe_ret |].
  eapply safe_bind; [apply safe_call, Hout |]. intros answer Ha. destruct (is_none answer); [safe_walk |].
  eapply safe_bind; [apply safe_lift_any |]. intros d _. safe_walk.
Qed.

Lemma safe_check_start K occ :
  good (VDict occ) -> safe K (check_start zoneinfo o cfg occ) (fun r => forall refusal wave, r = Some (refusal, wave) -> good wave).
Proof.
  intros Ho. unfold check_start.
  eapply (safe_bind _ _ _ (fun r => forall refusal wave, r = Some (refusal, wave) -> good wave)).
  - destruct (targets_of occ); [apply safe_ret; by intros ? ? [= <- <-] |].
    destruct (dhas _ _); [| apply safe_ret; by intros ? ? [= <- <-]].
    eapply safe_bind; [by apply safe_wave |]. intros g Hg. apply safe_ret. intros refusal wave. unfold gate_decision.
    destruct g as [g |]; [| by intros [= <- <-]]. destruct (String.eqb _ "open"); [by intros [= <- <-] |].
    destruct (String.eqb _ "unavailable"); [by intros [= <- <-] |]. destruct (negb _); [done |]. intros [= <- <-].
    destruct (g_counts g) as [c |] eqn:Ec; [exact (Hg g c eq_refl Ec) | done].
  - intros [[[refusal |] wave] |] Hg; [apply safe_ret; by intros ? ? [= <- <-]; eapply Hg | | by apply safe_ret].
    eapply safe_bind; [apply safe_validate |]. intros refusal _. apply safe_ret. intros ? ? [= <- <-]. by eapply Hg.
Qed.

(** Facts that later evidence does not take back. *)
Definition lasting (P : world -> Prop) : Prop :=
  forall w w', progresses zoneinfo (evidence_of w) (evidence_of w') -> P w -> P w'.

(** The row the runner holds is a version of the one on disk: same id, same targets. *)
Definition current (occ : dict) (w : world) : Prop :=
  exists i v, fieldv occ "id" = VStr i /\ occ_view (s_occ (w_sched w)) i = Some v /\
    fld v "target_snapshot" = fieldv occ "target_snapshot".

Lemma current_kept occ : lasting (current occ).
Proof.
  intros w w' Hp (i & v & Hi & Hv & Ht). destruct (pr_occ _ _ _ Hp i v Hv) as (v' & Hv' & [Hf _ _ _]). exists i, v'.
  split; [done |]. split; [exact Hv' |]. rewrite (Hf "target_snapshot") by by_eval. exact Ht.
Qed.

Lemma get_occurrence_current K i :
  triple (fun _ => True) K (get_occurrence zoneinfo i) (fun r w => forall d, r = Some d -> sound d /\ current d w).
Proof.
  intros w r w' Hi _ H. destruct (safe_get_occurrence K i w r w' Hi I H) as [Ha Hq]. split; [exact Ha |]. intros x -> d ->.
  split; [by eapply Hq |]. unfold get_occurrence in H. apply sbind_inv in H as (v & w1 & E1 & H). injection H as Hv <-.
  unfold on_occurrences, on_evidence, on_occ, zoom in E1.
  destruct (occ_get zoneinfo i (e_occ (evidence_of w))) as [q t] eqn:E2. injection E1 as -> <-.
  unfold occ_get, sbind, lift in E2. destruct (_hex i "occurrence id") as [key |]; [| discriminate E2].
  destruct Hi as ([Ho _] & _). destruct (rs_get_spec (s_occ (w_sched w)) key Ho) as (t2 & Hg & Hok & Hvv).
  cbn [evidence_of e_occ] in E2. rewrite Hg in E2. injection E2 as <- <-.
  destruct (occ_view (s_occ (w_sched w)) key) as [u |] eqn:Eu; [| discriminate Hv]. injection Hv as <-.
  destruct (stored_occurrence zoneinfo _ key u Ho Eu) as (d & st & up & -> & _ & _ & Hval & _).
  destruct (validated_id zoneinfo _ _ Hval) as [Hid _]. exists key, (VDict d). cbn [w_sched s_occ set_evidence e_occ].
  rewrite Hvv. split; [exact Hid |]. done.
Qed.

(** What [transition] writes. *)
Lemma transition_detail i st n e t d t' :
  rs_ok (V:=_validate_occurrence zoneinfo) t -> good st -> occ_transition zoneinfo i st n e t = (Ok d, t') ->
  exists key v, i = VStr key /\ occ_view t key = Some v /\ (forall x, x <> key -> occ_view t' x = occ_view t x) /\
    good (VDict d) /\ _validate_occurrence zoneinfo key (VDict d) = Ok tt /\ fieldv d "target_snapshot" = fld v "target_snapshot".
Proof.
  intros Ht Hst H. unfold occ_transition in H. destruct (_hex i _) as [key |] eqn:Ek; cbn [mbind res_bind] in H; [| discriminate H].
  destruct (_integer n _ _ _) as [z |]; cbn [mbind res_bind] in H; [| discriminate H].
  destruct (decide_spec zoneinfo t key (fun old => lift (transition_row zoneinfo key st z e old)) (transition_row zoneinfo key st z e) Ht (fun _ => eq_refl))
    as (q & t2 & E2 & _ & Hne & _ & Hm); [apply transition_sane | done |]. rewrite E2 in H. injection H as -> ->. destruct Hm as [Hrow _].
  destruct (occ_view t key) as [v |] eqn:Ev; [| discriminate Hrow].
  destruct (stored_occurrence zoneinfo t key v Ht Ev) as (dv & cur & u & -> & Hg & _ & Hval & _). apply hex_inv in Ek as [-> _].
  exists key, (VDict dv). do 3 (split; [done |]). unfold transition_row in Hrow. head Hrow as E3. rewrite dict_or_empty_dict in Hrow.
  destruct (py_eq st _); [by injection Hrow as <- |]. head Hrow as E4. head Hrow as E5. head Hrow as E6. injection Hrow as <-. units.
  split; [auto 10 with py |]. split; [done |]. change (fieldv ?d ?k) with (fld (VDict d) k). by rewrite !fld_dset.
Qed.

Lemma transition_err i st n e t x t' :
  rs_ok (V:=_validate_occurrence zoneinfo) t -> occ_transition zoneinfo i st n e t = (Err x, t') -> forall k, occ_view t' k = occ_view t k.
Proof.
  intros Ht H. unfold occ_transition in H. destruct (_hex i _) as [key |]; cbn [mbind res_bind] in H; [| by injection H as _ <-].
  destruct (_integer n _ _ _) as [z |]; cbn [mbind res_bind] in H; [| by injection H as _ <-].
  destruct (decide_spec zoneinfo t key (fun old => lift (transition_row zoneinfo key st z e old)) (transition_row zoneinfo key st z e) Ht (fun _ => eq_refl))
    as (q & t2 & E2 & _ & _ & _ & Hm); [apply transition_sane | done |]. rewrite E2 in H. injection H as -> ->. apply Hm.
Qed.

(** A transition that ends an occurrence needs a reported one. *)
Lemma transition_triple (P : world -> Prop) K i st n e :
  good st ->
  in_strs st final_states = false \/ (forall w key v, P w -> i = VStr key -> occ_view (s_occ (w_sched w)) key = Some v -> reported (evidence_of w) key v) ->
  triple P K (on_occurrences (E:=E) (occ_transition zoneinfo i st n e)) (fun d w => (sound d /\ fieldv d "id" = i) /\ current d w).
Proof.
  intros Hst Hcase w r w' Hi HP H. unfold on_occurrences, on_evidence, on_occ, zoom in H. cbn [evidence_of e_occ] in H.
  destruct (occ_transition zoneinfo i st n e (s_occ (w_sched w))) as [q t'] eqn:E1. injection H as <- <-.
  destruct Hi as ([Ho Hf] & Hr & Hp & Ha). cbn [evidence_of e_occ] in Ho. destruct (transition_extends zoneinfo i st n e (s_occ (w_sched w)) Ho) as [H1 H2]. rewrite E1 in H1, H2. cbn [snd] in H1, H2.
  set (w2 := set_evidence _ w). assert (Hpr : progresses zoneinfo (evidence_of w) (evidence_of w2)).
  { split; [by split | exact H2 | |]; [intros j x v Hv; by exists v | intros j x v Hv; left; by exists v]. }
  split; [split |].
  - split; [by split |]. split; [done |]. split; [done |]. by eapply admitted_all_kept.
  - exact Hpr.
  - done.
  - exists []. by rewrite app_nil_r.
  - intros j v' Hv' He. destruct Hcase as [Hno | Hset].
    { left. exact (proj2 (transition_ends zoneinfo i st n e Hno _ _ _ E1 Ho) j v' Hv' He). }
    destruct q as [d |].
    + destruct (transition_detail _ _ _ _ _ _ _ Ho Hst E1) as (key & v & -> & Hv & Hne & _).
      destruct (decide (j = key)) as [-> | Hj]; [right | left; exists v'; split; [rewrite <- (Hne j Hj); exact Hv' | exact He]].
      destruct (H2 key v Hv) as (v2 & Hv2 & [Hfr _ _ _]). cbn in Hv'. assert (v2 = v') as -> by congruence.
      eapply reported_kept; [exact Hpr | apply Hfr; by_eval | by eapply Hset].
    + left. exists v'. split; [rewrite <- (transition_err _ _ _ _ _ _ _ Ho E1 j); exact Hv' | exact He].
  - intros d ->. destruct (transition_detail _ _ _ _ _ _ _ Ho Hst E1) as (key & v & -> & Hv & _ & Hg & Hval & Hts).
    destruct (validated_id zoneinfo _ _ Hval) as [Hid _]. split; [split; [split; [done | by exists key] | exact Hid] |].
    destruct (H2 key v Hv) as (v2 & Hv2 & [Hfr _ _ _]). exists key, v2. split; [exact Hid |]. split; [exact Hv2 |].
    rewrite Hts. apply Hfr. by_eval.
Qed.

(** ** Admission *)

(** The window is open by the last reading of the clock, and the schedule is the one
    the occurrence froze. *)
Definition open_for (occ : dict) (w : world) : Prop :=
  int_of (fieldv occ "scheduled_at") <= w_clock w < int_of (fieldv occ "window_end") /\
  exists sid live, fieldv occ "schedule_id" = VStr sid /\ rows_view (s_rows (w_sched w)) sid = Some live /\
    py_eq (fieldv (dict_or_empty live) "generation") (fieldv occ "schedule_generation") = true /\
    definition_differs (dict_or_empty live) (sub occ "schedule") = false.

Lemma closed_open occ w w' : inv w -> _closed_reason zoneinfo o occ w = (Ok None, w') -> open_for occ w'.
Proof.
  intros Hi H. unfold _closed_reason in H. apply sbind_inv in H as (stop & w1 & E1 & H). destruct stop; [discriminate H |].
  destruct (safe_stopping nothing _ _ _ Hi I E1) as [Ha1 _].
  apply sbind_inv in H as (now & w2 & E2 & H). pose proof (now_clock _ _ _ E2 now eq_refl) as Hclock.
  destruct (safe_now nothing _ _ _ (ad_inv _ _ _ Ha1) I E2) as [Ha2 _]. pose proof (ad_inv _ _ _ Ha2) as (_ & Hr2 & _).
  destruct (now <? int_of (fieldv occ "scheduled_at")) eqn:Elo; [discriminate H |].
  destruct (int_of (fieldv occ "window_end") <=? now) eqn:Ehi; [discriminate H |].
  apply sbind_inv in H as (live & w3 & E3 & H). injection H as Hlive <-.
  unfold get_schedule in E3. apply sbind_inv in E3 as (v & w4 & E4 & E3). injection E3 as <- <-.
  unfold on_sched, zoom in E4. destruct (sched_get zoneinfo (fieldv occ "schedule_id") (w_sched w2)) as [q s4] eqn:E5. injection E4 as -> <-.
  destruct (sched_get_read _ _ _ _ Hr2 E5) as (_ & Hv & _ & _ & Hq). destruct (Hq v eq_refl) as (sid & Hsid & -> & _).
  destruct (rows_view (s_rows (w_sched w2)) sid) as [lv |] eqn:Elv; [| discriminate Hlive]. cbn in Hlive.
  destruct (negb _ || _) eqn:Ed; [discriminate Hlive |]. apply orb_false_iff in Ed as [Eg Ed]. apply negb_false_iff in Eg.
  split; [cbn [w_clock]; rewrite Hclock; lia |]. exists sid, lv. cbn [w_sched]. rewrite Hv. done.
Qed.

Lemma admission_open occ w w' : inv w -> _admission_reason zoneinfo o occ w = (Ok None, w') -> open_for occ w'.
Proof.
  intros Hi H. unfold _admission_reason in H. apply sbind_inv in H as ([r |] & w1 & E1 & H); [discriminate H |].
  destruct (safe_closed nothing _ _ _ _ Hi I E1) as [Ha1 _].
  apply sbind_inv in H as (q & w2 & E2 & H). unfold attempt in E2.
  destruct (sbind _ _ w1) as [q2 w3] eqn:E3. injection E2 as -> ->.
  destruct q as [[r |] | e]; [discriminate H | | destruct e; discriminate H]. injection H as <-.
  apply sbind_inv in E3 as ([] & w4 & E4 & E3).
  destruct (safe_call nothing (fun _ => True) _ (ok_guard o Hout _) _ _ _ (ad_inv _ _ _ Ha1) I E4) as [Ha2 _].
  exact (closed_open _ _ _ (ad_inv _ _ _ Ha2) E3).
Qed.

(** ** One device *)

(** Steps that touch no receipt keep what is known of one. *)
Lemma triple_quiet {X} K (P : world -> Prop) (m : rm X) (Q : X -> Prop) :
  (forall w w', (forall i d, receipt_at (evidence_of w') i d = receipt_at (evidence_of w) i d) -> P w -> P w') ->
  safe nothing m Q -> triple P K m (fun x w => Q x /\ P w).
Proof.
  intros HP Hm w r w' Hi Hp H. destruct (Hm w r w' Hi I H) as [Ha Hq]. split; [by eapply advances_weaken; [| exact Ha] |].
  intros x Hx. split; [by apply Hq |]. eapply HP; [| exact Hp]. intros i d. apply (ad_only _ _ _ Ha). by intros [].
Qed.

Lemma triple_safe {X} P K (m : rm X) Q : safe K m Q -> triple P K m (fun x _ => Q x).
Proof. intros Hm w r w' Hi _ H. exact (Hm w r w' Hi I H). Qed.

Lemma triple_pre {X} (P P' : world -> Prop) K (m : rm X) Q : (forall w, P' w -> P w) -> triple P K m Q -> triple P' K m Q.
Proof. intros H Hm w r w' Hi Hp E1. exact (Hm w r w' Hi (H w Hp) E1). Qed.

Lemma triple_fact {X} (F : Prop) K (m : rm X) Q : (F -> safe K m Q) -> triple (fun _ => F) K m (fun x _ => Q x).
Proof. intros H w r w' Hi Hf E1. exact (H Hf w r w' Hi I E1). Qed.

(** A step that touches no receipt, before one that relies on a receipt. *)
Lemma triple_after {X Y} K (P : world -> Prop) (m : rm X) (f : X -> rm Y) (Q : X -> Prop) R :
  (forall w w', (forall i d, receipt_at (evidence_of w') i d = receipt_at (evidence_of w) i d) -> P w -> P w') ->
  safe nothing m Q -> (forall x, Q x -> triple P K (f x) R) -> triple P K (sbind m f) R.
Proof.
  intros HP Hm Hf. eapply triple_bind; [apply (triple_quiet K P m Q HP Hm) |]. intros x w r w' Hi [Hq Hp] H. exact (Hf x Hq w r w' Hi Hp H).
Qed.

Section serve.
Context (oid : string) (occ : dict) (Hvalid : _validate_occurrence zoneinfo oid (VDict occ) = Ok tt).
Context (did : string) (Htarget : did ∈ targets_of occ).
#[local] Abbreviation here := (at_most_at (fieldv occ "id") did).

(** The intent is on disk. *)
Definition intended (intent : dict) (w : world) : Prop :=
  exists i, fieldv occ "id" = VStr i /\ receipt_at (evidence_of w) i did = Some (sort_keys (VDict intent)) /\
    fieldv intent "status" = VStr "intent".

(** What is known of the receipt read before the device is served. *)
Definition prior_known (prior : option dict) (w : world) : Prop :=
  match prior with
  | Some p => intended p w
  | None => forall i, fieldv occ "id" = VStr i -> receipt_at (evidence_of w) i did = None
  end.

Lemma intended_stable intent w w' :
  (forall i d, receipt_at (evidence_of w') i d = receipt_at (evidence_of w) i d) -> intended intent w -> intended intent w'.
Proof. intros H (i & H1 & H2 & H3). exists i. by rewrite H. Qed.

Lemma prior_stable prior w w' :
  (forall i d, receipt_at (evidence_of w') i d = receipt_at (evidence_of w) i d) -> prior_known prior w -> prior_known prior w'.
Proof. intros H. destruct prior; cbn; [by apply intended_stable |]. intros Hn i Hi. rewrite H. by apply Hn. Qed.

(** [begin] writes the intent of a device that has no receipt. *)
Lemma begin_intended now :
  triple (prior_known None) here (on_evidence (begin zoneinfo (fieldv occ "id") (VStr did) (VInt now) VNone VNone VNone)) intended.
Proof.
  intros w r w' Hi Hp H. assert (Hargs : good_args (RecordArgs VNone VNone VNone VNone VNone VNone VNone VNone VNone VNone None VNone VNone)).
  { split; [| exact I]. cbn. repeat (apply Forall_cons; split; [exact good_none |]). apply Forall_nil_2. }
  unfold begin in H. split; [by apply (safe_record here _ _ (VStr "intent") _ (VInt now) _ (good_str "pending") Hargs (fun _ _ H => H) _ _ _ Hi I H) |].
  intros intent ->. unfold on_evidence, zoom in H. destruct (record _ _ _ _ _ _ _ (evidence_of w)) as [q e1] eqn:E1. injection H as -> <-.
  unfold intended. rewrite evidence_set_evidence.
  destruct (record_detail zoneinfo _ _ _ _ _ _ _ _ _ (proj1 Hi) (good_str "pending") Hargs E1) as [[_ Hno] | (key & dev & z & g & Hid & [= <-] & Hg & _ & Hv & Hrow)].
  { by destruct (Hno intent). }
  exists key. split; [done |]. split; [done |]. rewrite (Hp key Hid) in Hrow. cbn in Hg. injection Hg as <-.
  unfold record_row in Hrow. cbn [a_expected_rev a_expected_status a_notes is_none negb andb] in Hrow. head Hrow as E2. injection Hrow as <-. done.
Qed.

Lemma admission_triple intent :
  triple (intended intent) here (_admission_reason zoneinfo o occ)
    (fun closed w => closed = None -> intended intent w /\ open_for occ w).
Proof.
  intros w r w' Hi Hp H. destruct (triple_quiet here (intended intent) _ _ (intended_stable intent) (safe_admission nothing occ) w r w' Hi Hp H) as [Ha Hq].
  split; [done |]. intros closed -> ->. split; [exact (proj2 (Hq None eq_refl)) | exact (admission_open occ w w' Hi H)].
Qed.

Lemma dispatch_covered intent :
  triple (fun w => intended intent w /\ open_for occ w) here (dispatch o (sub occ "schedule") occ did intent) (fun v _ => good v).
Proof.
  intros w r w' Hi [(i & Hid & Hat & Hst) [Hwin Hlive]] H. unfold dispatch in H. set (w1 := World _ _ _ _ _ _) in H.
  assert (Ha : advances here w w1).
  { pose proof Hi as (He & Hr & Hp & _). split; [exact Hi | by apply progresses_refl | done | | intros j v Hv Hv'; left; by exists v].
    eexists. split; [reflexivity |]. apply Forall_singleton. split; [exact Hwin | exact Htarget | exact Hlive |]. exists i. split; [| done].
    destruct (validated_id zoneinfo _ _ Hvalid) as [Hk _]. rewrite fld_dict in Hk. unfold fieldv in Hid. rewrite Hid in Hk.
    injection Hk as ->. exact Hvalid. }
  destruct (safe_call here good _ (ok_dispatch o Hout (sub occ "schedule") occ did intent) w1 r w' (ad_inv _ _ _ Ha) I H) as [Hb Hq].
  split; [by eapply advances_trans | exact Hq].
Qed.

Lemma admit_covered position prior :
  triple (prior_known prior) here (admit_device zoneinfo o cfg occ position did prior) (fun _ _ => True).
Proof.
  unfold admit_device. eapply triple_after; [apply prior_stable | apply safe_modify | intros _ _].
  eapply triple_after; [apply prior_stable | apply safe_modify | intros _ _].
  apply triple_bind with (Q := intended).
  { destruct prior as [p |].
    - intros w r w' Hi Hp [= <- <-]. split; [by apply advances_refl |]. by intros x [= <-].
    - eapply triple_after; [apply (prior_stable None) | apply safe_now | intros now _; apply begin_intended]. }
  intros intent. eapply triple_bind; [apply admission_triple |]. intros closed.
  apply triple_bind with (Q := fun _ _ => True); [| intros _; apply triple_safe; by apply safe_ret].
  destruct closed as [reason |].
  - apply triple_safe. destruct prior; [apply (safe_poll here) | apply (safe_finish here)]; done.
  - apply triple_bind with (Q := fun v _ => good v).
    + apply (triple_pre (fun w => intended intent w /\ open_for occ w)); [auto | apply dispatch_covered].
    + intros answer. apply triple_fact. intros Ha.
      eapply safe_bind; [apply safe_lift; intros d Hd; exact (result_good _ _ Ha Hd) |]. intros d [Hd _].
      destruct (py_eq _ _); [| by apply (safe_save here)].
      eapply safe_bind; [apply safe_admission |]. intros closed _. by apply (safe_retry here).
Qed.

(** A device that was not complete at the start of the loop has no terminal receipt. *)
Definition unfinished (complete : list string) (w : world) : Prop :=
  forall i v, fieldv occ "id" = VStr i -> did ∉ complete -> receipt_at (evidence_of w) i did = Some v -> terminal (fld v "status") = false.

(** The receipt as read: submitted, running, or an intent. *)
Definition prior_read (prior : option dict) (w : world) : Prop :=
  match prior with
  | Some p => in_strs (fieldv p "status") ["submitted"; "running"] = false -> intended p w
  | None => prior_known None w
  end.

Lemma prior_read_stable prior w w' :
  (forall i d, receipt_at (evidence_of w') i d = receipt_at (evidence_of w) i d) -> prior_read prior w -> prior_read prior w'.
Proof. intros H. destruct prior; cbn [prior_read]; [| by apply (prior_stable None)]. intros Hp Hs. by eapply intended_stable; [| apply Hp]. Qed.

Lemma get_prior complete :
  did ∉ complete -> triple (unfinished complete) here (get_receipt (fieldv occ "id") did) prior_read.
Proof.
  intros Hc w r w' Hi Hp H. destruct (safe_get_receipt nothing _ _ _ _ _ Hi I H) as [Ha _].
  split; [by eapply advances_weaken; [| exact Ha] |]. intros prior ->.
  assert (Hsame : forall i d, receipt_at (evidence_of w') i d = receipt_at (evidence_of w) i d) by (intros; apply (ad_only _ _ _ Ha); by intros []).
  destruct (fieldv occ "id") as [| | | | i | |] eqn:Eid;
    try (unfold get_receipt, on_evidence, zoom, receipt_get, sbind, lift in H; cbn in H; discriminate H).
  pose proof (get_receipt_view i did w prior w' Hi H) as ->. eapply prior_read_stable; [exact Hsame |].
  destruct (receipt_at (evidence_of w) i did) as [v |] eqn:Ev; cbn [fmap option_fmap option_map prior_read].
  2:{ intros j Hj. rewrite Eid in Hj. by injection Hj as <-. }
  destruct (stored_receipt zoneinfo _ i did (proj1 Hi) v Ev) as (_ & Hsort & Hval).
  pose proof (Hp i v Eid Hc Ev) as Hterm.
  destruct (valid_inv i did v Hval) as (d & l & rev & a & cr & up & st & status & -> & Hf & _).
  rewrite dict_or_empty_dict. intros Hsub. exists i. rewrite Ev, Hsort. split; [done |]. split; [done |].
  pose proof (hf_status _ _ _ _ _ _ _ _ _ Hf) as Hs. pose proof (hf_known _ _ _ _ _ _ _ _ _ Hf) as Hk. unfold fieldv in *.
  rewrite Hs in *. rewrite fld_dict, Hs in Hterm. f_equal. unfold RECEIPT_STATES, TERMINAL_RECEIPT_STATES in Hk. cbn [app] in Hk.
  rewrite !elem_of_cons in Hk. destruct_or! Hk; subst; try discriminate Hterm; try discriminate Hsub; [done | by apply elem_of_nil in Hk].
Qed.

Lemma serve_device_covered position complete refusal wave :
  good wave -> triple (unfinished complete) here (serve_device zoneinfo o cfg occ complete refusal wave (position, did)) (fun _ _ => True).
Proof.
  intros Hw. unfold serve_device. destruct (decide (did ∈ complete)) as [_ | Hc].
  { apply triple_safe. eapply safe_bind; [apply safe_get_receipt |]. intros [r |] _; [| by apply safe_ret].
    eapply safe_bind; [apply safe_acknowledge |]. intros _ _. by apply safe_ret. }
  eapply triple_bind; [by apply get_prior |]. intros prior.
  eapply triple_after; [apply prior_read_stable | apply safe_admission | intros closed _].
  assert (Hpf : forall reason status wv, good wv -> safe here (match prior with
      | Some p => sbind (_poll zoneinfo o cfg occ did p (Some reason)) (fun _ => sret tt)
      | None => sbind (_finish_unsubmitted zoneinfo o occ did None (VStr reason) status wv) (fun _ => sret tt) end) (fun _ => True)).
  { intros reason status wv Hwv. destruct prior; (eapply safe_bind; [| intros; by apply safe_ret]); [by apply (safe_poll here) | by apply (safe_finish here)]. }
  set (unsubmitted := match closed, refusal with Some _, _ => _ | None, Some _ => _ | None, None => _ end).
  assert (Hun : triple (prior_known prior) here unsubmitted (fun _ _ => True)).
  { unfold unsubmitted. destruct closed as [reason |].
    - apply triple_safe. destruct (String.eqb _ _); [by apply safe_ret | apply Hpf, good_none].
    - destruct refusal as [rf |]; [apply triple_safe, Hpf, Hw |].
      eapply triple_after; [apply prior_stable | apply safe_memory | intros m _]. destruct (_ <=? 0); [apply triple_safe; by apply safe_ret |].
      eapply triple_after; [apply prior_stable | apply safe_waiting | intros wait _]. destruct wait; [apply triple_safe; by apply safe_ret |].
      apply admit_covered. }
  destruct prior as [p |]; [| exact Hun]. destruct (in_strs (fieldv p "status") _) eqn:Es.
  - apply triple_safe. eapply safe_bind; [apply safe_modify |]. intros _ _.
    eapply safe_bind; [by apply (safe_poll here) |]. intros _ _. by apply safe_ret.
  - eapply triple_pre; [| exact Hun]. intros w Hp. exact (Hp Es).
Qed.
End serve.

(** ** One occurrence *)

Lemma serve_all_covered oid occ complete refusal wave order :
  _validate_occurrence zoneinfo oid (VDict occ) = Ok tt -> good wave -> NoDup (map snd order) -> (forall pd, pd ∈ order -> snd pd ∈ targets_of occ) ->
  triple (fun w => forall pd, pd ∈ order -> unfinished occ (snd pd) complete w) anything
    (serve_all zoneinfo o cfg occ complete refusal wave order) (fun _ _ => True).
Proof.
  intros Hvalid Hw. induction order as [| [position did] order IH]; intros Hn Ht; cbn [serve_all]; [apply triple_safe; by apply safe_ret |].
  cbn in Hn. apply NoDup_cons in Hn as [Hd Hn].
  intros w r w' Hi Hp H. split; [| done]. unfold sbind at 1 in H. destruct (_stopping o w) as [[stop |] w1] eqn:E1;
    destruct (safe_stopping nothing _ _ _ Hi I E1) as [Ha _]; [| injection H as _ <-; by eapply advances_weaken; [| exact Ha]].
  assert (Hsame : forall i d, receipt_at (evidence_of w1) i d = receipt_at (evidence_of w) i d) by (intros; apply (ad_only _ _ _ Ha); by intros []).
  assert (Ha' : advances anything w w1) by (by eapply advances_weaken; [| exact Ha]).
  destruct stop; [by injection H as _ <- |]. unfold sbind in H.
  destruct (serve_device zoneinfo o cfg occ complete refusal wave (position, did) w1) as [q w2] eqn:E2.
  assert (Hun : unfinished occ did complete w1).
  { intros i v Hid Hc Hv. rewrite Hsame in Hv. apply (Hp (position, did) ltac:(by left) i v Hid Hc Hv). }
  destruct (serve_device_covered oid occ Hvalid did (Ht (position, did) ltac:(by left)) position complete refusal wave Hw w1 q w2 (ad_inv _ _ _ Ha) Hun E2) as [Hb _].
  assert (Hb' : advances anything w1 w2) by (by eapply advances_weaken; [| exact Hb]).
  destruct q as [[] |]; [| injection H as _ <-; by eapply advances_trans].
  eapply advances_trans; [exact Ha' |]. eapply advances_trans; [exact Hb' |].
  apply (IH Hn (fun pd Hin => Ht pd (list_elem_of_further _ _ _ Hin)) w2 r w' (ad_inv _ _ _ Hb)); [| exact H].
  intros pd Hin i v Hid Hc Hv. assert (snd pd <> did) by (intros <-; apply Hd, list_elem_of_fmap; by exists pd).
  rewrite (ad_only _ _ _ Hb), Hsame in Hv by (intros [_ ?]; done). exact (Hp pd ltac:(by right) i v Hid Hc Hv).
Qed.

Lemma snapshot_NoDup v n : normalize_snapshot v = Ok n -> NoDup (snapshot_ids v).
Proof.
  intros H. unfold normalize_snapshot in H. head H as E1. apply object_inv in E1 as [-> _]. head H as E2. clear H.
  unfold snapshot_ids. rewrite dict_or_empty_dict, (strs_of_ids _ _ _ _ _ E2). unfold strs. cbn [as_list from_option id].
  replace (omap as_str (map VStr a0)) with a0; [by eapply ids_NoDup |].
  clear. induction a0 as [| x l IH]; [done |]. cbn. by rewrite <- IH.
Qed.

Lemma valid_targets k d : _validate_occurrence zoneinfo k (VDict d) = Ok tt -> NoDup (targets_of d).
Proof.
  intros H. unfold _validate_occurrence in H. head H as E0. apply object_inv in E0 as [[= <-] _].
  do 14 (head H). destruct (py_eq (dget_or d "state" VNone) (VStr "missed")).
  - head H as E1. apply orb_false_iff in E1 as [E1 _]. apply orb_false_iff in E1 as [E1 _]. apply orb_false_iff in E1 as [E1 _].
    unfold targets_of, fieldv, dget_or. unfold dhas in E1. destruct (dget d "target_snapshot"); [discriminate E1 | constructor].
  - head H as E1. head H as E2. exact (snapshot_NoDup _ _ E2).
Qed.

Lemma triple_frame {X} (P F : world -> Prop) K (m : rm X) Q :
  lasting F -> triple P K m Q -> triple (fun w => P w /\ F w) K m (fun x w => Q x w /\ F w).
Proof.
  intros HF Hm w r w' Hi [Hp Hf] H. destruct (Hm w r w' Hi Hp H) as [Ha Hq]. split; [done |].
  intros x Hx. split; [by apply Hq |]. exact (HF w w' (ad_evidence _ _ _ Ha) Hf).
Qed.

Lemma triple_pure {X} (F : Prop) (P : world -> Prop) K (m : rm X) Q : (F -> triple P K m Q) -> triple (fun w => F /\ P w) K m Q.
Proof. intros H w r w' Hi [Hf Hp] E1. exact (H Hf w r w' Hi Hp E1). Qed.

Lemma triple_carry {X} (F : world -> Prop) K (m : rm X) Q :
  lasting F -> triple (fun _ => True) K m Q -> triple F K m (fun x w => Q x w /\ F w).
Proof. intros HF Hm. apply (triple_pre (fun w => True /\ F w)); [by intros w Hw | by apply triple_frame]. Qed.

Lemma triple_lasting {X Y} (P : world -> Prop) K (m : rm X) (f : X -> rm Y) (Q : X -> Prop) R :
  lasting P -> safe K m Q -> (forall x, Q x -> triple P K (f x) R) -> triple P K (sbind m f) R.
Proof.
  intros HP Hm Hf. eapply triple_bind; [exact (triple_carry P K m (fun x _ => Q x) HP Hm) |].
  intros x w r w' Hi [Hq Hp] H. exact (Hf x Hq w r w' Hi Hp H).
Qed.

(** The occurrence on disk is reported. *)
Definition all_reported (occ : dict) (w : world) : Prop :=
  exists i v, fieldv occ "id" = VStr i /\ occ_view (s_occ (w_sched w)) i = Some v /\ reported (evidence_of w) i v.

Lemma all_reported_lasting occ : lasting (all_reported occ).
Proof.
  intros w w' Hp (i & v & Hi & Hv & Hs). destruct (pr_occ _ _ _ Hp i v Hv) as (v' & Hv' & [Hf _ _ _]). exists i, v'.
  split; [done |]. split; [exact Hv' |]. eapply reported_kept; [exact Hp | apply Hf; by_eval | exact Hs].
Qed.

(** As many terminal receipts as targets: every target has one. *)
Lemma completed_settles K occ :
  triple (current occ) K (on_evidence (completed_device_ids (fieldv occ "id")))
    (fun finished w => zlen finished = zlen (targets_of occ) -> all_reported occ w).
Proof.
  intros w r w' Hi (i & v & Hid & Hv & Hts) H. destruct (safe_completed K _ _ _ _ Hi I H) as [Ha _]. split; [done |]. intros finished -> Hlen.
  apply (all_reported_lasting occ w w' (ad_evidence _ _ _ Ha)).
  unfold on_evidence, zoom in H. destruct (completed_device_ids _ (evidence_of w)) as [q e1] eqn:E1. injection H as -> _.
  destruct (completed_read _ _ _ _ (proj1 Hi) E1) as (_ & _ & _ & Hl). destruct (Hl finished eq_refl) as (key & Hkey & Hn & Hin).
  rewrite Hid in Hkey. injection Hkey as <-. exists i, v. split; [done |]. split; [done |]. intros did Hdid. apply Hin.
  destruct Hi as (_ & _ & _ & Hadm). rewrite Hts in Hdid. change (did ∈ targets_of occ) in Hdid.
  apply list_elem_of_In. apply (NoDup_length_incl (l:=finished) (l':=targets_of occ)); [by apply NoDup_ListNoDup | unfold zlen in Hlen; lia | | by apply list_elem_of_In].
  intros x Hx. apply list_elem_of_In in Hx. apply Hin in Hx as (rc & Hrc & _). destruct (Hadm i x rc Hrc) as (u & Hu & _ & Hxu).
  cbn [evidence_of e_occ] in Hu. assert (u = v) as -> by congruence. rewrite Hts in Hxu. by apply list_elem_of_In.
Qed.

Lemma conclude_settled K occ refusal : triple (current occ) K (conclude zoneinfo o occ refusal) (fun _ _ => True).
Proof.
  unfold conclude. eapply triple_bind; [apply completed_settles |]. intros finished.
  eapply triple_lasting; [intros w w' Hp Hs Hl; by apply (all_reported_lasting occ w w' Hp), Hs | apply safe_memory | intros m _].
  destruct (_ && _) eqn:Ec; [| apply triple_safe; by apply safe_ret]. apply andb_true_iff in Ec as [Ec _]. apply Z.eqb_eq in Ec.
  apply (triple_pre (all_reported occ)); [auto |].
  eapply (triple_lasting _ _ _ _ (fun _ => True)); [apply all_reported_lasting | |].
  { apply safe_sfold; [| done]. intros acc did _ _. eapply safe_bind; [apply safe_get_receipt |]. intros [r |] _; [by apply safe_ret | by apply safe_lift]. }
  intros [reasons statuses] _. eapply (triple_lasting _ _ _ _ (fun _ => True)); [apply all_reported_lasting | |].
  { destruct (existsb _ reasons); [by apply safe_ret | apply safe_wave_held]. }
  intros stalled _. eapply triple_lasting; [apply all_reported_lasting | apply safe_now | intros now _].
  eapply triple_bind; [apply (transition_triple (all_reported occ)); [apply good_str | right] | intros d; apply triple_safe, safe_modify].
  intros w key v (i & u & Hid & Hu & Hs) Hk Hv. rewrite Hid in Hk. injection Hk as <-. assert (u = v) as -> by congruence. done.
Qed.

Lemma unfinished_stable occ complete w w' :
  (forall i d, receipt_at (evidence_of w') i d = receipt_at (evidence_of w) i d) ->
  (forall did, unfinished occ did complete w) -> forall did, unfinished occ did complete w'.
Proof. intros H Hu did i v Hid Hc Hv. rewrite H in Hv. exact (Hu did i v Hid Hc Hv). Qed.

Lemma completed_unfinished K occ :
  triple (fun _ => True) K (on_evidence (completed_device_ids (fieldv occ "id"))) (fun complete w => forall did, unfinished occ did complete w).
Proof.
  intros w r w' Hi _ H. split; [by apply (safe_completed K _ _ _ _ Hi I H) |]. intros complete ->.
  unfold on_evidence, zoom in H. destruct (completed_device_ids _ (evidence_of w)) as [q e1] eqn:E1. injection H as -> <-.
  destruct (completed_read _ _ _ _ (proj1 Hi) E1) as (_ & _ & Hat & Hl). destruct (Hl complete eq_refl) as (key & Hid & _ & Hin).
  intros did i v Hi' Hc Hv. rewrite evidence_set_evidence, Hat in Hv. rewrite Hid in Hi'. injection Hi' as <-.
  apply not_true_is_false. intros Ht. apply Hc, Hin. eauto.
Qed.

Lemma imap_snd {A B} (f : nat -> A -> B) (l : list A) : map snd (imap (fun i x => (f i x, x)) l) = l.
Proof. revert f. induction l as [| x l IH]; intros f; [done |]. cbn. f_equal. apply (IH (fun i => f (S i))). Qed.

Lemma rotated_ids targets start : map snd (rotated targets start) ≡ₚ targets.
Proof.
  unfold rotated. rewrite map_app, Permutation_app_comm, <- map_app, take_drop. by rewrite (imap_snd (fun i _ => Z.of_nat i)).
Qed.

(** Steps that touch no receipt, next to a row that stays current. *)
Lemma triple_next {X Y} K (P F : world -> Prop) (m : rm X) (f : X -> rm Y) (Q : X -> Prop) R :
  (forall w w', (forall i d, receipt_at (evidence_of w') i d = receipt_at (evidence_of w) i d) -> P w -> P w') -> lasting F ->
  safe nothing m Q -> (forall x, Q x -> triple (fun w => P w /\ F w) K (f x) R) -> triple (fun w => P w /\ F w) K (sbind m f) R.
Proof.
  intros HP HF Hm Hf. eapply triple_bind; [exact (triple_frame _ _ _ _ _ HF (triple_quiet K P m Q HP Hm)) |].
  intros x w r w' Hi [[Hq Hp] Hg] H. exact (Hf x Hq w r w' Hi (conj Hp Hg) H).
Qed.

Lemma process_devices_covered occ : sound occ -> triple (current occ) anything (_process_devices zoneinfo o cfg occ) (fun _ _ => True).
Proof.
  intros Hs. unfold _process_devices. destruct (negb _); [apply triple_safe, safe_modify |].
  apply triple_bind with (Q := fun occ' w => (sound occ' /\ fieldv occ' "id" = fieldv occ "id") /\ current occ' w).
  { destruct (py_eq _ _); [intros w r w' Hi Hc [= <- <-]; split; [by apply advances_refl | by intros x [= <-]] |].
    eapply triple_lasting; [apply current_kept | apply safe_now | intros now _]. apply transition_triple; [apply good_str | by left]. }
  intros occ'. apply triple_pure. intros [[Hg (oid & Hvalid)] <-].
  eapply triple_bind; [exact (triple_carry _ _ _ _ (current_kept occ') (completed_unfinished anything occ')) |].
  intros complete.
  eapply triple_next; [apply unfinished_stable | apply current_kept | apply safe_admission | intros closed _].
  eapply triple_next; [apply unfinished_stable | apply current_kept | | intros started Hstart].
  { apply (safe_post _ _ (fun r => forall refusal wave, r = Some (refusal, wave) -> good wave)); [| exact (fun x H => H)].
    assert (Hnone : forall K, safe K (sret (Some (None, VNone))) (fun r : option (option dict * pyval) =>
      forall refusal wave, r = Some (refusal, wave) -> good wave)) by (intros K; apply safe_ret; by intros ? ? [= <- <-]).
    destruct closed; [apply Hnone |]. destruct (_ || _); [by apply safe_check_start | apply Hnone]. }
  destruct started as [[refusal wave] |]; [| apply triple_safe; by apply safe_ret].
  eapply triple_next; [apply unfinished_stable | apply current_kept | apply safe_memory | intros m _].
  set (order := rotated _ _). pose proof (rotated_ids (targets_of occ') (dget_or (m_position m) (text_of (fieldv occ' "id")) 0)) as Hperm.
  fold order in Hperm.
  assert (Hall : triple (fun w => forall pd, pd ∈ order -> unfinished occ' (snd pd) complete w) anything
    (serve_all zoneinfo o cfg occ' complete refusal wave order) (fun _ _ => True)).
  { apply (serve_all_covered oid); [done | by eapply Hstart | |].
    - rewrite Hperm. by eapply valid_targets.
    - intros pd Hin. rewrite <- Hperm. apply list_elem_of_fmap. by exists pd. }
  eapply triple_bind; [eapply triple_pre; [| exact (triple_frame _ _ _ _ _ (current_kept occ') Hall)] |].
  - intros w [Hu Hc]. split; [intros pd _; apply Hu | exact Hc].
  - intros u. apply (triple_pre (current occ')); [by intros w [_ Hc] | apply conclude_settled].
Qed.

Lemma process_covered occ :
  triple (fun w => forall d, occ = Some d -> sound d /\ current d w) anything (_process zoneinfo o cfg occ) (fun _ _ => True).
Proof.
  unfold _process. destruct occ as [occ |]; [| apply triple_safe, safe_lift; discriminate].
  apply (triple_pre (fun w => sound occ /\ current occ w)); [auto |]. apply triple_pure. intros Hso.
  destruct (negb _); [apply triple_safe, safe_modify |].
  eapply triple_lasting; [apply current_kept | apply safe_cancel | intros first _].
  apply triple_bind with (Q := fun _ _ => True).
  - intros w r w' Hi Hc H. unfold attempt in H. destruct (_process_devices zoneinfo o cfg occ w) as [q w1] eqn:E1. injection H as <- <-.
    split; [by apply (process_devices_covered occ Hso w q w1 Hi Hc E1) | done].
  - intros q. apply triple_safe. eapply safe_bind; [apply safe_cancel |]. intros last _. safe_walk.
Qed.

Lemma safe_serve_active order errors : safe anything (serve_active zoneinfo o cfg order errors) (fun _ => True).
Proof.
  revert errors. induction order as [| oid order IH]; intros errors; cbn [serve_active]; [by apply safe_ret |].
  eapply safe_bind; [apply safe_stopping |]. intros [] _; [by apply safe_ret |].
  eapply safe_bind; [apply (safe_attempt _ _ (fun _ => True)) | intros r _; apply IH].
  eapply triple_bind; [apply get_occurrence_current |]. intros occ. apply process_covered.
Qed.

(** ** Claims *)

Lemma ok_some_inj {A} (x y : A) : Ok (Some x) = Ok (Some y) -> x = y.
Proof. congruence. Qed.

Lemma slot_good schedule now after d : occurrence_slot zoneinfo zone_of schedule now after = Ok (Some d) -> good (VDict d).
Proof.
  assert (Hd : forall n st wi r tz l nx, good (VDict (slot_dict n st wi r tz l nx))).
  { intros. unfold slot_dict. assert (good (opt_int nx)) by (by destruct nx). good_tac. }
  unfold occurrence_slot, compute_slot. intros H. head H as E1. head H as E2. head H as E3. head H as E4. head H as E5. head H as E6.
  - destruct (match a0 with Some _ => _ | None => _ end); [discriminate H |]. apply ok_some_inj in H as <-. apply Hd.
  - head H as E7. destruct a3 as [w next]. apply ok_some_inj in H as <-. apply Hd.
Qed.

Lemma claim_keeps sid rev gen slot target now s r s' :
  rows_ok (s_rows s) -> prog_ok (s_progress s) -> rs_ok (V:=_validate_occurrence zoneinfo) (s_occ s) -> good (VDict slot) -> good target ->
  claim_occurrence zoneinfo zone_of sid rev gen (VDict slot) target now s = (r, s') ->
  rows_ok (s_rows s') /\ prog_ok (s_progress s') /\ rs_ok (V:=_validate_occurrence zoneinfo) (s_occ s') /\
  occ_extends zoneinfo (s_occ s) (s_occ s') /\ no_end zoneinfo (s_occ s) (s_occ s').
Proof.
  intros Hr Hp Ho Hgs Hgt H. pose proof (occ_extends_refl zoneinfo _ Ho) as Hrefl.
  assert (Hnone : no_end zoneinfo (s_occ s) (s_occ s)) by (by apply no_end_same).
  destruct (_identifier sid "id") as [k |] eqn:Ek; [| unfold claim_occurrence in H; rewrite Ek in H; injection H as _ <-; done].
  destruct (_integer rev "expected_rev" 1 MAX_INTEGER) as [e |] eqn:Ee; [| unfold claim_occurrence in H; rewrite Ek, Ee in H; injection H as _ <-; done].
  destruct (_hex gen "expected_generation") as [g |] eqn:Eg; [| unfold claim_occurrence in H; rewrite Ek, Ee, Eg in H; injection H as _ <-; done].
  apply identifier_inv in Ek as [-> Hk].
  destruct (claim_run zoneinfo zone_of s k rev gen (VDict slot) target now e g Hr Hk Ee Eg) as (t & Ht & Htv & Erun).
  rewrite Erun in H. clear Erun. destruct (claim_check _ _ _ _ _ _) as [[[row d] n] |] eqn:Ec; [| injection H as _ <-; done].
  apply claim_check_inv in Ec as (v & z & Hold & -> & [= <-] & Hsl & -> & Hn & Hz & Hzn & _).
  destruct (stored_row zoneinfo _ _ _ Hr Hold) as (dr & -> & Hgr & Hval). rewrite dict_or_empty_dict in H.
  destruct (schedule_key zoneinfo _ _ Hval) as (_ & gg & Hgg & Hggx).
  pose proof (claim_steps_spec zoneinfo zone_of k dr slot target n gg z Hk Hgr Hgs Hgt Hval Hgg Hggx Hsl Hz ltac:(lia) Hn
    (s_occ s) (s_progress s) Ho Hp) as Hout2.
  destruct (claim_steps _ _ _ _ _ _ _ _) as [q [occ1 prog1]] eqn:Es. injection H as _ <-. destruct Hout2 as (? & ? & ? & _).
  do 4 (split; [done |]). exact (proj2 (claim_steps_ends zoneinfo zone_of _ _ _ _ _ Hgr Hgs Hgt _ _ _ Es Ho)).
Qed.

Lemma safe_claim_slot K row slot snapshot :
  good (VDict slot) -> good snapshot -> safe K (claim_slot zoneinfo zone_of o row slot snapshot) (fun _ => True).
Proof.
  intros Hs Hg. unfold claim_slot. eapply safe_bind; [apply safe_now |]. intros now _. apply safe_sched. intros s r s' Hr Hp Ho H.
  destruct (claim_keeps _ _ _ _ _ _ _ _ _ Hr Hp Ho Hs Hg H) as (? & ? & ? & ? & ?). done.
Qed.

Lemma good_fieldv d k : good (VDict d) -> good (fieldv d k).
Proof. intros H. unfold fieldv. auto with py. Qed.
Lemma good_sub d k : good (VDict d) -> good (VDict (sub d k)).
Proof. intros H. unfold sub. apply good_dict_or_empty. by apply good_fieldv. Qed.

(** The registration ids of the targets, as a dict. *)
Lemma pairs_good b l ps :
  good (VDict b) -> res_map (fun i => match i with VStr d => Ok (d, fieldv b d) | _ => Err (TypeError "device id is no string") end) l = Ok ps ->
  good (VDict (foldl (fun m kv => dset m (fst kv) (snd kv)) [] ps)).
Proof.
  intros Hb Hps. assert (Hpairs : Forall (fun kv => good (snd kv)) ps).
  { revert ps Hps. induction l as [| x l IH]; intros ps Hps; cbn [res_map] in Hps; [injection Hps as <-; constructor |].
    destruct x as [| | | | sx | |]; try discriminate Hps. cbn [mbind res_bind] in Hps. head Hps as E7. injection Hps as <-.
    constructor; [by apply good_fieldv | by apply IH]. }
  assert (Hfold : forall m, good (VDict m) -> good (VDict (foldl (fun m kv => dset m (fst kv) (snd kv)) m ps))).
  { clear -Hpairs. induction Hpairs as [| [k v] ps Hv _ IH]; intros m Hm; cbn; [done |]. apply IH. by apply good_dset. }
  apply Hfold, good_empty.
Qed.

Lemma list_of_good v l : good v -> list_of v = Ok l -> good (VList l).
Proof.
  intros Hv. destruct v as [| | | | t | l0 | d]; try discriminate; intros [= <-]; [| done |]; apply good_list, Forall_map, Forall_true; done.
Qed.

Lemma bound_good row facts d : good (VDict row) -> good (VDict facts) -> bound_snapshot row facts = Ok d -> good (VDict d).
Proof.
  intros Hr Hf H. unfold bound_snapshot in H.
  assert (Hit : forall k v, item (VDict facts) k = Ok v -> good v).
  { intros k v Hv. cbn in Hv. destruct (dget facts k) eqn:Ek; [| discriminate Hv]. injection Hv as <-. exact (good_dget _ _ _ Hf Ek). }
  head H as E1. head H as E2. head H as E3. apply Hit in E1, E2, E3.
  set (bound := if py_eq _ _ then _ else _) in H.
  assert (Hb : good bound) by (unfold bound; destruct (py_eq _ _); [apply good_fieldv, good_sub; done | done]).
  head H as E4. assert (Hl : good (VList a2)) by (by eapply list_of_good). head H as E5.
  assert (Hcases : a3 = [] \/ exists x, a3 = [("registration_ids", x)] /\ good x).
  { destruct (fieldv facts "registration_ids") as [| | | | | | b] eqn:Eb; try (left; by injection E5 as <-).
    assert (Hgb : good (VDict b)) by (rewrite <- Eb; by apply good_fieldv).
    head E5 as E6. injection E5 as <-. right. eexists. split; [reflexivity | by eapply pairs_good]. }
  eapply normalize_snapshot_good; [| exact H]. destruct Hcases as [-> | (x & -> & Hx)]; good_tac.
Qed.
End runner.
