(* ===== verification/RunnerPass.v ===== *)
(** * What a pass of the runner does to the evidence

    The parts of a pass around the service of an occurrence: recovery, the claims of
    the slots that are due, the order of service.  With them, the theorem about every
    call of [dispatch]. *)
From S2P Require Import Prelude PyVal JsonDump Sha256 PolicyDoc KeyedState KeyedSpec.
From S2P Require Import SchedDoc SchedValid SchedTime SchedTimeSpec SchedStore SchedOps SchedSpec OccSpec SchedClaim.
From S2P Require Import SchedReceipt ReceiptSpec WaveGate SchedRunner RunnerTotal RunnerSpec.

Section runner.
Context (zoneinfo : string -> res unit) (zone_of : string -> zone).
Context {T : Type} `{RR : RowStore T (row_valid zoneinfo)} `{RP : RowStore T _progress_valid} `{RF : RowStore T _retired_valid}
  `{RO : RowStore T (_validate_occurrence zoneinfo)} {RC : forall identifier, RowStore T (receipt_valid identifier)}.
Context {E : Type} (o : outside (T:=T) (E:=E)) (cfg : config) (Hout : outside_ok zoneinfo o).
#[local] Abbreviation world := (world (T:=T) (E:=E)).
#[local] Abbreviation rm := (rm (T:=T) (E:=E)).
#[local] Abbreviation safe := (safe zoneinfo).
#[local] Abbreviation rows_ok := (rs_ok (V:=row_valid zoneinfo)).
#[local] Abbreviation prog_ok := (rs_ok (V:=_progress_valid)).

(** ** Claims *)

Lemma snapshot_of_sound d : sound zoneinfo d -> good (fieldv d "target_snapshot").
Proof. intros [Hg _]. by apply good_fieldv. Qed.

Lemma safe_claim K row slot : good (VDict row) -> good (VDict slot) -> safe K (_claim zoneinfo zone_of o row slot) (fun _ => True).
Proof.
  intros Hr Hs. unfold _claim. eapply safe_bind; [apply safe_lift_any |]. intros oid _.
  eapply safe_bind; [apply safe_get_occurrence |]. intros [e |] He.
  { apply safe_claim_slot; [done | done |]. apply snapshot_of_sound. by apply He. }
  eapply safe_bind; [by apply safe_now |]. intros now _. destruct (_ <=? now); [by apply safe_claim_slot |].
  eapply safe_bind; [apply safe_call, Hout |]. intros _ _. eapply safe_bind; [apply safe_call, Hout |]. intros facts Hf.
  destruct facts as [| | | | | | facts]; try (apply safe_lift; discriminate).
  eapply safe_bind; [apply safe_lift; intros d Hd; exact (bound_good _ _ _ Hr Hf Hd) |]. intros snapshot Hsn.
  eapply safe_bind; [by apply safe_now |]. intros now' _.
  eapply safe_bind; [apply safe_claim_slot; [done | done | by destruct (_ <=? now')] |]. intros claimed _.
  eapply (safe_bind _ _ _ _ (fun _ => True)); [destruct (is_active claimed); [apply safe_modify | by apply safe_ret] |].
  intros _ _. by apply safe_ret.
Qed.

(** ** The heap of slots *)

Definition good_entry (x : entry) : Prop := let '(_, _, row, slot) := x in good (VDict row) /\ good (VDict slot).

Lemma heappush_good x l : good_entry x -> Forall good_entry l -> Forall good_entry (heappush x l).
Proof.
  intros Hx. induction 1 as [| y l Hy Hl IH]; cbn [heappush]; [by repeat constructor |].
  destruct (entry_leb x y); by repeat constructor.
Qed.

Lemma safe_progress K sid : safe K (on_sched (E:=E) (progress zoneinfo sid)) (fun _ => True).
Proof.
  apply safe_sched. intros s r s' Hr Hp Ho H. unfold progress, sbind at 1 in H.
  destruct (sched_get zoneinfo sid s) as [q s1] eqn:E1. destruct (sched_get_read zoneinfo _ _ _ _ Hr E1) as (Hr1 & _ & Hp1 & Ho1 & _).
  assert (Hx1 : occ_extends zoneinfo (s_occ s) (s_occ s1) /\ no_end zoneinfo (s_occ s) (s_occ s1))
    by (rewrite Ho1; split; [by apply occ_extends_refl | by apply no_end_same]). destruct Hx1 as [Hx1 Hn1].
  rewrite <- Hp1 in Hp. rewrite <- Ho1 in Ho. destruct q as [row |]; [| by injection H as <- <-].
  unfold sbind, lift in H. destruct (_identifier sid "id") as [key |]; [| by injection H as <- <-].
  unfold zoom in H. destruct (rs_get_spec (s_progress s1) key Hp) as (t & Hg & Hok & _). rewrite Hg in H. by injection H as <- <-.
Qed.

Lemma safe_slot K row now : safe K (_slot zoneinfo zone_of (E:=E) row now) (fun r => forall s, r = Some s -> good (VDict s)).
Proof.
  unfold _slot. eapply safe_bind; [apply safe_progress |]. intros p _.
  eapply safe_bind; [apply safe_lift; exact (fun s H => H) |]. intros slot Hslot. apply safe_ret. intros s Hs.
  destruct slot as [d |]; [| discriminate Hs]. injection Hs as <-. apply good_dset; [by eapply slot_good | apply good_str].
Qed.

Lemma safe_push K row pending now :
  good (VDict row) -> Forall good_entry pending -> safe K (push_slot zoneinfo zone_of (E:=E) row pending now) (Forall good_entry).
Proof.
  intros Hr Hp. unfold push_slot. eapply safe_bind; [apply safe_slot |]. intros [s |] Hs; apply safe_ret; [| done].
  apply heappush_good; [| done]. split; [done | by apply Hs].
Qed.

Lemma safe_claim_loop K budget pending errors :
  Forall good_entry pending -> safe K (claim_loop zoneinfo zone_of o budget pending errors) (fun _ => True).
Proof.
  revert pending errors. induction budget as [| budget IH]; intros pending errors Hp; cbn [claim_loop];
    (destruct pending as [| [[[at_ sid] row] slot] rest]; [by apply safe_ret |]);
    (eapply safe_bind; [by apply safe_now |]); intros now _; (destruct (now <? at_); [by apply safe_ret |]); [by apply safe_ret |].
  apply Forall_cons in Hp as [[Hrow Hslot] Hrest].
  eapply safe_bind; [by apply safe_stopping |]. intros [] _; [by apply safe_ret |].
  eapply safe_bind; [by apply safe_attempt, safe_claim |]. intros [claimed | e] _; [| by apply IH].
  eapply (safe_bind _ _ _ _ (fun _ => True)); [destruct (is_active claimed); [apply safe_modify | by apply safe_ret] |]. intros _ _.
  eapply safe_bind; [apply safe_get_schedule |]. intros [current |] Hc; [| by apply IH].
  eapply safe_bind; [by apply safe_now |]. intros now' _. eapply safe_bind; [apply safe_push; [by apply Hc | done] |].
  intros pending Hp. by apply IH.
Qed.

(** ** A pass *)

Lemma safe_sched_list K : safe K (on_sched (E:=E) (sched_list zoneinfo)) (Forall (fun row => good (VDict (dict_or_empty row)))).
Proof.
  apply safe_sched. intros s r s' Hr Hp Ho H. unfold sched_list, sbind, zoom in H.
  destruct (rs_snapshot_spec (s_rows s) Hr) as (d & t & Hg & Hok & _ & Hn & Hv). rewrite Hg in H. injection H as <- <-.
  do 3 (split; [done |]). split; [by apply occ_extends_refl |]. split; [by apply no_end_same |]. intros rows [= <-].
  apply Forall_forall. intros row Hin. rewrite sort_by_perm in Hin. apply list_elem_of_fmap in Hin as ([k v] & -> & Hin).
  apply good_dict_or_empty. destruct (rs_row_ok (s_rows s) k v Hr) as [(_ & Hw & Hf & _) _]; [| by split].
  rewrite <- Hv. by apply dget_Some.
Qed.

Lemma safe_occ_list K : safe K (on_occurrences (E:=E) (occ_list zoneinfo None)) (fun _ => True).
Proof.
  apply safe_occurrences. intros t r t' Ht H. destruct (occ_list_same zoneinfo None t Ht) as [Hok Hv]. rewrite H in Hok, Hv.
  split; [done |]. split; [by apply occ_same_extends |]. split; [by apply no_end_same | done].
Qed.

Lemma safe_recover K : safe K (recover zoneinfo o) (fun _ => True).
Proof.
  unfold recover. eapply safe_bind; [apply safe_memory |]. intros m _. destruct (m_recovered m); [by apply safe_ret |].
  eapply safe_bind; [by apply safe_now |]. intros now _.
  eapply safe_bind; [apply (safe_occ_op zoneinfo _ (OccRecover (VInt now))); [done | done | apply recover_ends] |]. intros recovered _.
  eapply safe_bind; [apply safe_occ_list |]. intros rows _. eapply safe_bind; [apply safe_modify |]. intros _ _. by apply safe_ret.
Qed.

Lemma safe_new_order K active known : safe K (new_order zoneinfo (E:=E) active known) (fun _ => True).
Proof.
  unfold new_order. eapply (safe_bind _ _ _ _ (fun _ => True)); [| intros keyed _; by apply safe_ret].
  apply safe_sfold; [| done]. intros acc oid _ _. eapply safe_bind; [apply safe_get_occurrence |].
  intros [r |] _; [by apply safe_ret | by apply safe_lift].
Qed.

Lemma safe_pass : safe anything (_pass zoneinfo zone_of o cfg) (fun _ => True).
Proof.
  unfold _pass. eapply safe_bind; [by apply safe_now |]. intros now _. eapply safe_bind; [apply safe_sched_list |]. intros rows Hrows.
  eapply safe_bind; [apply (safe_sfold _ _ _ _ _ (Forall good_entry)); [| done] |].
  { intros pending row Hp Hin. apply safe_push; [| done]. by eapply Forall_forall in Hrows. }
  intros pending Hp. eapply safe_bind; [by apply safe_claim_loop |]. intros [pending' errors] _.
  eapply safe_bind; [apply safe_modify |]. intros _ _. eapply safe_bind; [apply safe_memory |]. intros m _.
  eapply safe_bind; [apply safe_new_order |]. intros fresh _. eapply safe_bind; [apply safe_modify |]. intros _ _.
  eapply safe_bind; [by apply safe_serve_active |]. intros [| e errs] _; [| by apply safe_lift].
  eapply safe_bind; [apply safe_memory |]. intros m' _. destruct pending' as [| [[[at_ sid] row] slot] rest]; [by apply safe_ret |].
  eapply safe_bind; [by apply safe_now |]. intros now' _. by apply safe_ret.
Qed.

Lemma safe_run_once : safe anything (run_once zoneinfo zone_of o cfg) (fun _ => True).
Proof.
  unfold run_once. eapply safe_bind; [by apply safe_stopping |]. intros [] _; [by apply safe_ret |].
  eapply safe_bind; [apply (safe_attempt _ _ _ (fun _ => True)) |].
  { eapply safe_bind; [apply safe_recover |]. intros _ _. apply safe_pass. }
  intros [delay | exc] _; (eapply safe_bind; [apply safe_modify |]); intros _ _; [by apply safe_ret |].
  eapply (safe_bind _ _ _ _ (fun _ => True)).
  { destruct (o_error_fn o) as [f |] eqn:Ef; [| by apply safe_ret]. eapply safe_any, safe_attempt, safe_call, (ok_error zoneinfo o Hout f _ Ef). }
  intros _ _. eapply safe_bind; [apply safe_memory |]. intros m _. by apply safe_ret.
Qed.

(** Every occurrence that ended has the terminal receipts of its targets. *)
Definition ends_reported (w : world) : Prop :=
  forall i v, rs_view (V:=_validate_occurrence zoneinfo) (s_occ (w_sched w)) i = Some v -> ended v = true -> reported (evidence_of w) i v.

Lemma ends_reported_kept K w w' : advances zoneinfo K w w' -> ends_reported w -> ends_reported w'.
Proof.
  intros Ha Hr i v' Hv' He. destruct (ad_ended _ _ _ _ Ha i v' Hv' He) as [(v & Hv & Hev) | ?]; [| done].
  pose proof (ad_evidence _ _ _ _ Ha) as Hp. destruct (pr_occ _ _ _ Hp i v Hv) as (u & Hu & [Hf _ _ _]). cbn [evidence_of e_occ] in Hu.
  assert (u = v') as -> by congruence. eapply reported_kept; [exact Hp | apply Hf; by_eval | by apply Hr].
Qed.

Lemma ends_reported_iter n w :
  inv zoneinfo w -> ends_reported w ->
  let w' := Nat.iter n (fun w => snd (run_once zoneinfo zone_of o cfg w)) w in ends_reported w' /\ inv zoneinfo w'.
Proof.
  intros Hi Hr. cbn zeta.
  assert (Hstep : forall w1, ends_reported w1 /\ inv zoneinfo w1 -> ends_reported (snd (run_once zoneinfo zone_of o cfg w1)) /\
    inv zoneinfo (snd (run_once zoneinfo zone_of o cfg w1))).
  { intros w1 [IH Hin]. destruct (run_once zoneinfo zone_of o cfg w1) as [r w2] eqn:E1. destruct (safe_run_once w1 r w2 Hin I E1) as [Ha _].
    split; [by eapply ends_reported_kept | apply Ha]. }
  induction n as [| n IH]; [done |]. exact (Hstep _ IH).
Qed.
End runner.

(** C7: every call of the executor's [dispatch] in a pass is covered.  At that moment the
    clock was inside the window of the occurrence, the device was one of its frozen
    targets, the live definition was still the one the occurrence froze, and the receipt
    of the device was already on disk as the very intent handed over: a crash at any
    point leaves evidence of what may have been dispatched.  Meanwhile receipts and
    occurrences only move forward, and every file stays readable.  This holds whatever
    the outside answers or raises, as long as its answers are JSON values and it leaves
    the definitions readable. *)
Theorem dispatch_covered_pass (zoneinfo : string -> res unit) (zone_of : string -> zone) {T : Type}
    `{RR : RowStore T (row_valid zoneinfo)} `{RP : RowStore T _progress_valid} `{RF : RowStore T _retired_valid}
    `{RO : RowStore T (_validate_occurrence zoneinfo)} {RC : forall identifier, RowStore T (receipt_valid identifier)}
    {E : Type} (o : outside (T:=T) (E:=E)) (cfg : config) (w w' : world (T:=T) (E:=E)) r :
  outside_ok zoneinfo o -> inv zoneinfo w -> run_once zoneinfo zone_of o cfg w = (r, w') ->
  inv zoneinfo w' /\ progresses zoneinfo (evidence_of w) (evidence_of w') /\
  exists new, w_calls w' = w_calls w ++ new /\ Forall (covered zoneinfo) new.
Proof.
  intros Hout Hi H. destruct (safe_run_once zoneinfo zone_of o cfg Hout w r w' Hi I H) as [[H1 H2 _ H3 _] _]. done.
Qed.

Lemma ticking_ok : outside_ok any_zone ticking.
Proof.
  assert (Hans : forall X (P : X -> Prop) (x : X), P x -> ext_ok any_zone P (answer x)).
  { intros X P x Hx s q s' Hs [= <- <-]. split; [exact Hs |]. by intros y [= <-]. }
  split; intros; cbn [ticking o_now_fn o_stopping o_role_guard o_resolve_target o_validate o_dispatch o_poll o_cancel_queued
    o_wave_counts o_acknowledge o_error_fn] in *; try (by apply Hans); try discriminate.
  - intros s q s' Hs [= <- <-]. by split.
  - done.
  - apply Hans, weekly_snapshot_good.
  - apply Hans. good_literal.
  - apply Hans. good_literal.
  - injection H as <-. by apply Hans.
Qed.

Lemma start_inv : inv any_zone start_world.
Proof.
  destruct (create_spec any_zone empty_sched (VStr "weekly") (VDict weekly) (VStr "api:ops") (VInt (int_of weekly_at - 100)) weekly_snapshot weekly_generation
    (proj1 empty_consistent) weekly_good (good_str _) (good_int _) weekly_snapshot_good) as (q & s' & Hc & [Hok _] & _).
  assert (Hs : fresh_schedule = s') by (unfold fresh_schedule; by rewrite Hc).
  split; [split | split; [| split]].
  - change (s_occ (w_sched start_world)) with (s_occ fresh_schedule). replace (s_occ fresh_schedule) with empty_store by (vm_compute; reflexivity).
    apply empty_store_ok.
  - intros i. apply empty_store_ok.
  - change (s_rows (w_sched start_world)) with (s_rows fresh_schedule). by rewrite Hs.
  - change (s_progress (w_sched start_world)) with (s_progress fresh_schedule).
    replace (s_progress fresh_schedule) with empty_store by (vm_compute; reflexivity). apply empty_store_ok.
  - intros i d v Hv. discriminate Hv.
Qed.

Lemma dispatch_covered_pass_witness :
  exists new, w_calls (snd (sample_pass start_world)) = [] ++ new /\ Forall (covered any_zone) new /\ length new = 1%nat.
Proof.
  destruct (dispatch_covered_pass any_zone (fun _ => spring_zone) ticking default_config start_world (snd (sample_pass start_world))
    (fst (sample_pass start_world)) ticking_ok start_inv (surjective_pairing _)) as (_ & _ & new & Hnew & Hcov).
  exists new. split; [exact Hnew |]. split; [exact Hcov |]. cbn [start_world w_calls app] in Hnew. rewrite <- Hnew. vm_compute. reflexivity.
Defined.

(** C8: an occurrence is over only when every device has its outcome.  Over any number of
    passes, whatever the outside answers or raises: an occurrence on disk as completed,
    failed, cancelled or stalled has, for each device of its frozen target, a receipt
    whose status is terminal. *)
Theorem ended_means_reported (zoneinfo : string -> res unit) (zone_of : string -> zone) {T : Type}
    `{RR : RowStore T (row_valid zoneinfo)} `{RP : RowStore T _progress_valid} `{RF : RowStore T _retired_valid}
    `{RO : RowStore T (_validate_occurrence zoneinfo)} {RC : forall identifier, RowStore T (receipt_valid identifier)}
    {E : Type} (o : outside (T:=T) (E:=E)) (cfg : config) (w : world (T:=T) (E:=E)) (n : nat) :
  outside_ok zoneinfo o -> inv zoneinfo w -> ends_reported zoneinfo w ->
  ends_reported zoneinfo (Nat.iter n (fun w => snd (run_once zoneinfo zone_of o cfg w)) w).
Proof.
  intros Hout Hi Hr. apply (ends_reported_iter zoneinfo zone_of o cfg Hout n w Hi Hr).
Qed.

Lemma ended_means_reported_witness :
  ends_reported any_zone (Nat.iter 2 (fun w => snd (run_once any_zone (fun _ => spring_zone) ticking default_config w)) start_world).
Proof.
  apply (ended_means_reported any_zone (fun _ => spring_zone) ticking default_config start_world 2 ticking_ok start_inv).
  intros i v Hv. exfalso. revert Hv. change (s_occ (w_sched start_world)) with (s_occ fresh_schedule).
  replace (s_occ fresh_schedule) with empty_store by (vm_compute; reflexivity). discriminate.
Defined.
