(* ===== verification/Odict.v ===== *)
(** * Python dicts with keys of any decidable type

    Insertion-ordered: assignment to a present key keeps its place, a new key goes to
    the end. *)
From S2P Require Import Prelude.

Abbreviation odict K B := (list (K * B)).

Section odict.
Context {K : Type} `{EqDecision K} {B : Type}.
Implicit Types (d : list (K * B)) (k : K) (v : B).

Fixpoint mget d k : option B :=
  match d with
  | [] => None
  | (x, v) :: d => if decide (x = k) then Some v else mget d k
  end.

Fixpoint mset d k v : list (K * B) :=
  match d with
  | [] => [(k, v)]
  | (x, w) :: d => if decide (x = k) then (x, v) :: d else (x, w) :: mset d k v
  end.

Definition mpop d k : list (K * B) := filter (fun xv => fst xv <> k) d.
Definition mget_or d k v : B := default v (mget d k).
Definition mkeys d : list K := map fst d.

Lemma mget_mset d k v x : mget (mset d k v) x = if decide (k = x) then Some v else mget d x.
Proof.
  induction d as [| [y w] d IH]; cbn; [by destruct (decide (k = x)) |].
  destruct (decide (y = k)) as [-> | Hy]; cbn; [by destruct (decide (k = x)) |].
  rewrite IH. destruct (decide (y = x)) as [<- |]; [| done]. by rewrite decide_False.
Qed.

Lemma mget_mset_eq d k v : mget (mset d k v) k = Some v.
Proof. by rewrite mget_mset, decide_True. Qed.
Lemma mget_mset_ne d k v x : k <> x -> mget (mset d k v) x = mget d x.
Proof. intros H. by rewrite mget_mset, decide_False. Qed.

Lemma mget_mpop d k x : mget (mpop d k) x = if decide (k = x) then None else mget d x.
Proof.
  unfold mpop. induction d as [| [y w] d IH]; [by destruct (decide (k = x)) |].
  destruct (decide (y = k)) as [-> | Hy].
  - rewrite filter_cons_False by (cbn; tauto). rewrite IH. cbn [mget]. by destruct (decide (k = x)).
  - rewrite filter_cons_True by done. cbn [mget]. rewrite IH. destruct (decide (y = x)) as [<- |]; [by rewrite decide_False | done].
Qed.

Lemma mget_mpop_eq d k : mget (mpop d k) k = None.
Proof. by rewrite mget_mpop, decide_True. Qed.
Lemma mget_mpop_ne d k x : k <> x -> mget (mpop d k) x = mget d x.
Proof. intros H. by rewrite mget_mpop, decide_False. Qed.

Lemma mget_elem d k v : mget d k = Some v -> (k, v) ∈ d.
Proof.
  induction d as [| [y w] d IH]; cbn; [done |]. destruct (decide (y = k)) as [-> |]; [intros [= ->]; by left |].
  intros H. right. by apply IH.
Qed.

Lemma mget_None d k : mget d k = None <-> k ∉ mkeys d.
Proof.
  induction d as [| [y w] d IH]; cbn [mget mkeys map fst]; [split; [intros _; apply not_elem_of_nil | done] |].
  rewrite not_elem_of_cons, <- IH. destruct (decide (y = k)); [split; [done | naive_solver] | naive_solver].
Qed.

Lemma mget_key d k v : mget d k = Some v -> k ∈ mkeys d.
Proof. intros H. apply mget_elem in H. apply list_elem_of_fmap. by exists (k, v). Qed.

Lemma mkeys_elem d k : k ∈ mkeys d <-> is_Some (mget d k).
Proof.
  destruct (mget d k) as [v |] eqn:E; [split; [by eexists | intros _; by eapply mget_key] |].
  apply mget_None in E. split; [done | by intros []].
Qed.

Lemma mget_Some d k v : NoDup (mkeys d) -> mget d k = Some v <-> (k, v) ∈ d.
Proof.
  intros Hn. split; [apply mget_elem |]. induction d as [| [y w] d IH]; cbn; [intros H; by apply elem_of_nil in H |].
  cbn in Hn. apply NoDup_cons in Hn as [Hy Hn]. intros [[= -> ->] | H]%elem_of_cons; [by rewrite decide_True |].
  destruct (decide (y = k)) as [-> |]; [| by apply IH]. destruct Hy. apply list_elem_of_fmap. by exists (k, v).
Qed.

Lemma mkeys_mset d k v : mkeys (mset d k v) = if decide (k ∈ mkeys d) then mkeys d else mkeys d ++ [k].
Proof.
  induction d as [| [y w] d IH]; cbn [mset mkeys map fst]; [done |]. destruct (decide (y = k)) as [-> | Hy].
  - rewrite decide_True by (by left). done.
  - cbn [mkeys map fst]. fold (mkeys (mset d k v)). rewrite IH. fold (mkeys d). destruct (decide (k ∈ mkeys d)).
    + by rewrite decide_True by (by right).
    + by rewrite decide_False by (rewrite not_elem_of_cons; split; congruence).
Qed.

Lemma NoDup_mset d k v : NoDup (mkeys d) -> NoDup (mkeys (mset d k v)).
Proof.
  intros H. rewrite mkeys_mset. destruct (decide _); [done |]. apply NoDup_app. split; [done |].
  split; [| apply NoDup_singleton]. intros x Hx ->%list_elem_of_singleton. done.
Qed.

Lemma mkeys_mpop d k : mkeys (mpop d k) = filter (fun x => x <> k) (mkeys d).
Proof.
  unfold mkeys, mpop. induction d as [| [y w] d IH]; [done |]. cbn [map fst].
  destruct (decide (y = k)) as [-> | Hy]; [rewrite !filter_cons_False by (cbn; tauto) | rewrite !filter_cons_True by done; cbn; f_equal]; exact IH.
Qed.

Lemma NoDup_mpop d k : NoDup (mkeys d) -> NoDup (mkeys (mpop d k)).
Proof. intros H. rewrite mkeys_mpop. by apply NoDup_filter. Qed.

Lemma mget_app d e k : mget (d ++ e) k = match mget d k with Some v => Some v | None => mget e k end.
Proof. induction d as [| [y w] d IH]; [done |]. cbn. by destruct (decide (y = k)). Qed.

Lemma mpop_absent d k : mget d k = None -> mpop d k = d.
Proof.
  intros H. apply mget_None in H. unfold mpop. induction d as [| [y w] d IH]; [done |]. cbn in H.
  apply not_elem_of_cons in H as [Hk Hd]. rewrite filter_cons_True by done. f_equal. by apply IH.
Qed.
Lemma length_mset d k v : length (mset d k v) = match mget d k with Some _ => length d | None => S (length d) end.
Proof.
  induction d as [| [y w] d IH]; [done |]. cbn. destruct (decide (y = k)); [done |]. cbn. rewrite IH. by destruct (mget d k).
Qed.

Lemma length_mpop d k : NoDup (mkeys d) -> length (mpop d k) = match mget d k with Some _ => pred (length d) | None => length d end.
Proof.
  intros Hn. destruct (mget d k) as [v |] eqn:E; [| by rewrite mpop_absent].
  induction d as [| [y w] d IH]; [done |]. cbn in Hn. apply NoDup_cons in Hn as [Hy Hn]. unfold mpop in *. cbn in E.
  destruct (decide (y = k)) as [-> | Hk].
  - rewrite filter_cons_False by (cbn; tauto). cbn. fold (mpop d k). rewrite mpop_absent; [done |]. by apply mget_None.
  - rewrite filter_cons_True by done. cbn. rewrite (IH Hn E). destruct d; [done | done].
Qed.
End odict.
