(* ===== verification/PeerRegistry.v ===== *)
(** * [server/peer_registry.py]: the swarms

    The peers of every torrent, keyed by typed principal and peer id, with the indexes
    that make selection independent of the size of the fleet: vectors in insertion order
    whose removals leave tombstones, and key sets by principal, address, type and role.

    Times are ints in any unit; the lock serialises the operations, so one operation is
    considered at a time.  The dicts keyed by info hash that only hold index data are
    gathered in one record per info hash, an absent entry being the empty one.  Events
    are returned in the order they are emitted; their random id is not modelled. *)
From S2P Require Import Prelude PyVal KeyedState PolicyEval Odict.

Definition INTERVAL : Z := 30.
Definition NUMWANT_CAP : Z := 200.
Definition DOWNLOADED_TTL : Z := 24 * 60 * 60.
Definition MAX_DOWNLOADED_SWARMS : Z := 10000.

#[export] Instance principal_eq_dec : EqDecision principal.
Proof. solve_decision. Defined.

Definition _DEFAULT_PRINCIPAL : principal := Principal "legacy" "".

Definition _participant_class (p : principal) : string :=
  if String.eqb (p_type p) "device" then "device"
  else if String.eqb (p_type p) "service" then "seeder" else "legacy_unattributed".

Definition _public_principal_id (p : principal) : option string :=
  if String.eqb (p_type p) "legacy" && String.eqb (p_id p) "" then None else Some (p_id p).

(** ** State *)

(** [(principal.type, principal.id, peer_id)] *)
Definition pkey : Type := string * string * string.
Definition key_of (p : principal) (peer_id : string) : pkey := (p_type p, p_id p, peer_id).

Record row := Row {
  r_ip : string; r_port : Z; r_last_seen : Z; r_left : option Z; r_joined_at : Z; r_completed_at : option Z;
  r_peer_id : string; r_principal : principal; r_interval : Z; r_uploaded_delta : Z; r_downloaded_delta : Z;
  r_counter_reset : bool; r_legacy_restricted : bool }.

(** One immutable generation of compiled roles; [c_ref] is the identity of the object. *)
Record compiled_ref := CompiledRef { c_ref : Z; c_roles : CompiledRoles }.

(** [compiled.role_of.get(id)]; roles are strings in accepted documents. *)
Definition role_name (c : compiled_ref) (id : string) : option string :=
  match dget_or (role_of (c_roles c)) id VNone with VStr r => Some r | _ => None end.

Abbreviation vector := (list (option pkey)).

Record role_index := RoleIndex {
  ri_compiled : compiled_ref; ri_orders : odict string vector; ri_positions : odict pkey (string * nat);
  ri_tombstones : odict string nat }.

Record index := Index {
  ix_order : vector; ix_positions : odict pkey nat; ix_tombstones : nat;
  ix_principal_keys : odict (string * string) (list pkey); ix_ip_keys : odict string (list pkey);
  ix_type_orders : odict string vector; ix_type_positions : odict string (odict pkey nat);
  ix_type_tombstones : odict string nat; ix_role : option role_index }.

Definition no_index : index := Index [] [] 0 [] [] [] [] [] None.

Abbreviation swarm := (odict pkey row).

Record counter := Counter { t_peer_id : string; t_uploaded : option Z; t_downloaded : option Z; t_last_seen : Z }.

Record registry := Registry {
  g_interval : Z; g_read_prune_interval : Z;
  g_swarms : odict string swarm; g_index : odict string index; g_role_index_builds : Z;
  g_downloaded : odict string (Z * Z); g_transfer_counters : odict (string * string * string) counter;
  g_last_read_prune : option Z }.

Definition new_registry (interval read_prune_interval : Z) : registry :=
  Registry interval (Z.max 0 read_prune_interval) [] [] 0 [] [] None.

Definition swarm_of (g : registry) (h : string) : swarm := mget_or (g_swarms g) h [].
Definition index_of (g : registry) (h : string) : index := mget_or (g_index g) h no_index.

Definition set_swarms (s : odict string swarm) (g : registry) : registry :=
  Registry (g_interval g) (g_read_prune_interval g) s (g_index g) (g_role_index_builds g) (g_downloaded g) (g_transfer_counters g) (g_last_read_prune g).
Definition set_swarm (h : string) (s : swarm) (g : registry) : registry := set_swarms (mset (g_swarms g) h s) g.
Definition set_index (h : string) (ix : index) (g : registry) : registry :=
  Registry (g_interval g) (g_read_prune_interval g) (g_swarms g) (mset (g_index g) h ix) (g_role_index_builds g) (g_downloaded g) (g_transfer_counters g) (g_last_read_prune g).
Definition set_builds (n : Z) (g : registry) : registry :=
  Registry (g_interval g) (g_read_prune_interval g) (g_swarms g) (g_index g) n (g_downloaded g) (g_transfer_counters g) (g_last_read_prune g).
Definition set_downloaded (d : odict string (Z * Z)) (g : registry) : registry :=
  Registry (g_interval g) (g_read_prune_interval g) (g_swarms g) (g_index g) (g_role_index_builds g) d (g_transfer_counters g) (g_last_read_prune g).
Definition set_counters (c : odict (string * string * string) counter) (g : registry) : registry :=
  Registry (g_interval g) (g_read_prune_interval g) (g_swarms g) (g_index g) (g_role_index_builds g) (g_downloaded g) c (g_last_read_prune g).
Definition set_last_prune (t : Z) (g : registry) : registry :=
  Registry (g_interval g) (g_read_prune_interval g) (g_swarms g) (g_index g) (g_role_index_builds g) (g_downloaded g) (g_transfer_counters g) (Some t).

(** An event of the telemetry hook. *)
Record event := Event {
  e_event : string; e_info_hash : string; e_peer_id : string; e_ip : string; e_port : Z; e_left : option Z; e_ts : Z;
  e_principal_type : string; e_principal_id : option string; e_participant_class : string }.

Definition _emit (name h peer_id ip : string) (port : Z) (left : option Z) (now : Z) (p : principal) : event :=
  Event name h peer_id ip port left now (p_type p) (_public_principal_id p) (_participant_class p).

(** ** Vectors with tombstones *)

(** [[key for key in order if key is not None]] *)
Definition live (order : vector) : list pkey := omap id order.
Definition compact (order : vector) : vector := map Some (live order).
Definition enumerate {A} (l : list A) : list (A * nat) := imap (fun i x => (x, i)) l.
Definition bump (d : odict string nat) (k : string) : odict string nat := mset d k (S (mget_or d k 0%nat)).

(** Few tombstones are kept. *)
Definition keep_tombstones (tombstones : nat) (order : vector) : bool :=
  (tombstones =? 0)%nat || (tombstones <? Nat.max 32 (length order / 2))%nat.

(** ** Ordered key sets *)

Definition kadd (k : pkey) (l : list pkey) : list pkey := if decide (k ∈ l) then l else l ++ [k].
Definition kdel (k : pkey) (l : list pkey) : list pkey := filter (fun x => x <> k) l.

Section members.
Context {A : Type} `{EqDecision A}.
Definition members_add (d : odict A (list pkey)) (a : A) (k : pkey) : odict A (list pkey) :=
  mset d a (kadd k (mget_or d a [])).
Definition members_remove (d : odict A (list pkey)) (a : A) (k : pkey) : odict A (list pkey) :=
  match mget d a with
  | None => d
  | Some members =>
      let members := kdel k members in
      match members with [] => mpop d a | _ => mset d a members end
  end.
End members.

(** ** The role index *)

Definition _role_index_add (k : pkey) (p : principal) (ri : role_index) : role_index :=
  if negb (String.eqb (p_type p) "device") then ri
  else
    match role_name (ri_compiled ri) (p_id p) with
    | None => ri
    | Some role =>
        let order := mget_or (ri_orders ri) role [] in
        RoleIndex (ri_compiled ri) (mset (ri_orders ri) role (order ++ [Some k]))
          (mset (ri_positions ri) k (role, length order)) (ri_tombstones ri)
    end.

Definition _role_index_remove (k : pkey) (ri : role_index) : role_index :=
  match mget (ri_positions ri) k with
  | None => ri
  | Some (role, offset) =>
      RoleIndex (ri_compiled ri) (mset (ri_orders ri) role (<[offset := None]> (mget_or (ri_orders ri) role [])))
        (mpop (ri_positions ri) k) (bump (ri_tombstones ri) role)
  end.

Definition build_role_index (order : vector) (s : swarm) (compiled : compiled_ref) : role_index :=
  foldl (fun ri key =>
    match key with
    | None => ri
    | Some k => match mget s k with None => ri | Some r => _role_index_add k (r_principal r) ri end
    end) (RoleIndex compiled [] [] []) order.

(** ** Maintenance of the indexes of one torrent *)

Definition _index_add (k : pkey) (r : row) (ix : index) : index :=
  let p := r_principal r in
  let type_order := mget_or (ix_type_orders ix) (p_type p) [] in
  Index (ix_order ix ++ [Some k]) (mset (ix_positions ix) k (length (ix_order ix))) (ix_tombstones ix)
    (members_add (ix_principal_keys ix) (p_type p, p_id p) k) (members_add (ix_ip_keys ix) (r_ip r) k)
    (mset (ix_type_orders ix) (p_type p) (type_order ++ [Some k]))
    (mset (ix_type_positions ix) (p_type p) (mset (mget_or (ix_type_positions ix) (p_type p) []) k (length type_order)))
    (ix_type_tombstones ix)
    (_role_index_add k p <$> ix_role ix).

Definition _index_remove (k : pkey) (r : row) (ix : index) : index :=
  let p := r_principal r in
  let ty := p_type p in
  let '(order, positions, tombstones) :=
    match mget (ix_positions ix) k with
    | None => (ix_order ix, ix_positions ix, ix_tombstones ix)
    | Some position => (<[position := None]> (ix_order ix), mpop (ix_positions ix) k, S (ix_tombstones ix))
    end in
  let '(torders, tpositions, ttombstones) :=
    match mget (mget_or (ix_type_positions ix) ty []) k with
    | None => (ix_type_orders ix, ix_type_positions ix, ix_type_tombstones ix)
    | Some offset =>
        (mset (ix_type_orders ix) ty (<[offset := None]> (mget_or (ix_type_orders ix) ty [])),
         mset (ix_type_positions ix) ty (mpop (mget_or (ix_type_positions ix) ty []) k),
         bump (ix_type_tombstones ix) ty)
    end in
  Index order positions tombstones
    (members_remove (ix_principal_keys ix) (ty, p_id p) k) (members_remove (ix_ip_keys ix) (r_ip r) k)
    torders tpositions ttombstones (_role_index_remove k <$> ix_role ix).

Definition _compact_order (force : bool) (ix : index) : index :=
  if (ix_tombstones ix =? 0)%nat || (negb force && (ix_tombstones ix <? Nat.max 32 (length (ix_order ix) / 2))%nat) then ix
  else
    let c := live (ix_order ix) in
    Index (map Some c) (enumerate c) 0 (ix_principal_keys ix) (ix_ip_keys ix) (ix_type_orders ix) (ix_type_positions ix)
      (ix_type_tombstones ix) (ix_role ix).

Definition set_role (ri : option role_index) (ix : index) : index :=
  Index (ix_order ix) (ix_positions ix) (ix_tombstones ix) (ix_principal_keys ix) (ix_ip_keys ix) (ix_type_orders ix)
    (ix_type_positions ix) (ix_type_tombstones ix) ri.

Definition _compact_role (role : string) (ri : role_index) : role_index :=
  let order := mget_or (ri_orders ri) role [] in
  if keep_tombstones (mget_or (ri_tombstones ri) role 0%nat) order then ri
  else
    let c := live order in
    RoleIndex (ri_compiled ri) (mset (ri_orders ri) role (map Some c))
      (foldl (fun d ki => mset d (fst ki) (role, snd ki)) (ri_positions ri) (enumerate c))
      (mset (ri_tombstones ri) role 0%nat).

Definition _compact_type (ty : string) (ix : index) : index :=
  let order := mget_or (ix_type_orders ix) ty [] in
  if keep_tombstones (mget_or (ix_type_tombstones ix) ty 0%nat) order then ix
  else
    let c := live order in
    Index (ix_order ix) (ix_positions ix) (ix_tombstones ix) (ix_principal_keys ix) (ix_ip_keys ix)
      (mset (ix_type_orders ix) ty (map Some c)) (mset (ix_type_positions ix) ty (enumerate c))
      (mset (ix_type_tombstones ix) ty 0%nat) (ix_role ix).

(** ** Records *)

Definition counter_key (h : string) (p : principal) : string * string * string := (h, p_type p, p_id p).

Definition _remove_record (h : string) (k : pkey) (g : registry) : option row * registry :=
  match mget (swarm_of g h) k with
  | None => (None, g)
  | Some r =>
      let g := set_swarm h (mpop (swarm_of g h) k) g in
      let g := set_index h (_index_remove k r (index_of g h)) g in
      let ck := counter_key h (r_principal r) in
      let g :=
        match mget (g_transfer_counters g) ck with
        | Some baseline => if String.eqb (t_peer_id baseline) (r_peer_id r) then set_counters (mpop (g_transfer_counters g) ck) g else g
        | None => g
        end in
      (Some r, g)
  end.

(** A value that went back means that the counter restarted. *)
Definition went_back (current previous : option Z) : bool :=
  match current, previous with Some c, Some p => c <? p | _, _ => false end.
Definition growth (current previous : option Z) : Z :=
  match current, previous with Some c, Some p => c - p | _, _ => 0 end.
Definition or_else (current previous : option Z) : option Z := match current with Some c => Some c | None => previous end.

Definition _counter_delta (h : string) (p : principal) (peer_id : string) (ev : option string) (uploaded downloaded : option Z)
    (now : Z) (g : registry) : (Z * Z * bool) * registry :=
  let ck := counter_key h p in
  let previous := mget (g_transfer_counters g) ck in
  let supplied := bool_decide (uploaded <> None) || bool_decide (downloaded <> None) in
  let reset :=
    match previous with
    | None => false
    | Some c =>
        bool_decide (ev = Some "started") || negb (String.eqb (t_peer_id c) peer_id) ||
        went_back uploaded (t_uploaded c) || went_back downloaded (t_downloaded c)
    end in
  let '(ud, dd, cu, cd) :=
    match previous with
    | Some c =>
        if reset then (0, 0, uploaded, downloaded)
        else (growth uploaded (t_uploaded c), growth downloaded (t_downloaded c), or_else uploaded (t_uploaded c), or_else downloaded (t_downloaded c))
    | None => (0, 0, uploaded, downloaded)
    end in
  let g :=
    if supplied || bool_decide (previous <> None)
    then set_counters (mset (g_transfer_counters g) ck (Counter peer_id cu cd now)) g else g in
  ((ud, dd, reset), g).

(** Drops the state of an empty swarm, and its completion count after a grace period. *)
Definition _cleanup_empty (h : string) (s : swarm) (now : Z) (g : registry) : registry :=
  match s with
  | _ :: _ => g
  | [] =>
      let g := set_swarms (mpop (g_swarms g) h) g in
      let g := Registry (g_interval g) (g_read_prune_interval g) (g_swarms g) (mpop (g_index g) h) (g_role_index_builds g)
        (g_downloaded g) (g_transfer_counters g) (g_last_read_prune g) in
      match mget (g_downloaded g) h with
      | Some (_, last_seen) => if last_seen <? now - DOWNLOADED_TTL then set_downloaded (mpop (g_downloaded g) h) g else g
      | None => g
      end
  end.

(** [min(d, key=lambda k: d[k]["last_seen"])] *)
Fixpoint oldest (d : odict string (Z * Z)) : option (string * Z) :=
  match d with
  | [] => None
  | (k, (_, t)) :: d =>
      match oldest d with Some (k', t') => if t' <? t then Some (k', t') else Some (k, t) | None => Some (k, t) end
  end.

Definition count_completed (h : string) (now : Z) (g : registry) : registry :=
  let '(count, _) := mget_or (g_downloaded g) h (0, now) in
  let d := mset (g_downloaded g) h (count + 1, now) in
  let d :=
    if MAX_DOWNLOADED_SWARMS <? zlen d then
      match oldest d with
      | Some (k, _) => if negb (String.eqb k h) || (1 <? zlen d) then mpop d k else d
      | None => d
      end
    else d in
  set_downloaded d g.

(** The download cycle of a peer: when it started, and when [left] first reached zero. *)
Definition cycle (prev : option row) (left : option Z) (now : Z) : Z * option Z :=
  let joined_at := match prev with Some r => r_joined_at r | None => now end in
  let completed_at := match prev with Some r => r_completed_at r | None => None end in
  let restarts := match prev, completed_at, left with Some _, Some _, Some l => 0 <? l | _, _, _ => false end in
  let '(joined_at, completed_at) := if restarts then (now, None) else (joined_at, completed_at) in
  (joined_at, match completed_at with Some t => Some t | None => if bool_decide (left = Some 0) then Some now else None end).

Definition announce (h peer_id ip : string) (port : Z) (ev : option string) (left : option Z) (now : Z) (who : option principal)
    (interval uploaded downloaded : option Z) (legacy_restricted : bool) (g : registry) : list event * registry :=
  let p := default _DEFAULT_PRINCIPAL who in
  let k := key_of p peer_id in
  let notify name := _emit name h peer_id ip port left now p in
  let g := set_swarm h (swarm_of g h) g in
  if bool_decide (ev = Some "stopped") then
    let '(removed, g) := _remove_record h k g in
    let g := _cleanup_empty h (swarm_of g h) now g in
    (match removed with Some _ => [notify "stop"] | None => [] end, g)
  else
    let prev := mget (swarm_of g h) k in
    let joined := match prev with None => [notify "join"] | Some _ => [] end in
    let '(joined_at, completed_at) := cycle prev left now in
    let '((ud, dd, reset), g) := _counter_delta h p peer_id ev uploaded downloaded now g in
    let completed := bool_decide (ev = Some "completed") in
    let g := if completed then count_completed h now g else g in
    let completed_at := if completed then Some (default now completed_at) else completed_at in
    let r := Row ip port now left joined_at completed_at peer_id p (default (g_interval g) interval) ud dd reset legacy_restricted in
    let g :=
      match prev with
      | Some old =>
          if negb (String.eqb (r_ip old) ip) || bool_decide (r_principal old <> p)
          then set_index h (_index_add k r (_index_remove k old (index_of g h))) g else g
      | None => set_index h (_index_add k r (index_of g h)) g
      end in
    (joined ++ (if completed then [notify "complete"] else []), set_swarm h (mset (swarm_of g h) k r) g).

(** ** Pruning *)

Definition stale (now : Z) (r : row) : bool := r_last_seen r <? now - 2 * r_interval r.

Definition _prune (h : string) (now : Z) (g : registry) : list event * registry :=
  foldl (fun acc k =>
    let '(events, g) := acc in
    match _remove_record h k g with
    | (Some r, g) => (events ++ [_emit "stale" h (r_peer_id r) (r_ip r) (r_port r) (r_left r) now (r_principal r)], g)
    | (None, g) => (events, g)
    end) ([], g) (map fst (filter (fun kr => stale now (snd kr) = true) (swarm_of g h))).

Definition _read_prune_locked (now : Z) (force : bool) (g : registry) : list event * registry :=
  let due :=
    force ||
    match g_last_read_prune g with
    | None => true
    | Some last => (now <? last) || (g_read_prune_interval g =? 0) || (g_read_prune_interval g <=? now - last)
    end in
  if negb due then ([], g)
  else
    let g := set_last_prune now g in
    let '(events, g) := foldl (fun acc h =>
      let '(events, g) := acc in
      let '(more, g) := _prune h now g in
      (events ++ more, _cleanup_empty h (swarm_of g h) now g)) ([], g) (mkeys (g_swarms g)) in
    (events, foldl (fun g h => match mget (g_swarms g) h with None => _cleanup_empty h [] now g | Some _ => g end) g (mkeys (g_downloaded g))).

(** ** Selection *)

(** The hints of [select_peers]; each is [None] or a collection.  Roles come with the
    generation they are read in. *)
Record hints := Hints {
  h_principals : option (list (string * string)); h_ips : option (list string);
  h_roles : option (list string * compiled_ref); h_types : option (list string) }.
Definition no_hints : hints := Hints None None None None.

Definition _role_index (h : string) (compiled : compiled_ref) (g : registry) : role_index * registry :=
  let ix := index_of g h in
  let fresh :=
    let ri := build_role_index (ix_order ix) (swarm_of g h) compiled in
    (ri, set_builds (g_role_index_builds g + 1) (set_index h (set_role (Some ri) ix) g)) in
  match ix_role ix with
  | Some cached => if c_ref (ri_compiled cached) =? c_ref compiled then (cached, g) else fresh
  | None => fresh
  end.

Definition nonempty {A} (l : list A) : list (list A) := match l with [] => [] | _ => [l] end.

(** The vectors of the given roles, compacted one after the other. *)
Definition role_sources (h : string) (roles : list string) (compiled : compiled_ref) (g : registry) : list vector * registry :=
  let '(ri, g) := _role_index h compiled g in
  foldl (fun acc role =>
    let '(sources, g) := acc in
    match ix_role (index_of g h) with
    | None => (sources, g)
    | Some ri =>
        let ri := _compact_role role ri in
        (sources ++ nonempty (mget_or (ri_orders ri) role []), set_index h (set_role (Some ri) (index_of g h)) g)
    end) ([], g) (sort_by str_leb roles).

Definition type_sources (h : string) (types : list string) (g : registry) : list vector * registry :=
  foldl (fun acc ty =>
    let '(sources, g) := acc in
    let ix := _compact_type ty (index_of g h) in
    (sources ++ nonempty (mget_or (ix_type_orders ix) ty []), set_index h ix g)) ([], g) types.

Definition key_sources {A} `{EqDecision A} (d : odict A (list pkey)) (l : list A) : list vector :=
  flat_map (fun a => nonempty (map Some (mget_or d a []))) l.

Definition _candidate_sources (h : string) (hs : hints) (g : registry) : list vector * registry :=
  match hs with
  | Hints None None None None =>
      let g := set_index h (_compact_order false (index_of g h)) g in
      (nonempty (ix_order (index_of g h)), g)
  | Hints principals ips roles types =>
      let '(by_role, g) := match roles with Some (names, compiled) => role_sources h names compiled g | None => ([], g) end in
      let by_principal := key_sources (ix_principal_keys (index_of g h)) (default [] principals) in
      let by_ip := key_sources (ix_ip_keys (index_of g h)) (default [] ips) in
      let '(by_type, g) := type_sources h (default [] types) g in
      (by_role ++ by_principal ++ by_ip ++ by_type, g)
  end.

(** [keys[(start + offset) % len(keys)] for offset in range(len(keys))] *)
Definition rotate_by {A} (start : Z) (l : list A) : list A :=
  let n := Z.to_nat (start mod zlen l) in drop n l ++ take n l.

Definition predicate_t : Type := option principal -> option string -> principal -> string -> res bool.

Section select.
Context (s : swarm) (skip : pkey -> row -> bool) (permits : row -> res bool) (inspect_limit limit : Z).

(** The scan so far: rows inspected, keys seen, peers picked with their keys. *)
Record scan := Scan { sc_inspected : Z; sc_seen : list pkey; sc_out : list (pkey * (string * Z)) }.

Definition full (st : scan) : bool := (inspect_limit <=? sc_inspected st) || (limit <=? zlen (sc_out st)).

Fixpoint scan_keys (keys : vector) (st : scan) : res scan :=
  match keys with
  | [] => Ok st
  | key :: keys =>
      if full st then Ok st
      else
        match key with
        | None => scan_keys keys st
        | Some k =>
            if decide (k ∈ sc_seen st) then scan_keys keys st
            else
              let st := Scan (sc_inspected st) (k :: sc_seen st) (sc_out st) in
              match mget s k with
              | None => scan_keys keys st
              | Some r =>
                  if skip k r then scan_keys keys st
                  else
                    let* ok := permits r in
                    let out := if (ok : bool) then sc_out st ++ [(k, (r_ip r, r_port r))] else sc_out st in
                    scan_keys keys (Scan (sc_inspected st + 1) (sc_seen st) out)
              end
        end
  end.

Fixpoint scan_sources (start : Z) (sources : list vector) (st : scan) : res scan :=
  match sources with
  | [] => Ok st
  | source :: sources =>
      let* st := scan_keys (rotate_by start source) st in
      if full st then Ok st else scan_sources start sources st
  end.
End select.

(** [randbelow] is the random choice of this call. *)
Definition _select_locked (randbelow : Z -> Z) (h peer_id : string) (who : option principal) (ip : option string)
    (predicate : option predicate_t) (numwant : Z) (hs : hints) (bare_peer_id : bool) : sm registry (list (string * Z)) := fun g =>
  let limit := Z.min (Z.max 0 numwant) NUMWANT_CAP in
  if limit =? 0 then (Ok [], g)
  else
    let s := swarm_of g h in
    let '(sources, g) := _candidate_sources h hs g in
    match sources with
    | [] => (Ok [], g)
    | _ =>
        let self_key := key_of (default _DEFAULT_PRINCIPAL who) peer_id in
        let start := randbelow (foldl (fun n source => n + zlen source) 0 sources) in
        let skip k r := if bare_peer_id then String.eqb (r_peer_id r) peer_id else bool_decide (k = self_key) in
        let permits r := match predicate with Some f => f who ip (r_principal r) (r_ip r) | None => Ok true end in
        (let* st := scan_sources s skip permits (Z.min (4 * limit) (zlen s)) limit start (rotate_by start sources) (Scan 0 [] []) in
         Ok (map snd (sc_out st)), g)
    end.

Definition peers (randbelow : Z -> Z) (h peer_id : string) (numwant now : Z) (g : registry) : (res (list (string * Z)) * list event) * registry :=
  let '(events, g) := _read_prune_locked now false g in
  let '(out, g) := _select_locked randbelow h peer_id None None None numwant no_hints true g in
  ((out, events), g).

Definition select_peers (randbelow : Z -> Z) (h peer_id : string) (who : option principal) (ip : option string)
    (predicate : option predicate_t) (numwant now : Z) (hs : hints) (g : registry) : (res (list (string * Z)) * list event) * registry :=
  let '(events, g) := _read_prune_locked now false g in
  let '(out, g) := _select_locked randbelow h peer_id who ip predicate numwant hs false g in
  ((out, match out with Ok _ => events | Err _ => [] end), g).

Definition has_principal_type (h ty : string) (g : registry) : bool :=
  match mget_or (ix_type_positions (index_of g h)) ty [] with [] => false | _ => true end.

(** ** Reports *)

Definition is_seeder (r : row) : bool := bool_decide (r_left r = Some 0).
Definition seeders (rows : list row) : Z := zlen (filter (fun r => is_seeder r = true) rows).
Definition completions (g : registry) (h : string) : Z := fst (mget_or (g_downloaded g) h (0, 0)).

Record scrape_result := ScrapeResult { s_complete : Z; s_incomplete : Z; s_downloaded : Z }.

Definition scrape (h : string) (now : Z) (g : registry) : (scrape_result * list event) * registry :=
  let '(events, g) := _read_prune_locked now false g in
  let records := map snd (swarm_of g h) in
  ((ScrapeResult (seeders records) (zlen records - seeders records) (completions g h), events), g).

Record swarm_stats := SwarmStats {
  st_seeders : Z; st_leechers : Z; st_peers : Z; st_bytes_remaining : Z; st_completed : Z }.

Definition remaining (rows : list row) : Z :=
  foldl (fun n r => match r_left r with Some l => if 0 <? l then n + l else n | None => n end) 0 rows.

(** The order of the result is that of a set in the code. *)
Definition stats (now : Z) (g : registry) : (list (string * swarm_stats) * list event) * registry :=
  let '(events, g) := _read_prune_locked now false g in
  let hashes := mkeys (g_swarms g) ++ filter (fun h => mget (g_swarms g) h = None) (mkeys (g_downloaded g)) in
  ((map (fun h =>
      let rows := map snd (swarm_of g h) in
      (h, SwarmStats (seeders rows) (zlen rows - seeders rows) (zlen rows) (remaining rows) (completions g h))) hashes, events), g).

Record peer_view := PeerView {
  v_row : row; v_is_seeder : bool; v_principal_id : option string; v_participant_class : string; v_download_seconds : option Z }.

Definition view_of (r : row) : peer_view :=
  PeerView r (is_seeder r) (_public_principal_id (r_principal r)) (_participant_class (r_principal r))
    (t ← r_completed_at r; Some (t - r_joined_at r)).

Definition registry_snapshot (now : Z) (g : registry) : (list (string * list peer_view) * list event) * registry :=
  let '(events, g) := _read_prune_locked now false g in
  ((filter (fun hv => snd hv <> []) (map (fun hs => (fst hs, map view_of (map snd (snd hs)))) (g_swarms g)), events), g).

Definition prune_all (now : Z) (g : registry) : list event * registry := _read_prune_locked now true g.

(** Two devices and the seeder in one swarm. *)
Example three_peers :
  let join id ip left := snd ∘ announce "h" ("p" +:+ id) ip 6881 None left 100 (Some (Principal "device" id)) None None None false in
  let g := join "a" "10.0.0.1" (Some 5) (join "b" "10.0.0.2" (Some 0) (new_registry 30 30)) in
  fst (peers (fun _ => 0) "h" "pa" 50 101 g) = (Ok [("10.0.0.2", 6881)], []) /\
  fst (fst (scrape "h" 101 g)) = ScrapeResult 1 1 0 /\
  fst (fst (peers (fun _ => 0) "h" "pa" 50 1000 g)) = Ok [].
Proof. vm_compute. done. Qed.
