(* ===== verification/RegistryIndex.v ===== *)
(** * The indexes of a swarm

    The selection indexes of one torrent always describe its rows: a vector with
    tombstones lists each member once, at the position its dict says, and the key sets
    hold exactly the keys of their value.  Each update of an index has one lemma here. *)
From S2P Require Import Prelude PyVal KeyedState PolicyEval Odict PeerRegistry.

(** ** Vectors *)

Definition holes (order : vector) : nat := length (filter (fun k => k = None) order).

(** [pos] and [order] are inverse, over the members [M]. *)
Record vec_ok (order : vector) (pos : pkey -> option nat) (tomb : nat) (M : pkey -> Prop) : Prop := {
  vo_inverse : forall k i, pos k = Some i <-> order !! i = Some (Some k);
  vo_members : forall k, is_Some (pos k) <-> M k;
  vo_holes : tomb = holes order }.

Lemma vec_ext order pos pos' tomb M M' :
  (forall k, pos' k = pos k) -> (forall k, M' k <-> M k) -> vec_ok order pos tomb M -> vec_ok order pos' tomb M'.
Proof. intros Hp HM [A B C]. split; [intros k i; by rewrite Hp | intros k; by rewrite Hp, HM | done]. Qed.

Lemma vec_empty : vec_ok [] (fun _ => None) 0 (fun _ => False).
Proof. split; [done | | done]. intros k. split; [by intros [] | done]. Qed.

Lemma vec_add order pos tomb M k :
  vec_ok order pos tomb M -> ~ M k ->
  vec_ok (order ++ [Some k]) (fun x => if decide (k = x) then Some (length order) else pos x) tomb (fun x => x = k \/ M x).
Proof.
  intros [A B C] Hk. split.
  - intros x i. destruct (decide (k = x)) as [<- | Hx].
    + split; [intros [= <-]; by apply list_lookup_middle |]. intros H. apply lookup_app_Some in H as [H | [Hl H]].
      * apply A in H. destruct Hk. apply B. by eexists.
      * destruct (i - length order)%nat eqn:E; [f_equal; lia | discriminate H].
    + rewrite A. split; [intros H; by apply lookup_app_l_Some |]. intros H. apply lookup_app_Some in H as [H | [Hl H]]; [done |].
      destruct (i - length order)%nat; [cbn in H; congruence | discriminate H].
  - intros x. destruct (decide (k = x)) as [<- | Hx]; [split; [by left | by eexists] |]. rewrite B. naive_solver.
  - rewrite C. unfold holes. rewrite filter_app, length_app, (filter_cons_False _ (Some k)) by done. cbn. lia.
Qed.

Lemma holes_cons x order : holes (x :: order) = ((if decide (x = None) then 1 else 0) + holes order)%nat.
Proof. unfold holes. rewrite filter_cons. by destruct (decide (x = None)). Qed.

Lemma holes_insert order i k : order !! i = Some (Some k) -> holes (<[i := None]> order) = S (holes order).
Proof.
  revert i. induction order as [| x order IH]; intros i H; [done |]. destruct i as [| i]; cbn in H.
  - injection H as ->. change (<[0%nat := None]> (Some k :: order)) with (None :: order). by rewrite !holes_cons.
  - change (<[S i := None]> (x :: order)) with (x :: <[i := None]> order). rewrite !holes_cons, IH by done. lia.
Qed.

Lemma vec_remove order pos tomb M k i :
  vec_ok order pos tomb M -> pos k = Some i ->
  vec_ok (<[i := None]> order) (fun x => if decide (k = x) then None else pos x) (S tomb) (fun x => M x /\ x <> k).
Proof.
  intros [A B C] Hi. pose proof Hi as Hl. apply A in Hl. split.
  - intros x j. destruct (decide (k = x)) as [<- | Hx].
    + split; [done |]. intros H. destruct (decide (i = j)) as [<- | Hj].
      * rewrite list_lookup_insert_eq in H; [done | by eapply lookup_lt_Some].
      * rewrite list_lookup_insert_ne in H by done. apply A in H. congruence.
    + rewrite A. destruct (decide (i = j)) as [<- | Hj].
      * rewrite list_lookup_insert_eq by (by eapply lookup_lt_Some). split; [congruence | done].
      * by rewrite list_lookup_insert_ne.
  - intros x. destruct (decide (k = x)) as [<- | Hx]; [split; [by intros [] | by intros []] |]. rewrite B. naive_solver.
  - rewrite C. symmetry. by eapply holes_insert.
Qed.

Lemma live_elem order k : k ∈ live order <-> exists i, order !! i = Some (Some k).
Proof.
  unfold live. rewrite list_elem_of_omap. split.
  - intros (x & Hx & Hk). apply list_elem_of_lookup in Hx as [i Hi]. exists i. by destruct x as [x |]; [injection Hk as -> |].
  - intros (i & Hi). exists (Some k). split; [by eapply list_elem_of_lookup_2 | done].
Qed.

Lemma vec_live order pos tomb M : vec_ok order pos tomb M -> NoDup (live order) /\ forall k, k ∈ live order <-> M k.
Proof.
  intros [A B _]. split.
  - assert (Hu : forall i j k, order !! i = Some (Some k) -> order !! j = Some (Some k) -> i = j).
    { intros i j k H1 H2. apply A in H1, H2. congruence. }
    clear A B. unfold live. induction order as [| [x |] order IH]; cbn; [constructor | |].
    + constructor; [| apply IH; intros i j k H1 H2; apply (eq_add_S i j), (Hu (S i) (S j) k); done].
      intros Hin. change (x ∈ live order) in Hin. apply live_elem in Hin as [i Hi]. specialize (Hu 0%nat (S i) x eq_refl Hi). done.
    + apply IH. intros i j k H1 H2. apply (eq_add_S i j), (Hu (S i) (S j) k); done.
  - intros k. rewrite live_elem, <- B. split; intros [i Hi]; exists i; by apply A.
Qed.

Lemma holes_some l : holes (map Some l) = 0%nat.
Proof. induction l as [| x l IH]; [done |]. cbn [map]. by rewrite holes_cons, IH. Qed.

Lemma enumerate_get (l : list pkey) k i : NoDup l -> mget (enumerate l) k = Some i <-> l !! i = Some k.
Proof.
  unfold enumerate. intros Hn. assert (H : forall n, mget (imap (fun i x => (x, (n + i)%nat)) l) k = Some (n + i)%nat <-> l !! i = Some k).
  { revert i Hn. induction l as [| x l IH]; intros i Hn n; [done |]. apply NoDup_cons in Hn as [Hx Hn]. cbn [imap mget].
    rewrite Nat.add_0_r. destruct (decide (x = k)) as [-> | Hk].
    - destruct i as [| i]; [rewrite Nat.add_0_r; done |]. cbn. split; [intros [= H]; lia |]. intros H. destruct Hx. by eapply list_elem_of_lookup_2.
    - destruct i as [| i].
      + cbn. split; [| congruence]. intros H. exfalso. apply mget_elem, list_elem_of_lookup in H as [j Hj].
        rewrite list_lookup_imap in Hj. destruct (l !! j); [| done]. cbn in Hj. injection Hj as _ Hj. lia.
      + cbn [lookup list_lookup]. rewrite <- (IH i Hn (S n)). replace (n + S i)%nat with (S n + i)%nat by lia.
        erewrite imap_ext; [reflexivity |]. intros j y _. cbn. f_equal. lia. }
  exact (H 0%nat).
Qed.

Lemma vec_compact order pos tomb M :
  vec_ok order pos tomb M -> vec_ok (map Some (live order)) (mget (enumerate (live order))) 0 M.
Proof.
  intros Hv. destruct (vec_live _ _ _ _ Hv) as [Hn Hm]. split.
  - intros k i. rewrite enumerate_get by done. rewrite list_lookup_fmap. destruct (live order !! i); cbn; [| done]. split; congruence.
  - intros k. rewrite <- Hm. split.
    + intros [i Hi]. apply enumerate_get in Hi; [| done]. by eapply list_elem_of_lookup_2.
    + intros [i Hi]%list_elem_of_lookup. exists i. by apply enumerate_get.
  - by rewrite holes_some.
Qed.

(** ** Key sets *)

Section sets.
Context {A : Type} `{EqDecision A}.

Definition set_ok (d : odict A (list pkey)) (M : A -> pkey -> Prop) : Prop :=
  forall a, NoDup (mget_or d a []) /\ forall k, k ∈ mget_or d a [] <-> M a k.

Lemma mget_or_mset {B} (d : odict A B) a v x y : mget_or (mset d a v) x y = if decide (a = x) then v else mget_or d x y.
Proof. unfold mget_or. rewrite mget_mset. by destruct (decide (a = x)). Qed.
Lemma mget_or_mpop {B} (d : odict A B) a x y : mget_or (mpop d a) x y = if decide (a = x) then y else mget_or d x y.
Proof. unfold mget_or. rewrite mget_mpop. by destruct (decide (a = x)). Qed.

Lemma kadd_spec k l : NoDup l -> NoDup (kadd k l) /\ forall x, x ∈ kadd k l <-> x = k \/ x ∈ l.
Proof.
  intros Hn. unfold kadd. destruct (decide (k ∈ l)) as [Hk | Hk]; [split; [done | intros x; naive_solver] |]. split.
  - apply NoDup_app. split; [done |]. split; [| apply NoDup_singleton]. intros x Hx ->%list_elem_of_singleton. done.
  - intros x. rewrite elem_of_app, list_elem_of_singleton. tauto.
Qed.

Lemma set_add d M a k :
  set_ok d M -> set_ok (members_add d a k) (fun b x => (b = a /\ x = k) \/ M b x).
Proof.
  intros Hd b. unfold members_add. rewrite mget_or_mset. destruct (Hd a) as [Hn Hm]. destruct (decide (a = b)) as [<- | Hb].
  - destruct (kadd_spec k _ Hn) as [Hn' Hm']. split; [done |]. intros x. rewrite Hm', Hm. naive_solver.
  - destruct (Hd b) as [Hnb Hmb]. split; [done |]. intros x. rewrite Hmb. naive_solver.
Qed.

Lemma set_remove d M a k :
  set_ok d M -> (forall b, M b k -> b = a) -> set_ok (members_remove d a k) (fun b x => M b x /\ x <> k).
Proof.
  intros Hd Hk b. destruct (Hd b) as [Hn Hm].
  assert (Hsame : a <> b -> forall x, (M b x /\ x <> k) <-> M b x) by (intros Hb x; split; [tauto |]; intros Hx; split; [done | intros ->; by apply Hk in Hx]).
  assert (Hdel : NoDup (kdel k (mget_or d a [])) /\ forall x, x ∈ kdel k (mget_or d a []) <-> M a x /\ x <> k).
  { destruct (Hd a) as [Hna Hma]. unfold kdel. split; [by apply NoDup_filter |]. intros x. rewrite list_elem_of_filter, Hma. tauto. }
  unfold members_remove. unfold mget_or in Hdel. destruct (mget d a) as [l |] eqn:E; cbn [default from_option id] in Hdel.
  2:{ split; [done |]. intros x. rewrite Hm. destruct (decide (a = b)) as [<- | Hb]; [| by rewrite Hsame].
      assert (Hno : ~ M a x) by (rewrite <- Hm; unfold mget_or; rewrite E; apply not_elem_of_nil). tauto. }
  destruct (kdel k l) as [| y l']; [rewrite mget_or_mpop | rewrite mget_or_mset];
    (destruct (decide (a = b)) as [<- | Hb]; [exact Hdel | split; [done |]; intros x; by rewrite Hm, Hsame]).
Qed.

Lemma set_ext d M M' : (forall a k, M' a k <-> M a k) -> set_ok d M -> set_ok d M'.
Proof. intros H Hd a. destruct (Hd a) as [Hn Hm]. split; [done |]. intros k. by rewrite Hm, H. Qed.
End sets.

(** ** All the indexes of one torrent *)

Definition role_for (c : compiled_ref) (p : principal) : option string :=
  if String.eqb (p_type p) "device" then role_name c (p_id p) else None.

(** The rows, as a function of the key. *)
Definition rows : Type := pkey -> option row.
Definition with_attr {B} (look : rows) (f : row -> B) (b : B) (k : pkey) : Prop := exists r, look k = Some r /\ f r = b.
Definition place (look : rows) (k : pkey) (r : option row) : rows := fun x => if decide (k = x) then r else look x.

Definition role_pos (ri : role_index) (role : string) (k : pkey) : option nat :=
  match mget (ri_positions ri) k with Some (ro, i) => if decide (ro = role) then Some i else None | None => None end.

Definition role_ok (look : rows) (ri : role_index) : Prop :=
  forall role, vec_ok (mget_or (ri_orders ri) role []) (role_pos ri role) (mget_or (ri_tombstones ri) role 0%nat)
    (with_attr look (fun r => role_for (ri_compiled ri) (r_principal r)) (Some role)).

Record ix_ok (look : rows) (ix : index) : Prop := {
  io_order : vec_ok (ix_order ix) (mget (ix_positions ix)) (ix_tombstones ix) (fun k => is_Some (look k));
  io_principal : set_ok (ix_principal_keys ix) (with_attr look (fun r => (p_type (r_principal r), p_id (r_principal r))));
  io_ip : set_ok (ix_ip_keys ix) (with_attr look r_ip);
  io_type : forall ty, vec_ok (mget_or (ix_type_orders ix) ty []) (mget (mget_or (ix_type_positions ix) ty []))
    (mget_or (ix_type_tombstones ix) ty 0%nat) (with_attr look (fun r => p_type (r_principal r)) ty);
  io_role : forall ri, ix_role ix = Some ri -> role_ok look ri }.

Lemma attr_add {B} (look : rows) (f : row -> B) b k r x :
  look k = None -> with_attr (place look k (Some r)) f b x <-> (b = f r /\ x = k) \/ with_attr look f b x.
Proof.
  intros Hk. unfold with_attr, place. destruct (decide (k = x)) as [<- | Hx].
  - split; [intros (y & [= <-] & <-); by left |]. intros [[-> _] | (y & Hy & _)]; [by exists r | congruence].
  - split; [intros (y & Hy & Hf); right; by exists y |]. intros [[_ ->] | (y & Hy & Hf)]; [done | by exists y].
Qed.

Lemma attr_remove {B} (look : rows) (f : row -> B) b k x :
  with_attr (place look k None) f b x <-> with_attr look f b x /\ x <> k.
Proof.
  unfold with_attr, place. destruct (decide (k = x)) as [<- | Hx]; [split; [by intros (? & ? & _) | tauto] |].
  split; [intros H; split; [done | congruence] | tauto].
Qed.

Lemma attr_fun {B} (look : rows) (f : row -> B) b k r : look k = Some r -> with_attr look f b k -> b = f r.
Proof. intros Hk (y & Hy & <-). congruence. Qed.

Lemma place_some (look : rows) k r x : is_Some (place look k (Some r) x) <-> x = k \/ is_Some (look x).
Proof.
  unfold place. destruct (decide (k = x)) as [<- | Hx]; [split; [by left | by eexists] |]. split; [by right | intros [-> | ?]; done].
Qed.
Lemma place_none (look : rows) k x : is_Some (place look k None x) <-> is_Some (look x) /\ x <> k.
Proof. unfold place. destruct (decide (k = x)) as [<- | Hx]; [split; [by intros [] | tauto] | naive_solver]. Qed.

Lemma ix_empty : ix_ok (fun _ => None) no_index.
Proof.
  assert (Hno : forall B (f : row -> B) b k, with_attr (fun _ => None) f b k <-> False) by (intros; split; [by intros (? & ? & _) | done]).
  split; [| | | | done].
  - eapply vec_ext; [done | | exact vec_empty]. intros k. split; [by intros [] | done].
  - intros a. split; [constructor |]. intros k. rewrite Hno. cbn. split; [intros H; by apply elem_of_nil in H | done].
  - intros a. split; [constructor |]. intros k. rewrite Hno. cbn. split; [intros H; by apply elem_of_nil in H | done].
  - intros ty. eapply vec_ext; [done | | exact vec_empty]. intros k. apply Hno.
Qed.

(** ** Adding and removing a row *)

(** A vector kept in a dict of vectors. *)
Lemma vec_same order pos pos' tomb M M' k :
  (forall x, x <> k -> pos' x = pos x) -> pos' k = None -> pos k = None ->
  (forall x, M' x <-> M x) -> vec_ok order pos tomb M -> vec_ok order pos' tomb M'.
Proof.
  intros Hp Hk' Hk HM. apply vec_ext; [| done]. intros x. destruct (decide (x = k)) as [-> |]; [congruence | by apply Hp].
Qed.

Lemma role_add look ri k r :
  role_ok look ri -> look k = None -> mget (ri_positions ri) k = None -> role_ok (place look k (Some r)) (_role_index_add k (r_principal r) ri).
Proof.
  intros Hok Hk Hpos role. unfold _role_index_add, role_for. specialize (Hok role).
  assert (Hold : (forall x, with_attr (place look k (Some r)) (fun r => role_for (ri_compiled ri) (r_principal r)) (Some role) x <->
      (Some role = role_for (ri_compiled ri) (r_principal r) /\ x = k) \/
      with_attr look (fun r => role_for (ri_compiled ri) (r_principal r)) (Some role) x)) by (intros x; by apply (attr_add look (fun r => role_for (ri_compiled ri) (r_principal r)))).
  assert (Hskip : Some role <> role_for (ri_compiled ri) (r_principal r) ->
      vec_ok (mget_or (ri_orders ri) role []) (role_pos ri role) (mget_or (ri_tombstones ri) role 0%nat)
        (with_attr (place look k (Some r)) (fun r => role_for (ri_compiled ri) (r_principal r)) (Some role))).
  { intros Hne. eapply vec_ext; [done | | exact Hok]. intros x. rewrite Hold. tauto. }
  unfold role_for in Hskip at 1. destruct (String.eqb (p_type (r_principal r)) "device") eqn:Ed; cbn [negb].
  2:{ by apply Hskip. }
  destruct (role_name (ri_compiled ri) (p_id (r_principal r))) as [ro |] eqn:Er; [| by apply Hskip].
  cbn [ri_orders ri_positions ri_tombstones ri_compiled]. rewrite mget_or_mset. destruct (decide (ro = role)) as [-> | Hro].
  - eapply vec_ext; [| | apply vec_add; [exact Hok |]].
    + intros x. unfold role_pos. cbn [ri_positions]. rewrite mget_mset. destruct (decide (k = x)); [by rewrite decide_True | done].
    + intros x. rewrite Hold. unfold role_for. rewrite Ed, Er. tauto.
    + intros (y & Hy & _). congruence.
  - eapply (vec_same _ _ _ _ _ _ k); [| | | | apply Hskip; congruence].
    + intros x Hx. unfold role_pos. cbn [ri_positions]. by rewrite mget_mset_ne.
    + unfold role_pos. cbn [ri_positions]. rewrite mget_mset_eq. by rewrite decide_False.
    + unfold role_pos. by rewrite Hpos.
    + done.
Qed.

Lemma role_remove look ri k r :
  role_ok look ri -> look k = Some r -> role_ok (place look k None) (_role_index_remove k ri).
Proof.
  intros Hok Hk role. unfold _role_index_remove. pose proof (Hok role) as Hv.
  assert (Hskip : role_pos ri role k = None -> vec_ok (mget_or (ri_orders ri) role []) (role_pos ri role) (mget_or (ri_tombstones ri) role 0%nat)
      (with_attr (place look k None) (fun r => role_for (ri_compiled ri) (r_principal r)) (Some role))).
  { intros Hne. eapply vec_ext; [done | | exact Hv]. intros x. rewrite attr_remove. split; [tauto |]. intros Hx. split; [done |].
    intros ->. apply (vo_members _ _ _ _ Hv) in Hx as [i Hi]. congruence. }
  destruct (mget (ri_positions ri) k) as [[ro i] |] eqn:Ek; [| apply Hskip; unfold role_pos; by rewrite Ek].
  cbn [ri_orders ri_positions ri_tombstones ri_compiled]. unfold bump. rewrite !mget_or_mset. destruct (decide (ro = role)) as [-> | Hro].
  - eapply vec_ext; [| | apply vec_remove with (k := k); [exact Hv |]].
    + intros x. unfold role_pos. cbn [ri_positions]. rewrite mget_mpop. by destruct (decide (k = x)).
    + intros x. by rewrite attr_remove.
    + unfold role_pos. by rewrite Ek, decide_True.
  - assert (Hn : role_pos ri role k = None) by (unfold role_pos; by rewrite Ek, decide_False).
    eapply (vec_same _ _ _ _ _ _ k); [| | exact Hn | | exact (Hskip Hn)]; [| | done].
    + intros x Hx. unfold role_pos. cbn [ri_positions]. by rewrite mget_mpop_ne.
    + unfold role_pos. cbn [ri_positions]. by rewrite mget_mpop_eq.
Qed.

Lemma role_absent look ri k : role_ok look ri -> look k = None -> mget (ri_positions ri) k = None.
Proof.
  intros Hok Hk. destruct (mget (ri_positions ri) k) as [[ro i] |] eqn:E; [| done]. exfalso.
  assert (Hp : is_Some (role_pos ri ro k)) by (unfold role_pos; rewrite E, decide_True by done; by eexists).
  apply (vo_members _ _ _ _ (Hok ro)) in Hp as (y & Hy & _). congruence.
Qed.

Lemma ix_add look ix k r : ix_ok look ix -> look k = None -> ix_ok (place look k (Some r)) (_index_add k r ix).
Proof.
  intros [Ho Hp Hi Ht Hr] Hk. split; cbn [_index_add ix_order ix_positions ix_tombstones ix_principal_keys ix_ip_keys ix_type_orders
    ix_type_positions ix_type_tombstones ix_role].
  - eapply vec_ext; [| | apply vec_add; [exact Ho |]].
    + intros x. apply mget_mset.
    + intros x. apply place_some.
    + intros [y Hy]. congruence.
  - eapply set_ext; [| apply set_add, Hp]. intros a x. by rewrite attr_add by done.
  - eapply set_ext; [| apply set_add, Hi]. intros a x. by rewrite attr_add by done.
  - intros ty. rewrite !mget_or_mset. destruct (decide (p_type (r_principal r) = ty)) as [<- | Hty].
    + eapply vec_ext; [| | apply vec_add; [exact (Ht _) |]].
      * intros x. apply mget_mset.
      * intros x. rewrite attr_add by done. tauto.
      * intros (y & Hy & _). congruence.
    + eapply vec_ext; [done | | exact (Ht ty)]. intros x. rewrite attr_add by done. split; [intros [[-> _] |]; done | tauto].
  - intros ri. destruct (ix_role ix) as [ri0 |]; [| done]. intros [= <-]. apply role_add; [by apply Hr | done |]. by eapply role_absent; [apply Hr |].
Qed.

Lemma ix_remove look ix k r : ix_ok look ix -> look k = Some r -> ix_ok (place look k None) (_index_remove k r ix).
Proof.
  intros [Ho Hp Hi Ht Hr] Hk. unfold _index_remove.
  destruct (proj2 (vo_members _ _ _ _ Ho k)) as [i Hpos]; [rewrite Hk; by eexists |]. rewrite Hpos.
  destruct (proj2 (vo_members _ _ _ _ (Ht (p_type (r_principal r))) k)) as [j Hj]; [by exists r |]. rewrite Hj.
  split; cbn [ix_order ix_positions ix_tombstones ix_principal_keys ix_ip_keys ix_type_orders ix_type_positions ix_type_tombstones ix_role].
  - eapply vec_ext; [| | apply vec_remove with (k := k); [exact Ho | exact Hpos]].
    + intros x. apply mget_mpop.
    + intros x. apply place_none.
  - eapply set_ext; [| apply set_remove; [exact Hp |]]; [intros a x; by rewrite attr_remove |]. intros b Hb. exact (attr_fun _ _ _ _ _ Hk Hb).
  - eapply set_ext; [| apply set_remove; [exact Hi |]]; [intros a x; by rewrite attr_remove |]. intros b Hb. exact (attr_fun _ _ _ _ _ Hk Hb).
  - intros ty. unfold bump. rewrite !mget_or_mset. destruct (decide (p_type (r_principal r) = ty)) as [<- | Hty].
    + eapply vec_ext; [| | apply vec_remove with (k := k); [exact (Ht _) | exact Hj]].
      * intros x. apply mget_mpop.
      * intros x. by rewrite attr_remove.
    + eapply vec_ext; [done | | exact (Ht ty)]. intros x. rewrite attr_remove. split; [tauto |]. intros Hx. split; [done |].
      intros ->. apply (attr_fun _ _ _ _ _ Hk) in Hx. congruence.
  - intros ri. destruct (ix_role ix) as [ri0 |]; [| done]. intros [= <-]. eapply role_remove; [by apply Hr | exact Hk].
Qed.

(** What the indexes record of a row. *)
Definition same_facets (look look' : rows) : Prop :=
  forall k, (fun r => (r_ip r, r_principal r)) <$> look k = (fun r => (r_ip r, r_principal r)) <$> look' k.

Lemma attr_facets {B} (look look' : rows) (f : string * principal -> B) b k :
  same_facets look look' -> with_attr look' (fun r => f (r_ip r, r_principal r)) b k <-> with_attr look (fun r => f (r_ip r, r_principal r)) b k.
Proof.
  intros H. specialize (H k). unfold with_attr. destruct (look k) as [r |], (look' k) as [r' |]; cbn in H; try discriminate H.
  - injection H as H1 H2. split; intros (y & [= <-] & <-); eexists; (split; [reflexivity |]); by rewrite ?H1, ?H2.
  - split; by intros (? & ? & _).
Qed.

Lemma ix_facets look look' ix : same_facets look look' -> ix_ok look ix -> ix_ok look' ix.
Proof.
  intros H [Ho Hp Hi Ht Hr]. split.
  - eapply vec_ext; [done | | exact Ho]. intros k. specialize (H k). split; intros [r Hk]; rewrite Hk in H; [destruct (look k) | destruct (look' k)];
      cbn in H; try discriminate H; by eexists.
  - eapply set_ext; [| exact Hp]. intros a k. apply (attr_facets look look' (fun f => (p_type (snd f), p_id (snd f))) a k H).
  - eapply set_ext; [| exact Hi]. intros a k. apply (attr_facets look look' fst a k H).
  - intros ty. eapply vec_ext; [done | | exact (Ht ty)]. intros k. apply (attr_facets look look' (fun f => p_type (snd f)) ty k H).
  - intros ri Hri role. eapply vec_ext; [done | | exact (Hr ri Hri role)]. intros k.
    apply (attr_facets look look' (fun f => role_for (ri_compiled ri) (snd f)) (Some role) k H).
Qed.

(** ** Compaction and the role index *)

Lemma ix_compact_order look ix force : ix_ok look ix -> ix_ok look (_compact_order force ix).
Proof.
  intros Hix. unfold _compact_order. destruct (_ || _); [done |]. destruct Hix as [Ho Hp Hi Ht Hr]. split; try done.
  by eapply vec_compact.
Qed.

Lemma ix_compact_type look ix ty : ix_ok look ix -> ix_ok look (_compact_type ty ix).
Proof.
  intros Hix. unfold _compact_type. destruct (keep_tombstones _ _); [done |]. destruct Hix as [Ho Hp Hi Ht Hr]. split; try done.
  intros ty'. cbn [ix_type_orders ix_type_positions ix_type_tombstones]. rewrite !mget_or_mset.
  destruct (decide (ty = ty')) as [<- | _]; [by eapply vec_compact | done].
Qed.

(** Writing the new offsets of one role. *)
Lemma offsets_get (role : string) (l : list (pkey * nat)) d k :
  NoDup (mkeys l) -> mget (foldl (fun d ki => mset d (fst ki) (role, snd ki)) d l) k =
    match mget l k with Some i => Some (role, i) | None => mget d k end.
Proof.
  revert d. induction l as [| [x i] l IH]; intros d Hn; [done |]. cbn in Hn. apply NoDup_cons in Hn as [Hx Hn]. cbn [foldl fst snd].
  rewrite IH by done. cbn [mget]. destruct (decide (x = k)) as [-> | Hk].
  - apply mget_None in Hx. by rewrite Hx, mget_mset_eq.
  - destruct (mget l k); [done |]. by rewrite mget_mset_ne.
Qed.

Lemma enumerate_keys (l : list pkey) : mkeys (enumerate l) = l.
Proof.
  unfold enumerate, mkeys. assert (H : forall (f : nat -> nat), map fst (imap (fun i (x : pkey) => (x, f i)) l) = l).
  { induction l as [| x l IH]; intros f; [done |]. cbn. f_equal. apply (IH (fun i => f (S i))). }
  exact (H id).
Qed.

Lemma role_compact look ri role : role_ok look ri -> role_ok look (_compact_role role ri).
Proof.
  intros Hok. unfold _compact_role. destruct (keep_tombstones _ _); [done |]. intros ro. cbn [ri_orders ri_positions ri_tombstones ri_compiled].
  rewrite !mget_or_mset. set (l := live (mget_or (ri_orders ri) role [])). destruct (vec_live _ _ _ _ (Hok role)) as [Hn Hm]. fold l in Hn, Hm.
  assert (Hpos : forall x, role_pos (RoleIndex (ri_compiled ri) (mset (ri_orders ri) role (map Some l))
      (foldl (fun d ki => mset d (fst ki) (role, snd ki)) (ri_positions ri) (enumerate l)) (mset (ri_tombstones ri) role 0%nat)) ro x =
      match mget (enumerate l) x with Some i => if decide (role = ro) then Some i else None | None => role_pos ri ro x end).
  { intros x. unfold role_pos. cbn [ri_positions]. rewrite offsets_get by (by rewrite enumerate_keys). by destruct (mget (enumerate l) x). }
  assert (Hin : forall x, is_Some (mget (enumerate l) x) <-> is_Some (role_pos ri role x)).
  { intros x. rewrite <- mkeys_elem, enumerate_keys, Hm. symmetry. apply (vo_members _ _ _ _ (Hok role)). }
  destruct (decide (role = ro)) as [<- | Hro].
  - eapply vec_ext; [| | eapply vec_compact, (Hok role)]; [| done]. intros x. rewrite Hpos. fold l.
    destruct (mget (enumerate l) x) as [i |] eqn:E; [done |]. destruct (role_pos ri role x) eqn:Ex; [| done].
    destruct (proj2 (Hin x)) as [i Hi]; [rewrite Ex; by eexists | congruence].
  - eapply vec_ext; [| | exact (Hok ro)]; [| done]. intros x. rewrite Hpos. destruct (mget (enumerate l) x) as [i |] eqn:E; [| done].
    destruct (proj1 (Hin x)) as [j Hj]; [rewrite E; by eexists |]. unfold role_pos in *. destruct (mget (ri_positions ri) x) as [[ro' j'] |]; [| done].
    destruct (decide (ro' = role)) as [-> |]; [by rewrite decide_False | done].
Qed.

Lemma role_ext look look' ri : (forall k, look' k = look k) -> role_ok look ri -> role_ok look' ri.
Proof. intros H Hok role. eapply vec_ext; [done | | exact (Hok role)]. intros k. unfold with_attr. by rewrite H. Qed.

Lemma role_add_compiled k p ri : ri_compiled (_role_index_add k p ri) = ri_compiled ri.
Proof. unfold _role_index_add. destruct (negb _); [done |]. by destruct (role_name _ _). Qed.

(** The rows of the keys visited so far. *)
Definition among (s : swarm) (seen : list pkey) : rows := fun k => if decide (k ∈ seen) then mget s k else None.

Lemma build_fold (s : swarm) todo seen ri :
  NoDup (live todo) -> (forall k, k ∈ live todo -> k ∉ seen) -> role_ok (among s seen) ri ->
  role_ok (among s (live todo ++ seen)) (foldl (fun ri key => match key with None => ri | Some k =>
    match mget s k with None => ri | Some r => _role_index_add k (r_principal r) ri end end) ri todo).
Proof.
  revert seen ri. induction todo as [| [k |] todo IH]; intros seen ri Hn Hd Hok; [exact Hok | | exact (IH seen ri Hn Hd Hok)].
  change (live (Some k :: todo)) with (k :: live todo) in *. apply NoDup_cons in Hn as [Hk Hn]. cbn [foldl].
  assert (Hks : k ∉ seen) by (apply Hd; by left).
  eapply (role_ext (among s (live todo ++ (k :: seen)))).
  { intros x. unfold among. apply decide_ext. rewrite !elem_of_app, !elem_of_cons. tauto. }
  apply IH; [done | |].
  { intros x Hx [-> | Hx']%elem_of_cons; [done |]. apply (Hd x); [by right | done]. } destruct (mget s k) as [r |] eqn:Er.
  - eapply (role_ext (place (among s seen) k (Some r))).
    + intros x. unfold place, among. destruct (decide (k = x)) as [<- | Hx]; [by rewrite decide_True by (by left) |].
      apply decide_ext. rewrite elem_of_cons. naive_solver.
    + assert (Hno : among s seen k = None) by (unfold among; by rewrite decide_False).
      apply role_add; [done | done |]. by eapply role_absent.
  - eapply role_ext; [| exact Hok]. intros x. unfold among. destruct (decide (x = k)) as [-> | Hx].
    + rewrite decide_True by (by left). by rewrite Er, decide_False.
    + apply decide_ext. rewrite elem_of_cons. naive_solver.
Qed.

(** The index built from the order is the one that would have been kept. *)
Lemma build_ok (s : swarm) order compiled :
  NoDup (live order) -> (forall k, k ∈ live order <-> is_Some (mget s k)) -> role_ok (mget s) (build_role_index order s compiled).
Proof.
  intros Hn Hm. unfold build_role_index. eapply role_ext; [| apply (build_fold s order []); [done | intros k _; apply not_elem_of_nil |]].
  - intros k. unfold among. rewrite app_nil_r. destruct (decide (k ∈ live order)) as [| Hk]; [done |]. destruct (mget s k) eqn:E; [| done].
    destruct Hk. apply Hm. rewrite E. by eexists.
  - intros role. eapply vec_ext; [done | | exact vec_empty]. intros k. split; [| done]. intros (r & Hr & _). done.
Qed.

Lemma build_compiled order s compiled : ri_compiled (build_role_index order s compiled) = compiled.
Proof.
  unfold build_role_index. assert (H : forall ri, ri_compiled ri = compiled -> ri_compiled (foldl (fun ri key => match key with None => ri | Some k =>
    match mget s k with None => ri | Some r => _role_index_add k (r_principal r) ri end end) ri order) = compiled); [| by apply H].
  induction order as [| [k |] order IH]; intros ri Hri; [done | | by apply IH]. cbn [foldl]. apply IH. destruct (mget s k); [| done].
  by rewrite role_add_compiled.
Qed.

Lemma ix_set_role look ix ri : ix_ok look ix -> role_ok look ri -> ix_ok look (set_role (Some ri) ix).
Proof. intros [Ho Hp Hi Ht Hr] Hri. split; try done. by intros ri' [= <-]. Qed.
