(* ===== verification/RegistrySpec.v ===== *)
(** * The registry stays coherent

    Every operation of the registry keeps the indexes of every torrent in step with its
    rows, keeps a transfer baseline only for a listed peer, and bounds the completion
    counts.  Pruning removes exactly the silent rows. *)
From S2P Require Import Prelude PyVal KeyedState PolicyEval Odict PeerRegistry RegistryIndex.

(** ** The invariant *)

Section coherent.
(** Compiled roles are immutable, so the identity of a generation determines them. *)
Variable heap : Z -> CompiledRoles.

Definition real (c : compiled_ref) : Prop := c_roles c = heap (c_ref c).

Lemma real_eq c c' : real c -> real c' -> c_ref c = c_ref c' -> c = c'.
Proof. destruct c, c'. unfold real. cbn. intros -> -> ->. done. Qed.

Record swarm_ok (s : swarm) (ix : index) : Prop := {
  so_nodup : NoDup (mkeys s);
  so_key : forall k r, mget s k = Some r -> k = key_of (r_principal r) (r_peer_id r);
  so_index : ix_ok (mget s) ix;
  so_real : forall ri, ix_role ix = Some ri -> real (ri_compiled ri) }.

Record reg_ok (g : registry) : Prop := {
  ro_swarms : NoDup (mkeys (g_swarms g));
  ro_swarm : forall h, swarm_ok (swarm_of g h) (index_of g h);
  ro_counter : forall h ty id c, mget (g_transfer_counters g) (h, ty, id) = Some c ->
    is_Some (mget (swarm_of g h) (ty, id, t_peer_id c));
  ro_downloaded : NoDup (mkeys (g_downloaded g));
  ro_bound : zlen (g_downloaded g) <= MAX_DOWNLOADED_SWARMS }.

(** ** Reading the state after an update *)

Lemma swarm_set h s g x : swarm_of (set_swarm h s g) x = if decide (h = x) then s else swarm_of g x.
Proof. apply mget_or_mset. Qed.
Lemma index_set h ix g x : index_of (set_index h ix g) x = if decide (h = x) then ix else index_of g x.
Proof. apply mget_or_mset. Qed.

Lemma swarm_ok_empty : swarm_ok [] no_index.
Proof. split; [constructor | done | | done]. exact ix_empty. Qed.

Lemma reg_new i r : reg_ok (new_registry i r).
Proof. split; [constructor | intros h; exact swarm_ok_empty | done | constructor | done]. Qed.

(** One torrent's swarm and index change together. *)
Lemma reg_one g h s ix :
  reg_ok g -> swarm_ok s ix ->
  (forall ty id c, mget (g_transfer_counters g) (h, ty, id) = Some c -> is_Some (mget s (ty, id, t_peer_id c))) ->
  reg_ok (set_index h ix (set_swarm h s g)).
Proof.
  intros [A B C D E] Hs Hc. split; [by apply NoDup_mset | | | done | done].
  - intros x. rewrite index_set. change (swarm_of (set_index h ix (set_swarm h s g)) x) with (swarm_of (set_swarm h s g) x). rewrite swarm_set.
    by destruct (decide (h = x)).
  - intros x ty id c Hx. change (swarm_of (set_index h ix (set_swarm h s g)) x) with (swarm_of (set_swarm h s g) x). rewrite swarm_set.
    destruct (decide (h = x)) as [<- |]; [by apply Hc | by eapply C].
Qed.

Lemma reg_index g h ix : reg_ok g -> swarm_ok (swarm_of g h) ix -> reg_ok (set_index h ix g).
Proof.
  intros [A B C D E] Hs. split; [done | | done | done | done].
  intros x. rewrite index_set. change (swarm_of (set_index h ix g) x) with (swarm_of g x). by destruct (decide (h = x)) as [<- |].
Qed.

Lemma swarm_facets s ix ix' : swarm_ok s ix -> ix_ok (mget s) ix' -> ix_role ix' = ix_role ix -> swarm_ok s ix'.
Proof. intros [A B C D] H E. split; [done | done | done |]. by rewrite E. Qed.

(** ** Removing a record *)

Lemma role_remove_compiled k ri : ri_compiled (_role_index_remove k ri) = ri_compiled ri.
Proof. unfold _role_index_remove. by destruct (mget _ _) as [[] |]. Qed.

Lemma index_add_role k r ix : ix_role (_index_add k r ix) = _role_index_add k (r_principal r) <$> ix_role ix.
Proof. done. Qed.
Lemma index_remove_role k r ix : ix_role (_index_remove k r ix) = _role_index_remove k <$> ix_role ix.
Proof. unfold _index_remove. destruct (mget (ix_positions ix) k), (mget (mget_or _ _ _) k); done. Qed.

Lemma real_index_remove k r ix : (forall ri, ix_role ix = Some ri -> real (ri_compiled ri)) ->
  forall ri, ix_role (_index_remove k r ix) = Some ri -> real (ri_compiled ri).
Proof.
  intros H ri. rewrite index_remove_role. destruct (ix_role ix) as [ri0 |]; [| done]. intros [= <-]. rewrite role_remove_compiled. by apply H.
Qed.
Lemma real_index_add k r ix : (forall ri, ix_role ix = Some ri -> real (ri_compiled ri)) ->
  forall ri, ix_role (_index_add k r ix) = Some ri -> real (ri_compiled ri).
Proof.
  intros H ri. rewrite index_add_role. destruct (ix_role ix) as [ri0 |]; [| done]. intros [= <-]. rewrite role_add_compiled. by apply H.
Qed.

Lemma ix_ext look look' ix : (forall k, look' k = look k) -> ix_ok look ix -> ix_ok look' ix.
Proof. intros H. apply ix_facets. intros k. by rewrite H. Qed.

Lemma swarm_remove s ix k r : swarm_ok s ix -> mget s k = Some r -> swarm_ok (mpop s k) (_index_remove k r ix).
Proof.
  intros [A B C D] Hk. split.
  - by apply NoDup_mpop.
  - intros x y. rewrite mget_mpop. destruct (decide (k = x)); [done | apply B].
  - eapply ix_ext; [| by eapply ix_remove]. intros x. apply mget_mpop.
  - by apply real_index_remove.
Qed.

(** The baseline of the removed session goes with it. *)
Lemma counters_remove g h k r ty id c :
  reg_ok g -> mget (swarm_of g h) k = Some r ->
  mget (g_transfer_counters (snd (_remove_record h k g))) (h, ty, id) = Some c -> is_Some (mget (mpop (swarm_of g h) k) (ty, id, t_peer_id c)).
Proof.
  intros Hg Hk. unfold _remove_record. rewrite Hk. cbn [snd]. pose proof (so_key _ _ (ro_swarm _ Hg h) _ _ Hk) as Hkey.
  match goal with |- context [mget ?cs (counter_key h (r_principal r))] => change cs with (g_transfer_counters g) end.
  assert (Hold : mget (g_transfer_counters g) (h, ty, id) = Some c -> (ty, id, t_peer_id c) <> k ->
    is_Some (mget (mpop (swarm_of g h) k) (ty, id, t_peer_id c))).
  { intros H Hne. rewrite mget_mpop_ne by done. by eapply ro_counter. }
  unfold counter_key. destruct (mget (g_transfer_counters g) (h, p_type (r_principal r), p_id (r_principal r))) as [b |] eqn:Eb.
  2:{ cbn. intros H. apply Hold; [done |]. rewrite Hkey. intros [= -> ->]. congruence. }
  destruct (String.eqb_spec (t_peer_id b) (r_peer_id r)) as [He | He].
  - cbn [g_transfer_counters set_counters]. rewrite mget_mpop. destruct (decide _) as [| Hne]; [done |]. intros H. apply Hold; [done |].
    rewrite Hkey. intros [= -> ->]. done.
  - intros H. apply Hold; [exact H |]. rewrite Hkey. intros [= -> -> Hp]. cbn in H. congruence.
Qed.

Lemma remove_record_state g h k :
  swarm_of (snd (_remove_record h k g)) h = mpop (swarm_of g h) k /\
  (forall x, h <> x -> swarm_of (snd (_remove_record h k g)) x = swarm_of g x) /\
  fst (_remove_record h k g) = mget (swarm_of g h) k /\
  g_downloaded (snd (_remove_record h k g)) = g_downloaded g /\ g_swarms (snd (_remove_record h k g)) =
    match mget (swarm_of g h) k with Some _ => mset (g_swarms g) h (mpop (swarm_of g h) k) | None => g_swarms g end.
Proof.
  unfold _remove_record. destruct (mget (swarm_of g h) k) as [r |] eqn:E.
  2:{ cbn. by rewrite mpop_absent. }
  assert (H : forall g', g_swarms g' = mset (g_swarms g) h (mpop (swarm_of g h) k) ->
    swarm_of g' h = mpop (swarm_of g h) k /\ (forall x, h <> x -> swarm_of g' x = swarm_of g x)).
  { intros g' Hg. unfold swarm_of at 1 3. rewrite Hg. split; [by rewrite mget_or_mset, decide_True |].
    intros x Hx. by rewrite mget_or_mset, decide_False. }
  match goal with |- context [mget ?cs (counter_key h (r_principal r))] => destruct (mget cs (counter_key h (r_principal r))) as [b |] end.
  1: destruct (String.eqb _ _).
  all: cbn [fst snd]; match goal with |- swarm_of ?g' _ = _ /\ _ => destruct (H g' eq_refl) as [H1 H2] end; by repeat split.
Qed.

Lemma reg_remove g h k : reg_ok g -> reg_ok (snd (_remove_record h k g)).
Proof.
  intros Hg. destruct (mget (swarm_of g h) k) as [r |] eqn:E; [| unfold _remove_record; by rewrite E].
  pose proof (counters_remove g h k r) as Hc. destruct (remove_record_state g h k) as (H1 & H2 & _ & H4 & H5). rewrite E in H5.
  assert (Hix : forall x, index_of (snd (_remove_record h k g)) x = if decide (h = x) then _index_remove k r (index_of g h) else index_of g x).
  { intros x. unfold _remove_record. rewrite E. cbn [snd]. rewrite <- index_set with (g := g).
    by destruct (mget _ (counter_key h _)); [destruct (String.eqb _ _) |]. }
  assert (Hct : forall x ty id c, mget (g_transfer_counters (snd (_remove_record h k g))) (x, ty, id) = Some c ->
    mget (g_transfer_counters g) (x, ty, id) = Some c).
  { intros x ty id c. unfold _remove_record. rewrite E. cbn [snd]. destruct (mget _ (counter_key h _)); [| done]. destruct (String.eqb _ _); [| done].
    cbn [g_transfer_counters set_counters]. rewrite mget_mpop. by destruct (decide _). }
  set (g' := snd (_remove_record h k g)) in *. clearbody g'. split.
  - rewrite H5. by apply NoDup_mset, ro_swarms.
  - intros x. rewrite Hix. destruct (decide (h = x)) as [<- | Hx]; [rewrite H1; apply swarm_remove; [by apply ro_swarm | done] |].
    rewrite H2 by done. by apply ro_swarm.
  - intros x ty id c Hx. destruct (decide (h = x)) as [<- | Hne]; [rewrite H1; by eapply Hc |]. rewrite H2 by done. eapply ro_counter; [done |]. by apply Hct.
  - rewrite H4. by apply ro_downloaded.
  - rewrite H4. by apply ro_bound.
Qed.

(** ** Dropping an empty swarm *)

Lemma reg_downloaded g d : reg_ok g -> NoDup (mkeys d) -> zlen d <= MAX_DOWNLOADED_SWARMS -> reg_ok (set_downloaded d g).
Proof. intros [A B C D E] Hn Hb. by split. Qed.

Lemma zlen_mpop {K B} `{EqDecision K} (d : odict K B) k : zlen (mpop d k) <= zlen d.
Proof. unfold zlen, mpop. pose proof (length_filter (fun xv : K * B => fst xv <> k) d). lia. Qed.

Lemma cleanup_swarm g h s now x :
  s = swarm_of g h -> swarm_of (_cleanup_empty h s now g) x = swarm_of g x.
Proof.
  intros Hs. unfold _cleanup_empty. destruct s as [| kr s]; [| done].
  assert (H : mget_or (mpop (g_swarms g) h) x [] = swarm_of g x).
  { rewrite mget_or_mpop. destruct (decide (h = x)) as [<- |]; [exact Hs | done]. }
  cbn [g_downloaded]. destruct (mget _ _) as [[c t] |]; [destruct (_ <? _) |]; exact H.
Qed.

Lemma reg_cleanup g h s now : reg_ok g -> s = swarm_of g h -> reg_ok (_cleanup_empty h s now g).
Proof.
  intros Hg Hs. pose proof (cleanup_swarm g h s now) as Hsw. unfold _cleanup_empty in *. destruct s as [| kr s]; [| done]. cbn [g_downloaded set_swarms] in *.
  set (g' := Registry _ _ _ _ _ _ _ _) in *. assert (Hg' : reg_ok g').
  { assert (Hs' : forall x, swarm_of g' x = swarm_of g x).
    { intros x. specialize (Hsw x Hs). revert Hsw. subst g'. unfold swarm_of.
      by destruct (mget (g_downloaded g) h) as [[c t] |]; [destruct (t <? now - DOWNLOADED_TTL) |]. }
    destruct Hg as [A B C D E]. split; [by apply NoDup_mpop | | | done | done].
    - intros x. rewrite Hs'. unfold index_of. subst g'. cbn [g_index]. rewrite mget_or_mpop. destruct (decide (h = x)) as [<- |]; [| apply B].
      rewrite <- Hs. exact swarm_ok_empty.
    - intros x ty id c Hx. rewrite Hs'. by eapply C. }
  destruct (mget (g_downloaded g) h) as [[c t] |]; [| done]. destruct (t <? now - DOWNLOADED_TTL); [| done].
  apply reg_downloaded; [done | apply NoDup_mpop, (ro_downloaded _ Hg) |]. etrans; [apply zlen_mpop | apply (ro_bound _ Hg)].
Qed.

(** ** An announce *)

Lemma oldest_key d k t : oldest d = Some (k, t) -> k ∈ mkeys d.
Proof.
  revert k t. induction d as [| [x [c u]] d IH]; intros k t; [done |]. cbn. destruct (oldest d) as [[k' t'] |].
  - destruct (t' <? u); intros [= <- <-]; [right; by eapply IH | by left].
  - intros [= <- <-]. by left.
Qed.
Lemma oldest_some d : d <> [] -> is_Some (oldest d).
Proof. destruct d as [| [x [c u]] d]; [done |]. intros _. cbn. destruct (oldest d) as [[] |]; [destruct (_ <? _) |]; by eexists. Qed.

Lemma zlen_mset {K B} `{EqDecision K} (d : odict K B) k v : zlen (mset d k v) <= zlen d + 1.
Proof. unfold zlen. rewrite length_mset. destruct (mget d k); lia. Qed.

(** The table never exceeds its cap: one entry is added, the oldest goes when it is full. *)
Lemma reg_completed g h now : reg_ok g -> reg_ok (count_completed h now g).
Proof.
  intros Hg. unfold count_completed. destruct (mget_or (g_downloaded g) h (0, now)) as [count t]. set (d := mset _ _ _).
  assert (Hd : NoDup (mkeys d)) by apply NoDup_mset, (ro_downloaded _ Hg).
  assert (Hl : zlen d <= MAX_DOWNLOADED_SWARMS + 1) by (etrans; [apply zlen_mset | pose proof (ro_bound _ Hg); lia]).
  destruct (Z.ltb_spec MAX_DOWNLOADED_SWARMS (zlen d)) as [Hb | Hb]; [| by apply reg_downloaded].
  destruct (oldest_some d) as [[k u] E]; [intros E; by rewrite E in Hb |]. rewrite E.
  assert (H1 : (1 <? zlen d) = true) by (apply Z.ltb_lt; unfold MAX_DOWNLOADED_SWARMS in Hb; lia). rewrite H1, orb_true_r.
  apply reg_downloaded; [done | by apply NoDup_mpop |]. apply oldest_key, mkeys_elem in E as [v E].
  unfold zlen in *. rewrite length_mpop, E by done. lia.
Qed.

Lemma completed_same g h now : g_swarms (count_completed h now g) = g_swarms g /\ g_index (count_completed h now g) = g_index g /\
  g_transfer_counters (count_completed h now g) = g_transfer_counters g.
Proof. unfold count_completed. by destruct (mget_or _ _ _). Qed.

(** The counter dict after a delta. *)
Lemma delta_counters h p peer_id ev up down now g :
  snd (_counter_delta h p peer_id ev up down now g) = g \/
  exists cu cd, snd (_counter_delta h p peer_id ev up down now g) =
    set_counters (mset (g_transfer_counters g) (counter_key h p) (Counter peer_id cu cd now)) g.
Proof.
  unfold _counter_delta. destruct (mget (g_transfer_counters g) (counter_key h p)) as [c |].
  - match goal with |- context [if ?b then (0, 0, up, down) else _] => destruct b end; cbn [snd]; rewrite (bool_decide_true (Some c <> None)), orb_true_r by done;
      right; by eexists _, _.
  - rewrite (bool_decide_false (@None counter <> None)) by tauto. rewrite orb_false_r. destruct (_ || _); cbn [snd]; [right; by eexists _, _ | by left].
Qed.

(** The row of a key is written last, with the index brought in step first. *)
Definition index_update (k : pkey) (prev : option row) (r : row) (ix : index) : index :=
  match prev with
  | Some old => if negb (String.eqb (r_ip old) (r_ip r)) || bool_decide (r_principal old <> r_principal r)
      then _index_add k r (_index_remove k old ix) else ix
  | None => _index_add k r ix
  end.

Lemma swarm_update s ix k r :
  swarm_ok s ix -> k = key_of (r_principal r) (r_peer_id r) -> swarm_ok (mset s k r) (index_update k (mget s k) r ix).
Proof.
  intros [A B C D] Hkey. split.
  - by apply NoDup_mset.
  - intros x y. rewrite mget_mset. destruct (decide (k = x)) as [<- |]; [by intros [= <-] | apply B].
  - assert (Hset : forall x, mget (mset s k r) x = place (mget s) k (Some r) x) by (intros x; apply mget_mset).
    eapply ix_ext; [exact Hset |]. unfold index_update. destruct (mget s k) as [old |] eqn:Eo; [| by apply ix_add].
    destruct (negb _ || bool_decide _) eqn:Ec.
    + eapply ix_ext; [| apply ix_add; [by apply ix_remove |]]; [| unfold place; by rewrite decide_True].
      intros x. unfold place. by destruct (decide (k = x)).
    + apply orb_false_iff in Ec as [E1%negb_false_iff E2%bool_decide_eq_false]. apply String.eqb_eq in E1. apply dec_stable in E2.
      eapply ix_facets; [| exact C]. intros x. unfold place. destruct (decide (k = x)) as [<- |]; [| done]. rewrite Eo. cbn. congruence.
  - unfold index_update. destruct (mget s k) as [old |]; [| by apply real_index_add].
    destruct (_ || _); [by apply real_index_add, real_index_remove | done].
Qed.

Lemma set_get_swarm g h x : swarm_of (set_swarm h (swarm_of g h) g) x = swarm_of g x.
Proof. rewrite swarm_set. by destruct (decide (h = x)) as [<- |]. Qed.

Lemma reg_open g h : reg_ok g -> reg_ok (set_swarm h (swarm_of g h) g).
Proof.
  intros [A B C D E]. split; [by apply NoDup_mset | | | done | done].
  - intros x. rewrite set_get_swarm. apply B.
  - intros x ty id c Hx. rewrite set_get_swarm. by eapply C.
Qed.

Lemma reg_write g g' h k r :
  reg_ok g -> k = key_of (r_principal r) (r_peer_id r) ->
  g_swarms g' = mset (g_swarms g) h (mset (swarm_of g h) k r) ->
  (forall x, index_of g' x = if decide (h = x) then index_update k (mget (swarm_of g h) k) r (index_of g h) else index_of g x) ->
  (forall x ty id c, mget (g_transfer_counters g') (x, ty, id) = Some c ->
    (x = h /\ (ty, id, t_peer_id c) = k) \/ mget (g_transfer_counters g) (x, ty, id) = Some c) ->
  NoDup (mkeys (g_downloaded g')) -> zlen (g_downloaded g') <= MAX_DOWNLOADED_SWARMS -> reg_ok g'.
Proof.
  intros Hg Hk Hs Hi Hc Hd Hb.
  assert (Hsw : forall x, swarm_of g' x = if decide (h = x) then mset (swarm_of g h) k r else swarm_of g x).
  { intros x. unfold swarm_of at 1. rewrite Hs. apply mget_or_mset. }
  split; [rewrite Hs; by apply NoDup_mset, ro_swarms | | | done | done].
  - intros x. rewrite Hsw, Hi. destruct (decide (h = x)) as [<- |]; [apply swarm_update; [by apply ro_swarm | done] | by apply ro_swarm].
  - intros x ty id c Hx. rewrite Hsw. apply Hc in Hx as [[-> <-] | Hx].
    + rewrite decide_True by done. rewrite mget_mset_eq. by eexists.
    + apply (ro_counter _ Hg) in Hx. destruct (decide (h = x)) as [<- |]; [| done]. rewrite mget_mset. destruct (decide _); [by eexists | done].
Qed.

Definition announce_row (h peer_id ip : string) (port : Z) (ev : option string) (left : option Z) (now : Z) (p : principal)
    (interval uploaded downloaded : option Z) (restricted : bool) (g : registry) : row :=
  let prev := mget (swarm_of g h) (key_of p peer_id) in
  let '(joined_at, completed_at) := cycle prev left now in
  let '((ud, dd, reset), _) := _counter_delta h p peer_id ev uploaded downloaded now g in
  Row ip port now left joined_at (if bool_decide (ev = Some "completed") then Some (default now completed_at) else completed_at)
    peer_id p (default (g_interval g) interval) ud dd reset restricted.

Lemma announce_row_fields h peer_id ip port ev left now p interval up down restricted g :
  let r := announce_row h peer_id ip port ev left now p interval up down restricted g in
  r_ip r = ip /\ r_principal r = p /\ r_peer_id r = peer_id.
Proof.
  unfold announce_row. destruct (cycle _ _ _) as [ja ca]. destruct (_counter_delta _ _ _ _ _ _ _ _) as [[[ud dd] reset] gx]. cbn. done.
Qed.

(** The state an announce leaves, other than a stop. *)
Lemma announce_state h peer_id ip port ev left now who interval up down restricted g :
  ev <> Some "stopped" ->
  let p := default _DEFAULT_PRINCIPAL who in
  let k := key_of p peer_id in
  let g1 := set_swarm h (swarm_of g h) g in
  let r := announce_row h peer_id ip port ev left now p interval up down restricted g in
  let g' := snd (announce h peer_id ip port ev left now who interval up down restricted g) in
  let g2 := snd (_counter_delta h p peer_id ev up down now g1) in
  let g3 := if bool_decide (ev = Some "completed") then count_completed h now g2 else g2 in
  g_swarms g' = mset (g_swarms g1) h (mset (swarm_of g1 h) k r) /\
  (forall x, index_of g' x = if decide (h = x) then index_update k (mget (swarm_of g1 h) k) r (index_of g1 h) else index_of g1 x) /\
  g_transfer_counters g' = g_transfer_counters g3 /\ g_downloaded g' = g_downloaded g3.
Proof.
  intros Hev p k g1 r g' g2 g3.
  assert (H3 : g_swarms g3 = g_swarms g1 /\ g_index g3 = g_index g1).
  { assert (H2 : g_swarms g2 = g_swarms g1 /\ g_index g2 = g_index g1).
    { subst g2. destruct (delta_counters h p peer_id ev up down now g1) as [-> | (cu & cd & ->)]; done. }
    subst g3. destruct (bool_decide _); [| done]. destruct (completed_same g2 h now) as (-> & -> & _). done. }
  destruct H3 as [Hs3 Hi3].
  assert (Hint : g_interval g3 = g_interval g).
  { subst g3 g2. assert (H2 : g_interval (snd (_counter_delta h p peer_id ev up down now g1)) = g_interval g).
    { destruct (delta_counters h p peer_id ev up down now g1) as [-> | (cu & cd & ->)]; done. }
    destruct (bool_decide _); [| done]. unfold count_completed. by destruct (mget_or _ _ _). }
  assert (Hr : exists ix_or, g' = set_swarm h (mset (swarm_of ix_or h) k r) ix_or /\
    ix_or = match mget (swarm_of g1 h) k with
      | Some old => if negb (String.eqb (r_ip old) ip) || bool_decide (r_principal old <> p)
          then set_index h (_index_add k r (_index_remove k old (index_of g3 h))) g3 else g3
      | None => set_index h (_index_add k r (index_of g3 h)) g3
      end).
  { eexists. split; [| reflexivity]. subst g' r. unfold announce, announce_row. rewrite bool_decide_false by done. fold p. fold k. fold g1.
    assert (Hsg : mget (swarm_of g h) k = mget (swarm_of g1 h) k) by (subst g1; by rewrite set_get_swarm). rewrite Hsg.
    assert (Hcd : _counter_delta h p peer_id ev up down now g1 = (fst (_counter_delta h p peer_id ev up down now g1), g2)) by (subst g2; by destruct (_counter_delta h p peer_id ev up down now g1)).
    assert (Hcf : fst (_counter_delta h p peer_id ev up down now g1) = fst (_counter_delta h p peer_id ev up down now g)).
    { unfold _counter_delta. change (g_transfer_counters g1) with (g_transfer_counters g).
      destruct (mget (g_transfer_counters g) (counter_key h p)); [| done]. by match goal with |- context [if ?b then (0, 0, up, down) else _] => destruct b end. }
    rewrite Hcd, Hcf. destruct (cycle (mget (swarm_of g1 h) k) left now) as [ja ca].
    destruct (_counter_delta h p peer_id ev up down now g) as [[[ud dd] reset] gx]. cbn [fst snd]. fold g3. by rewrite Hint. }
  assert (Hip : r_ip r = ip /\ r_principal r = p).
  { subst r. pose proof (announce_row_fields h peer_id ip port ev left now p interval up down restricted g) as (? & ? & ?). done. }
  destruct Hip as [Hip Hpr]. destruct Hr as (ix & -> & ->). unfold index_update. rewrite Hip, Hpr.
  assert (Hidx : forall x, index_of g3 x = index_of g1 x) by (intros x; unfold index_of; by rewrite Hi3).
  assert (Hsw : swarm_of g3 h = swarm_of g1 h) by (unfold swarm_of; by rewrite Hs3).
  rewrite <- Hs3, <- Hsw. rewrite <- (Hidx h). destruct (mget (swarm_of g3 h) k) as [old |].
  1: destruct (_ || _).
  all: split; [done |]; split; [| done]; intros x; rewrite <- Hidx; try (apply index_set).
  by destruct (decide (h = x)) as [<- |].
Qed.

Lemma reg_announce h peer_id ip port ev left now who interval up down restricted g :
  reg_ok g -> reg_ok (snd (announce h peer_id ip port ev left now who interval up down restricted g)).
Proof.
  intros Hg. pose proof (reg_open g h Hg) as H1. destruct (decide (ev = Some "stopped")) as [-> | Hev].
  - unfold announce. rewrite bool_decide_true by done. set (g1 := set_swarm h (swarm_of g h) g) in *. set (k := key_of _ _).
    pose proof (reg_remove g1 h k H1) as H2. destruct (_remove_record h k g1) as [removed g2]. cbn [snd] in *. by apply reg_cleanup.
  - destruct (announce_state h peer_id ip port ev left now who interval up down restricted g Hev) as (Hs & Hi & Hc & Hd).
    set (p := default _DEFAULT_PRINCIPAL who) in *. set (g1 := set_swarm h (swarm_of g h) g) in *.
    set (r := announce_row _ _ _ _ _ _ _ _ _ _ _ _ _) in *.
    pose proof (delta_counters h p peer_id ev up down now g1) as Hdc. set (g2 := snd (_counter_delta _ _ _ _ _ _ _ _)) in *.
    assert (Hd2 : g_downloaded g2 = g_downloaded g1) by (destruct Hdc as [-> | (cu & cd & ->)]; done).
    assert (Hd3 : reg_ok (set_downloaded (g_downloaded (if bool_decide (ev = Some "completed") then count_completed h now g2 else g2)) g1)).
    { destruct (bool_decide _); [| rewrite Hd2; by apply reg_downloaded; [| apply H1 | apply H1]].
      replace (g_downloaded (count_completed h now g2)) with (g_downloaded (count_completed h now g1)).
      - apply reg_downloaded; [done | |]; apply reg_completed, H1.
      - unfold count_completed. rewrite Hd2. by destruct (mget_or _ _ _). }
    apply (reg_write g1 _ h (key_of p peer_id) r); [done | | done | done | | |].
    + destruct (announce_row_fields h peer_id ip port ev left now p interval up down restricted g) as (_ & Hp & Hid). fold r in Hp, Hid. by rewrite Hp, Hid.
    + intros x ty id c. rewrite Hc. assert (Hc3 : g_transfer_counters (if bool_decide (ev = Some "completed") then count_completed h now g2 else g2) = g_transfer_counters g2).
      { destruct (bool_decide _); [| done]. apply completed_same. }
      rewrite Hc3. destruct Hdc as [-> | (cu & cd & ->)]; [by right |]. cbn [g_transfer_counters set_counters]. rewrite mget_mset. unfold counter_key.
      destruct (decide _) as [Hx |]; [| by right]. intros [= <-]. left. injection Hx as <- <- <-. done.
    + rewrite Hd. apply Hd3.
    + rewrite Hd. apply Hd3.
Qed.

(** ** Pruning *)

Definition stale_event (h : string) (now : Z) (r : row) : event :=
  _emit "stale" h (r_peer_id r) (r_ip r) (r_port r) (r_left r) now (r_principal r).
Definition fresh_rows (now : Z) (s : swarm) : swarm := filter (fun kr => stale now (snd kr) = false) s.
Definition stale_rows (now : Z) (s : swarm) : swarm := filter (fun kr => stale now (snd kr) = true) s.

(** What a state looks like once some keys of one torrent are gone. *)
Definition without (ks : list pkey) (s : swarm) : swarm := filter (fun kr => fst kr ∉ ks) s.

Lemma without_cons k ks s : without ks (mpop s k) = without (k :: ks) s.
Proof. unfold without, mpop. rewrite list_filter_filter. apply list_filter_iff. intros [x r]. cbn. rewrite not_elem_of_cons. tauto. Qed.

Lemma prune_fold h now ks g events :
  NoDup ks -> (forall k, k ∈ ks -> is_Some (mget (swarm_of g h) k)) ->
  let '(events', g') := foldl (fun acc k =>
    let '(events, g) := acc in
    match _remove_record h k g with
    | (Some r, g) => (events ++ [stale_event h now r], g)
    | (None, g) => (events, g)
    end) (events, g) ks in
  events' = events ++ map (stale_event h now) (omap (mget (swarm_of g h)) ks) /\
  swarm_of g' h = without ks (swarm_of g h) /\ (forall x, h <> x -> swarm_of g' x = swarm_of g x) /\
  g_downloaded g' = g_downloaded g /\ mkeys (g_swarms g') = mkeys (g_swarms g) /\ (reg_ok g -> reg_ok g').
Proof.
  revert g events. induction ks as [| k ks IH]; intros g events Hn Hin; cbn [foldl].
  - rewrite app_nil_r. split; [done |]. split; [| done]. unfold without. symmetry. apply filter_all, Forall_forall. intros kr _. apply not_elem_of_nil.
  - apply NoDup_cons in Hn as [Hk Hn]. destruct (Hin k) as [r Hr]; [by left |].
    destruct (remove_record_state g h k) as (H1 & H2 & H3 & H4 & H5). pose proof (reg_remove g h k) as H6. rewrite Hr in H3, H5.
    destruct (_remove_record h k g) as [removed g1]. cbn [fst snd] in *. subst removed.
    assert (Hin1 : forall x, x ∈ ks -> mget (swarm_of g1 h) x = mget (swarm_of g h) x).
    { intros x Hx. rewrite H1. apply mget_mpop_ne. congruence. }
    specialize (IH g1 (events ++ [stale_event h now r]) Hn). destruct (foldl _ _ ks) as [events' g'].
    destruct IH as (E1 & E2 & E3 & E4 & E5 & E6); [intros x Hx; rewrite Hin1 by done; apply Hin; by right |].
    split; [| split; [| split; [| split; [| split]]]].
    + rewrite E1, <- app_assoc. cbn [omap list_omap]. rewrite Hr. cbn [map app]. do 3 f_equal.
      clear -Hin1. induction ks as [| x ks IH]; [done |]. cbn. rewrite Hin1 by (by left). rewrite IH; [done |]. intros y Hy. apply Hin1. by right.
    + rewrite E2, H1. apply without_cons.
    + intros x Hx. by rewrite E3, H2.
    + congruence.
    + rewrite E5, H5, mkeys_mset. rewrite decide_True; [done |]. apply mkeys_elem. unfold swarm_of, mget_or in Hr. destruct (mget (g_swarms g) h); [by eexists | done].
    + tauto.
Qed.

Lemma filter_agree {A} (P Q : A -> Prop) `{forall x, Decision (P x), forall x, Decision (Q x)} (l : list A) :
  Forall (fun x => P x <-> Q x) l -> filter P l = filter Q l.
Proof.
  induction 1 as [| x l Hx _ IH]; [done |]. rewrite !filter_cons, IH. destruct (decide (P x)), (decide (Q x)); tauto.
Qed.

Lemma stale_without now s : NoDup (mkeys s) -> without (mkeys (stale_rows now s)) s = fresh_rows now s.
Proof.
  intros Hn. unfold without, fresh_rows, stale_rows, mkeys. apply filter_agree. apply Forall_forall. intros [k r] Hkr. cbn.
  rewrite list_elem_of_fmap. split.
  - intros H. apply not_true_is_false. intros Hs. apply H. exists (k, r). split; [done |]. by apply list_elem_of_filter.
  - intros Hf ([k' r'] & Hk & [Hs Hin]%list_elem_of_filter). cbn in *. subst k'. apply (mget_Some _ _ _ Hn) in Hkr, Hin. congruence.
Qed.

Lemma stale_lookup now s : NoDup (mkeys s) -> omap (mget s) (mkeys (stale_rows now s)) = map snd (stale_rows now s).
Proof.
  intros Hn. assert (H : forall k r, (k, r) ∈ stale_rows now s -> mget s k = Some r).
  { intros k r [_ Hin]%list_elem_of_filter. by apply mget_Some. }
  induction (stale_rows now s) as [| [k r] l IH]; [done |]. cbn. rewrite (H k r) by (by left). f_equal. apply IH. intros x y Hxy. apply H. by right.
Qed.

Lemma swarm_prune_state h now g :
  NoDup (mkeys (swarm_of g h)) ->
  let '(events, g') := _prune h now g in
  events = map (stale_event h now) (map snd (stale_rows now (swarm_of g h))) /\
  swarm_of g' h = fresh_rows now (swarm_of g h) /\ (forall x, h <> x -> swarm_of g' x = swarm_of g x) /\
  g_downloaded g' = g_downloaded g /\ mkeys (g_swarms g') = mkeys (g_swarms g) /\ (reg_ok g -> reg_ok g').
Proof.
  intros Hn. unfold _prune. pose proof (prune_fold h now (mkeys (stale_rows now (swarm_of g h))) g []) as H.
  change (map fst (filter _ (swarm_of g h))) with (mkeys (stale_rows now (swarm_of g h))). unfold stale_event in *.
  destruct (foldl _ _ _) as [events g']. rewrite stale_lookup, stale_without in H by done. apply H.
  - unfold stale_rows, mkeys in *. clear H. induction (swarm_of g h) as [| [k r] s IH]; [constructor |]. cbn in Hn. apply NoDup_cons in Hn as [Hk Hn].
    rewrite filter_cons. destruct (decide _); [| by apply IH]. cbn. constructor; [| by apply IH]. intros ([k' r'] & -> & Hin)%list_elem_of_fmap.
    apply list_elem_of_filter in Hin as [_ Hin]. apply Hk, list_elem_of_fmap. by exists (k', r').
  - intros k ([k' r'] & -> & Hin)%list_elem_of_fmap. apply list_elem_of_filter in Hin as [_ Hin]. exists r'. by apply mget_Some.
Qed.

Definition sweep_events (now : Z) (g : registry) (hs : list string) : list event :=
  flat_map (fun h => map (stale_event h now) (map snd (stale_rows now (swarm_of g h)))) hs.

Lemma sweep_fold now hs g events :
  reg_ok g -> NoDup hs ->
  let '(events', g') := foldl (fun acc h =>
      let '(events, g) := acc in
      let '(more, g) := _prune h now g in
      (events ++ more, _cleanup_empty h (swarm_of g h) now g)) (events, g) hs in
  events' = events ++ sweep_events now g hs /\ reg_ok g' /\
  forall x, swarm_of g' x = if decide (x ∈ hs) then fresh_rows now (swarm_of g x) else swarm_of g x.
Proof.
  revert g events. induction hs as [| h hs IH]; intros g events Hg Hn; cbn [foldl].
  - split; [by rewrite app_nil_r |]. split; [done |]. intros x. by rewrite decide_False by apply not_elem_of_nil.
  - apply NoDup_cons in Hn as [Hh Hn]. pose proof (swarm_prune_state h now g (so_nodup _ _ (ro_swarm _ Hg h))) as Hp.
    destruct (_prune h now g) as [more g1]. destruct Hp as (E1 & E2 & E3 & _ & _ & E6). specialize (E6 Hg).
    set (g2 := _cleanup_empty h (swarm_of g1 h) now g1). assert (Hg2 : reg_ok g2) by by apply reg_cleanup.
    assert (Hs2 : forall x, swarm_of g2 x = swarm_of g1 x) by (intros x; by apply cleanup_swarm).
    specialize (IH g2 (events ++ more) Hg2 Hn). destruct (foldl _ _ hs) as [events' g']. destruct IH as (F1 & F2 & F3).
    split; [| split; [done |]].
    + rewrite F1, <- app_assoc, E1. cbn [sweep_events flat_map]. do 2 f_equal. unfold sweep_events. rewrite !flat_map_concat_map. f_equal.
      apply map_ext_in. intros x Hx. rewrite Hs2, E3; [done |]. intros ->. apply Hh. by apply list_elem_of_In.
    + intros x. rewrite F3, Hs2. destruct (decide (h = x)) as [<- | Hx].
      * rewrite decide_False by done. rewrite decide_True by (by left). exact E2.
      * rewrite E3 by done. apply decide_ext. rewrite elem_of_cons. naive_solver.
Qed.

Lemma forget_fold now hs g :
  reg_ok g ->
  let g' := foldl (fun g h => match mget (g_swarms g) h with None => _cleanup_empty h [] now g | Some _ => g end) g hs in
  reg_ok g' /\ forall x, swarm_of g' x = swarm_of g x.
Proof.
  revert g. induction hs as [| h hs IH]; intros g Hg; [done |]. cbn [foldl]. destruct (mget (g_swarms g) h) eqn:E; [by apply IH |].
  assert (Hs : [] = swarm_of g h) by (unfold swarm_of, mget_or; by rewrite E).
  destruct (IH _ (reg_cleanup g h [] now Hg Hs)) as [H1 H2]. split; [exact H1 |]. intros x. etrans; [apply H2 | by apply cleanup_swarm].
Qed.

Definition due (now : Z) (force : bool) (g : registry) : bool :=
  force ||
  match g_last_read_prune g with
  | None => true
  | Some last => (now <? last) || (g_read_prune_interval g =? 0) || (g_read_prune_interval g <=? now - last)
  end.

(** A due read drops the silent rows of every torrent and reports each of them once. *)
Lemma read_prune_state now force g :
  reg_ok g ->
  let '(events, g') := _read_prune_locked now force g in
  reg_ok g' /\
  (forall x, swarm_of g' x = if due now force g then fresh_rows now (swarm_of g x) else swarm_of g x) /\
  events = if due now force g then sweep_events now g (mkeys (g_swarms g)) else [].
Proof.
  intros Hg. unfold _read_prune_locked. fold (due now force g). destruct (due now force g); cbn [negb]; [| done].
  set (g1 := set_last_prune now g). assert (Hg1 : reg_ok g1) by (destruct Hg; by split).
  pose proof (sweep_fold now (mkeys (g_swarms g1)) g1 [] Hg1 (ro_swarms _ Hg1)) as Hs. destruct (foldl _ _ (mkeys (g_swarms g1))) as [events g2].
  destruct Hs as (E1 & E2 & E3). destruct (forget_fold now (mkeys (g_downloaded g2)) g2 E2) as [F1 F2]. split; [exact F1 |].
  split; [| exact E1]. intros x. rewrite F2, E3. destruct (decide (x ∈ mkeys (g_swarms g1))) as [| Hx]; [done |].
  apply mget_None in Hx. change (swarm_of g1 x) with (swarm_of g x). unfold swarm_of, mget_or. change (g_swarms g) with (g_swarms g1). by rewrite Hx.
Qed.

(** ** Selection *)

Definition real_hints (hs : hints) : Prop := forall names c, h_roles hs = Some (names, c) -> real c.

Lemma reg_builds g n : reg_ok g -> reg_ok (set_builds n g).
Proof. intros []. by split. Qed.

Lemma reg_set_role g h ri :
  reg_ok g -> role_ok (mget (swarm_of g h)) ri -> real (ri_compiled ri) -> reg_ok (set_index h (set_role (Some ri) (index_of g h)) g).
Proof.
  intros Hg Hri Hc. apply reg_index; [done |]. destruct (ro_swarm _ Hg h) as [A B C D]. split; [done | done | by apply ix_set_role |].
  by intros ri' [= <-].
Qed.

Lemma role_index_state h c g :
  reg_ok g -> real c ->
  let '(ri, g') := _role_index h c g in
  reg_ok g' /\ (forall x, swarm_of g' x = swarm_of g x) /\ ri_compiled ri = c /\ ix_role (index_of g' h) = Some ri.
Proof.
  intros Hg Hc. unfold _role_index. pose proof (ro_swarm _ Hg h) as [A B C D].
  assert (Hfresh : let ri := build_role_index (ix_order (index_of g h)) (swarm_of g h) c in
    let g' := set_builds (g_role_index_builds g + 1) (set_index h (set_role (Some ri) (index_of g h)) g) in
    reg_ok g' /\ (forall x, swarm_of g' x = swarm_of g x) /\ ri_compiled ri = c /\ ix_role (index_of g' h) = Some ri).
  { intros ri g'. assert (Hcomp : ri_compiled ri = c) by apply build_compiled. split; [| split; [done | split; [done |]]].
    - apply reg_builds, reg_set_role; [done | | by rewrite Hcomp]. destruct (vec_live _ _ _ _ (io_order _ _ C)) as [Hn Hm]. by apply build_ok.
    - subst g'. change (index_of (set_builds ?n ?g) ?h) with (index_of g h). by rewrite index_set, decide_True. }
  destruct (ix_role (index_of g h)) as [ri |] eqn:E; [| exact Hfresh].
  destruct (Z.eqb_spec (c_ref (ri_compiled ri)) (c_ref c)) as [He |]; [| exact Hfresh].
  split; [done |]. split; [done |]. split; [| done]. apply real_eq; [by apply D | done | done].
Qed.

(** The keys that some source lists. *)
Definition offers (sources : list vector) (k : pkey) : Prop := exists v, v ∈ sources /\ Some k ∈ v.

Lemma some_live k v : Some k ∈ v <-> k ∈ live v.
Proof. rewrite live_elem. apply list_elem_of_lookup. Qed.

Lemma offers_app a b k : offers (a ++ b) k <-> offers a k \/ offers b k.
Proof. unfold offers. setoid_rewrite elem_of_app. naive_solver. Qed.
Lemma offers_nil k : offers [] k <-> False.
Proof. split; [| done]. intros (v & Hv & _). by apply elem_of_nil in Hv. Qed.
Lemma offers_nonempty v k : offers (nonempty v) k <-> k ∈ live v.
Proof.
  rewrite <- some_live. destruct v as [| x v].
  - cbn. rewrite offers_nil. split; [done | intros H; by apply elem_of_nil in H].
  - split; [by intros (w & ->%list_elem_of_singleton & Hk) | intros Hk; exists (x :: v); split; [by left | done]].
Qed.

Lemma compact_compiled role ri : ri_compiled (_compact_role role ri) = ri_compiled ri.
Proof. unfold _compact_role. by destruct (keep_tombstones _ _). Qed.
Lemma compact_order_role force ix : ix_role (_compact_order force ix) = ix_role ix.
Proof. unfold _compact_order. by destruct (_ || _). Qed.
Lemma compact_type_role ty ix : ix_role (_compact_type ty ix) = ix_role ix.
Proof. unfold _compact_type. by destruct (keep_tombstones _ _). Qed.

(** The rows of one torrent with one of some values. *)
Definition with_one {B} (g : registry) (h : string) (f : row -> B) (l : list B) (k : pkey) : Prop :=
  exists b, b ∈ l /\ with_attr (mget (swarm_of g h)) f b k.

Lemma with_one_cons {B} g h (f : row -> B) b l k :
  with_one g h f (b :: l) k <-> with_attr (mget (swarm_of g h)) f b k \/ with_one g h f l k.
Proof. unfold with_one. setoid_rewrite elem_of_cons. naive_solver. Qed.
Lemma with_one_nil {B} g h (f : row -> B) k : with_one g h f [] k <-> False.
Proof. split; [| done]. intros (b & Hb & _). by apply elem_of_nil in Hb. Qed.

Lemma role_fold h c roles g sources :
  reg_ok g -> (exists ri, ix_role (index_of g h) = Some ri /\ ri_compiled ri = c) ->
  let '(sources', g') := foldl (fun acc role =>
    let '(sources, g) := acc in
    match ix_role (index_of g h) with
    | None => (sources, g)
    | Some ri =>
        let ri := _compact_role role ri in
        (sources ++ nonempty (mget_or (ri_orders ri) role []), set_index h (set_role (Some ri) (index_of g h)) g)
    end) (sources, g) roles in
  reg_ok g' /\ (forall x, swarm_of g' x = swarm_of g x) /\
  forall k, offers sources' k <-> offers sources k \/ with_one g h (fun r => role_for c (r_principal r)) (map Some roles) k.
Proof.
  revert g sources. induction roles as [| role roles IH]; intros g sources Hg (ri & Hri & Hc); cbn [foldl].
  - split; [done |]. split; [done |]. intros k. cbn. rewrite with_one_nil. tauto.
  - rewrite Hri. set (ri' := _compact_role role ri). destruct (ro_swarm _ Hg h) as [A B C D].
    assert (Hok : role_ok (mget (swarm_of g h)) ri') by (apply role_compact; by eapply io_role).
    assert (Hc' : ri_compiled ri' = c) by (subst ri'; by rewrite compact_compiled).
    assert (Hg1 : reg_ok (set_index h (set_role (Some ri') (index_of g h)) g)).
    { apply reg_set_role; [done | done |]. rewrite Hc', <- Hc. by eapply D. }
    specialize (IH _ (sources ++ nonempty (mget_or (ri_orders ri') role [])) Hg1). destruct (foldl _ _ roles) as [sources' g'].
    destruct IH as (E1 & E2 & E3); [exists ri'; by rewrite index_set, decide_True |]. split; [done |]. split; [done |]. intros k.
    rewrite E3, offers_app, offers_nonempty. cbn [map]. rewrite with_one_cons.
    destruct (vec_live _ _ _ _ (Hok role)) as [_ Hm]. rewrite Hm, Hc'. unfold with_one. change (swarm_of (set_index h _ g) h) with (swarm_of g h). tauto.
Qed.

Lemma type_fold h types g sources :
  reg_ok g ->
  let '(sources', g') := foldl (fun acc ty =>
    let '(sources, g) := acc in
    let ix := _compact_type ty (index_of g h) in
    (sources ++ nonempty (mget_or (ix_type_orders ix) ty []), set_index h ix g)) (sources, g) types in
  reg_ok g' /\ (forall x, swarm_of g' x = swarm_of g x) /\
  forall k, offers sources' k <-> offers sources k \/ with_one g h (fun r => p_type (r_principal r)) types k.
Proof.
  revert g sources. induction types as [| ty types IH]; intros g sources Hg; cbn [foldl].
  - split; [done |]. split; [done |]. intros k. rewrite with_one_nil. tauto.
  - set (ix' := _compact_type ty (index_of g h)). pose proof (ro_swarm _ Hg h) as Hs.
    assert (Hok : ix_ok (mget (swarm_of g h)) ix') by apply ix_compact_type, Hs.
    assert (Hg1 : reg_ok (set_index h ix' g)).
    { apply reg_index; [done |]. eapply swarm_facets; [exact Hs | done | apply compact_type_role]. }
    specialize (IH _ (sources ++ nonempty (mget_or (ix_type_orders ix') ty [])) Hg1). destruct (foldl _ _ types) as [sources' g'].
    destruct IH as (E1 & E2 & E3). split; [done |]. split; [done |]. intros k.
    rewrite E3, offers_app, offers_nonempty, with_one_cons. destruct (vec_live _ _ _ _ (io_type _ _ Hok ty)) as [_ Hm]. rewrite Hm.
    unfold with_one. change (swarm_of (set_index h _ g) h) with (swarm_of g h). tauto.
Qed.

Lemma live_some l : live (map Some l) = l.
Proof. unfold live. induction l as [| x l IH]; [done |]. cbn. by f_equal. Qed.

Lemma key_offers {A} `{EqDecision A} (d : odict A (list pkey)) (look : rows) (f : row -> A) l k :
  set_ok d (with_attr look f) -> offers (key_sources d l) k <-> exists a, a ∈ l /\ with_attr look f a k.
Proof.
  intros Hd. unfold key_sources. induction l as [| a l IH]; cbn [flat_map].
  - rewrite offers_nil. split; [done |]. intros (b & Hb & _). by apply elem_of_nil in Hb.
  - rewrite offers_app, offers_nonempty, IH, live_some. destruct (Hd a) as [_ Hm]. rewrite Hm. setoid_rewrite elem_of_cons. naive_solver.
Qed.

(** What the hints ask for. *)
Definition hinted (g : registry) (h : string) (hs : hints) (k : pkey) : Prop :=
  match hs with
  | Hints None None None None => is_Some (mget (swarm_of g h) k)
  | Hints principals ips roles types =>
      match roles with
      | Some (names, c) => with_one g h (fun r => role_for c (r_principal r)) (map Some names) k
      | None => False
      end \/
      with_one g h (fun r => (p_type (r_principal r), p_id (r_principal r))) (default [] principals) k \/
      with_one g h r_ip (default [] ips) k \/
      with_one g h (fun r => p_type (r_principal r)) (default [] types) k
  end.

Lemma role_sources_state h names c g :
  reg_ok g -> real c ->
  let '(sources, g') := role_sources h names c g in
  reg_ok g' /\ (forall x, swarm_of g' x = swarm_of g x) /\
  forall k, offers sources k <-> with_one g h (fun r => role_for c (r_principal r)) (map Some names) k.
Proof.
  intros Hg Hc. unfold role_sources. pose proof (role_index_state h c g Hg Hc) as Hi. destruct (_role_index h c g) as [ri g1].
  destruct Hi as (H1 & H2 & H3 & H4). pose proof (role_fold h c (sort_by str_leb names) g1 [] H1) as Hf.
  destruct (foldl _ _ _) as [sources g']. destruct Hf as (E1 & E2 & E3); [by exists ri |]. split; [done |].
  split; [intros x; by rewrite E2 |]. intros k. rewrite E3, offers_nil. unfold with_one. rewrite H2.
  assert (Hin : forall b, b ∈ map Some (sort_by str_leb names) <-> b ∈ map Some names).
  { intros b. rewrite !list_elem_of_fmap. by setoid_rewrite sort_by_elem. }
  setoid_rewrite Hin. tauto.
Qed.

(** The sources offer exactly the rows the hints ask for. *)
Lemma sources_state h hs g :
  reg_ok g -> real_hints hs ->
  let '(sources, g') := _candidate_sources h hs g in
  reg_ok g' /\ (forall x, swarm_of g' x = swarm_of g x) /\ forall k, offers sources k <-> hinted g h hs k.
Proof.
  intros Hg Hreal. assert (Hmain : forall principals ips roles types, hs = Hints principals ips roles types ->
    let '(by_role, g1) := match roles with Some (names, compiled) => role_sources h names compiled g | None => ([], g) end in
    let '(by_type, g2) := type_sources h (default [] types) g1 in
    reg_ok g2 /\ (forall x, swarm_of g2 x = swarm_of g x) /\
    forall k, offers (by_role ++ key_sources (ix_principal_keys (index_of g1 h)) (default [] principals) ++
      key_sources (ix_ip_keys (index_of g1 h)) (default [] ips) ++ by_type) k <->
      match roles with Some (names, c) => with_one g h (fun r => role_for c (r_principal r)) (map Some names) k | None => False end \/
      with_one g h (fun r => (p_type (r_principal r), p_id (r_principal r))) (default [] principals) k \/
      with_one g h r_ip (default [] ips) k \/ with_one g h (fun r => p_type (r_principal r)) (default [] types) k).
  { intros principals ips roles types ->. set (role_part := match roles with Some _ => _ | None => _ end).
    assert (Hr : let '(by_role, g1) := role_part in reg_ok g1 /\ (forall x, swarm_of g1 x = swarm_of g x) /\ forall k, offers by_role k <->
      match roles with Some (names, c) => with_one g h (fun r => role_for c (r_principal r)) (map Some names) k | None => False end).
    { subst role_part. destruct roles as [[names c] |]; [apply role_sources_state; [done | by eapply Hreal] |]. split; [done |]. split; [done |]. apply offers_nil. }
    destruct role_part as [by_role g1]. destruct Hr as (H1 & H2 & H3). unfold type_sources. pose proof (type_fold h (default [] types) g1 [] H1) as Ht.
    destruct (foldl _ _ _) as [by_type g2]. destruct Ht as (E1 & E2 & E3). split; [done |]. split; [intros x; by rewrite E2 |]. intros k.
    rewrite !offers_app, H3, E3, offers_nil. pose proof (so_index _ _ (ro_swarm _ H1 h)) as Hix.
    rewrite (key_offers _ _ _ _ _ (io_principal _ _ Hix)), (key_offers _ _ _ _ _ (io_ip _ _ Hix)). unfold with_one. rewrite H2. tauto. }
  destruct hs as [principals ips roles types]. specialize (Hmain _ _ _ _ eq_refl). cbn [hinted]. unfold _candidate_sources.
  destruct principals as [ps |]; [| destruct ips as [addrs |]; [| destruct roles as [[names c] |]; [| destruct types as [ts |]]]].
  5:{ clear Hmain. set (ix := _compact_order false (index_of g h)). pose proof (ro_swarm _ Hg h) as Hs.
      assert (Hok : ix_ok (mget (swarm_of g h)) ix) by apply ix_compact_order, Hs.
      split; [apply reg_index; [done |]; eapply swarm_facets; [exact Hs | done | apply compact_order_role] |]. split; [done |].
      intros k. rewrite offers_nonempty, index_set, decide_True by done. apply (vec_live _ _ _ _ (io_order _ _ Hok)). }
  all: first [destruct roles as [[names c] |] | idtac].
  all: try (destruct (role_sources _ _ _ _) as [by_role g1]).
  all: destruct (type_sources _ _ _) as [by_type g2]; exact Hmain.
Qed.

Lemma reg_select randbelow h peer_id who ip predicate numwant hs bare g :
  reg_ok g -> real_hints hs ->
  let g' := snd (_select_locked randbelow h peer_id who ip predicate numwant hs bare g) in reg_ok g' /\ forall x, swarm_of g' x = swarm_of g x.
Proof.
  intros Hg Hh. unfold _select_locked. destruct (_ =? 0); [done |]. pose proof (sources_state h hs g Hg Hh) as Hs.
  destruct (_candidate_sources h hs g) as [sources g1]. destruct Hs as (H1 & H2 & _). by destruct sources.
Qed.

(** ** Every run *)

(** The public operations, one at a time under the lock. *)
Inductive reg_step : registry -> registry -> Prop :=
  | step_announce g h peer_id ip port ev left now who interval up down restricted :
      reg_step g (snd (announce h peer_id ip port ev left now who interval up down restricted g))
  | step_peers g randbelow h peer_id numwant now : reg_step g (snd (peers randbelow h peer_id numwant now g))
  | step_select g randbelow h peer_id who ip predicate numwant now hs :
      real_hints hs -> reg_step g (snd (select_peers randbelow h peer_id who ip predicate numwant now hs g))
  | step_scrape g h now : reg_step g (snd (scrape h now g))
  | step_stats g now : reg_step g (snd (stats now g))
  | step_snapshot g now : reg_step g (snd (registry_snapshot now g))
  | step_prune g now : reg_step g (snd (prune_all now g)).

Lemma reg_read g now force : reg_ok g -> reg_ok (snd (_read_prune_locked now force g)).
Proof. intros Hg. pose proof (read_prune_state now force g Hg) as H. destruct (_read_prune_locked now force g). apply H. Qed.

Lemma reg_step_ok g g' : reg_step g g' -> reg_ok g -> reg_ok g'.
Proof.
  intros H Hg. destruct H; [by apply reg_announce | | | | | | by apply reg_read].
  all: pose proof (reg_read g now false Hg) as Hr.
  all: unfold peers, select_peers, scrape, stats, registry_snapshot.
  all: destruct (_read_prune_locked now false g) as [events g1]; cbn [snd] in *; try exact Hr.
  - pose proof (reg_select randbelow h peer_id None None None numwant no_hints true g1 Hr) as [H1 _]; [done |].
    revert H1. destruct (_select_locked _ _ _ _ _ _ _ _ _ g1) as [out g2]. exact id.
  - pose proof (reg_select randbelow h peer_id who ip predicate numwant hs false g1 Hr H) as [H1 _].
    revert H1. destruct (_select_locked _ _ _ _ _ _ _ _ _ g1) as [out g2]. exact id.
Qed.

(** C19: whatever sequence of announces, selections, scrapes, statistics and prunes is run
    on a new registry, the indexes of every torrent describe exactly its rows, every
    transfer baseline belongs to a listed peer, and at most 10000 completion counts are
    kept. *)
Theorem registry_coherent interval read_interval g :
  rtc reg_step (new_registry interval read_interval) g -> reg_ok g.
Proof.
  intros H. pose proof (reg_new interval read_interval) as Hn. induction H as [g | g g1 g2 Hs _ IH]; [done |].
  apply IH. by eapply reg_step_ok.
Qed.
End coherent.

(** A forced prune keeps, in every torrent, exactly the rows seen within twice their
    announce interval, and reports one stale event for each row it drops. *)
Theorem prune_all_exact heap now g :
  reg_ok heap g ->
  fst (prune_all now g) = sweep_events now g (mkeys (g_swarms g)) /\
  forall h k r, mget (swarm_of (snd (prune_all now g)) h) k = Some r <->
    mget (swarm_of g h) k = Some r /\ now - 2 * r_interval r <= r_last_seen r.
Proof.
  intros Hg. unfold prune_all. pose proof (read_prune_state heap now true g Hg) as H. destruct (_read_prune_locked now true g) as [events g'].
  destruct H as (H1 & H2 & H3). cbn [due orb] in H2, H3. split; [exact H3 |]. intros h k r. cbn [snd].
  pose proof (so_nodup _ _ _ (ro_swarm _ _ H1 h)) as Hn'. pose proof (so_nodup _ _ _ (ro_swarm _ _ Hg h)) as Hn.
  rewrite !mget_Some by done. rewrite H2. unfold fresh_rows. rewrite list_elem_of_filter. unfold stale. cbn. rewrite Z.ltb_ge. tauto.
Qed.

(** A run: two devices announce, one is selected by its role, a later prune drops both. *)
Definition sample_roles : CompiledRoles := 
  {| acl_by_role := []; role_of := dset (dset [] "a" (VStr "edge")) "b" (VStr "edge"); restricted := []; sorted_rules := []; members_by_role := [] |}.
Definition sample_heap : Z -> CompiledRoles := fun _ => sample_roles.
Definition sample_join (id ip : string) (g : registry) : registry :=
  snd (announce "h" ("p" +:+ id) ip 6881 (Some "started") (Some 5) 100 (Some (Principal "device" id)) None (Some 0) (Some 0) false g).
Definition sample_registry : registry :=
  snd (select_peers (fun _ => 0) "h" "pa" (Some (Principal "device" "a")) (Some "10.0.0.1") None 50 101
    (Hints None None (Some (["edge"], CompiledRef 0 sample_roles)) None) (sample_join "b" "10.0.0.2" (sample_join "a" "10.0.0.1" (new_registry 30 30)))).

Lemma registry_coherent_witness : reg_ok sample_heap sample_registry /\ zlen (swarm_of sample_registry "h") = 2.
Proof.
  split; [| by vm_compute]. apply (registry_coherent sample_heap 30 30). unfold sample_registry, sample_join.
  eapply rtc_l; [apply step_announce |]. eapply rtc_l; [apply step_announce |]. eapply rtc_l; [apply step_select | apply rtc_refl].
  intros names c [= <- <-]. done.
Defined.

Lemma sample_joined_ok : reg_ok sample_heap (sample_join "b" "10.0.0.2" (sample_join "a" "10.0.0.1" (new_registry 30 30))).
Proof. apply reg_announce, reg_announce, reg_new. Qed.

Lemma prune_all_exact_witness :
  let g := sample_join "b" "10.0.0.2" (sample_join "a" "10.0.0.1" (new_registry 30 30)) in
  zlen (fst (prune_all 1000 g)) = 2 /\
  forall h k r, mget (swarm_of (snd (prune_all 1000 g)) h) k = Some r <->
    mget (swarm_of g h) k = Some r /\ 1000 - 2 * r_interval r <= r_last_seen r.
Proof. split; [by vm_compute | apply (prune_all_exact sample_heap), sample_joined_ok]. Defined.
