(* ===== verification/RegistrySelect.v ===== *)
(** * Selection over the indexes

    The scan of [select_peers] inspects a bounded number of rows, hands out no row twice
    and none outside the hints, and misses an allowed row only when it has found enough
    peers or used up its budget. *)
From S2P Require Import Prelude PyVal KeyedState PolicyEval Odict PeerRegistry RegistryIndex RegistrySpec.

Definition address (r : row) : string * Z := (r_ip r, r_port r).

(** ** The scan *)

Lemma rotate_elem {A} start (l : list A) x : x ∈ rotate_by start l <-> x ∈ l.
Proof.
  unfold rotate_by. set (n := Z.to_nat _). rewrite <- (take_drop n l) at 3. rewrite !elem_of_app. tauto.
Qed.


Section scan.
Context (s : swarm) (skip : pkey -> row -> bool) (permits : row -> res bool) (inspect_limit limit : Z) (ok : row -> bool).
Hypothesis permits_ok : forall k r, mget s k = Some r -> permits r = Ok (ok r).
Hypothesis limits : 0 <= inspect_limit /\ 0 <= limit.
Variable offered : pkey -> Prop.

(** What the scan hands out of the rows it inspected. *)
Definition picks (inspected : list pkey) : list (pkey * (string * Z)) :=
  omap (fun k => r ← mget s k; if ok r then Some (k, address r) else None) inspected.

Record scan_inv (st : scan) (inspected : list pkey) : Prop := {
  sv_nodup : NoDup inspected;
  sv_count : zlen inspected = sc_inspected st;
  sv_row : forall k, k ∈ inspected -> offered k /\ k ∈ sc_seen st /\ exists r, mget s k = Some r /\ skip k r = false;
  sv_seen : forall k r, k ∈ sc_seen st -> mget s k = Some r -> skip k r = false -> k ∈ inspected;
  sv_out : sc_out st = picks inspected;
  sv_bounds : sc_inspected st <= inspect_limit /\ zlen (sc_out st) <= limit }.

Lemma scan_inv_start : scan_inv (Scan 0 [] []) [].
Proof. split; [apply NoDup_nil_2 | done | intros k H | intros k r H | done | done]; by apply elem_of_nil in H. Qed.

(** A key seen for the first time. *)
Lemma scan_inv_pass st I k :
  scan_inv st I -> (forall r, mget s k = Some r -> skip k r = true) -> scan_inv (Scan (sc_inspected st) (k :: sc_seen st) (sc_out st)) I.
Proof.
  intros [A B C D E F] Hk. split; try done; cbn.
  - intros x Hx. destruct (C x Hx) as (? & ? & ?). split; [done |]. split; [by right | done].
  - intros x r [-> | Hx]%elem_of_cons Hr Hs; [rewrite Hk in Hs by done; done | by eapply D].
Qed.

Lemma picks_snoc I k r : mget s k = Some r -> picks (I ++ [k]) = picks I ++ if ok r then [(k, address r)] else [].
Proof. intros Hr. unfold picks. rewrite omap_app. cbn. rewrite Hr. cbn. by destruct (ok r). Qed.

Lemma scan_inv_inspect st I k r :
  scan_inv st I -> k ∉ sc_seen st -> offered k -> mget s k = Some r -> skip k r = false -> full inspect_limit limit st = false ->
  scan_inv (Scan (sc_inspected st + 1) (k :: sc_seen st) (if ok r then sc_out st ++ [(k, address r)] else sc_out st)) (I ++ [k]).
Proof.
  intros [A B C D E F] Hk Ho Hr Hs Hf. apply orb_false_iff in Hf as [H1%Z.leb_gt H2%Z.leb_gt]. split; cbn [sc_inspected sc_seen sc_out].
  - apply NoDup_app. split; [done |]. split; [| apply NoDup_singleton]. intros x Hx ->%list_elem_of_singleton. by destruct (C k Hx) as (_ & ? & _).
  - unfold zlen in *. rewrite length_app. cbn. lia.
  - intros x [Hx | ->%list_elem_of_singleton]%elem_of_app.
    + destruct (C x Hx) as (? & ? & ?). split; [done |]. split; [by right | done].
    + split; [done |]. split; [by left | by exists r].
  - intros x y [-> | Hx]%elem_of_cons Hy Hsk; apply elem_of_app; [right; by left | left; by eapply D].
  - rewrite (picks_snoc _ _ r) by done. rewrite E. destruct (ok r); [done | by rewrite app_nil_r].
  - split; [lia |]. destruct (ok r); [| lia]. unfold zlen in *. rewrite length_app. cbn. lia.
Qed.

Lemma scan_keys_ok keys st I :
  scan_inv st I -> (forall k, Some k ∈ keys -> offered k) ->
  exists st' I', scan_keys s skip permits inspect_limit limit keys st = Ok st' /\ scan_inv st' I' /\
    (forall k, k ∈ sc_seen st -> k ∈ sc_seen st') /\ (full inspect_limit limit st' = true \/ forall k, Some k ∈ keys -> k ∈ sc_seen st').
Proof.
  revert st I. induction keys as [| key keys IH]; intros st I Hst Hoff; cbn [scan_keys].
  - exists st, I. split_and!; try done. right. intros k H. by apply elem_of_nil in H.
  - destruct (full inspect_limit limit st) eqn:Hf; [exists st, I; split_and!; try done; by left |].
    assert (Hoff' : forall k, Some k ∈ keys -> offered k) by (intros k Hk; apply Hoff; by right).
    destruct key as [k |].
    2:{ destruct (IH st I Hst Hoff') as (st' & I' & E1 & E2 & E3 & E4). exists st', I'. split_and!; try done.
        destruct E4 as [| E4]; [by left |]. right. intros k [? | Hk]%elem_of_cons; [done | by apply E4]. }
    assert (Hnext : forall st1 I1, scan_inv st1 I1 -> (forall x, x ∈ k :: sc_seen st -> x ∈ sc_seen st1) ->
      exists st' I', scan_keys s skip permits inspect_limit limit keys st1 = Ok st' /\ scan_inv st' I' /\ (forall k, k ∈ sc_seen st -> k ∈ sc_seen st') /\
        (full inspect_limit limit st' = true \/ forall x, Some x ∈ Some k :: keys -> x ∈ sc_seen st')).
    { intros st1 I1 H1 Hsub. destruct (IH st1 I1 H1 Hoff') as (st' & I' & E1 & E2 & E3 & E4). exists st', I'. split_and!; try done.
      - intros x Hx. apply E3, Hsub. by right.
      - destruct E4 as [| E4]; [by left |]. right. intros x [[= ->] | Hx]%elem_of_cons; [apply E3, Hsub; by left | by apply E4]. }
    destruct (decide (k ∈ sc_seen st)) as [Hin | Hnin].
    { apply (Hnext st I Hst). by intros x [-> | Hx]%elem_of_cons. }
    cbn [sc_inspected sc_seen sc_out]. destruct (mget s k) as [r |] eqn:Er.
    2:{ eapply Hnext; [by apply scan_inv_pass; [| congruence] | done]. }
    destruct (skip k r) eqn:Es; [eapply Hnext; [apply scan_inv_pass; [done | congruence] | done] |].
    rewrite (permits_ok k r) by done. cbn [mbind res_bind]. eapply Hnext; [apply scan_inv_inspect; try done; apply Hoff; by left | done].
Qed.

Lemma scan_sources_ok start sources st I :
  scan_inv st I -> (forall k, offers sources k -> offered k) ->
  exists st' I', scan_sources s skip permits inspect_limit limit start sources st = Ok st' /\ scan_inv st' I' /\
    (forall k, k ∈ sc_seen st -> k ∈ sc_seen st') /\ (full inspect_limit limit st' = true \/ forall k, offers sources k -> k ∈ sc_seen st').
Proof.
  revert st I. induction sources as [| src sources IH]; intros st I Hst Hoff; cbn [scan_sources].
  - exists st, I. split_and!; try done. right. intros k (v & Hv & _). by apply elem_of_nil in Hv.
  - destruct (scan_keys_ok (rotate_by start src) st I Hst) as (st1 & I1 & E1 & E2 & E3 & E4).
    { intros k Hk. apply Hoff. exists src. split; [by left | by apply rotate_elem in Hk]. }
    rewrite E1. cbn [mbind res_bind]. destruct (full inspect_limit limit st1) eqn:Hf; [exists st1, I1; split_and!; try done; by left |].
    destruct E4 as [| E4]; [congruence |]. destruct (IH st1 I1 E2) as (st' & I' & F1 & F2 & F3 & F4).
    { intros k (v & Hv & Hk). apply Hoff. exists v. split; [by right | done]. }
    exists st', I'. split_and!; try done; [by intros k Hk; apply F3, E3 |]. destruct F4 as [| F4]; [by left |]. right.
    intros k (v & [-> | Hv]%elem_of_cons & Hk); [apply F3, E4; by apply rotate_elem | apply F4; by exists v].
Qed.
End scan.

(** ** The result of a selection *)

Definition wanted (numwant : Z) : Z := Z.min (Z.max 0 numwant) NUMWANT_CAP.
Definition is_self (peer_id : string) (who : option principal) (bare : bool) (k : pkey) (r : row) : bool :=
  if bare then String.eqb (r_peer_id r) peer_id else bool_decide (k = key_of (default _DEFAULT_PRINCIPAL who) peer_id).

(** The rows a selection may look at. *)
Definition eligible (g : registry) (h peer_id : string) (who : option principal) (bare : bool) (hs : hints) (k : pkey) : Prop :=
  hinted g h hs k /\ exists r, mget (swarm_of g h) k = Some r /\ is_self peer_id who bare k r = false.

Lemma hinted_row g h hs k : hinted g h hs k -> is_Some (mget (swarm_of g h) k).
Proof.
  assert (H : forall B (f : row -> B) l, with_one g h f l k -> is_Some (mget (swarm_of g h) k)).
  { intros B f l (b & _ & r & Hr & _). rewrite Hr. by eexists. }
  destruct hs as [[ps |] [ips |] [[names c] |] [ts |]]; cbn; try done; intros [Hx | [Hx | [Hx | Hx]]]; try done; by eapply H.
Qed.

(** Rows inspected, what is handed out of them, and why the scan stopped. *)
Record selection (g : registry) (h peer_id : string) (who : option principal) (bare : bool) (hs : hints) (numwant : Z) (ok : row -> bool)
    (out : list (string * Z)) (inspected : list pkey) : Prop := {
  se_nodup : NoDup inspected;
  se_eligible : forall k, k ∈ inspected -> eligible g h peer_id who bare hs k;
  se_out : out = map snd (picks (swarm_of g h) ok inspected);
  se_bounds : zlen out <= wanted numwant /\ zlen inspected <= 4 * wanted numwant;
  se_complete : zlen out = wanted numwant \/ zlen inspected = 4 * wanted numwant \/
    forall k, eligible g h peer_id who bare hs k -> k ∈ inspected }.

Lemma nodup_full (l keys : list pkey) : NoDup l -> (forall k, k ∈ l -> k ∈ keys) -> zlen keys <= zlen l -> forall k, k ∈ keys -> k ∈ l.
Proof.
  intros Hn Hsub Hl k Hk. unfold zlen in Hl. assert (Hlen : (length keys <= length l)%nat) by lia.
  apply list_elem_of_In, (NoDup_length_incl (l := l) (l' := keys)); [by apply NoDup_ListNoDup | done | | by apply list_elem_of_In].
  intros x Hx. apply list_elem_of_In, Hsub, list_elem_of_In, Hx.
Qed.

Lemma select_ok heap randbelow h peer_id who ip predicate numwant hs bare g ok :
  reg_ok heap g -> real_hints heap hs ->
  (forall k r, mget (swarm_of g h) k = Some r ->
    match predicate with Some f => f who ip (r_principal r) (r_ip r) | None => Ok true end = Ok (ok r)) ->
  exists out inspected, fst (_select_locked randbelow h peer_id who ip predicate numwant hs bare g) = Ok out /\
    selection g h peer_id who bare hs numwant ok out inspected.
Proof.
  intros Hg Hh Hok. unfold _select_locked. fold (wanted numwant). destruct (Z.eqb_spec (wanted numwant) 0) as [Hz | Hz].
  { exists [], []. split; [done |]. split; [constructor | intros k Hk; by apply elem_of_nil in Hk | done | rewrite Hz; done | left; by rewrite Hz]. }
  assert (Hpos : 0 < wanted numwant) by (unfold wanted, NUMWANT_CAP in *; lia).
  pose proof (sources_state heap h hs g Hg Hh) as Hs. destruct (_candidate_sources h hs g) as [sources g1]. destruct Hs as (H1 & H2 & H3).
  destruct sources as [| src sources'] eqn:Esrc.
  { exists [], []. split; [done |]. split; [constructor | intros k Hk; by apply elem_of_nil in Hk | done | change (zlen (@nil (string * Z))) with 0; change (zlen (@nil pkey)) with 0; lia |]. right. right.
    intros k [Hk _]. apply H3, offers_nil in Hk. done. }
  rewrite <- Esrc in *. clear Esrc src sources'. cbn [fst].
  set (start := randbelow _). set (skip := fun k r => _). set (s := swarm_of g h) in *.
  set (permits := fun r : row => match predicate with Some f => f who ip (r_principal r) (r_ip r) | None => Ok true end).
  set (il := Z.min (4 * wanted numwant) (zlen s)). assert (Hlim : 0 <= il /\ 0 <= wanted numwant) by (subst il; unfold zlen; lia).
  destruct (scan_sources_ok s skip permits il (wanted numwant) ok Hok (hinted g h hs) start (rotate_by start sources) (Scan 0 [] []) []) as
    (st & I & E1 & E2 & _ & E4).
  { by apply scan_inv_start. }
  { intros k (v & Hv & Hk). apply H3. exists v. split; [by apply rotate_elem in Hv | done]. }
  exists (map snd (sc_out st)), I. split.
  { change (mbind (M:=res) (fun st => Ok (map snd (sc_out st))) (scan_sources s skip permits il (wanted numwant) start (rotate_by start sources)
      (Scan 0 [] [])) = Ok (map snd (sc_out st))). by rewrite E1. }
  destruct E2 as [A B C D E F].
  split; [done | | by rewrite E | |].
  - intros k Hk. destruct (C k Hk) as (Ho & _ & Hr). split; [done | exact Hr].
  - split; [unfold zlen in *; rewrite length_map; lia | subst il; lia].
  - destruct E4 as [Hf | Hall].
    + apply orb_true_iff in Hf as [Hf%Z.leb_le | Hf%Z.leb_le]; [right | left; unfold zlen in *; rewrite length_map; lia].
      destruct (Z.le_gt_cases (4 * wanted numwant) (zlen s)); [left; subst il; lia |]. right. intros k [_ (r & Hr & _)].
      apply (nodup_full I (mkeys s)); [done | | | by eapply mget_key].
      * intros x Hx. destruct (C x Hx) as (_ & _ & y & Hy & _). by eapply mget_key.
      * subst il. unfold zlen, mkeys in *. rewrite length_map. lia.
    + right. right. intros k [Hk (r & Hr & Hself)]. eapply D; [| exact Hr | exact Hself]. apply Hall. apply H3 in Hk as (v & Hv & Hk).
      exists v. split; [by apply rotate_elem | done].
Qed.

(** A selection prunes, then inspects at most four times the wanted number of rows,
    each of them hinted, listed once and not the requester's own; it returns the
    addresses of the allowed ones, at most 200, and leaves an allowed row out only when
    it has enough peers or has used up its budget. *)
Theorem select_peers_exact heap randbelow h peer_id who ip predicate numwant now hs g ok :
  reg_ok heap g -> real_hints heap hs ->
  let pruned := snd (_read_prune_locked now false g) in
  (forall k r, mget (swarm_of pruned h) k = Some r ->
    match predicate with Some f => f who ip (r_principal r) (r_ip r) | None => Ok true end = Ok (ok r)) ->
  exists out inspected, fst (fst (select_peers randbelow h peer_id who ip predicate numwant now hs g)) = Ok out /\
    selection pruned h peer_id who false hs numwant ok out inspected.
Proof.
  intros Hg Hh pruned Hok. pose proof (reg_read heap g now false Hg) as Hr. fold pruned in Hr.
  destruct (select_ok heap randbelow h peer_id who ip predicate numwant hs false pruned ok Hr Hh Hok) as (out & I & E & H).
  exists out, I. split; [| done]. subst pruned. unfold select_peers. destruct (_read_prune_locked now false g) as [events g1]. cbn [snd] in E.
  destruct (_select_locked _ _ _ _ _ _ _ _ _ g1) as [res g2]. exact E.
Qed.

Lemma select_peers_exact_witness :
  let g := sample_join "b" "10.0.0.2" (sample_join "a" "10.0.0.1" (new_registry 30 30)) in
  let hs := Hints None None (Some (["edge"], CompiledRef 0 sample_roles)) None in
  fst (fst (select_peers (fun _ => 0) "h" "pa" (Some (Principal "device" "a")) (Some "10.0.0.1") None 50 101 hs g)) = Ok [("10.0.0.2", 6881)] /\
  exists out inspected, fst (fst (select_peers (fun _ => 0) "h" "pa" (Some (Principal "device" "a")) (Some "10.0.0.1") None 50 101 hs g)) = Ok out /\
    selection (snd (_read_prune_locked 101 false g)) "h" "pa" (Some (Principal "device" "a")) false hs 50 (fun _ => true) out inspected.
Proof.
  split; [by vm_compute |]. apply (select_peers_exact sample_heap); [apply sample_joined_ok | by intros names c [= <- <-] | done].
Defined.
