(* ===== verification/PeerEndpoints.v ===== *)
(** * [server/peer_endpoints.py]: where each principal was last seen

    The durable map from attributable principals to their latest announce endpoints, kept
    as rows of a keyed store, and the bounded queue of endpoints whose write failed.

    A time is the float the caller passes.  Rows are validated whenever a shard is read,
    so the operations find the fields they use. *)
From S2P Require Import Prelude PyVal JsonDump Ipv4 PolicyEval KeyedState WaveGate Odict PeerRegistry.

Definition ENDPOINT_CAP : nat := 4.
Definition ENDPOINT_TTL : Z := 900.
Definition SUPPORTED_DEVICES : Z := 10000.
Definition SERVICE_PRINCIPAL_HEADROOM : Z := 256.
Definition MAX_PRINCIPALS : Z := SUPPORTED_DEVICES + SERVICE_PRINCIPAL_HEADROOM.
Definition _SCHEMA : Z := 1.

(** [raw] is the value of [IRIS_ENDPOINT_TTL] as an int, when it has one. *)
Definition endpoint_ttl (raw : option Z) : Z :=
  match raw with Some value => if 1 <=? value then value else ENDPOINT_TTL | None => ENDPOINT_TTL end.

Definition principal_key (p : principal) : string := p_type p +:+ ":" +:+ p_id p.
Definition _attributable (p : principal) : bool := String.eqb (p_type p) "device" || String.eqb (p_type p) "service".

(** ** Rows *)

(** [ipaddress.IPv4Address(v)] accepts an address string or an integer. *)
Definition address_value (v : pyval) : bool :=
  match v with
  | VStr s => match parse_ipv4 s with Some _ => true | None => false end
  | VInt z => (0 <=? z) && (z <? 2 ^ 32)
  | VBool _ => true
  | _ => false
  end.

(** [math.isfinite(v)]; an int too large for a float raises. *)
Definition isfinite (v : pyval) : res bool :=
  match v with
  | VInt z => if Z.abs z <? 2 ^ 1024 - 2 ^ 970 then Ok true else Err OverflowError
  | VFloat (FFin _ _) => Ok true
  | _ => Ok false
  end.

Definition is_number (v : pyval) : bool := match v with VInt _ | VFloat _ => true | _ => false end.

Definition validate_endpoint (ep : pyval) : res unit :=
  match ep with
  | VDict d =>
      raise (ValueError "bad endpoint ipv4") when negb (address_value (dget_or d "ipv4" VNone));;;
      raise (ValueError "bad endpoint port") when
        negb (match dget_or d "port" VNone with VInt port => (1 <=? port) && (port <=? 65535) | _ => false end);;;
      let observed := dget_or d "observed_at" VNone in
      raise (ValueError "bad endpoint observed_at") when negb (is_number observed);;;
      let* finite := isfinite observed in
      raise (ValueError "bad endpoint observed_at") when negb finite;;;
      Ok tt
  | _ => Err (ValueError "bad endpoint")
  end.

Definition _validate_entry (key : string) (entry : pyval) : res unit :=
  match entry with
  | VDict d =>
      match dget_or d "endpoints" VNone with
      | VList eps =>
          raise (ValueError "bad principal identity") when
            negb (is_str (dget_or d "principal_type" VNone)) || negb (is_str (dget_or d "principal_id" VNone));;;
          res_iter validate_endpoint eps
      | _ => Err (ValueError "bad endpoints")
      end
  | _ => Err (ValueError "bad principal")
  end.

Definition _legacy_principals (doc : dict) : res pyval :=
  raise (EndpointStoreError "endpoint store is corrupt") when negb (py_eq (dget_or doc "schema" VNone) (VInt _SCHEMA));;;
  match dget_or doc "principals" VNone with
  | VDict principals => Ok (VDict principals)
  | _ => Err (EndpointStoreError "endpoint store is corrupt")
  end.

Definition field (v : pyval) (k : string) : pyval := match v with VDict d => dget_or d k VNone | _ => VNone end.
Definition endpoints_of (entry : pyval) : list pyval := default [] (as_list (field entry "endpoints")).
Definition text_of (v : pyval) : string := default "" (as_str v).

Definition _endpoint (ipv4 : string) (port : Z) (now : pyfloat) : pyval :=
  VDict [("ipv4", VStr ipv4); ("port", VInt port); ("observed_at", VFloat now); ("source", VStr "announce")].

(** ** The store *)

Section store.
Context (guard_ok : bool).

Definition ep_update {W} := @update EndpointStoreError _validate_entry _legacy_principals SHARD_COUNT guard_ok W.
Definition ep_delete := delete_key EndpointStoreError _validate_entry _legacy_principals SHARD_COUNT guard_ok.
Definition ep_snapshot := snapshot EndpointStoreError _validate_entry _legacy_principals SHARD_COUNT guard_ok.
Definition ep_sweep {W} := @sweep EndpointStoreError _validate_entry _legacy_principals SHARD_COUNT guard_ok W.

(** The row after an announce: newest first, one endpoint per address, at most four. *)
Definition touch (p : principal) (ipv4 : string) (port : Z) (now : pyfloat) (entry : option pyval) : pyval :=
  let d :=
    match entry with
    | Some (VDict d) => d
    | _ => [("principal_type", VStr (p_type p)); ("principal_id", VStr (p_id p)); ("updated_at", VFloat now); ("endpoints", VList [])]
    end in
  let eps := filter (fun e => py_eq (field e "ipv4") (VStr ipv4) = false) (endpoints_of (VDict d)) in
  let eps := _endpoint ipv4 port now :: eps in
  VDict (dset (dset d "endpoints" (VList (take ENDPOINT_CAP eps))) "updated_at" (VFloat now)).

Definition record_endpoint (p : principal) (ipv4 : string) (port : Z) (now : pyfloat) : sm kstate bool := fun s =>
  if negb (_attributable p) then (Ok false, s)
  else
    match ep_update (principal_key p) (fun entry => sret (UPut (touch p ipv4 port now entry))) (s, tt) with
    | (Ok _, (s, _)) => (Ok true, s)
    | (Err e, (s, _)) => (Err e, s)
    end.

Definition clear_principal (p : principal) : sm kstate unit :=
  let! _ := ep_delete (principal_key p) in sret tt.

(** ** Freshness *)

(** [a - b] in binary64. *)
Definition fsub (f g : pyfloat) : pyfloat :=
  match f, g with
  | FFin m e, FFin n k => let l := Z.min e k in round64 (m * 2 ^ (e - l) - n * 2 ^ (k - l)) l
  | FNan, _ | _, FNan => FNan
  | FInf a, FInf b => if Bool.eqb a b then FNan else FInf a
  | FInf a, FFin _ _ => FInf a
  | FFin _ _, FInf b => FInf (negb b)
  end.

(** The float of a number. *)
Definition float_of (v : pyval) : pyfloat :=
  match v with VInt z => round64 z 0 | VBool b => FFin (Z.b2z b) 0 | VFloat f => f | _ => FNan end.

(** [keep(principal_type, principal_id, ipv4)] *)
Definition keep_t : Type := string -> string -> pyval -> res bool.

Definition _is_fresh (entry ep : pyval) (now : pyfloat) (ttl : Z) (keep : option keep_t) : bool :=
  let observed := match ep with VDict d => dget_or d "observed_at" (VFloat (FFin 0 0)) | _ => VNone end in
  if num_leb (fsub now (float_of observed)) (FFin ttl 0) then true
  else
    match keep with
    | None => false
    | Some keep =>
        match keep (text_of (field entry "principal_type")) (text_of (field entry "principal_id")) (field ep "ipv4") with
        | Ok b => b
        | Err _ => true
        end
    end.

Definition fresh_of (now : pyfloat) (ttl : Z) (keep : option keep_t) (entry : pyval) : list pyval :=
  filter (fun ep => _is_fresh entry ep now ttl keep = true) (endpoints_of entry).

(** [entry["endpoints"] = fresh] *)
Definition with_endpoints (entry : pyval) (fresh : list pyval) : pyval :=
  match entry with VDict d => VDict (dset d "endpoints" (VList fresh)) | v => v end.

(** The decision for one row of the sweep, and the note it takes of the row's age. *)
Definition visit (now : pyfloat) (ttl : Z) (keep : option keep_t) (key : string) (entry : pyval) : sm (list (string * pyval)) upd := fun ages =>
  match fresh_of now ttl keep entry with
  | [] => (Ok UDelete, ages)
  | fresh =>
      let age := match entry with VDict d => dget_or d "updated_at" (VFloat (FFin 0 0)) | _ => VNone end in
      (Ok (if (length fresh =? length (endpoints_of entry))%nat then UKeep else UPut (with_endpoints entry fresh)), dset ages key age)
  end.

(** Deletes the least recently updated rows above the bound. *)
Definition _enforce_principal_cap (ages : list (string * pyval)) : sm kstate unit :=
  if zlen ages <=? MAX_PRINCIPALS then sret tt
  else
    let! sorted := lift (sort_keyed (map (fun ka => (snd ka, VStr (fst ka))) ages)) in
    siter (fun av => let! _ := ep_delete (text_of (snd av)) in sret tt) (take (Z.to_nat (zlen ages - MAX_PRINCIPALS)) sorted).

Definition endpoints_prune (ttl : Z) (now : pyfloat) (keep : option keep_t) : sm kstate unit := fun s =>
  match ep_sweep (visit now ttl keep) (s, []) with
  | (Err e, (s, _)) => (Err e, s)
  | (Ok _, (s, ages)) => _enforce_principal_cap ages s
  end.

Definition fresh_row (entry : pyval) (fresh : list pyval) : pyval :=
  VDict [("principal_type", field entry "principal_type"); ("principal_id", field entry "principal_id"); ("endpoints", VList fresh)].

Definition fresh_endpoints (ttl : Z) (now : pyfloat) (keep : option keep_t) : sm kstate dict :=
  let! rows := ep_snapshot in
  sret (omap (fun ke =>
    match fresh_of now ttl keep (snd ke) with
    | [] => None
    | fresh => Some (fst ke, fresh_row (snd ke) fresh)
    end) rows).
End store.

(** ** The queue of failed writes *)

(** [q_ref] is the identity of the endpoint dict, so that a retry does not drop an
    endpoint queued in the meantime. *)
Record pending := Pending { q_type : string; q_id : string; q_ipv4 : string; q_port : Z; q_observed : pyfloat; q_ref : Z }.

Record PendingEndpointQueue := Queue { q_cap : Z; q_items : odict string pending; q_next : Z }.

Definition new_queue (cap : option Z) : PendingEndpointQueue := Queue (default MAX_PRINCIPALS cap) [] 0.

(** [while len(items) > cap: del items[next(iter(items))]] *)
Definition evict_oldest (cap : Z) (items : odict string pending) : odict string pending :=
  drop (Z.to_nat (zlen items - Z.max cap 0)) items.

Definition enqueue (p : principal) (ipv4 : string) (port : Z) (now : pyfloat) (q : PendingEndpointQueue) : PendingEndpointQueue :=
  let items := mset (q_items q) (principal_key p) (Pending (p_type p) (p_id p) ipv4 port now (q_next q)) in
  Queue (q_cap q) (evict_oldest (q_cap q) items) (q_next q + 1).

Definition resolve (p : principal) (q : PendingEndpointQueue) : PendingEndpointQueue :=
  Queue (q_cap q) (mpop (q_items q) (principal_key p)) (q_next q).

Definition queue_snapshot (q : PendingEndpointQueue) : dict :=
  map (fun kv => (fst kv, VDict [("principal_type", VStr (q_type (snd kv))); ("principal_id", VStr (q_id (snd kv)));
    ("endpoints", VList [_endpoint (q_ipv4 (snd kv)) (q_port (snd kv)) (q_observed (snd kv))])])) (q_items q).

Definition _drop_key (key : string) (endpoint : option Z) (q : PendingEndpointQueue) : bool * PendingEndpointQueue :=
  match mget (q_items q) key with
  | Some current =>
      if match endpoint with None => true | Some ref => q_ref current =? ref end
      then (true, Queue (q_cap q) (mpop (q_items q) key) (q_next q)) else (false, q)
  | None => (false, q)
  end.

(** The writer is [record_endpoint] unless the caller injects another; between two
    writes other threads may use the queue. *)
Definition retry_one {S} (write : principal -> string -> Z -> pyfloat -> sm S bool) (kp : string * pending)
    (qs : PendingEndpointQueue * S) : res (list string) * (PendingEndpointQueue * S) :=
  let '(q, s) := qs in
  let '(key, e) := kp in
  match write (Principal (q_type e) (q_id e)) (q_ipv4 e) (q_port e) (q_observed e) s with
  | (Ok _, s) => let '(dropped, q) := _drop_key key (Some (q_ref e)) q in (Ok (if dropped then [key] else []), (q, s))
  | (Err (OSError _), s) | (Err (EndpointStoreError _), s) => (Ok [], (q, s))
  | (Err e, s) => (Err e, (q, s))
  end.

Definition retry_pending {S} (write : principal -> string -> Z -> pyfloat -> sm S bool) : sm (PendingEndpointQueue * S) (list string) := fun qs =>
  sfold (fun resolved kp => let! more := retry_one write kp in sret (resolved ++ more)) [] (q_items (fst qs)) qs.
