(* ===== verification/EndpointSpec.v ===== *)
(** * The endpoint map

    [record_endpoint] changes the row of one principal only and keeps it a short list of
    distinct addresses, newest first; pruning drops exactly what the fresh view already
    hides; a queued endpoint leaves the queue only after its write. *)
From S2P Require Import Prelude PyVal JsonDump Ipv4 PolicyEval KeyedState KeyedSpec SchedValid WaveGate Odict PeerRegistry PeerEndpoints.

(** ** Fields of rows *)

Lemma field_sorted v k : wf_val v -> field (sort_keys v) k = sort_keys (field v k).
Proof.
  intros Hw. destruct v; try done. apply wf_dict in Hw as [Hn _]. cbn [field]. unfold dget_or.
  change (sort_keys (VDict d)) with (VDict (dict_or_empty (sort_keys (VDict d)))). cbn [field]. unfold dget_or. rewrite dget_sort_keys by done.
  by destruct (dget d k).
Qed.

Lemma good_field v k : good v -> good (field v k).
Proof. intros H. destruct v; try done. cbn. by apply good_dget_or. Qed.

Lemma endpoints_sorted v : wf_val v -> endpoints_of (sort_keys v) = map sort_keys (endpoints_of v).
Proof. intros H. unfold endpoints_of. rewrite field_sorted by done. by destruct (field v "endpoints"). Qed.

Lemma good_endpoints v : good v -> Forall good (endpoints_of v).
Proof.
  intros H. unfold endpoints_of. pose proof (good_field v "endpoints" H) as Hf. destruct (field v "endpoints"); try constructor.
  by apply good_list in Hf.
Qed.

(** The scalars a check looks at are not touched by the dump. *)
Lemma address_sorted v : address_value (sort_keys v) = address_value v.
Proof. by destruct v. Qed.
Lemma number_sorted v : is_number (sort_keys v) = is_number v.
Proof. by destruct v. Qed.
Lemma isfinite_sorted v : isfinite (sort_keys v) = isfinite v.
Proof. by destruct v. Qed.

Lemma validate_endpoint_fields d :
  validate_endpoint (VDict d) =
    (raise (ValueError "bad endpoint ipv4") when negb (address_value (field (VDict d) "ipv4"));;;
     raise (ValueError "bad endpoint port") when
        negb (match field (VDict d) "port" with VInt port => (1 <=? port) && (port <=? 65535) | _ => false end);;;
     raise (ValueError "bad endpoint observed_at") when negb (is_number (field (VDict d) "observed_at"));;;
     let* finite := isfinite (field (VDict d) "observed_at") in
     raise (ValueError "bad endpoint observed_at") when negb finite;;; Ok tt).
Proof. done. Qed.

Lemma validate_endpoint_sorted ep : wf_val ep -> validate_endpoint (sort_keys ep) = validate_endpoint ep.
Proof.
  intros Hw. destruct ep as [| | | | | | d]; try done.
  change (sort_keys (VDict d)) with (VDict (dict_or_empty (sort_keys (VDict d)))) at 1.
  rewrite !validate_endpoint_fields. change (VDict (dict_or_empty (sort_keys (VDict d)))) with (sort_keys (VDict d)).
  rewrite !field_sorted by done. rewrite address_sorted, number_sorted, isfinite_sorted. by destruct (field (VDict d) "port").
Qed.

Lemma validate_entry_fields k d :
  _validate_entry k (VDict d) =
    match field (VDict d) "endpoints" with
    | VList eps =>
        raise (ValueError "bad principal identity") when negb (is_str (field (VDict d) "principal_type")) || negb (is_str (field (VDict d) "principal_id"));;;
        res_iter validate_endpoint eps
    | _ => Err (ValueError "bad endpoints")
    end.
Proof. done. Qed.

Lemma validate_entry_sorted k v : wf_val v -> _validate_entry k v = Ok tt -> _validate_entry k (sort_keys v) = Ok tt.
Proof.
  intros Hw Hv. destruct v as [| | | | | | d]; try discriminate Hv.
  change (sort_keys (VDict d)) with (VDict (dict_or_empty (sort_keys (VDict d)))). rewrite validate_entry_fields in Hv |- *.
  change (VDict (dict_or_empty (sort_keys (VDict d)))) with (sort_keys (VDict d)). rewrite !field_sorted by done.
  assert (Hs : forall x, is_str (sort_keys x) = is_str x) by (by intros []). rewrite !Hs.
  assert (Hl : wf_val (field (VDict d) "endpoints")) by (cbn; by apply wf_dget_or).
  destruct (field (VDict d) "endpoints") as [| | | | | l |]; try discriminate Hv. cbn [sort_keys]. destruct (_ || _); [discriminate Hv |].
  apply wf_list in Hl. apply res_iter_ok in Hv. apply res_iter_ok, Forall_map. rewrite Forall_forall in Hv, Hl |- *. intros x Hx.
  rewrite validate_endpoint_sorted; [by apply Hv | by apply Hl].
Qed.

Lemma valid_entry_inv k v :
  _validate_entry k v = Ok tt ->
  exists d, v = VDict d /\ field v "endpoints" = VList (endpoints_of v) /\ is_str (field v "principal_type") = true /\
    is_str (field v "principal_id") = true /\ Forall (fun ep => validate_endpoint ep = Ok tt) (endpoints_of v).
Proof.
  intros Hv. destruct v as [| | | | | | d]; try discriminate Hv. exists d. split; [done |]. rewrite validate_entry_fields in Hv.
  unfold endpoints_of. destruct (field (VDict d) "endpoints") as [| | | | | l |]; try discriminate Hv. cbn [as_list default from_option id].
  destruct (is_str (field (VDict d) "principal_type")), (is_str (field (VDict d) "principal_id")); try discriminate Hv.
  by apply res_iter_ok in Hv.
Qed.

Lemma valid_entry_intro k d eps :
  dget d "endpoints" = Some (VList eps) -> is_str (field (VDict d) "principal_type") = true -> is_str (field (VDict d) "principal_id") = true ->
  Forall (fun ep => validate_endpoint ep = Ok tt) eps -> _validate_entry k (VDict d) = Ok tt.
Proof.
  intros He Ht Hi HF. rewrite validate_entry_fields. rewrite Ht, Hi. cbn [field]. unfold dget_or. rewrite He. cbn. by apply res_iter_ok.
Qed.

#[local] Abbreviation ep_ok := (store_ok _validate_entry SHARD_COUNT).
#[local] Abbreviation ep_view := (view SHARD_COUNT).
#[local] Abbreviation ep_storable := (storable _validate_entry).

Lemma storable_intro k v : good v -> v <> VNone -> _validate_entry k v = Ok tt -> ep_storable k v.
Proof. intros [Hw Hf] Hn Hv. split; [done |]. split; [done |]. split; [done |]. by apply validate_entry_sorted. Qed.

Lemma storable_valid k v : ep_storable k v -> sort_keys v = v -> good v /\ _validate_entry k v = Ok tt.
Proof. intros (_ & Hw & Hf & Hv) Hc. rewrite Hc in Hv. by split. Qed.

Lemma row_storable_at s k v : ep_ok s -> ep_view s k = Some v -> ep_storable k v /\ sort_keys v = v.
Proof. apply (rs_row_ok (RowStore := keyed_row_store _validate_entry)). Qed.

(** ** Recording an endpoint *)

Definition blank_entry (p : principal) (now : pyfloat) : dict :=
  [("principal_type", VStr (p_type p)); ("principal_id", VStr (p_id p)); ("updated_at", VFloat now); ("endpoints", VList [])].

(** The endpoints of a row before an announce. *)
Definition old_endpoints (entry : option pyval) : list pyval := match entry with Some v => endpoints_of v | None => [] end.

Definition next_endpoints (ipv4 : string) (port : Z) (now : pyfloat) (old : list pyval) : list pyval :=
  take ENDPOINT_CAP (_endpoint ipv4 port now :: filter (fun e => py_eq (field e "ipv4") (VStr ipv4) = false) old).

Lemma touch_shape p ipv4 port now entry :
  (forall v, entry = Some v -> is_dict v = true) ->
  exists d, (entry = Some (VDict d) \/ entry = None /\ d = blank_entry p now) /\
    touch p ipv4 port now entry =
      VDict (dset (dset d "endpoints" (VList (next_endpoints ipv4 port now (old_endpoints entry)))) "updated_at" (VFloat now)).
Proof.
  intros Hd. destruct entry as [v |]; [| exists (blank_entry p now); split; [by right | done]].
  specialize (Hd v eq_refl). destruct v; try discriminate Hd. exists d. split; [by left | done].
Qed.

Lemma endpoints_dset2 d eps v : endpoints_of (VDict (dset (dset d "endpoints" (VList eps)) "updated_at" v)) = eps.
Proof. unfold endpoints_of. cbn [field]. unfold dget_or. by rewrite !dget_dset. Qed.

Lemma touch_endpoints p ipv4 port now entry :
  (forall v, entry = Some v -> is_dict v = true) ->
  endpoints_of (touch p ipv4 port now entry) = next_endpoints ipv4 port now (old_endpoints entry).
Proof. intros Hd. destruct (touch_shape p ipv4 port now entry Hd) as (d & _ & ->). apply endpoints_dset2. Qed.

(** What an announce passes. *)
Record announced (ipv4 : string) (port : Z) (now : pyfloat) : Prop := {
  an_ip : is_Some (parse_ipv4 ipv4);
  an_port : 1 <= port <= 65535;
  an_now : exists m e, now = FFin m e }.

Lemma endpoint_valid ipv4 port now : announced ipv4 port now -> validate_endpoint (_endpoint ipv4 port now) = Ok tt /\ good (_endpoint ipv4 port now).
Proof.
  intros [[ip Hip] Hp (m & e & ->)]. split.
  - unfold _endpoint. rewrite validate_endpoint_fields. cbn. rewrite Hip. cbn.
    destruct (Z.leb_spec 1 port); [| lia]. by destruct (Z.leb_spec port 65535); [| lia].
  - unfold _endpoint. good_tac.
Qed.

Lemma next_endpoints_all (P : pyval -> Prop) ipv4 port now old :
  P (_endpoint ipv4 port now) -> Forall P old -> Forall P (next_endpoints ipv4 port now old).
Proof.
  intros Hn Ho. unfold next_endpoints. apply Forall_take. constructor; [done |]. rewrite Forall_forall in Ho |- *.
  intros x [_ Hx]%list_elem_of_filter. by apply Ho.
Qed.

Lemma touch_storable k p ipv4 port now entry :
  announced ipv4 port now -> (forall v, entry = Some v -> good v /\ _validate_entry k v = Ok tt) ->
  ep_storable k (touch p ipv4 port now entry).
Proof.
  intros Ha He. destruct (endpoint_valid _ _ _ Ha) as [Hv Hg].
  assert (Hd : forall v, entry = Some v -> is_dict v = true).
  { intros v Hev. destruct (He v Hev) as [_ Hval]. by apply valid_entry_inv in Hval as (d & -> & _). }
  assert (Hold : Forall good (old_endpoints entry) /\ Forall (fun ep => validate_endpoint ep = Ok tt) (old_endpoints entry)).
  { destruct entry as [v |]; [| split; constructor]. destruct (He v eq_refl) as [Hgv Hval]. split; [by apply good_endpoints |].
    by apply valid_entry_inv in Hval as (d & _ & _ & _ & _ & HF). }
  destruct Hold as [Hog Hov]. destruct (touch_shape p ipv4 port now entry Hd) as (d & Hentry & ->).
  assert (Hfin : good (VFloat now)) by (destruct (an_now _ _ _ Ha) as (m & e & ->); done).
  assert (Hbase : good (VDict d) /\ is_str (field (VDict d) "principal_type") = true /\ is_str (field (VDict d) "principal_id") = true).
  { destruct Hentry as [-> | [-> ->]].
    - destruct (He _ eq_refl) as [Hgd Hval]. apply valid_entry_inv in Hval as (d' & [= <-] & _ & ? & ? & _). done.
    - split; [| done]. unfold blank_entry. good_tac. }
  destruct Hbase as (Hgd & Ht & Hi). apply storable_intro; [| done |].
  - apply good_dset; [| done]. apply good_dset; [done |]. apply good_list. by apply next_endpoints_all.
  - eapply valid_entry_intro; [by rewrite !dget_dset | | | by apply next_endpoints_all]; cbn [field] in Ht, Hi |- *; unfold dget_or in *; by rewrite !dget_dset.
Qed.

(** An endpoint as readers see it. *)
Definition sighting (ep : pyval) : pyval * pyval * pyval := (field ep "ipv4", field ep "port", field ep "observed_at").

Lemma scalar_sorted v : is_dict v = false -> is_list v = false -> sort_keys v = v.
Proof. by destruct v. Qed.

Lemma valid_sighting ep : validate_endpoint ep = Ok tt -> wf_val ep -> sighting (sort_keys ep) = sighting ep.
Proof.
  intros Hv Hw. destruct ep as [| | | | | | d]; try discriminate Hv. rewrite validate_endpoint_fields in Hv. unfold sighting.
  rewrite !field_sorted by done. destruct (field (VDict d) "ipv4"); try discriminate Hv; cbn [sort_keys];
    destruct (field (VDict d) "port"); try discriminate Hv; cbn [sort_keys]; (destruct (field (VDict d) "observed_at"); try done);
    cbn [is_number negb] in Hv; by repeat (destruct (negb _); [discriminate Hv |]).
Qed.

Lemma record_state guard_ok p ipv4 port now s :
  ep_ok s -> _attributable p = true -> announced ipv4 port now ->
  exists s', record_endpoint guard_ok p ipv4 port now s = (Ok true, s') /\ ep_ok s' /\
    forall k, ep_view s' k = if String.eqb (principal_key p) k then Some (sort_keys (touch p ipv4 port now (ep_view s (principal_key p)))) else ep_view s k.
Proof.
  intros Hok Hp Ha. unfold record_endpoint, ep_update. rewrite Hp. cbn [negb].
  destruct (update_spec EndpointStoreError _validate_entry _legacy_principals SHARD_COUNT guard_ok s tt tt (principal_key p)
    (fun entry => sret (UPut (touch p ipv4 port now entry))) (Ok (UPut (touch p ipv4 port now (ep_view s (principal_key p))))) Hok eq_refl)
    as (s' & -> & Hok' & Hv).
  { intros new [= <-]. apply touch_storable; [done |]. intros v Hvw. destruct (row_storable_at s _ _ Hok Hvw) as [Hs Hc]. by apply storable_valid. }
  exists s'. split; [done |]. split; [done |]. intros k. rewrite Hv. unfold apply_view. by destruct (String.eqb _ k).
Qed.

(** ** Pruning *)

Section prune.
Context (guard_ok : bool) (ttl : Z) (now : pyfloat) (keep : option keep_t).

#[local] Abbreviation fresh := (fresh_of now ttl keep).

Definition prune_row (v : pyval) : upd :=
  match fresh v with
  | [] => UDelete
  | eps => if (length eps =? length (endpoints_of v))%nat then UKeep else UPut (with_endpoints v eps)
  end.

Definition age_of (entry : pyval) : pyval := match entry with VDict d => dget_or d "updated_at" (VFloat (FFin 0 0)) | _ => VNone end.
Definition note_age (ages : list (string * pyval)) (kv : string * pyval) : list (string * pyval) :=
  match fresh (snd kv) with [] => ages | _ => dset ages (fst kv) (age_of (snd kv)) end.

Lemma visit_spec k v ages : visit now ttl keep k v ages = (Ok (prune_row v), note_age ages (k, v)).
Proof. unfold visit, prune_row, note_age. cbn [fst snd]. by destruct (fresh v). Qed.

Lemma fresh_sub v ep : ep ∈ fresh v -> ep ∈ endpoints_of v.
Proof. by intros [_ ?]%list_elem_of_filter. Qed.

Lemma with_endpoints_shape k v eps :
  _validate_entry k v = Ok tt -> exists d, v = VDict d /\ with_endpoints v eps = VDict (dset d "endpoints" (VList eps)).
Proof. intros (d & -> & _)%valid_entry_inv. by exists d. Qed.

Lemma prune_storable k v : ep_storable k v -> sort_keys v = v -> upd_storable _validate_entry k (prune_row v).
Proof.
  intros Hs Hc. destruct (storable_valid _ _ Hs Hc) as [Hg Hv]. unfold prune_row. destruct (fresh v) as [| e l] eqn:Ef; [done |].
  destruct (_ =? _)%nat; [done |]. destruct (valid_entry_inv _ _ Hv) as (d & -> & _ & Ht & Hi & HF). pose proof (good_endpoints _ Hg) as Hge.
  assert (Hsub : forall x, x ∈ e :: l -> x ∈ endpoints_of (VDict d)) by (intros x Hx; apply fresh_sub; by rewrite Ef).
  rewrite Forall_forall in HF, Hge. cbn [upd_storable with_endpoints]. apply storable_intro; [| done |].
  - apply good_dset; [done |]. apply good_list, Forall_forall. intros x Hx. by apply Hge, Hsub.
  - eapply valid_entry_intro; [by rewrite dget_dset | | | apply Forall_forall; intros x Hx; by apply HF, Hsub];
      cbn [field] in *; unfold dget_or in *; by rewrite dget_dset.
Qed.

(** A row after the sweep. *)
Record pruned (v v' : pyval) : Prop := {
  pr_endpoints : endpoints_of v' = fresh v;
  pr_type : field v' "principal_type" = field v "principal_type";
  pr_id : field v' "principal_id" = field v "principal_id";
  pr_age : age_of v' = age_of v }.

Lemma age_sorted d : wf_val (VDict d) -> age_of (sort_keys (VDict d)) = sort_keys (age_of (VDict d)).
Proof.
  intros [Hn _]%wf_dict. change (sort_keys (VDict d)) with (VDict (dict_or_empty (sort_keys (VDict d)))). cbn [age_of]. unfold dget_or.
  rewrite dget_sort_keys by done. by destruct (dget d "updated_at").
Qed.

Lemma str_sorted x : is_str x = true -> sort_keys x = x.
Proof. by destruct x. Qed.

Lemma canonical_endpoints v : wf_val v -> sort_keys v = v -> map sort_keys (endpoints_of v) = endpoints_of v.
Proof. intros Hw Hc. rewrite <- endpoints_sorted by done. by rewrite Hc. Qed.

Lemma map_id_sub {A} (f : A -> A) (l : list A) (k : list A) : map f l = l -> (forall x, x ∈ k -> x ∈ l) -> map f k = k.
Proof.
  intros Hl Hk. assert (Hf : forall x, x ∈ l -> f x = x).
  { clear Hk. induction l as [| y l IH]; intros x Hx; [by apply elem_of_nil in Hx |]. cbn in Hl. injection Hl as H1 H2.
    apply elem_of_cons in Hx as [-> | Hx]; [done | by apply IH]. }
  induction k as [| x k IH]; [done |]. cbn. f_equal; [apply Hf, Hk; by left | apply IH; intros y Hy; apply Hk; by right].
Qed.

Lemma filter_len {A} (P : A -> Prop) `{!forall x, Decision (P x)} (l : list A) : length (filter P l) = length l -> filter P l = l.
Proof.
  intros Hl. apply filter_all, Forall_forall. intros x Hx. destruct (decide (P x)) as [| Hn]; [done |].
  pose proof (length_filter_lt P l x Hx Hn). lia.
Qed.

Lemma swept_row k v : ep_storable k v -> sort_keys v = v ->
  match swept (fun _ => prune_row) k (Some v) with
  | None => fresh v = []
  | Some v' => fresh v <> [] /\ pruned v v'
  end.
Proof.
  intros Hs Hc. destruct (storable_valid _ _ Hs Hc) as [[Hw Hf] Hv]. unfold swept, prune_row. cbn [mbind option_bind].
  destruct (fresh v) as [| e l] eqn:Ef; [done |]. destruct (Nat.eqb_spec (length (e :: l)) (length (endpoints_of v))) as [He | He]; cbn [apply_dec].
  - cbn. split; [done |]. rewrite Hc. split; [| done | done | done]. rewrite <- Ef in He. symmetry. by apply filter_len.
  - cbn. split; [done |]. destruct (with_endpoints_shape k v (e :: l) Hv) as (d & -> & ->).
    destruct (valid_entry_inv _ _ Hv) as (d' & [= <-] & _ & Ht & Hi & HF).
    assert (Hw' : wf_val (VDict (dset d "endpoints" (VList (e :: l))))).
    { apply wf_dset; [done |]. apply wf_list. rewrite <- Ef. apply Forall_forall. intros x Hx%fresh_sub.
      assert (Hwe : Forall wf_val (endpoints_of (VDict d))).
      { eapply Forall_impl; [apply (good_endpoints (VDict d)); by split |]. by intros y [? _]. }
      rewrite Forall_forall in Hwe. by apply Hwe. }
    split.
    + rewrite endpoints_sorted by done. unfold endpoints_of at 1. cbn [field]. unfold dget_or. rewrite dget_dset, Ef. cbn [String.eqb].
      apply (map_id_sub _ (endpoints_of (VDict d))); [by apply canonical_endpoints |]. intros x Hx. apply fresh_sub. by rewrite Ef.
    + rewrite field_sorted by done. cbn [field]. unfold dget_or at 1. rewrite dget_dset. cbn. by apply str_sorted.
    + rewrite field_sorted by done. cbn [field]. unfold dget_or at 1. rewrite dget_dset. cbn. by apply str_sorted.
    + rewrite age_sorted by done. cbn [age_of]. unfold dget_or at 1. rewrite dget_dset. cbn [String.eqb]. fold (dget_or d "updated_at" (VFloat (FFin 0 0))).
      change (sort_keys (age_of (VDict d)) = age_of (VDict d)). by rewrite <- age_sorted, Hc.
Qed.

(** The rows with something fresh in them, with their age. *)
Definition survivors (rows : dict) : list (string * pyval) :=
  omap (fun kv => match fresh (snd kv) with [] => None | _ => Some (fst kv, age_of (snd kv)) end) rows.

Lemma dset_fresh {B} (d : list (string * B)) k v : k ∉ dkeys d -> dset d k v = d ++ [(k, v)].
Proof.
  induction d as [| [x w] d IH]; intros Hk; [done |]. cbn in Hk. apply not_elem_of_cons in Hk as [Hx Hk]. cbn.
  destruct (String.eqb_spec x k); [congruence |]. by rewrite IH.
Qed.

Lemma survivors_keys rows k : k ∈ dkeys (survivors rows) -> k ∈ dkeys rows.
Proof.
  unfold dkeys. intros ([x a] & -> & Hin)%list_elem_of_fmap. apply list_elem_of_omap in Hin as ([y v] & Hy & E). cbn in E.
  destruct (fresh v); [done |]. injection E as <- <-. apply list_elem_of_fmap. by exists (y, v).
Qed.

Lemma survivors_nodup rows : NoDup (dkeys rows) -> NoDup (dkeys (survivors rows)).
Proof.
  induction rows as [| [k v] rows IH]; intros Hn; [constructor |]. cbn in Hn. apply NoDup_cons in Hn as [Hk Hn].
  unfold survivors in *. cbn. destruct (fresh v); [by apply IH |]. cbn. constructor; [| by apply IH]. intros Hin. by apply Hk, survivors_keys.
Qed.

Lemma notes_survivors rows acc :
  NoDup (dkeys rows) -> (forall k, k ∈ dkeys rows -> k ∉ dkeys acc) -> foldl note_age acc rows = acc ++ survivors rows.
Proof.
  revert acc. induction rows as [| [k v] rows IH]; intros acc Hn Hd; [by rewrite app_nil_r |]. cbn in Hn. apply NoDup_cons in Hn as [Hk Hn].
  cbn [foldl]. unfold note_age at 2. unfold survivors. cbn [omap list_omap fst snd]. fold (survivors rows). destruct (fresh v).
  - apply IH; [done |]. intros x Hx. apply Hd. by right.
  - rewrite dset_fresh by (apply Hd; by left). rewrite IH, <- app_assoc; [done | done |]. intros x Hx. unfold dkeys. rewrite map_app, elem_of_app.
    cbn. rewrite list_elem_of_singleton. intros [Hx' | ->]; [| done]. apply (Hd x); [by right | done].
Qed.

Lemma survivor_count rows : forall k, k ∈ dkeys (survivors rows) <-> exists v, (k, v) ∈ rows /\ fresh v <> [].
Proof.
  intros k. unfold dkeys. rewrite list_elem_of_fmap. split.
  - intros ([x a] & -> & Hin). apply list_elem_of_omap in Hin as ([y v] & Hy & E). cbn in E. exists v. destruct (fresh v) eqn:Ef; [done |].
    injection E as <- <-. by split.
  - intros (v & Hin & Hf). exists (k, age_of v). split; [done |]. apply list_elem_of_omap. exists (k, v). split; [done |]. cbn. by destruct (fresh v).
Qed.

Lemma delete_all ks s :
  ep_ok s -> exists s', siter (fun av => let! _ := ep_delete guard_ok (text_of (snd av)) in sret tt) ks s = (Ok tt, s') /\ ep_ok s' /\
    forall k, ep_view s' k = if bool_decide (k ∈ map (fun av : pyval * pyval => text_of (snd av)) ks) then None else ep_view s k.
Proof.
  revert s. induction ks as [| [a v] ks IH]; intros s Hok; cbn [siter map]; [exists s; done |].
  destruct (delete_spec EndpointStoreError _validate_entry _legacy_principals SHARD_COUNT guard_ok s (text_of v) Hok) as (b & s1 & Hd & Hok1 & Hv1).
  assert (Hstep : sbind (ep_delete guard_ok (text_of (snd (a, v)))) (fun _ => sret tt) s = (Ok tt, s1)) by (unfold ep_delete; cbn [snd]; by rewrite (sbind_ok _ _ _ _ _ Hd)).
  rewrite (sbind_ok _ _ _ _ _ Hstep). destruct (IH s1 Hok1) as (s' & -> & Hok' & Hv'). exists s'. split; [done |]. split; [done |]. intros k.
  rewrite Hv', Hv1. cbn [snd]. destruct (String.eqb_spec (text_of v) k) as [-> | Hne].
  - rewrite (bool_decide_true (k ∈ k :: _)) by (by left). by destruct (bool_decide _).
  - destruct (decide (k ∈ map (fun av => text_of (snd av)) ks)) as [Hin | Hin].
    + rewrite !bool_decide_true by (try right; done). done.
    + rewrite !bool_decide_false; [done | | done]. intros [-> | ?]%elem_of_cons; done.
Qed.

(** The rows that make the map too large. *)
Definition excess (rows : dict) : nat := Z.to_nat (zlen (survivors rows) - MAX_PRINCIPALS).

Lemma sort_keyed_numbers l : forallb (fun kr => is_num (fst kr)) l = true -> exists sorted, sort_keyed l = Ok sorted /\ sorted ≡ₚ l.
Proof.
  intros H. unfold sort_keyed. destruct l as [| x [| y l]]; [by eexists | by eexists |]. rewrite H. eexists. split; [done | apply sort_by_perm].
Qed.

Lemma cap_state s rows :
  ep_ok s -> (zlen (survivors rows) <= MAX_PRINCIPALS \/ forallb (fun ka => is_num (snd ka)) (survivors rows) = true) ->
  NoDup (dkeys (survivors rows)) ->
  exists s' victims, _enforce_principal_cap guard_ok (survivors rows) s = (Ok tt, s') /\ ep_ok s' /\
    NoDup victims /\ length victims = excess rows /\ (forall k, k ∈ victims -> k ∈ dkeys (survivors rows)) /\
    forall k, ep_view s' k = if bool_decide (k ∈ victims) then None else ep_view s k.
Proof.
  intros Hok Hages Hn. unfold _enforce_principal_cap, excess. destruct (Z.leb_spec (zlen (survivors rows)) MAX_PRINCIPALS) as [Hl | Hl].
  - exists s, []. replace (Z.to_nat _) with 0%nat by lia. split_and!; try done; [constructor | intros k Hk; by apply elem_of_nil in Hk].
  - destruct Hages as [? | Hages]; [lia |]. set (keyed := map (fun ka => (snd ka, VStr (fst ka))) (survivors rows)).
    destruct (sort_keyed_numbers keyed) as (sorted & Hs & Hperm).
    { subst keyed. rewrite forallb_forall in Hages |- *. intros x Hx. apply in_map_iff in Hx as (y & <- & Hy). by apply Hages. }
    unfold lift at 1, sbind at 1. rewrite Hs. set (n := Z.to_nat _).
    destruct (delete_all (take n sorted) s Hok) as (s' & -> & Hok' & Hv). exists s', (map (fun av => text_of (snd av)) (take n sorted)).
    assert (Hkeys : map (fun av => text_of (snd av)) sorted ≡ₚ dkeys (survivors rows)).
    { rewrite Hperm. subst keyed. rewrite map_map. cbn. unfold dkeys. apply Permutation_refl. }
    assert (Hlen : length sorted = length (survivors rows)) by (rewrite Hperm; subst keyed; by rewrite length_map).
    split_and!; try done.
    + rewrite <- firstn_map. assert (Hnd : NoDup (map (fun av => text_of (snd av)) sorted)) by (by rewrite Hkeys).
      rewrite <- (take_drop n (map _ sorted)) in Hnd. by apply NoDup_app in Hnd as [? _].
    + rewrite length_map, length_take. subst n. unfold zlen, MAX_PRINCIPALS, SUPPORTED_DEVICES, SERVICE_PRINCIPAL_HEADROOM in *. lia.
    + intros k Hk. rewrite <- Hkeys. rewrite <- (take_drop n sorted), map_app. apply elem_of_app. by left.
Qed.

(** What a row is after a prune that did not evict it. *)
Definition row_pruned (o o' : option pyval) : Prop :=
  match o, o' with
  | None, None => True
  | Some v, None => fresh v = []
  | Some v, Some v' => fresh v <> [] /\ pruned v v'
  | None, Some _ => False
  end.

(** The store before the bound applies, and the rows it counts. *)
Lemma prune_state s :
  ep_ok s -> (zlen (survivors (all_rows s)) <= MAX_PRINCIPALS \/ forallb (fun ka => is_num (snd ka)) (survivors (all_rows s)) = true) ->
  exists s' victims, endpoints_prune guard_ok ttl now keep s = (Ok tt, s') /\ ep_ok s' /\
    NoDup victims /\ length victims = excess (all_rows s) /\ (forall k, k ∈ victims -> k ∈ dkeys (survivors (all_rows s))) /\
    forall k, if bool_decide (k ∈ victims) then ep_view s' k = None else row_pruned (ep_view s k) (ep_view s' k).
Proof.
  intros Hok Hages. destruct (all_rows_spec EndpointStoreError _validate_entry SHARD_COUNT s Hok) as [Hn _].
  destruct (sweep_spec EndpointStoreError _validate_entry _legacy_principals SHARD_COUNT guard_ok (visit now ttl keep) (fun _ => prune_row) note_age)
    with (s := s) (w := @nil (string * pyval)) as (s1 & c & Hsw & Hok1 & Hv1); [intros; apply visit_spec | intros; by apply prune_storable | done |].
  unfold endpoints_prune, ep_sweep. rewrite Hsw. rewrite notes_survivors by (done || intros; apply not_elem_of_nil). cbn [app].
  destruct (cap_state s1 (all_rows s) Hok1 Hages (survivors_nodup _ Hn)) as (s' & victims & -> & Hok' & H1 & H2 & H3 & Hv).
  exists s', victims. split_and!; try done. intros k. rewrite Hv. case_bool_decide as Hk; [done |]. rewrite Hv1.
  destruct (ep_view s k) as [v |] eqn:Ev; [| done]. destruct (row_storable_at s k v Hok Ev) as [Hs Hc]. pose proof (swept_row k v Hs Hc) as Hr.
  destruct (swept (fun _ => prune_row) k (Some v)); exact Hr.
Qed.

(** ** The fresh view *)

Definition fresh_view (o : option pyval) : option pyval := v ← o; match fresh v with [] => None | eps => Some (fresh_row v eps) end.

Lemma fresh_endpoints_state s :
  ep_ok s -> exists d s', fresh_endpoints guard_ok ttl now keep s = (Ok d, s') /\ ep_ok s' /\ (forall k, ep_view s' k = ep_view s k) /\
    NoDup (dkeys d) /\ forall k, dget d k = fresh_view (ep_view s k).
Proof.
  intros Hok. unfold fresh_endpoints, ep_snapshot.
  destruct (snapshot_spec EndpointStoreError _validate_entry _legacy_principals SHARD_COUNT guard_ok s Hok) as (rows & Hr & Hn & Hg).
  rewrite (sbind_ok _ _ _ _ _ Hr). eexists _, _. split; [reflexivity |]. split; [by apply set_migrated_ok |]. split; [done |].
  assert (Hkeys : forall rows : dict, NoDup (dkeys rows) -> let d := omap (fun ke => match fresh (snd ke) with [] => None | eps => Some (fst ke, fresh_row (snd ke) eps) end) rows in
    NoDup (dkeys d) /\ (forall k, k ∈ dkeys d -> k ∈ dkeys rows) /\ forall k, dget d k = fresh_view (dget rows k)).
  { clear. induction rows as [| [x v] rows IH]; intros Hn; [split; [constructor | done] |]. cbn in Hn. apply NoDup_cons in Hn as [Hx Hn].
    destruct (IH Hn) as (I1 & I2 & I3). cbn [omap list_omap snd fst]. destruct (fresh v) as [| e l] eqn:Ef.
    - split; [done |]. split; [intros k Hk; right; by apply I2 |]. intros k. cbn [dget]. destruct (String.eqb_spec x k) as [<- | ?]; [| apply I3].
      rewrite I3. apply dget_None in Hx. rewrite Hx. cbn. by rewrite Ef.
    - cbn [dkeys map fst]. split; [constructor; [intros Hin; by apply Hx, I2 | done] |].
      split; [intros k [-> | Hk]%elem_of_cons; [by left | right; by apply I2] |]. intros k. cbn [dget]. destruct (String.eqb x k); [| apply I3].
      cbn. by rewrite Ef. }
  destruct (Hkeys rows Hn) as (K1 & _ & K3). split; [done |]. intros k. by rewrite K3, Hg.
Qed.

Lemma fresh_pruned v v' : pruned v v' -> fresh v' = fresh v.
Proof.
  intros [He Ht Hi _]. unfold fresh_of. rewrite He. apply filter_all, Forall_forall. intros ep Hep. apply list_elem_of_filter in Hep as [Hf _].
  unfold _is_fresh in *. by rewrite Ht, Hi.
Qed.

Lemma fresh_view_pruned o o' : row_pruned o o' -> fresh_view o' = fresh_view o.
Proof.
  destruct o as [v |], o' as [v' |]; cbn; try done.
  - intros [_ Hp]. rewrite (fresh_pruned _ _ Hp). destruct Hp as [_ Ht Hi _]. unfold fresh_row. by rewrite Ht, Hi.
  - intros Hf. by rewrite Hf.
Qed.
End prune.

(** ** The map as the tracker writes it *)

(** A row written by [record_endpoint]: string addresses, one entry per address, at most
    four, under the key of its principal. *)
Record row_tidy (k : string) (v : pyval) : Prop := {
  rt_key : k = text_of (field v "principal_type") +:+ ":" +:+ text_of (field v "principal_id");
  rt_len : (length (endpoints_of v) <= ENDPOINT_CAP)%nat;
  rt_addr : exists ips, map (fun e => field e "ipv4") (endpoints_of v) = map VStr ips /\ NoDup ips;
  rt_age : is_num (age_of v) = true }.

Definition tidy (s : kstate) : Prop := ep_ok s /\ forall k v, ep_view s k = Some v -> row_tidy k v.

Lemma other_addresses ipv4 old ips :
  map (fun e => field e "ipv4") old = map VStr ips ->
  map (fun e => field e "ipv4") (filter (fun e => py_eq (field e "ipv4") (VStr ipv4) = false) old) = map VStr (filter (fun x => x <> ipv4) ips).
Proof.
  revert ips. induction old as [| e old IH]; intros ips H; destruct ips as [| x ips]; try discriminate H; [done |]. cbn in H. injection H as He H.
  rewrite !filter_cons, He. cbn [py_eq]. destruct (String.eqb_spec x ipv4) as [-> | Hx].
  - rewrite decide_False by done. rewrite (decide_False (P := ipv4 <> ipv4)) by tauto. by apply IH.
  - rewrite decide_True by done. rewrite (decide_True (P := x <> ipv4)) by done. cbn. rewrite He. f_equal. by apply IH.
Qed.

Lemma next_addresses ipv4 port now old ips :
  map (fun e => field e "ipv4") old = map VStr ips ->
  map (fun e => field e "ipv4") (next_endpoints ipv4 port now old) = map VStr (take ENDPOINT_CAP (ipv4 :: filter (fun x => x <> ipv4) ips)).
Proof.
  intros H. unfold next_endpoints. rewrite <- !firstn_map. f_equal. cbn [map]. f_equal. by apply other_addresses.
Qed.

Lemma NoDup_take {A} n (l : list A) : NoDup l -> NoDup (take n l).
Proof. intros H. rewrite <- (take_drop n l) in H. by apply NoDup_app in H as [? _]. Qed.

Lemma sorted_field_eps v : good v -> Forall (fun ep => validate_endpoint ep = Ok tt) (endpoints_of v) ->
  map sighting (endpoints_of (sort_keys v)) = map sighting (endpoints_of v).
Proof.
  intros Hg HF. rewrite endpoints_sorted by apply Hg. rewrite map_map. apply map_ext_elem. intros x Hx.
  pose proof (good_endpoints v Hg) as Hge. rewrite Forall_forall in HF, Hge. apply valid_sighting; [by apply HF | apply Hge, Hx].
Qed.

Lemma sighting_addresses a b : map sighting a = map sighting b -> map (fun e => field e "ipv4") a = map (fun e => field e "ipv4") b.
Proof.
  intros H. assert (Hm : forall l, map (fun e => field e "ipv4") l = map (fun t : pyval * pyval * pyval => fst (fst t)) (map sighting l)).
  { intros l. rewrite map_map. done. }
  by rewrite !Hm, H.
Qed.

Lemma touch_fields p ipv4 port now entry f :
  (forall v, entry = Some v -> is_dict v = true) -> f <> "endpoints" -> f <> "updated_at" ->
  field (touch p ipv4 port now entry) f = match entry with Some v => field v f | None => field (VDict (blank_entry p now)) f end.
Proof.
  intros Hd H1 H2. destruct (touch_shape p ipv4 port now entry Hd) as (d & He & ->). cbn [field]. unfold dget_or. rewrite !dget_dset.
  destruct (String.eqb_spec "updated_at" f); [congruence |]. destruct (String.eqb_spec "endpoints" f); [congruence |]. by destruct He as [-> | [-> ->]].
Qed.

Lemma tidy_touch p ipv4 port now s :
  tidy s -> announced ipv4 port now -> row_tidy (principal_key p) (sort_keys (touch p ipv4 port now (ep_view s (principal_key p)))).
Proof.
  intros [Hok Ht] Ha. set (entry := ep_view s (principal_key p)).
  assert (He : forall v, entry = Some v -> good v /\ _validate_entry (principal_key p) v = Ok tt).
  { intros v Hv. destruct (row_storable_at s _ _ Hok Hv) as [Hs Hc]. by apply storable_valid. }
  assert (Hd : forall v, entry = Some v -> is_dict v = true).
  { intros v Hev. destruct (He v Hev) as [_ Hval]. by apply valid_entry_inv in Hval as (d & -> & _). }
  pose proof (touch_storable (principal_key p) p ipv4 port now entry Ha He) as (_ & Hw & Hf & Hval).
  assert (Hg : good (touch p ipv4 port now entry)) by by split.
  assert (HF : Forall (fun ep => validate_endpoint ep = Ok tt) (endpoints_of (touch p ipv4 port now entry))).
  { rewrite touch_endpoints by done. apply next_endpoints_all; [by apply endpoint_valid |]. destruct entry as [v |] eqn:Ee; [| constructor].
    destruct (He v eq_refl) as [_ Hv]. by apply valid_entry_inv in Hv as (d & _ & _ & _ & _ & HF). }
  pose proof (sorted_field_eps _ Hg HF) as Hsame. rewrite touch_endpoints in Hsame by done.
  assert (Hold : exists ips, map (fun e => field e "ipv4") (old_endpoints entry) = map VStr ips /\ NoDup ips).
  { destruct entry as [v |] eqn:Ee; [| exists []; split; [done | constructor]]. apply (rt_addr (principal_key p) v). by apply Ht. }
  destruct Hold as (ips & Hips & Hn). split.
  - assert (Hf1 : forall f, f <> "endpoints" -> f <> "updated_at" -> text_of (field (sort_keys (touch p ipv4 port now entry)) f) =
      text_of match entry with Some v => field v f | None => field (VDict (blank_entry p now)) f end).
    { intros f H1 H2. rewrite field_sorted by done. rewrite touch_fields by done.
      by destruct (match entry with Some v => field v f | None => _ end). }
    rewrite !Hf1 by done. destruct entry as [v |] eqn:Ee; [by apply rt_key, Ht | done].
  - apply (f_equal length) in Hsame. rewrite !length_map in Hsame. rewrite Hsame. unfold next_endpoints. rewrite length_take. lia.
  - exists (take ENDPOINT_CAP (ipv4 :: filter (fun x => x <> ipv4) ips)). split.
    + rewrite (sighting_addresses _ _ Hsame). by apply next_addresses.
    + apply NoDup_take. constructor; [| by apply NoDup_filter]. intros [? _]%list_elem_of_filter. done.
  - destruct (touch_shape p ipv4 port now entry Hd) as (d & _ & Eq). rewrite Eq in Hw |- *. rewrite age_sorted by done. cbn [age_of]. unfold dget_or.
    rewrite dget_dset. cbn. destruct (an_now _ _ _ Ha) as (m & e & ->). done.
Qed.

Lemma tidy_empty : tidy empty_store.
Proof. split; [apply empty_store_ok | done]. Qed.

Lemma tidy_record guard_ok p ipv4 port now s :
  tidy s -> announced ipv4 port now -> tidy (snd (record_endpoint guard_ok p ipv4 port now s)).
Proof.
  intros Ht Ha. destruct (_attributable p) eqn:Ep; [| unfold record_endpoint; by rewrite Ep].
  destruct (record_state guard_ok p ipv4 port now s (proj1 Ht) Ep Ha) as (s' & -> & Hok & Hv). split; [done |]. intros k v. cbn [snd]. rewrite Hv.
  destruct (String.eqb_spec (principal_key p) k) as [<- |]; [intros [= <-]; by apply tidy_touch | apply Ht].
Qed.

Lemma tidy_clear guard_ok p s : tidy s -> tidy (snd (clear_principal guard_ok p s)).
Proof.
  intros [Hok Ht]. unfold clear_principal, ep_delete.
  destruct (delete_spec EndpointStoreError _validate_entry _legacy_principals SHARD_COUNT guard_ok s (principal_key p) Hok) as (b & s1 & Hd & Hok1 & Hv1).
  rewrite (sbind_ok _ _ _ _ _ Hd). split; [done |]. intros k v. cbn. rewrite Hv1. destruct (String.eqb _ k); [done | apply Ht].
Qed.

(** The ages a prune compares are numbers. *)
Lemma tidy_ages ttl now keep s : tidy s -> forallb (fun ka => is_num (snd ka)) (survivors ttl now keep (all_rows s)) = true.
Proof.
  intros [Hok Ht]. destruct (all_rows_spec EndpointStoreError _validate_entry SHARD_COUNT s Hok) as [Hn Hg]. apply forallb_forall.
  intros [k a] Hin%list_elem_of_In. apply list_elem_of_omap in Hin as ([x v] & Hx & E). cbn in E. destruct (fresh_of now ttl keep v); [done |].
  injection E as <- <-. apply (rt_age x v), Ht. rewrite <- Hg. by apply dget_Some.
Qed.

Lemma row_tidy_pruned ttl now keep k v v' : row_tidy k v -> pruned ttl now keep v v' -> row_tidy k v'.
Proof.
  intros [K L (ips & A & N) G] [E T I Ag]. split; [by rewrite T, I | | | by rewrite Ag].
  - rewrite E. etrans; [apply length_filter | done].
  - rewrite E. unfold fresh_of. exists (omap (fun e => as_str (field e "ipv4")) (filter (fun ep => _is_fresh v ep now ttl keep = true) (endpoints_of v))).
    clear L. revert ips A N. induction (endpoints_of v) as [| e l IH]; intros ips A N; [split; [done | constructor] |].
    destruct ips as [| x ips]; [discriminate A |]. cbn in A. injection A as Ae A. apply NoDup_cons in N as [Hx N]. destruct (IH ips A N) as [I1 I2].
    rewrite filter_cons. destruct (decide _); [| done]. cbn. rewrite Ae. cbn. split; [by f_equal |]. constructor; [| done].
    intros Hin. apply Hx. apply list_elem_of_omap in Hin as (e' & He' & Eq). apply list_elem_of_filter in He' as [_ He'].
    assert (Hv : field e' "ipv4" ∈ map VStr ips) by (rewrite <- A; apply list_elem_of_fmap; by exists e').
    apply list_elem_of_fmap in Hv as (y & Hy & Hin). rewrite Hy in Eq. by injection Eq as ->.
Qed.

Lemma tidy_prune guard_ok ttl now keep s : tidy s -> tidy (snd (endpoints_prune guard_ok ttl now keep s)).
Proof.
  intros Ht. destruct (prune_state guard_ok ttl now keep s (proj1 Ht) (or_intror (tidy_ages ttl now keep s Ht))) as (s' & vs & -> & Hok & _ & _ & _ & Hv).
  split; [done |]. intros k v' Hk. cbn [snd] in Hk. specialize (Hv k). case_bool_decide; [congruence |]. rewrite Hk in Hv.
  destruct (ep_view s k) as [v |] eqn:Ev; [| done]. destruct Hv as [_ Hp]. eapply row_tidy_pruned; [by apply Ht | done].
Qed.

(** ** How many rows are left *)

Lemma all_rows_count ttl now keep s s' victims :
  ep_ok s -> ep_ok s' -> NoDup victims -> length victims = excess ttl now keep (all_rows s) ->
  (forall k, k ∈ victims -> k ∈ dkeys (survivors ttl now keep (all_rows s))) ->
  (forall k, if bool_decide (k ∈ victims) then ep_view s' k = None else row_pruned ttl now keep (ep_view s k) (ep_view s' k)) ->
  zlen (all_rows s') <= MAX_PRINCIPALS.
Proof.
  intros Hok Hok' Hn Hl Hsub Hv. destruct (all_rows_spec EndpointStoreError _validate_entry SHARD_COUNT s Hok) as [Hns Hgs].
  destruct (all_rows_spec EndpointStoreError _validate_entry SHARD_COUNT s' Hok') as [Hns' Hgs'].
  set (alive := survivors ttl now keep (all_rows s)) in *. pose proof (survivors_nodup ttl now keep _ Hns) as Hna. fold alive in Hna.
  assert (Hincl : forall k, k ∈ victims ++ dkeys (all_rows s') -> k ∈ dkeys alive).
  { intros k [Hk | Hk]%elem_of_app; [by apply Hsub |]. specialize (Hv k). case_bool_decide as Hin; [by apply Hsub |].
    unfold dkeys in Hk. apply list_elem_of_fmap in Hk as ([x v'] & -> & Hk). apply dget_Some in Hk; [| done]. cbn [fst] in *. rewrite Hgs' in Hk.
    rewrite Hk in Hv. destruct (ep_view s x) as [v |] eqn:Ev; [| done]. destruct Hv as [Hf _]. apply survivor_count. exists v. split; [| done].
    apply dget_elem. by rewrite Hgs. }
  assert (Hnd : NoDup (victims ++ dkeys (all_rows s'))).
  { apply NoDup_app. split; [done |]. split; [| done]. intros k Hk Hk'. specialize (Hv k). rewrite bool_decide_true in Hv by done.
    unfold dkeys in Hk'. apply list_elem_of_fmap in Hk' as ([x v'] & -> & Hk'). apply dget_Some in Hk'; [| done]. cbn in Hv. rewrite <- Hgs' in Hv. congruence. }
  assert (Hle : (length (victims ++ dkeys (all_rows s')) <= length (dkeys alive))%nat).
  { apply NoDup_incl_length; [by apply NoDup_ListNoDup |]. intros k Hk. apply list_elem_of_In, Hincl, list_elem_of_In, Hk. }
  unfold dkeys in Hle. rewrite length_app, !length_map, Hl in Hle. unfold excess in Hle. fold alive in Hle.
  unfold zlen, MAX_PRINCIPALS, SUPPORTED_DEVICES, SERVICE_PRINCIPAL_HEADROOM in *. lia.
Qed.

(** ** Properties *)

(** An announce of a device or service writes the row of that principal and no other:
    its newest endpoint comes first, an older entry of the same address goes, at most
    four addresses stay, and the store stays readable. *)
Theorem record_endpoint_latest guard_ok p ipv4 port now s :
  ep_ok s -> _attributable p = true -> announced ipv4 port now ->
  exists s' row, record_endpoint guard_ok p ipv4 port now s = (Ok true, s') /\ ep_ok s' /\
    ep_view s' (principal_key p) = Some row /\ (forall k, k <> principal_key p -> ep_view s' k = ep_view s k) /\
    map sighting (endpoints_of row) =
      take ENDPOINT_CAP ((VStr ipv4, VInt port, VFloat now) ::
        filter (fun t => py_eq (fst (fst t)) (VStr ipv4) = false) (map sighting (old_endpoints (ep_view s (principal_key p))))).
Proof.
  intros Hok Hp Ha. destruct (record_state guard_ok p ipv4 port now s Hok Hp Ha) as (s' & Hr & Hok' & Hv).
  set (entry := ep_view s (principal_key p)) in *. exists s', (sort_keys (touch p ipv4 port now entry)). split; [done |]. split; [done |].
  split; [by rewrite Hv, String.eqb_refl |]. split; [intros k Hk; rewrite Hv; by destruct (String.eqb_spec (principal_key p) k) |].
  assert (He : forall v, entry = Some v -> good v /\ _validate_entry (principal_key p) v = Ok tt).
  { intros v Hev. destruct (row_storable_at s _ _ Hok Hev) as [Hs Hc]. by apply storable_valid. }
  assert (Hd : forall v, entry = Some v -> is_dict v = true).
  { intros v Hev. destruct (He v Hev) as [_ Hval]. by apply valid_entry_inv in Hval as (d & -> & _). }
  pose proof (touch_storable (principal_key p) p ipv4 port now entry Ha He) as (_ & Hw & Hf & _).
  rewrite sorted_field_eps; [| by split |]; rewrite touch_endpoints by done.
  - unfold next_endpoints. rewrite <- firstn_map. f_equal. cbn [map]. f_equal. clear.
    induction (old_endpoints entry) as [| e l IH]; [done |]. cbn [map]. rewrite !filter_cons. cbn [sighting fst].
    destruct (decide _); [cbn; by f_equal | done].
  - apply next_endpoints_all; [by apply endpoint_valid |]. destruct entry as [v |]; [| constructor]. destruct (He v eq_refl) as [_ Hv'].
    by apply valid_entry_inv in Hv' as (d & _ & _ & _ & _ & HF).
Qed.

(** On a map the tracker wrote, a prune returns, leaves at most 10256 rows and no row
    without a fresh endpoint, and, when it had no need to evict, every reader of the
    fresh view sees after it exactly what it saw before: the rows a caller's [keep]
    claims are never aged out. *)
Theorem endpoints_prune_exact guard_ok ttl now keep s :
  tidy s ->
  exists s' d d', endpoints_prune guard_ok ttl now keep s = (Ok tt, s') /\ tidy s' /\ zlen (all_rows s') <= MAX_PRINCIPALS /\
    (forall k v, ep_view s' k = Some v -> fresh_of now ttl keep v = endpoints_of v /\ endpoints_of v <> []) /\
    fst (fresh_endpoints guard_ok ttl now keep s) = Ok d /\ fst (fresh_endpoints guard_ok ttl now keep s') = Ok d' /\
    (zlen (survivors ttl now keep (all_rows s)) <= MAX_PRINCIPALS -> forall k, dget d' k = dget d k).
Proof.
  intros Ht. pose proof (tidy_prune guard_ok ttl now keep s Ht) as Ht'.
  destruct (prune_state guard_ok ttl now keep s (proj1 Ht) (or_intror (tidy_ages ttl now keep s Ht))) as (s' & vs & E & Hok & Hn & Hl & Hsub & Hv).
  rewrite E in Ht'. cbn [snd] in Ht'. destruct (fresh_endpoints_state guard_ok ttl now keep s (proj1 Ht)) as (d & s1 & E1 & _ & _ & _ & Hd).
  destruct (fresh_endpoints_state guard_ok ttl now keep s' Hok) as (d' & s2 & E2 & _ & _ & _ & Hd'). exists s', d, d'.
  split; [done |]. split; [done |]. split; [by eapply all_rows_count; [apply Ht | ..] |]. split; [| split; [by rewrite E1 | split; [by rewrite E2 |]]].
  - intros k v Hk. specialize (Hv k). case_bool_decide; [congruence |]. rewrite Hk in Hv. destruct (ep_view s k) as [v0 |]; [| done].
    destruct Hv as [Hf Hp]. rewrite (fresh_pruned _ _ _ _ _ Hp), (pr_endpoints _ _ _ _ _ Hp). done.
  - intros Hc k. rewrite Hd, Hd'. apply fresh_view_pruned. specialize (Hv k). rewrite bool_decide_false in Hv; [done |]. intros Hin.
    assert (Hz : length vs = 0%nat) by (rewrite Hl; unfold excess; lia). by destruct vs; [apply elem_of_nil in Hin |].
Qed.

(** ** The queue *)

Section queue.
Context {S : Type} (write : principal -> string -> Z -> pyfloat -> sm S bool).

(** The durable write of a queued endpoint, with its first observation time. *)
Definition written (e : pending) : Prop :=
  exists s b s', write (Principal (q_type e) (q_id e)) (q_ipv4 e) (q_port e) (q_observed e) s = (Ok b, s').

Lemma drop_other key ref q k :
  k <> key -> mget (q_items (snd (_drop_key key ref q))) k = mget (q_items q) k.
Proof.
  intros Hk. unfold _drop_key. destruct (mget (q_items q) key) as [c |]; [| done].
  destruct (match ref with None => true | Some r => q_ref c =? r end); [| done]. cbn. by rewrite mget_mpop_ne.
Qed.

Lemma drop_key q key e :
  mget (q_items q) key = Some e -> _drop_key key (Some (q_ref e)) q = (true, Queue (q_cap q) (mpop (q_items q) key) (q_next q)).
Proof. intros H. unfold _drop_key. by rewrite H, Z.eqb_refl. Qed.

Lemma retry_fold items resolved q s resolved' q' s' :
  NoDup (mkeys items) -> (forall k e, (k, e) ∈ items -> mget (q_items q) k = Some e) ->
  sfold (fun resolved kp => let! more := retry_one write kp in sret (resolved ++ more)) resolved items (q, s) = (Ok resolved', (q', s')) ->
  exists done, resolved' = resolved ++ done /\ (forall k, k ∈ done -> exists e, (k, e) ∈ items /\ written e) /\
    forall k, mget (q_items q') k = if bool_decide (k ∈ done) then None else mget (q_items q) k.
Proof.
  revert resolved q s. induction items as [| [k e] items IH]; intros resolved q s Hn Hin H; cbn [sfold] in H.
  - injection H as <- <- <-. exists []. split; [by rewrite app_nil_r |]. split; [intros k Hk; by apply elem_of_nil in Hk | done].
  - cbn in Hn. apply NoDup_cons in Hn as [Hk Hn]. apply sbind_inv in H as (r1 & [q1 s1] & H1 & H). apply sbind_inv in H1 as (more & [q2 s2] & H1 & H2).
    injection H2 as <- <- <-. unfold retry_one in H1. pose proof (Hin k e ltac:(by left)) as Hke.
    assert (Hrest : forall q0, (forall x, x <> k -> mget (q_items q0) x = mget (q_items q) x) -> forall x y, (x, y) ∈ items -> mget (q_items q0) x = Some y).
    { intros q0 H0 x y Hxy. rewrite H0; [apply Hin; by right |]. intros ->. apply Hk, list_elem_of_fmap. by exists (k, y). }
    destruct (write _ _ _ _ s) as [[b | ex] s3] eqn:Ew.
    + rewrite (drop_key q k e Hke) in H1. injection H1 as <- <- <-.
      destruct (IH (resolved ++ [k]) (Queue (q_cap q) (mpop (q_items q) k) (q_next q)) s3 Hn) as (dn & -> & D1 & D2); [| done |].
      { apply Hrest. intros x Hx. cbn [q_items]. by apply mget_mpop_ne. }
      exists (k :: dn). split; [by rewrite <- app_assoc |]. split.
      * intros x [-> | Hx]%elem_of_cons; [exists e; split; [by left | by exists s, b, s3] |]. destruct (D1 x Hx) as (e' & ? & ?). exists e'. split; [by right | done].
      * intros x. rewrite D2. cbn [q_items]. rewrite mget_mpop. destruct (decide (k = x)) as [<- | Hx].
        -- rewrite (bool_decide_true (k ∈ k :: dn)) by (by left). by destruct (bool_decide _).
        -- destruct (decide (x ∈ dn)); [rewrite !bool_decide_true by (try right; done); done |].
           rewrite !bool_decide_false; [done | | done]. intros [-> | ?]%elem_of_cons; done.
    + assert (Hsame : (more, q2, s2) = ([], q, s3)) by (destruct ex; try discriminate H1; by injection H1 as <- <- <-).
      injection Hsame as -> -> ->. rewrite app_nil_r in H. destruct (IH resolved q s3 Hn (Hrest q (fun _ _ => eq_refl)) H) as (dn & -> & D1 & D2).
      exists dn. split; [done |]. split; [| done]. intros x Hx. destruct (D1 x Hx) as (e' & ? & ?). exists e'. split; [by right | done].
Qed.

(** A retry pass loses no endpoint: every endpoint queued before it is either reported
    as resolved, and then its write with the original observation time succeeded, or
    still queued as it was, and nothing is resolved that was not queued. *)
Theorem retry_pending_lossless q s resolved q' s' :
  NoDup (mkeys (q_items q)) -> retry_pending write (q, s) = (Ok resolved, (q', s')) ->
  (forall k, k ∈ resolved -> exists e, mget (q_items q) k = Some e /\ written e) /\
  forall k, mget (q_items q') k = if bool_decide (k ∈ resolved) then None else mget (q_items q) k.
Proof.
  intros Hn H. destruct (retry_fold (q_items q) [] q s resolved q' s' Hn (fun k e => proj2 (mget_Some _ k e Hn)) H) as (dn & -> & D1 & D2).
  cbn [app]. split; [| done]. intros k Hk. destruct (D1 k Hk) as (e & He & Hw). exists e. split; [by apply mget_Some | done].
Qed.
End queue.

Lemma enqueue_nodup p ipv4 port now q : NoDup (mkeys (q_items q)) -> NoDup (mkeys (q_items (enqueue p ipv4 port now q))).
Proof.
  intros Hn. unfold enqueue. cbn [q_items]. unfold evict_oldest. set (items := mset _ _ _). assert (Hi : NoDup (mkeys items)) by by apply NoDup_mset.
  unfold mkeys in *. rewrite <- skipn_map. rewrite <- (take_drop (Z.to_nat (zlen items - Z.max (q_cap q) 0)) (map fst items)) in Hi.
  by apply NoDup_app in Hi as (_ & _ & ?).
Qed.

(** The queue never outgrows its bound, and a new endpoint is in it when the bound allows one. *)
Lemma enqueue_bound p ipv4 port now q : zlen (q_items (enqueue p ipv4 port now q)) <= Z.max (q_cap q) 0.
Proof. unfold enqueue, evict_oldest. cbn [q_items]. unfold zlen. rewrite length_drop. lia. Qed.

(** ** Witnesses *)

Definition sample_device : principal := Principal "device" "sw1".
Lemma sample_announced t : announced "10.0.0.7" 6881 (FFin t 0).
Proof. split; [vm_compute; by eexists | lia | by eexists _, _]. Qed.
Definition one_row : kstate := snd (record_endpoint true sample_device "10.0.0.7" 6881 (FFin 100 0) empty_store).
Lemma one_row_tidy : tidy one_row.
Proof. apply tidy_record; [apply tidy_empty | apply sample_announced]. Qed.

Lemma record_endpoint_latest_witness :
  exists s' row, record_endpoint true sample_device "10.0.0.7" 6881 (FFin 200 0) one_row = (Ok true, s') /\ ep_ok s' /\
    ep_view s' "device:sw1" = Some row /\ (forall k, k <> "device:sw1" -> ep_view s' k = ep_view one_row k) /\
    map sighting (endpoints_of row) = [(VStr "10.0.0.7", VInt 6881, VFloat (FFin 200 0))].
Proof.
  destruct (record_endpoint_latest true sample_device "10.0.0.7" 6881 (FFin 200 0) one_row) as (s' & row & H1 & H2 & H3 & H4 & H5);
    [apply one_row_tidy | done | apply sample_announced |].
  exists s', row. split; [done |]. split; [done |]. split; [done |]. split; [done |]. rewrite H5. by vm_compute.
Defined.

Lemma endpoints_prune_exact_witness :
  exists s' d d', endpoints_prune true 900 (FFin 5000 0) None one_row = (Ok tt, s') /\ tidy s' /\ zlen (all_rows s') <= MAX_PRINCIPALS /\
    (forall k v, ep_view s' k = Some v -> fresh_of (FFin 5000 0) 900 None v = endpoints_of v /\ endpoints_of v <> []) /\
    fst (fresh_endpoints true 900 (FFin 5000 0) None one_row) = Ok d /\ fst (fresh_endpoints true 900 (FFin 5000 0) None s') = Ok d' /\
    (zlen (survivors 900 (FFin 5000 0) None (all_rows one_row)) <= MAX_PRINCIPALS -> forall k, dget d' k = dget d k).
Proof. apply (endpoints_prune_exact true 900 (FFin 5000 0) None one_row), one_row_tidy. Defined.

(** A writer that fails for one principal. *)
Definition flaky (p : principal) (ipv4 : string) (port : Z) (now : pyfloat) : sm (list string) bool := fun log =>
  if String.eqb (p_id p) "sw2" then (Err (OSError "disk full"), log) else (Ok true, log ++ [p_id p]).

Definition two_queued : PendingEndpointQueue :=
  enqueue (Principal "device" "sw2") "10.0.0.8" 6881 (FFin 2 0) (enqueue sample_device "10.0.0.7" 6881 (FFin 1 0) (new_queue None)).

Lemma retry_pending_lossless_witness :
  let r := retry_pending flaky (two_queued, []) in
  fst r = Ok ["device:sw1"] /\ mget (q_items (fst (snd r))) "device:sw2" = mget (q_items two_queued) "device:sw2".
Proof.
  split; [by vm_compute |].
  destruct (retry_pending_lossless flaky two_queued [] ["device:sw1"] (fst (snd (retry_pending flaky (two_queued, [])))) ["sw1"]) as [_ H].
  - by_eval.
  - by vm_compute.
  - apply (H "device:sw2").
Defined.
