(* ===== verification/Blocklist.v ===== *)
(** * [server/blocklist_reconciler.py]: the denied addresses

    The desired blocklist, derived from the policy, the revoked credentials and the
    fresh and pending endpoints, and its application through the RPC of the seeder.

    A snapshot holds, per principal key, the typed principal and the addresses of its
    endpoints; addresses are strings, as the tracker writes them. *)
From S2P Require Import Prelude PyVal JsonDump Ipv4 PolicyDoc Sha256 PolicyEval PolicyStore KeyedState Odict PeerRegistry PeerEndpoints.

Definition PEER_BLOCKLIST_APPLY_FAILED : string := "peer_blocklist_apply_failed".

(** ** Snapshots *)

Record snap_row := SnapRow { sn_who : principal; sn_ips : list string }.
Abbreviation snap := (odict string snap_row).

(** [(key, principal, ipv4)] for every endpoint. *)
Definition _endpoint_ips (s : snap) : list (string * principal * string) :=
  flat_map (fun kr => map (fun ip => (fst kr, sn_who (snd kr), ip)) (sn_ips (snd kr))) s.

Definition valid_protected_seeder_ipv4 (value : option string) : bool :=
  match value with
  | Some s => negb (String.eqb s "") && match parse_ipv4 s with Some _ => true | None => false end
  | None => false
  end.

(** A dict of sets, keyed by address. *)
Abbreviation sets := (odict string (list string)).
(** [d.setdefault(ip, set()).add(x)] *)
Definition add_to (d : sets) (ip x : string) : sets :=
  let members := mget_or d ip [] in mset d ip (if decide (x ∈ members) then members else members ++ [x]).

Record conflict := Conflict {
  f_ipv4 : string; f_permitted_type : string; f_permitted_id : string; f_denied_type : string; f_denied_id : string }.

Record DerivedSet := Derived {
  denied_ips : list string; conflicts : list conflict; apply_empty : bool; ds_fail_closed : bool;
  prospective_denied_ips : option (list string); prospective_conflicts : option (list conflict);
  newly_denied_device_ids : option (list string) }.

(** [decision == "deny"] *)
Definition denies (doc : dict) (c : CompiledRoles) (p : principal) (ip : string) : res bool :=
  let* decision := evaluate doc p ip (Some c) in Ok (py_eq (fst decision) (VStr "deny")).

(** ** Retention and attribution *)

Definition denied_retention (policy : PolicyResult) (revoked : list string) (ptype pid ipv4 : string) : res bool :=
  if decide (ptype +:+ ":" +:+ pid ∈ revoked) then Ok true
  else if pr_fail_closed policy then Ok false
  else denies (pr_document policy) (pr_roles policy) (Principal ptype pid) ipv4.

Definition denied_endpoint_ips (policy : PolicyResult) (durable : snap) (revoked : list string) : res (list string) :=
  res_fold (fun out kpi =>
    let '(key, p, ip) := kpi in
    if negb (is_device p) then Ok out
    else
      let* hit :=
        if decide (key ∈ revoked) then Ok true
        else if pr_fail_closed policy then Ok false
        else denies (pr_document policy) (pr_roles policy) p ip in
      Ok (if (hit : bool) then (if decide (ip ∈ out) then out else out ++ [ip]) else out)) [] (_endpoint_ips durable).

(** ** Derivation *)

(** [key.split(":", 1)] *)
Fixpoint split_colon (s : string) : string * string :=
  match s with
  | EmptyString => ("", "")
  | String a s => if Ascii.eqb a ":" then ("", s) else let '(x, y) := split_colon s in (String a x, y)
  end.

(** [sorted(keys)[0]] *)
Definition least (keys : list string) : string := default "" (head (sort_by str_leb keys)).

Definition _resolved_set (denied permitted : sets) : list string * list conflict :=
  foldl (fun acc ip =>
    let '(ips, cs) := acc in
    match mget permitted ip with
    | Some pkeys =>
        let '(dt, di) := split_colon (least (mget_or denied ip [])) in
        let '(pt, pi) := split_colon (least pkeys) in
        (ips, cs ++ [Conflict ip pt pi dt di])
    | None => (ips ++ [ip], cs)
    end) ([], []) (sort_by str_leb (mkeys denied)).

(** The classification so far. *)
Record classes := Classes { cl_denied : sets; cl_permitted : sets; cl_pdenied : sets; cl_ppermitted : sets; cl_devices : sets }.

Section valid.
Context (doc : dict) (c : CompiledRoles) (revoked : list string) (protected : option string).

Definition seeder : principal := Principal "service" "seeder".
Definition origin_known : bool := valid_protected_seeder_ipv4 protected.

Definition classify (cl : classes) (kpi : string * principal * string) : res classes :=
  let '(key, p, ip) := kpi in
  if bool_decide (protected = Some ip) then Ok cl
  else
    let* deny := denies doc c p ip in
    let current_denied := bool_decide (key ∈ revoked) || deny in
    let cl :=
      if current_denied then Classes (add_to (cl_denied cl) ip key) (cl_permitted cl) (cl_pdenied cl) (cl_ppermitted cl) (cl_devices cl)
      else Classes (cl_denied cl) (add_to (cl_permitted cl) ip key) (cl_pdenied cl) (cl_ppermitted cl) (cl_devices cl) in
    match protected with
    | Some origin =>
        if negb origin_known then Ok cl
        else
          let* prospective :=
            if current_denied then Ok true else let* ok := mutual_permit doc seeder origin p ip (Some c) in Ok (negb ok) in
          let cl :=
            if (prospective : bool) then Classes (cl_denied cl) (cl_permitted cl) (add_to (cl_pdenied cl) ip key) (cl_ppermitted cl) (cl_devices cl)
            else Classes (cl_denied cl) (cl_permitted cl) (cl_pdenied cl) (add_to (cl_ppermitted cl) ip key) (cl_devices cl) in
          Ok (if is_device p then Classes (cl_denied cl) (cl_permitted cl) (cl_pdenied cl) (cl_ppermitted cl) (add_to (cl_devices cl) ip (p_id p)) else cl)
    | None => Ok cl
    end.

Definition _derive_valid (durable pending : snap) : res DerivedSet :=
  let* cl := res_fold classify (Classes [] [] [] [] []) (_endpoint_ips durable ++ _endpoint_ips pending) in
  let '(denied, cs) := _resolved_set (cl_denied cl) (cl_permitted cl) in
  if negb origin_known then Ok (Derived denied cs true false None None None)
  else
    let '(pdenied, pcs) := _resolved_set (cl_pdenied cl) (cl_ppermitted cl) in
    let newly := filter (fun ip => ip ∉ denied) pdenied in
    let ids := sort_by str_leb (remove_dups (flat_map (fun ip => mget_or (cl_devices cl) ip []) newly)) in
    Ok (Derived (sort_by str_leb denied) cs true false (Some (sort_by str_leb pdenied)) (Some pcs) (Some ids)).
End valid.

(** An entry of [active_participants]. *)
Record participant := Participant { a_type : option string; a_ipv4 : option string }.

Definition _derive_emergency (durable pending : snap) (active : list participant) (protected : option string) : DerivedSet :=
  let known := flat_map (fun kpi => let '(_, p, ip) := kpi in
    if is_service p then [] else if bool_decide (protected = Some ip) then [] else [ip]) (_endpoint_ips durable ++ _endpoint_ips pending) in
  let seen := flat_map (fun a =>
    match a_ipv4 a with
    | Some ip =>
        if String.eqb ip "" || bool_decide (protected = Some ip) then []
        else if bool_decide (a_type a = Some "service") then [] else [ip]
    | None => []
    end) active in
  let denied := sort_by str_leb (remove_dups (known ++ seen)) in
  Derived denied [] (bool_decide (denied <> [])) true None None None.

Definition derive_denied_set (policy : PolicyResult) (durable pending : snap) (active : list participant) (revoked : list string)
    (protected : option string) : res DerivedSet :=
  if pr_fail_closed policy then Ok (_derive_emergency durable pending active protected)
  else _derive_valid (pr_document policy) (pr_roles policy) revoked protected durable pending.

(** ** Application *)

Fixpoint join_lines (l : list string) : string :=
  match l with
  | [] => ""
  | [x] => x
  | x :: l => x +:+ String "010" (join_lines l)
  end.

Definition canonical_hash (ips : list string) : string :=
  String.substring 0 16 (sha256_hexdigest (join_lines (sort_by str_leb (remove_dups ips)))).

Definition _validate_ips (ips : list string) : res unit := res_iter (fun ip => let* _ := IPv4Address ip in Ok tt) ips.

Record ApplyOutcome := Outcome {
  o_applied : bool; o_success : bool; o_session : option string; o_desired_hash : string; o_revision : pyval;
  o_effect : option (pyval * pyval); o_error : option string }.

(** The adapter of the seeder's RPC. *)
Record aria (S : Type) := Aria { get_session_id : sm S string; set_blocklist : list string -> sm S dict }.
Arguments get_session_id {S} _.
Arguments set_blocklist {S} _ _.

Definition _safe_session_id {S} (a : aria S) : S -> option string * S := fun s =>
  match get_session_id a s with (Ok id, s) => (Some id, s) | (Err _, s) => (None, s) end.

(** [session] is given, or asked for. *)
Definition apply_blocklist {S} (a : aria S) (ips : list string) (empty_ok : bool) (session : option (option string)) : sm S ApplyOutcome := fun s =>
  match _validate_ips ips with
  | Err e => (Err e, s)
  | Ok _ =>
      let ordered := sort_by str_leb (remove_dups ips) in
      let desired := canonical_hash ordered in
      match ordered, empty_ok with
      | [], false => (Ok (Outcome false false None desired VNone None None), s)
      | _, _ =>
          let '(session, s) := match session with Some given => (given, s) | None => _safe_session_id a s end in
          match set_blocklist a ordered s with
          | (Err _, s) => (Ok (Outcome true false session desired VNone None (Some PEER_BLOCKLIST_APPLY_FAILED)), s)
          | (Ok ret, s) =>
              (Ok (Outcome true true session desired (dget_or ret "revision" VNone)
                (Some (dget_or ret "disconnectedPeers" (VInt 0), dget_or ret "removedPeers" (VInt 0))) None), s)
          end
      end
  end.
