(* ===== verification/BlocklistSpec.v ===== *)
(** * Which addresses are blocked

    On an accepted policy the desired list is exactly the addresses of refused
    principals that no accepted principal shares; without a policy it is every known
    address but the seeder's; and an endpoint of a refused principal keeps its address
    on the list however long the principal stays silent. *)
From S2P Require Import Prelude PyVal JsonDump Ipv4 PolicyDoc PolicySample PolicyValid PolicyEval PolicyEvalSpec PolicyStore.
From S2P Require Import KeyedState KeyedSpec SchedValid WaveGate Odict PeerRegistry RegistryIndex PeerEndpoints EndpointSpec Blocklist.

(** ** Dicts of sets *)

Record sets_ok (d : sets) (R : string -> string -> Prop) : Prop := {
  sk_nodup : NoDup (mkeys d);
  sk_some : forall ip, is_Some (mget d ip) <-> exists x, R ip x;
  sk_elem : forall ip x, x ∈ mget_or d ip [] <-> R ip x }.

Lemma sets_empty : sets_ok [] (fun _ _ => False).
Proof.
  split; [constructor | intros ip; split; [by intros [] | by intros []] | intros ip x; split; [intros H; by apply elem_of_nil in H | done]].
Qed.

Lemma sets_ext d R R' : (forall ip x, R' ip x <-> R ip x) -> sets_ok d R -> sets_ok d R'.
Proof. intros H [A B C]. split; [done | intros ip; rewrite B; by setoid_rewrite H | intros ip x; by rewrite C, H]. Qed.

Lemma sets_add d R ip x : sets_ok d R -> sets_ok (add_to d ip x) (fun i y => R i y \/ (i = ip /\ y = x)).
Proof.
  intros [A B C]. unfold add_to. set (members := mget_or d ip []).
  set (l := if decide (x ∈ members) then members else members ++ [x]).
  assert (Hl : forall y, y ∈ l <-> R ip y \/ y = x).
  { intros y. subst l members. destruct (decide _) as [Hx | Hx]; [rewrite C; split; [by left | intros [? | ->]; [done | by apply C]] |].
    rewrite elem_of_app, list_elem_of_singleton, C. done. }
  split.
  - by apply NoDup_mset.
  - intros i. rewrite mget_mset. destruct (decide (ip = i)) as [<- | Hi].
    + split; [intros _; exists x; by right | by eexists].
    + rewrite B. split; [intros [y Hy]; exists y; by left | intros [y [Hy | [-> _]]]; [by exists y | done]].
  - intros i y. rewrite mget_or_mset. destruct (decide (ip = i)) as [<- | Hi].
    + rewrite Hl. naive_solver.
    + rewrite C. naive_solver.
Qed.

Lemma sets_none d R ip : sets_ok d R -> mget d ip = None <-> ~ exists x, R ip x.
Proof. intros [_ B _]. rewrite <- B. destruct (mget d ip); [split; [done | intros H; destruct H; by eexists] | split; [by intros _ [] | done]]. Qed.

(** ** Conflicts *)

Lemma resolved_fold denied permitted ips acc cs :
  fst (foldl (fun acc ip =>
    let '(ips, cs) := acc in
    match mget permitted ip with
    | Some pkeys =>
        let '(dt, di) := split_colon (least (mget_or denied ip [])) in
        let '(pt, pi) := split_colon (least pkeys) in
        (ips, cs ++ [Conflict ip pt pi dt di])
    | None => (ips ++ [ip], cs)
    end) (acc, cs) ips) = acc ++ filter (fun ip => mget permitted ip = None) ips.
Proof.
  revert acc cs. induction ips as [| ip ips IH]; intros acc cs; cbn [foldl]; [by rewrite app_nil_r |]. rewrite filter_cons.
  destruct (mget permitted ip) as [pkeys |] eqn:E.
  - rewrite decide_False by done. destruct (split_colon (least (mget_or denied ip []))), (split_colon (least pkeys)). apply IH.
  - rewrite decide_True by done. rewrite IH, <- app_assoc. done.
Qed.

Lemma resolved_ips denied permitted :
  fst (_resolved_set denied permitted) = filter (fun ip => mget permitted ip = None) (sort_by str_leb (mkeys denied)).
Proof. unfold _resolved_set. apply (resolved_fold denied permitted _ [] []). Qed.

Lemma resolved_elem denied permitted D P ip :
  sets_ok denied D -> sets_ok permitted P -> ip ∈ fst (_resolved_set denied permitted) <-> (exists x, D ip x) /\ ~ exists x, P ip x.
Proof.
  intros HD HP. rewrite resolved_ips, list_elem_of_filter, sort_by_elem, mkeys_elem, (sk_some _ _ HD), (sets_none _ _ _ HP). tauto.
Qed.

Lemma resolved_nodup denied permitted D : sets_ok denied D -> NoDup (fst (_resolved_set denied permitted)).
Proof. intros HD. rewrite resolved_ips. apply NoDup_filter. rewrite sort_by_perm. apply (sk_nodup _ _ HD). Qed.

(** ** The classification *)

Section accepted.
Context (ttl : Z) (doc : dict) (c : CompiledRoles) (revoked : list string) (protected : option string).
Hypothesis Hacc : accepted ttl doc.
Hypothesis Hc : compile_roles doc = Ok c.

Lemma verdict_now owner subject ip : evaluate_for doc owner subject ip (Some c) = Ok (verdict_val (spec_verdict doc owner subject ip)).
Proof. destruct (accepted_view ttl doc Hacc) as (c' & Hc' & H). rewrite Hc in Hc'. injection Hc' as <-. apply H. by right. Qed.

Lemma denies_spec p ip : denies doc c p ip = Ok (negb (fst (spec_verdict doc p p ip))).
Proof. unfold denies, evaluate. rewrite verdict_now. cbn [mbind res_bind]. by destruct (spec_verdict doc p p ip) as [[] seq]. Qed.

Lemma mutual_now a ia b ib : mutual_permit doc a ia b ib (Some c) = Ok (spec_mutual doc a ia b ib).
Proof.
  unfold mutual_permit, spec_mutual. destruct (truth _); [done |]. rewrite !verdict_now. cbn [mbind res_bind fst verdict_val negb andb].
  by destruct (fst (spec_verdict doc a b ib)), (fst (spec_verdict doc b a ia)).
Qed.

(** A principal refused at an address: revoked, or denied by its own ACL. *)
Definition refused (key : string) (p : principal) (ip : string) : bool :=
  bool_decide (key ∈ revoked) || negb (fst (spec_verdict doc p p ip)).
(** ... or one that the origin and it do not mutually accept. *)
Definition refused_next (origin key : string) (p : principal) (ip : string) : bool :=
  refused key p ip || negb (spec_mutual doc seeder origin p ip).

(** The endpoints that satisfy [f], other than the protected address. *)
Definition classed (l : list (string * principal * string)) (f : string -> principal -> string -> bool) (ip key : string) : Prop :=
  protected <> Some ip /\ exists p, (key, p, ip) ∈ l /\ f key p ip = true.

Lemma classed_snoc l f k p i ip key :
  classed (l ++ [(k, p, i)]) f ip key <-> classed l f ip key \/ (ip = i /\ key = k /\ protected <> Some i /\ f k p i = true).
Proof.
  unfold classed. split.
  - intros [Hp (q & [Hin | Hin%list_elem_of_singleton]%elem_of_app & Hf)]; [left; eauto |]. injection Hin as -> -> ->. right. done.
  - intros [[Hp (q & Hin & Hf)] | (-> & -> & Hp & Hf)]; (split; [done |]); [exists q | exists p]; (split; [apply elem_of_app | done]); [by left | right; by left].
Qed.

Definition classes_ok (l : list (string * principal * string)) (cl : classes) : Prop :=
  sets_ok (cl_denied cl) (classed l refused) /\ sets_ok (cl_permitted cl) (classed l (fun k p i => negb (refused k p i))) /\
  forall origin, protected = Some origin -> origin_known protected = true ->
    sets_ok (cl_pdenied cl) (classed l (refused_next origin)) /\
    sets_ok (cl_ppermitted cl) (classed l (fun k p i => negb (refused_next origin k p i))).

Lemma sets_step d l f k p i :
  sets_ok d (classed l f) -> protected <> Some i ->
  sets_ok (if f k p i then add_to d i k else d) (classed (l ++ [(k, p, i)]) f).
Proof.
  intros Hd Hp. destruct (f k p i) eqn:E.
  - eapply sets_ext; [| apply sets_add, Hd]. intros ip key. rewrite classed_snoc. naive_solver.
  - eapply sets_ext; [| exact Hd]. intros ip key. rewrite classed_snoc. naive_solver congruence.
Qed.

Lemma sets_protected d l f k p i : sets_ok d (classed l f) -> protected = Some i -> sets_ok d (classed (l ++ [(k, p, i)]) f).
Proof. intros Hd Hp. eapply sets_ext; [| exact Hd]. intros ip key. rewrite classed_snoc. naive_solver. Qed.

Lemma classify_step l cl k p i :
  classes_ok l cl -> exists cl', classify doc c revoked protected cl (k, p, i) = Ok cl' /\ classes_ok (l ++ [(k, p, i)]) cl'.
Proof.
  intros (H1 & H2 & H3). unfold classify. case_bool_decide as Hp.
  { exists cl. split; [done |]. split_and!; [by apply sets_protected | by apply sets_protected |].
    intros origin Ho Hk. destruct (H3 origin Ho Hk). split; by apply sets_protected. }
  rewrite denies_spec. cbn [mbind res_bind]. fold (refused k p i).
  pose proof (sets_step _ _ refused k p i H1 Hp) as S1.
  pose proof (sets_step _ _ (fun k p i => negb (refused k p i)) k p i H2 Hp) as S2. cbn beta in S2.
  assert (Hcase : (exists origin, protected = Some origin) \/ protected = None) by (destruct protected; eauto).
  destruct Hcase as [[origin Eo] | Eo]; rewrite Eo.
  2:{ eexists. split; [done |]. destruct (refused k p i); (split; [exact S1 | split; [exact S2 |]]); intros o Ho; congruence. }
  destruct (origin_known (Some origin)) eqn:Ek; cbn [negb].
  2:{ eexists. split; [done |]. destruct (refused k p i); (split; [exact S1 | split; [exact S2 |]]); intros o Ho Hk; congruence. }
  destruct (H3 origin) as [H4 H5]; [congruence | congruence |]. pose proof (sets_step _ _ (refused_next origin) k p i H4 Hp) as S4.
  pose proof (sets_step _ _ (fun k p i => negb (refused_next origin k p i)) k p i H5 Hp) as S5. cbn beta in S5.
  assert (Hnext : (if refused k p i then Ok true else let* ok := mutual_permit doc seeder origin p i (Some c) in Ok (negb ok)) = Ok (refused_next origin k p i)).
  { unfold refused_next. destruct (refused k p i); [done |]. by rewrite mutual_now. }
  rewrite Hnext. cbn [mbind res_bind].
  eexists. split; [done |]. split; [| split].
  - destruct (refused k p i), (refused_next origin k p i), (is_device p); exact S1.
  - destruct (refused k p i), (refused_next origin k p i), (is_device p); exact S2.
  - intros o Ho _. assert (o = origin) as -> by congruence. split.
    + destruct (refused k p i), (refused_next origin k p i), (is_device p); exact S4.
    + destruct (refused k p i), (refused_next origin k p i), (is_device p); exact S5.
Qed.

Lemma classify_fold l k cl :
  classes_ok k cl -> exists cl', res_fold (classify doc c revoked protected) cl l = Ok cl' /\ classes_ok (k ++ l) cl'.
Proof.
  revert k cl. induction l as [| [[key p] ip] l IH]; intros k cl Hcl; cbn [res_fold]; [exists cl; by rewrite app_nil_r |].
  destruct (classify_step k cl key p ip Hcl) as (cl1 & -> & H1). cbn [mbind res_bind]. destruct (IH _ _ H1) as (cl' & -> & H2).
  exists cl'. split; [done |]. by rewrite <- app_assoc in H2.
Qed.

Lemma classes_start : classes_ok [] (Classes [] [] [] [] []).
Proof.
  assert (H : forall f, sets_ok [] (classed [] f)).
  { intros f. eapply sets_ext; [| exact sets_empty]. intros ip key. split; [intros [_ (p & Hin & _)]; by apply elem_of_nil in Hin | done]. }
  split; [apply H | split; [apply H |]]. intros origin _ _. split; apply H.
Qed.

(** The endpoints the derivation considers. *)
Definition observed (durable pending : snap) : list (string * principal * string) := _endpoint_ips durable ++ _endpoint_ips pending.

Definition blocked (l : list (string * principal * string)) (f : string -> principal -> string -> bool) (ip : string) : Prop :=
  (exists key, classed l f ip key) /\ ~ exists key, classed l (fun k p i => negb (f k p i)) ip key.

Lemma derive_valid_state durable pending :
  exists d, _derive_valid doc c revoked protected durable pending = Ok d /\ apply_empty d = true /\ ds_fail_closed d = false /\ NoDup (denied_ips d) /\
    (forall ip, ip ∈ denied_ips d <-> blocked (observed durable pending) refused ip) /\
    (forall origin, protected = Some origin -> origin_known protected = true ->
      exists next, prospective_denied_ips d = Some next /\ forall ip, ip ∈ next <-> blocked (observed durable pending) (refused_next origin) ip).
Proof.
  unfold _derive_valid. fold (observed durable pending). destruct (classify_fold (observed durable pending) [] _ classes_start) as (cl & -> & H1 & H2 & H3).
  cbn [app] in H1, H2, H3. cbn [mbind res_bind]. pose proof (fun ip => resolved_elem _ _ _ _ ip H1 H2) as Hel.
  pose proof (resolved_nodup _ (cl_permitted cl) _ H1) as Hn. destruct (_resolved_set (cl_denied cl) (cl_permitted cl)) as [denied cs]. cbn [fst] in Hel, Hn.
  destruct (origin_known protected) eqn:Ek; cbn [negb].
  - assert (Hcase : exists origin, protected = Some origin) by (destruct protected; [eauto | discriminate Ek]). destruct Hcase as [origin Eo]. destruct (H3 origin) as [H4 H5]; [congruence | congruence |].
    pose proof (fun ip => resolved_elem _ _ _ _ ip H4 H5) as Hel'. destruct (_resolved_set (cl_pdenied cl) (cl_ppermitted cl)) as [pdenied pcs]. cbn [fst] in Hel'.
    eexists. split; [reflexivity |]. split; [done |]. split; [done |]. split; [cbn [denied_ips]; by rewrite sort_by_perm |].
    split; [intros ip; cbn [denied_ips]; by rewrite sort_by_elem, Hel |]. intros o Ho _. assert (o = origin) as -> by congruence. eexists. split; [reflexivity |].
    intros ip. by rewrite sort_by_elem, Hel'.
  - eexists. split; [reflexivity |]. split; [done |]. split; [done |]. split; [done |]. split; [exact Hel |]. done.
Qed.
End accepted.

(** ** Properties *)

(** C21: on an accepted policy the derivation returns, and an address is on the desired
    list exactly when some observed principal there is refused (its credentials are
    revoked, or its own ACL denies it at that address), no observed principal there is
    accepted, and it is not the protected address of the seeder; an empty list is a real
    list, to be applied. *)
Theorem blocklist_exact ttl policy durable pending active revoked protected :
  accepted ttl (pr_document policy) -> compile_roles (pr_document policy) = Ok (pr_roles policy) -> pr_fail_closed policy = false ->
  exists d, derive_denied_set policy durable pending active revoked protected = Ok d /\ apply_empty d = true /\ NoDup (denied_ips d) /\
    forall ip, ip ∈ denied_ips d <->
      protected <> Some ip /\
      (exists key p, (key, p, ip) ∈ observed durable pending /\ refused (pr_document policy) revoked key p ip = true) /\
      forall key p, (key, p, ip) ∈ observed durable pending -> refused (pr_document policy) revoked key p ip = true.
Proof.
  intros Hacc Hc Hf. unfold derive_denied_set. rewrite Hf.
  destruct (derive_valid_state ttl (pr_document policy) (pr_roles policy) revoked protected Hacc Hc durable pending) as (d & -> & H1 & H2 & H3 & H4 & _).
  exists d. split; [done |]. split; [done |]. split; [done |]. intros ip. rewrite H4. unfold blocked, classed. split.
  - intros [(key & Hp & p & Hin & Hr) Hno]. split; [done |]. split; [by exists key, p |]. intros key' p' Hin'. apply not_false_iff_true. intros Hn.
    apply Hno. exists key'. split; [done |]. exists p'. split; [done |]. by rewrite Hn.
  - intros (Hp & (key & p & Hin & Hr) & Hall). split; [exists key; split; [done | by exists p] |]. intros (key' & _ & p' & Hin' & Hn).
    rewrite (Hall key' p' Hin') in Hn. discriminate Hn.
Qed.

(** Without a usable policy the derivation never clears the list: it holds every
    known address of a principal that is not a service, the protected address apart, and
    nothing is applied when no address is known. *)
Theorem emergency_exact policy durable pending active revoked protected :
  pr_fail_closed policy = true ->
  exists d, derive_denied_set policy durable pending active revoked protected = Ok d /\ NoDup (denied_ips d) /\
    (apply_empty d = true <-> denied_ips d <> []) /\
    forall ip, ip ∈ denied_ips d <->
      protected <> Some ip /\
      ((exists key p, (key, p, ip) ∈ observed durable pending /\ is_service p = false) \/
       (exists a, a ∈ active /\ a_ipv4 a = Some ip /\ ip <> "" /\ a_type a <> Some "service")).
Proof.
  intros Hf. unfold derive_denied_set. rewrite Hf. eexists. split; [reflexivity |]. unfold _derive_emergency. cbn [denied_ips apply_empty].
  split; [rewrite sort_by_perm; apply NoDup_remove_dups |]. split; [apply bool_decide_eq_true |]. intros ip.
  rewrite sort_by_elem, elem_of_remove_dups, elem_of_app. fold (observed durable pending). rewrite !list_elem_of_In, !in_flat_map. split.
  - intros [([[key p] i] & Hin & Hi) | (a & Hin & Hi)].
    + destruct (is_service p) eqn:Es; [done |]. case_bool_decide; [done |]. destruct Hi as [-> | []]. split; [done |]. left. exists key, p.
      split; [by apply list_elem_of_In | done].
    + destruct (a_ipv4 a) as [i |] eqn:Ei; [| done]. destruct (String.eqb_spec i "") as [-> | Hne]; [done |]. cbn [orb] in Hi.
      case_bool_decide; [done |]. case_bool_decide; [done |]. destruct Hi as [-> | []]. split; [done |]. right. exists a.
      split; [by apply list_elem_of_In | done].
  - intros [Hp [(key & p & Hin & Hs) | (a & Hin & Hi & Hne & Ht)]].
    + left. exists (key, p, ip). split; [by apply list_elem_of_In |]. rewrite Hs, bool_decide_false by done. by left.
    + right. exists a. split; [by apply list_elem_of_In |]. rewrite Hi. destruct (String.eqb_spec ip ""); [done |]. cbn [orb].
      rewrite !bool_decide_false by done. by left.
Qed.

(** ** Retention *)

(** The typed rows of a fresh view. *)
Definition read_snap (d : dict) : snap :=
  map (fun kv => (fst kv, SnapRow (Principal (text_of (field (snd kv) "principal_type")) (text_of (field (snd kv) "principal_id")))
    (omap (fun e => as_str (field e "ipv4")) (endpoints_of (snd kv))))) d.

(** [denied_retention] as the predicate of the endpoint store. *)
Definition retention (policy : PolicyResult) (revoked : list string) : keep_t := fun ptype pid ipv4 =>
  match ipv4 with VStr s => denied_retention policy revoked ptype pid s | _ => Err (TypeError "address") end.

Lemma retained ttl policy revoked p ip :
  accepted ttl (pr_document policy) -> compile_roles (pr_document policy) = Ok (pr_roles policy) -> pr_fail_closed policy = false ->
  refused (pr_document policy) revoked (principal_key p) p ip = true ->
  retention policy revoked (p_type p) (p_id p) (VStr ip) = Ok true.
Proof.
  intros Hacc Hc Hf Hr. cbn. unfold denied_retention. fold (principal_key p). unfold refused in Hr. rewrite Hf.
  destruct (decide (principal_key p ∈ revoked)) as [Hin | Hin]; [done |]. rewrite bool_decide_false in Hr by done. cbn [orb] in Hr.
  destruct p as [ty id]. cbn [p_type p_id]. rewrite (denies_spec ttl) by done. by rewrite Hr.
Qed.

Lemma read_snap_elem d key row p ip :
  dget d key = Some row -> p = Principal (text_of (field row "principal_type")) (text_of (field row "principal_id")) ->
  (exists e, e ∈ endpoints_of row /\ field e "ipv4" = VStr ip) -> (key, p, ip) ∈ _endpoint_ips (read_snap d).
Proof.
  intros Hd -> (e & He & Hip). apply list_elem_of_In. unfold _endpoint_ips, read_snap. apply in_flat_map. eexists. split.
  - apply in_map_iff. exists (key, row). split; [reflexivity |]. apply list_elem_of_In. by apply dget_elem.
  - cbn [fst snd sn_who sn_ips]. apply in_map_iff. exists ip. split; [done |]. apply list_elem_of_In, list_elem_of_omap. exists e. by rewrite Hip.
Qed.

(** A refused principal cannot outwait its block: however old its endpoint is, after
    the maintenance prune with the retention rule the fresh view still shows it, and its
    address is on the desired list unless an accepted principal shares it or it is the
    protected one. *)
Theorem refused_block_survives guard_ok ttl policy revoked protected now s p row ep ip pending active :
  tidy s -> accepted ttl (pr_document policy) -> compile_roles (pr_document policy) = Ok (pr_roles policy) -> pr_fail_closed policy = false ->
  zlen (survivors ttl now (Some (retention policy revoked)) (all_rows s)) <= MAX_PRINCIPALS ->
  view SHARD_COUNT s (principal_key p) = Some row -> field row "principal_type" = VStr (p_type p) -> field row "principal_id" = VStr (p_id p) ->
  ep ∈ endpoints_of row -> field ep "ipv4" = VStr ip ->
  refused (pr_document policy) revoked (principal_key p) p ip = true ->
  exists s' d ds, endpoints_prune guard_ok ttl now (Some (retention policy revoked)) s = (Ok tt, s') /\
    fst (fresh_endpoints guard_ok ttl now (Some (retention policy revoked)) s') = Ok d /\
    derive_denied_set policy (read_snap d) pending active revoked protected = Ok ds /\
    (protected <> Some ip ->
     (forall key q, (key, q, ip) ∈ observed (read_snap d) pending -> refused (pr_document policy) revoked key q ip = true) ->
     ip ∈ denied_ips ds).
Proof.
  intros Ht Hacc Hc Hf Hcap Hrow Hty Hid Hep Hip Href. set (keep := Some (retention policy revoked)) in *.
  destruct (prune_state guard_ok ttl now keep s (proj1 Ht) (or_introl Hcap)) as (s' & vs & E & Hok & Hn & Hl & Hsub & Hv).
  destruct (fresh_endpoints_state guard_ok ttl now keep s' Hok) as (d & s2 & E2 & _ & _ & _ & Hd).
  destruct (derive_valid_state ttl (pr_document policy) (pr_roles policy) revoked protected Hacc Hc (read_snap d) pending) as (ds & Hds & _ & _ & _ & Hel & _).
  exists s', d, ds. split; [done |]. split; [by rewrite E2 |]. split; [unfold derive_denied_set; by rewrite Hf |]. intros Hp Hall. apply Hel.
  assert (Hz : vs = []) by (assert (length vs = 0%nat) by (rewrite Hl; unfold excess; lia); by destruct vs).
  specialize (Hv (principal_key p)). rewrite Hz, bool_decide_false in Hv by apply not_elem_of_nil.
  assert (Hfr : ep ∈ fresh_of now ttl keep row).
  { apply list_elem_of_filter. split; [| done]. unfold _is_fresh. destruct (num_leb _ _); [done |]. subst keep. rewrite Hty, Hid, Hip. cbn [text_of as_str default from_option id].
    by rewrite (retained ttl). }
  assert (Hview : dget d (principal_key p) = Some (fresh_row row (fresh_of now ttl keep row))).
  { rewrite Hd, (fresh_view_pruned _ _ _ _ _ Hv), Hrow. unfold fresh_view. cbn. destruct (fresh_of now ttl keep row); [by apply elem_of_nil in Hfr | done]. }
  assert (Hin : (principal_key p, p, ip) ∈ observed (read_snap d) pending).
  { apply elem_of_app. left. eapply read_snap_elem; [exact Hview | |].
    - unfold fresh_row. cbn [field dget_or dget String.eqb]. cbn. rewrite Hty, Hid. by destruct p.
    - exists ep. split; [exact Hfr | done]. }
  split; [exists (principal_key p); split; [done | by exists p] |]. intros (key & _ & q & Hq & Hn'). by rewrite (Hall key q Hq) in Hn'.
Qed.

(** The seeder's list is replaced only by the desired list: an outcome reports success
    exactly when the RPC was called with the sorted desired addresses and returned; an
    RPC error is a failed application, never a success; and with nothing to apply and no
    valid policy the RPC is not called at all. *)
Theorem apply_blocklist_sound {S} (a : aria S) ips empty_ok given s :
  Forall (fun ip => is_Some (parse_ipv4 ip)) ips ->
  let desired := sort_by str_leb (remove_dups ips) in
  if bool_decide (desired = []) && negb empty_ok
  then apply_blocklist a ips empty_ok (Some given) s = (Ok (Outcome false false None (canonical_hash desired) VNone None None), s)
  else exists o, apply_blocklist a ips empty_ok (Some given) s = (Ok o, snd (set_blocklist a desired s)) /\ o_applied o = true /\
    o_session o = given /\ o_desired_hash o = canonical_hash desired /\
    (o_success o = true <-> is_ok (fst (set_blocklist a desired s)) = true) /\
    (o_error o = None <-> o_success o = true).
Proof.
  intros HF desired. assert (Hv : _validate_ips ips = Ok tt).
  { unfold _validate_ips. apply res_iter_ok. eapply Forall_impl; [exact HF |]. intros ip [z Hz]. unfold IPv4Address. by rewrite Hz. }
  unfold apply_blocklist. rewrite Hv. fold desired.
  assert (Hcall : forall l, exists o,
    match set_blocklist a l s with
    | (Err _, s) => (Ok (Outcome true false given (canonical_hash l) VNone None (Some PEER_BLOCKLIST_APPLY_FAILED)), s)
    | (Ok ret, s) =>
        (Ok (Outcome true true given (canonical_hash l) (dget_or ret "revision" VNone)
          (Some (dget_or ret "disconnectedPeers" (VInt 0), dget_or ret "removedPeers" (VInt 0))) None), s)
    end = (Ok o, snd (set_blocklist a l s)) /\ o_applied o = true /\ o_session o = given /\ o_desired_hash o = canonical_hash l /\
    (o_success o = true <-> is_ok (fst (set_blocklist a l s)) = true) /\ (o_error o = None <-> o_success o = true)).
  { intros l. destruct (set_blocklist a l s) as [[ret | e] s']; eexists; (split; [reflexivity |]); done. }
  destruct desired as [| x l]; [destruct empty_ok |]; cbn [andb negb].
  - rewrite andb_false_r. apply Hcall.
  - rewrite bool_decide_true by done. reflexivity.
  - rewrite bool_decide_false by done. destruct empty_ok; apply Hcall.
Qed.

(** ** Witnesses *)

Definition no_roles : CompiledRoles := {| acl_by_role := []; role_of := []; restricted := []; sorted_rules := []; members_by_role := [] |}.
Definition sample_compiled : CompiledRoles := match compile_roles sample_doc with Ok c => c | Err _ => no_roles end.
Definition sample_policy (fail_closed : bool) : PolicyResult :=
  {| pr_document := sample_doc; pr_degraded := false; pr_fail_closed := fail_closed; pr_roles := sample_compiled |}.
Lemma sample_policy_compiles : compile_roles (pr_document (sample_policy false)) = Ok (pr_roles (sample_policy false)).
Proof. by vm_compute. Qed.

(** The quarantined device alone at one address, and with an accepted device at another. *)
Definition sample_snap : snap :=
  [("device:bad", SnapRow (Principal "device" "bad") ["10.0.0.9"; "10.0.0.8"]); ("device:x1", SnapRow (Principal "device" "x1") ["10.0.0.8"])].

Lemma blocklist_exact_witness :
  exists d, derive_denied_set (sample_policy false) sample_snap [] [] [] (Some "10.0.0.1") = Ok d /\ denied_ips d = ["10.0.0.9"] /\
    apply_empty d = true /\ NoDup (denied_ips d).
Proof.
  destruct (blocklist_exact 900 (sample_policy false) sample_snap [] [] [] (Some "10.0.0.1")) as (d & E & H1 & H2 & _);
    [apply sample_accepted | exact sample_policy_compiles | done |].
  exists d. split; [exact E |]. split; [| split; assumption].
  assert (Hx : match derive_denied_set (sample_policy false) sample_snap [] [] [] (Some "10.0.0.1") with Ok d => denied_ips d | Err _ => [] end = ["10.0.0.9"]) by by_eval.
  rewrite E in Hx. exact Hx.
Defined.

Lemma emergency_exact_witness :
  exists d, derive_denied_set (sample_policy true) sample_snap [] [Participant (Some "device") (Some "10.0.0.7")] [] (Some "10.0.0.1") = Ok d /\
    denied_ips d = ["10.0.0.7"; "10.0.0.8"; "10.0.0.9"] /\ (apply_empty d = true <-> denied_ips d <> []).
Proof.
  destruct (emergency_exact (sample_policy true) sample_snap [] [Participant (Some "device") (Some "10.0.0.7")] [] (Some "10.0.0.1")) as (d & E & _ & H & _);
    [done |].
  exists d. split; [exact E |]. split; [| exact H].
  assert (Hx : match derive_denied_set (sample_policy true) sample_snap [] [Participant (Some "device") (Some "10.0.0.7")] [] (Some "10.0.0.1") with
    Ok d => denied_ips d | Err _ => [] end = ["10.0.0.7"; "10.0.0.8"; "10.0.0.9"]) by by_eval.
  rewrite E in Hx. exact Hx.
Defined.

Definition bad_row : kstate := snd (record_endpoint true (Principal "device" "bad") "10.0.0.9" 6881 (FFin 100 0) empty_store).
Definition bad_entry : pyval := default VNone (view SHARD_COUNT bad_row "device:bad").

Lemma refused_block_survives_witness :
  let keep := Some (retention (sample_policy false) []) in
  exists s' d ds, endpoints_prune true 900 (FFin 1000000 0) keep bad_row = (Ok tt, s') /\
    fst (fresh_endpoints true 900 (FFin 1000000 0) keep s') = Ok d /\
    derive_denied_set (sample_policy false) (read_snap d) [] [] [] None = Ok ds /\
    (None <> Some "10.0.0.9" ->
     (forall key q, (key, q, "10.0.0.9") ∈ observed (read_snap d) [] -> refused sample_doc [] key q "10.0.0.9" = true) -> "10.0.0.9" ∈ denied_ips ds).
Proof.
  apply (refused_block_survives true 900 (sample_policy false) [] None (FFin 1000000 0) bad_row (Principal "device" "bad") bad_entry
    (default VNone (head (endpoints_of bad_entry))) "10.0.0.9" [] []).
  - apply tidy_record; [apply tidy_empty |]. split; [vm_compute; by eexists | lia | by eexists _, _].
  - apply sample_accepted.
  - exact sample_policy_compiles.
  - done.
  - by vm_compute.
  - by vm_compute.
  - by vm_compute.
  - by vm_compute.
  - vm_compute. by left.
  - by vm_compute.
  - by vm_compute.
Defined.

(** An RPC that logs its calls and refuses one list. *)
Definition logged : aria (list (list string)) :=
  Aria _ (fun s => (Ok "session-1", s)) (fun l s => (if (zlen l =? 1) then Ok [("revision", VInt 7)] else Err (OSError "rpc"), s ++ [l])).

Lemma apply_blocklist_sound_witness :
  exists o, apply_blocklist logged ["10.0.0.9"; "10.0.0.9"] true (Some (Some "session-1")) [] = (Ok o, [["10.0.0.9"]]) /\ o_success o = true /\ o_error o = None.
Proof.
  pose proof (apply_blocklist_sound logged ["10.0.0.9"; "10.0.0.9"] true (Some "session-1") []) as H.
  destruct H as (o & E & _ & _ & _ & H1 & H2); [repeat constructor; vm_compute; by eexists |].
  exists o. split; [exact E |]. assert (Hs : o_success o = true) by (apply H1; by vm_compute). split; [done | by apply H2].
Defined.
