(* ===== verification/Tracker.v ===== *)
(** * [server/tracker.py]: who is told about whom

    The announce handler: attribution of legacy credentials, the pacing values, the
    policy filter of candidate discovery with its sparse candidate indexes, the durable
    endpoint write and the disclosure record.

    The socket address, the authenticated principal and the parsed query are inputs; so
    are the writers the constructor lets its caller inject.  The registry counts time in
    ticks of the same clock. *)
From S2P Require Import Prelude PyVal PolicyDoc PolicyQos PolicyRoles PolicyEval PolicyStore KeyedState WaveGate.
From S2P Require Import Odict PeerRegistry PeerEndpoints Blocklist.

Definition MIN_INTERVAL : Z := 10.
Definition MAX_INTERVAL : Z := 300.

(** [int(round(x))] *)
Definition round_int (f : pyfloat) : Z :=
  match f with FFin m e => if 0 <=? e then m * 2 ^ e else round_shift m (- e) | _ => 0 end.

(** [factor] is the random jitter of this announce. *)
Definition jittered_interval (interval : Z) (factor : pyfloat) : Z :=
  Z.max MIN_INTERVAL (Z.min MAX_INTERVAL (round_int (times (VFloat factor) interval))).

(** ** Legacy attribution *)

Record LegacyAttributions := Attributions { by_ip : odict string (list principal); unreadable : bool; at_revoked : list string }.

Definition _bounded_legacy_retention (policy : PolicyResult) (revoked : list string) (role_active : bool)
    (ptype pid ipv4 : string) : res bool :=
  if decide (ptype +:+ ":" +:+ pid ∈ revoked) then Ok true
  else if pr_fail_closed policy || negb (String.eqb ptype "device") then Ok false
  else
    let* deny := denies (pr_document policy) (pr_roles policy) (Principal ptype pid) ipv4 in
    if (deny : bool) then Ok true
    else
      let role := dget_or (role_of (pr_roles policy)) pid VNone in
      if role_active then in_set role (restricted (pr_roles policy)) else Ok false.

(** [float + int] *)
Definition fadd_int (f : pyfloat) (z : Z) : pyfloat :=
  match f with FFin m e => let l := Z.min e 0 in round64 (m * 2 ^ (e - l) + z * 2 ^ (- l)) l | f => f end.
Definition positive (f : pyfloat) : bool := match num_cmp (FFin 0 0) f with Some Lt => true | _ => false end.

(** The last instant a record of a previous seeder token can authenticate. *)
Definition token_deadline (grace : Z) (record : pyval) : option pyfloat :=
  match record with
  | VDict d =>
      if truth (dget_or d "revoked" VNone) then None
      else
        match dget_or d "expires_at" VNone with
        | VInt z => if 0 <? z then Some (FFin (z + grace) 0) else None
        | VFloat f => if positive f then Some (fadd_int f grace) else None
        | _ => None
        end
  | _ => None
  end.

(** [previous] is [store.get("seeder", {}).get("announce_token_previous", [])]. *)
Definition _legacy_token_deadline (previous : pyval) (grace : Z) : pyfloat :=
  match omap (token_deadline grace) (default [] (as_list previous)) with
  | [] => FFin 0 0
  | first :: rest => foldl (fun best f => if num_leb f best then best else f) first rest
  end.

(** The devices seen at each address; [sorted] orders the principals of one address. *)
Definition attribute (s : snap) : odict string (list principal) :=
  let add (d : odict string (list principal)) (kpi : string * principal * string) :=
    let '(_, p, ip) := kpi in
    if is_device p then
      let members := mget_or d ip [] in mset d ip (if decide (p ∈ members) then members else members ++ [p])
    else d in
  map (fun ips => (fst ips, sort_by (fun a b => str_leb (p_id a) (p_id b)) (snd ips))) (foldl add [] (_endpoint_ips s)).

(** [durable] is what [fresh_endpoints] returned or raised; without a store there is nothing to attribute. *)
Definition legacy_attributions (has_store : bool) (durable : res snap) (revoked : list string) : res LegacyAttributions :=
  if negb has_store then Ok (Attributions [] false [])
  else
    match durable with
    | Ok s => Ok (Attributions (attribute s) false revoked)
    | Err (OSError _) | Err (EndpointStoreError _) => Ok (Attributions [] true revoked)
    | Err e => Err e
    end.

(** ** The policy filter *)

Definition is_legacy (p : principal) : bool := String.eqb (p_type p) "legacy".

Definition _attributed_principals (p : principal) (ip : string) (a : option LegacyAttributions) : list principal :=
  if negb (is_legacy p) then [p]
  else
    match a with
    | None => [p]
    | Some a => if unreadable a then [] else mget_or (by_ip a) ip [p]
    end.

Definition is_revoked (a : LegacyAttributions) (p : principal) : bool := bool_decide (principal_key p ∈ at_revoked a).

Fixpoint res_forallb {A} (f : A -> res bool) (l : list A) : res bool :=
  match l with
  | [] => Ok true
  | x :: l => let* b := f x in if (b : bool) then res_forallb f l else Ok false
  end.

(** [any(f(x) for x in l)], stopping at the first hit. *)
Fixpoint res_existsb {A} (f : A -> res bool) (l : list A) : res bool :=
  match l with
  | [] => Ok false
  | x :: l => let* b := f x in if (b : bool) then Ok true else res_existsb f l
  end.

Section policy.
Context (policy : PolicyResult) (attributions : res LegacyAttributions).

(** A legacy credential at an address where a restricted, denied or revoked device was seen. *)
Definition _legacy_restricted (p : principal) (ip : string) : res bool :=
  if negb (is_legacy p) then Ok false
  else
    let* a := attributions in
    if pr_fail_closed policy || unreadable a then Ok true
    else
      res_existsb (fun q =>
        if is_revoked a q then Ok true
        else
          let* restricted_role := in_set (dget_or (role_of (pr_roles policy)) (p_id q) VNone) (restricted (pr_roles policy)) in
          if (restricted_role : bool) then Ok true
          else denies (pr_document policy) (pr_roles policy) q ip) (mget_or (by_ip a) ip []).

(** The predicate of [_select]: both ends, with every principal a legacy end may stand for. *)
Definition predicate (req : principal) (req_ip : string) (cand : principal) (cand_ip : string) : res bool :=
  let* a := if is_legacy req || is_legacy cand then let* a := attributions in Ok (Some a) else Ok None in
  let requesters := _attributed_principals req req_ip a in
  let candidates := _attributed_principals cand cand_ip a in
  match requesters, candidates with
  | [], _ | _, [] => Ok false
  | _, _ =>
      if match a with Some a => existsb (is_revoked a) (requesters ++ candidates) | None => false end then Ok false
      else
        res_forallb (fun rc => mutual_permit (pr_document policy) (fst rc) req_ip (snd rc) cand_ip (Some (pr_roles policy)))
          (flat_map (fun r => map (pair r) candidates) requesters)
  end.

(** The roles and principals a member of a restricted role can be permitted to. *)
Definition _restricted_candidates (p : principal) : res (option (list string * list (string * string))) :=
  let doc := pr_document policy in
  if negb (is_device p) then Ok None
  else
    let* assigned := in_dict (VStr (p_id p)) (dict_or_empty (dget_or doc "assignments" (VDict []))) in
    if (assigned : bool) || is_quarantined doc (p_id p) then Ok None
    else
      let role := dget_or (role_of (pr_roles policy)) (p_id p) VNone in
      let* member := in_set role (restricted (pr_roles policy)) in
      match role with
      | VStr role =>
          if negb member then Ok None
          else
            let definition := dict_or_empty (dget_or (_role_defs doc) role (VDict [])) in
            let peers := omap as_str (default [] (as_list (dget_or definition "peers" (VList [VStr role])))) in
            let allowed := if decide (role ∈ peers) then peers else peers ++ [role] in
            Ok (Some (allowed, if role_origin_enabled doc role then [("service", "seeder")] else []))
      | _ => Ok None
      end.
End policy.

(** [compiled] is the identity of the policy's compiled roles. *)
Definition hints_of (compiled : Z) (policy : PolicyResult) (sparse : option (list string * list (string * string))) : hints :=
  match sparse with
  | None => no_hints
  | Some (roles, principals) => Hints (Some principals) None (Some (roles, CompiledRef compiled (pr_roles policy))) (Some ["legacy"])
  end.

Definition _select (randbelow : Z -> Z) (h peer_id : string) (p : principal) (ip : string) (policy : option (Z * PolicyResult))
    (attributions : res LegacyAttributions) (numwant now : Z) : sm registry (list (string * Z)) := fun g =>
  match policy with
  | None => let '((out, _), g) := peers randbelow h peer_id numwant now g in (out, g)
  | Some (compiled, policy) =>
      if pr_fail_closed policy then (Ok [], g)
      else
        match _legacy_restricted policy attributions p ip with
        | Err e => (Err e, g)
        | Ok true => (Ok [], g)
        | Ok false =>
            match _restricted_candidates policy p with
            | Err e => (Err e, g)
            | Ok sparse =>
                let '((out, _), g) := select_peers randbelow h peer_id (Some p) (Some ip)
                  (Some (fun who req_ip cand cand_ip => predicate policy attributions (default p who) (default ip req_ip) cand cand_ip))
                  numwant now (hints_of compiled policy sparse) g in
                (out, g)
            end
        end
  end.

(** ** Pacing *)

Definition _announce_qos (policy : option PolicyResult) (attributions : res LegacyAttributions) (p : principal) (ip state : string) : res dict :=
  match policy with
  | None => Ok [("announce_min_interval_s", VInt INTERVAL); ("numwant", VInt NUMWANT_CAP)]
  | Some policy =>
      let doc := pr_document policy in
      if is_device p then compile_tracker_qos doc (Some (p_id p)) (VStr state)
      else
        let* a := if is_legacy p then let* a := attributions in Ok (Some a) else Ok None in
        let attributed := match a with Some a => if unreadable a then [] else mget_or (by_ip a) ip [] | None => [] end in
        match attributed with
        | [] => compile_tracker_qos doc None (VStr state)
        | _ =>
            let* values := res_map (fun q => compile_tracker_qos doc (Some (p_id q)) (VStr state)) attributed in
            match values with
            | [] => Ok []
            | first :: rest =>
                let slowest := foldl (fun n v => Z.max n (qos_int v "announce_min_interval_s")) (qos_int first "announce_min_interval_s") rest in
                let smallest := foldl (fun n v => Z.min n (qos_int v "numwant")) (qos_int first "numwant") rest in
                Ok (dset (dset first "announce_min_interval_s" (VInt slowest)) "numwant" (VInt smallest))
            end
        end
  end.

(** ** The handler *)

Record announce_query := Query {
  a_info_hash : string; a_peer_id : string; a_port : option Z; a_left : option Z; a_event : option string; a_numwant : Z;
  a_compact : bool; a_ip : option string; a_uploaded : option Z; a_downloaded : option Z }.

Inductive reply :=
  | Failure (status : Z) (reason : string)
  | Announced (peers : list (string * Z)) (compact : bool) (interval : Z).

(** What the handler tells the reconciler and the counters. *)
Inductive signal :=
  | EndpointFailure
  | EndpointChange
  | HandoutFailure
  | AnnounceRefused (expired : bool).

Definition _legacy_id (ip : string) (port : option Z) : string :=
  ip +:+ ":" +:+ match port with Some p => string_of (dec p) | None => "" end.

Section handler.
Context {S : Type} (has_store has_ledger : bool).
(** The endpoint writer, the disclosure record, and the attributions read from the store. *)
Context (write : principal -> string -> Z -> pyfloat -> sm S bool)
  (record_handout : principal -> list (string * Z) -> string -> pyfloat -> sm S bool)
  (attributions : S -> res LegacyAttributions).
(** The clock in ticks, and a second in ticks. *)
Context (ticks : pyfloat -> Z) (second : Z) (randbelow : Z -> Z).

Record tracker := Tracker { t_registry : registry; t_store : S; t_queue : PendingEndpointQueue; t_signals : list signal }.

Definition signal_with (x : signal) (t : tracker) : tracker := Tracker (t_registry t) (t_store t) (t_queue t) (t_signals t ++ [x]).

Definition _persist_endpoint (p : principal) (ip : string) (port : Z) (now : pyfloat) : sm tracker unit := fun t =>
  if negb has_store || negb (_attributable p) then (Ok tt, t)
  else
    match write p ip port now (t_store t) with
    | (Ok _, s) => (Ok tt, signal_with EndpointChange (Tracker (t_registry t) s (t_queue t) (t_signals t)))
    | (Err (OSError _), s) | (Err (EndpointStoreError _), s) =>
        (Ok tt, signal_with EndpointFailure (Tracker (t_registry t) s (enqueue p ip port now (t_queue t)) (t_signals t)))
    | (Err e, s) => (Err e, Tracker (t_registry t) s (t_queue t) (t_signals t))
    end.

(** No peer is disclosed to a device before the disclosure is recorded. *)
Definition _record_selected (p : principal) (out : list (string * Z)) (h : string) (now : pyfloat) : tracker -> list (string * Z) * tracker := fun t =>
  if negb (is_device p) || bool_decide (out = []) || negb has_ledger then (out, t)
  else
    match record_handout p out h now (t_store t) with
    | (Ok true, s) => (out, Tracker (t_registry t) s (t_queue t) (t_signals t))
    | (_, s) => ([], signal_with HandoutFailure (Tracker (t_registry t) s (t_queue t) (t_signals t)))
    end.

Definition effective_numwant (qos : dict) (numwant : Z) : Z :=
  Z.min (Z.max numwant 0) (match dget qos "numwant" with Some (VInt z) => z | _ => 50 end).

(** The rest of a request: selection, disclosure record, reply. *)
Definition answer (q : announce_query) (p : principal) (ip : string) (policy : option (Z * PolicyResult)) (a : res LegacyAttributions)
    (numwant interval now_read : Z) (now : pyfloat) : sm tracker reply := fun t =>
  match _select randbelow (a_info_hash q) (a_peer_id q) p ip policy a numwant now_read (t_registry t) with
  | (Err e, g) => (Err e, Tracker g (t_store t) (t_queue t) (t_signals t))
  | (Ok out, g) =>
      let '(out, t) := _record_selected p out (a_info_hash q) now (Tracker g (t_store t) (t_queue t) (t_signals t)) in
      (Ok (Announced out (a_compact q) interval), t)
  end.

(** [ctx] is the authenticated principal, [now_read] the time of the later read. *)
Definition _handle_announce (q : announce_query) (ctx : principal) (socket_ip : string) (policy : option (Z * PolicyResult))
    (factor : pyfloat) (now : pyfloat) (now_read : Z) : sm tracker reply := fun t =>
  let p := if is_legacy ctx then Principal "legacy" (_legacy_id socket_ip (a_port q)) else ctx in
  if negb (String.length (a_info_hash q) =? 40)%nat then (Ok (Failure 400 "info_hash must be 20 bytes"), t)
  else
    let ip := match a_ip q with Some ip => if String.eqb (p_type p) "service" && negb (String.eqb ip "") then ip else socket_ip | None => socket_ip end in
    let state := if bool_decide (a_left q = Some 0) then "seeder" else "leecher" in
    let early := attributions (t_store t) in
    match (let* qos := _announce_qos (snd <$> policy) early p ip state in
           let* restricted := match policy with Some (_, policy) => _legacy_restricted policy early p ip | None => Ok false end in
           Ok (qos, restricted)) with
    | Err e => (Err e, t)
    | Ok (qos, restricted) =>
        let interval := jittered_interval (match dget qos "announce_min_interval_s" with Some (VInt z) => z | _ => INTERVAL end) factor in
        let numwant := effective_numwant qos (a_numwant q) in
        (** The attributions are read once; a typed requester needs them only in the selection. *)
        let late (t : tracker) := if is_legacy p then early else attributions (t_store t) in
        match a_port q with
        | None => answer q p ip policy (late t) numwant interval now_read now t
        | Some port =>
            let g := snd (announce (a_info_hash q) (a_peer_id q) ip port (a_event q) (a_left q) (ticks now) (Some p)
              (Some (second * interval)) (a_uploaded q) (a_downloaded q) restricted (t_registry t)) in
            match _persist_endpoint p ip port now (Tracker g (t_store t) (t_queue t) (t_signals t)) with
            | (Err e, t) => (Err e, t)
            | (Ok _, t) => answer q p ip policy (late t) numwant interval now_read now t
            end
        end
    end.
End handler.
