(* ===== verification/TrackerSpec.v ===== *)
(** * The tracker discloses exactly what the policy permits

    The candidate indexes of a restricted requester lose no permitted peer; a selection
    hands out only mutually permitted peers; an announce of a quarantined device gets an
    empty list; and a device learns of a peer only after the disclosure is recorded. *)
From S2P Require Import Prelude PyVal PolicyDoc PolicySample PolicyQuarantine PolicyQos PolicyRoles PolicyValid PolicyEval PolicyEvalSpec PolicyStore.
From S2P Require Import KeyedState WaveGate Odict PeerRegistry RegistryIndex RegistrySpec RegistrySelect PeerEndpoints EndpointSpec Blocklist BlocklistSpec Tracker.

(** ** The compiled view *)

Section accepted.
Context (ttl : Z) (doc : dict) (c : CompiledRoles).
Hypothesis Hacc : accepted ttl doc.
Hypothesis Hc : compile_roles doc = Ok c.

Lemma compiled_role id : dget_or (role_of c) id VNone = role_val (device_role doc id).
Proof.
  destruct (accepted_ok _ _ Hacc) as (acls & assignments & Hok).
  destruct (compile_roles_view ttl doc acls assignments (proj1 Hacc) Hok) as (c' & Hc' & Hv). rewrite Hc in Hc'. injection Hc' as <-.
  apply role_view_val. by eapply role_view_ok; [exact (proj1 Hacc) | exact Hok | exact Hv].
Qed.

Lemma compiled_restricted r :
  r ∈ restricted c -> exists d, dget (_role_defs doc) r = Some (VDict d) /\ restricted_flag d = true.
Proof.
  destruct (accepted_ok _ _ Hacc) as (acls & assignments & Hok).
  destruct (role_section ttl doc acls assignments (proj1 Hacc) Hok) as (Hnd & _ & _ & _).
  intros Hr. pose proof Hc as H. unfold compile_roles in H. rewrite (no_unknown_roles ttl doc acls assignments (proj1 Hacc) Hok) in H.
  head H as E1. head H as E2. head H as E3. injection H as H. rewrite <- H in Hr. cbn [restricted] in Hr.
  apply elem_of_app in Hr as [Hr | Hr]; [| by apply elem_of_nil in Hr].
  apply list_elem_of_fmap in Hr as ([r' d] & -> & Hr). apply list_elem_of_omap in Hr as ([x v] & Hx & E). cbn in E.
  destruct v as [| | | | | | dd]; try discriminate E. cbn in E. destruct (restricted_flag dd) eqn:Ef; [| discriminate E]. cbn in E. injection E as <- <-.
  exists dd. split; [by apply dget_Some | done].
Qed.

Lemma role_for_device ref p : is_device p = true -> role_for (CompiledRef ref c) p = device_role doc (p_id p).
Proof.
  intros Hd. unfold role_for. unfold is_device in Hd. rewrite Hd. unfold role_name. cbn [c_roles]. rewrite compiled_role. by destruct (device_role doc (p_id p)).
Qed.

(** ** The permission of a pair *)

(** Both ends with every principal they may stand for, none revoked, all pairs mutually permitted. *)
Definition may_discover (a : option LegacyAttributions) (req : principal) (req_ip : string) (cand : principal) (cand_ip : string) : bool :=
  let requesters := _attributed_principals req req_ip a in
  let candidates := _attributed_principals cand cand_ip a in
  negb (bool_decide (requesters = [])) && negb (bool_decide (candidates = [])) &&
  negb (match a with Some a => existsb (is_revoked a) (requesters ++ candidates) | None => false end) &&
  forallb (fun r => forallb (fun q => spec_mutual doc r req_ip q cand_ip) candidates) requesters.

(** The attributions a pair needs. *)
Definition attributed (a : LegacyAttributions) (req cand : principal) : option LegacyAttributions :=
  if is_legacy req || is_legacy cand then Some a else None.

Lemma res_forallb_pure {A} (f : A -> res bool) g l : (forall x, f x = Ok (g x)) -> res_forallb f l = Ok (forallb g l).
Proof. intros H. induction l as [| x l IH]; [done |]. cbn. rewrite H. cbn. destruct (g x); [exact IH | done]. Qed.

Lemma res_existsb_pure {A} (f : A -> res bool) g l : (forall x, f x = Ok (g x)) -> res_existsb f l = Ok (existsb g l).
Proof. intros H. induction l as [| x l IH]; [done |]. cbn. rewrite H. cbn. destruct (g x); [done | exact IH]. Qed.

Lemma forallb_pairs {A B} (f : A * B -> bool) (l : list A) (k : list B) :
  forallb f (flat_map (fun r => map (pair r) k) l) = forallb (fun r => forallb (fun q => f (r, q)) k) l.
Proof.
  induction l as [| x l IH]; [done |]. cbn. rewrite forallb_app, IH. f_equal. clear. induction k as [| y k IH]; [done |]. cbn. by rewrite IH.
Qed.

Variable policy : PolicyResult.
Hypothesis Hdoc : pr_document policy = doc.
Hypothesis Hroles : pr_roles policy = c.

Lemma predicate_spec a req req_ip cand cand_ip :
  predicate policy (Ok a) req req_ip cand cand_ip = Ok (may_discover (attributed a req cand) req req_ip cand cand_ip).
Proof.
  unfold predicate, may_discover, attributed. set (oa := if _ || _ then Some a else None).
  assert (Hoa : (if is_legacy req || is_legacy cand then let* a := Ok a in Ok (Some a) else Ok None) = Ok oa) by (subst oa; by destruct (_ || _)).
  rewrite Hoa. cbn [mbind res_bind]. set (rs := _attributed_principals req req_ip oa). set (cs := _attributed_principals cand cand_ip oa).
  assert (Hall : res_forallb (fun rc => mutual_permit (pr_document policy) (fst rc) req_ip (snd rc) cand_ip (Some (pr_roles policy)))
    (flat_map (fun r => map (pair r) cs) rs) = Ok (forallb (fun r => forallb (fun q => spec_mutual doc r req_ip q cand_ip) cs) rs)).
  { rewrite (res_forallb_pure _ (fun rc => spec_mutual doc (fst rc) req_ip (snd rc) cand_ip)); [by rewrite forallb_pairs |].
    intros [x y]. cbn [fst snd]. rewrite Hdoc, Hroles. by apply (mutual_now ttl). }
  destruct rs as [| r rs'] eqn:Er; [done |]. destruct cs as [| q cs'] eqn:Ecs; [done |].
  rewrite !bool_decide_false by done. cbn [negb andb]. destruct (match oa with Some a => _ | None => _ end); [done |]. exact Hall.
Qed.

(** ** Candidate indexes *)

Lemma restricted_inv p roles principals :
  _restricted_candidates policy p = Ok (Some (roles, principals)) ->
  exists role d, is_device p = true /\ is_quarantined doc (p_id p) = false /\ ordinary_assignment doc (p_id p) = None /\
    device_role doc (p_id p) = Some role /\ dget (_role_defs doc) role = Some (VDict d) /\ restricted_flag d = true /\
    (forall r, r ∈ strs_of (dget_or d "peers" (VList [VStr role])) \/ r = role -> r ∈ roles) /\
    (truth (dget_or d "origin" (VBool true)) = true -> ("service", "seeder") ∈ principals).
Proof.
  unfold _restricted_candidates. rewrite Hdoc, Hroles. destruct (is_device p) eqn:Ed; [| done]. cbn [negb].
  destruct (in_dict _ _) as [assigned |] eqn:Ea; [| done]. cbn [mbind res_bind]. destruct (assigned || is_quarantined doc (p_id p)) eqn:Eq; [done |].
  apply orb_false_iff in Eq as [-> Eq]. rewrite compiled_role. destruct (device_role doc (p_id p)) as [role |] eqn:Er.
  2:{ cbn [role_val]. by destruct (in_set VNone (restricted c)). }
  cbn [role_val]. destruct (in_set (VStr role) (restricted c)) as [member |] eqn:Em; [| done]. cbn [mbind res_bind]. destruct member; [| done]. cbn [negb].
  assert (Hin : role ∈ restricted c).
  { unfold in_set in Em. cbn in Em. injection Em as Em. apply existsb_exists in Em as (x & Hx & ->%String.eqb_eq). by apply list_elem_of_In. }
  destruct (compiled_restricted role Hin) as (d & Hd & Hf). intros [= <- <-]. exists role, d.
  assert (Hdo : dget_or (_role_defs doc) role (VDict []) = VDict d) by (unfold dget_or; by rewrite Hd). rewrite Hdo.
  cbn [default from_option id dict_or_empty as_dict].
  split_and!; try done.
  - unfold ordinary_assignment. unfold in_dict in Ea. cbn in Ea. injection Ea as Ea. unfold dhas in Ea.
    destruct (dget_or doc "assignments" (VDict [])) as [| | | | | | assignments]; try done. cbn in Ea. unfold dget_or.
    by destruct (dget assignments (p_id p)).
  - unfold strs_of. set (peers := dget_or d "peers" (VList [VStr role])). intros r Hr.
    assert (Hp : omap as_str (default [] (as_list peers)) = match peers with VList l => omap as_str l | _ => [] end) by (by destruct peers).
    rewrite Hp. destruct (decide (role ∈ _)) as [Hrole | Hrole]; destruct Hr as [Hr | ->]; try done; apply elem_of_app; [by left | right; by left].
  - intros Ho. unfold role_origin_enabled. rewrite Hdo, Hf. cbn [negb]. rewrite Ho. by left.
Qed.

Lemma restricted_verdict p role d subject ip :
  is_device p = true -> is_quarantined doc (p_id p) = false -> ordinary_assignment doc (p_id p) = None ->
  device_role doc (p_id p) = Some role -> dget (_role_defs doc) role = Some (VDict d) -> restricted_flag d = true ->
  fst (spec_verdict doc p subject ip) =
    (is_device subject && role_in (subject_role doc subject) (strs_of (dget_or d "peers" (VList [VStr role])))) ||
    (truth (dget_or d "origin" (VBool true)) && is_service subject && String.eqb (p_id subject) "seeder").
Proof.
  intros Hd Hq Ho Hr Hdef Hf. destruct (accepted_ok _ _ Hacc) as (acls & assignments & Hok).
  destruct (role_section ttl doc acls assignments (proj1 Hacc) Hok) as (_ & Hdefs & _ & _).
  unfold spec_verdict, bound_acl. rewrite Hd, Hq, Ho, Hr. cbn [mbind option_bind]. unfold role_acl. rewrite Hdef, Hf.
  destruct (Hdefs role (VDict d) (dget_elem _ _ _ Hdef)) as (d' & peers & [= <-] & _ & _ & _ & _ & Hp & _ & _ & Hself & _).
  rewrite Hp, strs_of_strs. by apply verdict_virtual.
Qed.

(** A permitted candidate is always among the rows the indexes offer. *)
Lemma sparse_complete g h k r p ip a ref sparse :
  _restricted_candidates policy p = Ok sparse -> mget (swarm_of g h) k = Some r ->
  may_discover (attributed a p (r_principal r)) p ip (r_principal r) (r_ip r) = true ->
  hinted g h (hints_of ref policy sparse) k.
Proof.
  intros Hs Hk Hm. destruct sparse as [[roles principals] |]; [| cbn; rewrite Hk; by eexists].
  destruct (restricted_inv p roles principals Hs) as (role & d & Hd & Hq & Ho & Hr & Hdef & Hf & Hroles' & Horig).
  cbn [hints_of hinted default from_option id]. destruct (is_legacy (r_principal r)) eqn:El.
  { right. right. right. exists "legacy". split; [by left |]. exists r. split; [done |]. by apply String.eqb_eq in El. }
  assert (Hpl : is_legacy p = false). { unfold is_legacy. unfold is_device in Hd. apply String.eqb_eq in Hd. by rewrite Hd. }
  unfold may_discover, attributed in Hm. rewrite Hpl, El in Hm. unfold _attributed_principals in Hm. rewrite Hpl, El in Hm. cbn in Hm.
  rewrite !andb_true_r in Hm. unfold spec_mutual in Hm. apply andb_true_iff in Hm as [Hm _]. apply andb_true_iff in Hm as [_ Hm].
  rewrite (restricted_verdict p role d) in Hm by done. apply orb_true_iff in Hm as [Hm | Hm].
  - apply andb_true_iff in Hm as [Hdev Hin]. unfold subject_role in Hin. rewrite Hdev in Hin. left.
    destruct (device_role doc (p_id (r_principal r))) as [ro |] eqn:Ero; [| discriminate Hin]. cbn in Hin. apply bool_decide_eq_true in Hin.
    exists (Some ro). split; [apply list_elem_of_fmap; exists ro; split; [done |]; apply Hroles'; by left |]. exists r. split; [done |].
    rewrite Hroles. by rewrite role_for_device.
  - apply andb_true_iff in Hm as [Hm Hid]. apply andb_true_iff in Hm as [Hor Hsv]. right. left. exists ("service", "seeder").
    split; [by apply Horig |]. exists r. split; [done |]. unfold is_service in Hsv. apply String.eqb_eq in Hsv, Hid. by rewrite Hsv, Hid.
Qed.

(** ** Selection *)

Lemma in_set_role role l : exists b, in_set (role_val role) l = Ok b.
Proof. destruct role as [r |]; by eexists. Qed.

Lemma legacy_restricted_total a p ip : exists b, _legacy_restricted policy (Ok a) p ip = Ok b.
Proof.
  unfold _legacy_restricted. destruct (negb (is_legacy p)); [by eexists |]. cbn [mbind res_bind]. destruct (_ || _); [by eexists |].
  rewrite Hdoc, Hroles. induction (mget_or (by_ip a) ip []) as [| q l IH]; [by eexists |]. cbn [res_existsb].
  destruct (is_revoked a q); [by eexists |]. rewrite compiled_role. destruct (in_set_role (device_role doc (p_id q)) (restricted c)) as [b ->].
  cbn [mbind res_bind]. destruct b; [by eexists |]. rewrite (denies_spec ttl) by done. cbn [mbind res_bind]. destruct (negb _); [by eexists | exact IH].
Qed.

Lemma restricted_candidates_total p : exists sparse, _restricted_candidates policy p = Ok sparse.
Proof.
  unfold _restricted_candidates. rewrite Hdoc, Hroles. destruct (negb (is_device p)); [by eexists |].
  unfold in_dict. cbn [hashable mbind res_bind]. destruct (_ || _); [by eexists |]. rewrite compiled_role.
  destruct (in_set_role (device_role doc (p_id p)) (restricted c)) as [b ->]. cbn [mbind res_bind].
  destruct (device_role doc (p_id p)); [destruct b |]; by eexists.
Qed.
End accepted.

Lemma picks_elem s ok inspected adr :
  adr ∈ map snd (picks s ok inspected) <-> exists k r, k ∈ inspected /\ mget s k = Some r /\ ok r = true /\ address r = adr.
Proof.
  rewrite list_elem_of_fmap. unfold picks. split.
  - intros ([k x] & -> & Hin). apply list_elem_of_omap in Hin as (k' & Hk & E). destruct (mget s k') as [r |] eqn:Er; [| done]. cbn in E.
    destruct (ok r) eqn:Eo; [| done]. injection E as <- <-. exists k', r. done.
  - intros (k & r & Hk & Hr & Ho & <-). exists (k, address r). split; [done |]. apply list_elem_of_omap. exists k. split; [done |]. rewrite Hr. cbn. by rewrite Ho.
Qed.

(** What a requester is told: only rows it may discover, not its own, and all of them
    unless the reply or the scan is full. *)
Record discloses (g : registry) (h : string) (self : pkey) (ok : row -> bool) (numwant : Z) (out : list (string * Z)) : Prop := {
  di_sound : forall adr, adr ∈ out -> exists k r, mget (swarm_of g h) k = Some r /\ address r = adr /\ ok r = true /\ k <> self;
  di_bound : zlen out <= wanted numwant;
  di_complete : zlen out = wanted numwant \/ 4 * wanted numwant <= zlen (swarm_of g h) \/
    forall k r, mget (swarm_of g h) k = Some r -> k <> self -> ok r = true -> address r ∈ out }.

Lemma selection_discloses heap g h peer_id p hs numwant ok out inspected :
  reg_ok heap g -> selection g h peer_id (Some p) false hs numwant ok out inspected ->
  (forall k r, mget (swarm_of g h) k = Some r -> ok r = true -> hinted g h hs k) ->
  discloses g h (key_of p peer_id) ok numwant out.
Proof.
  intros Hg [Hn He -> Hb Hcomp] Hhint. split; [| apply Hb |].
  - intros adr (k & r & Hk & Hr & Ho & Ha)%picks_elem. exists k, r. split; [done |]. split; [done |]. split; [done |].
    destruct (He k Hk) as (_ & r' & Hr' & Hs). cbn in Hs. by apply bool_decide_eq_false in Hs.
  - destruct Hcomp as [Hc | [Hc | Hc]]; [by left | right; left | right; right].
    + rewrite <- Hc. unfold zlen. apply Nat2Z.inj_le. transitivity (length (mkeys (swarm_of g h))); [| unfold mkeys; by rewrite length_map].
      apply NoDup_incl_length; [by apply NoDup_ListNoDup |]. intros k Hk%list_elem_of_In. apply list_elem_of_In.
      destruct (He k Hk) as (_ & r' & Hr' & _). by eapply mget_key.
    + intros k r Hr Hself Ho. apply picks_elem. exists k, r. split; [| done]. apply Hc. split; [by eapply Hhint |]. exists r. split; [done |].
      cbn. by apply bool_decide_false.
Qed.

Lemma select_discloses heap ttl ref policy a randbelow h peer_id p ip numwant now g :
  reg_ok heap g -> real heap (CompiledRef ref (pr_roles policy)) ->
  accepted ttl (pr_document policy) -> compile_roles (pr_document policy) = Ok (pr_roles policy) -> pr_fail_closed policy = false ->
  exists restricted out, _legacy_restricted policy (Ok a) p ip = Ok restricted /\
    fst (_select randbelow h peer_id p ip (Some (ref, policy)) (Ok a) numwant now g) = Ok out /\
    if restricted then out = []
    else discloses (snd (_read_prune_locked now false g)) h (key_of p peer_id)
      (fun r => may_discover (pr_document policy) (attributed a p (r_principal r)) p ip (r_principal r) (r_ip r)) numwant out.
Proof.
  intros Hg Hreal Hacc Hc Hf. destruct (legacy_restricted_total ttl _ _ Hacc Hc policy eq_refl eq_refl a p ip) as [b Hb].
  destruct (restricted_candidates_total ttl _ _ Hacc Hc policy eq_refl eq_refl p) as [sparse Hs]. exists b. unfold _select. rewrite Hf, Hb, Hs.
  destruct b; [by exists [] |]. set (pred := fun who req_ip cand cand_ip => _). set (pruned := snd (_read_prune_locked now false g)).
  set (ok := fun r => may_discover _ _ _ _ _ _). pose proof (reg_read heap g now false Hg) as Hr. fold pruned in Hr.
  destruct (select_ok heap randbelow h peer_id (Some p) (Some ip) (Some pred) numwant (hints_of ref policy sparse) false pruned ok Hr)
    as (out & I & E & Hsel).
  { destruct sparse as [[roles principals] |]; [| done]. by intros names cr [= <- <-]. }
  { intros k r _. subst pred ok. cbn [default from_option id]. by apply (predicate_spec ttl _ _ Hacc Hc policy eq_refl eq_refl). }
  exists out. split; [done |]. split.
  - unfold select_peers. destruct (_read_prune_locked now false g) as [events g1]. cbn [snd] in pruned. subst pruned. revert E.
    by destruct (_select_locked _ _ _ _ _ _ _ _ _ g1).
  - eapply selection_discloses; [exact Hr | exact Hsel |]. intros k r Hk Ho. eapply (sparse_complete ttl _ _ Hacc Hc policy eq_refl eq_refl); [exact Hs | exact Hk | exact Ho].
Qed.

(** ** The pacing values *)

Lemma tracker_qos_total ttl doc dev state :
  accepted ttl doc -> state = "seeder" \/ state = "leecher" -> exists qos, compile_tracker_qos doc (Some dev) (VStr state) = Ok qos.
Proof.
  intros Hacc Hst. destruct (accepted_ok _ _ Hacc) as (acls & assignments & Hok).
  destruct (role_section ttl doc acls assignments (proj1 Hacc) Hok) as (_ & _ & Hrole & _).
  assert (Hs : existsb (String.eqb state) _TRACKER_STATES = true) by (by destruct Hst as [-> | ->]).
  unfold compile_tracker_qos, explain_tracker_qos, _tracker_qos_layers. rewrite Hs. cbn [negb].
  fold (_role_of_map doc). change (dict_or_empty (dget_or (dict_or_empty (dget_or doc "roles" (VDict []))) "role_of" (VDict []))) with (_role_of_map doc).
  assert (Hr : exists r, dget_or (_role_of_map doc) dev VNone = role_val r).
  { unfold dget_or. destruct (dget (_role_of_map doc) dev) as [v |] eqn:E; [| by exists None].
    destruct (Hrole dev v (dget_elem _ _ _ E)) as (r & -> & _). by exists (Some r). }
  destruct Hr as [[r |] ->]; cbn [role_val dget_val hashable mbind res_bind]; by eexists.
Qed.

(** ** Quarantine end to end *)

Lemma quarantined_alone doc a dev ip cand cand_ip :
  is_quarantined doc dev = true -> may_discover doc a (Principal "device" dev) ip cand cand_ip = false.
Proof.
  intros Hq. unfold may_discover. assert (Hr : _attributed_principals (Principal "device" dev) ip a = [Principal "device" dev]) by done. rewrite Hr.
  set (cs := _attributed_principals cand cand_ip a). destruct cs as [| x cs]; [by rewrite (bool_decide_true ([] = [])) by done |]. cbn [forallb].
  unfold spec_mutual at 1. rewrite quarantined_verdict by done. cbn [fst]. rewrite andb_false_r. cbn [andb]. by rewrite andb_false_r.
Qed.

Lemma discloses_nothing g h self numwant out : discloses g h self (fun _ => false) numwant out -> out = [].
Proof. intros [Hs _ _]. destruct out as [| adr out]; [done |]. destruct (Hs adr) as (k & r & _ & _ & Ho & _); [by left | done]. Qed.

Lemma discloses_ext g h self ok ok' numwant out : (forall r, ok r = ok' r) -> discloses g h self ok numwant out -> discloses g h self ok' numwant out.
Proof.
  intros He [A B C]. split; [| done |].
  - intros adr Ha. destruct (A adr Ha) as (k & r & ? & ? & ? & ?). exists k, r. by rewrite <- He.
  - destruct C as [| [| C]]; [by left | right; by left |]. right. right. intros k r Hr Hs Ho. rewrite <- He in Ho. by eapply C.
Qed.

Section handler.
Context {S : Type} (has_store has_ledger : bool).
Context (write : principal -> string -> Z -> pyfloat -> sm S bool)
  (record_handout : principal -> list (string * Z) -> string -> pyfloat -> sm S bool)
  (attributions : S -> res LegacyAttributions) (ticks : pyfloat -> Z) (second : Z) (randbelow : Z -> Z).

#[local] Abbreviation handle := (_handle_announce has_store has_ledger write record_handout attributions ticks second randbelow).

(** The writer fails only in the ways the handler expects, and attributions can be told. *)
Hypothesis writes : forall p ip port now s, match fst (write p ip port now s) with Err (OSError _) | Err (EndpointStoreError _) | Ok _ => True | Err _ => False end.
Hypothesis attributable : forall s, exists a, attributions s = Ok a.

Lemma answer_quarantined heap ttl ref policy dev a q ip numwant interval now_read now t :
  reg_ok heap (t_registry t) -> real heap (CompiledRef ref (pr_roles policy)) ->
  accepted ttl (pr_document policy) -> compile_roles (pr_document policy) = Ok (pr_roles policy) -> pr_fail_closed policy = false ->
  is_quarantined (pr_document policy) dev = true ->
  exists t', answer has_ledger record_handout randbelow q (Principal "device" dev) ip (Some (ref, policy)) (Ok a) numwant interval now_read now t =
    (Ok (Announced [] (a_compact q) interval), t').
Proof.
  intros Hg Hreal Hacc Hc Hf Hq. unfold answer.
  destruct (select_discloses heap ttl ref policy a randbelow (a_info_hash q) (a_peer_id q) (Principal "device" dev) ip numwant now_read (t_registry t)
    Hg Hreal Hacc Hc Hf) as (b & out & Hb & E & Hout).
  assert (Hnil : out = []).
  { destruct b; [done |]. eapply discloses_nothing, discloses_ext; [| exact Hout]. intros r. by apply quarantined_alone. }
  subst out. destruct (_select _ _ _ _ _ _ _ _ _ (t_registry t)) as [res g']. cbn [fst] in E. subst res. cbn. by eexists.
Qed.

(** An announce of a quarantined device is answered, and with no peers: whatever the
    swarm holds, whatever role or assignment the device has, and whether or not its
    endpoint could be written. *)
Theorem quarantined_announce_empty heap ttl ref policy dev q socket_ip factor now now_read t :
  reg_ok heap (t_registry t) -> real heap (CompiledRef ref (pr_roles policy)) ->
  accepted ttl (pr_document policy) -> compile_roles (pr_document policy) = Ok (pr_roles policy) -> pr_fail_closed policy = false ->
  is_quarantined (pr_document policy) dev = true -> String.length (a_info_hash q) = 40%nat ->
  exists interval t', handle q (Principal "device" dev) socket_ip (Some (ref, policy)) factor now now_read t =
    (Ok (Announced [] (a_compact q) interval), t').
Proof.
  intros Hg Hreal Hacc Hc Hf Hq Hlen. unfold _handle_announce. cbn [is_legacy p_type String.eqb Ascii.eqb Bool.eqb]. rewrite Hlen. cbn [Nat.eqb negb].
  set (ip := match a_ip q with Some _ => _ | None => _ end).
  set (state := if bool_decide (a_left q = Some 0) then "seeder" else "leecher").
  destruct (tracker_qos_total ttl (pr_document policy) dev state Hacc) as [qos Hqos]; [subst state; case_bool_decide; [by left | by right] |].
  assert (Hpre : (let* qos := _announce_qos (snd <$> Some (ref, policy)) (attributions (t_store t)) (Principal "device" dev) ip state in
           let* restricted := _legacy_restricted policy (attributions (t_store t)) (Principal "device" dev) ip in
           Ok (qos, restricted)) = Ok (qos, false)).
  { cbn [fmap option_fmap option_map snd]. unfold _announce_qos. cbn [is_device p_type p_id String.eqb Ascii.eqb Bool.eqb]. rewrite Hqos. done. }
  rewrite Hpre. destruct (a_port q) as [port |].
  2:{ destruct (attributable (t_store t)) as [a ->].
      destruct (answer_quarantined heap ttl ref policy dev a q ip (effective_numwant qos (a_numwant q))
        (jittered_interval match dget qos "announce_min_interval_s" with Some (VInt z) => z | _ => INTERVAL end factor) now_read now t Hg Hreal Hacc Hc Hf Hq) as [t' Ht'].
      eexists _, t'. exact Ht'. }
  set (g1 := snd (announce _ _ _ _ _ _ _ _ _ _ _ _ _)). assert (Hg1 : reg_ok heap g1) by by apply reg_announce.
  set (t1 := Tracker g1 (t_store t) (t_queue t) (t_signals t)).
  assert (Hp : exists t2, _persist_endpoint has_store write (Principal "device" dev) ip port now t1 = (Ok tt, t2) /\ t_registry t2 = g1).
  { unfold _persist_endpoint. destruct (negb has_store || _); [by exists t1 |]. pose proof (writes (Principal "device" dev) ip port now (t_store t1)) as Hw.
    destruct (write _ _ _ _ (t_store t1)) as [[b | e] s]; [by eexists |]. cbn in Hw. destruct e; try done; by eexists. }
  destruct Hp as (t2 & -> & Ht2). destruct (attributable (t_store t2)) as [a ->].
  destruct (answer_quarantined heap ttl ref policy dev a q ip (effective_numwant qos (a_numwant q))
    (jittered_interval match dget qos "announce_min_interval_s" with Some (VInt z) => z | _ => INTERVAL end factor) now_read now t2) as [t' Ht'];
    [by rewrite Ht2 | done ..|]. eexists _, t'. exact Ht'.
Qed.

Lemma selected_recorded p out h now t out' t' :
  _record_selected has_ledger record_handout p out h now t = (out', t') -> has_ledger = true -> is_device p = true -> out' <> [] ->
  record_handout p out' h now (t_store t) = (Ok true, t_store t').
Proof.
  unfold _record_selected. intros H -> Hd Hne. rewrite Hd in H. cbn [negb orb] in H. rewrite orb_false_r in H. case_bool_decide as Ho; [congruence |].
  destruct (record_handout p out h now (t_store t)) as [[[|] | e] s] eqn:E; injection H as <- <-; done.
Qed.

(** The store when the peers of a reply are recorded: as it was, or after the write of the endpoint. *)
Definition before_record (ctx : principal) (now : pyfloat) (t : tracker) (s : S) : Prop :=
  s = t_store t \/ exists ip port, s = snd (write ctx ip port now (t_store t)).

Lemma announce_recorded q ctx socket_ip policy factor now now_read t out compact interval t' :
  has_ledger = true -> is_device ctx = true ->
  handle q ctx socket_ip policy factor now now_read t = (Ok (Announced out compact interval), t') -> out <> [] ->
  exists s, before_record ctx now t s /\ record_handout ctx out (a_info_hash q) now s = (Ok true, t_store t').
Proof.
  intros Hl Hd H Hne. assert (Hnl : is_legacy ctx = false) by (unfold is_legacy; unfold is_device in Hd; apply String.eqb_eq in Hd; by rewrite Hd).
  assert (Hans : forall ip a n i t1, before_record ctx now t (t_store t1) ->
    answer has_ledger record_handout randbelow q ctx ip policy a n i now_read now t1 = (Ok (Announced out compact interval), t') ->
    exists s, before_record ctx now t s /\ record_handout ctx out (a_info_hash q) now s = (Ok true, t_store t')).
  { intros ip a n i t1 Hb Ha. unfold answer in Ha. destruct (_select _ _ _ _ _ _ _ _ _ (t_registry t1)) as [[o | e] g]; [| done].
    destruct (_record_selected has_ledger record_handout ctx o (a_info_hash q) now _) as [o' t2] eqn:Er. injection Ha as -> <- <- <-.
    eapply selected_recorded in Er; [| done ..]. by exists (t_store t1). }
  unfold _handle_announce in H. rewrite Hnl in H. destruct (negb _) in H; [done |].
  match type of H with context [match ?x with Ok _ => _ | Err _ => _ end] => destruct x as [[qos restricted] |]; [| done] end.
  destruct (a_port q) as [port |]; [| eapply Hans; [by left | exact H]].
  match type of H with context [_persist_endpoint _ _ _ ?ip _ _ _] => set (ip0 := ip) in H end.
  match type of H with context [_persist_endpoint _ _ _ _ _ _ ?t1] => set (t0 := t1) in H end.
  destruct (_persist_endpoint has_store write ctx ip0 port now t0) as [[[] | e] t2] eqn:Ep; [| done]. eapply Hans; [| exact H].
  unfold _persist_endpoint in Ep. destruct (negb has_store || _); [injection Ep as <-; by left |]. change (t_store t0) with (t_store t) in Ep.
  destruct (write ctx ip0 port now (t_store t)) as [[b | e] s] eqn:Ew; [injection Ep as <- | destruct e; try discriminate Ep; injection Ep as <-];
    right; exists ip0, port; by rewrite Ew.
Qed.

(** With a ledger, a device is never told of a peer that is not on record: when a
    reply lists peers, the last thing the handler did to the store, at most after the
    write of the announced endpoint, was a successful record of exactly that list, for
    that device and torrent. *)
Theorem disclosure_recorded q ctx socket_ip policy factor now now_read t out compact interval t' :
  has_ledger = true -> is_device ctx = true ->
  handle q ctx socket_ip policy factor now now_read t = (Ok (Announced out compact interval), t') -> out <> [] ->
  exists s, before_record ctx now t s /\ record_handout ctx out (a_info_hash q) now s = (Ok true, t_store t').
Proof. apply announce_recorded. Qed.
End handler.

(** C14: under an accepted policy a selection tells a requester only of rows it may
    discover: every principal that either end may stand for (a legacy credential stands
    for each device seen at its address) is unrevoked and mutually permitted with the
    other end; the requester's own row is never listed; and although a restricted
    requester is answered from sparse indexes, no row it may discover is left out unless
    the reply or the scan is full.  A legacy credential at the address of a restricted,
    denied or revoked device is told of nobody. *)
Theorem tracker_select_exact heap ttl ref policy a randbelow h peer_id p ip numwant now g :
  reg_ok heap g -> real heap (CompiledRef ref (pr_roles policy)) ->
  accepted ttl (pr_document policy) -> compile_roles (pr_document policy) = Ok (pr_roles policy) -> pr_fail_closed policy = false ->
  exists restricted out, _legacy_restricted policy (Ok a) p ip = Ok restricted /\
    fst (_select randbelow h peer_id p ip (Some (ref, policy)) (Ok a) numwant now g) = Ok out /\
    if restricted then out = []
    else discloses (snd (_read_prune_locked now false g)) h (key_of p peer_id)
      (fun r => may_discover (pr_document policy) (attributed a p (r_principal r)) p ip (r_principal r) (r_ip r)) numwant out.
Proof. apply select_discloses. Qed.

(** ** Witnesses *)

Definition sample_hash : string := "0123456789012345678901234567890123456789".
Definition tracked (id ip : string) (g : registry) : registry :=
  snd (announce sample_hash ("p-" +:+ id) ip 6881 (Some "started") (Some 5) 100 (Some (Principal "device" id)) None None None false g).
(** Two members of a restricted role, one of another role and a quarantined device. *)
Definition sample_swarm : registry :=
  tracked "bad" "10.0.0.9" (tracked "l1" "10.0.0.4" (tracked "e1" "10.0.0.2" (tracked "e2" "10.0.0.3" (new_registry 30 30)))).
Definition policy_heap : Z -> CompiledRoles := fun _ => sample_compiled.
Lemma sample_swarm_ok : reg_ok policy_heap sample_swarm.
Proof. do 4 apply reg_announce. apply reg_new. Qed.
Definition nothing_known : LegacyAttributions := Attributions [] false [].

Lemma tracker_select_exact_witness :
  exists restricted out, _legacy_restricted (sample_policy false) (Ok nothing_known) (Principal "device" "e1") "10.0.0.2" = Ok restricted /\
    fst (_select (fun _ => 0) sample_hash "p-e1" (Principal "device" "e1") "10.0.0.2" (Some (0, sample_policy false)) (Ok nothing_known) 50 101 sample_swarm) = Ok out /\
    if restricted then out = []
    else discloses (snd (_read_prune_locked 101 false sample_swarm)) sample_hash (key_of (Principal "device" "e1") "p-e1")
      (fun r => may_discover sample_doc (attributed nothing_known (Principal "device" "e1") (r_principal r)) (Principal "device" "e1") "10.0.0.2" (r_principal r) (r_ip r)) 50 out.
Proof.
  apply (tracker_select_exact policy_heap 900 0 (sample_policy false) nothing_known (fun _ => 0) sample_hash "p-e1" (Principal "device" "e1") "10.0.0.2" 50 101 sample_swarm).
  - apply sample_swarm_ok.
  - reflexivity.
  - apply sample_accepted.
  - exact sample_policy_compiles.
  - reflexivity.
Defined.

(** The reply is not empty there. *)
Example sample_reply :
  match fst (_select (fun _ => 0) sample_hash "p-e1" (Principal "device" "e1") "10.0.0.2" (Some (0, sample_policy false)) (Ok nothing_known) 50 101 sample_swarm) with
  | Ok out => negb (bool_decide (out = [])) && negb (bool_decide (("10.0.0.9", 6881) ∈ out))
  | Err _ => false
  end = true.
Proof. vm_compute. reflexivity. Qed.

Definition sample_tracker : tracker (S := list string) := Tracker sample_swarm ([] : list string) (new_queue None) ([] : list signal).
Definition sample_query (id : string) : announce_query :=
  Query sample_hash ("p-" +:+ id) (Some 6881) (Some 5) None 50 true None None None.
Definition log_handout (p : principal) (out : list (string * Z)) (h : string) (now : pyfloat) : sm (list string) bool := fun log => (Ok true, log ++ ["handout"]).

Lemma quarantined_announce_empty_witness :
  exists interval t', _handle_announce true true flaky log_handout (fun _ => Ok nothing_known) (fun _ => 101) 1 (fun _ => 0)
    (sample_query "bad") (Principal "device" "bad") "10.0.0.9" (Some (0, sample_policy false)) (FFin 1 0) (FFin 101 0) 101 sample_tracker =
    (Ok (Announced [] true interval), t').
Proof.
  apply (quarantined_announce_empty true true flaky log_handout (fun _ => Ok nothing_known) (fun _ => 101) 1 (fun _ => 0)) with
    (heap := policy_heap) (ttl := 900) (policy := sample_policy false) (dev := "bad").
  - intros p ip port now s. unfold flaky. by destruct (String.eqb _ _).
  - intros s. by eexists.
  - apply sample_swarm_ok.
  - reflexivity.
  - apply sample_accepted.
  - exact sample_policy_compiles.
  - reflexivity.
  - reflexivity.
  - reflexivity.
Defined.

Lemma disclosure_recorded_witness :
  exists out compact interval t', _handle_announce true true flaky log_handout (fun _ => Ok nothing_known) (fun _ => 101) 1 (fun _ => 0)
    (sample_query "e1") (Principal "device" "e1") "10.0.0.2" (Some (0, sample_policy false)) (FFin 1 0) (FFin 101 0) 101 sample_tracker =
    (Ok (Announced out compact interval), t') /\ out <> [] /\
  exists s, before_record flaky (Principal "device" "e1") (FFin 101 0) sample_tracker s /\
    log_handout (Principal "device" "e1") out sample_hash (FFin 101 0) s = (Ok true, t_store t').
Proof.
  destruct (_handle_announce true true flaky log_handout (fun _ => Ok nothing_known) (fun _ => 101) 1 (fun _ => 0)
    (sample_query "e1") (Principal "device" "e1") "10.0.0.2" (Some (0, sample_policy false)) (FFin 1 0) (FFin 101 0) 101 sample_tracker)
    as [[[status reason | out compact interval] | e] t'] eqn:E;
    [apply (f_equal (fun x => match fst x with Ok (Announced (_ :: _) _ _) => true | _ => false end)) in E; vm_compute in E; discriminate E | |
     apply (f_equal (fun x => match fst x with Ok (Announced (_ :: _) _ _) => true | _ => false end)) in E; vm_compute in E; discriminate E].
  exists out, compact, interval, t'. split; [reflexivity |].
  assert (Hne : out <> []).
  { intros ->. apply (f_equal (fun x => match fst x with Ok (Announced (_ :: _) _ _) => true | _ => false end)) in E. vm_compute in E. discriminate E. }
  split; [exact Hne |].
  apply (disclosure_recorded true true flaky log_handout (fun _ => Ok nothing_known) (fun _ => 101) 1 (fun _ => 0)
    (sample_query "e1") (Principal "device" "e1") "10.0.0.2" (Some (0, sample_policy false)) (FFin 1 0) (FFin 101 0) 101 sample_tracker out compact interval t');
    [reflexivity | reflexivity | exact E | exact Hne].
Defined.
