(* ===== verification/Interleave.v ===== *)
(** * Threads that share files

    An operation that takes and releases locks is a program of atomic actions: what
    happens under one lock, or one read of a file that is replaced atomically.  Any I/O
    may fail, before its effect or after it (the rename is visible and the directory
    sync raises); a failure to read is what the code makes of it, any other is an
    [OSError].  A process that dies is a thread that is not scheduled again.

    A program is [safe] when each of its actions, started in any state the other threads
    may have left, keeps the invariant and does only what the others may rely on.  Safe
    programs keep the invariant in every interleaving. *)
From S2P Require Import Prelude KeyedState.

Inductive fault :=
  | NoFault
  | FailRead (cls : string)
  | FailBefore
  | FailAfter.

(** [unreadable] is what the action raises when it cannot read its file, whatever the
    class of the exception of the read. *)
Definition faulty {S A} (unreadable : pyexn) (m : sm S A) (ft : fault) : sm S A := fun s =>
  match ft with
  | NoFault => m s
  | FailRead _ => (Err unreadable, s)
  | FailBefore => (Err (OSError "I/O error"), s)
  | FailAfter => match m s with (Ok _, s) => (Err (OSError "I/O error"), s) | (Err e, s) => (Err e, s) end
  end.

Inductive prog (S A : Type) : Type :=
  | Ret (r : res A)
  | Act {B : Type} (act : fault -> sm S B) (next : res B -> prog S A).
Arguments Ret {S A} _.
Arguments Act {S A B} _ _.

(** An action, and the rest when it returns. *)
Definition andthen {S A B} (act : fault -> sm S B) (next : B -> prog S A) : prog S A :=
  Act act (fun r => match r with Ok b => next b | Err e => Ret (Err e) end).

Notation "'act' x ':=' c 'in' k" := (andthen c (fun x => k))
  (at level 10, x pattern, c at level 100, k at level 200, only parsing) : py_scope.

Fixpoint pbind {S A B} (p : prog S A) (f : res A -> prog S B) : prog S B :=
  match p with
  | Ret r => f r
  | Act a next => Act a (fun r => pbind (next r) f)
  end.

(** The program alone, without faults. *)
Fixpoint run {S A} (p : prog S A) : sm S A := fun s =>
  match p with
  | Ret r => (r, s)
  | Act a next => let '(r, s) := a NoFault s in run (next r) s
  end.

Lemma run_andthen {S A B} (a : fault -> sm S B) (next : B -> prog S A) s :
  run (andthen a next) s = sbind (a NoFault) (fun b => run (next b)) s.
Proof. cbn. unfold sbind. by destruct (a NoFault s) as [[b | e] s']. Qed.

Lemma run_pbind {S A B} (p : prog S A) (f : res A -> prog S B) s :
  run (pbind p f) s = let '(r, s') := run p s in run (f r) s'.
Proof.
  revert s. induction p as [r | C a next IH]; intros s; cbn; [done |]. destruct (a NoFault s) as [r s']. apply IH.
Qed.

(** ** Pools *)

Record thread (S : Type) := Thread { th_type : Type; th_code : prog S th_type }.
Arguments Thread {S} _ _.
Arguments th_type {S} _.
Arguments th_code {S} _.

Section pool.
Context {S : Type}.

(** One action of one thread, or a new thread; [starts] are the programs clients run. *)
Inductive pool_step (starts : thread S -> Prop) : S * list (thread S) -> S * list (thread S) -> Prop :=
  | step_act i A B (a : fault -> sm S B) (next : res B -> prog S A) ft r s s' ps :
      ps !! i = Some (Thread A (Act a next)) -> a ft s = (r, s') -> pool_step starts (s, ps) (s', <[i := Thread A (next r)]> ps)
  | step_start p s ps : starts p -> pool_step starts (s, ps) (s, ps ++ [p]).

Definition pool_run (starts : thread S -> Prop) := rtc (pool_step starts).

(** A thread alone runs to its end. *)
Lemma pool_alone starts {A} (p : prog S A) s : pool_run starts (s, [Thread A p]) (snd (run p s), [Thread A (Ret (fst (run p s)))]).
Proof.
  revert s. induction p as [r | B a next IH]; intros s; cbn [run]; [reflexivity |]. destruct (a NoFault s) as [r s'] eqn:E.
  eapply rtc_l; [| apply IH]. exact (step_act starts 0 A B a next NoFault r s s' [Thread A (Act a next)] eq_refl E).
Qed.

(** One program to its end, with [others] happening before each of its actions. *)
Inductive exec (others : S -> S -> Prop) {A} : prog S A -> S -> res A -> S -> Prop :=
  | exec_ret r s : exec others (Ret r) s r s
  | exec_act B (a : fault -> sm S B) next ft s s1 r s2 v s3 :
      others s s1 -> a ft s1 = (r, s2) -> exec others (next r) s2 v s3 -> exec others (Act a next) s v s3.

Context (inv : S -> Prop) (rely : S -> S -> Prop) `{!PreOrder rely}.

(** [post r s] holds where the program returns [r]. *)
Fixpoint safe {A} (post : res A -> S -> Prop) (p : prog S A) (s : S) : Prop :=
  match p with
  | Ret _ => True
  | Act a next => forall ft s1 r s2, rely s s1 -> inv s1 -> a ft s1 = (r, s2) ->
      inv s2 /\ rely s1 s2 /\ safe post (next r) s2 /\ match next r with Ret v => post v s2 | Act _ _ => True end
  end.

Definition returns {A} (post : res A -> S -> Prop) (p : prog S A) (s : S) : Prop :=
  match p with Ret v => post v s | Act _ _ => True end.

Lemma safe_rely {A} post (p : prog S A) s s' : safe post p s -> rely s s' -> safe post p s'.
Proof.
  destruct p as [r | B a next]; [done |]. intros Hs Hr ft s1 r s2 Hr1. apply Hs. by etransitivity.
Qed.

(** The rule for one action: what it does, and why the rest is safe after it. *)
Lemma safe_andthen {A B} post (a : fault -> sm S B) (next : B -> prog S A) s :
  (forall ft s1 r s2, rely s s1 -> inv s1 -> a ft s1 = (r, s2) ->
     inv s2 /\ rely s1 s2 /\
     match r with Ok b => safe post (next b) s2 /\ returns post (next b) s2 | Err e => post (Err e) s2 end) ->
  safe post (andthen a next) s.
Proof.
  intros H ft s1 r s2 Hr Hi Ha. destruct (H ft s1 r s2 Hr Hi Ha) as (H1 & H2 & H3). split; [done |]. split; [done |].
  by destruct r as [b | e].
Qed.

(** What a failing action raises. *)
Definition io_error (unreadable e : pyexn) : Prop := e = unreadable \/ exists msg, e = OSError msg.

(** An action that fails leaves the state as it was or as it leaves it when it works. *)
Lemma faulty_inv {B} unreadable (m : sm S B) ft s r s' :
  faulty unreadable m ft s = (r, s') ->
  m s = (r, s') \/ (exists e, r = Err e /\ io_error unreadable e) /\ (s' = s \/ exists b, m s = (Ok b, s')).
Proof.
  unfold faulty. destruct ft; [by left | | |].
  - intros [= <- <-]. right. split; [| by left]. eexists. split; [done | by left].
  - intros [= <- <-]. right. split; [| by left]. eexists. split; [done |]. right. by eexists.
  - destruct (m s) as [[b | e] s1]; intros [= <- <-]; [| by left]. right. split; [eexists; split; [done |]; right; by eexists |]. right. by eexists.
Qed.

Lemma safe_faulty {A B} post unreadable (m : sm S B) (next : B -> prog S A) s :
  (forall e s, io_error unreadable e -> post (Err e) s) ->
  (forall s1, rely s s1 -> inv s1 -> exists r s2, m s1 = (r, s2) /\ inv s2 /\ rely s1 s2 /\
     match r with Ok b => safe post (next b) s2 /\ returns post (next b) s2 | Err e => post (Err e) s2 end) ->
  safe post (andthen (faulty unreadable m) next) s.
Proof.
  intros Hio H. apply safe_andthen. intros ft s1 r s2 Hr Hi Hf. destruct (H s1 Hr Hi) as (r' & s2' & Hm & Hi2 & Hr2 & Hn).
  apply faulty_inv in Hf as [Hf | [(e & -> & He) [-> | (b & Hf)]]].
  - rewrite Hm in Hf. injection Hf as -> ->. done.
  - split; [done |]. split; [reflexivity | by apply Hio].
  - rewrite Hm in Hf. injection Hf as -> ->. split; [done |]. split; [done | by apply Hio].
Qed.

Definition thread_safe (s : S) (t : thread S) : Prop := exists post, safe post (th_code t) s.

Lemma pool_safe starts s ps s' ps' :
  (forall p s, starts p -> inv s -> thread_safe s p) ->
  pool_step starts (s, ps) (s', ps') -> inv s -> Forall (thread_safe s) ps ->
  inv s' /\ Forall (thread_safe s') ps'.
Proof.
  intros Hst Hstep Hi Hps. inversion Hstep as [i A B a next ft r s0 s0' ps0 Hi0 Ha | p s0 ps0 Hp]; subst.
  - destruct (Forall_lookup_1 _ _ _ _ Hps Hi0) as [post Hp].
    destruct (Hp ft s r s' ltac:(reflexivity) Hi Ha) as (Hi' & Hr & Hn & _). split; [done |].
    apply Forall_insert; [| by exists post]. eapply Forall_impl; [exact Hps |]. intros q [post' Hq]. exists post'.
    exact (safe_rely post' _ s s' Hq Hr).
  - split; [done |]. apply Forall_app. split; [done |]. constructor; [by apply Hst | done].
Qed.

Lemma pool_run_safe starts x y :
  (forall p s, starts p -> inv s -> thread_safe s p) ->
  pool_run starts x y -> inv (fst x) -> Forall (thread_safe (fst x)) (snd x) -> inv (fst y) /\ Forall (thread_safe (fst y)) (snd y).
Proof.
  intros Hst Hrun. induction Hrun as [x | [s ps] [s1 ps1] y Hstep _ IH]; intros Hi Hps; [done |].
  destruct (pool_safe starts s ps s1 ps1 Hst Hstep Hi Hps) as [? ?]. by apply IH.
Qed.

Lemma pool_run_inv starts x y :
  (forall p s, starts p -> inv s -> thread_safe s p) ->
  pool_run starts x y -> inv (fst x) -> Forall (thread_safe (fst x)) (snd x) -> inv (fst y).
Proof. intros Hst Hrun Hi Hps. exact (proj1 (pool_run_safe starts x y Hst Hrun Hi Hps)). Qed.

Lemma exec_post {A} post (p : prog S A) s v s' :
  exec (fun s s1 => inv s1 /\ rely s s1) p s v s' -> safe post p s -> returns post p s -> post v s'.
Proof.
  induction 1 as [r s | B a next ft s s1 r s2 v s3 [Hi Hr] Ha _ IH]; intros Hs Hret; [done |].
  destruct (Hs ft s1 r s2 Hr Hi Ha) as (_ & _ & Hn & Hp). apply IH; [done |]. exact Hp.
Qed.

(** A safe program alone is one of its interleavings. *)
Lemma exec_alone {A} post (p : prog S A) s :
  inv s -> safe post p s -> exec (fun s s1 => inv s1 /\ rely s s1) p s (fst (run p s)) (snd (run p s)).
Proof.
  revert s. induction p as [r | B a next IH]; intros s Hi Hs; cbn [run]; [constructor |].
  destruct (a NoFault s) as [r s2] eqn:Ha. destruct (Hs NoFault s r s2 ltac:(reflexivity) Hi Ha) as (Hi2 & _ & Hn & _).
  eapply exec_act; [split; [exact Hi | reflexivity] | exact Ha |]. by apply IH.
Qed.

Lemma run_safe {A} post (p : prog S A) s :
  inv s -> safe post p s -> returns post p s -> inv (snd (run p s)) /\ post (fst (run p s)) (snd (run p s)).
Proof.
  revert s. induction p as [r | B a next IH]; intros s Hi Hs Hret; cbn [run]; [done |].
  destruct (a NoFault s) as [r s2] eqn:Ha. destruct (Hs NoFault s r s2 ltac:(reflexivity) Hi Ha) as (Hi2 & _ & Hn & Hp). apply IH; [done | done | exact Hp].
Qed.

(** A program, and what follows it. *)
Lemma safe_pbind {A B} (first : res A -> S -> Prop) (post : res B -> S -> Prop) (p : prog S A) f s :
  (forall v s', inv s' -> first v s' -> safe post (f v) s' /\ returns post (f v) s') ->
  inv s -> safe first p s -> returns first p s -> safe post (pbind p f) s /\ returns post (pbind p f) s.
Proof.
  intros Hf. revert s. induction p as [r | C a next IH]; intros s Hi Hs Hr; cbn [pbind]; [by apply Hf |].
  split; [| done]. intros ft s1 r s2 Hrel Hi1 Ha. destruct (Hs ft s1 r s2 Hrel Hi1 Ha) as (Hi2 & Hr2 & Hn & Hp).
  split; [done |]. split; [done |]. exact (IH r s2 Hi2 Hn Hp).
Qed.

(** ** One thread among others *)

Definition finished (t : thread S) : bool := match th_code t with Ret _ => true | Act _ _ => false end.

Definition step_thread (t : thread S) (ft : fault) (s : S) : option (thread S * S) :=
  match th_code t with
  | Ret _ => None
  | Act a next => let '(r, s') := a ft s in Some (Thread (th_type t) (next r), s')
  end.

(** The thread is safe and, once it is done, has kept its promise. *)
Definition tracks {A} (post : res A -> S -> Prop) (s : S) (t : thread S) : Prop :=
  exists p, t = Thread A p /\ safe post p s /\ returns post p s.

Definition stable {A} (post : res A -> S -> Prop) : Prop := forall v s s', post v s -> inv s -> rely s s' -> post v s'.

Lemma tracks_step {A} (post : res A -> S -> Prop) s t ft t' s' :
  inv s -> tracks post s t -> step_thread t ft s = Some (t', s') -> tracks post s' t'.
Proof.
  intros Hi (p & -> & Hs & Hr) Hstep. unfold step_thread in Hstep. cbn [th_code th_type] in Hstep. destruct p as [v | B a next]; [discriminate |].
  destruct (a ft s) as [r s2] eqn:Ha. injection Hstep as <- <-. destruct (Hs ft s r s2 ltac:(reflexivity) Hi Ha) as (_ & _ & Hn & Hp). exists (next r). done.
Qed.

Lemma tracks_rely {A} (post : res A -> S -> Prop) s t s' : stable post -> inv s -> tracks post s t -> rely s s' -> tracks post s' t.
Proof.
  intros Hst Hi (p & -> & Hs & Hr) Hrel. exists p. split; [done |]. split; [by eapply safe_rely |]. destruct p as [v | B a next]; [by eapply Hst | done].
Qed.

(** In any run of a pool of safe threads, the tracked thread stays so. *)
Lemma pool_tracks {A} (post : res A -> S -> Prop) starts i x y t :
  (forall p s, starts p -> inv s -> thread_safe s p) -> stable post ->
  pool_run starts x y -> inv (fst x) -> Forall (thread_safe (fst x)) (snd x) ->
  snd x !! i = Some t -> tracks post (fst x) t -> exists t', snd y !! i = Some t' /\ tracks post (fst y) t'.
Proof.
  intros Hst Hpost Hrun. revert t. induction Hrun as [x | [s ps] [s1 ps1] y Hstep _ IH]; intros t Hi Hps Hl Ht; [by exists t |].
  destruct (pool_safe starts s ps s1 ps1 Hst Hstep Hi Hps) as [Hi1 Hps1]. cbn [fst snd] in *.
  inversion Hstep as [j B C a next ft r s0 s0' ps0 Hj Ha | p s0 ps0 Hp]; subst.
  - assert (Hth : step_thread (Thread B (Act a next)) ft s = Some (Thread B (next r), s1)) by (unfold step_thread; cbn; by rewrite Ha).
    destruct (decide (j = i)) as [-> | Hne].
    + rewrite Hl in Hj. injection Hj as ->. apply (IH (Thread B (next r))); [done | done | |].
      * apply list_lookup_insert_eq. by eapply lookup_lt_Some.
      * exact (tracks_step post s _ ft _ s1 Hi Ht Hth).
    + apply (IH t); [done | done | by rewrite list_lookup_insert_ne |]. destruct (Forall_lookup_1 _ _ _ _ Hps Hj) as [post' Hp].
      destruct (Hp ft s r s1 ltac:(reflexivity) Hi Ha) as (_ & Hr & _). exact (tracks_rely post s t s1 Hpost Hi Ht Hr).
  - apply (IH t); [done | done | | done]. rewrite lookup_app_l; [done |]. by eapply lookup_lt_Some.
Qed.
End pool.
