(* ===== verification/PeerHandouts.v ===== *)
(** * [server/peer_handouts.py]: the evidence of peer disclosures

    Before a device is told of a peer, the disclosure is written to the device's row.
    A second file, the admissions, says which devices have a row: a device is entered as
    pending, its row is created, and it becomes active.  The two files have separate
    locks, so an operation is a program of atomic actions, and an interrupted one is
    resumed by the next.

    The row store is any [RowStore] for the check of a row.  A file that is unreadable,
    too large or not strict JSON is [SText]; the bound of 4 MiB on the admissions is
    above the size of a document with [MAX_RECIPIENTS] entries. *)
From S2P Require Import Prelude PyVal JsonDump Ipv4 PolicyDoc SchedDoc KeyedState KeyedSpec WaveGate PolicyEval PeerEndpoints Interleave.

Definition MAX_RECIPIENTS : Z := 10256.
Definition MAX_ADDRESSES : Z := 4096.
Definition ADMISSIONS_SCHEMA : string := "iris-peer-handout-admissions/v1".
Definition HEX40 (s : string) : bool := hex_re 40 s.
Definition DEVICE_ID (s : string) : bool := _ID_RE s.
Definition MAX_I63 : Z := Z.shiftl 1 63 - 1.

Abbreviation herr := HandoutStoreError.

(** ** Field checks *)

Definition _integer_time (value : pyval) (name : string) : res Z :=
  let bad := Err (herr ("invalid " +:+ name)) in
  match value with
  | VInt z =>
      let* _ := isfinite value in
      if (z <? 0) || (MAX_I63 <? z) then bad else Ok z
  | VFloat f => if num_leb (FFin 0 0) f && num_leb f (FFin MAX_I63 0) then Ok (float_trunc f) else bad
  | _ => bad
  end.

Definition _stored_time (value : pyval) (name : string) : res Z :=
  match value with
  | VInt z => if (0 <=? z) && (z <=? MAX_I63) then Ok z else Err (herr ("invalid " +:+ name))
  | _ => Err (herr ("invalid " +:+ name))
  end.

(** With [secrets_store.validate_device_id]. *)
Definition _device_id (value : pyval) : res string :=
  match value with
  | VStr s => if DEVICE_ID s && negb (String.eqb s "seeder") then Ok s else Err (herr "invalid principal")
  | _ => Err (herr "invalid principal")
  end.

(** [str(IPv4Address(z))] *)
Definition ipv4_text (z : Z) : string :=
  let octet k := string_of (dec (z / k mod 256)) in
  octet (256 * 256 * 256) +:+ "." +:+ octet (256 * 256) +:+ "." +:+ octet 256 +:+ "." +:+ octet 1.

Definition _address (value : pyval) : res string :=
  match value with
  | VStr s =>
      match parse_ipv4 s with
      | Some z => if String.eqb (ipv4_text z) s then Ok s else Err (herr "noncanonical address")
      | None => Err (herr "invalid address")
      end
  | v => if address_value v then Err (herr "noncanonical address") else Err (herr "invalid address")
  end.

Definition ROW_FIELDS : list string := ["v"; "principal_type"; "principal_id"; "updated_at"; "handouts"].
Definition ITEM_FIELDS : list string := ["address"; "info_hash"; "expires_at"].

(** One handout; the addresses of a row ascend. *)
Definition check_item (prior : option string) (item : pyval) : res (option string) :=
  match item with
  | VDict d =>
      raise (ValueError "invalid handout") when negb (keys_are d ITEM_FIELDS);;;
      let* address := _address (dget_or d "address" VNone) in
      raise (ValueError "unsorted handouts") when match prior with Some p => str_leb address p | None => false end;;;
      raise (ValueError "invalid info hash") when
        negb (match dget_or d "info_hash" VNone with VStr h => HEX40 h | _ => false end);;;
      let* _ := _stored_time (dget_or d "expires_at" VNone) "expires_at" in
      Ok (Some address)
  | _ => Err (ValueError "invalid handout")
  end.

Definition _validate_row (key : string) (row : pyval) : res unit :=
  match row with
  | VDict d =>
      raise (ValueError "invalid handout row") when negb (keys_are d ROW_FIELDS);;;
      raise (ValueError "invalid handout identity") when
        negb (bool_decide (strict_int (dget_or d "v" VNone) = Some 1)) ||
        negb (py_eq (dget_or d "principal_type" VNone) (VStr "device")) ||
        negb (py_eq (dget_or d "principal_id" VNone) (VStr key));;;
      let* _ := _device_id (VStr key) in
      let* _ := _stored_time (dget_or d "updated_at" VNone) "updated_at" in
      match dget_or d "handouts" VNone with
      | VList values =>
          raise (ValueError "invalid handout list") when (MAX_ADDRESSES <? zlen values);;;
          let* _ := res_fold check_item None values in Ok tt
      | _ => Err (ValueError "invalid handout list")
      end
  | _ => Err (ValueError "invalid handout row")
  end.

(** ** The admissions file *)

Definition corrupt : pyexn := herr "handout admissions are corrupt".
Definition unavailable : pyexn := herr "handout admissions are unavailable".
(** The error of a shard that cannot be read. *)
Definition unreadable : pyexn := herr "keyed state unreadable".

Definition _validate_admissions (document : pyval) : res dict :=
  match document with
  | VDict d =>
      raise corrupt when negb (keys_are d ["schema"; "devices"]) || negb (py_eq (dget_or d "schema" VNone) (VStr ADMISSIONS_SCHEMA));;;
      match dget_or d "devices" VNone with
      | VDict devices =>
          raise corrupt when (MAX_RECIPIENTS <? zlen devices);;;
          res_iter (fun ds =>
            let* _ := _device_id (VStr (fst ds)) in
            raise corrupt when negb (in_strs (snd ds) ["pending"; "active"]);;; Ok tt) devices;;;
          Ok d
      | _ => Err corrupt
      end
  | _ => Err corrupt
  end.

Definition _read_admissions (f : option sfile) (missing_ok : bool) : res (option dict) :=
  match f with
  | None => if missing_ok then Ok None else Err unavailable
  | Some SText => Err unavailable
  | Some (SJson v) => let* d := _validate_admissions v in Ok (Some d)
  end.

(** [_read_admissions(path)] *)
Definition read_existing (f : option sfile) : res dict :=
  let* d := _read_admissions f false in Ok (default [] d).

Definition devices_of (document : dict) : dict := dict_or_empty (dget_or document "devices" VNone).
Definition with_device (document : dict) (dev state : string) : dict :=
  dset document "devices" (VDict (dset (devices_of document) dev (VStr state))).

(** [_write_document]: the file is replaced, and its keys sorted. *)
Definition written (document : dict) : option sfile := Some (SJson (sort_keys (VDict document))).

(** ** The update of a row *)

Definition handouts_of (row : pyval) : list pyval := default [] (as_list (field row "handouts")).
Definition expiry (item : pyval) : Z := match field item "expires_at" with VInt z => z | _ => 0 end.
Definition set_field (item : pyval) (k : string) (v : pyval) : pyval := VDict (dset (dict_or_empty item) k v).

Definition _empty (dev : string) (now : Z) : pyval :=
  VDict [("v", VInt 1); ("principal_type", VStr "device"); ("principal_id", VStr dev); ("updated_at", VInt now); ("handouts", VList [])].

(** The handouts that have not expired, by address. *)
Definition unexpired (disclosed : Z) (items : list pyval) : dict :=
  foldl (fun current item => if disclosed <? expiry item then dset current (text_of (field item "address")) item else current) [] items.

Definition disclose (h : string) (disclosed renewal new_expiry : Z) (st : dict * bool) (address : string) : dict * bool :=
  let '(current, changed) := st in
  match dget current address with
  | None => (dset current address (VDict [("address", VStr address); ("info_hash", VStr h); ("expires_at", VInt new_expiry)]), true)
  | Some old =>
      let '(old, changed) := if py_eq (field old "info_hash") (VStr h) then (old, changed) else (set_field old "info_hash" (VStr h), true) in
      let '(old, changed) := if expiry old - disclosed <=? renewal then (set_field old "expires_at" (VInt new_expiry), true) else (old, changed) in
      (dset current address old, changed)
  end.

Definition disclosed_row (dev : string) (disclosed : Z) (current : dict) : pyval :=
  VDict [("v", VInt 1); ("principal_type", VStr "device"); ("principal_id", VStr dev); ("updated_at", VInt disclosed);
    ("handouts", VList (map snd (sort_by key_le current)))].

Definition row_update (dev h : string) (disclosed renewal new_expiry : Z) (addresses : list string) (row : option pyval) : res upd :=
  match row with
  | None => Err (herr "established handout row is missing")
  | Some row =>
      _validate_row dev row;;;
      let current := unexpired disclosed (handouts_of row) in
      let '(current, changed) := foldl (disclose h disclosed renewal new_expiry)
        (current, negb (zlen current =? zlen (handouts_of row))) addresses in
      raise (herr "handout address cap reached") when (MAX_ADDRESSES <? zlen current);;;
      Ok (if changed then UPut (disclosed_row dev disclosed current) else UKeep)
  end.

(** ** The ledger *)

Section ledger.
Context {T : Type} {rows : RowStore T _validate_row}.

Record store := Store { h_rows : T; h_admissions : option sfile }.

Definition rows_get (dev : string) : sm store (option pyval) := fun s =>
  let '(r, t) := rs_get dev (h_rows s) in (r, Store t (h_admissions s)).
Definition rows_update (dev : string) (fn : option pyval -> res upd) : sm store upd := fun s =>
  let '(r, (t, _)) := rs_update dev (fun row => lift (fn row)) (h_rows s, tt) in (r, Store t (h_admissions s)).
Definition rows_snapshot : sm store dict := fun s =>
  let '(r, t) := rs_snapshot (h_rows s) in (r, Store t (h_admissions s)).

(** What is done under the lock of the admissions. *)
Definition read_devices : sm store dict := fun s =>
  (let* d := read_existing (h_admissions s) in Ok (devices_of d), s).

Definition enter_pending (dev : string) (observed : option pyval) : sm store string := fun s =>
  match read_existing (h_admissions s) with
  | Err e => (Err e, s)
  | Ok document =>
      match dget (devices_of document) dev with
      | None =>
          if match observed with Some _ => true | None => false end then (Err (herr "established handout admission is missing"), s)
          else if MAX_RECIPIENTS <=? zlen (devices_of document) then (Err (herr "handout recipient cap reached"), s)
          else (Ok "pending", Store (h_rows s) (written (with_device document dev "pending")))
      | Some state => (if in_strs state ["active"; "pending"] then Ok (text_of state) else Err (herr "handout admission changed"), s)
      end
  end.

Definition enter_active (dev : string) : sm store unit := fun s =>
  match read_existing (h_admissions s) with
  | Err e => (Err e, s)
  | Ok document =>
      match dget (devices_of document) dev with
      | Some (VStr state) =>
          if String.eqb state "pending" then (Ok tt, Store (h_rows s) (written (with_device document dev "active")))
          else if String.eqb state "active" then (Ok tt, s) else (Err (herr "handout admission changed"), s)
      | _ => (Err (herr "handout admission changed"), s)
      end
  end.

Definition ensure (dev : string) (now : Z) (state : string) (row : option pyval) : res upd :=
  match row with
  | None => if String.eqb state "active" then Err (herr "established handout row is missing") else Ok (UPut (_empty dev now))
  | Some row => _validate_row dev row;;; Ok UKeep
  end.

Definition confirm_row (missing dev : string) (row : option pyval) : res upd :=
  match row with
  | None => Err (herr missing)
  | Some row => _validate_row dev row;;; Ok UKeep
  end.

Definition _admit {A} (dev : string) (now : Z) (next : prog store A) : prog store A :=
  act observed := faulty unreadable (rows_get dev) in
  act state := faulty unavailable (enter_pending dev observed) in
  act _ := faulty unreadable (rows_update dev (ensure dev now state)) in
  act _ := faulty unavailable (enter_active dev) in
  act _ := faulty unreadable (rows_update dev (confirm_row "pending handout row is missing" dev)) in
  next.

Context (ttl : Z).

Definition renewal : Z := Z.max 1 (Z.min 120 (ttl / 3)).

(** [sorted(set(addresses))] of the selected peers. *)
Definition peer_addresses (peers : list pyval) : res (list string) :=
  let* l := res_map (fun peer =>
    match peer with VDict d => _address (dget_or d "ip" VNone) | _ => Err (herr "invalid selected peer") end) peers in
  Ok (sort_by str_leb (remove_dups l)).

(** The checks of the arguments: the device, the time and the addresses; none to record is success. *)
Definition record_args (p : principal) (peers : list pyval) (info_hash now : pyval) : res (option (string * string * Z * list string)) :=
  if negb (String.eqb (p_type p) "device") then Ok None
  else
    let* dev := _device_id (VStr (p_id p)) in
    match info_hash with
    | VStr h =>
        raise (herr "invalid info hash") when negb (HEX40 h);;;
        let* disclosed := _integer_time now "disclosure time" in
        let* addresses := peer_addresses peers in
        match addresses with
        | [] => Ok None
        | _ => raise (herr "invalid disclosure time") when (MAX_I63 - ttl <? disclosed);;; Ok (Some (dev, h, disclosed, addresses))
        end
    | _ => Err (herr "invalid info hash")
    end.

Definition record (p : principal) (peers : list pyval) (info_hash now : pyval) : prog store bool :=
  match record_args p peers info_hash now with
  | Err e => Ret (Err e)
  | Ok None => Ret (Ok true)
  | Ok (Some (dev, h, disclosed, addresses)) =>
      _admit dev disclosed (
        act _ := faulty unreadable (rows_update dev (row_update dev h disclosed renewal (disclosed + ttl) addresses)) in
        Ret (Ok true))
  end.

(** [update] as a look at the row of one device. *)
Definition look (dev : string) (fn : option pyval -> res unit) : sm store (option pyval) := fun s =>
  match rs_update dev (fun row => fun _ : option pyval => (let* _ := fn row in Ok UKeep, row)) (h_rows s, None) with
  | (Ok _, (t, row)) => (Ok row, Store t (h_admissions s))
  | (Err e, (t, _)) => (Err e, Store t (h_admissions s))
  end.

Definition inspect_orphan (dev : string) (row : option pyval) : res unit :=
  match row with Some row => _validate_row dev row | None => Ok tt end.

Definition confirm (dev : string) (row : option pyval) : res unit :=
  match row with Some row => _validate_row dev row | None => Err (herr "established handout row is missing") end.

Definition current (device_id now : pyval) : prog store (list pyval) :=
  match (let* dev := _device_id device_id in let* t := _integer_time now "time" in Ok (dev, t)) with
  | Err e => Ret (Err e)
  | Ok (dev, t) =>
      act devices := faulty unavailable read_devices in
      match dget devices dev with
      | None =>
          act orphan := faulty unreadable (look dev (inspect_orphan dev)) in
          act devices := faulty unavailable read_devices in
          Ret (match dget devices dev, orphan with
               | Some _, _ => Err (herr "handout admission changed")
               | None, Some _ => Err (herr "established handout admission is missing")
               | None, None => Ok []
               end)
      | Some state =>
          if negb (py_eq state (VStr "active")) then Ret (Err (herr "handout admission is pending"))
          else
            act row := faulty unreadable (look dev (confirm dev)) in
            Ret (Ok (filter (fun item => (t <? expiry item) = true) (match row with Some row => handouts_of row | None => [] end)))
      end
  end.

(** ** Initialization *)

Definition read_if_present : sm store (option dict) := fun s => (_read_admissions (h_admissions s) true, s).
Definition read_document : sm store dict := fun s => (read_existing (h_admissions s), s).

(** The first document, unless another initializer wrote one. *)
Definition create_admissions : sm store bool := fun s =>
  match _read_admissions (h_admissions s) true with
  | Err e => (Err e, s)
  | Ok (Some _) => (Ok false, s)
  | Ok None => (Ok true, Store (h_rows s) (written [("schema", VStr ADMISSIONS_SCHEMA); ("devices", VDict [])]))
  end.

(** The rows and the admissions agree. *)
Definition agree (devices snapshot : dict) : res unit :=
  raise (herr "established handout admission is missing") when negb (forallb (dhas devices) (dkeys snapshot));;;
  raise (herr "established handout row is missing") when
    existsb (fun ds => py_eq (snd ds) (VStr "active") && negb (dhas snapshot (fst ds))) devices;;;
  Ok tt.

(** [fuel] bounds the calls that find another initializer's document. *)
Fixpoint initialize (fuel : nat) (create : bool) : prog store bool :=
  match fuel with
  | O => Ret (Err OutOfFuel)
  | S fuel =>
      act existing := faulty unavailable read_if_present in
      act snapshot := faulty unreadable rows_snapshot in
      match existing with
      | Some document =>
          act again := faulty unavailable read_document in
          Ret (raise (herr "handout admissions changed") when negb (py_eq (VDict again) (VDict document));;;
               agree (devices_of document) snapshot;;; Ok false)
      | None =>
          if negb create then Ret (Err unavailable)
          else if negb (bool_decide (snapshot = [])) then Ret (Err (herr "established handout admissions are missing"))
          else
            act created := faulty unavailable create_admissions in
            if (created : bool) then Ret (Ok true) else initialize fuel create
      end
  end.
End ledger.
Arguments store : clear implicits.

(** [KeyedState(path, error=HandoutStoreError, validate=_validate_row, durable=True)] *)
#[export] Instance handout_rows : RowStore kstate _validate_row := keyed_rows herr _validate_row.

(** [record_handout] of a tracker that runs alone with the ledger. *)
Definition peer_dict (peer : string * Z) : pyval := VDict [("ip", VStr (fst peer)); ("port", VInt (snd peer))].
Definition record_handout {T} {rows : RowStore T _validate_row} (ttl : Z) (p : principal) (peers : list (string * Z)) (info_hash : string)
    (now : pyfloat) : sm (store T) bool :=
  run (record ttl p (map peer_dict peers) (VStr info_hash) (VFloat now)).
