(* ===== verification/HandoutRows.v ===== *)
(** * Rows of the handout ledger

    The checks of a row do not depend on the order of keys on disk, the rows the ledger
    writes pass them, and the update of a row acts on the map from addresses to what was
    disclosed: expired entries go, the disclosed ones get the torrent and a time, and
    nothing else changes. *)
From S2P Require Import Prelude PyVal JsonDump Ipv4 SchedDoc KeyedState KeyedSpec SchedValid WaveGate PeerEndpoints EndpointSpec PeerHandouts.

(** ** The order of keys *)

Lemma keys_are_iff d ks : keys_are d ks = true <-> forall k, dhas d k = existsb (String.eqb k) ks.
Proof.
  unfold keys_are. rewrite andb_true_iff, !forallb_forall. split.
  - intros [H1 H2] k. destruct (existsb (String.eqb k) ks) eqn:E.
    + apply existsb_exists in E as (x & Hx & ->%String.eqb_eq). by apply H2.
    + destruct (dhas d k) eqn:Hd; [| done]. apply dhas_spec, list_elem_of_In, H1 in Hd. congruence.
  - intros H. split; intros k Hk.
    + rewrite <- H. apply dhas_spec. by apply list_elem_of_In.
    + rewrite H. apply existsb_exists. exists k. split; [done | apply String.eqb_refl].
Qed.

Lemma dhas_sorted d k : dhas (dict_or_empty (sort_keys (VDict d))) k = dhas d k.
Proof.
  apply eq_true_iff_eq. rewrite !dhas_spec. by rewrite dkeys_sort_keys.
Qed.

Lemma keys_are_sorted d ks : keys_are (dict_or_empty (sort_keys (VDict d))) ks = keys_are d ks.
Proof. apply eq_true_iff_eq. rewrite !keys_are_iff. by setoid_rewrite dhas_sorted. Qed.

Lemma sorted_dict d : sort_keys (VDict d) = VDict (dict_or_empty (sort_keys (VDict d))).
Proof. done. Qed.

Lemma dget_or_sorted d k : NoDup (dkeys d) -> dget_or (dict_or_empty (sort_keys (VDict d))) k VNone = sort_keys (dget_or d k VNone).
Proof. intros H. unfold dget_or. rewrite dget_sort_keys by done. by destruct (dget d k). Qed.

Lemma address_of_sorted v : _address (sort_keys v) = _address v.
Proof. by destruct v. Qed.
Lemma stored_time_sorted v n : _stored_time (sort_keys v) n = _stored_time v n.
Proof. by destruct v. Qed.

Lemma check_item_sorted prior v : wf_val v -> check_item prior (sort_keys v) = check_item prior v.
Proof.
  intros Hw. destruct v as [| | | | | | d]; try done. apply wf_dict in Hw as [Hn _]. rewrite sorted_dict. cbn [check_item].
  rewrite keys_are_sorted, !dget_or_sorted by done. rewrite address_of_sorted, stored_time_sorted. by destruct (dget_or d "info_hash" VNone).
Qed.

Lemma check_items_sorted prior l : Forall wf_val l -> res_fold check_item prior (map sort_keys l) = res_fold check_item prior l.
Proof.
  intros H. revert prior. induction H as [| v l Hv _ IH]; intros prior; [done |]. cbn [map res_fold]. rewrite check_item_sorted by done.
  destruct (check_item prior v) as [p |]; [| done]. apply IH.
Qed.

Lemma validate_row_sorted key v : wf_val v -> _validate_row key (sort_keys v) = _validate_row key v.
Proof.
  intros Hw. destruct v as [| | | | | | d]; try done. pose proof Hw as [Hn _]%wf_dict. rewrite sorted_dict. cbn [_validate_row].
  rewrite keys_are_sorted, !dget_or_sorted, stored_time_sorted by done.
  assert (Hh : wf_val (dget_or d "handouts" VNone)) by (by apply wf_dget_or).
  assert (Hs : strict_int (sort_keys (dget_or d "v" VNone)) = strict_int (dget_or d "v" VNone)) by (by destruct (dget_or d "v" VNone)). rewrite Hs.
  assert (Hp : forall x s, py_eq (sort_keys x) (VStr s) = py_eq x (VStr s)) by (by intros []). rewrite !Hp.
  destruct (dget_or d "handouts" VNone); try done. cbn [sort_keys]. apply wf_list in Hh. rewrite check_items_sorted by done.
  unfold zlen. by rewrite length_map.
Qed.

#[local] Abbreviation row_storable := (storable _validate_row).

Lemma row_storable_intro k v : good v -> _validate_row k v = Ok tt -> row_storable k v.
Proof.
  intros [Hw Hf] Hv. split; [by intros -> |]. split; [done |]. split; [done |]. by rewrite validate_row_sorted.
Qed.

Lemma row_storable_valid k v : row_storable k v -> sort_keys v = v -> good v /\ _validate_row k v = Ok tt.
Proof. intros (_ & Hw & Hf & Hv) Hc. rewrite Hc in Hv. by split. Qed.

(** ** Items *)

(** An item that discloses address [a]. *)
Definition item_ok (a : string) (v : pyval) : Prop := check_item None v = Ok (Some a) /\ good v.

Lemma check_item_prior p a v :
  check_item None v = Ok (Some a) -> check_item (Some p) v = if str_leb a p then Err (ValueError "unsorted handouts") else Ok (Some a).
Proof.
  intros H. destruct v as [| | | | | | d]; try discriminate H. cbn [check_item] in *. destruct (negb (keys_are d ITEM_FIELDS)); [discriminate H |].
  destruct (_address _) as [x |]; [| discriminate H]. cbn [mbind res_bind] in *. destruct (negb _); [discriminate H |].
  destruct (_stored_time _ _) as [t |]; [| discriminate H]. cbn [mbind res_bind] in *. injection H as <-. done.
Qed.

Lemma address_str v a : _address v = Ok a -> v = VStr a.
Proof.
  destruct v as [| | | | s | |]; cbn [_address]; try (destruct (address_value _); discriminate).
  destruct (parse_ipv4 s) as [z |]; [| discriminate]. destruct (String.eqb (ipv4_text z) s); [by intros [= ->] | discriminate].
Qed.

Lemma item_address a v : check_item None v = Ok (Some a) ->
  text_of (field v "address") = a /\ _address (VStr a) = Ok a /\ (exists h, field v "info_hash" = VStr h /\ HEX40 h = true) /\
  field v "expires_at" = VInt (expiry v) /\ 0 <= expiry v <= MAX_I63.
Proof.
  intros H. destruct v as [| | | | | | d]; try discriminate H. cbn [check_item] in H. head H. unfold expiry. cbn [field].
  destruct (_address (dget_or d "address" VNone)) as [x |] eqn:Ea; [| discriminate H]. cbn [mbind res_bind] in H.
  pose proof (address_str _ _ Ea) as Ex. rewrite Ex in Ea |- *.
  destruct (dget_or d "info_hash" VNone) as [| | | | h | |]; try discriminate H. destruct (HEX40 h) eqn:Eh; [| discriminate H]. cbn [negb] in H.
  unfold _stored_time in H. destruct (dget_or d "expires_at" VNone) as [| | e | | | |]; try discriminate H.
  destruct ((0 <=? e) && (e <=? MAX_I63)) eqn:Ee; [| discriminate H]. cbn [mbind res_bind] in H. injection H as <-.
  split; [done |]. split; [exact Ea |]. split; [by exists h |]. split; [done |]. bool_norm. lia.
Qed.

(** A dict with the fields of an item. *)
Lemma item_intro d a h e :
  good (VDict d) -> keys_are d ITEM_FIELDS = true -> _address (VStr a) = Ok a -> HEX40 h = true -> 0 <= e <= MAX_I63 ->
  dget d "address" = Some (VStr a) -> dget d "info_hash" = Some (VStr h) -> dget d "expires_at" = Some (VInt e) -> item_ok a (VDict d).
Proof.
  intros Hg Hk Ha Hh He H1 H2 H3. split; [| done]. unfold check_item. unfold dget_or. rewrite Hk, H1, H2, H3.
  cbn [negb default from_option id]. rewrite Ha. cbn [mbind res_bind]. rewrite Hh. cbn [negb _stored_time].
  destruct (Z.leb_spec 0 e); [| lia]. destruct (Z.leb_spec e MAX_I63); [| lia]. done.
Qed.

Lemma item_fields a v : item_ok a v -> exists d h, v = VDict d /\ keys_are d ITEM_FIELDS = true /\ dget d "address" = Some (VStr a) /\
  dget d "info_hash" = Some (VStr h) /\ HEX40 h = true /\ dget d "expires_at" = Some (VInt (expiry v)) /\ 0 <= expiry v <= MAX_I63 /\ _address (VStr a) = Ok a.
Proof.
  intros [H Hg]. pose proof (item_address a v H) as (H1 & H2 & (h & H3 & H4) & H5 & H6).
  destruct v as [| | | | | | d]; try discriminate H. exists d, h. split; [done |].
  assert (Hk : keys_are d ITEM_FIELDS = true) by (cbn [check_item] in H; by destruct (keys_are d ITEM_FIELDS)).
  assert (Hd : forall k, k ∈ ITEM_FIELDS -> dget d k = Some (field (VDict d) k)).
  { intros k Hk'. cbn [field]. unfold dget_or. pose proof (proj1 (keys_are_iff _ _) Hk k) as E. unfold dhas in E.
    destruct (dget d k) eqn:Ek; [done |]. exfalso. apply list_elem_of_In in Hk'. assert (existsb (String.eqb k) ITEM_FIELDS = true); [| congruence].
    apply existsb_exists. exists k. split; [done | apply String.eqb_refl]. }
  rewrite !Hd by (unfold ITEM_FIELDS; set_solver). rewrite H3, H5. split; [done |]. split; [| done].
  cbn [check_item] in H. rewrite Hk in H. cbn [negb] in H. cbn [field]. destruct (_address (dget_or d "address" VNone)) as [x |] eqn:Ea; [| discriminate H].
  apply address_str in Ea. cbn [field] in H1. rewrite Ea in H1 |- *. by cbn in H1; subst.
Qed.

Lemma keys_are_dset d ks k v : keys_are d ks = true -> k ∈ ks -> keys_are (dset d k v) ks = true.
Proof.
  rewrite !keys_are_iff. intros H Hk x. unfold dhas. rewrite dget_dset. destruct (String.eqb_spec k x) as [<- |]; [| apply H].
  symmetry. apply existsb_exists. exists k. split; [by apply list_elem_of_In | apply String.eqb_refl].
Qed.

(** What an item says: the torrent, and until when. *)
Definition entry (v : pyval) : string * Z := (text_of (field v "info_hash"), expiry v).

Lemma new_item_ok a h e : _address (VStr a) = Ok a -> HEX40 h = true -> 0 <= e <= MAX_I63 ->
  item_ok a (VDict [("address", VStr a); ("info_hash", VStr h); ("expires_at", VInt e)]).
Proof. intros Ha Hh He. eapply item_intro; [good_tac | done | done | exact Hh | exact He | done | done | done]. Qed.

Lemma set_hash_ok a v h : item_ok a v -> HEX40 h = true -> item_ok a (set_field v "info_hash" (VStr h)) /\ entry (set_field v "info_hash" (VStr h)) = (h, expiry v).
Proof.
  intros Hv Hh. pose proof (item_fields a v Hv) as (d & h0 & -> & Hk & H1 & H2 & _ & H4 & H5 & H6). unfold set_field. cbn [dict_or_empty as_dict default from_option id]. split.
  - eapply item_intro; [apply good_dset; [apply Hv | done] | | exact H6 | exact Hh | exact H5 | | |]; rewrite ?dget_dset; try done.
    apply keys_are_dset; [done |]. unfold ITEM_FIELDS. set_solver.
  - unfold entry, expiry in *. cbn [field] in *. unfold dget_or. rewrite !dget_dset. cbn. rewrite H4. done.
Qed.

Lemma set_expiry_ok a v e : item_ok a v -> 0 <= e <= MAX_I63 -> item_ok a (set_field v "expires_at" (VInt e)) /\ entry (set_field v "expires_at" (VInt e)) = (fst (entry v), e).
Proof.
  intros Hv He. pose proof (item_fields a v Hv) as (d & h0 & -> & Hk & H1 & H2 & Hh & H4 & H5 & H6). unfold set_field. cbn [dict_or_empty as_dict default from_option id]. split.
  - eapply item_intro; [apply good_dset; [apply Hv | done] | | exact H6 | exact Hh | exact He | | |]; rewrite ?dget_dset; try done.
    apply keys_are_dset; [done |]. unfold ITEM_FIELDS. set_solver.
  - unfold entry, expiry. cbn [field fst]. unfold dget_or. rewrite !dget_dset. cbn. done.
Qed.

(** ** The map of a row *)

(** Items by address. *)
Definition items_ok (current : dict) : Prop := NoDup (dkeys current) /\ forall a v, dget current a = Some v -> item_ok a v.

Lemma items_ok_dset current a v : items_ok current -> item_ok a v -> items_ok (dset current a v).
Proof.
  intros [Hn Hi] Hv. split; [by apply NoDup_dset |]. intros x w. rewrite dget_dset. destruct (String.eqb_spec a x) as [<- |]; [by intros [= <-] | apply Hi].
Qed.

Definition by_address (items : list pyval) : dict := map (fun v => (text_of (field v "address"), v)) items.
Definition handout_at (row : pyval) (a : string) : option (string * Z) := entry <$> dget (by_address (handouts_of row)) a.

(** Items in ascending order of their addresses. *)
Definition ascending (prior : option string) (items : list pyval) : Prop :=
  StronglySorted (fun x y => str_leb (fst y) (fst x) = false) (by_address items) /\
  Forall (fun v => item_ok (text_of (field v "address")) v) items /\
  (forall p, prior = Some p -> Forall (fun av => str_leb (fst av) p = false) (by_address items)).

Lemma str_lt_trans a b c : str_leb b a = false -> str_leb c b = false -> str_leb c a = false.
Proof.
  intros H1 H2. destruct (str_leb c a) eqn:E; [| done]. pose proof (str_leb_total a b) as H. rewrite H1, orb_false_r in H.
  rewrite (str_leb_trans c a b E H) in H2. done.
Qed.

Lemma str_leb_antisym a b : str_leb a b = true -> str_leb b a = true -> a = b.
Proof.
  unfold str_leb, str_ltb. intros H1%negb_true_iff H2%negb_true_iff. pose proof (bytes_ltb_total _ _ H1 H2) as E.
  rewrite <- (String.string_of_list_ascii_of_string a), <- (String.string_of_list_ascii_of_string b). unfold bytes_of in E. by rewrite E.
Qed.

Lemma check_items_ascending prior items p : Forall good items -> res_fold check_item prior items = Ok p -> ascending prior items.
Proof.
  intros Hg. revert prior. induction Hg as [| v items Hv _ IH]; intros prior H; [split; [constructor | split; [constructor | intros; constructor]] |].
  cbn [res_fold] in H. destruct (check_item prior v) as [q |] eqn:E; [| discriminate H]. cbn [mbind res_bind] in H.
  assert (HN : exists a, q = Some a /\ check_item None v = Ok (Some a) /\ forall p0, prior = Some p0 -> str_leb a p0 = false).
  { destruct v as [| | | | | | d]; try discriminate E. cbn [check_item] in E |- *. destruct (negb (keys_are d ITEM_FIELDS)); [discriminate E |].
    destruct (_address _) as [a |]; [| discriminate E]. cbn [mbind res_bind] in *. exists a.
    destruct prior as [p0 |]; [destruct (str_leb a p0) eqn:Ep; [discriminate E |] |]; (destruct (negb _); [discriminate E |]);
      destruct (_stored_time _ _); try discriminate E; cbn [mbind res_bind] in *; injection E as <-; (split; [done |]); (split; [done |]); by intros ? [= <-]. }
  destruct HN as (a & -> & Hc & Hp). pose proof (item_address a v Hc) as (Ha & _). destruct (IH _ H) as (IH1 & IH2 & IH3).
  split; [| split].
  - cbn. constructor; [done |]. cbn [fst]. rewrite Ha. by apply IH3.
  - constructor; [| done]. rewrite Ha. by split.
  - intros p0 Hp0. cbn. constructor; [cbn; rewrite Ha; by apply Hp |]. eapply Forall_impl; [exact (IH3 a eq_refl) |]. intros [b w] Hb. cbn in *.
    exact (str_lt_trans _ _ _ (Hp p0 Hp0) Hb).
Qed.

Lemma ascending_check prior items : ascending prior items -> exists p, res_fold check_item prior items = Ok p.
Proof.
  intros (Hs & Hi & Hp). revert prior Hp. induction Hi as [| v items Hv _ IH]; intros prior Hp; [by exists prior |].
  cbn in Hs. apply StronglySorted_inv in Hs as [Hs Hhd]. cbn [res_fold].
  assert (E : check_item prior v = Ok (Some (text_of (field v "address")))).
  { destruct prior as [p |]; [| by destruct Hv]. rewrite (check_item_prior p (text_of (field v "address")) v) by (by destruct Hv).
    specialize (Hp p eq_refl). cbn in Hp. apply Forall_cons in Hp as [Hp _]. cbn in Hp. by rewrite Hp. }
  rewrite E. cbn [mbind res_bind]. apply IH; [done |]. intros p [= <-]. exact Hhd.
Qed.

Lemma ascending_nodup prior items : ascending prior items -> NoDup (dkeys (by_address items)).
Proof.
  intros (Hs & _). induction Hs as [| [a v] l Hs IH Hhd]; [constructor |]. cbn. constructor; [| exact IH].
  intros Hin. unfold dkeys in Hin. apply list_elem_of_fmap in Hin as ([b w] & -> & Hin). rewrite Forall_forall in Hhd. specialize (Hhd _ Hin). cbn in Hhd.
  pose proof (str_leb_total b b) as Ht. rewrite Hhd in Ht. done.
Qed.

Lemma ascending_items_ok prior items : ascending prior items -> items_ok (by_address items).
Proof.
  intros H. split; [by eapply ascending_nodup |]. intros a v Hv%dget_elem. destruct H as (_ & Hi & _). unfold by_address in Hv.
  apply list_elem_of_fmap in Hv as (w & [= -> ->] & Hw). rewrite Forall_forall in Hi. by apply Hi.
Qed.

(** ** The update *)

Lemma dset_same (d : dict) k v : dget d k = Some v -> dset d k v = d.
Proof. induction d as [| [x w] d IH]; cbn; [done |]. destruct (String.eqb_spec x k); [by intros [= ->] |]. intros H. by rewrite IH. Qed.

Lemma unexpired_filter disclosed items :
  NoDup (dkeys (by_address items)) -> unexpired disclosed items = filter (fun av => (disclosed <? expiry (snd av)) = true) (by_address items).
Proof.
  intros Hn. unfold unexpired.
  assert (H : forall acc, (forall k, k ∈ dkeys acc -> k ∉ dkeys (by_address items)) ->
    foldl (fun current item => if disclosed <? expiry item then dset current (text_of (field item "address")) item else current) acc items =
    acc ++ filter (fun av => (disclosed <? expiry (snd av)) = true) (by_address items)).
  { induction items as [| v items IH]; intros acc Hacc; [by rewrite app_nil_r |]. cbn [foldl by_address map]. cbn in Hn. apply NoDup_cons in Hn as [Hv Hn].
    destruct (disclosed <? expiry v) eqn:E.
    - rewrite dset_fresh. 2: { intros Hin. apply (Hacc _ Hin). by left. }
      rewrite IH; [| done |].
      + rewrite filter_cons_True by done. by rewrite <- app_assoc.
      + intros k Hk. unfold dkeys in Hk. rewrite map_app in Hk. apply elem_of_app in Hk as [Hk | Hk%list_elem_of_singleton].
        * intros Hin. apply (Hacc k Hk). by right.
        * cbn in Hk. by subst.
    - rewrite IH; [| done | intros k Hk Hin; apply (Hacc k Hk); by right]. rewrite filter_cons_False by (cbn; congruence). done. }
  rewrite H; [done |]. intros k Hk. inversion Hk.
Qed.

Lemma dget_filter (P : pyval -> bool) (d : dict) a :
  NoDup (dkeys d) -> dget (filter (fun av => P (snd av) = true) d) a = match dget d a with Some v => if P v then Some v else None | None => None end.
Proof.
  induction d as [| [x w] d IH]; intros Hn; [done |]. cbn in Hn. apply NoDup_cons in Hn as [Hx Hn]. rewrite filter_cons. cbn [snd dget].
  destruct (String.eqb_spec x a) as [-> |].
  - destruct (P w) eqn:E; [rewrite decide_True by done; cbn; by rewrite String.eqb_refl |]. rewrite decide_False by congruence.
    rewrite IH by done. apply dget_None in Hx. by rewrite Hx.
  - destruct (decide (P w = true)); cbn; [| by apply IH]. destruct (String.eqb_spec x a); [done |]. by apply IH.
Qed.

Lemma filter_dkeys_nodup (P : pyval -> bool) (d : dict) : NoDup (dkeys d) -> NoDup (dkeys (filter (fun av => P (snd av) = true) d)).
Proof.
  induction d as [| [x w] d IH]; intros Hn; [done |]. cbn in Hn. apply NoDup_cons in Hn as [Hx Hn]. rewrite filter_cons.
  destruct (decide (P _ = true)); [| by apply IH]. cbn. constructor; [| by apply IH]. intros Hin. apply Hx. unfold dkeys in *.
  apply list_elem_of_fmap in Hin as (y & -> & [_ Hy]%list_elem_of_filter). by apply list_elem_of_fmap_2.
Qed.

Section update.
Context (h : string) (disclosed renewal ttl : Z).
Context (h_ok : HEX40 h = true) (ttl_pos : 1 <= ttl) (disclosed_ok : 0 <= disclosed <= MAX_I63 - ttl).

(** What the row says of an address after a disclosure. *)
Definition alive (e : option (string * Z)) : option (string * Z) := he ← e; if disclosed <? snd he then Some he else None.
Definition renewed (e : option (string * Z)) : string * Z :=
  (h, match alive e with Some (_, t) => if t - disclosed <=? renewal then disclosed + ttl else t | None => disclosed + ttl end).
Definition after_disclosure (addresses : list string) (old : string -> option (string * Z)) (a : string) : option (string * Z) :=
  if decide (a ∈ addresses) then Some (renewed (old a)) else alive (old a).

#[local] Abbreviation dis := (disclose h disclosed renewal (disclosed + ttl)).

(** One address: its item is replaced by one that says what it should. *)
Lemma disclose_item current changed a :
  items_ok current -> (forall v, dget current a = Some v -> disclosed < expiry v) -> _address (VStr a) = Ok a ->
  exists v changed', dis (current, changed) a = (dset current a v, changed') /\ item_ok a v /\
    entry v = renewed (entry <$> dget current a) /\ (changed' = false -> changed = false /\ dget current a = Some v).
Proof.
  intros Hok Hlive Ha. unfold disclose, renewed, alive. destruct (dget current a) as [old |] eqn:E.
  2: { eexists _, true. split; [done |]. split; [apply new_item_ok; [done | done | lia] | done]. }
  pose proof (proj2 Hok a old E) as Hold. specialize (Hlive old eq_refl). cbn [fmap option_fmap option_map mbind option_bind snd entry].
  destruct (Z.ltb_spec disclosed (expiry old)); [| lia]. cbn beta iota.
  pose proof (item_address a old (proj1 Hold)) as (_ & _ & (h0 & Hh0 & _) & _). rewrite Hh0. cbn [py_eq].
  destruct (String.eqb_spec h0 h) as [-> |].
  - destruct (expiry old - disclosed <=? renewal) eqn:El.
    + destruct (set_expiry_ok a old (disclosed + ttl) Hold ltac:(lia)) as [H1 H2]. eexists _, true. split; [done |]. split; [done |]. split; [| done].
      rewrite H2. unfold entry. rewrite Hh0. cbn. by rewrite El.
    + exists old, changed. split; [done |]. split; [done |]. split; [unfold entry; rewrite Hh0; cbn; by rewrite El | done].
  - destruct (set_hash_ok a old h Hold h_ok) as [H1 H2]. pose proof (f_equal snd H2) as H3. cbn in H3. rewrite H3.
    destruct (expiry old - disclosed <=? renewal) eqn:El; [| eexists _, true; split; [done |]; split; [done |]; split; [rewrite H2; cbn; by rewrite El | done]].
    destruct (set_expiry_ok a _ (disclosed + ttl) H1 ltac:(lia)) as [H4 H5]. eexists _, true. split; [done |]. split; [done |]. split; [| done].
    rewrite H5, H2. cbn. by rewrite El.
Qed.

Definition all_live (current : dict) : Prop := forall a v, dget current a = Some v -> disclosed < expiry v.

Lemma renewed_live e : disclosed < snd (renewed e).
Proof.
  unfold renewed, alive. destruct e as [[h0 t] |]; cbn; [| lia]. destruct (Z.ltb_spec disclosed t); cbn; [| lia]. by destruct (_ <=? renewal); lia.
Qed.

Lemma disclose_all addresses current changed current' changed' :
  items_ok current -> all_live current -> Forall (fun a => _address (VStr a) = Ok a) addresses -> NoDup addresses ->
  foldl dis (current, changed) addresses = (current', changed') ->
  items_ok current' /\ all_live current' /\
  (forall a, entry <$> dget current' a = if decide (a ∈ addresses) then Some (renewed (entry <$> dget current a)) else entry <$> dget current a) /\
  (changed' = false -> changed = false /\ current' = current).
Proof.
  intros Hok Hlive Ha Hn. revert current changed Hok Hlive. induction Ha as [| a addresses Ha _ IH]; intros current changed Hok Hlive H.
  - injection H as <- <-. split; [done |]. split; [done |]. split; [intros a; rewrite decide_False; [done |]; apply not_elem_of_nil | done].
  - apply NoDup_cons in Hn as [Hna Hn]. cbn [foldl] in H.
    destruct (disclose_item current changed a Hok (Hlive a) Ha) as (v & ch & Hd & Hv & He & Hch). rewrite Hd in H.
    assert (Hok1 : items_ok (dset current a v)) by (by apply items_ok_dset).
    assert (Hlive1 : all_live (dset current a v)).
    { intros x w. rewrite dget_dset. destruct (String.eqb_spec a x) as [<- |]; [| apply Hlive]. intros [= <-].
      pose proof (renewed_live (entry <$> dget current a)) as Hr. by rewrite <- He in Hr. }
    destruct (IH Hn _ _ Hok1 Hlive1 H) as (H1 & H2 & H3 & H4). split; [done |]. split; [done |]. split.
    + intros x. rewrite H3, dget_dset. destruct (String.eqb_spec a x) as [<- | Hax].
      * rewrite decide_False by done. rewrite decide_True by (by left). cbn. by rewrite He.
      * destruct (decide (x ∈ addresses)); [rewrite decide_True by (by right) | rewrite decide_False by (apply not_elem_of_cons; done)]; done.
    + intros Hf. destruct (H4 Hf) as [-> ->]. destruct (Hch eq_refl) as [-> E]. split; [done |]. by apply dset_same.
Qed.

Lemma dset_length (d : dict) k v : zlen (dset d k v) <= zlen d + 1.
Proof. unfold zlen. induction d as [| [x w] d IH]; cbn; [lia |]. destruct (String.eqb x k); cbn; lia. Qed.

Lemma disclose_length addresses current changed : zlen (fst (foldl dis (current, changed) addresses)) <= zlen current + zlen addresses.
Proof.
  revert current changed. induction addresses as [| a addresses IH]; intros current changed; [unfold zlen; cbn; lia |]. cbn [foldl].
  destruct (dis (current, changed) a) as [c ch] eqn:E. specialize (IH c ch).
  assert (zlen c <= zlen current + 1); [| unfold zlen in *; cbn [length]; lia].
  unfold disclose in E. destruct (dget current a) as [old |].
  - destruct (py_eq _ _), (_ <=? renewal); injection E as <- _; apply dset_length.
  - injection E as <- _. apply dset_length.
Qed.
End update.

(** ** Whole rows *)

Lemma valid_row_inv k row : good row -> _validate_row k row = Ok tt ->
  ascending None (handouts_of row) /\ _device_id (VStr k) = Ok k /\ zlen (handouts_of row) <= MAX_ADDRESSES.
Proof.
  intros Hg H. destruct row as [| | | | | | d]; try discriminate H. cbn [_validate_row] in H. head H. head H.
  assert (Hd : _device_id (VStr k) = Ok k) by (unfold _device_id in *; by destruct (DEVICE_ID k && _)). rewrite Hd in H. cbn [mbind res_bind] in H.
  destruct (_stored_time _ _); [| discriminate H]. cbn [mbind res_bind] in H. unfold handouts_of. cbn [field].
  pose proof (good_dget_or d "handouts" VNone Hg good_none) as Hh. destruct (dget_or d "handouts" VNone) as [| | | | | l |]; try discriminate H.
  cbn [as_list default from_option id]. head H as E. apply good_list in Hh. destruct (res_fold check_item None l) as [p |] eqn:Ef; [| discriminate H].
  split; [by eapply check_items_ascending |]. split; [done |]. bool_norm. lia.
Qed.

Lemma row_intro k t items : _device_id (VStr k) = Ok k -> 0 <= t <= MAX_I63 -> zlen items <= MAX_ADDRESSES -> ascending None items ->
  let row := VDict [("v", VInt 1); ("principal_type", VStr "device"); ("principal_id", VStr k); ("updated_at", VInt t); ("handouts", VList items)] in
  good row /\ _validate_row k row = Ok tt.
Proof.
  intros Hk Ht Hz Ha row. destruct (ascending_check None items Ha) as [p Hp]. destruct Ha as (_ & Hi & _). unfold row. split.
  - good_tac. apply good_list. eapply Forall_impl; [exact Hi |]. by intros v [_ Hv].
  - cbn -[_device_id _stored_time MAX_ADDRESSES]. rewrite String.eqb_refl. cbn -[_device_id _stored_time MAX_ADDRESSES]. rewrite Hk. cbn -[_stored_time MAX_ADDRESSES]. unfold _stored_time.
    destruct (Z.leb_spec 0 t); [| lia]. destruct (Z.leb_spec t MAX_I63); [| lia]. cbn -[MAX_ADDRESSES].
    destruct (Z.ltb_spec MAX_ADDRESSES (zlen items)); [lia |]. rewrite Hp. done.
Qed.

Lemma empty_row_ok k t : _device_id (VStr k) = Ok k -> 0 <= t <= MAX_I63 -> good (_empty k t) /\ _validate_row k (_empty k t) = Ok tt.
Proof. intros Hk Ht. apply row_intro; [done | done | done |]. split; [constructor | split; [constructor | intros; constructor]]. Qed.

Lemma items_sorted current : items_ok current -> by_address (map snd (sort_by key_le current)) = sort_by key_le current.
Proof.
  intros [Hn Hi]. unfold by_address. rewrite map_map. rewrite <- (map_id (sort_by key_le current)) at 2. apply map_ext_elem. intros [a v] Hin. cbn.
  apply sort_by_elem in Hin. apply dget_Some in Hin; [| done]. by destruct (item_address a v (proj1 (Hi a v Hin))) as [-> _].
Qed.

Lemma strict_of_nodup (l : dict) :
  NoDup (dkeys l) -> StronglySorted (fun x y => key_le x y = true) l -> StronglySorted (fun x y => str_leb (fst y) (fst x) = false) l.
Proof.
  intros Hn Hs. induction Hs as [| x l Hs IH Hhd]; [constructor |]. cbn in Hn. apply NoDup_cons in Hn as [Hx Hn]. constructor; [by apply IH |].
  rewrite Forall_forall in Hhd |- *. intros y Hy. destruct (str_leb (fst y) (fst x)) eqn:E; [| done]. exfalso. apply Hx.
  rewrite (str_leb_antisym _ _ (Hhd y Hy) E). by apply list_elem_of_fmap_2.
Qed.

Lemma disclosed_row_ok k t current : _device_id (VStr k) = Ok k -> 0 <= t <= MAX_I63 -> zlen current <= MAX_ADDRESSES -> items_ok current ->
  good (disclosed_row k t current) /\ _validate_row k (disclosed_row k t current) = Ok tt /\
  forall a, handout_at (disclosed_row k t current) a = entry <$> dget current a.
Proof.
  intros Hk Ht Hz Hc. pose proof (items_sorted current Hc) as Hb. pose proof Hc as [Hn Hi].
  assert (Hp : sort_by key_le current ≡ₚ current) by apply sort_by_perm.
  assert (Ha : ascending None (map snd (sort_by key_le current))).
  { split; [| split]; [| | done].
    - rewrite Hb. apply strict_of_nodup; [unfold dkeys; by rewrite Hp | apply sorted_keys].
    - apply Forall_forall. intros v Hv. apply list_elem_of_fmap in Hv as ([a w] & -> & Hin). apply sort_by_elem, dget_Some in Hin; [| done].
      cbn. pose proof (Hi a w Hin) as Hw. by destruct (item_address a w (proj1 Hw)) as [-> _]. }
  destruct (row_intro k t (map snd (sort_by key_le current)) Hk Ht) as [Hg Hv]; [| exact Ha |].
  { unfold zlen in *. rewrite length_map. by rewrite (Permutation_length Hp). }
  split; [exact Hg |]. split; [exact Hv |]. intros a. unfold handout_at.
  change (handouts_of (disclosed_row k t current)) with (map snd (sort_by key_le current)). rewrite Hb.
  f_equal. symmetry. apply dget_perm; [done | by symmetry].
Qed.

(** What a row says does not depend on the order of its keys. *)
Lemma entry_sorted a v : item_ok a v -> entry (sort_keys v) = entry v /\ text_of (field (sort_keys v) "address") = a.
Proof.
  intros Hv. pose proof (item_address a v (proj1 Hv)) as (H1 & _ & (h & Hh & _) & He & _). destruct Hv as [Hc [Hw _]].
  unfold entry. rewrite !field_sorted by done. rewrite Hh. unfold expiry at 1. rewrite field_sorted by done. rewrite He. split; [done |].
  destruct (field v "address"); try done.
Qed.

Lemma handout_at_sorted k row a : good row -> _validate_row k row = Ok tt -> handout_at (sort_keys row) a = handout_at row a.
Proof.
  intros Hg Hv. destruct (valid_row_inv k row Hg Hv) as [(_ & Hi & _) _]. unfold handout_at.
  assert (Hh : handouts_of (sort_keys row) = map sort_keys (handouts_of row)).
  { unfold handouts_of. rewrite field_sorted by apply Hg. by destruct (field row "handouts"). }
  rewrite Hh. clear Hh. unfold by_address. induction Hi as [| v l Hv1 _ IH]; [done |]. cbn [map dget].
  destruct (entry_sorted _ _ Hv1) as [He Ha]. rewrite Ha. destruct (String.eqb _ a); [cbn; by rewrite He | exact IH].
Qed.

(** The entries that have not expired. *)
Lemma unexpired_spec disclosed row :
  ascending None (handouts_of row) -> let cur := unexpired disclosed (handouts_of row) in
  items_ok cur /\ all_live disclosed cur /\ (forall a, entry <$> dget cur a = alive disclosed (handout_at row a)) /\
  zlen cur <= zlen (handouts_of row) /\ (zlen cur = zlen (handouts_of row) -> forall a, entry <$> dget cur a = handout_at row a).
Proof.
  intros Has cur. pose proof (ascending_items_ok None _ Has) as Hio. pose proof (proj1 Hio) as Hnd.
  pose proof (unexpired_filter disclosed (handouts_of row) Hnd) as Hcur. fold cur in Hcur.
  assert (Hget : forall a, dget cur a = match dget (by_address (handouts_of row)) a with Some v => if disclosed <? expiry v then Some v else None | None => None end).
  { intros a. rewrite Hcur. by apply (dget_filter (fun v => disclosed <? expiry v)). }
  assert (Hl : length (by_address (handouts_of row)) = length (handouts_of row)) by (unfold by_address; by rewrite length_map).
  split; [| split; [| split; [| split]]].
  - split; [rewrite Hcur; by apply (filter_dkeys_nodup (fun v => disclosed <? expiry v)) |]. intros a v. rewrite Hget.
    destruct (dget (by_address _) a) as [w |] eqn:E; [| done]. destruct (disclosed <? expiry w); [| done]. intros [= <-]. by apply Hio.
  - intros a v. rewrite Hget. destruct (dget (by_address _) a) as [w |]; [| done]. destruct (Z.ltb_spec disclosed (expiry w)); [| done]. by intros [= <-].
  - intros a. rewrite Hget. unfold handout_at, alive. destruct (dget (by_address _) a) as [w |]; [| done]. cbn. by destruct (disclosed <? expiry w).
  - rewrite Hcur. unfold zlen. pose proof (length_filter (fun av : string * pyval => (disclosed <? expiry (snd av)) = true) (by_address (handouts_of row))). lia.
  - intros Hz a. rewrite Hget. unfold handout_at. destruct (dget (by_address _) a) as [w |] eqn:E; [| done]. destruct (disclosed <? expiry w) eqn:El; [done |].
    apply dget_elem in E. pose proof (length_filter_lt (fun av : string * pyval => (disclosed <? expiry (snd av)) = true) _ _ E) as Hlt.
    rewrite Hcur in Hz. unfold zlen in Hz. assert (~ (disclosed <? expiry w) = true) by congruence. specialize (Hlt H). lia.
Qed.

(** The outcome of [row_update]: a new row, the row as it is, or the cap. *)
Lemma row_update_spec k h disclosed renewal ttl addresses row :
  good row -> _validate_row k row = Ok tt -> HEX40 h = true -> 1 <= ttl -> 0 <= disclosed <= MAX_I63 - ttl ->
  Forall (fun a => _address (VStr a) = Ok a) addresses -> NoDup addresses ->
  let says r := forall a, handout_at r a = after_disclosure h disclosed renewal ttl addresses (handout_at row) a in
  (row_update k h disclosed renewal (disclosed + ttl) addresses (Some row) = Err (herr "handout address cap reached") /\
     MAX_ADDRESSES < zlen (handouts_of row) + zlen addresses) \/
  (row_update k h disclosed renewal (disclosed + ttl) addresses (Some row) = Ok UKeep /\ says row) \/
  exists new, row_update k h disclosed renewal (disclosed + ttl) addresses (Some row) = Ok (UPut new) /\
    storable _validate_row k new /\ says (sort_keys new).
Proof.
  intros Hg Hv Hh Ht Hd Ha Hn says. destruct (valid_row_inv k row Hg Hv) as (Has & Hk & Hz).
  destruct (unexpired_spec disclosed row Has) as (Hok & Hlive & Hal & Hle & Heq). set (cur := unexpired disclosed (handouts_of row)) in *.
  unfold row_update. rewrite Hv. cbn [mbind res_bind]. fold cur.
  destruct (foldl (disclose h disclosed renewal (disclosed + ttl)) (cur, negb (zlen cur =? zlen (handouts_of row))) addresses) as [cur' ch'] eqn:E.
  destruct (disclose_all h disclosed renewal ttl Hh Ht Hd addresses cur _ cur' ch' Hok Hlive Ha Hn E) as (Hok' & _ & Hmap & Hch).
  assert (Hsays : forall a, entry <$> dget cur' a = after_disclosure h disclosed renewal ttl addresses (handout_at row) a).
  { intros a. rewrite Hmap, Hal. unfold after_disclosure, renewed. destruct (handout_at row a) as [[h0 t] |]; [| done]. unfold alive. cbn.
    destruct (disclosed <? t) eqn:El; cbn; rewrite ?El; done. }
  destruct (Z.ltb_spec MAX_ADDRESSES (zlen cur')) as [Hcap | Hcap].
  - left. split; [done |]. pose proof (disclose_length h disclosed renewal ttl addresses cur (negb (zlen cur =? zlen (handouts_of row)))) as Hl.
    rewrite E in Hl. cbn [fst] in Hl. lia.
  - right. destruct ch'.
    + right. exists (disclosed_row k disclosed cur'). split; [done |]. destruct (disclosed_row_ok k disclosed cur' Hk ltac:(lia) Hcap Hok') as (Hg' & Hv' & Hat).
      split; [by apply row_storable_intro |]. intros a. rewrite (handout_at_sorted k) by done. by rewrite Hat.
    + left. split; [done |]. destruct (Hch eq_refl) as [Hlen ->]. apply negb_false_iff, Z.eqb_eq in Hlen. intros a. rewrite <- Hsays. by rewrite Heq.
Qed.
