(* ===== verification/HandoutSpec.v ===== *)
(** * The handout ledger under interleaving and failure

    [consistent] says that the two files agree: every row belongs to an admitted device,
    and every active device has its row.  It holds whatever operations run at the same
    time and wherever they fail, and from it every operation can be resumed. *)
From stdpp Require Import gmap.
From S2P Require Import Prelude PyVal JsonDump Ipv4 KeyedState KeyedSpec SchedDoc SchedValid WaveGate PolicyEval PeerEndpoints EndpointSpec Interleave PeerHandouts HandoutRows.

(** ** Values *)

Lemma num_eqb_refl m e : num_eqb (FFin m e) (FFin m e) = true.
Proof. unfold num_eqb, num_cmp. by rewrite Z.compare_refl. Qed.

(** A document is equal to itself. *)
Lemma py_eq_refl v : good v -> py_eq v v = true.
Proof.
  induction v as [v Hv | l Hl | d Hd] using pyval_strong_ind; intros Hg.
  - destruct v as [| b | z | f | s | |]; try done; cbn; [by destruct b | apply num_eqb_refl | | apply String.eqb_refl].
    destruct Hg as [_ Hf]. destruct f; try discriminate Hf. apply num_eqb_refl.
  - apply good_list in Hg. cbn. induction Hl as [| x l Hx _ IH]; [done |]. apply Forall_cons in Hg as [Hg1 Hg2]. rewrite Hx by done. by apply IH.
  - apply good_dict in Hg as [Hn Hg]. apply py_eq_dict_iff. split; [done |]. rewrite Forall_forall in Hd, Hg |- *. intros [k v] Hkv. cbn. exists v.
    split; [by apply dget_Some |]. apply (Hd _ Hkv). exact (Hg _ Hkv).
Qed.

(** ** The admissions document *)

Definition doc_ok (doc : dict) : Prop := good (VDict doc) /\ _validate_admissions (VDict doc) = Ok doc.
Definition state_ok (v : pyval) : Prop := v = VStr "pending" \/ v = VStr "active".

Lemma in_states v : in_strs v ["pending"; "active"] = true <-> state_ok v.
Proof.
  rewrite in_strs_spec. unfold state_ok. split.
  - intros (s & -> & [-> | [-> | []%elem_of_nil]%elem_of_cons]%elem_of_cons); [by left | by right].
  - intros [-> | ->]; eexists; (split; [done |]); set_solver.
Qed.

Lemma device_id_ok s x : _device_id (VStr s) = Ok x -> _device_id (VStr s) = Ok s.
Proof. unfold _device_id. by destruct (DEVICE_ID s && _). Qed.

Lemma doc_ok_iff doc : doc_ok doc <->
  good (VDict doc) /\ keys_are doc ["schema"; "devices"] = true /\ dget doc "schema" = Some (VStr ADMISSIONS_SCHEMA) /\
  exists devices, dget doc "devices" = Some (VDict devices) /\ zlen devices <= MAX_RECIPIENTS /\
    forall k v, (k, v) ∈ devices -> _device_id (VStr k) = Ok k /\ state_ok v.
Proof.
  unfold doc_ok. split.
  - intros [Hg H]. split; [done |]. cbn [_validate_admissions] in H.
    destruct (keys_are doc ["schema"; "devices"]) eqn:Hk; [| discriminate H]. split; [done |].
    destruct (py_eq (dget_or doc "schema" VNone) (VStr ADMISSIONS_SCHEMA)) eqn:Hs; [| discriminate H]. cbn [negb orb] in H. split.
    { unfold dget_or in Hs. destruct (dget doc "schema") as [[] |]; try discriminate Hs. cbn in Hs. apply String.eqb_eq in Hs. by subst. }
    unfold dget_or in H. destruct (dget doc "devices") as [[| | | | | | devices] |]; try discriminate H. exists devices. split; [done |].
    cbn [default from_option id] in H. head H as E. bool_norm. split; [lia |].
    destruct (res_iter _ devices) as [[] |] eqn:Ei; [| discriminate H]. apply res_iter_ok in Ei. intros k v Hkv. rewrite Forall_forall in Ei.
    specialize (Ei _ Hkv). cbn [fst snd] in Ei. destruct (_device_id (VStr k)) as [x |] eqn:Ed; [| discriminate Ei]. cbn [mbind res_bind] in Ei.
    split; [rewrite <- Ed; by eapply device_id_ok |]. destruct (in_strs v ["pending"; "active"]) eqn:Es; [| discriminate Ei]. by apply in_states.
  - intros (Hg & Hk & Hs & devices & Hd & Hz & Hall). split; [done |]. cbn [_validate_admissions]. unfold dget_or. rewrite Hk, Hs, Hd.
    cbn [default from_option id negb orb py_eq]. rewrite String.eqb_refl. cbn [negb]. destruct (Z.ltb_spec MAX_RECIPIENTS (zlen devices)); [lia |].
    assert (Hi : res_iter (fun ds : string * pyval => let* _ := _device_id (VStr (fst ds)) in
      raise corrupt when negb (in_strs (snd ds) ["pending"; "active"]);;; Ok tt) devices = Ok tt).
    { apply res_iter_ok, Forall_forall. intros [k v] Hkv. destruct (Hall k v Hkv) as [Hdev Hst]. cbn [fst snd]. rewrite Hdev. cbn [mbind res_bind].
      apply in_states in Hst. by rewrite Hst. }
    by rewrite Hi.
Qed.

Lemma read_ok doc : doc_ok doc -> read_existing (Some (SJson (VDict doc))) = Ok doc.
Proof. intros [_ H]. unfold read_existing, _read_admissions. by rewrite H. Qed.

Definition stored_doc (doc : dict) : dict := dict_or_empty (sort_keys (VDict doc)).

Lemma devices_of_get doc devices : dget doc "devices" = Some (VDict devices) -> devices_of doc = devices.
Proof. intros H. unfold devices_of, dget_or. by rewrite H. Qed.

Lemma state_sorted v : state_ok v -> sort_keys v = v.
Proof. by intros [-> | ->]. Qed.

Lemma stored_doc_ok doc : doc_ok doc -> doc_ok (stored_doc doc) /\ forall k, dget (devices_of (stored_doc doc)) k = dget (devices_of doc) k.
Proof.
  intros H. pose proof (proj1 (doc_ok_iff doc) H) as (Hg & Hk & Hs & devices & Hd & Hz & Hall). pose proof Hg as [Hn _]%good_dict.
  assert (Hgd : good (VDict devices)) by (exact (good_dget doc _ _ Hg Hd)). pose proof Hgd as [Hnd _]%good_dict.
  assert (Hd' : dget (stored_doc doc) "devices" = Some (VDict (dict_or_empty (sort_keys (VDict devices))))).
  { unfold stored_doc. rewrite dget_sort_keys by done. by rewrite Hd. }
  assert (Hget : forall k, dget (dict_or_empty (sort_keys (VDict devices))) k = dget devices k).
  { intros k. rewrite dget_sort_keys by done. destruct (dget devices k) as [v |] eqn:E; [| done]. cbn. f_equal. apply dget_elem, Hall in E as [_ E]. by apply state_sorted. }
  split.
  - apply doc_ok_iff. split; [exact (good_sort_keys _ Hg) |]. split; [unfold stored_doc; by rewrite keys_are_sorted |].
    split; [unfold stored_doc; rewrite dget_sort_keys by done; by rewrite Hs |]. eexists. split; [exact Hd' |]. split.
    + rewrite <- (jeq_zlen devices _); [done |]. apply (jeq_dict_or_empty (VDict devices)). apply jeq_sort_keys. apply Hgd.
    + intros k v Hkv. apply Hall. apply dget_Some; [done |]. rewrite <- Hget. apply dget_Some; [| done].
      by rewrite dkeys_sort_keys.
  - intros k. rewrite (devices_of_get _ _ Hd'), (devices_of_get _ _ Hd). apply Hget.
Qed.

Lemma with_device_ok doc dev state :
  doc_ok doc -> _device_id (VStr dev) = Ok dev -> state_ok (VStr state) ->
  (dget (devices_of doc) dev <> None \/ zlen (devices_of doc) < MAX_RECIPIENTS) ->
  doc_ok (with_device doc dev state) /\
  forall k, dget (devices_of (with_device doc dev state)) k = if String.eqb dev k then Some (VStr state) else dget (devices_of doc) k.
Proof.
  intros H Hdev Hst Hroom. pose proof (proj1 (doc_ok_iff doc) H) as (Hg & Hk & Hs & devices & Hd & Hz & Hall).
  assert (Hgd : good (VDict devices)) by (exact (good_dget doc _ _ Hg Hd)).
  rewrite (devices_of_get _ _ Hd) in Hroom |- *. unfold with_device. rewrite (devices_of_get _ _ Hd).
  assert (Hd' : dget (dset doc "devices" (VDict (dset devices dev (VStr state)))) "devices" = Some (VDict (dset devices dev (VStr state)))) by apply dget_dset_eq.
  split; [| intros k; rewrite (devices_of_get _ _ Hd'); apply dget_dset].
  apply doc_ok_iff. split; [apply good_dset; [done |]; by apply good_dset |]. split; [apply keys_are_dset; [done | set_solver] |].
  split; [by rewrite dget_dset |]. eexists. split; [exact Hd' |]. split.
  - destruct (decide (dev ∈ dkeys devices)) as [Hin | Hni].
    + assert (Hl : forall d : dict, dev ∈ dkeys d -> length (dset d dev (VStr state)) = length d).
      { induction d as [| [x w] d IH]; [by intros []%elem_of_nil |]. cbn. intros Hx. destruct (String.eqb_spec x dev); cbn; [done |]. f_equal. apply IH. set_solver. }
      unfold zlen. by rewrite Hl.
    + rewrite dset_fresh by done. unfold zlen in *. rewrite length_app. cbn. destruct Hroom as [Hr | Hr]; [| lia]. by apply dget_None in Hni.
  - intros k v Hkv. apply dget_Some in Hkv; [| by apply NoDup_dset; apply good_dict in Hgd as [? _]]. rewrite dget_dset in Hkv.
    destruct (String.eqb_spec dev k) as [<- | ?]; [by injection Hkv as <- |]. apply Hall. by apply dget_elem.
Qed.

(** ** Arguments *)

Lemma integer_time_nonneg v name t : _integer_time v name = Ok t -> 0 <= t.
Proof.
  destruct v as [| | z | f | | |]; try discriminate; cbn [_integer_time].
  - destruct (isfinite _); [| discriminate]. cbn [mbind res_bind]. destruct ((z <? 0) || (MAX_I63 <? z)) eqn:E; [discriminate |]. intros [= ->]. bool_norm. lia.
  - destruct (num_leb (FFin 0 0) f) eqn:E; [| discriminate]. destruct (num_leb f (FFin MAX_I63 0)); [| discriminate]. cbn [andb]. intros [= <-].
    destruct f as [m e | |]; try done. cbn [float_trunc]. apply Z.shiftl_nonneg. unfold num_leb, num_cmp in E. rewrite Z.mul_0_l in E.
    pose proof (Z.pow_pos_nonneg 2 (e - Z.min 0 e) ltac:(lia) ltac:(lia)) as Hp.
    destruct (Z.compare_spec 0 (m * 2 ^ (e - Z.min 0 e))) as [H | H | H]; try discriminate E; clear -H Hp; nia.
Qed.

(** The addresses of the selected peers. *)
Definition peer_ip (peer : pyval) : pyval := match peer with VDict d => dget_or d "ip" VNone | _ => VNone end.

Lemma peer_addresses_spec peers addresses : peer_addresses peers = Ok addresses ->
  Forall (fun a => _address (VStr a) = Ok a) addresses /\ NoDup addresses /\ forall a, a ∈ addresses <-> exists peer, peer ∈ peers /\ peer_ip peer = VStr a.
Proof.
  unfold peer_addresses. intros H. destruct (res_map _ peers) as [l |] eqn:E; [| discriminate H]. cbn [mbind res_bind] in H. injection H as <-.
  apply res_map_ok in E. assert (Hl : Forall2 (fun peer a => _address (VStr a) = Ok a /\ peer_ip peer = VStr a) peers l).
  { eapply Forall2_impl; [exact E |]. intros peer a Ha. destruct peer as [| | | | | | d]; try discriminate Ha. pose proof (address_str _ _ Ha) as Hs.
    cbn [peer_ip]. rewrite Hs in Ha |- *. done. }
  split; [| split].
  - apply Forall_forall. intros a Ha. rewrite sort_by_elem, elem_of_remove_dups in Ha. apply list_elem_of_lookup_1 in Ha as [i Hi].
    destruct (Forall2_lookup_r _ _ _ _ _ Hl Hi) as (peer & _ & ? & _). done.
  - rewrite sort_by_perm. apply NoDup_remove_dups.
  - intros a. rewrite sort_by_elem, elem_of_remove_dups. split.
    + intros [i Hi]%list_elem_of_lookup_1. destruct (Forall2_lookup_r _ _ _ _ _ Hl Hi) as (peer & Hp & _ & ?). exists peer. split; [by eapply list_elem_of_lookup_2 | done].
    + intros (peer & [i Hi]%list_elem_of_lookup_1 & Hp). destruct (Forall2_lookup_l _ _ _ _ _ Hl Hi) as (b & Hb & _ & Hx). rewrite Hp in Hx. injection Hx as ->.
      by eapply list_elem_of_lookup_2.
Qed.

(** The arguments of a disclosure that is recorded. *)
Record disclosure (ttl : Z) (p : principal) (peers : list pyval) (dev h : string) (disclosed : Z) (addresses : list string) : Prop := {
  di_device : p = Principal "device" dev /\ _device_id (VStr dev) = Ok dev;
  di_hash : HEX40 h = true;
  di_time : 0 <= disclosed <= MAX_I63 - ttl;
  di_addresses : Forall (fun a => _address (VStr a) = Ok a) addresses /\ NoDup addresses;
  di_peers : forall a, a ∈ addresses <-> exists peer, peer ∈ peers /\ peer_ip peer = VStr a }.

Lemma record_args_spec ttl p peers hash now dev h disclosed addresses :
  record_args ttl p peers hash now = Ok (Some (dev, h, disclosed, addresses)) -> disclosure ttl p peers dev h disclosed addresses /\ hash = VStr h /\ _integer_time now "disclosure time" = Ok disclosed.
Proof.
  unfold record_args. destruct p as [ty id]. cbn [p_type p_id]. destruct (String.eqb_spec ty "device") as [-> |]; [| discriminate]. cbn [negb].
  destruct (_device_id (VStr id)) as [x |] eqn:Ed; [| discriminate]. pose proof (device_id_ok _ _ Ed) as Hx. rewrite Ed in Hx. injection Hx as ->. cbn [mbind res_bind].
  destruct hash as [| | | | s | |]; try discriminate. destruct (HEX40 s) eqn:Eh; [| discriminate]. cbn [negb].
  destruct (_integer_time now "disclosure time") as [t |] eqn:Et; [| discriminate]. cbn [mbind res_bind].
  destruct (peer_addresses peers) as [l |] eqn:El; [| discriminate]. cbn [mbind res_bind]. destruct l as [| a l]; [discriminate |].
  destruct (Z.ltb_spec (MAX_I63 - ttl) t); [discriminate |]. intros [= <- <- <- <-]. split; [| done].
  destruct (peer_addresses_spec _ _ El) as (H1 & H2 & H3). split; [done | done | | done | done]. split; [by eapply integer_time_nonneg | done].
Qed.

(** ** The invariant *)

Section protocol.
Context {T : Type} {rows : RowStore T _validate_row}.

(** The document in the file. *)
Definition holds (s : store T) (doc : dict) : Prop := h_admissions s = Some (SJson (VDict doc)) /\ doc_ok doc.
Definition row_of (s : store T) (dev : string) : option pyval := rs_view (h_rows s) dev.

Record consistent (s : store T) : Prop := {
  co_rows : rs_ok (h_rows s);
  co_doc : exists doc, holds s doc /\
    (forall dev, row_of s dev <> None -> dget (devices_of doc) dev <> None) /\
    (forall dev, dget (devices_of doc) dev = Some (VStr "active") -> row_of s dev <> None) }.

(** What the other threads leave alone: rows stay, admissions stay, active devices stay active. *)
Definition admitted (s : store T) (dev : string) : Prop := exists doc, holds s doc /\ dget (devices_of doc) dev <> None.
Definition grows (s s' : store T) : Prop :=
  (forall dev, row_of s dev <> None -> row_of s' dev <> None) /\ (forall dev, admitted s dev -> admitted s' dev).

#[export] Instance grows_preorder : PreOrder grows.
Proof. split; [by split |]. intros s1 s2 s3 [H1 H2] [H3 H4]. split; auto. Qed.

Lemma holds_unique s d d' : holds s d -> holds s d' -> d = d'.
Proof. intros [H1 _] [H2 _]. rewrite H1 in H2. by injection H2. Qed.

(** A change of rows only. *)
Lemma consistent_rows s t :
  consistent s -> rs_ok t ->
  (forall dev, rs_view t dev <> None -> row_of s dev <> None \/ admitted s dev) -> (forall dev, row_of s dev <> None -> rs_view t dev <> None) ->
  consistent (Store t (h_admissions s)) /\ grows s (Store t (h_admissions s)).
Proof.
  intros [Hr (doc & Hd & H1 & H2)] Ht Hnew Hold. split.
  - split; [done |]. exists doc. split; [done |]. split; [| intros dev Hdev; apply Hold; by apply H2].
    intros dev Hdev. destruct (Hnew dev Hdev) as [Hx | (doc' & Hd' & Hx)]; [by apply H1 |]. by rewrite (holds_unique _ _ _ Hd Hd').
  - split; [exact Hold |]. intros dev (d & Hx & ?). by exists d.
Qed.

(** A change of the admissions only. *)
Lemma consistent_admissions s doc dev state :
  consistent s -> holds s doc -> _device_id (VStr dev) = Ok dev -> state_ok (VStr state) ->
  (dget (devices_of doc) dev <> None \/ zlen (devices_of doc) < MAX_RECIPIENTS) -> (state = "active" -> row_of s dev <> None) ->
  let s' := Store (h_rows s) (written (with_device doc dev state)) in
  consistent s' /\ grows s s' /\ exists doc', holds s' doc' /\ dget (devices_of doc') dev = Some (VStr state).
Proof.
  intros [Hr (doc0 & Hd0 & H1 & H2)] Hd Hdev Hst Hroom Hrow s'. rewrite (holds_unique _ _ _ Hd0 Hd) in H1, H2.
  destruct (with_device_ok doc dev state (proj2 Hd) Hdev Hst Hroom) as [Hok Hget]. destruct (stored_doc_ok _ Hok) as [Hok' Hget'].
  assert (Hh : holds s' (stored_doc (with_device doc dev state))) by (by split).
  assert (Hg : forall k, dget (devices_of (stored_doc (with_device doc dev state))) k = if String.eqb dev k then Some (VStr state) else dget (devices_of doc) k)
    by (intros k; by rewrite Hget', Hget).
  split; [| split].
  - split; [done |]. eexists. split; [exact Hh |]. split; intros k; rewrite Hg; destruct (String.eqb_spec dev k) as [<- |]; [done | apply H1 | | apply H2].
    intros [= ->]. by apply Hrow.
  - split; [done |]. intros k (d & Hx & Hk). exists (stored_doc (with_device doc dev state)). split; [done |]. rewrite Hg.
    destruct (String.eqb dev k); [done |]. by rewrite <- (holds_unique _ _ _ Hx Hd).
  - eexists. split; [exact Hh |]. by rewrite Hg, String.eqb_refl.
Qed.

(** ** The actions *)

Lemma rows_get_spec s dev : consistent s ->
  exists t, rows_get dev s = (Ok (row_of s dev), Store t (h_admissions s)) /\ consistent (Store t (h_admissions s)) /\
    grows s (Store t (h_admissions s)) /\ forall k, rs_view t k = row_of s k.
Proof.
  intros Hs. destruct (rs_get_spec (h_rows s) dev (co_rows s Hs)) as (t & Hg & Ht & Hv). exists t. unfold rows_get. rewrite Hg. split; [done |].
  destruct (consistent_rows s t Hs Ht) as [? ?]; [intros k; rewrite Hv; by left | intros k; by rewrite Hv |]. done.
Qed.

Lemma rows_update_spec s dev fn r :
  consistent s -> fn (row_of s dev) = r -> (forall new, r = Ok new -> upd_storable _validate_row dev new /\ new <> UDelete) ->
  (forall row, r = Ok (UPut row) -> row_of s dev <> None \/ admitted s dev) ->
  exists t, rows_update dev fn s = (r, Store t (h_admissions s)) /\ consistent (Store t (h_admissions s)) /\ grows s (Store t (h_admissions s)) /\
    forall k, rs_view t k = match r with Ok new => apply_view dev new (row_of s) k | Err _ => row_of s k end.
Proof.
  intros Hs Hfn Hst Hadm. destruct (rs_update_spec _ (h_rows s) tt tt dev (fun row => lift (fn row)) r (co_rows s Hs)) as (t & Hu & Ht & Hv).
  { unfold lift. by rewrite <- Hfn. } { intros new Hn. by apply Hst. }
  exists t. unfold rows_update. rewrite Hu. split; [done |].
  assert (Hview : forall k, rs_view t k = match r with Ok (UPut row) => if String.eqb dev k then Some (sort_keys row) else row_of s k | _ => row_of s k end).
  { intros k. rewrite Hv. destruct r as [new |]; [| done]. unfold apply_view. destruct new; [by destruct (String.eqb dev k) | | done].
    by destruct (proj2 (Hst _ eq_refl)). }
  destruct (consistent_rows s t Hs Ht) as [? ?]; [| | done].
  - intros k. rewrite Hview. destruct r as [[| | row] |]; try (by left). destruct (String.eqb_spec dev k) as [<- |]; [| by left]. intros _. by eapply Hadm.
  - intros k Hk. rewrite Hview. destruct r as [[| | row] |]; try done. by destruct (String.eqb dev k).
Qed.

Lemma row_valid s dev row : consistent s -> row_of s dev = Some row -> good row /\ _validate_row dev row = Ok tt.
Proof. intros Hs Hrow. destruct (rs_row_ok (h_rows s) dev row (co_rows s Hs) Hrow) as [H1 H2]. by apply row_storable_valid. Qed.

Lemma enter_pending_spec s dev observed :
  consistent s -> _device_id (VStr dev) = Ok dev -> (observed <> None -> row_of s dev <> None) ->
  exists r s2, enter_pending dev observed s = (r, s2) /\ consistent s2 /\ grows s s2 /\ h_rows s2 = h_rows s /\
    match r with
    | Ok state => admitted s2 dev /\ (state = "active" -> row_of s2 dev <> None)
    | Err e => e = herr "handout recipient cap reached" /\ forall doc, holds s doc -> MAX_RECIPIENTS <= zlen (devices_of doc)
    end.
Proof.
  intros Hs Hdev Hobs. pose proof Hs as [Hr (doc & Hd & H1 & H2)]. unfold enter_pending.
  rewrite (proj1 Hd), (read_ok doc (proj2 Hd)). destruct (dget (devices_of doc) dev) as [v |] eqn:E.
  - assert (Hv : state_ok v).
    { pose proof (proj1 (doc_ok_iff doc) (proj2 Hd)) as (_ & _ & _ & devices & Hds & _ & Hall). rewrite (devices_of_get _ _ Hds) in E.
      apply dget_elem in E. by apply Hall in E as [_ E]. }
    assert (Ha : admitted s dev) by (exists doc; by rewrite E).
    eexists _, s. split; [by destruct Hv as [-> | ->] |]. split; [done |]. split; [reflexivity |]. split; [done |].
    destruct Hv as [-> | ->]; cbn; (split; [done |]); [done |]. intros _. by apply H2.
  - destruct observed as [row |]; [exfalso; by apply (H1 dev (Hobs ltac:(done))) |].
    destruct (Z.leb_spec MAX_RECIPIENTS (zlen (devices_of doc))) as [Hcap | Hcap].
    + eexists _, s. split; [done |]. split; [done |]. split; [reflexivity |]. split; [done |]. split; [done |].
      intros d Hx. by rewrite (holds_unique _ _ _ Hx Hd).
    + destruct (consistent_admissions s doc dev "pending" Hs Hd Hdev ltac:(by left) ltac:(by right) ltac:(done)) as (? & ? & doc' & Hd' & Hst').
      eexists _, _. split; [done |]. split; [done |]. split; [done |]. split; [done |]. split; [exists doc'; by rewrite Hst' | done].
Qed.

Definition active (s : store T) (dev : string) : Prop := exists doc, holds s doc /\ dget (devices_of doc) dev = Some (VStr "active").

Lemma enter_active_spec s dev :
  consistent s -> _device_id (VStr dev) = Ok dev -> admitted s dev -> row_of s dev <> None ->
  exists s2, enter_active dev s = (Ok tt, s2) /\ consistent s2 /\ grows s s2 /\ h_rows s2 = h_rows s /\ active s2 dev.
Proof.
  intros Hs Hdev (doc & Hd & Ha) Hrow. unfold enter_active. rewrite (proj1 Hd), (read_ok doc (proj2 Hd)).
  destruct (dget (devices_of doc) dev) as [v |] eqn:E; [| done].
  assert (Hv : state_ok v).
  { pose proof (proj1 (doc_ok_iff doc) (proj2 Hd)) as (_ & _ & _ & devices & Hds & _ & Hall). rewrite (devices_of_get _ _ Hds) in E.
    apply dget_elem in E. by apply Hall in E as [_ E]. }
  destruct Hv as [-> | ->]; cbn [String.eqb Ascii.eqb Bool.eqb].
  - destruct (consistent_admissions s doc dev "active" Hs Hd Hdev ltac:(by right)) as (? & ? & ?); [left; by rewrite E | done |].
    eexists. split; [done |]. done.
  - exists s. split; [done |]. split; [done |]. split; [reflexivity |]. split; [done |]. by exists doc.
Qed.

(** A look at a valid row changes nothing. *)
Lemma keep_row_spec s dev fn : consistent s -> fn (row_of s dev) = Ok UKeep ->
  exists t, rows_update dev fn s = (Ok UKeep, Store t (h_admissions s)) /\ consistent (Store t (h_admissions s)) /\ grows s (Store t (h_admissions s)) /\
    forall k, rs_view t k = row_of s k.
Proof.
  intros Hs Hfn. destruct (rows_update_spec s dev fn (Ok UKeep) Hs Hfn) as (t & H1 & H2 & H3 & H4); [by intros ? [= <-] | done |].
  exists t. split; [done |]. split; [done |]. split; [done |]. intros k. rewrite H4. unfold apply_view. by destruct (String.eqb dev k).
Qed.

(** The row of an admitted device after [ensure]. *)
Lemma ensure_spec s dev now state :
  consistent s -> _device_id (VStr dev) = Ok dev -> 0 <= now <= MAX_I63 -> admitted s dev -> (state = "active" -> row_of s dev <> None) ->
  exists u t, rows_update dev (ensure dev now state) s = (Ok u, Store t (h_admissions s)) /\ consistent (Store t (h_admissions s)) /\
    grows s (Store t (h_admissions s)) /\
    forall k, rs_view t k = if String.eqb dev k then Some (default (sort_keys (_empty dev now)) (row_of s dev)) else row_of s k.
Proof.
  intros Hs Hdev Hnow Ha Hact. destruct (row_of s dev) as [row |] eqn:E.
  - destruct (row_valid s dev row Hs E) as [_ Hv]. destruct (keep_row_spec s dev (ensure dev now state) Hs) as (t & H1 & H2 & H3 & H4).
    { rewrite E. cbn [ensure]. by rewrite Hv. }
    exists UKeep, t. split; [done |]. split; [done |]. split; [done |]. intros k. rewrite H4. by destruct (String.eqb_spec dev k) as [<- |].
  - assert (Hne : String.eqb state "active" = false) by (destruct (String.eqb_spec state "active"); [by destruct (Hact e) | done]).
    destruct (empty_row_ok dev now Hdev Hnow) as [Hg Hv].
    destruct (rows_update_spec s dev (ensure dev now state) (Ok (UPut (_empty dev now))) Hs) as (t & H1 & H2 & H3 & H4).
    { rewrite E. cbn [ensure]. by rewrite Hne. } { intros new [= <-]. split; [by apply row_storable_intro | done]. } { by right. }
    exists (UPut (_empty dev now)), t. split; [done |]. split; [done |]. split; [done |]. intros k. by rewrite H4.
Qed.

(** ** Admission *)

(** A failure of I/O, in the ledger's own classes where it could not read a file. *)
Definition io (e : pyexn) : Prop := e = unreadable \/ e = unavailable \/ exists msg, e = OSError msg.

Lemma io_rows e : io_error unreadable e -> io e.
Proof. unfold io, io_error. tauto. Qed.
Lemma io_admissions e : io_error unavailable e -> io e.
Proof. unfold io, io_error. tauto. Qed.
Hint Resolve io_rows io_admissions : core.

Lemma admit_safe {A} (post : res A -> store T -> Prop) dev now next s :
  _device_id (VStr dev) = Ok dev -> 0 <= now <= MAX_I63 ->
  (forall e s, io e -> post (Err e) s) -> (forall s, post (Err (herr "handout recipient cap reached")) s) ->
  (forall s, row_of s dev <> None -> safe consistent grows post next s /\ returns post next s) ->
  safe consistent grows post (_admit dev now next) s.
Proof.
  intros Hdev Hnow Hio Hcap Hnext. unfold _admit.
  apply (safe_faulty consistent grows); [by eauto |]. intros s1 _ Hs1. destruct (rows_get_spec s1 dev Hs1) as (t & Hg & Hs1' & Hgr & Hv).
  eexists _, _. split; [exact Hg |]. split; [done |]. split; [done |]. split; [| done].
  apply (safe_faulty consistent grows); [by eauto |]. intros s2 Hg2 Hs2.
  destruct (enter_pending_spec s2 dev (row_of s1 dev) Hs2 Hdev) as (r & s3 & He & Hs3 & Hg3 & _ & Hr).
  { intros Hx. apply (proj1 Hg2). unfold row_of at 1. cbn [h_rows]. rewrite Hv. exact Hx. }
  eexists _, _. split; [exact He |]. split; [done |]. split; [done |]. destruct r as [state | e]; [| destruct Hr as [-> _]; apply Hcap].
  destruct Hr as [Ha Hact]. split; [| done].
  apply (safe_faulty consistent grows); [by eauto |]. intros s4 Hg4 Hs4.
  destruct (ensure_spec s4 dev now state Hs4 Hdev Hnow) as (u & t4 & Hu & Hs4' & Hg4' & Hv4); [by apply Hg4 | intros Hx; by apply (proj1 Hg4), Hact |].
  eexists _, _. split; [exact Hu |]. split; [done |]. split; [done |]. split; [| done].
  assert (Hrow4 : row_of (Store t4 (h_admissions s4)) dev <> None) by (unfold row_of; cbn; by rewrite Hv4, String.eqb_refl).
  apply (safe_faulty consistent grows); [by eauto |]. intros s5 Hg5 Hs5.
  destruct (enter_active_spec s5 dev Hs5 Hdev) as (s6 & He6 & Hs6 & Hg6 & _); [apply Hg5, Hg4', Hg4, Ha | by apply Hg5 |].
  eexists _, _. split; [exact He6 |]. split; [done |]. split; [done |]. split; [| done].
  apply (safe_faulty consistent grows); [by eauto |]. intros s7 Hg7 Hs7. destruct (row_of s7 dev) as [row |] eqn:E.
  2: { exfalso. apply (proj1 Hg7 dev); [| done]. apply (proj1 Hg6). by apply Hg5. }
  destruct (row_valid s7 dev row Hs7 E) as [_ Hval].
  destruct (keep_row_spec s7 dev (confirm_row "pending handout row is missing" dev) Hs7) as (t7 & Hk & Hs8 & Hg8 & Hv8).
  { rewrite E. cbn [confirm_row]. by rewrite Hval. }
  eexists _, _. split; [exact Hk |]. split; [done |]. split; [done |]. apply Hnext. unfold row_of. cbn. rewrite Hv8. by rewrite E.
Qed.

(** ** The operations *)

Context (ttl : Z) (ttl_pos : 1 <= ttl).

Lemma renewal_bounds : 1 <= renewal ttl <= ttl.
Proof. unfold renewal. pose proof (Z.div_le_upper_bound ttl 3 ttl). lia. Qed.

(** The row says that the addresses were disclosed, for at least the renewal time. *)
Definition covers (s : store T) (dev h : string) (disclosed : Z) (addresses : list string) : Prop :=
  exists row, row_of s dev = Some row /\ forall a, a ∈ addresses -> exists e, handout_at row a = Some (h, e) /\ disclosed + renewal ttl <= e.

Definition recorded (dev h : string) (disclosed : Z) (addresses : list string) (r : res bool) (s : store T) : Prop :=
  match r with
  | Ok _ => covers s dev h disclosed addresses
  | Err e => io e \/ e = herr "handout recipient cap reached" \/ e = herr "handout address cap reached"
  end.

Lemma after_disclosure_covers h disclosed addresses old a :
  a ∈ addresses -> exists e, after_disclosure h disclosed (renewal ttl) ttl addresses old a = Some (h, e) /\ disclosed + renewal ttl <= e.
Proof.
  intros Ha. pose proof renewal_bounds. unfold after_disclosure, renewed, alive. rewrite decide_True by done.
  destruct (old a) as [[h0 t] |]; cbn; [| eexists; split; [done | lia]]. destruct (disclosed <? t); cbn; [| eexists; split; [done | lia]].
  destruct (Z.leb_spec (t - disclosed) (renewal ttl)); eexists; (split; [done | lia]).
Qed.

(** The update of an existing row. *)
Lemma disclose_spec s p peers dev h disclosed addresses :
  consistent s -> disclosure ttl p peers dev h disclosed addresses -> row_of s dev <> None ->
  exists r t, rows_update dev (row_update dev h disclosed (renewal ttl) (disclosed + ttl) addresses) s = (r, Store t (h_admissions s)) /\
    consistent (Store t (h_admissions s)) /\ grows s (Store t (h_admissions s)) /\
    (forall k, k <> dev -> rs_view t k = row_of s k) /\
    match r with
    | Ok _ => exists row row', row_of s dev = Some row /\ rs_view t dev = Some row' /\
        forall a, handout_at row' a = after_disclosure h disclosed (renewal ttl) ttl addresses (handout_at row) a
    | Err e => e = herr "handout address cap reached" /\ exists row, row_of s dev = Some row /\ MAX_ADDRESSES < zlen (handouts_of row) + zlen addresses
    end.
Proof.
  intros Hs [[_ Hdev] Hh Ht [Ha Hn] _] Hrow. destruct (row_of s dev) as [row |] eqn:E; [| done]. destruct (row_valid s dev row Hs E) as [Hg Hv].
  destruct (row_update_spec dev h disclosed (renewal ttl) ttl addresses row Hg Hv Hh ttl_pos Ht Ha Hn) as [[Hu Hcap] | [[Hu Hsays] | (new & Hu & Hst & Hsays)]].
  - destruct (rows_update_spec s dev (row_update dev h disclosed (renewal ttl) (disclosed + ttl) addresses) _ Hs eq_refl) as (t & H1 & H2 & H3 & H4);
      rewrite E, Hu in *; [done | done |].
    eexists _, t. split; [exact H1 |]. split; [done |]. split; [done |]. split; [intros k _; apply H4 |]. split; [done |]. by exists row.
  - destruct (keep_row_spec s dev (row_update dev h disclosed (renewal ttl) (disclosed + ttl) addresses) Hs) as (t & H1 & H2 & H3 & H4); [by rewrite E |].
    eexists _, t. split; [exact H1 |]. split; [done |]. split; [done |]. split; [intros k _; apply H4 |]. exists row, row. split; [done |]. split; [by rewrite H4 | done].
  - destruct (rows_update_spec s dev (row_update dev h disclosed (renewal ttl) (disclosed + ttl) addresses) (Ok (UPut new)) Hs) as (t & H1 & H2 & H3 & H4).
    { by rewrite E. } { intros ? [= <-]. done. } { intros ? _. left. by rewrite E. }
    eexists _, t. split; [exact H1 |]. split; [done |]. split; [done |]. unfold apply_view in H4. split.
    + intros k Hk. rewrite H4. by destruct (String.eqb_spec dev k).
    + exists row, (sort_keys new). split; [done |]. split; [by rewrite H4, String.eqb_refl | done].
Qed.

Lemma record_safe p peers hash now dev h disclosed addresses s :
  record_args ttl p peers hash now = Ok (Some (dev, h, disclosed, addresses)) ->
  safe consistent grows (recorded dev h disclosed addresses) (record ttl p peers hash now) s.
Proof.
  intros Hargs. destruct (record_args_spec _ _ _ _ _ _ _ _ _ Hargs) as [Hd _]. unfold record. rewrite Hargs.
  pose proof (di_time _ _ _ _ _ _ _ Hd) as Ht. pose proof (proj2 (di_device _ _ _ _ _ _ _ Hd)) as Hdev.
  apply admit_safe; [done | lia | intros e ? He; by left | intros ?; right; by left |].
  intros s0 Hrow. split; [| done]. apply (safe_faulty consistent grows); [intros e ? He; left; by apply io_rows |]. intros s1 Hg1 Hs1.
  destruct (disclose_spec s1 p peers dev h disclosed addresses Hs1 Hd (proj1 Hg1 _ Hrow)) as (r & t & Hu & Hs2 & Hg2 & _ & Hr).
  eexists _, _. split; [exact Hu |]. split; [done |]. split; [done |]. destruct r as [u | e].
  - split; [done |]. destruct Hr as (row & row' & _ & Hrow' & Hsays). exists row'. split; [done |]. intros a Ha. rewrite Hsays. by apply after_disclosure_covers.
  - destruct Hr as [-> _]. right. by right.
Qed.

(** ** Readers *)

Lemma look_spec s dev fn : consistent s ->
  exists t, look dev fn s = (let* _ := fn (row_of s dev) in Ok (row_of s dev), Store t (h_admissions s)) /\ consistent (Store t (h_admissions s)) /\
    grows s (Store t (h_admissions s)) /\ forall k, rs_view t k = row_of s k.
Proof.
  intros Hs.
  destruct (rs_update_spec _ (h_rows s) None (row_of s dev) dev (fun row => fun _ : option pyval => (let* _ := fn row in Ok UKeep, row))
    (let* _ := fn (row_of s dev) in Ok UKeep) (co_rows s Hs)) as (t & Hu & Ht & Hv); [done | |].
  { intros new. destruct (fn (row_of s dev)); [| done]. by intros [= <-]. }
  assert (Hview : forall k, rs_view t k = row_of s k).
  { intros k. rewrite Hv. destruct (fn (row_of s dev)); [| done]. cbn. unfold apply_view. by destruct (String.eqb dev k). }
  exists t. unfold look. rewrite Hu. split; [by destruct (fn (row_of s dev)) |].
  destruct (consistent_rows s t Hs Ht) as [? ?]; [intros k; rewrite Hview; by left | intros k; by rewrite Hview | done].
Qed.

Lemma read_devices_spec s : consistent s -> exists doc, holds s doc /\ read_devices s = (Ok (devices_of doc), s).
Proof. intros [_ (doc & Hd & _)]. exists doc. split; [done |]. unfold read_devices. by rewrite (proj1 Hd), (read_ok doc (proj2 Hd)). Qed.

Lemma current_safe device_id now s : safe consistent grows (fun _ _ => True) (current device_id now) s.
Proof.
  unfold current. destruct (let* dev := _device_id device_id in _) as [[dev t] |]; [| done].
  apply (safe_faulty consistent grows); [by eauto |]. intros s1 _ Hs1. destruct (read_devices_spec s1 Hs1) as (doc & _ & Hr).
  eexists _, _. split; [exact Hr |]. split; [done |]. split; [reflexivity |]. destruct (dget (devices_of doc) dev) as [state |].
  - destruct (negb _); [done |]. split; [| done]. apply (safe_faulty consistent grows); [by eauto |]. intros s2 _ Hs2.
    destruct (look_spec s2 dev (confirm dev) Hs2) as (t2 & Hl & ? & ? & _). eexists _, _. split; [exact Hl |]. split; [done |]. split; [done |].
    by destruct (confirm dev (row_of s2 dev)).
  - split; [| done]. apply (safe_faulty consistent grows); [by eauto |]. intros s2 _ Hs2.
    destruct (look_spec s2 dev (inspect_orphan dev) Hs2) as (t2 & Hl & ? & ? & _). eexists _, _. split; [exact Hl |]. split; [done |]. split; [done |].
    destruct (inspect_orphan dev (row_of s2 dev)); [| done]. cbn [mbind res_bind]. split; [| done]. apply (safe_faulty consistent grows); [by eauto |]. intros s3 _ Hs3.
    destruct (read_devices_spec s3 Hs3) as (doc3 & _ & Hr3). eexists _, _. split; [exact Hr3 |]. split; [done |]. split; [reflexivity | done].
Qed.

(** The programs that clients of the ledger run. *)
Inductive ledger_call : thread (store T) -> Prop :=
  | call_record p peers hash now : ledger_call (Thread bool (record ttl p peers hash now))
  | call_current device_id now : ledger_call (Thread (list pyval) (current device_id now)).

Lemma ledger_call_safe t s : ledger_call t -> consistent s -> thread_safe consistent grows s t.
Proof.
  intros [p peers hash now | device_id now] _; [| eexists; apply current_safe].
  destruct (record_args ttl p peers hash now) as [[[[[dev h] disclosed] addresses] |] |] eqn:E.
  - eexists. by eapply record_safe.
  - exists (fun _ _ => True). cbn [th_code]. unfold record. by rewrite E.
  - exists (fun _ _ => True). cbn [th_code]. unfold record. by rewrite E.
Qed.

Lemma pool_consistent s s' ps : consistent s -> pool_run ledger_call (s, []) (s', ps) -> consistent s'.
Proof. intros Hs Hrun. exact (pool_run_inv consistent grows ledger_call _ _ ledger_call_safe Hrun Hs (Forall_nil_2 _)). Qed.

(** A consistent ledger starts. *)
Lemma agree_ok s doc d : consistent s -> holds s doc -> (forall k, dget d k = row_of s k) -> agree (devices_of doc) d = Ok tt.
Proof.
  intros [_ (doc0 & Hd0 & H1 & H2)] Hd Hget. rewrite (holds_unique _ _ _ Hd0 Hd) in H1, H2. unfold agree.
  assert (Hf : forallb (dhas (devices_of doc)) (dkeys d) = true).
  { apply forallb_forall. intros k Hk. apply list_elem_of_In, dhas_spec in Hk. unfold dhas in *. rewrite Hget in Hk.
    specialize (H1 k). destruct (row_of s k); [| done]. by destruct (dget (devices_of doc) k); [| destruct H1]. }
  assert (He : existsb (fun ds => py_eq (snd ds) (VStr "active") && negb (dhas d (fst ds))) (devices_of doc) = false).
  { destruct (existsb _ _) eqn:E; [| done]. apply existsb_exists in E as ([k v] & Hk & E). cbn in E. apply andb_true_iff in E as [Ev En].
    destruct v; try discriminate Ev. cbn in Ev. apply String.eqb_eq in Ev as ->. exfalso. apply negb_true_iff in En. unfold dhas in En. rewrite Hget in En.
    destruct (row_of s k) eqn:Er; [done |]. apply (H2 k); [| done].
    pose proof (proj1 (doc_ok_iff doc) (proj2 Hd)) as (Hg & _ & _ & devices & Hds & _ & _). rewrite (devices_of_get _ _ Hds) in Hk |- *.
    apply dget_Some; [exact (proj1 (proj1 (good_dict devices) (good_dget doc _ _ Hg Hds))) | by apply list_elem_of_In]. }
  by rewrite Hf, He.
Qed.

Lemma initialize_spec fuel create s : consistent s ->
  exists t, run (initialize (S fuel) create) s = (Ok false, Store t (h_admissions s)) /\ forall dev, rs_view t dev = row_of s dev.
Proof.
  intros Hs. pose proof Hs as [Hr (doc & Hd & _)]. destruct (rs_snapshot_spec (h_rows s) Hr) as (d & t & Hsn & Ht & Hv & Hn & Hget).
  exists t. split; [| done]. cbn [initialize]. rewrite run_andthen. unfold sbind at 1. cbn [faulty read_if_present]. unfold read_if_present.
  assert (Hread : _read_admissions (h_admissions s) true = Ok (Some doc)).
  { rewrite (proj1 Hd). unfold _read_admissions. by rewrite (proj2 (proj2 Hd)). }
  rewrite Hread. rewrite run_andthen. unfold sbind at 1. cbn [faulty]. unfold rows_snapshot. rewrite Hsn.
  rewrite run_andthen. unfold sbind at 1. cbn [faulty]. unfold read_document. cbn [h_admissions].
  replace (read_existing (h_admissions s)) with (Ok doc) by (rewrite (proj1 Hd); symmetry; exact (read_ok doc (proj2 Hd))). cbn [run].
  rewrite (py_eq_refl (VDict doc)) by apply Hd. cbn [negb]. by rewrite (agree_ok s doc d Hs Hd Hget).
Qed.

(** ** One operation alone *)

Lemma run_step {A B} u (m : sm (store T) B) (next : B -> prog (store T) A) s b s' :
  m s = (Ok b, s') -> run (andthen (faulty u m) next) s = run (next b) s'.
Proof. intros H. rewrite run_andthen. unfold sbind, faulty. by rewrite H. Qed.

(** There is room for the device. *)
Definition room (s : store T) (dev : string) : Prop := admitted s dev \/ forall doc, holds s doc -> zlen (devices_of doc) < MAX_RECIPIENTS.

Lemma admit_run {A} dev now (next : prog (store T) A) s :
  consistent s -> _device_id (VStr dev) = Ok dev -> 0 <= now <= MAX_I63 -> room s dev ->
  exists s', run (_admit dev now next) s = run next s' /\ consistent s' /\ active s' dev /\
    forall k, row_of s' k = if String.eqb dev k then Some (default (sort_keys (_empty dev now)) (row_of s dev)) else row_of s k.
Proof.
  intros Hs Hdev Hnow Hroom. unfold _admit. destruct (rows_get_spec s dev Hs) as (t1 & E1 & Hs1 & Hg1 & Hv1).
  rewrite (run_step _ _ _ _ _ _ E1). set (s1 := Store t1 (h_admissions s)) in *.
  destruct (enter_pending_spec s1 dev (row_of s dev) Hs1 Hdev) as (r & s2 & E2 & Hs2 & Hg2 & Hr2 & Hres).
  { unfold row_of at 2. cbn [s1 h_rows]. by rewrite Hv1. }
  destruct r as [state | e].
  2: { exfalso. destruct Hres as [_ Hcap]. destruct Hroom as [(doc & Hd & Ha) | Hroom].
    - unfold enter_pending in E2. cbn [s1 h_admissions] in E2. rewrite (proj1 Hd), (read_ok doc (proj2 Hd)) in E2.
      destruct (dget (devices_of doc) dev) as [v |] eqn:Ev; [| done]. destruct (in_strs v ["active"; "pending"]) eqn:Ein; [discriminate E2 |].
      pose proof (proj1 (doc_ok_iff doc) (proj2 Hd)) as (_ & _ & _ & devices & Hds & _ & Hall). rewrite (devices_of_get _ _ Hds) in Ev.
      apply dget_elem, Hall in Ev as [_ [-> | ->]]; discriminate Ein.
    - destruct Hs as [_ (doc & Hd & _)]. specialize (Hcap doc Hd). specialize (Hroom doc Hd). lia. }
  rewrite (run_step _ _ _ _ _ _ E2). destruct Hres as [Ha Hact].
  destruct (ensure_spec s2 dev now state Hs2 Hdev Hnow Ha Hact) as (u & t3 & E3 & Hs3 & Hg3 & Hv3). rewrite (run_step _ _ _ _ _ _ E3).
  set (s3 := Store t3 (h_admissions s2)) in *.
  assert (Hrow3 : row_of s3 dev <> None) by (unfold row_of; cbn [s3 h_rows]; by rewrite Hv3, String.eqb_refl).
  destruct (enter_active_spec s3 dev Hs3 Hdev (proj2 Hg3 _ Ha) Hrow3) as (s4 & E4 & Hs4 & Hg4 & Hr4 & Hact4). rewrite (run_step _ _ _ _ _ _ E4).
  destruct (row_of s4 dev) as [row |] eqn:E; [| by destruct (proj1 Hg4 _ Hrow3)].
  destruct (keep_row_spec s4 dev (confirm_row "pending handout row is missing" dev) Hs4) as (t5 & E5 & Hs5 & Hg5 & Hv5).
  { rewrite E. cbn [confirm_row]. by rewrite (proj2 (row_valid s4 dev row Hs4 E)). }
  rewrite (run_step _ _ _ _ _ _ E5). eexists. split; [done |]. split; [done |]. split; [by destruct Hact4 as (doc & Hd & Hx); exists doc |].
  intros k. unfold row_of at 1. cbn [h_rows]. rewrite Hv5. unfold row_of at 1. rewrite Hr4. cbn [s3 h_rows]. rewrite Hv3.
  assert (H2 : forall x, row_of s2 x = row_of s x) by (intros x; unfold row_of; rewrite Hr2; apply Hv1). by rewrite !H2.
Qed.

(** What is on record for a device. *)
Definition on_record (s : store T) (dev a : string) : option (string * Z) := row ← row_of s dev; handout_at row a.

Lemma empty_says dev now a : _device_id (VStr dev) = Ok dev -> 0 <= now <= MAX_I63 -> handout_at (sort_keys (_empty dev now)) a = None.
Proof. intros Hdev Hnow. destruct (empty_row_ok dev now Hdev Hnow) as [Hg Hv]. by rewrite (handout_at_sorted dev). Qed.

Lemma record_run p peers hash now dev h disclosed addresses s :
  consistent s -> record_args ttl p peers hash now = Ok (Some (dev, h, disclosed, addresses)) -> room s dev ->
  (forall row, row_of s dev = Some row -> zlen (handouts_of row) + zlen addresses <= MAX_ADDRESSES) -> zlen addresses <= MAX_ADDRESSES ->
  exists s', run (record ttl p peers hash now) s = (Ok true, s') /\ consistent s' /\ active s' dev /\
    (forall k, k <> dev -> row_of s' k = row_of s k) /\
    forall a, on_record s' dev a = after_disclosure h disclosed (renewal ttl) ttl addresses (on_record s dev) a.
Proof.
  intros Hs Hargs Hroom Hcap Hcap0. destruct (record_args_spec _ _ _ _ _ _ _ _ _ Hargs) as [Hd _]. unfold record. rewrite Hargs.
  pose proof (di_time _ _ _ _ _ _ _ Hd) as Ht. pose proof (proj2 (di_device _ _ _ _ _ _ _ Hd)) as Hdev.
  match goal with |- context [_admit dev disclosed ?next] => destruct (admit_run dev disclosed next s Hs Hdev ltac:(lia) Hroom) as (s1 & -> & Hs1 & Hact & Hv1) end.
  assert (Hrow : row_of s1 dev = Some (default (sort_keys (_empty dev disclosed)) (row_of s dev))) by (by rewrite Hv1, String.eqb_refl).
  destruct (disclose_spec s1 p peers dev h disclosed addresses Hs1 Hd ltac:(by rewrite Hrow)) as (r & t & E & Hs2 & Hg2 & Hothers & Hr).
  destruct r as [u | e].
  2: { exfalso. destruct Hr as (_ & row & Hrow1 & Hz). rewrite Hrow in Hrow1. injection Hrow1 as <-. destruct (row_of s dev) as [row |].
    - specialize (Hcap row eq_refl). change (default _ (Some row)) with row in Hz. lia.
    - change (zlen (handouts_of _)) with 0 in Hz. lia. }
  rewrite (run_step _ _ _ _ _ _ E). eexists. split; [done |]. split; [done |]. split; [by destruct Hact as (doc & ? & ?); exists doc |].
  destruct Hr as (row & row' & Hrow1 & Hrow' & Hsays). split.
  - intros k Hk. unfold row_of at 1. cbn [h_rows]. rewrite Hothers by done. rewrite Hv1. by destruct (String.eqb_spec dev k).
  - intros a. unfold on_record at 1, row_of. cbn [h_rows]. rewrite Hrow'. cbn. rewrite Hsays. rewrite Hrow in Hrow1. injection Hrow1 as <-.
    unfold after_disclosure. assert (Hold : forall x, handout_at (default (sort_keys (_empty dev disclosed)) (row_of s dev)) x = on_record s dev x).
    { intros x. unfold on_record. destruct (row_of s dev); cbn; [done |]. apply empty_says; [done | lia]. }
    by rewrite Hold.
Qed.

(** The handouts a reader is given. *)
Definition listed (items : list pyval) (a : string) : option (string * Z) := entry <$> dget (by_address items) a.

Lemma current_run s dev now t : consistent s -> active s dev -> _device_id (VStr dev) = Ok dev -> _integer_time now "time" = Ok t ->
  exists items s', run (current (VStr dev) now) s = (Ok items, s') /\
    forall a, listed items a = e ← on_record s dev a; if t <? snd e then Some e else None.
Proof.
  intros Hs (doc & Hd & Hact) Hdev Ht. unfold current. rewrite Hdev. cbn [mbind res_bind]. rewrite Ht. cbn [mbind res_bind].
  assert (Hr : read_devices s = (Ok (devices_of doc), s)) by (unfold read_devices; by rewrite (proj1 Hd), (read_ok doc (proj2 Hd))).
  rewrite (run_step _ _ _ _ _ _ Hr). rewrite Hact. cbn [py_eq String.eqb Ascii.eqb Bool.eqb negb].
  pose proof Hs as [_ (doc0 & Hd0 & _ & H2)]. rewrite (holds_unique _ _ _ Hd0 Hd) in H2. specialize (H2 dev Hact).
  destruct (row_of s dev) as [row |] eqn:E; [| done]. destruct (row_valid s dev row Hs E) as [Hg Hv].
  destruct (look_spec s dev (confirm dev) Hs) as (t2 & Hl & _). rewrite E in Hl. cbn [confirm] in Hl. rewrite Hv in Hl. cbn [mbind res_bind] in Hl.
  rewrite (run_step _ _ _ _ _ _ Hl). cbn [run]. eexists _, _. split; [done |]. intros a. unfold listed, on_record. rewrite E. cbn [mbind option_bind].
  destruct (valid_row_inv dev row Hg Hv) as (Has & _). pose proof (ascending_nodup None _ Has) as Hn.
  assert (Hf : by_address (filter (fun item => (t <? expiry item) = true) (handouts_of row)) =
    filter (fun av => (t <? expiry (snd av)) = true) (by_address (handouts_of row))).
  { unfold by_address. clear. induction (handouts_of row) as [| v l IH]; [done |]. rewrite filter_cons. cbn [map]. rewrite filter_cons. cbn [snd].
    destruct (decide ((t <? expiry v) = true)); cbn [map]; by rewrite IH. }
  rewrite Hf. rewrite (dget_filter (fun v => t <? expiry v)) by done. unfold handout_at.
  destruct (dget (by_address (handouts_of row)) a) as [v |]; [| done]. cbn. by destruct (t <? expiry v).
Qed.
End protocol.

(** ** Properties *)

(** C13: whatever [record] and [current] operations run at the same time on the ledger,
    in any interleaving of their locked sections, with any of their reads and writes
    failing before or after it took effect and any of them never finishing, the two
    files keep agreeing: every row belongs to an admitted device and every active device
    has its row.  So the start-up check accepts the ledger. *)
Theorem handouts_consistent {T} {rows : RowStore T _validate_row} ttl (s s' : store T) ps :
  1 <= ttl -> consistent s -> pool_run (ledger_call ttl) (s, []) (s', ps) ->
  consistent s' /\ forall fuel create, fst (run (initialize (S fuel) create) s') = Ok false.
Proof.
  intros Httl Hs Hrun. pose proof (pool_consistent ttl Httl s s' ps Hs Hrun) as Hs'. split; [done |]. intros fuel create.
  by destruct (initialize_spec fuel create s' Hs') as (t & -> & _).
Qed.

(** C20: [record] with arguments that pass its checks, among other operations and
    failures: when it returns, the device's row holds every address it was given, under the
    given torrent and for at least the renewal time after the disclosure; otherwise a read
    or write failed, and it raises the [OSError] of a write or lock or the
    [HandoutStoreError] that says the rows or the admissions cannot be read, or it raises
    one of the two cap errors; it never reports the ledger as inconsistent. *)
Theorem record_covers {T} {rows : RowStore T _validate_row} ttl p peers hash now dev h disclosed addresses (s : store T) r s' :
  1 <= ttl -> record_args ttl p peers hash now = Ok (Some (dev, h, disclosed, addresses)) ->
  exec (fun s s1 => consistent s1 /\ grows s s1) (record ttl p peers hash now) s r s' ->
  match r with
  | Ok _ => forall peer a, peer ∈ peers -> peer_ip peer = VStr a ->
      exists e, on_record s' dev a = Some (h, e) /\ disclosed + renewal ttl <= e
  | Err e => io e \/ e = herr "handout recipient cap reached" \/ e = herr "handout address cap reached"
  end.
Proof.
  intros Httl Hargs Hexec. destruct (record_args_spec _ _ _ _ _ _ _ _ _ Hargs) as [Hd _].
  pose proof (exec_post consistent grows _ _ _ _ _ Hexec (record_safe ttl Httl p peers hash now dev h disclosed addresses s Hargs)) as Hpost.
  assert (Hret : returns (recorded ttl dev h disclosed addresses) (record ttl p peers hash now) s) by (unfold record; by rewrite Hargs).
  specialize (Hpost Hret). destruct r as [b | e]; [| exact Hpost]. destruct Hpost as (row & Hrow & Hall). intros peer a Hp Ha.
  destruct (Hall a) as (e & He & Hle); [apply (di_peers _ _ _ _ _ _ _ Hd); by exists peer |]. exists e. split; [| done]. unfold on_record. by rewrite Hrow.
Qed.

(** Below the caps [record] succeeds; it changes the row of its device only, and
    there drops what has expired, enters the given addresses with their torrent, renews
    those about to expire and keeps everything else; a reader at a later time is given
    exactly the entries that have not expired by then. *)
Theorem record_exact {T} {rows : RowStore T _validate_row} ttl p peers hash now dev h disclosed addresses (s : store T) :
  1 <= ttl -> consistent s -> record_args ttl p peers hash now = Ok (Some (dev, h, disclosed, addresses)) -> room s dev ->
  (forall row, row_of s dev = Some row -> zlen (handouts_of row) + zlen addresses <= MAX_ADDRESSES) -> zlen addresses <= MAX_ADDRESSES ->
  exists s', run (record ttl p peers hash now) s = (Ok true, s') /\ consistent s' /\
    (forall k, k <> dev -> row_of s' k = row_of s k) /\
    (forall a, on_record s' dev a = after_disclosure h disclosed (renewal ttl) ttl addresses (on_record s dev) a) /\
    forall later t, _integer_time later "time" = Ok t -> exists items s'', run (current (VStr dev) later) s' = (Ok items, s'') /\
      forall a, listed items a = e ← after_disclosure h disclosed (renewal ttl) ttl addresses (on_record s dev) a; if t <? snd e then Some e else None.
Proof.
  intros Httl Hs Hargs Hroom Hcap Hcap0. destruct (record_args_spec _ _ _ _ _ _ _ _ _ Hargs) as [Hd _].
  destruct (record_run ttl Httl p peers hash now dev h disclosed addresses s Hs Hargs Hroom Hcap Hcap0) as (s' & Hrun & Hs' & Hact & Hothers & Hon).
  exists s'. split; [done |]. split; [done |]. split; [done |]. split; [done |]. intros later t Ht.
  destruct (current_run s' dev later t Hs' Hact (proj2 (di_device _ _ _ _ _ _ _ Hd)) Ht) as (items & s'' & Hc & Hl).
  exists items, s''. split; [done |]. intros a. by rewrite Hl, Hon.
Qed.

(** ** Witnesses *)

Definition fresh_ledger : store kstate := Store (KState None None ∅ false) None.
(** After the first initialization. *)
Definition sample_ledger : store kstate := Store (KState None None ∅ true) (written [("schema", VStr ADMISSIONS_SCHEMA); ("devices", VDict [])]).
Example sample_ledger_made : run (initialize 1 true) fresh_ledger = (Ok true, sample_ledger).
Proof. vm_compute. reflexivity. Qed.

Lemma sample_ledger_consistent : consistent sample_ledger.
Proof.
  split; [split; [by left | apply map_Forall_empty] |]. exists (stored_doc [("schema", VStr ADMISSIONS_SCHEMA); ("devices", VDict [])]).
  split; [split; [done |] | split].
  - apply stored_doc_ok. split; [good_tac | vm_compute; reflexivity].
  - intros dev H. exfalso. apply H. unfold row_of. cbn [sample_ledger h_rows rs_view handout_rows keyed_rows]. unfold view, rows_at. cbn [k_shards]. by rewrite lookup_empty.
  - intros dev H. vm_compute in H. discriminate H.
Qed.

Definition sample_torrent : string := "0123456789012345678901234567890123456789".
Definition sample_peers : list pyval := [peer_dict ("10.0.0.2", 6881); peer_dict ("10.0.0.1", 6881)].
Definition sample_record : prog (store kstate) bool :=
  record 900 (Principal "device" "e1") sample_peers (VStr sample_torrent) (VInt 100).

Lemma sample_args :
  record_args 900 (Principal "device" "e1") sample_peers (VStr sample_torrent) (VInt 100) = Ok (Some ("e1", sample_torrent, 100, ["10.0.0.1"; "10.0.0.2"])).
Proof. vm_compute. reflexivity. Qed.

(** The directory sync after the entry of the device fails: the device is left pending. *)
Definition pending_ledger : store kstate :=
  Store (h_rows sample_ledger) (written [("schema", VStr ADMISSIONS_SCHEMA); ("devices", VDict [("e1", VStr "pending")])]).

Lemma sample_pool : pool_run (ledger_call 900) (sample_ledger, []) (pending_ledger, [Thread bool (Ret (Err (OSError "I/O error")))]).
Proof.
  eapply rtc_l; [apply step_start; apply (call_record 900 (Principal "device" "e1") sample_peers (VStr sample_torrent) (VInt 100)) |].
  unfold record. rewrite sample_args. cbn [app].
  eapply rtc_l; [eapply (step_act _ 0 bool _ _ _ NoFault (Ok None) sample_ledger sample_ledger); [reflexivity | vm_compute; reflexivity] |]. cbn [insert list_insert].
  eapply rtc_l; [eapply (step_act _ 0 bool _ _ _ FailAfter (Err (OSError "I/O error")) sample_ledger pending_ledger); [reflexivity | vm_compute; reflexivity] |].
  apply rtc_refl.
Qed.

Lemma handouts_consistent_witness :
  consistent pending_ledger /\ forall fuel create, fst (run (initialize (S fuel) create) pending_ledger) = Ok false.
Proof. apply (handouts_consistent 900 sample_ledger pending_ledger _ ltac:(lia) sample_ledger_consistent sample_pool). Defined.

Lemma record_covers_witness :
  fst (run sample_record sample_ledger) = Ok true /\ forall peer a, peer ∈ sample_peers -> peer_ip peer = VStr a ->
    exists e, on_record (snd (run sample_record sample_ledger)) "e1" a = Some (sample_torrent, e) /\ 100 + renewal 900 <= e.
Proof.
  pose proof (exec_alone consistent grows _ _ sample_ledger sample_ledger_consistent
    (record_safe 900 ltac:(lia) _ _ _ _ _ _ _ _ sample_ledger sample_args)) as Hexec.
  assert (Hr : fst (run sample_record sample_ledger) = Ok true) by (vm_compute; reflexivity). split; [exact Hr |].
  unfold sample_record in Hr. rewrite Hr in Hexec.
  exact (record_covers 900 (Principal "device" "e1") sample_peers (VStr sample_torrent) (VInt 100) "e1" sample_torrent 100 ["10.0.0.1"; "10.0.0.2"]
    sample_ledger (Ok true) _ ltac:(lia) sample_args Hexec).
Defined.

Lemma record_exact_witness :
  exists s', run sample_record sample_ledger = (Ok true, s') /\ consistent s' /\
    (forall k, k <> "e1" -> row_of s' k = row_of sample_ledger k) /\
    (forall a, on_record s' "e1" a = after_disclosure sample_torrent 100 (renewal 900) 900 ["10.0.0.1"; "10.0.0.2"] (on_record sample_ledger "e1") a) /\
    forall later t, _integer_time later "time" = Ok t -> exists items s'', run (current (VStr "e1") later) s' = (Ok items, s'') /\
      forall a, listed items a = e ← after_disclosure sample_torrent 100 (renewal 900) 900 ["10.0.0.1"; "10.0.0.2"] (on_record sample_ledger "e1") a; if t <? snd e then Some e else None.
Proof.
  apply (record_exact 900 (Principal "device" "e1") sample_peers (VStr sample_torrent) (VInt 100) "e1" sample_torrent 100 ["10.0.0.1"; "10.0.0.2"] sample_ledger).
  - lia.
  - apply sample_ledger_consistent.
  - exact sample_args.
  - right. intros doc [Hd _]. injection Hd as <-. vm_compute. reflexivity.
  - intros row Hrow. exfalso. unfold row_of in Hrow. cbn [sample_ledger h_rows rs_view handout_rows keyed_rows] in Hrow. unfold view, rows_at in Hrow.
    cbn [k_shards] in Hrow. by rewrite lookup_empty in Hrow.
  - vm_compute. discriminate.
Defined.

(** Two disclosures to one device from interleaved threads. *)
Example both_recorded :
  let s := snd (run (record 900 (Principal "device" "e1") [peer_dict ("10.0.0.3", 6881)] (VStr sample_torrent) (VInt 150)) (snd (run sample_record sample_ledger))) in
  map (on_record s "e1") ["10.0.0.1"; "10.0.0.3"; "10.0.0.4"] = [Some (sample_torrent, 1000); Some (sample_torrent, 1050); None].
Proof. vm_compute. reflexivity. Qed.
