(* ===== verification/TrackerLedger.v ===== *)
(** * The tracker and the handout ledger together

    The announce handler with the endpoint map and the handout ledger as its stores:
    every peer in a reply to a device is on record for that device when the reply is
    sent. *)
From stdpp Require Import gmap.
From S2P Require Import Prelude PyVal JsonDump KeyedState KeyedSpec SchedDoc SchedValid WaveGate PolicyEval PolicyEvalSpec PolicyStore Odict PeerRegistry.
From S2P Require Import RegistrySpec PeerEndpoints Blocklist BlocklistSpec Tracker TrackerSpec Interleave PeerHandouts HandoutRows HandoutSpec.

Section stores.
Context {T : Type} {rows : RowStore T _validate_row} (guard_ok : bool) (ttl : Z).

(** The default writers, on the endpoint map and the ledger. *)
Definition write_endpoint (p : principal) (ip : string) (port : Z) (now : pyfloat) : sm (kstate * store T) bool := fun s =>
  let '(r, e) := record_endpoint guard_ok p ip port now (fst s) in (r, (e, snd s)).
Definition write_handout (p : principal) (out : list (string * Z)) (h : string) (now : pyfloat) : sm (kstate * store T) bool := fun s =>
  let '(r, l) := record_handout ttl p out h now (snd s) in (r, (fst s, l)).

Context (ttl_pos : 1 <= ttl).

Lemma addresses_nonempty out : out <> [] -> peer_addresses (map peer_dict out) <> Ok [].
Proof.
  intros Hne H. destruct (peer_addresses_spec _ _ H) as (_ & _ & Hin). destruct out as [| [ip port] out]; [done |].
  assert (Hx : ip ∈ @nil string); [| by apply elem_of_nil in Hx]. apply Hin. exists (peer_dict (ip, port)). split; [by left | done].
Qed.

Lemma handout_recorded p out h now s s' :
  consistent (snd s) -> is_device p = true -> out <> [] -> write_handout p out h now s = (Ok true, s') ->
  consistent (snd s') /\ exists disclosed, _integer_time (VFloat now) "disclosure time" = Ok disclosed /\
    forall peer, peer ∈ out -> exists e, on_record (snd s') (p_id p) (fst peer) = Some (h, e) /\ disclosed + renewal ttl <= e.
Proof.
  intros Hs Hp Hne H. unfold write_handout, record_handout in H.
  destruct (run (record ttl p (map peer_dict out) (VStr h) (VFloat now)) (snd s)) as [r l] eqn:E. injection H as -> <-. cbn [snd].
  destruct (record_args ttl p (map peer_dict out) (VStr h) (VFloat now)) as [[[[[dev h'] disclosed] addresses] |] | e] eqn:Ea.
  - destruct (record_args_spec _ _ _ _ _ _ _ _ _ Ea) as (Hd & [= <-] & Ht).
    pose proof (run_safe consistent grows _ _ (snd s) Hs (record_safe ttl ttl_pos _ _ _ _ _ _ _ _ (snd s) Ea)) as Hrun. rewrite E in Hrun. cbn [fst snd] in Hrun.
    destruct Hrun as (Hl & row & Hrow & Hall); [unfold record; by rewrite Ea |]. split; [done |]. exists disclosed. split; [done |]. intros [ip port] Hin.
    destruct (di_device _ _ _ _ _ _ _ Hd) as [-> _]. cbn [p_id fst]. destruct (Hall ip) as (e & He & Hle).
    + apply (di_peers _ _ _ _ _ _ _ Hd). exists (peer_dict (ip, port)). split; [by apply list_elem_of_fmap_2 | done].
    + exists e. split; [| done]. unfold on_record. by rewrite Hrow.
  - exfalso. unfold record_args in Ea. unfold is_device in Hp. rewrite Hp in Ea. cbn [negb] in Ea. destruct (_device_id (VStr (p_id p))); [| discriminate Ea].
    cbn [mbind res_bind] in Ea. destruct (negb (HEX40 h)); [discriminate Ea |]. destruct (_integer_time _ _); [| discriminate Ea]. cbn [mbind res_bind] in Ea.
    destruct (peer_addresses (map peer_dict out)) as [[| x l'] |] eqn:El; [by apply (addresses_nonempty out Hne) | | discriminate Ea].
    cbn [mbind res_bind] in Ea. by destruct (_ <? _).
  - exfalso. unfold record in E. rewrite Ea in E. cbn in E. discriminate E.
Qed.

Context (has_store : bool) (attributions : kstate * store T -> res LegacyAttributions) (ticks : pyfloat -> Z) (second : Z) (randbelow : Z -> Z).

#[local] Abbreviation handle := (_handle_announce has_store true write_endpoint write_handout attributions ticks second randbelow).

(** C12: when the tracker keeps its ledger, every peer listed in a reply to a device is on
    record for that device and torrent when the reply is sent, for at least the renewal
    time from the announce, and the ledger stays consistent; whatever the policy, the
    endpoint store and the swarms. *)
Theorem told_is_on_record q ctx socket_ip policy factor now now_read t out compact interval t' :
  consistent (snd (t_store t)) -> is_device ctx = true ->
  handle q ctx socket_ip policy factor now now_read t = (Ok (Announced out compact interval), t') -> out <> [] ->
  consistent (snd (t_store t')) /\ exists disclosed, _integer_time (VFloat now) "disclosure time" = Ok disclosed /\
    forall peer, peer ∈ out -> exists e, on_record (snd (t_store t')) (p_id ctx) (fst peer) = Some (a_info_hash q, e) /\ disclosed + renewal ttl <= e.
Proof.
  intros Hc Hd H Hne.
  destruct (announce_recorded has_store true write_endpoint write_handout attributions ticks second randbelow q ctx socket_ip policy factor now now_read t
    out compact interval t' eq_refl Hd H Hne) as (s & Hb & Hr).
  eapply handout_recorded; [| exact Hd | exact Hne | exact Hr]. destruct Hb as [-> | (ip & port & ->)]; [done |].
  unfold write_endpoint. by destruct (record_endpoint guard_ok ctx ip port now (fst (t_store t))).
Qed.
End stores.

(** ** Witness *)

Definition ledger_tracker : tracker (S := kstate * store kstate) :=
  Tracker sample_swarm (KState None None ∅ true, sample_ledger) (new_queue None) ([] : list signal).

Definition ledger_reply : res reply * tracker (S := kstate * store kstate) :=
  _handle_announce true true (write_endpoint true) (write_handout 900) (fun _ => Ok nothing_known) (fun _ => 101) 1 (fun _ => 0)
    (sample_query "e1") (Principal "device" "e1") "10.0.0.2" (Some (0, sample_policy false)) (FFin 1 0) (FFin 101 0) 101 ledger_tracker.

Lemma told_is_on_record_witness :
  exists out compact interval t', ledger_reply = (Ok (Announced out compact interval), t') /\ out <> [] /\
  consistent (snd (t_store t')) /\ exists disclosed, _integer_time (VFloat (FFin 101 0)) "disclosure time" = Ok disclosed /\
    forall peer, peer ∈ out -> exists e, on_record (snd (t_store t')) "e1" (fst peer) = Some (sample_hash, e) /\ disclosed + renewal 900 <= e.
Proof.
  assert (H : match ledger_reply with (Ok (Announced (_ :: _) _ _), _) => true | _ => false end = true) by (vm_compute; reflexivity).
  destruct ledger_reply as [[[status reason | [| peer out] compact interval] | e] t'] eqn:E; try discriminate H.
  exists (peer :: out), compact, interval, t'. split; [reflexivity |]. split; [discriminate |].
  apply (told_is_on_record true 900 ltac:(lia) true (fun _ => Ok nothing_known) (fun _ => 101) 1 (fun _ => 0) (sample_query "e1") (Principal "device" "e1") "10.0.0.2"
    (Some (0, sample_policy false)) (FFin 1 0) (FFin 101 0) 101 ledger_tracker (peer :: out) compact interval t');
    [exact sample_ledger_consistent | reflexivity | exact E | discriminate].
Defined.
