(* ===== verification/PeerLedger.v ===== *)
(** * [server/peer_ledger.py]: bytes sent to each peer

    The seeder's counters are per connection and gone when the connection is.  The ledger
    banks, for each torrent and address, what each reading of a connection adds to the
    one before, and keeps the seeder's own total beside it.

    The file holds what the ledger wrote, or is unreadable and reads as empty; the checks
    of the code against hand-edited records are not modelled.  Times are ints in any
    unit, and the digits of a reading given as text are ASCII. *)
From S2P Require Import Prelude PyVal Bencode SchedDoc KeyedState Odict.

Definition _PEER_CAP : Z := 512.
Definition _CONN_CAP : Z := 16.
Definition _TORRENT_CAP : Z := 256.
Definition _BYTES_CAP : Z := 2 ^ 53.
Definition _IP_MAX : Z := 64.

(** [value == int(value)] and the int, for a float; [int] of an infinity or a NaN raises. *)
Definition integral (f : pyfloat) : res (option Z) :=
  match f with
  | FFin m e =>
      if 0 <=? e then Ok (Some (m * 2 ^ e))
      else if m mod 2 ^ (- e) =? 0 then Ok (Some (m / 2 ^ (- e))) else Ok None
  | FNan => Err (ValueError "cannot convert float NaN to integer")
  | FInf _ => Err OverflowError
  end.

Definition _bytes (value : pyval) : res (option Z) :=
  let* z :=
    match value with
    | VStr s => Ok (py_int (bytes_of s))
    | VInt z => Ok (Some z)
    | VFloat f => integral f
    | _ => Ok None
    end in
  Ok (match z with Some z => if z <? 0 then None else Some (Z.min z _BYTES_CAP) | None => None end).

(** ** State *)

Record conn := Conn { c_last : Z; c_seen : Z }.
Record edge := Edge { e_total : Z; e_conns : odict string conn; e_first_seen : Z; e_last_seen : Z }.
Record origin := Origin { o_total : Z; o_last : option Z }.
Record torrent := Torrent {
  u_image_id : string; u_session_id : option string; u_peers : odict string edge; u_saturated_at : option Z;
  u_first_observed : option Z; u_updated_at : Z; u_origin : origin }.
(** [peers_saturated] is true when [peers_saturated_at] is set. *)
Definition saturated (rec : torrent) : bool := match u_saturated_at rec with Some _ => true | None => false end.

Record data := Data { torrents : odict string torrent; torrents_evicted : Z }.

(** The file: [None] when it is missing or unreadable. *)
Definition _read (f : option data) : data := default (Data [] 0) f.

Definition new_torrent : torrent := Torrent "" None [] None None 0 (Origin 0 None).
Definition _torrent (d : data) (info_hash image_id : string) : torrent :=
  let rec := mget_or (torrents d) info_hash new_torrent in
  if String.eqb image_id "" then rec
  else Torrent image_id (u_session_id rec) (u_peers rec) (u_saturated_at rec) (u_first_observed rec) (u_updated_at rec) (u_origin rec).

(** [(key(x), x) <= (key(y), y)] for pairs sorted by a number and then a name. *)
Definition older (x y : Z * string) : bool := (fst x <? fst y) || ((fst x =? fst y) && str_leb (snd x) (snd y)).

(** The names of the [n] oldest. *)
Definition oldest_names {A} (stamp : A -> Z) (d : odict string A) (n : nat) : list string :=
  map snd (take n (sort_by older (map (fun kv => (stamp (snd kv), fst kv)) d))).
Definition drop_names {A} (names : list string) (d : odict string A) : odict string A := foldl mpop d names.

Definition _cap_conns (conns : odict string conn) : odict string conn :=
  if zlen conns <=? _CONN_CAP then conns else drop_names (oldest_names c_seen conns (Z.to_nat (zlen conns - _CONN_CAP))) conns.

Definition _write (d : data) : option data :=
  let over := zlen (torrents d) - _TORRENT_CAP in
  if 0 <? over then
    Some (Data (drop_names (oldest_names u_updated_at (torrents d) (Z.to_nat over)) (torrents d)) (torrents_evicted d + over))
  else Some d.

(** ** Accumulation *)

(** What a reading adds to the one before: everything when there is none, or when the
    counter restarted. *)
Definition delta (previous : option Z) (value : Z) : Z :=
  match previous with Some p => if value <? p then value else value - p | None => value end.

Definition banked (total amount : Z) : Z := Z.min (total + amount) _BYTES_CAP.

Definition _observe_origin (o : origin) (upload_length : option Z) : origin :=
  match upload_length with
  | Some value => Origin (banked (o_total o) (delta (o_last o) value)) (Some value)
  | None => o
  end.

Definition _start_epoch (rec : torrent) : torrent :=
  Torrent (u_image_id rec) (u_session_id rec)
    (map (fun ie => (fst ie, Edge (e_total (snd ie)) [] (e_first_seen (snd ie)) (e_last_seen (snd ie)))) (u_peers rec))
    (u_saturated_at rec) (u_first_observed rec) (u_updated_at rec) (Origin (o_total (u_origin rec)) None).

(** [((ip, port), value)] as the seeder reports it; the port is a string here. *)
Definition sample : Type := string * string * pyval.
Definition reading : Type := string * string * Z.

Definition reading_le (x y : reading) : bool :=
  let '(ip, port, v) := x in
  let '(ip', port', v') := y in
  str_ltb ip ip' || (String.eqb ip ip' && (str_ltb port port' || (String.eqb port port' && (v <=? v')))).

Definition _clean (samples : list sample) : res (list reading) :=
  let* out := res_map (fun s : sample =>
    let '(ip, port, value) := s in
    if String.eqb ip "" || (_IP_MAX <? zlen (code_points ip)) then Ok None
    else let* total := _bytes value in Ok (t ← total; Some (ip, port, t))) samples in
  Ok (sort_by reading_le (omap id out)).

(** A row for the exporter. *)
Record bytes_row := BytesRow { b_info_hash : string; b_image_id : string; b_ip : string; b_sent : Z; b_delta : Z }.

Definition with_peers (rec : torrent) (peers : odict string edge) (saturated_at : option Z) : torrent :=
  Torrent (u_image_id rec) (u_session_id rec) peers saturated_at (u_first_observed rec) (u_updated_at rec) (u_origin rec).

(** One reading: the edge of a known address, a new edge, or none when there are too many. *)
Definition observe_reading (info_hash : string) (now : Z) (st : torrent * list bytes_row) (r : reading) : torrent * list bytes_row :=
  let '(rec, rows) := st in
  let '(ip, port, value) := r in
  let known :=
    match mget (u_peers rec) ip with
    | Some e => Some e
    | None => if _PEER_CAP <=? zlen (u_peers rec) then None else Some (Edge 0 [] now now)
    end in
  match known with
  | None => (with_peers rec (u_peers rec) (Some (default now (u_saturated_at rec))), rows)
  | Some e =>
      let amount := delta (c_last <$> mget (e_conns e) port) value in
      let total := if amount =? 0 then e_total e else banked (e_total e) amount in
      let e := Edge total (_cap_conns (mset (e_conns e) port (Conn value now))) (e_first_seen e) now in
      (with_peers rec (mset (u_peers rec) ip e) (u_saturated_at rec),
       if amount =? 0 then rows else rows ++ [BytesRow info_hash (u_image_id rec) ip total amount])
  end.

(** A known session other than the record's starts an epoch; an unknown one changes nothing. *)
Definition enter_session (session_id : option string) (rec : torrent) : torrent :=
  match session_id with
  | None => rec
  | Some sid =>
      let rec := match u_session_id rec with Some old => if String.eqb sid old then rec else _start_epoch rec | None => rec end in
      Torrent (u_image_id rec) (Some sid) (u_peers rec) (u_saturated_at rec) (u_first_observed rec) (u_updated_at rec) (u_origin rec)
  end.

(** The record of a torrent after one sample of the seeder. *)
Definition observe_torrent (info_hash : string) (readings : list reading) (session_id : option string) (now : Z) (upload : option Z)
    (rec : torrent) : torrent * list bytes_row :=
  let rec := Torrent (u_image_id rec) (u_session_id rec) (u_peers rec) (u_saturated_at rec) (Some (default now (u_first_observed rec)))
    (u_updated_at rec) (u_origin rec) in
  let rec := enter_session session_id rec in
  let rec := Torrent (u_image_id rec) (u_session_id rec) (u_peers rec) (u_saturated_at rec) (u_first_observed rec) (u_updated_at rec)
    (_observe_origin (u_origin rec) upload) in
  let '(rec, rows) := foldl (observe_reading info_hash now) (rec, []) readings in
  (Torrent (u_image_id rec) (u_session_id rec) (u_peers rec) (u_saturated_at rec) (u_first_observed rec) now (u_origin rec), rows).

Definition observe (info_hash image_id : string) (samples : list sample) (session_id : option string) (now : Z) (upload_length : pyval)
    : sm (option data) (list bytes_row) := fun f =>
  let d := _read f in
  match (let* upload := _bytes upload_length in let* readings := _clean samples in Ok (upload, readings)) with
  | Err e => (Err e, f)
  | Ok (upload, readings) =>
      let '(rec, rows) := observe_torrent info_hash readings session_id now upload (_torrent d info_hash image_id) in
      (Ok (sort_by (fun x y => str_leb (b_ip x) (b_ip y)) rows), _write (Data (mset (torrents d) info_hash rec) (torrents_evicted d)))
  end.

(** ** Readers *)

Definition attributed (rec : torrent) : Z := foldl (fun n ie => n + e_total (snd ie)) 0 (u_peers rec).

Definition totals (f : option data) (info_hash : option string) : list (string * odict string Z) :=
  map (fun kr => (fst kr, map (fun ie => (fst ie, e_total (snd ie))) (u_peers (snd kr))))
    (filter (fun kr => match info_hash with Some h => String.eqb (fst kr) h | None => true end = true) (torrents (_read f))).

Definition unattributed (f : option data) (info_hash : string) : Z :=
  match mget (torrents (_read f)) info_hash with
  | Some rec => Z.max 0 (o_total (u_origin rec) - attributed rec)
  | None => 0
  end.

Record torrent_total := TorrentTotal {
  tt_image_id : string; tt_attributed : Z; tt_origin_total : Z; tt_unattributed : Z; tt_peers : Z; tt_peers_attributed : Z;
  tt_saturated : bool; tt_updated_at : Z }.

Definition total_of (rec : torrent) : torrent_total :=
  TorrentTotal (u_image_id rec) (attributed rec) (o_total (u_origin rec)) (Z.max 0 (o_total (u_origin rec) - attributed rec))
    (zlen (u_peers rec)) (zlen (filter (fun ie => 0 < e_total (snd ie)) (u_peers rec))) (saturated rec) (u_updated_at rec).

Definition torrent_totals (f : option data) : list (string * torrent_total) := map (fun kr => (fst kr, total_of (snd kr))) (torrents (_read f)).

Definition ledger_stats (f : option data) : Z * Z * Z * Z := (zlen (torrents (_read f)), _TORRENT_CAP, _PEER_CAP, torrents_evicted (_read f)).

(** ** Retention *)

Definition prune (before_ts : Z) : sm (option data) (list string) := fun f =>
  let d := _read f in
  let dropped := map fst (filter (fun kr => u_updated_at (snd kr) < before_ts) (torrents d)) in
  (Ok (sort_by str_leb dropped),
   match dropped with [] => f | _ => _write (Data (drop_names dropped (torrents d)) (torrents_evicted d)) end).
