(* ===== verification/LedgerSpec.v ===== *)
(** * What the byte ledger adds up

    A connection's counter grows while the connection lives and restarts with the next
    one, so the bytes sent over it are the sum of its peaks.  The ledger, which sees only
    successive readings, adds up exactly that. *)
From S2P Require Import Prelude PyVal KeyedState KeyedSpec Odict PeerLedger.

(** ** Reference *)

(** The values just before each restart, and the last one. *)
Fixpoint peaks (vs : list Z) : Z :=
  match vs with
  | [] => 0
  | v :: rest => match rest with [] => v | w :: _ => (if w <? v then v else 0) + peaks rest end
  end.

(** What the readings add up to, one after the other. *)
Fixpoint gain (previous : option Z) (vs : list Z) : Z :=
  match vs with [] => 0 | v :: vs => delta previous v + gain (Some v) vs end.

Lemma gain_peaks_from p vs : gain (Some p) vs = peaks (p :: vs) - p.
Proof.
  revert p. induction vs as [| v vs IH]; intros p; [cbn; lia |]. cbn [gain]. rewrite IH. cbn [delta peaks]. destruct (Z.ltb_spec v p); lia.
Qed.

Lemma gain_peaks vs : gain None vs = peaks vs.
Proof. destruct vs as [| v vs]; [done |]. cbn [gain delta]. rewrite gain_peaks_from. lia. Qed.

(** The reading the next one is compared with. *)
Definition latest (previous : option Z) (vs : list Z) : option Z := foldl (fun _ v => Some v) previous vs.

Lemma gain_app p vs ws : gain p (vs ++ ws) = gain p vs + gain (latest p vs) ws.
Proof. revert p. induction vs as [| v vs IH]; intros p; [done |]. cbn. rewrite IH. unfold latest. lia. Qed.

Lemma delta_nonneg p v : 0 <= v -> 0 <= delta p v.
Proof. intros H. destruct p as [p |]; [| done]. cbn. destruct (Z.ltb_spec v p); lia. Qed.

Lemma gain_nonneg p vs : Forall (fun v => 0 <= v) vs -> 0 <= gain p vs.
Proof.
  intros H. revert p. induction H as [| v vs Hv _ IH]; intros p; cbn; [lia |]. pose proof (delta_nonneg p v Hv). pose proof (IH (Some v)). lia.
Qed.

(** ** Sums over ports *)

Definition zsum {A} (f : A -> Z) (l : list A) : Z := foldr (fun x n => f x + n) 0 l.

Lemma zsum_ext {A} (f g : A -> Z) l : (forall x, x ∈ l -> f x = g x) -> zsum f l = zsum g l.
Proof. induction l as [| x l IH]; intros H; [done |]. cbn. rewrite (H x) by (by left). f_equal. apply IH. intros y Hy. apply H. by right. Qed.

Lemma zsum_nonneg {A} (f : A -> Z) l : (forall x, x ∈ l -> 0 <= f x) -> 0 <= zsum f l.
Proof.
  induction l as [| x l IH]; intros H; [done |]. cbn. assert (0 <= f x) by (apply H; by left).
  assert (0 <= zsum f l) by (apply IH; intros y Hy; apply H; by right). unfold zsum in *. lia.
Qed.

Lemma zsum_add {A} (f g : A -> Z) l : zsum (fun x => f x + g x) l = zsum f l + zsum g l.
Proof. induction l as [| x l IH]; [done |]. cbn. unfold zsum in IH. rewrite IH. lia. Qed.

(** One summand changed. *)
Lemma zsum_update (f g : string -> Z) l x : NoDup l -> x ∈ l -> (forall y, y <> x -> f y = g y) -> zsum f l = zsum g l + (f x - g x).
Proof.
  intros Hn Hx Hfg. induction Hn as [| y l Hy Hn IH]; [by apply elem_of_nil in Hx |]. cbn. fold (zsum f l). fold (zsum g l).
  apply elem_of_cons in Hx as [<- | Hx].
  - rewrite (zsum_ext f g l); [lia |]. intros z Hz. apply Hfg. intros ->. done.
  - rewrite (Hfg y) by (intros ->; done). rewrite (IH Hx). lia.
Qed.

(** ** One address *)

Definition total_at (rec : torrent) (ip : string) : Z := default 0 (e_total <$> mget (u_peers rec) ip).
Definition conns_at (rec : torrent) (ip : string) : odict string conn := default [] (e_conns <$> mget (u_peers rec) ip).
Definition baseline (rec : torrent) (ip port : string) : option Z := c_last <$> mget (conns_at rec ip) port.

(** The values read from one connection, in order. *)
Definition values (ip port : string) (rs : list reading) : list Z :=
  omap (fun r : reading => let '(i, p, v) := r in if String.eqb i ip && String.eqb p port then Some v else None) rs.

Section address.
Context (h ip : string) (now : Z) (ports ips : list string).
Context (ports_nodup : NoDup ports) (ports_fit : zlen ports <= _CONN_CAP) (ips_fit : zlen ips <= _PEER_CAP).

(** The connections of the address and the addresses of the torrent are among the known ones. *)
Record fits (rec : torrent) : Prop := {
  fi_peers : NoDup (mkeys (u_peers rec)) /\ forall i, i ∈ mkeys (u_peers rec) -> i ∈ ips;
  fi_conns : NoDup (mkeys (conns_at rec ip)) /\ forall p, p ∈ mkeys (conns_at rec ip) -> p ∈ ports;
  fi_total : 0 <= total_at rec ip <= _BYTES_CAP }.

Definition reading_fits (r : reading) : Prop := let '(i, p, v) := r in i ∈ ips /\ (i = ip -> p ∈ ports) /\ 0 <= v.

Lemma keys_fit {A} (d : odict string A) l : NoDup (mkeys d) -> (forall k, k ∈ mkeys d -> k ∈ l) -> zlen d <= zlen l.
Proof.
  intros Hn Hk. unfold zlen. assert (Hl : (length (mkeys d) <= length l)%nat) by (apply NoDup_incl_length; [by apply NoDup_ListNoDup | intros k Hx; apply list_elem_of_In, Hk; by apply list_elem_of_In]).
  unfold mkeys in Hl. rewrite length_map in Hl. lia.
Qed.

Lemma cap_conns_fit conns : NoDup (mkeys conns) -> (forall p, p ∈ mkeys conns -> p ∈ ports) -> _cap_conns conns = conns.
Proof. intros Hn Hk. unfold _cap_conns. pose proof (keys_fit conns ports Hn Hk). destruct (Z.leb_spec (zlen conns) _CONN_CAP); [done | lia]. Qed.

(** The address is known, or there is room for it. *)
Lemma room_for rec i : fits rec -> i ∈ ips -> mget (u_peers rec) i = None -> (_PEER_CAP <=? zlen (u_peers rec)) = false.
Proof.
  intros [[Hn Hk] _ _] Hi Hnone. apply Z.leb_gt. apply mget_None in Hnone.
  assert (Hl : (length (i :: mkeys (u_peers rec)) <= length ips)%nat).
  { apply NoDup_incl_length; [apply NoDup_ListNoDup; by constructor |]. intros k [<- | Hx]; apply list_elem_of_In; [done |]. apply Hk. by apply list_elem_of_In. }
  cbn in Hl. unfold mkeys in Hl. rewrite length_map in Hl. unfold zlen in *. lia.
Qed.

(** The address and its connections after one reading. *)
Lemma reading_step rec rows r : fits rec -> reading_fits r -> let '(i, p, v) := r in
  let rec' := fst (observe_reading h now (rec, rows) r) in fits rec' /\
  (i <> ip -> total_at rec' ip = total_at rec ip /\ forall q, baseline rec' ip q = baseline rec ip q) /\
  (i = ip -> total_at rec' ip = banked (total_at rec ip) (delta (baseline rec ip p) v) /\
    forall q, baseline rec' ip q = if decide (p = q) then Some v else baseline rec ip q).
Proof.
  destruct r as [[i p] v]. intros Hf (Hi & Hp & Hv). pose proof Hf as [[Hn Hk] [Hcn Hck] Ht]. cbn zeta.
  assert (Hmem : forall e, let peers' := mset (u_peers rec) i e in NoDup (mkeys peers') /\ forall j, j ∈ mkeys peers' -> j ∈ ips).
  { intros e. cbn zeta. split; [by apply NoDup_mset |]. intros j. rewrite mkeys_elem, mget_mset. destruct (decide (i = j)) as [<- |]; [done |].
    intros Hj. apply Hk. by apply mkeys_elem. }
  unfold observe_reading.
  set (known := match mget (u_peers rec) i with Some e => Some e | None => if _PEER_CAP <=? zlen (u_peers rec) then None else Some (Edge 0 [] now now) end).
  assert (Hkn : exists e, known = Some e /\ (i = ip -> e_total e = total_at rec ip /\ e_conns e = conns_at rec ip)).
  { unfold known. destruct (mget (u_peers rec) i) as [e |] eqn:E; [| rewrite (room_for rec i Hf Hi E)].
    - exists e. split; [done |]. intros <-. unfold total_at, conns_at. by rewrite E.
    - eexists. split; [done |]. intros <-. unfold total_at, conns_at. by rewrite E. }
  destruct Hkn as (e & -> & He). cbn [fst].
  set (amount := delta (c_last <$> mget (e_conns e) p) v).
  set (tot := if amount =? 0 then e_total e else banked (e_total e) amount).
  set (e' := Edge tot (_cap_conns (mset (e_conns e) p (Conn v now))) (e_first_seen e) now). set (rec' := with_peers rec (mset (u_peers rec) i e') (u_saturated_at rec)).
  assert (Hget : mget (u_peers rec') ip = if decide (i = ip) then Some e' else mget (u_peers rec) ip) by (unfold rec'; cbn; apply mget_mset).
  destruct (decide (i = ip)) as [-> | Hne].
  - destruct (He eq_refl) as [Het Hec]. specialize (Hp eq_refl).
    assert (Hn' : NoDup (mkeys (mset (e_conns e) p (Conn v now)))) by (apply NoDup_mset; by rewrite Hec).
    assert (Hk' : forall q, q ∈ mkeys (mset (e_conns e) p (Conn v now)) -> q ∈ ports).
    { intros q. rewrite mkeys_elem, mget_mset. destruct (decide (p = q)) as [<- |]; [done |]. rewrite Hec. intros Hq. apply Hck. by apply mkeys_elem. }
    assert (Hconns : conns_at rec' ip = mset (conns_at rec ip) p (Conn v now)).
    { unfold conns_at at 1. rewrite Hget. cbn. rewrite cap_conns_fit by done. by rewrite Hec. }
    assert (Hamt : 0 <= amount) by (by apply delta_nonneg).
    assert (Htot : total_at rec' ip = banked (total_at rec ip) (delta (baseline rec ip p) v)).
    { unfold total_at at 1. rewrite Hget. cbn. unfold tot. unfold baseline. rewrite <- Hec, <- Het. fold amount. unfold banked.
      destruct (Z.eqb_spec amount 0); [rewrite <- Het in Ht; lia | done]. }
    split; [| split; [done |]].
    + split; [apply Hmem | rewrite Hconns, <- Hec; done |]. rewrite Htot. pose proof (delta_nonneg (baseline rec ip p) v Hv). unfold banked, _BYTES_CAP in *. lia.
    + intros _. split; [exact Htot |]. intros q. unfold baseline. rewrite Hconns, mget_mset. by destruct (decide (p = q)).
  - assert (Hs : total_at rec' ip = total_at rec ip /\ conns_at rec' ip = conns_at rec ip) by (unfold total_at, conns_at; by rewrite Hget).
    destruct Hs as [Hs1 Hs2]. split; [split; [apply Hmem | by rewrite Hs2 | by rewrite Hs1] |]. split; [| done]. intros _. split; [done |]. intros q. unfold baseline. by rewrite Hs2.
Qed.

Lemma values_cons i p v q rs :
  values ip q ((i, p, v) :: rs) = (if decide (i = ip /\ p = q) then [v] else []) ++ values ip q rs.
Proof.
  unfold values. cbn. destruct (String.eqb_spec i ip) as [-> |], (String.eqb_spec p q) as [-> |]; cbn;
    (destruct (decide _) as [[? ?] | ?]; [| try done]); tauto || done.
Qed.

Lemma gains_nonneg rec rs : Forall reading_fits rs -> 0 <= zsum (fun q => gain (baseline rec ip q) (values ip q rs)) ports.
Proof.
  intros Hrs. apply zsum_nonneg. intros q _. apply gain_nonneg. unfold values. apply Forall_forall. intros x Hx.
  apply list_elem_of_omap in Hx as ([[j p] w] & Hin & Hw). rewrite Forall_forall in Hrs. destruct (Hrs _ Hin) as (_ & _ & Hnn).
  by destruct (_ && _); [injection Hw as <- |].
Qed.

Lemma gains_none rec : zsum (fun q => gain (baseline rec ip q) (values ip q [])) ports = 0.
Proof. clear. induction ports; [done | by cbn]. Qed.

(** All readings of one sample. *)
Lemma readings_fold rs rec rows rec' rows' :
  foldl (observe_reading h now) (rec, rows) rs = (rec', rows') -> fits rec -> Forall reading_fits rs ->
  fits rec' /\ total_at rec' ip = Z.min (total_at rec ip + zsum (fun q => gain (baseline rec ip q) (values ip q rs)) ports) _BYTES_CAP /\
  forall q, baseline rec' ip q = latest (baseline rec ip q) (values ip q rs).
Proof.
  intros Hfold Hf Hrs. revert rec rows Hfold Hf. induction Hrs as [| [[i p] v] rs Hr Hrs IH]; intros rec rows Hfold Hf.
  - injection Hfold as <- <-. split; [done |]. split; [| done]. pose proof (fi_total _ Hf).
    pose proof (gains_none rec) as Hz. unfold zsum in *. rewrite Hz. lia.
  - cbn [foldl] in Hfold. pose proof (reading_step rec rows (i, p, v) Hf Hr) as (Hf1 & Hother & Hsame).
    destruct (observe_reading h now (rec, rows) (i, p, v)) as [rec1 rows1]. cbn [fst] in *.
    destruct (IH _ _ Hfold Hf1) as (Hf' & Htot & Hbase). split; [done |].
    pose proof (gains_nonneg rec1 rs Hrs) as Hnn.
    destruct (decide (i = ip)) as [-> | Hne].
    + destruct Hr as (_ & Hp & Hv). specialize (Hp eq_refl). destruct (Hsame eq_refl) as [Ht1 Hb1]. split.
      * rewrite Htot, Ht1. pose proof (delta_nonneg (baseline rec ip p) v Hv) as Hd. pose proof (fi_total _ Hf).
        match goal with |- _ = Z.min (_ + zsum ?F ports) _ => rewrite (zsum_update F (fun q => gain (baseline rec1 ip q) (values ip q rs)) ports p); [| done | done |] end.
        -- rewrite values_cons. rewrite decide_True by done. cbn [app gain]. rewrite Hb1. rewrite decide_True by done. unfold banked. lia.
        -- intros q Hq. rewrite values_cons. rewrite decide_False by (intros [_ ?]; congruence). rewrite Hb1. rewrite decide_False by congruence. done.
      * intros q. rewrite Hbase, Hb1, values_cons. destruct (decide (p = q)) as [<- |]; [by rewrite decide_True | by rewrite decide_False by (intros [_ ?]; congruence)].
    + destruct (Hother Hne) as [Ht1 Hb1].
      assert (Hval : forall q, values ip q ((i, p, v) :: rs) = values ip q rs) by (intros q; rewrite values_cons; by rewrite decide_False by tauto).
      split; [rewrite Htot, Ht1; do 2 f_equal; apply zsum_ext; intros q _; by rewrite Hb1, Hval | intros q; by rewrite Hbase, Hb1, Hval].
Qed.
End address.

(** ** Histories *)

(** One sample of the seeder, cleaned. *)
Record observation := Obs { ob_readings : list reading; ob_session : option string; ob_now : Z; ob_upload : option Z }.
Definition observe_one (h : string) (rec : torrent) (o : observation) : torrent :=
  fst (observe_torrent h (ob_readings o) (ob_session o) (ob_now o) (ob_upload o) rec).
Definition observe_all (h : string) (rec : torrent) (obs : list observation) : torrent := foldl (observe_one h) rec obs.
Definition readings_of (obs : list observation) : list reading := concat (map ob_readings obs).

(** Does the sample belong to another session than the record? *)
Definition restarts (rec : torrent) (o : observation) : bool :=
  match ob_session o, u_session_id rec with Some sid, Some old => negb (String.eqb sid old) | _, _ => false end.

Section history.
Context (h ip : string) (ports ips : list string).
Context (ports_nodup : NoDup ports) (ports_fit : zlen ports <= _CONN_CAP) (ips_fit : zlen ips <= _PEER_CAP).

#[local] Abbreviation fits := (fits ip ports ips).
#[local] Abbreviation reading_fits := (reading_fits ip ports ips).

Lemma epoch_peers rec : mkeys (u_peers (_start_epoch rec)) = mkeys (u_peers rec) /\ total_at (_start_epoch rec) ip = total_at rec ip /\ conns_at (_start_epoch rec) ip = [].
Proof.
  unfold mkeys, total_at, conns_at. cbn. rewrite map_map. split; [done |].
  assert (Hg : mget (map (fun ie : string * edge => (fst ie, Edge (e_total (snd ie)) [] (e_first_seen (snd ie)) (e_last_seen (snd ie)))) (u_peers rec)) ip =
    (fun e => Edge (e_total e) [] (e_first_seen e) (e_last_seen e)) <$> mget (u_peers rec) ip).
  { induction (u_peers rec) as [| [i e] l IH]; [done |]. cbn. destruct (decide (i = ip)); [done | exact IH]. }
  rewrite Hg. by destruct (mget (u_peers rec) ip).
Qed.

Lemma fits_ext rec rec' : u_peers rec = u_peers rec' -> fits rec -> fits rec'.
Proof. intros E [H1 H2 H3]. unfold conns_at, total_at in *. by split; unfold conns_at, total_at; rewrite <- E. Qed.

Lemma enter_session_spec rec o : fits rec -> let rec' := enter_session (ob_session o) rec in
  fits rec' /\ total_at rec' ip = total_at rec ip /\ (forall q, baseline rec' ip q = if restarts rec o then None else baseline rec ip q) /\
  u_session_id rec' = match ob_session o with Some sid => Some sid | None => u_session_id rec end.
Proof.
  intros Hf rec'. unfold rec', enter_session, restarts. destruct (ob_session o) as [sid |]; [| done].
  destruct (u_session_id rec) as [old |]; [| split; [by apply (fits_ext rec) |]; done]. destruct (String.eqb sid old); [split; [by apply (fits_ext rec) |]; done |]. cbn [negb].
  destruct (epoch_peers rec) as (Hk & Ht & Hc). split; [| split; [exact Ht | split; [| done]]].
  - apply (fits_ext (_start_epoch rec)); [done |]. destruct Hf as [Hp _ Ht0]. split; [by rewrite Hk | | by rewrite Ht].
    rewrite Hc. split; [constructor | intros p Hp0; by apply elem_of_nil in Hp0].
  - intros q. unfold baseline. change (conns_at _ ip) with (conns_at (_start_epoch rec) ip). by rewrite Hc.
Qed.

Lemma fold_session now rs r rows r' rows' : foldl (observe_reading h now) (r, rows) rs = (r', rows') -> u_session_id r' = u_session_id r.
Proof.
  revert r rows. induction rs as [| [[i p] v] rs IH]; intros r rows Hx; [by injection Hx as -> -> |]. cbn [foldl] in Hx.
  destruct (observe_reading h now (r, rows) (i, p, v)) as [r1 rows1] eqn:E1. rewrite (IH _ _ Hx). unfold observe_reading in E1.
  destruct (match mget (u_peers r) i with Some e => Some e | None => _ end); injection E1 as <- <-; done.
Qed.

Lemma observe_one_spec rec o : fits rec -> Forall reading_fits (ob_readings o) ->
  let before q := if restarts rec o then None else baseline rec ip q in
  let rec' := observe_one h rec o in
  fits rec' /\ u_session_id rec' = match ob_session o with Some sid => Some sid | None => u_session_id rec end /\
  total_at rec' ip = Z.min (total_at rec ip + zsum (fun q => gain (before q) (values ip q (ob_readings o))) ports) _BYTES_CAP /\
  forall q, baseline rec' ip q = latest (before q) (values ip q (ob_readings o)).
Proof.
  intros Hf Hr before rec'. unfold rec', observe_one, observe_torrent. cbn zeta.
  match goal with |- context [enter_session _ ?r] => set (rec1 := r) end.
  destruct (enter_session_spec rec1 o) as (Hf2 & Ht2 & Hb2 & Hs2); [by apply (fits_ext rec) |]. set (rec2 := enter_session (ob_session o) rec1) in *.
  match goal with |- context [foldl _ (?r, _) _] => set (rec3 := r) end.
  destruct (foldl (observe_reading h (ob_now o)) (rec3, []) (ob_readings o)) as [rec4 rows4] eqn:E. cbn [fst].
  destruct (readings_fold h ip (ob_now o) ports ips ports_nodup ports_fit ips_fit (ob_readings o) rec3 [] rec4 rows4 E (fits_ext rec2 rec3 eq_refl Hf2) Hr) as (Hf4 & Ht4 & Hb4).
  assert (Hbq : forall q, baseline rec3 ip q = before q) by (intros q; exact (Hb2 q)).
  split; [by apply (fits_ext rec4) |]. split; [cbn; rewrite (fold_session _ _ _ _ _ _ E); exact Hs2 |]. split.
  - change (total_at (Torrent _ _ _ _ _ _ _) ip) with (total_at rec4 ip). rewrite Ht4. change (total_at rec3 ip) with (total_at rec2 ip). rewrite Ht2.
    change (total_at rec1 ip) with (total_at rec ip). do 2 f_equal. apply zsum_ext. intros q _. by rewrite Hbq.
  - intros q. change (baseline (Torrent _ _ _ _ _ _ _) ip q) with (baseline rec4 ip q). by rewrite Hb4, Hbq.
Qed.

Lemma readings_fit (P : observation -> Prop) obs :
  Forall (fun o => P o /\ Forall reading_fits (ob_readings o)) obs -> Forall reading_fits (readings_of obs).
Proof. unfold readings_of. induction 1 as [| o obs [_ Ho] _ IH]; [constructor | cbn; by apply Forall_app]. Qed.

(** The rest of an epoch: samples of the same session, or of an unknown one. *)
Lemma epoch_tail sid obs rec : fits rec -> u_session_id rec = Some sid ->
  Forall (fun o => (ob_session o = None \/ ob_session o = Some sid) /\ Forall reading_fits (ob_readings o)) obs ->
  let rec' := observe_all h rec obs in fits rec' /\ u_session_id rec' = Some sid /\
  total_at rec' ip = Z.min (total_at rec ip + zsum (fun q => gain (baseline rec ip q) (values ip q (readings_of obs))) ports) _BYTES_CAP.
Proof.
  intros Hf Hs Hobs. revert rec Hf Hs. induction Hobs as [| o obs [Ho Hr] Hobs IH]; intros rec Hf Hs rec'.
  - split; [done |]. split; [done |]. pose proof (fi_total _ _ _ _ Hf). pose proof (gains_none ip ports rec) as Hz.
    change (readings_of []) with (@nil reading). rewrite Hz. change (total_at rec' ip) with (total_at rec ip). lia.
  - assert (Hre : restarts rec o = false) by (unfold restarts; rewrite Hs; destruct Ho as [-> | ->]; [done | by rewrite String.eqb_refl]).
    destruct (observe_one_spec rec o Hf Hr) as (Hf1 & Hs1 & Ht1 & Hb1). rewrite Hre in Ht1, Hb1. rewrite Hs in Hs1.
    assert (Hs1' : u_session_id (observe_one h rec o) = Some sid) by (rewrite Hs1; by destruct Ho as [-> | ->]).
    destruct (IH _ Hf1 Hs1') as (Hf' & Hs' & Ht'). split; [exact Hf' |]. split; [exact Hs' |]. change (total_at rec' ip) with (total_at (observe_all h (observe_one h rec o) obs) ip).
    rewrite Ht', Ht1.
    pose proof (readings_fit _ _ Hobs) as Hall.
    pose proof (gains_nonneg ip ports ips rec _ Hr). pose proof (gains_nonneg ip ports ips (observe_one h rec o) _ Hall). pose proof (fi_total _ _ _ _ Hf).
    assert (Hsum : zsum (fun q => gain (baseline rec ip q) (values ip q (readings_of (o :: obs)))) ports =
      zsum (fun q => gain (baseline rec ip q) (values ip q (ob_readings o))) ports + zsum (fun q => gain (baseline (observe_one h rec o) ip q) (values ip q (readings_of obs))) ports).
    { rewrite <- zsum_add. apply zsum_ext. intros q _. unfold readings_of at 1. cbn [map concat]. unfold values at 1. rewrite omap_app.
      fold (values ip q (ob_readings o)). fold (values ip q (concat (map ob_readings obs))). by rewrite gain_app, Hb1. }
    rewrite Hsum. lia.
Qed.

(** One run of the seeder: its session, known at its first sample. *)
Record epoch := Epoch { ep_session : string; ep_first : observation; ep_rest : list observation }.
Definition samples_of (ep : epoch) : list observation := ep_first ep :: ep_rest ep.
Definition epoch_ok (ep : epoch) : Prop :=
  ob_session (ep_first ep) = Some (ep_session ep) /\
  Forall (fun o => (ob_session o = None \/ ob_session o = Some (ep_session ep)) /\ Forall reading_fits (ob_readings o)) (samples_of ep).

(** No reading of the session is on record yet. *)
Definition unseen (rec : torrent) (sid : string) : Prop :=
  match u_session_id rec with Some old => old <> sid | None => conns_at rec ip = [] end.

(** What was sent to the address over all connections of a run. *)
Definition sent (ep : epoch) : Z := zsum (fun port => peaks (values ip port (readings_of (samples_of ep)))) ports.

Lemma sent_nonneg ep : epoch_ok ep -> 0 <= sent ep.
Proof.
  intros [_ Hall]. pose proof (gains_nonneg ip ports ips new_torrent _ (readings_fit _ _ Hall)) as H.
  unfold sent. rewrite (zsum_ext _ (fun q => gain (baseline new_torrent ip q) (values ip q (readings_of (samples_of ep))))); [exact H |].
  intros q _. symmetry. apply gain_peaks.
Qed.

Lemma epoch_spec rec ep : fits rec -> epoch_ok ep -> unseen rec (ep_session ep) ->
  let rec' := observe_all h rec (samples_of ep) in
  fits rec' /\ u_session_id rec' = Some (ep_session ep) /\ total_at rec' ip = Z.min (total_at rec ip + sent ep) _BYTES_CAP /\ 0 <= sent ep.
Proof.
  intros Hf [Hsid Hall] Hfresh rec'. unfold samples_of in Hall. apply Forall_cons in Hall as [[_ Hr] Hrest].
  destruct (observe_one_spec rec (ep_first ep) Hf Hr) as (Hf1 & Hs1 & Ht1 & Hb1). rewrite Hsid in Hs1.
  assert (Hnone : forall q, (if restarts rec (ep_first ep) then None else baseline rec ip q) = None).
  { intros q. unfold restarts, unseen, baseline in *. rewrite Hsid. destruct (u_session_id rec) as [old |]; [| by rewrite Hfresh].
    by destruct (String.eqb_spec (ep_session ep) old). }
  destruct (epoch_tail (ep_session ep) (ep_rest ep) _ Hf1 Hs1 Hrest) as (Hf2 & Hs2 & Ht2). split; [exact Hf2 |]. split; [exact Hs2 |].
  assert (Hsum : sent ep = zsum (fun q => gain None (values ip q (ob_readings (ep_first ep)))) ports +
    zsum (fun q => gain (baseline (observe_one h rec (ep_first ep)) ip q) (values ip q (readings_of (ep_rest ep)))) ports).
  { rewrite <- zsum_add. apply zsum_ext. intros q _. rewrite <- gain_peaks. unfold readings_of, samples_of. cbn [map concat]. unfold values at 1. rewrite omap_app.
    fold (values ip q (ob_readings (ep_first ep))). fold (values ip q (concat (map ob_readings (ep_rest ep)))). by rewrite gain_app, Hb1, Hnone. }
  assert (H1 : zsum (fun q => gain (if restarts rec (ep_first ep) then None else baseline rec ip q) (values ip q (ob_readings (ep_first ep)))) ports =
    zsum (fun q => gain None (values ip q (ob_readings (ep_first ep)))) ports) by (apply zsum_ext; intros q _; by rewrite Hnone).
  pose proof (readings_fit _ _ Hrest) as Hrs.
  pose proof (gains_nonneg ip ports ips (observe_one h rec (ep_first ep)) _ Hrs). pose proof (gains_nonneg ip ports ips new_torrent _ Hr) as H0.
  change (0 <= zsum (fun q => gain None (values ip q (ob_readings (ep_first ep)))) ports) in H0. rewrite H1 in Ht1.
  split; [| lia]. unfold rec', samples_of. change (observe_all h rec (ep_first ep :: ep_rest ep)) with (observe_all h (observe_one h rec (ep_first ep)) (ep_rest ep)).
  rewrite Ht2, Ht1. lia.
Qed.

(** Successive runs have different sessions. *)
Fixpoint chained (sid : string) (eps : list epoch) : Prop :=
  match eps with [] => True | ep :: eps => ep_session ep <> sid /\ chained (ep_session ep) eps end.

Definition observe_epochs (rec : torrent) (eps : list epoch) : torrent := foldl (fun rec ep => observe_all h rec (samples_of ep)) rec eps.

Lemma epochs_spec rec sid eps : fits rec -> u_session_id rec = Some sid -> chained sid eps -> Forall epoch_ok eps ->
  total_at (observe_epochs rec eps) ip = Z.min (total_at rec ip + zsum sent eps) _BYTES_CAP.
Proof.
  intros Hf Hs Hc Heps. revert rec sid Hf Hs Hc. induction Heps as [| ep eps Hep Heps IH]; intros rec sid Hf Hs Hc.
  - pose proof (fi_total _ _ _ _ Hf). cbn. lia.
  - destruct Hc as [Hne Hc]. destruct (epoch_spec rec ep Hf Hep) as (Hf1 & Hs1 & Ht1 & Hnn); [unfold unseen; by rewrite Hs |].
    change (observe_epochs rec (ep :: eps)) with (observe_epochs (observe_all h rec (samples_of ep)) eps). rewrite (IH _ _ Hf1 Hs1 Hc), Ht1.
    cbn. fold (zsum sent eps). assert (0 <= zsum sent eps); [| lia]. apply zsum_nonneg. intros x Hx.
    rewrite Forall_forall in Heps. apply sent_nonneg. by apply Heps.
Qed.
End history.

(** ** Totals *)

Definition in_range (rec : torrent) : Prop := forall ip, 0 <= total_at rec ip <= _BYTES_CAP.

Lemma reading_monotone h now rec rows ip port v ip' :
  in_range rec -> 0 <= v -> let rec' := fst (observe_reading h now (rec, rows) (ip, port, v)) in
  total_at rec ip' <= total_at rec' ip' <= _BYTES_CAP.
Proof.
  intros Hr Hv rec'. unfold rec', observe_reading. pose proof (Hr ip') as Hip.
  set (known := match mget (u_peers rec) ip with Some e => Some e | None => if _PEER_CAP <=? zlen (u_peers rec) then None else Some (Edge 0 [] now now) end).
  destruct known as [e |] eqn:E; [| cbn; unfold total_at in *; cbn; lia]. cbn [fst]. unfold total_at at 2 3. cbn [u_peers with_peers]. rewrite mget_mset.
  destruct (decide (ip = ip')) as [<- |]; [| unfold total_at in *; lia]. cbn.
  assert (He : e_total e = total_at rec ip).
  { unfold known in E. unfold total_at. destruct (mget (u_peers rec) ip); [by injection E as -> |]. destruct (_ <=? _); [done |]. by injection E as <-. }
  rewrite He. set (amount := delta _ v). assert (0 <= amount) by (by apply delta_nonneg). unfold banked. destruct (amount =? 0); lia.
Qed.

Lemma readings_monotone h now rs rec rows ip :
  in_range rec -> Forall (fun r : reading => 0 <= snd r) rs ->
  let rec' := fst (foldl (observe_reading h now) (rec, rows) rs) in in_range rec' /\ total_at rec ip <= total_at rec' ip.
Proof.
  intros Hr Hrs. revert rec rows Hr. induction Hrs as [| [[i p] v] rs Hv _ IH]; intros rec rows Hr; [cbn; split; [done | lia] |]. cbn [foldl].
  pose proof (fun j => reading_monotone h now rec rows i p v j Hr Hv) as Hm. destruct (observe_reading h now (rec, rows) (i, p, v)) as [rec1 rows1]. cbn [fst] in Hm.
  assert (Hr1 : in_range rec1) by (intros j; specialize (Hm j); specialize (Hr j); lia).
  destruct (IH rec1 rows1 Hr1) as [? ?]. split; [done |]. specialize (Hm ip). lia.
Qed.

Lemma torrent_monotone h readings sid now up rec ip :
  in_range rec -> Forall (fun r : reading => 0 <= snd r) readings ->
  let rec' := fst (observe_torrent h readings sid now up rec) in in_range rec' /\ total_at rec ip <= total_at rec' ip.
Proof.
  intros Hr Hrs. unfold observe_torrent. cbn zeta. match goal with |- context [enter_session _ ?r] => set (rec1 := r) end.
  assert (H2 : forall j, total_at (enter_session sid rec1) j = total_at rec j).
  { intros j. unfold enter_session. destruct sid as [sid |]; [| done]. cbn [u_session_id rec1]. destruct (u_session_id rec) as [old |]; [| done].
    destruct (String.eqb sid old); [done |]. exact (proj1 (proj2 (epoch_peers j rec1))). }
  set (rec2 := enter_session sid rec1) in *. match goal with |- context [foldl _ (?r, _) _] => set (rec3 := r) end.
  pose proof (readings_monotone h now readings rec3 [] ip) as Hm. destruct (foldl (observe_reading h now) (rec3, []) readings) as [rec4 rows4]. cbn [fst] in *.
  destruct Hm as [H4 H5]; [intros j; change (total_at rec3 j) with (total_at rec2 j); rewrite H2; apply Hr | done |].
  split; [exact H4 |]. change (total_at rec3 ip) with (total_at rec2 ip) in H5. rewrite H2 in H5. exact H5.
Qed.

(** ** The file *)

Definition record_at (f : option data) (h : string) : torrent := mget_or (torrents (_read f)) h new_torrent.
Definition ledger_ok (f : option data) : Prop := forall h, in_range (record_at f h).

Lemma new_in_range : in_range new_torrent.
Proof. intros ip. unfold total_at, _BYTES_CAP. cbn. lia. Qed.

Lemma drop_names_Some {A} names (d : odict string A) k v : mget (drop_names names d) k = Some v -> mget d k = Some v.
Proof.
  unfold drop_names. revert d. induction names as [| x names IH]; intros d H; [done |]. apply IH in H. rewrite mget_mpop in H. by destruct (decide (x = k)).
Qed.

Lemma write_Some d h rec : mget (torrents (_read (_write d))) h = Some rec -> mget (torrents d) h = Some rec.
Proof. unfold _write. destruct (0 <? _); [| done]. cbn. apply drop_names_Some. Qed.

Lemma write_ok d : (forall h rec, mget (torrents d) h = Some rec -> in_range rec) -> ledger_ok (_write d).
Proof.
  intros H h. unfold record_at, mget_or. destruct (mget (torrents (_read (_write d))) h) as [rec |] eqn:E; cbn; [| apply new_in_range].
  apply write_Some in E. by eapply H.
Qed.

Lemma bytes_nonneg v z : _bytes v = Ok (Some z) -> 0 <= z.
Proof.
  unfold _bytes. destruct (match v with VStr s => _ | _ => _ end) as [[x |] | e]; try discriminate. cbn [mbind res_bind].
  destruct (Z.ltb_spec x 0); [discriminate |]. intros [= <-]. unfold _BYTES_CAP. lia.
Qed.

Lemma clean_nonneg samples rs : _clean samples = Ok rs -> Forall (fun r : reading => 0 <= snd r) rs.
Proof.
  unfold _clean. intros H. destruct (res_map _ samples) as [out |] eqn:E; [| discriminate H]. cbn [mbind res_bind] in H. injection H as <-.
  rewrite sort_by_perm. apply res_map_ok in E. apply Forall_forall. intros r Hr. apply list_elem_of_omap in Hr as (o & Ho & Heq). unfold id in Heq. subst o.
  apply list_elem_of_lookup_1 in Ho as [i Hi]. destruct (Forall2_lookup_r _ _ _ _ _ E Hi) as ([[ip port] v] & _ & Hx).
  destruct (String.eqb ip "" || _); [discriminate Hx |]. destruct (_bytes v) as [[z |] |] eqn:Ez; try discriminate Hx. cbn in Hx. injection Hx as <-. by eapply bytes_nonneg.
Qed.

(** ** Properties *)

(** C25: over a succession of runs of the seeder, the durable total of an address grows
    by exactly what was sent to it as far as the samples show: for every run and every
    connection, the sum of the peaks of the connection's counter (the value before each
    restart, and the last), up to the ceiling of the counter.  That is for a torrent that
    stays on file (none is evicted for the 256 torrents the ledger keeps), an address seen
    on at most sixteen ports over the whole history, at most 512 addresses of the torrent,
    and runs whose session id is known at the first sample of the run, with that id or
    none at its later ones, and differs from that of the run before; a run whose first
    sample lacks the id is not told from the one before, and its total can be wrong. *)
Theorem edge_total_exact h ip ports ips rec ep eps :
  NoDup ports -> zlen ports <= _CONN_CAP -> zlen ips <= _PEER_CAP -> fits ip ports ips rec ->
  unseen ip rec (ep_session ep) -> chained (ep_session ep) eps -> Forall (epoch_ok ip ports ips) (ep :: eps) ->
  total_at (observe_epochs h rec (ep :: eps)) ip = Z.min (total_at rec ip + zsum (sent ip ports) (ep :: eps)) _BYTES_CAP.
Proof.
  intros Hn Hp Hi Hf Hu Hc Hall. apply Forall_cons in Hall as [Hep Heps].
  destruct (epoch_spec h ip ports ips Hn Hp Hi rec ep Hf Hep Hu) as (Hf1 & Hs1 & Ht1 & Hnn).
  change (observe_epochs h rec (ep :: eps)) with (observe_epochs h (observe_all h rec (samples_of ep)) eps).
  rewrite (epochs_spec h ip ports ips Hn Hp Hi _ _ eps Hf1 Hs1 Hc Heps), Ht1. cbn. fold (zsum (sent ip ports) eps).
  assert (0 <= zsum (sent ip ports) eps); [| lia]. apply zsum_nonneg. intros x Hx. rewrite Forall_forall in Heps. apply (sent_nonneg ip ports ips). by apply Heps.
Qed.

(** A published total never goes down: an observation, whatever it reports and
    whichever torrents or connections it makes the ledger forget, leaves the total of
    every address of every torrent still on file at least as high as before, and pruning
    leaves the torrents it keeps as they are. *)
Theorem totals_never_drop h image_id samples sid now upload before f rows f' :
  ledger_ok f -> observe h image_id samples sid now upload f = (Ok rows, f') ->
  ledger_ok f' /\
  (forall h' rec, mget (torrents (_read f')) h' = Some rec -> forall ip, total_at (record_at f h') ip <= total_at rec ip) /\
  (forall h' rec, mget (torrents (_read (snd (prune before f)))) h' = Some rec -> record_at f h' = rec).
Proof.
  intros Hok H. unfold observe in H. destruct (_bytes upload) as [up |]; [| discriminate H]. cbn [mbind res_bind] in H.
  destruct (_clean samples) as [readings |] eqn:Ec; [| discriminate H]. cbn [mbind res_bind] in H.
  destruct (observe_torrent h readings sid now up (_torrent (_read f) h image_id)) as [rec' rows'] eqn:Eo. injection H as <- <-.
  assert (Htot : forall ip, total_at (_torrent (_read f) h image_id) ip = total_at (record_at f h) ip) by (intros ip; unfold _torrent; by destruct (String.eqb image_id "")).
  pose proof (fun ip => torrent_monotone h readings sid now up (_torrent (_read f) h image_id) ip) as Hm. rewrite Eo in Hm. cbn [fst] in Hm.
  assert (Hr : in_range (_torrent (_read f) h image_id)) by (intros ip; rewrite Htot; apply Hok). pose proof (clean_nonneg _ _ Ec) as Hnn.
  split; [| split].
  - apply write_ok. intros h' rec. cbn [torrents]. rewrite mget_mset. destruct (decide (h = h')) as [<- |].
    + intros [= <-]. by apply (Hm "").
    + intros E. pose proof (Hok h') as Hh. unfold record_at, mget_or in Hh. by rewrite E in Hh.
  - intros h' rec E ip. apply write_Some in E. cbn [torrents] in E. rewrite mget_mset in E. destruct (decide (h = h')) as [<- |].
    + injection E as <-. rewrite <- Htot. by apply Hm.
    + unfold record_at, mget_or. rewrite E. cbn. lia.
  - intros h' rec E. unfold record_at, mget_or. unfold prune in E. cbn [snd] in E. destruct (map fst _) as [| x l] in E; [by rewrite E |].
    apply write_Some in E. cbn [torrents] in E. apply drop_names_Some in E. by rewrite E.
Qed.

(** ** Witnesses *)

(** A run with two connections of one address, one of which restarts, and a second run. *)
Definition sample_epochs : list epoch :=
  [Epoch "s1" (Obs [("10.0.0.1", "6881", 10); ("10.0.0.1", "6882", 5)] (Some "s1") 1 (Some 15))
     [Obs [("10.0.0.1", "6881", 30)] None 2 None; Obs [("10.0.0.1", "6881", 7)] (Some "s1") 3 (Some 50)];
   Epoch "s2" (Obs [("10.0.0.1", "6881", 4)] (Some "s2") 4 (Some 4)) []].

Lemma sample_fits : fits "10.0.0.1" ["6881"; "6882"] ["10.0.0.1"] new_torrent.
Proof.
  split; [split; [constructor | intros i Hi; by apply elem_of_nil in Hi] | split; [constructor | intros i Hi; by apply elem_of_nil in Hi] | apply new_in_range].
Qed.

Lemma sample_epochs_ok : Forall (epoch_ok "10.0.0.1" ["6881"; "6882"] ["10.0.0.1"]) sample_epochs.
Proof.
  assert (H1 : forall v, 0 <= v -> reading_fits "10.0.0.1" ["6881"; "6882"] ["10.0.0.1"] ("10.0.0.1", "6881", v)) by
    (intros v Hv; split; [by left | split; [intros _; by left | exact Hv]]).
  assert (H2 : forall v, 0 <= v -> reading_fits "10.0.0.1" ["6881"; "6882"] ["10.0.0.1"] ("10.0.0.1", "6882", v)) by
    (intros v Hv; split; [by left | split; [intros _; right; by left | exact Hv]]).
  repeat (apply Forall_cons; split); try apply Forall_nil_2.
  - split; [reflexivity |]. apply Forall_cons; split; [| apply Forall_cons; split; [| apply Forall_cons; split; [| apply Forall_nil_2]]].
    + split; [by right |]. apply Forall_cons; split; [apply H1; lia |]. apply Forall_cons; split; [apply H2; lia | apply Forall_nil_2].
    + split; [by left |]. apply Forall_cons; split; [apply H1; lia | apply Forall_nil_2].
    + split; [by right |]. apply Forall_cons; split; [apply H1; lia | apply Forall_nil_2].
  - split; [reflexivity |]. apply Forall_cons; split; [| apply Forall_nil_2]. split; [by right |]. apply Forall_cons; split; [apply H1; lia | apply Forall_nil_2].
Qed.

Lemma edge_total_exact_witness :
  total_at (observe_epochs "h" new_torrent sample_epochs) "10.0.0.1" = 46 /\
  total_at (observe_epochs "h" new_torrent sample_epochs) "10.0.0.1" =
    Z.min (total_at new_torrent "10.0.0.1" + zsum (sent "10.0.0.1" ["6881"; "6882"]) sample_epochs) _BYTES_CAP.
Proof.
  split; [vm_compute; reflexivity |]. unfold sample_epochs.
  apply (edge_total_exact "h" "10.0.0.1" ["6881"; "6882"] ["10.0.0.1"] new_torrent).
  - by_eval.
  - vm_compute. discriminate.
  - vm_compute. discriminate.
  - apply sample_fits.
  - reflexivity.
  - split; [discriminate | exact I].
  - apply sample_epochs_ok.
Defined.

(** A first observation of an empty ledger; the text reading counts as its number. *)
Lemma totals_never_drop_witness :
  exists rows f', observe "h" "" [("10.0.0.1", "6881", VStr "12")] (Some "s1") 1 VNone None = (Ok rows, f') /\
  (forall h' rec, mget (torrents (_read f')) h' = Some rec -> forall ip, total_at (record_at None h') ip <= total_at rec ip).
Proof.
  eexists _, _. split; [vm_compute; reflexivity |].
  refine (proj1 (proj2 (totals_never_drop "h" "" [("10.0.0.1", "6881", VStr "12")] (Some "s1") 1 VNone 0 None _ _ _ _))).
  - intros h. apply new_in_range.
  - vm_compute. reflexivity.
Defined.

(** ** Where the bound matters *)

Definition seventeen : list reading := map (fun i => ("10.0.0.1", String.string_of_list_ascii [Ascii.ascii_of_nat (65 + i)], 100)) (seq 0 17).

(** Seventeen live connections of one address: the ledger forgets one of them at every
    sample, and the next sample counts the whole counter of the forgotten one again
    although nothing more was sent. *)
Example live_connection_counted_twice :
  let first := fst (observe_torrent "h" seventeen (Some "s1") 1 None new_torrent) in
  let second := fst (observe_torrent "h" seventeen (Some "s1") 2 None first) in
  total_at first "10.0.0.1" = 1700 /\ 1700 < total_at second "10.0.0.1".
Proof. vm_compute. split; reflexivity. Qed.
