(* ===== verification/UrlText.v ===== *)
(** * Query strings, hexadecimal text and UTF-8

    What the server uses of [binascii], [bytes.fromhex] and [urllib.parse]: [hexlify] and
    its inverse, [unquote_to_bytes], [unquote] and [parse_qsl]. *)
From S2P Require Import Prelude Bencode PyVal Ipv4 PolicyDoc Sha256.

(** ** Hexadecimal text *)

Definition hex_val (c : ascii) : option Z :=
  if is_digit c then Some (digit_val c)
  else if in_range_c 97 102 c then Some (byte_val c - 87)
  else if in_range_c 65 70 c then Some (byte_val c - 55)
  else None.

Definition byte_of (z : Z) : ascii := ascii_of_nat (Z.to_nat z).

Definition hexlify (b : bytes) : bytes := flat_map (fun c => [hex_digit (byte_val c / 16); hex_digit (byte_val c)]) b.

(** Pairs of hex digits of either case; [None] is [ValueError]. *)
Fixpoint unhexlify (b : bytes) : option bytes :=
  match b with
  | [] => Some []
  | x :: y :: b => h ← hex_val x; l ← hex_val y; rest ← unhexlify b; Some (byte_of (16 * h + l) :: rest)
  | _ => None
  end.

(** ** Percent decoding *)

(** A percent sign without two hex digits stays. *)
Fixpoint unquote_to_bytes (b : bytes) : bytes :=
  match b with
  | [] => []
  | c :: rest =>
      if byte_eqb c "%" then
        match rest with
        | x :: y :: rest' =>
            match hex_val x, hex_val y with
            | Some h, Some l => byte_of (16 * h + l) :: unquote_to_bytes rest'
            | _, _ => c :: unquote_to_bytes rest
            end
        | _ => c :: unquote_to_bytes rest
        end
      else c :: unquote_to_bytes rest
  end.

(** ** UTF-8 with replacement *)

(** U+FFFD *)
Definition replacement : bytes := map byte_of [239; 191; 189].

Definition in_bytes (lo hi : Z) (c : ascii) : bool := (lo <=? byte_val c) && (byte_val c <=? hi).

(** For a start byte: the range of the second byte and the number of bytes after it. *)
Definition lead (c : ascii) : option (Z * Z * nat) :=
  let z := byte_val c in
  if in_bytes 194 223 c then Some (128, 191, 0%nat)
  else if z =? 224 then Some (160, 191, 1%nat)
  else if z =? 237 then Some (128, 159, 1%nat)
  else if in_bytes 225 239 c then Some (128, 191, 1%nat)
  else if z =? 240 then Some (144, 191, 2%nat)
  else if in_bytes 241 243 c then Some (128, 191, 2%nat)
  else if z =? 244 then Some (128, 143, 2%nat)
  else None.

(** The continuation bytes at the front, at most [n]. *)
Fixpoint continuation (n : nat) (b : bytes) : nat :=
  match n, b with
  | S n, c :: b => if in_bytes 128 191 c then S (continuation n b) else 0%nat
  | _, _ => 0%nat
  end.

(** [b.decode("utf-8", "replace")]: every maximal piece that starts a character and does
    not end it becomes one U+FFFD. *)
Fixpoint utf8_replace_fuel (fuel : nat) (b : bytes) : bytes :=
  match fuel, b with
  | S fuel, c :: rest =>
      if byte_val c <? 128 then c :: utf8_replace_fuel fuel rest
      else
        match lead c, rest with
        | Some (lo, hi, more), second :: tail =>
            if negb (in_bytes lo hi second) then replacement ++ utf8_replace_fuel fuel rest
            else
              let n := continuation more tail in
              (if (n =? more)%nat then c :: second :: take more tail else replacement) ++ utf8_replace_fuel fuel (drop n tail)
        | _, _ => replacement ++ utf8_replace_fuel fuel rest
        end
  | _, _ => []
  end.
Definition utf8_replace (b : bytes) : bytes := utf8_replace_fuel (length b) b.

(** [unquote]: runs of ASCII characters are decoded, the rest stays. *)
Fixpoint ascii_run (b : bytes) : bytes * bytes :=
  match b with
  | c :: rest => if byte_val c <? 128 then let '(run, rest) := ascii_run rest in (c :: run, rest) else ([], b)
  | [] => ([], [])
  end.

Fixpoint unquote_fuel (fuel : nat) (b : bytes) : bytes :=
  match fuel, b with
  | S fuel, c :: rest =>
      if byte_val c <? 128 then let '(run, rest) := ascii_run b in utf8_replace (unquote_to_bytes run) ++ unquote_fuel fuel rest
      else c :: unquote_fuel fuel rest
  | _, _ => []
  end.
Definition unquote (b : bytes) : bytes := unquote_fuel (length b) b.

(** ** Query strings *)

(** The longest run at the front, and the rest. *)
Fixpoint span (f : ascii -> bool) (b : bytes) : bytes * bytes :=
  match b with
  | c :: rest => if f c then let '(run, rest) := span f rest in (c :: run, rest) else ([], b)
  | [] => ([], [])
  end.

(** [s.split("=", 1)]; [None] when there is no [=]. *)
Fixpoint partition (c : ascii) (b : bytes) : option (bytes * bytes) :=
  match b with
  | [] => None
  | x :: b => if byte_eqb x c then Some ([], b) else kv ← partition c b; Some (x :: fst kv, snd kv)
  end.

Definition plus_to_space (b : bytes) : bytes := map (fun c => if byte_eqb c "+" then " "%char else c) b.

Definition field_text (b : bytes) : string := string_of (unquote (plus_to_space b)).

(** [parse_qsl(query, keep_blank_values=keep)] *)
Definition parse_qsl (keep : bool) (query : string) : list (string * string) :=
  omap (fun nv =>
    match nv with
    | [] => None
    | _ =>
        match partition "=" nv with
        | None => if keep then Some (field_text nv, "") else None
        | Some (n, v) => match v with [] => if keep then Some (field_text n, "") else None | _ => Some (field_text n, field_text v) end
        end
    end) (split_on "&" (bytes_of query)).

(** ** Examples *)

Example unquote_mixed : unquote (bytes_of "a%41%2fb%zz%4") = bytes_of "aA/b%zz%4".
Proof. reflexivity. Qed.

Example unquote_invalid : unquote (bytes_of "%c3%28") = replacement ++ bytes_of "(".
Proof. reflexivity. Qed.

Example unquote_truncated : unquote (bytes_of "%e2%82") = replacement.
Proof. reflexivity. Qed.

Example parse_blank : parse_qsl true "announce_token=&key=a+b&&x" = [("announce_token", ""); ("key", "a b"); ("x", "")].
Proof. reflexivity. Qed.

(** ** Lemmas *)

Lemma byte_range c : 0 <= byte_val c < 256.
Proof. unfold byte_val. pose proof (nat_ascii_bounded c). lia. Qed.

Lemma byte_of_val c : byte_of (byte_val c) = c.
Proof. unfold byte_of, byte_val. by rewrite Nat2Z.id, ascii_nat_embedding. Qed.

Lemma byte_val_of z : 0 <= z < 256 -> byte_val (byte_of z) = z.
Proof. intros H. unfold byte_of, byte_val. rewrite nat_ascii_embedding by lia. lia. Qed.

Lemma hex_digit_val z : hex_val (hex_digit z) = Some (z mod 16).
Proof.
  unfold hex_digit. pose proof (Z.mod_pos_bound z 16 ltac:(lia)) as Hb. revert Hb. generalize (z mod 16). intros d Hd.
  assert (H : In d (map Z.of_nat (seq 0 16))). { apply in_map_iff. exists (Z.to_nat d). split; [lia |]. apply in_seq. lia. }
  cbn in H. repeat (destruct H as [<- | H]; [reflexivity |]). destruct H.
Qed.

Lemma hex_pair c : 16 * (byte_val c / 16 mod 16) + byte_val c mod 16 = byte_val c.
Proof.
  pose proof (byte_range c). rewrite (Z.mod_small (byte_val c / 16)); [| split; [apply Z.div_pos; lia | apply Z.div_lt_upper_bound; lia]].
  symmetry. apply Z.div_mod. lia.
Qed.

Lemma unhexlify_hexlify b : unhexlify (hexlify b) = Some b.
Proof.
  induction b as [| c b IH]; [done |]. change (hexlify (c :: b)) with (hex_digit (byte_val c / 16) :: hex_digit (byte_val c) :: hexlify b).
  cbn [unhexlify]. rewrite !hex_digit_val. cbn [mbind option_bind]. rewrite IH. cbn [mbind option_bind]. by rewrite hex_pair, byte_of_val.
Qed.

Lemma length_hexlify b : length (hexlify b) = (2 * length b)%nat.
Proof. induction b as [| c b IH]; [done |]. cbn. unfold hexlify in IH. rewrite IH. lia. Qed.

(** The client's side of percent encoding: every byte as [%xx]. *)
Definition quote_all (b : bytes) : bytes := flat_map (fun c => ["%"%char; hex_digit (byte_val c / 16); hex_digit (byte_val c)]) b.

Lemma unquote_quote_all b : unquote_to_bytes (quote_all b) = b.
Proof.
  induction b as [| c b IH]; [done |].
  change (quote_all (c :: b)) with ("%"%char :: hex_digit (byte_val c / 16) :: hex_digit (byte_val c) :: quote_all b).
  cbn [unquote_to_bytes]. change (byte_eqb "%" "%") with true. cbv iota. rewrite !hex_digit_val, IH. by rewrite hex_pair, byte_of_val.
Qed.

(** ** [urllib.parse.urlsplit], [urlparse] and [urlunsplit]

    The check that [urlsplit] makes of an authority with brackets or characters outside
    ASCII is a parameter. *)

Record SplitResult := Split { u_scheme : bytes; u_netloc : bytes; u_path : bytes; u_query : bytes; u_fragment : bytes }.

Definition is_alpha (c : ascii) : bool := is_lower c || in_range_c 65 90 c.
Definition scheme_char (c : ascii) : bool := is_alpha c || is_digit c || byte_eqb c "+" || byte_eqb c "-" || byte_eqb c ".".
Definition lower (c : ascii) : ascii := if in_range_c 65 90 c then byte_of (byte_val c + 32) else c.

(** Tab, newline and carriage return are removed anywhere, control characters and
    spaces at the front. *)
Definition unsafe_char (c : ascii) : bool := byte_eqb c (byte_of 9) || byte_eqb c (byte_of 10) || byte_eqb c (byte_of 13).
Definition lstripped (b : bytes) : bytes := snd (span (fun c => byte_val c <=? 32) b).
Definition cleaned (b : bytes) : bytes := filter (fun c => unsafe_char c = false) (lstripped b).

Definition delimiter (c : ascii) : bool := byte_eqb c "/" || byte_eqb c "?" || byte_eqb c "#".

(** The scheme, if there is one, and what follows. *)
Definition split_scheme (b : bytes) : bytes * bytes :=
  match partition ":" b with
  | Some ((c :: _) as s, rest) => if is_alpha c && forallb scheme_char s then (map lower s, rest) else ([], b)
  | _ => ([], b)
  end.

(** [b[:2] == "//"] *)
Definition slashes (b : bytes) : bool := bool_decide (take 2 b = bytes_of "//").

Definition split_netloc (b : bytes) : bytes * bytes :=
  if slashes b then span (fun c => negb (delimiter c)) (drop 2 b) else ([], b).

(** [b.split(c, 1)] when [c] is there. *)
Definition split_at (c : ascii) (b : bytes) : bytes * bytes := default (b, []) (partition c b).

Definition USES_NETLOC : list string :=
  [""; "ftp"; "http"; "gopher"; "nntp"; "telnet"; "imap"; "wais"; "file"; "mms"; "https"; "shttp"; "snews"; "prospero"; "rtsp"; "rtsps"; "rtspu"; "rsync";
   "svn"; "svn+ssh"; "sftp"; "nfs"; "git"; "git+ssh"; "ws"; "wss"; "itms-services"].

Definition urlunsplit (u : SplitResult) : bytes :=
  let path := u_path u in
  let rest :=
    match u_netloc u with
    | (_ :: _) as netloc => bytes_of "//" ++ netloc ++ match path with [] => [] | c :: _ => if byte_eqb c "/" then path else "/"%char :: path end
    | [] =>
        if slashes path then bytes_of "//" ++ path
        else if negb (bool_decide (u_scheme u = [])) && existsb (String.eqb (string_of (u_scheme u))) USES_NETLOC &&
                match path with [] => true | c :: _ => byte_eqb c "/" end then bytes_of "//" ++ path
        else path
    end in
  match u_scheme u with [] => [] | s => s ++ bytes_of ":" end ++ rest ++
  match u_query u with [] => [] | q => "?"%char :: q end ++ match u_fragment u with [] => [] | f => "#"%char :: f end.

Section urlsplit.
Context (netloc_ok : bytes -> bool).

Definition urlsplit (url : bytes) : res SplitResult :=
  let '(scheme, b) := split_scheme (cleaned url) in
  let '(netloc, b) := split_netloc b in
  if negb (bool_decide (netloc = [])) && negb (netloc_ok netloc) then Err (ValueError "Invalid IPv6 URL")
  else
    let '(b, fragment) := split_at "#" b in
    let '(path, query) := split_at "?" b in
    Ok (Split scheme netloc path query fragment).

(** The part before the first [;] of the last segment. *)
Fixpoint without_params (b : bytes) : bytes :=
  match b with
  | [] => []
  | c :: rest => if byte_eqb c ";" && negb (existsb (byte_eqb "/") rest) then [] else c :: without_params rest
  end.

Definition USES_PARAMS : list string :=
  [""; "ftp"; "hdl"; "prospero"; "http"; "imap"; "https"; "shttp"; "rtsp"; "rtsps"; "rtspu"; "sip"; "sips"; "mms"; "sftp"; "tel"].

(** [urlparse], less the parameters. *)
Definition urlparse (url : bytes) : res SplitResult :=
  let* u := urlsplit url in
  if existsb (String.eqb (string_of (u_scheme u))) USES_PARAMS then Ok (Split (u_scheme u) (u_netloc u) (without_params (u_path u)) (u_query u) (u_fragment u))
  else Ok u.
End urlsplit.

Example urlparse_params : urlparse (fun _ => true) (bytes_of "/a;b/c;d;e?f") = Ok (Split [] [] (bytes_of "/a;b/c") (bytes_of "f") []).
Proof. reflexivity. Qed.

Example urlsplit_origin : urlsplit (fun _ => true) (bytes_of "/api/v1/x?a=b?c#d?e") = Ok (Split [] [] (bytes_of "/api/v1/x") (bytes_of "a=b?c") (bytes_of "d?e")).
Proof. reflexivity. Qed.

Example urlsplit_absolute : urlsplit (fun _ => true) (bytes_of " HTTP://host:80?q") = Ok (Split (bytes_of "http") (bytes_of "host:80") [] (bytes_of "q") []).
Proof. reflexivity. Qed.

Example urlunsplit_absolute : urlunsplit (Split (bytes_of "http") [] (bytes_of "/a") (bytes_of "q") []) = bytes_of "http:///a?q".
Proof. reflexivity. Qed.

(** ** Lemmas *)

Definition without (P : ascii -> bool) (b : bytes) : Prop := Forall (fun c => P c = false) b.

Lemma span_all f b rest : Forall (fun c => f c = true) b -> match rest with [] => True | c :: _ => f c = false end -> span f (b ++ rest) = (b, rest).
Proof.
  intros H Hr. induction H as [| c b Hc _ IH]; cbn; [| by rewrite Hc, IH].
  destruct rest as [| c rest]; [done |]. cbn. by rewrite Hr.
Qed.

Lemma span_spec f b : let '(run, rest) := span f b in b = run ++ rest /\ Forall (fun c => f c = true) run.
Proof.
  induction b as [| c b IH]; cbn; [done |]. destruct (f c) eqn:E; [| done]. destruct (span f b) as [run rest]. destruct IH as [-> IH]. split; [done |]. by constructor.
Qed.

Lemma partition_none c b : without (byte_eqb c) b -> partition c b = None.
Proof. induction 1 as [| x b Hx _ IH]; [done |]. cbn. assert (byte_eqb x c = false) as -> by (unfold byte_eqb in *; rewrite bool_decide_eq_false in *; congruence). by rewrite IH. Qed.

Lemma partition_spec c b x y : partition c b = Some (x, y) -> b = x ++ c :: y /\ without (byte_eqb c) x.
Proof.
  revert x y. induction b as [| d b IH]; intros x y; [discriminate |]. cbn. destruct (byte_eqb d c) eqn:E.
  - intros [= <- <-]. apply bool_decide_eq_true in E as ->. split; [done | constructor].
  - destruct (partition c b) as [[k v] |]; [| discriminate]. cbn. intros [= <- <-]. destruct (IH k v eq_refl) as [-> H]. split; [done |]. constructor; [| done].
    unfold byte_eqb in *. rewrite bool_decide_eq_false in *. congruence.
Qed.

Lemma partition_app c x y : without (byte_eqb c) x -> partition c (x ++ c :: y) = Some (x, y).
Proof.
  induction 1 as [| d x Hd _ IH]; cbn; [unfold byte_eqb; by rewrite bool_decide_true |].
  assert (byte_eqb d c = false) as -> by (unfold byte_eqb in *; rewrite bool_decide_eq_false in *; congruence). by rewrite IH.
Qed.

Lemma partition_absent c b : partition c b = None -> without (byte_eqb c) b.
Proof.
  induction b as [| d b IH]; [constructor |]. cbn. destruct (byte_eqb d c) eqn:E; [discriminate |]. destruct (partition c b); [discriminate |].
  intros _. constructor; [| by apply IH]. unfold byte_eqb in *. rewrite bool_decide_eq_false in *. congruence.
Qed.

(** What [urlsplit] gives, but for the path. *)
Record parts_ok (netloc_ok : bytes -> bool) (u : SplitResult) : Prop := PartsOk {
  ok_scheme : u_scheme u = [] \/ exists c s, u_scheme u = c :: s /\ is_alpha c = true /\ Forall (fun c => scheme_char c = true) (u_scheme u) /\ map lower (u_scheme u) = u_scheme u;
  ok_netloc : without delimiter (u_netloc u) /\ (u_netloc u = [] \/ netloc_ok (u_netloc u) = true);
  ok_query : without (byte_eqb "#") (u_query u);
  ok_safe : without unsafe_char (u_scheme u) /\ without unsafe_char (u_netloc u) /\ without unsafe_char (u_query u) /\ without unsafe_char (u_fragment u) }.

Definition path_ok (p : bytes) : Prop :=
  without (byte_eqb "?") p /\ without (byte_eqb "#") p /\ without unsafe_char p.

(** A path with one slash at its front. *)
Definition rooted (p : bytes) : Prop := exists c p', p = "/"%char :: c :: p' /\ c <> "/"%char.

Lemma lower_facts c : scheme_char c = true -> scheme_char (lower c) = true /\ lower (lower c) = lower c /\ (is_alpha c = true -> is_alpha (lower c) = true) /\ unsafe_char c = false /\ byte_eqb ":" c = false.
Proof. destruct c as [[|] [|] [|] [|] [|] [|] [|] [|]]; vm_compute; intros H; (discriminate H || done). Qed.

Lemma split_scheme_ok b : without unsafe_char b -> let '(s, rest) := split_scheme b in
  (s = [] \/ exists c s', s = c :: s' /\ is_alpha c = true /\ Forall (fun c => scheme_char c = true) s /\ map lower s = s) /\ without unsafe_char s /\ without unsafe_char rest.
Proof.
  intros Hb. unfold split_scheme. destruct (partition ":" b) as [[[| c s] rest] |] eqn:E; [split; [by left | split; [constructor | done]] | | split; [by left | split; [constructor | done]]].
  destruct (is_alpha c && forallb scheme_char (c :: s)) eqn:Ea; [| split; [by left | split; [constructor | done]]].
  apply andb_true_iff in Ea as [Hc Hs].
  assert (Hall : Forall (fun c => scheme_char c = true) (c :: s)) by (apply Forall_forall; intros x Hx; rewrite forallb_forall in Hs; by apply Hs, list_elem_of_In).
  apply partition_spec in E as [-> _]. apply Forall_app in Hb as [_ Hb]. apply Forall_cons in Hb as [_ Hb]. split; [| split; [| exact Hb]].
  - right. exists (lower c), (map lower s). split; [done |]. inversion Hall as [| ? ? Hc' Hs']; subst. split; [by apply lower_facts |]. split.
    + change (Forall (fun c => scheme_char c = true) (map lower (c :: s))). apply Forall_map. eapply Forall_impl; [exact Hall |]. intros x Hx. by apply lower_facts.
    + change (map lower (map lower (c :: s)) = map lower (c :: s)). rewrite map_map. apply map_ext_in. intros x Hx. apply list_elem_of_In in Hx. rewrite Forall_forall in Hall. by apply lower_facts, Hall.
  - apply Forall_map. eapply Forall_impl; [exact Hall |]. intros x Hx. cbn. apply lower_facts in Hx as (Hx & _). exact (proj1 (proj2 (proj2 (proj2 (lower_facts _ Hx))))).
Qed.

Lemma split_netloc_ok b : without unsafe_char b -> let '(n, rest) := split_netloc b in without delimiter n /\ without unsafe_char n /\ without unsafe_char rest.
Proof.
  intros Hb. unfold split_netloc. destruct (slashes b); [| by split; [constructor | split; [constructor |]]].
  pose proof (span_spec (fun c => negb (delimiter c)) (drop 2 b)) as H. destruct (span _ (drop 2 b)) as [n rest]. destruct H as [He H].
  assert (Hd : without unsafe_char (drop 2 b)) by (by apply Forall_drop). rewrite He in Hd. unfold without in *. rewrite Forall_app in Hd.
  split; [| tauto]. eapply Forall_impl; [exact H |]. intros c Hc. by apply negb_true_iff.
Qed.

Lemma split_at_ok c b P : Forall P b -> let '(x, y) := split_at c b in without (byte_eqb c) x /\ Forall P x /\ Forall P y.
Proof.
  intros Hb. unfold split_at. destruct (partition c b) as [[x y] |] eqn:E; cbn.
  - apply partition_spec in E as [-> H]. apply Forall_app in Hb as [Hx Hb]. by apply Forall_cons in Hb as [_ Hy].
  - by apply partition_absent in E.
Qed.

Lemma cleaned_safe b : without unsafe_char (cleaned b).
Proof. unfold cleaned, without. apply Forall_forall. intros c Hc. by apply list_elem_of_filter in Hc as [Hc _]. Qed.

Lemma urlsplit_ok netloc_ok url u : urlsplit netloc_ok url = Ok u -> parts_ok netloc_ok u /\ path_ok (u_path u).
Proof.
  unfold urlsplit. pose proof (split_scheme_ok (cleaned url) (cleaned_safe url)) as H. destruct (split_scheme (cleaned url)) as [s b]. destruct H as (Hs & Hs' & Hb).
  pose proof (split_netloc_ok b Hb) as H. destruct (split_netloc b) as [n b1]. destruct H as (Hn & Hn' & Hb1).
  destruct (negb (bool_decide (n = [])) && negb (netloc_ok n)) eqn:En; [discriminate |].
  pose proof (split_at_ok "#" b1 _ Hb1) as H. destruct (split_at "#" b1) as [b2 f]. destruct H as (H1 & H2 & Hf).
  pose proof (split_at_ok "?" b2 _ H1) as H. pose proof (split_at_ok "?" b2 _ H2) as H'. destruct (split_at "?" b2) as [p q]. destruct H as (H3 & H4 & H5), H' as (_ & H6 & H7).
  intros [= <-]. split; [| done]. constructor; cbn; [done | | done | done]. split; [done |].
  destruct (decide (n = [])); [by left | right]. rewrite bool_decide_false in En by done. cbn in En. by apply negb_false_iff.
Qed.

Definition tail_of (u : SplitResult) : bytes := match u_query u with [] => [] | q => "?"%char :: q end ++ match u_fragment u with [] => [] | f => "#"%char :: f end.

Lemma split_tail u : path_ok (u_path u) -> without (byte_eqb "#") (u_query u) ->
  let '(b, fragment) := split_at "#" (u_path u ++ tail_of u) in let '(path, query) := split_at "?" b in path = u_path u /\ query = u_query u /\ fragment = u_fragment u.
Proof.
  intros (Hq & Hh & _) Hqh. set (w := u_path u ++ match u_query u with [] => [] | q => "?"%char :: q end).
  assert (Hw : without (byte_eqb "#") w). { apply Forall_app. split; [done |]. destruct (u_query u); [constructor |]. by constructor. }
  assert (split_at "#" (u_path u ++ tail_of u) = (w, u_fragment u)) as ->.
  { unfold split_at, tail_of. rewrite app_assoc. fold w. destruct (u_fragment u) as [| c f]; [rewrite app_nil_r, partition_none by done; done |]. by rewrite partition_app. }
  unfold split_at, w. destruct (u_query u) as [| c q]; [rewrite app_nil_r, partition_none by done; done |]. by rewrite partition_app.
Qed.

Lemma split_scheme_none b : match b with c :: _ => is_alpha c = false | [] => True end -> split_scheme b = ([], b).
Proof.
  intros H. unfold split_scheme. destruct (partition ":" b) as [[[| c s] rest] |] eqn:E; try done. apply partition_spec in E as [-> _]. cbn in H. by rewrite H.
Qed.

Lemma split_scheme_some c s rest : is_alpha c = true -> Forall (fun c => scheme_char c = true) (c :: s) -> map lower (c :: s) = c :: s ->
  split_scheme ((c :: s) ++ ":"%char :: rest) = (c :: s, rest).
Proof.
  intros Hc Hs Hl. unfold split_scheme. rewrite partition_app; [| eapply Forall_impl; [exact Hs |]; intros x Hx; by apply lower_facts].
  rewrite Hc. assert (forallb scheme_char (c :: s) = true) as ->; [| by rewrite Hl]. apply forallb_forall. intros x Hx. rewrite Forall_forall in Hs. by apply Hs, list_elem_of_In.
Qed.

(** The authority and the path, as [urlunsplit] writes them. *)
Definition middle (u : SplitResult) : bytes :=
  match u_netloc u with
  | (_ :: _) as netloc => bytes_of "//" ++ netloc ++ u_path u
  | [] =>
      if negb (bool_decide (u_scheme u = [])) && existsb (String.eqb (string_of (u_scheme u))) USES_NETLOC then bytes_of "//" ++ u_path u
      else u_path u
  end.

Lemma rooted_slashes p b : rooted p -> slashes (p ++ b) = false.
Proof. intros (c & p' & -> & Hc). unfold slashes. cbn. rewrite bool_decide_false; [done |]. intros [= H]. done. Qed.

Lemma urlunsplit_rooted u : rooted (u_path u) -> urlunsplit u = match u_scheme u with [] => [] | s => s ++ bytes_of ":" end ++ middle u ++ tail_of u.
Proof.
  intros H. unfold urlunsplit, middle. assert (slashes (u_path u) = false) as -> by (rewrite <- (app_nil_r (u_path u)); by apply rooted_slashes).
  destruct H as (c & p' & -> & Hc). cbn [u_path]. change (byte_eqb "/" "/") with true. rewrite andb_true_r. done.
Qed.

Lemma middle_split u : without delimiter (u_netloc u) -> rooted (u_path u) -> split_netloc (middle u ++ tail_of u) = (u_netloc u, u_path u ++ tail_of u).
Proof.
  intros Hn Hr. assert (Hd : match u_path u ++ tail_of u with [] => True | c :: _ => negb (delimiter c) = false end) by (destruct Hr as (c & p' & -> & _); done).
  assert (Hspan : forall n, without delimiter n -> span (fun c => negb (delimiter c)) (n ++ u_path u ++ tail_of u) = (n, u_path u ++ tail_of u)).
  { intros n H. apply span_all; [| exact Hd]. eapply Forall_impl; [exact H |]. intros c ->. done. }
  assert (Hs : forall b, split_netloc (bytes_of "//" ++ b) = span (fun c => negb (delimiter c)) b) by done.
  unfold middle. destruct (u_netloc u) as [| c n]; [| rewrite <- !app_assoc, Hs; by apply Hspan].
  destruct (_ && _); [rewrite <- app_assoc, Hs; by apply (Hspan []) |]. unfold split_netloc. by rewrite rooted_slashes.
Qed.

Lemma cleaned_id b : match b with c :: _ => (byte_val c <=? 32) = false | [] => True end -> without unsafe_char b -> cleaned b = b.
Proof.
  intros H Hs. unfold cleaned, lstripped. assert (snd (span (fun c => byte_val c <=? 32) b) = b) as -> by (destruct b as [| c b]; [done |]; cbn; by rewrite H).
  clear H. induction Hs as [| c b Hc _ IH]; [done |]. rewrite filter_cons_True by done. f_equal. exact IH.
Qed.

Lemma alpha_visible c : is_alpha c = true -> (byte_val c <=? 32) = false.
Proof. destruct c as [[|] [|] [|] [|] [|] [|] [|] [|]]; vm_compute; intros H; (discriminate H || done). Qed.

(** Parts with a rooted path survive being written and read. *)
Lemma urlsplit_unsplit netloc_ok u : parts_ok netloc_ok u -> path_ok (u_path u) -> rooted (u_path u) -> urlsplit netloc_ok (urlunsplit u) = Ok u.
Proof.
  intros [Hs [Hn Hok] Hq (S1 & S2 & S3 & S4)] Hp Hr. pose proof Hp as (_ & _ & S5).
  assert (Htail : without unsafe_char (middle u ++ tail_of u)).
  { assert (Hsl : without unsafe_char (bytes_of "//")) by (repeat constructor). apply Forall_app. split.
    - unfold middle. destruct (u_netloc u) as [| c n] eqn:E; [destruct (_ && _); [by apply Forall_app | done] |].
      apply Forall_app. split; [done |]. by apply Forall_app.
    - unfold tail_of. apply Forall_app. split; [destruct (u_query u); by constructor | destruct (u_fragment u); by constructor]. }
  assert (Hfront : exists b, middle u ++ tail_of u = "/"%char :: b).
  { destruct Hr as (c & p' & Hr & _). unfold middle. destruct (u_netloc u); [destruct (_ && _) |]; rewrite ?Hr; by eexists. }
  assert (Hsplit : split_scheme (cleaned (urlunsplit u)) = (u_scheme u, middle u ++ tail_of u)).
  { rewrite urlunsplit_rooted by done. destruct Hs as [-> | (c & s & Es & Hc & Hall & Hl)]; [| rewrite Es in *].
    - destruct Hfront as [b Hb]. cbn [app]. rewrite cleaned_id; [apply split_scheme_none; by rewrite Hb | by rewrite Hb | done].
    - rewrite <- app_assoc. rewrite cleaned_id; [by apply split_scheme_some | cbn; by apply alpha_visible |].
      apply Forall_app. split; [exact S1 |]. apply Forall_app. split; [repeat constructor | exact Htail]. }
  unfold urlsplit. rewrite Hsplit, middle_split by done.
  assert (negb (bool_decide (u_netloc u = [])) && negb (netloc_ok (u_netloc u)) = false) as ->.
  { destruct Hok as [-> | ->]; [done |]. by rewrite andb_false_r. }
  pose proof (split_tail u Hp Hq) as Ht. destruct (split_at "#" _) as [b f]. destruct (split_at "?" b) as [p q]. destruct Ht as (-> & -> & ->). by destruct u.
Qed.
