(* ===== verification/Regex.v ===== *)
(** * Regular expressions

    [re.fullmatch] for patterns made of classes, concatenation, alternation and
    repetition, by derivatives, and the language it decides.  Text is bytes; a class that
    contains a character outside ASCII contains all of them, so the bytes of UTF-8 are
    matched as the characters would be. *)
From S2P Require Import Prelude PyVal Bencode.

Inductive re :=
  | Void
  | Empty
  | Cls (f : ascii -> bool)
  | Cat (r s : re)
  | Alt (r s : re)
  | Star (r : re).

Fixpoint nullable (r : re) : bool :=
  match r with
  | Void | Cls _ => false
  | Empty | Star _ => true
  | Cat r s => nullable r && nullable s
  | Alt r s => nullable r || nullable s
  end.

(** Concatenation and alternation that keep derivatives small. *)
Definition cat (r s : re) : re := match r with Void => Void | Empty => s | _ => Cat r s end.
Definition alt (r s : re) : re := match r, s with Void, s => s | r, Void => r | r, s => Alt r s end.

Fixpoint deriv (c : ascii) (r : re) : re :=
  match r with
  | Void | Empty => Void
  | Cls f => if f c then Empty else Void
  | Cat r s => let d := cat (deriv c r) s in if nullable r then alt d (deriv c s) else d
  | Alt r s => alt (deriv c r) (deriv c s)
  | Star r => cat (deriv c r) (Star r)
  end.

Definition after (r : re) (b : bytes) : re := foldl (fun r c => deriv c r) r b.
Definition fullmatch (r : re) (b : bytes) : bool := nullable (after r b).

(** ** Patterns *)

Definition chr (c : ascii) : re := Cls (byte_eqb c).
Definition lit (b : bytes) : re := foldr (fun c r => cat (chr c) r) Empty b.
Definition plus (r : re) : re := Cat r (Star r).
Fixpoint times (n : nat) (r : re) : re := match n with O => Empty | S n => cat r (times n r) end.

(** ** The language *)

Inductive lang : re -> bytes -> Prop :=
  | lang_empty : lang Empty []
  | lang_cls f c : f c = true -> lang (Cls f) [c]
  | lang_cat r s a b : lang r a -> lang s b -> lang (Cat r s) (a ++ b)
  | lang_left r s a : lang r a -> lang (Alt r s) a
  | lang_right r s a : lang s a -> lang (Alt r s) a
  | lang_done r : lang (Star r) []
  | lang_more r c a b : lang r (c :: a) -> lang (Star r) b -> lang (Star r) (c :: a ++ b).

Lemma lang_void b : ~ lang Void b.
Proof. inversion 1. Qed.

Lemma lang_nullable r : nullable r = true <-> lang r [].
Proof.
  induction r as [| | f | r IHr s IHs | r IHr s IHs | r IHr]; cbn; rewrite ?andb_true_iff, ?orb_true_iff, ?IHr, ?IHs; split; intros H; try discriminate H; try done; try by inversion H.
  - constructor.
  - destruct H as [H1 H2]. exact (lang_cat r s [] [] H1 H2).
  - inversion H as [| | ? ? a b Ha Hb Heq1 Heq | | | |]; subst. by apply app_nil in Heq as [-> ->].
  - destruct H as [H | H]; [by apply lang_left | by apply lang_right].
  - inversion H; subst; [by left | by right].
  - constructor.
Qed.

Lemma lang_Cat r s b : lang (Cat r s) b <-> exists x y, b = x ++ y /\ lang r x /\ lang s y.
Proof. split; [inversion 1; subst; eauto | intros (x & y & -> & H1 & H2); by constructor]. Qed.

Lemma lang_Alt r s b : lang (Alt r s) b <-> lang r b \/ lang s b.
Proof. split; [inversion 1; subst; eauto | intros [H | H]; [by apply lang_left | by apply lang_right]]. Qed.

Lemma lang_cat_smart r s b : lang (cat r s) b <-> exists x y, b = x ++ y /\ lang r x /\ lang s y.
Proof.
  destruct r; cbn; try apply lang_Cat.
  - split; [intros H; by apply lang_void in H | intros (x & y & _ & H & _); by apply lang_void in H].
  - split; [intros H; exists [], b; split; [done |]; split; [constructor | done] | intros (x & y & -> & H & Hy); by inversion H; subst].
Qed.

Lemma lang_alt_smart r s b : lang (alt r s) b <-> lang r b \/ lang s b.
Proof.
  assert (Hv : lang Void b <-> False) by (split; [apply lang_void | done]).
  destruct r; destruct s; unfold alt; rewrite ?lang_Alt, ?Hv; tauto.
Qed.

(** The derivative is what may follow the byte. *)
Lemma lang_deriv c r b : lang (deriv c r) b <-> lang r (c :: b).
Proof.
  revert b. induction r as [| | f | r IHr s IHs | r IHr s IHs | r IHr]; intros b; cbn.
  - split; intros H; by inversion H.
  - split; intros H; by inversion H.
  - destruct (f c) eqn:E; split; intros H; inversion H; subst; [by constructor | constructor | congruence].
  - rewrite lang_Cat. trans ((exists x y, b = x ++ y /\ lang r (c :: x) /\ lang s y) \/ (lang r [] /\ lang s (c :: b))).
    + destruct (nullable r) eqn:E; rewrite ?lang_alt_smart, lang_cat_smart, ?IHs; setoid_rewrite IHr.
      * rewrite lang_nullable in E. tauto.
      * assert (~ lang r []) by (rewrite <- lang_nullable, E; done). tauto.
    + split.
      * intros [(x & y & -> & H1 & H2) | [H1 H2]]; [by exists (c :: x), y | by exists [], (c :: b)].
      * intros ([| c' x] & y & Heq & H1 & H2); cbn in Heq; subst; [by right |]. injection Heq as <- ->. left. by exists x, y.
  - by rewrite lang_alt_smart, lang_Alt, IHr, IHs.
  - rewrite lang_cat_smart. setoid_rewrite IHr. split.
    + intros (x & y & -> & H1 & H2). by constructor.
    + inversion 1; subst. by exists a, b0.
Qed.

Lemma lang_after r b rest : lang (after r b) rest <-> lang r (b ++ rest).
Proof. revert r. induction b as [| c b IH]; intros r; cbn; [done |]. by rewrite IH, lang_deriv. Qed.

Theorem fullmatch_lang r b : fullmatch r b = true <-> lang r b.
Proof. unfold fullmatch. by rewrite lang_nullable, lang_after, app_nil_r. Qed.

(** ** The patterns' languages *)

Lemma lang_lit_cat w r b : lang (foldr (fun c r => cat (chr c) r) r w) b <-> exists rest, b = w ++ rest /\ lang r rest.
Proof.
  revert b. induction w as [| c w IH]; intros b; cbn [foldr]; [split; [eauto | by intros (x & -> & H)] |].
  rewrite lang_cat_smart. setoid_rewrite IH. split.
  - intros (x & y & -> & Hx & rest & -> & Hr). exists rest. split; [| done]. inversion Hx as [| f c' Hc | | | | |]; subst. apply bool_decide_eq_true in Hc as <-. done.
  - intros (rest & -> & Hr). exists [c], (w ++ rest). split; [done |]. split; [constructor; by apply bool_decide_eq_true |]. by exists rest.
Qed.

Lemma lang_star_cls f b : lang (Star (Cls f)) b <-> Forall (fun c => f c = true) b.
Proof.
  split.
  - intros H. remember (Star (Cls f)) as r eqn:Er. induction H as [| | | | | | r c a b Hr _ Hs IH]; simplify_eq; [constructor |]. inversion Hr; subst. cbn. constructor; [done | by apply IH].
  - induction 1 as [| c b Hc _ IH]; [constructor |]. change (c :: b) with (c :: [] ++ b). constructor; [by constructor | done].
Qed.

Lemma lang_plus_cls f b : lang (plus (Cls f)) b <-> b <> [] /\ Forall (fun c => f c = true) b.
Proof.
  unfold plus. rewrite lang_Cat. split.
  - intros (x & y & -> & Hx & Hy). apply lang_star_cls in Hy. inversion Hx; subst. split; [done |]. by constructor.
  - intros [Hne H]. destruct H as [| c b Hc Hb]; [done |]. exists [c], b. split; [done |]. split; [by constructor | by apply lang_star_cls].
Qed.
