(* ===== verification/ApiRoutes.v ===== *)
(** * [server/api_routes.py]: the registry of routes

    The routes of every service, their patterns, and the two mappings of a browser's URL:
    to the management tier and to its legacy handlers. *)
From S2P Require Import Prelude PyVal Bencode Ipv4 PolicyDoc UrlText Regex.

Record Route := MkRoute { rt_service : string; rt_method : string; rt_path : string; rt_security : string; rt_summary : string }.

(** Method, resource suffix, summary. *)
Definition _CONSOLE_RESOURCES : list (string * string * string) :=
  [("GET", "/peer-policy", "Read peer policy");
   ("GET", "/peer-policy/roles", "List role definitions");
   ("GET", "/peer-policy/roles/export-csv", "Export role definitions as CSV");
   ("POST", "/peer-policy/roles/import-csv", "Replace role definitions from CSV");
   ("PUT", "/peer-policy/roles/{name}", "Replace a role definition");
   ("DELETE", "/peer-policy/roles/{name}", "Delete a role definition");
   ("PUT", "/peer-policy/qos", "Replace global or role QoS");
   ("GET", "/peer-policy/origin-enforcement", "Read reviewed distribution restrictions");
   ("PUT", "/peer-policy/origin-enforcement", "Review or apply distribution restrictions");
   ("POST", "/devices/{device_id}/role", "Set a device role");
   ("POST", "/devices/bulk-role", "Set device roles in bulk");
   ("GET", "/devices/{device_id}/effective-qos", "Explain effective device QoS");
   ("GET", "/peer-policy/explain", "Explain mutual peer access");
   ("PUT", "/peer-policy/quarantine/{device_id}", "Set device quarantine");
   ("GET", "/audit", "List audit events");
   ("GET", "/audit/histogram", "Read audit histogram");
   ("GET", "/schedules", "List schedules");
   ("POST", "/schedules", "Create a schedule");
   ("GET", "/schedules/{id}", "Read a schedule");
   ("PUT", "/schedules/{id}", "Replace a schedule");
   ("PATCH", "/schedules/{id}", "Update a schedule");
   ("DELETE", "/schedules/{id}", "Delete a schedule");
   ("GET", "/schedules/{id}/occurrences", "List schedule occurrences");
   ("GET", "/schedules/{id}/receipts", "List schedule receipts");
   ("POST", "/schedules/{id}/reaffirm", "Reaffirm a schedule");
   ("GET", "/session", "Read console session");
   ("GET", "/settings/key-maintenance", "Read key maintenance policies and operations");
   ("POST", "/settings/key-maintenance", "Configure or approve key maintenance");
   ("POST", "/login", "Create console session");
   ("POST", "/setup", "Create the first administrator");
   ("POST", "/logout", "End console session");
   ("GET", "/images", "List images");
   ("GET", "/images/importable", "List importable images");
   ("POST", "/images/import", "Import an image");
   ("PUT", "/images/upload/{filename}", "Upload an image");
   ("GET", "/images/jobs/{job_id}", "Read image job");
   ("DELETE", "/images/{image_id}", "Delete an image");
   ("POST", "/images/{image_id}/release-quarantine", "Release image quarantine");
   ("POST", "/image-verification/offline", "Upload offline verification data");
   ("POST", "/image-verification/refresh", "Start image verification refresh");
   ("GET", "/devices", "List devices");
   ("POST", "/devices", "Create a device");
   ("DELETE", "/devices/{device_id}", "Retire a device");
   ("GET", "/devices/export-csv", "Export devices");
   ("GET", "/devices/example-csv", "Download example device CSV");
   ("POST", "/devices/import-csv", "Import devices");
   ("POST", "/devices/bulk-credential", "Assign credentials in bulk");
   ("GET", "/devices/{device_id}/plan", "Read device plan");
   ("GET", "/devices/{device_id}/reports", "List device reports");
   ("GET", "/devices/{device_id}/deployment", "Read device deployment");
   ("GET", "/devices/{device_id}/certificate", "Read device peer certificate status");
   ("POST", "/devices/{device_id}/certificate/revoke", "Revoke a device peer certificate");
   ("POST", "/devices/{device_id}/certificate/reenroll", "Approve fresh device certificate onboarding");
   ("POST", "/devices/{device_id}/assign", "Assign an image");
   ("POST", "/devices/{device_id}/credential", "Assign a credential");
   ("POST", "/devices/{device_id}/platform", "Set device platform");
   ("POST", "/devices/{device_id}/forget-host-key", "Forget SSH host key");
   ("POST", "/devices/{device_id}/request-report", "Request a device report");
   ("POST", "/devices/{device_id}/peer-telemetry", "Set peer telemetry interval");
   ("POST", "/devices/{device_id}/adopt", "Adopt a deployment");
   ("POST", "/devices/{device_id}/onboard", "Start device onboarding");
   ("POST", "/devices/{device_id}/undeploy", "Start device removal");
   ("GET", "/install-options", "List install options");
   ("GET", "/credentials", "List credential profiles");
   ("POST", "/credentials", "Create a credential profile");
   ("DELETE", "/credentials/{credential_id}", "Delete a credential profile");
   ("GET", "/onboard/jobs", "List onboarding jobs");
   ("GET", "/onboard/jobs/{job_id}", "Read onboarding job");
   ("GET", "/onboard/jobs/{job_id}/stream", "Stream onboarding job output");
   ("POST", "/onboard/jobs/{job_id}/abort", "Abort onboarding job");
   ("POST", "/onboard/cancel-queued", "Cancel queued onboarding jobs");
   ("GET", "/deploy-logs", "List deployment logs");
   ("GET", "/deploy-logs/histogram", "Read deployment log histogram");
   ("GET", "/deploy-logs/{filename}", "Read deployment log");
   ("GET", "/overview", "Read fleet overview");
   ("GET", "/deployment", "Read deployment layout and runtime inventory");
   ("GET", "/swarm", "Read swarm state");
   ("GET", "/telemetry/health", "Read telemetry health");
   ("POST", "/telemetry/stream", "Proxy telemetry stream");
   ("GET", "/settings", "Read settings");
   ("GET", "/settings/peer-tls", "Read peer transfer TLS mode");
   ("POST", "/settings/peer-tls", "Set peer transfer TLS mode");
   ("POST", "/settings/password", "Change administrator password");
   ("POST", "/settings/sessions/revoke-others", "Revoke other sessions");
   ("GET", "/settings/setup-status", "Read setup status");
   ("GET", "/settings/certificates", "Inspect server certificate validity");
   ("GET", "/settings/service-credentials", "Read metrics and collector credential rotation");
   ("POST", "/settings/service-credentials", "Replace or retire metrics and collector credentials");
   ("GET", "/settings/certificates/browser/rotation", "Read browser TLS rotation");
   ("POST", "/settings/certificates/browser/rotation", "Prepare, approve or apply browser TLS rotation");
   ("GET", "/settings/backups", "Read deployment backup worker status");
   ("POST", "/settings/backups", "Request backup, verification, extraction, restore or recovery, history retirement or exact archive deletion");
   ("GET", "/settings/deployment-rotation", "Read deployment credential maintenance evidence");
   ("POST", "/settings/deployment-rotation", "Request verified-backup credential maintenance");
   ("GET", "/settings/trust-rotation", "Read public deployment trust approvals");
   ("POST", "/settings/trust-rotation", "Prepare or approve deployment trust without publishing");
   ("POST", "/settings/certificates/instruction/request", "Prepare public instruction certificate renewal");
   ("POST", "/settings/certificates/instruction/renew", "Renew the existing instruction signing certificate");
   ("GET", "/settings/certificates/instruction/rotation", "Inspect online signer rotation");
   ("POST", "/settings/certificates/instruction/rotation", "Prepare, activate or retire an online signer");
   ("GET", "/settings/image-verification", "Read verification settings");
   ("POST", "/settings/image-verification", "Update verification settings");
   ("POST", "/settings/audit-export", "Update audit export settings");
   ("DELETE", "/settings/audit-export", "Delete audit export settings");
   ("POST", "/settings/audit-export/run", "Start audit export");
   ("GET", "/settings/audit-export/run/{job_id}", "Read audit export job");
   ("POST", "/settings/ca-trust", "Update CA trust settings");
   ("POST", "/settings/ca-trust/refresh", "Start CA trust refresh");
   ("GET", "/settings/ca-trust/refresh/{job_id}", "Read CA trust refresh job");
   ("POST", "/settings/telemetry-destination", "Update telemetry destination");
   ("DELETE", "/settings/telemetry-destination", "Delete telemetry destination");
   ("POST", "/settings/gui-cert", "Install console certificate");
   ("DELETE", "/settings/gui-cert", "Remove console certificate");
   ("POST", "/settings/trust", "Install a trust anchor");
   ("DELETE", "/settings/trust/{name}", "Delete a trust anchor");
   ("GET", "/help", "Read help metadata")].

Definition _console_security (method suffix : string) (internal : bool) : string :=
  if String.eqb method "POST" && String.eqb suffix "/login" then if internal then "managementBearer+consolePassword" else "consolePassword"
  else if String.eqb method "POST" && String.eqb suffix "/setup" then if internal then "managementBearer+setupGrant" else "setupGrant"
  else if internal then "managementBearer+consoleSession" else "consoleSession".

(** The same resource on both sides of the trust boundary. *)
Definition console_route (r : string * string * string) : Route :=
  let '(method, suffix, summary) := r in MkRoute "console" method ("/api/v1" +:+ suffix) (_console_security method suffix false) summary.
Definition management_route (r : string * string * string) : Route :=
  let '(method, suffix, summary) := r in MkRoute "management" method ("/internal/v1" +:+ suffix) (_console_security method suffix true) summary.

Definition CONSOLE_PAGES : list Route :=
  [MkRoute "console" "GET" "/swarmmap" "consoleSession" "Open swarm map";
   MkRoute "console" "GET" "/healthz" "none" "Read console health";
   MkRoute "console" "GET" "/readyz" "none" "Read console readiness"].

Definition MANAGEMENT_PAGES : list Route :=
  [MkRoute "management" "GET" "/internal/v1/swarmmap" "managementBearer+consoleSession" "Open swarm map"].

Definition SERVICE_ROUTES : list Route :=
  [MkRoute "management" "GET" "/internal/v1/console-certificate" "managementBearer" "Read active console TLS identity";
   MkRoute "management" "POST" "/internal/v1/authorizations" "managementBearer" "Authorize a browser mutation";
   MkRoute "catalog" "GET" "/v1/images" "deviceBearer" "List assigned images";
   MkRoute "catalog" "GET" "/v1/images/{image_id}" "deviceBearer" "Read assigned image";
   MkRoute "catalog" "GET" "/v1/torrents/{image_id}" "deviceBearer" "Download personalized torrent";
   MkRoute "catalog" "GET" "/v1/devices/{device_id}/policy" "deviceBearer" "Read device policy";
   MkRoute "catalog" "GET" "/v1/devices/{device_id}/instructions" "deviceBearer" "Read sealed device instructions";
   MkRoute "catalog" "GET" "/v1/devices/{device_id}/instruction-keylist" "deviceBearer" "Read installed instruction keylist";
   MkRoute "catalog" "POST" "/v1/devices/{device_id}/heartbeat" "deviceBearer" "Record heartbeat";
   MkRoute "catalog" "POST" "/v1/devices/{device_id}/telemetry" "deviceBearer" "Record telemetry";
   MkRoute "catalog" "POST" "/v1/devices/{device_id}/live-telemetry" "deviceBearer" "Record accelerated live observation";
   MkRoute "catalog" "POST" "/v1/devices/{device_id}/token-refresh" "deviceBearer" "Rotate device token";
   MkRoute "catalog" "POST" "/v1/devices/{device_id}/peer-tls" "deviceBearer" "Enroll or renew peer TLS certificate";
   MkRoute "catalog" "GET" "/v1/devices/{device_id}/peer-tls-revocations" "deviceBearer" "Read current peer certificate revocations";
   MkRoute "tracker" "GET" "/announce" "announceBearerOrLegacyQuery" "Announce peer";
   MkRoute "tracker" "GET" "/scrape" "announceBearerOrLegacyQuery" "Scrape torrent";
   MkRoute "telemetry" "GET" "/metrics" "observabilityBearer" "Read Prometheus metrics";
   MkRoute "telemetry" "GET" "/healthz" "none" "Read listener health";
   MkRoute "telemetry" "GET" "/readyz" "none" "Read listener readiness";
   MkRoute "telemetry" "GET" "/swarm" "managementBearer" "Read swarm state";
   MkRoute "telemetry" "GET" "/status" "managementBearer" "Read detailed telemetry status";
   MkRoute "artifact" "GET" "/v1/devices/{device_id}/artifacts/{artifact_path}" "artifactBasic" "Download device artifact";
   MkRoute "artifact" "HEAD" "/v1/devices/{device_id}/artifacts/{artifact_path}" "artifactBasic" "Inspect device artifact";
   MkRoute "artifact" "GET" "/bootstrap.sh" "guestShellAnonymousStatic" "Download Guest Shell bootstrap";
   MkRoute "artifact" "HEAD" "/bootstrap.sh" "guestShellAnonymousStatic" "Inspect Guest Shell bootstrap";
   MkRoute "artifact" "GET" "/iris-agent.tgz" "guestShellAnonymousStatic" "Download x86 Guest Shell agent";
   MkRoute "artifact" "HEAD" "/iris-agent.tgz" "guestShellAnonymousStatic" "Inspect x86 Guest Shell agent";
   MkRoute "artifact" "GET" "/iris-agent-arm.tgz" "guestShellAnonymousStatic" "Download ARM Guest Shell agent";
   MkRoute "artifact" "HEAD" "/iris-agent-arm.tgz" "guestShellAnonymousStatic" "Inspect ARM Guest Shell agent";
   MkRoute "artifact" "GET" "/iris-catalog.pem" "guestShellAnonymousStatic" "Download Guest Shell catalog CA";
   MkRoute "artifact" "HEAD" "/iris-catalog.pem" "guestShellAnonymousStatic" "Inspect Guest Shell catalog CA";
   MkRoute "artifact" "GET" "/iris-signers.pem" "guestShellAnonymousStatic" "Download Guest Shell instruction signer trust";
   MkRoute "artifact" "HEAD" "/iris-signers.pem" "guestShellAnonymousStatic" "Inspect Guest Shell instruction signer trust";
   MkRoute "artifact" "GET" "/staging/{legacy_artifact}" "legacyGuestShell" "Download Guest Shell enrollment capability";
   MkRoute "artifact" "HEAD" "/staging/{legacy_artifact}" "legacyGuestShell" "Inspect Guest Shell enrollment capability"].

Definition ROUTES : list Route :=
  map console_route _CONSOLE_RESOURCES ++ CONSOLE_PAGES ++ map management_route _CONSOLE_RESOURCES ++ MANAGEMENT_PAGES ++ SERVICE_ROUTES.

(** ** Patterns *)

Definition segment_char (c : ascii) : bool := negb (byte_eqb c "/").
Definition any_char (c : ascii) : bool := negb (byte_eqb c (byte_of 10)).
Definition name_char (c : ascii) : bool := is_lower c || is_digit c || byte_eqb c "_".
Definition label_char (c : ascii) : bool := is_alpha c || is_digit c || byte_eqb c "." || byte_eqb c "_" || byte_eqb c ":" || byte_eqb c "-".
Definition lower_hex (c : ascii) : bool := is_digit c || in_range_c 97 102 c.
Definition either_hex (c : ascii) : bool := lower_hex c || in_range_c 65 70 c.

(** The names of the staging capabilities. *)
Definition legacy_artifact : re :=
  Alt (Cat (lit (bytes_of "iris-agent-")) (Cat (plus (Cls label_char)) (Cat (lit (bytes_of "-")) (Cat (times 32 (Cls either_hex)) (lit (bytes_of ".conf"))))))
  (Alt (Cat (lit (bytes_of "rpc-secret-")) (times 32 (Cls either_hex)))
  (Alt (Cat (lit (bytes_of "iris-instructions-")) (Cat (plus (Cls label_char)) (Cat (lit (bytes_of "-")) (Cat (times 32 (Cls lower_hex)) (lit (bytes_of ".envelope"))))))
  (Cat (lit (bytes_of "bundle-sha256-")) (times 32 (Cls lower_hex))))).

(** What a variable of the name stands for. *)
Definition atom (name : bytes) : re :=
  if bool_decide (name = bytes_of "artifact_path") then plus (Cls any_char)
  else if bool_decide (name = bytes_of "legacy_artifact") then legacy_artifact
  else plus (Cls segment_char).

(** A variable's name and closing brace, after its opening brace. *)
Definition variable (b : bytes) : option (bytes * bytes) :=
  match span name_char b with
  | ((c :: _) as name, "}"%char :: rest) => if is_digit c then None else Some (name, rest)
  | _ => None
  end.

Fixpoint pattern_fuel (fuel : nat) (template : bytes) : re :=
  match fuel, template with
  | S fuel, c :: rest =>
      match (if byte_eqb c "{" then variable rest else None) with
      | Some (name, rest) => cat (atom name) (pattern_fuel fuel rest)
      | None => cat (chr c) (pattern_fuel fuel rest)
      end
  | _, _ => Empty
  end.

(** A step takes a character of the template or more. *)
Definition _pattern (template : string) : re := pattern_fuel (String.length template) (bytes_of template).

(** ** Matching *)

Section routes.
Context (netloc_ok : bytes -> bool).

Definition serves (service method : string) (clean : bytes) (r : Route) : bool :=
  String.eqb (rt_service r) service && String.eqb (rt_method r) method && fullmatch (_pattern (rt_path r)) clean.

Definition match_ (service method : string) (path : bytes) : res (option Route) :=
  let* parts := urlsplit netloc_ok path in
  Ok (List.find (serves service method (u_path parts)) ROUTES).

Definition starts_with (prefix b : bytes) : bool := bool_decide (take (length prefix) b = prefix).

Definition _replace_prefix (url source target : bytes) : res (option bytes) :=
  let* parts := urlsplit netloc_ok url in
  if negb (starts_with source (u_path parts)) then Ok None
  else
    let mapped := target ++ drop (length source) (u_path parts) in
    Ok (Some (urlunsplit (Split (u_scheme parts) (u_netloc parts) mapped (u_query parts) (u_fragment parts)))).

Definition SENTINEL : bytes := bytes_of "/internal/v1/__unregistered-browser-route".

Definition console_to_management (method : string) (url : bytes) : res (option bytes) :=
  let* parts := urlsplit netloc_ok url in
  let path := u_path parts in
  if bool_decide (path = bytes_of "/swarmmap") then
    let* route := match_ "console" method url in
    match route with
    | Some _ => _replace_prefix url (bytes_of "/swarmmap") (bytes_of "/internal/v1/swarmmap")
    | None => _replace_prefix url path SENTINEL
    end
  else if starts_with (bytes_of "/api/") path then
    let* route := match_ "console" method url in
    match route with
    | Some _ => _replace_prefix url (bytes_of "/api/") (bytes_of "/internal/")
    | None => _replace_prefix url path SENTINEL
    end
  else Ok None.

Definition management_to_legacy (method : string) (url : bytes) : res (option bytes) :=
  let* route := match_ "management" method url in
  match route with
  | None => Ok None
  | Some _ =>
      let* parts := urlsplit netloc_ok url in
      let path := u_path parts in
      if bool_decide (path = bytes_of "/internal/v1/swarmmap") then _replace_prefix url (bytes_of "/internal/v1/swarmmap") (bytes_of "/swarmmap")
      else if bool_decide (path = bytes_of "/internal/v1/console-certificate") then
        _replace_prefix url (bytes_of "/internal/v1/console-certificate") (bytes_of "/__management/console-certificate")
      else if bool_decide (path = bytes_of "/internal/v1/authorizations") then
        _replace_prefix url (bytes_of "/internal/v1/authorizations") (bytes_of "/__management/authorizations")
      else _replace_prefix url (bytes_of "/internal/v1") (bytes_of "/api")
  end.
End routes.

Definition keys : list (string * string * string) := remove_dups (map (fun r => (rt_service r, rt_method r, rt_path r)) ROUTES).

(** ** Examples *)

Example match_first : match_ (fun _ => true) "console" "GET" (bytes_of "/api/v1/devices/export-csv?x=1") =
  Ok (Some (MkRoute "console" "GET" "/api/v1/devices/export-csv" "consoleSession" "Export devices")).
Proof. vm_compute. reflexivity. Qed.

Example match_segment : match_ (fun _ => true) "console" "DELETE" (bytes_of "/api/v1/devices/a%2Fb") =
    Ok (Some (MkRoute "console" "DELETE" "/api/v1/devices/{device_id}" "consoleSession" "Retire a device")) /\
  match_ (fun _ => true) "console" "DELETE" (bytes_of "/api/v1/devices/a/b") = Ok None /\
  match_ (fun _ => true) "console" "get" (bytes_of "/api/v1/devices") = Ok None.
Proof. vm_compute. done. Qed.

Example match_artifact :
  match_ (fun _ => true) "artifact" "GET" (bytes_of "/staging/iris-agent-d-1-0123456789abcdef0123456789ABCDEF.conf") =
    Ok (Some (MkRoute "artifact" "GET" "/staging/{legacy_artifact}" "legacyGuestShell" "Download Guest Shell enrollment capability")) /\
  match_ (fun _ => true) "artifact" "GET" (bytes_of "/staging/rpc-secret-0123") = Ok None /\
  match_ (fun _ => true) "artifact" "HEAD" (bytes_of "/v1/devices/d/artifacts/a/b") =
    Ok (Some (MkRoute "artifact" "HEAD" "/v1/devices/{device_id}/artifacts/{artifact_path}" "artifactBasic" "Inspect device artifact")).
Proof. vm_compute. done. Qed.

Example mapped_query : console_to_management (fun _ => true) "GET" (bytes_of "/api/v1/audit?from=1#x") = Ok (Some (bytes_of "/internal/v1/audit?from=1#x")) /\
  console_to_management (fun _ => true) "POST" (bytes_of "/api/v1/authorizations") = Ok (Some SENTINEL).
Proof. vm_compute. done. Qed.
