(* ===== verification/Secrets.v ===== *)
(** * [server/secrets_store.py]: the credentials of devices and of the seeder

    The store is one JSON document.  Every writer loads it, changes the copy in memory
    and persists it; an exception drops the copy, so an operation here returns the new
    store or raises.  The file lock and the encryption are not modelled.

    The lifetimes taken from the environment are parameters, and so is the generator of
    random tokens: [draw i] is the [i]-th value it gives to one call. *)
From S2P Require Import Prelude PyVal JsonDump Bencode PolicyDoc Sha256 KeyedState WaveGate PolicyEval SchedTime Odict Tracker UrlText.

(** ** The registry of secret types *)

Record secret_type := SecretType { ty_scope : string; ty_ttl : Z; ty_bits : Z }.

Definition INSTR_KEY_TTL : Z := 2592000.
Definition INSTR_KEY_PREV_TTL : Z := 604800.
Definition SEEDER_PREV_CAP : Z := 2.

Definition _SECRET_BITS : list (string * Z) :=
  [("catalog_token", 128); ("announce_token", 128); ("rpc_secret", 128); ("instr_key", 256)].

(** ** Numbers *)

(** [int(v)] *)
Definition int_value (v : pyval) : res Z :=
  match v with
  | VInt z => Ok z
  | VBool b => Ok (Z.b2z b)
  | VFloat (FFin m e) => Ok (if 0 <=? e then m * 2 ^ e else Z.quot m (2 ^ (- e)))
  | VFloat FNan => Err (ValueError "cannot convert float NaN to integer")
  | VFloat (FInf _) => Err OverflowError
  | VStr s => match py_int (bytes_of s) with Some z => Ok z | None => Err (ValueError "invalid literal for int()") end
  | _ => Err (TypeError "int() argument must be a string or a number")
  end.

(** [v + z] *)
Definition plus_int (v : pyval) (z : Z) : res pyfloat :=
  match v with
  | VInt x => Ok (FFin (x + z) 0)
  | VBool b => Ok (FFin (Z.b2z b + z) 0)
  | VFloat f => Ok (fadd_int f z)
  | _ => Err (TypeError "unsupported operand")
  end.


(** ** Validity *)

Definition valid (record : pyval) (now : pyfloat) (grace : Z) : res bool :=
  let* revoked := getattr_get record "revoked" VNone in
  if truth revoked then Ok false
  else
    let* expires_at := getattr_get record "expires_at" (VInt 0) in
    if py_eq expires_at (VInt 0) then Ok true
    else let* deadline := plus_int expires_at grace in Ok (num_ltb now deadline).

(** [for rec in v or []] *)
Definition iterate (v : pyval) : res (list pyval) :=
  if negb (truth v) then Ok []
  else
    match v with
    | VList l => Ok l
    | VDict d => Ok (map VStr (dkeys d))
    | VStr s => Ok (map (fun c => VStr (string_of [c])) (bytes_of s))
    | _ => Err (TypeError "not iterable")
    end.

(** ["value" in rec] *)
Definition has_value (rec : pyval) : res bool :=
  match rec with
  | VDict d => Ok (dhas d "value")
  | VList l => Ok (existsb (py_eq (VStr "value")) l)
  | VStr s => Ok (match String.index 0 "value" s with Some _ => true | None => false end)
  | _ => Err (TypeError "argument is not iterable")
  end.

(** ** The strict indexes *)

Definition _credential_bytes (value : pyval) : option string :=
  match value with VStr s => if String.eqb s "" then None else Some s | _ => None end.

Definition _credential_digest (value : string) : string := sha256_hexdigest value.
#[global] Arguments _credential_digest : simpl never.

(** What an index says of a digest; the catalog's entries are never legacy. *)
Record entry := Entry { en_principal : principal; en_name : string; en_record : pyval; en_legacy : bool }.
Abbreviation index := (odict string entry).

Definition credential_for (ix : index) (value : pyval) : option entry :=
  candidate ← _credential_bytes value;
  e ← mget ix (_credential_digest candidate);
  expected ← _credential_bytes (dget_or (dict_or_empty (en_record e)) "value" VNone);
  if String.eqb candidate expected then Some e else None.

Definition owner (p : principal) : string := p_type p +:+ ":" +:+ p_id p.

Definition _strict_set (ix : index) (value : pyval) (e : entry) : res index :=
  match _credential_bytes value with
  | None => Ok ix
  | Some candidate =>
      match mget ix (_credential_digest candidate) with
      | Some old => Err (DuplicateCredentialError ("duplicate credential digest owned by " +:+ owner (en_principal old) +:+ " and " +:+ owner (en_principal e)))
      | None => Ok (mset ix (_credential_digest candidate) e)
      end
  end.

(** A record that holds a value goes into the index. *)
Definition index_record (p : principal) (name : string) (legacy : bool) (ix : index) (rec : pyval) : res index :=
  let* has := has_value rec in
  if (has : bool) then let* value := item rec "value" in _strict_set ix value (Entry p name rec legacy) else Ok ix.

(** [if rec and "value" in rec] *)
Definition index_present (p : principal) (name : string) (ix : index) (rec : pyval) : res index :=
  if truth rec then index_record p name false ix rec else Ok ix.

Definition items (v : pyval) : res dict := match v with VDict d => Ok d | _ => Err (AttributeError "items") end.

Definition build_announce_index (store : dict) : res index :=
  let* devices := items (dget_or store "devices" (VDict [])) in
  let* ix := res_fold (fun ix ds =>
    let* rec := getattr_get (snd ds) "announce_token" VNone in
    index_present (Principal "device" (fst ds)) "announce_token" ix rec) [] devices in
  let seeder := dget_or store "seeder" (VDict []) in
  let* cur := getattr_get seeder "announce_token" VNone in
  let* ix := index_present (Principal "service" "seeder") "announce_token" ix cur in
  let* previous := getattr_get seeder "announce_token_previous" (VList []) in
  let* previous := iterate previous in
  res_fold (index_record (Principal "service" "seeder") "announce_token_previous" true) ix previous.

Definition build_catalog_auth_index (store : dict) : res index :=
  let* devices := items (dget_or store "devices" (VDict [])) in
  res_fold (fun ix ds =>
    res_fold (fun ix name =>
      let* rec := getattr_get (snd ds) name VNone in
      index_present (Principal "device" (fst ds)) name ix rec) ix ["catalog_token"; "catalog_token_prev"]) [] devices.

Definition device_announce_value (store : dict) (device_id : string) (now : pyfloat) (grace : Z) : res pyval :=
  let* secrets := getattr_get (dget_or store "devices" (VDict [])) device_id (VDict []) in
  let* rec := getattr_get secrets "announce_token" VNone in
  match rec with
  | VDict d => let* ok := valid rec now grace in Ok (if (ok : bool) then dget_or d "value" VNone else VNone)
  | _ => Ok VNone
  end.

(** ** The broad index *)

Abbreviation inventory := (list (pyval * (string * string))).

(** [index[value] = owner]; an unhashable value is passed over. *)
Fixpoint inventory_set (ix : inventory) (value : pyval) (who : string * string) : inventory :=
  match ix with
  | [] => [(value, who)]
  | (k, w) :: ix => if py_eq k value then (k, who) :: ix else (k, w) :: inventory_set ix value who
  end.

Definition inventory_add (device_id : string) (ix : inventory) (nr : string * pyval) : inventory :=
  match snd nr with
  | VDict d => match dget d "value" with Some v => if hashable v then inventory_set ix v (device_id, fst nr) else ix | None => ix end
  | _ => ix
  end.

Definition build_index (store : dict) : inventory :=
  let devices := dict_or_empty (dget_or store "devices" (VDict [])) in
  let ix := foldl (fun ix ds => foldl (inventory_add (fst ds)) ix (dict_or_empty (snd ds))) [] devices in
  foldl (inventory_add "seeder") ix (dict_or_empty (dget_or store "seeder" (VDict []))).

Definition inventory_get (ix : inventory) (value : pyval) : option (string * string) :=
  snd <$> List.find (fun kw => py_eq (fst kw) value) ix.

Definition record_for (ix : inventory) (store : dict) (value : string) : res (option (string * string * pyval)) :=
  match inventory_get ix (VStr value) with
  | None => Ok None
  | Some (device_id, name) =>
      let* record :=
        if String.eqb device_id "seeder" then let* seeder := item (VDict store) "seeder" in getattr_get seeder name VNone
        else
          let* devices := item (VDict store) "devices" in
          let* secrets := getattr_get devices device_id (VDict []) in
          getattr_get secrets name VNone in
      Ok (match record with VNone => None | r => Some (device_id, name, r) end)
  end.

(** ** Instruction keys *)

Definition _INSTRUCTION_RECORD_FIELDS : list string := ["value"; "key_id"; "created_at"; "expires_at"; "revoked"; "_scope"].

Definition _canonical_hex (value : pyval) (n : Z) : bool := match value with VStr s => hex_re n s | _ => false end.

(** [hashlib.sha256(bytes.fromhex(value)).hexdigest()] *)
Definition key_id_of (value : string) : option string :=
  b ← unhexlify (bytes_of value); Some (sha256_hexdigest (string_of b)).

Definition bad_record : pyexn := InstructionKeyError "invalid instruction key record".

Definition validate_instruction_key_record (record : pyval) (previous : bool) : res dict :=
  match record with
  | VDict d =>
      raise bad_record when negb (keys_are d _INSTRUCTION_RECORD_FIELDS);;;
      let value := dget_or d "value" VNone in
      let key_id := dget_or d "key_id" VNone in
      raise bad_record when negb (_canonical_hex value 64) || negb (_canonical_hex key_id 64);;;
      match key_id_of (text_of value) with
      | None => Err bad_record
      | Some expected =>
          raise bad_record when negb (py_eq key_id (VStr expected));;;
          match dget_or d "created_at" VNone, dget_or d "expires_at" VNone with
          | VInt created_at, VInt expires_at =>
              raise bad_record when (created_at <? 0);;;
              raise bad_record when (expires_at <=? created_at);;;
              raise bad_record when negb previous && negb (expires_at =? created_at + INSTR_KEY_TTL);;;
              raise bad_record when negb (is_bool (dget_or d "revoked" VNone));;;
              raise bad_record when negb (py_eq (dget_or d "_scope" VNone) (VStr "instructions"));;;
              Ok d
          | _, _ => Err bad_record
          end
      end
  | _ => Err bad_record
  end.

(** [previous] is [None] when there is no previous record. *)
Definition validate_instruction_key_pair (current : pyval) (previous : option pyval) : res (dict * option dict) :=
  let* current := validate_instruction_key_record current false in
  match previous with
  | None => Ok (current, None)
  | Some previous =>
      let* previous := validate_instruction_key_record previous true in
      raise (InstructionKeyError "invalid instruction key relationship") when
        py_eq (dget_or current "key_id" VNone) (dget_or previous "key_id" VNone) ||
        py_eq (dget_or current "value" VNone) (dget_or previous "value" VNone);;;
      Ok (current, Some previous)
  end.

Definition instruction_key_projection (record : pyval) (now : option pyfloat) (previous : bool) : res (option dict) :=
  let* d := validate_instruction_key_record record previous in
  if truth (dget_or d "revoked" VNone) then Ok None
  else
    let over :=
      match now with
      | None => true
      | Some now => match num_of (dget_or d "expires_at" VNone) with Some e => num_leb e now | None => true end
      end in
    if previous && over then Ok None
    else Ok (Some [("value", dget_or d "value" VNone); ("key_id", dget_or d "key_id" VNone)]).

(** ** Operations *)

Section store.
Context (DEFAULT_TTL SEEDER_PREV_TTL : Z).

Definition SECRET_TYPES : list (string * secret_type) :=
  [("catalog_token", SecretType "catalog" DEFAULT_TTL 128); ("announce_token", SecretType "announce" 0 128);
   ("rpc_secret", SecretType "local" 0 128); ("instr_key", SecretType "instructions" INSTR_KEY_TTL 256)].

Definition _stamp_previous_expiry (record : dict) : res dict :=
  if truth (dget_or record "expires_at" VNone) then Ok record
  else
    let rotated := dget_or record "rotated_at" VNone in
    let anchor := if truth rotated then rotated else dget_or record "created_at" VNone in
    match int_value anchor with
    | Ok z => Ok (dset record "expires_at" (VInt (Z.max 1 (z + SEEDER_PREV_TTL))))
    | Err (TypeError _) | Err (ValueError _) => Ok (dset record "expires_at" (VInt 1))
    | Err e => Err e
    end.

Definition stamp (rec : pyval) : res pyval :=
  match rec with VDict d => let* d := _stamp_previous_expiry d in Ok (VDict d) | v => Ok v end.

Fixpoint res_filter {A} (f : A -> res bool) (l : list A) : res (list A) :=
  match l with
  | [] => Ok []
  | x :: l => let* keep := f x in let* rest := res_filter f l in Ok (if (keep : bool) then x :: rest else rest)
  end.

Definition with_previous (store : dict) (seeder : dict) (prev : list pyval) : dict :=
  dset store "seeder" (VDict (dset seeder "announce_token_previous" (VList prev))).

Definition _prune_previous_on_load (store : dict) : res dict :=
  match dget_or store "seeder" (VDict []) with
  | VDict seeder =>
      match dget_or seeder "announce_token_previous" VNone with
      | VList prev =>
          let* prev := res_map stamp prev in
          let* kept := res_filter (fun r => let* v := getattr_get r "revoked" VNone in Ok (negb (truth v))) prev in
          Ok (with_previous store seeder kept)
      | _ => Ok store
      end
  | _ => Err (AttributeError "get")
  end.

Definition load (path : string) (f : option sfile) (require_existing : bool) : res dict :=
  let unreadable why := Err (StoreCorruptError ("secrets store " +:+ path +:+ " is unreadable (" +:+ why +:+ ")")) in
  match f with
  | None =>
      if require_existing then Err (StoreCorruptError ("secrets store " +:+ path +:+ " is unavailable (FileNotFoundError)"))
      else Ok [("devices", VDict []); ("seeder", VDict [])]
  | Some SText => unreadable "JSONDecodeError"
  | Some (SJson (VDict data)) =>
      raise (StoreCorruptError ("secrets store " +:+ path +:+ " has no devices authority")) when require_existing && negb (dhas data "devices");;;
      _prune_previous_on_load (dsetdefault (dsetdefault data "devices" (VDict [])) "seeder" (VDict []))
  | Some (SJson _) => unreadable "ValueError"
  end.

Definition save (store : dict) : option sfile := Some (SJson (sort_keys (VDict store))).

(** The records that stay, and how many were dropped. *)
Definition retire_expired_previous (store : dict) (now : pyfloat) : res (Z * dict) :=
  match dget_or store "seeder" (VDict []) with
  | VDict seeder =>
      match dget_or seeder "announce_token_previous" VNone with
      | VList prev =>
          let* prev := res_map stamp prev in
          let* kept := res_filter (fun r => if is_dict r then valid r now 0 else Ok false) prev in
          Ok (zlen prev - zlen kept, with_previous store seeder kept)
      | _ => Ok (0, store)
      end
  | _ => Err (AttributeError "get")
  end.

(** The values and key ids a new secret must differ from. *)
Definition existing_values (store : dict) : res (list pyval) :=
  let* previous := getattr_get (dget_or store "seeder" (VDict [])) "announce_token_previous" (VList []) in
  let* previous := iterate previous in
  Ok (map fst (build_index store) ++
      omap (fun rec => match rec with VDict d => let v := dget_or d "value" VNone in if truth v && hashable v then Some v else None | _ => None end) previous).

Definition existing_ids (store : dict) : list string :=
  flat_map (fun ds =>
    omap (fun nr => match snd nr with VDict d => as_str (dget_or d "key_id" VNone) | _ => None end) (dict_or_empty (snd ds)))
    (dict_or_empty (dget_or store "devices" (VDict []))).

(** At most [attempts] draws. *)
Fixpoint fresh_value (attempts i : nat) (draw : nat -> string) (instr : bool) (values : list pyval) (ids : list string) : res (string * option string) :=
  match attempts with
  | O => Err (CredentialMintError "unable to mint unique credential")
  | S attempts =>
      let value := draw i in
      let again := fresh_value attempts (S i) draw instr values ids in
      if existsb (py_eq (VStr value)) values then again
      else if instr then
        if negb (_canonical_hex (VStr value) 64) then Err (CredentialMintError "credential generator returned invalid data")
        else
          match key_id_of value with
          | None => Err (ValueError "non-hexadecimal number")
          | Some id => if existsb (String.eqb id) ids then again else Ok (value, Some id)
          end
      else Ok (value, None)
  end.

Definition new_record (value : string) (now ttl : Z) (key_id : option string) : dict :=
  [("value", VStr value); ("created_at", VInt now); ("expires_at", VInt (if ttl =? 0 then 0 else now + ttl)); ("revoked", VBool false)] ++
  match key_id with Some id => [("key_id", VStr id); ("_scope", VStr "instructions")] | None => [] end.

(** [store["seeder"][name] = record], or the same under the device. *)
Definition put_record (store : dict) (device_id name : string) (record : dict) : res dict :=
  if String.eqb device_id "seeder" then
    let* seeder := item (VDict store) "seeder" in
    match seeder with
    | VDict d => Ok (dset store "seeder" (VDict (dset d name (VDict record))))
    | _ => Err (TypeError "item assignment")
    end
  else
    let* devices := item (VDict store) "devices" in
    match devices with
    | VDict ds =>
        match dget_or ds device_id (VDict []) with
        | VDict d => Ok (dset store "devices" (VDict (dset ds device_id (VDict (dset d name (VDict record))))))
        | _ => Err (TypeError "item assignment")
        end
    | _ => Err (AttributeError "setdefault")
    end.

Definition mint (draw : nat -> string) (store : dict) (device_id name : string) (now : pyfloat) : res (string * dict) :=
  match dget SECRET_TYPES name, dget _SECRET_BITS name with
  | None, _ => Err (CredentialMintError "unsupported secret type")
  | Some _, None => Err (CredentialMintError "unsupported secret bit count")
  | Some ty, Some bits =>
      raise (CredentialMintError "unsupported secret bit count") when negb (ty_bits ty =? bits) || negb ((bits =? 128) || (bits =? 256));;;
      let* values := existing_values store in
      let* (value, key_id) := fresh_value 128 0 draw (String.eqb name "instr_key") values (existing_ids store) in
      let* inow := int_value (VFloat now) in
      let* store := put_record store device_id name (new_record value inow (ty_ttl ty) key_id) in
      Ok (value, store)
  end.

(** ** Rotation *)

(** [any(isinstance(r, dict) and r.get("revoked") for r in records.values())] *)
Definition any_revoked (records : dict) : bool :=
  existsb (fun nr => match snd nr with VDict d => truth (dget_or d "revoked" VNone) | _ => false end) records.

Definition rotate_instruction_key (draw : nat -> string) (store : dict) (device_id : string) (now : pyfloat) (no_overlap : bool)
    : res (pyval * dict) :=
  raise (InstructionKeyError "invalid instruction key device") when String.eqb device_id "" || String.eqb device_id "seeder";;;
  match dget_or store "devices" VNone with
  | VDict devices =>
      match dget devices device_id with
      | None => Err (InstructionKeyError "instruction key device not found")
      | Some (VDict records) =>
          raise (InstructionKeyError "instruction key rotation refused: device revoked") when any_revoked records;;;
          match dget records "instr_key" with
          | None => Err (InstructionKeyError "instruction key is missing")
          | Some key =>
              let* (current, previous) := validate_instruction_key_pair key (dget records "instr_key_prev") in
              raise (InstructionKeyError "instruction key rotation refused: device revoked") when
                match previous with Some p => truth (dget_or p "revoked" VNone) | None => false end;;;
              let* inow :=
                match int_value (VFloat now) with
                | Ok z => Ok z
                | Err _ => Err (InstructionKeyError "invalid instruction key rotation time")
                end in
              raise (InstructionKeyError "invalid instruction key rotation time") when (inow <? 0);;;
              raise (InstructionKeyError "previous instruction key overlap is active") when
                negb no_overlap && match previous with Some p => inow <? int_of (dget_or p "expires_at" VNone) | None => false end;;;
              raise (InstructionKeyError "invalid instruction key rotation time") when
                negb no_overlap && (inow + INSTR_KEY_PREV_TTL <=? int_of (dget_or current "created_at" VNone));;;
              let archived := dset current "expires_at" (VInt (inow + INSTR_KEY_PREV_TTL)) in
              let popped := dset store "devices" (VDict (dset devices device_id (VDict (dpop records "instr_key_prev")))) in
              let* (_, store) := mint draw popped device_id "instr_key" (FFin inow 0) in
              let* store := if no_overlap then Ok store else put_record store device_id "instr_key_prev" archived in
              let* devices := item (VDict store) "devices" in
              let* records := item devices device_id in
              let* key := item records "instr_key" in
              let* id := item key "key_id" in
              Ok (id, store)
          end
      | Some _ => Err (InstructionKeyError "invalid instruction key state")
      end
  | _ => Err (InstructionKeyError "instruction key device not found")
  end.

(** The expiry set on the old record is not in the result: [mint] overwrites its place. *)
Definition rotate_catalog (draw : nat -> string) (store : dict) (device_id : string) (now : pyfloat) (overlap : Z) : res (string * dict) :=
  let* devices := item (VDict store) "devices" in
  let* secrets := getattr_get devices device_id (VDict []) in
  let* old := getattr_get secrets "catalog_token" VNone in
  let* store :=
    match old with
    | VNone => Ok store
    | VDict d =>
        let* inow := int_value (VFloat now) in
        put_record store device_id "catalog_token" (dset d "expires_at" (VInt (inow + overlap)))
    | _ => Err (TypeError "item assignment")
    end in
  mint draw store device_id "catalog_token" now.

Definition revoke_record (rec : pyval) : pyval := match rec with VDict d => VDict (dset d "revoked" (VBool true)) | v => v end.

Definition revoke (store : dict) (device_id : string) : res dict :=
  let* devices := item (VDict store) "devices" in
  match devices with
  | VDict ds =>
      match dget ds device_id with
      | None | Some VNone => Ok store
      | Some (VDict d) => Ok (dset store "devices" (VDict (dset ds device_id (VDict (map (fun nr => (fst nr, revoke_record (snd nr))) d)))))
      | Some _ => Err (AttributeError "values")
      end
  | _ => Err (AttributeError "get")
  end.

Definition revoked_device_principals (store : dict) : list string :=
  match dget_or store "devices" (VDict []) with
  | VDict devices =>
      omap (fun ds =>
        match snd ds with
        | VDict ((_ :: _) as records) =>
            if forallb (fun nr => match snd nr with VDict d => truth (dget_or d "revoked" VNone) | _ => false end) records
            then Some ("device:" +:+ fst ds) else None
        | _ => None
        end) devices
  | _ => []
  end.

Definition archive (current : dict) (now : Z) (record_id : string) : dict :=
  let d := dset (dset current "rotated_at" (VInt now)) "record_id" (VStr record_id) in
  dset (dsetdefault d "revoked" (VBool false)) "expires_at" (VInt (Z.max 1 (now + SEEDER_PREV_TTL))).

Definition rotate_announce (draw : nat -> string) (record_id : string) (store : dict) (now : pyfloat) : res (string * dict) :=
  match dget_or store "seeder" (VDict []) with
  | VDict seeder =>
      let seeder := dsetdefault seeder "announce_token_previous" (VList []) in
      let* (_, store) := retire_expired_previous (dset store "seeder" (VDict seeder)) now in
      let seeder := dict_or_empty (dget_or store "seeder" VNone) in
      let prev := dget_or seeder "announce_token_previous" VNone in
      let* records := match prev with VList _ | VDict _ | VStr _ => iterate prev | _ => Err (TypeError "not iterable") end in
      let* live := res_filter (fun r => valid r now 0) records in
      raise (ValueError "cannot rotate: previous credentials are still valid") when (SEEDER_PREV_CAP <=? zlen live);;;
      let* store :=
        match dget_or seeder "announce_token" VNone with
        | VNone => Ok store
        | current =>
            let* has := has_value current in
            if negb has then Ok store
            else
              match current, prev with
              | VDict d, VList prev => let* inow := int_value (VFloat now) in Ok (with_previous store seeder (VDict (archive d inow record_id) :: prev))
              | VDict _, _ => Err (AttributeError "insert")
              | _, _ => Err (ValueError "dictionary update sequence")
              end
        end in
      mint draw store "seeder" "announce_token" now
  | _ => Err (AttributeError "setdefault")
  end.

(** [rec[k] == v] of the previous records: the first that matches is revoked. *)
Fixpoint revoke_first (k : string) (v : pyval) (l : list pyval) : res (list pyval) :=
  match l with
  | [] => Ok []
  | r :: l =>
      let* x := getattr_get r k VNone in
      if py_eq x v then Ok (revoke_record r :: l) else let* l := revoke_first k v l in Ok (r :: l)
  end.

Definition revoke_previous (store : dict) (k : string) (v : pyval) : res dict :=
  match dget_or store "seeder" (VDict []) with
  | VDict seeder =>
      let prev := dget_or seeder "announce_token_previous" (VList []) in
      let* records := iterate prev in
      let* records := revoke_first k v records in
      Ok (match prev with VList (_ :: _) => with_previous store seeder records | _ => store end)
  | _ => Err (AttributeError "get")
  end.

Definition revoke_announce_value (store : dict) (value : pyval) : res dict :=
  match dget_or store "seeder" (VDict []) with
  | VDict seeder =>
      match dget_or seeder "announce_token" VNone with
      | VNone => revoke_previous store "value" value
      | VDict d =>
          if py_eq (dget_or d "value" VNone) value then Ok (dset store "seeder" (VDict (dset seeder "announce_token" (revoke_record (VDict d)))))
          else revoke_previous store "value" value
      | _ => Err (AttributeError "get")
      end
  | _ => Err (AttributeError "get")
  end.

Definition revoke_announce_record (store : dict) (record_id : pyval) : res dict := revoke_previous store "record_id" record_id.
End store.
