(* ===== verification/Auth.v ===== *)
(** * [server/auth.py]: who presents a credential

    Resolution of announce and catalog credentials over the strict indexes of the
    credential store, and the older checks over the broad index. *)
From S2P Require Import Prelude PyVal PolicyEval Odict Tracker UrlText Secrets.

Record AuthContext := AuthCtx { ac_principal : principal; ac_secret_name : string; ac_scope : string }.

Definition _DEDICATED_PARAM : string := "announce_token".
Definition _LEGACY_PARAM : string := "key".

Definition _raw_pairs (query : string) : list (string * string) := parse_qsl true query.

Definition values_of (name : string) (pairs : list (string * string)) : list string :=
  map snd (filter (fun kv => fst kv = name) pairs).

Section resolve.
Context (ix : index) (now : pyfloat) (grace : Z).

Definition _resolve_valid_credential (value : string) : res (option (principal * string * bool)) :=
  match credential_for ix (VStr value) with
  | None => Ok None
  | Some e => let* ok := valid (en_record e) now grace in Ok (if (ok : bool) then Some (en_principal e, en_name e, en_legacy e) else None)
  end.

(** [expires_at != 0 and now >= expires_at + grace] of a record that is not revoked. *)
Definition expired (record : pyval) : res bool :=
  let* revoked := getattr_get record "revoked" VNone in
  if truth revoked then Ok false
  else
    let* expires_at := getattr_get record "expires_at" (VInt 0) in
    if py_eq expires_at (VInt 0) then Ok false
    else let* deadline := plus_int expires_at grace in Ok (num_leb deadline now).

Definition _known_expired (value : string) : res bool :=
  match credential_for ix (VStr value) with None => Ok false | Some e => expired (en_record e) end.

Definition _context (resolved : principal * string * bool) (legacy_id : string) : AuthContext :=
  let '(p, name, legacy) := resolved in
  AuthCtx (if (legacy : bool) then Principal "legacy" legacy_id else p) name "announce".

(** The values of [key=] that resolve, and the one that decides. *)
Definition legacy_scan (values : list string) (legacy_id : string) : res AuthContext :=
  let* hits := res_map _resolve_valid_credential values in
  match omap id hits with
  | [resolved] => Ok (_context resolved legacy_id)
  | [] =>
      let* known := res_existsb _known_expired values in
      Err (AnnounceAuthError "no valid announce credential" known)
  | _ => Err (AnnounceAuthError "ambiguous announce credential: multiple valid legacy keys" false)
  end.

Definition resolve_announce_principal (query : string) (legacy_id : string) : res AuthContext :=
  let pairs := _raw_pairs query in
  match values_of _DEDICATED_PARAM pairs with
  | _ :: _ :: _ => Err (AnnounceAuthError "ambiguous announce credential: multiple announce_token parameters" false)
  | [String c rest] =>
      let value := String c rest in
      let* resolved := _resolve_valid_credential value in
      match resolved with
      | Some resolved => Ok (_context resolved legacy_id)
      | None => let* known := _known_expired value in Err (AnnounceAuthError "invalid announce credential" known)
      end
  | _ => legacy_scan (remove_dups (filter (fun v => v <> "") (values_of _LEGACY_PARAM pairs))) legacy_id
  end.

Definition resolve_announce_bearer (token : option string) (legacy_id : string) : res AuthContext :=
  match token with
  | None | Some "" => Err (AnnounceAuthError "missing announce credential" false)
  | Some token =>
      match credential_for ix (VStr token) with
      | None => Err (AnnounceAuthError "invalid announce credential" false)
      | Some e =>
          let* ok := valid (en_record e) now grace in
          if (ok : bool) then Ok (_context (en_principal e, en_name e, en_legacy e) legacy_id)
          else let* known := expired (en_record e) in Err (AnnounceAuthError "invalid announce credential" known)
      end
  end.

Definition resolve_catalog_auth (token : pyval) : res (option AuthContext) :=
  match credential_for ix token with
  | None => Ok None
  | Some e => let* ok := valid (en_record e) now grace in Ok (if (ok : bool) then Some (AuthCtx (en_principal e) (en_name e) "catalog") else None)
  end.
End resolve.

(** ** Checks over the broad index *)

Section broad.
Context (DEFAULT_TTL : Z) (ix : inventory) (store : dict) (now : pyfloat) (grace : Z).

Definition has_scope (name scope : string) : bool :=
  match dget (SECRET_TYPES DEFAULT_TTL) name with Some ty => String.eqb (ty_scope ty) scope | None => false end.

Definition authorize (token device_id scope : string) : res bool :=
  let* found := record_for ix store token in
  match found with
  | None => Ok false
  | Some (owner_id, name, record) =>
      let* ok := valid record now grace in
      Ok (ok && String.eqb owner_id device_id && has_scope name scope)
  end.

(** [parse_qs(query).get("key", [None])[0]] *)
Definition check_announce_key (query : string) : res bool :=
  match values_of "key" (parse_qsl false query) with
  | [] => Ok false
  | key :: _ =>
      let* found := record_for ix store key in
      match found with
      | None => Ok false
      | Some (_, name, record) => let* ok := valid record now grace in Ok (ok && has_scope name "announce")
      end
  end.
End broad.
