(* ===== verification/AuthSpec.v ===== *)
(** * Authentication

    A request is authenticated as the owner of a record on file that holds the presented
    value and is neither revoked nor expired, and as nobody else; revoking a device ends
    every credential it has and no other. *)
From S2P Require Import Prelude PyVal PolicyDoc Sha256 PolicyEval SchedTime Odict PeerRegistry Tracker UrlText Secrets Auth.

(** ** What a credential authenticates

    The strict indexes answer as a scan over the records of the store would, whatever
    SHA-256 does: equal digests are refused when the index is built, and the value itself
    is compared at every lookup. *)

Lemma bind_ok {A B} (m : res A) (k : A -> res B) b : (let* a := m in k a) = Ok b <-> exists a, m = Ok a /\ k a = Ok b.
Proof. destruct m as [a | e]; cbn; [split; [by exists a | by intros (? & [= <-] & ?)] | split; [discriminate | by intros (? & ? & _)]]. Qed.

(** ** Indexes over a list of entries *)

Definition value_of (e : entry) : pyval := dget_or (dict_or_empty (en_record e)) "value" VNone.
Definition holds (s : string) (e : entry) : Prop := _credential_bytes (value_of e) = Some s.

Definition add_entry (ix : index) (e : entry) : res index := _strict_set ix (value_of e) e.
Definition index_of (es : list entry) : res index := res_fold add_entry [] es.

Definition digest_of (e : entry) : option string := _credential_digest <$> _credential_bytes (value_of e).

Lemma add_entry_ok ix e ix' : add_entry ix e = Ok ix' <->
  match digest_of e with None => ix' = ix | Some d => mget ix d = None /\ ix' = mset ix d e end.
Proof.
  unfold add_entry, _strict_set, digest_of. destruct (_credential_bytes (value_of e)) as [s |]; cbn; [| split; congruence].
  destruct (mget ix (_credential_digest s)) as [old |]; [split; [discriminate | by intros []] |]. split; [by intros [= <-] | by intros [_ ->]].
Qed.

Lemma fold_entries ix es ix' : res_fold add_entry ix es = Ok ix' ->
  forall d e, mget ix' d = Some e <-> mget ix d = Some e \/ (e ∈ es /\ digest_of e = Some d).
Proof.
  revert ix. induction es as [| e es IH]; intros ix H; cbn in H.
  { injection H as <-. intros d e. split; [by left |]. intros [H | [H _]]; [done | by apply elem_of_nil in H]. }
  destruct (add_entry ix e) as [ix1 |] eqn:E; [| discriminate H]. cbn in H. apply add_entry_ok in E.
  assert (Hget : forall d x, mget ix1 d = Some x <-> mget ix d = Some x \/ (x = e /\ digest_of e = Some d)).
  { intros d x. destruct (digest_of e) as [de |] eqn:Ed; [| subst ix1; naive_solver]. destruct E as [En ->]. rewrite mget_mset.
    destruct (decide (de = d)) as [-> |]; [| naive_solver]. rewrite En. naive_solver. }
  intros d x. rewrite (IH _ H), Hget, elem_of_cons. split; [intros [[H1 | [-> H1]] | [Hx H1]]; auto | intros [H1 | [[-> | Hx] H1]]; auto].
Qed.

(** The index builds when, and only when, no two entries have the same digest. *)
Lemma fold_entries_iff ix es : (exists ix', res_fold add_entry ix es = Ok ix') <->
  NoDup (omap digest_of es) /\ forall d, d ∈ omap digest_of es -> mget ix d = None.
Proof.
  revert ix. induction es as [| e es IH]; intros ix; cbn [res_fold].
  { split; [| by eexists]. intros _. split; [constructor | intros d Hd; by apply elem_of_nil in Hd]. }
  change (omap digest_of (e :: es)) with (match digest_of e with Some d => d :: omap digest_of es | None => omap digest_of es end).
  setoid_rewrite bind_ok. setoid_rewrite add_entry_ok. destruct (digest_of e) as [de |].
  - rewrite NoDup_cons. setoid_rewrite elem_of_cons. split.
    + intros (ix' & ix1 & [Hn ->] & H). destruct (proj1 (IH (mset ix de e))) as [Hd Hg]; [by exists ix' |]. split.
      * split; [| done]. intros Hin. specialize (Hg de Hin). by rewrite mget_mset_eq in Hg.
      * intros d [-> | Hin]; [done |]. specialize (Hg d Hin). rewrite mget_mset in Hg. by destruct (decide (de = d)).
    + intros [[Hde Hd] Hg]. destruct (proj2 (IH (mset ix de e))) as [ix' H]; [| exists ix', (mset ix de e); split; [split; [apply Hg; by left | done] | done]].
      split; [done |]. intros d Hin. rewrite mget_mset, decide_False by (by intros <-). apply Hg. by right.
  - rewrite <- IH. split; [intros (ix' & ix1 & -> & H); by exists ix' | intros [ix' H]; by exists ix', ix].
Qed.

Lemma index_builds es : (exists ix, index_of es = Ok ix) <-> NoDup (omap digest_of es).
Proof. unfold index_of. rewrite fold_entries_iff. split; [by intros [? _] | by intros]. Qed.

Lemma credential_for_spec es ix s e : index_of es = Ok ix -> credential_for ix (VStr s) = Some e <-> e ∈ es /\ holds s e.
Proof.
  intros H. pose proof (fold_entries _ _ _ H) as H'. clear H. rename H' into H. cbn in H. unfold credential_for, holds. split.
  - intros Hc. destruct (_credential_bytes (VStr s)) as [c |] eqn:Ec; [| discriminate Hc]. cbn in Hc.
    destruct (mget ix (_credential_digest c)) as [x |] eqn:Ex; [| discriminate Hc]. cbn in Hc. fold (value_of x) in Hc.
    destruct (_credential_bytes (value_of x)) as [v |] eqn:Ev; [| discriminate Hc]. cbn in Hc.
    destruct (String.eqb_spec c v) as [-> |]; [| discriminate Hc]. injection Hc as ->.
    apply H in Ex as [Ex | [Ex _]]; [discriminate Ex |]. split; [done |]. unfold _credential_bytes in Ec. destruct (String.eqb s ""); congruence.
  - intros [Hin Hh]. assert (Hs : _credential_bytes (VStr s) = Some s).
    { unfold _credential_bytes in Hh |- *. destruct (value_of e) as [| | | | t | |]; try discriminate Hh. destruct (String.eqb t "") eqn:Et; [discriminate Hh |]. injection Hh as ->. by rewrite Et. }
    rewrite Hs. cbn. assert (Hd : mget ix (_credential_digest s) = Some e) by (apply H; right; split; [done | unfold digest_of; by rewrite Hh]).
    rewrite Hd. cbn. fold (value_of e). rewrite Hh. cbn. by rewrite String.eqb_refl.
Qed.

(** ** The records of a store *)

Definition rec_entries (p : principal) (name : string) (legacy : bool) (rec : pyval) : list entry :=
  match rec with VDict d => if dhas d "value" then [Entry p name rec legacy] else [] | _ => [] end.

Definition devices_of (store : dict) : dict := dict_or_empty (dget_or store "devices" (VDict [])).
Definition seeder_of (store : dict) : dict := dict_or_empty (dget_or store "seeder" (VDict [])).
Definition previous_of (store : dict) : list pyval := match iterate (dget_or (seeder_of store) "announce_token_previous" (VList [])) with Ok l => l | Err _ => [] end.
Definition current_of (store : dict) : pyval := dget_or (seeder_of store) "announce_token" VNone.

Definition device_entries (ds : string * pyval) (name : string) : list entry :=
  rec_entries (Principal "device" (fst ds)) name false (dget_or (dict_or_empty (snd ds)) name VNone).

Definition service : principal := Principal "service" "seeder".

(** Every announce credential on file, with its owner. *)
Definition announce_entries (store : dict) : list entry :=
  flat_map (fun ds => device_entries ds "announce_token") (devices_of store) ++
  rec_entries service "announce_token" false (current_of store) ++
  flat_map (rec_entries service "announce_token_previous" true) (previous_of store).

Definition CATALOG_NAMES : list string := ["catalog_token"; "catalog_token_prev"].
Definition catalog_entries (store : dict) : list entry := flat_map (fun ds => flat_map (device_entries ds) CATALOG_NAMES) (devices_of store).

(** The shapes the index builders do not raise on. *)
Definition record_shape (rec : pyval) : bool :=
  match rec with VDict _ => true | rec => match has_value rec with Ok false => true | _ => false end end.
Definition present_shape (rec : pyval) : bool := negb (truth rec) || record_shape rec.
Definition device_shape (ds : string * pyval) (name : string) : bool :=
  match snd ds with VDict d => present_shape (dget_or d name VNone) | _ => false end.

Definition announce_shape (store : dict) : bool :=
  is_dict (dget_or store "devices" (VDict [])) && forallb (fun ds => device_shape ds "announce_token") (devices_of store) &&
  is_dict (dget_or store "seeder" (VDict [])) && present_shape (current_of store) &&
  is_ok (iterate (dget_or (seeder_of store) "announce_token_previous" (VList []))) && forallb record_shape (previous_of store).

Definition catalog_shape (store : dict) : bool :=
  is_dict (dget_or store "devices" (VDict [])) && forallb (fun ds => forallb (device_shape ds) CATALOG_NAMES) (devices_of store).

(** A step that raises on a bad shape and otherwise adds entries. *)
Definition adds {A} (shape : A -> bool) (entries : A -> list entry) (f : index -> A -> res index) : Prop :=
  forall ix x ix', f ix x = Ok ix' <-> shape x = true /\ res_fold add_entry ix (entries x) = Ok ix'.

Lemma adds_fold {A} (shape : A -> bool) entries f : adds shape entries f -> adds (forallb shape) (flat_map entries) (res_fold f).
Proof.
  intros Hf ix l ix'. revert ix. induction l as [| x l IH]; intros ix; cbn [res_fold forallb flat_map]; [cbn; tauto |].
  rewrite bind_ok, res_fold_app, bind_ok, andb_true_iff. setoid_rewrite IH. setoid_rewrite (Hf ix x). naive_solver.
Qed.

Lemma adds_record p name legacy : adds record_shape (rec_entries p name legacy) (index_record p name legacy).
Proof.
  intros ix rec ix'. unfold index_record. destruct rec as [| | | | s | l | d]; cbn; try (split; [discriminate | by intros [? _]]).
  - destruct (String.index 0 "value" s); cbn; [split; [discriminate | by intros [? _]] | tauto].
  - destruct (existsb _ l); cbn; [split; [discriminate | by intros [? _]] | tauto].
  - destruct (dhas d "value") eqn:E; [| cbn; tauto]. unfold dhas in E. destruct (dget d "value") as [v |] eqn:Ev; [| discriminate E]. cbn.
    unfold add_entry, value_of. cbn. unfold dget_or. rewrite Ev. cbn. destruct (_strict_set _ _ _); cbn; tauto.
Qed.

Lemma adds_present p name : adds present_shape (rec_entries p name false) (index_present p name).
Proof.
  intros ix rec ix'. unfold present_shape, index_present. destruct (truth rec) eqn:E; [apply adds_record |].
  destruct rec as [| | | | | | [| ]]; cbn in *; try discriminate E; tauto.
Qed.

Lemma adds_device ds : adds (device_shape ds) (device_entries ds)
  (fun ix name => let* rec := getattr_get (snd ds) name VNone in index_present (Principal "device" (fst ds)) name ix rec).
Proof.
  intros ix name ix'. unfold device_shape, device_entries. destruct ds as [dev [| | | | | | d]]; cbn [fst snd]; try (split; [discriminate | by intros [? _]]).
  apply adds_present.
Qed.

Lemma build_announce_index_iff store ix :
  build_announce_index store = Ok ix <-> announce_shape store = true /\ index_of (announce_entries store) = Ok ix.
Proof.
  unfold build_announce_index, announce_shape, index_of, announce_entries, previous_of, current_of.
  destruct (dget_or store "devices" (VDict [])) as [| | | | | | ds] eqn:Ed; try (split; [discriminate | intros [Hx _]; discriminate Hx]).
  assert (devices_of store = ds) as -> by (unfold devices_of; by rewrite Ed). cbn [items is_dict mbind res_bind andb].
  assert (Ha : adds (fun ds => device_shape ds "announce_token") (fun ds => device_entries ds "announce_token")
    (fun ix ds => let* rec := getattr_get (snd ds) "announce_token" VNone in index_present (Principal "device" (fst ds)) "announce_token" ix rec))
    by (intros ix0 x ix'; apply (adds_device x)).
  rewrite !bind_ok, !res_fold_app, !bind_ok. setoid_rewrite res_fold_app. setoid_rewrite bind_ok. setoid_rewrite (adds_fold _ _ _ Ha [] ds).
  destruct (dget_or store "seeder" (VDict [])) as [| | | | | | sd] eqn:Es; cbn [getattr_get is_dict];
    try (split; [intros (? & _ & ? & Hx & _); discriminate Hx | rewrite andb_false_r; intros [Hx _]; discriminate Hx]).
  assert (seeder_of store = sd) as -> by (unfold seeder_of; by rewrite Es). rewrite andb_true_r. split.
  - intros (ix1 & [Hs1 H1] & cur & [= <-] & H). apply bind_ok in H as (ix2 & H2 & H). cbn [mbind res_bind] in H. apply bind_ok in H as (l & Hl & H).
    apply (adds_fold _ _ _ (adds_record service "announce_token_previous" true)) in H as [Hs3 H3].
    apply (adds_present service "announce_token") in H2 as [Hs2 H2]. rewrite Hs1, Hs2, Hl. cbn. split; [done |]. exists ix1. split; [exact H1 |]. by exists ix2.
  - intros [Hs (ix1 & H1 & ix2 & H2 & H3)]. bool_norm. destruct (iterate _) as [l |] eqn:Hl; [| done].
    exists ix1. split; [done |]. eexists. split; [reflexivity |]. apply bind_ok. exists ix2. split; [by apply (adds_present service "announce_token") |].
    cbn [mbind res_bind]. apply bind_ok. exists l. split; [done |]. by apply (adds_fold _ _ _ (adds_record service "announce_token_previous" true)).
Qed.

Lemma build_catalog_index_iff store ix :
  build_catalog_auth_index store = Ok ix <-> catalog_shape store = true /\ index_of (catalog_entries store) = Ok ix.
Proof.
  unfold build_catalog_auth_index, catalog_shape, index_of, catalog_entries.
  destruct (dget_or store "devices" (VDict [])) as [| | | | | | ds] eqn:Ed; try (split; [discriminate | intros [Hx _]; discriminate Hx]).
  assert (devices_of store = ds) as -> by (unfold devices_of; by rewrite Ed). cbn [items is_dict mbind res_bind andb].
  apply (adds_fold (fun x => forallb (device_shape x) CATALOG_NAMES) (fun x => flat_map (device_entries x) CATALOG_NAMES)).
  intros ix0 x ix'. apply (adds_fold _ _ _ (adds_device x)).
Qed.

(** ** A sample store *)

Definition sample_record (value : string) : pyval :=
  VDict [("value", VStr value); ("created_at", VInt 10); ("expires_at", VInt 0); ("revoked", VBool false)].

(** Two devices, and a seeder with a token of an earlier rotation. *)
Definition sample_store : dict :=
  [("devices", VDict [("e1", VDict [("announce_token", sample_record "t1"); ("catalog_token", sample_record "c1")]);
                      ("e2", VDict [("announce_token", sample_record "t2")])]);
   ("seeder", VDict [("announce_token", sample_record "s1");
                     ("announce_token_previous", VList [VDict [("value", VStr "s0"); ("rotated_at", VInt 5); ("expires_at", VInt 500); ("revoked", VBool false)]])])].

Definition sample_announce_index : index := match build_announce_index sample_store with Ok ix => ix | Err _ => [] end.
Definition sample_catalog_index : index := match build_catalog_auth_index sample_store with Ok ix => ix | Err _ => [] end.

Lemma sample_announce_built : build_announce_index sample_store = Ok sample_announce_index.
Proof. vm_compute. reflexivity. Qed.

Lemma sample_catalog_built : build_catalog_auth_index sample_store = Ok sample_catalog_index.
Proof. vm_compute. reflexivity. Qed.

Lemma sample_store_wf : wf_val (VDict sample_store).
Proof. repeat split; by_eval. Qed.

Definition live (es : list entry) (now : pyfloat) (grace : Z) (s : string) (e : entry) : Prop :=
  e ∈ es /\ holds s e /\ valid (en_record e) now grace = Ok true.

Definition context_of (e : entry) (legacy_id : string) : AuthContext := _context (en_principal e, en_name e, en_legacy e) legacy_id.

Section index.
Context (es : list entry) (ix : index) (built : index_of es = Ok ix) (now : pyfloat) (grace : Z).

Lemma one_owner s e e' : live es now grace s e -> live es now grace s e' -> e = e'.
Proof.
  intros (H1 & H2 & _) (H3 & H4 & _). apply (conj H1), (credential_for_spec es ix s e built) in H2. apply (conj H3), (credential_for_spec es ix s e' built) in H4. congruence.
Qed.

Lemma resolve_valid_iff s r : _resolve_valid_credential ix now grace s = Ok (Some r) <->
  exists e, live es now grace s e /\ r = (en_principal e, en_name e, en_legacy e).
Proof.
  unfold _resolve_valid_credential. split.
  - destruct (credential_for ix (VStr s)) as [e |] eqn:E; [| discriminate]. apply (credential_for_spec es ix s e built) in E as [H1 H2].
    destruct (valid (en_record e) now grace) as [[|] |] eqn:Ev; try discriminate. intros [= <-]. by exists e.
  - intros (e & (H1 & H2 & Hv) & ->). rewrite (proj2 (credential_for_spec es ix s e built) (conj H1 H2)), Hv. done.
Qed.

Lemma bearer_iff token lid ctx : resolve_announce_bearer ix now grace token lid = Ok ctx <->
  exists s e, token = Some s /\ live es now grace s e /\ ctx = context_of e lid.
Proof.
  unfold resolve_announce_bearer. split.
  - destruct token as [[| c s] |]; try discriminate. destruct (credential_for ix _) as [e |] eqn:E; [| discriminate].
    apply (credential_for_spec es ix _ e built) in E as [H1 H2]. destruct (valid (en_record e) now grace) as [[|] |] eqn:Ev; try discriminate.
    + intros [= <-]. exists (String c s), e. done.
    + cbn. by destruct (expired _ _ _).
  - intros (s & e & -> & (H1 & H2 & Hv) & ->). rewrite (proj2 (credential_for_spec es ix s e built) (conj H1 H2)), Hv. destruct s; [| done].
    exfalso. unfold holds, _credential_bytes in H2. destruct (value_of e) as [| | | | t | |]; try discriminate H2. by destruct (String.eqb_spec t ""); simplify_eq.
Qed.

Lemma catalog_iff s ctx : resolve_catalog_auth ix now grace (VStr s) = Ok (Some ctx) <->
  exists e, live es now grace s e /\ ctx = AuthCtx (en_principal e) (en_name e) "catalog".
Proof.
  unfold resolve_catalog_auth. split.
  - destruct (credential_for ix (VStr s)) as [e |] eqn:E; [| discriminate]. apply (credential_for_spec es ix s e built) in E as [H1 H2].
    destruct (valid (en_record e) now grace) as [[|] |] eqn:Ev; try discriminate. intros [= <-]. by exists e.
  - intros (e & (H1 & H2 & Hv) & ->). rewrite (proj2 (credential_for_spec es ix s e built) (conj H1 H2)), Hv. done.
Qed.

(** The value of the query that decides: the dedicated parameter when it is there and
    not blank, otherwise the one valid value among the keys. *)
Definition presents (pairs : list (string * string)) (s : string) : Prop :=
  values_of _DEDICATED_PARAM pairs = [s] \/
  (values_of _DEDICATED_PARAM pairs ∈ [[]; [""]] /\ s ∈ values_of _LEGACY_PARAM pairs /\
   forall s' e', s' ∈ values_of _LEGACY_PARAM pairs -> live es now grace s' e' -> s' = s).

Lemma scan_one values r : NoDup values -> (exists hits, res_map (_resolve_valid_credential ix now grace) values = Ok hits /\ omap id hits = [r]) ->
  exists s e, s ∈ values /\ live es now grace s e /\ r = (en_principal e, en_name e, en_legacy e) /\
    forall s' e', s' ∈ values -> live es now grace s' e' -> s' = s.
Proof.
  intros Hn (hits & Hm & Ho). apply res_map_ok in Hm. induction Hm as [| s h values hits Hs Hm IH]; [discriminate Ho |].
  apply NoDup_cons in Hn as [Hs' Hn]. change (omap id (h :: hits)) with (match h with Some x => x :: omap id hits | None => omap id hits end) in Ho.
  destruct h as [x |].
  - injection Ho as -> Hrest. apply resolve_valid_iff in Hs as (e & He & ->). exists s, e. split; [by left |]. split; [done |]. split; [done |].
    intros s2 e2 [-> | H2]%elem_of_cons Hl; [done |]. exfalso.
    assert (Hin : exists x, x ∈ hits /\ x = Some (en_principal e2, en_name e2, en_legacy e2)).
    { apply list_elem_of_lookup_1 in H2 as [i Hi]. destruct (Forall2_lookup_l _ _ _ _ _ Hm Hi) as (y & Hy & Hr). exists y. split; [by eapply list_elem_of_lookup_2 |].
      assert (Hr' : _resolve_valid_credential ix now grace s2 = Ok (Some (en_principal e2, en_name e2, en_legacy e2))) by (apply resolve_valid_iff; by exists e2). congruence. }
    destruct Hin as (x & Hx & ->). assert (Hc : (en_principal e2, en_name e2, en_legacy e2) ∈ omap id hits) by (apply list_elem_of_omap; by exists (Some (en_principal e2, en_name e2, en_legacy e2))).
    rewrite Hrest in Hc. by apply elem_of_nil in Hc.
  - destruct (IH Hn Ho) as (s1 & e & H1 & H2 & H3 & H4). exists s1, e. split; [by right |]. split; [done |]. split; [done |].
    intros s2 e2 [-> | Hin]%elem_of_cons Hl; [| by eapply H4]. exfalso.
    assert (Hr : _resolve_valid_credential ix now grace s = Ok (Some (en_principal e2, en_name e2, en_legacy e2))) by (apply resolve_valid_iff; by exists e2). congruence.
Qed.

Lemma query_sound query lid ctx : resolve_announce_principal ix now grace query lid = Ok ctx ->
  exists s e, presents (_raw_pairs query) s /\ live es now grace s e /\ ctx = context_of e lid.
Proof.
  unfold resolve_announce_principal. intros H.
  assert (Hscan : values_of _DEDICATED_PARAM (_raw_pairs query) ∈ [[]; [""]] ->
    legacy_scan ix now grace (remove_dups (filter (fun v => v <> "") (values_of _LEGACY_PARAM (_raw_pairs query)))) lid = Ok ctx ->
    exists s e, presents (_raw_pairs query) s /\ live es now grace s e /\ ctx = context_of e lid).
  { intros Hd Hs. unfold legacy_scan in Hs. apply bind_ok in Hs as (hits & Hm & Hs). destruct (omap id hits) as [| r [|]] eqn:Eo.
    - by destruct (res_existsb _ _).
    - injection Hs as <-. destruct (scan_one _ r (NoDup_remove_dups _) ltac:(by exists hits)) as (s & e & Hin & Hl & -> & Hu).
      rewrite elem_of_remove_dups, list_elem_of_filter in Hin. exists s, e. split; [| done]. right. split; [done |]. split; [by destruct Hin |].
      intros s' e' Hk Hl'. apply (Hu s' e'); [| done]. rewrite elem_of_remove_dups, list_elem_of_filter. split; [| done]. intros ->.
      destruct Hl' as (_ & Hh & _). unfold holds, _credential_bytes in Hh. destruct (value_of e') as [| | | | t | |]; try discriminate Hh. destruct (String.eqb_spec t ""); by simplify_eq.
    - discriminate Hs. }
  destruct (values_of _DEDICATED_PARAM (_raw_pairs query)) as [| [| c rest] [|]] eqn:Ed; try discriminate H.
  - apply Hscan; [by left | exact H].
  - apply Hscan; [right; by left | exact H].
  - apply bind_ok in H as ([r |] & Hr & H); [| by destruct (_known_expired _ _ _ _)]. injection H as <-.
    apply resolve_valid_iff in Hr as (e & He & ->). exists (String c rest), e. split; [left; exact Ed | done].
Qed.
End index.

(** ** Revocation *)

Lemma dset_map {B} (d : list (string * B)) k x y : NoDup (dkeys d) -> dget d k = Some x ->
  dset d k y = map (fun kv => if String.eqb (fst kv) k then (k, y) else kv) d.
Proof.
  induction d as [| [k' v] d IH]; intros Hn Hg; [discriminate Hg |]. cbn in Hn, Hg |- *. apply NoDup_cons in Hn as [Hk Hn]. destruct (String.eqb_spec k' k) as [-> |].
  - f_equal. symmetry. rewrite <- (map_id d) at 2. apply map_ext_in. intros [k2 v2] Hin. cbn. destruct (String.eqb_spec k2 k) as [-> |]; [| done].
    destruct Hk. apply (elem_dkeys _ _ v2). by apply list_elem_of_In.
  - f_equal. by apply IH.
Qed.

Definition revoked_entry (dev : string) (e : entry) : entry :=
  if decide (en_principal e = Principal "device" dev) then Entry (en_principal e) (en_name e) (revoke_record (en_record e)) (en_legacy e) else e.

Lemma revoked_value dev e : value_of (revoked_entry dev e) = value_of e.
Proof.
  unfold revoked_entry. destruct (decide _); [| done]. unfold value_of. cbn. destruct (en_record e) as [| | | | | | d]; try done. cbn.
  unfold dget_or. by rewrite dget_dset_ne.
Qed.

Definition revoke_all (d : dict) : dict := map (fun nr => (fst nr, revoke_record (snd nr))) d.

Lemma dget_revoke_all d name : dget_or (revoke_all d) name VNone = revoke_record (dget_or d name VNone).
Proof.
  unfold dget_or. assert (dget (revoke_all d) name = revoke_record <$> dget d name) as ->; [| by destruct (dget d name)].
  induction d as [| [k v] d IH]; [done |]. cbn. by destruct (String.eqb k name).
Qed.

(** The records of one device, under some names. *)
Definition named_entries (names : list string) (ds : string * pyval) : list entry := flat_map (device_entries ds) names.
Definition named_shape (names : list string) (ds : string * pyval) : bool := forallb (device_shape ds) names.

Lemma flat_map_map {A B C} (g : B -> C) (f : A -> list B) l : flat_map (fun x => map g (f x)) l = map g (flat_map f l).
Proof. induction l as [| x l IH]; [done |]. cbn. by rewrite map_app, IH. Qed.

Lemma revoke_one dev d name :
  device_shape (dev, VDict (revoke_all d)) name = device_shape (dev, VDict d) name /\
  device_entries (dev, VDict (revoke_all d)) name = map (revoked_entry dev) (device_entries (dev, VDict d) name).
Proof.
  unfold device_shape, device_entries. cbn [fst snd]. rewrite !dict_or_empty_dict, dget_revoke_all.
  destruct (dget_or d name VNone) as [| | | | | | r]; try (split; reflexivity). cbn [revoke_record].
  assert (Hh : dhas (dset r "revoked" (VBool true)) "value" = dhas r "value") by (unfold dhas; by rewrite dget_dset_ne). split.
  - unfold present_shape. cbn. by rewrite !orb_true_r.
  - unfold rec_entries. rewrite Hh. destruct (dhas r "value"); [| done]. cbn. unfold revoked_entry. cbn. by rewrite decide_True.
Qed.

Lemma revoke_device dev d names :
  named_shape names (dev, VDict (revoke_all d)) = named_shape names (dev, VDict d) /\
  named_entries names (dev, VDict (revoke_all d)) = map (revoked_entry dev) (named_entries names (dev, VDict d)).
Proof.
  unfold named_shape, named_entries. induction names as [| name names [IH1 IH2]]; [done |]. destruct (revoke_one dev d name) as [H1 H2].
  cbn [forallb flat_map]. rewrite IH1, IH2, H1, H2, map_app. done.
Qed.

Lemma other_device dev k v names : k <> dev -> map (revoked_entry dev) (named_entries names (k, v)) = named_entries names (k, v).
Proof.
  intros Hk. unfold named_entries. rewrite <- flat_map_map, !flat_map_concat_map. f_equal. apply map_ext. intros name.
  unfold device_entries, rec_entries. destruct (dget_or _ _ _) as [| | | | | | r]; try done. destruct (dhas r "value"); [| done]. cbn.
  unfold revoked_entry. cbn. rewrite decide_False; [done | congruence].
Qed.

Lemma service_entries dev name legacy rec : map (revoked_entry dev) (rec_entries service name legacy rec) = rec_entries service name legacy rec.
Proof. unfold rec_entries. destruct rec as [| | | | | | r]; try done. destruct (dhas r "value"); [| done]. cbn. unfold revoked_entry. cbn. by rewrite decide_False. Qed.

(** The records of the device are revoked, in place. *)
Lemma revoke_shape store dev store' : wf_val (VDict store) -> revoke store dev = Ok store' ->
  seeder_of store' = seeder_of store /\ dget_or store' "seeder" (VDict []) = dget_or store "seeder" (VDict []) /\
  is_dict (dget_or store' "devices" (VDict [])) = is_dict (dget_or store "devices" (VDict [])) /\
  forall names, forallb (named_shape names) (devices_of store') = forallb (named_shape names) (devices_of store) /\
    flat_map (named_entries names) (devices_of store') = map (revoked_entry dev) (flat_map (named_entries names) (devices_of store)).
Proof.
  intros Hw H. unfold revoke in H. apply bind_ok in H as (v & Hv & H). cbn in Hv. destruct (dget store "devices") as [devs |] eqn:Ed; [| discriminate Hv]. injection Hv as ->.
  destruct v as [| | | | | | ds]; try discriminate H. pose proof (wf_dget _ _ _ Hw Ed) as Hds. apply wf_dict in Hds as [Hn _].
  assert (Hdev : devices_of store = ds) by (unfold devices_of, dget_or; by rewrite Ed).
  assert (Hno : dget ds dev = None \/ dget ds dev = Some VNone -> forall names,
    flat_map (named_entries names) ds = map (revoked_entry dev) (flat_map (named_entries names) ds)).
  { intros Hx names. rewrite <- flat_map_map. rewrite !flat_map_concat_map. f_equal. apply map_ext_in. intros [k v] Hin. apply list_elem_of_In in Hin. apply (dget_Some _ _ _ Hn) in Hin.
    destruct (decide (k = dev)) as [-> |]; [| by rewrite other_device]. destruct Hx as [Hx | Hx]; [congruence |]. rewrite Hx in Hin. injection Hin as <-. unfold named_entries. by induction names. }
  destruct (dget ds dev) as [[| | | | | | d] |] eqn:Eg; try discriminate H; injection H as <-.
  - split; [done |]. split; [done |]. split; [done |]. intros names. split; [done |]. rewrite Hdev. apply Hno. by right.
  - set (y := VDict (map (fun nr => (fst nr, revoke_record (snd nr))) d)).
    assert (Hnew : devices_of (dset store "devices" (VDict (dset ds dev y))) = dset ds dev y) by (unfold devices_of, dget_or; by rewrite dget_dset_eq).
    split; [unfold seeder_of, dget_or; by rewrite dget_dset_ne |]. split; [unfold dget_or; by rewrite dget_dset_ne |].
    split; [unfold dget_or; rewrite dget_dset_eq, Ed; done |]. intros names. rewrite Hnew, Hdev, (dset_map _ _ _ y Hn Eg).
    assert (Hkv : forall k v, In (k, v) ds -> k = dev -> v = VDict d).
    { intros k v Hin ->. apply list_elem_of_In in Hin. apply (dget_Some _ _ _ Hn) in Hin. congruence. }
    destruct (revoke_device dev d names) as [Hs He]. fold (revoke_all d) in y. split.
    + clear -Hkv Hs. induction ds as [| [k v] ds IH]; [done |]. cbn [map forallb fst]. rewrite IH by (intros; eapply Hkv; [by right | done]). f_equal.
      destruct (String.eqb_spec k dev) as [-> |]; [| done]. rewrite (Hkv dev v (or_introl eq_refl) eq_refl). exact Hs.
    + rewrite <- flat_map_map, !flat_map_concat_map, map_map. f_equal. apply map_ext_in. intros [k v] Hin. cbn [fst].
      destruct (String.eqb_spec k dev) as [-> |]; [| by rewrite other_device]. rewrite (Hkv dev v Hin eq_refl). exact He.
  - split; [done |]. split; [done |]. split; [done |]. intros names. split; [done |]. rewrite Hdev. apply Hno. by left.
Qed.

Lemma announce_named store :
  flat_map (fun ds => device_entries ds "announce_token") (devices_of store) = flat_map (named_entries ["announce_token"]) (devices_of store) /\
  forallb (fun ds => device_shape ds "announce_token") (devices_of store) = forallb (named_shape ["announce_token"]) (devices_of store).
Proof.
  unfold named_entries, named_shape. split; [rewrite !flat_map_concat_map; f_equal; apply map_ext; intros ds; cbn; by rewrite app_nil_r |].
  generalize (devices_of store). intros l. induction l as [| ds l IH]; [done |]. cbn in IH |- *. by rewrite IH, andb_true_r.
Qed.

Lemma revoke_entries store dev store' : wf_val (VDict store) -> revoke store dev = Ok store' ->
  (announce_shape store' = announce_shape store /\ announce_entries store' = map (revoked_entry dev) (announce_entries store)) /\
  (catalog_shape store' = catalog_shape store /\ catalog_entries store' = map (revoked_entry dev) (catalog_entries store)).
Proof.
  intros Hw H. destruct (revoke_shape _ _ _ Hw H) as (Hs & Hsd & Hd & Hn). destruct (Hn ["announce_token"]) as [H1 H2]. destruct (Hn CATALOG_NAMES) as [H3 H4].
  destruct (announce_named store) as [A1 A2]. destruct (announce_named store') as [A1' A2'].
  split; split.
  - unfold announce_shape, current_of, previous_of. by rewrite A2', A2, H1, Hd, Hsd, Hs.
  - unfold announce_entries, current_of, previous_of. rewrite A1', A1, H2, Hs, !map_app, service_entries. do 2 f_equal.
    rewrite <- flat_map_map, !flat_map_concat_map. f_equal. apply map_ext. intros rec. by rewrite service_entries.
  - unfold catalog_shape. rewrite Hd. f_equal. exact H3.
  - exact H4.
Qed.

Section revoked.
Context (dev : string) (es : list entry) (ix : index) (built : index_of es = Ok ix).

Lemma revoked_digest e : digest_of (revoked_entry dev e) = digest_of e.
Proof. unfold digest_of. by rewrite revoked_value. Qed.

Lemma revoked_index : exists ix', index_of (map (revoked_entry dev) es) = Ok ix'.
Proof.
  apply index_builds. assert (omap digest_of (map (revoked_entry dev) es) = omap digest_of es) as ->; [| apply index_builds; by exists ix].
  clear built. induction es as [| e l IH]; [done |]. cbn. by rewrite revoked_digest, IH.
Qed.

Lemma revoked_for ix' s : index_of (map (revoked_entry dev) es) = Ok ix' -> credential_for ix' (VStr s) = revoked_entry dev <$> credential_for ix (VStr s).
Proof.
  intros H. destruct (credential_for ix (VStr s)) as [e |] eqn:E; cbn [fmap option_fmap option_map].
  - apply (credential_for_spec es ix s e built) in E as [H1 H2]. apply (credential_for_spec _ _ _ _ H). split; [by apply list_elem_of_fmap; exists e |]. unfold holds. by rewrite revoked_value.
  - destruct (credential_for ix' (VStr s)) as [e' |] eqn:E'; [| done]. apply (credential_for_spec _ _ _ _ H) in E' as [H1 H2]. apply list_elem_of_fmap in H1 as (e & -> & He).
    unfold holds in H2. rewrite revoked_value in H2. by rewrite (proj2 (credential_for_spec es ix s e built) (conj He H2)) in E.
Qed.

Lemma never_valid r now grace : valid (revoke_record (VDict r)) now grace = Ok false.
Proof. unfold valid. cbn. unfold dget_or. by rewrite dget_dset_eq. Qed.

(** Of the revoked device nothing is live; of the others everything stays. *)
Lemma revoked_live now grace s e : (forall e, e ∈ es -> is_dict (en_record e) = true) ->
  live (map (revoked_entry dev) es) now grace s e <-> live es now grace s e /\ en_principal e <> Principal "device" dev.
Proof.
  intros Hdict. unfold live. split.
  - intros (Hin & Hh & Hv). apply list_elem_of_fmap in Hin as (a & -> & Ha). unfold holds in Hh. rewrite revoked_value in Hh.
    unfold revoked_entry in Hv |- *. destruct (decide (en_principal a = Principal "device" dev)) as [Hp |]; [| done].
    exfalso. specialize (Hdict a Ha). cbn [en_record] in Hv. destruct (en_record a) as [| | | | | | r]; try discriminate Hdict. by rewrite never_valid in Hv.
  - intros [(Hin & Hh & Hv) Hp]. assert (He : revoked_entry dev e = e) by (unfold revoked_entry; by rewrite decide_False). split; [| done].
    apply list_elem_of_fmap. exists e. by rewrite He.
Qed.

(** A value that resolved to somebody else still does; one of the device no longer does. *)
Lemma revoked_resolve ix' now grace s h : (forall e, e ∈ es -> is_dict (en_record e) = true) -> index_of (map (revoked_entry dev) es) = Ok ix' ->
  _resolve_valid_credential ix now grace s = Ok h ->
  _resolve_valid_credential ix' now grace s = Ok (r ← h; if decide (fst (fst r) = Principal "device" dev) then None else Some r).
Proof.
  intros Hdict H. unfold _resolve_valid_credential. rewrite (revoked_for ix' s H). destruct (credential_for ix (VStr s)) as [e |] eqn:E; cbn [fmap option_fmap option_map]; [| by intros [= <-]].
  apply (credential_for_spec es ix s e built) in E as [Hin _]. specialize (Hdict e Hin). unfold revoked_entry. destruct (decide (en_principal e = Principal "device" dev)) as [Hp | Hp]; cbn [en_record en_principal en_name en_legacy].
  - destruct (en_record e) as [| | | | | | r]; try discriminate Hdict. rewrite never_valid. intros Hv. apply bind_ok in Hv as (b & _ & [= <-]). cbn [mbind res_bind]. destruct b; [| done]. cbn. by rewrite decide_True.
  - intros Hv. rewrite Hv. destruct h as [r |]; [| done]. apply bind_ok in Hv as ([|] & _ & [= <-]). cbn. by rewrite decide_False.
Qed.

Lemma revoked_scan ix' now grace values hits : (forall e, e ∈ es -> is_dict (en_record e) = true) -> index_of (map (revoked_entry dev) es) = Ok ix' ->
  res_map (_resolve_valid_credential ix now grace) values = Ok hits ->
  exists hits', res_map (_resolve_valid_credential ix' now grace) values = Ok hits' /\ omap id hits' = filter (fun r => fst (fst r) <> Principal "device" dev) (omap id hits).
Proof.
  intros Hdict H. revert hits. induction values as [| s values IH]; intros hits Hm; cbn [res_map] in Hm |- *; [injection Hm as <-; by exists [] |].
  apply bind_ok in Hm as (h & Hh & Hm). apply bind_ok in Hm as (rest & Hm & [= <-]). destruct (IH rest Hm) as (hits' & -> & Ho). rewrite (revoked_resolve ix' now grace s h Hdict H Hh). cbn [mbind res_bind].
  eexists. split; [done |]. destruct h as [r |]; [| exact Ho]. change (omap id (Some r :: rest)) with (r :: omap id rest). rewrite filter_cons.
  cbn [mbind option_bind]. destruct (decide (fst (fst r) = Principal "device" dev)) as [Hp | Hp].
  - rewrite decide_False by (by intros Hne; destruct Hne). exact Ho.
  - rewrite decide_True by done. rewrite <- Ho. done.
Qed.

(** A query that named somebody else is answered as before. *)
Lemma revoked_query ix' now grace query lid ctx : (forall e, e ∈ es -> is_dict (en_record e) = true) -> index_of (map (revoked_entry dev) es) = Ok ix' ->
  (forall e, e ∈ es -> ac_principal (context_of e lid) <> Principal "device" dev -> en_principal e <> Principal "device" dev) ->
  resolve_announce_principal ix now grace query lid = Ok ctx -> ac_principal ctx <> Principal "device" dev -> resolve_announce_principal ix' now grace query lid = Ok ctx.
Proof.
  intros Hdict H He Hq Hne. unfold resolve_announce_principal in Hq |- *.
  assert (Hr : forall s r, _resolve_valid_credential ix now grace s = Ok (Some r) -> ac_principal (_context r lid) <> Principal "device" dev -> fst (fst r) <> Principal "device" dev).
  { intros s r Hs. apply (resolve_valid_iff es ix built) in Hs as (e & (Hin & _) & ->). by apply He. }
  assert (Hscan : forall values, legacy_scan ix now grace values lid = Ok ctx -> legacy_scan ix' now grace values lid = Ok ctx).
  { intros values Hs. unfold legacy_scan in Hs |- *. apply bind_ok in Hs as (hits & Hm & Hs). destruct (revoked_scan ix' now grace values hits Hdict H Hm) as (hits' & -> & Ho). cbn [mbind res_bind]. rewrite Ho.
    destruct (omap id hits) as [| r [|]] eqn:Eo; [by destruct (res_existsb _ _) | | discriminate Hs]. injection Hs as <-.
    assert (Hin : Some r ∈ hits) by (assert (Hin : r ∈ omap id hits) by (rewrite Eo; by left); apply list_elem_of_omap in Hin as (h & Hin & Hid); by rewrite <- Hid).
    apply res_map_ok in Hm. apply list_elem_of_lookup_1 in Hin as [i Hi]. destruct (Forall2_lookup_r _ _ _ _ _ Hm Hi) as (v & _ & Hv). rewrite filter_cons, decide_True by (by apply (Hr v)). done. }
  destruct (values_of _DEDICATED_PARAM (_raw_pairs query)) as [| [| c rest] [|]]; try discriminate Hq; [by apply Hscan .. |].
  apply bind_ok in Hq as ([r |] & Hv & Hq); [| by destruct (_known_expired _ _ _ _)]. injection Hq as <-. rewrite (revoked_resolve ix' now grace _ _ Hdict H Hv). cbn. by rewrite decide_False by (by apply (Hr (String c rest))).
Qed.
End revoked.

Lemma rec_entries_dict p name legacy rec e : e ∈ rec_entries p name legacy rec -> is_dict (en_record e) = true /\ en_principal e = p /\ en_legacy e = legacy.
Proof. unfold rec_entries. destruct rec as [| | | | | | r]; try (intros H; by apply elem_of_nil in H). destruct (dhas r "value"); [| intros H; by apply elem_of_nil in H]. by intros ->%list_elem_of_singleton. Qed.

Lemma elem_flat_map {A B} (f : A -> list B) l y : y ∈ flat_map f l <-> exists x, x ∈ l /\ y ∈ f x.
Proof. rewrite list_elem_of_In, in_flat_map. split; intros (x & H1 & H2); exists x; by rewrite ?list_elem_of_In in *. Qed.

Lemma announce_entry store e : e ∈ announce_entries store -> is_dict (en_record e) = true /\
  ((exists dev, en_principal e = Principal "device" dev /\ en_legacy e = false) \/ en_principal e = service).
Proof.
  unfold announce_entries. rewrite !elem_of_app, !elem_flat_map. intros [(ds & _ & H) | [H | (r & _ & H)]]; apply rec_entries_dict in H as (H1 & H2 & H3); eauto.
Qed.

Lemma catalog_entry store e : e ∈ catalog_entries store -> is_dict (en_record e) = true.
Proof. unfold catalog_entries. rewrite elem_flat_map. intros (ds & _ & H). apply elem_flat_map in H as (name & _ & H). by apply rec_entries_dict in H as (H1 & _). Qed.

(** ** Properties *)

(** C9: the announce resolvers authenticate exactly the live records of the store: a
    header token is accepted when, and only when, some announce record on file holds it,
    is not revoked and not expired, and the answer is its owner (a previous seeder token
    counts as legacy); a query is accepted only for the one value that its
    [announce_token] names, or for the only valid one of its keys.  No value has two
    owners. *)
Theorem announce_auth_exact store ix now grace : build_announce_index store = Ok ix ->
  (forall token lid ctx, resolve_announce_bearer ix now grace token lid = Ok ctx <->
     exists s e, token = Some s /\ live (announce_entries store) now grace s e /\ ctx = context_of e lid) /\
  (forall query lid ctx, resolve_announce_principal ix now grace query lid = Ok ctx ->
     exists s e, presents (announce_entries store) now grace (_raw_pairs query) s /\ live (announce_entries store) now grace s e /\ ctx = context_of e lid) /\
  (forall s e e', live (announce_entries store) now grace s e -> live (announce_entries store) now grace s e' -> e = e').
Proof.
  intros H. apply build_announce_index_iff in H as [_ H]. split; [| split].
  - intros token lid ctx. by apply bearer_iff.
  - intros query lid ctx. by apply query_sound.
  - intros s e e'. by apply (one_owner _ _ H).
Qed.

(** The credential a query shows when those of a device count for nothing. *)
Definition shows_without (dev : string) (es : list entry) (now : pyfloat) (grace : Z) (pairs : list (string * string)) (s : string) : Prop :=
  values_of _DEDICATED_PARAM pairs = [s] \/
  (values_of _DEDICATED_PARAM pairs ∈ [[]; [""]] /\ s ∈ values_of _LEGACY_PARAM pairs /\
   forall s' e', s' ∈ values_of _LEGACY_PARAM pairs -> live es now grace s' e' -> en_principal e' <> Principal "device" dev -> s' = s).

(** C15: revoking a device ends its credentials for good and no other's: both indexes
    still build; no announce, by header or by query, and no catalog request is
    authenticated as the device any more, at any time and with any token; a header or
    catalog token of anybody else is answered exactly as before.  A query answered as
    somebody else is still answered so; and a query accepted now shows a live credential of
    somebody else that is the only live one among its keys but for the device's: a query
    that was ambiguous because of the device's key may now be accepted. *)
Theorem revoke_exact store dev store' ix cix : wf_val (VDict store) -> revoke store dev = Ok store' ->
  build_announce_index store = Ok ix -> build_catalog_auth_index store = Ok cix ->
  exists ix' cix', build_announce_index store' = Ok ix' /\ build_catalog_auth_index store' = Ok cix' /\ forall now grace,
    (forall token lid ctx, resolve_announce_bearer ix' now grace token lid = Ok ctx <->
       resolve_announce_bearer ix now grace token lid = Ok ctx /\ ac_principal ctx <> Principal "device" dev) /\
    (forall s ctx, resolve_catalog_auth cix' now grace (VStr s) = Ok (Some ctx) <->
       resolve_catalog_auth cix now grace (VStr s) = Ok (Some ctx) /\ ac_principal ctx <> Principal "device" dev) /\
    (forall query lid ctx, resolve_announce_principal ix now grace query lid = Ok ctx -> ac_principal ctx <> Principal "device" dev ->
       resolve_announce_principal ix' now grace query lid = Ok ctx) /\
    (forall query lid ctx, resolve_announce_principal ix' now grace query lid = Ok ctx -> ac_principal ctx <> Principal "device" dev /\
       exists s e, shows_without dev (announce_entries store) now grace (_raw_pairs query) s /\ live (announce_entries store) now grace s e /\
         en_principal e <> Principal "device" dev /\ ctx = context_of e lid).
Proof.
  intros Hw Hr Ha Hc. apply build_announce_index_iff in Ha as [Hsa Ha]. apply build_catalog_index_iff in Hc as [Hsc Hc].
  destruct (revoke_entries _ _ _ Hw Hr) as [[S1 E1] [S2 E2]]. destruct (revoked_index dev _ _ Ha) as [ix' Hix]. destruct (revoked_index dev _ _ Hc) as [cix' Hcix].
  exists ix', cix'. split; [apply build_announce_index_iff; by rewrite S1, E1 |]. split; [apply build_catalog_index_iff; by rewrite S2, E2 |].
  intros now grace.
  assert (Hdict : forall e, e ∈ announce_entries store -> is_dict (en_record e) = true) by (intros x Hx; exact (proj1 (announce_entry store x Hx))).
  assert (Hp : forall e lid, e ∈ announce_entries store -> en_principal e <> Principal "device" dev <-> ac_principal (context_of e lid) <> Principal "device" dev).
  { intros e lid He. unfold context_of, _context. cbn. destruct (announce_entry _ _ He) as [_ [(d & Hd & Hl) | Hd]]; rewrite Hd, ?Hl; [done |]. by destruct (en_legacy e). }
  assert (Hlive : forall s e, live (map (revoked_entry dev) (announce_entries store)) now grace s e <-> live (announce_entries store) now grace s e /\ en_principal e <> Principal "device" dev) by (intros; by apply revoked_live).
  split; [| split; [| split]].
  - intros token lid ctx. rewrite (bearer_iff _ _ Hix), (bearer_iff _ _ Ha). setoid_rewrite Hlive. split.
    + intros (s & e & -> & [Hl Hne] & ->). split; [by exists s, e |]. apply Hp; [by destruct Hl | done].
    + intros [(s & e & -> & Hl & ->) Hne]. exists s, e. split; [done |]. split; [| done]. split; [done |]. apply Hp in Hne; [done | by destruct Hl].
  - intros s ctx. rewrite (catalog_iff _ _ Hcix), (catalog_iff _ _ Hc). split.
    + intros (e & Hl & ->). apply revoked_live in Hl as [Hl Hne]; [| intros x Hx; by apply (catalog_entry store)]. split; [by exists e | done].
    + intros [(e & Hl & ->) Hne]. exists e. split; [| done]. apply revoked_live; [intros x Hx; by apply (catalog_entry store) | done].
  - intros query lid ctx. apply (revoked_query dev _ ix Ha ix' now grace query lid _ Hdict Hix). intros e He. by apply Hp.
  - intros query lid ctx Hq. destruct (query_sound _ _ Hix _ _ _ _ _ Hq) as (s & e & Hs & Hl & ->). apply Hlive in Hl as [Hl Hne]. split; [apply Hp; [by destruct Hl | done] |].
    exists s, e. split; [| done]. destruct Hs as [Hs | (H1 & H2 & H3)]; [by left |]. right. split; [done |]. split; [done |]. intros s' e' Hk Hl' Hne'. apply (H3 s' e' Hk). by apply Hlive.
Qed.

(** ** Witnesses *)

Lemma announce_auth_exact_witness :
  resolve_announce_bearer sample_announce_index (FFin 100 0) 0 (Some "s0") "10.0.0.1:6881" =
    Ok (AuthCtx (Principal "legacy" "10.0.0.1:6881") "announce_token_previous" "announce") /\
  exists s e, Some "s0" = Some s /\ live (announce_entries sample_store) (FFin 100 0) 0 s e /\
    AuthCtx (Principal "legacy" "10.0.0.1:6881") "announce_token_previous" "announce" = context_of e "10.0.0.1:6881".
Proof.
  assert (H : resolve_announce_bearer sample_announce_index (FFin 100 0) 0 (Some "s0") "10.0.0.1:6881" =
    Ok (AuthCtx (Principal "legacy" "10.0.0.1:6881") "announce_token_previous" "announce")) by (vm_compute; reflexivity).
  split; [exact H |]. exact (proj1 (proj1 (announce_auth_exact sample_store _ (FFin 100 0) 0 sample_announce_built) (Some "s0") "10.0.0.1:6881" _) H).
Defined.

(** Two keys, of the revoked device and of another: ambiguous before, the other's after. *)
Lemma revoke_exact_witness : exists store', revoke sample_store "e1" = Ok store' /\
  exists ix' cix', build_announce_index store' = Ok ix' /\ build_catalog_auth_index store' = Ok cix' /\
    resolve_announce_bearer ix' (FFin 100 0) 0 (Some "t2") "" = Ok (AuthCtx (Principal "device" "e2") "announce_token" "announce") /\
    resolve_announce_principal ix' (FFin 100 0) 0 "key=t2" "" = Ok (AuthCtx (Principal "device" "e2") "announce_token" "announce") /\
    (forall lid ctx, resolve_announce_principal ix' (FFin 100 0) 0 "key=t1&key=t2" lid = Ok ctx -> ac_principal ctx <> Principal "device" "e1").
Proof.
  eexists. split; [reflexivity |].
  destruct (revoke_exact sample_store "e1" _ _ _ sample_store_wf eq_refl sample_announce_built sample_catalog_built) as (ix' & cix' & H1 & H2 & H). exists ix', cix'. split; [exact H1 |]. split; [exact H2 |].
  destruct (H (FFin 100 0) 0) as (Hb & _ & Hq & Hn). split; [apply Hb; split; [vm_compute; reflexivity | discriminate] |]. split; [apply Hq; [vm_compute; reflexivity | discriminate] |].
  intros lid ctx Hc. exact (proj1 (Hn _ _ _ Hc)).
Defined.
