(* ===== verification/RotationSpec.v ===== *)
(** * Minting and rotating credentials

    A new value is one no record on file holds, so the indexes keep building; a rotated
    seeder token stays usable for a bounded time beside the new one, and at most two such
    are on file; a rotated instruction key leaves a valid pair. *)
From S2P Require Import Prelude PyVal PolicyDoc PolicyEval Sha256 SchedTime Odict PeerRegistry Tracker UrlText Secrets Auth AuthSpec.

(** ** The values on file *)

Lemma py_eq_text v s : py_eq v (VStr s) = true <-> v = VStr s.
Proof. destruct v; cbn; try (split; [discriminate | congruence]). split; [by intros ->%String.eqb_eq | intros [= ->]; apply String.eqb_refl]. Qed.

Lemma py_eq_text' v s : py_eq (VStr s) v = true <-> v = VStr s.
Proof. destruct v; cbn; try (split; [discriminate | congruence]). split; [by intros ->%String.eqb_eq | intros [= ->]; apply String.eqb_refl]. Qed.

Lemma known_value s l : existsb (py_eq (VStr s)) l = true <-> VStr s ∈ l.
Proof.
  rewrite existsb_exists. split; [intros (v & Hin & Hv); apply py_eq_text' in Hv as ->; by apply list_elem_of_In |].
  intros H. exists (VStr s). split; [by apply list_elem_of_In | by apply py_eq_text'].
Qed.

Lemma inventory_set_keys ix v who s : VStr s ∈ map fst (inventory_set ix v who) <-> VStr s = v \/ VStr s ∈ map fst ix.
Proof.
  induction ix as [| [k w] ix IH]; cbn; [rewrite list_elem_of_singleton; split; [by left | intros [? | H]; [done | by apply elem_of_nil in H]] |].
  destruct (py_eq k v) eqn:E; cbn; rewrite ?elem_of_cons, ?IH; [| tauto]. split; [tauto |]. intros [<- | H]; [| done]. apply py_eq_text in E as ->. by left.
Qed.

Lemma inventory_add_keys dev ix nr s : VStr s ∈ map fst ix \/ (exists d, snd nr = VDict d /\ dget d "value" = Some (VStr s)) -> VStr s ∈ map fst (inventory_add dev ix nr).
Proof.
  unfold inventory_add. intros [H | (d & -> & H)].
  - destruct (snd nr) as [| | | | | | d]; try done. destruct (dget d "value") as [v |]; [| done]. destruct (hashable v); [| done]. apply inventory_set_keys. by right.
  - rewrite H. cbn. apply inventory_set_keys. by left.
Qed.

Lemma inventory_records dev (records : dict) ix s : VStr s ∈ map fst ix \/ (exists name d, (name, VDict d) ∈ records /\ dget d "value" = Some (VStr s)) ->
  VStr s ∈ map fst (foldl (inventory_add dev) ix records).
Proof.
  revert ix. induction records as [| [name r] records IH]; intros ix H; cbn; [destruct H as [H | (? & ? & H & _)]; [done | by apply elem_of_nil in H] |].
  apply IH. destruct H as [H | (n & d & Hin & Hd)]; [left; apply inventory_add_keys; by left |]. apply elem_of_cons in Hin as [[= -> <-] | Hin].
  - left. apply inventory_add_keys. right. by exists d.
  - right. by exists n, d.
Qed.

Lemma inventory_devices (devices : dict) ix s :
  VStr s ∈ map fst ix \/ (exists dev records name d, (dev, VDict records) ∈ devices /\ (name, VDict d) ∈ records /\ dget d "value" = Some (VStr s)) ->
  VStr s ∈ map fst (foldl (fun ix ds => foldl (inventory_add (fst ds)) ix (dict_or_empty (snd ds))) ix devices).
Proof.
  revert ix. induction devices as [| [dev r] devices IH]; intros ix H; cbn; [destruct H as [H | (? & ? & ? & ? & H & _)]; [done | by apply elem_of_nil in H] |].
  apply IH. destruct H as [H | (dev' & records & n & d & Hin & Hr & Hd)]; [left; apply inventory_records; by left |]. apply elem_of_cons in Hin as [[= -> <-] | Hin].
  - left. apply inventory_records. right. by exists n, d.
  - right. by exists dev', records, n, d.
Qed.

(** The value of every record that can authenticate an announce is known to [mint]. *)
Lemma announce_value_known store values e s : existing_values store = Ok values -> e ∈ announce_entries store -> holds s e -> VStr s ∈ values.
Proof.
  intros Hv He Hh. unfold existing_values in Hv. apply bind_ok in Hv as (pv & Hpv & Hv). apply bind_ok in Hv as (prev & Hprev & Hv). injection Hv as <-.
  assert (Hval : forall p name legacy rec, e ∈ rec_entries p name legacy rec -> exists d, rec = VDict d /\ dget d "value" = Some (VStr s)).
  { intros p name legacy rec Hr. unfold rec_entries in Hr. destruct rec as [| | | | | | d]; try by apply elem_of_nil in Hr. destruct (dhas d "value") eqn:Ed; [| by apply elem_of_nil in Hr].
    apply list_elem_of_singleton in Hr as ->. unfold holds, value_of in Hh. cbn in Hh. unfold dget_or in Hh. destruct (dget d "value") as [v |] eqn:Ev; [| discriminate Hh].
    cbn in Hh. unfold _credential_bytes in Hh. destruct v; try discriminate Hh. destruct (String.eqb _ ""); [discriminate Hh |]. injection Hh as ->. by exists d. }
  unfold announce_entries in He. rewrite !elem_of_app, !elem_flat_map in He. rewrite elem_of_app. unfold build_index. fold (devices_of store) (seeder_of store).
  destruct He as [([dev r] & Hds & He) | [He | (r & Hr & He)]].
  - left. apply inventory_records. left. apply inventory_devices. right. unfold device_entries in He. cbn [fst snd] in He. apply Hval in He as (d & Hd & Hs).
    destruct r as [| | | | | | records]; try discriminate Hd. cbn in Hd. unfold dget_or in Hd. destruct (dget records "announce_token") as [r |] eqn:Er; [| discriminate Hd]. cbn in Hd. subst r.
    exists dev, records, "announce_token", d. split; [done |]. split; [by apply dget_elem | done].
  - left. apply inventory_records. right. apply Hval in He as (d & Hd & Hs). unfold current_of, dget_or in Hd. destruct (dget (seeder_of store) "announce_token") as [r |] eqn:Er; [| discriminate Hd].
    cbn in Hd. subst r. exists "announce_token", d. split; [by apply dget_elem | done].
  - right. apply Hval in He as (d & -> & Hs). apply list_elem_of_omap. exists (VDict d). unfold previous_of, seeder_of in Hr.
    destruct (dget_or store "seeder" (VDict [])) as [| | | | | | sd]; try discriminate Hpv. cbn in Hpv. injection Hpv as <-. rewrite dict_or_empty_dict, Hprev in Hr. split; [done |].
    unfold dget_or. rewrite Hs. cbn. unfold holds in Hh. assert (Hne : s <> ""); [| destruct (String.eqb_spec s ""); done].
    intros ->. unfold _credential_bytes in Hh. destruct (value_of e) as [| | | | t | |]; try discriminate Hh. destruct (String.eqb_spec t ""); congruence.
Qed.

(** ** Minting *)

Lemma fresh_value_spec n i draw instr values ids v kid : fresh_value n i draw instr values ids = Ok (v, kid) ->
  (VStr v ∉ values) /\ (if instr then exists id, kid = Some id /\ hex_re 64 v = true /\ key_id_of v = Some id /\ id ∉ ids else kid = None).
Proof.
  revert i. induction n as [| n IH]; intros i H; [discriminate H |]. cbn [fresh_value] in H. cbv zeta in H. destruct (existsb (py_eq (VStr (draw i))) values) eqn:Ev; [exact (IH _ H) |].
  assert (Hv : VStr (draw i) ∉ values) by (intros Hin; apply known_value in Hin; congruence).
  destruct instr; [| injection H as <- <-; done]. change (_canonical_hex (VStr (draw i)) 64) with (hex_re 64 (draw i)) in H. destruct (hex_re 64 (draw i)) eqn:Eh; [| discriminate H]. cbn [negb] in H.
  destruct (key_id_of (draw i)) as [id |] eqn:Ek; [| discriminate H]. destruct (existsb (String.eqb id) ids) eqn:Ei; [exact (IH _ H) |].
  injection H as <- <-. split; [done |]. exists id. repeat split; try done. intros Hin.
  assert (Hx : existsb (String.eqb id) ids = true); [| congruence]. apply existsb_exists. exists id. split; [by apply list_elem_of_In | apply String.eqb_refl].
Qed.

Section store.
Context (DEFAULT_TTL SEEDER_PREV_TTL : Z).

#[local] Abbreviation mint := (mint DEFAULT_TTL).

Lemma mint_spec draw store dev name now v store' : mint draw store dev name now = Ok (v, store') ->
  exists ty values kid inow, dget (SECRET_TYPES DEFAULT_TTL) name = Some ty /\ existing_values store = Ok values /\ int_value (VFloat now) = Ok inow /\
    (VStr v ∉ values) /\ put_record store dev name (new_record v inow (ty_ttl ty) kid) = Ok store' /\
    (if String.eqb name "instr_key" then exists id, kid = Some id /\ hex_re 64 v = true /\ key_id_of v = Some id /\ id ∉ existing_ids store else kid = None).
Proof.
  unfold Secrets.mint. intros H. destruct (dget (SECRET_TYPES DEFAULT_TTL) name) as [ty |] eqn:Et; [| discriminate H]. destruct (dget _SECRET_BITS name) as [bits |]; [| discriminate H].
  destruct (negb _ || _); [discriminate H |]. apply bind_ok in H as (values & Hv & H). apply bind_ok in H as ([v' kid] & Hf & H).
  apply bind_ok in H as (inow & Hi & H). apply bind_ok in H as (st & Hp & H). injection H as -> ->. apply fresh_value_spec in Hf as [H1 H2].
  exists ty, values, kid, inow. done.
Qed.

Lemma put_seeder store name rec store' : put_record store "seeder" name rec = Ok store' ->
  dget_or store' "devices" (VDict []) = dget_or store "devices" (VDict []) /\
  exists sd, dget store "seeder" = Some (VDict sd) /\ dget store' "seeder" = Some (VDict (dset sd name (VDict rec))).
Proof.
  unfold put_record. cbn. destruct (dget store "seeder") as [[| | | | | | sd] |] eqn:Es; try discriminate. cbn. intros [= <-].
  split; [unfold dget_or; by rewrite dget_dset_ne |]. exists sd. by rewrite dget_dset_eq.
Qed.

Lemma put_device store dev name rec store' : dev <> "seeder" -> put_record store dev name rec = Ok store' ->
  dget_or store' "seeder" (VDict []) = dget_or store "seeder" (VDict []) /\
  exists ds d, dget store "devices" = Some (VDict ds) /\ dget_or ds dev (VDict []) = VDict d /\
    dget store' "devices" = Some (VDict (dset ds dev (VDict (dset d name (VDict rec))))).
Proof.
  intros Hne. unfold put_record. rewrite (proj2 (String.eqb_neq dev "seeder") Hne). cbn. destruct (dget store "devices") as [[| | | | | | ds] |] eqn:Ed; try discriminate. cbn.
  destruct (dget_or ds dev (VDict [])) as [| | | | | | d] eqn:Eg; try discriminate. intros [= <-].
  split; [unfold dget_or; by rewrite dget_dset_ne |]. exists ds, d. by rewrite dget_dset_eq.
Qed.

Lemma dset_split {B} (d : list (string * B)) k y :
  exists a o b, d = a ++ o ++ b /\ dset d k y = a ++ [(k, y)] ++ b /\ (o = [] /\ dget d k = None \/ exists x, o = [(k, x)] /\ dget d k = Some x).
Proof.
  induction d as [| [k' v] d (a & o & b & H1 & H2 & H3)]; [exists [], [], []; split; [done |]; split; [done |]; by left |]. cbn. destruct (String.eqb_spec k' k) as [-> |].
  - exists [], [(k, v)], d. split; [done |]. split; [done |]. right. by exists v.
  - exists ((k', v) :: a), o, b. rewrite H1 at 1. rewrite H2. done.
Qed.

(** [rec] takes the place of the owner's announce record among the entries. *)
Lemma put_announce store dev rec store' : dhas rec "value" = true -> put_record store dev "announce_token" rec = Ok store' ->
  let p := if String.eqb dev "seeder" then service else Principal "device" dev in
  (announce_shape store = true -> announce_shape store' = true) /\
  exists a o b, announce_entries store = a ++ o ++ b /\ announce_entries store' = a ++ [Entry p "announce_token" (VDict rec) false] ++ b.
Proof.
  intros Hrec H p. destruct (String.eqb_spec dev "seeder") as [-> | Hne].
  - destruct (put_seeder _ _ _ _ H) as (Hd & sd & Hs & Hs'). assert (S : seeder_of store = sd) by (unfold seeder_of, dget_or; by rewrite Hs).
    assert (S' : seeder_of store' = dset sd "announce_token" (VDict rec)) by (unfold seeder_of, dget_or; by rewrite Hs').
    assert (P : previous_of store' = previous_of store) by (unfold previous_of; rewrite S, S'; unfold dget_or; by rewrite dget_dset_ne).
    assert (C : current_of store' = VDict rec) by (unfold current_of, dget_or; by rewrite S', dget_dset_eq). split.
    + unfold announce_shape. unfold devices_of. rewrite Hd, P, C, S, S'. unfold present_shape at 2. cbn [record_shape]. rewrite orb_true_r.
      assert (dget_or (dset sd "announce_token" (VDict rec)) "announce_token_previous" (VList []) = dget_or sd "announce_token_previous" (VList [])) as -> by (unfold dget_or; by rewrite dget_dset_ne).
      assert (is_dict (dget_or store' "seeder" (VDict [])) = true) as -> by (unfold dget_or; by rewrite Hs'). rewrite !andb_true_iff. tauto.
    + exists (flat_map (fun ds => device_entries ds "announce_token") (devices_of store)), (rec_entries service "announce_token" false (current_of store)),
        (flat_map (rec_entries service "announce_token_previous" true) (previous_of store)). split; [done |].
      unfold announce_entries. unfold devices_of. rewrite Hd, P, C. unfold rec_entries at 1. by rewrite Hrec.
  - destruct (put_device _ _ _ _ _ Hne H) as (Hs & ds & d & Hd & Hg & Hd'). assert (D : devices_of store = ds) by (unfold devices_of, dget_or; by rewrite Hd).
    set (y := VDict (dset d "announce_token" (VDict rec))) in Hd'. assert (D' : devices_of store' = dset ds dev y) by (unfold devices_of, dget_or; by rewrite Hd').
    assert (S : seeder_of store' = seeder_of store) by (unfold seeder_of; by rewrite Hs).
    destruct (dset_split ds dev y) as (a & o & b & H1 & H2 & H3).
    assert (Hy : device_shape (dev, y) "announce_token" = true /\ device_entries (dev, y) "announce_token" = [Entry (Principal "device" dev) "announce_token" (VDict rec) false]).
    { unfold device_shape, device_entries, y. cbn [fst snd]. rewrite dict_or_empty_dict. unfold dget_or. rewrite dget_dset_eq. cbn [default]. split.
      - unfold present_shape. cbn. apply orb_true_r.
      - unfold rec_entries. cbn. by rewrite Hrec. }
    destruct Hy as [Hy1 Hy2]. split.
    + unfold announce_shape, current_of, previous_of. rewrite D, D', H2, S, Hs. rewrite H1 at 1. rewrite !forallb_app. cbn [forallb]. rewrite Hy1.
      assert (is_dict (dget_or store' "devices" (VDict [])) = true) as -> by (unfold dget_or; by rewrite Hd'). rewrite !andb_true_iff. tauto.
    + exists (flat_map (fun ds => device_entries ds "announce_token") a), (flat_map (fun ds => device_entries ds "announce_token") o),
        (flat_map (fun ds => device_entries ds "announce_token") b ++ rec_entries service "announce_token" false (current_of store) ++
         flat_map (rec_entries service "announce_token_previous" true) (previous_of store)).
      unfold announce_entries, current_of, previous_of. rewrite D, D', H2, S. split.
      * rewrite H1 at 1. by rewrite !flat_map_app, <- !app_assoc.
      * rewrite !flat_map_app, <- !app_assoc. cbn [flat_map]. by rewrite Hy2.
Qed.

(** A credential that never expires and is not revoked. *)
Lemma new_valid v inow t grace : valid (VDict (new_record v inow 0 None)) t grace = Ok true.
Proof. reflexivity. Qed.

Lemma new_holds p v inow ttl : v <> "" -> holds v (Entry p "announce_token" (VDict (new_record v inow ttl None)) false).
Proof. intros Hv. unfold holds, _credential_bytes. cbn. by destruct (String.eqb_spec v ""). Qed.

Lemma insert_NoDup {A} (a b : list A) x : NoDup (a ++ b) -> x ∉ a ++ b -> NoDup (a ++ [x] ++ b).
Proof. intros H Hx. rewrite Permutation_app_comm, <- app_assoc. cbn. apply NoDup_cons. split; [| by rewrite Permutation_app_comm]. by rewrite Permutation_app_comm. Qed.

Lemma omap_app' {A B} (f : A -> option B) l k : omap f (l ++ k) = omap f l ++ omap f k.
Proof. apply omap_app. Qed.

Lemma insert_index a o b e ix : index_of (a ++ o ++ b) = Ok ix -> (forall d, digest_of e = Some d -> d ∉ omap digest_of (a ++ b)) -> exists ix', index_of (a ++ [e] ++ b) = Ok ix'.
Proof.
  intros H Hd. assert (Hn : NoDup (omap digest_of (a ++ o ++ b))) by (apply index_builds; by exists ix). apply index_builds.
  assert (Hab : NoDup (omap digest_of (a ++ b))).
  { eapply sublist_NoDup; [exact Hn |]. rewrite !omap_app'. apply sublist_app; [done |]. by apply sublist_inserts_l. }
  rewrite omap_app' in Hab. rewrite !omap_app'. specialize (Hd). rewrite omap_app' in Hd. cbn. destruct (digest_of e) as [d |]; [| exact Hab].
  apply insert_NoDup; [done |]. by apply Hd.
Qed.

(** C31: a newly minted announce token is its owner's at once and for ever (it does not
    expire), the index keeps building, and nobody else's token gains anything; unless the
    digest of the new value collides with that of another value on file. *)
Theorem mint_authenticates draw store dev now v store' ix :
  mint draw store dev "announce_token" now = Ok (v, store') -> v <> "" -> build_announce_index store = Ok ix ->
  (forall e s, e ∈ announce_entries store -> holds s e -> _credential_digest s = _credential_digest v -> s = v) ->
  let p := if String.eqb dev "seeder" then service else Principal "device" dev in
  exists ix', build_announce_index store' = Ok ix' /\ forall t grace lid,
    resolve_announce_bearer ix' t grace (Some v) lid = Ok (AuthCtx p "announce_token" "announce") /\
    forall s ctx, s <> v -> resolve_announce_bearer ix' t grace (Some s) lid = Ok ctx -> resolve_announce_bearer ix t grace (Some s) lid = Ok ctx.
Proof.
  intros Hm Hv Hix Hcol p. apply mint_spec in Hm as (ty & values & kid & inow & [= <-] & Hvals & _ & Hfresh & Hput & ->). cbn [ty_ttl] in Hput.
  apply build_announce_index_iff in Hix as [Hs Hix]. destruct (put_announce store dev (new_record v inow 0 None) store' eq_refl Hput) as [Hs' (a & o & b & E & E')].
  set (e := Entry _ _ _ _) in E'. assert (He : holds v e) by by apply new_holds. rewrite E in Hix.
  destruct (insert_index a o b e ix Hix) as [ix' Hix'].
  { intros d Hd Hin. unfold digest_of in Hd. rewrite He in Hd. apply (inj Some) in Hd as <-. apply list_elem_of_omap in Hin as (x & Hx & Hdx). unfold digest_of in Hdx.
    destruct (_credential_bytes (value_of x)) as [s |] eqn:Es; [| discriminate Hdx]. apply (inj Some) in Hdx.
    assert (Hxs : x ∈ announce_entries store) by (rewrite E, !elem_of_app; rewrite elem_of_app in Hx; destruct Hx; auto).
    rewrite (Hcol x s Hxs Es Hdx) in Es. apply Hfresh. by apply (announce_value_known store values x v). }
  exists ix'. split; [apply build_announce_index_iff; split; [by apply Hs' | by rewrite E'] |]. intros t grace lid. split.
  - apply (bearer_iff _ _ Hix'). exists v, e. split; [done |]. split; [| done]. split; [rewrite !elem_of_app, list_elem_of_singleton; auto | done].
  - intros s ctx Hsv H. apply (bearer_iff _ _ Hix') in H as (s' & x & [= <-] & (Hx & Hh & Hl) & ->). apply (bearer_iff _ _ Hix). exists s, x. split; [done |]. split; [| done].
    split; [| done]. rewrite !elem_of_app, list_elem_of_singleton in Hx. rewrite !elem_of_app. destruct Hx as [Hx | [-> | Hx]]; [by left | | auto]. unfold holds in Hh, He. congruence.
Qed.

(** ** Rotation of the seeder's token *)

Lemma res_filter_spec {A} (f : A -> res bool) l k : res_filter f l = Ok k -> sublist k l /\ forall x, x ∈ k <-> x ∈ l /\ f x = Ok true.
Proof.
  revert k. induction l as [| y l IH]; intros k H; cbn in H; [injection H as <-; split; [done | intros x; split; [intros Hx; by apply elem_of_nil in Hx | by intros [Hx _]]] |].
  destruct (f y) as [keep |] eqn:Ey; [| discriminate H]. cbn in H. apply bind_ok in H as (rest & Hr & H). injection H as <-. destruct (IH _ Hr) as [H1 H2].
  destruct keep.
  - split; [by apply sublist_skip |]. intros x. rewrite !elem_of_cons, H2. split; [intros [-> | [? ?]]; auto | intros [[-> | ?] ?]; auto].
  - split; [by apply sublist_cons |]. intros x. rewrite elem_of_cons, H2. split; [intros [? ?]; auto |]. intros [[-> | ?] Hx]; [congruence | auto].
Qed.

Lemma res_filter_all {A} (f : A -> res bool) l : (forall x, x ∈ l -> f x = Ok true) -> res_filter f l = Ok l.
Proof. induction l as [| x l IH]; intros H; [done |]. cbn. rewrite (H x) by by left. cbn. rewrite IH; [done |]. intros y Hy. apply H. by right. Qed.

(** The previous records are dicts whose expiry, when they have one, is an int. *)
Definition dated (r : pyval) : Prop := exists d, r = VDict d /\ (dget d "expires_at" = None \/ exists z, dget d "expires_at" = Some (VInt z)).
Definition dated_store (store : dict) : Prop := exists l, dget_or (seeder_of store) "announce_token_previous" (VList []) = VList l /\ Forall dated l.

(** A record whose validity ends. *)
Definition ends (r : pyval) : Prop := exists d z, r = VDict d /\ dget d "expires_at" = Some (VInt z) /\ z <> 0.

Lemma int_nonzero z : z <> 0 -> py_eq (VInt z) (VInt 0) = false.
Proof. intros Hz. unfold py_eq, num_of, num_eqb, num_cmp. cbn. by destruct z. Qed.

(** The validity of a record with a deadline. *)
Lemma valid_until d z t grace : dget d "expires_at" = Some (VInt z) -> z <> 0 ->
  valid (VDict d) t grace = Ok (negb (truth (dget_or d "revoked" VNone)) && num_ltb t (FFin (z + grace) 0)).
Proof.
  intros Hz Hne. unfold valid. cbn [getattr_get mbind res_bind]. destruct (truth (dget_or d "revoked" VNone)); [done |].
  unfold dget_or. rewrite Hz. cbn [from_option id]. by rewrite int_nonzero.
Qed.

Lemma ends_valid r : ends r -> exists z, forall t grace, valid r t grace = Ok true -> num_ltb t (FFin (z + grace) 0) = true.
Proof. intros (d & z & -> & Hz & Hne). exists z. intros t grace. rewrite (valid_until _ _ _ _ Hz Hne). intros [= H]. by apply andb_true_iff in H as [_ ?]. Qed.

Lemma stamp_ends r r' : dated r -> stamp SEEDER_PREV_TTL r = Ok r' -> ends r' /\ _credential_bytes (dget_or (dict_or_empty r') "value" VNone) = _credential_bytes (dget_or (dict_or_empty r) "value" VNone).
Proof.
  intros (d & -> & Hd) H. cbn in H. apply bind_ok in H as (d' & Hs & H). injection H as <-. unfold _stamp_previous_expiry in Hs. cbn [dict_or_empty as_dict].
  assert (Hset : forall z, z <> 0 -> ends (VDict (dset d "expires_at" (VInt z))) /\
    _credential_bytes (dget_or (dict_or_empty (VDict (dset d "expires_at" (VInt z)))) "value" VNone) = _credential_bytes (dget_or (dict_or_empty (VDict d)) "value" VNone)).
  { intros z Hz. split; [exists (dset d "expires_at" (VInt z)), z; by rewrite dget_dset_eq |]. rewrite !dict_or_empty_dict. unfold dget_or. by rewrite dget_dset_ne. }
  destruct (truth (dget_or d "expires_at" VNone)) eqn:Et.
  - injection Hs as <-. split; [| done]. unfold dget_or in Et. destruct Hd as [Hd | [z Hd]]; rewrite Hd in Et; [discriminate Et |]. exists d, z. split; [done |]. split; [done |].
    cbn in Et. destruct z; [discriminate Et | done | done].
  - set (anchor := if truth _ then _ else _) in Hs. destruct (int_value anchor) as [z | e]; [injection Hs as <-; apply Hset; lia |].
    destruct e; try discriminate Hs; injection Hs as <-; by apply Hset.
Qed.

Lemma dset_dset {B} (d : list (string * B)) k x y : dset (dset d k x) k y = dset d k y.
Proof.
  induction d as [| [k' v] d IH]; cbn; [by rewrite String.eqb_refl |].
  destruct (String.eqb k' k) eqn:E; cbn; rewrite E; [done |]. by rewrite IH.
Qed.

(** What a rotation does to the seeder's records. *)
Definition archived (store : dict) (inow : Z) (rid : string) : list pyval :=
  match current_of store with VDict d => if dhas d "value" then [VDict (archive SEEDER_PREV_TTL d inow rid)] else [] | _ => [] end.

Lemma iterate_list l : iterate (VList l) = Ok l.
Proof. by destruct l. Qed.

Lemma rotate_spec draw rid store now v store' l :
  rotate_announce DEFAULT_TTL SEEDER_PREV_TTL draw rid store now = Ok (v, store') ->
  dget_or (seeder_of store) "announce_token_previous" (VList []) = VList l -> present_shape (current_of store) = true ->
  exists stamped kept inow (values : list pyval),
    res_map (stamp SEEDER_PREV_TTL) l = Ok stamped /\ res_filter (fun r => if is_dict r then valid r now 0 else Ok false) stamped = Ok kept /\
    zlen kept < SEEDER_PREV_CAP /\ int_value (VFloat now) = Ok inow /\ (VStr v ∉ values) /\
    (forall e s, e ∈ flat_map (fun ds => device_entries ds "announce_token") (devices_of store) ++
       flat_map (rec_entries service "announce_token_previous" true) (archived store inow rid ++ kept) -> holds s e -> VStr s ∈ values) /\
    dget_or store' "devices" (VDict []) = dget_or store "devices" (VDict []) /\ is_dict (dget_or store' "seeder" (VDict [])) = true /\
    dget_or (seeder_of store') "announce_token_previous" (VList []) = VList (archived store inow rid ++ kept) /\
    current_of store' = VDict (new_record v inow 0 None).
Proof.
  intros H Hl Hshape. unfold rotate_announce in H. destruct (dget_or store "seeder" (VDict [])) as [| | | | | | sd] eqn:Es; try discriminate H.
  assert (S : seeder_of store = sd) by (unfold seeder_of; by rewrite Es). rewrite S in Hl. cbv zeta in H. apply bind_ok in H as ([n store2] & Hret & H).
  set (sd1 := dsetdefault sd "announce_token_previous" (VList [])) in Hret.
  assert (H1 : dget_or sd1 "announce_token_previous" VNone = VList l /\ dget_or sd1 "announce_token" VNone = dget_or sd "announce_token" VNone).
  { unfold sd1, dget_or in *. rewrite !dget_dsetdefault. split; [exact Hl | done]. }
  destruct H1 as [Hp1 Hc1]. unfold retire_expired_previous in Hret.
  assert (dget_or (dset store "seeder" (VDict sd1)) "seeder" (VDict []) = VDict sd1) as Hx by (unfold dget_or; by rewrite dget_dset_eq). rewrite Hx, Hp1 in Hret. clear Hx.
  apply bind_ok in Hret as (stamped & Hst & Hret). apply bind_ok in Hret as (kept & Hk & Hret). injection Hret as <- <-.
  set (store1 := dset store "seeder" (VDict sd1)) in *. set (sd2 := dset sd1 "announce_token_previous" (VList kept)) in *.
  assert (Hs2 : forall k, dict_or_empty (dget_or (with_previous store1 sd1 k) "seeder" VNone) = dset sd1 "announce_token_previous" (VList k)).
  { intros k. unfold with_previous, dget_or. by rewrite dget_dset_eq. }
  rewrite Hs2 in H. fold sd2 in H. assert (Hp2 : dget_or sd2 "announce_token_previous" VNone = VList kept) by (unfold sd2, dget_or; by rewrite dget_dset_eq).
  assert (Hc2 : dget_or sd2 "announce_token" VNone = current_of store) by (unfold current_of; rewrite S, <- Hc1; unfold sd2, dget_or; by rewrite dget_dset_ne).
  rewrite Hp2, Hc2, iterate_list in H. cbn [mbind res_bind] in H. apply bind_ok in H as (live & Hlive & H).
  assert (live = kept) as ->.
  { assert (Hall : res_filter (fun r => valid r now 0) kept = Ok kept); [| congruence]. apply res_filter_all. intros r Hr. apply (res_filter_spec _ _ _ Hk) in Hr as [_ Hr]. by destruct (is_dict r). }
  destruct (Z.leb_spec SEEDER_PREV_CAP (zlen kept)) as [| Hcap]; [discriminate H |]. apply bind_ok in H as (store3 & H3 & H).
  pose proof (mint_spec _ _ _ _ _ _ _ H) as (ty & values & kid & inow & [= <-] & Hvals & Hi & Hfresh & Hput & ->). cbn [ty_ttl] in Hput.
  assert (H3' : store3 = dset store1 "seeder" (VDict (dset sd2 "announce_token_previous" (VList (archived store inow rid ++ kept))))).
  { unfold archived. assert (Hsame : dset sd2 "announce_token_previous" (VList kept) = sd2) by apply dset_dset.
    assert (Hplain : Ok (with_previous store1 sd1 kept) = Ok store3 -> store3 = dset store1 "seeder" (VDict (dset sd2 "announce_token_previous" (VList ([] ++ kept))))) by (intros [= <-]; cbn [app]; rewrite Hsame; done).
    destruct (current_of store) as [| | | | s | l0 | d] eqn:Ec; cbn [has_value mbind res_bind] in H3.
    - by apply Hplain.
    - discriminate H3.
    - discriminate H3.
    - discriminate H3.
    - destruct (String.index 0 "value" s); [discriminate H3 | by apply Hplain].
    - destruct (existsb _ l0); [discriminate H3 | by apply Hplain].
    - destruct (dhas d "value"); [| by apply Hplain]. cbn [negb] in H3. rewrite Hi in H3. cbn [mbind res_bind] in H3. injection H3 as <-. unfold with_previous. by rewrite dset_dset. }
  destruct (put_seeder _ _ _ _ Hput) as (Hdev & sd3 & Hsd3 & Hsd'). rewrite H3', dget_dset_eq in Hsd3. injection Hsd3 as <-.
  assert (Hdev3 : dget_or store3 "devices" (VDict []) = dget_or store "devices" (VDict [])) by (rewrite H3'; unfold store1, dget_or; by rewrite !dget_dset_ne).
  assert (Hprev3 : previous_of store3 = archived store inow rid ++ kept).
  { unfold previous_of, seeder_of, dget_or. rewrite H3', dget_dset_eq. cbn [from_option id]. rewrite dict_or_empty_dict, dget_dset_eq. cbn [from_option id]. by rewrite iterate_list. }
  assert (Hsd : seeder_of store' = dset (dset sd2 "announce_token_previous" (VList (archived store inow rid ++ kept))) "announce_token" (VDict (new_record v inow 0 None)))
    by (unfold seeder_of, dget_or; by rewrite Hsd').
  exists stamped, kept, inow, values. split; [done |]. split; [done |]. split; [done |]. split; [done |]. split; [done |]. split; [| split; [| split; [| split]]].
  - intros e s He Hh. apply (announce_value_known store3 values e s Hvals); [| done]. unfold announce_entries. rewrite Hprev3. unfold devices_of in He |- *. rewrite Hdev3.
    rewrite elem_of_app in He. rewrite !elem_of_app. destruct He as [He | He]; auto.
  - by rewrite Hdev, Hdev3.
  - unfold dget_or. by rewrite Hsd'.
  - rewrite Hsd. unfold dget_or. by rewrite dget_dset_ne, dget_dset_eq.
  - unfold current_of. rewrite Hsd. unfold dget_or. by rewrite dget_dset_eq.
Qed.

(** The values a list of entries, or of records, holds. *)
Definition held (es : list entry) : list string := omap (fun e => _credential_bytes (value_of e)) es.
Definition record_value (r : pyval) : option string := _credential_bytes (dget_or (dict_or_empty r) "value" VNone).

Lemma held_elem es s : s ∈ held es <-> exists e, e ∈ es /\ holds s e.
Proof. unfold held. rewrite list_elem_of_omap. done. Qed.

Lemma digests_held es : omap digest_of es = map _credential_digest (held es).
Proof. induction es as [| e es IH]; [done |]. cbn. unfold digest_of at 1. destruct (_credential_bytes (value_of e)); cbn; by rewrite IH. Qed.

Lemma omap_cons' {A B} (f : A -> option B) x l : omap f (x :: l) = match f x with Some y => y :: omap f l | None => omap f l end.
Proof. done. Qed.

Lemma held_records p name legacy l : held (flat_map (rec_entries p name legacy) l) = omap record_value l.
Proof.
  assert (Hone : forall r, held (rec_entries p name legacy r) = option_list (record_value r)).
  { intros r. unfold rec_entries, record_value. destruct r as [| | | | | | d]; try done. rewrite dict_or_empty_dict. destruct (dhas d "value") eqn:E.
    - cbn. unfold value_of. cbn. by destruct (_credential_bytes _).
    - unfold dhas in E. unfold dget_or. destruct (dget d "value"); [discriminate E | done]. }
  induction l as [| r l IH]; [done |]. cbn [flat_map]. unfold held in *. rewrite omap_app, IH, Hone. cbn. by destruct (record_value r).
Qed.

Lemma sublist_omap {A B} (f : A -> option B) k l : sublist k l -> sublist (omap f k) (omap f l).
Proof.
  induction 1 as [| x k l _ IH | x k l _ IH]; [done | |]; cbn; destruct (f x); try done; [by apply sublist_skip | by apply sublist_cons].
Qed.

Lemma sublist_map {A B} (f : A -> B) k l : sublist k l -> sublist (map f k) (map f l).
Proof. induction 1; cbn; by constructor. Qed.

Lemma archived_values store inow rid : omap record_value (archived store inow rid) = omap record_value [current_of store].
Proof.
  unfold archived, record_value. cbn. destruct (current_of store) as [| | | | | | d]; try done. destruct (dhas d "value") eqn:E.
  - cbn. unfold archive, dget_or. rewrite dget_dset_ne, dget_dsetdefault, !dget_dset_ne by done. done.
  - unfold dhas in E. cbn. unfold dget_or. destruct (dget d "value"); [discriminate E | done].
Qed.

Lemma stamped_values l stamped : Forall dated l -> res_map (stamp SEEDER_PREV_TTL) l = Ok stamped ->
  Forall ends stamped /\ omap record_value stamped = omap record_value l.
Proof.
  intros Hd Hs. apply res_map_ok in Hs. induction Hs as [| r r' l stamped Hr _ IH]; [by split |]. apply Forall_cons in Hd as [Hd1 Hd]. destruct (IH Hd) as [IH1 IH2].
  destruct (stamp_ends r r' Hd1 Hr) as [He Hv]. split; [by constructor |]. rewrite !omap_cons', IH2. change (record_value r' = record_value r) in Hv. by rewrite Hv.
Qed.

Lemma archive_expiry d inow rid : dget (archive SEEDER_PREV_TTL d inow rid) "expires_at" = Some (VInt (Z.max 1 (inow + SEEDER_PREV_TTL))) /\
  truth (dget_or (archive SEEDER_PREV_TTL d inow rid) "revoked" VNone) = truth (dget_or d "revoked" VNone).
Proof.
  unfold archive. rewrite dget_dset_eq. split; [done |]. unfold dget_or. rewrite dget_dset_ne, dget_dsetdefault by done. cbn. unfold dget_or. rewrite !dget_dset_ne by done.
  by destruct (dget d "revoked").
Qed.

Lemma ends_dated r : ends r -> dated r.
Proof. intros (d & z & -> & Hz & _). exists d. split; [done |]. right. by exists z. Qed.

(** The index after a rotation: the new token, the archived one and the kept ones. *)
Lemma rotated_index store l stamped kept inow rid v (values : list pyval) ix :
  build_announce_index store = Ok ix -> dget_or (seeder_of store) "announce_token_previous" (VList []) = VList l -> Forall dated l ->
  res_map (stamp SEEDER_PREV_TTL) l = Ok stamped -> sublist kept stamped -> VStr v ∉ values ->
  let D := flat_map (fun ds => device_entries ds "announce_token") (devices_of store) in
  let P := flat_map (rec_entries service "announce_token_previous" true) (archived store inow rid ++ kept) in
  (forall e s, e ∈ D ++ P -> holds s e -> VStr s ∈ values) ->
  (forall e s, e ∈ announce_entries store -> holds s e -> _credential_digest s = _credential_digest v -> s = v) ->
  exists ix', index_of (D ++ [Entry service "announce_token" (VDict (new_record v inow 0 None)) false] ++ P) = Ok ix'.
Proof.
  intros Hix Hl Hd Hst Hk Hfresh D P Hknown Hcol. destruct (stamped_values _ _ Hd Hst) as [_ Hvals]. apply build_announce_index_iff in Hix as [_ Hix].
  assert (Hn : NoDup (omap digest_of (announce_entries store))) by (apply index_builds; by exists ix).
  assert (Hprev : previous_of store = l) by (unfold previous_of; by rewrite Hl, iterate_list).
  assert (Hsub : sublist (held (D ++ P)) (held (announce_entries store))).
  { unfold announce_entries. fold D. unfold held at 1 2. rewrite !omap_app. fold (held D) (held P). apply sublist_app; [done |]. unfold P. rewrite held_records, omap_app, archived_values.
    fold (held (rec_entries service "announce_token" false (current_of store))) (held (flat_map (rec_entries service "announce_token_previous" true) (previous_of store))).
    pose proof (held_records service "announce_token" false [current_of store]) as Hc. cbn [flat_map] in Hc. rewrite app_nil_r in Hc. rewrite Hc, held_records, Hprev, <- Hvals.
    apply sublist_app; [done | by apply sublist_omap]. }
  apply index_builds. rewrite digests_held in Hn |- *. unfold held. rewrite !omap_app. fold (held D) (held P). rewrite !map_app.
  assert (Hdp : NoDup (map _credential_digest (held D) ++ map _credential_digest (held P))).
  { eapply sublist_NoDup; [exact Hn |]. rewrite <- map_app. unfold held at 1 2. rewrite <- omap_app. by apply sublist_map. }
  cbn. unfold value_of. cbn. destruct (String.eqb_spec v "") as [-> |]; cbn; [exact Hdp |]. apply insert_NoDup; [exact Hdp |].
  rewrite <- map_app. intros Hin. apply list_elem_of_fmap in Hin as (s & Hs & Hin). assert (Hin' : s ∈ held (D ++ P)) by (unfold held; by rewrite omap_app).
  assert (s = v) as ->. { pose proof Hin' as Ho. eapply elem_of_sublist in Ho; [| exact Hsub]. apply held_elem in Ho as (e & He & Hh). by apply (Hcol e). }
  apply held_elem in Hin' as (e & He & Hh). apply Hfresh. by apply (Hknown e).
Qed.

(** The replaced token among the entries [es]: legacy, until its end. *)
Lemma archived_token store es ix inow rid d s : index_of es = Ok ix -> current_of store = VDict d -> record_value (VDict d) = Some s ->
  truth (dget_or d "revoked" VNone) = false -> (forall e, e ∈ flat_map (rec_entries service "announce_token_previous" true) (archived store inow rid) -> e ∈ es) ->
  forall t grace lid, resolve_announce_bearer ix t grace (Some s) lid = Ok (AuthCtx (Principal "legacy" lid) "announce_token_previous" "announce") <->
    num_ltb t (FFin (Z.max 1 (inow + SEEDER_PREV_TTL) + grace) 0) = true.
Proof.
  intros Hix Hc Hval Hrev Hes t grace lid. set (a := archive SEEDER_PREV_TTL d inow rid). set (e := Entry service "announce_token_previous" (VDict a) true).
  destruct (archive_expiry d inow rid) as [Hexp Hrv]. assert (Hdh : dhas d "value" = true).
  { unfold record_value in Hval. rewrite dict_or_empty_dict in Hval. unfold dget_or in Hval. unfold dhas. by destruct (dget d "value"). }
  assert (Hav : dget a "value" = dget d "value") by (unfold a, archive; by rewrite dget_dset_ne, dget_dsetdefault, !dget_dset_ne by done).
  assert (Hh : holds s e) by (unfold holds, value_of, e; cbn; unfold dget_or; rewrite Hav; exact Hval).
  assert (Hin : e ∈ es).
  { apply Hes. unfold archived. rewrite Hc, Hdh. cbn. fold a. unfold dhas. rewrite Hav. unfold dhas in Hdh. rewrite Hdh. by left. }
  assert (Hvalid : forall t grace, valid (VDict a) t grace = Ok (num_ltb t (FFin (Z.max 1 (inow + SEEDER_PREV_TTL) + grace) 0))).
  { intros t' g'. rewrite (valid_until _ _ _ _ Hexp) by lia. by rewrite Hrv, Hrev. }
  rewrite (bearer_iff _ _ Hix). split.
  - intros (s' & x & [= <-] & (Hx & Hxh & Hxv) & _). assert (x = e) as ->.
    { apply (conj Hx), (credential_for_spec _ _ s x Hix) in Hxh. apply (conj Hin), (credential_for_spec _ _ s e Hix) in Hh. congruence. }
    unfold e in Hxv. cbn [en_record] in Hxv. rewrite Hvalid in Hxv. by injection Hxv.
  - intros Ht. exists s, e. split; [done |]. split; [| done]. split; [done |]. split; [done |]. unfold e. cbn [en_record]. by rewrite Hvalid, Ht.
Qed.

(** C18: after a rotation the seeder's new token authenticates it at once; the token it
    replaces, unless revoked, authenticates as legacy exactly until the end of its
    overlap, counted from the rotation; every earlier token that is still valid stays;
    and there are never more than two of them, each with an end, however often the token
    is rotated.  Unless the digest of the new value collides. *)
Theorem rotate_announce_overlap draw rid store now v store' ix :
  rotate_announce DEFAULT_TTL SEEDER_PREV_TTL draw rid store now = Ok (v, store') -> v <> "" -> dated_store store -> build_announce_index store = Ok ix ->
  (forall e s, e ∈ announce_entries store -> holds s e -> _credential_digest s = _credential_digest v -> s = v) ->
  exists inow ix', int_value (VFloat now) = Ok inow /\ build_announce_index store' = Ok ix' /\
    (forall t grace lid, resolve_announce_bearer ix' t grace (Some v) lid = Ok (AuthCtx service "announce_token" "announce")) /\
    (forall d s, current_of store = VDict d -> record_value (VDict d) = Some s -> truth (dget_or d "revoked" VNone) = false -> forall t grace lid,
       resolve_announce_bearer ix' t grace (Some s) lid = Ok (AuthCtx (Principal "legacy" lid) "announce_token_previous" "announce") <->
       num_ltb t (FFin (Z.max 1 (inow + SEEDER_PREV_TTL) + grace) 0) = true) /\
    (forall r r', r ∈ previous_of store -> stamp SEEDER_PREV_TTL r = Ok r' -> valid r' now 0 = Ok true -> r' ∈ previous_of store') /\
    zlen (previous_of store') <= SEEDER_PREV_CAP /\ dated_store store' /\ Forall ends (previous_of store').
Proof.
  intros Hrot Hv (l & Hl & Hd) Hix Hcol. pose proof Hix as Hix0. apply build_announce_index_iff in Hix as [Hs Hix]. unfold announce_shape in Hs. rewrite !andb_true_iff in Hs.
  destruct Hs as [[[[[Hs1 Hs2] Hs3] Hs4] Hs5] Hs6].
  destruct (rotate_spec _ _ _ _ _ _ l Hrot Hl Hs4) as (stamped & kept & inow & values & Hst & Hk & Hcap & Hi & Hfresh & Hknown & Hdev & Hsd & Hprev & Hcur).
  destruct (res_filter_spec _ _ _ Hk) as [Hsub Hkept]. destruct (stamped_values _ _ Hd Hst) as [Hends _].
  destruct (rotated_index _ _ _ _ inow rid v values ix Hix0 Hl Hd Hst Hsub Hfresh Hknown Hcol) as [ix' Hix'].
  assert (Hp' : previous_of store' = archived store inow rid ++ kept) by (unfold previous_of; by rewrite Hprev, iterate_list).
  assert (He' : announce_entries store' = flat_map (fun ds => device_entries ds "announce_token") (devices_of store) ++
    [Entry service "announce_token" (VDict (new_record v inow 0 None)) false] ++ flat_map (rec_entries service "announce_token_previous" true) (archived store inow rid ++ kept))
    by (unfold announce_entries, devices_of; rewrite Hdev, Hcur, Hp'; done).
  assert (Hpl : previous_of store = l) by (unfold previous_of; by rewrite Hl, iterate_list).
  assert (Harch : Forall ends (archived store inow rid)).
  { unfold archived. destruct (current_of store) as [| | | | | | d]; try constructor. destruct (dhas d "value"); repeat constructor. eexists _, _. split; [done |]. split; [apply archive_expiry | lia]. }
  assert (Hall : Forall ends (previous_of store')).
  { rewrite Hp'. apply Forall_app. split; [done |]. apply Forall_forall. intros r Hr. apply Hkept in Hr as [Hr _]. rewrite Forall_forall in Hends. by apply Hends. }
  rewrite <- He' in Hix'. exists inow, ix'. split; [done |]. split; [| split; [| split; [| split; [| split; [| split]]]]].
  - apply build_announce_index_iff. split; [| done]. unfold announce_shape, devices_of. rewrite Hdev, Hsd, Hcur, Hprev, iterate_list, !andb_true_iff. repeat split; try done.
    rewrite Hp' in Hall |- *. apply forallb_forall. intros r Hr. apply list_elem_of_In in Hr. rewrite Forall_forall in Hall. by destruct (Hall r Hr) as (d & z & -> & _).
  - intros t grace lid. apply (bearer_iff _ _ Hix'). eexists v, (Entry service "announce_token" (VDict (new_record v inow 0 None)) false). split; [done |]. split; [| done].
    split; [rewrite He', !elem_of_app, list_elem_of_singleton; auto |]. split; [by apply new_holds | done].
  - intros d s Hc Hval Hrev. apply (archived_token store (announce_entries store') ix' inow rid d s Hix' Hc Hval Hrev). intros e He. rewrite He', flat_map_app, !elem_of_app. auto.
  - intros r r' Hr Hsr Hvr. rewrite Hp', elem_of_app. right. apply Hkept. rewrite Hpl in Hr. apply list_elem_of_lookup_1 in Hr as [i Hr'].
    pose proof (proj1 (res_map_ok _ _ _) Hst) as Hf. destruct (Forall2_lookup_l _ _ _ _ _ Hf Hr') as (y & Hy & Hsy). assert (y = r') as -> by congruence.
    split; [by eapply list_elem_of_lookup_2 |]. rewrite Forall_forall in Hends. apply list_elem_of_lookup_2 in Hy. by destruct (Hends _ Hy) as (d & z & -> & _).
  - rewrite Hp', zlen_app. unfold SEEDER_PREV_CAP in *. assert (zlen (archived store inow rid) <= 1); [| lia]. unfold archived. destruct (current_of store) as [| | | | | | d]; try done. by destruct (dhas d "value").
  - exists (archived store inow rid ++ kept). split; [done |]. rewrite <- Hp'. eapply Forall_impl; [exact Hall | apply ends_dated].
  - done.
Qed.
End store.

(** ** Witnesses *)

(** No value on file has the digest of [v]. *)
Definition no_clash (es : list entry) (v : string) : bool :=
  forallb (fun s => negb (String.eqb (_credential_digest s) (_credential_digest v))) (held es).

Lemma no_clash_spec es v : no_clash es v = true -> forall e s, e ∈ es -> holds s e -> _credential_digest s = _credential_digest v -> s = v.
Proof.
  unfold no_clash. rewrite forallb_forall. intros H e s He Hs Hd. exfalso. assert (Hin : In s (held es)) by (apply list_elem_of_In, held_elem; by exists e).
  specialize (H s Hin). rewrite Hd, String.eqb_refl in H. discriminate H.
Qed.

Lemma mint_authenticates_witness : exists store', mint 604800 (fun _ => "n1") sample_store "e3" "announce_token" (FFin 100 0) = Ok ("n1", store') /\
  exists ix', build_announce_index store' = Ok ix' /\ forall t grace lid,
    resolve_announce_bearer ix' t grace (Some "n1") lid = Ok (AuthCtx (Principal "device" "e3") "announce_token" "announce") /\
    forall s ctx, s <> "n1" -> resolve_announce_bearer ix' t grace (Some s) lid = Ok ctx -> resolve_announce_bearer sample_announce_index t grace (Some s) lid = Ok ctx.
Proof.
  eexists. split; [reflexivity |]. apply (mint_authenticates 604800 (fun _ => "n1") sample_store "e3" (FFin 100 0)); [reflexivity | done | exact sample_announce_built |].
  apply no_clash_spec. vm_compute. reflexivity.
Defined.

Lemma sample_dated : dated_store sample_store.
Proof. eexists. split; [reflexivity |]. repeat constructor. eexists. split; [reflexivity |]. right. by eexists. Qed.

Lemma rotate_announce_overlap_witness : exists store', rotate_announce 604800 2592000 (fun _ => "n1") "r1" sample_store (FFin 100 0) = Ok ("n1", store') /\
  zlen (previous_of store') = 2 /\ Forall ends (previous_of store').
Proof.
  eexists. split; [reflexivity |]. split; [vm_compute; reflexivity |].
  destruct (rotate_announce_overlap 604800 2592000 (fun _ => "n1") "r1" sample_store (FFin 100 0) "n1" _ sample_announce_index eq_refl ltac:(done) sample_dated sample_announce_built)
    as (inow & ix' & _ & _ & _ & _ & _ & _ & _ & H); [apply no_clash_spec; vm_compute; reflexivity | exact H].
Defined.
