(* ===== verification/InstrKeySpec.v ===== *)
(** * Rotation of a device's instruction key

    A rotation leaves a current key and, unless the overlap is waived, the old one as its
    previous, both in the closed form the projections accept. *)
From S2P Require Import Prelude PyVal PolicyDoc PolicyEval Sha256 SchedTime Odict HandoutRows Tracker UrlText Secrets AuthSpec RotationSpec.

Lemma digest_canonical s : hex_re 64 (sha256_hexdigest s) = true.
Proof.
  unfold hex_re, sha256_hexdigest. rewrite bytes_of_string_of. destruct (digest_hex_ok (sha256_words (map byte_val (bytes_of s)))) as [Hl Hf].
  unfold zlen. rewrite Hl. cbn [andb]. apply forallb_forall. rewrite Forall_forall in Hf. intros c Hc. apply Hf. by apply list_elem_of_In.
Qed.

(** The closed form of a record. *)
Record key_record (previous : bool) (d : dict) (value : string) (created expires : Z) : Prop := {
  kr_keys : keys_are d _INSTRUCTION_RECORD_FIELDS = true;
  kr_value : dget d "value" = Some (VStr value);
  kr_hex : hex_re 64 value = true;
  kr_id : exists id, key_id_of value = Some id /\ dget d "key_id" = Some (VStr id);
  kr_created : dget d "created_at" = Some (VInt created) /\ 0 <= created;
  kr_expires : dget d "expires_at" = Some (VInt expires) /\ created < expires /\ (previous = false -> expires = created + INSTR_KEY_TTL);
  kr_revoked : exists b, dget d "revoked" = Some (VBool b);
  kr_scope : dget d "_scope" = Some (VStr "instructions") }.

Lemma dget_or_Some (d : dict) k v : v <> VNone -> dget_or d k VNone = v -> dget d k = Some v.
Proof. unfold dget_or. destruct (dget d k); cbn; congruence. Qed.

Lemma validate_iff r previous d : validate_instruction_key_record r previous = Ok d <-> r = VDict d /\ exists value created expires, key_record previous d value created expires.
Proof.
  unfold validate_instruction_key_record. split.
  - destruct r as [| | | | | | d0]; try discriminate. destruct (keys_are d0 _) eqn:Ek; [| discriminate]. cbn [negb].
    destruct (dget_or d0 "value" VNone) as [| | | | v | |] eqn:Ev; try discriminate. cbn [_canonical_hex text_of as_str from_option id].
    destruct (hex_re 64 v) eqn:Eh; [| discriminate]. cbn [negb orb]. destruct (negb (_canonical_hex _ 64)); [discriminate |].
    change (text_of (VStr v)) with v. destruct (key_id_of v) as [i |] eqn:Ei; [| discriminate]. destruct (py_eq (dget_or d0 "key_id" VNone) (VStr i)) eqn:Eq; [| discriminate]. cbn [negb].
    destruct (dget_or d0 "created_at" VNone) as [| | c | | | |] eqn:Ec; try discriminate. destruct (dget_or d0 "expires_at" VNone) as [| | e | | | |] eqn:Ee; try discriminate.
    destruct (Z.ltb_spec c 0); [discriminate |]. destruct (Z.leb_spec e c); [discriminate |]. destruct (negb previous && negb (e =? c + INSTR_KEY_TTL)) eqn:Ep; [discriminate |].
    destruct (dget_or d0 "revoked" VNone) as [| b | | | | |] eqn:Er; try discriminate. destruct (py_eq (dget_or d0 "_scope" VNone) (VStr "instructions")) eqn:Es; [| discriminate].
    intros [= <-]. split; [done |]. exists v, c, e. apply py_eq_text in Eq, Es. split; try done; try by apply dget_or_Some.
    + exists i. split; [done | by apply dget_or_Some].
    + split; [by apply dget_or_Some | done].
    + split; [by apply dget_or_Some |]. split; [lia |]. intros ->. cbn in Ep. destruct (Z.eqb_spec e (c + INSTR_KEY_TTL)); [done | discriminate Ep].
    + exists b. by apply dget_or_Some.
  - intros [-> (v & c & e & H)]. destruct H as [Hk Hv Hh (i & Hi & Hki) [Hc Hc0] (He & Hlt & Hp) (b & Hr) Hs]. unfold dget_or. rewrite Hk, Hv, Hki, Hc, He, Hr, Hs.
    cbn [negb from_option id _canonical_hex]. change (text_of (VStr v)) with v. rewrite Hh, Hi.
    assert (hex_re 64 i = true) as ->. { unfold key_id_of in Hi. destruct (unhexlify (bytes_of v)) as [x |]; [| discriminate Hi]. injection Hi as <-. apply digest_canonical. }
    cbn [negb orb]. rewrite (proj2 (py_eq_text (VStr i) i) eq_refl). cbn [negb]. destruct (Z.ltb_spec c 0); [lia |]. destruct (Z.leb_spec e c); [lia |].
    destruct previous; cbn [negb andb]; [done |]. rewrite (Hp eq_refl), Z.eqb_refl. done.
Qed.

(** An archived current record, with a later end, is a previous record. *)
Lemma archived_record d value created expires z : key_record false d value created expires -> created < z ->
  key_record true (dset d "expires_at" (VInt z)) value created z.
Proof.
  intros [Hk Hv Hh Hi Hc He Hr Hs] Hz. split; try done; rewrite ?dget_dset_ne by done; try done.
  - apply keys_are_dset; [done |]. by do 3 right; left.
  - rewrite dget_dset_eq. done.
Qed.

Lemma minted_record v now id : hex_re 64 v = true -> key_id_of v = Some id -> 0 <= now ->
  key_record false (new_record v now INSTR_KEY_TTL (Some id)) v now (now + INSTR_KEY_TTL).
Proof. intros Hh Hi Hn. split; try done; [by exists id | | by exists false]. split; [done |]. unfold INSTR_KEY_TTL. lia. Qed.

(** The values and key ids of a device's records are known to [mint]. *)
Lemma device_value_known store values dev records name d s : existing_values store = Ok values ->
  (dev, VDict records) ∈ devices_of store -> (name, VDict d) ∈ records -> dget d "value" = Some (VStr s) -> VStr s ∈ values.
Proof.
  intros Hv Hd Hr Hs. unfold existing_values in Hv. apply bind_ok in Hv as (pv & _ & Hv). apply bind_ok in Hv as (prev & _ & Hv). injection Hv as <-.
  rewrite elem_of_app. left. apply inventory_records. left. apply inventory_devices. right. by exists dev, records, name, d.
Qed.

Lemma device_id_known store dev records name d i : (dev, VDict records) ∈ devices_of store -> (name, VDict d) ∈ records -> dget d "key_id" = Some (VStr i) -> i ∈ existing_ids store.
Proof.
  intros Hd Hr Hs. unfold existing_ids. fold (devices_of store). apply elem_flat_map. exists (dev, VDict records). split; [done |]. cbn [snd]. rewrite dict_or_empty_dict.
  apply list_elem_of_omap. exists (name, VDict d). split; [done |]. cbn. unfold dget_or. by rewrite Hs.
Qed.

Lemma item_ok d k v : dget d k = Some v -> item (VDict d) k = Ok v.
Proof. intros H. unfold item. by rewrite H. Qed.

(** A new key beside the archived old one passes the check of a pair. *)
Lemma rotated_pair current value created expires v id inow (no_overlap : bool) :
  key_record false current value created expires -> hex_re 64 v = true -> key_id_of v = Some id -> 0 <= inow ->
  value <> v -> dget current "key_id" <> Some (VStr id) -> (no_overlap = false -> created < inow + INSTR_KEY_PREV_TTL) ->
  let cur' := new_record v inow INSTR_KEY_TTL (Some id) in
  let prev := if no_overlap then None else Some (dset current "expires_at" (VInt (inow + INSTR_KEY_PREV_TTL))) in
  validate_instruction_key_pair (VDict cur') (VDict <$> prev) = Ok (cur', prev).
Proof.
  intros Hkr Hh Hid Hn Hv Hi Hover cur' prev. unfold validate_instruction_key_pair.
  rewrite (proj2 (validate_iff (VDict cur') false cur')) by (split; [done |]; exists v, inow, (inow + INSTR_KEY_TTL); by apply minted_record). cbn [mbind res_bind].
  unfold prev. destruct no_overlap; [done |]. cbn [fmap option_fmap option_map]. pose proof (archived_record _ _ _ _ (inow + INSTR_KEY_PREV_TTL) Hkr (Hover eq_refl)) as Ha.
  rewrite (proj2 (validate_iff (VDict _) true _)) by (split; [done |]; by eexists _, _, _). cbn [mbind res_bind]. destruct (kr_id _ _ _ _ _ Hkr) as (ci & Hci & Hcid).
  assert (py_eq (dget_or cur' "key_id" VNone) (dget_or (dset current "expires_at" (VInt (inow + INSTR_KEY_PREV_TTL))) "key_id" VNone) = false) as ->.
  { unfold dget_or. rewrite dget_dset_ne, Hcid by done. cbn. apply String.eqb_neq. congruence. }
  assert (py_eq (dget_or cur' "value" VNone) (dget_or (dset current "expires_at" (VInt (inow + INSTR_KEY_PREV_TTL))) "value" VNone) = false) as ->; [| done].
  unfold dget_or. rewrite dget_dset_ne, (kr_value _ _ _ _ _ Hkr) by done. cbn. by apply String.eqb_neq.
Qed.

Section rotation.
Context (DEFAULT_TTL : Z).

(** Minting an instruction key for a known device. *)
Lemma mint_instr draw store dev now v store' records : dev <> "seeder" -> dget (devices_of store) dev = Some (VDict records) ->
  mint DEFAULT_TTL draw store dev "instr_key" (FFin now 0) = Ok (v, store') ->
  exists values id, existing_values store = Ok values /\ (VStr v ∉ values) /\ hex_re 64 v = true /\ key_id_of v = Some id /\ (id ∉ existing_ids store) /\
    dget store' "devices" = Some (VDict (dset (devices_of store) dev (VDict (dset records "instr_key" (VDict (new_record v now INSTR_KEY_TTL (Some id))))))) /\
    (forall k, k <> "devices" -> dget store' k = dget store k).
Proof.
  intros Hne Hdev H. apply mint_spec in H as (ty & values & kid & inow & [= <-] & Hv & Hi & Hfresh & Hput & id & -> & Hh & Hid & Hnew). cbn [ty_ttl] in Hput.
  assert (inow = now) as -> by (cbn in Hi; injection Hi as <-; lia). exists values, id. split; [done |]. split; [done |]. split; [done |]. split; [done |]. split; [done |].
  pose proof Hput as Hput'. destruct (put_device _ _ _ _ _ Hne Hput) as (_ & ds & d & Hd & Hg & Hd'). assert (Hds : devices_of store = ds) by (unfold devices_of, dget_or; by rewrite Hd).
  rewrite Hds in Hdev |- *. unfold dget_or in Hg. rewrite Hdev in Hg. injection Hg as ->. split; [done |]. intros k Hk. unfold put_record in Hput'.
  rewrite (proj2 (String.eqb_neq dev "seeder") Hne) in Hput'. cbn in Hput'. rewrite Hd in Hput'. cbn in Hput'. unfold dget_or in Hput'. rewrite Hdev in Hput'. cbn in Hput'. injection Hput' as <-.
  rewrite dget_dset_ne; [done | congruence].
Qed.

(** A rotation of a device's instruction key that succeeds leaves a pair the
    validator accepts: a new current key with its full lifetime, whose id is the answer
    and differs from the old one, and, unless the overlap is waived, the old key as
    previous, for exactly the overlap; no other record of the device and no other device
    is touched. *)
Theorem rotate_instruction_key_pair draw store dev now no_overlap id store' :
  rotate_instruction_key DEFAULT_TTL draw store dev now no_overlap = Ok (id, store') ->
  exists records current records' current' inow, int_value (VFloat now) = Ok inow /\
    dget (devices_of store) dev = Some (VDict records) /\ dget records "instr_key" = Some (VDict current) /\
    dget (devices_of store') dev = Some (VDict records') /\ dget records' "instr_key" = Some (VDict current') /\
    (let prev := if no_overlap then None else Some (dset current "expires_at" (VInt (inow + INSTR_KEY_PREV_TTL))) in
     dget records' "instr_key_prev" = VDict <$> prev /\ validate_instruction_key_pair (VDict current') (VDict <$> prev) = Ok (current', prev)) /\
    dget current' "key_id" = Some id /\ dget current "key_id" <> Some id /\
    (forall name, name <> "instr_key" -> name <> "instr_key_prev" -> dget records' name = dget records name) /\
    (forall k, k <> dev -> dget (devices_of store') k = dget (devices_of store) k).
Proof.
  unfold rotate_instruction_key. intros H. destruct (String.eqb dev "" || _) eqn:Edev; [discriminate H |]. apply orb_false_iff in Edev as [_ Hne]. apply String.eqb_neq in Hne.
  destruct (dget_or store "devices" VNone) as [| | | | | | ds] eqn:Ed; try discriminate H. apply dget_or_Some in Ed; [| done].
  assert (Hds : devices_of store = ds) by (unfold devices_of, dget_or; by rewrite Ed).
  destruct (dget ds dev) as [[| | | | | | records] |] eqn:Eg; try discriminate H. destruct (any_revoked records); [discriminate H |].
  destruct (dget records "instr_key") as [key |] eqn:Ek; [| discriminate H]. apply bind_ok in H as ([current previous] & Hpair & H).
  destruct (match previous with Some p => truth _ | None => false end); [discriminate H |]. apply bind_ok in H as (inow & Hi & H). destruct (int_value (VFloat now)) as [inow' |] eqn:Ei; [| discriminate Hi].
  injection Hi as ->. destruct (Z.ltb_spec inow 0); [discriminate H |]. destruct (negb no_overlap && match previous with Some p => _ | None => false end); [discriminate H |].
  destruct (negb no_overlap && (inow + INSTR_KEY_PREV_TTL <=? _)) eqn:Eover; [discriminate H |]. cbv zeta in H.
  assert (Hcur : key = VDict current /\ exists value created expires, key_record false current value created expires).
  { unfold validate_instruction_key_pair in Hpair. apply bind_ok in Hpair as (c & Hc & Hpair). assert (c = current) as ->; [| by apply validate_iff in Hc].
    destruct (dget records "instr_key_prev"); [| by injection Hpair]. apply bind_ok in Hpair as (q & _ & Hpair). destruct (py_eq _ _ || _); [discriminate Hpair | by injection Hpair]. }
  destruct Hcur as [-> (value & created & expires & Hkr)]. set (records1 := dpop records "instr_key_prev") in H. set (store1 := dset store "devices" _) in H.
  assert (Hd1 : devices_of store1 = dset ds dev (VDict records1)) by (unfold store1, devices_of, dget_or; by rewrite dget_dset_eq).
  apply bind_ok in H as ([v store2] & Hm & H). destruct (mint_instr draw store1 dev inow v store2 records1 Hne ltac:(rewrite Hd1; apply dget_dset_eq) Hm) as (values & i & Hvals & Hfresh & Hh & Hid & Hnew & Hdev2 & _).
  rewrite Hd1, dset_dset in Hdev2. set (cur' := new_record v inow INSTR_KEY_TTL (Some i)) in *. set (records2 := dset records1 "instr_key" (VDict cur')) in *.
  set (records3 := if no_overlap then records2 else dset records2 "instr_key_prev" (VDict (dset current "expires_at" (VInt (inow + INSTR_KEY_PREV_TTL))))).
  assert (H3 : exists store3, dget store3 "devices" = Some (VDict (dset ds dev (VDict records3))) /\
    (let* devices := item (VDict store3) "devices" in let* records := item devices dev in let* key := item records "instr_key" in let* id := item key "key_id" in Ok (id, store3)) = Ok (id, store')).
  { apply bind_ok in H as (store3 & Hs3 & H). exists store3. split; [| exact H]. unfold records3. destruct no_overlap; [by injection Hs3 as <- |].
    destruct (put_device _ _ _ _ _ Hne Hs3) as (_ & ds2 & d2 & He & Hg2 & ->). rewrite Hdev2 in He. injection He as <-. unfold dget_or in Hg2. rewrite dget_dset_eq in Hg2. injection Hg2 as <-. by rewrite dset_dset. }
  clear H. destruct H3 as (store3 & Hd3 & H). assert (Hk3 : dget records3 "instr_key" = Some (VDict cur')).
  { unfold records3. destruct no_overlap; rewrite ?dget_dset_ne by done; apply dget_dset_eq. }
  rewrite (item_ok _ _ _ Hd3) in H. cbn [mbind res_bind] in H. rewrite (item_ok _ _ _ (dget_dset_eq ds dev (VDict records3))) in H. cbn [mbind res_bind] in H.
  rewrite (item_ok _ _ _ Hk3) in H. cbn [mbind res_bind] in H. rewrite (item_ok cur' "key_id" (VStr i) eq_refl) in H. cbn [mbind res_bind] in H. injection H as <- <-.
  assert (Hin1 : (dev, VDict records1) ∈ devices_of store1) by (rewrite Hd1; apply dget_elem, dget_dset_eq).
  assert (Hin2 : ("instr_key", VDict current) ∈ records1) by (apply dget_elem; unfold records1; rewrite dget_dpop; done).
  assert (Hv' : value <> v) by (intros ->; apply Hfresh; exact (device_value_known _ _ _ _ _ _ _ Hvals Hin1 Hin2 (kr_value _ _ _ _ _ Hkr))).
  destruct (kr_id _ _ _ _ _ Hkr) as (ci & Hci & Hcid). assert (Hi' : ci <> i) by (intros ->; apply Hnew; exact (device_id_known _ _ _ _ _ _ Hin1 Hin2 Hcid)).
  assert (Hd3' : devices_of store3 = dset ds dev (VDict records3)) by (unfold devices_of, dget_or; by rewrite Hd3).
  exists records, current, records3, cur', inow. rewrite Hds, Hd3'. split; [done |]. split; [done |]. split; [done |]. split; [apply dget_dset_eq |]. split; [exact Hk3 |]. split; [| split; [done |]].
  - cbv zeta. split.
    + unfold records3. destruct no_overlap; [| apply dget_dset_eq]. unfold records2. rewrite dget_dset_ne by done. unfold records1. by rewrite dget_dpop.
    + apply (rotated_pair current value created expires); try done; [congruence |]. destruct no_overlap; [done |]. intros _. cbn [negb andb] in Eover.
      destruct (kr_created _ _ _ _ _ Hkr) as [Hcr _]. unfold dget_or in Eover. rewrite Hcr in Eover. cbn in Eover. by apply Z.leb_gt in Eover.
  - split; [congruence |]. split.
    + intros name H1 H2. unfold records3, records2, records1. destruct no_overlap; rewrite !dget_dset_ne by done; rewrite dget_dpop; by rewrite (proj2 (String.eqb_neq _ _)).
    + intros k Hk. rewrite dget_dset_ne; [done | congruence].
Qed.
End rotation.

(** ** Witness *)

Definition key_text (c : ascii) : string := string_of (repeat c 64).
Definition sample_key_store : dict :=
  [("devices", VDict [("e1", VDict [("instr_key", VDict (new_record (key_text "a") 1000 INSTR_KEY_TTL (key_id_of (key_text "a"))))])]); ("seeder", VDict [])].
Definition sample_rotated : pyval * dict :=
  match rotate_instruction_key 604800 (fun i => if (i =? 0)%nat then key_text "a" else key_text "b") sample_key_store "e1" (FFin 2000 0) false with Ok x => x | Err _ => (VNone, []) end.

(** The first draw repeats the current key and is passed over. *)
Lemma rotate_instruction_key_pair_witness :
  fst sample_rotated = match key_id_of (key_text "b") with Some i => VStr i | None => VNone end /\
  exists records', dget (devices_of (snd sample_rotated)) "e1" = Some (VDict records') /\ is_Some (dget records' "instr_key_prev").
Proof.
  split; [vm_compute; reflexivity |].
  destruct (rotate_instruction_key_pair 604800 (fun i => if (i =? 0)%nat then key_text "a" else key_text "b") sample_key_store "e1" (FFin 2000 0) false (fst sample_rotated) (snd sample_rotated))
    as (records & current & records' & current' & inow & _ & _ & _ & H1 & _ & [H2 _] & _).
  - vm_compute. reflexivity.
  - exists records'. split; [exact H1 |]. by rewrite H2.
Defined.
