(* ===== verification/TrackerWire.v ===== *)
(** * [server/tracker.py]: the wire format and the request handler

    The announce query, the bencoded replies, the scrape request, and [do_GET] with its
    authentication, around the announce handler of [Tracker].

    A query holds no white space (the request line is split at it); CPython's limit on
    the digits of an int is not modelled.  [netloc_ok] is the check of [urlsplit]. *)
From S2P Require Import Prelude PyVal Bencode Ipv4 PolicyDoc PolicyRoles PolicyEval PolicyStore Sha256 KeyedState.
From S2P Require Import Odict PeerRegistry PeerEndpoints Tracker UrlText Regex ApiRoutes Secrets Auth.

(** ** Addresses *)

Definition is_hex (c : ascii) : bool := match hex_val c with Some _ => true | None => false end.
Definition in_base (base : Z) (b : bytes) : Z := foldl (fun acc c => base * acc + default 0 (hex_val c)) 0 b.

(** [strtoul] with base 0, on text that starts with a digit. *)
Definition c_number (b : bytes) : option (Z * bytes) :=
  match b with
  | [] => None
  | c :: rest =>
      if negb (is_digit c) then None
      else if byte_eqb c "0" then
        match rest with
        | x :: h :: _ =>
            if (byte_eqb x "x" || byte_eqb x "X") && is_hex h then let '(run, rest) := span is_hex (tail rest) in Some (in_base 16 run, rest)
            else let '(run, rest) := span (in_range_c 48 55) b in Some (in_base 8 run, rest)
        | _ => let '(run, rest) := span (in_range_c 48 55) b in Some (in_base 8 run, rest)
        end
      else let '(run, rest) := span is_digit b in Some (in_base 10 run, rest)
  end.

(** [dots] more dots may follow. *)
Fixpoint aton (dots : nat) (b : bytes) : bool :=
  match c_number b with
  | None => false
  | Some (v, rest) =>
      match rest, dots with
      | "."%char :: rest, S dots => (v <=? 255) && aton dots rest
      | "."%char :: _, O => false
      | _, _ => match rest with [] => true | c :: _ => is_space c end && (v <? 256 ^ Z.of_nat (S dots))
      end
  end.

(** [socket.inet_aton] accepts. *)
Definition inet_aton (s : string) : bool := aton 3 (bytes_of s).

Definition _valid_ipv4 (addr : string) : bool :=
  let parts := split_on "." (bytes_of addr) in
  (length parts =? 4)%nat && inet_aton addr &&
  forallb (fun p => match py_int p with Some z => (0 <=? z) && (z <=? 255) | None => false end) parts.

Definition _OVERRIDE_NETS : list network := omap parse_network ["10.0.0.0/8"; "172.16.0.0/12"; "192.168.0.0/16"; "100.64.0.0/10"].

(** An IPv6 address is not in these networks either. *)
Definition _private_override (addr : string) : bool :=
  match parse_ipv4 addr with Some z => existsb (fun n => net_contains n z) _OVERRIDE_NETS | None => false end.

(** ** The announce query *)

Definition raw_fields (query : string) : list (string * bytes) :=
  foldl (fun raw kv => match partition "=" kv with Some (k, v) => dset raw (string_of k) v | None => raw end) [] (split_on "&" (bytes_of query)).

Definition as_int (raw : list (string * bytes)) (name : string) (otherwise : option Z) : option Z :=
  match dget raw name with
  | None => otherwise
  | Some v => match py_int v with Some z => Some z | None => otherwise end
  end.

Definition as_nonnegative (raw : list (string * bytes)) (name : string) : option Z :=
  z ← as_int raw name None; if 0 <=? z then Some z else None.

(** [b.decode("latin1")], in UTF-8. *)
Definition latin1 (b : bytes) : bytes :=
  flat_map (fun c => if byte_val c <? 128 then [c] else [byte_of (192 + byte_val c / 64); byte_of (128 + byte_val c mod 64)]) b.

Definition parse_announce (query : string) : announce_query :=
  let raw := raw_fields query in
  let port := default 6881 (as_int raw "port" (Some 6881)) in
  let ip :=
    match dget raw "ip" with
    | Some ((_ :: _) as b) => let s := string_of b in if _valid_ipv4 s && _private_override s then Some s else None
    | _ => None
    end in
  Query (string_of (hexlify (unquote_to_bytes (dget_or raw "info_hash" []))))
    (string_of (latin1 (unquote_to_bytes (dget_or raw "peer_id" []))))
    (if (1 <=? port) && (port <=? 65535) then Some port else None)
    (as_int raw "left" None) (string_of <$> dget raw "event") (default 50 (as_int raw "numwant" (Some 50)))
    (bool_decide (dget raw "compact" = Some (bytes_of "1"))) ip (as_nonnegative raw "uploaded") (as_nonnegative raw "downloaded").

(** ** Replies *)

Definition octet (b : bytes) : option Z := z ← py_int b; if (0 <=? z) && (z <=? 255) then Some z else None.

(** The six bytes of a peer; [None] is an entry that is passed over. *)
Definition compact_peer (peer : string * Z) : option bytes :=
  octets ← mapM octet (split_on "." (bytes_of (fst peer)));
  match octets with
  | [_; _; _; _] =>
      let port := snd peer in
      if (0 <=? Z.shiftr port 8) && (Z.shiftr port 8 <=? 255) then Some (map byte_of (octets ++ [Z.shiftr port 8; Z.land port 255])) else None
  | _ => None
  end.

Definition compact_peers (peers : list (string * Z)) : bytes := concat (omap compact_peer peers).

Definition bstr (s : string) : bobj := BStr (bytes_of s).

Definition build_announce_response (peers : list (string * Z)) (compact : bool) (interval min_interval : Z) : res bytes :=
  encode (BDict [(bstr "interval", BInt interval); (bstr "min interval", BInt min_interval);
    (bstr "peers",
     if compact then BBytes (compact_peers peers)
     else BList (map (fun p => BDict [(bstr "ip", bstr (fst p)); (bstr "peer id", bstr ""); (bstr "port", BInt (snd p))]) peers))]).

Definition build_scrape_response (info_hash_hex : string) (s : scrape_result) : res bytes :=
  match unhexlify (bytes_of info_hash_hex) with
  | None => Err (ValueError "Non-hexadecimal digit found")
  | Some raw =>
      encode (BDict [(bstr "files", BDict [(BBytes raw,
        BDict [(bstr "complete", BInt (s_complete s)); (bstr "incomplete", BInt (s_incomplete s)); (bstr "downloaded", BInt (s_downloaded s))])])])
  end.

Definition build_failure (reason : string) : res bytes := encode (BDict [(bstr "failure reason", bstr reason)]).

Record response := Response { r_status : Z; r_body : bytes; r_deprecation : bool }.

Definition _send (legacy_query : bool) (status : Z) (body : res bytes) : res response := let* b := body in Ok (Response status b legacy_query).

(** ** Requests *)

(** The Authorization header, the path and the query, and whether the route is registered. *)
Record request := Request { q_authorization : option string; q_path : string; q_query : string; q_registered : bool }.

(** A request with its target taken apart. *)
Definition parse_request (netloc_ok : bytes -> bool) (authorization : option string) (target : bytes) : res request :=
  let* parsed := urlparse netloc_ok target in
  let* route := match_ netloc_ok "tracker" "GET" target in
  Ok (Request authorization (string_of (u_path parsed)) (string_of (u_query parsed)) (bool_decide (route <> None))).

Definition _extract_token (q : request) : option string :=
  let value := default "" (q_authorization q) in
  if negb (String.prefix "Bearer " value) || negb (length (filter (fun c => c = " "%char) (bytes_of value)) =? 1)%nat then None
  else match string_of (drop 7 (bytes_of value)) with "" => None | token => Some token end.

Section server.
Context {S : Type} (has_store has_ledger : bool).
Context (write : principal -> string -> Z -> pyfloat -> sm S bool)
  (record_handout : principal -> list (string * Z) -> string -> pyfloat -> sm S bool)
  (attributions : S -> res LegacyAttributions).
Context (ticks : pyfloat -> Z) (second : Z) (randbelow : Z -> Z).
Context (netloc_ok : bytes -> bool) (grace : Z) (scrape_authorizer : option (string -> string -> res bool)).

(** The principal, and whether the query carried the credential; [None] is a refusal. *)
Definition _resolve_principal (q : request) (ix : index) (now : pyfloat) : sm (tracker (S:=S)) (option (AuthContext * bool)) := fun t =>
  let lid := _legacy_id "None" None in
  let answer :=
    match q_authorization q with
    | Some _ => let* ctx := resolve_announce_bearer ix now grace (_extract_token q) lid in Ok (ctx, false)
    | None => let* ctx := resolve_announce_principal ix now grace (q_query q) lid in Ok (ctx, true)
    end in
  match answer with
  | Ok ctx => (Ok (Some ctx), t)
  | Err (AnnounceAuthError _ expired) => (Ok None, signal_with (AnnounceRefused expired) t)
  | Err e => (Err e, t)
  end.

Definition refusal (q : request) : res response :=
  _send false (match q_authorization q with Some _ => 401 | None => 403 end) (build_failure "missing or invalid token").

Definition scrape_hash (query : string) : option bytes :=
  match List.find (fun kv => String.prefix "info_hash=" (string_of kv)) (split_on "&" (bytes_of query)) with
  | Some kv => Some (drop 10 kv)
  | None => None
  end.

Definition _handle_scrape (q : request) (p : principal) (legacy_query : bool) (now_read : Z) : sm (tracker (S:=S)) response := fun t =>
  match default [] (scrape_hash (q_query q)) with
  | [] => (_send legacy_query 400 (build_failure "scrape requires info_hash"), t)
  | quoted =>
      let info_hex := string_of (hexlify (unquote_to_bytes quoted)) in
      if negb (String.length info_hex =? 40)%nat then (_send legacy_query 400 (build_failure "info_hash must be 20 bytes"), t)
      else
        let allowed :=
          match scrape_authorizer with Some f => match f (p_id p) info_hex with Ok b => b | Err _ => false end | None => false end in
        if String.eqb (p_type p) "device" && negb allowed then (_send legacy_query 404 (build_failure "not found"), t)
        else
          let '((stats, _), g) := scrape info_hex now_read (t_registry t) in
          (_send legacy_query 200 (build_scrape_response info_hex stats), Tracker.Tracker g (t_store t) (t_queue t) (t_signals t))
  end.

Definition send_reply (legacy_query : bool) (r : reply) : res response :=
  match r with
  | Failure status reason => _send legacy_query status (build_failure reason)
  | Announced peers compact interval => _send legacy_query 200 (build_announce_response peers compact interval interval)
  end.

(** The answer to an authenticated request. *)
Definition dispatch_GET (q : request) (ctx : AuthContext) (legacy_query : bool) (socket_ip : string) (policy : option (Z * PolicyResult))
    (factor now : pyfloat) (now_read : Z) : sm (tracker (S:=S)) response := fun t =>
  if negb (q_registered q) then (_send legacy_query 404 (build_failure "not found"), t)
  else if String.eqb (q_path q) "/announce" then
    match _handle_announce has_store has_ledger write record_handout attributions ticks second randbelow
      (parse_announce (q_query q)) (ac_principal ctx) socket_ip policy factor now now_read t with
    | (Ok r, t) => (send_reply legacy_query r, t)
    | (Err e, t) => (Err e, t)
    end
  else if String.eqb (q_path q) "/scrape" then _handle_scrape q (ac_principal ctx) legacy_query now_read t
  else (_send legacy_query 404 (build_failure "not found"), t).

(** [view] is the credential store and its index, or the exception of reading them. *)
Definition do_GET (view : res index) (authorization : option string) (target : bytes) (socket_ip : string) (policy : option (Z * PolicyResult))
    (factor now : pyfloat) (now_read : Z) : sm (tracker (S:=S)) response := fun t =>
  match parse_request netloc_ok authorization target with
  | Err e => (Err e, t)
  | Ok q =>
      match view with
      | Err (DuplicateCredentialError _) | Err (StoreCorruptError _) | Err (OSError _) =>
          (_send false 503 (build_failure "credential store unavailable"), t)
      | Err e => (Err e, t)
      | Ok ix =>
          match _resolve_principal q ix now t with
          | (Err e, t) => (Err e, t)
          | (Ok None, t) => (refusal q, t)
          | (Ok (Some (ctx, legacy_query)), t) => dispatch_GET q ctx legacy_query socket_ip policy factor now now_read t
          end
      end
  end.

(** Every other method; the reply to HEAD has no body. *)
Definition _unsupported (head : bool) (view : res index) (authorization : option string) (target : bytes) (now : pyfloat) : sm (tracker (S:=S)) response := fun t =>
  match view with
  | Err (DuplicateCredentialError _) | Err (StoreCorruptError _) | Err (OSError _) =>
      (_send false 503 (build_failure "credential store unavailable"), t)
  | Err e => (Err e, t)
  | Ok ix =>
      match parse_request netloc_ok authorization target with
      | Err e => (Err e, t)
      | Ok q =>
          match _resolve_principal q ix now t with
          | (Err e, t) => (Err e, t)
          | (Ok None, t) => (refusal q, t)
          | (Ok (Some _), t) => (let* body := build_failure "method not allowed" in Ok (Response 405 (if head then [] else body) false), t)
          end
      end
  end.
End server.

(** ** Examples *)

Example parse_sample :
  parse_announce "info_hash=%01%02%ff&peer_id=-A2-%ff&port=6881&left=10&event=started&numwant=7&compact=1&ip=10.1.2.3&uploaded=-4&port=70000" =
  Query "0102ff" (string_of (latin1 (bytes_of "-A2-" ++ [byte_of 255]))) None (Some 10) (Some "started") 7 true (Some "10.1.2.3") None None.
Proof. vm_compute. reflexivity. Qed.

Example override_public : a_ip (parse_announce "ip=8.8.8.8") = None /\ a_ip (parse_announce "ip=127.0.0.1") = None /\ a_ip (parse_announce "ip=100.64.0.1") = Some "100.64.0.1".
Proof. vm_compute. done. Qed.

Example aton_forms : inet_aton "0x10.1.2.3" = true /\ inet_aton "08.1.2.3" = false /\ inet_aton "1.2.3" = true /\ inet_aton "1.2.3.4.5" = false.
Proof. vm_compute. done. Qed.
