(* ===== verification/WireSpec.v ===== *)
(** * What goes over the wire

    A client that reads the replies by the protocol gets the peers that were selected;
    the announce a client sends is parsed back; the address override is confined to
    private networks. *)
From S2P Require Import Prelude PyVal Bencode Ipv4 PolicyDoc PolicyRoles PolicyEval PolicyStore Sha256 KeyedState.
From S2P Require Import Odict PeerRegistry PeerEndpoints PeerHandouts Tracker UrlText Regex ApiRoutes Secrets Auth AuthSpec RotationSpec TrackerWire.

(** ** Compact peers *)

(** The client's reading: six bytes a peer, network order. *)
Fixpoint client_peers (b : bytes) : option (list (Z * Z)) :=
  match b with
  | [] => Some []
  | x1 :: x2 :: x3 :: x4 :: p :: q :: rest =>
      l ← client_peers rest;
      Some ((((byte_val x1 * 256 + byte_val x2) * 256 + byte_val x3) * 256 + byte_val x4, byte_val p * 256 + byte_val q) :: l)
  | _ => None
  end.

(** The address and port an entry stands for, if it is an IPv4 endpoint. *)
Definition peer_value (peer : string * Z) : option (Z * Z) :=
  octets ← mapM octet (split_on "." (bytes_of (fst peer)));
  match octets with
  | [a; b; c; d] => if (0 <=? snd peer) && (snd peer <=? 65535) then Some (((a * 256 + b) * 256 + c) * 256 + d, snd peer) else None
  | _ => None
  end.

Lemma octet_bounds b z : octet b = Some z -> 0 <= z <= 255.
Proof. unfold octet. destruct (py_int b) as [x |]; [| discriminate]. cbn. destruct (Z.leb_spec 0 x), (Z.leb_spec x 255); try discriminate. intros [= <-]. lia. Qed.

Lemma port_bytes port : (0 <=? Z.shiftr port 8) && (Z.shiftr port 8 <=? 255) = (0 <=? port) && (port <=? 65535) /\
  (0 <= port <= 65535 -> 0 <= Z.shiftr port 8 <= 255 /\ 0 <= Z.land port 255 <= 255 /\ Z.shiftr port 8 * 256 + Z.land port 255 = port).
Proof.
  rewrite Z.shiftr_div_pow2 by lia. change (2 ^ 8) with 256. assert (Hl : Z.land port 255 = port mod 256) by (change 255 with (Z.ones 8); by rewrite Z.land_ones by lia). rewrite Hl.
  pose proof (Z.div_mod port 256 ltac:(lia)). pose proof (Z.mod_pos_bound port 256 ltac:(lia)). split; [| intros Hp; split; [| split; lia]; split; [apply Z.div_pos; lia | apply Z.lt_succ_r, Z.div_lt_upper_bound; lia]].
  apply eq_true_iff_eq. rewrite !andb_true_iff, !Z.leb_le. split; intros ?; split; nia.
Qed.

Lemma compact_peer_spec peer : compact_peer peer = None /\ peer_value peer = None \/
  exists bytes zp, compact_peer peer = Some bytes /\ peer_value peer = Some zp /\ forall rest, client_peers (bytes ++ rest) = l ← client_peers rest; Some (zp :: l).
Proof.
  unfold compact_peer, peer_value. destruct (mapM octet (split_on "." (bytes_of (fst peer)))) as [octets |] eqn:E; [| by left].
  apply mapM_Some in E. cbn [mbind option_bind]. destruct (port_bytes (snd peer)) as [Hp Hb].
  destruct octets as [| a [| b [| c [| d [|]]]]]; try (left; done). rewrite Hp. destruct (Z.leb_spec 0 (snd peer)), (Z.leb_spec (snd peer) 65535); cbn [andb]; try (left; done).
  right. destruct Hb as (H1 & H2 & H3); [lia |]. eexists _, _. split; [reflexivity |]. split; [reflexivity |]. intros rest.
  assert (Hoct : forall x, x ∈ [a; b; c; d] -> 0 <= x < 256).
  { intros x Hx. apply list_elem_of_lookup_1 in Hx as [i Hi]. destruct (Forall2_lookup_r _ _ _ _ _ E Hi) as (y & _ & Hy). apply octet_bounds in Hy. lia. }
  cbn [map app client_peers]. rewrite !byte_val_of; try lia; [| apply Hoct; set_solver ..]. destruct (client_peers rest); cbn; [| done]. by rewrite H3.
Qed.

Lemma client_reads peers : client_peers (compact_peers peers) = Some (omap peer_value peers).
Proof.
  unfold compact_peers. induction peers as [| p peers IH]; [done |]. rewrite !omap_cons'. destruct (compact_peer_spec p) as [[-> ->] | (b & zp & -> & -> & H)]; [done |].
  cbn [concat]. by rewrite H, IH.
Qed.

(** ** Replies *)

Definition listed_peer (p : string * Z) : cval := CDict [(bytes_of "ip", CBytes (bytes_of (fst p))); (bytes_of "peer id", CBytes []); (bytes_of "port", CInt (snd p))].

Lemma canonical_listed peers :
  res_map canonical (map (fun p : string * Z => BDict [(bstr "ip", bstr (fst p)); (bstr "peer id", bstr ""); (bstr "port", BInt (snd p))]) peers) = Ok (map listed_peer peers).
Proof. induction peers as [| p peers IH]; [done |]. cbn [map res_map]. rewrite IH. reflexivity. Qed.

Lemma listed_distinct peers : foldr (fun c (P : Prop) => distinct_keys c /\ P) True (map listed_peer peers).
Proof. induction peers as [| p peers IH]; [done |]. cbn [map foldr]. split; [| done]. split; [cbn; by_eval | done]. Qed.

Lemma canonical_reply i m peers c : canonical peers = Ok c ->
  canonical (BDict [(bstr "interval", BInt i); (bstr "min interval", BInt m); (bstr "peers", peers)]) =
  Ok (CDict [(bytes_of "interval", CInt i); (bytes_of "min interval", CInt m); (bytes_of "peers", c)]).
Proof. intros H. cbn. rewrite H. reflexivity. Qed.

Lemma build_response_spec peers (compact : bool) i m :
  let v := if compact then CBytes (compact_peers peers) else CList (map listed_peer peers) in
  let c := CDict [(bytes_of "interval", CInt i); (bytes_of "min interval", CInt m); (bytes_of "peers", v)] in
  build_announce_response peers compact i m = Ok (render c) /\ distinct_keys c.
Proof.
  intros v c. split.
  - unfold build_announce_response. rewrite encode_spec, (canonical_reply i m _ v); [done |]. unfold v. destruct compact; [done |].
    cbn [canonical]. rewrite canonical_listed. done.
  - split; [cbn; by_eval |]. cbn [foldr snd]. split; [done |]. split; [done |]. split; [| done]. unfold v. destruct compact; [done | apply listed_distinct].
Qed.

(** C17: a client reads back what the tracker selected: the reply to an announce always
    encodes, decodes to the interval and the peers, and the compact form read six bytes
    at a time is the addresses and ports of exactly the peers that are IPv4 endpoints, in
    order; a peer that is none does not disturb the others. *)
Theorem announce_reply_read peers (compact : bool) i m : exists body v,
  build_announce_response peers compact i m = Ok body /\
  decode body = Ok (BDict [(BBytes (bytes_of "interval"), BInt i); (BBytes (bytes_of "min interval"), BInt m); (BBytes (bytes_of "peers"), v)]) /\
  if compact then exists b, v = BBytes b /\ client_peers b = Some (omap peer_value peers)
  else v = BList (map (fun p : string * Z => BDict [(BBytes (bytes_of "ip"), BBytes (bytes_of (fst p))); (BBytes (bytes_of "peer id"), BBytes []); (BBytes (bytes_of "port"), BInt (snd p))]) peers).
Proof.
  destruct (build_response_spec peers compact i m) as [H Hd]. eexists _, (embed (if compact then CBytes (compact_peers peers) else CList (map listed_peer peers))).
  split; [exact H |]. split; [by rewrite (decode_render _ Hd) |]. destruct compact.
  - exists (compact_peers peers). split; [done | apply client_reads].
  - cbn [embed]. f_equal. rewrite map_map. by apply map_ext.
Qed.

(** ** The announce query *)

Definition clear_of (c : ascii) (b : bytes) : Prop := Forall (fun x => x <> c) b.

Fixpoint join (c : ascii) (parts : list bytes) : bytes :=
  match parts with [] => [] | [p] => p | p :: parts => p ++ c :: join c parts end.

Lemma split_join c parts : parts <> [] -> Forall (clear_of c) parts -> split_on c (join c parts) = parts.
Proof.
  intros Hne H. induction H as [| p parts Hp Hall IH]; [done |]. destruct parts as [| q parts]; [by apply split_last |].
  change (join c (p :: q :: parts)) with (p ++ c :: join c (q :: parts)). by rewrite split_line, IH.
Qed.

Lemma partition_clear c k v : clear_of c k -> partition c (k ++ c :: v) = Some (k, v).
Proof. induction 1 as [| x k Hx _ IH]; cbn; unfold byte_eqb; [by rewrite bool_decide_true |]. rewrite bool_decide_false by done. by rewrite IH. Qed.

(** The text of a list of fields, as a client writes it. *)
Definition query_text (fields : list (string * bytes)) : string := string_of (join "&" (map (fun kv => bytes_of (fst kv) ++ "="%char :: snd kv) fields)).

Lemma raw_query fields : fields <> [] -> Forall (fun kv => clear_of "=" (bytes_of (fst kv)) /\ clear_of "&" (bytes_of (fst kv)) /\ clear_of "&" (snd kv)) fields ->
  raw_fields (query_text fields) = foldl (fun raw kv => dset raw (fst kv) (snd kv)) [] fields.
Proof.
  intros Hne Hf. unfold raw_fields, query_text. rewrite bytes_of_string_of, split_join.
  - generalize (@nil (string * bytes)). clear Hne. induction Hf as [| [k v] fields (Hk & _ & _) Hf IH]; intros raw; [done |]. cbn [map foldl fst snd].
    rewrite partition_clear by done. cbn. rewrite IH. unfold string_of, bytes_of. by rewrite String.string_of_list_ascii_of_string.
  - by destruct fields.
  - apply Forall_map. eapply Forall_impl; [exact Hf |]. intros [k v] (_ & Hk & Hv). cbn. apply Forall_app. split; [done |]. by constructor.
Qed.

Lemma dec_clear z : clear_of "&" (dec z).
Proof. eapply Forall_impl; [apply dec_chars |]. intros c [H | ->]; [| done]. intros ->. discriminate H. Qed.

Lemma quote_clear b : clear_of "&" (quote_all b).
Proof.
  assert (Hh : forall z, hex_digit z <> "&"%char) by (intros z E; pose proof (hex_digit_ok z) as H; rewrite E in H; discriminate H).
  induction b as [| c b IH]; [constructor |]. unfold quote_all in *. cbn. repeat constructor; try done; apply Hh.
Qed.

(** What a client announces. *)
Definition announce_fields (h pid : bytes) (port up down left numwant : Z) (compact : bool) (event : option string) : list (string * bytes) :=
  [("info_hash", quote_all h); ("peer_id", quote_all pid); ("port", dec port); ("uploaded", dec up); ("downloaded", dec down); ("left", dec left);
   ("numwant", dec numwant); ("compact", if compact then bytes_of "1" else bytes_of "0")] ++ match event with Some e => [("event", bytes_of e)] | None => [] end.

(** C23: the tracker reads an announce as it was meant: for any binary hash and peer id,
    any counters, and with or without an event, parsing the query a client writes gives
    back each field; a port outside 1-65535 and a negative counter are dropped, and
    without an override the address is left to the connection. *)
Theorem parse_announce_read h pid port up down left numwant compact event :
  (forall e, event = Some e -> clear_of "&" (bytes_of e)) ->
  parse_announce (query_text (announce_fields h pid port up down left numwant compact event)) =
  Query (string_of (hexlify h)) (string_of (latin1 pid)) (if (1 <=? port) && (port <=? 65535) then Some port else None) (Some left) event numwant compact None
    (if 0 <=? up then Some up else None) (if 0 <=? down then Some down else None).
Proof.
  intros He. unfold parse_announce. rewrite raw_query.
  - unfold announce_fields. rewrite foldl_app. cbn [foldl fst snd dset String.eqb Ascii.eqb Bool.eqb].
    assert (Hraw : forall k, dget (foldl (fun raw kv => dset raw (fst kv) (snd kv))
      [("info_hash", quote_all h); ("peer_id", quote_all pid); ("port", dec port); ("uploaded", dec up); ("downloaded", dec down); ("left", dec left); ("numwant", dec numwant);
       ("compact", if compact then bytes_of "1" else bytes_of "0")] (match event with Some e => [("event", bytes_of e)] | None => [] end)) k =
      if String.eqb k "event" then bytes_of <$> event else
      dget [("info_hash", quote_all h); ("peer_id", quote_all pid); ("port", dec port); ("uploaded", dec up); ("downloaded", dec down); ("left", dec left); ("numwant", dec numwant);
       ("compact", if compact then bytes_of "1" else bytes_of "0")] k).
    { intros k. destruct event as [e |]; cbn [foldl fst snd fmap option_fmap option_map]; [rewrite dget_dset, (String.eqb_sym "event" k); by destruct (String.eqb k "event") |].
      destruct (String.eqb_spec k "event") as [-> |]; done. }
    unfold as_nonnegative, as_int, dget_or. rewrite !Hraw. cbn. rewrite !unquote_quote_all, !py_int_dec. cbn. f_equal.
    + destruct event as [e |]; [| done]. cbn. unfold string_of, bytes_of. by rewrite String.string_of_list_ascii_of_string.
    + by destruct compact.
  - done.
  - unfold announce_fields. apply Forall_app. split.
    + repeat constructor; cbn; try by_eval; try apply quote_clear; try apply dec_clear; try (destruct compact; by_eval).
    + destruct event as [e |]; [| constructor]. repeat constructor; try by_eval. by apply He.
Qed.

(** ** The address override *)

Lemma land_prefix k z : 0 <= k <= 32 -> 0 <= z < 2 ^ 32 -> Z.land z (2 ^ 32 - 2 ^ k) = z / 2 ^ k * 2 ^ k.
Proof.
  intros Hk Hz. assert (Hm : 2 ^ 32 - 2 ^ k = Z.ldiff (Z.ones 32) (Z.ones k)).
  { rewrite Z.ldiff_ones_r, Z.shiftr_div_pow2, Z.shiftl_mul_pow2, Z.ones_equiv by lia. rewrite <- (Zplus_minus k 32), Z.pow_add_r by lia.
    assert (Hp : 0 < 2 ^ k) by (apply Z.pow_pos_nonneg; lia). assert (Hq : 0 < 2 ^ (32 - k)) by (apply Z.pow_pos_nonneg; lia).
    rewrite <- (Z.div_unique (Z.pred (2 ^ k * 2 ^ (32 - k))) (2 ^ k) (2 ^ (32 - k) - 1) (2 ^ k - 1)); [nia | lia | nia]. }
  rewrite Hm. assert (Hl : Z.land z (Z.ldiff (Z.ones 32) (Z.ones k)) = Z.ldiff (Z.land z (Z.ones 32)) (Z.ones k)).
  { apply Z.bits_inj'. intros n Hn. rewrite !Z.land_spec, !Z.ldiff_spec, Z.land_spec. by rewrite andb_assoc. }
  rewrite Hl, Z.land_ones, Z.mod_small, Z.ldiff_ones_r, Z.shiftr_div_pow2, Z.shiftl_mul_pow2 by lia. done.
Qed.

Lemma in_prefix k base z : 0 <= k <= 32 -> 0 <= z < 2 ^ 32 -> net_contains (Network (base * 2 ^ k) (2 ^ 32 - 2 ^ k)) z = true -> base * 2 ^ k <= z < (base + 1) * 2 ^ k.
Proof.
  intros Hk Hz. unfold net_contains. cbn [net_base net_mask]. rewrite land_prefix by done. intros H%Z.eqb_eq.
  assert (Hp : 0 < 2 ^ k) by (apply Z.pow_pos_nonneg; lia). pose proof (Z.div_mod z (2 ^ k) ltac:(lia)). pose proof (Z.mod_pos_bound z (2 ^ k) Hp). nia.
Qed.

(** An announce never moves a peer to a public address: whatever the query says, an
    address override that the parser lets through is a dotted quad in 10/8, 172.16/12,
    192.168/16 or 100.64/10. *)
Theorem override_private query ip : a_ip (parse_announce query) = Some ip -> exists z, parse_ipv4 ip = Some z /\
  (10 * 2 ^ 24 <= z < 11 * 2 ^ 24 \/ (172 * 256 + 16) * 2 ^ 16 <= z < (172 * 256 + 32) * 2 ^ 16 \/
   (192 * 256 + 168) * 2 ^ 16 <= z < (192 * 256 + 169) * 2 ^ 16 \/ (100 * 256 + 64) * 2 ^ 16 <= z < (100 * 256 + 128) * 2 ^ 16).
Proof.
  unfold parse_announce. cbn [a_ip]. destruct (dget (raw_fields query) "ip") as [[| c b] |]; try discriminate.
  destruct (_valid_ipv4 _ && _private_override _) eqn:E; [| discriminate]. intros [= <-]. apply andb_true_iff in E as [_ E].
  unfold _private_override in E. destruct (parse_ipv4 _) as [z |] eqn:Ez; [| discriminate]. exists z. split; [done |].
  apply parse_ipv4_bounds in Ez. change all_ones with (2 ^ 32 - 1) in Ez.
  assert (Hnets : _OVERRIDE_NETS = [Network (10 * 2 ^ 24) (2 ^ 32 - 2 ^ 24); Network ((172 * 16 + 1) * 2 ^ 20) (2 ^ 32 - 2 ^ 20);
    Network ((192 * 256 + 168) * 2 ^ 16) (2 ^ 32 - 2 ^ 16); Network ((100 * 4 + 1) * 2 ^ 22) (2 ^ 32 - 2 ^ 22)]) by (vm_compute; reflexivity).
  rewrite Hnets in E. unfold existsb in E. rewrite !orb_true_iff in E.
  destruct E as [E | [E | [E | [E | E]]]]; [apply in_prefix in E; lia .. | discriminate].
Qed.

(** ** Requests *)

Section requests.
Context {S : Type} (has_store has_ledger : bool).
Context (write : principal -> string -> Z -> pyfloat -> sm S bool)
  (record_handout : principal -> list (string * Z) -> string -> pyfloat -> sm S bool)
  (attributions : S -> res LegacyAttributions).
Context (ticks : pyfloat -> Z) (second : Z) (randbelow : Z -> Z).
Context (netloc_ok : bytes -> bool) (grace : Z) (scrape_authorizer : option (string -> string -> res bool)).

Abbreviation handle := (_handle_announce has_store has_ledger write record_handout attributions ticks second randbelow).
Abbreviation get := (do_GET has_store has_ledger write record_handout attributions ticks second randbelow netloc_ok grace scrape_authorizer).
Abbreviation scrape_for := (_handle_scrape (S := S) scrape_authorizer).

(** The credential a request shows: the header's token if there is a header, otherwise
    what the query says. *)
Definition shows (es : list entry) (now : pyfloat) (q : request) (s : string) : Prop :=
  match q_authorization q with Some _ => _extract_token q = Some s | None => presents es now grace (_raw_pairs (q_query q)) s end.

Definition header_less (q : request) : bool := match q_authorization q with Some _ => false | None => true end.

Lemma send_status legacy status body r : _send legacy status body = Ok r -> r_status r = status.
Proof. unfold _send. destruct body; [| discriminate]. by intros [= <-]. Qed.

Lemma resolve_principal_spec store ix q now t : build_announce_index store = Ok ix ->
  let es := announce_entries store in let lid := _legacy_id "None" None in
  match _resolve_principal (S := S) grace q ix now t with
  | (Ok (Some (ctx, legacy)), t') => t' = t /\ legacy = header_less q /\ exists s e, shows es now q s /\ live es now grace s e /\ ctx = context_of e lid
  | (Ok None, t') => (exists b, t' = signal_with (AnnounceRefused b) t) /\ forall s e, q_authorization q <> None -> _extract_token q = Some s -> ~ live es now grace s e
  | (Err _, t') => t' = t
  end.
Proof.
  intros H es lid. apply build_announce_index_iff in H as [_ H]. fold es in H. unfold _resolve_principal, shows, header_less. fold lid.
  destruct (q_authorization q) as [a |].
  - destruct (resolve_announce_bearer ix now grace (_extract_token q) lid) as [ctx | err] eqn:E; cbn.
    + split; [done |]. split; [done |]. apply (bearer_iff es ix H) in E as (s & e & -> & Hl & ->). by exists s, e.
    + destruct err; try done. split; [by eexists |]. intros s e _ Hs Hl.
      assert (Hok : resolve_announce_bearer ix now grace (_extract_token q) lid = Ok (context_of e lid)) by (apply (bearer_iff es ix H); by exists s, e). congruence.
  - destruct (resolve_announce_principal ix now grace (q_query q) lid) as [ctx | err] eqn:E; cbn.
    + split; [done |]. split; [done |]. apply (query_sound es ix H) in E as (s & e & Hp & Hl & ->). by exists s, e.
    + destruct err; try done. split; [by eexists |]. done.
Qed.

Lemma handle_failure a p ip policy factor now now_read t status reason t' :
  handle a p ip policy factor now now_read t = (Ok (Failure status reason), t') -> status = 400.
Proof.
  unfold _handle_announce. destruct (negb _); [by intros [= <- _ _] |]. cbn zeta. destruct (let* qos := _ in _) as [[qos restricted] |]; [| discriminate].
  unfold answer. destruct (a_port a) as [port |].
  - destruct (_persist_endpoint _ _ _ _ _ _ _) as [[[] | e] t1]; [| discriminate]. destruct (_select _ _ _ _ _ _ _ _ _ _) as [[out | e] g]; [| discriminate].
    destruct (_record_selected _ _ _ _ _ _ _) as [out' t2]. discriminate.
  - destruct (_select _ _ _ _ _ _ _ _ _ _) as [[out | e] g]; [| discriminate]. destruct (_record_selected _ _ _ _ _ _ _) as [out' t2]. discriminate.
Qed.

Lemma reply_status legacy r resp : (forall status reason, r = Failure status reason -> status = 400) -> send_reply legacy r = Ok resp -> r_status resp = 400 \/ r_status resp = 200.
Proof. intros Hf. destruct r as [status reason | peers compact interval]; unfold send_reply; intros H; apply send_status in H; [left; rewrite H; by eapply Hf | by right]. Qed.

Lemma scrape_status q p legacy now_read t r t' : scrape_for q p legacy now_read t = (Ok r, t') -> r_status r ∈ [400; 404; 200].
Proof.
  unfold _handle_scrape. intros H. destruct (default [] (scrape_hash (q_query q))) as [| c quoted]; [apply pair_equal_spec in H as [H _]; apply send_status in H; rewrite H; by left |].
  destruct (negb _); [apply pair_equal_spec in H as [H _]; apply send_status in H; rewrite H; by left |]. cbn zeta in H. destruct (_ && _); [apply pair_equal_spec in H as [H _]; apply send_status in H; rewrite H; right; by left |].
  destruct (scrape _ _ _) as [[stats w] g]. apply pair_equal_spec in H as [H _]. apply send_status in H. rewrite H. right; right; by left.
Qed.

(** C10: no request is served without a live credential, and a live one in the header is
    never refused: an answer of the tracker is either the refusal, with the registry,
    the stores and the queue untouched, or the request showed a token that some record
    of the credential store holds, neither revoked nor expired; an announce is then
    handled as the owner of that record and as nobody else. *)
Theorem request_authenticated store ix authorization target q socket_ip policy factor now now_read t r t' : build_announce_index store = Ok ix ->
  parse_request netloc_ok authorization target = Ok q ->
  get (Ok ix) authorization target socket_ip policy factor now now_read t = (Ok r, t') ->
  let es := announce_entries store in
  (exists s e, shows es now q s /\ live es now grace s e /\ r_status r <> 401 /\ r_status r <> 403 /\
    (q_registered q = true -> q_path q = "/announce" -> exists reply,
       handle (parse_announce (q_query q)) (ac_principal (context_of e (_legacy_id "None" None))) socket_ip policy factor now now_read t = (Ok reply, t') /\
       send_reply (header_less q) reply = Ok r)) \/
  (refusal q = Ok r /\ (r_status r = 401 \/ r_status r = 403) /\ t_registry t' = t_registry t /\ t_store t' = t_store t /\ t_queue t' = t_queue t /\
    forall s e, q_authorization q <> None -> _extract_token q = Some s -> ~ live es now grace s e).
Proof.
  intros Hb Hq H es. unfold do_GET in H. rewrite Hq in H. pose proof (resolve_principal_spec store ix q now t Hb) as Hp. cbn zeta in Hp. fold es in Hp.
  destruct (_resolve_principal grace q ix now t) as [[[[ctx legacy] |] | e] t1]; [| | discriminate].
  - destruct Hp as (-> & -> & s & e & Hs & Hl & ->). left. exists s, e. split; [done |]. split; [done |].
    unfold dispatch_GET in H. destruct (q_registered q); cbn [negb] in H; [| apply pair_equal_spec in H as [H _]; apply send_status in H; split; [lia |]; split; [lia | done]].
    destruct (String.eqb_spec (q_path q) "/announce") as [Hpath |].
    + destruct (handle _ _ _ _ _ _ _ _) as [[reply |] t2] eqn:Eh; [| discriminate]. apply pair_equal_spec in H as [H <-].
      assert (Hr : r_status r = 400 \/ r_status r = 200) by (eapply reply_status; [| exact H]; intros status reason ->; by apply handle_failure in Eh).
      split; [lia |]. split; [lia |]. intros _ _. exists reply. done.
    + destruct (String.eqb (q_path q) "/scrape").
      * apply scrape_status in H. rewrite !elem_of_cons, elem_of_nil in H. split; [lia |]. split; [lia | done].
      * apply pair_equal_spec in H as [H _]. apply send_status in H. split; [lia |]. split; [lia | done].
  - apply pair_equal_spec in H as [H <-]. right. destruct Hp as [[b ->] Hn]. split; [done |]. split; [unfold refusal in H; apply send_status in H; destruct (q_authorization q); lia | done].
Qed.

(** The counts of one torrent, as a client reads them. *)
Definition scraped (raw : bytes) (complete incomplete downloaded : Z) : bobj :=
  BDict [(BBytes (bytes_of "files"), BDict [(BBytes raw,
    BDict [(BBytes (bytes_of "complete"), BInt complete); (BBytes (bytes_of "downloaded"), BInt downloaded); (BBytes (bytes_of "incomplete"), BInt incomplete)])])].

Lemma build_scrape_spec raw stats : exists body,
  build_scrape_response (string_of (hexlify raw)) stats = Ok body /\ decode body = Ok (scraped raw (s_complete stats) (s_incomplete stats) (s_downloaded stats)).
Proof.
  set (c := CDict [(bytes_of "files", CDict [(raw,
    CDict [(bytes_of "complete", CInt (s_complete stats)); (bytes_of "downloaded", CInt (s_downloaded stats)); (bytes_of "incomplete", CInt (s_incomplete stats))])])]).
  exists (render c). unfold build_scrape_response. rewrite bytes_of_string_of, unhexlify_hexlify, encode_spec. split; [done |].
  rewrite decode_render; [done |]. split; [cbn; by_eval |]. cbn [foldr snd]. split; [| done]. split; [apply NoDup_singleton |]. cbn [foldr snd]. split; [| done]. split; [cbn; by_eval | done].
Qed.

(** What the tracker keeps besides its signals. *)
Definition kept (t t' : tracker (S := S)) : Prop := t_registry t' = t_registry t /\ t_store t' = t_store t /\ t_queue t' = t_queue t.

(** The answer to a scrape of an authenticated principal. *)
Definition scrape_answer (q : request) (p : principal) (now_read : Z) (t : tracker (S := S)) (r : response) (t' : tracker (S := S)) : Prop :=
  exists asked, scrape_hash (q_query q) = Some asked /\
    let raw := unquote_to_bytes asked in let hash := string_of (hexlify raw) in
    let g := snd (_read_prune_locked now_read false (t_registry t)) in let records := map snd (swarm_of g hash) in
    length raw = 20%nat /\ (p_type p = "device" -> exists f, scrape_authorizer = Some f /\ f (p_id p) hash = Ok true) /\
    decode (r_body r) = Ok (scraped raw (seeders records) (zlen records - seeders records) (completions g hash)) /\
    t_registry t' = g /\ t_store t' = t_store t /\ t_queue t' = t_queue t.

Lemma scrape_spec q p legacy now_read t r t' : scrape_for q p legacy now_read t = (Ok r, t') ->
  r_status r = 200 /\ scrape_answer q p now_read t r t' \/ r_status r <> 200 /\ t' = t /\ forall t2, scrape_for q p legacy now_read t2 = (Ok r, t2).
Proof.
  intros H. unfold _handle_scrape in H |- *. destruct (scrape_hash (q_query q)) as [[| c quoted] |] eqn:Eh; cbn [from_option id] in H |- *.
  1, 3: apply pair_equal_spec in H as [H <-]; right; rewrite (send_status _ _ _ _ H); split; [lia |]; split; [done |]; intros t2; by rewrite H.
  set (raw := unquote_to_bytes (c :: quoted)) in *. destruct (String.length _ =? 40)%nat eqn:El; cbn [negb] in H |- *.
  2: { apply pair_equal_spec in H as [H <-]. right. rewrite (send_status _ _ _ _ H). split; [lia |]. split; [done |]. intros t2. by rewrite H. }
  cbn zeta in H |- *. set (allowed := match scrape_authorizer with Some f => _ | None => _ end) in *. destruct (_ && _) eqn:Ea.
  { right. apply pair_equal_spec in H as [H <-]. rewrite (send_status _ _ _ _ H). split; [lia |]. split; [done |]. intros t2. by rewrite H. }
  left. unfold scrape in H. destruct (_read_prune_locked _ _ _) as [events g] eqn:Eg.
  destruct (build_scrape_spec raw (ScrapeResult (seeders (map snd (swarm_of g (string_of (hexlify raw))))) (zlen (map snd (swarm_of g (string_of (hexlify raw)))) - seeders (map snd (swarm_of g (string_of (hexlify raw))))) (completions g (string_of (hexlify raw)))))
    as (body & Hb & Hd). rewrite Hb in H. unfold _send in H. cbn [mbind res_bind] in H. apply pair_equal_spec in H as [H <-]. injection H as <-. split; [done |].
  exists (c :: quoted). split; [done |]. fold raw. cbv zeta. rewrite Eg. cbn [snd]. split.
  { apply Nat.eqb_eq in El. rewrite string_length, bytes_of_string_of, length_hexlify in El. lia. }
  split; [| split; [exact Hd | done]]. intros Ht. rewrite Ht in Ea. cbn in Ea. rewrite negb_false_iff in Ea. subst allowed. destruct scrape_authorizer as [f |]; [| discriminate Ea].
  exists f. split; [done |]. by destruct (f _ _) as [[|] |].
Qed.

(** Who is asking does not depend on the tracker. *)
Lemma resolve_principal_frame q ix now t t2 : fst (_resolve_principal (S := S) grace q ix now t2) = fst (_resolve_principal (S := S) grace q ix now t).
Proof. unfold _resolve_principal. destruct (match q_authorization q with Some _ => _ | None => _ end) as [| e]; [done |]. by destruct e. Qed.

(** C24: a scrape tells a principal about one swarm, and a device only about one it may
    see: counts are sent only to the owner of a live credential; they are the seeders,
    leechers and completions the pruned registry has for the very hash that was asked for,
    under that hash and nothing else; and when the owner is a device, the authorizer
    granted it that hash.  Every other answer leaves the registry, the store and the queue
    as they are and is the same whatever the registry holds. *)
Theorem scrape_confined store ix authorization target q socket_ip policy factor now now_read t r t' : build_announce_index store = Ok ix ->
  parse_request netloc_ok authorization target = Ok q -> q_path q = "/scrape" ->
  get (Ok ix) authorization target socket_ip policy factor now now_read t = (Ok r, t') ->
  let es := announce_entries store in
  (r_status r = 200 /\ exists s e, shows es now q s /\ live es now grace s e /\ scrape_answer q (ac_principal (context_of e (_legacy_id "None" None))) now_read t r t') \/
  (r_status r <> 200 /\ kept t t' /\ forall t2, exists t2', get (Ok ix) authorization target socket_ip policy factor now now_read t2 = (Ok r, t2') /\ kept t2 t2').
Proof.
  intros Hb Hq Hpath H es. unfold do_GET in H |- *. rewrite Hq in H |- *.
  assert (Hsame : forall t2, match _resolve_principal (S := S) grace q ix now t2 with (Ok None, u) => kept t2 u | (_, u) => u = t2 end).
  { intros t2. unfold _resolve_principal. destruct (match q_authorization q with Some _ => _ | None => _ end) as [| e]; [done |]. by destruct e. }
  pose proof (resolve_principal_spec store ix q now t Hb) as Hp. cbn zeta in Hp. fold es in Hp.
  pose proof (fun t2 => resolve_principal_frame q ix now t t2) as Hf. pose proof (Hsame t) as Ht. destruct (_resolve_principal grace q ix now t) as [[[[ctx legacy] |] | e] t1]; [| | discriminate].
  - destruct Hp as (-> & _ & s & e & Hs & Hl & ->).
    assert (Hd : forall t2, match _resolve_principal (S := S) grace q ix now t2 with (Ok (Some (ctx, l)), u) => ctx = context_of e (_legacy_id "None" None) /\ l = legacy /\ u = t2 | _ => False end).
    { intros t2. specialize (Hf t2). specialize (Hsame t2). destruct (_resolve_principal grace q ix now t2) as [[[[ctx l] |] | e2] u]; cbn [fst] in Hf; [| discriminate Hf ..]. by injection Hf as -> ->. }
    unfold dispatch_GET in H |- *. rewrite Hpath in H |- *. change (String.eqb "/scrape" "/announce") with false in *. change (String.eqb "/scrape" "/scrape") with true in *. cbv iota in H |- *.
    destruct (q_registered q); cbn [negb] in H |- *.
    + destruct (scrape_spec _ _ _ _ _ _ _ H) as [[H1 H2] | (H1 & -> & H2)]; [left; split; [done |]; by exists s, e |]. right. split; [done |]. split; [done |]. intros t2. exists t2. split; [| done].
      specialize (Hd t2). destruct (_resolve_principal grace q ix now t2) as [[[[ctx l] |] | e2] u]; [| done ..]. destruct Hd as (-> & -> & ->). apply H2.
    + apply pair_equal_spec in H as [H <-]. right. rewrite (send_status _ _ _ _ H). split; [lia |]. split; [done |]. intros t2. exists t2. split; [| done].
      specialize (Hd t2). destruct (_resolve_principal grace q ix now t2) as [[[[ctx l] |] | e2] u]; [| done ..]. destruct Hd as (-> & -> & ->). by rewrite H.
  - apply pair_equal_spec in H as [H <-]. right. split; [unfold refusal in H; apply send_status in H; destruct (q_authorization q); lia |]. split; [done |]. intros t2. specialize (Hf t2). specialize (Hsame t2).
    destruct (_resolve_principal grace q ix now t2) as [[[[ctx l] |] | e2] u]; cbn [fst] in Hf; [discriminate Hf | | discriminate Hf]. exists u. by rewrite H.
Qed.
End requests.

(** ** Witnesses *)

Lemma parse_announce_read_witness :
  parse_announce (query_text (announce_fields [byte_of 255; byte_of 38] (bytes_of "-A2-") 70000 (-1) 5 0 7 true (Some "started"))) =
  Query "ff26" "-A2-" None (Some 0) (Some "started") 7 true None None (Some 5).
Proof. exact (parse_announce_read [byte_of 255; byte_of 38] (bytes_of "-A2-") 70000 (-1) 5 0 7 true (Some "started") ltac:(intros e [= <-]; by_eval)). Defined.

Lemma override_private_witness : exists z, parse_ipv4 "100.64.0.1" = Some z /\
  (10 * 2 ^ 24 <= z < 11 * 2 ^ 24 \/ (172 * 256 + 16) * 2 ^ 16 <= z < (172 * 256 + 32) * 2 ^ 16 \/
   (192 * 256 + 168) * 2 ^ 16 <= z < (192 * 256 + 169) * 2 ^ 16 \/ (100 * 256 + 64) * 2 ^ 16 <= z < (100 * 256 + 128) * 2 ^ 16).
Proof. apply (override_private "port=1&ip=100.64.0.1"). vm_compute. reflexivity. Defined.

Definition empty_tracker : tracker (S := unit) := Tracker.Tracker (new_registry 30 30) tt (new_queue None) [].
Definition sample_target : bytes := bytes_of "/announce?" ++ bytes_of (query_text (announce_fields (repeat "h"%char 20) (bytes_of "-A2-") 6881 0 0 9 10 true None)).
Definition announce_request : request :=
  Request (Some "Bearer t1") "/announce" (query_text (announce_fields (repeat "h"%char 20) (bytes_of "-A2-") 6881 0 0 9 10 true None)) true.
Definition scrape_request : request := Request (Some "Bearer t1") "/scrape" (query_text [("info_hash", quote_all (repeat "h"%char 20))]) true.
Abbreviation sample_get := (do_GET (S := unit) true true (fun _ _ _ _ s => (Ok true, s)) (fun _ _ _ _ s => (Ok true, s)) (fun _ => Ok (Attributions [] false [])) (fun _ => 101) 1 (fun _ => 0) (fun _ => true) 0 None).

Lemma request_authenticated_witness : exists r t',
  sample_get (Ok sample_announce_index) (Some "Bearer t1") sample_target "10.0.0.2" None (FFin 1 0) (FFin 100 0) 101 empty_tracker = (Ok r, t') /\
  r_status r = 200 /\ exists s e, shows 0 (announce_entries sample_store) (FFin 100 0) announce_request s /\ live (announce_entries sample_store) (FFin 100 0) 0 s e.
Proof.
  destruct (sample_get (Ok sample_announce_index) (Some "Bearer t1") sample_target "10.0.0.2" None (FFin 1 0) (FFin 100 0) 101 empty_tracker) as [[r | e] t'] eqn:E;
    pose proof (f_equal (fun x => match fst x with Ok r => r_status r | Err _ => 0 end) E) as Hs; vm_compute in Hs; [| discriminate Hs].
  change (200 = r_status r) in Hs. exists r, t'. split; [reflexivity |]. split; [done |].
  destruct (request_authenticated true true (fun _ _ _ _ s => (Ok true, s)) (fun _ _ _ _ s => (Ok true, s)) (fun _ => Ok (Attributions [] false [])) (fun _ => 101) 1 (fun _ => 0) (fun _ => true) 0 None sample_store sample_announce_index (Some "Bearer t1") sample_target announce_request "10.0.0.2" None (FFin 1 0) (FFin 100 0) 101 empty_tracker r t' sample_announce_built ltac:(vm_compute; reflexivity) E)
    as [(s & e & H1 & H2 & _) | (_ & [H | H] & _)]; [exists s, e; exact (conj H1 H2) | rewrite H in Hs; discriminate Hs ..].
Defined.

Definition scrape_target : bytes := bytes_of "/scrape?" ++ bytes_of (q_query scrape_request).
Abbreviation granting := (fun _ _ : string => Ok true).
Abbreviation granted_get := (do_GET (S := unit) true true (fun _ _ _ _ s => (Ok true, s)) (fun _ _ _ _ s => (Ok true, s)) (fun _ => Ok (Attributions [] false [])) (fun _ => 101) 1 (fun _ => 0) (fun _ => true) 0 (Some granting)).

Lemma scrape_confined_witness : exists r t',
  granted_get (Ok sample_announce_index) (Some "Bearer t1") scrape_target "10.0.0.2" None (FFin 1 0) (FFin 100 0) 101 empty_tracker = (Ok r, t') /\
  exists s e, shows 0 (announce_entries sample_store) (FFin 100 0) scrape_request s /\ live (announce_entries sample_store) (FFin 100 0) 0 s e /\
    scrape_answer (Some granting) scrape_request (ac_principal (context_of e (_legacy_id "None" None))) 101 empty_tracker r t'.
Proof.
  destruct (granted_get (Ok sample_announce_index) (Some "Bearer t1") scrape_target "10.0.0.2" None (FFin 1 0) (FFin 100 0) 101 empty_tracker) as [[r | e] t'] eqn:E;
    pose proof (f_equal (fun x => match fst x with Ok r => r_status r | Err _ => 0 end) E) as Hs; vm_compute in Hs; [| discriminate Hs].
  change (200 = r_status r) in Hs. exists r, t'. split; [reflexivity |].
  destruct (scrape_confined true true (fun _ _ _ _ s => (Ok true, s)) (fun _ _ _ _ s => (Ok true, s)) (fun _ => Ok (Attributions [] false [])) (fun _ => 101) 1 (fun _ => 0) (fun _ => true) 0 (Some granting) sample_store sample_announce_index (Some "Bearer t1") scrape_target scrape_request "10.0.0.2" None (FFin 1 0) (FFin 100 0) 101 empty_tracker r t' sample_announce_built ltac:(vm_compute; reflexivity) eq_refl E)
    as [[_ H] | [H _]]; [exact H | by destruct H].
Defined.
