(* ===== verification/RoutesSpec.v ===== *)
(** * The browser's URLs

    A browser's request reaches the management tier under the route that is registered
    for it on both sides, or under a sentinel that is no route; no internal route can be
    named from outside. *)
From S2P Require Import Prelude PyVal Bencode Ipv4 PolicyDoc Sha256 UrlText Regex ApiRoutes.

(** ** Patterns with a fixed prefix *)

Lemma pattern_prefix w template : without (byte_eqb "{") w ->
  pattern_fuel (length (w ++ template)) (w ++ template) = foldr (fun c r => cat (chr c) r) (pattern_fuel (length template) template) w.
Proof.
  induction 1 as [| c w Hc _ IH]; [done |]. cbn [app length pattern_fuel foldr].
  assert (byte_eqb c "{" = false) as -> by (unfold byte_eqb in *; rewrite bool_decide_eq_false in *; congruence). by rewrite IH.
Qed.

Lemma fullmatch_prefix pre suffix b : without (byte_eqb "{") (bytes_of pre) ->
  fullmatch (_pattern (pre +:+ suffix)) b = true -> exists s, b = bytes_of pre ++ s.
Proof.
  intros H. unfold _pattern. rewrite !string_length, bytes_app, pattern_prefix, fullmatch_lang, lang_lit_cat by done. intros (s & -> & _). by exists s.
Qed.

(** ** The table *)

(** What a path under the prefix of a tier finds among the shared resources. *)
Definition resource (method : string) (s : bytes) : option (string * string * string) :=
  List.find (fun r => String.eqb (fst (fst r)) method && fullmatch (_pattern (snd (fst r))) s) _CONSOLE_RESOURCES.

Lemma find_app {A} (f : A -> bool) l k : List.find f (l ++ k) = match List.find f l with Some x => Some x | None => List.find f k end.
Proof. induction l as [| x l IH]; [done |]. cbn. by destruct (f x). Qed.

Lemma find_map {A B} (g : A -> B) (f : B -> bool) l : List.find f (map g l) = g <$> List.find (fun x => f (g x)) l.
Proof. induction l as [| x l IH]; [done |]. cbn. by destruct (f (g x)). Qed.

Lemma find_none {A} (f : A -> bool) l : (forall x, In x l -> f x = false) -> List.find f l = None.
Proof. induction l as [| x l IH]; intros H; [done |]. cbn. rewrite (H x) by (by left). apply IH. intros y Hy. apply H. by right. Qed.

Lemma find_same {A} (f g : A -> bool) l : (forall x, In x l -> f x = g x) -> List.find f l = List.find g l.
Proof. induction l as [| x l IH]; intros H; [done |]. cbn. rewrite (H x) by (by left). rewrite IH; [done |]. intros y Hy. apply H. by right. Qed.

Definition console_prefix : bytes := bytes_of "/api/v1".
Definition internal_prefix : bytes := bytes_of "/internal/v1".

(** No route of the list serves the path, whatever the method. *)
Definition unserved (service : string) (b : bytes) (l : list Route) : bool :=
  forallb (fun r => negb (String.eqb (rt_service r) service && fullmatch (_pattern (rt_path r)) b)) l.

Lemma unserved_find service method b l : unserved service b l = true -> List.find (serves service method b) l = None.
Proof.
  intros H. apply find_none. intros r Hr. unfold unserved in H. rewrite forallb_forall in H. specialize (H r Hr). apply negb_true_iff in H. unfold serves.
  destruct (String.eqb (rt_service r) service); [| done]. cbn in H. rewrite H. by rewrite andb_false_r.
Qed.

Lemma other_service service l method b : forallb (fun r => negb (String.eqb (rt_service r) service)) l = true -> List.find (serves service method b) l = None.
Proof.
  intros H. apply find_none. intros r Hr. rewrite forallb_forall in H. specialize (H r Hr). apply negb_true_iff in H. unfold serves. by rewrite H.
Qed.

Lemma console_find method s : List.find (serves "console" method (console_prefix ++ s)) ROUTES = console_route <$> resource method s.
Proof.
  unfold ROUTES. rewrite !find_app, find_map.
  assert (List.find (fun x => serves "console" method (console_prefix ++ s) (console_route x)) _CONSOLE_RESOURCES = resource method s) as ->.
  { apply find_same. intros [[m suffix] summary] _. unfold serves, console_route. cbn [rt_service rt_method rt_path fst snd String.eqb Ascii.eqb Bool.eqb andb].
    f_equal. }
  destruct (resource method s) as [r |]; [done |]. cbn [fmap option_fmap option_map].
  assert (List.find (serves "console" method (console_prefix ++ s)) CONSOLE_PAGES = None) as ->.
  { apply find_none. intros r Hr. unfold serves. apply andb_false_iff. right. apply not_true_is_false. intros Hm.
    destruct Hr as [<- | [<- | [<- | []]]]; exact (lang_void _ (proj1 (fullmatch_lang Void _) Hm)). }
  rewrite other_service by (vm_compute; reflexivity). rewrite other_service by (vm_compute; reflexivity). by rewrite other_service by (vm_compute; reflexivity).
Qed.

Lemma internal_find method s r : resource method s = Some r -> List.find (serves "management" method (internal_prefix ++ s)) ROUTES = Some (management_route r).
Proof.
  intros Hr. unfold ROUTES. rewrite !find_app, (other_service _ (map console_route _)), (other_service _ CONSOLE_PAGES), find_map by (vm_compute; reflexivity).
  assert (List.find (fun x => serves "management" method (internal_prefix ++ s) (management_route x)) _CONSOLE_RESOURCES = resource method s) as ->; [| by rewrite Hr].
  apply find_same. intros [[m suffix] summary] _. unfold serves, management_route. cbn [rt_service rt_method rt_path fst snd String.eqb Ascii.eqb Bool.eqb andb].
  f_equal.
Qed.

(** The internal controls and the sentinel are no resources of the browser. *)
Definition not_a_resource (s : bytes) : bool := forallb (fun r => negb (fullmatch (_pattern (snd (fst r))) s)) _CONSOLE_RESOURCES.

Lemma not_a_resource_none method s : not_a_resource s = true -> resource method s = None.
Proof.
  intros H. apply find_none. intros r Hr. unfold not_a_resource in H. rewrite forallb_forall in H. specialize (H r Hr). apply negb_true_iff in H. rewrite H. apply andb_false_r.
Qed.

Lemma sentinel_unserved method : List.find (serves "management" method SENTINEL) ROUTES = None.
Proof. apply unserved_find. vm_compute. reflexivity. Qed.

(** A registered path of the browser's API is under its prefix. *)
Lemma console_api method p r : starts_with (bytes_of "/api/") p = true -> List.find (serves "console" method p) ROUTES = Some r ->
  exists s res, p = console_prefix ++ s /\ resource method s = Some res /\ r = console_route res.
Proof.
  intros Hp Hf. assert (Hs : exists s, p = console_prefix ++ s).
  { apply bool_decide_eq_true in Hp. unfold ROUTES in Hf. rewrite !find_app in Hf. rewrite (other_service _ SERVICE_ROUTES), (other_service _ (map management_route _)), (other_service _ MANAGEMENT_PAGES) in Hf by (vm_compute; reflexivity).
    destruct (List.find (serves "console" method p) (map console_route _CONSOLE_RESOURCES)) as [x |] eqn:E.
    - apply find_some in E as [Hin Hx]. apply in_map_iff in Hin as ([[m suffix] summary] & <- & _). unfold serves in Hx. apply andb_true_iff in Hx as [_ Hx].
      apply (fullmatch_prefix "/api/v1") in Hx; [done | repeat constructor].
    - destruct (List.find (serves "console" method p) CONSOLE_PAGES) as [x |] eqn:E2; [| discriminate]. apply find_some in E2 as [Hin Hx]. unfold serves in Hx. apply andb_true_iff in Hx as [_ Hx].
      assert (Hq : p = bytes_of "/api/" ++ drop 5 p) by (rewrite <- Hp at 1; by rewrite take_drop). rewrite Hq in Hx.
      destruct Hin as [<- | [<- | [<- | []]]]; destruct (lang_void _ (proj1 (fullmatch_lang Void _) Hx)). }
  destruct Hs as [s ->]. rewrite console_find in Hf. destruct (resource method s) as [res |] eqn:E; [| discriminate]. injection Hf as <-. by exists s, res.
Qed.

(** ** URLs *)

Definition with_path (u : SplitResult) (p : bytes) : SplitResult := Split (u_scheme u) (u_netloc u) p (u_query u) (u_fragment u).

Section mapping.
Context (netloc_ok : bytes -> bool).

Lemma replace_prefix_ok url u source target rest : urlsplit netloc_ok url = Ok u -> u_path u = source ++ rest ->
  _replace_prefix netloc_ok url source target = Ok (Some (urlunsplit (with_path u (target ++ rest)))).
Proof.
  intros Hu Hp. unfold _replace_prefix. rewrite Hu. cbn [mbind res_bind]. assert (starts_with source (u_path u) = true) as -> by (apply bool_decide_eq_true; rewrite Hp, take_app_length; done).
  cbn [negb]. rewrite Hp, drop_app_length. done.
Qed.

Lemma with_path_split url u p : urlsplit netloc_ok url = Ok u -> path_ok p -> rooted p -> urlsplit netloc_ok (urlunsplit (with_path u p)) = Ok (with_path u p).
Proof. intros Hu Hp Hr. apply urlsplit_ok in Hu as [[H1 H2 H3 H4] _]. by apply urlsplit_unsplit. Qed.

Lemma path_ok_app a b : path_ok (a ++ b) <-> path_ok a /\ path_ok b.
Proof. unfold path_ok, without. rewrite !Forall_app. tauto. Qed.

Lemma match_find service method url u : urlsplit netloc_ok url = Ok u -> match_ netloc_ok service method url = Ok (List.find (serves service method (u_path u)) ROUTES).
Proof. intros Hu. unfold match_. by rewrite Hu. Qed.

Lemma resource_not method s res w : resource method s = Some res -> not_a_resource w = true -> s <> w.
Proof. intros Hr Hw ->. by rewrite (not_a_resource_none method w Hw) in Hr. Qed.

(** An internal URL of a shared resource goes to the legacy handler of the resource. *)
Lemma legacy_of_resource method url u s res : urlsplit netloc_ok url = Ok u -> u_path u = internal_prefix ++ s -> resource method s = Some res ->
  management_to_legacy netloc_ok method url = Ok (Some (urlunsplit (with_path u (bytes_of "/api" ++ s)))).
Proof.
  intros Hu Hp Hr. unfold management_to_legacy. rewrite (match_find _ _ _ _ Hu), Hp, (internal_find _ _ _ Hr). cbn [mbind res_bind]. rewrite Hu. cbn [mbind res_bind]. rewrite Hp.
  assert (Hne : forall w full, not_a_resource w = true -> full = internal_prefix ++ w -> bool_decide (internal_prefix ++ s = full) = false).
  { intros w full Hw ->. apply bool_decide_eq_false. intros Heq%app_inv_head. by apply (resource_not _ _ _ w Hr Hw). }
  rewrite (Hne (bytes_of "/swarmmap")), (Hne (bytes_of "/console-certificate")), (Hne (bytes_of "/authorizations")) by (vm_compute; reflexivity).
  by apply replace_prefix_ok.
Qed.

Definition swarmmap_route : Route := MkRoute "management" "GET" "/internal/v1/swarmmap" "managementBearer+consoleSession" "Open swarm map".

Lemma swarmmap_console method r : List.find (serves "console" method (bytes_of "/swarmmap")) ROUTES = Some r -> method = "GET".
Proof.
  unfold ROUTES. rewrite !find_app, (unserved_find _ _ _ (map console_route _)), (unserved_find _ _ _ (map management_route _)), (unserved_find _ _ _ MANAGEMENT_PAGES), (unserved_find _ _ _ SERVICE_ROUTES) by (vm_compute; reflexivity).
  unfold CONSOLE_PAGES, serves. cbn [List.find rt_service rt_method rt_path]. destruct (String.eqb_spec "GET" method) as [<- | _]; [done |].
  rewrite !andb_false_r. discriminate.
Qed.

(** C11: what the browser asks for is what the management tier serves: a URL that is a
    registered resource reaches the management route of the very same resource, and from
    there its legacy handler with suffix, query and fragment intact; the swarm map
    likewise; every other API URL becomes the sentinel, which is no route of the
    management tier.  So no browser URL reaches a route that asks for the tier's
    credential alone. *)
Theorem browser_request_mapped method url url' u : urlsplit netloc_ok url = Ok u -> console_to_management netloc_ok method url = Ok (Some url') ->
  (exists s res, u_path u = console_prefix ++ s /\ match_ netloc_ok "console" method url = Ok (Some (console_route res)) /\
     url' = urlunsplit (with_path u (internal_prefix ++ s)) /\ match_ netloc_ok "management" method url' = Ok (Some (management_route res)) /\
     management_to_legacy netloc_ok method url' = Ok (Some (urlunsplit (with_path u (bytes_of "/api" ++ s))))) \/
  (u_path u = bytes_of "/swarmmap" /\ method = "GET" /\ match_ netloc_ok "management" method url' = Ok (Some swarmmap_route) /\
     management_to_legacy netloc_ok method url' = Ok (Some (urlunsplit u))) \/
  (match_ netloc_ok "console" method url = Ok None /\ url' = urlunsplit (with_path u SENTINEL) /\
     match_ netloc_ok "management" method url' = Ok None /\ management_to_legacy netloc_ok method url' = Ok None).
Proof.
  intros Hu Hc. pose proof (proj2 (urlsplit_ok _ _ _ Hu)) as Hp. unfold console_to_management in Hc. rewrite Hu in Hc. cbn [mbind res_bind] in Hc.
  rewrite (match_find "console" method url u Hu) in Hc |- *. cbn [mbind res_bind] in Hc.
  assert (Hsent : _replace_prefix netloc_ok url (u_path u) SENTINEL = Ok (Some url') -> List.find (serves "console" method (u_path u)) ROUTES = None ->
    url' = urlunsplit (with_path u SENTINEL) /\ match_ netloc_ok "management" method url' = Ok None /\ management_to_legacy netloc_ok method url' = Ok None).
  { intros Hr _. rewrite (replace_prefix_ok url u (u_path u) SENTINEL []) in Hr by (done || by rewrite app_nil_r). rewrite app_nil_r in Hr. assert (url' = urlunsplit (with_path u SENTINEL)) as -> by congruence.
    assert (Hs : urlsplit netloc_ok (urlunsplit (with_path u SENTINEL)) = Ok (with_path u SENTINEL)) by (apply (with_path_split url); [done | repeat constructor | by eexists _, _]).
    split; [done |]. unfold management_to_legacy. rewrite (match_find _ _ _ _ Hs). cbn [u_path with_path mbind res_bind]. by rewrite sentinel_unserved. }
  destruct (bool_decide (u_path u = bytes_of "/swarmmap")) eqn:Esw; [apply bool_decide_eq_true in Esw |].
  - destruct (List.find _ ROUTES) as [r |] eqn:Ef; [| right; right; split; [done | by apply Hsent]]. right. left. split; [done |]. rewrite Esw in Ef. pose proof (swarmmap_console _ _ Ef) as ->.
    split; [done |]. rewrite (replace_prefix_ok url u (bytes_of "/swarmmap") (bytes_of "/internal/v1/swarmmap") []) in Hc by (done || by rewrite app_nil_r). rewrite app_nil_r in Hc.
    assert (url' = urlunsplit (with_path u (bytes_of "/internal/v1/swarmmap"))) as -> by congruence.
    assert (Hs : urlsplit netloc_ok (urlunsplit (with_path u (bytes_of "/internal/v1/swarmmap"))) = Ok (with_path u (bytes_of "/internal/v1/swarmmap"))) by (apply (with_path_split url); [done | repeat constructor | by eexists _, _]).
    split; [rewrite (match_find _ _ _ _ Hs); vm_compute; reflexivity |].
    unfold management_to_legacy. rewrite (match_find _ _ _ _ Hs). cbn [u_path with_path mbind res_bind].
    assert (List.find (serves "management" "GET" (bytes_of "/internal/v1/swarmmap")) ROUTES = Some swarmmap_route) as -> by (vm_compute; reflexivity).
    rewrite Hs. cbn [mbind res_bind u_path with_path]. rewrite bool_decide_true by done. rewrite (replace_prefix_ok _ _ _ _ [] Hs) by done. do 3 f_equal. destruct u. cbn in Esw |- *. by rewrite Esw.
  - destruct (starts_with (bytes_of "/api/") (u_path u)) eqn:Eapi; [| discriminate]. destruct (List.find _ ROUTES) as [r |] eqn:Ef; [| right; right; split; [done | by apply Hsent]].
    left. destruct (console_api _ _ _ Eapi Ef) as (s & res & Hs & Hr & ->). exists s, res. split; [done |]. split; [done |].
    assert (Hrooted : rooted (internal_prefix ++ s)) by (by eexists _, _). rewrite Hs in Hp. apply path_ok_app in Hp as [_ Hps].
    rewrite (replace_prefix_ok url u (bytes_of "/api/") (bytes_of "/internal/") (bytes_of "v1" ++ s)) in Hc by (done || by rewrite Hs).
    assert (url' = urlunsplit (with_path u (internal_prefix ++ s))) as -> by (change (internal_prefix ++ s) with (bytes_of "/internal/" ++ bytes_of "v1" ++ s); congruence). split; [done |].
    assert (Hsp : urlsplit netloc_ok (urlunsplit (with_path u (internal_prefix ++ s))) = Ok (with_path u (internal_prefix ++ s))).
    { apply (with_path_split url); [done | apply path_ok_app; split; [repeat constructor | done] | done]. }
    split; [rewrite (match_find _ _ _ _ Hsp); cbn [u_path with_path]; by rewrite (internal_find _ _ _ Hr) |].
    by rewrite (legacy_of_resource method _ _ s res Hsp eq_refl Hr).
Qed.
End mapping.

(** ** Witness *)

Lemma browser_request_mapped_witness : exists res,
  console_to_management (fun _ => true) "GET" (bytes_of "/api/v1/devices/d1/plan?x=1") = Ok (Some (bytes_of "/internal/v1/devices/d1/plan?x=1")) /\
  match_ (fun _ => true) "management" "GET" (bytes_of "/internal/v1/devices/d1/plan?x=1") = Ok (Some (management_route res)).
Proof.
  assert (H : console_to_management (fun _ => true) "GET" (bytes_of "/api/v1/devices/d1/plan?x=1") = Ok (Some (bytes_of "/internal/v1/devices/d1/plan?x=1"))) by (vm_compute; reflexivity).
  assert (Hu : urlsplit (fun _ => true) (bytes_of "/api/v1/devices/d1/plan?x=1") = Ok (Split [] [] (bytes_of "/api/v1/devices/d1/plan") (bytes_of "x=1") [])) by (vm_compute; reflexivity).
  destruct (browser_request_mapped (fun _ => true) "GET" _ _ _ Hu H) as [(s & res & _ & _ & _ & Hm & _) | [(Hp & _) | (_ & _ & Hm & _)]].
  - exists res. split; [exact H | exact Hm].
  - discriminate Hp.
  - vm_compute in Hm. discriminate Hm.
Defined.
