(* ===== verification/CredCache.v ===== *)
(** * [server/credential_cache.py]: the shared snapshot of the credential store

    Requests share one parsed store and its indexes as long as the identity of the file
    that [stat] reports stays the same.  Requests and writers interleave: each reads the
    file, the resolver's field or a snapshot in an atomic action, and any read may fail.
    The resolver's lock only keeps two requests from doing the same work and is not
    modelled, so there are more interleavings here than in the program.

    The file is the list of what it was, oldest first; [stat_id n] is what [stat] reports
    of the [n]-th version: device, inode, modification and change time, and size. *)
From S2P Require Import Prelude PyVal PolicyDoc KeyedState Odict Secrets Interleave.

Definition stat_key : Type := Z * Z * Z * Z * Z.

Record _Snapshot := Snap { sn_key : option stat_key; sn_store : dict; sn_indexes : list (string * res index) }.

(** Snapshots are objects that requests hold on to. *)
Record resolver := Resolver { c_versions : list (option sfile); c_heap : list _Snapshot; c_snapshot : option nat }.

Section cache.
Context (SEEDER_PREV_TTL : Z) (path : string) (stat_id : nat -> stat_key).

(** The version in place, and its number. *)
Definition now_at (s : resolver) : nat := (length (c_versions s) - 1)%nat.
Definition version (s : resolver) (n : nat) : option sfile := default None (c_versions s !! n).

Definition read_version (f : option sfile) : res dict := load SEEDER_PREV_TTL path f false.

(** [os.stat] that raises gives [None] like a missing file. *)
Definition _stat_key (ft : fault) : sm resolver (option stat_key) := fun s =>
  match ft, version s (now_at s) with
  | NoFault, Some _ => (Ok (Some (stat_id (now_at s))), s)
  | _, _ => (Ok None, s)
  end.

(** The resolver's snapshot, if it has the key. *)
Definition cached (key : option stat_key) (ft : fault) : sm resolver (option nat) := fun s =>
  let hit :=
    match c_snapshot s, key with
    | Some r, Some k => match c_heap s !! r with Some sn => if bool_decide (sn_key sn = Some k) then Some r else None | None => None end
    | _, _ => None
    end in
  (Ok hit, s).

Definition unreadable_store (cls : string) : pyexn := StoreCorruptError ("secrets store " +:+ path +:+ " is unreadable (" +:+ cls +:+ ")").

(** A failed read is reported with the class of its exception. *)
Definition load_store (ft : fault) : sm resolver dict := fun s =>
  match ft with
  | NoFault => (read_version (version s (now_at s)), s)
  | FailRead cls => (Err (unreadable_store cls), s)
  | _ => (Err (unreadable_store "OSError"), s)
  end.

Definition install (key : option stat_key) (store : dict) (ft : fault) : sm resolver nat := fun s =>
  let r := length (c_heap s) in
  (Ok r, Resolver (c_versions s) (c_heap s ++ [Snap key store []]) (Some r)).

(** The snapshot to use: [self._snapshot] is looked at before the lock is taken and
    again under it. *)
Definition snapshot : prog resolver nat :=
  act key := _stat_key in
  act hit := cached key in
  match hit with
  | Some r => Ret (Ok r)
  | None =>
      act hit := cached key in
      match hit with
      | Some r => Ret (Ok r)
      | None =>
          act store := load_store in
          act r := install key store in
          Ret (Ok r)
      end
  end.

(** The index of the name, built once per snapshot; a build that raises is remembered. *)
Definition snapshot_index (r : nat) (name : string) (build : dict -> res index) (ft : fault) : sm resolver (dict * index) := fun s =>
  match c_heap s !! r with
  | None => (Err (TypeError "no snapshot"), s)
  | Some sn =>
      match dget (sn_indexes sn) name with
      | Some cached => (let* ix := cached in Ok (sn_store sn, ix), s)
      | None =>
          let cached := build (sn_store sn) in
          (let* ix := cached in Ok (sn_store sn, ix),
           Resolver (c_versions s) (<[r := Snap (sn_key sn) (sn_store sn) (dset (sn_indexes sn) name cached)]> (c_heap s)) (c_snapshot s))
      end
  end.

(** [view]: the store and an index of one snapshot. *)
Definition cache_view (name : string) (build : dict -> res index) : prog resolver (dict * index) :=
  pbind snapshot (fun r => match r with Ok r => act v := snapshot_index r name build in Ret (Ok v) | Err e => Ret (Err e) end).

(** [store]: the parsed store alone. *)
Definition snapshot_store (r : nat) (ft : fault) : sm resolver dict := fun s =>
  (match c_heap s !! r with Some sn => Ok (sn_store sn) | None => Err (TypeError "no snapshot") end, s).
Definition cache_store : prog resolver dict :=
  pbind snapshot (fun r => match r with Ok r => act v := snapshot_store r in Ret (Ok v) | Err e => Ret (Err e) end).

Definition invalidate : prog resolver unit :=
  act _ := (fun _ s => (Ok tt, Resolver (c_versions s) (c_heap s) None)) in Ret (Ok tt).

(** What every writer does in the end: the file is replaced, or gone. *)
Definition replace_file (f : option sfile) : prog resolver unit :=
  act _ := (fun _ s => (Ok tt, Resolver (c_versions s ++ [f]) (c_heap s) (c_snapshot s))) in Ret (Ok tt).
End cache.

Definition new_resolver (f : option sfile) : resolver := Resolver [f] [] None.
