(* ===== verification/CacheSpec.v ===== *)
(** * The shared snapshot is never stale

    Whatever requests and writers do at the same time, the store and the index a request
    gets are those of a version of the file that was in place while the request ran. *)
From S2P Require Import Prelude PyVal PolicyDoc PolicyEval KeyedState Odict PeerRegistry UrlText Secrets Auth AuthSpec Interleave CredCache.

Section fresh.
Context (SEEDER_PREV_TTL : Z) (path : string) (stat_id : nat -> stat_key) (builder : string -> dict -> res index).
Context (stat_inj : forall n m, stat_id n = stat_id m -> n = m).

Definition reads (s : resolver) (n : nat) (store : dict) : Prop := read_version SEEDER_PREV_TTL path (version s n) = Ok store.

(** A snapshot holds a version no older than its key. *)
Definition snap_ok (s : resolver) (sn : _Snapshot) : Prop :=
  (exists m, (m <= now_at s)%nat /\ reads s m (sn_store sn) /\ forall n, sn_key sn = Some (stat_id n) -> (n <= m)%nat) /\
  forall name r, dget (sn_indexes sn) name = Some r -> r = builder name (sn_store sn).

Definition cache_ok (s : resolver) : Prop :=
  c_versions s <> [] /\ Forall (snap_ok s) (c_heap s) /\ forall r, c_snapshot s = Some r -> (r < length (c_heap s))%nat.

(** What others leave alone: old versions, and the key and store of a snapshot. *)
Definition evolves (s s' : resolver) : Prop :=
  c_versions s `prefix_of` c_versions s' /\ forall r sn, c_heap s !! r = Some sn -> exists sn', c_heap s' !! r = Some sn' /\ sn_key sn' = sn_key sn /\ sn_store sn' = sn_store sn.

#[local] Instance evolves_pre : PreOrder evolves.
Proof.
  split; [intros s; split; [done | eauto] |]. intros s1 s2 s3 [H1 H2] [H3 H4]. split; [by etransitivity |]. intros r sn Hr.
  destruct (H2 r sn Hr) as (sn2 & Hr2 & Hk & Hs). destruct (H4 r sn2 Hr2) as (sn3 & Hr3 & Hk3 & Hs3). exists sn3. split; [done |]. split; congruence.
Qed.

Lemma evolves_version s s' n : c_versions s <> [] -> evolves s s' -> (n <= now_at s)%nat -> version s' n = version s n /\ (now_at s <= now_at s')%nat.
Proof.
  intros Hne [[l Hl] _] Hn. unfold now_at in *. unfold version. rewrite Hl. assert (Hlen : (0 < length (c_versions s))%nat) by (destruct (c_versions s); [done | cbn; lia]).
  rewrite lookup_app_l by lia. split; [done |]. rewrite length_app. lia.
Qed.

Lemma snap_evolves s s' sn : c_versions s <> [] -> evolves s s' -> snap_ok s sn -> snap_ok s' sn.
Proof.
  intros Hne He [(m & Hm & Hr & Hk) Hi]. split; [| done]. destruct (evolves_version s s' m Hne He Hm) as [Hv Hn]. exists m. split; [lia |]. split; [| done]. unfold reads. by rewrite Hv.
Qed.

(** The snapshot [r] is of a version between [n] and now. *)
Definition fresh_since (n : nat) (s : resolver) (r : nat) : Prop :=
  exists sn m, c_heap s !! r = Some sn /\ (n <= m <= now_at s)%nat /\ reads s m (sn_store sn).

Lemma fresh_evolves n s s' r : c_versions s <> [] -> evolves s s' -> fresh_since n s r -> fresh_since n s' r.
Proof.
  intros Hne He (sn & m & Hr & Hm & Hl). destruct (proj2 He r sn Hr) as (sn' & Hr' & _ & Hs). destruct (evolves_version s s' m Hne He ltac:(lia)) as [Hv Hn].
  exists sn', m. split; [done |]. split; [lia |]. unfold reads in *. by rewrite Hv, Hs.
Qed.

(** Failures: the file could not be read, or was no store, at some time since [n]. *)
Definition load_failure (n : nat) (s : resolver) (e : pyexn) : Prop :=
  (exists cls, e = unreadable_store path cls) \/
  exists m, (n <= m <= now_at s)%nat /\ read_version SEEDER_PREV_TTL path (version s m) = Err e.

Abbreviation sound := (safe cache_ok evolves).

Lemma cached_spec key ft s hit s' : cached key ft s = (Ok hit, s') -> s' = s /\
  forall r, hit = Some r -> exists sn k, c_heap s !! r = Some sn /\ key = Some k /\ sn_key sn = Some k.
Proof.
  unfold cached. intros [= <- <-]. split; [done |]. intros r. destruct (c_snapshot s) as [r' |]; [| done]. destruct key as [k |]; [| done].
  destruct (c_heap s !! r') as [sn |] eqn:E; [| done]. destruct (bool_decide_reflect (sn_key sn = Some k)); [| done]. intros [= <-]. eauto.
Qed.

Lemma hit_fresh n s key r sn k : cache_ok s -> (key = None \/ exists m, (n <= m <= now_at s)%nat /\ key = Some (stat_id m)) ->
  c_heap s !! r = Some sn -> key = Some k -> sn_key sn = Some k -> fresh_since n s r.
Proof.
  intros (_ & Hh & _) [-> | (m & Hm & ->)] Hr Hk Hs; [done |]. injection Hk as <-. destruct (Forall_lookup_1 _ _ _ _ Hh Hr) as [(m' & Hm' & Hl & Hle) _].
  exists sn, m'. split; [done |]. specialize (Hle m Hs). split; [lia | done].
Qed.

Definition key_since (n : nat) (s : resolver) (key : option stat_key) : Prop := key = None \/ exists m, (n <= m <= now_at s)%nat /\ key = Some (stat_id m).

(** A store read after its key. *)
Definition store_since (n : nat) (s : resolver) (key : option stat_key) (store : dict) : Prop :=
  exists m, (n <= m <= now_at s)%nat /\ reads s m store /\ forall j, key = Some (stat_id j) -> (j <= m)%nat.

Lemma key_evolves n s s' key : c_versions s <> [] -> evolves s s' -> key_since n s key -> key_since n s' key.
Proof. intros Hne He [-> | (m & Hm & ->)]; [by left |]. right. exists m. destruct (evolves_version s s' m Hne He ltac:(lia)) as [_ Hn]. split; [lia | done]. Qed.

Lemma store_evolves n s s' key store : c_versions s <> [] -> evolves s s' -> store_since n s key store -> store_since n s' key store.
Proof.
  intros Hne He (m & Hm & Hr & Hk). exists m. destruct (evolves_version s s' m Hne He ltac:(lia)) as [Hv Hn]. split; [lia |]. split; [| done]. unfold reads. by rewrite Hv.
Qed.

Definition snapshot_post (n : nat) (r : res nat) (s : resolver) : Prop := match r with Ok r => fresh_since n s r | Err e => load_failure n s e end.

Lemma load_sound n s1 s key : cache_ok s1 -> cache_ok s -> (n <= now_at s1)%nat -> key_since n s1 key -> evolves s1 s ->
  match read_version SEEDER_PREV_TTL path (version s (now_at s)) with Ok store => store_since n s key store | Err e => load_failure n s e end.
Proof.
  intros Hi1 Hi Hn Hk He. assert (Hle : (now_at s1 <= now_at s)%nat) by (eapply (evolves_version s1 s (now_at s1)); [apply Hi1 | done | lia]).
  destruct (read_version _ _ _) as [store | e] eqn:E; [| right; exists (now_at s); split; [lia | done]].
  exists (now_at s). split; [lia |]. split; [exact E |]. intros j ->. destruct Hk as [? | (m & Hm & Hs)]; [done |]. injection Hs as Hs%stat_inj. lia.
Qed.

Lemma installed n s key store : cache_ok s -> store_since n s key store -> forall r s', install key store NoFault s = (Ok r, s') ->
  cache_ok s' /\ evolves s s' /\ fresh_since n s' r.
Proof.
  intros (Hv & Hh & Hc) (m & Hm & Hr & Hk) r s' [= <- <-]. assert (He : evolves s (Resolver (c_versions s) (c_heap s ++ [Snap key store []]) (Some (length (c_heap s))))).
  { split; [done |]. intros r sn Hl. exists sn. cbn. rewrite lookup_app_l by (by eapply lookup_lt_Some). done. }
  split; [| split; [done |]].
  - split; [done |]. cbn. split.
    + apply Forall_app. split; [eapply Forall_impl; [exact Hh |]; intros sn; by apply snap_evolves |]. constructor; [| constructor]. split; [| done].
      exists m. split; [exact (proj2 Hm) |]. split; [exact Hr | exact Hk].
    + intros r [= <-]. rewrite length_app. cbn. lia.
  - exists (Snap key store []), m. cbn. rewrite lookup_app_r, Nat.sub_diag by lia. split; [done |]. split; [exact Hm | exact Hr].
Qed.

Lemma snapshot_sound s0 : cache_ok s0 -> sound (snapshot_post (now_at s0)) (snapshot SEEDER_PREV_TTL path stat_id) s0.
Proof.
  intros Hs0. set (n := now_at s0). unfold snapshot. apply (safe_andthen cache_ok evolves). intros ft s1 r s2 He1 Hi1 Ha.
  assert (Hn1 : (n <= now_at s1)%nat) by (eapply (evolves_version s0 s1 n); [apply Hs0 | done | done]).
  assert (Hkey : s2 = s1 /\ exists key, r = Ok key /\ key_since n s1 key).
  { unfold _stat_key in Ha. destruct ft, (version s1 (now_at s1)); injection Ha as <- <-; (split; [done |]); eexists; (split; [reflexivity |]); try (by left). right. exists (now_at s1). split; [lia | done]. }
  destruct Hkey as (-> & key & -> & Hkey). split; [done |]. split; [reflexivity |]. split; [| done].
  apply (safe_andthen cache_ok evolves). intros ft2 s2 r2 s3 He2 Hi2 Ha2. assert (exists hit, r2 = Ok hit) as [hit ->] by (unfold cached in Ha2; injection Ha2 as <- _; by eexists).
  apply cached_spec in Ha2 as [-> Hhit]. assert (Hk2 : key_since n s2 key) by (eapply key_evolves; [apply Hi1 | done | done]). split; [done |]. split; [reflexivity |].
  destruct hit as [r |]. { split; [done |]. destruct (Hhit r eq_refl) as (sn & k & H1 & H2 & H3). by eapply hit_fresh. }
  split; [| done]. apply (safe_andthen cache_ok evolves). intros ft3 s3 r3 s4 He3 Hi3 Ha3. assert (exists hit, r3 = Ok hit) as [hit ->] by (unfold cached in Ha3; injection Ha3 as <- _; by eexists).
  apply cached_spec in Ha3 as [-> Hhit3]. assert (Hk3 : key_since n s3 key) by (eapply key_evolves; [apply Hi2 | done | done]). split; [done |]. split; [reflexivity |].
  destruct hit as [r |]. { split; [done |]. destruct (Hhit3 r eq_refl) as (sn & k & H1 & H2 & H3). by eapply hit_fresh. }
  split; [| done]. assert (Hn3 : (n <= now_at s3)%nat) by (etransitivity; [exact Hn1 |]; eapply (evolves_version s1 s3 (now_at s1)); [apply Hi1 | by etransitivity | done]).
  apply (safe_andthen cache_ok evolves). intros ft4 s4 r4 s5 He4 Hi4 Ha4. pose proof (load_sound n s3 s4 key Hi3 Hi4 Hn3 Hk3 He4) as Hload.
  unfold load_store in Ha4. destruct ft4; injection Ha4 as <- <-; (split; [done |]); (split; [reflexivity |]); [| left; by eexists ..].
  destruct (read_version _ _ _) as [store | e]; [| exact Hload]. split; [| done]. apply (safe_andthen cache_ok evolves). intros ft5 s5 r5 s6 He5 Hi5 Ha5.
  destruct (installed n s5 key store Hi5 (store_evolves n s4 s5 key store (proj1 Hi4) He5 Hload) _ _ eq_refl) as (H1 & H2 & H3).
  unfold install in Ha5, H1, H2, H3. injection Ha5 as <- <-. split; [done |]. split; [done |]. by split.
Qed.

(** What a request may get, started when version [n] was in place. *)
Definition view_post (name : string) (n : nat) (v : res (dict * index)) (s : resolver) : Prop :=
  match v with
  | Ok (store, ix) => exists m, (n <= m <= now_at s)%nat /\ reads s m store /\ builder name store = Ok ix
  | Err e => load_failure n s e \/ exists m store, (n <= m <= now_at s)%nat /\ reads s m store /\ builder name store = Err e
  end.

Lemma failure_evolves n s s' e : c_versions s <> [] -> evolves s s' -> load_failure n s e -> load_failure n s' e.
Proof.
  intros Hne He [? | (m & Hm & Hr)]; [by left |]. right. exists m. destruct (evolves_version s s' m Hne He ltac:(lia)) as [Hv Hn]. split; [lia |]. by rewrite Hv.
Qed.

Lemma view_stable name n : stable cache_ok evolves (view_post name n).
Proof.
  intros v s s' Hp Hi He. assert (Hmove : forall m store, (n <= m <= now_at s)%nat -> reads s m store -> (n <= m <= now_at s')%nat /\ reads s' m store).
  { intros m store Hm Hr. destruct (evolves_version s s' m (proj1 Hi) He ltac:(lia)) as [Hv Hn]. split; [lia |]. unfold reads. by rewrite Hv. }
  destruct v as [[store ix] | e].
  - destruct Hp as (m & Hm & Hr & Hb). exists m. destruct (Hmove m store Hm Hr) as [H1 H2]. done.
  - destruct Hp as [Hp | (m & store & Hm & Hr & Hb)]; [left; by eapply failure_evolves; [apply Hi | |] | right]. exists m, store. destruct (Hmove m store Hm Hr) as [H1 H2]. done.
Qed.

Lemma index_sound name n r s ft v s' : cache_ok s -> fresh_since n s r -> snapshot_index r name (builder name) ft s = (v, s') ->
  cache_ok s' /\ evolves s s' /\ view_post name n v s'.
Proof.
  intros Hi (sn & m & Hr & Hm & Hread) Ha. pose proof Hi as (Hv & Hh & Hc). destruct (Forall_lookup_1 _ _ _ _ Hh Hr) as [Hkey Hidx].
  assert (Hpost : forall s2, c_versions s2 = c_versions s -> view_post name n (let* ix := builder name (sn_store sn) in Ok (sn_store sn, ix)) s2).
  { intros s2 H2. assert (Hm2 : (n <= m <= now_at s2)%nat) by (unfold now_at in *; by rewrite H2). assert (Hr2 : reads s2 m (sn_store sn)) by (unfold reads, version in *; by rewrite H2).
    destruct (builder name (sn_store sn)) as [ix | e] eqn:E; cbn; [by exists m | right; by exists m, (sn_store sn)]. }
  unfold snapshot_index in Ha. rewrite Hr in Ha. destruct (dget (sn_indexes sn) name) as [cached |] eqn:E.
  - injection Ha as <- <-. rewrite (Hidx name cached E). split; [done |]. split; [reflexivity |]. by apply Hpost.
  - injection Ha as <- <-. split; [| split; [| by apply Hpost]].
    + split; [done |]. cbn. split; [| by rewrite length_insert]. apply Forall_insert; [exact Hh |]. split; [exact Hkey |].
      intros k x. cbn. rewrite dget_dset. destruct (String.eqb_spec name k) as [<- |]; [by intros [= <-] | apply Hidx].
    + split; [done |]. cbn. intros r' sn' Hr'. destruct (decide (r' = r)) as [-> |]; [| rewrite list_lookup_insert_ne by done; eauto].
      rewrite Hr in Hr'. injection Hr' as <-. eexists. split; [apply list_lookup_insert_eq; by eapply lookup_lt_Some | done].
Qed.

Lemma view_sound name s0 : cache_ok s0 ->
  sound (view_post name (now_at s0)) (cache_view SEEDER_PREV_TTL path stat_id name (builder name)) s0 /\
  returns (view_post name (now_at s0)) (cache_view SEEDER_PREV_TTL path stat_id name (builder name)) s0.
Proof.
  intros Hi. apply (safe_pbind cache_ok evolves (snapshot_post (now_at s0))); [| done | by apply snapshot_sound | done].
  intros [r | e] s' Hi' Hp; [| split; [done | by left]]. split; [| done]. apply (safe_andthen cache_ok evolves). intros ft s1 v s2 He Hi1 Ha.
  destruct (index_sound name (now_at s0) r s1 ft v s2 Hi1 (fresh_evolves _ s' s1 r (proj1 Hi') He Hp) Ha) as (H1 & H2 & H3). split; [done |]. split; [done |]. by destruct v.
Qed.

(** What runs at the same time: requests for an index or for the store, invalidations,
    and writers that replace the file. *)
Inductive cache_call : thread resolver -> Prop :=
  | call_view name : cache_call (Thread _ (cache_view SEEDER_PREV_TTL path stat_id name (builder name)))
  | call_store : cache_call (Thread _ (cache_store SEEDER_PREV_TTL path stat_id))
  | call_invalidate : cache_call (Thread _ invalidate)
  | call_replace f : cache_call (Thread _ (replace_file f)).

Lemma call_safe t s : cache_call t -> cache_ok s -> thread_safe cache_ok evolves s t.
Proof.
  intros Hc Hi. destruct Hc as [name | | | f].
  - exists (view_post name (now_at s)). by apply view_sound.
  - exists (fun _ _ => True). apply (safe_pbind cache_ok evolves (snapshot_post (now_at s))); [| done | by apply snapshot_sound | done].
    intros [r | e] s' _ _; [| done]. split; [| done]. apply (safe_andthen cache_ok evolves). intros ft s1 v s2 _ Hi1 [= <- <-]. split; [done |]. split; [reflexivity |].
    by destruct (match c_heap s1 !! r with Some _ => _ | None => _ end).
  - exists (fun _ _ => True). apply (safe_andthen cache_ok evolves). intros ft s1 v s2 _ (Hv & Hh & _) [= <- <-]. split; [by split; [| split] | by split; [split; [| eauto] |]].
  - exists (fun _ _ => True). apply (safe_andthen cache_ok evolves). intros ft s1 v s2 _ (Hv & Hh & Hr) [= <- <-].
    assert (He : evolves s1 (Resolver (c_versions s1 ++ [f]) (c_heap s1) (c_snapshot s1))) by (split; [by eexists | eauto]).
    split; [| done]. split; [by destruct (c_versions s1) |]. split; [| done]. eapply Forall_impl; [exact Hh |]. intros sn. by apply snap_evolves.
Qed.

Lemma new_ok f : cache_ok (new_resolver f).
Proof. split; [done |]. split; [constructor | done]. Qed.

(** A request in a pool: what it returns is fresh. *)
Lemma pool_view name f s0 ps0 s1 ps1 i t0 t1 : pool_run cache_call (new_resolver f, []) (s0, ps0) -> pool_run cache_call (s0, ps0) (s1, ps1) ->
  ps0 !! i = Some t0 -> t0 = Thread _ (cache_view SEEDER_PREV_TTL path stat_id name (builder name)) -> ps1 !! i = Some t1 -> finished t1 = true ->
  exists v, t1 = Thread _ (Ret v) /\ view_post name (now_at s0) v s1.
Proof.
  intros Hrun0 Hrun H0 -> H1 Hfin.
  destruct (pool_run_safe cache_ok evolves cache_call _ _ call_safe Hrun0 (new_ok f) (Forall_nil_2 _)) as [Hi Hps].
  destruct (pool_tracks cache_ok evolves (view_post name (now_at s0)) cache_call i _ _ _ call_safe (view_stable name _) Hrun Hi Hps H0) as (t & Ht & Htr).
  { eexists. split; [reflexivity |]. by apply view_sound. }
  cbn [fst snd] in *. rewrite H1 in Ht. injection Ht as <-. destruct Htr as (p & -> & _ & Hret). destruct p as [v | B a next]; [| discriminate Hfin]. by exists v.
Qed.
End fresh.

(** ** Properties *)

(** C16: a request never sees a stale store: in every interleaving of requests,
    invalidations and writers, with any read failing, a request that is done got the
    store of a version of the file that was in place at some moment while it ran, with
    the index built from that very store; or it failed because such a version could not
    be read or indexed.  The cache tells versions apart by what [stat] reports of them, so
    that must differ between any two versions: a file replaced within the resolution of its
    timestamps by one with the same inode and size would go unnoticed. *)
Theorem cached_view_fresh SEEDER_PREV_TTL path stat_id builder name f s0 ps0 s1 ps1 i t1 :
  (forall n m, stat_id n = stat_id m -> n = m) ->
  pool_run (cache_call SEEDER_PREV_TTL path stat_id builder) (new_resolver f, []) (s0, ps0) ->
  pool_run (cache_call SEEDER_PREV_TTL path stat_id builder) (s0, ps0) (s1, ps1) ->
  ps0 !! i = Some (Thread _ (cache_view SEEDER_PREV_TTL path stat_id name (builder name))) -> ps1 !! i = Some t1 -> finished t1 = true ->
  exists v, t1 = Thread _ (Ret v) /\
    match v with
    | Ok (store, ix) => exists m, (now_at s0 <= m <= now_at s1)%nat /\ read_version SEEDER_PREV_TTL path (version s1 m) = Ok store /\ builder name store = Ok ix
    | Err e =>
        (exists cls, e = unreadable_store path cls) \/
        exists m, (now_at s0 <= m <= now_at s1)%nat /\ (let* store := read_version SEEDER_PREV_TTL path (version s1 m) in builder name store) = Err e
    end.
Proof.
  intros Hinj H0 H1 Hi Ht Hf. destruct (pool_view SEEDER_PREV_TTL path stat_id builder Hinj name f s0 ps0 s1 ps1 i _ t1 H0 H1 Hi eq_refl Ht Hf) as (v & -> & Hv). exists v. split; [done |].
  destruct v as [[store ix] | e]; [exact Hv |]. destruct Hv as [[? | (m & Hm & Hr)] | (m & store & Hm & Hr & Hb)]; [by left | right; exists m; split; [done |]; by rewrite Hr | right; exists m; split; [done |]].
  unfold reads in Hr. by rewrite Hr.
Qed.

(** C5: a revocation takes effect at once: if every version of the file that is in place
    from the start of a request on has the device's announce records revoked, then the
    index the request gets authenticates no token as the device, whatever was cached and
    whatever else runs; as long as what [stat] reports differs between any two versions. *)
Theorem revocation_immediate SEEDER_PREV_TTL path stat_id builder dev f s0 ps0 s1 ps1 i t1 :
  (forall n m, stat_id n = stat_id m -> n = m) -> builder "announce" = build_announce_index ->
  pool_run (cache_call SEEDER_PREV_TTL path stat_id builder) (new_resolver f, []) (s0, ps0) ->
  pool_run (cache_call SEEDER_PREV_TTL path stat_id builder) (s0, ps0) (s1, ps1) ->
  ps0 !! i = Some (Thread _ (cache_view SEEDER_PREV_TTL path stat_id "announce" (builder "announce"))) -> ps1 !! i = Some t1 -> finished t1 = true ->
  (forall m store e, (now_at s0 <= m)%nat -> read_version SEEDER_PREV_TTL path (version s1 m) = Ok store -> e ∈ announce_entries store ->
     en_principal e = Principal "device" dev -> exists r, en_record e = VDict r /\ truth (dget_or r "revoked" VNone) = true) ->
  exists v : res (dict * index), t1 = Thread _ (Ret v) /\ forall store ix now grace token lid ctx, v = Ok (store, ix) ->
    resolve_announce_bearer ix now grace token lid = Ok ctx -> ac_principal ctx <> Principal "device" dev.
Proof.
  intros Hinj Hb H0 H1 Hi Ht Hf Hrev. destruct (pool_view SEEDER_PREV_TTL path stat_id builder Hinj "announce" f s0 ps0 s1 ps1 i _ t1 H0 H1 Hi eq_refl Ht Hf) as (v & -> & Hv).
  exists v. split; [done |]. intros store ix now grace token lid ctx -> Hok Hp. destruct Hv as (m & Hm & Hr & Hix). rewrite Hb in Hix. apply build_announce_index_iff in Hix as [_ Hix].
  apply (bearer_iff _ _ Hix) in Hok as (s & e & _ & (Hin & _ & Hval) & ->).
  assert (Hprin : en_principal e = Principal "device" dev).
  { unfold context_of, _context in Hp. cbn in Hp. destruct (en_legacy e); [discriminate Hp | exact Hp]. }
  destruct (Hrev m store e (proj1 Hm) Hr Hin Hprin) as (r & Hrec & Htr). rewrite Hrec in Hval. unfold valid in Hval. cbn [getattr_get mbind res_bind] in Hval. by rewrite Htr in Hval.
Qed.

(** ** Witnesses *)

(** Every replacement of the file has a new inode. *)
Definition sample_stat (n : nat) : stat_key := (1, Z.of_nat n, 0, 0, 0).
Lemma sample_stat_inj n m : sample_stat n = sample_stat m -> n = m.
Proof. unfold sample_stat. intros [= H]. lia. Qed.

Definition sample_builder (name : string) : dict -> res index := if String.eqb name "announce" then build_announce_index else build_catalog_auth_index.
Definition sample_view : prog resolver (dict * index) := cache_view 100 "secrets.json" sample_stat "announce" (sample_builder "announce").
Definition revoked_store : dict := match revoke sample_store "e1" with Ok s => s | Err _ => [] end.
Definition revoked_file : option sfile := Some (SJson (VDict revoked_store)).

Lemma sample_start : pool_run (cache_call 100 "secrets.json" sample_stat sample_builder) (new_resolver revoked_file, []) (new_resolver revoked_file, [Thread _ sample_view]).
Proof. apply rtc_once. exact (step_start _ (Thread _ sample_view) (new_resolver revoked_file) [] (call_view 100 "secrets.json" sample_stat sample_builder "announce")). Qed.

(** The request of the witnesses gets the store and its index. *)
Example sample_view_ok : match fst (run sample_view (new_resolver revoked_file)) with Ok (store, ix) => length ix | Err _ => 0%nat end = 4%nat.
Proof. vm_compute. reflexivity. Qed.

Lemma cached_view_fresh_witness : exists v, Thread _ (Ret (fst (run sample_view (new_resolver revoked_file)))) = Thread (S := resolver) (dict * index) (Ret v) /\
  match v with
  | Ok (store, ix) => exists m, (0 <= m <= 0)%nat /\ read_version 100 "secrets.json" (version (snd (run sample_view (new_resolver revoked_file))) m) = Ok store /\ build_announce_index store = Ok ix
  | Err e =>
      (exists cls, e = unreadable_store "secrets.json" cls) \/
      exists m, (0 <= m <= 0)%nat /\ (let* store := read_version 100 "secrets.json" (version (snd (run sample_view (new_resolver revoked_file))) m) in build_announce_index store) = Err e
  end.
Proof.
  exact (cached_view_fresh 100 "secrets.json" sample_stat sample_builder "announce" revoked_file _ _ _ _ 0 _ sample_stat_inj sample_start (pool_alone _ sample_view (new_resolver revoked_file)) eq_refl eq_refl eq_refl).
Defined.

Lemma revocation_immediate_witness : exists v : res (dict * index), Thread _ (Ret (fst (run sample_view (new_resolver revoked_file)))) = Thread (S := resolver) (dict * index) (Ret v) /\
  forall store ix now grace token lid ctx, v = Ok (store, ix) -> resolve_announce_bearer ix now grace token lid = Ok ctx -> ac_principal ctx <> Principal "device" "e1".
Proof.
  apply (revocation_immediate 100 "secrets.json" sample_stat sample_builder "e1" revoked_file (new_resolver revoked_file) [Thread _ sample_view] (snd (run sample_view (new_resolver revoked_file)))
    [Thread _ (Ret (fst (run sample_view (new_resolver revoked_file))))] 0 _ sample_stat_inj eq_refl sample_start (pool_alone _ sample_view (new_resolver revoked_file)) eq_refl eq_refl eq_refl).
  intros m store e _ Hr Hin Hp.
  assert (Hv : version (snd (run sample_view (new_resolver revoked_file))) m = match m with O => revoked_file | _ => None end) by (destruct m as [| [|]]; vm_compute; reflexivity).
  set (check := fun e => match en_record e with VDict r => negb (bool_decide (en_principal e = Principal "device" "e1")) || truth (dget_or r "revoked" VNone) | _ => false end).
  assert (Hall : forallb check (announce_entries store) = true) by (rewrite Hv in Hr; destruct m as [| m]; vm_compute in Hr; injection Hr as <-; vm_compute; reflexivity).
  rewrite forallb_forall in Hall. specialize (Hall e (proj1 (list_elem_of_In _ _) Hin)). unfold check in Hall. destruct (en_record e) as [| | | | | | r]; try discriminate Hall.
  rewrite (bool_decide_true _ Hp) in Hall. exists r. split; [reflexivity | exact Hall].
Defined.
