(* ===== verification/JsonParse.v ===== *)
(** * [json.loads] with [object_pairs_hook] and [parse_constant]

    The scanner over the UTF-8 bytes of a text: literals, numbers, strings with their
    escapes, arrays and objects.  Both hooks raise: on an object with a repeated key and
    on a non-finite constant.  A surrogate that is not part of a pair is kept in its three
    byte form.  The value of a number with a fraction or an exponent is a parameter; the
    limits on the digits of an int and on nesting are not modelled.

    A plain value is read back from its text. *)
From S2P Require Import Prelude Bencode PyVal JsonDump PolicyDoc Sha256 JsonText UrlText.

(** ** Scanner *)

Definition json_space (c : ascii) : bool := byte_eqb c " " || byte_eqb c (byte_of 9) || byte_eqb c (byte_of 10) || byte_eqb c (byte_of 13).
Definition skip_ws (b : bytes) : bytes := snd (span json_space b).

Definition json_error {A} : res A := Err (ValueError "invalid JSON").

(** The bytes of a code point. *)
Definition utf8_bytes (z : Z) : bytes :=
  map byte_of
    (if z <? 128 then [z]
     else if z <? 2048 then [192 + z / 64; 128 + z mod 64]
     else if z <? 65536 then [224 + z / 4096; 128 + z / 64 mod 64; 128 + z mod 64]
     else [240 + z / 262144; 128 + z / 4096 mod 64; 128 + z / 64 mod 64; 128 + z mod 64]).

(** Four hex digits. *)
Definition hex4 (b : bytes) : option (Z * bytes) :=
  match b with
  | a :: b :: c :: d :: rest =>
      a ← hex_val a; b ← hex_val b; c ← hex_val c; d ← hex_val d; Some (((a * 16 + b) * 16 + c) * 16 + d, rest)
  | _ => None
  end.

(** What follows a backslash. *)
Definition simple_escape (c : ascii) : option ascii :=
  if byte_val c =? 34 then Some c
  else if byte_eqb c "\" || byte_eqb c "/" then Some c
  else if byte_eqb c "b" then Some (byte_of 8)
  else if byte_eqb c "f" then Some (byte_of 12)
  else if byte_eqb c "n" then Some (byte_of 10)
  else if byte_eqb c "r" then Some (byte_of 13)
  else if byte_eqb c "t" then Some (byte_of 9)
  else None.

(** [\uXXXX], with the second half of a surrogate pair if it is there. *)
Definition unicode_escape (b : bytes) : option (bytes * bytes) :=
  zr ← hex4 b;
  let '(z, rest) := zr in
  let lone := Some (utf8_bytes z, rest) in
  if (55296 <=? z) && (z <=? 56319) then
    match rest with
    | s :: u :: rest2 =>
        if byte_eqb s "\" && byte_eqb u "u" then
          match hex4 rest2 with
          | Some (z2, rest3) => if (56320 <=? z2) && (z2 <=? 57343) then Some (utf8_bytes (65536 + (z - 55296) * 1024 + (z2 - 56320)), rest3) else lone
          | None => lone
          end
        else lone
    | _ => lone
    end
  else lone.

(** The rest of a string, after its opening quote. *)
Fixpoint scan_string (fuel : nat) (b : bytes) : res (bytes * bytes) :=
  match fuel, b with
  | S fuel, c :: rest =>
      if byte_val c =? 34 then Ok ([], rest)
      else if byte_val c <? 32 then json_error
      else if byte_eqb c "\" then
        match rest with
        | e :: rest =>
            match (if byte_eqb e "u" then unicode_escape rest else x ← simple_escape e; Some ([x], rest)) with
            | Some (piece, rest) => let* (tail, rest) := scan_string fuel rest in Ok (piece ++ tail, rest)
            | None => json_error
            end
        | [] => json_error
        end
      else let* (tail, rest) := scan_string fuel rest in Ok (c :: tail, rest)
  | _, _ => json_error
  end.

Section loads.
Context (float_of : bytes -> pyfloat) (duplicate constant : pyexn).

(** A number: its integer part, and whether a fraction or an exponent follows. *)
Definition scan_int (b : bytes) : option (bytes * bytes) :=
  match span is_digit b with
  | ([], _) => None
  | (c :: ds, rest) => if byte_eqb c "0" then Some ([c], ds ++ rest) else Some (c :: ds, rest)
  end.

Definition scan_frac (b : bytes) : bytes * bytes :=
  match b with
  | c :: rest => if byte_eqb c "." then match span is_digit rest with ([], _) => ([], b) | (ds, rest) => (c :: ds, rest) end else ([], b)
  | [] => ([], [])
  end.

Definition scan_exp (b : bytes) : bytes * bytes :=
  match b with
  | c :: rest =>
      if byte_eqb c "e" || byte_eqb c "E" then
        let '(sign, rest) := match rest with s :: r => if byte_eqb s "+" || byte_eqb s "-" then ([s], r) else ([], rest) | [] => ([], []) end in
        match span is_digit rest with ([], _) => ([], b) | (ds, rest) => (c :: sign ++ ds, rest) end
      else ([], b)
  | [] => ([], [])
  end.

Definition scan_number (b : bytes) : res (pyval * bytes) :=
  let '(sign, rest) := match b with c :: r => if byte_eqb c "-" then ([c], r) else ([], b) | [] => ([], []) end in
  match scan_int rest with
  | None => json_error
  | Some (ds, rest) =>
      let '(frac, rest) := scan_frac rest in
      let '(exp, rest) := scan_exp rest in
      let z := match sign with [] => digits_val ds | _ => - digits_val ds end in
      Ok (match frac ++ exp with [] => VInt z | _ => VFloat (float_of (sign ++ ds ++ frac ++ exp)) end, rest)
  end.

Definition has_prefix (w b : bytes) : bool := bool_decide (take (length w) b = w).

(** The literals; [None] is no literal. *)
Definition scan_literal (b : bytes) : option (res (pyval * bytes)) :=
  if has_prefix (bytes_of "null") b then Some (Ok (VNone, drop 4 b))
  else if has_prefix (bytes_of "true") b then Some (Ok (VBool true, drop 4 b))
  else if has_prefix (bytes_of "false") b then Some (Ok (VBool false, drop 5 b))
  else if has_prefix (bytes_of "NaN") b || has_prefix (bytes_of "Infinity") b || has_prefix (bytes_of "-Infinity") b then Some (Err constant)
  else None.

(** [object_pairs_hook] *)
Definition _pairs (d : dict) : res pyval :=
  if bool_decide (NoDup (dkeys d)) then Ok (VDict d) else Err duplicate.

(** A value; the items of an array and of an object after its bracket and white space. *)
Fixpoint scan_value (fuel : nat) (b : bytes) : res (pyval * bytes) :=
  match fuel, b with
  | S fuel, c :: rest =>
      if byte_val c =? 34 then let* (s, rest) := scan_string (length rest) rest in Ok (VStr (string_of s), rest)
      else if byte_eqb c "{" then
        match skip_ws rest with
        | c :: rest' => if byte_eqb c "}" then let* v := _pairs [] in Ok (v, rest') else let* (d, rest) := scan_object fuel (c :: rest') in let* v := _pairs d in Ok (v, rest)
        | [] => json_error
        end
      else if byte_eqb c "[" then
        match skip_ws rest with
        | c :: rest' => if byte_eqb c "]" then Ok (VList [], rest') else let* (l, rest) := scan_array fuel (c :: rest') in Ok (VList l, rest)
        | [] => json_error
        end
      else match scan_literal b with Some r => r | None => scan_number b end
  | _, _ => json_error
  end
with scan_array (fuel : nat) (b : bytes) : res (list pyval * bytes) :=
  match fuel with
  | O => json_error
  | S fuel =>
      let* (v, rest) := scan_value fuel b in
      match skip_ws rest with
      | c :: rest => if byte_eqb c "]" then Ok ([v], rest) else if byte_eqb c "," then let* (l, rest) := scan_array fuel (skip_ws rest) in Ok (v :: l, rest) else json_error
      | [] => json_error
      end
  end
with scan_object (fuel : nat) (b : bytes) : res (dict * bytes) :=
  match fuel, b with
  | S fuel, c :: rest =>
      if byte_val c =? 34 then
        let* (k, rest) := scan_string (length rest) rest in
        match skip_ws rest with
        | c :: rest =>
            if byte_eqb c ":" then
              let* (v, rest) := scan_value fuel (skip_ws rest) in
              match skip_ws rest with
              | c :: rest => if byte_eqb c "}" then Ok ([(string_of k, v)], rest) else if byte_eqb c "," then let* (d, rest) := scan_object fuel (skip_ws rest) in Ok ((string_of k, v) :: d, rest) else json_error
              | [] => json_error
              end
            else json_error
        | [] => json_error
        end
      else json_error
  | _, _ => json_error
  end.

(** Every step of the scanner takes a byte or more. *)
Definition loads (b : bytes) : res pyval :=
  let* (v, rest) := scan_value (S (2 * length b)) (skip_ws b) in
  match skip_ws rest with [] => Ok v | _ => json_error end.
End loads.

Example loads_nested :
  loads (fun _ => FNan) (ValueError "dup") (ValueError "const") (bytes_of " { " ++ quote ++ bytes_of "a\u00e9\n" ++ quote ++ bytes_of " : [ -12 , [] , true,null ] , " ++ quote ++ quote ++ bytes_of ":{} } ") =
  Ok (VDict [(string_of (bytes_of "a" ++ utf8_bytes 233 ++ [byte_of 10]), VList [VInt (-12); VList []; VBool true; VNone]); ("", VDict [])]).
Proof. vm_compute. reflexivity. Qed.

Example loads_pair : loads (fun _ => FNan) (ValueError "dup") (ValueError "const") (quote ++ bytes_of "\ud83d\ude00\ud800" ++ quote) = Ok (VStr (string_of (utf8_bytes 128512 ++ utf8_bytes 55296))).
Proof. vm_compute. reflexivity. Qed.

Example loads_errors : loads (fun _ => FNan) (ValueError "dup") (ValueError "const") (bytes_of "01") = json_error /\ loads (fun _ => FNan) (ValueError "dup") (ValueError "const") (bytes_of "[1,]") = json_error /\
  loads (fun _ => FNan) (ValueError "dup") (ValueError "const") (bytes_of "[-Infinity") = Err (ValueError "const") /\
  loads (fun _ => FNan) (ValueError "dup") (ValueError "const") (bytes_of "{" ++ quote ++ quote ++ bytes_of ":1," ++ quote ++ quote ++ bytes_of ":2}") = Err (ValueError "dup").
Proof. vm_compute. done. Qed.

(** ** Reading back *)

Definition ascii_text (s : string) : bool := forallb (fun c => byte_val c <? 128) (bytes_of s).

(** No floats, ASCII strings, keys once. *)
Fixpoint textual (v : pyval) : bool :=
  match v with
  | VFloat _ => false
  | VStr s => ascii_text s
  | VList l => forallb textual l
  | VDict d => forallb (fun kv => ascii_text (fst kv) && textual (snd kv)) d && bool_decide (NoDup (dkeys d))
  | _ => true
  end.

Lemma string_of_bytes_of s : string_of (bytes_of s) = s.
Proof. apply String.string_of_list_ascii_of_string. Qed.

Lemma scan_escaped fuel c rest : byte_val c < 128 ->
  scan_string (S fuel) (escape_char (byte_val c) ++ rest) = let* (tail, r) := scan_string fuel rest in Ok (c :: tail, r).
Proof.
  destruct c as [[|] [|] [|] [|] [|] [|] [|] [|]]; intros H; try (exfalso; vm_compute in H; discriminate H); reflexivity.
Qed.

Lemma escape_nonempty c : byte_val c < 128 -> (1 <= length (escape_char (byte_val c)))%nat.
Proof. destruct c as [[|] [|] [|] [|] [|] [|] [|] [|]]; intros H; try (exfalso; vm_compute in H; discriminate H); vm_compute; lia. Qed.

Lemma escape_ascii b : Forall (fun c => byte_val c < 128) b -> escape_chars (length b) b = flat_map (fun c => escape_char (byte_val c)) b.
Proof.
  induction 1 as [| c b Hc _ IH]; [done |]. cbn [length escape_chars flat_map utf8_next]. apply Z.ltb_lt in Hc. rewrite Hc. by rewrite IH.
Qed.

Lemma scan_text fuel b rest : Forall (fun c => byte_val c < 128) b -> (length b < fuel)%nat ->
  scan_string fuel (flat_map (fun c => escape_char (byte_val c)) b ++ quote ++ rest) = Ok (b, rest).
Proof.
  intros H. revert fuel. induction H as [| c b Hc _ IH]; intros fuel Hf; (destruct fuel as [| fuel]; [cbn in Hf; lia |]); [done |].
  cbn [flat_map length] in *. rewrite <- app_assoc, scan_escaped by done. rewrite IH by lia. done.
Qed.

Lemma escape_length b : Forall (fun c => byte_val c < 128) b -> (length b <= length (flat_map (fun c => escape_char (byte_val c)) b))%nat.
Proof. induction 1 as [| c b Hc _ IH]; [done |]. cbn [flat_map length]. rewrite length_app. pose proof (escape_nonempty c Hc). lia. Qed.

(** The text of a string after its opening quote. *)
Lemma scan_json_string s rest : ascii_text s = true -> exists b, json_string s ++ rest = ascii_of_nat 34 :: b /\ scan_string (length b) b = Ok (bytes_of s, rest).
Proof.
  intros H. unfold ascii_text in H. rewrite forallb_forall in H. assert (Hall : Forall (fun c => byte_val c < 128) (bytes_of s)) by (apply Forall_forall; intros c Hc; apply Z.ltb_lt, H; by apply list_elem_of_In).
  unfold json_string. rewrite (escape_ascii _ Hall). eexists. rewrite <- !app_assoc. split; [reflexivity |]. apply scan_text; [done |].
  rewrite !length_app. pose proof (escape_length _ Hall). change (length quote) with 1%nat. lia.
Qed.

(** What may follow a value. *)
Definition stops (b : bytes) : Prop := match b with [] => True | c :: _ => c ∈ [","%char; "]"%char; "}"%char] end.

Lemma stop_facts b : stops b -> skip_ws b = b /\ scan_frac b = ([], b) /\ scan_exp b = ([], b) /\ match b with [] => True | c :: _ => is_digit c = false end.
Proof.
  destruct b as [| c b]; [done |]. cbn [stops]. rewrite !elem_of_cons, elem_of_nil. intros [-> | [-> | [-> | []]]]; (split; [reflexivity |]); (split; [reflexivity |]); by split.
Qed.

Lemma span_digits ds rest : Forall (fun c => is_digit c = true) ds -> match rest with [] => True | c :: _ => is_digit c = false end -> span is_digit (ds ++ rest) = (ds, rest).
Proof.
  intros H Hr. induction H as [| c b Hc _ IH]; cbn; [| by rewrite Hc, IH]. destruct rest as [| c rest]; [done |]. cbn. by rewrite Hr.
Qed.

Lemma scan_int_dec z rest : 0 <= z -> stops rest -> scan_int (dec_nonneg z ++ rest) = Some (dec_nonneg z, rest).
Proof.
  intros Hz Hs. destruct (dec_nonneg_spec z Hz) as (Hd & _ & Hh & H0). destruct (isdigit_forall _ Hd) as [Hne Hall]. unfold scan_int.
  rewrite span_digits by (done || apply stop_facts, Hs). destruct (dec_nonneg z) as [| c ds] eqn:E; [done |]. destruct (byte_eqb c "0") eqn:Ec; [| done].
  apply bool_decide_eq_true in Ec as ->. destruct (decide (z = 0)) as [-> | Hnz]; [specialize (H0 eq_refl); injection H0 as ->; done |]. by destruct (Hh Hnz).
Qed.

Section roundtrip.
Context (float_of : bytes -> pyfloat) (float_repr : pyfloat -> bytes) (duplicate constant : pyexn).
Abbreviation value := (scan_value float_of duplicate constant).
Abbreviation text := (json_text float_repr).

Lemma scan_number_dec z rest : stops rest -> scan_number float_of (dec z ++ rest) = Ok (VInt z, rest).
Proof.
  intros Hs. destruct (stop_facts rest Hs) as (_ & Hf & He & _). unfold scan_number, dec. destruct (Z.ltb_spec z 0) as [Hz | Hz].
  - cbn [app]. change (byte_eqb "-" "-") with true. cbv iota. rewrite scan_int_dec by (lia || done). rewrite Hf, He. cbn [app].
    destruct (dec_nonneg_spec (- z) ltac:(lia)) as (_ & -> & _). do 3 f_equal. lia.
  - destruct (dec_nonneg_spec z Hz) as (Hd & Hv & _). destruct (isdigit_forall _ Hd) as [Hne Hall]. pose proof (scan_int_dec z rest Hz Hs) as Hi.
    destruct (dec_nonneg z) as [| c ds]; [done |]. inversion Hall as [| ? ? Hc _]; subst.
    assert (Hm : byte_eqb c "-" = false) by (unfold byte_eqb; apply bool_decide_eq_false; intros ->; discriminate Hc).
    cbn [app] in Hi |- *. rewrite Hm, Hi, Hf, He. done.
Qed.

Lemma number_first z : exists c b, dec z = c :: b /\ (is_digit c = true \/ (c = "-"%char /\ exists d b', b = d :: b' /\ is_digit d = true)).
Proof.
  unfold dec. destruct (Z.ltb_spec z 0) as [Hz | Hz].
  - destruct (dec_nonneg_spec (- z) ltac:(lia)) as (Hd & _). destruct (isdigit_forall _ Hd) as [Hne Hall]. eexists _, _. split; [reflexivity |]. right. split; [done |].
    destruct (dec_nonneg (- z)) as [| d b]; [done |]. inversion Hall; subst. eauto.
  - destruct (dec_nonneg_spec z Hz) as (Hd & _). destruct (isdigit_forall _ Hd) as [Hne Hall]. destruct (dec_nonneg z) as [| c b]; [done |]. inversion Hall; subst. eauto.
Qed.

Lemma scan_number_value fuel z rest : stops rest -> value (S fuel) (dec z ++ rest) = Ok (VInt z, rest).
Proof.
  intros Hs. rewrite <- (scan_number_dec z rest Hs). destruct (number_first z) as (c & b & -> & H). cbn [app scan_value].
  destruct H as [H | (-> & d & b' & -> & H)].
  - destruct c as [[|] [|] [|] [|] [|] [|] [|] [|]]; try discriminate H; reflexivity.
  - destruct d as [[|] [|] [|] [|] [|] [|] [|] [|]]; try discriminate H; reflexivity.
Qed.

(** Fuel for a value. *)
Fixpoint size (v : pyval) : nat :=
  match v with
  | VList l => S (sum_list_with (fun x => S (size x)) l)
  | VDict d => S (sum_list_with (fun kv => S (size (snd kv))) d)
  | _ => 1
  end.

Fixpoint items_text (l : list pyval) : bytes :=
  match l with [] => [] | [x] => text x | x :: l => text x ++ bytes_of "," ++ items_text l end.
Fixpoint pairs_text (d : dict) : bytes :=
  match d with
  | [] => []
  | [(k, x)] => json_string k ++ bytes_of ":" ++ text x
  | (k, x) :: d => json_string k ++ bytes_of ":" ++ text x ++ bytes_of "," ++ pairs_text d
  end.

Definition value_read (v : pyval) : Prop := textual v = true -> forall fuel rest, (size v <= fuel)%nat -> stops rest -> value fuel (text v ++ rest) = Ok (v, rest).

(** Texts start with something that is no white space and closes nothing. *)
Definition opens (b : bytes) : Prop := match b with [] => False | c :: _ => json_space c = false /\ byte_eqb c "]" = false /\ byte_eqb c "}" = false end.

Lemma opens_skip b : opens b -> skip_ws b = b.
Proof. destruct b as [| c b]; [done |]. intros [H _]. unfold skip_ws. cbn. by rewrite H. Qed.

Lemma opens_app a b : opens a -> opens (a ++ b).
Proof. by destruct a. Qed.

Lemma text_opens v : textual v = true -> opens (text v).
Proof.
  destruct v as [| [|] | z | f | s | l | d]; intros H; try discriminate H; try done.
  destruct (number_first z) as (c & b & E & Hc). cbn [json_text]. rewrite E. cbn. destruct Hc as [Hc | [-> _]]; [| done].
  destruct c as [[|] [|] [|] [|] [|] [|] [|] [|]]; try discriminate Hc; done.
Qed.

Lemma pairs_opens kv d : opens (pairs_text (kv :: d)).
Proof. destruct kv as [k x]. by destruct d. Qed.

Lemma items_opens x l : textual x = true -> opens (items_text (x :: l)).
Proof. intros H. destruct l; cbn [items_text]; [by apply text_opens | by apply opens_app, text_opens]. Qed.

Lemma scan_items x l fuel rest : Forall value_read (x :: l) -> forallb textual (x :: l) = true -> (sum_list_with (fun x => S (size x)) (x :: l) <= fuel)%nat ->
  scan_array float_of duplicate constant fuel (items_text (x :: l) ++ "]"%char :: rest) = Ok (x :: l, rest).
Proof.
  revert x fuel. induction l as [| y l IH]; intros x fuel Hall Hp Hf; (destruct fuel as [| fuel]; [cbn in Hf; lia |]);
    apply Forall_cons in Hall as [Hx Hall]; cbn [forallb] in Hp; apply andb_true_iff in Hp as [Hpx Hp]; cbn [sum_list_with] in Hf.
  - cbn [items_text scan_array]. rewrite (Hx Hpx) by (lia || (cbn; set_solver)). done.
  - change (items_text (x :: y :: l)) with (text x ++ bytes_of "," ++ items_text (y :: l)). rewrite <- !app_assoc. cbn [scan_array].
    rewrite (Hx Hpx) by (lia || (cbn; set_solver)). cbn [mbind res_bind].
    change (skip_ws (bytes_of "," ++ items_text (y :: l) ++ "]"%char :: rest)) with (","%char :: items_text (y :: l) ++ "]"%char :: rest). cbv iota beta.
    change (byte_eqb "," "]") with false. change (byte_eqb "," ",") with true. cbv iota.
    rewrite opens_skip; [| apply opens_app, items_opens; cbn [forallb] in Hp; by apply andb_true_iff in Hp as [? _]].
    rewrite IH; [done | done | exact Hp | cbn [sum_list_with] in *; lia].
Qed.

Lemma scan_pairs kv d fuel rest : Forall (fun kv => value_read (snd kv)) (kv :: d) -> forallb (fun kv => ascii_text (fst kv) && textual (snd kv)) (kv :: d) = true ->
  (sum_list_with (fun kv => S (size (snd kv))) (kv :: d) <= fuel)%nat ->
  scan_object float_of duplicate constant fuel (pairs_text (kv :: d) ++ "}"%char :: rest) = Ok (kv :: d, rest).
Proof.
  revert kv fuel. induction d as [| kv' d IH]; intros [k x] fuel Hall Hp Hf; (destruct fuel as [| fuel]; [cbn in Hf; lia |]);
    apply Forall_cons in Hall as [Hx Hall]; cbn [forallb] in Hp; apply andb_true_iff in Hp as [Hpx Hp]; cbn [fst snd] in Hpx, Hx; apply andb_true_iff in Hpx as [Hk Hpx]; cbn [sum_list_with snd] in Hf.
  - cbn [pairs_text]. rewrite <- !app_assoc. destruct (scan_json_string k (bytes_of ":" ++ text x ++ "}"%char :: rest) Hk) as (b & -> & Hb). cbn [scan_object].
    change (byte_val (ascii_of_nat 34) =? 34) with true. cbv iota. rewrite Hb. cbn [mbind res_bind]. change (skip_ws (bytes_of ":" ++ text x ++ "}"%char :: rest)) with (":"%char :: text x ++ "}"%char :: rest). cbv iota beta.
    change (byte_eqb ":" ":") with true. cbv iota. rewrite opens_skip by (by apply opens_app, text_opens). rewrite (Hx Hpx) by (lia || (cbn; set_solver)). cbn. by rewrite string_of_bytes_of.
  - change (pairs_text ((k, x) :: kv' :: d)) with (json_string k ++ bytes_of ":" ++ text x ++ bytes_of "," ++ pairs_text (kv' :: d)). rewrite <- !app_assoc.
    destruct (scan_json_string k (bytes_of ":" ++ text x ++ bytes_of "," ++ pairs_text (kv' :: d) ++ "}"%char :: rest) Hk) as (b & -> & Hb). cbn [scan_object].
    change (byte_val (ascii_of_nat 34) =? 34) with true. cbv iota. rewrite Hb. cbn [mbind res_bind].
    change (skip_ws (bytes_of ":" ++ text x ++ bytes_of "," ++ pairs_text (kv' :: d) ++ "}"%char :: rest)) with (":"%char :: text x ++ bytes_of "," ++ pairs_text (kv' :: d) ++ "}"%char :: rest). cbv iota beta.
    change (byte_eqb ":" ":") with true. cbv iota. rewrite opens_skip by (by apply opens_app, text_opens). rewrite (Hx Hpx) by (lia || (cbn; set_solver)). cbn [mbind res_bind].
    change (skip_ws (bytes_of "," ++ pairs_text (kv' :: d) ++ "}"%char :: rest)) with (","%char :: pairs_text (kv' :: d) ++ "}"%char :: rest). cbv iota beta.
    change (byte_eqb "," "}") with false. change (byte_eqb "," ",") with true. cbv iota. rewrite opens_skip by apply opens_app, pairs_opens.
    rewrite IH; [by rewrite string_of_bytes_of | done | exact Hp | cbn [sum_list_with snd] in *; lia].
Qed.

Lemma text_list l : text (VList l) = bytes_of "[" ++ items_text l ++ bytes_of "]".
Proof. reflexivity. Qed.

Lemma text_dict d : text (VDict d) = bytes_of "{" ++ pairs_text d ++ bytes_of "}".
Proof. reflexivity. Qed.

Lemma value_array fuel b : value (S fuel) ("["%char :: b) =
  match skip_ws b with
  | c :: rest' => if byte_eqb c "]" then Ok (VList [], rest') else let* (l, rest) := scan_array float_of duplicate constant fuel (c :: rest') in Ok (VList l, rest)
  | [] => json_error
  end.
Proof. reflexivity. Qed.

Lemma value_object fuel b : value (S fuel) ("{"%char :: b) =
  match skip_ws b with
  | c :: rest' => if byte_eqb c "}" then let* v := _pairs duplicate [] in Ok (v, rest') else let* (d, rest) := scan_object float_of duplicate constant fuel (c :: rest') in let* v := _pairs duplicate d in Ok (v, rest)
  | [] => json_error
  end.
Proof. reflexivity. Qed.

Lemma read_value v : value_read v.
Proof.
  induction v as [v Hv | l Hl | d Hd] using pyval_strong_ind; intros Hp fuel rest Hf Hs.
  - destruct v as [| b | z | f | s | l | d]; try discriminate Hv; try discriminate Hp; (destruct fuel as [| fuel]; [cbn in Hf; lia |]).
    + done.
    + by destruct b.
    + by apply scan_number_value.
    + cbn [json_text]. destruct (scan_json_string s rest Hp) as (b & -> & Hb). cbn [scan_value]. change (byte_val (ascii_of_nat 34) =? 34) with true. cbv iota. rewrite Hb. cbn. by rewrite string_of_bytes_of.
  - rewrite text_list, <- !app_assoc. cbn [size] in Hf. destruct fuel as [| fuel]; [lia |]. change (bytes_of "[" ++ items_text l ++ bytes_of "]" ++ rest) with ("["%char :: items_text l ++ "]"%char :: rest).
    rewrite value_array.
    destruct l as [| x l]; [done |]. cbn [textual] in Hp. assert (Ho : opens (items_text (x :: l))) by (apply items_opens; by apply andb_true_iff in Hp as [? _]).
    rewrite opens_skip by (by apply opens_app). pose proof (scan_items x l fuel rest Hl Hp ltac:(lia)) as Hscan.
    destruct (items_text (x :: l)) as [| c b]; [done |]. cbn [app] in Hscan |- *. destruct Ho as (_ & -> & _). rewrite Hscan. done.
  - rewrite text_dict, <- !app_assoc. cbn [size] in Hf. destruct fuel as [| fuel]; [lia |]. change (bytes_of "{" ++ pairs_text d ++ bytes_of "}" ++ rest) with ("{"%char :: pairs_text d ++ "}"%char :: rest).
    rewrite value_object. cbn [textual] in Hp. apply andb_true_iff in Hp as [Hp Hn].
    destruct d as [| kv d]; [done |]. pose proof (pairs_opens kv d) as Ho. rewrite opens_skip by (by apply opens_app). pose proof (scan_pairs kv d fuel rest Hd Hp ltac:(lia)) as Hscan.
    destruct (pairs_text (kv :: d)) as [| c b]; [done |]. cbn [app] in Hscan |- *. destruct Ho as (_ & _ & ->). rewrite Hscan. cbn [mbind res_bind]. unfold _pairs. by rewrite Hn.
Qed.

Lemma size_text v : textual v = true -> (size v <= length (text v))%nat.
Proof.
  induction v as [v Hv | l Hl | d Hd] using pyval_strong_ind; intros Hp.
  - assert (size v = 1%nat) as -> by (by destruct v). pose proof (text_opens v Hp) as Ho. destruct (text v); [done | cbn; lia].
  - rewrite text_list. cbn [size textual] in *. rewrite !length_app. change (length (bytes_of "[")) with 1%nat. change (length (bytes_of "]")) with 1%nat.
    assert (sum_list_with (fun x => S (size x)) l <= S (length (items_text l)))%nat; [| lia]. induction Hl as [| x l Hx Hl IH]; [cbn; lia |]. cbn [forallb] in Hp. apply andb_true_iff in Hp as [Hpx Hp].
    specialize (Hx Hpx). specialize (IH Hp). cbn [sum_list_with]. destruct l as [| y l]; [cbn [items_text sum_list_with] in *; lia |].
    change (items_text (x :: y :: l)) with (text x ++ bytes_of "," ++ items_text (y :: l)). rewrite !length_app. change (length (bytes_of ",")) with 1%nat. lia.
  - rewrite text_dict. cbn [size textual] in *. apply andb_true_iff in Hp as [Hp _]. rewrite !length_app. change (length (bytes_of "{")) with 1%nat. change (length (bytes_of "}")) with 1%nat.
    assert (sum_list_with (fun kv => S (size (snd kv))) d <= S (length (pairs_text d)))%nat; [| lia]. induction Hd as [| [k x] d Hx Hd IH]; [cbn; lia |]. cbn [forallb fst snd] in *. apply andb_true_iff in Hp as [Hpx Hp]. apply andb_true_iff in Hpx as [_ Hpx].
    specialize (Hx Hpx). specialize (IH Hp). cbn [sum_list_with snd]. destruct d as [| [k' y] d]; [cbn [pairs_text sum_list_with] in *; rewrite !length_app; lia |].
    change (pairs_text ((k, x) :: (k', y) :: d)) with (json_string k ++ bytes_of ":" ++ text x ++ bytes_of "," ++ pairs_text ((k', y) :: d)). rewrite !length_app. change (length (bytes_of ",")) with 1%nat. lia.
Qed.

(** [json.loads] reads the text of a plain value back. *)
Lemma loads_text v : textual v = true -> loads float_of duplicate constant (text v) = Ok v.
Proof.
  intros H. unfold loads. rewrite opens_skip by (by apply text_opens). pose proof (read_value v H (S (2 * length (text v))) [] ltac:(pose proof (size_text v H); lia) I) as Hr.
  rewrite app_nil_r in Hr. rewrite Hr. done.
Qed.
End roundtrip.

(** ** [base64.b64encode] and [b64decode(..., validate=True)] *)

Definition b64_char (z : Z) : ascii :=
  byte_of (if z <? 26 then 65 + z else if z <? 52 then 71 + z else if z <? 62 then z - 4 else if z =? 62 then 43 else 47).

Definition b64_val (c : ascii) : option Z :=
  if in_range_c 65 90 c then Some (byte_val c - 65)
  else if in_range_c 97 122 c then Some (byte_val c - 71)
  else if is_digit c then Some (byte_val c + 4)
  else if byte_eqb c "+" then Some 62
  else if byte_eqb c "/" then Some 63
  else None.

Fixpoint b64encode (b : bytes) : bytes :=
  match b with
  | [] => []
  | [x] => let x := byte_val x in [b64_char (x / 4); b64_char (x mod 4 * 16); "="%char; "="%char]
  | [x; y] => let x := byte_val x in let y := byte_val y in [b64_char (x / 4); b64_char (x mod 4 * 16 + y / 16); b64_char (y mod 16 * 4); "="%char]
  | x :: y :: z :: rest =>
      let x := byte_val x in let y := byte_val y in let z := byte_val z in
      b64_char (x / 4) :: b64_char (x mod 4 * 16 + y / 16) :: b64_char (y mod 16 * 4 + z / 64) :: b64_char (z mod 64) :: b64encode rest
  end.

(** [None] is [binascii.Error]; the unused bits of the last character are ignored. *)
Fixpoint b64decode (b : bytes) : option bytes :=
  match b with
  | [] => Some []
  | s :: t :: u :: v :: rest =>
      s ← b64_val s; t ← b64_val t;
      let first := byte_of (s * 4 + t / 16) in
      if byte_eqb v "=" then
        match rest with
        | [] => if byte_eqb u "=" then Some [first] else u ← b64_val u; Some [first; byte_of (t mod 16 * 16 + u / 4)]
        | _ => None
        end
      else u ← b64_val u; v ← b64_val v; rest ← b64decode rest; Some (first :: byte_of (t mod 16 * 16 + u / 4) :: byte_of (u mod 4 * 64 + v) :: rest)
  | _ => None
  end.

Example b64_samples : b64encode (bytes_of "Man") = bytes_of "TWFu" /\ b64encode (bytes_of "Ma") = bytes_of "TWE=" /\ b64encode (bytes_of "M") = bytes_of "TQ==" /\
  b64decode (bytes_of "TR==") = Some (bytes_of "M") /\ b64decode (bytes_of "TQ=") = None /\ b64decode (bytes_of "TQ==TQ==") = None /\ b64decode (bytes_of "TQ= ") = None.
Proof. vm_compute. done. Qed.

(** ** Lemmas *)

Lemma b64_val_char z : 0 <= z < 64 -> b64_val (b64_char z) = Some z /\ byte_eqb (b64_char z) "=" = false /\ byte_eqb (b64_char z) (byte_of 10) = false /\ byte_eqb (b64_char z) (byte_of 13) = false.
Proof.
  intros H. assert (Hin : In z (map Z.of_nat (seq 0 64))). { apply in_map_iff. exists (Z.to_nat z). split; [lia |]. apply in_seq. lia. }
  cbn in Hin. repeat (destruct Hin as [<- | Hin]; [vm_compute; done |]). destruct Hin.
Qed.

Lemma div_bounds a b c : 0 <= a < b * c -> 0 < b -> 0 <= a / b < c.
Proof. intros Ha Hb. split; [apply Z.div_pos; lia | apply Z.div_lt_upper_bound; lia]. Qed.

(** Three bytes and their four digits. *)
Lemma digits_of x y z : 0 <= x < 256 -> 0 <= y < 256 -> 0 <= z < 256 ->
  0 <= x / 4 < 64 /\ 0 <= x mod 4 * 16 < 64 /\ 0 <= x mod 4 * 16 + y / 16 < 64 /\ 0 <= y mod 16 * 4 < 64 /\ 0 <= y mod 16 * 4 + z / 64 < 64 /\ 0 <= z mod 64 < 64 /\
  x / 4 * 4 + (x mod 4 * 16) / 16 = x /\ x / 4 * 4 + (x mod 4 * 16 + y / 16) / 16 = x /\
  (x mod 4 * 16 + y / 16) mod 16 * 16 + (y mod 16 * 4) / 4 = y /\ (x mod 4 * 16 + y / 16) mod 16 * 16 + (y mod 16 * 4 + z / 64) / 4 = y /\
  (y mod 16 * 4 + z / 64) mod 4 * 64 + z mod 64 = z.
Proof. intros. Z.to_euclidean_division_equations. lia. Qed.

Lemma three_ind (P : bytes -> Prop) : P [] -> (forall x, P [x]) -> (forall x y, P [x; y]) -> (forall x y z b, P b -> P (x :: y :: z :: b)) -> forall b, P b.
Proof.
  intros H0 H1 H2 H3 b. assert (H : P b /\ (forall x, P (x :: b)) /\ forall x y, P (x :: y :: b)); [| tauto].
  induction b as [| c b (IH1 & IH2 & IH3)]; [done |]. split; [done |]. split; [done |]. intros x y. by apply H3.
Qed.

Lemma b64_roundtrip b : b64decode (b64encode b) = Some b.
Proof.
  induction b as [| x | x y | x y z b IH] using three_ind; [done | | |]; cbn [b64encode b64decode].
  - destruct (digits_of (byte_val x) 0 0 (byte_range x) ltac:(lia) ltac:(lia)) as (B0 & B1 & _ & _ & _ & _ & E & _).
    rewrite (proj1 (b64_val_char _ B0)), (proj1 (b64_val_char _ B1)). cbn [mbind option_bind]. change (byte_eqb "=" "=") with true. cbv iota. by rewrite E, byte_of_val.
  - destruct (digits_of (byte_val x) (byte_val y) 0 (byte_range x) (byte_range y) ltac:(lia)) as (B0 & _ & B1 & B2 & _ & _ & _ & E1 & E2 & _).
    destruct (b64_val_char _ B2) as (V2 & N2 & _). rewrite (proj1 (b64_val_char _ B0)), (proj1 (b64_val_char _ B1)). cbn [mbind option_bind]. change (byte_eqb "=" "=") with true. cbv iota.
    rewrite N2, V2. cbn [mbind option_bind]. by rewrite E1, E2, !byte_of_val.
  - destruct (digits_of (byte_val x) (byte_val y) (byte_val z) (byte_range x) (byte_range y) (byte_range z)) as (B0 & _ & B1 & _ & B2 & B3 & _ & E1 & _ & E2 & E3).
    destruct (b64_val_char _ B3) as (V3 & N3 & _). rewrite (proj1 (b64_val_char _ B0)), (proj1 (b64_val_char _ B1)). cbn [mbind option_bind]. rewrite N3, (proj1 (b64_val_char _ B2)), V3, IH.
    cbn [mbind option_bind]. by rewrite E1, E2, E3, !byte_of_val.
Qed.

(** A line of base64 holds no line break, and is not empty unless the bytes are. *)
Lemma b64_line b : Forall (fun c => c <> byte_of 10 /\ c <> byte_of 13) (b64encode b) /\ (b64encode b = [] -> b = []).
Proof.
  assert (Hc : forall z, 0 <= z < 64 -> b64_char z <> byte_of 10 /\ b64_char z <> byte_of 13).
  { intros z Hz. destruct (b64_val_char z Hz) as (_ & _ & H1 & H2). unfold byte_eqb in H1, H2. by rewrite bool_decide_eq_false in H1, H2. }
  assert (He : "="%char <> byte_of 10 /\ "="%char <> byte_of 13) by (split; vm_compute; discriminate).
  induction b as [| x | x y | x y z b IH] using three_ind; (split; [| done]); cbn [b64encode].
  - constructor.
  - destruct (digits_of (byte_val x) 0 0 (byte_range x) ltac:(lia) ltac:(lia)) as (B0 & B1 & _). repeat (constructor; [by first [apply Hc | exact He] |]). constructor.
  - destruct (digits_of (byte_val x) (byte_val y) 0 (byte_range x) (byte_range y) ltac:(lia)) as (B0 & _ & B1 & B2 & _). repeat (constructor; [by first [apply Hc | exact He] |]). constructor.
  - destruct (digits_of (byte_val x) (byte_val y) (byte_val z) (byte_range x) (byte_range y) (byte_range z)) as (B0 & _ & B1 & _ & B2 & B3 & _).
    repeat (constructor; [by apply Hc |]). apply IH.
Qed.
