(* ===== verification/Instructions.v ===== *)
(** * [server/instructions.py]: the closed schemas of instructions

    The checks of headers, parts, role bodies and what devices attest.  A check returns
    nothing where the code returns its argument.  The envelopes are in [Envelope]. *)
From S2P Require Import Prelude PyVal Bencode Ipv4 JsonDump JsonText PolicyDoc SchedDoc Sha256 UrlText JsonParse PolicyEval PeerEndpoints PeerHandouts.

Definition INSTR_MAGIC : bytes := bytes_of "IRIS-INSTR/2".
Definition ROLE_MAGIC : bytes := bytes_of "IRIS-ROLE/1".
Definition INSTR_RESPONSE_MAX : Z := 256 * 1024.
Definition MAX_KDF_BYTES : Z := 96.
Definition MAX_ALLOWED : Z := 1000.
Definition MAX_RULES : Z := 4096.
Definition HEX64 (s : string) : bool := hex_re 64 s.
Definition INSTR_DEVICE_ID (s : string) : bool := _ID_RE s && negb (String.eqb s "seeder").
Definition ROLE (s : string) : bool := role_name_re s && negb (existsb (String.eqb s) ["quarantine"; "origin"; "seeder"; "legacy"]).
Definition PLATFORM (s : string) : bool := existsb (String.eqb s) ["guestshell"; "iox"; "router"; "xr-appmgr"].

Definition QOS_FIELDS : list string :=
  ["max_peers"; "seed_up_bps"; "seed_down_bps"; "leech_up_bps"; "leech_down_bps"; "overall_up_bps"; "overall_down_bps"; "max_concurrent"; "request_peer_speed_limit_bps"].
Definition CONTROL_FIELDS : list string := ["catalog_tick_s"; "telemetry_every_ticks"; "telemetry_pause"].
Definition OPTIONAL_CONTROL_FIELDS : list string := ["peer_telemetry_interval_s"].
Definition QOS_RANGES : list (string * (Z * Z)) :=
  [("max_peers", (1, 1000)); ("seed_up_bps", (0, 10000000000)); ("seed_down_bps", (0, 10000000000)); ("leech_up_bps", (0, 10000000000)); ("leech_down_bps", (0, 10000000000));
   ("overall_up_bps", (0, 10000000000)); ("overall_down_bps", (0, 10000000000)); ("max_concurrent", (1, 1000)); ("request_peer_speed_limit_bps", (0, 1000000000))].
Definition RATE_FIELDS : list string :=
  ["seed_up_bps"; "seed_down_bps"; "leech_up_bps"; "leech_down_bps"; "overall_up_bps"; "overall_down_bps"; "request_peer_speed_limit_bps"].
Definition MIN_RATE_BPS : Z := 8192.
Definition CONTROL_RANGES : list (string * (Z * Z)) := [("catalog_tick_s", (60, 900)); ("telemetry_every_ticks", (1, 60))].
Definition APPLIED_FIELDS : list string :=
  ["bt_max_peers"; "max_upload_limit"; "max_download_limit"; "overall_up"; "overall_down"; "request_peer_speed_limit"; "max_concurrent"].
Definition INSTR_STATES : list string :=
  ["none"; "applied"; "lkg"; "stale_expired"; "allowlist_expired"; "rollback_rejected"; "floor_reset"; "audience_mismatch"; "key_rejected"; "tamper_rejected"; "verifier_missing";
   "lkg_rejected"; "lkg_unreadable"; "oversize"; "reasserted"; "instr_unavailable"; "instr_pending"; "instr_forbidden"; "tracker-only"].
Definition INSTR_REASONS : list string := ["unknown_key"; "bad_mac"].
Definition QOS_DRIFT_MAX_ROWS : Z := 47.

Abbreviation ierr := InstructionError.
Abbreviation sub d k := (dget_or d k VNone).

(** ** Schemas *)

Definition _closed (value : pyval) (required optional : list string) : res dict :=
  match value with
  | VDict d =>
      raise (ierr "invalid object schema") when negb (forallb (dhas d) required) || negb (forallb (fun k => existsb (String.eqb k) (required ++ optional)) (dkeys d));;;
      Ok d
  | _ => Err (ierr "object required")
  end.

Definition _i63 (value : pyval) (name : string) : res Z :=
  match value with
  | VInt z => raise (ierr ("invalid " +:+ name)) when (z <? 0) || (MAX_I63 <? z);;; Ok z
  | _ => Err (ierr ("invalid " +:+ name))
  end.

Definition str_check (ok : string -> bool) (value : pyval) (name : string) : res string :=
  match value with VStr s => if ok s then Ok s else Err (ierr ("invalid " +:+ name)) | _ => Err (ierr ("invalid " +:+ name)) end.

Definition _digest64 (value : pyval) (name : string) : res string := str_check HEX64 value name.
Definition instr_device_id (value : pyval) : res string := str_check INSTR_DEVICE_ID value "device_id".
Definition _role (value : pyval) : res string := str_check ROLE value "role".

Definition check_bool (value : pyval) (name : string) : res unit := raise (ierr ("invalid " +:+ name)) when negb (is_bool value);;; Ok tt.

Definition qos_item (kv : string * pyval) : res unit :=
  let* item := _i63 (snd kv) (fst kv) in
  let '(low, high) := default (0, 0) (dget QOS_RANGES (fst kv)) in
  let bad := ierr ("invalid " +:+ fst kv) in
  raise bad when negb ((low <=? item) && (item <=? high));;;
  raise bad when existsb (String.eqb (fst kv)) RATE_FIELDS && negb (item =? 0) && (item <? MIN_RATE_BPS);;;
  Ok tt.

Definition validate_qos (value : pyval) (partial : bool) : res unit :=
  let* d := _closed value (if partial then [] else QOS_FIELDS) (if partial then QOS_FIELDS else []) in
  res_iter qos_item d.

Definition control_item (kv : string * pyval) : res unit :=
  let '(key, item) := kv in
  let bad := ierr ("invalid " +:+ key) in
  if String.eqb key "peer_telemetry_interval_s" then
    match item with VInt z => raise bad when negb ((z =? 10) || (z =? 60));;; Ok tt | _ => Err bad end
  else if String.eqb key "telemetry_pause" then check_bool item key
  else
    let* z := _i63 item key in
    let '(low, high) := default (0, 0) (dget CONTROL_RANGES key) in
    raise bad when negb ((low <=? z) && (z <=? high));;;
    raise bad when String.eqb key "catalog_tick_s" && negb (z mod 60 =? 0);;;
    Ok tt.

Definition validate_control (value : pyval) (partial : bool) : res unit :=
  let* d := _closed value (if partial then [] else CONTROL_FIELDS) ((if partial then CONTROL_FIELDS else []) ++ OPTIONAL_CONTROL_FIELDS) in
  res_iter control_item d.

(** [str(IPv4Network(value, strict=True))] or [str(IPv4Address(value))]; a network with
    host bits is an error of another class. *)
Definition canonical_network (s : string) : res string :=
  let bad := ierr "invalid IPv4 network" in
  match split_on "/" (bytes_of s) with
  | [_] => match parse_ipv4 s with Some z => Ok (ipv4_text z) | None => Err bad end
  | [a; m] =>
      match parse_ipv4 (string_of a), parse_netmask (string_of m) with
      | Some z, Some p =>
          raise (ValueError "has host bits set") when negb (Z.land z (netmask_of p) =? z);;;
          Ok (ipv4_text z +:+ "/" +:+ string_of (dec p))
      | _, _ => Err bad
      end
  | _ => Err bad
  end.

Definition network_item (value : pyval) : res string :=
  match value with
  | VStr s =>
      let* text := canonical_network s in
      raise (ierr "noncanonical IPv4 network") when negb (String.eqb s text);;;
      Ok text
  | _ => Err (ierr "invalid IPv4 network")
  end.

(** [result == sorted(set(result))] *)
Fixpoint increasing (l : list string) : bool :=
  match l with
  | a :: ((b :: _) as rest) => str_ltb a b && increasing rest
  | _ => true
  end.

Definition _canonical_networks (values : pyval) (cap : Z) : res unit :=
  match values with
  | VList l =>
      raise (ierr "network list exceeds cap") when cap <? zlen l;;;
      let* result := res_map network_item l in
      raise (ierr "network list is not sorted and unique") when negb (increasing result);;;
      Ok tt
  | _ => Err (ierr "network list exceeds cap")
  end.

(** [z > v] and [z < v] *)
Definition int_gt (z : Z) (v : pyval) : res bool :=
  match num_of v with Some f => Ok (match num_cmp (FFin z 0) f with Some Gt => true | _ => false end) | None => Err (TypeError "not supported between instances") end.
Definition int_lt (z : Z) (v : pyval) : res bool :=
  match num_of v with Some f => Ok (match num_cmp (FFin z 0) f with Some Lt => true | _ => false end) | None => Err (TypeError "not supported between instances") end.

Definition is_none (v : pyval) : bool := match v with VNone => true | _ => false end.

Definition validate_peers (value expires_at : pyval) : res unit :=
  match value with
  | VDict v =>
      let mode := sub v "mode" in
      (if py_eq mode (VStr "allow") then
         let* d := _closed value ["mode"; "allowed"; "include_origin"; "allowed_expires_at"] [] in _canonical_networks (sub d "allowed") MAX_ALLOWED
       else if py_eq mode (VStr "deny") then
         let* d := _closed value ["mode"; "rules"; "include_origin"; "allowed_expires_at"] [] in _canonical_networks (sub d "rules") MAX_RULES
       else if py_eq mode (VStr "tracker-only") then let* _ := _closed value ["mode"; "include_origin"; "allowed_expires_at"] [] in Ok tt
       else Err (ierr "invalid peer mode"));;;
      check_bool (sub v "include_origin") "include_origin";;;
      let* allowed := _i63 (sub v "allowed_expires_at") "allowed_expires_at" in
      if is_none expires_at then Ok tt
      else let* late := int_gt allowed expires_at in raise (ierr "peer expiry exceeds stamp expiry") when (late : bool);;; Ok tt
  | _ => Err (ierr "invalid peers")
  end.

(** [part["peers"]["allowed_expires_at"]] of a valid part *)
Definition allowed_expiry (part : dict) : pyval := sub (dict_or_empty (sub part "peers")) "allowed_expires_at".

Definition validate_part (value issued_at expires_at : pyval) : res unit :=
  let* d := _closed value ["peers"; "qos_override"; "control_override"; "server_time"] [] in
  validate_peers (sub d "peers") expires_at;;;
  validate_qos (sub d "qos_override") true;;;
  validate_control (sub d "control_override") true;;;
  let* _ := _i63 (sub d "server_time") "server_time" in
  if is_none issued_at then Ok tt
  else
    raise (ierr "part server_time mismatch") when negb (py_eq (sub d "server_time") issued_at);;;
    let* early := int_lt (match allowed_expiry d with VInt z => z | _ => 0 end) issued_at in
    raise (ierr "peer expiry precedes stamp issuance") when (early : bool);;;
    Ok tt.

Definition check_version (value : pyval) (n : Z) (msg : string) : res unit :=
  match value with VInt z => raise (ierr msg) when negb (z =? n);;; Ok tt | _ => Err (ierr msg) end.

Definition ROLE_BODY_FIELDS : list string := ["v"; "role"; "restricted"; "role_gen"; "issued_at"; "expires_at"; "server_time"; "qos"; "control"; "on_stale"].

Definition validate_role_body (value : pyval) : res unit :=
  let* d := _closed value ROLE_BODY_FIELDS ["allowed_nets"] in
  check_version (sub d "v") 1 "invalid role version";;;
  let* _ := _role (sub d "role") in
  check_bool (sub d "restricted") "restricted";;;
  let* _ := _digest64 (sub d "role_gen") "role_gen" in
  let* issued := _i63 (sub d "issued_at") "issued_at" in
  let* expires := _i63 (sub d "expires_at") "expires_at" in
  raise (ierr "invalid role lifetime") when (expires <=? issued) || (604800 <? expires - issued);;;
  let* server_time := _i63 (sub d "server_time") "server_time" in
  raise (ierr "role server_time mismatch") when negb (server_time =? issued);;;
  validate_qos (sub d "qos") false;;;
  validate_control (sub d "control") false;;;
  raise (ierr "invalid on_stale") when negb (in_strs (sub d "on_stale") ["keep"; "defaults"]);;;
  if dhas d "allowed_nets" then _canonical_networks (sub d "allowed_nets") MAX_ALLOWED else Ok tt.

Definition HEADER_FIELDS : list string :=
  ["v"; "device_id"; "platform"; "epoch"; "instr_serial"; "policy_revision"; "issued_at"; "expires_at"; "server_time"; "verify_level"; "key_id"; "role"; "role_gen";
   "role_body_sha256"; "ct_len"; "allowed_expires_at"; "degraded"].

Definition validate_header (value : pyval) : res unit :=
  let* d := _closed value HEADER_FIELDS ["info_hash"] in
  check_version (sub d "v") 2 "invalid instruction version";;;
  let* _ := instr_device_id (sub d "device_id") in
  let* _ := str_check PLATFORM (sub d "platform") "platform" in
  let* epoch := _i63 (sub d "epoch") "epoch" in
  let* _ := _i63 (sub d "instr_serial") "instr_serial" in
  let* _ := _i63 (sub d "policy_revision") "policy_revision" in
  let* issued := _i63 (sub d "issued_at") "issued_at" in
  let* expires := _i63 (sub d "expires_at") "expires_at" in
  raise (ierr "invalid instruction lifetime") when (issued <? epoch) || (expires <=? issued) || (604800 <? expires - issued);;;
  let* server_time := _i63 (sub d "server_time") "server_time" in
  raise (ierr "instruction server_time mismatch") when negb (server_time =? issued);;;
  raise (ierr "invalid verify_level") when negb (py_eq (sub d "verify_level") (VStr "sig"));;;
  let* _ := _digest64 (sub d "key_id") "key_id" in
  let* _ := _role (sub d "role") in
  let* _ := _digest64 (sub d "role_gen") "role_gen" in
  let* _ := _digest64 (sub d "role_body_sha256") "role_body_sha256" in
  let* _ := _i63 (sub d "ct_len") "ct_len" in
  let* allowed := _i63 (sub d "allowed_expires_at") "allowed_expires_at" in
  raise (ierr "peer expiry exceeds stamp expiry") when (allowed <? issued) || (expires <? allowed);;;
  check_bool (sub d "degraded") "degraded";;;
  if dhas d "info_hash" then let* _ := str_check HEX40 (sub d "info_hash") "info_hash" in Ok tt else Ok tt.

(** ** What a device attests *)

Definition _attestation_integers (value : pyval) (fields : list string) : res dict :=
  let* d := _closed value fields [] in
  res_map (fun name => let* z := _i63 (sub d name) name in Ok (name, VInt z)) fields.

Definition _attestation_drift_pair (value : pyval) : res dict :=
  let* p := _attestation_integers value ["expected"; "observed"] in
  raise (ierr "drift values must differ") when py_eq (sub p "expected") (sub p "observed");;;
  Ok p.

Definition drift_row (row : pyval) : res pyval :=
  let* d := _closed row ["option"; "expected"; "observed"] [] in
  raise (ierr "invalid drift option") when negb (in_strs (sub d "option") APPLIED_FIELDS);;;
  let* p := _attestation_drift_pair (VDict [("expected", sub d "expected"); ("observed", sub d "observed")]) in
  Ok (VDict (dset p "option" (sub d "option"))).

Definition _attestation_drift (value : pyval) : res dict :=
  let* d := _closed value ["options"] ["blocklist_revision"; "blocklist_rules"] in
  match sub d "options" with
  | VList rows =>
      raise (ierr "invalid drift observations") when QOS_DRIFT_MAX_ROWS <? zlen rows;;;
      let* options := res_map drift_row rows in
      let* clean := res_fold (fun clean name => if dhas d name then let* p := _attestation_drift_pair (sub d name) in Ok (dset clean name (VDict p)) else Ok clean)
        [("options", VList options)] ["blocklist_revision"; "blocklist_rules"] in
      raise (ierr "empty drift observations") when bool_decide (rows = []) && (zlen clean =? 1);;;
      Ok clean
  | _ => Err (ierr "invalid drift observations")
  end.

(** [try: ... except InstructionError: pass] *)
Definition attempt {A} (clean : dict) (r : res A) (f : A -> dict) : res dict :=
  match r with Ok x => Ok (f x) | Err (InstructionError _) => Ok clean | Err e => Err e end.

(** [{name: data[name] for name in names if name in data}] *)
Definition present (data : dict) (names : list string) : dict := omap (fun name => pair name <$> dget data name) names.

Definition instr_state_of (data clean : dict) : dict :=
  match sub data "instr_state" with
  | VStr state =>
      if negb (existsb (String.eqb state) INSTR_STATES) then clean
      else if String.eqb state "key_rejected" then
        match sub data "instr_reason" with
        | VStr reason => if existsb (String.eqb reason) INSTR_REASONS then dset (dset clean "instr_state" (VStr state)) "instr_reason" (VStr reason) else clean
        | _ => clean
        end
      else if dhas data "instr_reason" then clean
      else dset clean "instr_state" (VStr state)
  | _ => clean
  end.

Definition IDENTITY_FIELDS : list string := ["instr_epoch"; "instr_serial"; "instr_policy_revision"].

Definition sanitize_instruction_attestation (value : pyval) : res dict :=
  match value with
  | VDict data =>
      let clean := if dhas data "instr_protocol" then [("instr_protocol", match sub data "instr_protocol" with VInt 1 => VInt 1 | _ => VNone end)] else [] in
      let* clean := if dhas data "applied" then attempt clean (_attestation_integers (sub data "applied") APPLIED_FIELDS) (fun d => dset clean "applied" (VDict d)) else Ok clean in
      let clean := instr_state_of data clean in
      let* clean :=
        if dhas data "instr_epoch" || dhas data "instr_policy_revision" then
          attempt clean (_attestation_integers (VDict (present data IDENTITY_FIELDS)) IDENTITY_FIELDS) (dupdate clean)
        else if dhas data "instr_serial" then attempt clean (_i63 (sub data "instr_serial") "instr_serial") (fun z => dset clean "instr_serial" (VInt z))
        else Ok clean in
      let clean := match sub data "pointer_skew" with VBool b => dset clean "pointer_skew" (VBool b) | _ => clean end in
      let clean := if in_strs (sub data "verify_level") ["sig"; "none"] then dset clean "verify_level" (sub data "verify_level") else clean in
      let names := ["blocklist_rules"; "blocklist_revision"] in
      let* clean :=
        if dhas data "blocklist_rules" || dhas data "blocklist_revision" then attempt clean (_attestation_integers (VDict (present data names)) names) (dupdate clean) else Ok clean in
      if dhas data "qos_drift" then attempt clean (_attestation_drift (sub data "qos_drift")) (fun d => dset clean "qos_drift" (VDict d)) else Ok clean
  | _ => Ok []
  end.
