(* ===== verification/Envelope.v ===== *)
(** * [server/instructions.py] and [server/instruction_aead.py]: sealed envelopes

    Canonical JSON, the pre-authentication encoding, key derivation, framing, sealing and
    opening.

    The helper process is an argument: [helper op payload] is its output, or nothing when it
    cannot run or fails; how its path is found is not modelled.  [iris_aead] is the program
    [tools/iris-aead.c] that the server runs, over the AES-SIV of OpenSSL.  The shortest decimal form of a float and its reading are parameters too; no valid
    instruction holds a float. *)
From S2P Require Import Prelude PyVal Bencode Ipv4 JsonDump JsonText PolicyDoc Sha256 UrlText JsonParse KeyedState PeerHandouts Instructions.

(** ** Bytes *)

(** [struct.pack]: [n] bytes of an unsigned integer, least significant first. *)
Fixpoint pack_le (n : nat) (z : Z) : bytes := match n with O => [] | S n => byte_of (z mod 256) :: pack_le n (z / 256) end.
Definition pack_be (n : nat) (z : Z) : bytes := reverse (pack_le n z).

Definition be_value (b : bytes) : Z := foldl (fun acc c => 256 * acc + byte_val c) 0 b.

Definition sha256_digest (b : bytes) : bytes :=
  let ws := sha256_words (map byte_val b) in flat_map (fun i => pack_be 4 (nth i ws 0)) (seq 0 8).

Definition sha_hex (b : bytes) : string := sha256_hexdigest (string_of b).

Definition hmac_sha256 (key msg : bytes) : bytes :=
  let key := if 64 <? zlen key then sha256_digest key else key in
  let key := key ++ repeat (byte_of 0) (64 - length key) in
  let pad x := map (fun c => byte_of (Z.lxor (byte_val c) x)) key in
  sha256_digest (pad 92 ++ sha256_digest (pad 54 ++ msg)).

Example digest_agrees : string_of (hexlify (sha256_digest (bytes_of "abc"))) = sha_hex (bytes_of "abc").
Proof. vm_compute. reflexivity. Qed.

(** The second test case of RFC 4231. *)
Example hmac_rfc4231 : string_of (hexlify (hmac_sha256 (bytes_of "Jefe") (bytes_of "what do ya want for nothing?"))) = "5bdcc146bf60754e6a042426089575c75a003f089d2739839dec58b964ec3843".
Proof. vm_compute. reflexivity. Qed.

Definition pae (parts : list bytes) : res bytes :=
  raise (ierr "too many PAE parts") when 2 ^ 64 - 1 <? zlen parts;;;
  let* out := res_map (fun part => raise (ierr "PAE part is too long") when 2 ^ 64 - 1 <? zlen part;;; Ok (pack_le 8 (zlen part) ++ part)) parts in
  Ok (pack_le 8 (zlen parts) ++ concat out).

(** ** Keys *)

Definition sp800_108 (key label context : bytes) (length : Z) : res bytes :=
  raise (ierr "invalid KDF output length") when (length <=? 0) || (MAX_KDF_BYTES <? length);;;
  raise (ierr "KDF input is too long") when (255 <? zlen label) || (4096 <? zlen context);;;
  let bits := length * 8 in
  let blocks := (length + 32 - 1) / 32 in
  let block counter := hmac_sha256 key (pack_be 4 (Z.of_nat counter) ++ label ++ [byte_of 0] ++ context ++ pack_be 4 bits) in
  Ok (take (Z.to_nat length) (flat_map block (seq 1 (Z.to_nat blocks)))).

Definition instruction_key_id (key : bytes) : res string :=
  raise (ierr "instruction key must be 32 bytes") when negb (zlen key =? 32);;;
  Ok (sha_hex key).

Definition derive_keys (key : bytes) (device_id key_id : pyval) : res (bytes * bytes) :=
  let* dev := instr_device_id device_id in
  let* kid := _digest64 key_id "key_id" in
  let* actual := instruction_key_id key in
  raise (ierr "instruction key identity mismatch") when negb (String.eqb actual kid);;;
  let* context := pae [bytes_of dev; bytes_of kid] in
  let* material := sp800_108 key (bytes_of "iris-instr-aes-siv-v2") context 96 in
  Ok (take 64 material, drop 64 material).

Definition derive_nonce (k_nonce : bytes) (device_id key_id epoch instr_serial : pyval) : res bytes :=
  raise (ierr "nonce key must be 32 bytes") when negb (zlen k_nonce =? 32);;;
  let* dev := instr_device_id device_id in
  let* kid := _digest64 key_id "key_id" in
  let* epoch := _i63 epoch "epoch" in
  let* serial := _i63 instr_serial "instr_serial" in
  let* context := pae [bytes_of dev; bytes_of kid; pack_be 8 epoch; pack_be 8 serial] in
  sp800_108 k_nonce (bytes_of "iris-instr-nonce-v2") context 16.

(** ** Lines *)

Definition _unb64 (line : bytes) : res bytes :=
  match b64decode line with
  | None => Err (ierr "invalid base64")
  | Some decoded => raise (ierr "noncanonical base64") when negb (bool_decide (b64encode decoded = line));;; Ok decoded
  end.

Definition newline : ascii := byte_of 10.
Definition lines_text (lines : list bytes) : bytes := flat_map (fun line => line ++ [newline]) lines.

Definition frame_envelope (values : list bytes) : res bytes :=
  let framed := lines_text (INSTR_MAGIC :: map b64encode values) in
  raise (ierr "instruction envelope is too large") when INSTR_RESPONSE_MAX <? zlen framed;;;
  Ok framed.

(** [framed[:-1].split(b"\n")] of a text that ends with a newline and holds no carriage return *)
Definition frame_lines (framed : bytes) : option (list bytes) :=
  if existsb (byte_eqb (byte_of 13)) framed || negb (bool_decide (last framed = Some newline)) then None
  else Some (split_on newline (take (length framed - 1) framed)).

(** ** JSON *)

Fixpoint utf8_ok_fuel (fuel : nat) (b : bytes) : bool :=
  match fuel, b with
  | _, [] => true
  | O, _ => false
  | S fuel, c :: rest =>
      if byte_val c <? 128 then utf8_ok_fuel fuel rest
      else
        match lead c, rest with
        | Some (lo, hi, more), second :: tail => in_bytes lo hi second && (continuation more tail =? more)%nat && utf8_ok_fuel fuel (drop more tail)
        | _, _ => false
        end
  end.
Definition utf8_ok (b : bytes) : bool := utf8_ok_fuel (length b) b.

(** ** The helper program *)

Definition LIMIT : Z := 256 * 1024.

(** AES-256-SIV as OpenSSL provides it: a key, associated data and a plaintext give a
    ciphertext and a tag of 16 bytes; a key, associated data, a ciphertext and a tag give
    the plaintext, or nothing when the tag is not theirs. *)
Record siv : Type := Siv { siv_encrypt : bytes -> bytes -> bytes -> option (bytes * bytes); siv_decrypt : bytes -> bytes -> bytes -> bytes -> option bytes }.

(** [read_exact]: the bytes and what is left of the input. *)
Definition read_exact (n : Z) (stdin : bytes) : option (bytes * bytes) :=
  if zlen stdin <? n then None else Some (take (Z.to_nat n) stdin, drop (Z.to_nat n) stdin).

Definition iris_aead (s : siv) (operation : string) (stdin : bytes) : option bytes :=
  if negb (String.eqb operation "seal" || String.eqb operation "open") then None
  else
    let enc := String.eqb operation "seal" in
    '(header, stdin) ← read_exact 8 stdin;
    let alen := be_value (take 4 header) in
    let dlen := be_value (drop 4 header) in
    if (alen =? 0) || (LIMIT <? alen) || (dlen =? 0) || (LIMIT <? dlen) then None
    else
      '(key, stdin) ← read_exact 64 stdin;
      '(aad, stdin) ← read_exact alen stdin;
      '(data, stdin) ← read_exact dlen stdin;
      '(tag, stdin) ← (if enc then Some ([], stdin) else read_exact 16 stdin);
      if negb (bool_decide (stdin = [])) then None
      else
        '(out, tag) ← (if enc then siv_encrypt s key aad data else out ← siv_decrypt s key aad data tag; Some (out, []));
        if negb (zlen out =? dlen) then None else Some (out ++ tag).

Section envelope.
Context (float_of : bytes -> pyfloat) (float_repr : pyfloat -> bytes) (helper : string -> bytes -> option bytes).

Definition canonical_json (value : pyval) : res bytes :=
  raise (ierr "invalid JSON value") when negb (finite_val value);;;
  Ok (json_text float_repr (sort_keys value)).

Definition parse_json (data : bytes) : res pyval :=
  if negb (utf8_ok data) then Err (ierr "invalid JSON")
  else
    match loads float_of (ierr "duplicate JSON key") (ierr "non-finite JSON number") data with
    | Err (InstructionError m) => Err (ierr m)
    | Err _ => Err (ierr "invalid JSON")
    | Ok value =>
        let* text := canonical_json value in
        raise (ierr "JSON is not canonical") when negb (bool_decide (text = data));;;
        Ok value
    end.

(** ** AES-SIV *)

Definition transform (operation : string) (key aad data tag : bytes) : res bytes :=
  let sealing := String.eqb operation "seal" in
  raise (ValueError "invalid instruction AEAD input") when
    negb (zlen key =? 64) || negb ((0 <? zlen aad) && (zlen aad <=? LIMIT)) || negb ((0 <? zlen data) && (zlen data <=? LIMIT)) ||
    negb (zlen tag =? (if sealing then 0 else 16));;;
  match helper operation (pack_be 4 (zlen aad) ++ pack_be 4 (zlen data) ++ key ++ aad ++ data ++ tag) with
  | None => Err (ValueError "instruction authentication failed")
  | Some out =>
      raise (ValueError "instruction authentication failed") when negb (zlen out =? zlen data + (if sealing then 16 else 0));;;
      Ok out
  end.

Definition aead_seal (key aad plaintext : bytes) : res (bytes * bytes) :=
  let* result := transform "seal" key aad plaintext [] in
  Ok (take (length result - 16) result, drop (length result - 16) result).

Definition open_sealed (key aad ciphertext tag : bytes) : res bytes := transform "open" key aad ciphertext tag.

(** [except ValueError: raise InstructionError(msg)] *)
Definition or_unavailable {A} (r : res A) (msg : string) : res A :=
  match r with Err (ValueError _) | Err (InstructionError _) => Err (ierr msg) | r => r end.

(** ** Envelopes *)

Definition parse_envelope (framed : bytes) : res (list bytes) :=
  raise (ierr "instruction envelope is too large") when INSTR_RESPONSE_MAX <? zlen framed;;;
  match frame_lines framed with
  | None => Err (ierr "invalid instruction framing")
  | Some lines =>
      raise (ierr "invalid instruction framing") when
        negb (zlen lines =? 7) || negb (bool_decide (hd [] lines = INSTR_MAGIC)) || existsb (fun line => bool_decide (line = [])) lines;;;
      let* components := res_map _unb64 (tail lines) in
      match components with
      | [header; role_body; signature; nonce; ciphertext; tag] =>
          let* h := parse_json header in
          validate_header h;;;
          let* r := parse_json role_body in
          validate_role_body r;;;
          raise (ierr "invalid instruction component") when bool_decide (signature = []) || negb (zlen nonce =? 16) || negb (zlen tag =? 16);;;
          Ok components
      | _ => Err (ierr "invalid instruction framing")
      end
  end.

(** The role body is the one the header names. *)
Definition role_matches (role header : dict) : bool :=
  forallb (fun k => py_eq (sub role k) (sub header k)) ["role_gen"; "role"; "issued_at"; "expires_at"].

Definition seal_parts (header_obj : dict) (part_obj : pyval) (role_body signature key : bytes) : res bytes :=
  let* plaintext := canonical_json part_obj in
  let header_obj := dset header_obj "ct_len" (VInt (zlen plaintext)) in
  validate_part part_obj (sub header_obj "issued_at") (sub header_obj "expires_at");;;
  validate_header (VDict header_obj);;;
  let* role := parse_json role_body in
  validate_role_body role;;;
  raise (ierr "role body identity mismatch") when
    negb (py_eq (VStr (sha_hex role_body)) (sub header_obj "role_body_sha256")) || negb (role_matches (dict_or_empty role) header_obj);;;
  let* header := canonical_json (VDict header_obj) in
  let* (k_aead, k_nonce) := derive_keys key (sub header_obj "device_id") (sub header_obj "key_id") in
  let* nonce := derive_nonce k_nonce (sub header_obj "device_id") (sub header_obj "key_id") (sub header_obj "epoch") (sub header_obj "instr_serial") in
  let* (ciphertext, tag) := or_unavailable (let* aad := pae [INSTR_MAGIC; header; role_body; signature; nonce] in aead_seal k_aead aad plaintext) "instruction encryption unavailable" in
  frame_envelope [header; role_body; signature; nonce; ciphertext; tag].

Definition seal (header_obj : pyval) (role_body signature key : bytes) : res bytes :=
  match header_obj with
  | VDict d =>
      match dget d "_part" with
      | Some part => seal_parts (dpop d "_part") part role_body signature key
      | None => Err (ierr "seal requires internal _part")
      end
  | _ => Err (ierr "seal requires internal _part")
  end.

(** [before_decrypt] is what the callback does, if there is one. *)
Definition open_parts (framed key : bytes) (before_decrypt : option (res unit)) : res (dict * bytes * bytes * dict) :=
  let* components := parse_envelope framed in
  match components with
  | [header_b; role_b; signature; nonce; ciphertext; tag] =>
      let* header := parse_json header_b in
      validate_header header;;;
      let* role := parse_json role_b in
      validate_role_body role;;;
      let header := dict_or_empty header in
      raise (ierr "role body digest mismatch") when negb (py_eq (VStr (sha_hex role_b)) (sub header "role_body_sha256"));;;
      raise (ierr "role body identity mismatch") when negb (role_matches (dict_or_empty role) header);;;
      let* (k_aead, k_nonce) := derive_keys key (sub header "device_id") (sub header "key_id") in
      let* expected_nonce := derive_nonce k_nonce (sub header "device_id") (sub header "key_id") (sub header "epoch") (sub header "instr_serial") in
      raise (ierr "instruction nonce mismatch") when negb (bool_decide (nonce = expected_nonce));;;
      raise (ierr "ciphertext length mismatch") when negb (py_eq (VInt (zlen ciphertext)) (sub header "ct_len"));;;
      let* plaintext := or_unavailable (let* aad := pae [INSTR_MAGIC; header_b; role_b; signature; nonce] in open_sealed k_aead aad ciphertext tag) "instruction authentication failed" in
      default (Ok tt) before_decrypt;;;
      let* part := parse_json plaintext in
      validate_part part (sub header "issued_at") (sub header "expires_at");;;
      raise (ierr "peer expiry mismatch") when negb (py_eq (allowed_expiry (dict_or_empty part)) (sub header "allowed_expires_at"));;;
      Ok (header, role_b, signature, dict_or_empty part)
  | _ => Err (ierr "invalid instruction framing")
  end.

Definition frame_role (role_body signature : bytes) : res bytes :=
  raise (ierr "invalid role artifact component") when bool_decide (signature = []);;;
  let* role := parse_json role_body in
  validate_role_body role;;;
  let framed := lines_text [ROLE_MAGIC; b64encode role_body; b64encode signature] in
  raise (ierr "role artifact is too large") when INSTR_RESPONSE_MAX <? zlen framed;;;
  Ok framed.

Definition parse_role (framed : bytes) : res (bytes * bytes) :=
  match (if INSTR_RESPONSE_MAX <? zlen framed then None else frame_lines framed) with
  | Some [magic; body; signature] =>
      raise (ierr "invalid role artifact framing") when
        negb (bool_decide (magic = ROLE_MAGIC)) || bool_decide (body = []) || bool_decide (signature = []);;;
      let* body := _unb64 body in
      let* signature := _unb64 signature in
      let* role := parse_json body in
      validate_role_body role;;;
      raise (ierr "invalid role signature") when bool_decide (signature = []);;;
      Ok (body, signature)
  | _ => Err (ierr "invalid role artifact framing")
  end.

(** ** Stamps *)

Definition STAMP_KEYS : list string :=
  ["epoch"; "instr_serial"; "policy_revision"; "platform"; "role"; "role_gen"; "role_body_sha256"; "key_id"; "verify_level"; "issued_at"; "expires_at"; "degraded"].

(** The header of a stamp for a device. *)
Definition header_of (device_id : pyval) (stamp : dict) : res dict :=
  let part := sub stamp "part" in
  let* text := canonical_json part in
  Ok (map (fun k => (k, sub stamp k)) STAMP_KEYS ++
      [("v", VInt 2); ("device_id", device_id); ("server_time", sub stamp "issued_at"); ("ct_len", VInt (zlen text)); ("allowed_expires_at", allowed_expiry (dict_or_empty part))]).

Definition validate_stamp (value : pyval) : res unit :=
  let* d := _closed value (STAMP_KEYS ++ ["part"]) [] in
  validate_part (sub d "part") (sub d "issued_at") (sub d "expires_at");;;
  let* synthetic := header_of (VStr "validation") d in
  validate_header (VDict synthetic).

Definition stamp_header (device_id stamp : pyval) : res dict :=
  validate_stamp stamp;;;
  let* header := header_of device_id (dict_or_empty stamp) in
  validate_header (VDict header);;;
  Ok header.

Definition desired_digest (stamp_without_serial : pyval) : res string :=
  match stamp_without_serial with
  | VDict d =>
      raise (ierr "invalid desired stamp") when dhas d "instr_serial";;;
      validate_stamp (VDict (dset d "instr_serial" (VInt 0)));;;
      let* text := canonical_json stamp_without_serial in
      Ok (sha_hex text)
  | _ => Err (ierr "invalid desired stamp")
  end.
End envelope.

Definition daily_offset (device_id : pyval) : res Z :=
  let* dev := instr_device_id device_id in
  Ok (be_value (take 8 (sha256_digest (bytes_of "iris-instr-daily-v1" ++ [byte_of 0] ++ bytes_of dev))) mod 86400).
