(* ===== verification/EnvelopeSpec.v ===== *)
(** * Sealed instructions

    The encodings of an envelope lose nothing: the pre-authentication encoding and the
    framing are injective and canonical JSON is read back. *)
From S2P Require Import Prelude Bencode PyVal JsonDump Ipv4 PolicyDoc Sha256 JsonText KeyedState KeyedSpec SchedDoc PeerHandouts HandoutRows UrlText JsonParse Instructions Envelope.

(** ** The pre-authentication encoding *)

Lemma pack_le_length n z : length (pack_le n z) = n.
Proof. revert z. induction n as [| n IH]; intros z; [done |]. cbn. by rewrite IH. Qed.

Lemma byte_of_inj a b : 0 <= a < 256 -> 0 <= b < 256 -> byte_of a = byte_of b -> a = b.
Proof. intros Ha Hb H. apply (f_equal byte_val) in H. by rewrite !byte_val_of in H. Qed.

Lemma pack_le_inj n a b : 0 <= a < 256 ^ Z.of_nat n -> 0 <= b < 256 ^ Z.of_nat n -> pack_le n a = pack_le n b -> a = b.
Proof.
  revert a b. induction n as [| n IH]; intros a b Ha Hb H; [cbn in *; lia |]. cbn [pack_le] in H. rewrite Nat2Z.inj_succ, Z.pow_succ_r in Ha, Hb by lia.
  injection H as H1 H2. apply byte_of_inj in H1; [| apply Z.mod_pos_bound; lia ..]. apply IH in H2; [| apply div_bounds; lia ..].
  rewrite (Z.div_mod a 256), (Z.div_mod b 256) by lia. congruence.
Qed.

Lemma zlen_pack {A} (x y : list A) n : zlen x <= 2 ^ 64 - 1 -> zlen y <= 2 ^ 64 - 1 -> n = 8%nat -> pack_le n (zlen x) = pack_le n (zlen y) -> zlen x = zlen y.
Proof. intros Hx Hy -> H. pose proof (zlen_nonneg x). pose proof (zlen_nonneg y). apply (pack_le_inj 8) in H; [done | change (256 ^ Z.of_nat 8) with (2 ^ 64); lia ..]. Qed.

Lemma pae_ok parts b : pae parts = Ok b -> zlen parts <= 2 ^ 64 - 1 /\ Forall (fun p : bytes => zlen p <= 2 ^ 64 - 1) parts /\ b = pack_le 8 (zlen parts) ++ concat (map (fun p : bytes => pack_le 8 (zlen p) ++ p) parts).
Proof.
  unfold pae. destruct (Z.ltb_spec (2 ^ 64 - 1) (zlen parts)) as [|Hn]; [discriminate |]. intros H. destruct (res_map _ parts) as [out |] eqn:E; [| discriminate H]. cbn [mbind res_bind] in H. injection H as <-.
  apply res_map_ok in E. split; [done |]. assert (Hp : Forall (fun p : bytes => zlen p <= 2 ^ 64 - 1) parts /\ out = map (fun p : bytes => pack_le 8 (zlen p) ++ p) parts); [| by destruct Hp as [? ->]].
  clear Hn. induction E as [| p o parts out Hpo _ [IH1 ->]]; [done |]. destruct (Z.ltb_spec (2 ^ 64 - 1) (zlen p)) as [|Hle]; [discriminate |]. injection Hpo as <-. split; [by constructor | done].
Qed.

Lemma parts_inj p q : Forall (fun p : bytes => zlen p <= 2 ^ 64 - 1) p -> Forall (fun p : bytes => zlen p <= 2 ^ 64 - 1) q -> length p = length q ->
  concat (map (fun p : bytes => pack_le 8 (zlen p) ++ p) p) = concat (map (fun p : bytes => pack_le 8 (zlen p) ++ p) q) -> p = q.
Proof.
  intros Hp. revert q. induction Hp as [| x p Hx _ IH]; intros [| y q] Hq Hl H; try done. apply Forall_cons in Hq as [Hy Hq]. cbn [map concat] in H. rewrite <- !app_assoc in H.
  apply app_inj_1 in H as [H1 H2]; [| by rewrite !pack_le_length]. apply zlen_pack in H1; [| done | done | done].
  apply app_inj_1 in H2 as [-> H2]; [| unfold zlen in H1; lia]. f_equal. apply IH; [done | cbn in Hl; lia | done].
Qed.

Lemma pae_inj p q b : pae p = Ok b -> pae q = Ok b -> p = q.
Proof.
  intros Hp Hq. apply pae_ok in Hp as (Hn & Hp & ->). apply pae_ok in Hq as (Hm & Hq & H). apply app_inj_1 in H as [H1 H2]; [| by rewrite !pack_le_length].
  apply zlen_pack in H1; [| done | done | done]. apply parts_inj; [done | done | unfold zlen in H1; lia | done].
Qed.

(** ** Lines *)

Definition line_ok (line : bytes) : Prop := Forall (fun c => c <> byte_of 10 /\ c <> byte_of 13) line.

Lemma lines_snoc lines : lines <> [] -> exists body, lines_text lines = body ++ [newline] /\ (Forall line_ok lines -> split_on newline body = lines).
Proof.
  intros Hne. destruct lines as [| l lines]; [done |]. clear Hne. revert l. induction lines as [| m lines IH]; intros l.
  - exists l. cbn. rewrite app_nil_r. split; [done |]. intros H. inversion H; subst. apply split_last. eapply Forall_impl; [done |]. by intros c [? _].
  - destruct (IH m) as (body & Hb & Hs). exists (l ++ newline :: body). split.
    + unfold lines_text in *. cbn [flat_map] in *. rewrite Hb, <- !app_assoc. done.
    + intros H. apply Forall_cons in H as [Hl H]. rewrite split_line by (eapply Forall_impl; [exact Hl |]; by intros c [? _]). by rewrite Hs.
Qed.

Lemma frame_lines_text lines : lines <> [] -> Forall line_ok lines -> frame_lines (lines_text lines) = Some lines.
Proof.
  intros Hne Hl. destruct (lines_snoc lines Hne) as (body & Hb & Hs). unfold frame_lines.
  assert (Hcr : existsb (byte_eqb (byte_of 13)) (lines_text lines) = false).
  { apply not_true_is_false. intros H. apply existsb_exists in H as (c & Hin & Hc). apply bool_decide_eq_true in Hc as <-. unfold lines_text in Hin. apply in_flat_map in Hin as (l & Hli & Hin).
    rewrite Forall_forall in Hl. specialize (Hl l (proj2 (list_elem_of_In _ _) Hli)). apply in_app_or in Hin as [Hin | [Hin | []]]; [| vm_compute in Hin; discriminate Hin].
    unfold line_ok in Hl. rewrite Forall_forall in Hl. by destruct (Hl _ (proj2 (list_elem_of_In _ _) Hin)). }
  rewrite Hcr, Hb, last_snoc. rewrite bool_decide_true by done. cbn [orb negb]. rewrite length_app, Nat.add_sub, take_app_length. by rewrite Hs.
Qed.

Lemma split_ne c b : split_on c b <> [].
Proof. destruct b as [| x b]; [done |]. cbn. destruct (split_on c b); [done |]. by destruct (byte_eqb x c). Qed.

Lemma split_lines b : lines_text (split_on newline b) = b ++ [newline].
Proof.
  induction b as [| x b IH]; [done |]. cbn [split_on]. destruct (split_on newline b) as [| w ws] eqn:E; [by destruct (split_ne newline b) |].
  unfold lines_text in *. destruct (byte_eqb x newline) eqn:Ex; cbn [flat_map app] in *; rewrite IH; [| done]. apply bool_decide_eq_true in Ex as ->. done.
Qed.

(** The lines of a text are all of it. *)
Lemma frame_lines_all framed lines : frame_lines framed = Some lines -> framed = lines_text lines.
Proof.
  unfold frame_lines. destruct (_ || _) eqn:E; [discriminate |]. intros [= <-]. apply orb_false_iff in E as [_ E]. rewrite negb_false_iff in E. apply bool_decide_eq_true, last_Some in E as [body ->].
  rewrite length_app, Nat.add_sub, take_app_length, split_lines. done.
Qed.

Lemma unb64_b64 b : _unb64 (b64encode b) = Ok b.
Proof. unfold _unb64. rewrite b64_roundtrip. by rewrite bool_decide_true. Qed.

Lemma unb64_ok line b : _unb64 line = Ok b -> line = b64encode b.
Proof. unfold _unb64. destruct (b64decode line) as [x |]; [| discriminate]. destruct (bool_decide_reflect (b64encode x = line)) as [<- |]; [| discriminate]. cbn. by intros [= ->]. Qed.

Lemma unb64_all values : res_map _unb64 (map b64encode values) = Ok values.
Proof. induction values as [| v values IH]; [done |]. cbn [map res_map]. rewrite unb64_b64. cbn [mbind res_bind]. by rewrite IH. Qed.

Lemma unb64_map lines values : res_map _unb64 lines = Ok values -> lines = map b64encode values.
Proof.
  revert values. induction lines as [| l lines IH]; intros values H; cbn [res_map] in H; [by injection H as <- |].
  destruct (_unb64 l) as [v |] eqn:E; [| discriminate H]. cbn [mbind res_bind] in H. destruct (res_map _unb64 lines) as [vs |]; [| discriminate H]. injection H as <-.
  cbn [map]. by rewrite <- (unb64_ok _ _ E), <- (IH vs).
Qed.

(** ** Canonical JSON *)

Lemma textual_list l : textual (VList l) = true <-> Forall (fun v => textual v = true) l.
Proof. cbn [textual]. rewrite forallb_forall, Forall_forall. split; intros H x Hx; apply H; by apply list_elem_of_In. Qed.

Lemma textual_dict d : textual (VDict d) = true <-> Forall (fun kv => ascii_text (fst kv) = true /\ textual (snd kv) = true) d /\ NoDup (dkeys d).
Proof.
  cbn [textual]. rewrite andb_true_iff, bool_decide_eq_true, forallb_forall, Forall_forall. split; (intros [H Hn]; split; [| done]; intros x Hx).
  - apply andb_true_iff, H. by apply list_elem_of_In.
  - apply andb_true_iff, H. by apply list_elem_of_In.
Qed.

Lemma textual_sorted v : textual v = true -> textual (sort_keys v) = true.
Proof.
  induction v as [v Hv | l Hl | d Hd] using pyval_strong_ind; intros H.
  - by destruct v.
  - cbn [sort_keys]. apply textual_list. apply textual_list in H. apply Forall_map. rewrite Forall_forall in *. intros x Hx. cbn. by apply Hl, H.
  - apply textual_dict in H as [H Hn]. rewrite sorted_dict. apply textual_dict. split; [| rewrite dkeys_sort_keys; done].
    rewrite Forall_forall in *. intros kv Hkv. cbn [sort_keys dict_or_empty] in Hkv. apply sort_by_elem, list_elem_of_fmap in Hkv as ([k x] & -> & Hx).
    destruct (H _ Hx) as [Hk Hv]. split; [done |]. by apply (Hd (k, x)).
Qed.

Lemma textual_finite v : textual v = true -> finite_val v = true.
Proof.
  induction v as [v Hv | l Hl | d Hd] using pyval_strong_ind; intros H.
  - by destruct v.
  - rewrite finite_list. apply textual_list in H. apply forallb_forall. intros x Hx. apply list_elem_of_In in Hx. rewrite Forall_forall in *. by apply Hl, H.
  - rewrite finite_dict. apply textual_dict in H as [H _]. apply forallb_forall. intros x Hx. apply list_elem_of_In in Hx. rewrite Forall_forall in *. by apply Hd, H.
Qed.

Definition all_ascii (b : bytes) : Prop := Forall (fun c => byte_val c < 128) b.

Lemma ascii_utf8 b : all_ascii b -> utf8_ok b = true.
Proof. unfold utf8_ok. induction 1 as [| c b Hc _ IH]; [done |]. cbn [length utf8_ok_fuel]. apply Z.ltb_lt in Hc. by rewrite Hc. Qed.

Lemma dec_ascii z : all_ascii (dec z).
Proof. eapply Forall_impl; [apply dec_chars |]. intros c [H | ->]; [| done]. unfold is_digit in H. apply andb_true_iff in H as [_ H]. apply Z.leb_le in H. lia. Qed.

Lemma escape_ascii_char c : byte_val c < 128 -> all_ascii (escape_char (byte_val c)).
Proof. destruct c as [[|] [|] [|] [|] [|] [|] [|] [|]]; intros H; try (exfalso; vm_compute in H; discriminate H); (apply (bool_decide_unpack _); vm_compute; exact I). Qed.

Lemma string_ascii s : ascii_text s = true -> all_ascii (json_string s).
Proof.
  intros H. assert (Hall : Forall (fun c => byte_val c < 128) (bytes_of s)) by (apply Forall_forall; intros c Hc; unfold ascii_text in H; rewrite forallb_forall in H; apply Z.ltb_lt, H; by apply list_elem_of_In).
  unfold json_string. rewrite (escape_ascii _ Hall). assert (Hq : all_ascii quote) by (repeat constructor). apply Forall_app. split; [done |]. apply Forall_app. split; [| done].
  clear H. induction Hall as [| c b Hc _ IH]; [constructor |]. cbn [flat_map]. apply Forall_app. split; [by apply escape_ascii_char | done].
Qed.

Section json.
Context (float_of : bytes -> pyfloat) (float_repr : pyfloat -> bytes).

Lemma items_ascii l : Forall (fun v => all_ascii (json_text float_repr v)) l -> all_ascii (items_text float_repr l).
Proof.
  assert (Hc : all_ascii (bytes_of ",")) by (repeat constructor). induction 1 as [| x [| y l] Hx Hl IH]; [constructor | done |].
  change (items_text float_repr (x :: y :: l)) with (json_text float_repr x ++ bytes_of "," ++ items_text float_repr (y :: l)). apply Forall_app. split; [done |]. by apply Forall_app.
Qed.

Lemma pairs_ascii d : Forall (fun kv => all_ascii (json_string (fst kv)) /\ all_ascii (json_text float_repr (snd kv))) d -> all_ascii (pairs_text float_repr d).
Proof.
  assert (Hc : all_ascii (bytes_of ",")) by (repeat constructor). assert (Hd : all_ascii (bytes_of ":")) by (repeat constructor).
  induction 1 as [| [k x] [| kv d] [Hk Hx] Hl IH]; [constructor | |].
  - cbn [pairs_text]. apply Forall_app. split; [done |]. by apply Forall_app.
  - change (pairs_text float_repr ((k, x) :: kv :: d)) with (json_string k ++ bytes_of ":" ++ json_text float_repr x ++ bytes_of "," ++ pairs_text float_repr (kv :: d)).
    apply Forall_app. split; [done |]. apply Forall_app. split; [done |]. apply Forall_app. split; [done |]. by apply Forall_app.
Qed.

Lemma text_ascii v : textual v = true -> all_ascii (json_text float_repr v).
Proof.
  induction v as [v Hv | l Hl | d Hd] using pyval_strong_ind; intros H.
  - destruct v as [| b | z | f | s | l | d]; try discriminate H; try discriminate Hv; [repeat constructor | destruct b; repeat constructor | apply dec_ascii | by apply string_ascii].
  - rewrite text_list. apply textual_list in H. apply Forall_app. split; [repeat constructor |]. apply Forall_app. split; [| repeat constructor]. apply items_ascii.
    rewrite Forall_forall in *. intros x Hx. by apply Hl, H.
  - rewrite text_dict. apply textual_dict in H as [H _]. apply Forall_app. split; [repeat constructor |]. apply Forall_app. split; [| repeat constructor]. apply pairs_ascii.
    rewrite Forall_forall in *. intros x Hx. destruct (H x Hx) as [Hk Hv]. split; [by apply string_ascii | by apply Hd].
Qed.

Lemma canonical_text v : textual v = true -> canonical_json float_repr v = Ok (json_text float_repr (sort_keys v)).
Proof. intros H. unfold canonical_json. by rewrite (textual_finite v H). Qed.

(** Canonical text is read back, with the keys in order. *)
Lemma parse_canonical v : textual v = true -> parse_json float_of float_repr (json_text float_repr (sort_keys v)) = Ok (sort_keys v).
Proof.
  intros H. pose proof (textual_sorted v H) as Hs. unfold parse_json. rewrite (ascii_utf8 _ (text_ascii _ Hs)). cbn [negb]. rewrite loads_text by done.
  rewrite (canonical_text _ Hs), sort_keys_idem. cbn [mbind res_bind]. by rewrite bool_decide_true.
Qed.

Lemma parse_json_canonical data v : parse_json float_of float_repr data = Ok v -> canonical_json float_repr v = Ok data.
Proof.
  unfold parse_json. destruct (negb _); [discriminate |]. destruct (loads _ _ _ _) as [x | e]; [| by destruct e]. destruct (canonical_json float_repr x) as [text |] eqn:E; [| discriminate].
  cbn [mbind res_bind]. destruct (bool_decide_reflect (text = data)) as [-> |]; [| discriminate]. cbn. by intros [= <-].
Qed.
End json.

(** ** Instruction schemas

    What the validators of [Instructions] accept is text: dicts with ASCII keys, ASCII
    strings, integers and lists of canonical networks, with no floats.  They see only the
    values of the keys, so putting the keys of a value in order changes nothing. *)

(** ** ASCII *)

Lemma ascii_bytes s : Forall (fun c => byte_val c < 128) (bytes_of s) -> ascii_text s = true.
Proof. intros H. unfold ascii_text. apply forallb_forall. intros c Hc. rewrite Forall_forall in H. by apply Z.ltb_lt, H, list_elem_of_In. Qed.

Lemma class_ascii f s : (forall c, f c = true -> byte_val c < 128) -> forallb f (bytes_of s) = true -> ascii_text s = true.
Proof. intros Hf H. apply ascii_bytes, Forall_forall. intros c Hc. rewrite forallb_forall in H. by apply Hf, H, list_elem_of_In. Qed.

Lemma range_ascii lo hi c : hi < 128 -> in_range_c lo hi c = true -> byte_val c < 128.
Proof. intros Hh H. apply andb_true_iff in H as [_ H]. apply Z.leb_le in H. lia. Qed.

Lemma alnum_ascii c : is_alnum c || is_punct c = true -> byte_val c < 128.
Proof. destruct c as [[|] [|] [|] [|] [|] [|] [|] [|]]; (reflexivity || (intros H; vm_compute in H; discriminate H)). Qed.

Lemma hex_re_ascii n s : hex_re n s = true -> ascii_text s = true.
Proof.
  intros H. apply andb_true_iff in H as [_ H]. revert H. apply class_ascii. intros c Hc. apply orb_true_iff in Hc as [Hc | Hc]; [| by apply (range_ascii 97 102)].
  by apply (range_ascii 48 57).
Qed.

Lemma id_ascii s : INSTR_DEVICE_ID s = true -> ascii_text s = true.
Proof.
  intros H. apply andb_true_iff in H as [H _]. unfold _ID_RE in H. destruct (bytes_of s) as [| c rest] eqn:E; [discriminate |]. apply andb_true_iff in H as [H Hr]. apply andb_true_iff in H as [Hc _].
  apply (class_ascii (fun c => is_alnum c || is_punct c)); [exact alnum_ascii |]. rewrite E. cbn [forallb]. by rewrite Hc, Hr.
Qed.

Lemma role_ascii s : ROLE s = true -> ascii_text s = true.
Proof.
  intros H. apply andb_true_iff in H as [H _]. unfold role_name_re in H. destruct (bytes_of s) as [| c rest] eqn:E; [discriminate |]. apply andb_true_iff in H as [H Hr]. apply andb_true_iff in H as [Hc _].
  apply (class_ascii (fun c => is_lower c || is_digit c || is_punct c)).
  - intros x Hx. apply alnum_ascii. unfold is_alnum. destruct (is_lower x), (is_digit x), (is_punct x), (is_upper x); done.
  - rewrite E. cbn [forallb]. by rewrite Hc, Hr.
Qed.

Lemma platform_ascii s : PLATFORM s = true -> ascii_text s = true.
Proof. intros H. apply existsb_exists in H as (x & Hx & He). apply String.eqb_eq in He as ->. repeat (destruct Hx as [<- | Hx]; [reflexivity |]). done. Qed.

Lemma ascii_app s t : ascii_text s = true -> ascii_text t = true -> ascii_text (s +:+ t) = true.
Proof. unfold ascii_text. intros Hs Ht. rewrite bytes_app, forallb_app. by rewrite Hs, Ht. Qed.

Lemma ascii_dec z : ascii_text (string_of (dec z)) = true.
Proof. apply ascii_bytes. rewrite bytes_of_string_of. apply dec_ascii. Qed.

Lemma ascii_ipv4 z : ascii_text (ipv4_text z) = true.
Proof. unfold ipv4_text. repeat (apply ascii_app; [first [apply ascii_dec | reflexivity] |]). apply ascii_dec. Qed.

Lemma network_ascii s t : canonical_network s = Ok t -> ascii_text t = true.
Proof.
  unfold canonical_network. intros H. destruct (split_on _ _) as [| a [| m [|]]]; try discriminate.
  - destruct (parse_ipv4 s); [| discriminate]. injection H as <-. apply ascii_ipv4.
  - destruct (parse_ipv4 _); [| discriminate]. destruct (parse_netmask _); [| discriminate]. res_inv H. apply ascii_app; [apply ascii_ipv4 |]. apply ascii_app; [reflexivity | apply ascii_dec].
Qed.

(** ** Checks of one value *)

Lemma i63_text v n z : _i63 v n = Ok z -> textual v = true /\ v = VInt z.
Proof. destruct v; try discriminate. cbn [_i63]. intros H. by res_inv H. Qed.

Lemma str_text ok v n s : (forall s, ok s = true -> ascii_text s = true) -> str_check ok v n = Ok s -> textual v = true.
Proof. intros Hok. destruct v as [| | | | t | |]; try discriminate. cbn [str_check textual]. destruct (ok t) eqn:E; [| discriminate]. intros _. by apply Hok. Qed.

Lemma bool_text v n x : check_bool v n = Ok x -> textual v = true.
Proof. by destruct v. Qed.

Lemma version_text v n m x : check_version v n m = Ok x -> textual v = true.
Proof. by destruct v. Qed.

Lemma const_text v s : ascii_text s = true -> py_eq v (VStr s) = true -> textual v = true.
Proof. intros Hs. destruct v as [| | | | t | |]; try discriminate. cbn. intros H. by apply String.eqb_eq in H as ->. Qed.

Lemma i63_sorted v n : _i63 (sort_keys v) n = _i63 v n.
Proof. by destruct v. Qed.
Lemma str_check_sorted ok v n : str_check ok (sort_keys v) n = str_check ok v n.
Proof. by destruct v. Qed.
Lemma check_bool_sorted v n : check_bool (sort_keys v) n = check_bool v n.
Proof. by destruct v. Qed.
Lemma check_version_sorted v n m : check_version (sort_keys v) n m = check_version v n m.
Proof. by destruct v. Qed.
Lemma py_str_sorted v s : py_eq (sort_keys v) (VStr s) = py_eq v (VStr s).
Proof. by destruct v. Qed.

(** The value of a key that a check accepted is text. *)
Ltac field_text :=
  match goal with
  | F : _i63 ?v _ = Ok _ |- textual ?v = true => exact (proj1 (i63_text _ _ _ F))
  | F : str_check HEX64 ?v _ = Ok _ |- textual ?v = true => exact (str_text _ _ _ _ (hex_re_ascii 64) F)
  | F : str_check HEX40 ?v _ = Ok _ |- textual ?v = true => exact (str_text _ _ _ _ (hex_re_ascii 40) F)
  | F : str_check INSTR_DEVICE_ID ?v _ = Ok _ |- textual ?v = true => exact (str_text _ _ _ _ id_ascii F)
  | F : str_check ROLE ?v _ = Ok _ |- textual ?v = true => exact (str_text _ _ _ _ role_ascii F)
  | F : str_check PLATFORM ?v _ = Ok _ |- textual ?v = true => exact (str_text _ _ _ _ platform_ascii F)
  | F : check_bool ?v _ = Ok _ |- textual ?v = true => exact (bool_text _ _ _ F)
  | F : check_version ?v _ _ = Ok _ |- textual ?v = true => exact (version_text _ _ _ _ F)
  | F : negb (py_eq ?v (VStr _)) = false |- textual ?v = true => refine (const_text v _ _ (proj1 (negb_false_iff _) F)); reflexivity
  end.

(** ** Closed objects *)

Lemma closed_ok v r o d : _closed v r o = Ok d -> v = VDict d /\ Forall (fun k => dhas d k = true) r /\ Forall (fun k => k ∈ r ++ o) (dkeys d).
Proof.
  destruct v as [| | | | | | d']; try discriminate. cbn [_closed]. destruct (forallb (dhas d') r) eqn:H1; [| discriminate]. destruct (forallb _ (dkeys d')) eqn:H2; [| discriminate]. cbn. intros [= <-]. split; [done |].
  rewrite forallb_forall in H1, H2. split; apply Forall_forall; intros k Hk; [by apply H1, list_elem_of_In |].
  apply list_elem_of_In, H2, existsb_exists in Hk as (x & Hx & He). apply String.eqb_eq in He as ->. by apply list_elem_of_In.
Qed.

Lemma closed_intro d r o : Forall (fun k => dhas d k = true) r -> Forall (fun k => k ∈ r ++ o) (dkeys d) -> _closed (VDict d) r o = Ok d.
Proof.
  intros Hr Hk. cbn [_closed]. rewrite Forall_forall in Hr, Hk.
  assert (forallb (dhas d) r = true) as -> by (apply forallb_forall; intros k Hin; by apply Hr, list_elem_of_In).
  assert (forallb (fun k => existsb (String.eqb k) (r ++ o)) (dkeys d) = true) as ->; [| done].
  apply forallb_forall. intros k Hin. apply existsb_exists. exists k. split; [by apply list_elem_of_In, Hk, list_elem_of_In | apply String.eqb_refl].
Qed.

Lemma closed_sorted d r o : _closed (VDict d) r o = Ok d -> _closed (sort_keys (VDict d)) r o = Ok (dict_or_empty (sort_keys (VDict d))).
Proof.
  intros H. apply closed_ok in H as (_ & Hr & Hk). apply (closed_intro (dict_or_empty (sort_keys (VDict d)))).
  - eapply Forall_impl; [exact Hr |]. intros k Hh. simpl in Hh. by rewrite <- Hh, <- (dhas_sorted d k).
  - rewrite Forall_forall in Hk |- *. intros k Hin. apply Hk. by rewrite dkeys_sort_keys in Hin.
Qed.

Lemma dget_or_elem d k v : NoDup (dkeys d) -> (k, v) ∈ d -> sub d k = v.
Proof. intros Hn Hin. unfold dget_or. by rewrite (proj2 (dget_Some d k v Hn) Hin). Qed.

(** A closed object is text when its keys and the values of its keys are. *)
Lemma closed_text d r o : NoDup (dkeys d) -> _closed (VDict d) r o = Ok d -> forallb ascii_text (r ++ o) = true ->
  (forall k, k ∈ r ++ o -> dhas d k = true -> textual (sub d k) = true) -> textual (VDict d) = true.
Proof.
  intros Hn H Ha Hv. apply closed_ok in H as (_ & _ & Hk). apply textual_dict. split; [| done]. pose proof (proj1 (Forall_forall _ _) Hk) as Hk'. clear Hk. rename Hk' into Hk. apply Forall_forall. intros [k x] Hin. cbn [fst snd].
  assert (Hkin : k ∈ dkeys d) by (unfold dkeys; apply list_elem_of_fmap; by exists (k, x)). specialize (Hk k Hkin). rewrite forallb_forall in Ha. split; [by apply Ha, list_elem_of_In |].
  rewrite <- (dget_or_elem d k x Hn Hin). apply Hv; [done | by apply dhas_spec].
Qed.

(** ** Limits, controls and networks *)

Lemma qos_ok v partial : wf_val v -> validate_qos v partial = Ok tt -> textual v = true /\ validate_qos (sort_keys v) partial = Ok tt.
Proof.
  intros Hw H. unfold validate_qos in *. destruct (_closed v _ _) as [d |] eqn:E; [| discriminate H]. cbn [mbind res_bind] in H. apply res_iter_ok in H. pose proof (closed_ok _ _ _ _ E) as (-> & _ & _). apply wf_dict in Hw as [Hn _]. split.
  - eapply closed_text; [done | exact E | destruct partial; vm_compute; reflexivity |]. intros k _ Hk. apply dhas_spec in Hk. unfold dkeys in Hk. apply list_elem_of_fmap in Hk as ([k' x] & -> & Hin). cbn [fst]. rewrite (dget_or_elem d k' x Hn Hin).
    rewrite Forall_forall in H. specialize (H _ Hin). unfold qos_item in H. cbn [fst snd] in H. destruct (_i63 x k') as [z |] eqn:Ez; [| discriminate H]. by apply i63_text in Ez as [? _].
  - rewrite (closed_sorted _ _ _ E). cbn [mbind res_bind]. apply res_iter_ok. rewrite Forall_forall in *. intros kv Hin. cbn [sort_keys dict_or_empty] in Hin. apply sort_by_elem, list_elem_of_fmap in Hin as ([k x] & -> & Hin).
    specialize (H _ Hin). unfold qos_item in *. cbn [fst snd] in *. by rewrite i63_sorted.
Qed.

Lemma control_item_ok k x : control_item (k, x) = Ok tt -> textual x = true /\ control_item (k, sort_keys x) = Ok tt.
Proof.
  unfold control_item. destruct (String.eqb k "peer_telemetry_interval_s"); [by destruct x |]. destruct (String.eqb k "telemetry_pause").
  - intros H. split; [by eapply bool_text | by rewrite check_bool_sorted].
  - intros H. split; [| by rewrite i63_sorted]. destruct (_i63 x k) as [z |] eqn:Ez; [| discriminate H]. by apply i63_text in Ez as [? _].
Qed.

Lemma control_ok v partial : wf_val v -> validate_control v partial = Ok tt -> textual v = true /\ validate_control (sort_keys v) partial = Ok tt.
Proof.
  intros Hw H. unfold validate_control in *. destruct (_closed v _ _) as [d |] eqn:E; [| discriminate H]. cbn [mbind res_bind] in H. apply res_iter_ok in H. pose proof (closed_ok _ _ _ _ E) as (-> & _ & _). apply wf_dict in Hw as [Hn _]. split.
  - eapply closed_text; [done | exact E | destruct partial; vm_compute; reflexivity |]. intros k _ Hk. apply dhas_spec in Hk. unfold dkeys in Hk. apply list_elem_of_fmap in Hk as ([k' x] & -> & Hin). cbn [fst]. rewrite (dget_or_elem d k' x Hn Hin).
    rewrite Forall_forall in H. by apply (control_item_ok k'), (H _ Hin).
  - rewrite (closed_sorted _ _ _ E). cbn [mbind res_bind]. apply res_iter_ok. rewrite Forall_forall in *. intros kv Hin. cbn [sort_keys dict_or_empty] in Hin. apply sort_by_elem, list_elem_of_fmap in Hin as ([k x] & -> & Hin).
    by apply control_item_ok, (H _ Hin).
Qed.

Lemma network_item_ok v s : network_item v = Ok s -> v = VStr s /\ ascii_text s = true.
Proof.
  destruct v as [| | | | t | |]; try discriminate. cbn [network_item]. destruct (canonical_network t) as [n |] eqn:E; [| discriminate]. cbn [mbind res_bind].
  destruct (String.eqb_spec t n) as [-> |]; [| discriminate]. cbn. intros [= <-]. split; [done |]. by apply network_ascii in E.
Qed.

Lemma networks_ok v cap : _canonical_networks v cap = Ok tt -> textual v = true /\ sort_keys v = v.
Proof.
  destruct v as [| | | | | l |]; try discriminate. cbn [_canonical_networks]. destruct (cap <? zlen l); [discriminate |]. destruct (res_map network_item l) as [r |] eqn:E; [| discriminate]. intros _.
  apply res_map_ok in E. assert (Hl : l = map VStr r /\ Forall (fun s => ascii_text s = true) r).
  { induction E as [| x s l r Hx _ [-> IH]]; [done |]. apply network_item_ok in Hx as [-> Hs]. split; [done | by constructor]. }
  destruct Hl as [-> Hr]. split.
  - apply textual_list, Forall_map. exact Hr.
  - cbn [sort_keys]. f_equal. rewrite map_map. by apply map_ext.
Qed.

(** ** Peers and parts *)

Lemma num_sorted v : num_of (sort_keys v) = num_of v.
Proof. by destruct v. Qed.

Lemma peers_ok v expires : wf_val v -> validate_peers v expires = Ok tt -> textual v = true /\ validate_peers (sort_keys v) expires = Ok tt.
Proof.
  intros Hw H. destruct v as [| | | | | | d]; try discriminate H. apply wf_dict in Hw as [Hn Hv]. rewrite sorted_dict. cbn [validate_peers] in *. rewrite !dget_or_sorted by done. rewrite !py_str_sorted, check_bool_sorted, i63_sorted.
  destruct (check_bool (sub d "include_origin") _) as [[] |] eqn:Hb; [| by destruct (if py_eq _ _ then _ else _)]. apply bool_text in Hb.
  destruct (_i63 (sub d "allowed_expires_at") _) as [z |] eqn:Hz; [| by destruct (if py_eq _ _ then _ else _)]. pose proof (i63_text _ _ _ Hz) as [Ht _].
  assert (Hm : textual (sub d "mode") = true).
  { destruct (py_eq (sub d "mode") (VStr "allow")) eqn:E1; [by apply (const_text _ "allow") |]. destruct (py_eq (sub d "mode") (VStr "deny")) eqn:E2; [by apply (const_text _ "deny") |].
    destruct (py_eq (sub d "mode") (VStr "tracker-only")) eqn:E3; [by apply (const_text _ "tracker-only") | discriminate H]. }
  destruct (py_eq (sub d "mode") (VStr "allow")) eqn:E1; [| destruct (py_eq (sub d "mode") (VStr "deny")) eqn:E2; [| destruct (py_eq (sub d "mode") (VStr "tracker-only")) eqn:E3; [| discriminate H]]].
  1,2: destruct (_closed (VDict d) _ _) as [d' |] eqn:E; [| discriminate H]; pose proof (closed_ok _ _ _ _ E) as ([= <-] & _ & _); cbn [mbind res_bind] in H;
    destruct (_canonical_networks _ _) as [[] |] eqn:En in H; [| discriminate H]; pose proof (networks_ok _ _ En) as [Hnt Hns];
    rewrite <- sorted_dict, (closed_sorted _ _ _ E); cbn [mbind res_bind]; rewrite dget_or_sorted, Hns, En by done; (split; [| exact H]);
    (eapply closed_text; [done | exact E | vm_compute; reflexivity |]); intros k Hk _; rewrite app_nil_r in Hk; repeat (apply elem_of_cons in Hk as [-> | Hk]; [assumption |]); by apply not_elem_of_nil in Hk.
  destruct (_closed (VDict d) _ _) as [d' |] eqn:E; [| discriminate H]. pose proof (closed_ok _ _ _ _ E) as ([= <-] & _ & _). rewrite <- sorted_dict, (closed_sorted _ _ _ E). split; [| exact H].
  eapply closed_text; [done | exact E | vm_compute; reflexivity |]. intros k Hk _. rewrite app_nil_r in Hk. repeat (apply elem_of_cons in Hk as [-> | Hk]; [assumption |]). by apply not_elem_of_nil in Hk.
Qed.

Lemma expiry_sorted d : wf_val (VDict d) -> allowed_expiry (dict_or_empty (sort_keys (VDict d))) = sort_keys (allowed_expiry d).
Proof.
  intros Hw. pose proof Hw as [Hn _]%wf_dict. unfold allowed_expiry. rewrite dget_or_sorted by done. assert (Hs : wf_val (sub d "peers")) by (by apply wf_dget_or).
  destruct (sub d "peers") as [| | | | | | p]; try done. apply wf_dict in Hs as [Hnp _]. exact (dget_or_sorted p _ Hnp).
Qed.

Lemma part_ok v issued expires : wf_val v -> validate_part v issued expires = Ok tt -> textual v = true /\ validate_part (sort_keys v) issued expires = Ok tt.
Proof.
  intros Hw H. unfold validate_part in *. destruct (_closed v _ _) as [d |] eqn:E; [| discriminate H]. pose proof (closed_ok _ _ _ _ E) as (-> & _ & _). rewrite (closed_sorted _ _ _ E). cbn [mbind res_bind] in *.
  pose proof Hw as [Hn _]%wf_dict. assert (Hs : forall k, wf_val (sub d k)) by (intros k; by apply wf_dget_or). rewrite !dget_or_sorted by done.
  destruct (validate_peers (sub d "peers") expires) as [[] |] eqn:Hp; [| discriminate H]. destruct (peers_ok _ _ (Hs _) Hp) as [Tp Sp]. rewrite Sp.
  destruct (validate_qos (sub d "qos_override") true) as [[] |] eqn:Hq; [| discriminate H]. destruct (qos_ok _ _ (Hs _) Hq) as [Tq Sq]. rewrite Sq.
  destruct (validate_control (sub d "control_override") true) as [[] |] eqn:Hc; [| discriminate H]. destruct (control_ok _ _ (Hs _) Hc) as [Tc Sc]. rewrite Sc, i63_sorted. cbn [mbind res_bind] in *.
  destruct (_i63 (sub d "server_time") _) as [z |] eqn:Hz; [| discriminate H]. pose proof (i63_text _ _ _ Hz) as [Tz Ez]. split.
  - eapply closed_text; [done | exact E | vm_compute; reflexivity |]. intros k Hk _. rewrite app_nil_r in Hk. repeat (apply elem_of_cons in Hk as [-> | Hk]; [done |]). by apply not_elem_of_nil in Hk.
  - cbn [mbind res_bind] in *. destruct (is_none issued); [done |]. rewrite Ez in H |- *. change (sort_keys (VInt z)) with (VInt z).
    assert (allowed_expiry (dict_or_empty (sort_keys (VDict d))) = sort_keys (allowed_expiry d)) as ->; [| by destruct (allowed_expiry d)].
    by apply expiry_sorted.
Qed.

(** ** Headers *)

Lemma header_ok v : wf_val v -> validate_header v = Ok tt -> textual v = true /\ validate_header (sort_keys v) = Ok tt.
Proof.
  intros Hw H. unfold validate_header in *. destruct (_closed v _ _) as [d |] eqn:E; [| discriminate H]. pose proof (closed_ok _ _ _ _ E) as (-> & _ & _). rewrite (closed_sorted _ _ _ E). cbn [mbind res_bind] in *.
  pose proof Hw as [Hn _]%wf_dict. rewrite !dget_or_sorted by done. unfold instr_device_id, _digest64, _role in *. rewrite !i63_sorted, !str_check_sorted, check_version_sorted, py_str_sorted, check_bool_sorted, dhas_sorted. split; [| exact H].
  eapply closed_text; [done | exact E | vm_compute; reflexivity |]. intros k Hk Hd.
  repeat (let F := fresh "F" in head H as F); unfold HEADER_FIELDS in Hk; cbn [app] in Hk; repeat (apply elem_of_cons in Hk as [-> | Hk]; [first [field_text | congruence] |]); by apply not_elem_of_nil in Hk.
Qed.
