(* ===== verification/EnvelopeSeal.v ===== *)
(** * Sealing and opening

    What the server seals opens to the same header, role body, signature and part; and
    what opens is byte for byte what sealing its contents gives.  Both hold of the helper
    program over any cipher that has the properties RFC 5297 gives AES-SIV. *)
From S2P Require Import Prelude PyVal Bencode Ipv4 JsonDump JsonText PolicyDoc PolicySample SchedDoc Sha256 UrlText JsonParse KeyedState KeyedSpec PeerHandouts HandoutRows SchedValid EndpointSpec HandoutSpec Instructions Envelope EnvelopeSpec.

Lemma ok_inj {A} (x y : A) : Ok x = Ok y -> x = y.
Proof. by intros [= ->]. Qed.

(** ** Lengths *)

Lemma pack_be_length n z : length (pack_be n z) = n.
Proof. unfold pack_be. by rewrite length_reverse, pack_le_length. Qed.

Lemma flat_map_length {A B} (f : A -> list B) n l : (forall x, length (f x) = n) -> length (flat_map f l) = (n * length l)%nat.
Proof. intros H. induction l as [| x l IH]; cbn [flat_map]; [cbn; lia |]. rewrite length_app, H, IH. cbn [length]. lia. Qed.

Lemma digest_length b : length (sha256_digest b) = 32%nat.
Proof. unfold sha256_digest. cbv zeta. rewrite (flat_map_length _ 4); [done |]. intros x. apply pack_be_length. Qed.

Lemma hmac_length key msg : length (hmac_sha256 key msg) = 32%nat.
Proof. apply digest_length. Qed.

Lemma kdf_length key label context n out : sp800_108 key label context n = Ok out -> zlen out = n.
Proof.
  unfold sp800_108. cbv zeta. intros H. head H as E. head H as F. apply ok_inj in H as <-. apply orb_false_iff in E as [E _]. apply Z.leb_gt in E.
  unfold zlen. rewrite length_take, (flat_map_length _ 32); [| intros; apply hmac_length]. rewrite length_seq.
  assert (n <= 32 * ((n + 32 - 1) / 32)) by (pose proof (Z.mul_succ_div_gt (n + 32 - 1) 32); lia). assert (0 <= (n + 32 - 1) / 32) by (apply Z.div_pos; lia). lia.
Qed.

Lemma keys_length key dev kid ka kn : derive_keys key dev kid = Ok (ka, kn) -> zlen ka = 64 /\ zlen kn = 32.
Proof.
  unfold derive_keys. intros H. repeat (let F := fresh "F" in head H as F). apply ok_inj, pair_equal_spec in H as [<- <-].
  match goal with F : sp800_108 _ _ _ 96 = Ok ?m |- _ => apply kdf_length in F; unfold zlen in *; rewrite length_take, length_drop; lia end.
Qed.

Lemma nonce_length kn dev kid e s out : derive_nonce kn dev kid e s = Ok out -> zlen out = 16.
Proof. unfold derive_nonce. intros H. repeat (let F := fresh "F" in head H as F). by apply kdf_length in H. Qed.

(** ** The helper *)

(** The request of one operation. *)
Definition request_of (key aad data tag : bytes) : bytes := pack_be 4 (zlen aad) ++ pack_be 4 (zlen data) ++ key ++ aad ++ data ++ tag.

(** The ciphertext and tag of a plaintext open to it under the same key and associated
    data. *)
Class Aead (helper : string -> bytes -> option bytes) : Prop :=
  aead_opens : forall key aad data out, zlen key = 64 -> zlen aad <= LIMIT -> zlen data <= LIMIT -> zlen out = zlen data + 16 ->
    helper "seal" (request_of key aad data []) = Some out -> helper "open" (request_of key aad (take (length out - 16) out) (drop (length out - 16) out)) = Some data.

(** The tag is a function of the key, the associated data and the plaintext, and opening
    compares it: what opens to a plaintext is what the plaintext seals to. *)
Class AeadStrict (helper : string -> bytes -> option bytes) : Prop :=
  aead_reseals : forall key aad ciphertext tag data, zlen key = 64 -> zlen aad <= LIMIT -> zlen ciphertext <= LIMIT -> zlen tag = 16 -> zlen data = zlen ciphertext ->
    helper "open" (request_of key aad ciphertext tag) = Some data -> helper "seal" (request_of key aad data []) = Some (ciphertext ++ tag).

Lemma transform_ok helper op key aad data tag out : transform helper op key aad data tag = Ok out ->
  zlen key = 64 /\ 0 < zlen aad <= LIMIT /\ 0 < zlen data <= LIMIT /\ zlen tag = (if String.eqb op "seal" then 0 else 16) /\
  helper op (request_of key aad data tag) = Some out /\ zlen out = zlen data + (if String.eqb op "seal" then 16 else 0).
Proof.
  unfold transform. cbv zeta. intros H. head H as E. head H as Eo. head H as El. apply ok_inj in H as <-. rewrite !orb_false_iff, !negb_false_iff, !andb_true_iff in E. destruct E as [[[Ek [Ea Ea']] [Ed Ed']] Et].
  rewrite negb_false_iff in El. bool_norm. done.
Qed.

Lemma transform_intro helper op key aad data tag out : zlen key = 64 -> 0 < zlen aad <= LIMIT -> 0 < zlen data <= LIMIT -> zlen tag = (if String.eqb op "seal" then 0 else 16) ->
  helper op (request_of key aad data tag) = Some out -> zlen out = zlen data + (if String.eqb op "seal" then 16 else 0) -> transform helper op key aad data tag = Ok out.
Proof.
  intros Hk Ha Hd Ht Hh Ho. unfold transform. cbv zeta. unfold request_of in Hh. rewrite Hk, Ht, Hh, Ho, !Z.eqb_refl.
  rewrite (proj2 (Z.ltb_lt 0 (zlen aad))), (proj2 (Z.ltb_lt 0 (zlen data))), (proj2 (Z.leb_le (zlen aad) LIMIT)), (proj2 (Z.leb_le (zlen data) LIMIT)) by lia. done.
Qed.

Lemma aead_seal_ok helper key aad data ciphertext tag : aead_seal helper key aad data = Ok (ciphertext, tag) ->
  zlen key = 64 /\ 0 < zlen aad <= LIMIT /\ 0 < zlen data <= LIMIT /\ zlen ciphertext = zlen data /\ zlen tag = 16 /\
  exists out, helper "seal" (request_of key aad data []) = Some out /\ zlen out = zlen data + 16 /\ ciphertext = take (length out - 16) out /\ tag = drop (length out - 16) out.
Proof.
  unfold aead_seal. intros Hs. head Hs as E. apply ok_inj, pair_equal_spec in Hs as [<- <-]. apply transform_ok in E as (Hk & Ha & Hd & _ & Hh & Ho). change (String.eqb "seal" "seal") with true in Ho. cbv iota in Ho.
  split; [done |]. split; [done |]. split; [done |]. split; [unfold zlen in *; rewrite length_take; lia |]. split; [unfold zlen in *; rewrite length_drop; lia |]. by exists a.
Qed.

(** What the helper seals it opens. *)
Lemma aead_inverse helper `{Aead helper} key aad data ciphertext tag : aead_seal helper key aad data = Ok (ciphertext, tag) -> open_sealed helper key aad ciphertext tag = Ok data.
Proof.
  intros Hs. apply aead_seal_ok in Hs as (Hk & Ha & Hd & Hc & Ht & out & Hh & Ho & -> & ->). apply transform_intro; try done; rewrite ?Hc; [done | | cbn; lia]. exact (aead_opens key aad data out Hk (proj2 Ha) (proj2 Hd) Ho Hh).
Qed.

(** What the helper opens it seals again. *)
Lemma aead_reseal helper `{AeadStrict helper} key aad ciphertext tag data : open_sealed helper key aad ciphertext tag = Ok data -> aead_seal helper key aad data = Ok (ciphertext, tag).
Proof.
  intros Ho. apply transform_ok in Ho as (Hk & Ha & Hc & Ht & Hh & Hl). change (String.eqb "open" "seal") with false in *. cbv iota in *. rewrite Z.add_0_r in Hl.
  assert (Ht' : length tag = 16%nat) by (unfold zlen in Ht; lia). unfold aead_seal. rewrite (transform_intro helper "seal" key aad data [] (ciphertext ++ tag)); try done.
  - cbn [mbind res_bind]. by rewrite length_app, Ht', Nat.add_sub, take_app_length, drop_app_length.
  - by rewrite Hl.
  - exact (aead_reseals key aad ciphertext tag data Hk (proj2 Ha) (proj2 Hc) Ht Hl Hh).
  - unfold zlen in *. rewrite length_app. cbn. lia.
Qed.

Lemma or_unavailable_ok {A} (r : res A) m x : or_unavailable r m = Ok x -> r = Ok x.
Proof. destruct r as [? | e]; [done |]. by destruct e. Qed.

(** ** Reading a frame *)

Section sealing.
Context (float_of : bytes -> pyfloat) (float_repr : pyfloat -> bytes).
Local Abbreviation parse_json := (parse_json float_of float_repr).
Local Abbreviation canonical_json := (canonical_json float_repr).

Lemma canonical_object d b : canonical_json (VDict d) = Ok b -> b <> [].
Proof. unfold Envelope.canonical_json. intros H. head H as E. apply ok_inj in H as <-. rewrite sorted_dict, text_dict. discriminate. Qed.

Lemma role_object v : validate_role_body v = Ok tt -> v = VDict (dict_or_empty v).
Proof. unfold validate_role_body. intros H. head H as E. by apply closed_ok in E as (-> & _). Qed.
Lemma part_object v i e : validate_part v i e = Ok tt -> v = VDict (dict_or_empty v).
Proof. unfold validate_part. intros H. head H as E. by apply closed_ok in E as (-> & _). Qed.

Lemma role_body_nonempty b v : parse_json b = Ok v -> validate_role_body v = Ok tt -> b <> [].
Proof. intros Hp Hv. apply parse_json_canonical in Hp. apply role_object in Hv. rewrite Hv in Hp. by apply canonical_object in Hp. Qed.

(** A frame of six components is read as the six. *)
Lemma envelope_read header role_body signature nonce ciphertext tag framed h r :
  frame_envelope [header; role_body; signature; nonce; ciphertext; tag] = Ok framed ->
  header <> [] -> signature <> [] -> ciphertext <> [] -> zlen nonce = 16 -> zlen tag = 16 ->
  parse_json header = Ok h -> validate_header h = Ok tt -> parse_json role_body = Ok r -> validate_role_body r = Ok tt ->
  parse_envelope float_of float_repr framed = Ok [header; role_body; signature; nonce; ciphertext; tag].
Proof.
  intros Hf Hh Hs Hc Hn Ht Ph Vh Pr Vr. pose proof (role_body_nonempty _ _ Pr Vr) as Hr. unfold frame_envelope in Hf. cbv zeta in Hf. head Hf as El. apply ok_inj in Hf as <-.
  unfold parse_envelope. rewrite El. set (parts := [header; role_body; signature; nonce; ciphertext; tag]).
  assert (Hne : Forall (fun p : bytes => p <> []) parts) by (repeat constructor; try done; intros ->; discriminate).
  rewrite frame_lines_text; [| done |].
  2: { constructor; [apply (bool_decide_unpack _); vm_compute; exact I |]. apply Forall_map, Forall_forall. intros x _. apply b64_line. }
  assert (existsb (fun line => bool_decide (line = [])) (INSTR_MAGIC :: map b64encode parts) = false) as ->.
  { apply not_true_is_false. intros H. apply existsb_exists in H as (x & [<- | Hx] & He); [discriminate He |]. apply bool_decide_eq_true in He as ->. apply in_map_iff in Hx as (p & Hp & Hin).
    apply b64_line in Hp. rewrite Forall_forall in Hne. by apply (Hne p); [apply list_elem_of_In |]. }
  rewrite bool_decide_true by done. cbn [negb orb tail]. rewrite unb64_all. unfold parts. cbn [mbind res_bind]. rewrite Ph. cbn [mbind res_bind]. rewrite Vh. cbn [mbind res_bind]. rewrite Pr. cbn [mbind res_bind]. rewrite Vr. cbn [mbind res_bind].
  rewrite bool_decide_false, Hn, Ht by done. done.
Qed.

(** The header as the envelope carries it. *)
Definition sealed_header (header : dict) (part : pyval) : dict :=
  dict_or_empty (sort_keys (VDict (dset header "ct_len" (VInt (zlen (json_text float_repr (sort_keys part))))))).

(** The fields of a valid header are scalars: order of keys does not show in them. *)
Lemma header_scalar d k : validate_header (VDict d) = Ok tt -> k ∈ HEADER_FIELDS -> sort_keys (sub d k) = sub d k.
Proof.
  unfold validate_header, instr_device_id, _digest64, _role. intros H Hk. head H as E. apply closed_ok in E as ([= Ed] & _). rewrite <- Ed in H. clear Ed. repeat (let F := fresh "F" in head H as F).
  all: unfold HEADER_FIELDS in Hk; repeat (apply elem_of_cons in Hk as [-> | Hk]; [match goal with F : context [dget_or ?e ?k VNone] |- sort_keys (dget_or ?e ?k VNone) = _ => destruct (dget_or e k VNone); (reflexivity || discriminate F) end |]).
  all: by apply not_elem_of_nil in Hk.
Qed.

(** What is read from a frame is what was framed. *)
Lemma parse_envelope_framed framed parts : parse_envelope float_of float_repr framed = Ok parts -> frame_envelope parts = Ok framed.
Proof.
  unfold parse_envelope. intros H. head H as El. head H as Ef. apply frame_lines_all in Ef. head H as Ek. head H as Eu. rename l into lines. rename a into values.
  rewrite !orb_false_iff, !negb_false_iff in Ek. destruct Ek as [[Ek Em] _]. bool_norm. destruct lines as [| magic lines]; [discriminate Ek |]. cbn [hd tail] in *.
  apply unb64_map in Eu. assert (parts = values) as ->. { destruct values as [| v1 [| v2 [| v3 [| v4 [| v5 [| v6 [|]]]]]]]; try discriminate H. by res_inv H. }
  unfold frame_envelope. cbv zeta. rewrite <- Eu. rewrite <- Em. rewrite <- Ef. by rewrite (proj2 (Z.ltb_ge _ _) El).
Qed.

Section aead.
Context (helper : string -> bytes -> option bytes) `{Aead helper}.
Local Abbreviation seal_parts := (seal_parts float_of float_repr helper).
Local Abbreviation open_parts := (open_parts float_of float_repr helper).

(** C6: what is sealed opens: with the same key the envelope gives back the role body and
    the signature, which is not empty, byte for byte, and the header and part with their
    keys in order, the header with the length of the ciphertext.  The part and header agree
    on the peer expiry, as the header of a stamp does. *)
Theorem seal_open header part role_body signature key framed :
  wf_val (VDict header) -> wf_val part -> signature <> [] -> allowed_expiry (dict_or_empty part) = sub header "allowed_expires_at" ->
  seal_parts header part role_body signature key = Ok framed ->
  open_parts framed key None = Ok (sealed_header header part, role_body, signature, dict_or_empty (sort_keys part)).
Proof.
  intros Hw Hp Hs He H1. unfold Envelope.seal_parts in H1. repeat (let F := fresh "F" in head H1 as F).
  units. set (hd := dset header "ct_len" (VInt (zlen a))) in *. assert (Hwd : wf_val (VDict hd)) by (by apply wf_dset). pose proof Hwd as [Hnd _]%wf_dict.
  destruct (header_ok _ Hwd F1) as [Th Sh]. destruct (part_ok _ _ _ Hp F0) as [Tp Sp].
  rewrite canonical_text in F, F5 by done. apply ok_inj in F as <-. apply ok_inj in F5 as <-.
  assert (Hsub : forall k, k ∈ HEADER_FIELDS -> sub (dict_or_empty (sort_keys (VDict hd))) k = sub hd k) by (intros k Hk; rewrite dget_or_sorted by done; by apply header_scalar).
  apply or_unavailable_ok in F9. head F9 as Fa. 
  pose proof (aead_inverse _ _ _ _ _ _ F9) as Ho.
  apply aead_seal_ok in F9 as (_ & _ & [Lp _] & Lc & Lt & _). pose proof (nonce_length _ _ _ _ _ _ F8) as Ln.
  pose proof (parse_canonical float_of float_repr _ Th) as Ph. pose proof (parse_canonical float_of float_repr _ Tp) as Pp.
  pose proof (part_object _ _ _ F0) as Eo.
  assert (Hread : parse_envelope float_of float_repr framed = Ok [json_text float_repr (sort_keys (VDict hd)); role_body; signature; a6; l1; l2]).
  { eapply envelope_read; [exact H1 | rewrite sorted_dict, text_dict; discriminate | done | intros -> | done | done | exact Ph | done | exact F2 | done]. rewrite <- Lc in Lp. by vm_compute in Lp. }
  apply orb_false_iff in F4 as [Fd Fm]. rewrite negb_false_iff in Fd, Fm.
  unfold Envelope.open_parts. rewrite Hread. cbn [mbind res_bind]. rewrite Ph. cbn [mbind res_bind]. rewrite Sh, F2. cbn [mbind res_bind]. rewrite F3. cbn [mbind res_bind].
  unfold role_matches in Fm |- *. cbn [forallb] in Fm |- *. rewrite !Hsub by by_eval. rewrite Fd, Fm, F6. cbn [mbind res_bind negb]. rewrite F8. cbn [mbind res_bind]. rewrite bool_decide_true by done.
  assert (Hct : sub hd "ct_len" = VInt (zlen l1)) by (unfold hd, dget_or; rewrite dget_dset, String.eqb_refl; by rewrite Lc).
  rewrite Hct, py_eq_refl by done. cbn [negb]. rewrite Fa. cbn [mbind res_bind]. rewrite Ho. cbn [or_unavailable mbind res_bind from_option]. rewrite Pp. cbn [mbind res_bind]. rewrite Sp. cbn [mbind res_bind].
  assert (Hex : sub hd "allowed_expires_at" = allowed_expiry (dict_or_empty part)) by (rewrite He; unfold hd, dget_or; by rewrite dget_dset).
  assert (Hexs : allowed_expiry (dict_or_empty (sort_keys part)) = allowed_expiry (dict_or_empty part)) by (rewrite Eo at 1; rewrite expiry_sorted by (by rewrite <- Eo); rewrite <- Hex; by apply header_scalar; [| by_eval]).
  rewrite Hexs, <- Hex, py_eq_refl; [done |]. exact (good_field (VDict hd) "allowed_expires_at" (conj Hwd (textual_finite _ Th))).
Qed.
End aead.

(** ** Nothing else opens *)

Section strict.
Context (helper : string -> bytes -> option bytes) `{AeadStrict helper}.
Local Abbreviation seal_parts := (seal_parts float_of float_repr helper).
Local Abbreviation open_parts := (open_parts float_of float_repr helper).

Lemma header_object v : validate_header v = Ok tt -> v = VDict (dict_or_empty v).
Proof. unfold validate_header. intros Hv. head Hv as E. by apply closed_ok in E as (-> & _). Qed.

Lemma header_ct_len d : validate_header (VDict d) = Ok tt -> exists z, dget d "ct_len" = Some (VInt z).
Proof.
  unfold validate_header. intros Hv. head Hv as E. apply closed_ok in E as ([= Ed] & _). rewrite <- Ed in Hv. repeat (let F := fresh "F" in head Hv as F).
  all: match goal with F : _i63 (dget_or ?e "ct_len" VNone) _ = Ok ?z |- _ => apply i63_text in F as [_ F]; exists z; unfold dget_or in F; destruct (dget e "ct_len"); [by rewrite <- F | discriminate F] end.
Qed.

Lemma open_reseal framed key before header role_body signature part :
  open_parts framed key before = Ok (header, role_body, signature, part) -> seal_parts header (VDict part) role_body signature key = Ok framed.
Proof.
  unfold Envelope.open_parts. intros H1. head H1 as E. destruct a as [| header_b [| role_b [| sig [| nonce [| ct [| tag [|]]]]]]]; try discriminate H1.
  repeat (let F := fresh "F" in head H1 as F). apply ok_inj in H1. repeat (apply pair_equal_spec in H1 as [H1 <-]). subst header. units.
  apply or_unavailable_ok in F10. head F10 as Fa. apply (aead_reseal _) in F10 as Fs. apply transform_ok in F10 as (_ & _ & _ & _ & _ & Hl). change (String.eqb "open" "seal") with false in Hl. cbv iota in Hl.
  rewrite negb_false_iff in F8, F9. apply bool_decide_eq_true in F8 as ->. pose proof (header_object _ F0) as Eh. pose proof (part_object _ _ _ F13) as Ep.
  destruct (header_ct_len (dict_or_empty a)) as [z Hz]; [by rewrite <- Eh |]. unfold dget_or in F9. rewrite Hz in F9. cbn [from_option id] in F9. apply py_eq_int in F9 as <-.
  pose proof (parse_json_canonical _ _ _ _ F) as Ch. pose proof (parse_json_canonical _ _ _ _ F12) as Cp. rewrite <- Ep.
  unfold Envelope.seal_parts. rewrite Cp. cbn [mbind res_bind]. rewrite Hl, Z.add_0_r, dset_same by done. rewrite F13. cbn [mbind res_bind]. rewrite <- Eh, F0. cbn [mbind res_bind].
  rewrite F1. cbn [mbind res_bind]. rewrite F2. cbn [mbind res_bind]. rewrite F3, F4. cbn [orb]. rewrite Ch. cbn [mbind res_bind]. rewrite F5. cbn [mbind res_bind]. rewrite F7. cbn [mbind res_bind].
  rewrite Fa. cbn [mbind res_bind]. rewrite Fs. cbn [or_unavailable mbind res_bind]. by apply parse_envelope_framed.
Qed.

(** C4: nothing but its own sealing opens to given contents: an envelope that opens is byte
    for byte what sealing the header, role body, signature and part it opens to gives under
    the same key.  So the envelope has no second form: changing any of its bytes, framing,
    base64, nonce, ciphertext and tag included, makes it fail or open to other contents.
    It rests on AES-SIV being deterministic and comparing the tag it recomputes. *)
Theorem opened_reseals framed key before header role_body signature part :
  open_parts framed key before = Ok (header, role_body, signature, part) ->
  seal_parts header (VDict part) role_body signature key = Ok framed /\
  forall framed' before', framed' <> framed -> open_parts framed' key before' <> Ok (header, role_body, signature, part).
Proof.
  intros Ho. pose proof (open_reseal _ _ _ _ _ _ _ Ho) as Hs. split; [done |]. intros framed' before' Hne Ho'. apply open_reseal in Ho'. congruence.
Qed.
End strict.
End sealing.


(** ** The helper program *)

Lemma be_snoc b c : be_value (b ++ [c]) = 256 * be_value b + byte_val c.
Proof. unfold be_value. by rewrite foldl_app. Qed.

Lemma be_pack n z : 0 <= z < 256 ^ Z.of_nat n -> be_value (pack_be n z) = z.
Proof.
  revert z. induction n as [| n IH]; intros z Hz; [change (256 ^ Z.of_nat 0) with 1 in Hz; cbn; lia |]. unfold pack_be in *. cbn [pack_le]. rewrite reverse_cons, be_snoc. rewrite Nat2Z.inj_succ, Z.pow_succ_r in Hz by lia.
  rewrite IH by (apply div_bounds; lia). rewrite byte_val_of by (apply Z.mod_pos_bound; lia). pose proof (Z.div_mod z 256). lia.
Qed.

Lemma read_exact_app n b rest : zlen b = n -> read_exact n (b ++ rest) = Some (b, rest).
Proof.
  intros <-. unfold read_exact. unfold zlen. rewrite length_app, (proj2 (Z.ltb_ge _ _)) by lia. rewrite Nat2Z.id, take_app_length, drop_app_length. done.
Qed.

Section adapter.
Context (s : siv).

(** What the program does of a request: it runs the cipher on its fields. *)
Lemma iris_aead_request op key aad data tag : op = "seal" /\ tag = [] \/ op = "open" /\ zlen tag = 16 -> zlen key = 64 -> zlen aad <= LIMIT -> zlen data <= LIMIT ->
  iris_aead s op (request_of key aad data tag) =
    if (zlen aad =? 0) || (zlen data =? 0) then None
    else '(out, tag) ← (if String.eqb op "seal" then siv_encrypt s key aad data else out ← siv_decrypt s key aad data tag; Some (out, []));
         if negb (zlen out =? zlen data) then None else Some (out ++ tag).
Proof.
  intros Hop Hk Ha Hd. pose proof (zlen_nonneg aad). pose proof (zlen_nonneg data). change LIMIT with 262144 in *.
  assert (Hp : forall z, 0 <= z <= 262144 -> be_value (pack_be 4 z) = z) by (intros z Hz; apply be_pack; change (256 ^ Z.of_nat 4) with 4294967296; lia).
  unfold iris_aead, request_of. assert (String.eqb op "seal" || String.eqb op "open" = true) as -> by (by destruct Hop as [[-> _] | [-> _]]). cbn [negb].
  rewrite (app_assoc (pack_be 4 _)). rewrite read_exact_app by (unfold zlen; by rewrite length_app, !pack_be_length). cbn [mbind option_bind]. cbv zeta.
  rewrite take_app_length' by (by rewrite pack_be_length). rewrite drop_app_length' by (by rewrite pack_be_length). rewrite !Hp by lia.
  change LIMIT with 262144. rewrite (proj2 (Z.ltb_ge 262144 (zlen aad)) Ha), (proj2 (Z.ltb_ge 262144 (zlen data)) Hd), !orb_false_r. destruct (_ || _); [done |].
  rewrite read_exact_app by done. cbn [mbind option_bind]. rewrite read_exact_app by done. cbn [mbind option_bind]. rewrite read_exact_app by done. cbn [mbind option_bind].
  destruct Hop as [[-> ->] | [-> Ht]]; [done |]. change (String.eqb "open" "seal") with false. cbv iota. rewrite <- (app_nil_r tag) at 1. by rewrite read_exact_app.
Qed.

(** What RFC 5297 gives AES-SIV: a tag of 16 bytes; what is encrypted decrypts; and
    decryption recomputes the tag of the plaintext it finds and compares it, so that what
    decrypts to a plaintext is its encryption. *)
Class SivLaws : Prop := {
  siv_tag : forall key aad data ct tag, siv_encrypt s key aad data = Some (ct, tag) -> zlen tag = 16;
  siv_opens : forall key aad data ct tag, siv_encrypt s key aad data = Some (ct, tag) -> siv_decrypt s key aad ct tag = Some data;
  siv_compares : forall key aad data ct tag, siv_decrypt s key aad ct tag = Some data -> siv_encrypt s key aad data = Some (ct, tag) }.
Context `{SivLaws}.

#[export] Instance iris_aead_opens : Aead (iris_aead s).
Proof.
  intros key aad data out Hk Ha Hd Ho Hs. rewrite iris_aead_request in Hs by (by auto). destruct (_ || _) eqn:Ez; [discriminate Hs |].
  change (String.eqb "seal" "seal") with true in Hs. cbv iota in Hs. destruct (siv_encrypt s key aad data) as [[ct tag] |] eqn:E; [| discriminate Hs]. cbn [mbind option_bind] in Hs.
  destruct (zlen ct =? zlen data) eqn:El; [| discriminate Hs]. apply Z.eqb_eq in El. apply (inj Some) in Hs as <-. pose proof (siv_tag _ _ _ _ _ E) as Ht.
  assert (Ht' : length tag = 16%nat) by (unfold zlen in Ht; lia). rewrite length_app, Ht', Nat.add_sub, take_app_length, drop_app_length.
  rewrite iris_aead_request by (rewrite ?El; auto). rewrite El, Ez. change (String.eqb "open" "seal") with false. cbv iota. rewrite (siv_opens _ _ _ _ _ E). cbn [mbind option_bind].
  by rewrite Z.eqb_refl, app_nil_r.
Qed.

#[export] Instance iris_aead_strict : AeadStrict (iris_aead s).
Proof.
  intros key aad ct tag data Hk Ha Hc Ht Hl Ho. rewrite iris_aead_request in Ho by auto. destruct (_ || _) eqn:Ez; [discriminate Ho |].
  change (String.eqb "open" "seal") with false in Ho. cbv iota in Ho. destruct (siv_decrypt s key aad ct tag) as [out |] eqn:E; [| discriminate Ho]. cbn [mbind option_bind] in Ho.
  destruct (zlen out =? zlen ct) eqn:El; [| discriminate Ho]. rewrite app_nil_r in Ho. apply (inj Some) in Ho as ->.
  rewrite iris_aead_request by (rewrite ?Hl; auto). rewrite Hl, Ez. change (String.eqb "seal" "seal") with true. cbv iota. rewrite (siv_compares _ _ _ _ _ E). cbn [mbind option_bind].
  by rewrite Z.eqb_refl.
Qed.
End adapter.

(** ** A sample *)

(** A cipher that does not hide: its tag is sixteen zero bytes. *)
Definition toy_siv : siv :=
  {| siv_encrypt := fun _ _ data => Some (data, repeat (byte_of 0) 16);
     siv_decrypt := fun _ _ data tag => if bool_decide (tag = repeat (byte_of 0) 16) then Some data else None |}.

Instance toy_laws : SivLaws toy_siv.
Proof.
  split; cbn [toy_siv siv_encrypt siv_decrypt]; intros key aad data ct tag E.
  - by injection E as <- <-.
  - injection E as <- <-. by rewrite bool_decide_true.
  - case_bool_decide as Et; [| discriminate E]. by injection E as ->; rewrite Et.
Qed.

Definition is_ok {A} (r : res A) : bool := match r with Ok _ => true | Err _ => false end.

Definition no_float (b : bytes) : pyfloat := FFin 0 0.
Definition no_repr (f : pyfloat) : bytes := bytes_of "0.0".

Definition sample_part : pyval :=
  VDict [("server_time", VInt 1000); ("peers", VDict [("mode", VStr "deny"); ("rules", VList [VStr "10.0.0.0/8"]); ("include_origin", VBool true); ("allowed_expires_at", VInt 2000)]);
         ("qos_override", VDict [("max_concurrent", VInt 2)]); ("control_override", VDict [("telemetry_pause", VBool true)])].

Definition sample_gen : string := string_of (repeat "a"%char 64).
Definition sample_secret : bytes := repeat (byte_of 7) 32.

Definition sample_role : dict :=
  [("v", VInt 1); ("role", VStr "access"); ("restricted", VBool false); ("role_gen", VStr sample_gen); ("issued_at", VInt 1000); ("expires_at", VInt 5000); ("server_time", VInt 1000);
   ("qos", VDict (map (fun '(k, (lo, _)) => (k, VInt lo)) QOS_RANGES)); ("control", VDict [("catalog_tick_s", VInt 60); ("telemetry_every_ticks", VInt 1); ("telemetry_pause", VBool false)]); ("on_stale", VStr "keep")].
Definition sample_body : bytes := match canonical_json no_repr (VDict sample_role) with Ok b => b | Err _ => [] end.

Definition sample_header : dict :=
  [("v", VInt 2); ("device_id", VStr "edge-1"); ("platform", VStr "iox"); ("epoch", VInt 3); ("instr_serial", VInt 9); ("policy_revision", VInt 4); ("issued_at", VInt 1000); ("expires_at", VInt 5000);
   ("server_time", VInt 1000); ("verify_level", VStr "sig"); ("key_id", VStr (sha_hex sample_secret)); ("role", VStr "access"); ("role_gen", VStr sample_gen); ("role_body_sha256", VStr (sha_hex sample_body));
   ("ct_len", VInt 0); ("allowed_expires_at", VInt 2000); ("degraded", VBool false)].

Abbreviation sample_sealed helper := (seal_parts no_float no_repr helper sample_header sample_part sample_body (bytes_of "signature") sample_secret).

Lemma sample_seals : is_ok (sample_sealed (iris_aead toy_siv)) = true.
Proof. vm_compute. reflexivity. Qed.
Lemma sample_opens :
  match sample_sealed (iris_aead toy_siv) with Ok framed => is_ok (open_parts no_float no_repr (iris_aead toy_siv) framed sample_secret None) | Err _ => false end = true.
Proof. vm_compute. reflexivity. Qed.
Lemma sample_wf : wf_val (VDict sample_header) /\ wf_val sample_part.
Proof. split; apply wf_valb_spec; vm_compute; reflexivity. Qed.

Lemma seal_open_witness : exists framed, sample_sealed (iris_aead toy_siv) = Ok framed /\
  open_parts no_float no_repr (iris_aead toy_siv) framed sample_secret None = Ok (sealed_header no_repr sample_header sample_part, sample_body, bytes_of "signature", dict_or_empty (sort_keys sample_part)).
Proof.
  pose proof sample_seals as Hok. destruct (seal_parts _ _ _ _ _ _ _ _) as [framed | e] eqn:E; [| discriminate Hok].
  exists framed. split; [reflexivity |]. refine (seal_open no_float no_repr (iris_aead toy_siv) sample_header sample_part sample_body (bytes_of "signature") sample_secret framed _ _ _ _ E).
  - exact (proj1 sample_wf).
  - exact (proj2 sample_wf).
  - discriminate.
  - reflexivity.
Defined.

Lemma opened_reseals_witness : exists framed header role_body signature part,
  open_parts no_float no_repr (iris_aead toy_siv) framed sample_secret None = Ok (header, role_body, signature, part) /\
  seal_parts no_float no_repr (iris_aead toy_siv) header (VDict part) role_body signature sample_secret = Ok framed /\
  forall framed' before', framed' <> framed -> open_parts no_float no_repr (iris_aead toy_siv) framed' sample_secret before' <> Ok (header, role_body, signature, part).
Proof.
  pose proof sample_opens as Hok. destruct (seal_parts _ _ _ _ _ _ _ _) as [framed | e]; [| discriminate Hok]. destruct (open_parts _ _ _ _ _ _) as [[[[header role_body] signature] part] | e] eqn:E; [| discriminate Hok].
  exists framed, header, role_body, signature, part. split; [exact E |].
  exact (opened_reseals no_float no_repr (iris_aead toy_siv) framed sample_secret None header role_body signature part E).
Defined.
